(* ===== verification/_CoqProject ===== *)
-Q . S2P
Prelude.v
BAlign.v
DebugCounter.v
ByteOrder.v
ChunkBuffer2.v
FlowView.v
PacketBuffer.v
PacketProto.v
ParseNumber.v
IpAddr.v
IpAddr6.v
IpAddr6Print.v
IpUdp.v
BAddr.v
AddrText.v
DeviceUdp.v
BPending.v
JobGroup.v
FlowIf.v
BSocksClient.v
LinkedList1.v
PacketFlow.v
SendPath.v
SendFlow.v
PacketProtoFlow.v
KeyTree.v
BAVL.v
BAVLTree.v
BAVLSpec.v
CAvl.v
CAvlSpec.v
EntryOrder.v
BReactor.v
BReactorTimers.v
BReactorFds.v
BReactorInv.v
IoReactor.v
Sockets.v
BSignal.v
BTap.v
TunDevice.v
TunDeviceInv.v
BConnection.v
BConnectionInv.v
BDatagram.v
BDatagramInv.v
PacketPassFairQueue.v
FairQueueInv.v
SocksUdpGwClient.v
PacketPassInactivityMonitor.v
UdpGwClient.v
UdpGwClientInv.v
UdpGwRelay.v
Connections.v
Options.v
Main.v
BLog.v
TcpClient.v
TcpClientInv.v
