(* ===== verification/Prelude.v ===== *)
(** * Verification of the tun2socks data path

    The repository is an Android VPN application.  Its native part, under
    src/shadowsocks/src/main/jni/, builds three programs; the one that moves every packet of the
    VPN is tun2socks (badvpn/, built from the sources that Android.mk lists).  It reads IP packets
    from a TUN device, turns TCP connections into connections through a SOCKS5 server, and relays
    UDP datagrams to the SOCKS server or to a DNS gateway.  This library models the parts of
    tun2socks that are the program's own code, from the byte helpers and the event loop to the UDP
    relay and the TCP clients, and proves them correct.  All source paths below are relative to
    src/shadowsocks/src/main/jni/badvpn/.

    ** How the program is put together

    The program is event driven and single threaded.  A reactor waits for file descriptors and
    timers; handlers call each other through jobs, queued last in, first out (base/BPending.c).
    Components are connected by four kinds of flow interfaces (flow/PacketPassInterface etc.): one
    side starts an operation, the other completes it, each told of it by a job.  A component is
    thus a state with handlers, and its environment any interleaving of the events its interfaces
    allow.

    ** How the model is built

    - C integers are [Z], with the wrap-around written out where it can happen ([u8], [u16], [u32],
      [u64], [i32]); sizes are 64-bit, the machine is little-endian (as Android.mk configures).
    - An object in memory is the list of its bytes and is addressed by offsets; pointer structures
      (job queue, linked list, balanced tree) keep a heap of nodes with their pointers.
    - A handler is a function to [option]: [None] means that an [ASSERT] of the code failed or an
      access left its object, so "the handler returns [Some]" is memory safety and assertion
      safety in one.  [ASSERT b; k] is notation for it.
    - A failure that the code reports is a value ([inl tt], an event, a result flag).
    - A component's environment is an inductive type of events, [enabled] says which of them the
      interfaces allow in a state, [exec] runs the handler, [reach] is reachability.  Ghost
      histories (packets sent, received) are in the world, never in the component's state.
    - Allocators and the answers of the operating system and of lwIP are parameters: arguments or
      event data.  Interfaces between components are type classes with laws ([JobGroup],
      [KeyTree], [SendFlow], [IoReactor]), which a component of this library implements.  Every numbered theorem
      (C1, C2, ...) with a parameter or a hypothesis has a witness with a concrete one.
    - Debugging state is modelled where an assertion reads it ([d_writing], [pending], [d_err]) and
      left out otherwise ([DebugObject]).  Calls that only log are left out.

    ** Files

    - [Prelude]: assertions, machine integers, byte regions, duplicate-free lists, automation.
    - [BAlign]: misc/balign.h, misc/bsize.h, misc/minmax.h, misc/modadd.h (checked sizes).
      [DebugCounter]: misc/debugcounter.h.
    - [ByteOrder]: misc/byteorder.h, misc/read_write_int.h.
    - [ChunkBuffer2]: structure/ChunkBuffer2.h, the ring of length-prefixed packets.
    - [FlowView]: the flow interfaces as their users see them; [FlowIf]: the interface objects of
      flow/PacketPassInterface, PacketRecvInterface, StreamPassInterface, StreamRecvInterface (.h
      and .c), over the interface [JobGroup] of the job queue; [BPending]: base/BPending.c with
      structure/SLinkedList_impl.h, which implements it.
    - [PacketBuffer]: flow/PacketBuffer.c.  [PacketProto]: protocol/packetproto.h,
      flow/PacketProtoEncoder.c, flow/PacketProtoDecoder.c.  [PacketFlow]:
      flow/PacketStreamSender.c, flow/SinglePacketBuffer.c, flow/PacketPassConnector.c.
      [SendPath]: flow/BufferWriter.c, and its composition with the packet buffer.  [SendFlow]: the contract
      of a queue of outgoing packets, as a type class; [PacketProtoFlow]: flow/PacketProtoFlow.c, which
      implements it.  [PacketPassInactivityMonitor]: flowextra/PacketPassInactivityMonitor.c.
    - [ParseNumber]: misc/parse_number.h and the operations of misc/memref.h it uses.  [IpAddr]:
      misc/ipaddr.h.  [IpAddr6]: the parser of misc/ipaddr6.h; [IpAddr6Print]: its printer, masks
      and networks.
    - [IpUdp]: misc/ipv4_proto.h, misc/ipv6_proto.h, misc/udp_proto.h.  [BAddr]: system/BAddr.h,
      misc/compare.h; [AddrText]: its addresses as text, and misc/loglevel.h.  [DeviceUdp]: the two
      UDP handlers of tun2socks/tun2socks.c.
    - [LinkedList1]: structure/LinkedList1.h.  [KeyTree]: the contract of structure/BAVL.h that
      its clients rely on, as a type class.  [BAVL]: the code of structure/BAVL.h, an AVL tree of
      nodes with parent pointers; [BAVLTree]: its heap described by cells, and the rotations, swap
      and rebalancing executed on them; [BAVLSpec]: the operations against a sorted list, and the
      instance of [KeyTree].  [CAvl]: structure/CAvl_impl.h and structure/SAvl_impl.h in the
      instances of the program; [CAvlSpec]: they are the same data structure; [EntryOrder]: its order
      for entries with keys that wrap.
    - [PacketPassFairQueue]: flow/PacketPassFairQueue.c over the [CAvl] tree and the linked list;
      [FairQueueInv]: its users and output as events, invariant and theorems.
    - [BReactor]: system/BReactor_badvpn.c built with epoll, with the addition of times of
      system/BTime.h: jobs, timers in a [CAvl] tree and a list of expired ones (the list nodes share
      memory with the links of the tree, so a timer is in the heap of one of them at a time), file
      descriptors with the results of epoll, limits, one iteration of the loop as a function.
      [BReactorTimers], [BReactorFds]: its parts against their invariants; [BReactorInv]: handlers
      and operating system as events, and the theorems.
    - [IoReactor]: the file descriptor and limit functions of the reactor as its users see them, a type
      class that [BReactor] implements.  [Sockets]: descriptors, socket addresses and the answers of
      the operating system.  [BConnection], [BConnectionInv]: system/BConnection_unix.c (listeners,
      connectors, connections).  [BDatagram], [BDatagramInv]: system/BDatagram_unix.c.  [BTap]:
      tuntap/BTap.c.  [BSignal]: system/BSignal.c and system/BUnixSignal.c with signalfd.
    - [TunDevice]: the device in tun2socks/tun2socks.c: packets between it, its packet buffer, the
      UDP relay and lwIP, the job that initialises lwIP, the timer, the end of the program.
      [TunDeviceInv]: all of it together with [BTap] and the buffer of [PacketFlow], as a world with
      events, and the theorems.
    - [BSocksClient]: socksclient/BSocksClient.c, misc/socks_proto.h.
    - [SocksUdpGwClient]: the Android build of tun2socks/SocksUdpGwClient.c, protocol/udpgw_proto.h.
      [UdpGwClient]: udpgw_client/UdpGwClient.c, the relay of the other builds, over any [KeyTree] and
      [SendFlow]; [UdpGwClientInv]: its environment, invariant and theorems.
      [UdpGwRelay]: the build of tun2socks/SocksUdpGwClient.c that connects it to a server through SOCKS.
    - [Options]: command line and settings of tun2socks/tun2socks.c, misc/read_file.h.  [BLog]:
      base/BLog.h.  [Main]: [main] with its labels, [wait_for_fd] and [daemonize] of tun2socks/tun2socks.c;
      the objects of the program are names there, with what each of them uses.  [Connections]: its
      connections by port.
    - [TcpClient]: the functions on [struct tcp_client] of tun2socks/tun2socks.c, with misc/dead.h:
      a state [st] of the globals and one client for the handlers, [sys] for the program.  The
      variables of the dead mechanism are on an explicit stack, so that a pointer to a frame that
      was left is visible.  [TcpClientInv]: invariant and theorems.

    ** What the theorems show

    - Data structures implement mathematical ones: the byte ring is a bounded queue of packets
      ([chunkbuffer2_refines_queue]), the job queue a stack with removal
      ([bpending_refines_list]), the linked list a list ([linkedlist1_refines_list]), the AVL
      tree a sorted list ([bavl_refines_sorted_list], [bavl_neighbour]) of logarithmic height
      ([bavl_balanced]), the tree of CAvl_impl.h the same tree ([cavl_is_bavl]), the order of addresses
      a total order ([BAddr_CompareOrder_total]).
    - The event loop never fails an assertion or follows a dangling pointer, whatever handlers do
      ([reactor_safe]); it dispatches in the documented order ([reactor_dispatch]), expires exactly the
      timers that are due ([reactor_timers]), and never dispatches a result of epoll to a descriptor
      that was removed ([reactor_fd_results]).
    - Sockets: listeners, connectors and connections never fail an assertion, unless readiness is reported for an operation
      that is over, which the code does not exclude when the kernel reports an error and does not return it; they never use a descriptor that
      is closed ([stream_sockets_safe]), close each that they opened ([descriptors_balanced]), pass the bytes that are in memory in
      order ([connection_stream]), and wait for exactly what is outstanding ([connection_waits]);
      the same for datagrams ([datagram_safe], [datagram_delivery], [datagram_waits]).  Signals
      reach the handler exactly while they are meant to ([signals_safe]).  All hold for any [IoReactor].
    - The TUN device is used within its contract by all of its users, and nothing is lost or left at the end
      ([tun_device_safe]); packets from it are handled in order, by their headers, and reading never
      stops ([tun_device_path]); packets of lwIP are written whole ([tun_device_output]).
    - The fair queue never fails ([fair_queue_safe]), and flows share the output
      within the length of a packet ([fair_queue_fair]).
    - The command line is accepted exactly when it is in the grammar of the options
      ([options_grammar]), and start-up makes exactly the settings that these denote
      ([start_up_settings], [main_udp_mtu_value]).  Log messages stay inside their buffer and obey the
      levels ([log_message]), which are those of the options ([log_levels_configured]).  Whatever fails,
      [main] frees what it made and nothing else, in the right order ([main_cleans_up]); it is assumed there that the descriptor it
      is sent arrives and that the name in [argv] has room for what is copied into it, which the code does not check.
    - Addresses and numbers as text: socket addresses are parsed exactly when they have the form
      host:port with a host that the resolver knows ([addr_parse_correct]) and parsed back when printed
      ([addr_print_roundtrip]); the parsers of IPv4 and IPv6 addresses accept exactly their
      grammar and never leave the text ([ipv4_parse_correct], [ipv6_parse_correct]), numbers are
      parsed with overflow detected ([number_parsers_correct]), printing is inverse
      ([ipv6_print_roundtrip]), masks and prefixes agree ([prefix_masks_correct]).
    - The interface objects keep their contract: operations and completions alternate, each is
      told once, nothing is lost ([packet_pass_protocol] and its three siblings).
    - Flow components deliver: FIFO without loss and without stalling ([packet_buffer_fifo],
      [send_path_fifo], [proto_flow_fifo]), stream framing that survives any cutting ([packetproto_roundtrip]),
      [packet_stream_sender_correct], [single_packet_buffer_correct],
      [packet_pass_connector_correct], [monitor_transparent]; and no assertion of theirs can fail under any interleaving
      ([packet_buffer_safe], [packetproto_decoder_safe], and in the former statements).
    - Packet formats: readers and writers are inverse ([byteorder_roundtrip]), headers are accepted
      exactly when valid ([ipv4_check_iff]), checksums are what the RFCs say ([udp_checksums_spec]),
      a datagram survives the way to the device and back ([udp_device_roundtrip]), hostile
      packets are handled safely ([process_device_udp_packet_safe]).
    - The SOCKS5 client is safe against any server ([socks_client_safe]), is up only after a valid
      dialog in which it sent exactly what it had to ([socks_client_up]), and fails only for a
      reason ([socks_client_errors]).
    - The UDP relay keeps its table of connections as a bounded list in order of use, and overruns its buffer exactly when a packet
      does not fit with its header ([relay_refines_lru]), sends what is submitted ([relay_submit_sends]), recovers what it wrote
      ([relay_header_roundtrip]), and is freed completely ([relay_free_complete]); the witnesses run
      it on the AVL tree.
    - The relay over a udpgw connection keeps a table of connections with distinct addresses and numbers, and queues
      and delivers what the table says ([udpgw_refines_table]); its members keep to their types
      ([udpgw_types]); its loops end, and it is freed completely ([udpgw_loops_end]); its packets are read
      back as they were written ([packet_roundtrip]).  The witnesses run it on AVL trees and flows of framed packets.
      Its connection to the server is made again whenever it is lost ([relay_reconnects]).
      One flaw is shown: the flag that tells the server to bind again can be lost ([udpgw_rebind_lost]).
    - The TCP clients never touch a client, a connection or a stack frame that is gone, under any
      interleaving of lwIP, SOCKS and the jobs run inside callbacks ([tcp_clients_safe]); lwIP is
      told of every abort ([tcp_abort_reported]); both directions keep their bytes
      ([tcp_upload_intact], [tcp_download_intact]); a client is never stuck ([tcp_never_stuck]) and
      is freed only when nothing more can be delivered ([tcp_freed_complete]); the end of the program
      frees all of them ([tcp_free_all]).

    ** Bounds and fuel

    Two rounds fold the carries of a checksum of up to 2^16 words ([fold_carries]); one round per
    connection frees the relays ([SocksUdpGwClient_Free], [free_loop]) and the connections by port
    ([free_connections]); the search for an unused number gets
    as many rounds as there are numbers ([find_unused_conid]); one round per client frees the TCP clients
    ([free_clients]); the functions that free the sides of a client call each other in a cycle,
    at most twice around ([FREE_DEPTH]); the loop that queues data in lwIP makes at most one round per byte
    ([write_loop]); walks in the AVL tree get the number of nodes plus one ([fuel_of]); the loops that
    expire timers and reset limits get the number of timers or limits plus one ([timers_fuel]); a
    decimal number has at most 20 digits ([DECIMAL_ROUNDS]), an IPv4 address four parts; standard streams are opened until one
    has a number above 2, in at most four rounds ([stream_rounds]); the loop over the
    command line gets the number of arguments, the loop that reads a file its length plus one, the
    loop that lowers the times of a fair queue the number of flows.  All are proved to be enough.  The loop that waits makes one round per answer of [epoll_wait].  Buffers
    are assumed smaller than 2 GiB where the code multiplies block counts in [int]; the overflow
    beyond it is [input_avail_overflow] of [ChunkBuffer2].  Recursion is structural everywhere
    else.

    ** What is assumed of the environment

    The events of a world say it ([enabled]): the reactor reports only what is waited for, errors and
    hang-ups; [read], [recv] and [write] return at most what they were asked for; a new descriptor is
    not open; the buffers that a user sends from and receives into do not overlap, and no one changes the bytes that are being sent.
    That an error the reactor reports is returned by the next operation on the socket is assumed only where [posix] is true.
    Packets are submitted to the relay when its job for the previous one has run.  And
    the resolver is deterministic and knows the texts of addresses ([resolver_ok], only for the round
    trip); lwIP takes the ownership of a packet exactly when it returns [ERR_OK], its packets have at
    least one buffer, and it calls back only as documented.  The job that initialises lwIP runs before
    the others because it was set last.

    ** What is not modelled

    - lwIP, libevent, libancillary, redsocks: third-party code.
    - The clock, network start-up and log output (system/BTime.c, system/BNetwork.c, base/BLog.c,
      base/DebugObject.c): operating system calls; they are the environment.  Of the reactor the
      builds for kevent, poll and WINAPI, which Android.mk does not select; of signals the same; of the TUN device those for
      Windows and FreeBSD.
    - Of tun2socks/tun2socks.c the output of help and version, and [tcp_remove], which aborts what lwIP still has.
    - Of structure/BAVL.h the counters of [BAVL_COUNT], which no file of the program defines; of
      structure/CAvl_impl.h counts, associated values and keys, which its users here switch off.
    - The rest of badvpn (VPN client and server, NCD, DHCP, ...) is not built into the application;
      the Kotlin and Java sources are the application around it. *)

From stdpp Require Export base numbers list option.
From Stdlib Require Export ZArith Lia.
From Stdlib Require Import Zbitwise.

#[global] Open Scope Z_scope.
#[global] Set Default Goal Selector "!".

(** ** Assertions

    [ASSERT b ; k] is the C macro [ASSERT(b)] followed by [k].  A violated assertion, and an
    access outside an object, are the value [None]: the theorems that conclude
    [Some _] therefore show that no assertion of the code path can fail. *)
Declare Scope c_scope.
Delimit Scope c_scope with c.
#[global] Open Scope c_scope.
Notation "'ASSERT' b ; k" := (if (b : bool) then k else None)
  (at level 10, b at level 100, k at level 200) : c_scope.

(** ** Machine integers *)
Definition INT_MAX : Z := 2147483647.
Definition UINT16_MAX : Z := 65535.
Definition UINT64_MAX : Z := 18446744073709551615.
Definition SIZE_MAX : Z := 18446744073709551615.

(** Conversion to an unsigned type of [w] bits. *)
Definition uwrap (w x : Z) : Z := x mod 2 ^ w.
Abbreviation u8 := (uwrap 8).
Abbreviation u16 := (uwrap 16).
Abbreviation u32 := (uwrap 32).
Abbreviation u64 := (uwrap 64).

(** Conversion to [int]: two's complement on 32 bits. *)
Definition i32 (x : Z) : Z :=
  let y := x mod 2 ^ 32 in if y <? 2 ^ 31 then y else y - 2 ^ 32.

Lemma uwrap_range w x : 0 <= w -> 0 <= uwrap w x < 2 ^ w.
Proof. intros. apply Z.mod_pos_bound. lia. Qed.

Lemma uwrap_small w x : 0 <= x < 2 ^ w -> uwrap w x = x.
Proof. apply Z.mod_small. Qed.

Lemma i32_small x : - 2 ^ 31 <= x < 2 ^ 31 -> i32 x = x.
Proof.
  intros H. unfold i32. destruct (Z.ltb_spec (x mod 2 ^ 32) (2 ^ 31)) as [E|E];
    Z.div_mod_to_equations; lia.
Qed.

(** ** Byte memory

    An object is the list of its bytes, addressed by [Z] offsets. *)
Definition zlen {A} (l : list A) : Z := Z.of_nat (length l).
Definition sub {A} (l : list A) (o n : Z) : list A :=
  take (Z.to_nat n) (drop (Z.to_nat o) l).
Definition splice {A} (l : list A) (o : Z) (d : list A) : list A :=
  take (Z.to_nat o) l ++ d ++ drop (Z.to_nat (o + zlen d)) l.
Definition is_byte (b : Z) : Prop := 0 <= b < 256.
Definition bytes_ok (l : list Z) : Prop := Forall is_byte l.

Lemma zlen_nonneg {A} (l : list A) : 0 <= zlen l.
Proof. unfold zlen. lia. Qed.
Lemma zlen_nil {A} : zlen (@nil A) = 0.
Proof. done. Qed.
Lemma zlen_cons {A} (x : A) l : zlen (x :: l) = 1 + zlen l.
Proof. unfold zlen. simpl. lia. Qed.
Lemma zlen_app {A} (l1 l2 : list A) : zlen (l1 ++ l2) = zlen l1 + zlen l2.
Proof. unfold zlen. rewrite length_app. lia. Qed.
Lemma zlen_replicate {A} n (x : A) : zlen (replicate (Z.to_nat n) x) = Z.max 0 n.
Proof. unfold zlen. rewrite length_replicate. lia. Qed.
Lemma zlen_sub {A} (l : list A) o n :
  0 <= o -> 0 <= n -> o + n <= zlen l -> zlen (sub l o n) = n.
Proof. unfold zlen, sub. intros. rewrite length_take, length_drop. lia. Qed.
Lemma zlen_take {A} (l : list A) n : 0 <= n <= zlen l -> zlen (take (Z.to_nat n) l) = n.
Proof. unfold zlen. intros. rewrite length_take. lia. Qed.
Lemma zlen_splice {A} (l : list A) o d :
  0 <= o -> o + zlen d <= zlen l -> zlen (splice l o d) = zlen l.
Proof.
  unfold zlen, splice. intros. rewrite !length_app, length_take, length_drop. unfold zlen. lia.
Qed.

Lemma sub_0_all {A} (l : list A) : sub l 0 (zlen l) = l.
Proof. unfold sub, zlen. rewrite drop_0. apply take_ge. lia. Qed.

Lemma sub_nil {A} (l : list A) o : sub l o 0 = [].
Proof. done. Qed.

Lemma sub_app_l {A} (l k : list A) o n :
  0 <= o -> 0 <= n -> o + n <= zlen l -> sub (l ++ k) o n = sub l o n.
Proof.
  unfold sub, zlen. intros. rewrite drop_app_le by lia.
  rewrite take_app_le; [done|]. rewrite length_drop. lia.
Qed.

Lemma sub_app_r {A} (l k : list A) o n :
  zlen l <= o -> sub (l ++ k) o n = sub k (o - zlen l) n.
Proof.
  unfold sub, zlen. intros. rewrite drop_app_ge by lia. do 2 f_equal. lia.
Qed.

Lemma sub_take {A} (l : list A) k o n :
  0 <= o -> 0 <= n -> o + n <= k -> sub (take (Z.to_nat k) l) o n = sub l o n.
Proof.
  unfold sub. intros. rewrite !take_drop_commute, take_take. do 2 f_equal. lia.
Qed.

Lemma sub_drop {A} (l : list A) k o n :
  0 <= o -> 0 <= k -> sub (drop (Z.to_nat k) l) o n = sub l (k + o) n.
Proof. unfold sub. intros. rewrite drop_drop. do 2 f_equal. lia. Qed.

Lemma sub_sub {A} (l : list A) o n o' n' :
  0 <= o -> 0 <= o' -> 0 <= n' -> o' + n' <= n -> sub (sub l o n) o' n' = sub l (o + o') n'.
Proof.
  intros. unfold sub at 2. rewrite sub_take by lia. rewrite sub_drop by lia. done.
Qed.

(** Splitting a region into two adjacent ones. *)
Lemma sub_split {A} (l : list A) o n k :
  0 <= o -> 0 <= k <= n -> sub l o n = sub l o k ++ sub l (o + k) (n - k).
Proof.
  intros. unfold sub.
  replace (Z.to_nat n) with (Z.to_nat k + Z.to_nat (n - k))%nat by lia.
  rewrite <- take_take_drop, drop_drop. do 3 f_equal. lia.
Qed.

Lemma sub_splice_eq {A} (l : list A) o d :
  0 <= o <= zlen l -> sub (splice l o d) o (zlen d) = d.
Proof.
  unfold splice. intros. rewrite sub_app_r by (rewrite zlen_take; lia).
  rewrite zlen_take by lia. rewrite sub_app_l by (pose proof (zlen_nonneg d); lia).
  rewrite Z.sub_diag. apply sub_0_all.
Qed.

(** A write leaves a disjoint region unchanged. *)
Lemma sub_splice_ne {A} (l : list A) o d o' n :
  0 <= o -> o + zlen d <= zlen l -> 0 <= o' -> 0 <= n ->
  o' + n <= o \/ o + zlen d <= o' ->
  sub (splice l o d) o' n = sub l o' n.
Proof.
  intros Ho Hd Ho' Hn [E|E]; unfold splice; pose proof (zlen_nonneg d).
  - rewrite sub_app_l by (rewrite ?zlen_take; lia). apply sub_take; lia.
  - rewrite sub_app_r by (rewrite zlen_take; lia). rewrite zlen_take by lia.
    rewrite sub_app_r by lia. rewrite sub_drop by lia. f_equal. lia.
Qed.

(** A write replaces the middle of a list; adjacent writes are one. *)
Lemma splice_middle {A} (l1 m l2 d : list A) o :
  zlen l1 = o -> zlen m = zlen d -> splice (l1 ++ m ++ l2) o d = l1 ++ d ++ l2.
Proof.
  intros <- Hm. unfold splice, zlen in *. rewrite take_app_length' by lia. do 2 f_equal.
  rewrite app_assoc. apply drop_app_length'. rewrite length_app. lia.
Qed.
Lemma split3 {A} (l : list A) o n :
  0 <= o -> 0 <= n -> o + n <= zlen l ->
  exists l1 m l2, l = l1 ++ m ++ l2 /\ zlen l1 = o /\ zlen m = n.
Proof.
  intros. exists (take (Z.to_nat o) l), (take (Z.to_nat n) (drop (Z.to_nat o) l)), (drop (Z.to_nat n) (drop (Z.to_nat o) l)).
  rewrite !take_drop. unfold zlen in *. rewrite !length_take, length_drop. split_and!; [done|lia|lia].
Qed.
Lemma splice_splice {A} (l a b : list A) o :
  0 <= o -> o + zlen a + zlen b <= zlen l ->
  splice (splice l o a) (o + zlen a) b = splice l o (a ++ b) /\
  splice (splice l (o + zlen a) b) o a = splice l o (a ++ b).
Proof.
  intros Ho Hl. pose proof (zlen_nonneg a). pose proof (zlen_nonneg b).
  destruct (split3 l o (zlen a + zlen b)) as (l1 & m & l2 & -> & E1 & Em); [lia..|].
  destruct (split3 m (zlen a) (zlen b)) as (ma & mb & m2 & -> & Ea & Eb); [lia..|].
  rewrite !zlen_app in Em. assert (m2 = []) as -> by (apply nil_length_inv; unfold zlen in *; lia).
  rewrite app_nil_r. rewrite (splice_middle l1 (ma ++ mb) l2 (a ++ b)) by (rewrite ?zlen_app; lia).
  rewrite <- !app_assoc. split.
  - rewrite (splice_middle l1 ma) by lia. rewrite (app_assoc l1 a), splice_middle by (rewrite ?zlen_app; lia).
    by rewrite <- !app_assoc.
  - rewrite (app_assoc l1 ma), splice_middle by (rewrite ?zlen_app; lia). rewrite <- !app_assoc.
    by rewrite splice_middle by lia.
Qed.

Lemma splice_after {A} (l a b : list A) o :
  0 <= o -> o + zlen a + zlen b <= zlen l -> splice (splice l o a) (o + zlen a) b = splice l o (a ++ b).
Proof. apply splice_splice. Qed.
Lemma splice_before {A} (l a b : list A) o :
  0 <= o -> o + zlen a + zlen b <= zlen l -> splice (splice l (o + zlen a) b) o a = splice l o (a ++ b).
Proof. apply splice_splice. Qed.

Lemma bytes_ok_app l1 l2 : bytes_ok (l1 ++ l2) <-> bytes_ok l1 /\ bytes_ok l2.
Proof. apply Forall_app. Qed.
Lemma bytes_ok_sub l o n : bytes_ok l -> bytes_ok (sub l o n).
Proof. intros. by apply Forall_take, Forall_drop. Qed.
Lemma bytes_ok_splice l o d : bytes_ok l -> bytes_ok d -> bytes_ok (splice l o d).
Proof. intros. unfold splice. rewrite !bytes_ok_app. split_and!; [by apply Forall_take|done|by apply Forall_drop]. Qed.

(** [memcmp] up to its sign: the difference at the first byte that differs. *)
Fixpoint memcmp (l k : list Z) : Z :=
  match l, k with
  | a :: l, b :: k => if a =? b then memcmp l k else a - b
  | _, _ => 0
  end.

Lemma memcmp_eq l k : length l = length k -> memcmp l k = 0 <-> l = k.
Proof.
  revert k. induction l as [|a l IH]; intros [|b k]; try done. intros [= H]. simpl.
  destruct (Z.eqb_spec a b) as [->|N]; [|split; [lia|congruence]].
  rewrite IH by done. split; [by intros ->|by intros [=]].
Qed.

(** ** Lists without duplicates

    [without x l] is [l] with [x] taken out; on a list without duplicates it deletes one
    position. *)
Definition without {A} `{EqDecision A} (x : A) (l : list A) : list A := filter (.≠ x) l.

Lemma without_id {A} `{EqDecision A} (x : A) l : x ∉ l -> without x l = l.
Proof.
  induction l as [|y l IH]; intros Hx; [done|]. apply not_elem_of_cons in Hx as [Hx Hl].
  unfold without in *. rewrite filter_cons_True by done. by rewrite IH.
Qed.
Lemma without_app {A} `{EqDecision A} (x : A) l k : without x (l ++ k) = without x l ++ without x k.
Proof. apply list.filter_app. Qed.
Lemma without_cons_eq {A} `{EqDecision A} (x : A) l : without x (x :: l) = without x l.
Proof. unfold without. rewrite filter_cons_False; [done|]. by intros ?. Qed.
Lemma without_delete {A} `{EqDecision A} (x : A) l k : NoDup l -> l !! k = Some x -> without x l = delete k l.
Proof.
  intros Hn Hk. rewrite <- (take_drop_middle l k x Hk) in Hn. apply list.NoDup_app in Hn as (_ & Hd & Hn).
  apply list.NoDup_cons in Hn as [Hx _].
  rewrite <- (take_drop_middle l k x Hk) at 1. rewrite without_app, without_cons_eq, delete_take_drop.
  rewrite !without_id; [done|done|]. intros H. apply (Hd x H). by left.
Qed.
Lemma elem_of_without {A} `{EqDecision A} (x y : A) l : y ∈ without x l <-> y <> x /\ y ∈ l.
Proof. unfold without. rewrite list_elem_of_filter. done. Qed.
Lemma NoDup_without {A} `{EqDecision A} (x : A) l : NoDup l -> NoDup (without x l).
Proof. apply list.NoDup_filter. Qed.

(** ** Automation *)
Create Rewrite HintDb zlen.
#[export] Hint Rewrite @zlen_app @zlen_cons @zlen_nil : zlen.

(** Evaluate the boolean tests of the code into propositions. *)
Ltac reflect_bool :=
  repeat match goal with
  | H : (_ && _)%bool = true |- _ => apply andb_true_iff in H; destruct H
  | H : (_ && _)%bool = false |- _ => apply andb_false_iff in H
  | H : (_ || _)%bool = true |- _ => apply orb_true_iff in H
  | H : (_ || _)%bool = false |- _ => apply orb_false_iff in H; destruct H
  | H : negb _ = true |- _ => apply negb_true_iff in H
  | H : negb _ = false |- _ => apply negb_false_iff in H
  | H : (_ <? _) = true |- _ => apply Z.ltb_lt in H
  | H : (_ <? _) = false |- _ => apply Z.ltb_ge in H
  | H : (_ <=? _) = true |- _ => apply Z.leb_le in H
  | H : (_ <=? _) = false |- _ => apply Z.leb_gt in H
  | H : (_ =? _) = true |- _ => apply Z.eqb_eq in H
  | H : (_ =? _) = false |- _ => apply Z.eqb_neq in H
  | H : (_ >? _) = true |- _ => apply Z.gtb_gt in H
  | H : (_ >? _) = false |- _ => rewrite Z.gtb_ltb in H
  | H : (_ >=? _) = true |- _ => rewrite Z.geb_leb in H
  | H : (_ >=? _) = false |- _ => rewrite Z.geb_leb in H
  | H : Is_true _ |- _ => apply Is_true_eq_true in H
  end.

(** Case analysis on the scrutinee of a test in the goal. *)
Ltac case_if :=
  match goal with
  | |- context [if ?b then _ else _] =>
      match type of b with
      | bool => let E := fresh "E" in destruct b eqn:E; reflect_bool
      end
  end.

(** Discharge the test of an [ASSERT] that holds by arithmetic. *)
Ltac bool_true :=
  match goal with
  | |- context [if ?b then _ else _] =>
      let H := fresh in
      assert (H : b = true) by (rewrite ?andb_true_iff, ?orb_true_iff, ?negb_true_iff,
        ?Z.leb_le, ?Z.ltb_lt, ?Z.eqb_eq, ?Z.geb_leb, ?Z.gtb_ltb, ?Z.leb_le, ?Z.ltb_lt,
        ?Z.leb_gt, ?Z.ltb_ge; lia);
      rewrite H; clear H
  end.
Ltac bool_false :=
  match goal with
  | |- context [if ?b then _ else _] =>
      let H := fresh in
      assert (H : b = false) by (rewrite ?andb_false_iff, ?orb_false_iff, ?negb_false_iff,
        ?Z.geb_leb, ?Z.gtb_ltb, ?Z.leb_gt, ?Z.ltb_ge, ?Z.eqb_neq; lia);
      rewrite H; clear H
  end.

(** An allocator, for the witnesses: it always succeeds. *)
Definition zeros (n : Z) : option (list Z) :=
  if n <? 0 then None else Some (replicate (Z.to_nat n) 0).

Lemma zeros_size n m : zeros n = Some m -> zlen m = n.
Proof. unfold zeros. case_if; [done|]. intros [= <-]. rewrite zlen_replicate. lia. Qed.

