(* ===== verification/BAlign.v ===== *)
(** * Integer helpers of badvpn/misc

    [balign.h] (rounding on [size_t]), [bsize.h] (sizes that remember an
    overflow), [minmax.h] and [modadd.h]. *)

From S2P Require Import Prelude.

(** ** balign.h *)
Module BAlign.

Definition balign_up_overflows (x n : Z) : bool :=
  let r := x mod n in negb (r =? 0) && (x >? SIZE_MAX - (n - r)).

Definition balign_up (x n : Z) : Z :=
  let r := x mod n in if negb (r =? 0) then u64 (x + (n - r)) else x.

Definition balign_down (x n : Z) : Z := x - x mod n.

Definition bdivide_up (a b : Z) : Z :=
  let r := a mod b in if r >? 0 then a / b + 1 else a / b.

(** [bdivide_up a b] is the least [q] with [a <= q * b]. *)
Lemma bdivide_up_spec a b : 0 <= a -> 0 < b ->
  (bdivide_up a b - 1) * b < a <= bdivide_up a b * b.
Proof.
  intros Ha Hb. unfold bdivide_up.
  destruct (Z.gtb_spec (a mod b) 0); Z.div_mod_to_equations; nia.
Qed.

Lemma bdivide_up_nonneg a b : 0 <= a -> 0 < b -> 0 <= bdivide_up a b.
Proof. intros. pose proof (bdivide_up_spec a b). nia. Qed.

Lemma bdivide_up_mono a a' b : 0 <= a <= a' -> 0 < b -> bdivide_up a b <= bdivide_up a' b.
Proof.
  intros. pose proof (bdivide_up_spec a b). pose proof (bdivide_up_spec a' b). nia.
Qed.

Lemma balign_up_spec x n : 0 <= x <= SIZE_MAX -> 0 < n ->
  balign_up_overflows x n = false ->
  x <= balign_up x n < x + n /\ balign_up x n mod n = 0.
Proof.
  unfold balign_up_overflows, balign_up, SIZE_MAX. intros Hx Hn H.
  destruct (Z.eqb_spec (x mod n) 0) as [E|E]; simpl in *; [lia|].
  rewrite Z.gtb_ltb in H. apply Z.ltb_ge in H.
  pose proof (Z.mod_pos_bound x n). rewrite uwrap_small by lia.
  split; [lia|]. replace (x + (n - x mod n)) with ((x / n + 1) * n) by (Z.div_mod_to_equations; nia).
  apply Z.mod_mul. lia.
Qed.

End BAlign.

(** ** bsize.h *)
Module BSize.

Record bsize_t := { is_overflow : bool; value : Z }.

Definition bsize_fromsize (v : Z) : bsize_t := {| is_overflow := false; value := v |}.

(** [v] is an [int]; the conversion of a negative [v] to [size_t] wraps. *)
Definition bsize_fromint (v : Z) : bsize_t :=
  {| is_overflow := (v <? 0) || (u64 v >? SIZE_MAX); value := u64 v |}.

Definition bsize_overflow : bsize_t := {| is_overflow := true; value := 0 |}.

Definition bsize_tosize (s : bsize_t) : option Z :=
  if is_overflow s then None else Some (value s).

Definition bsize_toint (s : bsize_t) : option Z :=
  if is_overflow s || (value s >? INT_MAX) then None else Some (value s).

Definition bsize_add (s1 s2 : bsize_t) : bsize_t :=
  {| is_overflow := is_overflow s1 || is_overflow s2 || (value s2 >? SIZE_MAX - value s1);
     value := u64 (value s1 + value s2) |}.

Definition bsize_max (s1 s2 : bsize_t) : bsize_t :=
  {| is_overflow := is_overflow s1 || is_overflow s2;
     value := u64 (Z.b2z (value s1 >? value s2) * value s1
                   + Z.b2z (value s1 <=? value s2) * value s2) |}.

Definition bsize_mul (s1 s2 : bsize_t) : bsize_t :=
  {| is_overflow := is_overflow s1 || is_overflow s2
       || (negb (value s1 =? 0) && (value s2 >? SIZE_MAX / value s1));
     value := u64 (value s1 * value s2) |}.

(** A [bsize_t] denotes a mathematical size: [None] once it left [size_t]. *)
Definition denotes (s : bsize_t) (d : option Z) : Prop :=
  0 <= value s <= SIZE_MAX /\
  match d with
  | Some n => is_overflow s = false /\ value s = n
  | None => is_overflow s = true
  end.

(** The mathematical counterpart of a checked operation. *)
Definition checked (op : Z -> Z -> Z) (a b : option Z) : option Z :=
  match a, b with
  | Some x, Some y => if op x y <=? SIZE_MAX then Some (op x y) else None
  | _, _ => None
  end.

Lemma u64_range x : 0 <= u64 x <= SIZE_MAX.
Proof. pose proof (uwrap_range 64 x). unfold SIZE_MAX. lia. Qed.

Lemma u64_small x : 0 <= x <= SIZE_MAX -> u64 x = x.
Proof. intros. apply uwrap_small. unfold SIZE_MAX in *. lia. Qed.

Lemma denotes_None s : is_overflow s = true -> 0 <= value s <= SIZE_MAX -> denotes s None.
Proof. by split. Qed.

Lemma add_denotes s1 s2 d1 d2 : denotes s1 d1 -> denotes s2 d2 ->
  denotes (bsize_add s1 s2) (checked Z.add d1 d2).
Proof.
  intros [R1 H1] [R2 H2]. pose proof (u64_range (value s1 + value s2)).
  destruct d1 as [x|], d2 as [y|]; simpl; try (apply denotes_None; simpl; [|done]; destruct_and?;
    repeat match goal with H : is_overflow _ = _ |- _ => rewrite H end; by rewrite ?orb_true_r).
  destruct H1 as [O1 <-], H2 as [O2 <-].
  destruct (Z.leb_spec (value s1 + value s2) SIZE_MAX); split; simpl; rewrite ?O1, ?O2; simpl; try done.
  - split; [lia|apply u64_small; lia].
  - rewrite Z.gtb_ltb. apply Z.ltb_lt. lia.
Qed.

Lemma max_denotes s1 s2 d1 d2 : denotes s1 d1 -> denotes s2 d2 ->
  denotes (bsize_max s1 s2) (checked Z.max d1 d2).
Proof.
  intros [R1 H1] [R2 H2].
  pose proof (u64_range (Z.b2z (value s1 >? value s2) * value s1
                   + Z.b2z (value s1 <=? value s2) * value s2)) as R.
  destruct d1 as [x|], d2 as [y|]; simpl; try (apply denotes_None; simpl; [|done]; destruct_and?;
    repeat match goal with H : is_overflow _ = _ |- _ => rewrite H end; by rewrite ?orb_true_r).
  destruct H1 as [O1 <-], H2 as [O2 <-].
  destruct (Z.leb_spec (Z.max (value s1) (value s2)) SIZE_MAX); [|lia].
  split; simpl; [done|]. rewrite O1, O2. split; [done|].
  rewrite Z.gtb_ltb, u64_small;
    destruct (Z.ltb_spec (value s2) (value s1)), (Z.leb_spec (value s1) (value s2)); simpl Z.b2z; lia.
Qed.

Lemma mul_denotes s1 s2 d1 d2 : denotes s1 d1 -> denotes s2 d2 ->
  denotes (bsize_mul s1 s2) (checked Z.mul d1 d2).
Proof.
  intros [R1 H1] [R2 H2]. pose proof (u64_range (value s1 * value s2)).
  destruct d1 as [x|], d2 as [y|]; simpl; try (apply denotes_None; simpl; [|done]; destruct_and?;
    repeat match goal with H : is_overflow _ = _ |- _ => rewrite H end; by rewrite ?orb_true_r).
  destruct H1 as [O1 <-], H2 as [O2 <-].
  destruct (Z.leb_spec (value s1 * value s2) SIZE_MAX); split; simpl; rewrite ?O1, ?O2; simpl; try done.
  - split; [|apply u64_small; nia].
    destruct (Z.eqb_spec (value s1) 0); simpl; [done|].
    rewrite Z.gtb_ltb. apply Z.ltb_ge, Z.div_le_lower_bound; lia.
  - destruct (Z.eqb_spec (value s1) 0); simpl; [nia|].
    rewrite Z.gtb_ltb. apply Z.ltb_lt, Z.div_lt_upper_bound; lia.
Qed.

Lemma fromsize_denotes v : 0 <= v <= SIZE_MAX -> denotes (bsize_fromsize v) (Some v).
Proof. intros. split; simpl; [lia|done]. Qed.

Lemma fromint_denotes v : - INT_MAX - 1 <= v <= INT_MAX ->
  denotes (bsize_fromint v) (if v <? 0 then None else Some v).
Proof.
  intros H. split; [apply u64_range|]. simpl. unfold INT_MAX in *.
  destruct (Z.ltb_spec v 0); simpl; [done|].
  rewrite u64_small by (unfold SIZE_MAX; lia). split; [|done].
  rewrite Z.gtb_ltb. apply Z.ltb_ge. unfold SIZE_MAX. lia.
Qed.

End BSize.

(** ** minmax.h, modadd.h *)
Definition bmin_int (a b : Z) : Z := if a <? b then a else b.
Definition bmax_int (a b : Z) : Z := if a >? b then a else b.
Definition bmax_uint64 (a b : Z) : Z := if a >? b then a else b.

Definition bmodadd_int (x y m : Z) : option Z :=
  ASSERT x >=? 0; ASSERT x <? m; ASSERT y >=? 0; ASSERT y <? m;
  if y >=? m - x then Some (y - (m - x)) else Some (x + y).

Lemma bmin_int_min a b : bmin_int a b = Z.min a b.
Proof. unfold bmin_int. destruct (Z.ltb_spec a b); lia. Qed.
Lemma bmax_int_max a b : bmax_int a b = Z.max a b.
Proof. unfold bmax_int. rewrite Z.gtb_ltb. destruct (Z.ltb_spec b a); lia. Qed.
Lemma bmax_uint64_max a b : bmax_uint64 a b = Z.max a b.
Proof. apply bmax_int_max. Qed.

(** Modular addition that never leaves [int]: the sum is not formed when it could wrap. *)
Lemma bmodadd_int_spec x y m : 0 <= x < m -> 0 <= y < m ->
  bmodadd_int x y m = Some ((x + y) mod m).
Proof.
  intros. unfold bmodadd_int. do 4 bool_true.
  destruct (Z.geb_spec y (m - x)); f_equal.
  - rewrite <- (Z.mod_add _ (-1)) by lia. rewrite Z.mod_small; lia.
  - rewrite Z.mod_small; lia.
Qed.
