(* ===== verification/DebugCounter.v ===== *)
(** * Leak counters (misc/debugcounter.h)

    A counter of the objects that exist, which an owner asserts to be zero when it is freed.  It
    stays at [INT32_MAX] once it is there. *)

From S2P Require Import Prelude.

Definition DebugCounter_Increment (c : Z) : option Z :=
  ASSERT c >=? 0;
  Some (if negb (c =? INT_MAX) then c + 1 else c).
Definition DebugCounter_Decrement (c : Z) : option Z :=
  ASSERT c >? 0;
  Some (if negb (c =? INT_MAX) then c - 1 else c).
Definition DebugCounter_Free (c : Z) : option unit := ASSERT (c =? 0) || (c =? INT_MAX); Some tt.

(** The counter [c] of [n] objects. *)
Definition counter_ok (c : Z) (n : nat) : Prop := c = INT_MAX \/ c = Z.of_nat n.

Lemma counter_increment c n : counter_ok c n -> exists c', DebugCounter_Increment c = Some c' /\ counter_ok c' (S n).
Proof.
  intros [-> | ->]; unfold DebugCounter_Increment, counter_ok, INT_MAX; [eexists; split; [reflexivity|by left]|].
  bool_true. case_if; eexists; (split; [reflexivity|]); reflect_bool; [right|left]; lia.
Qed.
Lemma counter_decrement c n : counter_ok c (S n) -> exists c', DebugCounter_Decrement c = Some c' /\ counter_ok c' n.
Proof.
  intros [-> | ->]; unfold DebugCounter_Decrement, counter_ok, INT_MAX; [eexists; split; [reflexivity|by left]|].
  bool_true. case_if; eexists; (split; [reflexivity|]); reflect_bool; [right|left]; lia.
Qed.
