(* ===== verification/ByteOrder.v ===== *)
(** * Byte order (misc/read_write_int.h, misc/byteorder.h)

    Integers in memory.  The target defines [BADVPN_LITTLE_ENDIAN] (Android.mk), so the
    object representation of an integer is its bytes from the least significant one. *)

From S2P Require Import Prelude.

(** ** Reference codec: base-256 digits *)
Fixpoint le_val (l : list Z) : Z :=
  match l with [] => 0 | b :: l => b + 256 * le_val l end.
Fixpoint le_digits (n : nat) (x : Z) : list Z :=
  match n with O => [] | S n => x mod 256 :: le_digits n (x / 256) end.

Lemma le_digits_length n x : length (le_digits n x) = n.
Proof. revert x. induction n; simpl; auto. Qed.
Lemma zlen_le_digits n x : zlen (le_digits n x) = Z.of_nat n.
Proof. unfold zlen. by rewrite le_digits_length. Qed.
Lemma le_digits_bytes n x : bytes_ok (le_digits n x).
Proof.
  revert x. induction n; intros; simpl; constructor; [|apply IHn].
  apply Z.mod_pos_bound. lia.
Qed.
Lemma le_val_digits n x : le_val (le_digits n x) = x mod 256 ^ Z.of_nat n.
Proof.
  revert x. induction n as [|n IH]; intros x; [by rewrite Z.mod_1_r|].
  cbn [le_digits le_val]. rewrite IH, Nat2Z.inj_succ, Z.pow_succ_r by lia.
  pose proof (Z.pow_pos_nonneg 256 (Z.of_nat n)).
  rewrite Z.rem_mul_r by lia. lia.
Qed.
Lemma le_digits_val l : bytes_ok l -> le_digits (length l) (le_val l) = l.
Proof.
  induction 1 as [|b l Hb _ IH]; [done|]. unfold is_byte in Hb. cbn [length le_digits le_val].
  rewrite (Z.mul_comm 256), Z.mod_add, Z.div_add, Z.mod_small, Z.div_small by lia.
  by rewrite Z.add_0_l, IH.
Qed.
Lemma le_val_range l : bytes_ok l -> 0 <= le_val l < 256 ^ zlen l.
Proof.
  induction 1 as [|b l Hb _ IH]; [simpl; unfold zlen; simpl; lia|].
  unfold is_byte in Hb. rewrite zlen_cons, Z.pow_add_r by (pose proof (zlen_nonneg l); lia).
  simpl le_val. lia.
Qed.
Lemma le_val_app l k : le_val (l ++ k) = le_val l + 256 ^ zlen l * le_val k.
Proof.
  induction l as [|b l IH]; cbn [le_val app]; [unfold zlen; simpl; lia|].
  rewrite IH, zlen_cons, Z.pow_add_r by (pose proof (zlen_nonneg l); lia). lia.
Qed.

(** ** read_write_int.h

    A reader takes the bytes the pointer designates ([None]: fewer than it reads); a writer
    gives the bytes it stores from the pointer on. *)
Definition badvpn_read_le8 (ptr : list Z) : option Z :=
  match ptr with p0 :: _ => Some (Z.shiftl p0 0) | _ => None end.
Definition badvpn_read_le16 (ptr : list Z) : option Z :=
  match ptr with
  | p0 :: p1 :: _ => Some (Z.lor (Z.shiftl p1 8) (Z.shiftl p0 0))
  | _ => None
  end.
Definition badvpn_read_le32 (ptr : list Z) : option Z :=
  match ptr with
  | p0 :: p1 :: p2 :: p3 :: _ =>
      Some (Z.lor (Z.lor (Z.lor (Z.shiftl p3 24) (Z.shiftl p2 16)) (Z.shiftl p1 8)) (Z.shiftl p0 0))
  | _ => None
  end.
Definition badvpn_read_le64 (ptr : list Z) : option Z :=
  match ptr with
  | p0 :: p1 :: p2 :: p3 :: p4 :: p5 :: p6 :: p7 :: _ =>
      Some (Z.lor (Z.lor (Z.lor (Z.lor (Z.lor (Z.lor (Z.lor
        (Z.shiftl p7 56) (Z.shiftl p6 48)) (Z.shiftl p5 40)) (Z.shiftl p4 32))
        (Z.shiftl p3 24)) (Z.shiftl p2 16)) (Z.shiftl p1 8)) (Z.shiftl p0 0))
  | _ => None
  end.
Definition badvpn_read_be8 (ptr : list Z) : option Z :=
  match ptr with p0 :: _ => Some (Z.shiftl p0 0) | _ => None end.
Definition badvpn_read_be16 (ptr : list Z) : option Z :=
  match ptr with
  | p0 :: p1 :: _ => Some (Z.lor (Z.shiftl p0 8) (Z.shiftl p1 0))
  | _ => None
  end.
Definition badvpn_read_be32 (ptr : list Z) : option Z :=
  match ptr with
  | p0 :: p1 :: p2 :: p3 :: _ =>
      Some (Z.lor (Z.lor (Z.lor (Z.shiftl p0 24) (Z.shiftl p1 16)) (Z.shiftl p2 8)) (Z.shiftl p3 0))
  | _ => None
  end.
Definition badvpn_read_be64 (ptr : list Z) : option Z :=
  match ptr with
  | p0 :: p1 :: p2 :: p3 :: p4 :: p5 :: p6 :: p7 :: _ =>
      Some (Z.lor (Z.lor (Z.lor (Z.lor (Z.lor (Z.lor (Z.lor
        (Z.shiftl p0 56) (Z.shiftl p1 48)) (Z.shiftl p2 40)) (Z.shiftl p3 32))
        (Z.shiftl p4 24)) (Z.shiftl p5 16)) (Z.shiftl p6 8)) (Z.shiftl p7 0))
  | _ => None
  end.

Definition badvpn_write_le8 (x : Z) : list Z := [u8 (Z.shiftr x 0)].
Definition badvpn_write_le16 (x : Z) : list Z := [u8 (Z.shiftr x 0); u8 (Z.shiftr x 8)].
Definition badvpn_write_le32 (x : Z) : list Z :=
  [u8 (Z.shiftr x 0); u8 (Z.shiftr x 8); u8 (Z.shiftr x 16); u8 (Z.shiftr x 24)].
Definition badvpn_write_le64 (x : Z) : list Z :=
  [u8 (Z.shiftr x 0); u8 (Z.shiftr x 8); u8 (Z.shiftr x 16); u8 (Z.shiftr x 24);
   u8 (Z.shiftr x 32); u8 (Z.shiftr x 40); u8 (Z.shiftr x 48); u8 (Z.shiftr x 56)].
Definition badvpn_write_be8 (x : Z) : list Z := [u8 (Z.shiftr x 0)].
Definition badvpn_write_be16 (x : Z) : list Z := [u8 (Z.shiftr x 8); u8 (Z.shiftr x 0)].
Definition badvpn_write_be32 (x : Z) : list Z :=
  [u8 (Z.shiftr x 24); u8 (Z.shiftr x 16); u8 (Z.shiftr x 8); u8 (Z.shiftr x 0)].
Definition badvpn_write_be64 (x : Z) : list Z :=
  [u8 (Z.shiftr x 56); u8 (Z.shiftr x 48); u8 (Z.shiftr x 40); u8 (Z.shiftr x 32);
   u8 (Z.shiftr x 24); u8 (Z.shiftr x 16); u8 (Z.shiftr x 8); u8 (Z.shiftr x 0)].

(** ** byteorder.h

    [host16 x] and [host32 x] are the bytes of the object [x]. *)
Definition host16 (x : Z) : list Z := le_digits 2 x.
Definition host32 (x : Z) : list Z := le_digits 4 x.
Definition host64 (x : Z) : list Z := le_digits 8 x.

Definition badvpn_reverse16 (x : Z) : Z := le_val (rev (host16 x)).
Definition badvpn_reverse32 (x : Z) : Z := le_val (rev (host32 x)).
Definition badvpn_reverse64 (x : Z) : Z := le_val (rev (host64 x)).

Definition hton8 (x : Z) : Z := x.
Definition htol8 (x : Z) : Z := x.
Definition hton16 (x : Z) : Z := badvpn_reverse16 x.
Definition hton32 (x : Z) : Z := badvpn_reverse32 x.
Definition hton64 (x : Z) : Z := badvpn_reverse64 x.
Definition htol16 (x : Z) : Z := x.
Definition htol32 (x : Z) : Z := x.
Definition htol64 (x : Z) : Z := x.
Definition ntoh8 (x : Z) : Z := hton8 x.
Definition ntoh16 (x : Z) : Z := hton16 x.
Definition ntoh32 (x : Z) : Z := hton32 x.
Definition ntoh64 (x : Z) : Z := hton64 x.
Definition ltoh8 (x : Z) : Z := htol8 x.
Definition ltoh16 (x : Z) : Z := htol16 x.
Definition ltoh32 (x : Z) : Z := htol32 x.
Definition ltoh64 (x : Z) : Z := htol64 x.

(** ** Lemmas *)

(** Disjoint bits: an [or] of a multiple of [2^k] with a value below [2^k] is their sum. *)
Lemma lor_disjoint k a b : 0 <= k -> 0 <= b < 2 ^ k -> Z.lor (a * 2 ^ k) b = a * 2 ^ k + b.
Proof.
  intros Hk Hb. rewrite <- Z.shiftl_mul_pow2 by lia.
  assert (Z.land (Z.shiftl a k) b = 0) as E.
  { apply Z.bits_inj'. intros i Hi. rewrite Z.land_spec, Z.bits_0.
    destruct (Z.lt_ge_cases i k).
    - by rewrite Z.shiftl_spec_low.
    - rewrite <- (Z.mod_small b (2 ^ k)) by lia. rewrite Z.mod_pow2_bits_high by lia.
      apply andb_false_r. }
  by rewrite (Z.add_nocarry_lxor _ _ E), Z.lxor_lor.
Qed.

Lemma lor_shiftl_sum a k b :
  0 <= k -> 0 <= b < 2 ^ k -> (exists c, a = c * 2 ^ k) -> Z.lor a b = a + b.
Proof. intros Hk Hb [c ->]. by apply lor_disjoint. Qed.

Lemma u8_shiftr x k : 0 <= k -> u8 (Z.shiftr x k) = x / 2 ^ k mod 256.
Proof. intros. unfold uwrap. by rewrite Z.shiftr_div_pow2. Qed.

Lemma read_le16_val l : bytes_ok l -> length l = 2%nat -> badvpn_read_le16 l = Some (le_val l).
Proof.
  intros H L. destruct l as [|p0 [|p1 [|]]]; try done. unfold bytes_ok, is_byte in H.
  decompose_Forall_hyps. simpl. rewrite Z.shiftl_0_r, Z.shiftl_mul_pow2, lor_disjoint by lia.
  f_equal. lia.
Qed.

Lemma read_le32_val l : bytes_ok l -> length l = 4%nat -> badvpn_read_le32 l = Some (le_val l).
Proof.
  intros H L. destruct l as [|p0 [|p1 [|p2 [|p3 [|]]]]]; try done. unfold bytes_ok, is_byte in H.
  decompose_Forall_hyps. unfold badvpn_read_le32. rewrite Z.shiftl_0_r, !Z.shiftl_mul_pow2 by lia.
  rewrite (lor_shiftl_sum (p3 * _) 24) by first [lia | by eexists].
  rewrite (lor_shiftl_sum (_ + _) 16) by first [lia | exists (p3 * 256 + p2); lia].
  rewrite (lor_shiftl_sum (_ + _) 8) by first [lia | exists (p3 * 65536 + p2 * 256 + p1); lia].
  f_equal. simpl. lia.
Qed.

Lemma read_le64_val l : bytes_ok l -> length l = 8%nat -> badvpn_read_le64 l = Some (le_val l).
Proof.
  intros H L. destruct l as [|p0 [|p1 [|p2 [|p3 [|p4 [|p5 [|p6 [|p7 [|]]]]]]]]]; try done.
  unfold bytes_ok, is_byte in H. decompose_Forall_hyps. unfold badvpn_read_le64.
  rewrite Z.shiftl_0_r, !Z.shiftl_mul_pow2 by lia.
  rewrite (lor_shiftl_sum (p7 * _) 56) by first [lia | by eexists].
  rewrite (lor_shiftl_sum (_ + _) 48) by first [lia | exists (p7 * 2^8 + p6); lia].
  rewrite (lor_shiftl_sum (_ + _) 40) by first [lia | exists (p7 * 2^16 + p6 * 2^8 + p5); lia].
  rewrite (lor_shiftl_sum (_ + _) 32) by first [lia | exists (p7 * 2^24 + p6 * 2^16 + p5 * 2^8 + p4); lia].
  rewrite (lor_shiftl_sum (_ + _) 24) by
    first [lia | exists (p7 * 2^32 + p6 * 2^24 + p5 * 2^16 + p4 * 2^8 + p3); lia].
  rewrite (lor_shiftl_sum (_ + _) 16) by
    first [lia | exists (p7 * 2^40 + p6 * 2^32 + p5 * 2^24 + p4 * 2^16 + p3 * 2^8 + p2); lia].
  rewrite (lor_shiftl_sum (_ + _) 8) by first [lia |
    exists (p7 * 2^48 + p6 * 2^40 + p5 * 2^32 + p4 * 2^24 + p3 * 2^16 + p2 * 2^8 + p1); lia].
  f_equal. simpl. lia.
Qed.

Lemma le_digits_shift n x :
  le_digits n x = map (fun i => u8 (Z.shiftr x (8 * Z.of_nat i))) (seq 0 n).
Proof.
  revert x. induction n as [|n IH]; intros x; [done|]. cbn [le_digits seq map].
  rewrite u8_shiftr by lia. rewrite Z.div_1_r. f_equal.
  rewrite IH, <- seq_shift, map_map. apply map_ext. intros i. rewrite !u8_shiftr by lia.
  rewrite Z.div_div by lia. do 2 f_equal. replace 256 with (2 ^ 8) by done.
  rewrite <- Z.pow_add_r by lia. f_equal. lia.
Qed.

Lemma write_le16_digits x : badvpn_write_le16 x = le_digits 2 x.
Proof. by rewrite le_digits_shift. Qed.
Lemma write_le32_digits x : badvpn_write_le32 x = le_digits 4 x.
Proof. by rewrite le_digits_shift. Qed.
Lemma write_le64_digits x : badvpn_write_le64 x = le_digits 8 x.
Proof. by rewrite le_digits_shift. Qed.
Lemma write_be16_digits x : badvpn_write_be16 x = rev (le_digits 2 x).
Proof. by rewrite le_digits_shift. Qed.
Lemma write_be32_digits x : badvpn_write_be32 x = rev (le_digits 4 x).
Proof. by rewrite le_digits_shift. Qed.
Lemma write_be64_digits x : badvpn_write_be64 x = rev (le_digits 8 x).
Proof. by rewrite le_digits_shift. Qed.

(** A big-endian read is a little-endian read of the reversed bytes. *)
Lemma read_be16_rev l : length l = 2%nat -> badvpn_read_be16 l = badvpn_read_le16 (rev l).
Proof. by destruct l as [|? [|? [|]]]. Qed.
Lemma read_be32_rev l : length l = 4%nat -> badvpn_read_be32 l = badvpn_read_le32 (rev l).
Proof. by destruct l as [|? [|? [|? [|? [|]]]]]. Qed.
Lemma read_be64_rev l : length l = 8%nat -> badvpn_read_be64 l = badvpn_read_le64 (rev l).
Proof. by destruct l as [|? [|? [|? [|? [|? [|? [|? [|? [|]]]]]]]]]. Qed.

Lemma bytes_ok_rev l : bytes_ok l -> bytes_ok (rev l).
Proof. apply List.Forall_rev. Qed.

Lemma read_be16_val l : bytes_ok l -> length l = 2%nat -> badvpn_read_be16 l = Some (le_val (rev l)).
Proof.
  intros. rewrite read_be16_rev by done. apply read_le16_val; [by apply bytes_ok_rev|].
  by rewrite length_rev.
Qed.

Lemma host16_val x : 0 <= x < 2 ^ 16 -> le_val (host16 x) = x.
Proof. intros. unfold host16. rewrite le_val_digits. apply Z.mod_small. lia. Qed.
Lemma host32_val x : 0 <= x < 2 ^ 32 -> le_val (host32 x) = x.
Proof. intros. unfold host32. rewrite le_val_digits. apply Z.mod_small. lia. Qed.

Lemma host16_val_inv l : bytes_ok l -> length l = 2%nat -> host16 (le_val l) = l.
Proof. intros Hb Hl. unfold host16. rewrite <- Hl. by apply le_digits_val. Qed.

Lemma rev_digits_bytes n x : bytes_ok (rev (le_digits n x)).
Proof. apply bytes_ok_rev, le_digits_bytes. Qed.

Lemma hton_digits n x : le_digits n (le_val (rev (le_digits n x))) = rev (le_digits n x).
Proof.
  rewrite <- (le_digits_length n x) at 1. rewrite <- length_rev.
  apply le_digits_val, rev_digits_bytes.
Qed.

Lemma hton16_range x : 0 <= hton16 x < 2 ^ 16.
Proof. apply (le_val_range (rev (host16 x))), rev_digits_bytes. Qed.
Lemma hton16_invol x : hton16 (hton16 x) = u16 x.
Proof.
  unfold hton16, badvpn_reverse16, host16. rewrite hton_digits, rev_involutive.
  by rewrite le_val_digits.
Qed.
Lemma hton32_invol x : hton32 (hton32 x) = u32 x.
Proof.
  unfold hton32, badvpn_reverse32, host32. rewrite hton_digits, rev_involutive.
  by rewrite le_val_digits.
Qed.

(** every writer of read_write_int.h is inverted by the reader of the same width and
    endianness (the value is reduced to that width), the bytes of [hton16/32/64 x] in memory
    are those the big-endian writer stores, and [ntoh] inverts [hton]. *)
Theorem byteorder_roundtrip x :
  (badvpn_read_le16 (badvpn_write_le16 x) = Some (u16 x) /\
   badvpn_read_le32 (badvpn_write_le32 x) = Some (u32 x) /\
   badvpn_read_le64 (badvpn_write_le64 x) = Some (u64 x)) /\
  (badvpn_read_be16 (badvpn_write_be16 x) = Some (u16 x) /\
   badvpn_read_be32 (badvpn_write_be32 x) = Some (u32 x) /\
   badvpn_read_be64 (badvpn_write_be64 x) = Some (u64 x)) /\
  (host16 (hton16 x) = badvpn_write_be16 x /\ host32 (hton32 x) = badvpn_write_be32 x /\
   host64 (hton64 x) = badvpn_write_be64 x) /\
  (ntoh16 (hton16 x) = u16 x /\ ntoh32 (hton32 x) = u32 x /\ ntoh64 (hton64 x) = u64 x).
Proof.
  unfold ntoh16, ntoh32, ntoh64, hton16, hton32, hton64, badvpn_reverse16, badvpn_reverse32,
    badvpn_reverse64, host16, host32, host64.
  rewrite write_le16_digits, write_le32_digits, write_le64_digits,
    write_be16_digits, write_be32_digits, write_be64_digits.
  rewrite read_be16_rev, read_be32_rev, read_be64_rev, !hton_digits, !rev_involutive,
    read_le16_val, read_le32_val, read_le64_val, !le_val_digits
    by auto using le_digits_bytes, le_digits_length, rev_digits_bytes.
  repeat split.
Qed.
