(* ===== verification/ChunkBuffer2.v ===== *)
(** * Circular packet buffer (structure/ChunkBuffer2.h)

    The buffer is an array of [int]-sized blocks.  A packet occupies a header block that
    holds its length, followed by as many data blocks as its bytes need; a packet never
    wraps around the end of the array. *)

From S2P Require Import Prelude BAlign ByteOrder.
Import BAlign.

Module ChunkBuffer2.

(** [sizeof(struct ChunkBuffer2_block)] *)
Definition BLOCK : Z := 4.

(** Pointers into the buffer are byte offsets ([None] is [NULL]). *)
Record t := mk {
  buffer : list Z;
  size : Z;
  wrap : Z;
  start : Z;
  used : Z;
  mtu : Z;
  input_dest : option Z;
  input_avail : Z;
  output_dest : option Z;
  output_avail : Z;
}.

Definition with_buffer (buf : t) (m : list Z) : t :=
  mk m (size buf) (wrap buf) (start buf) (used buf) (mtu buf)
     (input_dest buf) (input_avail buf) (output_dest buf) (output_avail buf).
Definition with_ring (buf : t) (w s u : Z) : t :=
  mk (buffer buf) (size buf) w s u (mtu buf)
     (input_dest buf) (input_avail buf) (output_dest buf) (output_avail buf).
Definition with_input (buf : t) (d : option Z) (a : Z) : t :=
  mk (buffer buf) (size buf) (wrap buf) (start buf) (used buf) (mtu buf)
     d a (output_dest buf) (output_avail buf).
Definition with_output (buf : t) (d : option Z) (a : Z) : t :=
  mk (buffer buf) (size buf) (wrap buf) (start buf) (used buf) (mtu buf)
     (input_dest buf) (input_avail buf) d a.

(** [buf->buffer[i].len] *)
Definition block_len (m : list Z) (i : Z) : Z := i32 (le_val (sub m (BLOCK * i) BLOCK)).
Definition set_block_len (m : list Z) (i len : Z) : list Z := splice m (BLOCK * i) (le_digits 4 len).

(** [int blocklen = bdivide_up(len, sizeof(struct ChunkBuffer2_block))], [len] an [int]. *)
Definition blocks_of (len : Z) : Z := i32 (bdivide_up (u64 len) BLOCK).

Definition _ChunkBuffer2_end (buf : t) : Z :=
  if used buf >=? wrap buf - start buf
  then used buf - (wrap buf - start buf)
  else start buf + used buf.

Definition _ChunkBuffer2_assert_buffer (buf : t) : bool :=
  (size buf >? 0) && (wrap buf >? 0) && (wrap buf <=? size buf) && (start buf >=? 0)
  && (start buf <? wrap buf) && (used buf >=? 0) && (used buf <=? wrap buf)
  && ((wrap buf =? size buf) || (used buf >=? wrap buf - start buf)) && (mtu buf >=? 0).

Definition _ChunkBuffer2_update_input (buf : t) : t :=
  let end_ := _ChunkBuffer2_end buf in
  if size buf - end_ - 1 <? mtu buf then with_input buf None (-1)
  else
    let free := if used buf >=? wrap buf - start buf then start buf - end_ else size buf - end_ in
    if free >? 0
    then with_input buf (Some (BLOCK * (end_ + 1))) (i32 (u64 ((free - 1) * BLOCK)))
    else with_input buf None (-1).

Definition _ChunkBuffer2_update_output (buf : t) : option t :=
  if used buf >? 0 then
    let datalen := block_len (buffer buf) (start buf) in
    ASSERT datalen >=? 0;
    let blocklen := blocks_of datalen in
    ASSERT blocklen <=? used buf - 1;
    ASSERT blocklen <=? wrap buf - start buf - 1;
    Some (with_output buf (Some (BLOCK * (start buf + 1))) datalen)
  else Some (with_output buf None (-1)).

(** The debug check of the derived fields ([input_dest], ..., [output_avail]). *)
Definition _ChunkBuffer2_assert_io (buf : t) : bool :=
  let no_input := bool_decide (input_dest buf = None) && (input_avail buf =? -1) in
  let end_ := _ChunkBuffer2_end buf in
  (if size buf - end_ - 1 <? mtu buf then no_input
   else
     let free := if used buf >=? wrap buf - start buf then start buf - end_ else size buf - end_ in
     if free >? 0
     then bool_decide (input_dest buf = Some (BLOCK * (end_ + 1)))
          && (u64 (input_avail buf) =? u64 ((free - 1) * BLOCK))
     else no_input) &&
  (if used buf >? 0 then
     let datalen := block_len (buffer buf) (start buf) in
     let blocklen := blocks_of datalen in
     (datalen >=? 0) && (blocklen <=? used buf - 1) && (blocklen <=? wrap buf - start buf - 1)
     && bool_decide (output_dest buf = Some (BLOCK * (start buf + 1)))
     && (output_avail buf =? datalen)
   else bool_decide (output_dest buf = None) && (output_avail buf =? -1)).

Definition ChunkBuffer2_calc_blocks (chunk_len num : Z) : Z :=
  let chunk_data_blocks := blocks_of chunk_len in
  if chunk_data_blocks >? INT_MAX - 1 then -1 else
  let chunk_blocks := 1 + chunk_data_blocks in
  if num >? INT_MAX - 1 then -1 else
  let num_chunks := num + 1 in
  if chunk_blocks >? INT_MAX / num_chunks then -1 else
  chunk_blocks * num_chunks.

Definition ChunkBuffer2_Init (m : list Z) (blocks mtu : Z) : option t :=
  ASSERT blocks >? 0;
  ASSERT mtu >=? 0;
  let buf := mk m blocks blocks 0 0 (blocks_of mtu) None 0 None 0 in
  ASSERT _ChunkBuffer2_assert_buffer buf;
  let buf := _ChunkBuffer2_update_input buf in
  match _ChunkBuffer2_update_output buf with
  | None => None
  | Some buf => ASSERT _ChunkBuffer2_assert_io buf; Some buf
  end.

Definition ChunkBuffer2_SubmitPacket (buf : t) (len : Z) : option t :=
  ASSERT bool_decide (is_Some (input_dest buf));
  ASSERT len >=? 0;
  ASSERT len <=? input_avail buf;
  ASSERT _ChunkBuffer2_assert_buffer buf;
  ASSERT _ChunkBuffer2_assert_io buf;
  let end_ := _ChunkBuffer2_end buf in
  let blocklen := blocks_of len in
  ASSERT blocklen <=? size buf - end_ - 1;
  ASSERT (used buf <? wrap buf - start buf) || (blocklen <=? start buf - end_ - 1);
  let buf := with_buffer buf (set_block_len (buffer buf) end_ len) in
  let buf := with_ring buf (wrap buf) (start buf) (used buf + (1 + blocklen)) in
  let buf :=
    if (used buf <=? wrap buf - start buf) && (mtu buf >? size buf - (end_ + 1 + blocklen) - 1)
    then with_ring buf (end_ + 1 + blocklen) (start buf) (used buf) else buf in
  ASSERT _ChunkBuffer2_assert_buffer buf;
  let buf := _ChunkBuffer2_update_input buf in
  match (if used buf =? 1 + blocklen then _ChunkBuffer2_update_output buf else Some buf) with
  | None => None
  | Some buf => ASSERT _ChunkBuffer2_assert_io buf; Some buf
  end.

Definition ChunkBuffer2_ConsumePacket (buf : t) : option t :=
  ASSERT bool_decide (is_Some (output_dest buf));
  ASSERT _ChunkBuffer2_assert_buffer buf;
  ASSERT _ChunkBuffer2_assert_io buf;
  ASSERT 1 <=? wrap buf - start buf;
  ASSERT 1 <=? used buf;
  let blocklen := blocks_of (block_len (buffer buf) (start buf)) in
  ASSERT blocklen <=? wrap buf - start buf - 1;
  ASSERT blocklen <=? used buf - 1;
  let data_wrapped := used buf >=? wrap buf - start buf in
  let buf := with_ring buf (wrap buf) (start buf + (1 + blocklen)) (used buf - (1 + blocklen)) in
  let buf := if start buf =? wrap buf then with_ring buf (size buf) 0 (used buf) else buf in
  ASSERT _ChunkBuffer2_assert_buffer buf;
  let buf := if data_wrapped then _ChunkBuffer2_update_input buf else buf in
  match _ChunkBuffer2_update_output buf with
  | None => None
  | Some buf => ASSERT _ChunkBuffer2_assert_io buf; Some buf
  end.

(** ** The abstract queue a buffer holds *)

(** [run m lim lo hi ps]: the blocks [lo, hi) of [m] hold exactly the packets [ps], each with
    its header at a block index of at most [lim]. *)
Fixpoint run (m : list Z) (lim lo hi : Z) (ps : list (list Z)) : Prop :=
  match ps with
  | [] => lo = hi
  | p :: ps =>
      lo <= lim /\ block_len m lo = zlen p /\ sub m (BLOCK * (lo + 1)) (zlen p) = p /\
      run m lim (lo + 1 + blocks_of (zlen p)) hi ps
  end.

(** Blocks a sequence of packets takes. *)
Fixpoint blocks (ps : list (list Z)) : Z :=
  match ps with [] => 0 | p :: ps => 1 + blocks_of (zlen p) + blocks ps end.

(** The ring: either the data does not wrap and there is room for a packet of [mtu] blocks
    behind it, or it runs to [wrap] and goes on at block 0. *)
Definition ring (b : t) (ps : list (list Z)) : Prop :=
  let lim := size b - 1 - mtu b in
  (used b < wrap b - start b /\ wrap b = size b /\ start b + used b <= lim /\
   run (buffer b) lim (start b) (start b + used b) ps) \/
  (wrap b - start b <= used b /\ lim < wrap b /\ exists ps1 ps2, ps = ps1 ++ ps2 /\
   run (buffer b) lim (start b) (wrap b) ps1 /\
   run (buffer b) lim 0 (used b - (wrap b - start b)) ps2).

(** Free blocks that follow the end of the data. *)
Definition free (b : t) : Z :=
  if used b >=? wrap b - start b then start b - _ChunkBuffer2_end b
  else size b - _ChunkBuffer2_end b.

Record core (b : t) (ps : list (list Z)) : Prop := {
  core_size : 0 < size b /\ BLOCK * size b <= INT_MAX;
  core_mem : zlen (buffer b) = BLOCK * size b;
  core_mtu : 0 <= mtu b;
  core_bounds : 0 <= start b /\ start b < wrap b /\ wrap b <= size b /\ 0 <= used b <= wrap b;
  core_ring : ring b ps;
}.

(** What the derived fields must be. *)
Definition in_ok (b : t) : Prop :=
  (free b = 0 /\ input_dest b = None /\ input_avail b = -1) \/
  (0 < free b /\ input_dest b = Some (BLOCK * (_ChunkBuffer2_end b + 1)) /\
   input_avail b = BLOCK * (free b - 1)).
Definition out_ok (b : t) (ps : list (list Z)) : Prop :=
  match ps with
  | [] => output_dest b = None /\ output_avail b = -1
  | p :: _ => output_dest b = Some (BLOCK * (start b + 1)) /\ output_avail b = zlen p
  end.

(** The representation invariant: [b] holds the queue of packets [ps], oldest first. *)
Definition inv (b : t) (ps : list (list Z)) : Prop := core b ps /\ in_ok b /\ out_ok b ps.

(** ** Arithmetic of blocks *)
Lemma blocks_of_spec len : 0 <= len <= INT_MAX ->
  0 <= blocks_of len /\ BLOCK * (blocks_of len - 1) < len <= BLOCK * blocks_of len.
Proof.
  unfold blocks_of, INT_MAX, BLOCK. intros H. rewrite (uwrap_small 64 len) by lia.
  pose proof (bdivide_up_spec len 4). pose proof (bdivide_up_nonneg len 4).
  rewrite i32_small by lia. lia.
Qed.

Lemma block_len_range m i : - 2 ^ 31 <= block_len m i <= INT_MAX.
Proof.
  unfold block_len, i32, INT_MAX. pose proof (Z.mod_pos_bound (le_val (sub m (BLOCK * i) BLOCK)) (2 ^ 32)).
  destruct (Z.ltb_spec (le_val (sub m (BLOCK * i) BLOCK) mod 2 ^ 32) (2 ^ 31)); lia.
Qed.

Lemma block_len_set m i len : 0 <= i -> BLOCK * (i + 1) <= zlen m -> 0 <= len <= INT_MAX ->
  block_len (set_block_len m i len) i = len.
Proof.
  unfold block_len, set_block_len, BLOCK, INT_MAX. intros Hi Hm Hl.
  pose proof (sub_splice_eq m (4 * i) (le_digits 4 len)) as E. rewrite zlen_le_digits in E.
  change (Z.of_nat 4) with 4 in E. rewrite E by lia. rewrite le_val_digits, i32_small.
  - apply Z.mod_small. lia.
  - rewrite Z.mod_small; lia.
Qed.

(** ** Runs *)
Lemma run_zlen m lim lo hi p ps : run m lim lo hi (p :: ps) -> 0 <= zlen p <= INT_MAX.
Proof.
  intros (_ & E & _). pose proof (block_len_range m lo). pose proof (zlen_nonneg p). lia.
Qed.

Lemma run_blocks m lim lo hi ps : run m lim lo hi ps -> hi = lo + blocks ps /\ 0 <= blocks ps.
Proof.
  revert lo. induction ps as [|p ps IH]; intros lo H; [simpl in *; lia|].
  pose proof (run_zlen _ _ _ _ _ _ H) as Hz. destruct H as (_ & _ & _ & H). apply IH in H.
  pose proof (blocks_of_spec (zlen p)). cbn [blocks]. lia.
Qed.

Lemma run_head m lim lo hi p ps : run m lim lo hi (p :: ps) ->
  lo + 1 + blocks_of (zlen p) <= hi.
Proof. intros (_ & _ & _ & H). apply run_blocks in H. lia. Qed.

Lemma run_app m lim lo mid hi ps1 ps2 :
  run m lim lo mid ps1 -> run m lim mid hi ps2 -> run m lim lo hi (ps1 ++ ps2).
Proof.
  revert lo. induction ps1 as [|p ps1 IH]; intros lo; simpl; [by intros ->|].
  intros (? & ? & ? & ?) ?. eauto.
Qed.

(** Writes outside [lo, hi) do not change the packets. *)
Lemma run_frame m m' lim lo hi ps : 0 <= lo ->
  (forall o n, BLOCK * lo <= o -> 0 <= n -> o + n <= BLOCK * hi -> sub m' o n = sub m o n) ->
  run m lim lo hi ps -> run m' lim lo hi ps.
Proof.
  revert lo. induction ps as [|p ps IH]; intros lo Hlo F H; [done|].
  pose proof (run_zlen _ _ _ _ _ _ H) as Hz. pose proof (run_head _ _ _ _ _ _ H) as Hh.
  pose proof (blocks_of_spec (zlen p) Hz) as Hb. unfold BLOCK in *.
  destruct H as (Hl & Hlen & Hd & Hr). cbn [run]. split_and!; [done| | |].
  - unfold block_len. unfold BLOCK. rewrite F by lia. done.
  - unfold BLOCK. rewrite F by lia. done.
  - apply IH; [lia| |done]. intros. apply F; lia.
Qed.

Lemma run_snoc m lim lo mid hi ps p : run m lim lo mid ps ->
  run m lim mid hi [p] -> run m lim lo hi (ps ++ [p]).
Proof. apply run_app. Qed.

(** ** Consequences of the invariant *)

(** Where the data ends and how much room follows it. *)
Lemma core_end b ps : core b ps ->
  let e := _ChunkBuffer2_end b in
  0 <= e <= size b - 1 - mtu b /\ 0 <= free b /\ e + free b <= size b.
Proof.
  intros [Hs Hm Hmtu Hb [(Hu & Hw & He & _)|(Hu & Hl & ps1 & ps2 & _ & R & _)]]; simpl;
    unfold free, _ChunkBuffer2_end.
  - bool_false. lia.
  - bool_true. destruct ps1 as [|p ps1]; [simpl in R; lia|]. destruct R as (? & _). lia.
Qed.

(** The first packet and the bytes it occupies. *)
Lemma core_first b p ps : core b (p :: ps) ->
  block_len (buffer b) (start b) = zlen p /\ 0 <= zlen p <= INT_MAX /\
  sub (buffer b) (BLOCK * (start b + 1)) (zlen p) = p /\
  1 + blocks_of (zlen p) <= used b /\ 1 + blocks_of (zlen p) <= wrap b - start b.
Proof.
  intros [Hs Hm Hmtu Hb [(Hu & Hw & He & R)|(Hu & Hl & ps1 & ps2 & E & R & R2)]].
  - pose proof (run_zlen _ _ _ _ _ _ R). pose proof (run_head _ _ _ _ _ _ R).
    destruct R as (? & ? & ? & ?). split_and!; try done; lia.
  - destruct ps1 as [|q ps1]; [simpl in R; lia|]. simplify_eq/=.
    pose proof (run_zlen _ _ _ _ _ _ R). pose proof (run_head _ _ _ _ _ _ R).
    destruct R as (? & ? & ? & ?). split_and!; try done; lia.
Qed.

Lemma core_used b ps : core b ps -> (ps = [] <-> used b = 0) /\ used b = blocks ps.
Proof.
  intros [Hs Hm Hmtu Hb [(Hu & Hw & He & R)|(Hu & Hl & ps1 & ps2 & -> & R & R2)]].
  - apply run_blocks in R as E. split; [|lia]. destruct ps as [|p ps]; [simpl in R; split; [lia|done]|].
    split; [done|]. pose proof (run_head _ _ _ _ _ _ R). pose proof (run_zlen _ _ _ _ _ _ R).
    pose proof (blocks_of_spec (zlen p)). lia.
  - apply run_blocks in R as E, R2 as E2.
    assert (blocks (ps1 ++ ps2) = blocks ps1 + blocks ps2) as ->.
    { clear. induction ps1; simpl; lia. }
    split; [|lia]. destruct ps1; [simpl in R; lia|]. split; [done|]. lia.
Qed.

Lemma assert_buffer_true b ps : core b ps -> _ChunkBuffer2_assert_buffer b = true.
Proof.
  intros [Hs Hm Hmtu Hb Hr]. unfold _ChunkBuffer2_assert_buffer.
  rewrite !andb_true_iff, orb_true_iff, !Z.gtb_ltb, !Z.geb_leb, !Z.ltb_lt, !Z.leb_le, Z.eqb_eq.
  destruct Hr as [(?&?&?&_)|(?&?&_)]; split_and!; lia.
Qed.

Lemma assert_io_true b ps : inv b ps -> _ChunkBuffer2_assert_io b = true.
Proof.
  intros (C & I & O). pose proof (core_end b ps C) as (He & Hf & _). pose proof (core_used b ps C) as [Hu _].
  pose proof (core_size b ps C). unfold _ChunkBuffer2_assert_io. cbv zeta. rewrite andb_true_iff. split.
  - bool_false. fold (free b). destruct I as [(F & D & A)|(F & D & A)]; rewrite D, A.
    + bool_false. done.
    + bool_true. rewrite bool_decide_true by done. apply Z.eqb_eq. f_equal. lia.
  - destruct ps as [|p ps]; simpl in O; destruct O as [D A]; rewrite D, A.
    + pose proof (proj1 Hu eq_refl). bool_false. done.
    + pose proof (core_first b p ps C) as (L & Z1 & _ & U1 & U2).
      pose proof (core_bounds _ _ C). assert (used b <> 0) by (intros ?%Hu; done).
      bool_true. rewrite L. rewrite bool_decide_true by done.
      rewrite !andb_true_iff, Z.geb_leb, !Z.leb_le, Z.eqb_eq. split_and!; try done; lia.
Qed.

(** [_ChunkBuffer2_update_input] establishes its half of the derived fields. *)
Lemma update_input_ok b ps : core b ps ->
  in_ok (_ChunkBuffer2_update_input b) /\
  exists d a, _ChunkBuffer2_update_input b = with_input b d a.
Proof.
  intros C. pose proof (core_end b ps C) as (He & Hf & Hef). pose proof (core_size b ps C).
  unfold _ChunkBuffer2_update_input. cbv zeta. bool_false. fold (free b). case_if.
  - split; [right|eauto]. unfold free, _ChunkBuffer2_end in *. simpl. split_and!; [lia|done|].
    unfold BLOCK, INT_MAX in *. rewrite uwrap_small, i32_small by lia. lia.
  - split; [left|eauto]. unfold free, _ChunkBuffer2_end in *. simpl. split_and!; [lia|done|done].
Qed.

Lemma update_output_ok b ps : core b ps ->
  exists d a, _ChunkBuffer2_update_output b = Some (with_output b d a) /\
    out_ok (with_output b d a) ps.
Proof.
  intros C. pose proof (core_used b ps C) as [Hu _]. unfold _ChunkBuffer2_update_output.
  pose proof (core_bounds _ _ C). destruct ps as [|p ps].
  - pose proof (proj1 Hu eq_refl). bool_false. by do 2 eexists.
  - pose proof (core_first b p ps C) as (L & Z1 & _ & U1 & U2). assert (used b <> 0) by (intros ?%Hu; done).
    bool_true. rewrite L. do 3 bool_true. by do 2 eexists.
Qed.

Lemma core_with_input b ps d a : core b ps -> core (with_input b d a) ps.
Proof. intros []. by constructor. Qed.
Lemma core_with_output b ps d a : core b ps -> core (with_output b d a) ps.
Proof. intros []. by constructor. Qed.

(** ** Operations *)

(** The bytes a producer may write: anything in the free region the buffer offers. *)
Definition write_input (b : t) (o : Z) (data : list Z) : t := with_buffer b (splice (buffer b) o data).

Lemma ring_frame b ps m' : core b ps -> zlen m' = zlen (buffer b) ->
  (forall o n, 0 <= o -> 0 <= n ->
     o + n <= BLOCK * _ChunkBuffer2_end b \/ BLOCK * (_ChunkBuffer2_end b + free b) <= o ->
     sub m' o n = sub (buffer b) o n) ->
  core (with_buffer b m') ps.
Proof.
  intros C Hz F. pose proof (core_end b ps C) as (He & Hf & Hef).
  destruct C as [Hs Hm Hmtu Hb Hr]. constructor; simpl; try done; [congruence|].
  unfold free, _ChunkBuffer2_end, BLOCK in *.
  destruct Hr as [(Hu & Hw & Hl & R)|(Hu & Hl & ps1 & ps2 & -> & R & R2)].
  - left. simpl. split_and!; try done.
    revert F. bool_false. intros F.
    eapply run_frame; [| |exact R]; [lia|]. unfold BLOCK. intros. apply F; lia.
  - right. simpl. split_and!; try done. revert F Hf Hef. bool_true. intros F Hf Hef.
    exists ps1, ps2. split; [done|]. split.
    + eapply run_frame; [| |exact R]; [lia|]. unfold BLOCK. intros. apply F; lia.
    + eapply run_frame; [| |exact R2]; [lia|]. unfold BLOCK. intros. apply F; lia.
Qed.

(** Writing inside the offered region keeps the queue. *)
Lemma write_input_inv b ps d o data : inv b ps -> input_dest b = Some d ->
  d <= o -> o + zlen data <= d + input_avail b ->
  inv (write_input b o data) ps.
Proof.
  intros (C & I & O) Hd Ho Hl. pose proof (core_end b ps C) as (He & Hf & Hef).
  destruct I as [(?&?&?)|(F & D & A)]; [congruence|]. simplify_eq. pose proof (zlen_nonneg data).
  pose proof (core_mem _ _ C) as Hm. unfold BLOCK in *. split.
  - apply ring_frame; [done| |]; [apply zlen_splice; lia|]. unfold BLOCK. intros.
    apply sub_splice_ne; lia.
  - split; [right|done]. by split_and!.
Qed.

(** Moving the end over a packet that was stored behind the data. *)
Definition advance (b : t) (bl : Z) : t :=
  let e := _ChunkBuffer2_end b in
  let b := with_ring b (wrap b) (start b) (used b + (1 + bl)) in
  if (used b <=? wrap b - start b) && (mtu b >? size b - (e + 1 + bl) - 1)
  then with_ring b (e + 1 + bl) (start b) (used b) else b.

Lemma advance_core b ps p len : core b ps -> zlen p = len -> len <= INT_MAX ->
  1 + blocks_of len <= free b ->
  run (buffer b) (size b - 1 - mtu b) (_ChunkBuffer2_end b)
    (_ChunkBuffer2_end b + 1 + blocks_of len) [p] ->
  core (advance b (blocks_of len)) (ps ++ [p]).
Proof.
  intros C Hz Hp Hfr R1. pose proof (core_end b ps C) as (He & Hf & Hef).
  pose proof (blocks_of_spec len) as Hbl. pose proof (zlen_nonneg p).
  destruct C as [Hs Hm Hmtu Hb Hr]. unfold advance. cbv zeta. simpl.
  unfold free, _ChunkBuffer2_end in *.
  destruct Hr as [(Hu & Hw & Hl & R)|(Hu & Hl & ps1 & ps2 & -> & R & R2)].
  - revert Hfr R1 He Hf Hef. bool_false. intros Hfr R1 He Hf Hef. case_if.
    + constructor; simpl; try lia. right. simpl. split_and!; [lia|lia|].
      exists (ps ++ [p]), []. rewrite app_nil_r. split_and!; [done| |simpl; lia].
      by eapply run_app.
    + destruct E as [E|E]; reflect_bool; [lia|].
      constructor; simpl; try lia. left. simpl. split_and!; [lia|lia|lia|].
      replace (start b + (used b + (1 + blocks_of len)))
        with (start b + used b + 1 + blocks_of len) by lia.
      by eapply run_app.
  - revert Hfr R1 He Hf Hef. bool_true. intros Hfr R1 He Hf Hef. bool_false.
    constructor; simpl; try lia. right. simpl. split_and!; [lia|lia|].
    exists ps1, (ps2 ++ [p]). split_and!; [by rewrite app_assoc|done|].
    eapply run_app; [exact R2|]. replace (used b + (1 + blocks_of len) - (wrap b - start b))
      with (used b - (wrap b - start b) + 1 + blocks_of len) by lia. done.
Qed.

Lemma advance_out b bl :
  buffer (advance b bl) = buffer b /\ start (advance b bl) = start b /\
  size (advance b bl) = size b /\ mtu (advance b bl) = mtu b /\
  used (advance b bl) = used b + (1 + bl) /\
  output_dest (advance b bl) = output_dest b /\ output_avail (advance b bl) = output_avail b.
Proof. unfold advance. cbv zeta. by case_if. Qed.

(** The header block and the data of a packet written into the offered region. *)
Lemma store_header b ps d len : inv b ps -> input_dest b = Some d -> 0 <= len <= input_avail b ->
  let e := _ChunkBuffer2_end b in
  let m := set_block_len (buffer b) e len in
  let p := sub (buffer b) d len in
  zlen p = len /\ len <= INT_MAX /\ 1 + blocks_of len <= free b /\
  core (with_buffer b m) ps /\
  run m (size b - 1 - mtu b) e (e + 1 + blocks_of len) [p].
Proof.
  intros (C & I & O) Hd Hl. pose proof (core_end b ps C) as (He & Hf & Hef). cbv zeta.
  destruct I as [(?&?&?)|(F & D & A)]; [congruence|]. simplify_eq.
  pose proof (core_mem _ _ C) as Hm. pose proof (core_size _ _ C) as Hs.
  pose proof (blocks_of_spec len) as Hbl. unfold BLOCK in *.
  assert (zlen (sub (buffer b) (4 * (_ChunkBuffer2_end b + 1)) len) = len) as Hz
    by (apply zlen_sub; lia).
  split_and!; [done|lia|lia| |].
  - apply ring_frame; [done| |].
    + unfold set_block_len, BLOCK. apply zlen_splice; rewrite ?zlen_le_digits; lia.
    + unfold set_block_len, BLOCK. intros. apply sub_splice_ne; rewrite ?zlen_le_digits; lia.
  - simpl. unfold BLOCK. rewrite Hz. split_and!; [lia| | |lia].
    + apply block_len_set; unfold BLOCK; lia.
    + unfold set_block_len, BLOCK. apply sub_splice_ne; rewrite ?zlen_le_digits; lia.
Qed.

(** The derived fields after an operation that kept or refreshed them. *)
Lemma finish_ok b ps : core b ps ->
  exists b', _ChunkBuffer2_update_output (_ChunkBuffer2_update_input b) = Some b' /\
    inv b' ps /\ size b' = size b /\ mtu b' = mtu b /\ buffer b' = buffer b.
Proof.
  intros C. destruct (update_input_ok b ps C) as (I & d & a & E). rewrite E in *.
  destruct (update_output_ok (with_input b d a) ps) as (d' & a' & E' & O);
    [by apply core_with_input|].
  eexists. split; [exact E'|]. split; [|done].
  split; [by apply core_with_output, core_with_input|]. split; [exact I|exact O].
Qed.

Lemma submit_unfold b len : ChunkBuffer2_SubmitPacket b len =
  (ASSERT bool_decide (is_Some (input_dest b)); ASSERT len >=? 0; ASSERT len <=? input_avail b;
   ASSERT _ChunkBuffer2_assert_buffer b; ASSERT _ChunkBuffer2_assert_io b;
   let e := _ChunkBuffer2_end b in
   ASSERT blocks_of len <=? size b - e - 1;
   ASSERT (used b <? wrap b - start b) || (blocks_of len <=? start b - e - 1);
   let b2 := advance (with_buffer b (set_block_len (buffer b) e len)) (blocks_of len) in
   ASSERT _ChunkBuffer2_assert_buffer b2;
   let b3 := _ChunkBuffer2_update_input b2 in
   match (if used b3 =? 1 + blocks_of len then _ChunkBuffer2_update_output b3 else Some b3) with
   | None => None
   | Some b => ASSERT _ChunkBuffer2_assert_io b; Some b
   end).
Proof. reflexivity. Qed.

Lemma submit_ok b ps d len : inv b ps -> input_dest b = Some d -> 0 <= len <= input_avail b ->
  exists b', ChunkBuffer2_SubmitPacket b len = Some b' /\
    inv b' (ps ++ [sub (buffer b) d len]) /\ size b' = size b /\ mtu b' = mtu b /\
    (ps <> [] -> output_dest b' = output_dest b /\ output_avail b' = output_avail b).
Proof.
  intros H Hd Hl. destruct (store_header b ps d len H Hd Hl) as (Hz & Hi & Hfr & C1 & R1).
  pose proof H as (C & I & O). pose proof (core_end b ps C) as (He & Hf & Hef).
  rewrite submit_unfold. rewrite bool_decide_true by (rewrite Hd; eauto).
  do 2 bool_true. rewrite (assert_buffer_true b ps C), (assert_io_true b ps H). cbv zeta.
  assert (used b < wrap b - start b \/ blocks_of len <= start b - _ChunkBuffer2_end b - 1) as Hw.
  { unfold free in Hfr. destruct (Z.geb_spec (used b) (wrap b - start b)); lia. }
  do 2 bool_true.
  apply (advance_core (with_buffer b _) ps _ _ C1 Hz Hi Hfr) in R1 as C2.
  set (b2 := advance _ _) in *. rewrite (assert_buffer_true _ _ C2).
  destruct (advance_out (with_buffer b (set_block_len (buffer b) (_ChunkBuffer2_end b) len)) (blocks_of len))
    as (_ & Es & Ez & Em & Eu & Eo & Ea). fold b2 in Es, Ez, Em, Eu, Eo, Ea. simpl in *.
  destruct (update_input_ok b2 _ C2) as (I2 & d2 & a2 & E2).
  destruct (finish_ok b2 _ C2) as (b3 & E3 & Hinv & Hsz & Hmt & _).
  destruct (used (_ChunkBuffer2_update_input b2) =? 1 + blocks_of len) eqn:Eq.
  - rewrite E3, (assert_io_true _ _ Hinv). exists b3. split_and!; try congruence.
    rewrite E2 in Eq. reflect_bool. simpl in Eq. pose proof (core_used _ _ C) as [Hu _].
    intros []. apply Hu. lia.
  - reflect_bool. rewrite E2 in Eq, I2 |- *. simpl in Eq.
    assert (inv (with_input b2 d2 a2) (ps ++ [sub (buffer b) d len])) as Hinv'.
    { split; [by apply core_with_input|]. split; [done|].
      destruct ps as [|p ps]; [pose proof (core_used _ _ C) as [[Hu _] _]; specialize (Hu eq_refl); lia|].
      simpl in *. rewrite Eo, Ea, Es. done. }
    rewrite (assert_io_true _ _ Hinv'). eexists. split_and!; done.
Qed.

Lemma output_nil b : inv b [] -> output_avail b = -1.
Proof. by intros (_ & _ & _ & A). Qed.

Lemma input_cases b ps : inv b ps ->
  (input_dest b = None /\ input_avail b = -1) \/ (is_Some (input_dest b) /\ 0 <= input_avail b).
Proof.
  intros (_ & [(?&?&?)|(?&E&?)] & _); [by left|right]. rewrite E. unfold BLOCK in *. split; [eauto|lia].
Qed.

(** The packet at the head is exposed at [output_dest], [output_avail] bytes long. *)
Lemma output_ok b p ps : inv b (p :: ps) -> exists o,
  output_dest b = Some o /\ output_avail b = zlen p /\ sub (buffer b) o (zlen p) = p.
Proof.
  intros (C & _ & [D A]). destruct (core_first b p ps C) as (_ & _ & S & _). eauto.
Qed.

(** Dropping the first packet of [bl] data blocks. *)
Definition retreat (b : t) (bl : Z) : t :=
  let b := with_ring b (wrap b) (start b + (1 + bl)) (used b - (1 + bl)) in
  if start b =? wrap b then with_ring b (size b) 0 (used b) else b.

Lemma retreat_core b p ps : core b (p :: ps) ->
  let b' := retreat b (blocks_of (zlen p)) in
  core b' ps /\ _ChunkBuffer2_end b' = _ChunkBuffer2_end b /\ free b <= free b' /\
  (used b < wrap b - start b -> free b' = free b).
Proof.
  intros C. pose proof (core_first b p ps C) as (_ & Hz & _ & U1 & U2).
  pose proof (core_end b _ C) as (He & Hf & Hef). pose proof (blocks_of_spec _ Hz) as [Hbl _].
  destruct C as [Hs Hm Hmtu Hb Hr]. unfold retreat, free, _ChunkBuffer2_end in *. cbv zeta in *.
  destruct Hr as [(Hu & Hw & Hl & R)|(Hu & Hl & ps1 & ps2 & E & R & R2)]; simpl in *.
  - destruct R as (_ & _ & _ & R). revert He Hf Hef. bool_false. intros He Hf Hef.
    bool_false. simpl. bool_false. split_and!; try lia.
    constructor; simpl; try lia. left. simpl. split_and!; try lia.
    replace (start b + (1 + blocks_of (zlen p)) + (used b - (1 + blocks_of (zlen p))))
      with (start b + used b) by lia.
    by replace (start b + (1 + blocks_of (zlen p))) with (start b + 1 + blocks_of (zlen p)) by lia.
  - destruct ps1 as [|q ps1]; [simpl in R; lia|]. simplify_eq/=.
    pose proof R as (Hlim & _ & _ & R1). apply run_blocks in R1 as E1.
    revert He Hf Hef. bool_true. intros He Hf Hef. case_if; simpl.
    + bool_false. split_and!; try lia. destruct ps1 as [|q' ps1].
      2: { apply run_head in R1. apply run_zlen in R as ?. destruct R as (_&_&_&R).
           apply run_zlen in R. pose proof (blocks_of_spec (zlen q')). lia. }
      constructor; simpl; try lia. left. simpl. split_and!; try lia.
      by replace (used b - (1 + blocks_of (zlen q))) with (used b - (wrap b - start b)) by lia.
    + bool_true. split_and!; try lia.
      constructor; simpl; try lia. right. simpl. split_and!; try lia.
      exists ps1, ps2. split_and!; [done| |].
      * by replace (start b + (1 + blocks_of (zlen q))) with (start b + 1 + blocks_of (zlen q)) by lia.
      * by replace (used b - (1 + blocks_of (zlen q)) - (wrap b - (start b + (1 + blocks_of (zlen q)))))
          with (used b - (wrap b - start b)) by lia.
Qed.

Lemma retreat_out b bl : let b' := retreat b bl in
  buffer b' = buffer b /\ size b' = size b /\ mtu b' = mtu b /\
  input_dest b' = input_dest b /\ input_avail b' = input_avail b.
Proof. unfold retreat. cbv zeta. by case_if. Qed.

Lemma consume_unfold b : ChunkBuffer2_ConsumePacket b =
  (ASSERT bool_decide (is_Some (output_dest b)); ASSERT _ChunkBuffer2_assert_buffer b;
   ASSERT _ChunkBuffer2_assert_io b;
   ASSERT 1 <=? wrap b - start b; ASSERT 1 <=? used b;
   let bl := blocks_of (block_len (buffer b) (start b)) in
   ASSERT bl <=? wrap b - start b - 1; ASSERT bl <=? used b - 1;
   let b2 := retreat b bl in
   ASSERT _ChunkBuffer2_assert_buffer b2;
   let b3 := if used b >=? wrap b - start b then _ChunkBuffer2_update_input b2 else b2 in
   match _ChunkBuffer2_update_output b3 with
   | None => None
   | Some b => ASSERT _ChunkBuffer2_assert_io b; Some b
   end).
Proof. reflexivity. Qed.

(** The region offered to the producer by [b] is still offered by [b'], at the same place. *)
Definition input_kept (b b' : t) : Prop :=
  forall d, input_dest b = Some d -> input_dest b' = Some d /\ input_avail b <= input_avail b'.

Lemma consume_ok b p ps : inv b (p :: ps) ->
  exists b', ChunkBuffer2_ConsumePacket b = Some b' /\ inv b' ps /\ input_kept b b' /\
    buffer b' = buffer b /\ size b' = size b /\ mtu b' = mtu b.
Proof.
  intros H. pose proof H as (C & I & O). pose proof (core_first b p ps C) as (L & Hz & _ & U1 & U2).
  pose proof (blocks_of_spec _ Hz) as [Hbl _].
  destruct (retreat_core b p ps C) as (C2 & Ee & Hf & Hf').
  destruct (retreat_out b (blocks_of (zlen p))) as (Eb & Es & Em & Ed & Ea).
  rewrite consume_unfold. destruct O as [D A]. rewrite bool_decide_true by (rewrite D; eauto).
  rewrite (assert_buffer_true b _ C), (assert_io_true b _ H), L. cbv zeta.
  do 4 bool_true. set (b2 := retreat _ _) in *. rewrite (assert_buffer_true b2 _ C2).
  assert (exists b3, (if used b >=? wrap b - start b then _ChunkBuffer2_update_input b2 else b2) = b3 /\
    core b3 ps /\ in_ok b3 /\ input_kept b b3 /\ buffer b3 = buffer b /\ size b3 = size b /\
    mtu b3 = mtu b) as (b3 & -> & C3 & I3 & K3 & Eb3 & Es3 & Em3).
  { case_if; eexists; split; try done.
    - destruct (update_input_ok b2 _ C2) as (I2 & d & a & E2). rewrite E2 in *. simpl in *.
      split_and!; [by apply core_with_input|done| |congruence..].
      intros d0 Hd0. destruct I as [(?&?&?)|(F & D' & A')]; [congruence|].
      unfold in_ok in I2. change (free (with_input b2 d a)) with (free b2) in I2.
      change (_ChunkBuffer2_end (with_input b2 d a)) with (_ChunkBuffer2_end b2) in I2.
      destruct I2 as [(?&?&?)|(F2 & D2 & A2)]; [lia|]. rewrite D2, A2, Ee.
      unfold BLOCK in *. split; [congruence|lia].
    - split_and!; try done.
      + unfold in_ok. rewrite Ee, Hf' by lia. rewrite Ed, Ea. exact I.
      + intros d Hd. rewrite Ed, Ea. done. }
  destruct (update_output_ok b3 ps C3) as (d' & a' & E' & O'). rewrite E'.
  assert (inv (with_output b3 d' a') ps) as Hinv.
  { split; [by apply core_with_output|]. by split. }
  rewrite (assert_io_true _ _ Hinv). eexists. split_and!; done.
Qed.

(** ** Initialisation and capacity *)
Lemma init_ok m blks mtu_ : 0 <= mtu_ <= INT_MAX -> 1 + blocks_of mtu_ <= blks ->
  BLOCK * blks <= INT_MAX -> zlen m = BLOCK * blks ->
  exists b, ChunkBuffer2_Init m blks mtu_ = Some b /\ inv b [] /\
    size b = blks /\ mtu b = blocks_of mtu_ /\ buffer b = m.
Proof.
  intros Hm Hb Hi Hz. pose proof (blocks_of_spec mtu_ Hm) as [Hbl _].
  unfold ChunkBuffer2_Init. do 2 bool_true. cbv zeta.
  set (b0 := mk m blks blks 0 0 (blocks_of mtu_) None 0 None 0).
  assert (core b0 []) as C.
  { constructor; simpl; try done; try lia. left. simpl. lia. }
  rewrite (assert_buffer_true _ _ C). destruct (finish_ok b0 [] C) as (b & E & Hinv & ? & ? & ?).
  rewrite E, (assert_io_true _ _ Hinv). eauto 10.
Qed.

Lemma blocks_bound k ps : Forall (fun p => blocks_of (zlen p) <= k) ps ->
  blocks ps <= Z.of_nat (length ps) * (1 + k).
Proof. induction 1; simpl blocks; simpl length; lia. Qed.

(** While fewer than [num] packets of at most [mtu] blocks are stored in a buffer of
    [(1 + mtu) * (num + 1)] blocks, a packet of [mtu] blocks still fits. *)
Lemma capacity b ps num : inv b ps -> size b = (1 + mtu b) * (num + 1) ->
  Forall (fun p => blocks_of (zlen p) <= mtu b) ps -> Z.of_nat (length ps) < num ->
  is_Some (input_dest b) /\ BLOCK * mtu b <= input_avail b.
Proof.
  intros (C & I & _) Hs HF Hn. pose proof (blocks_bound _ _ HF) as Hb.
  pose proof (core_used b ps C) as [_ Hu]. pose proof (core_end b ps C) as (He & Hf & _).
  pose proof (core_mtu _ _ C). assert (1 + mtu b <= free b) as Hfree.
  { destruct C as [_ _ _ Hbd Hr]. unfold free, _ChunkBuffer2_end.
    destruct Hr as [(U & W & L & _)|(U & L & _)]; [bool_false; lia|bool_true; nia]. }
  destruct I as [(?&?&?)|(F & D & A)]; [lia|]. rewrite D, A. unfold BLOCK. split; [eauto|lia].
Qed.

(** [ChunkBuffer2_calc_blocks] is exact: the size, or -1 when it is no [int]. *)
Lemma calc_blocks_spec chunk_len num : 0 <= chunk_len <= INT_MAX -> 0 <= num <= INT_MAX ->
  let n := (1 + blocks_of chunk_len) * (num + 1) in
  ChunkBuffer2_calc_blocks chunk_len num =
    (if (n <=? INT_MAX) && (num <? INT_MAX) then n else -1).
Proof.
  intros Hc Hn. pose proof (blocks_of_spec chunk_len Hc) as Hb. unfold BLOCK in Hb.
  unfold ChunkBuffer2_calc_blocks. cbv zeta. unfold INT_MAX in *. bool_false.
  destruct (Z.ltb_spec num 2147483647); [bool_false|bool_true; by rewrite andb_false_r].
  rewrite andb_true_r. set (c := 1 + blocks_of chunk_len) in *.
  destruct (Z.leb_spec (c * (num + 1)) 2147483647) as [L|L].
  - assert (c <= 2147483647 / (num + 1)) by (apply Z.div_le_lower_bound; lia). by bool_false.
  - assert (2147483647 / (num + 1) < c) by (apply Z.div_lt_upper_bound; lia). by bool_true.
Qed.

(** ** Refinement of a bounded queue *)

(** A client puts a packet (it writes the bytes at [input_dest], then submits them) or takes the
    packet exposed at [output_dest]. *)
Inductive op := Put (data : list Z) | Get.

Definition exec1 (b : t) (o : op) : option (t * list (list Z)) :=
  match o with
  | Put data =>
      match input_dest b with
      | None => None
      | Some d =>
          ASSERT zlen data <=? input_avail b;
          b ← ChunkBuffer2_SubmitPacket (write_input b d data) (zlen data);
          Some (b, [])
      end
  | Get =>
      match output_dest b with
      | None => None
      | Some d =>
          let p := sub (buffer b) d (output_avail b) in
          b ← ChunkBuffer2_ConsumePacket b;
          Some (b, [p])
      end
  end.

(** The abstract machine: a queue of at most [num] packets of at most [mtu] bytes. *)
Definition spec1 (num mtu : Z) (q : list (list Z)) (o : op) : option (list (list Z) * list (list Z)) :=
  match o, q with
  | Put data, _ =>
      if (Z.of_nat (length q) <? num) && (zlen data <=? mtu) then Some (q ++ [data], []) else None
  | Get, p :: q => Some (q, [p])
  | Get, [] => None
  end.

Fixpoint execs {S} (step : S -> op -> option (S * list (list Z))) (s : S) (os : list op) :
    option (S * list (list Z)) :=
  match os with
  | [] => Some (s, [])
  | o :: os =>
      match step s o with
      | None => None
      | Some (s, out) =>
          match execs step s os with None => None | Some (s, outs) => Some (s, out ++ outs) end
      end
  end.

Definition holds (num mtu_ : Z) (b : t) (q : list (list Z)) : Prop :=
  inv b q /\ mtu b = blocks_of mtu_ /\ size b = (1 + mtu b) * (num + 1) /\
  Forall (fun p => zlen p <= mtu_) q.

Lemma put_step num mtu_ b q data : 0 <= mtu_ <= INT_MAX -> holds num mtu_ b q ->
  Z.of_nat (length q) < num -> zlen data <= mtu_ ->
  exists b', exec1 b (Put data) = Some (b', []) /\ holds num mtu_ b' (q ++ [data]).
Proof.
  intros Hm (Hi & Emt & Es & HF) Hl Hz. pose proof (zlen_nonneg data).
  pose proof (blocks_of_spec mtu_ Hm) as Hb. unfold exec1.
  destruct (capacity b q num Hi Es) as [[d D] A]; [|done|].
  { rewrite Emt. eapply List.Forall_impl; [|exact HF]. intros p Hp. simpl in Hp.
    pose proof (zlen_nonneg p). pose proof (blocks_of_spec (zlen p)). unfold BLOCK in *. lia. }
  rewrite D. rewrite Emt in A. bool_true.
  pose proof (write_input_inv b q d d data Hi D) as Hw.
  destruct (submit_ok (write_input b d data) q d (zlen data)) as (b' & E & Ib' & Es' & Em' & _);
    [apply Hw; lia|done|simpl; lia|].
  rewrite E. simpl. eexists. split; [done|]. simpl in *.
  replace (sub (splice (buffer b) d data) d (zlen data)) with data in Ib'.
  - split_and!; try congruence. apply Forall_app. split; [done|]. by constructor.
  - symmetry. apply sub_splice_eq. destruct Hi as (C & [(?&?&?)|(F & D' & A')] & _); [congruence|].
    pose proof (core_end _ _ C). rewrite (core_mem _ _ C). simplify_eq. unfold BLOCK in *. lia.
Qed.

Lemma get_step num mtu_ b p q : holds num mtu_ b (p :: q) ->
  exists b', exec1 b Get = Some (b', [p]) /\ holds num mtu_ b' q.
Proof.
  intros (Hi & Emt & Es & HF). destruct (output_ok _ _ _ Hi) as (o & D & A & S).
  destruct (consume_ok _ _ _ Hi) as (b' & E & Ib' & _ & _ & Es' & Em').
  unfold exec1. rewrite D, A, S, E. simpl. eexists. split; [done|].
  inversion HF; subst. split_and!; try done; congruence.
Qed.

Lemma execs_refine num mtu_ os b q q' outs : 0 <= mtu_ <= INT_MAX -> holds num mtu_ b q ->
  execs (spec1 num mtu_) q os = Some (q', outs) ->
  exists b', execs exec1 b os = Some (b', outs) /\ holds num mtu_ b' q'.
Proof.
  intros Hm. revert b q outs. induction os as [|o os IH]; intros b q outs Hh E.
  { simplify_eq/=. eauto. }
  cbn [execs] in E |- *. destruct (spec1 num mtu_ q o) as [[q1 out]|] eqn:E1; [|done].
  assert (exists b1, exec1 b o = Some (b1, out) /\ holds num mtu_ b1 q1) as (b1 & -> & Hh1).
  { destruct o as [data|]; unfold spec1 in E1.
    - destruct (_ && _) eqn:Eg; [|done]. reflect_bool. simplify_eq. by apply put_step.
    - destruct q as [|p q]; [done|]. simplify_eq. by apply get_step. }
  destruct (execs (spec1 num mtu_) q1 os) as [[q2 outs2]|] eqn:E2; [|done]. simplify_eq.
  destruct (IH _ _ _ Hh1 E2) as (b2 & -> & Hh2). eauto.
Qed.

(** C10: [ChunkBuffer2], dimensioned by [ChunkBuffer2_calc_blocks(mtu, num)], implements the
    bounded queue: for every sequence of puts and gets that a queue of [num] packets of at most
    [mtu] bytes accepts, the buffer runs it without a failing assertion and returns the same
    packets, and it still represents the queue at the end. *)
Theorem chunkbuffer2_refines_queue m mtu_ num os q outs :
  let blks := ChunkBuffer2_calc_blocks mtu_ num in
  0 <= mtu_ <= INT_MAX -> 0 < num <= INT_MAX -> 0 <= blks -> BLOCK * blks <= INT_MAX ->
  zlen m = BLOCK * blks -> execs (spec1 num mtu_) [] os = Some (q, outs) ->
  exists b0 b, ChunkBuffer2_Init m blks mtu_ = Some b0 /\ execs exec1 b0 os = Some (b, outs) /\
    inv b q.
Proof.
  intros blks Hm Hn Hb Hi Hz E. unfold blks in *. rewrite calc_blocks_spec in * by lia.
  destruct (_ && _); [|lia]. pose proof (blocks_of_spec mtu_ Hm) as [Hbl _].
  destruct (init_ok m ((1 + blocks_of mtu_) * (num + 1)) mtu_) as (b0 & E0 & Ib & Es & Em & _);
    [done|nia|done|done|].
  destruct (execs_refine num mtu_ os b0 [] q outs Hm) as (b & Eb & (Hinv & _)); [|done|].
  - split_and!; [done|done|by rewrite Em|constructor].
  - eauto.
Qed.

Lemma chunkbuffer2_refines_queue_witness :
  exists b0 b, ChunkBuffer2_Init (replicate 36 0) 9 8 = Some b0 /\
    execs exec1 b0 [Put [1; 2; 3]; Put [4]; Get; Put [5; 6; 7; 8; 9]; Get; Get]
      = Some (b, [[1; 2; 3]; [4]; [5; 6; 7; 8; 9]]) /\ inv b [].
Proof.
  apply (chunkbuffer2_refines_queue (replicate 36 0) 8 2
    [Put [1; 2; 3]; Put [4]; Get; Put [5; 6; 7; 8; 9]; Get; Get] []);
    first [reflexivity | vm_compute; intuition congruence].
Defined.

(** The byte count behind [input_avail] is computed in [size_t] and stored in an [int]: a buffer
    whose data area reaches 2 GiB, which [ChunkBuffer2_calc_blocks] accepts, offers a
    negative amount of room. *)
Lemma input_avail_overflow m :
  let n := ChunkBuffer2_calc_blocks 65535 32768 in
  0 < n /\ input_avail (_ChunkBuffer2_update_input
    (mk m n n 0 0 (blocks_of 65535) None 0 None 0)) < 0.
Proof. vm_compute. split; reflexivity. Qed.

End ChunkBuffer2.
