(* ===== verification/FlowView.v ===== *)
(** * The flow interfaces as their user sees them

    A user of a flow interface starts an operation ([..._Sender_Send], [..._Receiver_Recv])
    and is called back once, by its done handler, when it completed.  Between the two calls
    the operation is outstanding.  [FlowIf] shows that the interface objects, driven by the job
    queue, give exactly this view.  The assertions are those of the interface functions. *)

From S2P Require Import Prelude.

(** PacketRecvInterface: the packet is written at [dest], up to the MTU of the interface. *)
Inductive recv_view := RIdle | RBusy (dest : Z).
(** PacketPassInterface: the packet is the [len] bytes at [data]. *)
Inductive pass_view := PIdle | PBusy (data : option Z) (len : Z).
(** StreamRecvInterface: up to [avail] bytes are written at [dest]. *)
Inductive srecv_view := SRIdle | SRBusy (dest avail : Z).
(** StreamPassInterface: some of the [len] bytes at [data] are taken. *)
Inductive spass_view := SPIdle | SPBusy (data len : Z).

Definition PacketRecvInterface_Receiver_Recv (i : recv_view) (mtu : Z) (data : option Z) :
    option recv_view :=
  ASSERT negb (mtu >? 0) || bool_decide (is_Some data);
  match i with RIdle => Some (RBusy (default 0 data)) | RBusy _ => None end.

Definition PacketPassInterface_Sender_Send (i : pass_view) (mtu : Z) (data : option Z) (data_len : Z) :
    option pass_view :=
  ASSERT data_len >=? 0;
  ASSERT data_len <=? mtu;
  ASSERT negb (data_len >? 0) || bool_decide (is_Some data);
  match i with PIdle => Some (PBusy data data_len) | PBusy _ _ => None end.

Definition StreamRecvInterface_Receiver_Recv (i : srecv_view) (data data_len : Z) :
    option srecv_view :=
  ASSERT data_len >? 0;
  match i with SRIdle => Some (SRBusy data data_len) | SRBusy _ _ => None end.

Definition StreamPassInterface_Sender_Send (i : spass_view) (data data_len : Z) :
    option spass_view :=
  ASSERT data_len >? 0;
  match i with SPIdle => Some (SPBusy data data_len) | SPBusy _ _ => None end.

(** The provider of a packet receive interface completes the packet it was asked for. *)
Definition PacketRecvInterface_Done (i : recv_view) (mtu data_len : Z) : option recv_view :=
  ASSERT data_len >=? 0;
  ASSERT data_len <=? mtu;
  match i with RBusy _ => Some RIdle | RIdle => None end.

(** The provider of a packet pass interface accepts the packet it was given. *)
Definition PacketPassInterface_Done (i : pass_view) : option pass_view :=
  match i with PBusy _ _ => Some PIdle | PIdle => None end.

(** The provider of a stream pass interface took the first [data_len] bytes. *)
Definition StreamPassInterface_Done (i : spass_view) (data_len : Z) : option spass_view :=
  ASSERT data_len >? 0;
  match i with SPBusy _ len => ASSERT data_len <=? len; Some SPIdle | SPIdle => None end.

(** The provider of a stream receive interface wrote [data_len] bytes. *)
Definition StreamRecvInterface_Done (i : srecv_view) (data_len : Z) : option srecv_view :=
  ASSERT data_len >? 0;
  match i with SRBusy _ avail => ASSERT data_len <=? avail; Some SRIdle | SRIdle => None end.
