(* ===== verification/PacketBuffer.v ===== *)
(** * Packet buffer (flow/PacketBuffer.c)

    Connects a packet receive interface to a packet pass interface through a
    [ChunkBuffer2]. *)

From S2P Require Import Prelude BAlign ByteOrder ChunkBuffer2 FlowView.

Module PacketBuffer.
Import ChunkBuffer2.

Record t := mk {
  input : recv_view;
  input_mtu : Z;
  output : pass_view;
  output_mtu : Z;
  buf : ChunkBuffer2.t;
}.

Definition with_input (o : t) (i : recv_view) : t :=
  mk i (input_mtu o) (output o) (output_mtu o) (buf o).
Definition with_output (o : t) (i : pass_view) : t :=
  mk (input o) (input_mtu o) i (output_mtu o) (buf o).
Definition with_buf (o : t) (b : ChunkBuffer2.t) : t :=
  mk (input o) (input_mtu o) (output o) (output_mtu o) b.

Definition recv (o : t) : option t :=
  i ← PacketRecvInterface_Receiver_Recv (input o) (input_mtu o) (input_dest (buf o));
  Some (with_input o i).
Definition send (o : t) : option t :=
  i ← PacketPassInterface_Sender_Send (output o) (output_mtu o) (output_dest (buf o)) (output_avail (buf o));
  Some (with_output o i).

Definition input_handler_done (o : t) (in_len : Z) : option t :=
  ASSERT in_len >=? 0;
  ASSERT in_len <=? input_mtu o;
  let was_empty := output_avail (buf o) <? 0 in
  b ← ChunkBuffer2_SubmitPacket (buf o) in_len;
  let o := with_buf o b in
  o ← (if input_avail (buf o) >=? input_mtu o then recv o else Some o);
  if was_empty then send o else Some o.

Definition output_handler_done (o : t) : option t :=
  let was_full := input_avail (buf o) <? input_mtu o in
  b ← ChunkBuffer2_ConsumePacket (buf o);
  let o := with_buf o b in
  o ← (if was_full && (input_avail (buf o) >=? input_mtu o) then recv o else Some o);
  if output_avail (buf o) >=? 0 then send o else Some o.

(** The result of [PacketBuffer_Init] is 0 ([inl tt]) when the size is no [int] or the
    allocator [alloc] fails, 1 ([inr o]) otherwise. *)
Definition PacketBuffer_Init (alloc : Z -> option (list Z)) (in_mtu out_mtu num_packets : Z) :
    option (unit + t) :=
  ASSERT out_mtu >=? in_mtu;
  ASSERT num_packets >? 0;
  let num_blocks := ChunkBuffer2_calc_blocks in_mtu num_packets in
  if num_blocks <? 0 then Some (inl tt) else
  match alloc (num_blocks * BLOCK) with
  | None => Some (inl tt)
  | Some m =>
      b ← ChunkBuffer2_Init m num_blocks in_mtu;
      o ← recv (mk RIdle in_mtu PIdle out_mtu b);
      Some (inr o)
  end.

(** ** The buffer in its environment *)

(** What the two interfaces may do: the provider of the input writes into the destination it
    was given, or completes the packet; the provider of the output takes its packet. *)
Inductive event :=
| EWrite (o : Z) (data : list Z)
| EInDone (len : Z)
| EOutDone.

Definition enabled (s : t) (e : event) : bool :=
  match e, input s, output s with
  | EWrite o data, RBusy d, _ => (d <=? o) && (o + zlen data <=? d + input_mtu s)
  | EInDone len, RBusy _, _ => (0 <=? len) && (len <=? input_mtu s)
  | EOutDone, _, PBusy _ _ => true
  | _, _, _ => false
  end.

(** The packet an event completes. *)
Definition in_packet (s : t) (len : Z) : list Z :=
  match input s with RBusy d => sub (buffer (buf s)) d len | RIdle => [] end.
Definition out_packet (s : t) : list Z :=
  match output s with
  | PBusy d len => sub (buffer (buf s)) (default 0 d) len
  | PIdle => []
  end.

Definition exec (s : t) (e : event) : option t :=
  match e with
  | EWrite o data => Some (with_buf s (write_input (buf s) o data))
  | EInDone len => input_handler_done (with_input s RIdle) len
  | EOutDone => output_handler_done (with_output s PIdle)
  end.

(** States reached from [s0], with the packets received and delivered so far. *)
Inductive reach (s0 : t) : t -> list (list Z) -> list (list Z) -> Prop :=
| reach_init : reach s0 s0 [] []
| reach_write s rx tx o data s' : reach s0 s rx tx -> enabled s (EWrite o data) = true ->
    exec s (EWrite o data) = Some s' -> reach s0 s' rx tx
| reach_in s rx tx len s' : reach s0 s rx tx -> enabled s (EInDone len) = true ->
    exec s (EInDone len) = Some s' -> reach s0 s' (rx ++ [in_packet s len]) tx
| reach_out s rx tx s' : reach s0 s rx tx -> enabled s EOutDone = true ->
    exec s EOutDone = Some s' -> reach s0 s' rx (tx ++ [out_packet s]).

(** ** Invariant *)

(** [ok s q num]: the buffer holds the queue [q] and was made for [num] packets; a receive is
    outstanding exactly while the buffer offers room for a full packet, and a send exactly
    while the queue is not empty. *)
Record ok (s : t) (q : list (list Z)) (num : Z) : Prop := {
  ok_mtu : 0 <= input_mtu s <= INT_MAX /\ input_mtu s <= output_mtu s;
  ok_buf : inv (buf s) q;
  ok_blocks : mtu (buf s) = blocks_of (input_mtu s);
  ok_size : size (buf s) = (1 + mtu (buf s)) * (num + 1);
  ok_num : 0 < num;
  ok_pkts : Forall (fun p => zlen p <= input_mtu s) q;
  ok_in : match input s with
          | RIdle => input_avail (buf s) < input_mtu s
          | RBusy d => input_dest (buf s) = Some d /\ input_mtu s <= input_avail (buf s)
          end;
  ok_out : match output s with
           | PIdle => q = []
           | PBusy d len => q <> [] /\ d = output_dest (buf s) /\ len = output_avail (buf s)
           end;
}.

Lemma recv_idle s q : inv (buf s) q -> 0 <= input_mtu s <= input_avail (buf s) -> input s = RIdle ->
  exists d, recv s = Some (with_input s (RBusy d)) /\ input_dest (buf s) = Some d.
Proof.
  intros H Hm Hi. destruct (input_cases _ _ H) as [[_ ?]|[[d D] _]]; [lia|].
  exists d. unfold recv, PacketRecvInterface_Receiver_Recv. rewrite Hi, D.
  by rewrite (bool_decide_true (is_Some (Some d))), orb_true_r by eauto.
Qed.

Lemma send_idle s p q : inv (buf s) (p :: q) -> zlen p <= output_mtu s -> output s = PIdle ->
  send s = Some (with_output s (PBusy (output_dest (buf s)) (output_avail (buf s)))).
Proof.
  intros H Hz Ho. destruct (output_ok _ _ _ H) as (o & D & A & _). pose proof (zlen_nonneg p).
  unfold send, PacketPassInterface_Sender_Send. rewrite Ho, A, D. do 2 bool_true.
  by rewrite (bool_decide_true (is_Some (Some o))), orb_true_r by eauto.
Qed.

Lemma write_step s q num o data : ok s q num -> enabled s (EWrite o data) = true ->
  ok (with_buf s (write_input (buf s) o data)) q num.
Proof.
  intros [Hm Hb Hbl Hs Hn Hp Hi Ho] He. simpl in He.
  destruct (input s) as [|d] eqn:E; [done|]. reflect_bool. destruct Hi as [Hd Ha].
  constructor; simpl; try done; [|by rewrite E].
  eapply write_input_inv; [done|exact Hd|lia|lia].
Qed.

Lemma in_step s q num len : ok s q num -> enabled s (EInDone len) = true ->
  exists s', exec s (EInDone len) = Some s' /\ ok s' (q ++ [in_packet s len]) num.
Proof.
  intros [Hm Hb Hbl Hs Hn Hp Hi Ho] He. simpl in He. unfold in_packet, exec, input_handler_done.
  destruct (input s) as [|d] eqn:E; [done|]. reflect_bool. destruct Hi as [Hd Ha].
  simpl. do 2 bool_true.
  destruct (submit_ok (buf s) q d len) as (b & Eb & Ib & Es & Em & Eo); [done..|lia|].
  rewrite Eb. simpl. set (p := sub (buffer (buf s)) d len) in *.
  set (s1 := with_buf (with_input s RIdle) b).
  assert (Forall (fun p => zlen p <= input_mtu s) (q ++ [p])) as Hq.
  { apply Forall_app. split; [done|]. constructor; [|constructor].
    unfold p. destruct Hb as (C & [(?&?&?)|(F & D & A)] & _); [congruence|].
    pose proof (core_end _ _ C). pose proof (core_mem _ _ C). rewrite D in Hd. simplify_eq.
    unfold BLOCK in *. rewrite zlen_sub; lia. }
  assert (exists s2, (if input_avail b >=? input_mtu s then recv s1 else Some s1) = Some s2 /\
    buf s2 = b /\ output s2 = output s /\ input_mtu s2 = input_mtu s /\ output_mtu s2 = output_mtu s /\
    match input s2 with
    | RIdle => input_avail b < input_mtu s
    | RBusy d => input_dest b = Some d /\ input_mtu s <= input_avail b
    end) as (s2 & -> & Eb2 & Eo2 & Em2 & Eom2 & Hi2).
  { case_if; [|exists s1; split_and!; simpl; try done; lia].
    destruct (recv_idle s1 (q ++ [p])) as (d' & Er & Ed); [done|simpl; lia|done|].
    rewrite Er. eexists. split_and!; try done; simpl in *; done || lia. }
  simpl. destruct q as [|p0 q].
  - rewrite (output_nil _ Hb). simpl. destruct (output s) eqn:Eout; [|by destruct Ho].
    rewrite (send_idle s2 p []); [|by rewrite Eb2| |done].
    + eexists. split; [done|]. constructor; simpl; rewrite ?Eb2, ?Em2, ?Eom2; try done; try lia.
    + decompose_Forall_hyps. lia.
  - destruct (output_ok _ _ _ Hb) as (o & D & A & _). pose proof (zlen_nonneg p0).
    rewrite A. bool_false. exists s2. split; [done|].
    constructor; rewrite ?Eb2, ?Em2, ?Eom2, ?Eo2; try done; try lia.
    destruct (output s) as [|d' l']; [done|]. destruct Ho as (_ & -> & ->).
    destruct Eo as [-> ->]; done.
Qed.

Lemma out_step s q num : ok s q num -> enabled s EOutDone = true ->
  exists s' p q', q = p :: q' /\ out_packet s = p /\ exec s EOutDone = Some s' /\ ok s' q' num.
Proof.
  intros [Hm Hb Hbl Hs Hn Hp Hi Ho] He. simpl in He. unfold out_packet, exec, output_handler_done.
  destruct (output s) as [|d len] eqn:E; [done|]. destruct Ho as (Hq & -> & ->).
  destruct q as [|p q]; [done|]. destruct (output_ok _ _ _ Hb) as (o & D & A & S).
  destruct (consume_ok _ _ _ Hb) as (b & Eb & Ib & K & Em & Es & Emt).
  rewrite D, A. simpl. rewrite S, Eb. simpl. set (s1 := with_buf (with_output s PIdle) b).
  inversion Hp as [|? ? Hz Hp']; subst.
  assert (exists s2, (if (input_avail (buf s) <? input_mtu s) && (input_avail b >=? input_mtu s)
      then recv s1 else Some s1) = Some s2 /\
    buf s2 = b /\ output s2 = PIdle /\ input_mtu s2 = input_mtu s /\ output_mtu s2 = output_mtu s /\
    match input s2 with
    | RIdle => input_avail b < input_mtu s
    | RBusy d => input_dest b = Some d /\ input_mtu s <= input_avail b
    end) as (s2 & -> & Eb2 & Eo2 & Em2 & Eom2 & Hi2).
  { destruct (input s) as [|d'] eqn:Ei.
    - case_if; [|exists s1; split_and!; simpl; try done; rewrite Ei; lia].
      destruct (recv_idle s1 q) as (d' & Er & Ed); [done|simpl; lia|done|].
      rewrite Er. eexists. split_and!; try done; simpl in *; done || lia.
    - bool_false. exists s1. split_and!; simpl; try done. rewrite Ei.
      destruct Hi as [Hd Ha]. destruct (K _ Hd). split; [done|lia]. }
  simpl. exists (if output_avail b >=? 0 then default s2 (send s2) else s2), p, q.
  split_and!; [done|done| |].
  - rewrite Eb2. case_if; [|done]. destruct q as [|p' q].
    { rewrite (output_nil _ Ib) in E0. lia. }
    inversion Hp'; subst. by rewrite (send_idle s2 p' q) by (rewrite ?Eb2; done || lia).
  - destruct q as [|p' q].
    + rewrite (output_nil _ Ib). simpl.
      constructor; rewrite ?Eb2, ?Em2, ?Eom2, ?Eo2; try done; try lia; congruence.
    + destruct (output_ok _ _ _ Ib) as (o' & D' & A' & _). pose proof (zlen_nonneg p').
      rewrite A'. bool_true. inversion Hp'; subst.
      rewrite (send_idle s2 p' q) by (rewrite ?Eb2; done || lia). simpl.
      constructor; simpl; rewrite ?Eb2, ?Em2, ?Eom2; try done; try lia; congruence.
Qed.

(** The memory a receive is given lies in the buffer. *)
Lemma in_room s q num d : ok s q num -> input s = RBusy d -> 0 <= d /\ d + input_mtu s <= zlen (buffer (buf s)).
Proof.
  intros Hok Hi. pose proof (ok_in _ _ _ Hok) as Ha. rewrite Hi in Ha. destruct Ha as [Hd Ha].
  destruct (ok_buf _ _ _ Hok) as (C & [(?&?&?)|(F & D & A)] & _); [congruence|].
  pose proof (core_end _ _ C). pose proof (core_mem _ _ C). rewrite D in Hd. simplify_eq. unfold BLOCK in *. lia.
Qed.

Lemma room s q num : ok s q num -> Z.of_nat (length q) < num -> exists d, input s = RBusy d.
Proof.
  intros [Hm Hb Hbl Hs Hn Hp Hi Ho] Hl.
  destruct (capacity _ _ _ Hb Hs) as [_ Ha]; [|done|].
  - rewrite Hbl. eapply List.Forall_impl; [|exact Hp]. intros p Hz. simpl in Hz. pose proof (zlen_nonneg p).
    pose proof (blocks_of_spec (zlen p)). pose proof (blocks_of_spec (input_mtu s)).
    unfold BLOCK in *. lia.
  - destruct (input s); [|eauto]. pose proof (blocks_of_spec (input_mtu s)) as [_ [_ ?]]; [lia|].
    rewrite Hbl in Ha. lia.
Qed.

Section Theorems.
Context (alloc : Z -> option (list Z)).
(** The allocator returns an object of the size asked for. *)
Context (alloc_size : forall n m, alloc n = Some m -> zlen m = n).
Context (in_mtu out_mtu num : Z).
Context (Hmtu : 0 <= in_mtu <= INT_MAX) (Hout : in_mtu <= out_mtu) (Hnum : 0 < num).
Context (Hsize : BLOCK * ((1 + blocks_of in_mtu) * (num + 1)) <= INT_MAX).

Lemma init_cases :
  PacketBuffer_Init alloc in_mtu out_mtu num = Some (inl tt) \/
  exists s, PacketBuffer_Init alloc in_mtu out_mtu num = Some (inr s) /\ ok s [] num.
Proof.
  pose proof (blocks_of_spec in_mtu Hmtu) as [Hbl _]. unfold BLOCK, INT_MAX in Hsize.
  unfold PacketBuffer_Init. do 2 bool_true. cbv zeta.
  assert (num + 1 <= (1 + blocks_of in_mtu) * (num + 1)) by nia.
  rewrite calc_blocks_spec by (unfold INT_MAX in *; lia). unfold INT_MAX. bool_true. bool_false.
  destruct (alloc _) as [m|] eqn:Em; [right|by left]. apply alloc_size in Em.
  destruct (init_ok m ((1 + blocks_of in_mtu) * (num + 1)) in_mtu) as (b & Eb & Ib & Es & Emt & _);
    [done|nia|unfold BLOCK, INT_MAX; lia|unfold BLOCK in *; lia|].
  rewrite Eb. simpl. destruct (capacity b [] num) as [[d D] A]; [done|nia|constructor|simpl; lia|].
  unfold recv, PacketRecvInterface_Receiver_Recv. simpl. rewrite D.
  rewrite (bool_decide_true (is_Some (Some d))), orb_true_r by eauto. simpl.
  pose proof (blocks_of_spec in_mtu Hmtu) as (_ & _ & Hz).
  eexists. split; [done|]. constructor; simpl; try done; try lia.
  rewrite Emt in A. split; [done|lia].
Qed.

Lemma reach_ok s0 s rx tx : PacketBuffer_Init alloc in_mtu out_mtu num = Some (inr s0) ->
  reach s0 s rx tx -> exists q, rx = tx ++ q /\ ok s q num.
Proof.
  intros E0. destruct init_cases as [?|(s' & E & Hok)]; [congruence|]. simplify_eq.
  induction 1 as [|s rx tx o data s' _ (q & -> & IH) He Ex|s rx tx len s' _ (q & -> & IH) He Ex
    |s rx tx s' _ (q & -> & IH) He Ex].
  - by exists [].
  - exists q. split; [done|]. simplify_eq/=. by apply write_step.
  - destruct (in_step s q num len IH He) as (s2 & E2 & Hok2). simplify_eq.
    exists (q ++ [in_packet s len]). by rewrite app_assoc.
  - destruct (out_step s q num IH He) as (s2 & p & q' & -> & Ep & E2 & Hok2). simplify_eq.
    exists q'. by rewrite <- app_assoc.
Qed.

(** No assertion of [PacketBuffer], [ChunkBuffer2] or the two interfaces can fail: in every
    state reached from a successful [PacketBuffer_Init], under any interleaving of writes into
    the destination handed out, input completions and output completions, the handler of every
    event the interfaces may deliver runs to its end. *)
Theorem packet_buffer_safe s0 s rx tx e :
  PacketBuffer_Init alloc in_mtu out_mtu num = Some (inr s0) ->
  reach s0 s rx tx -> enabled s e = true -> is_Some (exec s e).
Proof.
  intros E0 R He. destruct (reach_ok _ _ _ _ E0 R) as (q & _ & Hok). destruct e as [o data|len|].
  - by eexists.
  - destruct (in_step s q num len Hok He) as (s2 & E2 & _). by eexists.
  - destruct (out_step s q num Hok He) as (s2 & p & q' & _ & _ & E2 & _). by eexists.
Qed.

(** C16: a packet buffer is a lossless FIFO of at least [num_packets] packets.  What was received
    is what was delivered followed by the queue; the packet being sent is the head of the queue,
    byte for byte, although the producer goes on writing into the same memory; a send is
    outstanding exactly while the queue is not empty, and a receive whenever fewer than
    [num_packets] packets are queued, so the buffer never stalls. *)
Theorem packet_buffer_fifo s0 s rx tx :
  PacketBuffer_Init alloc in_mtu out_mtu num = Some (inr s0) ->
  reach s0 s rx tx -> exists q, rx = tx ++ q /\
    match output s with PIdle => q = [] | PBusy _ _ => head q = Some (out_packet s) end /\
    (Z.of_nat (length q) < num -> exists d, input s = RBusy d).
Proof.
  intros E0 R. destruct (reach_ok _ _ _ _ E0 R) as (q & -> & Hok). exists q. split; [done|].
  split; [|by apply room]. pose proof Hok as [_ Hb _ _ _ _ _ Ho]. unfold out_packet.
  destruct (output s); [done|]. destruct Ho as (Hq & -> & ->). destruct q as [|p q]; [done|].
  destruct (output_ok _ _ _ Hb) as (o & -> & -> & E). simpl. by rewrite E.
Qed.

End Theorems.

(** ** Witness: packets of up to 8 bytes, room for two *)
(** Run a list of events, collecting the packets received and delivered. *)
Fixpoint run_events (s : t) (es : list event) (rx tx : list (list Z)) :
    option (t * list (list Z) * list (list Z)) :=
  match es with
  | [] => Some (s, rx, tx)
  | e :: es =>
      ASSERT enabled s e;
      s' ← exec s e;
      match e with
      | EWrite _ _ => run_events s' es rx tx
      | EInDone len => run_events s' es (rx ++ [in_packet s len]) tx
      | EOutDone => run_events s' es rx (tx ++ [out_packet s])
      end
  end.

Lemma run_events_reach s0 es s s' rx tx rx' tx' : reach s0 s rx tx ->
  run_events s es rx tx = Some (s', rx', tx') -> reach s0 s' rx' tx'.
Proof.
  revert s rx tx. induction es as [|e es IH]; intros s rx tx R E; [by simplify_eq/=|].
  cbn [run_events] in E. destruct (enabled s e) eqn:En; [|done].
  destruct (exec s e) as [s1|] eqn:Ex; [|done]. simpl in E.
  destruct e; (eapply IH; [|exact E]); by econstructor.
Qed.

Definition demo_events : list event :=
  [EWrite 4 [7; 8; 9]; EInDone 3; EWrite 12 [1; 2; 3; 4; 5; 6]; EInDone 6; EOutDone].
Definition demo_none : t := mk RIdle 0 PIdle 0 (ChunkBuffer2.mk [] 0 0 0 0 0 None 0 None 0).
Definition demo0 : t := Eval vm_compute in
  match PacketBuffer_Init zeros 8 16 2 with Some (inr s) => s | _ => demo_none end.
Definition demo1 : t := Eval vm_compute in
  match run_events demo0 demo_events [] [] with Some (s, _, _) => s | _ => demo_none end.

Lemma demo0_init : PacketBuffer_Init zeros 8 16 2 = Some (inr demo0).
Proof. vm_compute. reflexivity. Qed.
Lemma demo1_run :
  run_events demo0 demo_events [] [] = Some (demo1, [[7; 8; 9]; [1; 2; 3; 4; 5; 6]], [[7; 8; 9]]).
Proof. vm_compute. reflexivity. Qed.

Lemma packet_buffer_fifo_witness :
  exists q, [[7; 8; 9]; [1; 2; 3; 4; 5; 6]] = [[7; 8; 9]] ++ q /\
    match output demo1 with PIdle => q = [] | PBusy _ _ => head q = Some (out_packet demo1) end /\
    (Z.of_nat (length q) < 2 -> exists d, input demo1 = RBusy d).
Proof.
  apply (packet_buffer_fifo zeros zeros_size 8 16 2 ltac:(unfold INT_MAX; lia)
    ltac:(lia) ltac:(lia) ltac:(vm_compute; congruence) demo0 demo1 _ _ demo0_init).
  eapply run_events_reach; [apply reach_init|exact demo1_run].
Defined.

Lemma packet_buffer_safe_witness : is_Some (exec demo1 (EInDone 8)).
Proof.
  apply (packet_buffer_safe zeros zeros_size 8 16 2 ltac:(unfold INT_MAX; lia)
    ltac:(lia) ltac:(lia) ltac:(vm_compute; congruence) demo0 demo1 [[7; 8; 9]; [1; 2; 3; 4; 5; 6]]
    [[7; 8; 9]] (EInDone 8) demo0_init).
  - eapply run_events_reach; [apply reach_init|exact demo1_run].
  - reflexivity.
Defined.

End PacketBuffer.
