(* ===== verification/PacketProto.v ===== *)
(** * PacketProto: packets in a byte stream
    (protocol/packetproto.h, flow/PacketProtoEncoder.c, flow/PacketProtoDecoder.c)

    The encoder puts a 16-bit little-endian length in front of each packet; the decoder cuts
    the stream back into packets, whatever the pieces in which the stream arrives. *)

From S2P Require Import Prelude BAlign ByteOrder FlowView.

(** [sizeof(struct packetproto_header)] *)
Definition packetproto_header : Z := 2.
Definition PACKETPROTO_ENCLEN (len : Z) : Z := packetproto_header + len.
Definition PACKETPROTO_MAXPAYLOAD : Z := UINT16_MAX.

(** The wire format: the encoding of a packet and of a sequence of packets. *)
Definition encoding (p : list Z) : list Z := host16 (zlen p) ++ p.
Definition stream (ps : list (list Z)) : list Z := concat (encoding <$> ps).

(** ** Encoder *)
Module Encoder.

Record t := mk {
  input : recv_view;
  input_mtu : Z;
  output : recv_view;
  output_mtu : Z;
  output_packet : option Z;
}.

Definition output_handler_recv (enc : t) (data : Z) : option t :=
  ASSERT bool_decide (output_packet enc = None);
  i ← PacketRecvInterface_Receiver_Recv (input enc) (input_mtu enc)
        (Some (data + packetproto_header));
  Some (mk i (input_mtu enc) (output enc) (output_mtu enc) (Some data)).

(** [m] is the object the consumer's destination points into. *)
Definition input_handler_done (enc : t) (m : list Z) (in_len : Z) : option (t * list Z) :=
  match output_packet enc with
  | None => None
  | Some p =>
      let pp := host16 (htol16 (u16 in_len)) in
      ASSERT (0 <=? p) && (p + packetproto_header <=? zlen m);
      let m := splice m p pp in
      o ← PacketRecvInterface_Done (output enc) (output_mtu enc) (PACKETPROTO_ENCLEN in_len);
      Some (mk (input enc) (input_mtu enc) o (output_mtu enc) None, m)
  end.

Definition PacketProtoEncoder_Init (in_mtu : Z) : option t :=
  ASSERT in_mtu <=? PACKETPROTO_MAXPAYLOAD;
  Some (mk RIdle in_mtu RIdle (PACKETPROTO_ENCLEN in_mtu) None).

(** One packet through the encoder: the consumer asks for a packet at [dest] of its memory
    [m], the producer writes [p] at the destination it is given and completes it.  The result
    is the encoder, the memory and the length reported to the consumer. *)
Definition transfer (enc : t) (m : list Z) (dest : Z) (p : list Z) : option (t * list Z * Z) :=
  o ← PacketRecvInterface_Receiver_Recv (output enc) (output_mtu enc) (Some dest);
  enc ← output_handler_recv (mk (input enc) (input_mtu enc) o (output_mtu enc) (output_packet enc)) dest;
  match input enc with
  | RIdle => None
  | RBusy d =>
      let enc := mk RIdle (input_mtu enc) (output enc) (output_mtu enc) (output_packet enc) in
      '(enc, m) ← input_handler_done enc (splice m d p) (zlen p);
      Some (enc, m, PACKETPROTO_ENCLEN (zlen p))
  end.

(** The bytes a consumer obtains that receives every packet at the start of [m]. *)
Fixpoint transfer_all (enc : t) (m : list Z) (ps : list (list Z)) : option (list Z) :=
  match ps with
  | [] => Some []
  | p :: ps =>
      '(enc, m, len) ← transfer enc m 0 p;
      out ← transfer_all enc m ps;
      Some (sub m 0 len ++ out)
  end.

Definition idle (enc : t) : Prop :=
  input enc = RIdle /\ output enc = RIdle /\ output_packet enc = None /\
  input_mtu enc <= PACKETPROTO_MAXPAYLOAD /\ output_mtu enc = PACKETPROTO_ENCLEN (input_mtu enc).

Lemma transfer_ok enc m dest p : idle enc -> zlen p <= input_mtu enc ->
  0 <= dest -> dest + PACKETPROTO_ENCLEN (input_mtu enc) <= zlen m ->
  exists m', transfer enc m dest p = Some (enc, m', PACKETPROTO_ENCLEN (zlen p)) /\
    zlen m' = zlen m /\ sub m' dest (PACKETPROTO_ENCLEN (zlen p)) = encoding p.
Proof.
  intros (Hi & Ho & Hp & Hm & Hom) Hz Hd Hl. unfold PACKETPROTO_ENCLEN, packetproto_header,
    PACKETPROTO_MAXPAYLOAD, UINT16_MAX in *. pose proof (zlen_nonneg p).
  unfold transfer, output_handler_recv, input_handler_done, PacketRecvInterface_Receiver_Recv,
    PacketRecvInterface_Done, packetproto_header, PACKETPROTO_ENCLEN, packetproto_header. 
  rewrite Ho, Hp. rewrite !(bool_decide_true (is_Some (Some _))), !orb_true_r by eauto.
  assert (zlen (splice m (dest + 2) p) = zlen m) as Hz1 by (apply zlen_splice; lia).
  unfold htol16. rewrite uwrap_small by lia.
  remember (host16 (zlen p)) as pp eqn:Epp. simpl. rewrite Hi, orb_true_r. simpl. rewrite Hz1, Hom.
  do 3 bool_true. simpl. exists (splice (splice m (dest + 2) p) dest pp). split; [destruct enc; simpl in *; by subst|].
  assert (zlen pp = 2) as Hh by (by rewrite Epp).
  split; [rewrite zlen_splice; rewrite ?Hz1; lia|]. rewrite (sub_split _ dest (2 + zlen p) 2) by lia.
  unfold encoding. rewrite <- Epp. f_equal.
  - rewrite <- Hh at 2. apply sub_splice_eq. lia.
  - rewrite sub_splice_ne by lia. replace (2 + zlen p - 2) with (zlen p) by lia. apply sub_splice_eq. lia.
Qed.

Lemma transfer_all_ok enc m ps : idle enc -> Forall (fun p => zlen p <= input_mtu enc) ps ->
  PACKETPROTO_ENCLEN (input_mtu enc) <= zlen m -> transfer_all enc m ps = Some (stream ps).
Proof.
  intros Hi Hp. revert m. induction Hp as [|p ps Hz _ IH]; intros m Hm; [done|]. simpl.
  destruct (transfer_ok enc m 0 p Hi Hz) as (m' & -> & Hl & Hs); [lia..|]. simpl.
  rewrite IH by lia. simpl. by rewrite Hs.
Qed.

Lemma init_idle in_mtu enc : PacketProtoEncoder_Init in_mtu = Some enc -> idle enc /\ input_mtu enc = in_mtu.
Proof. unfold PacketProtoEncoder_Init. case_if; [|done]. intros [= <-]. by repeat split. Qed.

End Encoder.

(** ** Decoder *)
Module Decoder.

Record t := mk {
  input : srecv_view;
  output : pass_view;
  output_GetMTU : Z;
  output_mtu : Z;
  buf_size : Z;
  buf_start : Z;
  buf_used : Z;
  buf : list Z;
}.

Definition with_input (enc : t) (i : srecv_view) : t :=
  mk i (output enc) (output_GetMTU enc) (output_mtu enc) (buf_size enc) (buf_start enc)
    (buf_used enc) (buf enc).
Definition with_output (enc : t) (o : pass_view) : t :=
  mk (input enc) o (output_GetMTU enc) (output_mtu enc) (buf_size enc) (buf_start enc)
    (buf_used enc) (buf enc).
Definition with_region (enc : t) (start used : Z) : t :=
  mk (input enc) (output enc) (output_GetMTU enc) (output_mtu enc) (buf_size enc) start used (buf enc).
Definition with_buf (enc : t) (m : list Z) : t :=
  mk (input enc) (output enc) (output_GetMTU enc) (output_mtu enc) (buf_size enc) (buf_start enc)
    (buf_used enc) m.

(** The code after the [do ... while (0)] block.  The flag of the result tells whether
    [handler_error] is called. *)
Definition receive_more (enc : t) (was_error : bool) : option (t * bool) :=
  let enc :=
    if was_error then with_region enc 0 0
    else if buf_start enc + buf_used enc =? buf_size enc then
      with_region (with_buf enc (splice (buf enc) 0 (sub (buf enc) (buf_start enc) (buf_used enc))))
        0 (buf_used enc)
    else enc in
  i ← StreamRecvInterface_Receiver_Recv (input enc) (buf_start enc + buf_used enc)
        (buf_size enc - (buf_start enc + buf_used enc));
  Some (with_input enc i, was_error).

Definition process_data (enc : t) : option (t * bool) :=
  let data := buf_start enc in
  let left := buf_used enc in
  if left <? packetproto_header then receive_more enc false else
  ASSERT (0 <=? data) && (data + packetproto_header <=? zlen (buf enc));
  let header := le_val (sub (buf enc) data packetproto_header) in
  let data := data + packetproto_header in
  let left := left - packetproto_header in
  let data_len := ltoh16 header in
  if data_len >? output_mtu enc then receive_more enc true else
  if left <? data_len then receive_more enc false else
  let enc := with_region enc (buf_start enc + (packetproto_header + data_len))
               (buf_used enc - (packetproto_header + data_len)) in
  o ← PacketPassInterface_Sender_Send (output enc) (output_GetMTU enc) (Some data) data_len;
  Some (with_output enc o, false).

Definition input_handler_done (enc : t) (data_len : Z) : option (t * bool) :=
  ASSERT data_len >? 0;
  ASSERT data_len <=? buf_size enc - (buf_start enc + buf_used enc);
  process_data (with_region enc (buf_start enc) (buf_used enc + data_len)).

Definition output_handler_done (enc : t) : option (t * bool) := process_data enc.

(** [inl tt] is the result 0, when [malloc] fails. *)
Definition PacketProtoDecoder_Init (alloc : Z -> option (list Z)) (out_mtu : Z) :
    option (unit + t) :=
  let output_mtu := bmin_int out_mtu PACKETPROTO_MAXPAYLOAD in
  let buf_size := PACKETPROTO_ENCLEN output_mtu in
  match alloc buf_size with
  | None => Some (inl tt)
  | Some m =>
      i ← StreamRecvInterface_Receiver_Recv SRIdle 0 buf_size;
      Some (inr (mk i PIdle out_mtu output_mtu buf_size 0 0 m))
  end.

Definition PacketProtoDecoder_Reset (enc : t) : t :=
  with_region enc (buf_start enc + buf_used enc) 0.

(** *** The decoder in its environment *)

(** The provider of the input writes [data] at the destination it was given and completes
    the receive with the first [len] bytes of it; the provider of the output takes the packet;
    the owner resets the decoder. *)
Inductive event := ERecv (data : list Z) (len : Z) | EOutDone | EReset.

Definition enabled (s : t) (e : event) : bool :=
  match e, input s, output s with
  | ERecv data len, SRBusy _ avail, _ =>
      (0 <? len) && (len <=? zlen data) && (zlen data <=? avail) && bool_decide (bytes_ok data)
  | EOutDone, _, PBusy _ _ => true
  | EReset, _, _ => true
  | _, _, _ => false
  end.

Definition exec (s : t) (e : event) : option (t * bool) :=
  match e with
  | ERecv data len =>
      match input s with
      | SRBusy d _ => input_handler_done (with_input (with_buf s (splice (buf s) d data)) SRIdle) len
      | SRIdle => None
      end
  | EOutDone => output_handler_done (with_output s PIdle)
  | EReset => Some (PacketProtoDecoder_Reset s, false)
  end.

(** The packet the output holds. *)
Definition sending (s : t) : list (list Z) :=
  match output s with
  | PBusy d len => [sub (buf s) (default 0 d) len]
  | PIdle => []
  end.

(** What happened so far: all bytes received; the bytes received and the packets delivered
    since the stream last began anew; the resets and the errors. *)
Record history := hist {
  h_all : list Z;
  h_rx : list Z;
  h_tx : list (list Z);
  h_resets : nat;
  h_errors : nat;
}.

Definition record (s : t) (e : event) (err : bool) (h : history) : history :=
  let '(data, out) := match e with ERecv data len => (take (Z.to_nat len) data, [])
                      | EOutDone => ([], sending s) | EReset => ([], []) end in
  match e, err with
  | EReset, _ => hist (h_all h) (stream (sending s)) [] (S (h_resets h)) (h_errors h)
  | _, true => hist (h_all h ++ data) [] [] (h_resets h) (S (h_errors h))
  | _, false => hist (h_all h ++ data) (h_rx h ++ data) (h_tx h ++ out) (h_resets h) (h_errors h)
  end.

Inductive reach (s0 : t) : t -> history -> Prop :=
| reach_init : reach s0 s0 (hist [] [] [] 0 0)
| reach_step s h e s' err : reach s0 s h -> enabled s e = true -> exec s e = Some (s', err) ->
    reach s0 s' (record s e err h).

(** *** Invariant *)

(** The received bytes that were not delivered hold no complete packet yet. *)
Definition incomplete (mtu : Z) (u : list Z) : Prop :=
  zlen u < 2 \/ le_val (take 2 u) <= mtu /\ zlen u < 2 + le_val (take 2 u).
Definition oversize (mtu : Z) (u : list Z) : Prop := 2 <= zlen u /\ mtu < le_val (take 2 u).

Record core (s : t) (u : list Z) : Prop := {
  c_mtu : 0 <= output_mtu s <= UINT16_MAX /\ output_mtu s <= output_GetMTU s;
  c_size : buf_size s = 2 + output_mtu s /\ zlen (buf s) = buf_size s;
  c_region : 0 <= buf_start s /\ 0 <= buf_used s /\ buf_start s + buf_used s <= buf_size s;
  c_data : u = sub (buf s) (buf_start s) (buf_used s);
  c_bytes : bytes_ok u;
}.

(** Exactly one operation is outstanding: a receive into all of the free space behind the
    buffered bytes, or the send of a packet of the buffer. *)
Definition io (s : t) (u : list Z) : Prop :=
  match input s, output s with
  | SRBusy d a, PIdle => d = buf_start s + buf_used s /\ a = buf_size s - d /\ 0 < a /\
      incomplete (output_mtu s) u
  | SRIdle, PBusy (Some d) len => 0 <= d /\ 0 <= len <= output_mtu s /\ d + len <= buf_size s
  | _, _ => False
  end.

Definition ok (s : t) (u : list Z) : Prop := core s u /\ io s u.

Lemma core_len s u : core s u -> zlen u = buf_used s.
Proof. intros [Hm [Hs Hz] Hr -> _]. apply zlen_sub; lia. Qed.

Lemma core_header s u : core s u -> 2 <= buf_used s ->
  sub (buf s) (buf_start s) 2 = take 2 u /\ 0 <= le_val (take 2 u) < 65536.
Proof.
  intros C H. pose proof (core_len _ _ C). destruct C as [Hm [Hs Hz] Hr -> Hb].
  split; [unfold sub; rewrite take_take; f_equal; lia|].
  pose proof (le_val_range (take 2 (sub (buf s) (buf_start s) (buf_used s)))) as R.
  unfold zlen in *. rewrite length_take in R. rewrite Nat.min_l in R by lia.
  apply R. by apply Forall_take.
Qed.

Lemma incomplete_room s u : core s u -> incomplete (output_mtu s) u -> buf_used s < buf_size s.
Proof.
  intros C H. pose proof (core_len _ _ C). destruct C as [Hm [Hs Hz] Hr -> _].
  destruct H as [H|H]; lia.
Qed.

Lemma receive_more_ok s u : core s u -> incomplete (output_mtu s) u ->
  input s = SRIdle -> output s = PIdle ->
  exists s', receive_more s false = Some (s', false) /\ ok s' u /\ output s' = PIdle /\
    output_mtu s' = output_mtu s.
Proof.
  intros C I Hi Ho. pose proof (incomplete_room _ _ C I). pose proof (core_len _ _ C).
  pose proof C as [Hm [Hs Hz] Hr Hd Hb]. unfold receive_more. case_if.
  - cbn [with_region with_buf with_input input buf_start buf_used buf_size output output_mtu].
    unfold StreamRecvInterface_Receiver_Recv. rewrite Hi. bool_true. eexists. split; [done|].
    split; [|done]. split; [constructor|unfold io; simpl; rewrite Ho]; simpl; try done; try lia.
    + rewrite zlen_splice by (rewrite <- ?Hd; lia). done.
    + rewrite <- Hd, <- H0. rewrite sub_splice_eq; [done|lia].
    + split_and!; done || lia.
  - unfold StreamRecvInterface_Receiver_Recv. rewrite Hi. bool_true. eexists. split; [done|].
    split; [|done]. split; [by constructor|]. simpl. unfold io. simpl. rewrite Ho. split_and!; lia || done.
Qed.

Lemma receive_error_ok s u : core s u -> input s = SRIdle -> output s = PIdle ->
  exists s', receive_more s true = Some (s', true) /\ ok s' [] /\ output s' = PIdle /\
    buf_start s' = 0 /\ output_mtu s' = output_mtu s.
Proof.
  intros [Hm [Hs Hz] Hr Hd Hb] Hi Ho. unfold receive_more, StreamRecvInterface_Receiver_Recv.
  simpl. rewrite Hi. bool_true. eexists. split; [done|]. split; [|done].
  split; [constructor|]; simpl; try done; try lia; [by constructor|].
  unfold io. simpl. rewrite Ho. split_and!; try lia. by left; rewrite zlen_nil.
Qed.

(** The three outcomes of [process_data] with both interfaces idle. *)
Lemma process_data_ok s u : core s u -> input s = SRIdle -> output s = PIdle ->
  exists s' err, process_data s = Some (s', err) /\ output_mtu s' = output_mtu s /\
   ((exists p u', u = encoding p ++ u' /\ zlen p <= output_mtu s /\ err = false /\ ok s' u' /\ sending s' = [p]) \/
    (err = false /\ ok s' u /\ sending s' = [] /\ output s' = PIdle) \/
    (err = true /\ oversize (output_mtu s) u /\ ok s' [] /\ buf_start s' = 0 /\ output s' = PIdle)).
Proof.
  intros C Hi Ho. pose proof (core_len _ _ C) as Hl. pose proof C as [Hm [Hs Hz] Hr Hd Hb].
  unfold process_data, packetproto_header. case_if.
  { destruct (receive_more_ok s u) as (s' & E' & Hok & Ho' & Hm'); [done|left; lia|done..|].
    exists s', false. unfold sending. rewrite Ho'. eauto 10. }
  bool_true. destruct (core_header _ _ C) as [Hh Hhr]; [lia|]. rewrite Hh. unfold ltoh16, htol16.
  set (n := le_val (take 2 u)) in *. case_if.
  { destruct (receive_error_ok s u) as (s' & E' & Hok & Ho' & Hst & Hm'); [done..|].
    exists s', true. unfold oversize. fold n. split_and!; try done.
    right. right. split_and!; try done; lia. }
  case_if.
  { destruct (receive_more_ok s u) as (s' & E' & Hok & Ho' & Hm'); [done|right; fold n; lia|done..|].
    exists s', false. unfold sending. rewrite Ho'. eauto 10. }
  unfold PacketPassInterface_Sender_Send. simpl. rewrite Ho. do 2 bool_true.
  rewrite orb_true_r. simpl. eexists _, false. split; [done|]. split; [done|]. left.
  exists (sub u 2 n), (sub u (2 + n) (zlen u - (2 + n))).
  assert (zlen (sub u 2 n) = n) as Hn by (apply zlen_sub; lia).
  split_and!; [|lia|done| |].
  - unfold encoding. rewrite Hn.
    assert (host16 n = take 2 u) as H16.
    { unfold n. apply host16_val_inv; [by apply Forall_take|]. rewrite length_take. unfold zlen in *. lia. }
    transitivity (take 2 u ++ sub u 2 n ++ sub u (2 + n) (zlen u - (2 + n))).
    + rewrite <- (sub_0_all u) at 1. rewrite (sub_split u 0 (zlen u) 2) by lia.
      rewrite (sub_split u (0 + 2) (zlen u - 2) n) by lia. do 3 f_equal; lia.
    + by rewrite app_assoc, <- H16, <- app_assoc.
  - rewrite Hl, Hd. split; [constructor|]; simpl; try done; try lia.
    + rewrite sub_sub by lia. f_equal; lia.
    + by rewrite <- Hd; apply bytes_ok_sub.
    + unfold io. simpl. rewrite Hi. split_and!; lia.
  - unfold sending. simpl. f_equal. rewrite Hd. symmetry. apply sub_sub; lia.
Qed.

Definition received (e : event) : list Z :=
  match e with ERecv data len => take (Z.to_nat len) data | _ => [] end.

(** What an event does to the buffered bytes [u]. *)
Definition outcome (s : t) (e : event) (u : list Z) (s' : t) (err : bool) (u' : list Z) : Prop :=
  match e, err with
  | EReset, _ => err = false /\ u' = [] /\ sending s' = sending s
  | _, true => oversize (output_mtu s) (u ++ received e) /\ u' = [] /\ buf_start s' = 0 /\ output s' = PIdle
  | _, false => u ++ received e = stream (sending s') ++ u' /\ Forall (fun p => zlen p <= output_mtu s) (sending s')
  end.

Lemma process_outcome s u e s0 : core s (u ++ received e) -> input s = SRIdle -> output s = PIdle ->
  e <> EReset -> output_mtu s = output_mtu s0 ->
  exists s' err u', process_data s = Some (s', err) /\ output_mtu s' = output_mtu s0 /\ ok s' u' /\
    outcome s0 e u s' err u'.
Proof.
  intros C Hi Ho He Hm. destruct (process_data_ok s _ C Hi Ho) as (s' & err & -> & Em &
    [(p & u' & E & Hp & -> & Hok & Hs)|[(-> & Hok & Hs & _)|(-> & Hov & Hok & Hs & Ho')]]);
    rewrite Hm in *.
  - exists s', false, u'. split_and!; try done. unfold outcome, stream. rewrite Hs. cbn [concat fmap list_fmap].
    rewrite app_nil_r. destruct e; try done; (split; [done|]); by repeat constructor.
  - eexists s', false, _. split_and!; try done. unfold outcome. rewrite Hs. destruct e; done.
  - exists s', true, []. split_and!; try done. unfold outcome. destruct e; done.
Qed.

Lemma recv_core s u d a data len : core s u -> d = buf_start s + buf_used s -> a = buf_size s - d ->
  0 < len <= zlen data -> zlen data <= a -> bytes_ok data ->
  core (with_region (with_input (with_buf s (splice (buf s) d data)) SRIdle) (buf_start s) (buf_used s + len))
    (u ++ take (Z.to_nat len) data).
Proof.
  intros [Hm [Hs Hz] Hr Hd Hb] -> -> Hl Hda Hby. constructor; simpl; try done; try lia.
  - rewrite zlen_splice; lia.
  - rewrite (sub_split _ (buf_start s) (buf_used s + len) (buf_used s)) by lia.
    rewrite sub_splice_ne by lia. rewrite <- Hd. f_equal.
    pose proof (sub_splice_eq (buf s) (buf_start s + buf_used s) data) as E.
    assert (take (Z.to_nat len) data = sub data 0 len) as -> by done.
    rewrite <- (E ltac:(lia)) at 1. rewrite sub_sub by lia. f_equal; lia.
  - apply bytes_ok_app. split; [done|]. by apply Forall_take.
Qed.

Lemma reset_ok s u : ok s u -> ok (PacketProtoDecoder_Reset s) [].
Proof.
  intros [[Hm [Hs Hz] Hr Hd Hb] H]. split; [constructor; simpl; try done; try lia; by constructor|].
  unfold io in *. simpl. destruct (input s), (output s) as [|[]]; try done; try lia.
  rewrite Z.add_0_r. destruct H as (? & ? & ? & _). split_and!; try done. left. by rewrite zlen_nil.
Qed.

Lemma dec_step_ok s u e : ok s u -> enabled s e = true ->
  exists s' err u', exec s e = Some (s', err) /\ output_mtu s' = output_mtu s /\ ok s' u' /\
    outcome s e u s' err u'.
Proof.
  intros [C H] He. unfold io in H. destruct e as [data len| |].
  - simpl in He. destruct (input s) as [|d a] eqn:Ei; [done|]. destruct (output s) eqn:Eo; [|done].
    reflect_bool. rewrite bool_decide_eq_true in *. destruct H as (Hd & Ha & Ha' & _).
    unfold exec. rewrite Ei. unfold input_handler_done. simpl. do 2 bool_true.
    eapply (process_outcome _ u (ERecv data len) s); try done. simpl. eapply recv_core; done || lia.
  - simpl in He. destruct (output s) eqn:Eo; [by destruct (input s)|].
    destruct (input s) eqn:Ei; [|done]. unfold exec, output_handler_done.
    eapply (process_outcome _ u EOutDone s); try done. simpl. rewrite app_nil_r. by destruct C; constructor.
  - exists (PacketProtoDecoder_Reset s), false, []. split_and!; try done. by eapply reset_ok.
Qed.

Lemma stream_app ps qs : stream (ps ++ qs) = stream ps ++ stream qs.
Proof. unfold stream. by rewrite fmap_app, concat_app. Qed.

(** Since the stream last began anew, the bytes received are the encodings of the packets
    delivered and of the one being sent, followed by the buffered bytes. *)
Lemma dec_reach_ok s0 s h : ok s0 [] -> sending s0 = [] -> reach s0 s h ->
  exists u, ok s u /\ h_rx h = stream (h_tx h ++ sending s) ++ u /\ output_mtu s = output_mtu s0 /\
    Forall (fun p => zlen p <= output_mtu s0) (h_tx h ++ sending s) /\
    (h_resets h = 0%nat -> h_errors h = 0%nat -> h_all h = h_rx h).
Proof.
  intros H0 Hs0. induction 1 as [|s h e s' err _ (u & Hok & E & Em & Hf & Hall) He Ex].
  - exists []. simpl. rewrite Hs0. split_and!; done.
  - destruct (dec_step_ok s u e Hok He) as (s2 & err2 & u' & Ex' & Em' & Hok' & Ho). simplify_eq.
    exists u'. split; [done|]. apply Forall_app in Hf as [Hf1 Hf2]. rewrite Em' in *. rewrite <- Em in *.
    assert (match e with EReset => True | ERecv _ _ => sending s = [] | EOutDone => received e = [] end) as Hse.
    { destruct e; try done. simpl in He. unfold sending. destruct Hok as [_ Hio]. unfold io in Hio.
      destruct (input s); [done|]. by destruct (output s). }
    destruct e as [data len| |], err; simpl in *; try done; cbn [record h_rx h_tx h_all h_resets h_errors].
    + destruct Ho as (_ & -> & _ & Hidle). unfold sending. rewrite Hidle. split_and!; done.
    + destruct Ho as [Eu Hf']. rewrite Hse, !app_nil_r in *. rewrite stream_app, <- app_assoc.
      rewrite <- Eu, app_assoc, <- E. split_and!; try done; [by apply Forall_app|].
      intros. by rewrite Hall.
    + destruct Ho as (_ & -> & _ & Hidle). unfold sending. rewrite Hidle. split_and!; done.
    + destruct Ho as [Eu Hf']. rewrite !app_nil_r in *. rewrite E, Eu, !stream_app, <- !app_assoc.
      split_and!; try done; [by rewrite !Forall_app|]. intros. rewrite Hall, E, Eu by done.
      by rewrite stream_app, <- !app_assoc.
    + destruct Ho as (_ & -> & ->). rewrite app_nil_r. split_and!; try done.
Qed.

(** *** Unique decoding *)

Lemma encoding_take p l : zlen p <= UINT16_MAX -> 
  take 2 (encoding p ++ l) = host16 (zlen p) /\ le_val (take 2 (encoding p ++ l)) = zlen p.
Proof.
  intros H. pose proof (zlen_nonneg p).
  assert (take 2 (encoding p ++ l) = host16 (zlen p)) as -> by done.
  split; [done|]. apply host16_val. unfold UINT16_MAX in *. lia.
Qed.

Lemma zlen_encoding p : zlen (encoding p) = 2 + zlen p.
Proof. unfold encoding. rewrite zlen_app. done. Qed.

Lemma stream_unique qs ps u : Forall (fun p => zlen p <= UINT16_MAX) qs ->
  Forall (fun p => zlen p <= UINT16_MAX) ps -> (stream qs ++ u) `prefix_of` stream ps ->
  exists ps', ps = qs ++ ps' /\ u `prefix_of` stream ps'.
Proof.
  intros Hq. revert ps. induction Hq as [|q qs Hz _ IH]; intros ps Hp H; [by exists ps|].
  destruct Hp as [|p ps Hzp Hp].
  { by destruct H. }
  change (stream (q :: qs)) with (encoding q ++ stream qs) in H.
  change (stream (p :: ps)) with (encoding p ++ stream ps) in H. rewrite <- app_assoc in H.
  assert (zlen q = zlen p) as Ez.
  { destruct H as [k Hk]. destruct (encoding_take q ((stream qs ++ u) ++ k) Hz) as [_ <-].
    destruct (encoding_take p (stream ps) Hzp) as [_ <-]. rewrite Hk, <- app_assoc. done. }
  destruct H as [k Hk]. rewrite <- app_assoc in Hk. unfold encoding in Hk. rewrite Ez in Hk.
  rewrite <- !app_assoc in Hk. apply app_inj_1 in Hk as [_ Hk]; [|done].
  apply app_inj_1 in Hk as [-> Hk]; [|unfold zlen in Ez; lia].
  destruct (IH ps Hp) as (ps' & -> & Hu); [exists k; by rewrite Hk, app_assoc|]. by exists ps'.
Qed.

(** A prefix of an encoded stream is never an oversized packet, and a non-empty encoded
    stream is not incomplete. *)
Lemma stream_fits mtu ps u : Forall (fun p => zlen p <= mtu) ps -> mtu <= UINT16_MAX ->
  u `prefix_of` stream ps -> oversize mtu u -> False.
Proof.
  intros Hp Hm [k Hk] [H2 Ho]. destruct Hp as [|p ps Hz Hp].
  - destruct u; [rewrite zlen_nil in H2; lia|done].
  - assert (take 2 u = take 2 (encoding p ++ stream ps)) as E.
    { change (encoding p ++ stream ps) with (stream (p :: ps)). rewrite Hk.
      rewrite take_app_le; [done|]. unfold zlen in H2. lia. }
    destruct (encoding_take p (stream ps)) as [_ E']; [lia|]. rewrite E, E' in Ho. lia.
Qed.

Lemma stream_complete mtu ps : Forall (fun p => zlen p <= mtu) ps -> mtu <= UINT16_MAX ->
  incomplete mtu (stream ps) -> ps = [].
Proof.
  intros Hp Hm H. destruct Hp as [|p ps Hz Hp]; [done|exfalso].
  change (stream (p :: ps)) with (encoding p ++ stream ps) in H.
  destruct (encoding_take p (stream ps)) as [_ E]; [lia|]. unfold incomplete in H.
  rewrite E, zlen_app, zlen_encoding in H. pose proof (zlen_nonneg p). pose proof (zlen_nonneg (stream ps)). lia.
Qed.

(** What was not reported as an error is no oversized packet. *)
Lemma sent_not_oversize s u : ok s u -> Forall (fun p => zlen p <= output_mtu s) (sending s) ->
  oversize (output_mtu s) (stream (sending s) ++ u) -> False.
Proof.
  intros [[[Hm _] _ _ _ _] Hio] Hf [H2 Ho]. unfold io, sending in *.
  destruct (output s) as [|d len].
  - destruct (input s); [done|]. unfold stream in *. simpl in *.
    destruct Hio as (_ & _ & _ & [?|?]); lia.
  - inversion Hf as [|p ? Hz _]; subst. revert Ho. unfold stream. cbn [concat fmap list_fmap].
    rewrite app_nil_r. destruct (encoding_take (sub (buf s) (default 0 d) len) u) as [_ E]; [lia|].
    rewrite E. lia.
Qed.

(** While the bytes received are a prefix of a stream of packets that fit, no error occurs. *)
Lemma reach_no_error s0 s h ps : ok s0 [] -> sending s0 = [] -> reach s0 s h ->
  h_resets h = 0%nat -> Forall (fun p => zlen p <= output_mtu s0) ps ->
  h_all h `prefix_of` stream ps -> h_errors h = 0%nat.
Proof.
  intros H0 Hs0 R. induction R as [|s h e s' err R IH He Ex]; intros Hr Hp Ha; [done|].
  destruct (dec_reach_ok s0 s h H0 Hs0 R) as (u & Hok & E & Em & Hf & Hall).
  destruct (dec_step_ok s u e Hok He) as (s2 & err2 & u' & Ex' & Em' & Hok' & Ho). simplify_eq.
  pose proof Hok as [[[Hmt _] _ _ _ _] _]. rewrite Em in Hmt.
  assert (h_all (record s e err h) = h_all h ++ received e \/ e = EReset) as Ea.
  { destruct e, err; simpl; try by left. all: by right. }
  destruct e as [data len| |]; [| |by simpl in Hr].
  all: destruct Ea as [Ea|]; [|done]; rewrite Ea in Ha.
  all: assert (h_errors h = 0%nat) as He0
    by (apply IH; [by destruct err|done|by eapply prefix_app_l]).
  all: destruct err; simpl in Hr; [|done]; destruct Ho as [Ho _]; exfalso.
  all: rewrite Hall, E, <- app_assoc in Ha by done.
  all: apply stream_unique in Ha as (ps' & -> & Hu);
    [|eapply List.Forall_impl; [|done]; simpl; lia..].
  all: apply Forall_app in Hp as [_ Hp]; rewrite <- Em in *.
  all: eapply stream_fits; [exact Hp| |exact Hu|exact Ho]; lia.
Qed.

Section Theorems.
Context (alloc : Z -> option (list Z)).
Context (alloc_size : forall n m, alloc n = Some m -> zlen m = n).
Context (out_mtu : Z) (Hmtu : 0 <= out_mtu <= INT_MAX).

Lemma dec_init_ok s0 : PacketProtoDecoder_Init alloc out_mtu = Some (inr s0) ->
  ok s0 [] /\ sending s0 = [] /\ output_mtu s0 = Z.min out_mtu UINT16_MAX.
Proof.
  unfold PacketProtoDecoder_Init, PACKETPROTO_MAXPAYLOAD, bmin_int, PACKETPROTO_ENCLEN, packetproto_header.
  set (n := if out_mtu <? UINT16_MAX then out_mtu else UINT16_MAX).
  assert (n = Z.min out_mtu UINT16_MAX) as Hn by (unfold n; case_if; lia).
  destruct (alloc _) as [m|] eqn:Em; [|done]. apply alloc_size in Em.
  unfold StreamRecvInterface_Receiver_Recv, UINT16_MAX in *. bool_true. intros [= <-]. simpl.
  split_and!; [|done..]. split; [constructor|]; simpl; unfold UINT16_MAX; try done; try lia; [by constructor|].
  unfold io. simpl. split_and!; try lia. left. by rewrite zlen_nil.
Qed.

(** in every state the decoder reaches, with any input bytes cut in any way, packets taken
    at any time and resets in between, the handler of every event runs without a violated
    assertion or an access outside the buffer; exactly one operation is outstanding, a receive
    into a non-empty free part of the buffer or a send from within it, so the decoder never
    stalls. *)
Theorem packetproto_decoder_safe s0 s h e :
  PacketProtoDecoder_Init alloc out_mtu = Some (inr s0) -> reach s0 s h -> enabled s e = true ->
  is_Some (exec s e) /\
  match input s, output s with
  | SRBusy d a, PIdle => 0 <= d /\ 0 < a /\ d + a <= zlen (buf s)
  | SRIdle, PBusy (Some d) len => 0 <= d /\ 0 <= len /\ d + len <= zlen (buf s)
  | _, _ => False
  end.
Proof.
  intros E0 R He. destruct (dec_init_ok _ E0) as (H0 & Hs0 & _).
  destruct (dec_reach_ok _ _ _ H0 Hs0 R) as (u & Hok & _).
  destruct (dec_step_ok s u e Hok He) as (s' & err & u' & -> & _). split; [by eexists|].
  destruct Hok as [[Hm [Hs Hz] Hr _ _] H]. unfold io in H.
  destruct (input s), (output s) as [|[]]; try done; lia.
Qed.

(** C11: round trip.  Let [ps] be packets that fit the MTU of the decoder, sent through the
    encoder's handlers.  However the encoded bytes are cut into receive completions and however
    those interleave with the consumer, the decoder reports no error and what it delivered,
    with the packet it is sending, is a prefix of [ps]; once all bytes arrived and no send is
    outstanding, it delivered exactly [ps]. *)
Theorem packetproto_roundtrip in_mtu enc m ps bytes s0 s h :
  Encoder.PacketProtoEncoder_Init in_mtu = Some enc -> PACKETPROTO_ENCLEN in_mtu <= zlen m ->
  Forall (fun p => zlen p <= Z.min in_mtu out_mtu) ps -> Encoder.transfer_all enc m ps = Some bytes ->
  PacketProtoDecoder_Init alloc out_mtu = Some (inr s0) -> reach s0 s h -> h_resets h = 0%nat ->
  h_all h `prefix_of` bytes ->
  h_errors h = 0%nat /\ h_tx h ++ sending s `prefix_of` ps /\
  (h_all h = bytes -> output s = PIdle -> h_tx h = ps).
Proof.
  intros Ee Hm Hp Et E0 R Hr Ha. destruct (dec_init_ok _ E0) as (H0 & Hs0 & Emtu).
  destruct (Encoder.init_idle _ _ Ee) as [Hi Him].
  assert (in_mtu <= UINT16_MAX) as Hu by (destruct Hi as (_ & _ & _ & ? & _); by subst).
  rewrite Encoder.transfer_all_ok in Et; rewrite ?Him; try done;
    [|eapply List.Forall_impl; [|exact Hp]; simpl; lia].
  injection Et as <-.
  assert (Forall (fun p => zlen p <= output_mtu s0) ps) as Hp'
    by (eapply List.Forall_impl; [|exact Hp]; simpl; lia).
  pose proof (reach_no_error _ _ _ _ H0 Hs0 R Hr Hp' Ha) as He. split; [done|].
  destruct (dec_reach_ok _ _ _ H0 Hs0 R) as (u & Hok & E & Em & Hf & Hall). rewrite Hall in Ha by done.
  pose proof Ha as Hpre. rewrite E in Hpre. apply stream_unique in Hpre as (ps' & -> & Hu').
  - split; [by exists ps'|]. intros Heq Ho. unfold sending in *. rewrite Ho, app_nil_r in *.
    rewrite Hall, E, stream_app in Heq by done. apply app_inv_head in Heq as ->.
    destruct Hok as [_ Hio]. unfold io in Hio. rewrite Ho in Hio. destruct (input s); [done|].
    destruct Hio as (_ & _ & _ & Hinc). apply Forall_app in Hp' as [_ Hp']. rewrite Em in Hinc.
    rewrite (stream_complete (output_mtu s0) ps'), app_nil_r; done || lia.
  - eapply List.Forall_impl; [|exact Hf]. simpl. lia.
  - eapply List.Forall_impl; [|exact Hp']. simpl. lia.
Qed.

(** The error handler is called exactly when the bytes that follow the packets delivered so
    far begin with a header that announces more than the MTU; the decoder is then back in its
    initial state: nothing buffered, a receive into the whole buffer outstanding. *)
Theorem packetproto_error_iff s0 s h e s' err :
  PacketProtoDecoder_Init alloc out_mtu = Some (inr s0) -> reach s0 s h -> enabled s e = true ->
  e <> EReset -> exec s e = Some (s', err) ->
  exists u, h_rx h = stream (h_tx h ++ sending s) ++ u /\
    (err = true <-> oversize (output_mtu s0) (u ++ received e)) /\
    (err = true -> buf_start s' = 0 /\ buf_used s' = 0 /\ input s' = SRBusy 0 (buf_size s') /\ output s' = PIdle).
Proof.
  intros E0 R He Hr Ex. destruct (dec_init_ok _ E0) as (H0 & Hs0 & Emtu).
  destruct (dec_reach_ok _ _ _ H0 Hs0 R) as (u & Hok & E & Em & _). exists u. split; [done|].
  destruct (dec_step_ok s u e Hok He) as (s2 & err2 & u' & Ex' & Em' & Hok' & Ho). simplify_eq.
  rewrite <- Em. pose proof Hok' as [C' Hio]. pose proof (core_len _ _ C') as Hl.
  destruct err.
  - assert (oversize (output_mtu s) (u ++ received e) /\ u' = [] /\ buf_start s' = 0 /\ output s' = PIdle)
      as (Hov & -> & Hst & Hidle) by (by destruct e). split; [done|]. intros _. rewrite zlen_nil in Hl.
    unfold io in Hio. rewrite Hidle in Hio. destruct (input s') as [|d a]; [done|].
    destruct Hio as (-> & -> & _). split_and!; try done. f_equal; lia.
  - split; [|done]. split; [done|]. intros Hov. exfalso.
    assert (u ++ received e = stream (sending s') ++ u' /\ Forall (fun p => zlen p <= output_mtu s) (sending s'))
      as [Eu Hf] by (by destruct e). rewrite Eu, <- Em' in *. by eapply sent_not_oversize.
Qed.

End Theorems.

(** *** Witnesses: the packets [7 8 9] and [1 2] through an MTU of 8 *)
Fixpoint run_events (s : t) (es : list event) (h : history) : option (t * history) :=
  match es with
  | [] => Some (s, h)
  | e :: es =>
      ASSERT enabled s e;
      '(s', err) ← exec s e;
      run_events s' es (record s e err h)
  end.

Lemma dec_run_reach s0 es s s' h h' : reach s0 s h -> run_events s es h = Some (s', h') -> reach s0 s' h'.
Proof.
  revert s h. induction es as [|e es IH]; intros s h R E; [by simplify_eq/=|].
  cbn [run_events] in E. destruct (enabled s e) eqn:En; [|done].
  destruct (exec s e) as [[s1 err]|] eqn:Ex; [|done]. eapply IH; [|exact E]. by econstructor.
Qed.

Definition demo_events : list event :=
  [ERecv [3; 0; 7] 3; ERecv [8; 9; 2; 0; 1; 99] 5; EOutDone; ERecv [2] 1].
Definition demo_none : t := mk SRIdle PIdle 0 0 0 0 0 [].
Definition demo0 : t := Eval vm_compute in
  match PacketProtoDecoder_Init zeros 8 with Some (inr s) => s | _ => demo_none end.
Definition demo1 : t * history := Eval vm_compute in
  default (demo_none, hist [] [] [] 0 0) (run_events demo0 demo_events (hist [] [] [] 0 0)).
Definition demo_enc : Encoder.t := Encoder.mk RIdle 8 RIdle 10 None.

Lemma dec_demo_init : PacketProtoDecoder_Init zeros 8 = Some (inr demo0).
Proof. vm_compute. reflexivity. Qed.
Lemma dec_demo_reach : reach demo0 (fst demo1) (snd demo1).
Proof.
  apply (dec_run_reach demo0 demo_events demo0 _ (hist [] [] [] 0 0)); [apply reach_init|].
  vm_compute. reflexivity.
Qed.

Lemma packetproto_decoder_safe_witness : is_Some (exec (fst demo1) EOutDone).
Proof.
  apply (packetproto_decoder_safe zeros zeros_size 8 ltac:(unfold INT_MAX; lia) demo0 (fst demo1)
    (snd demo1) EOutDone dec_demo_init dec_demo_reach eq_refl).
Defined.

Lemma packetproto_roundtrip_witness :
  h_tx (snd demo1) ++ sending (fst demo1) `prefix_of` [[7; 8; 9]; [1; 2]].
Proof.
  apply (packetproto_roundtrip zeros zeros_size 8 ltac:(unfold INT_MAX; lia) 8 demo_enc
    (replicate 10 0) [[7; 8; 9]; [1; 2]] [3; 0; 7; 8; 9; 2; 0; 1; 2] demo0 (fst demo1) (snd demo1)
    eq_refl ltac:(vm_compute; congruence) ltac:(repeat constructor; vm_compute; congruence)
    ltac:(vm_compute; reflexivity) dec_demo_init dec_demo_reach eq_refl).
  by exists [].
Defined.

(** After the second packet, a header that announces 9 bytes. *)
Definition demo2 : t * history := Eval vm_compute in
  default (demo_none, hist [] [] [] 0 0) (run_events (fst demo1) [EOutDone; ERecv [9] 1] (snd demo1)).
Definition demo3 : t := Eval vm_compute in
  match exec (fst demo2) (ERecv [0] 1) with Some (s, _) => s | None => demo_none end.

Lemma packetproto_error_iff_witness : buf_start demo3 = 0 /\ output demo3 = PIdle.
Proof.
  destruct (packetproto_error_iff zeros zeros_size 8 ltac:(unfold INT_MAX; lia) demo0 (fst demo2)
    (snd demo2) (ERecv [0] 1) demo3 true dec_demo_init
    (dec_run_reach demo0 [EOutDone; ERecv [9] 1] (fst demo1) (fst demo2) (snd demo1) (snd demo2) dec_demo_reach eq_refl)
    eq_refl ltac:(done) ltac:(vm_compute; reflexivity)) as (u & _ & _ & H).
  destruct (H eq_refl) as (? & _ & _ & ?). split; assumption.
Defined.

End Decoder.
