(* ===== verification/ParseNumber.v ===== *)
(** * Numbers as text (misc/parse_number.h, misc/memref.h)

    Parsing of unsigned decimal and hexadecimal integers and of signed decimal ones, and the
    generation of decimal representations.  A [MemRef] is the list of the characters it spans, a
    character its code; cursor arithmetic on it is [take] and [drop].  A parser that stores its
    result through a pointer and returns 1, or returns 0, has type [option]; where the code
    asserts or writes to a buffer, an outer [option] is the violated assertion or the access
    outside the buffer, as everywhere.

    The parsers are equal to their reference definitions ([numeral]: nonempty, only digits, in
    range, and then the value), and a generated representation is parsed back. *)

From S2P Require Import Prelude.

(** ** Text: character codes and standard library functions *)
Module Text.

Definition CH_0 : Z := 48.
Definition CH_9 : Z := 57.
Definition CH_PLUS : Z := 43.
Definition CH_MINUS : Z := 45.
Definition CH_DOT : Z := 46.
Definition CH_SLASH : Z := 47.
Definition CH_COLON : Z := 58.

(** The conversions of [printf] used by the code: [%u] ([%d] of what is not negative) and [%x]
    write the digits of a number without leading zeros, letters in lower case. *)
Definition digit_char (d : Z) : Z := if d <? 10 then CH_0 + d else 87 + d.
Fixpoint base_digits (fuel : nat) (b x : Z) : list Z :=
  match fuel with
  | O => []
  | S fuel => if x <? b then [x] else base_digits fuel b (x / b) ++ [x mod b]
  end.
Definition print_base (b x : Z) : list Z :=
  map digit_char (base_digits (S (Z.to_nat (Z.log2 x))) b x).
Abbreviation fmt_u := (print_base 10).
Abbreviation fmt_x := (print_base 16).

(** [sprintf] into the buffer [mem] from [pos]: the text and a terminator; the cursor behind
    the text. *)
Definition sprintf (mem : list Z) (pos : Z) (text : list Z) : option (list Z * Z) :=
  ASSERT (0 <=? pos) && (pos + zlen text + 1 <=? zlen mem);
  Some (splice mem pos (text ++ [0]), pos + zlen text).

(** The C string a buffer starts with. *)
Fixpoint cstr (mem : list Z) : option (list Z) :=
  match mem with
  | [] => None
  | c :: mem => if c =? 0 then Some [] else t ← cstr mem; Some (c :: t)
  end.

(** ** Memory references *)
Definition MemRef_SubTo (o : list Z) (length : Z) : option (list Z) :=
  ASSERT (0 <=? length) && (length <=? zlen o); Some (take (Z.to_nat length) o).
Definition MemRef_SubFrom (o : list Z) (offset : Z) : option (list Z) :=
  ASSERT (0 <=? offset) && (offset <=? zlen o); Some (drop (Z.to_nat offset) o).

Fixpoint find_char_from (i : Z) (o : list Z) (ch : Z) : option Z :=
  match o with
  | [] => None
  | c :: o => if c =? ch then Some i else find_char_from (i + 1) o ch
  end.
Definition MemRef_FindChar (o : list Z) (ch : Z) : option Z := find_char_from 0 o ch.

End Text.
Import Text.

(** ** Reference definitions: numerals in a base *)
Section numerals.
Context (decode : Z -> Z).

Definition is_digit (c : Z) : bool := 0 <=? decode c.
Definition value_from (b n : Z) (s : list Z) : Z := fold_left (fun n c => b * n + decode c) s n.
Definition numeral (b max : Z) (s : list Z) : option Z :=
  if negb (zlen s =? 0) && forallb is_digit s && (value_from b 0 s <=? max)
  then Some (value_from b 0 s) else None.
End numerals.

(** ** The parsers *)
Definition decode_decimal_digit (c : Z) : Z :=
  match c with
  | 48 => 0 | 49 => 1 | 50 => 2 | 51 => 3 | 52 => 4
  | 53 => 5 | 54 => 6 | 55 => 7 | 56 => 8 | 57 => 9
  | _ => -1
  end.

Definition decode_hex_digit (c : Z) : Z :=
  match c with
  | 48 => 0 | 49 => 1 | 50 => 2 | 51 => 3 | 52 => 4
  | 53 => 5 | 54 => 6 | 55 => 7 | 56 => 8 | 57 => 9
  | 65 | 97 => 10 | 66 | 98 => 11 | 67 | 99 => 12
  | 68 | 100 => 13 | 69 | 101 => 14 | 70 | 102 => 15
  | _ => -1
  end.

Definition parse_number__uintmax_max_str : list Z :=
  [49; 56; 52; 52; 54; 55; 52; 52; 48; 55; 51; 55; 48; 57; 53; 53; 49; 54; 49; 53].

Fixpoint no_overflow_loop (str : list Z) (n : Z) : option Z :=
  match str with
  | [] => Some n
  | c :: str =>
      if (c <? CH_0) || (CH_9 <? c) then None
      else no_overflow_loop str (u64 (10 * n + (c - CH_0)))
  end.
Definition parse__no_overflow (str : list Z) : option Z := no_overflow_loop str 0.

Fixpoint remove_leading_zeros (str : list Z) : list Z :=
  match str with
  | c :: str' => if c =? CH_0 then remove_leading_zeros str' else str
  | [] => []
  end.

Definition parse_unsigned_integer (str : list Z) : option Z :=
  if zlen str =? 0 then None
  else
    let str := remove_leading_zeros str in
    let max := parse_number__uintmax_max_str in
    if (zlen max <? zlen str) || ((zlen str =? zlen max) && (0 <? memcmp str max)) then None
    else parse__no_overflow str.

Fixpoint hex_loop (str : list Z) (n : Z) : option Z :=
  match str with
  | [] => Some n
  | c :: str =>
      let digit := decode_hex_digit c in
      if digit <? 0 then None
      else if UINT64_MAX / 16 <? n then None
      else
        let n := u64 (n * 16) in
        if UINT64_MAX - n <? digit then None
        else hex_loop str (u64 (n + digit))
  end.
Definition parse_unsigned_hex_integer (str : list Z) : option Z :=
  if zlen str =? 0 then None else hex_loop str 0.

(** The sign and the magnitude. *)
Definition parse_signmag_integer (str : list Z) : option (Z * Z) :=
  let '(sign, str) :=
    match str with
    | c :: str' =>
        if (c =? CH_PLUS) || (c =? CH_MINUS)
        then (1 - 2 * (if c =? CH_MINUS then 1 else 0), str')
        else (1, str)
    | [] => (1, str)
    end in
  mag ← parse_unsigned_integer str;
  Some (sign, mag).

(** ** Generation

    The loops divide a [uintmax_t] by ten; twenty rounds are enough ([decimal_size_fuel]). *)
Definition DECIMAL_ROUNDS : nat := 20.

Fixpoint decimal_size_loop (fuel : nat) (x size : Z) : option Z :=
  match fuel with
  | O => None
  | S fuel =>
      let size := size + 1 in
      let x := x / 10 in
      if 0 <? x then decimal_size_loop fuel x size else Some size
  end.
Definition compute_decimal_repr_size (x : Z) : option Z := decimal_size_loop DECIMAL_ROUNDS x 0.

Fixpoint decimal_repr_loop (fuel : nat) (x : Z) (mem : list Z) (out : Z) : option (list Z) :=
  match fuel with
  | O => None
  | S fuel =>
      let out := out - 1 in
      ASSERT (0 <=? out) && (out <? zlen mem);
      let mem := splice mem out [CH_0 + x mod 10] in
      let x := x / 10 in
      if 0 <? x then decimal_repr_loop fuel x mem out else Some mem
  end.
Definition generate_decimal_repr (x : Z) (mem : list Z) (repr_size : Z) : option (list Z) :=
  size ← compute_decimal_repr_size x;
  ASSERT repr_size =? size;
  decimal_repr_loop DECIMAL_ROUNDS x mem repr_size.

Definition generate_decimal_repr_string (x : Z) (mem : list Z) : option (list Z * Z) :=
  repr_size ← compute_decimal_repr_size x;
  mem ← generate_decimal_repr x mem repr_size;
  ASSERT repr_size <? zlen mem;
  Some (splice mem repr_size [0], repr_size).

(** ** Digits *)
Lemma decode_decimal_spec c :
  decode_decimal_digit c = if (CH_0 <=? c) && (c <=? CH_9) then c - CH_0 else -1.
Proof. unfold decode_decimal_digit, CH_0, CH_9. repeat case_match; subst; reflect_bool; lia. Qed.

Lemma decode_hex_range c : -1 <= decode_hex_digit c < 16.
Proof. unfold decode_hex_digit. repeat case_match; lia. Qed.
Lemma decode_decimal_range c : -1 <= decode_decimal_digit c < 10.
Proof. unfold decode_decimal_digit. repeat case_match; lia. Qed.

(** The digits [printf] writes are decoded to their value, in both bases. *)
Lemma decode_decimal_char d : 0 <= d < 10 -> decode_decimal_digit (digit_char d) = d.
Proof. intros. unfold digit_char. bool_true. rewrite decode_decimal_spec. unfold CH_0, CH_9. bool_true. lia. Qed.
Lemma decode_hex_char d : 0 <= d < 16 -> decode_hex_digit (digit_char d) = d.
Proof.
  intros H. assert (d = 0 \/ d = 1 \/ d = 2 \/ d = 3 \/ d = 4 \/ d = 5 \/ d = 6 \/ d = 7 \/ d = 8 \/ d = 9
    \/ d = 10 \/ d = 11 \/ d = 12 \/ d = 13 \/ d = 14 \/ d = 15) as D by lia.
  repeat (destruct D as [->|D]; [done|]). by subst.
Qed.

(** ** Values of numerals *)
Section values.
Context (decode : Z -> Z) (b : Z).
Context (Hb : 2 <= b) (Hd : forall c, decode c < b).

Abbreviation val := (value_from decode b).
Abbreviation digits := (forallb (is_digit decode)).

Lemma value_app n s t : val n (s ++ t) = val (val n s) t.
Proof. apply fold_left_app. Qed.

Lemma value_shift n s : val n s = n * b ^ zlen s + val 0 s.
Proof.
  revert n. induction s as [|c s IH]; intros n; [unfold zlen; cbn; lia|].
  unfold value_from in *. cbn [fold_left]. rewrite IH, (IH (b * 0 + _)), zlen_cons.
  rewrite Z.pow_add_r by (pose proof (zlen_nonneg s); lia). lia.
Qed.

Lemma value_cons c s : val 0 (c :: s) = decode c * b ^ zlen s + val 0 s.
Proof. unfold value_from at 1. cbn [fold_left]. fold (value_from decode b (b * 0 + decode c) s).
  rewrite value_shift. lia.
Qed.

Lemma value_range s : digits s = true -> 0 <= val 0 s < b ^ zlen s.
Proof.
  induction s as [|c s IH]; [unfold zlen; cbn; lia|]. cbn [forallb]. intros H. reflect_bool.
  specialize (IH ltac:(done)). rewrite value_cons, zlen_cons, Z.pow_add_r by (pose proof (zlen_nonneg s); lia).
  unfold is_digit in *. reflect_bool. specialize (Hd c). nia.
Qed.

Lemma value_mono n s : 0 <= n -> digits s = true -> n <= val n s.
Proof.
  intros Hn Hs. rewrite value_shift. pose proof (value_range s Hs).
  pose proof (Z.pow_pos_nonneg b (zlen s) ltac:(lia) (zlen_nonneg s)). nia.
Qed.

(** Digits compare like the texts of equal length. *)
Lemma memcmp_value s t :
  (forall x y, is_digit decode x = true -> is_digit decode y = true -> x < y -> decode x < decode y) ->
  zlen s = zlen t -> digits s = true -> digits t = true ->
  (0 <? memcmp s t) = (val 0 t <? val 0 s).
Proof.
  intros Hm. revert t. induction s as [|x s IH]; intros [|y t] Hl Hs Ht; [done| | |];
    rewrite ?zlen_cons, ?zlen_nil in Hl;
    [pose proof (zlen_nonneg t); lia|pose proof (zlen_nonneg s); lia|].
  cbn [forallb] in Hs, Ht. reflect_bool. assert (zlen s = zlen t) as El by lia.
  rewrite !value_cons, El. pose proof (value_range s ltac:(done)) as Rs. pose proof (value_range t ltac:(done)) as Rt.
  rewrite El in Rs. cbn [memcmp]. destruct (Z.eqb_spec x y) as [->|Hxy]; [|destruct (Z.lt_ge_cases x y)].
  2: { assert (decode x < decode y) by auto. rewrite !(proj2 (Z.ltb_ge _ _)); [done|nia|lia]. }
  2: { assert (decode y < decode x) by (apply Hm; done || lia). rewrite !(proj2 (Z.ltb_lt _ _)); [done|nia|lia]. }
  - rewrite IH by (done || lia). symmetry.
    destruct (Z.ltb_spec (val 0 t) (val 0 s)); [apply Z.ltb_lt|apply Z.ltb_ge]; lia.
Qed.

(** What [printf] writes has the value it is printed from. *)
Lemma base_digits_ok fuel x :
  0 <= x < b ^ Z.of_nat fuel ->
  (forall d, 0 <= d < b -> decode (digit_char d) = d) ->
  let s := map digit_char (base_digits fuel b x) in
  digits s = true /\ val 0 s = x /\ (0 < fuel -> 0 < length s)%nat.
Proof.
  intros Hx Hc. revert x Hx. induction fuel as [|fuel IH]; intros x Hx; [cbn in *; split_and!; [done|lia|lia]|].
  rewrite Nat2Z.inj_succ, Z.pow_succ_r in Hx by lia. cbn [base_digits]. case_if.
  - cbn. unfold is_digit. rewrite Hc by lia. split_and!; [|lia|lia]. rewrite andb_true_r. apply Z.leb_le. lia.
  - destruct (IH (x / b)) as (Id & Iv & _).
    { split; [apply Z.div_pos; lia|]. apply Z.div_lt_upper_bound; lia. }
    pose proof (Z.mod_pos_bound x b ltac:(lia)) as Hr.
    cbn zeta. rewrite map_app, forallb_app, value_app, Id, Iv. cbn. unfold is_digit. rewrite Hc by lia. split_and!.
    + rewrite andb_true_r. apply Z.leb_le. lia.
    + pose proof (Z.div_mod x b). lia.
    + rewrite length_app. cbn. lia.
Qed.

Lemma log2_fuel x : 0 <= x -> x < b ^ Z.of_nat (S (Z.to_nat (Z.log2 x))).
Proof.
  intros. rewrite Nat2Z.inj_succ, Z2Nat.id by apply Z.log2_nonneg.
  apply Z.lt_le_trans with (2 ^ Z.succ (Z.log2 x)).
  - destruct (Z.eq_dec x 0) as [->|]; [done|]. apply Z.log2_spec. lia.
  - apply Z.pow_le_mono_l. lia.
Qed.

(** Digits without a leading zero are at most as many as the range asks for. *)
Lemma base_digits_len fuel x k :
  0 <= x < b ^ Z.of_nat (S k) -> (length (base_digits fuel b x) <= S k)%nat.
Proof.
  revert x k. induction fuel as [|fuel IH]; intros x k Hx; [cbn; lia|]. cbn [base_digits]. case_if; [cbn; lia|].
  rewrite length_app. cbn. destruct k as [|k]; [cbn in Hx; lia|].
  assert (length (base_digits fuel b (x / b)) <= S k)%nat; [|lia]. apply IH.
  rewrite Nat2Z.inj_succ, Z.pow_succ_r in Hx by lia.
  split; [apply Z.div_pos; lia|]. apply Z.div_lt_upper_bound; lia.
Qed.
End values.

Lemma fmt_u_ok x : 0 <= x ->
  forallb (is_digit decode_decimal_digit) (fmt_u x) = true /\
  value_from decode_decimal_digit 10 0 (fmt_u x) = x /\ (0 < length (fmt_u x))%nat.
Proof.
  intros. pose proof (log2_fuel 10 ltac:(lia) x ltac:(lia)).
  destruct (base_digits_ok decode_decimal_digit 10 ltac:(lia) (S (Z.to_nat (Z.log2 x))) x) as (? & ? & ?);
    [lia|apply decode_decimal_char|]. split_and!; auto with lia.
Qed.
Lemma fmt_x_ok x : 0 <= x ->
  forallb (is_digit decode_hex_digit) (fmt_x x) = true /\
  value_from decode_hex_digit 16 0 (fmt_x x) = x /\ (0 < length (fmt_x x))%nat.
Proof.
  intros. pose proof (log2_fuel 16 ltac:(lia) x ltac:(lia)).
  destruct (base_digits_ok decode_hex_digit 16 ltac:(lia) (S (Z.to_nat (Z.log2 x))) x) as (? & ? & ?);
    [lia|apply decode_hex_char|]. split_and!; auto with lia.
Qed.
Lemma print_base_len b x k : 2 <= b -> 0 <= x < b ^ Z.of_nat (S k) -> (length (print_base b x) <= S k)%nat.
Proof. intros. unfold print_base. rewrite length_map. by apply base_digits_len. Qed.

(** ** The parsers are the reference definitions *)
Abbreviation dec_digits := (forallb (is_digit decode_decimal_digit)).
Abbreviation dec_value := (value_from decode_decimal_digit 10).
Abbreviation hex_digits := (forallb (is_digit decode_hex_digit)).
Abbreviation hex_value := (value_from decode_hex_digit 16).

Lemma is_decimal_iff c : is_digit decode_decimal_digit c = (CH_0 <=? c) && (c <=? CH_9).
Proof.
  unfold is_digit. rewrite decode_decimal_spec. destruct ((CH_0 <=? c) && (c <=? CH_9)) eqn:E; [|done].
  reflect_bool. apply Z.leb_le. lia.
Qed.

Lemma dec_value_range s : dec_digits s = true -> 0 <= dec_value 0 s < 10 ^ zlen s.
Proof. intros. apply value_range; [lia|apply decode_decimal_range|done]. Qed.
Lemma hex_value_range s : hex_digits s = true -> 0 <= hex_value 0 s < 16 ^ zlen s.
Proof. intros. apply value_range; [lia|apply decode_hex_range|done]. Qed.

Lemma no_overflow_invalid str n : dec_digits str = false -> no_overflow_loop str n = None.
Proof.
  revert n. induction str as [|c str IH]; intros n H; [done|]. cbn [forallb no_overflow_loop] in *.
  rewrite is_decimal_iff in H. case_if; [done|]. apply IH. reflect_bool. destruct H as [H|H]; [|done]. reflect_bool. destruct H as [H|H]; reflect_bool; lia.
Qed.
Lemma no_overflow_valid str n :
  dec_digits str = true -> 0 <= n -> dec_value n str <= UINT64_MAX ->
  no_overflow_loop str n = Some (dec_value n str).
Proof.
  revert n. induction str as [|c str IH]; intros n H Hn Hv; [done|]. cbn [forallb no_overflow_loop] in *.
  rewrite is_decimal_iff in H. reflect_bool. bool_false.
  assert (dec_value n (c :: str) = dec_value (10 * n + (c - CH_0)) str) as Ev.
  { unfold value_from. cbn [fold_left]. rewrite decode_decimal_spec. by bool_true. }
  rewrite Ev in *. pose proof (value_mono _ 10 ltac:(lia) (fun c => proj2 (decode_decimal_range c))
    (10 * n + (c - CH_0)) str ltac:(lia) ltac:(done)).
  rewrite uwrap_small by (unfold UINT64_MAX in *; lia). apply IH; [done|lia|done].
Qed.

(** Leading zeros change neither the digits nor the value, and none is left. *)
Lemma remove_leading_zeros_ok str :
  dec_digits (remove_leading_zeros str) = dec_digits str /\
  dec_value 0 (remove_leading_zeros str) = dec_value 0 str /\
  (dec_digits str = true -> 0 < zlen (remove_leading_zeros str) ->
   10 ^ (zlen (remove_leading_zeros str) - 1) <= dec_value 0 str).
Proof.
  induction str as [|c str (Id & Iv & Il)]; [split_and!; [done|done|unfold zlen; cbn; lia]|].
  cbn [remove_leading_zeros]. case_if.
  - subst. cbn [forallb]. rewrite Id, Iv, value_cons. split_and!; [done|cbn; lia|]. cbn. auto.
  - split_and!; [done|done|]. cbn [forallb]. rewrite is_decimal_iff. intros H _. reflect_bool.
    rewrite value_cons, zlen_cons, decode_decimal_spec. bool_true.
    pose proof (dec_value_range str ltac:(done)). replace (1 + zlen str - 1) with (zlen str) by lia.
    pose proof (Z.pow_pos_nonneg 10 (zlen str) ltac:(lia) (zlen_nonneg str)).
    assert (1 <= c - CH_0) by lia. nia.
Qed.

Lemma overflow_detected s :
  dec_digits s = true -> (0 < zlen s -> 10 ^ (zlen s - 1) <= dec_value 0 s) ->
  (zlen parse_number__uintmax_max_str <? zlen s) ||
    ((zlen s =? zlen parse_number__uintmax_max_str) && (0 <? memcmp s parse_number__uintmax_max_str)) =
  (UINT64_MAX <? dec_value 0 s).
Proof.
  intros Hs Hl. set (m := parse_number__uintmax_max_str). assert (zlen m = 20) as Em by done.
  pose proof (dec_value_range s Hs) as Hv. rewrite Em. pose proof (zlen_nonneg s).
  destruct (Z.ltb_spec 20 (zlen s)); [|destruct (Z.eqb_spec (zlen s) 20) as [E|E]]; cbn [orb andb]; symmetry.
  - apply Z.ltb_lt. pose proof (Z.pow_le_mono_r 10 20 (zlen s - 1) ltac:(lia) ltac:(lia)). unfold UINT64_MAX. lia.
  - rewrite (memcmp_value decode_decimal_digit 10); [done|lia|apply decode_decimal_range| |by rewrite Em|done|done].
    intros x y. rewrite !is_decimal_iff, !decode_decimal_spec. intros -> ->. lia.
  - apply Z.ltb_ge. pose proof (Z.pow_le_mono_r 10 (zlen s) 19 ltac:(lia) ltac:(lia)). unfold UINT64_MAX. lia.
Qed.

Lemma parse_unsigned_eq s : parse_unsigned_integer s = numeral decode_decimal_digit 10 UINT64_MAX s.
Proof.
  unfold parse_unsigned_integer, numeral, parse__no_overflow.
  destruct (Z.eqb_spec (zlen s) 0) as [E|E]; [done|]. cbn [negb andb].
  destruct (remove_leading_zeros_ok s) as (Hd & Hv & Hl). destruct (dec_digits s) eqn:Es; cbn [andb].
  - rewrite overflow_detected by (rewrite ?Hd, ?Hv; auto). rewrite Hv. case_if; [by bool_false|]. bool_true.
    rewrite no_overflow_valid by (rewrite ?Hv; done || lia). by rewrite Hv.
  - rewrite no_overflow_invalid by done. by case_if.
Qed.

Lemma hex_loop_ok s n :
  0 <= n <= UINT64_MAX ->
  hex_loop s n = if hex_digits s && (hex_value n s <=? UINT64_MAX) then Some (hex_value n s) else None.
Proof.
  revert n. induction s as [|c s IH]; intros n Hn; [cbn; by bool_true|].
  pose proof (decode_hex_range c). cbn [hex_loop forallb]. unfold is_digit at 1. case_if; [by bool_false|].
  rewrite (proj2 (Z.leb_le _ _)) by lia. cbn [andb].
  assert (hex_value n (c :: s) = hex_value (16 * n + decode_hex_digit c) s) as -> by done.
  set (n' := 16 * n + decode_hex_digit c).
  assert (hex_digits s = true -> n' <= hex_value n' s).
  { intros. apply value_mono; [lia|apply decode_hex_range|lia|done]. }
  assert (Hbig : UINT64_MAX < n' -> hex_digits s && (hex_value n' s <=? UINT64_MAX) = false).
  { intros. destruct (hex_digits s); [|done]. apply Z.leb_gt. lia. }
  unfold UINT64_MAX in *. Z.div_mod_to_equations.
  case_if; [rewrite Hbig by lia; done|]. rewrite (uwrap_small 64 (n * 16)) by lia. case_if; [rewrite Hbig by lia; done|].
  rewrite uwrap_small by lia. replace (n * 16 + decode_hex_digit c) with n' by lia. apply IH. lia.
Qed.

Lemma parse_hex_eq s : parse_unsigned_hex_integer s = numeral decode_hex_digit 16 UINT64_MAX s.
Proof.
  unfold parse_unsigned_hex_integer, numeral. destruct (Z.eqb_spec (zlen s) 0); [done|].
  rewrite hex_loop_ok by (unfold UINT64_MAX; lia). done.
Qed.

(** The number parsers are equal to their reference definitions on every text: a decimal or
    hexadecimal number is accepted exactly when the text is not empty, consists of digits of the
    base (letters in both cases) and its value, whatever the number of leading zeros, fits
    [uintmax_t], and the result is that value; a signed number is an optional sign followed by a
    decimal number. *)
Theorem number_parsers_correct s :
  parse_unsigned_integer s = numeral decode_decimal_digit 10 UINT64_MAX s /\
  parse_unsigned_hex_integer s = numeral decode_hex_digit 16 UINT64_MAX s /\
  parse_signmag_integer (CH_MINUS :: s) = (pair (-1)) <$> numeral decode_decimal_digit 10 UINT64_MAX s /\
  parse_signmag_integer (CH_PLUS :: s) = (pair 1) <$> numeral decode_decimal_digit 10 UINT64_MAX s /\
  (head s = Some CH_MINUS \/ head s = Some CH_PLUS \/
   parse_signmag_integer s = (pair 1) <$> numeral decode_decimal_digit 10 UINT64_MAX s).
Proof.
  split_and!.
  - apply parse_unsigned_eq.
  - apply parse_hex_eq.
  - cbn. rewrite parse_unsigned_eq. by destruct (numeral _ _ _ _).
  - cbn. rewrite parse_unsigned_eq. by destruct (numeral _ _ _ _).
  - destruct s as [|c s]; [by do 2 right|]. unfold parse_signmag_integer. cbn [head].
    destruct (Z.eqb_spec c CH_PLUS) as [->|]; [by right; left|].
    destruct (Z.eqb_spec c CH_MINUS) as [->|]; [by left|]. do 2 right. cbn [orb].
    rewrite parse_unsigned_eq. by destruct (numeral _ _ _ _).
Qed.

(** ** Generated representations *)
Lemma decimal_rounds f f' x s :
  0 <= x < 10 ^ Z.of_nat (S f) -> x < 10 ^ Z.of_nat (S f') ->
  decimal_size_loop (S f) x s = Some (s + zlen (base_digits (S f') 10 x)).
Proof.
  revert f' x s. induction f as [|f IH]; intros f' x s Hx Hx';
    rewrite ?(Nat2Z.inj_succ (S f)), ?(Nat2Z.inj_succ f'), ?(Z.pow_succ_r 10 (Z.of_nat (S f))), Z.pow_succ_r in * by lia;
    cbn [base_digits].
  - cbn in Hx. rewrite (proj2 (Z.ltb_lt x 10)) by lia. cbn [decimal_size_loop]. by rewrite Z.div_small by lia.
  - assert (10 <= x -> 1 <= x / 10 < 10 ^ Z.of_nat (S f) /\ x / 10 < 10 ^ Z.of_nat f') as Hd.
    { intros. Z.div_mod_to_equations. lia. }
    change (decimal_size_loop (S (S f)) x s) with
      (if 0 <? x / 10 then decimal_size_loop (S f) (x / 10) (s + 1) else Some (s + 1)).
    destruct (Z.ltb_spec x 10).
    + by rewrite Z.div_small by lia.
    + specialize (Hd ltac:(lia)). bool_true. destruct f' as [|f']; [cbn in Hd; lia|].
      rewrite (IH f') by lia. rewrite zlen_app, zlen_cons, zlen_nil. f_equal. lia.
Qed.

Lemma decimal_repr_rounds f f' x mem out :
  0 <= x < 10 ^ Z.of_nat (S f) -> x < 10 ^ Z.of_nat (S f') ->
  zlen (base_digits (S f') 10 x) <= out -> out <= zlen mem ->
  decimal_repr_loop (S f) x mem out =
    Some (splice mem (out - zlen (base_digits (S f') 10 x)) (map digit_char (base_digits (S f') 10 x))).
Proof.
  revert f' x mem out. induction f as [|f IH]; intros f' x mem out Hx Hx';
    rewrite ?(Nat2Z.inj_succ (S f)), ?(Nat2Z.inj_succ f'), ?(Z.pow_succ_r 10 (Z.of_nat (S f))), Z.pow_succ_r in * by lia;
    cbn [base_digits]; intros Hd Hm.
  - cbn in Hx. rewrite (proj2 (Z.ltb_lt x 10)) in * by lia. rewrite zlen_cons, zlen_nil in Hd.
    cbn [decimal_repr_loop]. bool_true. rewrite Z.div_small, Z.mod_small by lia. cbn. unfold digit_char. by bool_true.
  - match goal with |- decimal_repr_loop (S ?g) _ _ _ = _ => remember g as g0 eqn:Eg end.
    cbn [decimal_repr_loop]. subst g0. destruct (Z.ltb_spec x 10).
    + rewrite zlen_cons, zlen_nil in Hd. bool_true. rewrite Z.div_small, Z.mod_small by lia. cbn. unfold digit_char. by bool_true.
    + assert (1 <= x / 10 < 10 ^ Z.of_nat (S f) /\ x / 10 < 10 ^ Z.of_nat f') as Hq by (Z.div_mod_to_equations; lia).
      destruct f' as [|f']; [cbn in Hq; lia|]. pose proof (Z.mod_pos_bound x 10 ltac:(lia)).
      set (ds := base_digits (S f') 10 (x / 10)) in *. rewrite zlen_app in *.
      assert (zlen [x mod 10] = 1) as E1 by done. rewrite E1 in *. pose proof (zlen_nonneg ds).
      bool_true. rewrite (proj2 (Z.ltb_lt 0 (x / 10))) by lia.
      assert (zlen (map digit_char ds) = zlen ds) as Em by (unfold zlen; by rewrite length_map).
      rewrite (IH f'); [|lia|lia|fold ds; lia|rewrite zlen_splice by (rewrite ?zlen_cons, ?zlen_nil; lia); lia].
      fold ds. f_equal. replace (out - 1) with (out - 1 - zlen ds + zlen (map digit_char ds)) at 1 by lia.
      rewrite splice_before by (rewrite ?zlen_cons, ?zlen_nil; lia).
      f_equal; [lia|]. rewrite map_app. cbn [map]. unfold digit_char. by bool_true.
Qed.

Lemma cstr_app t rest : Forall (fun c => c <> 0) t -> cstr (t ++ 0 :: rest) = Some t.
Proof.
  induction 1 as [|c t Hc _ IH]; [done|]. cbn [app cstr]. rewrite (proj2 (Z.eqb_neq c 0)) by done.
  rewrite IH. done.
Qed.
Lemma dec_digits_no_nul t : dec_digits t = true -> Forall (fun c => c <> 0) t.
Proof.
  induction t as [|c t IH]; cbn [forallb]; intros H; [constructor|]. reflect_bool. constructor; [by intros ->|auto].
Qed.

(** The decimal representation of any [uintmax_t] is generated inside a buffer that has
    room for it and its terminator, twenty characters and the terminator always being enough:
    the buffer then starts with the digits without leading zeros, as a C string, keeps what
    comes behind it, the returned size is their number, and parsing them gives the number back. *)
Theorem decimal_repr_roundtrip x mem :
  0 <= x <= UINT64_MAX -> zlen (fmt_u x) < zlen mem ->
  generate_decimal_repr_string x mem =
    Some (fmt_u x ++ 0 :: drop (S (length (fmt_u x))) mem, zlen (fmt_u x)) /\
  cstr (fmt_u x ++ 0 :: drop (S (length (fmt_u x))) mem) = Some (fmt_u x) /\
  zlen (fmt_u x) <= 20 /\
  parse_unsigned_integer (fmt_u x) = Some x.
Proof.
  intros Hx Hm. destruct (fmt_u_ok x) as (Hd & Hv & Hl); [lia|].
  assert (zlen (fmt_u x) = zlen (base_digits (S (Z.to_nat (Z.log2 x))) 10 x)) as Es
    by (unfold zlen, print_base; by rewrite length_map).
  pose proof (log2_fuel 10 ltac:(lia) x ltac:(lia)) as Hf.
  assert (0 <= x < 10 ^ Z.of_nat 20) as Hx' by (unfold UINT64_MAX in Hx; lia).
  pose proof (zlen_nonneg (fmt_u x)). split_and!.
  - unfold generate_decimal_repr_string, generate_decimal_repr, compute_decimal_repr_size, DECIMAL_ROUNDS.
    rewrite (decimal_rounds _ _ x 0 Hx' Hf), <- Es. cbn [mbind option_bind]. rewrite Z.add_0_l, Z.eqb_refl.
    rewrite (decimal_repr_rounds _ _ x mem _ Hx' Hf) by (rewrite <- ?Es; lia). rewrite <- Es, Z.sub_diag.
    fold (print_base 10 x). cbn [mbind option_bind]. rewrite zlen_splice by lia. bool_true.
    rewrite <- (Z.add_0_l (zlen (fmt_u x))) at 1.
    rewrite splice_after by (change (zlen [0]) with 1; lia).
    do 2 f_equal. unfold splice. cbn [Z.to_nat take]. rewrite app_nil_l, <- app_assoc. cbn [app]. do 3 f_equal.
    rewrite zlen_app. unfold zlen. cbn [length]. lia.
  - by apply cstr_app, dec_digits_no_nul.
  - pose proof (print_base_len 10 x 19 ltac:(lia) Hx'). unfold zlen. lia.
  - rewrite parse_unsigned_eq. unfold numeral. rewrite Hd, Hv. rewrite (proj2 (Z.leb_le x UINT64_MAX)) by lia.
    destruct (Z.eqb_spec (zlen (fmt_u x)) 0); [unfold zlen in *; lia|done].
Qed.

Lemma decimal_repr_roundtrip_witness :
  zlen (fmt_u 65535) = 5 /\
  generate_decimal_repr_string 65535 [1; 2; 3; 4; 5; 6; 7] = Some ([54; 53; 53; 51; 53; 0; 7], 5) /\
  parse_unsigned_integer [54; 53; 53; 51; 53] = Some 65535.
Proof.
  destruct (decimal_repr_roundtrip 65535 [1; 2; 3; 4; 5; 6; 7]) as (H1 & _ & _ & H2);
    [unfold UINT64_MAX; lia|reflexivity|]. split; [reflexivity|]. split; [exact H1|exact H2].
Defined.
