(* ===== verification/IpAddr.v ===== *)
(** * IPv4 addresses as text, masks and prefixes (misc/ipaddr.h)

    An address is a [uint32_t] in network order; the parser writes the bytes of that object one by
    one, so it works on the list [out] of the four bytes and returns them with the result.  The
    grammar it recognises is [ipv4_text]. *)

From S2P Require Import Prelude ByteOrder ParseNumber.
Import Text.

(** ** Reference definitions *)

(** The texts [ts], separated by [sep]. *)
Definition join (sep : Z) (ts : list (list Z)) : list Z :=
  match ts with [] => [] | t :: ts => t ++ concat (map (cons sep) ts) end.

(** A decimal number of one to three digits that is a byte. *)
Definition octet (t : list Z) (v : Z) : Prop :=
  forallb (is_digit decode_decimal_digit) t = true /\ 1 <= zlen t <= 3 /\
  v = value_from decode_decimal_digit 10 0 t /\ v <= 255.

Definition ipv4_text (s : list Z) (a : list Z) : Prop :=
  exists ts, s = join CH_DOT ts /\ Forall2 octet ts a /\ length a = 4%nat.

(** The number an address of bytes in network order is, and its first [p] bits. *)
Definition be_val (l : list Z) : Z := le_val (rev l).
Definition leading_bits (p : Z) (l : list Z) : Z := be_val l / 2 ^ (8 * zlen l - p).

(** ** The code *)
Record ipv4_ifaddr := { if_addr : Z; if_prefix : Z }.
Definition IPADDR_PRINT_MAX : Z := 19.

(** The inner loop: the position of the first dot, or the length. *)
Fixpoint to_dot (name : list Z) : Z :=
  match name with
  | [] => 0
  | c :: name => if c =? CH_DOT then 0 else 1 + to_dot name
  end.

(** One round per byte; the fourth round returns. *)
Fixpoint parse_ipv4_loop (fuel : nat) (i : Z) (name out : list Z) : option (bool * list Z) :=
  match fuel with
  | O => None
  | S fuel =>
      let j := to_dot name in
      if ((j =? zlen name) && (i <? 3)) || ((j <? zlen name) && (i =? 3)) then Some (false, out)
      else if (j <? 1) || (3 <? j) then Some (false, out)
      else
        sub ← MemRef_SubTo name j;
        match parse_unsigned_integer sub with
        | None => Some (false, out)
        | Some d =>
            if 255 <? d then Some (false, out)
            else
              ASSERT (0 <=? i) && (i <? zlen out);
              let out := splice out i [u8 d] in
              if i =? 3 then Some (true, out)
              else parse_ipv4_loop fuel (i + 1) (drop (Z.to_nat (j + 1)) name) out
        end
  end.
Definition ipaddr_parse_ipv4_addr (name out : list Z) : option (bool * list Z) :=
  parse_ipv4_loop 4 0 name out.

Definition ipaddr_parse_ipv4_prefix (str : list Z) : option Z :=
  match parse_unsigned_integer str with
  | None => None
  | Some d => if 32 <? d then None else Some d
  end.

(** The address and the prefix are written where the parsers succeed. *)
Definition ipaddr_parse_ipv4_ifaddr (str addr : list Z) (prefix : Z) : option (bool * (list Z * Z)) :=
  match MemRef_FindChar str CH_SLASH with
  | None => Some (false, (addr, prefix))
  | Some slash_pos =>
      s1 ← MemRef_SubTo str slash_pos;
      '(ok, addr) ← ipaddr_parse_ipv4_addr s1 addr;
      if (ok : bool) then
        s2 ← MemRef_SubFrom str (slash_pos + 1);
        match ipaddr_parse_ipv4_prefix s2 with
        | None => Some (false, (addr, prefix))
        | Some p => Some (true, (addr, p))
        end
      else Some (false, (addr, prefix))
  end.

(** [1 << (32 - i - 1)] is an [int]; for [i = 0] compilers wrap it to [INT_MIN], which the
    conversion to [uint32_t] makes 2^31. *)
Definition mask_bit (i : Z) : Z := u32 (i32 (Z.shiftl 1 (32 - i - 1))).

Fixpoint mask_loop (n : nat) (i t : Z) : Z :=
  match n with
  | O => t
  | S n => mask_loop n (i + 1) (Z.lor t (mask_bit i))
  end.
Definition ipaddr_ipv4_mask_from_prefix (prefix : Z) : option Z :=
  ASSERT 0 <=? prefix; ASSERT prefix <=? 32;
  Some (hton32 (mask_loop (Z.to_nat prefix) 0 0)).

(** [n] rounds are left; the loop ends with [i = 33] when no mask is equal. *)
Fixpoint prefix_loop (n : nat) (mask i t : Z) : Z :=
  match n with
  | O => i
  | S n =>
      if ntoh32 mask =? t then i
      else prefix_loop n mask (i + 1) (if i <? 32 then Z.lor t (mask_bit i) else t)
  end.
Definition ipaddr_ipv4_prefix_from_mask (mask : Z) : option Z :=
  let i := prefix_loop 33 mask 0 0 in
  if i <=? 32 then Some i else None.

Definition ipaddr_ipv4_ifaddr_from_addr_mask (addr mask : Z) : option ipv4_ifaddr :=
  match ipaddr_ipv4_prefix_from_mask mask with
  | None => None
  | Some prefix => Some {| if_addr := addr; if_prefix := prefix |}
  end.

Definition ipaddr_ipv4_addrs_in_network (addr1 addr2 netprefix : Z) : option bool :=
  ASSERT 0 <=? netprefix; ASSERT netprefix <=? 32;
  mask ← ipaddr_ipv4_mask_from_prefix netprefix;
  Some (Z.land addr1 mask =? Z.land addr2 mask).

Definition dotted (b : list Z) : list Z := join CH_DOT (map fmt_u b).

Definition ipaddr_print_addr (addr : Z) (out : list Z) : option (list Z) :=
  r ← sprintf out 0 (dotted (host32 addr)); Some (r.1).

Definition ipaddr_print_ifaddr (ifaddr : ipv4_ifaddr) (out : list Z) : option (list Z) :=
  ASSERT 0 <=? if_prefix ifaddr; ASSERT if_prefix ifaddr <=? 32;
  r ← sprintf out 0 (dotted (host32 (if_addr ifaddr)) ++ CH_SLASH :: fmt_u (if_prefix ifaddr));
  Some (r.1).

(** ** Joined texts *)
Lemma join_cons sep t ts : join sep (t :: ts) = t ++ (if decide (ts = []) then [] else sep :: join sep ts).
Proof. destruct ts; [done|]. cbn. done. Qed.
Lemma join_snoc sep ts t : ts <> [] -> join sep (ts ++ [t]) = join sep ts ++ sep :: t.
Proof.
  destruct ts as [|u ts]; [done|]. intros _. cbn. rewrite map_app, concat_app. cbn.
  by rewrite app_nil_r, <- app_assoc.
Qed.

Definition clean (sep : Z) (t : list Z) : Prop := sep ∉ t.

Lemma to_dot_app t r : clean CH_DOT t -> to_dot (t ++ r) = zlen t + to_dot r.
Proof.
  induction t as [|c t IH]; intros H; [done|]. apply not_elem_of_cons in H as [H1 H2].
  cbn [app to_dot]. rewrite (proj2 (Z.eqb_neq c CH_DOT)) by done. rewrite IH by done. rewrite zlen_cons. lia.
Qed.
(** The text up to the first dot. *)
Lemma to_dot_split name :
  exists t r, name = t ++ r /\ clean CH_DOT t /\ to_dot name = zlen t /\ (r = [] \/ exists r', r = CH_DOT :: r').
Proof.
  induction name as [|c name (t & r & -> & Hc & Ht & Hr)]; [exists [], []; split_and!; [done|apply not_elem_of_nil|done|by left]|].
  cbn [to_dot]. destruct (Z.eqb_spec c CH_DOT) as [->|Hn].
  - exists [], (CH_DOT :: t ++ r). split_and!; [done|apply not_elem_of_nil|done|right; eauto].
  - exists (c :: t), r. split_and!; [done|by apply not_elem_of_cons|rewrite zlen_cons; lia|done].
Qed.
Lemma dec_digits_clean sep t :
  is_digit decode_decimal_digit sep = false -> forallb (is_digit decode_decimal_digit) t = true -> clean sep t.
Proof.
  intros Hs Ht Hin. rewrite forallb_forall in Ht. rewrite Ht in Hs; [done|]. by apply list_elem_of_In.
Qed.

(** ** The parser recognises the grammar *)
Lemma octet_parse t v :
  octet t v <-> 1 <= zlen t <= 3 /\ parse_unsigned_integer t = Some v /\ v <= 255.
Proof.
  rewrite parse_unsigned_eq. unfold octet, numeral. split.
  - intros (Hd & Hl & -> & Hv). rewrite Hd. split_and!; try lia.
    rewrite (proj2 (Z.leb_le _ UINT64_MAX)) by (unfold UINT64_MAX; lia). by destruct (Z.eqb_spec (zlen t) 0); [lia|].
  - intros (Hl & Hp & Hv). revert Hp. case_if; [|done]. intros [= <-]. split_and!; done || lia.
Qed.
Lemma octet_byte t v : octet t v -> 0 <= v <= 255.
Proof. intros (Hd & _ & -> & Hv). split; [|done]. by apply dec_value_range. Qed.
Lemma octet_clean t v : octet t v -> clean CH_DOT t.
Proof. intros (Hd & _). by apply dec_digits_clean. Qed.

(** What the loop does from byte [3 - k] on: [octets k] are the [k + 1] numbers left. *)
Definition octets (k : nat) (name : list Z) (vs : list Z) : Prop :=
  exists ts, name = join CH_DOT ts /\ Forall2 octet ts vs /\ length vs = S k.

Lemma octets_last t vs : clean CH_DOT t -> octets 0 t vs <-> exists v, octet t v /\ vs = [v].
Proof.
  intros Hc. split.
  - intros (ts & -> & Hf & Hl). destruct vs as [|v [|]]; [done| |done].
    apply Forall2_cons_inv_r in Hf as (t0 & ts0 & Ho & Hn & ->). apply Forall2_nil_inv_r in Hn as ->.
    exists v. cbn. by rewrite app_nil_r.
  - intros (v & Ho & ->). exists [t]. cbn. rewrite app_nil_r. split_and!; auto.
Qed.
Lemma octets_more k t r vs : clean CH_DOT t ->
  octets (S k) (t ++ CH_DOT :: r) vs <-> exists v vs', octet t v /\ octets k r vs' /\ vs = v :: vs'.
Proof.
  intros Hc. split.
  - intros (ts & Hj & Hf & Hl). destruct vs as [|v vs]; [done|].
    apply Forall2_cons_inv_r in Hf as (t0 & ts0 & Ho & Hf & ->). exists v, vs.
    rewrite join_cons in Hj. destruct (decide (ts0 = [])) as [->|Hn].
    { apply Forall2_nil_inv_l in Hf as ->. cbn in Hl. lia. }
    pose proof (octet_clean _ _ Ho) as Hc0.
    assert (zlen t = zlen t0) as El.
    { pose proof (to_dot_app t (CH_DOT :: r) Hc) as E1. pose proof (to_dot_app t0 (CH_DOT :: join CH_DOT ts0) Hc0) as E2.
      rewrite Hj in E1. cbn in *. lia. }
    apply app_inj_1 in Hj as [<- [= ->]]; [|unfold zlen in El; lia].
    split_and!; [done| |done]. exists ts0. cbn in Hl. split_and!; [done|done|lia].
  - intros (v & vs' & Ho & (ts & -> & Hf & Hl) & ->). exists (t :: ts). rewrite join_cons, decide_False.
    + split_and!; [done|by constructor|cbn; lia].
    + intros ->. apply Forall2_nil_inv_l in Hf as ->. done.
Qed.
Lemma octets_dots k name vs : octets k name vs -> (to_dot name = zlen name <-> k = 0%nat).
Proof.
  intros (ts & -> & Hf & Hl). destruct vs as [|v vs]; [done|].
  apply Forall2_cons_inv_r in Hf as (t & ts0 & Ho & Hf & ->). pose proof (octet_clean _ _ Ho).
  rewrite join_cons, to_dot_app by done. destruct (decide (ts0 = [])) as [->|Hn].
  - apply Forall2_nil_inv_l in Hf as ->. cbn in *. rewrite app_nil_r. lia.
  - rewrite zlen_app, zlen_cons. cbn. pose proof (zlen_nonneg (join CH_DOT ts0)).
    apply Forall2_length in Hf. destruct ts0; [done|]. cbn in *. lia.
Qed.

Definition byte_written (out : list Z) (i d : Z) : list Z := splice out i [u8 d].
Lemma length_written out i d : 0 <= i < zlen out -> length (byte_written out i d) = length out.
Proof.
  intros. pose proof (zlen_splice out i [u8 d] ltac:(lia) ltac:(change (zlen [u8 d]) with 1; lia)).
  unfold byte_written, zlen in *. lia.
Qed.
Lemma take_written out i d : 0 <= i < zlen out -> 0 <= d <= 255 ->
  take (Z.to_nat (i + 1)) (byte_written out i d) = take (Z.to_nat i) out ++ [d].
Proof.
  intros Hi Hd. unfold byte_written, splice. rewrite uwrap_small by lia. rewrite app_assoc.
  apply take_app_length'. rewrite length_app, length_take. cbn. unfold zlen in Hi. lia.
Qed.

(** The end of the loop and one more round, with the text up to the dot isolated. *)
Definition number_read (t : list Z) : option Z :=
  if (zlen t <? 1) || (3 <? zlen t) then None
  else match parse_unsigned_integer t with
       | None => None
       | Some d => if 255 <? d then None else Some d
       end.
Lemma number_read_iff t v : number_read t = Some v <-> octet t v.
Proof.
  rewrite octet_parse. unfold number_read. case_if; [split; [done|lia]|].
  destruct (parse_unsigned_integer t) as [d|]; [|split; [done|by intros (_ & ? & _)]].
  case_if; (split; [intros [=]; subst|intros (_ & [= ->] & ?)]); done || lia.
Qed.

Lemma parse_ipv4_round fuel i t r out :
  clean CH_DOT t -> r = [] \/ (exists r', r = CH_DOT :: r') -> 0 <= i < zlen out -> i <= 3 ->
  parse_ipv4_loop (S fuel) i (t ++ r) out =
    if bool_decide (r = [] <-> i = 3) then
      match number_read t with
      | None => Some (false, out)
      | Some d =>
          if i =? 3 then Some (true, byte_written out i d)
          else parse_ipv4_loop fuel (i + 1) (tail r) (byte_written out i d)
      end
    else Some (false, out).
Proof.
  intros Hc Hr Hi Hi3. cbn [parse_ipv4_loop]. rewrite to_dot_app, zlen_app by done. pose proof (zlen_nonneg t).
  assert (to_dot r = 0 /\ (r = [] -> zlen r = 0) /\ (r <> [] -> 0 < zlen r)) as (-> & Hr0 & Hr1).
  { destruct Hr as [->|[r' ->]]; split_and!; try done; rewrite zlen_cons; pose proof (zlen_nonneg r'); done || lia. }
  rewrite Z.add_0_r.
  set (stop := ((zlen t =? zlen t + zlen r) && (i <? 3)) || ((zlen t <? zlen t + zlen r) && (i =? 3))).
  case_bool_decide as Hb.
  - assert (stop = false) as ->; [unfold stop; clear stop|]; cycle 1.
    + unfold number_read. case_if; [done|]. unfold MemRef_SubTo. rewrite zlen_app. pose proof (zlen_nonneg r).
      repeat bool_true. cbn [mbind option_bind].
      rewrite (take_app_length' t r) by (unfold zlen; lia). destruct (parse_unsigned_integer t); [|done].
      case_if; [done|]. case_if; [done|]. f_equal.
      destruct Hr as [->|[r' ->]]; [exfalso; tauto|]. rewrite drop_app_ge by (unfold zlen; lia).
      by replace (Z.to_nat (zlen t + 1) - length t)%nat with 1%nat by (unfold zlen; lia).
    + destruct (decide (r = [])) as [E|E].
      * rewrite (proj1 Hb E), Hr0 by done. by rewrite Z.add_0_r, !Z.ltb_irrefl, andb_false_r.
      * specialize (Hr1 E). assert (i <> 3) by tauto. apply orb_false_iff.
        split; apply andb_false_iff; [left; apply Z.eqb_neq; lia|right; by apply Z.eqb_neq].
  - assert (stop = true) as ->; [unfold stop|done]. apply orb_true_iff. rewrite !andb_true_iff, !Z.eqb_eq, !Z.ltb_lt.
    destruct (decide (r = [])) as [E|E]; [left|right].
    + rewrite Hr0 by done. assert (i <> 3) by tauto. lia.
    + specialize (Hr1 E). destruct (Z.eq_dec i 3); [lia|tauto].
Qed.

Lemma parse_ipv4_loop_ok k name out :
  (k <= 3)%nat -> length out = 4%nat ->
  exists r out', parse_ipv4_loop (S k) (3 - Z.of_nat k) name out = Some (r, out') /\ length out' = 4%nat /\
    (r = true -> exists vs, octets k name vs /\ out' = take (3 - k) out ++ vs) /\
    (forall vs, octets k name vs -> r = true /\ out' = take (3 - k) out ++ vs).
Proof.
  revert name out. induction k as [|k IH]; intros name out Hk Ho;
    destruct (to_dot_split name) as (t & r & -> & Hc & Ht & Hr);
    rewrite parse_ipv4_round by (done || (unfold zlen; lia)).
  - change (3 - Z.of_nat 0) with 3. case_bool_decide as Hb.
    + rewrite (proj2 Hb), app_nil_r by lia. destruct (number_read t) as [d|] eqn:En.
      * apply number_read_iff in En as Hd. pose proof (octet_byte _ _ Hd).
        eexists true, _. split; [done|]. assert (byte_written out 3 d = take 3 out ++ [d]) as ->.
        { change (take 3 out) with (take (Z.to_nat 3) out). rewrite <- (take_written out 3 d) by (unfold zlen; lia). symmetry. apply take_ge.
          rewrite length_written by (unfold zlen; lia). lia. }
        rewrite length_app, length_take. cbn [length Nat.sub]. split; [lia|].
        split.
        -- intros _. exists [d]. split; [|done]. apply octets_last; eauto.
        -- intros vs (v & Hv & ->)%octets_last; [|done]. apply number_read_iff in Hv. by simplify_eq.
      * exists false, out. do 2 (split; [done|]). split; [done|]. intros vs Hv.
        apply octets_last in Hv as (v & Hv%number_read_iff & _); [congruence|done].
    + exists false, out. do 2 (split; [done|]). split; [done|]. intros vs Hv. destruct Hb.
      apply octets_dots in Hv. rewrite to_dot_app, zlen_app in Hv by done. split; [lia|]. intros _.
      destruct Hr as [->|[r' ->]]; [done|]. rewrite zlen_cons in Hv. cbn in Hv. pose proof (zlen_nonneg r'). lia.
  - case_bool_decide as Hb.
    + destruct Hr as [->|[r' ->]]; [exfalso; pose proof (proj1 Hb eq_refl); lia|]. destruct (number_read t) as [d|] eqn:En.
      * apply number_read_iff in En as Hd. pose proof (octet_byte _ _ Hd). bool_false. cbn [tail].
        replace (3 - Z.of_nat (S k) + 1) with (3 - Z.of_nat k) by lia.
        assert (length (byte_written out (3 - Z.of_nat (S k)) d) = 4%nat) as Hw
          by (rewrite length_written by (unfold zlen; lia); done).
        destruct (IH r' _ ltac:(lia) Hw) as (b & out' & -> & Hl & H1 & H2).
        exists b, out'. do 2 (split; [done|]).
        assert (take (3 - k) (byte_written out (3 - Z.of_nat (S k)) d) = take (3 - S k) out ++ [d]) as Etk.
        { pose proof (take_written out (3 - Z.of_nat (S k)) d ltac:(unfold zlen; lia) ltac:(lia)) as E.
          replace (Z.to_nat (3 - Z.of_nat (S k) + 1)) with (3 - k)%nat in E by lia.
          by replace (Z.to_nat (3 - Z.of_nat (S k))) with (3 - S k)%nat in E by lia. }
        rewrite Etk in *. split.
        -- intros Hb'. destruct (H1 Hb') as (vs & Hv & ->). exists (d :: vs). rewrite <- app_assoc. split; [|done].
           apply octets_more; eauto 6.
        -- intros vs (v & vs' & Hv & Hvs & ->)%octets_more; [|done]. apply number_read_iff in Hv. simplify_eq.
           destruct (H2 _ Hvs) as [? ->]. by rewrite <- app_assoc.
      * exists false, out. do 2 (split; [done|]). split; [done|]. intros vs Hv.
        apply octets_more in Hv as (v & vs' & Hv%number_read_iff & _); [congruence|done].
    + exists false, out. do 2 (split; [done|]). split; [done|]. intros vs Hv. destruct Hb.
      apply octets_dots in Hv. rewrite to_dot_app, zlen_app in Hv by done. split; [|lia]. intros ->.
      exfalso. pose proof (proj1 Hv eq_refl). lia.
Qed.

(** ** Printed addresses *)
Lemma octet_print b : is_byte b -> octet (fmt_u b) b.
Proof.
  unfold is_byte. intros Hb. destruct (fmt_u_ok b ltac:(lia)) as (Hd & Hv & Hl).
  pose proof (print_base_len 10 b 2 ltac:(lia) ltac:(cbn; lia)). unfold octet, zlen. split_and!; done || lia.
Qed.
Lemma ipv4_text_print a : bytes_ok a -> length a = 4%nat -> ipv4_text (dotted a) a.
Proof.
  intros Ha Hl. exists (map fmt_u a). split_and!; [done| |done]. clear Hl.
  induction Ha; constructor; auto using octet_print.
Qed.

Lemma zlen_join sep ts m :
  Forall (fun t => zlen t <= m) ts -> ts <> [] -> zlen (join sep ts) <= (m + 1) * zlen ts - 1.
Proof.
  intros Hf. induction Hf as [|t ts Ht Hf IH]; [done|]. intros _. rewrite join_cons, zlen_app, zlen_cons.
  case_decide; subst; [change (zlen (@nil Z)) with 0; change (zlen (@nil (list Z))) with 0; lia|].
  rewrite zlen_cons. specialize (IH ltac:(done)). lia.
Qed.
Lemma zlen_dotted a : bytes_ok a -> length a = 4%nat -> zlen (dotted a) <= 15.
Proof.
  intros Ha Hl. unfold dotted. eapply Z.le_trans; [apply (zlen_join _ _ 3)|unfold zlen; rewrite length_map; lia].
  - apply Forall_map. eapply list.Forall_impl; [exact Ha|]. intros b Hb. destruct (octet_print b Hb) as (_ & ? & _). cbn beta. lia.
  - destruct a; [done|]. done.
Qed.

(** Texts without a character. *)
Lemma clean_join sep c ts : c <> sep -> Forall (clean c) ts -> clean c (join sep ts).
Proof.
  intros Hc Hf. induction Hf as [|t ts Ht _ IH]; [apply not_elem_of_nil|]. rewrite join_cons.
  intros [H|H]%elem_of_app; [by apply Ht|]. case_decide; [by apply not_elem_of_nil in H|].
  apply elem_of_cons in H as [?|?]; [done|]. by apply IH.
Qed.
Lemma clean_dotted c a : c <> CH_DOT -> is_digit decode_decimal_digit c = false -> bytes_ok a -> clean c (dotted a).
Proof.
  intros Hc Hd Ha. apply clean_join; [done|]. apply Forall_map. eapply list.Forall_impl; [exact Ha|].
  intros b Hb. destruct (octet_print b Hb) as (? & _). by apply dec_digits_clean.
Qed.
Lemma find_char_app i t c r : clean c t -> find_char_from i (t ++ c :: r) c = Some (i + zlen t).
Proof.
  revert i. induction t as [|x t IH]; intros i H; [cbn; rewrite Z.eqb_refl; f_equal; change (zlen (@nil Z)) with 0; lia|].
  apply not_elem_of_cons in H as [? ?]. cbn [app find_char_from]. rewrite (proj2 (Z.eqb_neq x c)) by done.
  rewrite IH by done. rewrite zlen_cons. f_equal. lia.
Qed.

(** A text printed at the start of a buffer is the C string there. *)
Lemma sprintf_start mem text :
  zlen text < zlen mem -> Forall (fun c => c <> 0) text ->
  exists mem', sprintf mem 0 text = Some (mem', zlen text) /\ cstr mem' = Some text /\ zlen mem' = zlen mem.
Proof.
  intros Hm Hz. unfold sprintf. pose proof (zlen_nonneg text). bool_true. eexists. split; [done|]. split.
  - unfold splice. cbn [Z.to_nat take]. rewrite app_nil_l, <- app_assoc. by apply cstr_app.
  - apply zlen_splice; [lia|]. rewrite zlen_app. change (zlen [0]) with 1. lia.
Qed.
Lemma no_nul_clean t : Forall (fun c => c <> 0) t <-> clean 0 t.
Proof.
  unfold clean. rewrite list.Forall_forall. split; [intros H Hin; by apply (H 0)|]. intros H c Hc ->. done.
Qed.

Lemma ipv4_parse_exact name out :
  length out = 4%nat ->
  exists r out', ipaddr_parse_ipv4_addr name out = Some (r, out') /\ length out' = 4%nat /\
    forall a, (r = true /\ out' = a) <-> ipv4_text name a.
Proof.
  intros Ho. destruct (parse_ipv4_loop_ok 3 name out ltac:(lia) Ho) as (r & out' & H & Hl & H1 & H2).
  exists r, out'. split; [exact H|]. split; [done|]. intros a. split.
  - intros [Hr <-]. destruct (H1 Hr) as (vs & Hv & ->). exact Hv.
  - intros Ha. destruct (H2 a Ha) as [-> ->]. done.
Qed.
Lemma ipv4_parse_complete name out a :
  length out = 4%nat -> ipv4_text name a -> ipaddr_parse_ipv4_addr name out = Some (true, a).
Proof.
  intros Ho Ha. destruct (ipv4_parse_exact name out Ho) as (r & out' & -> & _ & H). by destruct (proj2 (H a) Ha) as [-> ->].
Qed.
Lemma parse_prefix_print p max : 0 <= p <= max -> max <= 255 ->
  parse_unsigned_integer (fmt_u p) = Some p.
Proof. intros. pose proof (octet_print p ltac:(unfold is_byte; lia)) as Ho%octet_parse. apply Ho. Qed.

(** Parsing an IPv4 address reads and writes nothing outside the text and the four bytes of
    the result, whatever the text, and succeeds with address [a] exactly when the text is four
    decimal numbers of one to three digits and at most 255, separated by dots, which are the
    bytes of [a]. *)
Theorem ipv4_parse_correct name out :
  length out = 4%nat ->
  exists r out', ipaddr_parse_ipv4_addr name out = Some (r, out') /\ length out' = 4%nat /\
    forall a, (r = true /\ out' = a) <-> ipv4_text name a.
Proof. apply ipv4_parse_exact. Qed.

(** "10.0.2.255" and "10.0.2" *)
Lemma ipv4_parse_correct_witness :
  (exists r out', ipaddr_parse_ipv4_addr [49; 48; 46; 48; 46; 50; 46; 50; 53; 53] [9; 9; 9; 9] = Some (r, out') /\
    length out' = 4%nat /\
    forall a, (r = true /\ out' = a) <-> ipv4_text [49; 48; 46; 48; 46; 50; 46; 50; 53; 53] a) /\
  ipaddr_parse_ipv4_addr [49; 48; 46; 48; 46; 50; 46; 50; 53; 53] [9; 9; 9; 9] = Some (true, [10; 0; 2; 255]) /\
  ipaddr_parse_ipv4_addr [49; 48; 46; 48; 46; 50] [9; 9; 9; 9] = Some (false, [10; 0; 9; 9]).
Proof. split; [apply ipv4_parse_correct; reflexivity|]. split; vm_compute; reflexivity. Defined.

(** An IPv4 address, and one with a prefix length, is printed inside a buffer of
    [IPADDR_PRINT_MAX] bytes as a C string, and parsing that string gives the same address and
    prefix, whatever the result objects held. *)
Theorem ipv4_print_roundtrip addr prefix out a0 p0 :
  0 <= addr < 2 ^ 32 -> 0 <= prefix <= 32 -> zlen out = IPADDR_PRINT_MAX -> length a0 = 4%nat ->
  (exists mem text, ipaddr_print_addr addr out = Some mem /\ zlen mem = IPADDR_PRINT_MAX /\
     cstr mem = Some text /\ ipaddr_parse_ipv4_addr text a0 = Some (true, host32 addr)) /\
  (exists mem text, ipaddr_print_ifaddr {| if_addr := addr; if_prefix := prefix |} out = Some mem /\
     zlen mem = IPADDR_PRINT_MAX /\ cstr mem = Some text /\
     ipaddr_parse_ipv4_ifaddr text a0 p0 = Some (true, (host32 addr, prefix))).
Proof.
  intros Haddr Hp Hout Ha0. unfold IPADDR_PRINT_MAX in *.
  set (b := host32 addr). assert (bytes_ok b) as Hb by apply le_digits_bytes. assert (length b = 4%nat) as Hl by done.
  pose proof (zlen_dotted b Hb Hl). pose proof (clean_dotted 0 b ltac:(done) ltac:(done) Hb) as Hz.
  pose proof (clean_dotted CH_SLASH b ltac:(done) ltac:(done) Hb) as Hs.
  pose proof (octet_print prefix ltac:(unfold is_byte; lia)) as Hpr.
  pose proof (print_base_len 10 prefix 1 ltac:(lia) ltac:(cbn; lia)) as Hpl. split.
  - destruct (sprintf_start out (dotted b)) as (mem & E & Ec & El); [lia|by apply no_nul_clean|].
    exists mem, (dotted b). unfold ipaddr_print_addr. fold b. rewrite E. split_and!; [done|lia|done|].
    by apply ipv4_parse_complete, ipv4_text_print.
  - set (text := dotted b ++ CH_SLASH :: fmt_u prefix).
    destruct (sprintf_start out text) as (mem & E & Ec & El).
    { unfold text. rewrite zlen_app, zlen_cons. unfold zlen in *. lia. }
    { apply no_nul_clean. unfold clean, text. rewrite not_elem_of_app, not_elem_of_cons. split_and!; [done|done|].
      apply (dec_digits_clean 0); [done|apply Hpr]. }
    exists mem, text. unfold ipaddr_print_ifaddr. cbn [if_addr if_prefix]. fold b. fold text. repeat bool_true. rewrite E.
    split_and!; [done|lia|done|]. unfold ipaddr_parse_ipv4_ifaddr, MemRef_FindChar, text.
    rewrite find_char_app by done. rewrite Z.add_0_l. unfold MemRef_SubTo, MemRef_SubFrom. pose proof (zlen_nonneg (dotted b)).
    rewrite zlen_app, zlen_cons. pose proof (zlen_nonneg (fmt_u prefix)). repeat bool_true.
    cbn [mbind option_bind]. rewrite (take_app_length' (dotted b)) by (unfold zlen; lia).
    rewrite (ipv4_parse_complete _ _ b) by auto using ipv4_text_print.
    rewrite drop_app_ge by (unfold zlen; lia).
    replace (Z.to_nat (zlen (dotted b) + 1) - length (dotted b))%nat with 1%nat by (unfold zlen; lia). cbn [app drop].
    unfold ipaddr_parse_ipv4_prefix.
    change (drop 0 (fmt_u prefix)) with (fmt_u prefix). rewrite (parse_prefix_print _ 32) by lia. by bool_false.
Qed.

(** 192.168.1.7/24 *)
Lemma ipv4_print_roundtrip_witness :
  exists mem, ipaddr_print_ifaddr {| if_addr := 117549248; if_prefix := 24 |} (replicate 19 7) = Some mem /\
    exists text, cstr mem = Some text /\
      ipaddr_parse_ipv4_ifaddr text [0; 0; 0; 0] 0 = Some (true, ([192; 168; 1; 7], 24)).
Proof.
  destruct (ipv4_print_roundtrip 117549248 24 (replicate 19 7) [0; 0; 0; 0] 0) as [_ (mem & text & H1 & _ & H2 & H3)];
    [lia|lia|reflexivity|reflexivity|]. exists mem. split; [exact H1|]. exists text. split; [exact H2|exact H3].
Defined.

(** ** Masks *)
Definition mask_value (w p : Z) : Z := 2 ^ w - 2 ^ (w - p).

Lemma in_range_list lo n x : lo <= x < lo + Z.of_nat n -> In x (map (fun k => lo + Z.of_nat k) (seq 0 n)).
Proof. intros. apply in_map_iff. exists (Z.to_nat (x - lo)). split; [lia|]. apply in_seq. lia. Qed.
(** A test on a range of numbers, by evaluation. *)
Lemma range_ind (P : Z -> bool) lo n :
  forallb P (map (fun k => lo + Z.of_nat k) (seq 0 n)) = true -> forall x, lo <= x < lo + Z.of_nat n -> P x = true.
Proof. intros H x Hx. rewrite forallb_forall in H. by apply H, in_range_list. Qed.

Lemma mask_loop_value p : 0 <= p <= 32 -> mask_loop (Z.to_nat p) 0 0 = mask_value 32 p.
Proof.
  intros. apply Z.eqb_eq. apply (range_ind (fun p => mask_loop (Z.to_nat p) 0 0 =? mask_value 32 p) 0 33); [|lia].
  vm_compute. reflexivity.
Qed.
Lemma mask_value_succ i : 0 <= i < 32 -> Z.lor (mask_value 32 i) (mask_bit i) = mask_value 32 (i + 1).
Proof.
  intros. apply Z.eqb_eq.
  apply (range_ind (fun i => Z.lor (mask_value 32 i) (mask_bit i) =? mask_value 32 (i + 1)) 0 32); [|lia].
  vm_compute. reflexivity.
Qed.
Lemma mask_value_range w p : 0 <= p <= w -> 0 <= mask_value w p < 2 ^ w.
Proof.
  intros. unfold mask_value. pose proof (Z.pow_pos_nonneg 2 (w - p) ltac:(lia) ltac:(lia)).
  pose proof (Z.pow_le_mono_r 2 (w - p) w ltac:(lia) ltac:(lia)). lia.
Qed.
Lemma mask_value_inj w p q : 0 <= p <= w -> 0 <= q <= w -> mask_value w p = mask_value w q -> p = q.
Proof. unfold mask_value. intros ?? H. assert (w - p = w - q); [|lia]. apply (Z.pow_inj_r 2); lia. Qed.

Lemma ipv4_mask_eq p : 0 <= p <= 32 -> ipaddr_ipv4_mask_from_prefix p = Some (hton32 (mask_value 32 p)).
Proof. intros. unfold ipaddr_ipv4_mask_from_prefix. repeat bool_true. by rewrite mask_loop_value. Qed.

Lemma prefix_loop_ok n m i :
  0 <= i -> i + Z.of_nat n = 33 -> (forall j, 0 <= j < i -> ntoh32 m <> mask_value 32 j) ->
  let r := prefix_loop n m i (mask_value 32 (Z.min i 32)) in
  0 <= r <= 33 /\ (r <= 32 -> ntoh32 m = mask_value 32 r) /\ (forall j, 0 <= j < r -> ntoh32 m <> mask_value 32 j).
Proof.
  revert i. induction n as [|n IH]; intros i Hi Hn Hj; cbn [prefix_loop]; [split_and!; [lia|lia|lia|done]|].
  rewrite Z.min_l by lia. case_if; [split_and!; [lia|lia|done|done]|].
  assert ((if i <? 32 then Z.lor (mask_value 32 i) (mask_bit i) else mask_value 32 i) = mask_value 32 (Z.min (i + 1) 32)) as ->.
  { case_if; [rewrite mask_value_succ by lia|]; f_equal; lia. }
  apply IH; [lia|lia|]. intros j ?. destruct (Z.eq_dec j i) as [->|]; [done|]. apply Hj. lia.
Qed.

Lemma ntoh32_eq m v : 0 <= m < 2 ^ 32 -> 0 <= v < 2 ^ 32 -> ntoh32 m = v <-> m = hton32 v.
Proof.
  intros Hm Hv. unfold ntoh32. split; [intros <-|intros ->]; rewrite hton32_invol, uwrap_small; done.
Qed.

Lemma ipv4_prefix_iff m p : 0 <= m < 2 ^ 32 ->
  ipaddr_ipv4_prefix_from_mask m = Some p <-> 0 <= p <= 32 /\ ipaddr_ipv4_mask_from_prefix p = Some m.
Proof.
  intros Hm. unfold ipaddr_ipv4_prefix_from_mask.
  destruct (prefix_loop_ok 33 m 0 ltac:(lia) ltac:(lia) ltac:(lia)) as (Hr & H1 & H2).
  change (mask_value 32 (Z.min 0 32)) with 0 in *. set (r := prefix_loop 33 m 0 0) in *. split.
  - case_if; [|done]. intros [= <-]. split; [lia|]. rewrite ipv4_mask_eq by lia. f_equal. symmetry.
    apply ntoh32_eq; [done|apply mask_value_range; lia|auto].
  - intros [Hp E]. rewrite ipv4_mask_eq in E by done. injection E as E. symmetry in E.
    apply ntoh32_eq in E; [|done|by apply mask_value_range].
    assert (r <= p) by (destruct (Z.le_gt_cases r p); [done|]; exfalso; by apply (H2 p); [lia|]).
    bool_true. f_equal. apply (mask_value_inj 32); [lia|lia|]. rewrite <- E. symmetry. apply H1. lia.
Qed.

(** ** Leading bits *)
Lemma be_val_cons b l : be_val (b :: l) = b * 256 ^ zlen l + be_val l.
Proof.
  unfold be_val. cbn [rev]. rewrite le_val_app. unfold zlen. rewrite length_rev. cbn. lia.
Qed.
Lemma be_val_range l : bytes_ok l -> 0 <= be_val l < 256 ^ zlen l.
Proof. intros. unfold be_val. pose proof (le_val_range (rev l) (bytes_ok_rev _ H)). unfold zlen in *. by rewrite length_rev in *. Qed.

(** Eight leading bits or more: the first byte, and the bits of the others. *)
Lemma leading_bits_byte p b l : is_byte b -> bytes_ok l -> 8 <= p <= 8 + 8 * zlen l ->
  leading_bits p (b :: l) = b * 2 ^ (p - 8) + leading_bits (p - 8) l.
Proof.
  intros Hb Hl Hp. unfold leading_bits. rewrite be_val_cons, zlen_cons.
  replace (8 * (1 + zlen l) - p) with (8 * zlen l - (p - 8)) by lia.
  change 256 with (2 ^ 8). rewrite <- Z.pow_mul_r by (pose proof (zlen_nonneg l); lia).
  replace (8 * zlen l) with ((p - 8) + (8 * zlen l - (p - 8))) at 1 by lia.
  rewrite Z.pow_add_r, Z.mul_assoc, Z.div_add_l by (try apply Z.pow_nonzero; lia). done.
Qed.
(** Fewer than eight leading bits are those of the first byte. *)
Lemma leading_bits_within p b l : is_byte b -> bytes_ok l -> 0 <= p < 8 -> leading_bits p (b :: l) = b / 2 ^ (8 - p).
Proof.
  intros Hb Hl Hp. unfold leading_bits. rewrite be_val_cons, zlen_cons. pose proof (be_val_range l Hl). pose proof (zlen_nonneg l).
  replace (8 * (1 + zlen l) - p) with (8 * zlen l + (8 - p)) by lia. rewrite Z.pow_add_r by lia.
  change 256 with (2 ^ 8) in *. rewrite <- Z.pow_mul_r in * by lia.
  assert (0 < 2 ^ (8 * zlen l) /\ 0 < 2 ^ (8 - p)) as [? ?] by (split; apply Z.pow_pos_nonneg; lia).
  rewrite <- Z.div_div, Z.div_add_l, (Z.div_small (be_val l)), Z.add_0_r by lia. done.
Qed.
Lemma leading_bits_range p l : bytes_ok l -> 0 <= p <= 8 * zlen l -> 0 <= leading_bits p l < 2 ^ p.
Proof.
  intros Hl Hp. unfold leading_bits. pose proof (be_val_range l Hl) as Hr. change 256 with (2 ^ 8) in Hr.
  rewrite <- Z.pow_mul_r in Hr by lia. assert (0 < 2 ^ (8 * zlen l - p)) by (apply Z.pow_pos_nonneg; lia).
  split; [apply Z.div_pos; lia|]. apply Z.div_lt_upper_bound; [lia|]. rewrite <- Z.pow_add_r by lia.
  replace (8 * zlen l - p + p) with (8 * zlen l) by lia. lia.
Qed.
Lemma leading_bits_cons p b c l k : is_byte b -> is_byte c -> bytes_ok l -> bytes_ok k -> zlen l = zlen k ->
  8 <= p <= 8 + 8 * zlen l ->
  leading_bits p (b :: l) = leading_bits p (c :: k) <-> b = c /\ leading_bits (p - 8) l = leading_bits (p - 8) k.
Proof.
  intros Hb Hc Hl Hk E Hp. rewrite !leading_bits_byte by (done || lia).
  pose proof (leading_bits_range (p - 8) l Hl ltac:(lia)). pose proof (leading_bits_range (p - 8) k Hk ltac:(lia)).
  split; [|by intros [-> ->]]. intros H1. assert (b = c) as -> by nia. split; [done|lia].
Qed.

(** Masked bytes agree when the bits under the mask do. *)
Lemma land_high w q x : 0 <= q <= w -> 0 <= x < 2 ^ w -> Z.land x (2 ^ w - 2 ^ q) = x / 2 ^ q * 2 ^ q.
Proof.
  intros Hq Hx. replace (2 ^ w - 2 ^ q) with (Z.ones (w - q) * 2 ^ q).
  2: { rewrite Z.ones_equiv. replace w with (w - q + q) at 2 by lia. rewrite Z.pow_add_r by lia. lia. }
  rewrite <- !Z.shiftl_mul_pow2, <- Z.shiftr_div_pow2 by lia. apply Z.bits_inj'. intros n Hn.
  rewrite Z.land_spec. destruct (Z.lt_ge_cases n q).
  - rewrite !Z.shiftl_spec_low by lia. apply andb_false_r.
  - rewrite !Z.shiftl_spec, Z.shiftr_spec by lia. replace (n - q + q) with n by lia.
    destruct (Z.lt_ge_cases n w); [rewrite Z.ones_spec_low by lia; apply andb_true_r|].
    rewrite Z.ones_spec_high by lia. rewrite andb_false_r. symmetry.
    destruct (Z.eq_dec x 0) as [->|]; [apply Z.bits_0|]. apply Z.bits_above_log2; [lia|].
    apply Z.log2_lt_pow2; [lia|]. apply Z.lt_le_trans with (2 ^ w); [lia|]. apply Z.pow_le_mono_r; lia.
Qed.

(** Masking in network order is masking in host order. *)
Lemma land_range w a b : 0 <= w -> 0 <= a < 2 ^ w -> 0 <= b -> 0 <= Z.land a b < 2 ^ w.
Proof.
  intros Hw Ha Hb. split; [apply Z.land_nonneg; lia|].
  destruct (Z.eq_dec (Z.land a b) 0) as [->|]; [lia|]. pose proof (Z.land_nonneg a b).
  apply Z.log2_lt_pow2; [lia|]. eapply Z.le_lt_trans; [apply Z.log2_land; lia|].
  eapply Z.le_lt_trans; [apply Z.le_min_l|]. destruct (Z.eq_dec a 0) as [->|]; [by rewrite Z.land_0_l in *|].
  apply Z.log2_lt_pow2; lia.
Qed.
Lemma land_bytes b c x y : is_byte b -> is_byte c ->
  Z.land (b + 256 * x) (c + 256 * y) = Z.land b c + 256 * Z.land x y.
Proof.
  intros Hb Hc. unfold is_byte in *. pose proof (land_range 8 b c ltac:(lia) ltac:(lia) ltac:(lia)).
  rewrite !(Z.add_comm _ (256 * _)), !(Z.mul_comm 256). change 256 with (2 ^ 8).
  rewrite <- (lor_disjoint 8 x b), <- (lor_disjoint 8 y c), <- (lor_disjoint 8 (Z.land x y) (Z.land b c)) by lia.
  rewrite <- !Z.shiftl_mul_pow2 by lia. apply Z.bits_inj'. intros n Hn.
  rewrite !Z.land_spec, !Z.lor_spec, !Z.land_spec. destruct (Z.lt_ge_cases n 8).
  - by rewrite !Z.shiftl_spec_low by lia.
  - rewrite !Z.shiftl_spec, Z.land_spec by lia.
    assert (forall v, 0 <= v < 2 ^ 8 -> Z.testbit v n = false) as Hv.
    { intros v Hv. destruct (Z.eq_dec v 0) as [->|]; [apply Z.bits_0|]. apply Z.bits_above_log2; [lia|].
      assert (Z.log2 v < 8); [|lia]. apply Z.log2_lt_pow2; lia. }
    rewrite !(Hv b), !(Hv c) by lia. cbn. by rewrite !orb_false_r.
Qed.
Lemma le_val_land l k : bytes_ok l -> bytes_ok k -> length l = length k ->
  Z.land (le_val l) (le_val k) = le_val (zip_with Z.land l k).
Proof.
  intros Hl. revert k. induction Hl as [|b l Hb _ IH]; intros [|c k] Hk E; try done. inversion_clear Hk.
  cbn [le_val zip_with]. rewrite land_bytes, IH by (done || (cbn in E; lia)). done.
Qed.
Lemma zip_with_bytes l k : bytes_ok l -> bytes_ok k -> bytes_ok (zip_with Z.land l k).
Proof.
  intros Hl. revert k. induction Hl as [|b l Hb _ IH]; intros k Hk; destruct Hk as [|c k Hc Hk]; try constructor; [|by apply IH].
  unfold is_byte in *. apply (land_range 8); lia.
Qed.
Lemma ntoh32_land a m : ntoh32 (Z.land (u32 a) (hton32 m)) = Z.land (ntoh32 a) (u32 m).
Proof.
  assert (forall x, u32 x = le_val (host32 x)) as Hu by (intros; symmetry; apply le_val_digits).
  unfold ntoh32, hton32, badvpn_reverse32. rewrite !Hu.
  pose proof (le_digits_bytes 4 a) as Ha. pose proof (le_digits_bytes 4 m) as Hm. unfold host32.
  rewrite le_val_land by (done || (by apply bytes_ok_rev)).
  assert (forall l, bytes_ok l -> length l = 4%nat -> le_digits 4 (le_val l) = l) as Hd.
  { intros l Hl El. rewrite <- El. by apply le_digits_val. }
  rewrite Hd, le_val_land; [done|by apply bytes_ok_rev|done|done|apply zip_with_bytes; auto using bytes_ok_rev|done].
Qed.
Lemma ipv4_in_network_iff a1 a2 p : 0 <= a1 < 2 ^ 32 -> 0 <= a2 < 2 ^ 32 -> 0 <= p <= 32 ->
  ipaddr_ipv4_addrs_in_network a1 a2 p = Some (leading_bits p (host32 a1) =? leading_bits p (host32 a2)).
Proof.
  intros H1 H2 Hp. unfold ipaddr_ipv4_addrs_in_network. repeat bool_true. rewrite ipv4_mask_eq by done. cbn [mbind option_bind]. f_equal.
  pose proof (mask_value_range 32 p Hp) as Hm.
  assert (forall a, 0 <= a < 2 ^ 32 -> 0 <= Z.land a (hton32 (mask_value 32 p)) < 2 ^ 32 /\
    ntoh32 (Z.land a (hton32 (mask_value 32 p))) = leading_bits p (host32 a) * 2 ^ (32 - p)) as Hv.
  { intros a Ha. split; [apply land_range; [lia|lia|]|].
    { unfold hton32. apply le_val_range, rev_digits_bytes. }
    pose proof (ntoh32_land a (mask_value 32 p)) as E. rewrite !uwrap_small in E by done. rewrite E.
    unfold mask_value. rewrite land_high; [reflexivity|lia|]. pose proof (le_val_range _ (rev_digits_bytes 4 a)) as Hr.
    unfold zlen in Hr. rewrite length_rev, le_digits_length in Hr. exact Hr. }
  destruct (Hv a1 H1) as [R1 E1], (Hv a2 H2) as [R2 E2]. pose proof (Z.pow_pos_nonneg 2 (32 - p) ltac:(lia) ltac:(lia)).
  destruct (Z.eqb_spec (leading_bits p (host32 a1)) (leading_bits p (host32 a2))) as [E|E]; [apply Z.eqb_eq|apply Z.eqb_neq].
  - rewrite E, <- E2 in E1. apply (f_equal hton32) in E1. unfold ntoh32 in E1.
    rewrite !hton32_invol, !uwrap_small in E1; done.
  - intros E0. apply E. rewrite E0 in E1. nia.
Qed.
