(* ===== verification/IpAddr6.v ===== *)
(** * IPv6 addresses as text, masks and prefixes (misc/ipaddr6.h)

    An address is the list of its sixteen bytes.  The parser is a loop over the characters that
    stores a group of two bytes at every colon, with an excursion for an IPv4 address at the end;
    the model keeps its local variables in a record, walks the text with the same cursor, and
    fails, as everywhere, on an access outside the text, the address or the array of the four
    bytes.  The grammar it recognises is [ipv6_text]; the printed form of every address belongs to
    it. *)

From S2P Require Import Prelude ByteOrder ParseNumber IpAddr.
Import Text.

(** ** Reference definitions *)

(** A group: a hexadecimal number of 16 bits, with any number of leading zeros. *)
Definition hex_group (t : list Z) (bs : list Z) : Prop :=
  forallb (is_digit decode_hex_digit) t = true /\ t <> [] /\
  exists v, value_from decode_hex_digit 16 0 t = v /\ v <= UINT16_MAX /\ bs = [v / 256; v mod 256].

(** A decimal number without leading zeros that is a byte. *)
Definition strict_octet (t : list Z) (v : Z) : Prop :=
  forallb (is_digit decode_decimal_digit) t = true /\ t <> [] /\ (head t = Some CH_0 -> t = [CH_0]) /\
  v = value_from decode_decimal_digit 10 0 t /\ v <= 255.
Definition quad (t : list Z) (bs : list Z) : Prop :=
  exists ts, t = join CH_DOT ts /\ Forall2 strict_octet ts bs /\ length bs = 4%nat.

(** Groups, and groups of which the last may be an IPv4 address. *)
Definition groups (ts : list (list Z)) (bs : list Z) : Prop :=
  exists bss, Forall2 hex_group ts bss /\ bs = concat bss.
Definition end_groups (ts : list (list Z)) (bs : list Z) : Prop :=
  groups ts bs \/ exists ts' t bs' qs, ts = ts' ++ [t] /\ bs = bs' ++ qs /\ groups ts' bs' /\ quad t qs.

(** The text of an address: eight groups, or two sequences of groups around a double colon, which
    stands for the zeros missing to sixteen bytes.  At most seven groups come before it. *)
Inductive ipv6_text : list Z -> list Z -> Prop :=
| text_full ts bs :
    end_groups ts bs -> length bs = 16%nat -> ipv6_text (join CH_COLON ts) bs
| text_compressed fs fb rs rb :
    groups fs fb -> end_groups rs rb -> (length fb <= 14)%nat -> (length fb + length rb <= 16)%nat ->
    ipv6_text (join CH_COLON fs ++ CH_COLON :: CH_COLON :: join CH_COLON rs)
      (fb ++ replicate (16 - length fb - length rb) 0 ++ rb).

(** ** The parser *)
Definition UINT8_MAX : Z := 255.
Definition IPADDR6_PRINT_MAX : Z := 44.
Record ipv6_ifaddr := { if6_addr : list Z; if6_prefix : Z }.

Record parser := {
  num_blocks : Z;
  compress_pos : Z;
  block : Z;
  empty : bool;
  pos : Z; (* i *)
  addr : list Z; (* out_addr->bytes *)
}.

(** The loops end by [return 0], at the end of the text, or at the first dot. *)
Inductive outcome := Return0 (a : list Z) | AtEnd (s : parser) | AtDot (s : parser).

(** The two bytes of the block at the index of the next group. *)
Definition store_block (s : parser) : option (list Z) :=
  let p := 2 * num_blocks s in
  ASSERT (0 <=? p) && (p + 2 <=? zlen (addr s));
  Some (splice (addr s) p [u8 (Z.shiftr (block s) 8); u8 (Z.land (block s) 255)]).

Definition at_colon (is_double : bool) (s : parser) : option (parser + list Z) :=
  s ← (if 0 <? pos s then
         if empty s || (num_blocks s =? 7) then Some (inr (addr s))
         else
           a ← store_block s;
           Some (inl {| num_blocks := num_blocks s + 1; compress_pos := compress_pos s; block := 0;
                        empty := true; pos := pos s; addr := a |})
       else if negb is_double then Some (inr (addr s))
       else Some (inl s));
  match s with
  | inr a => Some (inr a)
  | inl s =>
      let next cp := {| num_blocks := num_blocks s; compress_pos := cp; block := block s; empty := empty s;
                        pos := pos s + 1 + (if is_double then 1 else 0); addr := addr s |} in
      if is_double then
        if negb (compress_pos s =? -1) then Some (inr (addr s))
        else Some (inl (next (num_blocks s)))
      else Some (inl (next (compress_pos s)))
  end.

Definition at_digit (c : Z) (s : parser) : parser + list Z :=
  let digit := decode_hex_digit c in
  if digit <? 0 then inr (addr s)
  else if UINT16_MAX / 16 <? block s then inr (addr s)
  else
    let b := u16 (block s * 16) in
    if UINT16_MAX - b <? digit then inr (addr s)
    else inl {| num_blocks := num_blocks s; compress_pos := compress_pos s; block := u16 (b + digit);
                empty := false; pos := pos s + 1; addr := addr s |}.

(** [rest] is the text from the cursor [pos] on. *)
Fixpoint blocks_loop (rest : list Z) (s : parser) : option outcome :=
  match rest with
  | [] => Some (AtEnd s)
  | c :: rest1 =>
      if c =? CH_DOT then Some (AtDot s)
      else if c =? CH_COLON then
        match rest1 with
        | c2 :: rest2 =>
            let is_double := c2 =? CH_COLON in
            r ← at_colon is_double s;
            match r with
            | inr a => Some (Return0 a)
            | inl s => if is_double then blocks_loop rest2 s else blocks_loop rest1 s
            end
        | [] =>
            r ← at_colon false s;
            match r with
            | inr a => Some (Return0 a)
            | inl s => Some (AtEnd s)
            end
        end
      else
        match at_digit c s with
        | inr a => Some (Return0 a)
        | inl s => blocks_loop rest1 s
        end
  end.

(** [ipv4_done]: the groups behind the double colon move to the end, zeros fill the gap. *)
Definition ipv4_done (num_blocks compress_pos : Z) (a : list Z) : option (bool * list Z) :=
  if (compress_pos =? -1) && negb (num_blocks =? 8) then Some (false, a)
  else
    let compress_pos := if compress_pos =? -1 then 0 else compress_pos in
    let num_rear := num_blocks - compress_pos in
    let n := 2 * num_rear in
    let dst := 2 * (8 - num_rear) in
    let src := 2 * compress_pos in
    ASSERT (0 <=? n) && (0 <=? dst) && (dst + n <=? zlen a) && (0 <=? src) && (src + n <=? zlen a);
    let a := splice a dst (sub a src n) in
    let gap := 2 * (8 - num_rear - compress_pos) in
    ASSERT (0 <=? gap) && (src + gap <=? zlen a);
    Some (true, splice a src (replicate (Z.to_nat gap) 0)).

(** [while (name.ptr[i - 1] != ':') i--] *)
Fixpoint back_to_colon (name : list Z) (i : nat) : option Z :=
  match i with
  | O => None
  | S i' =>
      c ← name !! i';
      if c =? CH_COLON then Some (Z.of_nat i) else back_to_colon name i'
  end.

Record octets_parser := {
  bytes : list (option Z); (* an uninitialised array of four bytes *)
  cur_byte : Z;
  byte : Z;
  o_empty : bool;
}.

Definition octets_step (c : Z) (q : octets_parser) : option (option octets_parser) :=
  if c =? CH_DOT then
    if o_empty q || (cur_byte q =? 3) then Some None
    else
      ASSERT (0 <=? cur_byte q) && (cur_byte q <? zlen (bytes q));
      Some (Some {| bytes := <[Z.to_nat (cur_byte q) := Some (byte q)]> (bytes q);
                    cur_byte := cur_byte q + 1; byte := 0; o_empty := true |})
  else if negb (o_empty q) && (byte q =? 0) then Some None
  else
    let digit := decode_decimal_digit c in
    if digit <? 0 then Some None
    else if UINT8_MAX / 10 <? byte q then Some None
    else
      let b := u8 (byte q * 10) in
      if UINT8_MAX - b <? digit then Some None
      else Some (Some {| bytes := bytes q; cur_byte := cur_byte q; byte := u8 (b + digit); o_empty := false |}).

Fixpoint octets_loop (rest : list Z) (q : octets_parser) : option (option octets_parser) :=
  match rest with
  | [] => Some (Some q)
  | c :: rest =>
      r ← octets_step c q;
      match r with
      | None => Some None
      | Some q => octets_loop rest q
      end
  end.

Definition ipv4_ending (name : list Z) (s : parser) : option (bool * list Z) :=
  if empty s || ((num_blocks s =? 0) && (compress_pos s =? -1)) then Some (false, addr s)
  else
    i ← back_to_colon name (Z.to_nat (pos s));
    r ← octets_loop (drop (Z.to_nat i) name)
          {| bytes := [None; None; None; None]; cur_byte := 0; byte := 0; o_empty := true |};
    match r with
    | None => Some (false, addr s)
    | Some q =>
        if negb (cur_byte q =? 3) || o_empty q then Some (false, addr s)
        else
          ASSERT cur_byte q <? zlen (bytes q);
          let bytes := <[Z.to_nat (cur_byte q) := Some (byte q)]> (bytes q) in
          if 8 - num_blocks s <? 2 then Some (false, addr s)
          else
            bs ← mapM id bytes;
            ASSERT (0 <=? num_blocks s) && (2 * num_blocks s + 4 <=? zlen (addr s));
            ipv4_done (num_blocks s + 2) (compress_pos s) (splice (addr s) (2 * num_blocks s) bs)
    end.

Definition ipaddr6_parse_ipv6_addr (name out : list Z) : option (bool * list Z) :=
  r ← blocks_loop name
        {| num_blocks := 0; compress_pos := -1; block := 0; empty := true; pos := 0; addr := out |};
  match r with
  | Return0 a => Some (false, a)
  | AtDot s => ipv4_ending name s
  | AtEnd s =>
      if negb (empty s) then
        a ← store_block s;
        ipv4_done (num_blocks s + 1) (compress_pos s) a
      else if negb (num_blocks s =? compress_pos s) then Some (false, addr s)
      else ipv4_done (num_blocks s) (compress_pos s) (addr s)
  end.

Definition ipaddr6_parse_ipv6_prefix (str : list Z) : option Z :=
  match parse_unsigned_integer str with
  | None => None
  | Some d => if 128 <? d then None else Some d
  end.

Definition ipaddr6_parse_ipv6_ifaddr (str addr : list Z) (prefix : Z) : option (bool * (list Z * Z)) :=
  match MemRef_FindChar str CH_SLASH with
  | None => Some (false, (addr, prefix))
  | Some slash_pos =>
      s1 ← MemRef_SubTo str slash_pos;
      '(ok, addr) ← ipaddr6_parse_ipv6_addr s1 addr;
      if (ok : bool) then
        s2 ← MemRef_SubFrom str (slash_pos + 1);
        match ipaddr6_parse_ipv6_prefix s2 with
        | None => Some (false, (addr, prefix))
        | Some p => Some (true, (addr, p))
        end
      else Some (false, (addr, prefix))
  end.

(** ** Masks and networks *)

(** [(uint8_t)1 << (8 - i - 1)], or-ed into a byte. *)
Fixpoint or_bits (n : nat) (i t : Z) : Z :=
  match n with
  | O => t
  | S n => or_bits n (i + 1) (u8 (Z.lor t (Z.shiftl 1 (8 - i - 1))))
  end.

Definition memset (mem : list Z) (o c n : Z) : option (list Z) :=
  ASSERT (0 <=? o) && (0 <=? n) && (o + n <=? zlen mem);
  Some (splice mem o (replicate (Z.to_nat n) c)).

(** The loop over [bytes[quot]] makes no round for [rem = 0], where [quot] may be 16. *)
Definition ipaddr6_ipv6_mask_from_prefix (prefix : Z) (out_mask : list Z) : option (list Z) :=
  ASSERT 0 <=? prefix; ASSERT prefix <=? 128;
  let quot := prefix / 8 in
  let rem := prefix mod 8 in
  m ← (if 0 <? quot then memset out_mask 0 UINT8_MAX quot else Some out_mask);
  m ← (if 0 <? 16 - quot then memset m quot 0 (16 - quot) else Some m);
  if rem =? 0 then Some m
  else
    b ← m !! Z.to_nat quot;
    Some (<[Z.to_nat quot := or_bits (Z.to_nat rem) 0 b]> m).

(** The first loop, on the bytes from [i] on: what is left, and the prefix so far. *)
Fixpoint full_bytes (mask : list Z) (prefix : Z) : list Z * Z :=
  match mask with
  | b :: rest => if b =? UINT8_MAX then full_bytes rest (prefix + 8) else (mask, prefix)
  | [] => ([], prefix)
  end.
Fixpoint byte_prefix_loop (n : nat) (b j t : Z) : Z :=
  match n with
  | O => j
  | S n =>
      if b =? t then j
      else byte_prefix_loop n b (j + 1) (if j <? 8 then u8 (Z.lor t (Z.shiftl 1 (8 - j - 1))) else t)
  end.
Definition ipaddr6_ipv6_prefix_from_mask (mask : list Z) : option Z :=
  match full_bytes mask 0 with
  | ([], prefix) => Some prefix
  | (b :: rest, prefix) =>
      let j := byte_prefix_loop 9 b 0 0 in
      if negb (j <=? 8) then None
      else if forallb (fun b => b =? 0) rest then Some (prefix + j) else None
  end.

Definition ipaddr6_ipv6_ifaddr_from_addr_mask (addr mask : list Z) : option ipv6_ifaddr :=
  match ipaddr6_ipv6_prefix_from_mask mask with
  | None => None
  | Some prefix => Some {| if6_addr := addr; if6_prefix := prefix |}
  end.

Definition ipaddr6_ipv6_addrs_in_network (addr1 addr2 : list Z) (netprefix : Z) : option bool :=
  ASSERT 0 <=? netprefix; ASSERT netprefix <=? 128;
  let quot := netprefix / 8 in
  let rem := netprefix mod 8 in
  ASSERT (quot <=? zlen addr1) && (quot <=? zlen addr2);
  if negb (memcmp (take (Z.to_nat quot) addr1) (take (Z.to_nat quot) addr2) =? 0) then Some false
  else if rem =? 0 then Some true
  else
    let t := or_bits (Z.to_nat rem) 0 0 in
    b1 ← addr1 !! Z.to_nat quot;
    b2 ← addr2 !! Z.to_nat quot;
    Some (Z.land b1 t =? Z.land b2 t).

(** ** Printing *)
Definition addr_byte (a : list Z) (i : Z) : option Z := if i <? 0 then None else a !! Z.to_nat i.
Definition addr_block (a : list Z) (i : Z) : option Z :=
  h ← addr_byte a (2 * i); l ← addr_byte a (2 * i + 1); Some (Z.lor (u16 (Z.shiftl h 8)) l).

Record runs := { largest_start : Z; largest_len : Z; current_start : Z; current_len : Z }.
Fixpoint runs_loop (n : nat) (i : Z) (a : list Z) (r : runs) : option runs :=
  match n with
  | O => Some r
  | S n =>
      h ← addr_byte a (2 * i);
      l ← addr_byte a (2 * i + 1);
      runs_loop n (i + 1) a
        (if (h =? 0) && (l =? 0) then
           let current_len := current_len r + 1 in
           if largest_len r <? current_len
           then {| largest_start := current_start r; largest_len := current_len;
                   current_start := current_start r; current_len := current_len |}
           else {| largest_start := largest_start r; largest_len := largest_len r;
                   current_start := current_start r; current_len := current_len |}
         else {| largest_start := largest_start r; largest_len := largest_len r;
                 current_start := i + 1; current_len := 0 |})
  end.

(** [n] blocks from index [i] on, each between [before] and [after]. *)
Fixpoint print_blocks (n : nat) (i : Z) (before after : list Z) (a : list Z) (out : list Z * Z) : option (list Z * Z) :=
  match n with
  | O => Some out
  | S n =>
      b ← addr_block a i;
      out ← sprintf out.1 out.2 (before ++ fmt_x b ++ after);
      print_blocks n (i + 1) before after a out
  end.
(** The same with [prefix], empty before the first block and a colon after it. *)
Fixpoint print_prefixed (n : nat) (i : Z) (prefix : list Z) (a : list Z) (out : list Z * Z) : option (list Z * Z) :=
  match n with
  | O => Some out
  | S n =>
      b ← addr_block a i;
      out ← sprintf out.1 out.2 (prefix ++ fmt_x b);
      print_prefixed n (i + 1) [CH_COLON] a out
  end.

Definition ipaddr6_print_addr (a out_buf : list Z) : option (list Z * Z) :=
  r ← runs_loop 8 0 a {| largest_start := 0; largest_len := 0; current_start := 0; current_len := 0 |};
  let ls := largest_start r in
  let le := largest_start r + largest_len r in
  if 1 <? largest_len r then
    out ← print_blocks (Z.to_nat ls) 0 [] [CH_COLON] a (out_buf, 0);
    out ← (if ls =? 0 then sprintf out.1 out.2 [CH_COLON] else Some out);
    out ← print_blocks (Z.to_nat (8 - le)) le [CH_COLON] [] a out;
    if le =? 8 then sprintf out.1 out.2 [CH_COLON] else Some out
  else print_prefixed 8 0 [] a (out_buf, 0).

(** [sprintf(out_buf + strlen(out_buf), "/%d", addr.prefix)] *)
Definition ipaddr6_print_ifaddr (addr : ipv6_ifaddr) (out_buf : list Z) : option (list Z) :=
  ASSERT 0 <=? if6_prefix addr; ASSERT if6_prefix addr <=? 128;
  out ← ipaddr6_print_addr (if6_addr addr) out_buf;
  text ← cstr out.1;
  out ← sprintf out.1 (zlen text) (CH_SLASH :: fmt_u (if6_prefix addr));
  Some (out.1).

(** ** What the parser has read

    [heads p cp bs]: the text [p] is complete groups, each with the colon behind it, with the
    double colon after [cp] of them if [cp] is not [-1]; their bytes are [bs].  [here p cur bs s]:
    the state [s] after reading [p] and the digits [cur] of the next group. *)
Definition terminated_by (sep : Z) (ts : list (list Z)) : list Z := concat (map (fun t => t ++ [sep]) ts).
Abbreviation terminated := (terminated_by CH_COLON).

Inductive heads : list Z -> Z -> list Z -> Prop :=
| heads_plain ts bs : groups ts bs -> heads (terminated ts) (-1) bs
| heads_double fs fb rs rb :
    groups fs fb -> groups rs rb -> (length fb <= 14)%nat ->
    heads (join CH_COLON fs ++ CH_COLON :: CH_COLON :: terminated rs) (zlen fs) (fb ++ rb).

Record here (p cur bs : list Z) (s : parser) : Prop := {
  here_heads : heads p (compress_pos s) bs;
  here_num : zlen bs = 2 * num_blocks s;
  here_max : num_blocks s <= 7;
  here_addr : take (length bs) (addr s) = bs;
  here_len : length (addr s) = 16%nat;
  here_hex : hex_digits cur = true;
  here_block : block s = hex_value 0 cur;
  here_fits : hex_value 0 cur <= UINT16_MAX;
  here_empty : empty s = bool_decide (cur = []);
  here_pos : pos s = zlen p + zlen cur;
}.

(** Groups *)
Lemma hex_group_len t bs : hex_group t bs -> length bs = 2%nat.
Proof. by intros (_ & _ & v & _ & _ & ->). Qed.
Lemma groups_nil : groups [] [].
Proof. exists []. done. Qed.
Lemma groups_snoc ts bs t gb : groups ts bs -> hex_group t gb -> groups (ts ++ [t]) (bs ++ gb).
Proof.
  intros (bss & Hf & ->) Hg. exists (bss ++ [gb]). split; [by apply Forall2_app; [|constructor]|].
  rewrite concat_app. cbn. by rewrite app_nil_r.
Qed.
Lemma groups_cons_inv t ts bs : groups (t :: ts) bs -> exists gb bs', bs = gb ++ bs' /\ hex_group t gb /\ groups ts bs'.
Proof.
  intros (bss & Hf & ->). apply Forall2_cons_inv_l in Hf as (gb & bss' & Hg & Hf & ->).
  exists gb, (concat bss'). split_and!; [done|done|by exists bss'].
Qed.
Lemma groups_snoc_inv ts t bs : groups (ts ++ [t]) bs -> exists bs' gb, bs = bs' ++ gb /\ groups ts bs' /\ hex_group t gb.
Proof.
  intros (bss & Hf & ->). apply Forall2_app_inv_l in Hf as (b1 & b2 & H1 & H2 & ->).
  apply Forall2_cons_inv_l in H2 as (gb & b3 & Hg & H3 & ->). apply Forall2_nil_inv_l in H3 as ->.
  exists (concat b1), gb. rewrite concat_app. cbn. rewrite app_nil_r. split_and!; [done|by exists b1|done].
Qed.
Lemma groups_len ts bs : groups ts bs -> length bs = (2 * length ts)%nat.
Proof.
  intros (bss & Hf & ->). induction Hf as [|t gb ts bss Hg _ IH]; [done|]. cbn. rewrite length_app, IH.
  rewrite (hex_group_len _ _ Hg). lia.
Qed.

(** Texts *)
Lemma terminated_snoc sep ts t : terminated_by sep (ts ++ [t]) = terminated_by sep ts ++ t ++ [sep].
Proof. unfold terminated_by. rewrite map_app, concat_app. cbn. by rewrite app_nil_r. Qed.
Lemma terminated_join sep ts t : terminated_by sep ts ++ t = join sep (ts ++ [t]).
Proof.
  induction ts as [|u ts IH]; [cbn; by rewrite app_nil_r|].
  change (terminated_by sep (u :: ts)) with ((u ++ [sep]) ++ terminated_by sep ts). rewrite <- !app_assoc, IH. cbn [app].
  change ((u :: ts) ++ [t]) with (u :: (ts ++ [t])). rewrite join_cons, decide_False; [done|]. by destruct ts.
Qed.
Lemma terminated_ends ts : ts <> [] -> exists p, terminated ts = p ++ [CH_COLON].
Proof.
  destruct ts as [|t ts _] using rev_ind; [done|]. intros _. rewrite terminated_snoc, app_assoc. eauto.
Qed.

(** ** The steps *)
Lemma hex_value_snoc t c : hex_value 0 (t ++ [c]) = 16 * hex_value 0 t + decode_hex_digit c.
Proof. unfold value_from. by rewrite fold_left_app. Qed.
Lemma hex_value_nonneg t : hex_digits t = true -> 0 <= hex_value 0 t.
Proof. intros H. apply (hex_value_range t H). Qed.

Lemma at_digit_ok p cur bs s c :
  here p cur bs s ->
  (exists s', at_digit c s = inl s' /\ here p (cur ++ [c]) bs s' /\ compress_pos s' = compress_pos s) \/
  (at_digit c s = inr (addr s) /\
   (is_digit decode_hex_digit c = false \/ UINT16_MAX < hex_value 0 (cur ++ [c]))).
Proof.
  intros [Hh Hn Hx Ha Hl Hc Hb Hf He Hp]. unfold at_digit, is_digit. pose proof (decode_hex_range c) as Hd.
  pose proof (hex_value_nonneg cur Hc) as H0. rewrite hex_value_snoc, Hb. unfold UINT16_MAX in *. change (65535 / 16) with 4095.
  case_if; [right; split; [done|]; left; by apply Z.leb_gt|].
  case_if; [right; split; [done|]; right; lia|]. rewrite (uwrap_small 16 (hex_value 0 cur * 16)) by lia.
  case_if; [right; split; [done|]; right; lia|]. rewrite uwrap_small by lia.
  left. eexists. split; [done|]. split; [|done]. constructor; cbn; try done.
  - rewrite forallb_app, Hc. cbn. unfold is_digit. rewrite andb_true_r. apply Z.leb_le. lia.
  - rewrite hex_value_snoc. lia.
  - rewrite hex_value_snoc. unfold UINT16_MAX. lia.
  - rewrite bool_decide_false; [done|]. by destruct cur.
  - rewrite zlen_app. change (zlen [c]) with 1. lia.
Qed.

(** Storing the digits read as a group. *)
Definition block_bytes (cur : list Z) : list Z := [hex_value 0 cur / 256; hex_value 0 cur mod 256].
Lemma block_group cur : hex_digits cur = true -> hex_value 0 cur <= UINT16_MAX -> cur <> [] -> hex_group cur (block_bytes cur).
Proof. intros Hc Hf Hn. split; [done|]. split; [done|]. by exists (hex_value 0 cur). Qed.
Lemma hex_group_block t gb : hex_group t gb ->
  hex_digits t = true /\ hex_value 0 t <= UINT16_MAX /\ t <> [] /\ gb = block_bytes t.
Proof. intros (Hd & Hn & v & <- & Hv & ->). done. Qed.

Lemma store_block_ok p cur bs s :
  here p cur bs s ->
  exists a, store_block s = Some a /\ take (length bs + 2) a = bs ++ block_bytes cur /\ length a = 16%nat.
Proof.
  intros [Hh Hn Hx Ha Hl Hc Hb Hf He Hp]. unfold store_block. pose proof (zlen_nonneg bs).
  assert (zlen (addr s) = 16) as Hz by (unfold zlen; lia). bool_true. rewrite Hb.
  pose proof (hex_value_nonneg cur Hc). unfold UINT16_MAX in Hf.
  rewrite Z.shiftr_div_pow2, (uwrap_small 8 (hex_value 0 cur / 2 ^ 8)) by (try (Z.div_mod_to_equations; lia)).
  change 255 with (Z.ones 8). rewrite Z.land_ones by lia. rewrite (uwrap_small 8 (_ mod _)) by (Z.div_mod_to_equations; lia).
  change (2 ^ 8) with 256. fold (block_bytes cur). eexists. split; [done|]. split.
  - unfold splice. replace (Z.to_nat (2 * num_blocks s)) with (length bs) by (unfold zlen in *; lia). rewrite Ha, app_assoc.
    apply take_app_length'. rewrite length_app. done.
  - pose proof (zlen_splice (addr s) (2 * num_blocks s) (block_bytes cur) ltac:(lia) ltac:(change (zlen (block_bytes cur)) with 2; lia)).
    unfold zlen in *. lia.
Qed.

Lemma heads_group p cp bs t gb : heads p cp bs -> hex_group t gb -> heads (p ++ t ++ [CH_COLON]) cp (bs ++ gb).
Proof.
  intros Hh Hg. destruct Hh as [ts bs Hts|fs fb rs rb Hf Hr Hl].
  - rewrite <- terminated_snoc. apply heads_plain. by apply groups_snoc.
  - rewrite <- !app_assoc. cbn [app]. rewrite <- terminated_snoc. apply heads_double; [done|by apply groups_snoc|done].
Qed.
Lemma heads_split p bs t gb : heads p (-1) bs -> hex_group t gb -> (length (bs ++ gb) <= 14)%nat ->
  heads (p ++ t ++ [CH_COLON; CH_COLON]) (zlen (bs ++ gb) / 2) (bs ++ gb).
Proof.
  intros Hh Hg Hl. remember (-1) as cp eqn:Ecp. destruct Hh as [ts bs Hts|fs fb rs rb Hf Hr Hl'];
    [|pose proof (zlen_nonneg fs); lia].
  pose proof (groups_snoc _ _ _ _ Hts Hg) as Hs. rewrite app_assoc, terminated_join.
  pose proof (heads_double (ts ++ [t]) (bs ++ gb) [] [] Hs groups_nil Hl) as H. rewrite app_nil_r in H.
  replace (zlen (bs ++ gb) / 2) with (zlen (ts ++ [t])); [exact H|].
  pose proof (groups_len _ _ Hs). unfold zlen. apply Z.div_unique_exact; lia.
Qed.
Lemma heads_nil p cp bs : heads p cp bs -> p = [] -> cp = -1 /\ bs = [].
Proof.
  intros Hh E. destruct Hh as [ts bs Hts|fs fb rs rb Hf Hr Hl].
  - destruct ts as [|t ts]; [|cbn in E; by destruct t]. destruct Hts as (bss & Hf & ->). by apply Forall2_nil_inv_l in Hf as ->.
  - by destruct (join CH_COLON fs).
Qed.
Lemma heads_ends p cp bs : heads p cp bs -> p <> [] -> exists q, p = q ++ [CH_COLON].
Proof.
  intros Hh E. destruct Hh as [ts bs Hts|fs fb rs rb Hf Hr Hl].
  - apply terminated_ends. by intros ->.
  - destruct (decide (rs = [])) as [->|Hn].
    + exists (join CH_COLON fs ++ [CH_COLON]). by rewrite <- app_assoc.
    + destruct (terminated_ends rs Hn) as [q ->]. exists (join CH_COLON fs ++ CH_COLON :: CH_COLON :: q). by rewrite <- app_assoc.
Qed.

Lemma zlen_nil_iff {A} (l : list A) : zlen l = 0 <-> l = [].
Proof. unfold zlen. destruct l; cbn; split; done || lia. Qed.

(** One or two colons behind what was read. *)
Lemma at_colon_ok p cur bs s (dbl : bool) :
  here p cur bs s ->
  (exists s' bs', at_colon dbl s = Some (inl s') /\
     here (p ++ cur ++ (if dbl then [CH_COLON; CH_COLON] else [CH_COLON])) [] bs' s' /\
     compress_pos s' = (if dbl then num_blocks s' else compress_pos s) /\
     (cur <> [] /\ bs' = bs ++ block_bytes cur \/ cur = [] /\ bs' = [])) \/
  (exists a, at_colon dbl s = Some (inr a) /\ length a = 16%nat /\
     (cur = [] /\ ~ (p = [] /\ dbl = true) \/
      cur <> [] /\ (num_blocks s = 7 \/ dbl = true /\ compress_pos s <> -1))).
Proof.
  intros H. pose proof H as [Hh Hn Hx Ha Hl Hc Hb Hf He Hp]. pose proof (zlen_nonneg p). pose proof (zlen_nonneg cur).
  pose proof (zlen_nonneg bs). unfold at_colon. rewrite He, Hp. destruct (decide (cur = [])) as [->|Hcur].
  - rewrite bool_decide_true by done. cbn [orb]. change (zlen (@nil Z)) with 0. rewrite Z.add_0_r.
    destruct (Z.ltb_spec 0 (zlen p)).
    { right. exists (addr s). split_and!; [done|done|]. left. split; [done|]. intros [Ep _]. apply zlen_nil_iff in Ep. lia. }
    assert (p = []) as -> by (apply zlen_nil_iff; lia). destruct (heads_nil _ _ _ Hh eq_refl) as [Ecp ->].
    destruct dbl; cbn [negb mbind option_bind].
    2: { right. exists (addr s). split_and!; [done|done|]. left. split; [done|]. by intros [_ ?]. }
    rewrite Ecp. cbn. assert (num_blocks s = 0) as Hn0 by (rewrite zlen_nil in Hn; lia). left.
    eexists _, []. split; [done|]. split; [|split; [done|by right]]. constructor; cbn; try done.
    + rewrite Hn0. apply (heads_double [] [] [] [] groups_nil groups_nil). cbn. lia.
    + rewrite Hp. done.
  - assert (0 < zlen cur) by (pose proof (zlen_nil_iff cur) as [? _]; destruct (Z.eq_dec (zlen cur) 0); [exfalso; auto|lia]).
    rewrite bool_decide_false by done. cbn [orb]. rewrite (proj2 (Z.ltb_lt 0 (zlen p + zlen cur))) by lia.
    destruct (Z.eqb_spec (num_blocks s) 7).
    { right. exists (addr s). split_and!; [done|done|]. right. auto. }
    destruct (store_block_ok _ _ _ _ H) as (a & -> & Hta & Hla). cbn [mbind option_bind].
    pose proof (block_group cur Hc Hf Hcur) as Hg.
    assert (zlen (bs ++ block_bytes cur) = 2 * (num_blocks s + 1)) as Hz.
    { rewrite zlen_app. change (zlen (block_bytes cur)) with 2. lia. }
    assert (length (bs ++ block_bytes cur) = length bs + 2)%nat as Hz' by by rewrite length_app.
    destruct dbl.
    + cbn [compress_pos]. destruct (Z.eqb_spec (compress_pos s) (-1)) as [Ecp|Ecp]; cbn [negb].
      2: { right. exists a. split_and!; [done|done|]. right. auto. }
      left. eexists _, (bs ++ block_bytes cur). split; [done|]. split; [|split; [done|by left]].
      constructor; cbn; try done.
      * pose proof (heads_split p bs cur _ ltac:(by rewrite <- Ecp) Hg) as Hs. rewrite Hz in Hs.
        replace (2 * (num_blocks s + 1) / 2) with (num_blocks s + 1) in Hs by (rewrite Z.mul_comm, Z.div_mul; lia).
        apply Hs. unfold zlen in Hz. lia.
      * lia.
      * by rewrite Hz'.
      * rewrite !zlen_app, !zlen_cons, zlen_nil. lia.
    + left. eexists _, (bs ++ block_bytes cur). split; [done|]. split; [|split; [done|by left]].
      constructor; cbn; try done.
      * by apply heads_group.
      * lia.
      * by rewrite Hz'.
      * rewrite !zlen_app. change (zlen [CH_COLON]) with 1. change (zlen (@nil Z)) with 0. lia.
Qed.

(** ** The loop *)
Definition reached (name : list Z) (o : outcome) : Prop :=
  match o with
  | Return0 a => length a = 16%nat
  | AtEnd s => exists p cur bs, name = p ++ cur /\ here p cur bs s
  | AtDot s => exists p cur bs r, name = p ++ cur ++ CH_DOT :: r /\ here p cur bs s
  end.

Lemma blocks_loop_ok rest p cur bs s :
  here p cur bs s -> exists o, blocks_loop rest s = Some o /\ reached (p ++ cur ++ rest) o.
Proof.
  remember (length rest) as n eqn:En. revert rest En p cur bs s.
  induction n as [n IH] using lt_wf_ind; intros rest En p cur bs s H.
  destruct rest as [|c rest]; [exists (AtEnd s); split; [done|]; exists p, cur, bs; by rewrite app_nil_r|].
  cbn [blocks_loop]. destruct (Z.eqb_spec c CH_DOT) as [->|Hd].
  { exists (AtDot s). split; [done|]. by exists p, cur, bs, rest. }
  destruct (Z.eqb_spec c CH_COLON) as [->|Hc].
  - destruct rest as [|c2 rest]; [|destruct (Z.eqb_spec c2 CH_COLON) as [->|Hc2]].
    + destruct (at_colon_ok p cur bs s false H) as [(s' & bs' & -> & H' & _)|(a & -> & Ha & _)]; cbn [mbind option_bind]; [|by eexists].
      exists (AtEnd s'). split; [done|]. exists (p ++ cur ++ [CH_COLON]), [], bs'. by rewrite app_nil_r.
    + destruct (at_colon_ok p cur bs s true H) as [(s' & bs' & -> & H' & _)|(a & -> & Ha & _)]; cbn [mbind option_bind]; [|by eexists].
      destruct (IH (length rest) ltac:(cbn in *; lia) rest eq_refl _ _ _ _ H') as (o & -> & Ho). exists o. split; [done|].
      rewrite <- !app_assoc in Ho. exact Ho.
    + destruct (at_colon_ok p cur bs s false H) as [(s' & bs' & -> & H' & _)|(a & -> & Ha & _)]; cbn [mbind option_bind]; [|by eexists].
      destruct (IH (length (c2 :: rest)) ltac:(cbn in *; lia) (c2 :: rest) eq_refl _ _ _ _ H') as (o & -> & Ho). exists o. split; [done|].
      rewrite <- !app_assoc in Ho. exact Ho.
  - destruct (at_digit_ok p cur bs s c H) as [(s' & -> & H' & _)|(-> & _)].
    + destruct (IH (length rest) ltac:(cbn in *; lia) rest eq_refl _ _ _ _ H') as (o & -> & Ho). exists o. split; [done|].
      rewrite <- !app_assoc in Ho. exact Ho.
    + eexists. split; [done|]. apply H.
Qed.

(** Running the loop over groups. *)
Lemma hex_digit_other c : is_digit decode_hex_digit c = true -> c <> CH_DOT /\ c <> CH_COLON.
Proof. intros H. split; intros ->; done. Qed.
Lemma hex_head t c : hex_digits t = true -> head t = Some c -> c <> CH_DOT /\ c <> CH_COLON.
Proof. destruct t as [|x t]; [done|]. cbn. intros H [= ->]. reflect_bool. by apply hex_digit_other. Qed.

Lemma hex_head_app t r : hex_digits t = true -> t <> [] -> head (t ++ r) <> Some CH_COLON.
Proof. intros Hd Hn. destruct t as [|c t]; [done|]. cbn [app head]. intros [= ->]. by destruct (hex_head _ CH_COLON Hd eq_refl). Qed.

Lemma run_digits t rest p cur bs s :
  here p cur bs s -> hex_digits t = true -> hex_value 0 (cur ++ t) <= UINT16_MAX ->
  exists s', blocks_loop (t ++ rest) s = blocks_loop rest s' /\ here p (cur ++ t) bs s' /\ compress_pos s' = compress_pos s.
Proof.
  revert cur s. induction t as [|c t IH]; intros cur s H Ht Hv; [exists s; rewrite app_nil_r; done|].
  cbn [forallb] in Ht. reflect_bool. destruct (hex_digit_other c) as [Hc1 Hc2]; [done|].
  replace (cur ++ c :: t) with ((cur ++ [c]) ++ t) in * by by rewrite <- app_assoc.
  assert (hex_value 0 (cur ++ [c]) <= UINT16_MAX) as Hle.
  { rewrite value_app in Hv. etrans; [|exact Hv]. apply value_mono; [lia|apply decode_hex_range| |done].
    apply hex_value_nonneg. rewrite forallb_app. cbn. by rewrite (here_hex _ _ _ _ H), andb_true_r. }
  cbn [app blocks_loop]. rewrite (proj2 (Z.eqb_neq c CH_DOT)), (proj2 (Z.eqb_neq c CH_COLON)) by done.
  destruct (at_digit_ok p cur bs s c H) as [(s1 & -> & Hs1 & E1)|(_ & [E|E])]; [|congruence|lia].
  destruct (IH _ _ Hs1) as (s' & -> & H' & E'); [done|done|]. exists s'. split_and!; [done|done|congruence].
Qed.

Lemma run_group t gb rest p bs s :
  here p [] bs s -> hex_group t gb -> num_blocks s < 7 -> head rest <> Some CH_COLON ->
  exists s', blocks_loop (t ++ CH_COLON :: rest) s = blocks_loop rest s' /\
    here (p ++ t ++ [CH_COLON]) [] (bs ++ gb) s' /\ compress_pos s' = compress_pos s.
Proof.
  intros H (Hd & Hv & Hn & ->)%hex_group_block Hb Hr.
  destruct (run_digits t (CH_COLON :: rest) p [] bs s H Hd Hv) as (s1 & -> & H1 & E1). cbn [app] in H1.
  assert (num_blocks s1 <> 7) by (pose proof (here_num _ _ _ _ H1); pose proof (here_num _ _ _ _ H); lia).
  destruct (at_colon_ok p t bs s1 false H1) as [(s' & bs' & Ec & H' & Ecp & [[_ ->]|[? _]])|(a & _ & _ & [[? _]|[_ [?|[? _]]]])]; try done.
  exists s'. split; [|split; [done|congruence]]. cbn [blocks_loop]. change (CH_COLON =? CH_DOT) with false. rewrite Z.eqb_refl.
  destruct rest as [|c2 rest]; [by rewrite Ec|]. rewrite (proj2 (Z.eqb_neq c2 CH_COLON)) by (cbn in Hr; congruence). by rewrite Ec.
Qed.
Lemma run_double t gb rest p bs s :
  here p [] bs s -> hex_group t gb -> num_blocks s < 7 -> compress_pos s = -1 ->
  exists s', blocks_loop (t ++ CH_COLON :: CH_COLON :: rest) s = blocks_loop rest s' /\
    here (p ++ t ++ [CH_COLON; CH_COLON]) [] (bs ++ gb) s' /\ compress_pos s' = num_blocks s'.
Proof.
  intros H (Hd & Hv & Hn & ->)%hex_group_block Hb Hcp.
  destruct (run_digits t (CH_COLON :: CH_COLON :: rest) p [] bs s H Hd Hv) as (s1 & -> & H1 & E1). cbn [app] in H1.
  assert (num_blocks s1 <> 7) by (pose proof (here_num _ _ _ _ H1); pose proof (here_num _ _ _ _ H); lia).
  destruct (at_colon_ok p t bs s1 true H1) as [(s' & bs' & Ec & H' & Ecp & [[_ ->]|[? _]])|(a & _ & _ & [[? _]|[_ [?|[_ ?]]]])]; try done; [|congruence].
  exists s'. split; [|done]. cbn [blocks_loop]. change (CH_COLON =? CH_DOT) with false. rewrite !Z.eqb_refl. by rewrite Ec.
Qed.

Lemma run_groups ts gbs rest p bs s :
  here p [] bs s -> groups ts gbs -> (length bs + length gbs <= 14)%nat -> head rest <> Some CH_COLON ->
  exists s', blocks_loop (terminated ts ++ rest) s = blocks_loop rest s' /\
    here (p ++ terminated ts) [] (bs ++ gbs) s' /\ compress_pos s' = compress_pos s.
Proof.
  revert gbs p bs s. induction ts as [|t ts IH]; intros gbs p bs s H Hg Hl Hr.
  - destruct Hg as (bss & Hf & ->). apply Forall2_nil_inv_l in Hf as ->. exists s. cbn. by rewrite !app_nil_r.
  - apply groups_cons_inv in Hg as (gb & gbs' & -> & Hg & Hgs). pose proof (hex_group_len _ _ Hg). rewrite length_app in Hl.
    change (terminated (t :: ts)) with ((t ++ [CH_COLON]) ++ terminated ts). rewrite <- !app_assoc.
    change ([CH_COLON] ++ terminated ts ++ rest) with (CH_COLON :: terminated ts ++ rest).
    destruct (run_group t gb (terminated ts ++ rest) p bs s H Hg) as (s1 & -> & H1 & E1).
    + pose proof (here_num _ _ _ _ H). unfold zlen in *. lia.
    + destruct ts as [|t2 ts2]; [done|]. apply groups_cons_inv in Hgs as (? & ? & _ & (Hd2 & _ & Hn2 & _)%hex_group_block & _).
      change (terminated (t2 :: ts2)) with ((t2 ++ [CH_COLON]) ++ terminated ts2). rewrite <- !app_assoc. by apply hex_head_app.
    + destruct (IH gbs' _ _ _ H1 Hgs) as (s' & -> & H' & E'); [rewrite length_app; lia|done|].
      exists s'. rewrite <- !app_assoc in H'. split_and!; [done|done|congruence].
Qed.

(** ** The end: the gap is filled *)
Lemma ipv4_done_plain n bs a :
  length a = 16%nat -> take (length bs) a = bs -> zlen bs = 2 * n -> n <= 8 ->
  ipv4_done n (-1) a = Some (bool_decide (n = 8), a) /\ (n = 8 -> a = bs).
Proof.
  intros Ha Ht Hb Hn. assert (zlen a = 16) as Hz by (unfold zlen; lia). split.
  - unfold ipv4_done. rewrite Z.eqb_refl. destruct (Z.eqb_spec n 8) as [->|]; cbn [negb andb].
    + rewrite bool_decide_true by done. change (2 * (8 - 0)) with 16. change (2 * (8 - (8 - 0))) with 0.
      change (2 * 0) with 0. change (2 * (8 - (8 - 0) - 0)) with 0. rewrite Hz. bool_true. rewrite <- Hz, sub_0_all.
      assert (splice a 0 a = a) as ->.
      { unfold splice. cbn [Z.to_nat take app]. rewrite drop_ge by (unfold zlen; lia). apply app_nil_r. }
      by bool_true; f_equal.
    + by rewrite bool_decide_false.
  - intros ->. rewrite take_ge in Ht; [done|]. unfold zlen in Hb. lia.
Qed.
Lemma ipv4_done_double n cp fb rb a :
  length a = 16%nat -> take (length (fb ++ rb)) a = fb ++ rb -> zlen fb = 2 * cp -> zlen (fb ++ rb) = 2 * n -> n <= 8 ->
  ipv4_done n cp a = Some (true, fb ++ replicate (16 - length fb - length rb) 0 ++ rb).
Proof.
  intros Ha Ht Hf Hb Hn. assert (zlen a = 16) as Hz by (unfold zlen; lia).
  pose proof (zlen_nonneg fb). pose proof (zlen_nonneg rb). rewrite zlen_app in Hb.
  rewrite <- (take_drop (length (fb ++ rb)) a), Ht in Hz |- *. set (j := drop _ a) in *. clearbody j. clear a Ha Ht.
  rewrite <- app_assoc in *. rewrite !zlen_app in Hz. pose proof (zlen_nonneg j). unfold ipv4_done.
  rewrite (proj2 (Z.eqb_neq cp (-1))) by lia. cbn [andb]. rewrite !zlen_app. bool_true.
  replace (2 * cp) with (zlen fb) by lia. replace (2 * (n - cp)) with (zlen rb) by lia.
  rewrite (sub_app_r fb), Z.sub_diag, sub_app_l, sub_0_all by lia.
  replace (2 * (8 - (n - cp))) with (16 - zlen rb) by lia. replace (2 * (8 - (n - cp) - cp)) with (zlen j) by lia.
  assert (exists m, splice (fb ++ rb ++ j) (16 - zlen rb) rb = fb ++ m ++ rb /\ zlen m = zlen j) as (m & -> & Hm).
  { unfold splice. rewrite (take_app_ge fb), drop_ge by (rewrite ?length_app; unfold zlen in *; lia).
    exists (take (Z.to_nat (16 - zlen rb) - length fb) (rb ++ j)). rewrite app_nil_r, <- app_assoc. split; [done|].
    unfold zlen in *. rewrite length_take, length_app. lia. }
  rewrite !zlen_app, Hm. bool_true. do 2 f_equal. rewrite splice_middle; [|done|rewrite zlen_replicate; lia].
  do 3 f_equal. unfold zlen in *. lia.
Qed.

(** ** The IPv4 ending *)
Definition strict (t : list Z) : Prop :=
  dec_digits t = true /\ (head t = Some CH_0 -> t = [CH_0]) /\ dec_value 0 t <= 255.

Record in_quad (vs cur : list Z) (q : octets_parser) : Prop := {
  iq_bytes : bytes q = map Some vs ++ replicate (4 - length vs) None;
  iq_cur : cur_byte q = zlen vs;
  iq_max : zlen vs <= 3;
  iq_strict : strict cur;
  iq_byte : byte q = dec_value 0 cur;
  iq_empty : o_empty q = bool_decide (cur = []);
}.

Lemma strict_octet_iff t v : strict_octet t v <-> strict t /\ t <> [] /\ v = dec_value 0 t.
Proof.
  unfold strict_octet, strict. split.
  - intros (? & ? & ? & -> & ?). split_and!; done.
  - intros ((? & ? & ?) & ? & ->). split_and!; done.
Qed.
Lemma dec_value_snoc t c : dec_value 0 (t ++ [c]) = 10 * dec_value 0 t + decode_decimal_digit c.
Proof. unfold value_from. by rewrite fold_left_app. Qed.
Lemma dec_value_zero t : dec_digits t = true -> t <> [] -> dec_value 0 t = 0 -> head t = Some CH_0.
Proof.
  destruct t as [|c t]; [done|]. cbn [forallb head]. intros H _ Hv. reflect_bool. rewrite value_cons in Hv.
  pose proof (dec_value_range t ltac:(done)). pose proof (Z.pow_pos_nonneg 10 (zlen t) ltac:(lia) (zlen_nonneg t)).
  assert (decode_decimal_digit c = 0) as E by (unfold is_digit in *; reflect_bool; nia).
  rewrite decode_decimal_spec in E. f_equal. rewrite is_decimal_iff in *. reflect_bool.
  revert E. bool_true. lia.
Qed.

Lemma octets_digit_ok vs cur q c :
  in_quad vs cur q -> c <> CH_DOT ->
  (exists q', octets_step c q = Some (Some q') /\ in_quad vs (cur ++ [c]) q') \/
  (octets_step c q = Some None /\ ~ strict (cur ++ [c])).
Proof.
  intros [Hb Hc Hm Hs Hv He] Hd. pose proof Hs as (Hdg & Hld & Hle). pose proof (dec_value_range cur Hdg) as [H0 _].
  unfold octets_step. rewrite (proj2 (Z.eqb_neq c CH_DOT)) by done. rewrite He, Hv.
  pose proof (decode_decimal_range c) as Hr.
  destruct (negb (bool_decide (cur = [])) && (dec_value 0 cur =? 0)) eqn:Eg.
  { right. split; [done|]. reflect_bool. apply bool_decide_eq_false in H. intros (_ & Hl & _).
    pose proof (dec_value_zero _ Hdg H ltac:(done)) as Hh. destruct cur as [|x cur]; [done|]. cbn in Hh. injection Hh as ->.
    specialize (Hl eq_refl). by destruct cur. }
  assert (head (cur ++ [c]) = Some CH_0 -> cur ++ [c] = [CH_0]) as Hlead.
  { destruct cur as [|x cur]; [by intros [= ->]|]. cbn [app head]. intros E. specialize (Hld E). injection Hld as -> ->. done. }
  unfold UINT8_MAX. change (255 / 10) with 25.
  case_if; [right; split; [done|]; intros (Hdd & _); rewrite forallb_app in Hdd; cbn in Hdd; unfold is_digit in Hdd; reflect_bool; lia|].
  case_if; [right; split; [done|]; intros (_ & _ & Hvv); rewrite dec_value_snoc in Hvv; lia|].
  rewrite (uwrap_small 8 (_ * 10)) by lia.
  case_if; [right; split; [done|]; intros (_ & _ & Hvv); rewrite dec_value_snoc in Hvv; lia|].
  rewrite uwrap_small by lia. left. eexists. split; [done|]. constructor; cbn; try done.
  - split_and!; [|done|rewrite dec_value_snoc; lia]. rewrite forallb_app, Hdg. cbn. unfold is_digit. rewrite andb_true_r. apply Z.leb_le. lia.
  - rewrite dec_value_snoc. lia.
  - rewrite bool_decide_false; [done|]. by destruct cur.
Qed.

Lemma octets_dot_ok vs cur q :
  in_quad vs cur q ->
  (exists q', octets_step CH_DOT q = Some (Some q') /\ in_quad (vs ++ [dec_value 0 cur]) [] q' /\ cur <> []) \/
  (octets_step CH_DOT q = Some None /\ (cur = [] \/ zlen vs = 3)).
Proof.
  intros [Hb Hc Hm Hs Hv He]. pose proof (zlen_nonneg vs). unfold octets_step. rewrite Z.eqb_refl, He, Hc.
  destruct (decide (cur = [])) as [->|Hn]; [right; rewrite bool_decide_true by done; split; [done|by left]|].
  rewrite bool_decide_false by done. cbn [orb]. case_if; [right; split; [done|by right]|].
  assert (zlen (bytes q) = 4) as Hz.
  { rewrite Hb, zlen_app. unfold zlen in *. rewrite length_map, length_replicate. lia. }
  rewrite Hz. bool_true. left. eexists. split; [done|]. split; [|done]. constructor; cbn; try done.
  - rewrite Hb, Hv. unfold zlen in *. rewrite Nat2Z.id. rewrite insert_app_r_alt by (rewrite length_map; lia).
    rewrite length_map, Nat.sub_diag, map_app, length_app. cbn [map length].
    replace (4 - length vs)%nat with (S (4 - (length vs + 1))) by lia. cbn. by rewrite <- app_assoc.
  - by rewrite zlen_app.
  - rewrite zlen_app. change (zlen [dec_value 0 cur]) with 1. lia.
Qed.

Lemma octets_loop_ok rest vs cur q :
  in_quad vs cur q ->
  exists r, octets_loop rest q = Some r /\
    forall q', r = Some q' -> exists ts vs' cur', in_quad (vs ++ vs') cur' q' /\
      cur ++ rest = terminated_by CH_DOT ts ++ cur' /\ Forall2 strict_octet ts vs'.
Proof.
  revert vs cur q. induction rest as [|c rest IH]; intros vs cur q H.
  - exists (Some q). split; [done|]. intros q' [= <-]. exists [], [], cur. rewrite !app_nil_r. split_and!; [done|done|constructor].
  - cbn [octets_loop]. destruct (Z.eq_dec c CH_DOT) as [->|Hc].
    + destruct (octets_dot_ok vs cur q H) as [(q1 & -> & H1 & Hn)|(-> & _)]; cbn [mbind option_bind]; [|by eexists].
      destruct (IH _ _ _ H1) as (r & -> & Hr). exists r. split; [done|]. intros q' E.
      destruct (Hr q' E) as (ts & vs' & cur' & Hq & Ht & Hf). exists (cur :: ts), (dec_value 0 cur :: vs'), cur'.
      rewrite <- app_assoc in Hq. split_and!; [done| |constructor; [|done]].
      * cbn in Ht. rewrite Ht. change (terminated_by CH_DOT (cur :: ts)) with ((cur ++ [CH_DOT]) ++ terminated_by CH_DOT ts).
        by rewrite <- !app_assoc.
      * apply strict_octet_iff. split_and!; [apply H|done|done].
    + destruct (octets_digit_ok vs cur q c H Hc) as [(q1 & -> & H1)|(-> & _)]; cbn [mbind option_bind]; [|by eexists].
      destruct (IH _ _ _ H1) as (r & -> & Hr). exists r. split; [done|]. intros q' E.
      destruct (Hr q' E) as (ts & vs' & cur' & Hq & Ht & Hf). exists ts, vs', cur'. rewrite <- app_assoc in Ht. done.
Qed.

Lemma strict_prefix t u : strict (t ++ u) -> strict t.
Proof.
  intros (Hd & Hl & Hv). rewrite forallb_app in Hd. reflect_bool. split_and!; [done| |].
  - intros Hh. destruct t as [|x t]; [done|]. cbn in Hh, Hl. specialize (Hl Hh). injection Hl as -> Hn.
    by destruct t.
  - rewrite value_app in Hv. etrans; [|exact Hv].
    apply value_mono; [lia|apply decode_decimal_range|by apply dec_value_range|done].
Qed.
Lemma dec_digit_not_dot c : is_digit decode_decimal_digit c = true -> c <> CH_DOT.
Proof. by intros H ->. Qed.

Lemma run_octet t rest vs cur q :
  in_quad vs cur q -> strict (cur ++ t) ->
  exists q', octets_loop (t ++ rest) q = octets_loop rest q' /\ in_quad vs (cur ++ t) q'.
Proof.
  revert cur q. induction t as [|c t IH]; intros cur q H Hs; [exists q; rewrite app_nil_r; done|].
  replace (cur ++ c :: t) with ((cur ++ [c]) ++ t) in * by by rewrite <- app_assoc.
  pose proof (strict_prefix _ _ Hs) as Hs1. cbn [app octets_loop].
  destruct (octets_digit_ok vs cur q c H) as [(q1 & -> & H1)|(_ & Hn)]; [|cbn [mbind option_bind]; by apply IH|done].
  apply dec_digit_not_dot. destruct Hs1 as (Hd & _). rewrite forallb_app in Hd. cbn in Hd. reflect_bool. done.
Qed.
Lemma run_octets ts vs' rest vs q :
  in_quad vs [] q -> Forall2 strict_octet ts vs' -> (length vs + length vs' <= 3)%nat ->
  exists q', octets_loop (terminated_by CH_DOT ts ++ rest) q = octets_loop rest q' /\ in_quad (vs ++ vs') [] q'.
Proof.
  intros H Hf. revert vs q H. induction Hf as [|t v ts vs' Ht _ IH]; intros vs q H Hl; [exists q; by rewrite app_nil_r|].
  apply strict_octet_iff in Ht as (Hs & Hn & ->). cbn in Hl.
  change (terminated_by CH_DOT (t :: ts)) with ((t ++ [CH_DOT]) ++ terminated_by CH_DOT ts). rewrite <- !app_assoc.
  destruct (run_octet t ([CH_DOT] ++ terminated_by CH_DOT ts ++ rest) vs [] q H Hs) as (q1 & -> & H1). cbn [app octets_loop] in *.
  destruct (octets_dot_ok vs t q1 H1) as [(q2 & -> & H2 & _)|(_ & [?|?])]; [|done|unfold zlen in *; lia].
  cbn [mbind option_bind]. destruct (IH _ _ H2) as (q' & -> & H'); [rewrite length_app; cbn; lia|].
  exists q'. by rewrite <- app_assoc in H'.
Qed.

Definition quad_start : octets_parser :=
  {| bytes := [None; None; None; None]; cur_byte := 0; byte := 0; o_empty := true |}.
Lemma in_quad_start : in_quad [] [] quad_start.
Proof. constructor; try done. Qed.

Lemma run_quad t qs : quad t qs ->
  exists q' vs cur, octets_loop t quad_start = Some (Some q') /\ in_quad vs cur q' /\ length vs = 3%nat /\ cur <> [] /\
    qs = vs ++ [dec_value 0 cur].
Proof.
  intros (ts & -> & Hf & Hl). destruct qs as [|v qs _] using rev_ind; [done|]. rewrite length_app in Hl. cbn in Hl.
  apply Forall2_app_inv_r in Hf as (ts1 & ts2 & H1 & H2 & ->).
  apply Forall2_cons_inv_r in H2 as (t & ts3 & Ht & H3 & ->). apply Forall2_nil_inv_r in H3 as ->.
  apply strict_octet_iff in Ht as (Hs & Hn & ->). rewrite <- terminated_join.
  destruct (run_octets ts1 qs t [] quad_start in_quad_start H1) as (q1 & -> & Hq1); [cbn; lia|].
  destruct (run_octet t [] _ _ _ Hq1 Hs) as (q' & E & Hq'). rewrite app_nil_r in E. exists q', qs, t. split_and!; [done|done|lia|done|done].
Qed.
(** The bytes of a complete array. *)
Lemma in_quad_bytes vs cur q : in_quad vs cur q -> length vs = 3%nat ->
  mapM id (<[Z.to_nat (cur_byte q) := Some (byte q)]> (bytes q)) = Some (vs ++ [dec_value 0 cur]).
Proof.
  intros [Hb Hc Hm Hs Hv He] Hl. rewrite Hb, Hc, Hv. unfold zlen. rewrite Hl.
  destruct vs as [|a [|b [|c [|]]]]; try done.
Qed.
Lemma quad_strict_end vs cur q ts t :
  in_quad vs cur q -> length vs = 3%nat -> cur <> [] -> t = terminated_by CH_DOT ts ++ cur -> Forall2 strict_octet ts vs ->
  quad t (vs ++ [dec_value 0 cur]).
Proof.
  intros Hq Hl Hn -> Hf. exists (ts ++ [cur]). rewrite terminated_join. split_and!; [done| |rewrite length_app; cbn; lia].
  apply Forall2_app; [done|]. constructor; [|done]. apply strict_octet_iff. split_and!; [apply Hq|done|done].
Qed.

Lemma back_to_colon_ok p cur rest i :
  clean CH_COLON cur -> i = (length p + S (length cur))%nat ->
  back_to_colon (p ++ CH_COLON :: cur ++ rest) i = Some (zlen p + 1).
Proof.
  revert i rest. induction cur as [|c cur IH] using rev_ind; intros i rest Hc ->.
  - replace (length p + S (length []))%nat with (S (length p)) by (cbn; lia). cbn [back_to_colon].
    rewrite list_lookup_middle by done. cbn [mbind option_bind]. rewrite Z.eqb_refl. f_equal. unfold zlen. lia.
  - apply not_elem_of_app in Hc as [Hc1 Hc2]. rewrite length_app. cbn [length].
    replace (length p + S (length cur + 1))%nat with (S (length p + S (length cur))) by lia. cbn [back_to_colon].
    rewrite <- app_assoc. cbn [app].
    assert ((p ++ CH_COLON :: cur ++ c :: rest) !! (length p + S (length cur))%nat = Some c) as ->.
    { rewrite lookup_app_r by lia. replace (length p + S (length cur) - length p)%nat with (S (length cur)) by lia.
      cbn [lookup list_lookup]. by apply list_lookup_middle. }
    cbn [mbind option_bind]. rewrite (proj2 (Z.eqb_neq c CH_COLON)).
    + by apply (IH _ (c :: rest)).
    + intros ->. apply Hc2. by left.
Qed.
Lemma hex_digits_clean t : hex_digits t = true -> clean CH_COLON t.
Proof. intros H Hin. rewrite forallb_forall in H. specialize (H CH_COLON). rewrite <- list_elem_of_In in H. by specialize (H Hin). Qed.

Lemma quad_not_dot r qs : ~ quad (CH_DOT :: r) qs.
Proof.
  intros (ts & Hj & Hf & Hl). destruct qs as [|v qs]; [done|]. apply Forall2_cons_inv_r in Hf as (t & ts' & Ht & _ & ->).
  apply strict_octet_iff in Ht as ((Hd & _) & Hn & _). destruct t as [|c t]; [done|]. cbn in Hj. injection Hj as <- _. done.
Qed.

(** The loop over the numbers accepts an IPv4 address and leaves its bytes in the array. *)
Lemma quad_read_ok t :
  exists o, octets_loop t quad_start = Some o /\
    match o with
    | None => forall qs, ~ quad t qs
    | Some q =>
        if negb (cur_byte q =? 3) || o_empty q then forall qs, ~ quad t qs
        else zlen (bytes q) = 4 /\ cur_byte q = 3 /\
          exists qs, mapM id (<[Z.to_nat (cur_byte q) := Some (byte q)]> (bytes q)) = Some qs /\ quad t qs /\ zlen qs = 4
    end.
Proof.
  destruct (octets_loop_ok t [] [] quad_start in_quad_start) as (o & Eo & Ho). exists o. split; [done|].
  assert (forall qs, quad t qs -> exists q', o = Some q' /\ cur_byte q' = 3 /\ o_empty q' = false) as Hq.
  { intros qs (q' & vs & c' & E & Hq & Hlv & Hnc & _)%run_quad. rewrite E in Eo. injection Eo as <-. exists q'. split; [done|].
    rewrite (iq_cur _ _ _ Hq), (iq_empty _ _ _ Hq), bool_decide_false by done. unfold zlen. by rewrite Hlv. }
  destruct o as [q|]; [|intros qs Hqs; by destruct (Hq qs Hqs) as (? & ? & _)].
  destruct (Ho q eq_refl) as (ts & vs & c' & Hiq & Et & Hfs). cbn [app] in Et, Hiq.
  destruct (negb (cur_byte q =? 3) || o_empty q) eqn:Eend.
  { intros qs Hqs. destruct (Hq qs Hqs) as (q1 & [= <-] & E1 & E2). by rewrite E1, E2 in Eend. }
  reflect_bool. rewrite (iq_empty _ _ _ Hiq) in *. apply bool_decide_eq_false in H0. rewrite (iq_cur _ _ _ Hiq) in *.
  assert (length vs = 3%nat) as Hlv by (unfold zlen in *; lia). split_and!.
  - rewrite (iq_bytes _ _ _ Hiq), zlen_app. unfold zlen. rewrite length_map, length_replicate. lia.
  - done.
  - exists (vs ++ [dec_value 0 c']). rewrite <- (iq_cur _ _ _ Hiq). split_and!; [by apply in_quad_bytes|by eapply quad_strict_end|].
    unfold zlen. by rewrite length_app, Hlv.
Qed.

(** At a dot the text back to the colon is an IPv4 address for which there is room, and the
    parser goes on with its bytes stored, or it returns 0. *)
Lemma ipv4_ending_ok p cur bs s r :
  here p cur bs s ->
  (exists qs a, quad (cur ++ CH_DOT :: r) qs /\ p <> [] /\ (length bs <= 12)%nat /\
     ipv4_ending (p ++ cur ++ CH_DOT :: r) s = ipv4_done (num_blocks s + 2) (compress_pos s) a /\
     take (length (bs ++ qs)) a = bs ++ qs /\ length a = 16%nat) \/
  (ipv4_ending (p ++ cur ++ CH_DOT :: r) s = Some (false, addr s) /\
   ~ (p <> [] /\ (length bs <= 12)%nat /\ exists qs, quad (cur ++ CH_DOT :: r) qs)).
Proof.
  intros H. pose proof H as [Hh Hn Hx Ha Hl Hc Hb Hf He Hp]. unfold ipv4_ending. rewrite He.
  pose proof (zlen_nonneg bs) as Hbs.
  destruct (decide (cur = [])) as [->|Hcur].
  { right. rewrite bool_decide_true by done. split; [done|]. intros (_ & _ & qs & Hq). by apply quad_not_dot in Hq. }
  rewrite bool_decide_false by done. cbn [orb]. destruct (decide (p = [])) as [->|Hpn].
  { right. destruct (heads_nil _ _ _ Hh eq_refl) as [Ecp ->]. rewrite zlen_nil in Hn. rewrite Ecp.
    rewrite (proj2 (Z.eqb_eq (num_blocks s) 0)) by lia. split; [done|]. by intros [? _]. }
  assert ((num_blocks s =? 0) && (compress_pos s =? -1) = false) as ->.
  { apply andb_false_iff. destruct Hh as [ts bs Hts|fs fb rs rb Hfs Hrs Hlf].
    - left. apply Z.eqb_neq. pose proof (groups_len _ _ Hts). destruct ts; [done|]. unfold zlen in *. cbn in *. lia.
    - right. apply Z.eqb_neq. pose proof (zlen_nonneg fs). lia. }
  destruct (heads_ends _ _ _ Hh Hpn) as [p' ->]. rewrite <- app_assoc. cbn [app].
  rewrite back_to_colon_ok; [|by apply hex_digits_clean|].
  2: { rewrite Hp, zlen_app. change (zlen [CH_COLON]) with 1. unfold zlen. lia. }
  cbn [mbind option_bind]. fold quad_start.
  assert (drop (Z.to_nat (zlen p' + 1)) (p' ++ CH_COLON :: cur ++ CH_DOT :: r) = cur ++ CH_DOT :: r) as ->.
  { rewrite drop_app_ge by (unfold zlen; lia). by replace (Z.to_nat (zlen p' + 1) - length p')%nat with 1%nat by (unfold zlen; lia). }
  set (t := cur ++ CH_DOT :: r).
  destruct (quad_read_ok t) as (o & -> & Ho). cbn [mbind option_bind].
  destruct o as [q|]; [|right; split; [done|]; intros (_ & _ & qs & Hqs); by apply Ho in Hqs].
  destruct (negb (cur_byte q =? 3) || o_empty q); [right; split; [done|]; intros (_ & _ & qs & Hqs); by apply Ho in Hqs|].
  destruct Ho as (Hz4 & Ec3 & qs & Em & Hquad & Hzq). rewrite Hz4, Em, Ec3. bool_true. case_if.
  { right. split; [done|]. intros (_ & Hb12 & _). unfold zlen in *. lia. }
  cbn [mbind option_bind]. assert (zlen (addr s) = 16) as Hz by (unfold zlen; lia). rewrite Hz. bool_true.
  left. exists qs. eexists. split; [done|]. split; [done|]. split; [unfold zlen in *; lia|]. split; [done|]. split.
  - unfold splice. replace (Z.to_nat (2 * num_blocks s)) with (length bs) by (unfold zlen in *; lia). rewrite Ha, app_assoc.
    by apply take_app_length'.
  - pose proof (zlen_splice (addr s) (2 * num_blocks s) qs ltac:(lia) ltac:(lia)). unfold zlen in *. lia.
Qed.

(** ** Texts from what was read *)
Lemma end_groups_hex ts bs t gb : groups ts bs -> hex_group t gb -> end_groups (ts ++ [t]) (bs ++ gb).
Proof. left. by apply groups_snoc. Qed.
Lemma end_groups_quad ts bs t qs : groups ts bs -> quad t qs -> end_groups (ts ++ [t]) (bs ++ qs).
Proof. right. by exists ts, t, bs, qs. Qed.

Lemma finish_text p cp bs t eb n a :
  heads p cp bs -> hex_group t eb \/ quad t eb ->
  length a = 16%nat -> take (length (bs ++ eb)) a = bs ++ eb -> zlen (bs ++ eb) = 2 * n -> n <= 8 ->
  exists r a', ipv4_done n cp a = Some (r, a') /\ length a' = 16%nat /\ (r = true -> ipv6_text (p ++ t) a').
Proof.
  intros Hh Ht Ha Htk Hz Hn. destruct Hh as [ts bs Hts|fs fb rs rb Hf Hr Hl].
  - destruct (ipv4_done_plain n (bs ++ eb) a) as [E Eb]; [done..|]. eexists _, _. split; [exact E|]. split; [done|].
    intros Hd%bool_decide_eq_true. rewrite (Eb Hd) in *. rewrite terminated_join. apply text_full; [|done].
    destruct Ht; auto using end_groups_hex, end_groups_quad.
  - rewrite <- app_assoc in *. pose proof (groups_len _ _ Hf) as Hlf. rewrite (ipv4_done_double n (zlen fs) fb (rb ++ eb)); [|done|done|unfold zlen; lia|done|done].
    eexists _, _. split; [done|]. unfold zlen in Hz. rewrite length_app in Hz.
    split; [rewrite !length_app, length_replicate in *; lia|]. intros _. cbn [app].
    rewrite terminated_join. apply text_compressed; [done| |done|lia].
    destruct Ht; auto using end_groups_hex, end_groups_quad.
Qed.

(** ** The parser recognises the grammar *)
Definition start (out : list Z) : parser :=
  {| num_blocks := 0; compress_pos := -1; block := 0; empty := true; pos := 0; addr := out |}.
Lemma here_start out : length out = 16%nat -> here [] [] [] (start out).
Proof. intros. constructor; try done. apply (heads_plain [] [] groups_nil). Qed.

Lemma parse_ipv6_sound name out :
  length out = 16%nat ->
  exists r a, ipaddr6_parse_ipv6_addr name out = Some (r, a) /\ length a = 16%nat /\ (r = true -> ipv6_text name a).
Proof.
  intros Ho. destruct (blocks_loop_ok name [] [] [] _ (here_start out Ho)) as (o & E & Hr).
  unfold ipaddr6_parse_ipv6_addr. fold (start out). rewrite E. cbn [mbind option_bind app] in *. destruct o as [a|s|s].
  - by exists false, a.
  - destruct Hr as (p & cur & bs & -> & H). pose proof (here_heads _ _ _ _ H) as Hh. pose proof (here_num _ _ _ _ H) as Hn.
    pose proof (here_max _ _ _ _ H). rewrite (here_empty _ _ _ _ H). destruct (decide (cur = [])) as [->|Hc].
    + rewrite bool_decide_true by done. cbn [negb].
      destruct (Z.eqb_spec (num_blocks s) (compress_pos s)) as [Ec|]; cbn [negb]; [|exists false, (addr s); split_and!; [done|apply H|done]].
      pose proof (here_addr _ _ _ _ H) as Ht. pose proof (here_len _ _ _ _ H) as Hl. rewrite <- Ec in *.
      remember (num_blocks s) as n eqn:En. destruct Hh as [ts bs Hts|fs fb rs rb Hf Hrs Hlf].
      { pose proof (zlen_nonneg bs). lia. }
      pose proof (groups_len _ _ Hf) as Hlf'. pose proof (groups_len _ _ Hrs) as Hlr. rewrite zlen_app in Hn. unfold zlen in Hn.
      assert (rs = []) as -> by (destruct rs; [done|]; cbn in *; unfold zlen in Hn; lia). assert (rb = []) as -> by (by apply nil_length_inv).
      rewrite (ipv4_done_double (zlen fs) (zlen fs) fb []) by (done || (rewrite ?app_nil_r; unfold zlen in *; lia)).
      eexists _, _. split; [done|]. split; [rewrite !length_app, length_replicate; cbn; lia|]. intros _. rewrite app_nil_r.
      apply (text_compressed fs fb [] []); [done|left; apply groups_nil|done|cbn; lia].
    + rewrite bool_decide_false by done. cbn [negb].
      destruct (store_block_ok _ _ _ _ H) as (a & -> & Ha & Hla). cbn [mbind option_bind].
      apply (finish_text p _ bs cur (block_bytes cur)); try done.
      * left. apply block_group; [apply H|apply H|done].
      * by rewrite length_app.
      * rewrite zlen_app. change (zlen (block_bytes cur)) with 2. lia.
      * lia.
  - destruct Hr as (p & cur & bs & r & -> & H). pose proof (here_num _ _ _ _ H) as Hn.
    destruct (ipv4_ending_ok p cur bs s r H) as [(qs & a & Hq & Hp & Hb & -> & Ha & Hla)|(-> & _)].
    2: { exists false, (addr s). split_and!; [done|apply H|done]. }
    assert (length qs = 4%nat) as Hlq by (by destruct Hq as (? & _ & _ & ?)).
    apply (finish_text p _ bs _ qs); try done.
    + apply H.
    + by right.
    + unfold zlen in *. rewrite length_app. lia.
    + unfold zlen in *. lia.
Qed.

(** What follows the loop. *)
Definition conclude (name : list Z) (o : outcome) : option (bool * list Z) :=
  match o with
  | Return0 a => Some (false, a)
  | AtDot s => ipv4_ending name s
  | AtEnd s =>
      if negb (empty s) then
        a ← store_block s;
        ipv4_done (num_blocks s + 1) (compress_pos s) a
      else if negb (num_blocks s =? compress_pos s) then Some (false, addr s)
      else ipv4_done (num_blocks s) (compress_pos s) (addr s)
  end.
Lemma parse_conclude name out :
  ipaddr6_parse_ipv6_addr name out = o ← blocks_loop name (start out); conclude name o.
Proof. unfold ipaddr6_parse_ipv6_addr, start. destruct (blocks_loop _ _) as [[]|]; done. Qed.

(** The last piece of a text: a group, or an IPv4 address behind a colon. *)
Definition last_piece (p bs t eb : list Z) : Prop :=
  hex_group t eb \/ quad t eb /\ p <> [] /\ (length bs <= 12)%nat.

Lemma strict_short t : strict t -> zlen t <= 3.
Proof.
  intros (Hd & Hl & Hv). destruct t as [|c t]; [done|]. cbn [forallb head] in *. reflect_bool.
  destruct (Z.eq_dec c CH_0) as [->|Hc]; [by rewrite (Hl eq_refl)|]. rewrite value_cons in Hv.
  pose proof (dec_value_range t ltac:(done)). rewrite is_decimal_iff in *. reflect_bool. rewrite decode_decimal_spec in Hv.
  revert Hv. bool_true. intros Hv. rewrite zlen_cons. destruct (Z.le_gt_cases (zlen t) 2); [lia|].
  pose proof (Z.pow_le_mono_r 10 3 (zlen t) ltac:(lia) ltac:(lia)). assert (1 <= c - CH_0) by lia. nia.
Qed.
Lemma dec_is_hex c : is_digit decode_decimal_digit c = true -> is_digit decode_hex_digit c = true.
Proof.
  intros H. rewrite is_decimal_iff in H. unfold CH_0, CH_9 in H. reflect_bool. apply Z.leb_le.
  assert (c = 48 \/ c = 49 \/ c = 50 \/ c = 51 \/ c = 52 \/ c = 53 \/ c = 54 \/ c = 55 \/ c = 56 \/ c = 57) as D by lia.
  repeat (destruct D as [->|D]; [done|]). by subst.
Qed.
Lemma dec_digits_hex t : dec_digits t = true -> hex_digits t = true.
Proof. induction t as [|c t IH]; [done|]. cbn [forallb]. intros H. reflect_bool. rewrite dec_is_hex, IH; done. Qed.

Lemma quad_first t qs : quad t qs -> exists t0 r, t = t0 ++ CH_DOT :: r /\ t0 <> [] /\
  hex_digits t0 = true /\ hex_value 0 t0 <= UINT16_MAX.
Proof.
  intros (ts & -> & Hf & Hl). destruct qs as [|v [|v2 qs]]; [done|done|].
  apply Forall2_cons_inv_r in Hf as (t & ts' & Ht & Hf & ->). apply Forall2_cons_inv_r in Hf as (t2 & ts2 & _ & _ & ->).
  apply strict_octet_iff in Ht as (Hs & Hn & _). exists t, (join CH_DOT (t2 :: ts2)).
  pose proof (dec_digits_hex t (proj1 Hs)) as Hh. pose proof (hex_value_range t Hh). pose proof (strict_short t Hs).
  pose proof (Z.pow_le_mono_r 16 (zlen t) 3 ltac:(lia) ltac:(lia)). unfold UINT16_MAX.
  split_and!; [by rewrite join_cons|done|done|lia].
Qed.
Lemma quad_inj t qs qs' : quad t qs -> quad t qs' -> qs = qs'.
Proof.
  intros (q & vs & c & E & Hi & Hl & _ & ->)%run_quad (q' & vs' & c' & E' & Hi' & Hl' & _ & ->)%run_quad.
  rewrite E in E'. injection E' as <-. pose proof (in_quad_bytes _ _ _ Hi Hl). pose proof (in_quad_bytes _ _ _ Hi' Hl'). congruence.
Qed.
Lemma last_piece_head p bs t eb : last_piece p bs t eb -> head t <> Some CH_COLON.
Proof.
  intros Ht. assert (exists t0 r, t = t0 ++ r /\ t0 <> [] /\ hex_digits t0 = true) as (t0 & r & -> & Hn & Hd).
  { destruct Ht as [(? & ? & ? & _)%hex_group_block|((t0 & r & ? & ? & ? & _)%quad_first & _)]; [|eauto 6].
    exists t, []. by rewrite app_nil_r. }
  by apply hex_head_app.
Qed.

Lemma run_last p bs t eb s :
  here p [] bs s -> last_piece p bs t eb ->
  exists o a n, blocks_loop t s = Some o /\ conclude (p ++ t) o = ipv4_done n (compress_pos s) a /\
    take (length (bs ++ eb)) a = bs ++ eb /\ length a = 16%nat /\ zlen (bs ++ eb) = 2 * n /\ n <= 8.
Proof.
  intros H [Hg|(Hq & Hp & Hb)].
  - pose proof Hg as (Hd & Hv & Hn & ->)%hex_group_block.
    destruct (run_digits t [] p [] bs s H Hd Hv) as (s1 & E & H1 & E1). rewrite app_nil_r in E. rewrite E. cbn [app] in H1.
    destruct (store_block_ok _ _ _ _ H1) as (a & Es & Ha & Hla). pose proof (here_num _ _ _ _ H1). pose proof (here_max _ _ _ _ H1).
    exists (AtEnd s1), a, (num_blocks s1 + 1). split; [done|]. cbn [conclude]. rewrite (here_empty _ _ _ _ H1), bool_decide_false by done.
    cbn [negb]. rewrite Es, E1. split; [done|]. rewrite length_app. split; [done|]. split; [done|].
    rewrite zlen_app. change (zlen (block_bytes t)) with 2. lia.
  - destruct (quad_first t eb Hq) as (t0 & r & -> & Hn & Hd & Hv).
    destruct (run_digits t0 (CH_DOT :: r) p [] bs s H Hd Hv) as (s1 & E & H1 & E1). rewrite E. cbn [app] in H1.
    pose proof (here_num _ _ _ _ H1). cbn [blocks_loop]. rewrite Z.eqb_refl.
    destruct (ipv4_ending_ok p t0 bs s1 r H1) as [(qs & a & Hq' & _ & _ & Ee & Ha & Hla)|(_ & Hno)]; [|exfalso; apply Hno; eauto].
    rewrite (quad_inj _ _ _ Hq' Hq) in Ha.
    assert (length eb = 4%nat) as Hl4 by (by destruct Hq as (? & _ & _ & ?)).
    exists (AtDot s1), a, (num_blocks s1 + 2). split; [done|]. cbn [conclude]. rewrite Ee, E1. split_and!; [done|done|done| |].
    + rewrite zlen_app. unfold zlen in *. lia.
    + unfold zlen in *. lia.
Qed.

(** The double colon, behind groups or at the start. *)
Lemma run_front fs fb rest out :
  length out = 16%nat -> groups fs fb -> (length fb <= 14)%nat ->
  exists s, blocks_loop (join CH_COLON fs ++ CH_COLON :: CH_COLON :: rest) (start out) = blocks_loop rest s /\
    here (join CH_COLON fs ++ [CH_COLON; CH_COLON]) [] fb s /\ compress_pos s = num_blocks s.
Proof.
  intros Ho Hg Hl. pose proof (here_start out Ho) as H0. destruct fs as [|f fs _] using rev_ind.
  - destruct Hg as (bss & Hf & ->). apply Forall2_nil_inv_l in Hf as ->. cbn [join app concat].
    destruct (at_colon_ok [] [] [] _ true H0) as [(s' & bs' & E & H' & Ec & [[? _]|[_ ->]])|(a & _ & _ & [[_ Hn]|[? _]])]; try done.
    + exists s'. split; [|done]. cbn [blocks_loop]. change (CH_COLON =? CH_DOT) with false. rewrite !Z.eqb_refl. by rewrite E.
    + exfalso. by apply Hn.
  - apply groups_snoc_inv in Hg as (fb' & gb & -> & Hg & Hf). pose proof (hex_group_len _ _ Hf). rewrite length_app in Hl.
    rewrite <- terminated_join, <- !app_assoc.
    destruct (run_groups fs fb' (f ++ CH_COLON :: CH_COLON :: rest) [] [] _ H0 Hg) as (s1 & -> & H1 & E1).
    { cbn. lia. }
    { pose proof Hf as (Hd & _ & Hn & _)%hex_group_block. by apply hex_head_app. }
    cbn [app] in H1. destruct (run_double f gb rest _ _ _ H1 Hf) as (s2 & -> & H2 & E2).
    { pose proof (here_num _ _ _ _ H1). unfold zlen in *. lia. }
    { done. }
    by exists s2.
Qed.

Lemma end_groups_split ts bs : end_groups ts bs ->
  ts = [] /\ bs = [] \/
  exists ts' t bs' eb, ts = ts' ++ [t] /\ bs = bs' ++ eb /\ groups ts' bs' /\ (hex_group t eb \/ quad t eb).
Proof.
  intros [Hg|(ts' & t & bs' & qs & -> & -> & Hg & Hq)]; [|right; eauto 10].
  destruct ts as [|t ts _] using rev_ind.
  - left. destruct Hg as (bss & Hf & ->). by apply Forall2_nil_inv_l in Hf as ->.
  - right. apply groups_snoc_inv in Hg as (bs' & gb & -> & Hg & Ht). eauto 10.
Qed.
Lemma piece_len t eb : hex_group t eb \/ quad t eb -> (2 <= length eb)%nat.
Proof. intros [H%hex_group_len|(? & _ & _ & H)]; lia. Qed.

(** Groups and a last piece behind what was read. *)
Lemma run_back p bs ts gbs t eb s :
  here p [] bs s -> groups ts gbs -> hex_group t eb \/ quad t eb -> p ++ terminated ts <> [] \/ hex_group t eb ->
  (length bs + length gbs + length eb <= 16)%nat ->
  exists o a n, blocks_loop (terminated ts ++ t) s = Some o /\
    conclude (p ++ terminated ts ++ t) o = ipv4_done n (compress_pos s) a /\
    take (length (bs ++ gbs ++ eb)) a = bs ++ gbs ++ eb /\ length a = 16%nat /\ zlen (bs ++ gbs ++ eb) = 2 * n /\ n <= 8.
Proof.
  intros H Hg Ht Hp Hl. pose proof (piece_len _ _ Ht).
  assert (last_piece (p ++ terminated ts) (bs ++ gbs) t eb) as Hlp.
  { destruct Ht as [Ht|Ht]; [by left|]. destruct Hp as [Hp|Hp]; [right|by left]. split_and!; [done|done|].
    destruct Ht as (? & _ & _ & Hq). rewrite length_app. lia. }
  destruct (run_groups ts gbs t p bs s H Hg) as (s1 & -> & H1 & E1); [lia|by eapply last_piece_head|].
  destruct (run_last _ _ _ _ _ H1 Hlp) as (o & a & n & E & Ec & Ha). exists o, a, n. rewrite <- !app_assoc in *. rewrite <- E1. done.
Qed.

Lemma parse_ipv6_complete name out a :
  length out = 16%nat -> ipv6_text name a -> ipaddr6_parse_ipv6_addr name out = Some (true, a).
Proof.
  intros Ho Ht. rewrite parse_conclude. destruct Ht as [ts bs He Hl|fs fb rs rb Hf He Hlf Hl].
  - apply end_groups_split in He as [[-> ->]|(ts' & t & bs' & eb & -> & -> & Hg & Ht)]; [done|].
    rewrite <- terminated_join. rewrite length_app in Hl.
    destruct (run_back [] [] ts' bs' t eb _ (here_start out Ho) Hg Ht) as (o & a & n & -> & Ec & Ha & Hla & Hz & Hn).
    { destruct Ht as [Ht|Ht]; [by right|]. left. destruct Ht as (? & _ & _ & Hq). apply groups_len in Hg.
      destruct ts'; [cbn in *; lia|]. cbn. by destruct l. }
    { cbn. lia. }
    cbn [mbind option_bind app] in *. rewrite Ec. change (compress_pos (start out)) with (-1).
    destruct (ipv4_done_plain n (bs' ++ eb) a Hla Ha Hz Hn) as [-> Eq].
    assert (n = 8) as -> by (unfold zlen in Hz; rewrite length_app in Hz; lia). rewrite bool_decide_true by done. by rewrite Eq.
  - destruct (run_front fs fb (join CH_COLON rs) out Ho Hf Hlf) as (s & -> & H & Ecp). pose proof (here_num _ _ _ _ H) as Hn.
    pose proof (here_max _ _ _ _ H).
    apply end_groups_split in He as [[-> ->]|(ts' & t & bs' & eb & -> & -> & Hg & Ht)].
    + cbn [join blocks_loop mbind option_bind conclude]. rewrite (here_empty _ _ _ _ H), bool_decide_true by done. cbn [negb].
      rewrite Ecp, Z.eqb_refl. cbn [negb]. apply (ipv4_done_double _ _ fb []); rewrite ?app_nil_r; try apply H; lia.
    + rewrite length_app in Hl. rewrite <- terminated_join.
      destruct (run_back _ _ ts' bs' t eb _ H Hg Ht) as (o & a & n & -> & Ec & Ha & Hla & Hz & Hn8).
      { left. by destruct (join CH_COLON fs). }
      { lia. }
      cbn [mbind option_bind]. rewrite <- app_assoc in Ec. cbn [app] in Ec. rewrite Ec.
      apply ipv4_done_double; [done|done|lia|done|done].
Qed.

(** Parsing an IPv6 address reads nothing outside the text and writes nothing outside the
    sixteen bytes of the result and the array of the IPv4 ending, whatever the text; it succeeds with address [a]
    exactly when the text is one of [a] in the grammar: eight groups of hexadecimal digits
    separated by colons, or at most eight around one double colon that stands for the missing
    zeros, where the last two groups may be written as an IPv4 address without leading zeros. *)
Theorem ipv6_parse_correct name out :
  length out = 16%nat ->
  exists r out', ipaddr6_parse_ipv6_addr name out = Some (r, out') /\ length out' = 16%nat /\
    forall a, (r = true /\ out' = a) <-> ipv6_text name a.
Proof.
  intros Ho. destruct (parse_ipv6_sound name out Ho) as (r & a' & E & Hl & Hs). exists r, a'. split; [done|]. split; [done|].
  intros a. split; [intros [Hr <-]; auto|]. intros Ha. apply (parse_ipv6_complete _ out) in Ha; [|done].
  rewrite E in Ha. by injection Ha.
Qed.

(** "fe80::1:10.0.0.1" and "1:2::3::4" *)
Lemma ipv6_parse_correct_witness :
  (exists r out', ipaddr6_parse_ipv6_addr
      [102; 101; 56; 48; 58; 58; 49; 58; 49; 48; 46; 48; 46; 48; 46; 49] (replicate 16 9) = Some (r, out') /\
    length out' = 16%nat /\
    forall a, (r = true /\ out' = a) <-> ipv6_text [102; 101; 56; 48; 58; 58; 49; 58; 49; 48; 46; 48; 46; 48; 46; 49] a) /\
  ipaddr6_parse_ipv6_addr [102; 101; 56; 48; 58; 58; 49; 58; 49; 48; 46; 48; 46; 48; 46; 49] (replicate 16 9) =
    Some (true, [254; 128; 0; 0; 0; 0; 0; 0; 0; 0; 0; 1; 10; 0; 0; 1]) /\
  ipaddr6_parse_ipv6_addr [49; 58; 50; 58; 58; 51; 58; 58; 52] (replicate 16 9) =
    Some (false, [0; 1; 0; 2; 0; 3; 9; 9; 9; 9; 9; 9; 9; 9; 9; 9]).
Proof. split; [apply ipv6_parse_correct; reflexivity|]. split; vm_compute; reflexivity. Defined.
