(* ===== verification/IpAddr6Print.v ===== *)
(** * Printed IPv6 addresses, masks and networks (misc/ipaddr6.h)

    The printed text of every address is the recommended one, fits the buffer the header asks for,
    and is parsed back; masks and prefix lengths are inverse to each other, in both versions of
    the protocol, and the network test compares the leading bits. *)

From S2P Require Import Prelude ByteOrder ParseNumber IpAddr IpAddr6.
Import Text.

(** ** Printed addresses: the groups of an address *)
Fixpoint words (a : list Z) : list Z :=
  match a with h :: l :: a => (h * 256 + l) :: words a | _ => [] end.
Definition word_bytes (w : Z) : list Z := [w / 256; w mod 256].

(** [k] groups from group [i] on are zero. *)
Definition zero_run (a : list Z) (i k : nat) : Prop :=
  (i + k <= length (words a))%nat /\ take k (drop i (words a)) = replicate k 0.

(** The recommended text (RFC 5952): groups without leading zeros; the longest run of at least two
    zero groups, the first one of them, is left out at a double colon. *)
Definition canonical_text (a t : list Z) : Prop :=
  let ts := map fmt_x (words a) in
  (exists i k, (2 <= k)%nat /\ zero_run a i k /\
     (forall i' k', zero_run a i' k' -> (k' <= k)%nat /\ (k' = k -> (i <= i')%nat)) /\
     t = join CH_COLON (take i ts) ++ CH_COLON :: CH_COLON :: join CH_COLON (drop (i + k) ts)) \/
  ((forall i k, zero_run a i k -> (k <= 1)%nat) /\ t = join CH_COLON ts).

Lemma words16 a : length a = 16%nat -> bytes_ok a ->
  length (words a) = 8%nat /\ Forall (fun w => 0 <= w < 65536) (words a) /\ concat (map word_bytes (words a)) = a /\
  (forall i, (i < 8)%nat -> exists h l w, a !! (2 * i)%nat = Some h /\ a !! (2 * i + 1)%nat = Some l /\
     words a !! i = Some w /\ is_byte h /\ is_byte l /\ w = h * 256 + l).
Proof.
  intros Hl Hb. do 16 (destruct a as [|? a]; [done|]). destruct a; [|done]. clear Hl.
  unfold bytes_ok in Hb. rewrite !list.Forall_cons in Hb. destruct_and? Hb.
  split_and!; [done| | |].
  - cbn [words]. unfold is_byte in *. repeat (apply list.Forall_cons; split; [lia|]). constructor.
  - cbn [words map concat word_bytes app]. unfold is_byte in *.
    rewrite !(Z.add_comm (_ * 256)), !Z.div_add, !Z.mod_add, !Z.mod_small, !Z.div_small, !Z.add_0_l by lia. done.
  - intros i Hi. do 8 (destruct i as [|i]; [cbn; eauto 10|]). lia.
Qed.

Lemma addr_block_ok a i w : length a = 16%nat -> bytes_ok a -> words a !! i = Some w ->
  addr_block a (Z.of_nat i) = Some w.
Proof.
  intros Hl Hb Hw. destruct (words16 a Hl Hb) as (Hlw & _ & _ & Hi).
  destruct (Hi i) as (h & l & w' & Eh & El & Ew & Hh & Hlo & ->); [apply lookup_lt_Some in Hw; lia|].
  rewrite Hw in Ew. injection Ew as ->. unfold addr_block, addr_byte. unfold is_byte in *.
  rewrite (proj2 (Z.ltb_ge (2 * Z.of_nat i) 0)), (proj2 (Z.ltb_ge (2 * Z.of_nat i + 1) 0)) by lia.
  replace (Z.to_nat (2 * Z.of_nat i)) with (2 * i)%nat by lia.
  replace (Z.to_nat (2 * Z.of_nat i + 1)) with (2 * i + 1)%nat by lia. rewrite Eh, El. cbn [mbind option_bind]. f_equal.
  rewrite Z.shiftl_mul_pow2, uwrap_small by lia. change (2 ^ 8) with 256. by rewrite (lor_disjoint 8) by lia.
Qed.

(** *** The longest run: only which groups are zero matters, and there are 256 cases *)
Fixpoint runs_of (zs : list bool) (i : Z) (r : runs) : runs :=
  match zs with
  | [] => r
  | z :: zs =>
      runs_of zs (i + 1)
        (if z then
           let current_len := current_len r + 1 in
           if largest_len r <? current_len
           then {| largest_start := current_start r; largest_len := current_len;
                   current_start := current_start r; current_len := current_len |}
           else {| largest_start := largest_start r; largest_len := largest_len r;
                   current_start := current_start r; current_len := current_len |}
         else {| largest_start := largest_start r; largest_len := largest_len r;
                 current_start := i + 1; current_len := 0 |})
  end.
Definition no_runs : runs := {| largest_start := 0; largest_len := 0; current_start := 0; current_len := 0 |}.
Definition zero_flags (a : list Z) : list bool := map (fun w => w =? 0) (words a).

Lemma runs_loop_flags a n i r : length a = 16%nat -> bytes_ok a -> (i + n = 8)%nat ->
  runs_loop n (Z.of_nat i) a r = Some (runs_of (drop i (zero_flags a)) (Z.of_nat i) r).
Proof.
  intros Hl Hb. destruct (words16 a Hl Hb) as (Hlw & _ & _ & Hi). revert i r. induction n as [|n IH]; intros i r Hn.
  - rewrite drop_ge by (unfold zero_flags; rewrite length_map; lia). done.
  - destruct (Hi i ltac:(lia)) as (h & l & w & Eh & El & Ew & Hh & Hlo & ->).
    assert (zero_flags a !! i = Some ((h =? 0) && (l =? 0))) as Ez.
    { unfold zero_flags. rewrite list_lookup_fmap, Ew. cbn. f_equal. unfold is_byte in *.
      destruct (Z.eqb_spec h 0), (Z.eqb_spec l 0); cbn [andb]; [apply Z.eqb_eq|apply Z.eqb_neq..]; lia. }
    rewrite (drop_S _ _ _ Ez). cbn [runs_loop runs_of]. unfold addr_byte.
    rewrite (proj2 (Z.ltb_ge (2 * Z.of_nat i) 0)), (proj2 (Z.ltb_ge (2 * Z.of_nat i + 1) 0)) by lia.
    replace (Z.to_nat (2 * Z.of_nat i)) with (2 * i)%nat by lia.
    replace (Z.to_nat (2 * Z.of_nat i + 1)) with (2 * i + 1)%nat by lia. rewrite Eh, El. cbn [mbind option_bind].
    replace (Z.of_nat i + 1) with (Z.of_nat (S i)) by lia. apply IH. lia.
Qed.

Definition flag_run (zs : list bool) (i k : nat) : bool := (i + k <=? length zs)%nat && forallb id (take k (drop i zs)).
(** The run found is one, of at least one group if there is any, and no other is longer or as long and earlier. *)
Definition longest_run (zs : list bool) (r : runs) : bool :=
  let i := Z.to_nat (largest_start r) in
  let k := Z.to_nat (largest_len r) in
  (0 <=? largest_start r) && (0 <=? largest_len r) && flag_run zs i k &&
  forallb (fun i' => forallb (fun k' =>
    negb (flag_run zs i' k') || (k' <? k)%nat || ((k' =? k)%nat && ((i <=? i')%nat || (k' =? 0)%nat))) (seq 0 9)) (seq 0 9).
Fixpoint all_flags (n : nat) : list (list bool) :=
  match n with O => [[]] | S n => map (cons true) (all_flags n) ++ map (cons false) (all_flags n) end.
Lemma all_flags_complete zs : In zs (all_flags (length zs)).
Proof. induction zs as [|[] zs IH]; [by left| |]; cbn; apply in_app_iff; [left|right]; by apply in_map. Qed.

Lemma runs_of_longest zs : length zs = 8%nat -> longest_run zs (runs_of zs 0 no_runs) = true.
Proof.
  intros Hl. assert (forallb (fun zs => longest_run zs (runs_of zs 0 no_runs)) (all_flags 8) = true) as H by (vm_compute; reflexivity).
  rewrite forallb_forall in H. apply H. rewrite <- Hl. apply all_flags_complete.
Qed.

Lemma zero_run_flags a i k : zero_run a i k <-> flag_run (zero_flags a) i k = true.
Proof.
  unfold zero_run, flag_run, zero_flags. rewrite length_map, andb_true_iff, Nat.leb_le.
  assert (forall ws, take k ws = replicate (length (take k ws)) 0 <-> forallb id (take k (map (fun w => w =? 0) ws)) = true) as H.
  { clear. induction k as [|k IH]; intros [|w ws]; try done. cbn. rewrite andb_true_iff, <- IH. unfold id. rewrite Z.eqb_eq.
    split; [intros [= -> E]; by rewrite <- E|intros [-> E]; by f_equal]. }
  split; intros [Hl E]; (split; [done|]).
  - rewrite skipn_map. apply H. rewrite E, length_replicate. done.
  - rewrite skipn_map in E. apply H in E. rewrite E, length_take, length_drop. f_equal. lia.
Qed.
Lemma flag_run_short zs i k : length zs = 8%nat -> flag_run zs i k = true -> (i <= 8)%nat /\ (k <= 8)%nat.
Proof. unfold flag_run. intros Hl H. apply andb_true_iff in H as [H _]. apply Nat.leb_le in H. lia. Qed.

(** What the loop finds: a run, and no run is longer, or as long and earlier. *)
Lemma runs_loop_ok a : length a = 16%nat -> bytes_ok a ->
  exists r i k, runs_loop 8 0 a no_runs = Some r /\ largest_start r = Z.of_nat i /\ largest_len r = Z.of_nat k /\
    zero_run a i k /\
    forall i' k', zero_run a i' k' -> (k' <= k)%nat /\ (k' = k -> (i <= i')%nat \/ k = 0%nat).
Proof.
  intros Hl Hb. destruct (words16 a Hl Hb) as (Hlw & _ & _ & _).
  assert (length (zero_flags a) = 8%nat) as Hz by (unfold zero_flags; by rewrite length_map).
  pose proof (runs_loop_flags a 8 0 no_runs Hl Hb ltac:(lia)) as E. rewrite drop_0 in E.
  set (r := runs_of (zero_flags a) (Z.of_nat 0) no_runs) in *. pose proof (runs_of_longest _ Hz) as Hr.
  change (runs_of (zero_flags a) 0 no_runs) with r in Hr. unfold longest_run in Hr.
  apply andb_true_iff in Hr as [Hr Hmax]. reflect_bool.
  exists r, (Z.to_nat (largest_start r)), (Z.to_nat (largest_len r)).
  split_and!; [done|lia|lia|by apply zero_run_flags|]. intros i' k' H'%zero_run_flags.
  destruct (flag_run_short _ _ _ Hz H'). rewrite forallb_forall in Hmax.
  specialize (Hmax i' ltac:(apply in_seq; lia)). rewrite forallb_forall in Hmax. specialize (Hmax k' ltac:(apply in_seq; lia)).
  rewrite H' in Hmax. cbn [negb orb] in Hmax.
  rewrite orb_true_iff, andb_true_iff, orb_true_iff, Nat.ltb_lt, !Nat.eqb_eq, Nat.leb_le in Hmax. lia.
Qed.

(** *** Writing the text *)

(** The text [T] is in the buffer of [n] bytes, with the cursor behind it, and terminated unless
    nothing was written. *)
Definition wrote (n : Z) (T : list Z) (out : list Z * Z) : Prop :=
  take (length T) out.1 = T /\ out.2 = zlen T /\ zlen out.1 = n /\ (T = [] \/ out.1 !! length T = Some 0).

Lemma sprintf_wrote n T out t : wrote n T out -> zlen (T ++ t) < n -> (T <> [] \/ t <> []) ->
  exists out', sprintf out.1 out.2 t = Some out' /\ wrote n (T ++ t) out'.
Proof.
  intros (Ht & Hp & Hn & _) Hl Hne. unfold sprintf. rewrite Hp, Hn. rewrite zlen_app in Hl.
  pose proof (zlen_nonneg T). pose proof (zlen_nonneg t). bool_true. eexists. split; [done|].
  assert (splice out.1 (zlen T) (t ++ [0]) = (T ++ t) ++ 0 :: drop (length T + length t + 1) out.1) as E.
  { unfold splice. rewrite zlen_app. unfold zlen. rewrite Nat2Z.id, Ht, <- !app_assoc. cbn [app length]. do 4 f_equal. lia. }
  unfold wrote. cbn [fst snd]. rewrite E. split_and!.
  - apply take_app_length.
  - by rewrite zlen_app.
  - rewrite <- E, zlen_splice; rewrite ?zlen_app; change (zlen [0]) with 1; lia.
  - right. rewrite lookup_app_r, Nat.sub_diag; done.
Qed.
Lemma wrote_cstr n T out : wrote n T out -> T <> [] -> Forall (fun c => c <> 0) T -> cstr out.1 = Some T.
Proof.
  intros (Ht & _ & _ & [?|Hz]) Hn Hc; [done|]. rewrite <- (take_drop (length T) out.1), Ht.
  rewrite (drop_S _ _ _ Hz). by apply cstr_app.
Qed.

Lemma print_blocks_ok n a before after k i T out :
  length a = 16%nat -> bytes_ok a -> (i + k <= 8)%nat -> (before <> [] \/ after <> []) ->
  let U := concat (map (fun w => before ++ fmt_x w ++ after) (take k (drop i (words a)))) in
  wrote n T out -> zlen (T ++ U) < n ->
  exists out', print_blocks k (Z.of_nat i) before after a out = Some out' /\ wrote n (T ++ U) out'.
Proof.
  intros Hl Hb. destruct (words16 a Hl Hb) as (Hlw & _ & _ & _). revert i T out. induction k as [|k IH]; intros i T out Hi Hne U Hw Hz.
  - exists out. unfold U. cbn. by rewrite app_nil_r.
  - destruct (lookup_lt_is_Some_2 (words a) i ltac:(lia)) as [w Ew]. unfold U in *. rewrite (drop_S _ _ _ Ew) in *.
    cbn [take map concat] in *. rewrite app_assoc in *. cbn [print_blocks]. rewrite (addr_block_ok a i w) by done. cbn [mbind option_bind].
    rewrite zlen_app in Hz. match type of Hz with _ + zlen ?u < _ => pose proof (zlen_nonneg u) end.
    destruct (sprintf_wrote n T out (before ++ fmt_x w ++ after) Hw) as (out1 & -> & H1); [lia| |].
    { right. intros E. apply app_nil in E as [-> E]. apply app_nil in E as [_ ->]. by destruct Hne. }
    cbn [mbind option_bind]. replace (Z.of_nat i + 1) with (Z.of_nat (S i)) by lia. apply IH; [lia|done|done|by rewrite zlen_app].
Qed.
Lemma print_prefixed_ok n a k i T out :
  length a = 16%nat -> bytes_ok a -> (i + k <= 8)%nat ->
  let U := concat (map (fun w => CH_COLON :: fmt_x w) (take k (drop i (words a)))) in
  wrote n T out -> zlen (T ++ U) < n ->
  exists out', print_prefixed k (Z.of_nat i) [CH_COLON] a out = Some out' /\ wrote n (T ++ U) out'.
Proof.
  intros Hl Hb Hi U Hw Hz.
  assert (forall k i out, print_prefixed k i [CH_COLON] a out = print_blocks k i [CH_COLON] [] a out) as E.
  { clear. induction k as [|k IH]; intros i out; [done|]. cbn [print_prefixed print_blocks].
    destruct (addr_block a i) as [b|]; [|done]. cbn [mbind option_bind]. rewrite app_nil_r.
    destruct (sprintf _ _ _); [|done]. apply IH. }
  rewrite E. destruct (print_blocks_ok n a [CH_COLON] [] k i T out Hl Hb Hi ltac:(by left)) as (out' & Ep & Hw').
  { done. }
  { by setoid_rewrite app_nil_r. }
  exists out'. split; [done|]. setoid_rewrite app_nil_r in Hw'. exact Hw'.
Qed.

(** *** The whole text *)
Lemma front_text (ws : list Z) :
  concat (map (fun w => [] ++ fmt_x w ++ [CH_COLON]) ws) ++ (if bool_decide (ws = []) then [CH_COLON] else []) =
  join CH_COLON (map fmt_x ws) ++ [CH_COLON].
Proof.
  assert (concat (map (fun w => [] ++ fmt_x w ++ [CH_COLON]) ws) = terminated (map fmt_x ws)) as ->.
  { unfold terminated_by. rewrite map_map. done. }
  destruct ws as [|w ws _] using rev_ind; [done|]. rewrite bool_decide_false by (by destruct ws).
  rewrite map_app. cbn [map]. rewrite terminated_snoc, app_nil_r, <- terminated_join, app_assoc. done.
Qed.
Lemma back_text (ws : list Z) :
  concat (map (fun w => [CH_COLON] ++ fmt_x w ++ []) ws) ++ (if bool_decide (ws = []) then [CH_COLON] else []) =
  CH_COLON :: join CH_COLON (map fmt_x ws).
Proof.
  destruct ws as [|w ws]; [done|]. rewrite bool_decide_false by done. rewrite app_nil_r. cbn. rewrite app_nil_r. do 2 f_equal.
  induction ws as [|v ws IH]; [done|]. cbn. by rewrite app_nil_r, IH.
Qed.

Lemma fmt_x_len w : 0 <= w < 65536 -> zlen (fmt_x w) <= 4.
Proof. intros. pose proof (print_base_len 16 w 3 ltac:(lia) ltac:(cbn; lia)). unfold zlen. lia. Qed.
Lemma zlen_groups ws : Forall (fun w => 0 <= w < 65536) ws -> zlen (join CH_COLON (map fmt_x ws)) <= 5 * zlen ws.
Proof.
  intros Hw. destruct ws as [|w ws]; [done|].
  pose proof (zlen_join CH_COLON (map fmt_x (w :: ws)) 4) as H. unfold zlen in *. rewrite length_map in H.
  specialize (H ltac:(apply Forall_map; eapply list.Forall_impl; [exact Hw|exact fmt_x_len]) ltac:(done)). lia.
Qed.

Lemma zlen_pieces (f : Z -> list Z) ws m :
  Forall (fun w => zlen (f w) <= m) ws -> zlen (concat (map f ws)) <= m * zlen ws.
Proof.
  intros Hf. induction Hf as [|w ws Hw _ IH]; [cbn; unfold zlen; cbn; lia|]. cbn [map concat]. rewrite zlen_app, zlen_cons. lia.
Qed.
Lemma pieces_le before after ws :
  zlen before + zlen after = 1 -> Forall (fun w => 0 <= w < 65536) ws ->
  zlen (concat (map (fun w => before ++ fmt_x w ++ after) ws)) <= 5 * zlen ws.
Proof.
  intros H1 Hw. apply zlen_pieces. eapply list.Forall_impl; [exact Hw|]. intros w Hr. cbn beta. rewrite !zlen_app.
  pose proof (fmt_x_len w Hr). lia.
Qed.

(** The groups before the double colon with its first colon, and the second colon with the groups behind it. *)
Section print.
Context (a : list Z) (n : Z) (Hl : length a = 16%nat) (Hb : bytes_ok a).

Lemma print_front_ok i out :
  (i <= 8)%nat -> zlen out = n -> 5 * Z.of_nat i + 1 < n ->
  exists o, (o ← print_blocks i 0 [] [CH_COLON] a (out, 0);
             if Z.of_nat i =? 0 then sprintf o.1 o.2 [CH_COLON] else Some o) = Some o /\
    wrote n (join CH_COLON (map fmt_x (take i (words a))) ++ [CH_COLON]) o.
Proof.
  intros Hi Ho Hn. destruct (words16 a Hl Hb) as (Hlw & Hw & _ & _). rewrite <- front_text. set (fw := take i (words a)).
  assert (length fw = i) as Lf by (unfold fw; rewrite length_take; lia).
  pose proof (pieces_le [] [CH_COLON] fw eq_refl ltac:(by apply Forall_take)) as Zf. unfold zlen in Zf at 2. rewrite Lf in Zf.
  destruct (print_blocks_ok n a [] [CH_COLON] i 0 [] (out, 0) Hl Hb ltac:(lia) ltac:(by right)) as (o1 & E1 & W1).
  { split_and!; [done|done|done|by left]. }
  { rewrite drop_0. fold fw. cbn [app] in *. lia. }
  change (Z.of_nat 0) with 0 in E1. rewrite E1. rewrite drop_0 in W1. fold fw in W1. cbn [mbind option_bind]. change ([] ++ ?l) with l in W1.
  destruct (Z.eqb_spec (Z.of_nat i) 0).
  - rewrite bool_decide_true by (apply nil_length_inv; lia).
    apply sprintf_wrote; [done|rewrite zlen_app; change (zlen [CH_COLON]) with 1; lia|by right].
  - rewrite bool_decide_false by (intros E; apply (f_equal length) in E; cbn in E; lia). rewrite app_nil_r. by exists o1.
Qed.

Lemma print_back_ok j T o :
  (j <= 8)%nat -> wrote n T o -> T <> [] -> zlen T + 5 * Z.of_nat (8 - j) + 1 < n ->
  exists o', (o ← print_blocks (8 - j) (Z.of_nat j) [CH_COLON] [] a o;
              if Z.of_nat j =? 8 then sprintf o.1 o.2 [CH_COLON] else Some o) = Some o' /\
    wrote n (T ++ CH_COLON :: join CH_COLON (map fmt_x (drop j (words a)))) o'.
Proof.
  intros Hj W HT Hn. destruct (words16 a Hl Hb) as (Hlw & Hw & _ & _). rewrite <- back_text. set (bw := drop j (words a)).
  assert (length bw = (8 - j)%nat) as Lb by (unfold bw; rewrite length_drop; lia).
  pose proof (pieces_le [CH_COLON] [] bw eq_refl ltac:(by apply Forall_drop)) as Zb. unfold zlen in Zb at 2. rewrite Lb in Zb.
  assert (take (8 - j) (drop j (words a)) = bw) as Ebw by (fold bw; apply take_ge; lia).
  destruct (print_blocks_ok n a [CH_COLON] [] (8 - j) j T o Hl Hb ltac:(lia) ltac:(by left) W) as (o1 & E1 & W1).
  { rewrite Ebw, zlen_app. lia. }
  rewrite E1. rewrite Ebw in W1. cbn [mbind option_bind]. rewrite (app_assoc T). destruct (Z.eqb_spec (Z.of_nat j) 8).
  - rewrite bool_decide_true by (apply nil_length_inv; lia).
    apply sprintf_wrote; [done|rewrite !zlen_app; change (zlen [CH_COLON]) with 1; lia|by right].
  - rewrite bool_decide_false by (intros E; apply (f_equal length) in E; cbn in E; lia). rewrite app_nil_r. by exists o1.
Qed.

Lemma print_plain_ok out : zlen out = n -> 40 <= n ->
  exists o, print_prefixed 8 0 [] a (out, 0) = Some o /\ wrote n (join CH_COLON (map fmt_x (words a))) o.
Proof.
  intros Ho Hn. destruct (words16 a Hl Hb) as (Hlw & Hw & _ & _).
  destruct (words a) as [|w ws] eqn:Ew; [done|].
  change (print_prefixed 8 0 [] a (out, 0)) with
    (b ← addr_block a 0; o ← sprintf out 0 ([] ++ fmt_x b); print_prefixed 7 1 [CH_COLON] a o). pose proof (addr_block_ok a 0 w Hl Hb ltac:(by rewrite Ew)) as Ea.
  change (Z.of_nat 0) with 0 in Ea. rewrite Ea. cbn [mbind option_bind app]. apply list.Forall_cons in Hw as [Hw Hws].
  pose proof (fmt_x_len w Hw). destruct (fmt_x_ok w ltac:(lia)) as (_ & _ & Hne).
  destruct (sprintf_wrote n [] (out, 0) (fmt_x w)) as (o1 & E1 & W1); [split_and!; [done|done|done|by left]|cbn [app]; lia| |].
  { right. intros E. rewrite E in Hne. cbn in Hne. lia. }
  cbn [fst snd] in E1. rewrite E1. cbn [mbind option_bind app] in *.
  assert (take 7 (drop 1 (words a)) = ws) as Et.
  { rewrite Ew. change (drop 1 (w :: ws)) with (drop 0 ws). rewrite drop_0. apply take_ge. cbn in Hlw. lia. }
  destruct (print_prefixed_ok n a 7 1 (fmt_x w) o1 Hl Hb ltac:(lia) W1) as (o & E & W); rewrite ?Et in *.
  - rewrite zlen_app. pose proof (pieces_le [CH_COLON] [] ws eq_refl Hws) as Hp. setoid_rewrite app_nil_r in Hp. unfold zlen in Hp at 2.
    cbn in Hlw. cbn [app] in Hp. lia.
  - exists o. split; [exact E|]. cbn [map join]. by rewrite map_map.
Qed.

Lemma print_addr_ok out : zlen out = n -> 40 <= n ->
  exists o text, ipaddr6_print_addr a out = Some o /\ wrote n text o /\ canonical_text a text.
Proof.
  intros Ho Hn. destruct (runs_loop_ok a Hl Hb) as (r & i & k & Er & Es & Ek & Hz & Hmax).
  destruct (words16 a Hl Hb) as (Hlw & _ & _ & _). assert (i + k <= 8)%nat as Hik by (destruct Hz; lia).
  unfold ipaddr6_print_addr. fold no_runs. rewrite Er. cbn [mbind option_bind]. rewrite Es, Ek.
  destruct (Z.ltb_spec 1 (Z.of_nat k)) as [Hk|Hk].
  - rewrite Nat2Z.id. replace (Z.to_nat (8 - (Z.of_nat i + Z.of_nat k))) with (8 - (i + k))%nat by lia.
    replace (Z.of_nat i + Z.of_nat k) with (Z.of_nat (i + k)) by lia.
    destruct (print_front_ok i out ltac:(lia) Ho ltac:(lia)) as (o2 & E2 & W2).
    destruct (print_blocks i 0 [] [CH_COLON] a (out, 0)) as [o1|]; [|done]. cbn [mbind option_bind] in *. rewrite E2. cbn [mbind option_bind].
    pose proof (zlen_groups (take i (words a)) ltac:(apply Forall_take, words16; done)) as Hg.
    unfold zlen in Hg at 2. rewrite length_take in Hg.
    destruct (print_back_ok (i + k) _ o2 ltac:(lia) W2) as (o & -> & W); [by destruct (join _ _)| |].
    { rewrite zlen_app. change (zlen [CH_COLON]) with 1. lia. }
    exists o. eexists. split; [done|]. split; [exact W|]. left. exists i, k. split; [lia|]. split; [done|].
    split; [intros i' k' H'; destruct (Hmax i' k' H'); split; [done|]; intros E; destruct (H0 E); lia|].
    rewrite firstn_map, skipn_map, <- app_assoc. done.
  - destruct (print_plain_ok out Ho Hn) as (o & -> & W). exists o. eexists. split; [done|]. split; [exact W|]. right.
    split; [|done]. intros i' k' H'. destruct (Hmax i' k' H'). lia.
Qed.
End print.

(** *** The printed text is one of the grammar *)
Lemma word_group w : 0 <= w < 65536 -> hex_group (fmt_x w) (word_bytes w).
Proof.
  intros Hw. destruct (fmt_x_ok w ltac:(lia)) as (Hd & Hv & Hl). split; [done|].
  split; [by intros E; rewrite E in Hl; cbn in Hl; lia|]. exists w. unfold UINT16_MAX. split_and!; [done|lia|done].
Qed.
Lemma words_groups ws : Forall (fun w => 0 <= w < 65536) ws -> groups (map fmt_x ws) (concat (map word_bytes ws)).
Proof.
  intros Hw. exists (map word_bytes ws). split; [|done].
  induction Hw; constructor; auto using word_group.
Qed.
Lemma word_bytes_len ws : length (concat (map word_bytes ws)) = (2 * length ws)%nat.
Proof. induction ws as [|w ws IH]; [done|]. cbn in *. lia. Qed.
Lemma zero_words k : concat (map word_bytes (replicate k 0)) = replicate (2 * k) 0.
Proof.
  induction k as [|k IH]; [done|]. cbn [replicate map concat]. rewrite IH. replace (2 * S k)%nat with (S (S (2 * k))) by lia. done.
Qed.

Lemma canonical_is_text a t : length a = 16%nat -> bytes_ok a -> canonical_text a t -> ipv6_text t a.
Proof.
  intros Hl Hb Hc. destruct (words16 a Hl Hb) as (Hlw & Hw & Ha & _). destruct Hc as [(i & k & Hk & [Hik Hz] & _ & ->)|[_ ->]].
  - rewrite firstn_map, skipn_map. set (fw := take i (words a)). set (bw := drop (i + k) (words a)).
    assert (length fw = i /\ length bw = (8 - (i + k))%nat) as [Lf Lb] by (unfold fw, bw; rewrite length_take, length_drop; lia).
    assert (a = concat (map word_bytes fw) ++
      replicate (16 - length (concat (map word_bytes fw)) - length (concat (map word_bytes bw))) 0 ++ concat (map word_bytes bw)) as E.
    { rewrite <- Ha at 1. rewrite <- (take_drop i (words a)) at 1. rewrite <- (take_drop k (drop i (words a))) at 1.
      rewrite Hz, drop_drop. fold fw bw. rewrite !map_app, !concat_app, zero_words, !word_bytes_len, Lf, Lb. do 3 f_equal. lia. }
    rewrite E at 1. apply text_compressed.
    + apply words_groups. by apply Forall_take.
    + left. apply words_groups. by apply Forall_drop.
    + rewrite word_bytes_len. lia.
    + rewrite !word_bytes_len. lia.
  - rewrite <- Ha at 2. apply text_full; [left; by apply words_groups|by rewrite Ha].
Qed.

Lemma hex_digits_clean_of c t : is_digit decode_hex_digit c = false -> hex_digits t = true -> clean c t.
Proof. intros Hc Ht Hin. rewrite forallb_forall in Ht. rewrite Ht in Hc; [done|]. by apply list_elem_of_In. Qed.
Lemma fmt_x_clean c ws : is_digit decode_hex_digit c = false -> Forall (fun w => 0 <= w < 65536) ws -> Forall (clean c) (map fmt_x ws).
Proof.
  intros Hc Hw. apply Forall_map. eapply list.Forall_impl; [exact Hw|]. intros w Hr.
  apply hex_digits_clean_of; [done|]. apply fmt_x_ok; cbn beta in Hr; lia.
Qed.
Lemma canonical_shape a t : length a = 16%nat -> bytes_ok a -> canonical_text a t ->
  zlen t <= 39 /\ t <> [] /\ forall c, c <> CH_COLON -> is_digit decode_hex_digit c = false -> clean c t.
Proof.
  intros Hl Hb Hc. destruct (words16 a Hl Hb) as (Hlw & Hw & _ & _). destruct Hc as [(i & k & Hk & [Hik _] & _ & ->)|[_ ->]].
  - rewrite firstn_map, skipn_map. assert (Forall (fun w => 0 <= w < 65536) (take i (words a))) as W1 by by apply Forall_take.
    assert (Forall (fun w => 0 <= w < 65536) (drop (i + k) (words a))) as W2 by by apply Forall_drop.
    pose proof (zlen_groups _ W1) as Z1. pose proof (zlen_groups _ W2) as Z2. unfold zlen in Z1 at 2. unfold zlen in Z2 at 2.
    rewrite length_take, length_drop, Hlw in *. split_and!.
    + rewrite zlen_app, !zlen_cons. lia.
    + by destruct (join _ _).
    + intros c Hn Hd. unfold clean. rewrite not_elem_of_app, !not_elem_of_cons.
      split_and!; try done; apply clean_join; auto using fmt_x_clean.
  - pose proof (zlen_join CH_COLON (map fmt_x (words a)) 4) as H. unfold zlen in H at 3. rewrite length_map, Hlw in H.
    split_and!; [apply H| |].
    + apply Forall_map. eapply list.Forall_impl; [exact Hw|]. exact fmt_x_len.
    + by destruct (words a).
    + destruct (words a) as [|w ws]; [done|]. apply list.Forall_cons in Hw as [Hr _]. destruct (fmt_x_ok w ltac:(lia)) as (_ & _ & Hne).
      cbn [map join]. intros E. apply app_nil in E as [E _]. rewrite E in Hne. cbn in Hne. lia.
    + intros c Hn Hd. apply clean_join; auto using fmt_x_clean.
Qed.

(** An IPv6 address is printed inside a buffer of [IPADDR6_PRINT_MAX] bytes, as a C string that
    is the recommended text of the address (RFC 5952): lower-case groups without leading zeros,
    and the first longest run of two or more zero groups compressed.  Parsing it gives the address back,
    and so does the text with a prefix length, for the address and the prefix. *)
Theorem ipv6_print_roundtrip a prefix out a0 p0 :
  length a = 16%nat -> bytes_ok a -> 0 <= prefix <= 128 -> zlen out = IPADDR6_PRINT_MAX -> length a0 = 16%nat ->
  (exists o text, ipaddr6_print_addr a out = Some o /\ zlen o.1 = IPADDR6_PRINT_MAX /\ cstr o.1 = Some text /\
     canonical_text a text /\ ipaddr6_parse_ipv6_addr text a0 = Some (true, a)) /\
  (exists mem text, ipaddr6_print_ifaddr {| if6_addr := a; if6_prefix := prefix |} out = Some mem /\
     zlen mem = IPADDR6_PRINT_MAX /\ cstr mem = Some text /\
     ipaddr6_parse_ipv6_ifaddr text a0 p0 = Some (true, (a, prefix))).
Proof.
  intros Hl Hb Hp Ho Ha0. unfold IPADDR6_PRINT_MAX in *. destruct (print_addr_ok a 44 Hl Hb out Ho ltac:(lia)) as (o & text & E & W & Hc).
  pose proof (canonical_is_text a text Hl Hb Hc) as Ht. destruct (canonical_shape a text Hl Hb Hc) as (Hz & Hne & Hcl).
  pose proof (wrote_cstr _ _ _ W Hne ltac:(apply no_nul_clean, Hcl; done)) as Ec. split.
  - exists o, text. split_and!; [done|apply W|done|done|by apply parse_ipv6_complete].
  - pose proof (octet_print prefix ltac:(unfold is_byte; lia)) as Hpr. destruct (Hpr) as (Hpd & Hpl & _).
    set (full := text ++ CH_SLASH :: fmt_u prefix).
    destruct (sprintf_wrote 44 text o (CH_SLASH :: fmt_u prefix) W) as (o' & E' & W'); [rewrite zlen_app, zlen_cons; lia|by left|].
    exists o'.1, full. unfold ipaddr6_print_ifaddr. cbn [if6_addr if6_prefix]. repeat bool_true. rewrite E. cbn [mbind option_bind].
    rewrite Ec. cbn [mbind option_bind]. assert (o.2 = zlen text) as Eo by apply W. rewrite Eo in E'. rewrite E'. split_and!; [done|apply W'| |].
    { apply (wrote_cstr _ _ _ W'); [by destruct text|]. apply no_nul_clean. unfold clean. rewrite not_elem_of_app, not_elem_of_cons.
      split_and!; [by apply Hcl|done|by apply (dec_digits_clean 0)]. }
    unfold ipaddr6_parse_ipv6_ifaddr, MemRef_FindChar, full. rewrite find_char_app by (by apply Hcl). rewrite Z.add_0_l.
    unfold MemRef_SubTo, MemRef_SubFrom. rewrite zlen_app, zlen_cons. pose proof (zlen_nonneg text). repeat bool_true.
    cbn [mbind option_bind]. rewrite (take_app_length' text) by (unfold zlen; lia). rewrite (parse_ipv6_complete _ _ a) by done.
    cbn [mbind option_bind]. rewrite drop_app_ge by (unfold zlen; lia).
    replace (Z.to_nat (zlen text + 1) - length text)%nat with 1%nat by (unfold zlen; lia).
    change (drop 1 (CH_SLASH :: fmt_u prefix)) with (fmt_u prefix). unfold ipaddr6_parse_ipv6_prefix.
    rewrite (parse_prefix_print _ 128) by lia. by bool_false.
Qed.

(** 2001:db8::1:0:0:1/64 *)
Lemma ipv6_print_roundtrip_witness :
  let a := [32; 1; 13; 184; 0; 0; 0; 0; 0; 1; 0; 0; 0; 0; 0; 1] in
  exists mem text, ipaddr6_print_ifaddr {| if6_addr := a; if6_prefix := 64 |} (replicate 44 7) = Some mem /\
    cstr mem = Some text /\
    text = [50; 48; 48; 49; 58; 100; 98; 56; 58; 58; 49; 58; 48; 58; 48; 58; 49; 47; 54; 52] /\
    ipaddr6_parse_ipv6_ifaddr text (replicate 16 0) 0 = Some (true, (a, 64)).
Proof.
  intros a. destruct (ipv6_print_roundtrip a 64 (replicate 44 7) (replicate 16 0) 0) as [_ (mem & text & H1 & _ & H2 & H3)];
    [reflexivity|repeat constructor; unfold is_byte; lia|lia|reflexivity|reflexivity|].
  exists mem, text. split; [exact H1|]. split; [exact H2|]. split; [|exact H3].
  vm_compute in H1. injection H1 as <-. vm_compute in H2. by injection H2 as <-.
Defined.

(** ** Masks *)

(** The mask of a prefix length: full bytes, at most one partial byte, zero bytes. *)
Definition mask6 (p : Z) : list Z :=
  let q := Z.to_nat (p / 8) in
  replicate q 255 ++
  (if p mod 8 =? 0 then replicate (16 - q) 0 else or_bits (Z.to_nat (p mod 8)) 0 0 :: replicate (15 - q) 0).

Lemma mask6_value p : 0 <= p <= 128 -> length (mask6 p) = 16%nat /\ bytes_ok (mask6 p) /\ be_val (mask6 p) = mask_value 128 p.
Proof.
  intros Hp.
  assert (forall p, 0 <= p < 0 + Z.of_nat 129 ->
    (length (mask6 p) =? 16)%nat && forallb (fun b => (0 <=? b) && (b <? 256)) (mask6 p) && (be_val (mask6 p) =? mask_value 128 p) = true) as H.
  { apply range_ind. vm_compute. reflexivity. }
  specialize (H p ltac:(lia)). reflect_bool. apply Nat.eqb_eq in H. split_and!; [done| |done].
  apply list.Forall_forall. intros b Hb%list_elem_of_In. rewrite forallb_forall in *. specialize (H1 b Hb). reflect_bool. split; lia.
Qed.
Lemma prefix_mask6 p : 0 <= p <= 128 -> ipaddr6_ipv6_prefix_from_mask (mask6 p) = Some p.
Proof.
  intros Hp. assert (forall p, 0 <= p < 0 + Z.of_nat 129 -> bool_decide (ipaddr6_ipv6_prefix_from_mask (mask6 p) = Some p) = true) as H.
  { apply range_ind. vm_compute. reflexivity. }
  specialize (H p ltac:(lia)). by apply bool_decide_eq_true in H.
Qed.

Lemma mask_from_prefix6 p out : 0 <= p <= 128 -> length out = 16%nat -> ipaddr6_ipv6_mask_from_prefix p out = Some (mask6 p).
Proof.
  intros Hp Ho. assert (zlen out = 16) as Hz by (unfold zlen; lia). unfold ipaddr6_ipv6_mask_from_prefix. repeat bool_true.
  set (q := p / 8). assert (0 <= q <= 16 /\ (p mod 8 <> 0 -> q < 16)) as [Hq Hq'] by (unfold q; Z.div_mod_to_equations; lia).
  assert (exists m, (m ← (if 0 <? q then memset out 0 UINT8_MAX q else Some out);
     (if 0 <? 16 - q then memset m q 0 (16 - q) else Some m)) = Some m /\
     m = replicate (Z.to_nat q) 255 ++ replicate (16 - Z.to_nat q) 0) as (m & Em & ->).
  { assert (exists m1, (if 0 <? q then memset out 0 UINT8_MAX q else Some out) = Some m1 /\ length m1 = 16%nat /\
      take (Z.to_nat q) m1 = replicate (Z.to_nat q) 255) as (m1 & -> & L1 & T1).
    { case_if; [|exists out; replace q with 0 by lia; done]. unfold memset. bool_true. eexists. split; [done|]. split.
      - pose proof (zlen_splice out 0 (replicate (Z.to_nat q) UINT8_MAX) ltac:(lia) ltac:(rewrite zlen_replicate; lia)). unfold zlen in *. lia.
      - unfold splice. change (take (Z.to_nat 0) out) with (@nil Z). rewrite app_nil_l. apply take_app_length'. symmetry. apply length_replicate. }
    cbn [mbind option_bind]. assert (zlen m1 = 16) as Hz1 by (unfold zlen; lia). case_if.
    - unfold memset. bool_true. eexists. split; [done|]. unfold splice. rewrite T1, zlen_replicate, drop_ge by lia. rewrite app_nil_r.
      do 2 f_equal. lia.
    - exists m1. split; [done|]. rewrite take_ge in T1 by lia. rewrite T1. replace (16 - Z.to_nat q)%nat with 0%nat by lia. by rewrite app_nil_r. }
  destruct (if 0 <? q then memset out 0 UINT8_MAX q else Some out) as [m1|]; [|done]. cbn [mbind option_bind] in *. rewrite Em.
  cbn [mbind option_bind]. unfold mask6. fold q. case_if; [done|].
  rewrite lookup_app_r by (rewrite length_replicate; lia). rewrite length_replicate, Nat.sub_diag.
  replace (16 - Z.to_nat q)%nat with (S (15 - Z.to_nat q)) by lia. cbn [replicate lookup list_lookup mbind option_bind]. f_equal.
  rewrite insert_app_r_alt by (rewrite length_replicate; lia). by rewrite length_replicate, Nat.sub_diag.
Qed.

Lemma full_bytes_ok m p : exists k rest, full_bytes m p = (rest, p + 8 * Z.of_nat k) /\ m = replicate k 255 ++ rest /\ head rest <> Some 255.
Proof.
  revert p. induction m as [|b m IH]; intros p; cbn [full_bytes]; [exists 0%nat, []; split_and!; [f_equal; lia|done|done]|].
  unfold UINT8_MAX. destruct (Z.eqb_spec b 255) as [->|Hb].
  - destruct (IH (p + 8)) as (k & rest & -> & -> & H). exists (S k), rest. split_and!; [f_equal; lia|done|done].
  - exists 0%nat, (b :: m). split_and!; [f_equal; lia|done|cbn; congruence].
Qed.
Lemma byte_prefix_ok b : is_byte b -> let j := byte_prefix_loop 9 b 0 0 in j <= 8 -> 0 <= j /\ b = or_bits (Z.to_nat j) 0 0 /\ (b <> 255 -> j < 8).
Proof.
  intros Hb j. assert (forall b, 0 <= b < 0 + Z.of_nat 256 -> let j := byte_prefix_loop 9 b 0 0 in
    (8 <? j) || ((0 <=? j) && (b =? or_bits (Z.to_nat j) 0 0) && ((b =? 255) || (j <? 8))) = true) as H.
  { apply (range_ind (fun b => let j := byte_prefix_loop 9 b 0 0 in
      (8 <? j) || ((0 <=? j) && (b =? or_bits (Z.to_nat j) 0 0) && ((b =? 255) || (j <? 8))))). vm_compute. reflexivity. }
  unfold is_byte in Hb. specialize (H b ltac:(lia)). cbn zeta in H. fold j in H. intros Hj. apply orb_true_iff in H as [H|H]; reflect_bool; [lia|].
  split_and!; [done|done|]. intros Hn. destruct H0 as [E|E]; reflect_bool; done || lia.
Qed.

Lemma prefix_from_mask6 m q : length m = 16%nat -> bytes_ok m ->
  ipaddr6_ipv6_prefix_from_mask m = Some q <-> 0 <= q <= 128 /\ m = mask6 q.
Proof.
  intros Hl Hb. split; [|intros [Hq ->]; by apply prefix_mask6]. unfold ipaddr6_ipv6_prefix_from_mask.
  destruct (full_bytes_ok m 0) as (k & rest & -> & -> & Hh). rewrite length_app, length_replicate in Hl.
  apply bytes_ok_app in Hb as [_ Hb]. destruct rest as [|b rest].
  - intros [= <-]. cbn in Hl. replace k with 16%nat by lia. done.
  - apply list.Forall_cons in Hb as [Hb Hr]. cbn [head length] in Hh, Hl. pose proof (byte_prefix_ok b Hb) as Hbp.
    remember (byte_prefix_loop 9 b 0 0) as j eqn:Ej. clear Ej. cbn zeta in Hbp.
    case_if; [done|]. case_if; [|done]. intros [= <-].
    destruct Hbp as (Hj & Hbj & Hj8); [lia|]. specialize (Hj8 ltac:(congruence)). split; [lia|]. unfold mask6.
    assert ((0 + 8 * Z.of_nat k + j) / 8 = Z.of_nat k) as -> by (Z.div_mod_to_equations; lia).
    assert ((0 + 8 * Z.of_nat k + j) mod 8 = j) as -> by (Z.div_mod_to_equations; lia). rewrite Nat2Z.id. f_equal.
    assert (rest = replicate (15 - k) 0) as ->.
    { replace (15 - k)%nat with (length rest) by lia. clear -E0. induction rest as [|x rest IH]; [done|]. cbn in E0. reflect_bool. subst.
      cbn. f_equal. auto. }
    rewrite Hbj. case_if; [|done]. rewrite E1. replace (16 - k)%nat with (S (15 - k)) by lia. done.
Qed.

(** ** Networks *)
Lemma leading_bits_split (q : nat) rem l k :
  bytes_ok l -> bytes_ok k -> length l = length k -> 0 <= rem -> 8 * Z.of_nat q + rem <= 8 * zlen l ->
  leading_bits (8 * Z.of_nat q + rem) l = leading_bits (8 * Z.of_nat q + rem) k <->
  take q l = take q k /\ leading_bits rem (drop q l) = leading_bits rem (drop q k).
Proof.
  revert l k. induction q as [|q IH]; intros l k Hl Hk E Hr Hq.
  - rewrite !drop_0. change (8 * Z.of_nat 0 + rem) with rem. split; [done|by intros [_ ?]].
  - destruct Hl as [|b l Hb Hl]; [change (zlen (@nil Z)) with 0 in Hq; lia|]. destruct Hk as [|c k Hc Hk]; [done|]. cbn in E.
    assert (zlen l = zlen k) as Ez by (unfold zlen; lia). rewrite zlen_cons in Hq.
    rewrite leading_bits_cons by (done || lia). replace (8 * Z.of_nat (S q) + rem - 8) with (8 * Z.of_nat q + rem) by lia.
    rewrite IH by (done || lia). cbn [take drop]. split; [by intros (-> & -> & ->)|intros ([= -> ->] & ->); done].
Qed.
Lemma or_bits_value r : 0 <= r <= 8 -> or_bits (Z.to_nat r) 0 0 = 2 ^ 8 - 2 ^ (8 - r).
Proof.
  intros. apply Z.eqb_eq. apply (range_ind (fun r => or_bits (Z.to_nat r) 0 0 =? 2 ^ 8 - 2 ^ (8 - r)) 0 9); [|lia].
  vm_compute. reflexivity.
Qed.

Lemma ipv6_in_network_iff a1 a2 p : length a1 = 16%nat -> length a2 = 16%nat -> bytes_ok a1 -> bytes_ok a2 -> 0 <= p <= 128 ->
  ipaddr6_ipv6_addrs_in_network a1 a2 p = Some (leading_bits p a1 =? leading_bits p a2).
Proof.
  intros L1 L2 B1 B2 Hp. unfold ipaddr6_ipv6_addrs_in_network. assert (zlen a1 = 16 /\ zlen a2 = 16) as [Z1 Z2] by (unfold zlen; lia).
  rewrite Z1, Z2. set (q := Z.to_nat (p / 8)). set (r := p mod 8).
  assert (p = 8 * Z.of_nat q + r /\ 0 <= r < 8 /\ p / 8 <= 16 /\ (q <= 16)%nat /\ (r <> 0 -> (q < 16)%nat)) as (Ep & Hr & H16 & Hq & Hq')
    by (unfold q, r; Z.div_mod_to_equations; lia).
  repeat bool_true. pose proof (leading_bits_split q r a1 a2 B1 B2 ltac:(lia) ltac:(lia) ltac:(lia)) as Hs. rewrite <- Ep in Hs.
  assert (memcmp (take q a1) (take q a2) = 0 <-> take q a1 = take q a2) as Hm by (apply memcmp_eq; rewrite !length_take; lia).
  destruct (Z.eqb_spec (memcmp (take q a1) (take q a2)) 0) as [E|E]; cbn [negb].
  2: { f_equal. symmetry. apply Z.eqb_neq. rewrite Hs, <- Hm. tauto. }
  apply Hm in E. case_if.
  - f_equal. symmetry. apply Z.eqb_eq. apply Hs. split; [done|]. unfold leading_bits. rewrite E0, !Z.sub_0_r.
    assert (forall a, bytes_ok a -> be_val (drop q a) / 2 ^ (8 * zlen (drop q a)) = 0) as H0.
    { intros a Ha. pose proof (be_val_range (drop q a) ltac:(by apply Forall_drop)) as Hv. change 256 with (2 ^ 8) in Hv.
      rewrite <- Z.pow_mul_r in Hv by (try apply zlen_nonneg; lia). by apply Z.div_small. }
    by rewrite !H0.
  - destruct (lookup_lt_is_Some_2 a1 q ltac:(lia)) as [b1 E1], (lookup_lt_is_Some_2 a2 q ltac:(lia)) as [b2 E2].
    rewrite E1, E2. cbn [mbind option_bind]. rewrite or_bits_value by lia. rewrite (drop_S _ _ _ E1), (drop_S _ _ _ E2) in Hs.
    assert (is_byte b1 /\ is_byte b2) as [Hb1 Hb2] by (split; [by eapply Forall_lookup_1 in E1|by eapply Forall_lookup_1 in E2]).
    rewrite !leading_bits_within in Hs by (done || lia || by apply Forall_drop). unfold is_byte in *. rewrite !land_high by lia. f_equal.
    pose proof (Z.pow_pos_nonneg 2 (8 - r) ltac:(lia) ltac:(lia)).
    destruct (Z.eqb_spec (leading_bits p a1) (leading_bits p a2)) as [Ee|Ee]; [apply Z.eqb_eq|apply Z.eqb_neq].
    + apply Hs in Ee as [_ ->]. done.
    + intros En. apply Ee, Hs. split; [done|]. nia.
Qed.

(** Prefix lengths and masks are inverse to each other and the network test looks at the
    leading bits, for both versions of IP: a prefix length is found for a mask exactly when the
    mask is the one generated from it, whose number is the one with that many leading ones; two
    addresses are in one network exactly when that many leading bits agree. *)
Theorem prefix_masks_correct m4 m6 out a1 a2 b1 b2 p q :
  0 <= m4 < 2 ^ 32 -> 0 <= a1 < 2 ^ 32 -> 0 <= a2 < 2 ^ 32 -> 0 <= p <= 32 ->
  length m6 = 16%nat -> bytes_ok m6 -> length out = 16%nat ->
  length b1 = 16%nat -> bytes_ok b1 -> length b2 = 16%nat -> bytes_ok b2 -> 0 <= q <= 128 ->
  (ipaddr_ipv4_mask_from_prefix p = Some (hton32 (2 ^ 32 - 2 ^ (32 - p))) /\
   (ipaddr_ipv4_prefix_from_mask m4 = Some p <-> ipaddr_ipv4_mask_from_prefix p = Some m4) /\
   ipaddr_ipv4_addrs_in_network a1 a2 p = Some (leading_bits p (host32 a1) =? leading_bits p (host32 a2))) /\
  (exists m, ipaddr6_ipv6_mask_from_prefix q out = Some m /\ be_val m = 2 ^ 128 - 2 ^ (128 - q) /\
   (ipaddr6_ipv6_prefix_from_mask m6 = Some q <-> m6 = m) /\
   ipaddr6_ipv6_addrs_in_network b1 b2 q = Some (leading_bits q b1 =? leading_bits q b2)).
Proof.
  intros. split.
  - split_and!; [by apply ipv4_mask_eq| |by apply ipv4_in_network_iff]. rewrite ipv4_prefix_iff by done. tauto.
  - exists (mask6 q). split_and!; [by apply mask_from_prefix6|by apply mask6_value| |by apply ipv6_in_network_iff].
    rewrite prefix_from_mask6 by done. tauto.
Qed.

Lemma prefix_masks_correct_witness :
  ipaddr_ipv4_addrs_in_network (hton32 167772161) (hton32 167772674) 22 = Some true /\
  (exists m, ipaddr6_ipv6_mask_from_prefix 52 (replicate 16 9) = Some m /\ be_val m = 2 ^ 128 - 2 ^ 76).
Proof.
  destruct (prefix_masks_correct 0 (replicate 16 0) (replicate 16 9) (hton32 167772161) (hton32 167772674)
    (replicate 16 1) (replicate 16 2) 22 52) as [(_ & _ & H4) (m & H6 & Hv & _)];
    try (vm_compute; split; congruence); try reflexivity; try (repeat constructor; unfold is_byte; lia); try lia.
  split; [|exists m; split; [exact H6|exact Hv]]. rewrite H4. vm_compute. reflexivity.
Defined.
