(* ===== verification/IpUdp.v ===== *)
(** * IPv4, IPv6 and UDP headers (misc/ipv4_proto.h, misc/ipv6_proto.h, misc/udp_proto.h)

    A packed struct is a record of its integer fields, with the values the fields have in host
    memory (so [ntoh16] and [hton16] appear where the code has them); [..._bytes] is its object
    representation and [..._of_bytes] what [memcpy] into it gives. *)

From S2P Require Import Prelude ByteOrder.

Definition IPV4_PROTOCOL_UDP : Z := 17.
Definition IPV6_NEXT_UDP : Z := 17.

Record ipv4_header := mk_ipv4 {
  version4_ihl4 : Z;
  ds : Z;
  total_length : Z;
  identification : Z;
  flags3_fragmentoffset13 : Z;
  ttl : Z;
  protocol : Z;
  ipv4_checksum_ : Z;
  source_address : Z;
  destination_address : Z;
}.
Definition sizeof_ipv4_header : Z := 20.

(** An integer field of [n] bytes at offset [o]. *)
Definition field (l : list Z) (o n : Z) : Z := le_val (sub l o n).

Definition ipv4_bytes (h : ipv4_header) : list Z :=
  le_digits 1 (version4_ihl4 h) ++ le_digits 1 (ds h) ++ le_digits 2 (total_length h) ++
  le_digits 2 (identification h) ++ le_digits 2 (flags3_fragmentoffset13 h) ++
  le_digits 1 (ttl h) ++ le_digits 1 (protocol h) ++ le_digits 2 (ipv4_checksum_ h) ++
  le_digits 4 (source_address h) ++ le_digits 4 (destination_address h).
Definition ipv4_of_bytes (l : list Z) : ipv4_header :=
  mk_ipv4 (field l 0 1) (field l 1 1) (field l 2 2) (field l 4 2) (field l 6 2) (field l 8 1)
    (field l 9 1) (field l 10 2) (field l 12 4) (field l 16 4).
Definition with_ipv4_checksum (h : ipv4_header) (c : Z) : ipv4_header :=
  mk_ipv4 (version4_ihl4 h) (ds h) (total_length h) (identification h) (flags3_fragmentoffset13 h)
    (ttl h) (protocol h) c (source_address h) (destination_address h).

Definition IPV4_GET_VERSION (h : ipv4_header) : Z := Z.shiftr (Z.land (version4_ihl4 h) 240) 4.
Definition IPV4_GET_IHL (h : ipv4_header) : Z := Z.shiftr (Z.land (version4_ihl4 h) 15) 0.
Definition IPV4_MAKE_VERSION_IHL (size : Z) : Z := size / 4 + Z.shiftl 4 4.

(** [t += badvpn_read_be16(data + 2 * i)] for [n] values of [i]; [None]: a read past the end. *)
Fixpoint sum_be16 (t : Z) (data : list Z) (n : nat) : option Z :=
  match n with
  | O => Some t
  | S n => x ← badvpn_read_be16 data; sum_be16 (u32 (t + x)) (drop 2 data) n
  end.

(** [while (t >> 16) t = (t & 0xFFFF) + (t >> 16)]; [None]: not done within [fuel] rounds. *)
Fixpoint fold_carries (fuel : nat) (t : Z) : option Z :=
  if Z.shiftr t 16 =? 0 then Some t else
  match fuel with
  | O => None
  | S fuel => fold_carries fuel (u32 (Z.land t 65535 + Z.shiftr t 16))
  end.
Definition FOLD_FUEL : nat := 2.

(** [~t] on [uint32_t]. *)
Definition not32 (t : Z) : Z := u32 (- t - 1).

Definition ipv4_checksum (header : ipv4_header) (extra : list Z) (extra_len : Z) : option Z :=
  ASSERT extra_len mod 2 =? 0;
  t ← sum_be16 0 (ipv4_bytes header) (Z.to_nat (sizeof_ipv4_header / 2));
  t ← sum_be16 t extra (Z.to_nat (extra_len / 2));
  t ← fold_carries FOLD_FUEL t;
  Some (hton16 (not32 t)).

(** [data] is the memory from the pointer on; the result of an accepted packet is the header,
    the payload's offset from [data] and its length.  [Some None] is the result 0. *)
Definition ipv4_check (data : list Z) (data_len : Z) : option (option (ipv4_header * Z * Z)) :=
  ASSERT data_len >=? 0;
  if data_len <? sizeof_ipv4_header then Some None else
  ASSERT sizeof_ipv4_header <=? zlen data;
  let out_header := ipv4_of_bytes (sub data 0 sizeof_ipv4_header) in
  if negb (IPV4_GET_VERSION out_header =? 4) then Some None else
  let header_len := u16 (IPV4_GET_IHL out_header * 4) in
  if header_len <? sizeof_ipv4_header then Some None else
  if header_len >? data_len then Some None else
  let total_length := ntoh16 (total_length out_header) in
  if total_length <? header_len then Some None else
  if total_length >? data_len then Some None else
  let checksum_in_packet := ipv4_checksum_ out_header in
  checksum_computed ← ipv4_checksum (with_ipv4_checksum out_header (hton16 0))
    (drop (Z.to_nat sizeof_ipv4_header) data) (u16 (header_len - sizeof_ipv4_header));
  if negb (checksum_in_packet =? checksum_computed) then Some None else
  Some (Some (out_header, header_len, total_length - header_len)).

(** ** IPv6 *)
Record ipv6_header := mk_ipv6 {
  version4_tc4 : Z;
  tc4_fl4 : Z;
  fl : Z;
  payload_length : Z;
  next_header : Z;
  hop_limit : Z;
  source_address6 : list Z;
  destination_address6 : list Z;
}.
Definition sizeof_ipv6_header : Z := 40.

Definition ipv6_bytes (h : ipv6_header) : list Z :=
  le_digits 1 (version4_tc4 h) ++ le_digits 1 (tc4_fl4 h) ++ le_digits 2 (fl h) ++
  le_digits 2 (payload_length h) ++ le_digits 1 (next_header h) ++ le_digits 1 (hop_limit h) ++
  source_address6 h ++ destination_address6 h.
Definition ipv6_of_bytes (l : list Z) : ipv6_header :=
  mk_ipv6 (field l 0 1) (field l 1 1) (field l 2 2) (field l 4 2) (field l 6 1) (field l 7 1)
    (sub l 8 16) (sub l 24 16).

Definition ipv6_check (data : list Z) (data_len : Z) : option (option (ipv6_header * Z * Z)) :=
  ASSERT data_len >=? 0;
  if data_len <? sizeof_ipv6_header then Some None else
  ASSERT sizeof_ipv6_header <=? zlen data;
  let out_header := ipv6_of_bytes (sub data 0 sizeof_ipv6_header) in
  if negb (Z.shiftr (ntoh8 (version4_tc4 out_header)) 4 =? 6) then Some None else
  let payload_length := ntoh16 (payload_length out_header) in
  if payload_length >? data_len - sizeof_ipv6_header then Some None else
  Some (Some (out_header, sizeof_ipv6_header, payload_length)).

(** ** UDP *)
Record udp_header := mk_udp {
  source_port : Z;
  dest_port : Z;
  udp_length : Z;
  udp_checksum_ : Z;
}.
Definition sizeof_udp_header : Z := 8.

Definition udp_bytes (h : udp_header) : list Z :=
  le_digits 2 (source_port h) ++ le_digits 2 (dest_port h) ++ le_digits 2 (udp_length h) ++
  le_digits 2 (udp_checksum_ h).
Definition udp_of_bytes (l : list Z) : udp_header :=
  mk_udp (field l 0 2) (field l 2 2) (field l 4 2) (field l 6 2).
Definition with_udp_checksum (h : udp_header) (c : Z) : udp_header :=
  mk_udp (source_port h) (dest_port h) (udp_length h) c.

Definition udp_checksum_summer (data : list Z) (len : Z) : option Z :=
  ASSERT len mod 2 =? 0;
  sum_be16 0 data (Z.to_nat (len / 2)).

(** The part the two UDP checksums share: the payload, the folding, and the final test. *)
Definition udp_checksum_payload (t : Z) (payload : list Z) (payload_len : Z) : option Z :=
  if payload_len mod 2 =? 0 then
    s ← udp_checksum_summer payload payload_len;
    Some (u32 (t + s))
  else
    s ← udp_checksum_summer payload (payload_len - 1);
    last ← payload !! Z.to_nat (payload_len - 1);
    s2 ← udp_checksum_summer (host16 (hton16 (Z.shiftl last 8))) 2;
    Some (u32 (u32 (t + s) + s2)).
Definition udp_checksum_finish (t : Z) : option Z :=
  t ← fold_carries FOLD_FUEL t;
  let t := not32 t in
  let t := if t =? 0 then UINT16_MAX else t in
  Some (hton16 t).

Definition udp_checksum (header : udp_header) (payload : list Z) (payload_len source_addr dest_addr : Z) :
    option Z :=
  s1 ← udp_checksum_summer (host32 source_addr) 4;
  s2 ← udp_checksum_summer (host32 dest_addr) 4;
  s3 ← udp_checksum_summer (host16 (hton16 IPV4_PROTOCOL_UDP)) 2;
  s4 ← udp_checksum_summer (host16 (hton16 (sizeof_udp_header + payload_len))) 2;
  s5 ← udp_checksum_summer (udp_bytes header) sizeof_udp_header;
  t ← udp_checksum_payload (u32 (u32 (u32 (u32 (u32 (0 + s1) + s2) + s3) + s4) + s5)) payload payload_len;
  udp_checksum_finish t.

Definition udp_ip6_checksum (header : udp_header) (payload : list Z) (payload_len : Z)
    (source_addr dest_addr : list Z) : option Z :=
  s1 ← udp_checksum_summer source_addr 16;
  s2 ← udp_checksum_summer dest_addr 16;
  s3 ← udp_checksum_summer (host32 (hton32 (sizeof_udp_header + payload_len))) 4;
  s4 ← udp_checksum_summer (host32 (hton32 IPV6_NEXT_UDP)) 4;
  s5 ← udp_checksum_summer (udp_bytes header) sizeof_udp_header;
  t ← udp_checksum_payload (u32 (u32 (u32 (u32 (u32 (0 + s1) + s2) + s3) + s4) + s5)) payload payload_len;
  udp_checksum_finish t.

Definition udp_check (data : list Z) (data_len : Z) : option (option (udp_header * Z * Z)) :=
  ASSERT data_len >=? 0;
  if data_len <? sizeof_udp_header then Some None else
  ASSERT sizeof_udp_header <=? zlen data;
  let out_header := udp_of_bytes (sub data 0 sizeof_udp_header) in
  let data_len := data_len - sizeof_udp_header in
  let udp_length := ntoh16 (udp_length out_header) in
  if udp_length <? sizeof_udp_header then Some None else
  if udp_length >? sizeof_udp_header + data_len then Some None else
  let data_len := udp_length - sizeof_udp_header in
  Some (Some (out_header, sizeof_udp_header, data_len)).

(** ** Ones' complement sums *)

(** Specification: the sum of the 16-bit big-endian words, an odd last byte padded with 0. *)
Fixpoint wsum (l : list Z) : Z :=
  match l with
  | a :: b :: l => 256 * a + b + wsum l
  | [a] => 256 * a
  | [] => 0
  end.
(** The end-around-carry value of a sum. *)
Definition ocsum (t : Z) : Z := if t =? 0 then 0 else (t - 1) mod 65535 + 1.

Lemma read_be16_cons a b l : is_byte a -> is_byte b -> badvpn_read_be16 (a :: b :: l) = Some (256 * a + b).
Proof.
  intros Ha Hb. transitivity (badvpn_read_be16 [a; b]); [done|].
  rewrite read_be16_val; [|by apply Forall_cons_2, Forall_cons_2, Forall_nil_2|done]. f_equal. simpl. lia.
Qed.

Lemma wsum_range l : bytes_ok l -> 0 <= wsum l <= 65535 * ((zlen l + 1) / 2).
Proof.
  revert l. fix IH 1. intros [|a [|b l]] H; [done|..].
  - inversion H as [|? ? Ha _]; subst. unfold is_byte in Ha. change ((zlen [a] + 1) / 2) with 1. simpl. lia.
  - inversion H as [|? ? Ha H1]; subst. inversion H1 as [|? ? Hb H2]; subst. unfold is_byte in *.
    specialize (IH l H2). rewrite !zlen_cons. simpl wsum.
    replace (1 + (1 + zlen l) + 1) with (zlen l + 1 + 1 * 2) by lia. rewrite Z.div_add by lia. lia.
Qed.

Lemma wsum_head l : bytes_ok l -> 256 * hd 0 l <= wsum l.
Proof.
  destruct l as [|a [|b l]]; intros H; simpl; [lia..|]. inversion H as [|? ? Ha H1]; subst.
  inversion H1 as [|? ? Hb H2]; subst. pose proof (wsum_range _ H2). unfold is_byte in *. lia.
Qed.

Lemma wsum_app l k : Nat.Even (length l) -> wsum (l ++ k) = wsum l + wsum k.
Proof.
  revert l. fix IH 1. intros [|a [|b l]] H; [done|..].
  - destruct H as [n H]. simpl in H. lia.
  - simpl. rewrite IH; [lia|]. destruct H as [n H]. exists (n - 1)%nat. simpl in H. lia.
Qed.

Lemma sum_be16_ok n data t : bytes_ok data -> (2 * n <= length data)%nat -> 0 <= t ->
  t + 65535 * Z.of_nat n < 2 ^ 32 -> sum_be16 t data n = Some (t + wsum (take (2 * n) data)).
Proof.
  revert data t. induction n as [|n IH]; intros data t Hb Hl Ht Hr; [by rewrite Z.add_0_r|].
  destruct data as [|a [|b data]]; simpl in Hl; [lia..|].
  inversion Hb as [|? ? Ha H1]; subst. inversion H1 as [|? ? Hb' H2]; subst.
  cbn [sum_be16]. rewrite read_be16_cons by done. cbn [drop]. unfold is_byte in *. simpl mbind.
  rewrite uwrap_small by lia. rewrite drop_0. rewrite IH by (done || lia).
  replace (2 * S n)%nat with (S (S (2 * n))) by lia. simpl. f_equal. lia.
Qed.

Lemma summer_ok data len : bytes_ok data -> 0 <= len <= zlen data -> len mod 2 = 0 -> len < 65536 ->
  udp_checksum_summer data len = Some (wsum (take (Z.to_nat len) data)).
Proof.
  intros Hb Hl He Hm. unfold udp_checksum_summer. bool_true. unfold zlen in Hl.
  assert (len = 2 * (len / 2)) by (pose proof (Z.div_mod len 2); lia).
  rewrite sum_be16_ok; [|done|lia..]. rewrite Z.add_0_l. do 3 f_equal. lia.
Qed.

(** Two rounds are enough for any 32-bit sum. *)
Lemma fold_carries_ok t : 0 <= t < 2 ^ 32 -> fold_carries FOLD_FUEL t = Some (ocsum t).
Proof.
  intros Ht. unfold FOLD_FUEL. simpl.
  rewrite !Z.shiftr_div_pow2 by lia. change 65535 with (Z.ones 16). rewrite !Z.land_ones by lia.
  assert (forall x, x mod 2 ^ 16 + x / 2 ^ 16 = x - 65535 * (x / 2 ^ 16)) as R
    by (intros; pose proof (Z.div_mod x (2 ^ 16)); lia).
  rewrite !R.
  assert (forall x q, 0 < x -> 0 < x - 65535 * q <= 65535 -> x - 65535 * q = ocsum x) as U.
  { intros x q H0 Hx. unfold ocsum. destruct (Z.eqb_spec x 0) as [->|]; [lia|].
    rewrite (Z.mod_eq (x - 1)) by lia. rewrite <- (Z.div_unique_pos (x - 1) 65535 q (x - 1 - 65535 * q)) by lia. lia. }
  set (q := t / 2 ^ 16). assert (0 <= t - 2 ^ 16 * q < 2 ^ 16 /\ 0 <= q < 2 ^ 16) as [Hq Hq'].
  { unfold q. Z.div_mod_to_equations. lia. }
  destruct (Z.eqb_spec q 0) as [E|E].
  { destruct (Z.eq_dec t 0) as [->|]; [done|]. rewrite <- (U t 0) by lia. f_equal. lia. }
  rewrite (uwrap_small 32 (t - 65535 * q)) by lia. set (t1 := t - 65535 * q).
  set (q1 := t1 / 2 ^ 16). assert (0 <= t1 - 2 ^ 16 * q1 < 2 ^ 16 /\ 0 <= q1 <= 1) as [Hq1 Hq1'].
  { unfold q1, t1. Z.div_mod_to_equations. lia. }
  destruct (Z.eqb_spec q1 0) as [E1|E1]; [rewrite <- (U t q); [done|unfold t1 in *; lia..]|].
  rewrite (uwrap_small 32 (t1 - 65535 * q1)) by (unfold t1 in *; lia).
  rewrite Z.div_small by (unfold t1 in *; lia). simpl. f_equal.
  rewrite <- (U t (q + q1)); unfold t1 in *; lia.
Qed.

(** The two boolean answers of the checksum tests. *)
Lemma ocsum_range t : 0 <= t -> 0 <= ocsum t <= 65535 /\ (0 < t -> 0 < ocsum t) /\ (65535 | t - ocsum t).
Proof.
  intros Ht. unfold ocsum. destruct (Z.eqb_spec t 0) as [->|]; [split_and!; try lia; by exists 0|].
  pose proof (Z.mod_pos_bound (t - 1) 65535). split_and!; [lia..|].
  exists ((t - 1) / 65535). rewrite Z.mod_eq by lia. lia.
Qed.

Lemma hton16_mod x : hton16 x = hton16 (x mod 2 ^ 16).
Proof.
  unfold hton16, badvpn_reverse16, host16. do 2 f_equal.
  change (2 ^ 16) with (256 ^ Z.of_nat 2). rewrite <- le_val_digits. symmetry.
  apply (le_digits_val (le_digits 2 x)), le_digits_bytes.
Qed.

Lemma hton16_inj x y : 0 <= x < 2 ^ 16 -> 0 <= y < 2 ^ 16 -> hton16 x = hton16 y -> x = y.
Proof.
  intros Hx Hy E. rewrite <- (uwrap_small 16 x), <- (uwrap_small 16 y) by done.
  by rewrite <- !hton16_invol, E.
Qed.

Lemma hton16_not32 t : 0 <= t <= 65535 -> hton16 (not32 t) = hton16 (65535 - t).
Proof.
  intros Ht. rewrite hton16_mod. f_equal. unfold not32.
  replace (- t - 1) with (2 ^ 32 - 1 - t + (-1) * 2 ^ 32) by lia.
  unfold uwrap. rewrite Z.mod_add by lia. rewrite (Z.mod_small _ (2 ^ 32)) by lia.
  replace (2 ^ 32 - 1 - t) with (65535 - t + 65535 * 2 ^ 16) by lia.
  rewrite Z.mod_add by lia. apply Z.mod_small. lia.
Qed.

Lemma wsum_host16 x : wsum (host16 x) = hton16 x.
Proof. unfold hton16, badvpn_reverse16, host16. simpl. lia. Qed.
Lemma wsum_hton16 x : 0 <= x < 2 ^ 16 -> wsum (host16 (hton16 x)) = x.
Proof. intros. rewrite wsum_host16, hton16_invol. by apply uwrap_small. Qed.

Lemma wsum_hton32_small x : 0 <= x < 2 ^ 16 -> wsum (host32 (hton32 x)) = x.
Proof.
  intros Hx. unfold hton32, badvpn_reverse32, host32. rewrite hton_digits. simpl.
  assert (x / 256 / 256 = 0) as -> by (Z.div_mod_to_equations; lia). simpl. Z.div_mod_to_equations. lia.
Qed.

(** A ones' complement sum checks: adding the complement of the sum gives a multiple of 65535;
    the complement of a non-zero sum is never 65535. *)
Lemma ocsum_check s c : 0 < s -> 0 <= c <= 65535 ->
  c = 65535 - ocsum s <-> ((s + c) mod 65535 = 0 /\ c <> 65535).
Proof.
  intros Hs Hc. destruct (ocsum_range s) as (R & P & [k D]); [lia|]. specialize (P Hs). split.
  - intros ->. split; [|lia]. replace (s + (65535 - ocsum s)) with ((k + 1) * 65535) by lia. apply Z.mod_mul. lia.
  - intros [E N]. apply Z.mod_divide in E as [j E]; [|lia]. assert (j = k + 1) by lia. lia.
Qed.

Lemma checksum_result s : 0 < s ->
  (s + ntoh16 (hton16 (65535 - ocsum s))) mod 65535 = 0 /\
  (hton16 (65535 - ocsum s) = 0 <-> s mod 65535 = 0).
Proof.
  intros Hs. destruct (ocsum_range s) as (R & P & [k D]); [lia|]. specialize (P Hs).
  unfold ntoh16. rewrite hton16_invol, uwrap_small by lia. split.
  - replace (s + (65535 - ocsum s)) with ((k + 1) * 65535) by lia. apply Z.mod_mul. lia.
  - rewrite Z.mod_divide by lia. split.
    + intros E. apply (hton16_inj _ 0) in E; [|lia..]. exists (k + 1). lia.
    + intros [j E]. assert (ocsum s = 65535) as -> by lia. done.
Qed.

(** *** Struct images *)
Lemma bytes_ok_digits_app n x l : bytes_ok l -> bytes_ok (le_digits n x ++ l).
Proof. intros. apply bytes_ok_app. split; [apply le_digits_bytes|done]. Qed.
#[local] Hint Resolve bytes_ok_digits_app le_digits_bytes : core.

Lemma ipv4_bytes_ok h : bytes_ok (ipv4_bytes h) /\ length (ipv4_bytes h) = 20%nat.
Proof. split; [unfold ipv4_bytes; auto 12|done]. Qed.
Lemma udp_bytes_ok h : bytes_ok (udp_bytes h) /\ length (udp_bytes h) = 8%nat.
Proof. split; [unfold udp_bytes; auto 12|done]. Qed.

Lemma digits_field l o n : bytes_ok l -> 0 <= o -> o + Z.of_nat n <= zlen l ->
  le_digits n (field l o (Z.of_nat n)) = sub l o (Z.of_nat n).
Proof.
  intros Hb Ho Hl. unfold field.
  replace n with (length (sub l o (Z.of_nat n))) at 1.
  - apply le_digits_val. by apply bytes_ok_sub.
  - pose proof (zlen_sub l o (Z.of_nat n)). unfold zlen in *. lia.
Qed.

Lemma sub_join {A} (l : list A) o a o' b n : 0 <= o -> 0 <= a -> 0 <= b -> o' = o + a -> n = a + b ->
  sub l o a ++ sub l o' b = sub l o n.
Proof. intros ? ? ? -> ->. rewrite (sub_split l o (a + b) a) by lia. do 2 f_equal. lia. Qed.

Lemma ipv4_bytes_of_bytes l : bytes_ok l -> zlen l = 20 -> ipv4_bytes (ipv4_of_bytes l) = l.
Proof.
  intros Hb Hl. unfold ipv4_bytes, ipv4_of_bytes.
  cbn [version4_ihl4 ds total_length identification flags3_fragmentoffset13 ttl protocol
    ipv4_checksum_ source_address destination_address].
  transitivity (sub l 0 1 ++ sub l 1 1 ++ sub l 2 2 ++ sub l 4 2 ++ sub l 6 2 ++ sub l 8 1 ++
    sub l 9 1 ++ sub l 10 2 ++ sub l 12 4 ++ sub l 16 4).
  { repeat (apply (f_equal2 app)); first
      [ by apply (digits_field l 0 1); lia || done | by apply (digits_field l 1 1); lia || done
      | by apply (digits_field l 2 2); lia || done | by apply (digits_field l 4 2); lia || done
      | by apply (digits_field l 6 2); lia || done | by apply (digits_field l 8 1); lia || done
      | by apply (digits_field l 9 1); lia || done | by apply (digits_field l 10 2); lia || done
      | by apply (digits_field l 12 4); lia || done | by apply (digits_field l 16 4); lia || done ]. }
  rewrite (sub_join l 12 4 16 4 8), (sub_join l 10 2 12 8 10), (sub_join l 9 1 10 10 11),
    (sub_join l 8 1 9 11 12), (sub_join l 6 2 8 12 14), (sub_join l 4 2 6 14 16),
    (sub_join l 2 2 4 16 18), (sub_join l 1 1 2 18 19), (sub_join l 0 1 1 19 20) by lia.
  rewrite <- Hl. apply sub_0_all.
Qed.

(** The checksum field contributes its value to the sum of the header. *)
Lemma ipv4_sum_checksum h c :
  wsum (ipv4_bytes (with_ipv4_checksum h c)) = wsum (ipv4_bytes (with_ipv4_checksum h 0)) + hton16 c.
Proof. unfold hton16, badvpn_reverse16, host16, ipv4_bytes. cbn -[Z.mul Z.add Z.modulo Z.div].
  change (0 / 256) with 0. rewrite !Zmod_0_l. ring. Qed.
Lemma udp_sum_checksum h c :
  wsum (udp_bytes (with_udp_checksum h c)) = wsum (udp_bytes (with_udp_checksum h 0)) + hton16 c.
Proof. unfold hton16, badvpn_reverse16, host16, udp_bytes. cbn -[Z.mul Z.add Z.modulo Z.div].
  change (0 / 256) with 0. rewrite !Zmod_0_l. ring. Qed.

Lemma ipv4_checksum_ok h extra n : bytes_ok extra -> 0 <= n <= zlen extra -> n < 65536 -> n mod 2 = 0 ->
  ipv4_checksum h extra n =
    Some (hton16 (65535 - ocsum (wsum (ipv4_bytes h) + wsum (take (Z.to_nat n) extra)))).
Proof.
  intros Hb Hn Hn2 He. destruct (ipv4_bytes_ok h) as [Hhb Hhl]. pose proof (wsum_range _ Hhb) as R.
  unfold zlen in R. rewrite Hhl in R. change ((Z.of_nat 20 + 1) / 2) with 10 in R.
  unfold ipv4_checksum. bool_true. unfold sizeof_ipv4_header. change (Z.to_nat (20 / 2)) with 10%nat.
  rewrite sum_be16_ok by (done || lia). cbn [mbind option_bind]. rewrite Z.add_0_l.
  rewrite (take_ge (ipv4_bytes h)) by lia. unfold zlen in Hn.
  assert (n = 2 * (n / 2)) by (pose proof (Z.div_mod n 2); lia).
  rewrite sum_be16_ok by (done || lia). cbn [mbind option_bind].
  replace (2 * Z.to_nat (n / 2))%nat with (Z.to_nat n) by lia.
  set (x := take (Z.to_nat n) extra). assert (bytes_ok x) as Hx by by apply Forall_take.
  pose proof (wsum_range _ Hx) as Rx. unfold zlen, x in Rx. rewrite length_take in Rx. fold x in Rx.
  rewrite fold_carries_ok by (revert Rx; Z.div_mod_to_equations; lia). cbn [mbind option_bind].
  f_equal. apply hton16_not32. apply ocsum_range. lia.
Qed.

(** *** IPv4 validation *)

(** What a receiver of RFC 791 checks: version, header length, total length, and that the ones'
    complement sum of the header vanishes.  A checksum field of 0xFFFF is not accepted. *)
Definition ihl_bytes (data : list Z) : Z := 4 * (field data 0 1 mod 16).
Definition ipv4_valid (data : list Z) (n : Z) : Prop :=
  20 <= n /\ field data 0 1 / 16 = 4 /\
  20 <= ihl_bytes data <= n /\ ihl_bytes data <= ntoh16 (field data 2 2) <= n /\
  wsum (take (Z.to_nat (ihl_bytes data)) data) mod 65535 = 0 /\ ntoh16 (field data 10 2) <> 65535.

Lemma field_range l o n : bytes_ok l -> 0 <= o -> 0 <= n -> o + n <= zlen l -> 0 <= field l o n < 256 ^ n.
Proof.
  intros. pose proof (le_val_range (sub l o n)) as R. rewrite zlen_sub in R by lia.
  apply R. by apply bytes_ok_sub.
Qed.

Lemma field_sub l o n k : 0 <= o -> 0 <= n -> o + n <= k -> field (sub l 0 k) o n = field l o n.
Proof. intros. unfold field. rewrite sub_sub by lia. done. Qed.

Lemma ipv4_of_bytes_sub l : ipv4_of_bytes (sub l 0 20) = ipv4_of_bytes l.
Proof. unfold ipv4_of_bytes. rewrite !field_sub by lia. done. Qed.

Lemma version_ihl_bits x : 0 <= x < 256 ->
  Z.shiftr (Z.land x 240) 4 = x / 16 /\ Z.shiftr (Z.land x 15) 0 = x mod 16.
Proof.
  intros Hx. split.
  - rewrite Z.shiftr_land, Z.shiftr_div_pow2 by lia. change (Z.shiftr 240 4) with (Z.ones 4).
    rewrite Z.land_ones by lia. apply Z.mod_small. change (2 ^ 4) with 16. Z.div_mod_to_equations; lia.
  - rewrite Z.shiftr_0_r. change 15 with (Z.ones 4). by rewrite Z.land_ones by lia.
Qed.

Lemma wsum_take_split l a n : bytes_ok l -> 0 <= a <= n -> n <= zlen l -> a mod 2 = 0 ->
  wsum (take (Z.to_nat n) l) =
    wsum (sub l 0 a) + wsum (take (Z.to_nat (n - a)) (drop (Z.to_nat a) l)).
Proof.
  intros Hb Ha Hn He. change (take (Z.to_nat n) l) with (sub l 0 n).
  rewrite (sub_split l 0 n a) by lia. rewrite wsum_app; [done|].
  pose proof (zlen_sub l 0 a). unfold zlen in *. exists (Z.to_nat (a / 2)).
  pose proof (Z.div_mod a 2). lia.
Qed.

(** The checksum test of [ipv4_check], as arithmetic on the bytes of the packet. *)
Lemma ipv4_checksum_test data hl : bytes_ok data -> 20 <= hl <= 60 -> hl <= zlen data -> hl mod 2 = 0 ->
  field data 0 1 / 16 = 4 ->
  exists c, ipv4_checksum (with_ipv4_checksum (ipv4_of_bytes data) 0) (drop 20 data) (hl - 20) = Some c /\
    (field data 10 2 = c <-> wsum (take (Z.to_nat hl) data) mod 65535 = 0 /\ ntoh16 (field data 10 2) <> 65535).
Proof.
  intros Hb Hh Hz He Hv. assert (zlen (drop 20 data) = zlen data - 20) as Hd.
  { unfold zlen in *. rewrite length_drop. lia. }
  assert (bytes_ok (drop 20 data)) as Hdb by by apply Forall_drop.
  rewrite ipv4_checksum_ok; [|done|lia|lia|rewrite Zminus_mod, He; done].
  eexists. split; [done|]. set (opt := wsum (take (Z.to_nat (hl - 20)) (drop 20 data))).
  set (s := wsum (ipv4_bytes (with_ipv4_checksum (ipv4_of_bytes data) 0)) + opt).
  pose proof (field_range data 10 2 Hb ltac:(lia) ltac:(lia) ltac:(lia)) as Hf. change (256 ^ 2) with (2 ^ 16) in Hf.
  pose proof (hton16_range (field data 10 2)) as Hc. unfold ntoh16. set (c := hton16 (field data 10 2)) in *.
  assert (wsum (take (Z.to_nat hl) data) = s + c) as ->.
  { rewrite (wsum_take_split data 20 hl) by (done || lia).
    rewrite <- (ipv4_bytes_of_bytes (sub data 0 20)); [|by apply bytes_ok_sub|rewrite zlen_sub; lia].
    rewrite ipv4_of_bytes_sub.
    assert (ipv4_of_bytes data = with_ipv4_checksum (ipv4_of_bytes data) (field data 10 2)) as -> by done.
    rewrite ipv4_sum_checksum. unfold s, c, opt. change (Z.to_nat 20) with 20%nat. lia. }
  assert (0 < s) as Hs.
  { unfold s, opt. destruct (ipv4_bytes_ok (with_ipv4_checksum (ipv4_of_bytes data) 0)) as [Hib _].
    assert (bytes_ok (take (Z.to_nat (hl - 20)) (drop 20 data))) as Hob by by apply Forall_take.
    pose proof (wsum_range _ Hob). pose proof (wsum_head _ Hib) as W.
    change (hd 0 (ipv4_bytes _)) with (field data 0 1 mod 256) in W.
    pose proof (field_range data 0 1 Hb ltac:(lia) ltac:(lia) ltac:(lia)) as R. change (256 ^ 1) with 256 in R.
    rewrite Z.mod_small in W by lia.
    assert (64 <= field data 0 1) by (Z.div_mod_to_equations; lia). lia. }
  rewrite <- ocsum_check by lia. unfold c. split.
  - intros E. rewrite E, hton16_invol. apply uwrap_small. destruct (ocsum_range s); lia.
  - intros E. rewrite <- E, hton16_invol. symmetry. apply uwrap_small. lia.
Qed.

Lemma ipv4_check_cases data n : bytes_ok data -> 0 <= n <= zlen data ->
  exists r, ipv4_check data n = Some r /\
  match r with
  | Some (h, o, len) => ipv4_valid data n /\ h = ipv4_of_bytes data /\ o = ihl_bytes data /\
      len = ntoh16 (field data 2 2) - o /\ 20 <= o /\ 0 <= len /\ o + len <= n
  | None => ~ ipv4_valid data n
  end.
Proof.
  intros Hb Hn. unfold ipv4_check, sizeof_ipv4_header, ipv4_valid. bool_true.
  case_if; [exists None; split; [done|lia]|]. bool_true. rewrite ipv4_of_bytes_sub. cbv zeta.
  pose proof (field_range data 0 1 Hb ltac:(lia) ltac:(lia) ltac:(lia)) as R0. change (256 ^ 1) with 256 in R0.
  destruct (version_ihl_bits (field data 0 1)) as [V I]; [done|].
  unfold IPV4_GET_VERSION, IPV4_GET_IHL. cbn [ipv4_of_bytes version4_ihl4 total_length ipv4_checksum_].
  rewrite V, I. assert (u16 (field data 0 1 mod 16 * 4) = ihl_bytes data) as Ei.
  { unfold ihl_bytes. rewrite uwrap_small; [lia|]. pose proof (Z.mod_pos_bound (field data 0 1) 16). lia. }
  rewrite Ei. pose proof (Z.mod_pos_bound (field data 0 1) 16).
  assert (0 <= ihl_bytes data <= 60 /\ ihl_bytes data mod 2 = 0) as [Ih Ie].
  { unfold ihl_bytes. split; [lia|]. replace (4 * _) with (2 * (field data 0 1 mod 16) * 2) by lia. apply Z.mod_mul. lia. }
  case_if; [exists None; split; [done|lia]|].
  do 4 (case_if; [exists None; split; [done|unfold ntoh16 in *; lia]|]).
  rewrite uwrap_small by lia. change (hton16 0) with 0. change (Z.to_nat 20) with 20%nat.
  destruct (ipv4_checksum_test data (ihl_bytes data)) as (c & -> & Hc); [done|lia..|]. cbn [mbind option_bind].
  case_if; eexists; (split; [done|]); [|split_and!; done || tauto || lia].
  intros Hv. assert (field data 10 2 = c) by (apply Hc; tauto). lia.
Qed.

Lemma udp_check_cases data n : bytes_ok data -> 0 <= n <= zlen data ->
  exists r, udp_check data n = Some r /\
  match r with
  | Some (h, o, len) => h = udp_of_bytes data /\ o = 8 /\ len = ntoh16 (field data 4 2) - 8 /\
      0 <= len <= 65527 /\ 8 + len <= n
  | None => n < 8 \/ ntoh16 (field data 4 2) < 8 \/ n < ntoh16 (field data 4 2)
  end.
Proof.
  intros Hb Hn. unfold udp_check, sizeof_udp_header. bool_true.
  case_if; [exists None; split; [done|lia]|]. bool_true.
  assert (udp_of_bytes (sub data 0 8) = udp_of_bytes data) as ->
    by (unfold udp_of_bytes; rewrite !field_sub by lia; done).
  cbn [udp_of_bytes udp_length]. cbv zeta. pose proof (hton16_range (field data 4 2)). unfold ntoh16 in *.
  case_if; [exists None; split; [done|lia]|]. case_if; [exists None; split; [done|lia]|].
  eexists. split; [done|]. split_and!; done || lia.
Qed.

Lemma ipv6_check_cases data n : bytes_ok data -> 0 <= n <= zlen data ->
  exists r, ipv6_check data n = Some r /\
  match r with
  | Some (h, o, len) => h = ipv6_of_bytes (sub data 0 40) /\ o = 40 /\ len = ntoh16 (field data 4 2) /\
      0 <= len <= 65535 /\ 40 + len <= n
  | None => n < 40 \/ field data 0 1 / 16 <> 6 \/ n < 40 + ntoh16 (field data 4 2)
  end.
Proof.
  intros Hb Hn. unfold ipv6_check, sizeof_ipv6_header. bool_true.
  case_if; [exists None; split; [done|lia]|]. bool_true. cbv zeta.
  cbn [ipv6_of_bytes version4_tc4 payload_length]. rewrite !field_sub by lia.
  unfold ntoh8, hton8. rewrite Z.shiftr_div_pow2 by lia. change (2 ^ 4) with 16.
  pose proof (hton16_range (field data 4 2)). unfold ntoh16 in *.
  case_if; [exists None; split; [done|lia]|]. case_if; [exists None; split; [done|lia]|].
  eexists. split; [done|]. split_and!; done || lia.
Qed.

(** [ipv4_check] is total on any memory of at least [data_len] bytes, reads only inside it,
    and accepts exactly the valid packets, with the payload inside the packet; the header it
    returns is the one in the packet. *)
Theorem ipv4_check_iff data n : bytes_ok data -> 0 <= n <= zlen data ->
  exists r, ipv4_check data n = Some r /\
  match r with
  | Some (h, o, len) => ipv4_valid data n /\ h = ipv4_of_bytes data /\ o = ihl_bytes data /\
      len = ntoh16 (field data 2 2) - o /\ 20 <= o /\ 0 <= len /\ o + len <= n
  | None => ~ ipv4_valid data n
  end.
Proof. apply ipv4_check_cases. Qed.

(** A header built the way the code builds one is valid: used for packets sent to the device. *)
Definition demo_ipv4 : list Z :=
  [69; 0; 0; 23; 0; 0; 0; 0; 64; 17; 102; 212; 10; 0; 0; 1; 10; 0; 0; 2; 1; 2; 3].
Lemma ipv4_check_iff_witness :
  exists r, ipv4_check demo_ipv4 23 = Some r /\
  match r with
  | Some (h, o, len) => ipv4_valid demo_ipv4 23 /\ h = ipv4_of_bytes demo_ipv4 /\ o = ihl_bytes demo_ipv4 /\
      len = ntoh16 (field demo_ipv4 2 2) - o /\ 20 <= o /\ 0 <= len /\ o + len <= 23
  | None => ~ ipv4_valid demo_ipv4 23
  end.
Proof.
  apply (ipv4_check_iff demo_ipv4 23).
  - apply (bool_decide_unpack _). vm_compute. exact I.
  - vm_compute. split; congruence.
Defined.

(** *** UDP checksums *)

(** The sums the UDP checksums cover: pseudo-header, header, payload. *)
Definition udp4_sum (h : udp_header) (payload : list Z) (len src dst : Z) : Z :=
  wsum (host32 src) + wsum (host32 dst) + IPV4_PROTOCOL_UDP + (8 + len) + wsum (udp_bytes h) +
  wsum (take (Z.to_nat len) payload).
Definition udp6_sum (h : udp_header) (payload : list Z) (len : Z) (src dst : list Z) : Z :=
  wsum src + wsum dst + (8 + len) + IPV6_NEXT_UDP + wsum (udp_bytes h) +
  wsum (take (Z.to_nat len) payload).

Lemma summer_all l n : bytes_ok l -> zlen l = n -> n mod 2 = 0 -> n < 65536 ->
  udp_checksum_summer l n = Some (wsum l) /\ 0 <= wsum l <= 65535 * (n / 2).
Proof.
  intros Hb Hl He Hn. pose proof (zlen_nonneg l). rewrite summer_ok by (done || lia). split.
  - rewrite take_ge; [done|]. unfold zlen in Hl. lia.
  - pose proof (wsum_range l Hb). rewrite Hl in *. revert He. Z.div_mod_to_equations; lia.
Qed.

Lemma payload_sum_ok t payload len : bytes_ok payload -> 0 <= len <= zlen payload -> len <= 65527 ->
  0 <= t <= 65535 * 100 ->
  udp_checksum_payload t payload len = Some (t + wsum (take (Z.to_nat len) payload)) /\
  0 <= t + wsum (take (Z.to_nat len) payload) < 2 ^ 32.
Proof.
  intros Hb Hl Hm Ht. unfold udp_checksum_payload.
  assert (bytes_ok (take (Z.to_nat len) payload)) as Hp by by apply Forall_take.
  pose proof (wsum_range _ Hp) as R. rewrite zlen_take in R by lia.
  assert (0 <= t + wsum (take (Z.to_nat len) payload) < 2 ^ 32) as Hs
    by (revert R; Z.div_mod_to_equations; lia).
  split; [|done]. case_if.
  - rewrite summer_ok by (done || lia). cbn [mbind option_bind]. by rewrite uwrap_small by lia.
  - assert (len mod 2 = 1) as Eo by (pose proof (Z.mod_pos_bound len 2); lia).
    assert ((len - 1) mod 2 = 0) as Ee by (revert Eo; Z.div_mod_to_equations; lia).
    assert (0 < len) by (destruct (Z.eq_dec len 0) as [->|]; [done|lia]).
    rewrite summer_ok by (done || lia). cbn [mbind option_bind].
    destruct (payload !! Z.to_nat (len - 1)) as [b|] eqn:Eb;
      [|apply lookup_ge_None in Eb; unfold zlen in Hl; lia]. cbn [mbind option_bind].
    assert (is_byte b) as Hbb by (by eapply Forall_lookup_1 in Eb). unfold is_byte in Hbb.
    rewrite Z.shiftl_mul_pow2 by lia.
    destruct (summer_all (host16 (hton16 (b * 2 ^ 8))) 2) as [-> _]; [apply le_digits_bytes|done..|].
    rewrite wsum_hton16 by lia. cbn [mbind option_bind]. f_equal.
    assert (wsum (take (Z.to_nat len) payload) = wsum (take (Z.to_nat (len - 1)) payload) + b * 2 ^ 8) as Ew.
    { replace (Z.to_nat len) with (S (Z.to_nat (len - 1))) by lia. rewrite (take_S_r _ _ b) by done.
      rewrite wsum_app; [simpl; lia|]. exists (Z.to_nat ((len - 1) / 2)). rewrite length_take.
      unfold zlen in Hl. pose proof (Z.div_mod (len - 1) 2). lia. }
    assert (bytes_ok (take (Z.to_nat (len - 1)) payload)) as Hp1 by by apply Forall_take.
    pose proof (wsum_range _ Hp1). rewrite Ew in *.
    rewrite (uwrap_small 32 (t + wsum (take (Z.to_nat (len - 1)) payload))) by lia. rewrite uwrap_small; lia.
Qed.

(** The test [t == 0] after [t = ~t] never holds: [t] is 32 bits wide and at most 0xFFFF
    before the complement. *)
Lemma udp_finish_ok t : 0 <= t < 2 ^ 32 -> udp_checksum_finish t = Some (hton16 (65535 - ocsum t)).
Proof.
  intros Ht. unfold udp_checksum_finish. rewrite fold_carries_ok by done. cbn [mbind option_bind].
  destruct (ocsum_range t) as [R _]; [lia|]. rewrite <- hton16_not32 by done.
  assert (not32 (ocsum t) <> 0) as N.
  { unfold not32, uwrap. replace (- ocsum t - 1) with (2 ^ 32 - 1 - ocsum t + (-1) * 2 ^ 32) by lia.
    rewrite Z.mod_add, Z.mod_small by lia. lia. }
  by rewrite (proj2 (Z.eqb_neq _ _) N).
Qed.

(** The five header terms are added without overflow. *)
Lemma u32_sum5 a b c d e : 0 <= a -> 0 <= b -> 0 <= c -> 0 <= d -> 0 <= e -> a + b + c + d + e < 2 ^ 32 ->
  u32 (u32 (u32 (u32 (u32 (0 + a) + b) + c) + d) + e) = a + b + c + d + e.
Proof.
  intros. rewrite (uwrap_small 32 (0 + a)), (uwrap_small 32 (0 + a + b)), (uwrap_small 32 (0 + a + b + c)),
    (uwrap_small 32 (0 + a + b + c + d)), uwrap_small; lia.
Qed.

Lemma udp_checksum_ok h payload len src dst : bytes_ok payload -> 0 <= len <= zlen payload -> len <= 65527 ->
  udp_checksum h payload len src dst = Some (hton16 (65535 - ocsum (udp4_sum h payload len src dst))) /\
  0 < udp4_sum h payload len src dst.
Proof.
  intros Hb Hl Hm. unfold udp_checksum, sizeof_udp_header.
  destruct (summer_all (host32 src) 4) as [-> R1]; [apply le_digits_bytes|done..|].
  destruct (summer_all (host32 dst) 4) as [-> R2]; [apply le_digits_bytes|done..|].
  destruct (summer_all (host16 (hton16 IPV4_PROTOCOL_UDP)) 2) as [-> _]; [apply le_digits_bytes|done..|].
  destruct (summer_all (host16 (hton16 (8 + len))) 2) as [-> _]; [apply le_digits_bytes|done..|].
  destruct (udp_bytes_ok h) as [Hh Hhl].
  destruct (summer_all (udp_bytes h) 8) as [-> R3]; [done|unfold zlen; by rewrite Hhl|done..|].
  cbn [mbind option_bind]. rewrite !wsum_hton16 by (unfold IPV4_PROTOCOL_UDP; lia).
  change (4 / 2) with 2 in *. change (8 / 2) with 4 in *. unfold IPV4_PROTOCOL_UDP.
  rewrite u32_sum5 by lia.
  destruct (payload_sum_ok (wsum (host32 src) + wsum (host32 dst) + 17 + (8 + len) + wsum (udp_bytes h))
    payload len) as [-> Hr]; [done..|lia|]. cbn [mbind option_bind].
  rewrite udp_finish_ok by done. unfold udp4_sum, IPV4_PROTOCOL_UDP. split; [done|].
  pose proof (wsum_range (take (Z.to_nat len) payload) (Forall_take _ _ _ Hb)). lia.
Qed.

Lemma udp_ip6_checksum_ok h payload len src dst : bytes_ok payload -> 0 <= len <= zlen payload -> len <= 65527 ->
  bytes_ok src -> zlen src = 16 -> bytes_ok dst -> zlen dst = 16 ->
  udp_ip6_checksum h payload len src dst = Some (hton16 (65535 - ocsum (udp6_sum h payload len src dst))) /\
  0 < udp6_sum h payload len src dst.
Proof.
  intros Hb Hl Hm Hs Hsl Hd Hdl. unfold udp_ip6_checksum, sizeof_udp_header.
  destruct (summer_all src 16) as [-> R1]; [done..|]. destruct (summer_all dst 16) as [-> R2]; [done..|].
  destruct (summer_all (host32 (hton32 (8 + len))) 4) as [-> _]; [apply le_digits_bytes|done..|].
  destruct (summer_all (host32 (hton32 IPV6_NEXT_UDP)) 4) as [-> _]; [apply le_digits_bytes|done..|].
  destruct (udp_bytes_ok h) as [Hh Hhl].
  destruct (summer_all (udp_bytes h) 8) as [-> R3]; [done|unfold zlen; by rewrite Hhl|done..|].
  cbn [mbind option_bind]. change (wsum (host32 (hton32 IPV6_NEXT_UDP))) with 17.
  rewrite wsum_hton32_small by lia.
  change (16 / 2) with 8 in *. change (8 / 2) with 4 in *. rewrite u32_sum5 by lia.
  destruct (payload_sum_ok (wsum src + wsum dst + (8 + len) + 17 + wsum (udp_bytes h))
    payload len) as [-> Hr]; [done..|lia|]. cbn [mbind option_bind].
  rewrite udp_finish_ok by done. unfold udp6_sum, IPV6_NEXT_UDP. split; [done|].
  pose proof (wsum_range (take (Z.to_nat len) payload) (Forall_take _ _ _ Hb)). lia.
Qed.

(** The two UDP checksums.  On every payload that fits a datagram they are computed without
    overflow or an access outside the payload, and adding the result to what is summed gives a
    ones' complement zero, as a receiver checks.  The result is 0 exactly when the sum is a
    multiple of 65535: the code's substitution of 0xFFFF for a computed 0 (RFC 768: "if the
    computed checksum is zero, it is transmitted as all ones") never takes place. *)
Theorem udp_checksums_spec h payload len src dst src6 dst6 :
  bytes_ok payload -> 0 <= len <= zlen payload -> len <= 65527 ->
  bytes_ok src6 -> zlen src6 = 16 -> bytes_ok dst6 -> zlen dst6 = 16 ->
  (exists c, udp_checksum h payload len src dst = Some c /\
    (udp4_sum h payload len src dst + ntoh16 c) mod 65535 = 0 /\
    (c = 0 <-> udp4_sum h payload len src dst mod 65535 = 0)) /\
  (exists c, udp_ip6_checksum h payload len src6 dst6 = Some c /\
    (udp6_sum h payload len src6 dst6 + ntoh16 c) mod 65535 = 0 /\
    (c = 0 <-> udp6_sum h payload len src6 dst6 mod 65535 = 0)).
Proof.
  intros Hb Hl Hm Hs Hsl Hd Hdl.
  destruct (udp_checksum_ok h payload len src dst Hb Hl Hm) as [-> P4].
  destruct (udp_ip6_checksum_ok h payload len src6 dst6 Hb Hl Hm Hs Hsl Hd Hdl) as [-> P6].
  split; eexists; (split; [done|]); by apply checksum_result.
Qed.

(** A datagram whose checksum the code computes as 0: payload FF E4, all else 0. *)
Definition demo_zero : list Z := [255; 228].
Lemma udp_checksums_spec_witness : udp_checksum (mk_udp 0 0 0 0) demo_zero 2 0 0 = Some 0.
Proof.
  destruct (udp_checksums_spec (mk_udp 0 0 0 0) demo_zero 2 0 0 (replicate 16 0) (replicate 16 0)
    ltac:(apply (bool_decide_unpack _); vm_compute; exact I) ltac:(vm_compute; split; congruence)
    ltac:(lia) ltac:(apply (bool_decide_unpack _); vm_compute; exact I) eq_refl
    ltac:(apply (bool_decide_unpack _); vm_compute; exact I) eq_refl) as [(c & E & _ & Hc) _].
  rewrite E. f_equal. apply Hc. vm_compute. reflexivity.
Defined.
