(* ===== verification/BAddr.v ===== *)
(** * Socket addresses (system/BAddr.h, misc/compare.h)

    IP addresses and ports are kept in network byte order, as in the code. *)

From S2P Require Import Prelude ByteOrder.

(** [BIPAddr] and [BAddr]: the tag [type] with the union. *)
Inductive BIPAddr :=
| IP_NONE
| IP_V4 (ipv4 : Z)
| IP_V6 (ipv6 : list Z).

Inductive BAddr :=
| ADDR_NONE
| ADDR_IPV4 (ip port : Z)
| ADDR_IPV6 (ip : list Z) (port : Z)
| ADDR_PACKET (phys_proto interface_index header_type packet_type : Z) (phys_addr : list Z).

#[export] Instance BIPAddr_eq_dec : EqDecision BIPAddr.
Proof. solve_decision. Defined.
#[export] Instance BAddr_eq_dec : EqDecision BAddr.
Proof. solve_decision. Defined.

Definition addr_type (a : BAddr) : Z :=
  match a with ADDR_NONE => 0 | ADDR_IPV4 _ _ => 1 | ADDR_IPV6 _ _ => 2 | ADDR_PACKET _ _ _ _ _ => 5 end.

Definition BAddr_MakeNone : BAddr := ADDR_NONE.
Definition BAddr_MakeIPv4 (ip port : Z) : BAddr := ADDR_IPV4 ip port.
Definition BAddr_MakeIPv6 (ip : list Z) (port : Z) : BAddr := ADDR_IPV6 (take 16 ip) port.
Definition BAddr_MakeFromIpaddrAndPort (ipaddr : BIPAddr) (port : Z) : BAddr :=
  match ipaddr with
  | IP_NONE => BAddr_MakeNone
  | IP_V4 ip => BAddr_MakeIPv4 ip port
  | IP_V6 ip => BAddr_MakeIPv6 ip port
  end.

Definition BAddr_IsInvalid (addr : BAddr) : bool := addr_type addr =? 0.

Definition BAddr_GetPort (addr : BAddr) : option Z :=
  match addr with
  | ADDR_IPV4 _ port => Some port
  | ADDR_IPV6 _ port => Some port
  | _ => None
  end.
Definition BAddr_GetIPAddr (addr : BAddr) : BIPAddr :=
  match addr with
  | ADDR_IPV4 ip _ => IP_V4 ip
  | ADDR_IPV6 ip _ => IP_V6 (take 16 ip)
  | _ => IP_NONE
  end.
Definition BAddr_SetPort (addr : BAddr) (port : Z) : option BAddr :=
  match addr with
  | ADDR_IPV4 ip _ => Some (ADDR_IPV4 ip port)
  | ADDR_IPV6 ip _ => Some (ADDR_IPV6 ip port)
  | _ => None
  end.

Definition BIPAddr_Compare (addr1 addr2 : BIPAddr) : bool :=
  match addr1, addr2 with
  | IP_V4 a, IP_V4 b => a =? b
  | IP_V6 a, IP_V6 b => memcmp a b =? 0
  | _, _ => false
  end.

Definition BAddr_Compare (addr1 addr2 : BAddr) : bool :=
  match addr1, addr2 with
  | ADDR_IPV4 a p, ADDR_IPV4 b q => (a =? b) && (p =? q)
  | ADDR_IPV6 a p, ADDR_IPV6 b q => (memcmp a b =? 0) && (p =? q)
  | _, _ => false
  end.

Definition B_COMPARE (a b : Z) : Z := Z.b2z (a >? b) - Z.b2z (a <? b).

Definition BAddr_CompareOrder (addr1 addr2 : BAddr) : Z :=
  let cmp := B_COMPARE (addr_type addr1) (addr_type addr2) in
  if negb (cmp =? 0) then cmp else
  match addr1, addr2 with
  | ADDR_IPV4 a p, ADDR_IPV4 b q =>
      let cmp := B_COMPARE (ntoh32 a) (ntoh32 b) in
      if negb (cmp =? 0) then cmp else B_COMPARE (ntoh16 p) (ntoh16 q)
  | ADDR_IPV6 a p, ADDR_IPV6 b q =>
      let cmp := memcmp a b in
      if negb (cmp =? 0) then B_COMPARE cmp 0 else B_COMPARE (ntoh16 p) (ntoh16 q)
  | _, _ => 0
  end.

(** ** The order *)

(** The values the fields can hold. *)
Definition addr_ok (a : BAddr) : Prop :=
  match a with
  | ADDR_NONE => True
  | ADDR_IPV4 ip port => 0 <= ip < 2 ^ 32 /\ 0 <= port < 2 ^ 16
  | ADDR_IPV6 ip port => bytes_ok ip /\ zlen ip = 16 /\ 0 <= port < 2 ^ 16
  | ADDR_PACKET _ _ _ _ _ => False
  end.

(** Reference: the lexicographic order of the words the code compares. *)
Definition addr_key (a : BAddr) : list Z :=
  addr_type a ::
  match a with
  | ADDR_IPV4 ip port => [ntoh32 ip; ntoh16 port]
  | ADDR_IPV6 ip port => ip ++ [ntoh16 port]
  | _ => []
  end.

Fixpoint lex (l k : list Z) : comparison :=
  match l, k with
  | [], [] => Eq
  | [], _ => Lt
  | _, [] => Gt
  | a :: l, b :: k => match a ?= b with Eq => lex l k | c => c end
  end.
Definition sign (c : comparison) : Z := match c with Eq => 0 | Lt => -1 | Gt => 1 end.

Lemma B_COMPARE_sign a b : B_COMPARE a b = sign (a ?= b).
Proof. unfold B_COMPARE. rewrite Z.gtb_ltb. unfold Z.ltb. rewrite (Z.compare_antisym a b). by destruct (a ?= b). Qed.
Lemma sign_0 c : sign c = 0 <-> c = Eq.
Proof. by destruct c. Qed.

Lemma lex_refl l : lex l l = Eq.
Proof. induction l as [|a l IH]; [done|]. simpl. by rewrite Z.compare_refl. Qed.
Lemma lex_eq l k : lex l k = Eq <-> l = k.
Proof.
  split; [|intros ->; apply lex_refl]. revert k. induction l as [|a l IH]; intros [|b k]; try done. simpl.
  destruct (Z.compare_spec a b) as [->| |]; [|done..]. intros H. by rewrite (IH _ H).
Qed.
Lemma lex_antisym l k : lex k l = CompOpp (lex l k).
Proof.
  revert k. induction l as [|a l IH]; intros [|b k]; try done. simpl.
  rewrite (Z.compare_antisym a b). destruct (a ?= b); [apply IH|done..].
Qed.
Lemma lex_trans l k j : lex l k = Lt -> lex k j = Lt -> lex l j = Lt.
Proof.
  revert k j. induction l as [|a l IH]; intros [|b k] [|c j]; try done. simpl.
  destruct (Z.compare_spec a b) as [->|Hab|Hab], (Z.compare_spec b c) as [->|Hbc|Hbc]; try done.
  - apply IH.
  - intros. by rewrite (proj2 (Z.compare_lt_iff a c) Hab).
  - intros. by rewrite (proj2 (Z.compare_lt_iff a c) (Z.lt_trans _ _ _ Hab Hbc)).
Qed.

Lemma memcmp_lex l k l' k' : length l = length k ->
  sign (lex (l ++ l') (k ++ k')) =
    (if negb (memcmp l k =? 0) then B_COMPARE (memcmp l k) 0 else sign (lex l' k')).
Proof.
  revert k. induction l as [|a l IH]; intros [|b k]; try done. intros [= H]. simpl.
  destruct (Z.eqb_spec a b) as [->|N]; [rewrite Z.compare_refl; by apply IH|].
  rewrite (proj2 (Z.eqb_neq (a - b) 0)) by lia. simpl. rewrite B_COMPARE_sign.
  destruct (Z.compare_spec a b), (Z.compare_spec (a - b) 0); done || lia.
Qed.

Lemma CompareOrder_lex a b : addr_ok a -> addr_ok b ->
  BAddr_CompareOrder a b = sign (lex (addr_key a) (addr_key b)).
Proof.
  intros Ha Hb. unfold BAddr_CompareOrder, addr_key. cbn [lex]. rewrite B_COMPARE_sign.
  destruct a as [|ip port|ip port|], b as [|ip' port'|ip' port'|]; try done.
  - simpl. rewrite !B_COMPARE_sign. destruct (ntoh32 ip ?= ntoh32 ip'); [|done..]. simpl.
    by destruct (ntoh16 port ?= ntoh16 port').
  - destruct Ha as (_ & Hl & _), Hb as (_ & Hl' & _). unfold zlen in *. cbn [addr_type].
    rewrite Z.compare_refl. cbn [sign negb Z.eqb]. rewrite memcmp_lex by lia.
    rewrite (B_COMPARE_sign (ntoh16 port)). simpl. by destruct (ntoh16 port ?= ntoh16 port').
Qed.

Lemma ntoh_inj w x y : 0 <= x < 2 ^ 32 -> 0 <= y < 2 ^ 32 -> w = ntoh32 x -> w = ntoh32 y -> x = y.
Proof.
  intros Hx Hy -> E. rewrite <- (uwrap_small 32 x), <- (uwrap_small 32 y) by done.
  rewrite <- !hton32_invol. unfold ntoh32 in E. by rewrite E.
Qed.
Lemma ntoh16_inj x y : 0 <= x < 2 ^ 16 -> 0 <= y < 2 ^ 16 -> ntoh16 x = ntoh16 y -> x = y.
Proof.
  intros Hx Hy E. rewrite <- (uwrap_small 16 x), <- (uwrap_small 16 y) by done.
  rewrite <- !hton16_invol. unfold ntoh16 in E. by rewrite E.
Qed.

Lemma addr_key_inj a b : addr_ok a -> addr_ok b -> addr_key a = addr_key b -> a = b.
Proof.
  destruct a as [|ip port|ip port|], b as [|ip' port'|ip' port'|]; try done; simpl.
  - intros [? ?] [? ?] [= E1 E2]. f_equal; [by eapply ntoh_inj|by apply ntoh16_inj].
  - intros (_ & ? & ?) (_ & ? & ?) [= E]. apply app_inj_tail in E as [-> E]. f_equal. by apply ntoh16_inj.
Qed.

Lemma BAddr_Compare_eq a b : addr_ok a -> addr_ok b -> a <> ADDR_NONE -> BAddr_Compare a b = true <-> a = b.
Proof.
  destruct a as [|ip port|ip port|], b as [|ip' port'|ip' port'|]; try done; simpl; intros Ha Hb _.
  - rewrite andb_true_iff, !Z.eqb_eq. split; [by intros [-> ->]|by intros [= -> ->]].
  - destruct Ha as (_ & Hl & _), Hb as (_ & Hl' & _). unfold zlen in *.
    rewrite andb_true_iff, !Z.eqb_eq, memcmp_eq by lia. split; [by intros [-> ->]|by intros [= -> ->]].
Qed.

(** [BAddr_CompareOrder], the order of the connection trees, is a total order on IP
    addresses: it answers 0 exactly for equal addresses (and then only does [BAddr_Compare] hold
    on addresses that are not NONE), swapping the arguments negates it, and it is transitive. *)
Theorem BAddr_CompareOrder_total a b c : addr_ok a -> addr_ok b -> addr_ok c ->
  (BAddr_CompareOrder a b = 0 <-> a = b) /\
  (a <> ADDR_NONE -> BAddr_Compare a b = true <-> BAddr_CompareOrder a b = 0) /\
  BAddr_CompareOrder b a = - BAddr_CompareOrder a b /\
  (BAddr_CompareOrder a b < 0 -> BAddr_CompareOrder b c < 0 -> BAddr_CompareOrder a c < 0).
Proof.
  intros Ha Hb Hc. assert (BAddr_CompareOrder a b = 0 <-> a = b) as H0.
  { rewrite CompareOrder_lex, sign_0, lex_eq by done. split; [by apply addr_key_inj|by intros ->]. }
  split; [done|]. split; [|split].
  - intros Hn. rewrite H0. apply BAddr_Compare_eq; done.
  - rewrite !CompareOrder_lex by done. rewrite lex_antisym. by destruct (lex _ _).
  - rewrite !CompareOrder_lex by done.
    destruct (lex (addr_key a) (addr_key b)) eqn:E1; try done.
    destruct (lex (addr_key b) (addr_key c)) eqn:E2; try done. intros _ _. by rewrite (lex_trans _ _ _ E1 E2).
Qed.

Lemma BAddr_CompareOrder_total_witness :
  BAddr_CompareOrder (ADDR_IPV4 16777343 20480) (ADDR_IPV6 (replicate 16 0) 20480) =
  - BAddr_CompareOrder (ADDR_IPV6 (replicate 16 0) 20480) (ADDR_IPV4 16777343 20480).
Proof.
  apply (BAddr_CompareOrder_total (ADDR_IPV6 (replicate 16 0) 20480) (ADDR_IPV4 16777343 20480) ADDR_NONE).
  - split; [apply (bool_decide_unpack _); vm_compute; exact I|split; [reflexivity|lia]].
  - simpl. lia.
  - exact I.
Defined.
