(* ===== verification/AddrText.v ===== *)
(** * Socket addresses as text (system/BAddr.h), log levels (misc/loglevel.h)

    Printing and parsing of socket addresses.  A C string is the list of its characters without the
    terminator.  The resolver of the operating system ([getaddrinfo]) is a parameter; the
    parsers hand it the part of the text that names the host.  Of the standard library, [strtol] and
    [atoi] are modelled here.

    A parser returns [Some None] where the code returns 0; the outer [option] is an access outside a
    buffer, or undefined behaviour. *)

From Stdlib Require Import String Ascii.
From S2P Require Import Prelude ByteOrder ParseNumber IpAddr IpAddr6 IpAddr6Print BAddr.
Import Text.

(** String literals of the code. *)
Definition lit (s : string) : list Z := map (fun c => Z.of_nat (nat_of_ascii c)) (list_ascii_of_string s).

Definition CH_OPEN : Z := 91.
Definition CH_CLOSE : Z := 93.

(** ** Numbers: the standard library *)
Definition LONG_MAX : Z := 2 ^ 63 - 1.
Definition LONG_MIN : Z := - 2 ^ 63.

Definition isspace (c : Z) : bool := (c =? 32) || ((9 <=? c) && (c <=? 13)).
Fixpoint skip_spaces (s : list Z) : list Z :=
  match s with
  | c :: t => if isspace c then skip_spaces t else s
  | [] => []
  end.
Fixpoint span_digits (s : list Z) : list Z * list Z :=
  match s with
  | c :: t => if is_digit decode_decimal_digit c then let '(ds, r) := span_digits t in (c :: ds, r) else ([], s)
  | [] => ([], [])
  end.
Definition optional_sign (s : list Z) : bool * list Z :=
  match s with
  | c :: t => if c =? CH_MINUS then (true, t) else if c =? CH_PLUS then (false, t) else (false, s)
  | [] => (false, [])
  end.

(** [strtol(s, &end, 10)]: the value and the text [end] points to; out of range the value is the
    nearest one. *)
Definition strtol (s : list Z) : Z * list Z :=
  let '(neg, t) := optional_sign (skip_spaces s) in
  let '(ds, r) := span_digits t in
  if zlen ds =? 0 then (0, s) else
  (if neg : bool then Z.max (- dec_value 0 ds) LONG_MIN else Z.min (dec_value 0 ds) LONG_MAX, r).

(** [atoi]: undefined when the value is not an [int]. *)
Definition atoi (s : list Z) : option Z :=
  let v := (strtol s).1 in
  ASSERT (- INT_MAX - 1 <=? v) && (v <=? INT_MAX);
  Some v.

(** ** Log levels *)
Definition BLOG_ERROR : Z := 1.
Definition BLOG_WARNING : Z := 2.
Definition BLOG_NOTICE : Z := 3.
Definition BLOG_INFO : Z := 4.
Definition BLOG_DEBUG : Z := 5.

Definition parse_loglevel (str : list Z) : Z :=
  if bool_decide (str = lit "none") then 0 else
  if bool_decide (str = lit "error") then BLOG_ERROR else
  if bool_decide (str = lit "warning") then BLOG_WARNING else
  if bool_decide (str = lit "notice") then BLOG_NOTICE else
  if bool_decide (str = lit "info") then BLOG_INFO else
  if bool_decide (str = lit "debug") then BLOG_DEBUG else
  let '(res, endptr) := strtol str in
  if negb (bool_decide (str = [])) && bool_decide (endptr = []) && (res >=? 0) && (res <=? BLOG_DEBUG) then res else -1.

(** ** The resolver *)

(** [getaddrinfo] for a family, with the flag [AI_NUMERICHOST]: the first address found. *)
Record resolver := mk_resolver { gai4 : bool -> list Z -> option Z; gai6 : bool -> list Z -> option (list Z) }.

(** Addresses are addresses, and an address in its usual form is not looked up. *)
Record resolver_ok (r : resolver) : Prop := {
  gai4_range : forall n t ip, gai4 r n t = Some ip -> 0 <= ip < 2 ^ 32;
  gai6_range : forall n t ip, gai6 r n t = Some ip -> bytes_ok ip /\ zlen ip = 16;
  gai4_numeric : forall n ip, 0 <= ip < 2 ^ 32 -> gai4 r n (dotted (host32 ip)) = Some ip;
}.

(** A copy with terminator into a buffer of [size] bytes. *)
Definition copy_str (size : Z) (t : list Z) : option (list Z) := ASSERT zlen t + 1 <=? size; Some t.

Definition BADDR_MAX_ADDR_LEN : Z := 128.

Section Resolve.
Context (rs : resolver).

Definition BIPAddr_Resolve (str : list Z) (noresolve : bool) : option (option BIPAddr) :=
  let len := zlen str in
  let ipv6 := (len >=? 1) && bool_decide (str !! 0%nat = Some CH_OPEN) && bool_decide (str !! Z.to_nat (len - 1) = Some CH_CLOSE) in
  let '(addr_start, addr_len) := if ipv6 then (1, len - 2) else (0, len) in
  if addr_len >? BADDR_MAX_ADDR_LEN then Some None else
  addr_str ← copy_str (BADDR_MAX_ADDR_LEN + 1) (sub str addr_start addr_len);
  if ipv6 then
    match gai6 rs noresolve addr_str with Some ip => Some (Some (IP_V6 ip)) | None => Some None end
  else
    match gai4 rs noresolve addr_str with Some ip => Some (Some (IP_V4 ip)) | None => Some None end.

(** The places of the address and the port: from '[' to ']', or up to ':'. *)
Definition split_address (str : list Z) : option (bool * (Z * Z) * (Z * Z)) :=
  let len := zlen str in
  if bool_decide (str !! 0%nat = Some CH_OPEN) then
    i ← find_char_from 1 (drop 1 str) CH_CLOSE;
    if (i + 1 >=? len) || negb (bool_decide (str !! Z.to_nat (i + 1) = Some CH_COLON)) then None else
    Some (true, (1, i - 1), (i + 2, len - (i + 2)))
  else
    i ← find_char_from 0 str CH_COLON;
    Some (false, (0, i), (i + 1, len - (i + 1))).

Definition addr_buf_size : Z := 128.
Definition port_buf_size : Z := 6.

(** [name]: the size of the buffer for the name of the host, if one is given; the name written. *)
Definition BAddr_Parse2 (str : list Z) (name : option Z) (noresolve : bool) : option (option (BAddr * option (list Z))) :=
  let len := zlen str in
  if (len <? 1) || (len >? 1000) then Some None else
  match split_address str with
  | None => Some None
  | Some (ipv6, (addr_start, addr_len), (port_start, port_len)) =>
      if addr_len >=? addr_buf_size then Some None else
      addr_str ← copy_str addr_buf_size (sub str addr_start addr_len);
      if port_len >=? port_buf_size then Some None else
      port_str ← copy_str port_buf_size (sub str port_start port_len);
      let '(conv_res, err) := strtol port_str in
      if bool_decide (port_str = []) || negb (bool_decide (err = [])) then Some None else
      if (conv_res <? 0) || (conv_res >? UINT16_MAX) then Some None else
      let port := hton16 conv_res in
      let addr := if ipv6 : bool then ip ← gai6 rs noresolve addr_str; Some (ADDR_IPV6 ip port) else ip ← gai4 rs noresolve addr_str; Some (ADDR_IPV4 ip port) in
      match addr with
      | None => Some None
      | Some addr =>
          match name with
          | None => Some (Some (addr, None))
          | Some name_len => if zlen addr_str >=? name_len then Some None else Some (Some (addr, Some addr_str))
          end
      end
  end.

Definition BAddr_Parse (str : list Z) (name : option Z) : option (option (BAddr * option (list Z))) := BAddr_Parse2 str name false.
End Resolve.

(** ** Printing *)
Definition BIPADDR_MAX_PRINT_LEN : Z := 40.
Definition BADDR_MAX_PRINT_LEN : Z := 120.

(** The words of an IPv6 address, read as 16-bit integers in network order. *)
Definition ipv6_words (ip : list Z) : option (list Z) := mapM (fun i => badvpn_read_be16 (drop i ip)) [0; 2; 4; 6; 8; 10; 12; 14]%nat.

(** [%d], and [%02x] of a byte. *)
Definition fmt_d (x : Z) : list Z := if x <? 0 then CH_MINUS :: fmt_u (- x) else fmt_u x.
Definition fmt_02x (x : Z) : list Z := if x <? 16 then CH_0 :: fmt_x x else fmt_x x.

Definition BIPAddr_Print (addr : BIPAddr) (out : list Z) : option (list Z) :=
  match addr with
  | IP_NONE => r ← sprintf out 0 (lit "(none)"); Some r.1
  | IP_V4 ip => r ← sprintf out 0 (dotted (host32 ip)); Some r.1
  | IP_V6 ip => ws ← ipv6_words ip; r ← sprintf out 0 (join CH_COLON (map fmt_x ws)); Some r.1
  end.

(** The address, and the port behind it. *)
Definition print_with_port (ipaddr : BIPAddr) (port : Z) (out : list Z) : option (list Z) :=
  out ← BIPAddr_Print ipaddr out;
  t ← cstr out;
  r ← sprintf out (zlen t) (CH_COLON :: fmt_u (ntoh16 port)); Some r.1.

Definition BAddr_Print (addr : BAddr) (out : list Z) : option (list Z) :=
  match addr with
  | ADDR_NONE => r ← sprintf out 0 (lit "(none)"); Some r.1
  | ADDR_IPV4 ip port => print_with_port (IP_V4 ip) port out
  | ADDR_IPV6 ip port => print_with_port (IP_V6 ip) port out
  | ADDR_PACKET phys_proto interface_index header_type packet_type phys_addr =>
      ASSERT header_type =? 1;
      ASSERT 6 <=? zlen phys_addr;
      r ← sprintf out 0 (lit "proto=" ++ fmt_u phys_proto ++ lit ",ifindex=" ++ fmt_d interface_index ++ lit ",htype=eth,ptype=" ++ fmt_d packet_type ++
        lit ",addr=" ++ join CH_COLON (map fmt_02x (take 6 phys_addr)));
      Some r.1
  end.

(** ** Reference definitions *)

(** White space, a sign, and digits. *)
Definition number_text (t : list Z) (v : Z) : Prop :=
  exists sp sg ds, t = sp ++ sg ++ ds /\ forallb isspace sp = true /\ (sg = [] \/ sg = [CH_PLUS] \/ sg = [CH_MINUS]) /\
    dec_digits ds = true /\ ds <> [] /\ v = (if bool_decide (sg = [CH_MINUS]) then - dec_value 0 ds else dec_value 0 ds).

Definition clamp (v : Z) : Z := Z.max LONG_MIN (Z.min v LONG_MAX).

(** [host:port], or [[host]:port] for IPv6. *)
Definition address_text (ipv6 : bool) (host port s : list Z) : Prop :=
  if ipv6 then s = CH_OPEN :: host ++ CH_CLOSE :: CH_COLON :: port /\ clean CH_CLOSE host
  else s = host ++ CH_COLON :: port /\ clean CH_COLON host /\ head host <> Some CH_OPEN.

(** ** Numbers *)
Lemma isspace_iff c : isspace c = true <-> c = 32 \/ 9 <= c <= 13.
Proof. unfold isspace. split; intros; reflect_bool; lia. Qed.

Lemma skip_spaces_split s : exists sp, s = sp ++ skip_spaces s /\ forallb isspace sp = true.
Proof.
  induction s as [|c s (sp & E & H)]; [by exists []|]. cbn [skip_spaces]. destruct (isspace c) eqn:Hc; [|by exists []].
  exists (c :: sp). cbn. by rewrite <- E, Hc.
Qed.
Lemma skip_spaces_app sp s : forallb isspace sp = true -> skip_spaces (sp ++ s) = skip_spaces s.
Proof. induction sp as [|c sp IH]; [done|]. cbn. destruct (isspace c); [exact IH|done]. Qed.
Lemma skip_spaces_stop c s : isspace c = false -> skip_spaces (c :: s) = c :: s.
Proof. cbn. by intros ->. Qed.

Lemma span_digits_split s : s = (span_digits s).1 ++ (span_digits s).2 /\ dec_digits (span_digits s).1 = true.
Proof.
  induction s as [|c s [E H]]; [done|]. cbn [span_digits]. destruct (is_digit decode_decimal_digit c) eqn:Hc; [|done].
  destruct (span_digits s) as [ds r]. cbn in *. by rewrite <- E, Hc.
Qed.
Lemma span_digits_all ds : dec_digits ds = true -> span_digits ds = (ds, []).
Proof. induction ds as [|c ds IH]; [done|]. cbn [forallb span_digits]. intros [-> H]%andb_true_iff. by rewrite IH. Qed.

Lemma digit_not_sign c : is_digit decode_decimal_digit c = true -> isspace c = false /\ c <> CH_MINUS /\ c <> CH_PLUS.
Proof.
  rewrite is_decimal_iff. intros [H1 H2]%andb_true_iff. apply Z.leb_le in H1, H2. unfold CH_0, CH_9, CH_MINUS, CH_PLUS in *. split; [|lia].
  apply not_true_is_false. rewrite isspace_iff. lia.
Qed.

Lemma strtol_number t v : number_text t v -> strtol t = (clamp v, []).
Proof.
  intros (sp & sg & ds & -> & Hsp & Hsg & Hd & Hne & ->). destruct ds as [|c ds]; [done|]. cbn in Hd. apply andb_true_iff in Hd as [Hc Hd].
  assert (dec_digits (c :: ds) = true) as Hcd by (cbn; by rewrite Hc). destruct (digit_not_sign c Hc) as (Hs & Hm & Hp). pose proof (dec_value_range (c :: ds) Hcd) as Hv.
  unfold strtol. rewrite skip_spaces_app by done. assert ((zlen (c :: ds) =? 0) = false) as Hz by (rewrite zlen_cons; pose proof (zlen_nonneg ds); lia).
  destruct Hsg as [->|[->| ->]]; cbn [app].
  - rewrite skip_spaces_stop by done. unfold optional_sign. rewrite (proj2 (Z.eqb_neq c _)), (proj2 (Z.eqb_neq c _)) by done. rewrite span_digits_all, Hz by done.
    f_equal. rewrite bool_decide_false by done. unfold clamp, LONG_MIN, LONG_MAX. lia.
  - change (skip_spaces (CH_PLUS :: c :: ds)) with (CH_PLUS :: c :: ds). cbn [optional_sign]. change (CH_PLUS =? CH_MINUS) with false. change (CH_PLUS =? CH_PLUS) with true.
    cbn match. rewrite span_digits_all, Hz by done. rewrite bool_decide_false by done. f_equal. unfold clamp, LONG_MIN, LONG_MAX. lia.
  - change (skip_spaces (CH_MINUS :: c :: ds)) with (CH_MINUS :: c :: ds). cbn [optional_sign]. change (CH_MINUS =? CH_MINUS) with true.
    cbn match. rewrite span_digits_all, Hz by done. rewrite bool_decide_true by done. f_equal. unfold clamp, LONG_MIN, LONG_MAX. lia.
Qed.

Lemma strtol_all t v : strtol t = (v, []) -> t <> [] -> exists w, number_text t w /\ v = clamp w.
Proof.
  intros H Hne. assert (exists w, number_text t w) as [w Hw].
  { unfold strtol in H. destruct (skip_spaces_split t) as (sp & E & Hsp). set (u := skip_spaces t) in *. destruct (optional_sign u) as [neg u'] eqn:Es.
    assert (exists sg, u = sg ++ u' /\ (sg = [] \/ sg = [CH_PLUS] \/ sg = [CH_MINUS])) as (sg & Eu & Hsg).
    { unfold optional_sign in Es. destruct u as [|c u0]; [injection Es as <- <-; exists []; auto|]. destruct (Z.eqb_spec c CH_MINUS) as [->|_]; [injection Es as <- <-; exists [CH_MINUS]; auto|].
      destruct (Z.eqb_spec c CH_PLUS) as [->|_]; [injection Es as <- <-; exists [CH_PLUS]; auto|]. injection Es as <- <-. exists []. auto. }
    destruct (span_digits_split u') as [Ed Hd]. destruct (span_digits u') as [ds r]. cbn in *. destruct (Z.eqb_spec (zlen ds) 0) as [Ez|Ez]; [congruence|].
    injection H as _ ->. rewrite app_nil_r in Ed. subst u'. eexists. exists sp, sg, ds. split; [by rewrite <- Eu|]. split; [done|]. split; [done|]. split; [done|]. split; [by intros ->|done]. }
  exists w. split; [done|]. rewrite (strtol_number _ _ Hw) in H. congruence.
Qed.

(** A number of five characters is read exactly. *)
Lemma number_text_short t v : number_text t v -> zlen t <= 5 -> clamp v = v.
Proof.
  intros (sp & sg & ds & -> & _ & _ & Hd & _ & Ev) Hl. rewrite !zlen_app in Hl. pose proof (zlen_nonneg sp). pose proof (zlen_nonneg sg). pose proof (dec_value_range ds Hd) as Hv.
  assert (10 ^ zlen ds <= 10 ^ 5) by (apply Z.pow_le_mono_r; lia). unfold clamp, LONG_MIN, LONG_MAX. case_bool_decide; lia.
Qed.

Lemma fmt_u_number x : 0 <= x -> number_text (fmt_u x) x.
Proof.
  intros Hx. destruct (fmt_u_ok x Hx) as (Hd & Hv & Hl). exists [], [], (fmt_u x). split; [done|]. split; [done|]. split; [by left|]. split; [done|]. split; [by destruct (fmt_u x); [cbn in Hl; lia|]|].
  by rewrite bool_decide_false.
Qed.

(** ** Parsing *)
Lemma find_char_some i s c j : find_char_from i s c = Some j -> exists t r, s = t ++ c :: r /\ clean c t /\ j = i + zlen t.
Proof.
  revert i. induction s as [|x s IH]; intros i; [done|]. cbn [find_char_from]. destruct (Z.eqb_spec x c) as [->|Hx].
  - intros [= <-]. exists [], s. split; [done|]. split; [apply not_elem_of_nil|]. rewrite zlen_nil. lia.
  - intros (t & r & -> & Hc & ->)%IH. exists (x :: t), r. split; [done|]. split; [by apply not_elem_of_cons|]. rewrite zlen_cons. lia.
Qed.

Lemma sub_middle {A} (a m r : list A) : sub (a ++ m ++ r) (zlen a) (zlen m) = m.
Proof. unfold sub, zlen. rewrite !Nat2Z.id, drop_app_length, take_app_length. done. Qed.
Lemma sub_last {A} (a m : list A) : sub (a ++ m) (zlen a) (zlen m) = m.
Proof. rewrite <- (app_nil_r m) at 1. apply sub_middle. Qed.
Lemma sub_first {A} (m r : list A) : sub (m ++ r) 0 (zlen m) = m.
Proof. exact (sub_middle [] m r). Qed.

Lemma lookup_zlen {A} (a : list A) x r : (a ++ x :: r) !! Z.to_nat (zlen a) = Some x.
Proof. unfold zlen. by rewrite Nat2Z.id, list_lookup_middle. Qed.

Lemma split_complete v6 host port s : address_text v6 host port s ->
  exists a0 p0, split_address s = Some (v6, (a0, zlen host), (p0, zlen port)) /\ sub s a0 (zlen host) = host /\ sub s p0 (zlen port) = port.
Proof.
  unfold split_address. destruct v6; cbn [address_text].
  - intros [-> Hc]. change (drop 1 (CH_OPEN :: ?l)) with l. rewrite bool_decide_true by done. rewrite find_char_app by done. cbn [mbind option_bind].
    change (CH_OPEN :: host ++ CH_CLOSE :: CH_COLON :: port) with ([CH_OPEN] ++ host ++ CH_CLOSE :: CH_COLON :: port). pose proof (zlen_nonneg host). pose proof (zlen_nonneg port).
    assert (1 + zlen host + 1 = zlen ([CH_OPEN] ++ host ++ [CH_CLOSE])) as Ei by (rewrite !zlen_app; change (zlen [CH_OPEN]) with 1; change (zlen [CH_CLOSE]) with 1; lia).
    assert ([CH_OPEN] ++ host ++ CH_CLOSE :: CH_COLON :: port = ([CH_OPEN] ++ host ++ [CH_CLOSE]) ++ CH_COLON :: port) as Es by (by rewrite <- !app_assoc).
    assert (zlen ([CH_OPEN] ++ host ++ CH_CLOSE :: CH_COLON :: port) = zlen host + 3 + zlen port) as El by (rewrite !zlen_app, !zlen_cons, zlen_nil; lia).
    rewrite El. replace (1 + zlen host + 1 >=? zlen host + 3 + zlen port) with false by (symmetry; lia). cbn [orb].
    rewrite (bool_decide_true (_ !! Z.to_nat (1 + zlen host + 1) = _)) by (rewrite Ei, Es; apply lookup_zlen). cbn [negb].
    exists 1, (zlen host + 3). replace (1 + zlen host - 1) with (zlen host) by lia. replace (1 + zlen host + 2) with (zlen host + 3) by lia.
    replace (zlen host + 3 + zlen port - (zlen host + 3)) with (zlen port) by lia. split; [done|]. split; [apply (sub_middle [CH_OPEN] host)|].
    rewrite Es. replace (([CH_OPEN] ++ host ++ [CH_CLOSE]) ++ CH_COLON :: port) with ((([CH_OPEN] ++ host ++ [CH_CLOSE]) ++ [CH_COLON]) ++ port) by (by rewrite <- !app_assoc).
    replace (zlen host + 3) with (zlen (([CH_OPEN] ++ host ++ [CH_CLOSE]) ++ [CH_COLON])) by (rewrite zlen_app, <- Ei; change (zlen [CH_COLON]) with 1; lia). apply sub_last.
  - intros (-> & Hc & Hh). rewrite bool_decide_false by (destruct host; [done|exact Hh]). rewrite find_char_app by done. cbn [mbind option_bind].
    exists 0, (zlen host + 1). rewrite zlen_app, zlen_cons. replace (0 + zlen host) with (zlen host) by lia. replace (zlen host + (1 + zlen port) - (zlen host + 1)) with (zlen port) by lia. split; [done|]. split; [apply sub_first|].
    replace (host ++ CH_COLON :: port) with ((host ++ [CH_COLON]) ++ port) by (by rewrite <- app_assoc).
    replace (zlen host + 1) with (zlen (host ++ [CH_COLON])) by (rewrite zlen_app; done). apply sub_last.
Qed.

Lemma split_sound s v6 a p : split_address s = Some (v6, a, p) -> exists host port, address_text v6 host port s.
Proof.
  unfold split_address. case_bool_decide as Ho.
  - destruct s as [|c s]; [done|]. cbn in Ho. injection Ho as ->. change (drop 1 (CH_OPEN :: s)) with s. destruct (find_char_from 1 s CH_CLOSE) as [i|] eqn:E; [|done]. cbn [mbind option_bind].
    apply find_char_some in E as (t & r & -> & Hc & ->). destruct (_ || _) eqn:Hb; [done|]. intros [= <- _ _]. apply orb_false_iff in Hb as [Hl Hn]. apply negb_false_iff, bool_decide_eq_true in Hn.
    replace (Z.to_nat (1 + zlen t + 1)) with (S (length t + 1)) in Hn by (unfold zlen; lia). change ((CH_OPEN :: t ++ CH_CLOSE :: r) !! S (length t + 1)) with ((t ++ CH_CLOSE :: r) !! (length t + 1)%nat) in Hn. rewrite lookup_app_r in Hn by lia.
    replace (length t + 1 - length t)%nat with 1%nat in Hn by lia. destruct r as [|x r]; [done|]. cbn in Hn. injection Hn as ->. by exists t, r.
  - destruct (find_char_from 0 s CH_COLON) as [i|] eqn:E; [|done]. cbn [mbind option_bind]. intros [= <- _ _]. apply find_char_some in E as (t & r & -> & Hc & _).
    exists t, r. split; [done|]. split; [done|]. intros Hh. apply Ho. by destruct t.
Qed.

Lemma address_text_inj v6 h p v6' h' p' s : address_text v6 h p s -> address_text v6' h' p' s -> v6 = v6' /\ h = h' /\ p = p'.
Proof.
  intros (a & q & E & Eh & Ep)%split_complete (a' & q' & E' & Eh' & Ep')%split_complete. rewrite E in E'. injection E' as -> -> El -> El'.
  split; [done|]. split; [by rewrite <- Eh, <- Eh', El|by rewrite <- Ep, <- Ep', El'].
Qed.

Lemma address_text_len v6 h p s : address_text v6 h p s -> 1 <= zlen s <= zlen h + zlen p + 3.
Proof.
  pose proof (zlen_nonneg h). pose proof (zlen_nonneg p). unfold address_text. destruct v6; intros (-> & _); rewrite ?zlen_cons, zlen_app, ?zlen_cons; lia.
Qed.

Definition resolved (rs : resolver) (noresolve ipv6 : bool) (host : list Z) (port : Z) : option BAddr :=
  if ipv6 then ip ← gai6 rs noresolve host; Some (ADDR_IPV6 ip port) else ip ← gai4 rs noresolve host; Some (ADDR_IPV4 ip port).

(** What the text denotes. *)
Definition denotes (rs : resolver) (s : list Z) (name : option Z) (noresolve : bool) (a : BAddr) (nm : option (list Z)) : Prop :=
  exists ipv6 host pt port, address_text ipv6 host pt s /\ zlen host < addr_buf_size /\ zlen pt < port_buf_size /\ number_text pt port /\ 0 <= port <= UINT16_MAX /\
    resolved rs noresolve ipv6 host (hton16 port) = Some a /\ match name with None => nm = None | Some n => zlen host < n /\ nm = Some host end.

Lemma parse_of_text rs s name nr v6 host pt : address_text v6 host pt s ->
  BAddr_Parse2 rs s name nr = Some (
    if (zlen host <? addr_buf_size) && (zlen pt <? port_buf_size) then
      let '(v, e) := strtol pt in
      if bool_decide (pt = []) || negb (bool_decide (e = [])) || (v <? 0) || (v >? UINT16_MAX) then None else
      a ← resolved rs nr v6 host (hton16 v);
      match name with None => Some (a, None) | Some n => if zlen host <? n then Some (a, Some host) else None end
    else None).
Proof.
  intros Ht. pose proof (address_text_len _ _ _ _ Ht) as Hl. pose proof (zlen_nonneg host). pose proof (zlen_nonneg pt). destruct (split_complete _ _ _ _ Ht) as (a0 & p0 & Es & Eh & Ep).
  unfold BAddr_Parse2. rewrite Es. destruct (Z.ltb_spec (zlen host) addr_buf_size) as [Hh|Hh]; cbn [andb].
  2: { case_if; [done|]. by rewrite (proj2 (Z.geb_le _ _)). }
  replace (zlen host >=? addr_buf_size) with false by (symmetry; lia). rewrite Eh, Ep. unfold copy_str. bool_true. cbn [mbind option_bind].
  destruct (Z.ltb_spec (zlen pt) port_buf_size) as [Hp|Hp].
  2: { case_if; [done|]. by rewrite (proj2 (Z.geb_le _ _)). }
  unfold addr_buf_size, port_buf_size in *. bool_false. bool_false. bool_true. cbn [mbind option_bind].
  destruct (strtol pt) as [v e]. destruct (bool_decide (pt = []) || negb (bool_decide (e = []))); cbn [orb]; [done|]. destruct ((v <? 0) || (v >? UINT16_MAX)); [done|].
  unfold resolved. destruct v6.
  - destruct (gai6 rs nr host) as [ip|]; [|done]. cbn. destruct name as [n|]; [|done]. destruct (Z.ltb_spec (zlen host) n); [by bool_false|by bool_true].
  - destruct (gai4 rs nr host) as [ip|]; [|done]. cbn. destruct name as [n|]; [|done]. destruct (Z.ltb_spec (zlen host) n); [by bool_false|by bool_true].
Qed.

Lemma addr_parse_denotes rs s name nr :
  exists res, BAddr_Parse2 rs s name nr = Some res /\ forall a nm, res = Some (a, nm) <-> denotes rs s name nr a nm.
Proof.
  destruct (split_address s) as [[[v6 x] y]|] eqn:Es.
  2: { exists None. split; [unfold BAddr_Parse2; rewrite Es; by case_if|]. intros a nm. split; [done|]. intros (v6 & h & p & port & Ht & _). apply split_complete in Ht as (a0 & p0 & E & _). congruence. }
  destruct (split_sound _ _ _ _ Es) as (host & pt & Ht). rewrite (parse_of_text rs s name nr v6 host pt Ht). eexists. split; [done|]. intros a nm. split.
  - destruct ((_ <? _) && _) eqn:Hl; [|done]. apply andb_true_iff in Hl as [Hh%Z.ltb_lt Hp%Z.ltb_lt]. destruct (strtol pt) as [v e] eqn:Ev.
    destruct (bool_decide_reflect (pt = [])) as [|Hne]; [done|]. destruct (bool_decide_reflect (e = [])) as [->|]; [|done]. cbn [negb orb].
    destruct ((v <? 0) || (v >? UINT16_MAX)) eqn:Hv; [done|]. destruct (strtol_all pt v Ev Hne) as (w & Hw & ->). unfold port_buf_size in Hp. rewrite (number_text_short _ _ Hw ltac:(lia)) in *.
    apply orb_false_iff in Hv as [Hv1 Hv2]. destruct (resolved rs nr v6 host (hton16 w)) as [a'|] eqn:Er; [|done]. cbn [mbind option_bind].
    intros Hr. exists v6, host, pt, w. split; [done|]. split; [done|]. split; [unfold port_buf_size; lia|]. split; [done|]. split; [lia|].
    destruct name as [n|]; [destruct (Z.ltb_spec (zlen host) n); [|done]|]; injection Hr as <- <-; done.
  - intros (v6' & h & p & port & Ht' & Hh & Hp & Hn & Hr & Ea & Hm). destruct (address_text_inj _ _ _ _ _ _ _ Ht Ht') as (<- & <- & <-).
    rewrite (proj2 (Z.ltb_lt _ _) Hh), (proj2 (Z.ltb_lt _ _) Hp). cbn [andb]. rewrite (strtol_number _ _ Hn). unfold port_buf_size in Hp. rewrite (number_text_short _ _ Hn) by lia.
    rewrite bool_decide_false by (intros ->; destruct Hn as (sp & sg & ds & E & _ & _ & _ & Hne & _); by apply eq_sym, app_nil in E as [_ [_ ->]%app_nil]).
    rewrite bool_decide_true by done. cbn [negb orb]. replace (port <? 0) with false by (symmetry; lia). replace (port >? UINT16_MAX) with false by (symmetry; lia). cbn [orb].
    rewrite Ea. cbn [mbind option_bind]. destruct name as [n|]; [destruct Hm as [Hm ->]; by rewrite (proj2 (Z.ltb_lt _ _) Hm)|by rewrite Hm].
Qed.

(** C39: the parser of socket addresses stays inside its buffers on every text, and returns an address
    exactly when the text is [host:port] or [[host]:port] with a host of at most 127 characters, a port number of
    at most 5 characters (white space and a sign included) from 0 to 65535, and a host the resolver finds for that
    family; the address has that port in network order, and the name of the host is returned if there
    is room for it. *)
Theorem addr_parse_correct rs s name nr :
  exists res, BAddr_Parse2 rs s name nr = Some res /\ forall a nm, res = Some (a, nm) <-> denotes rs s name nr a nm.
Proof. apply addr_parse_denotes. Qed.

(** ** Printing *)
Definition ip_text (a : BIPAddr) : list Z :=
  match a with IP_NONE => lit "(none)" | IP_V4 ip => dotted (host32 ip) | IP_V6 ip => join CH_COLON (map fmt_x (default [] (ipv6_words ip))) end.
Definition addr_text (a : BAddr) : list Z :=
  match a with
  | ADDR_NONE => lit "(none)"
  | ADDR_IPV4 ip port => ip_text (IP_V4 ip) ++ CH_COLON :: fmt_u (ntoh16 port)
  | ADDR_IPV6 ip port => ip_text (IP_V6 ip) ++ CH_COLON :: fmt_u (ntoh16 port)
  | ADDR_PACKET proto index _ ptype addr =>
      lit "proto=" ++ fmt_u proto ++ lit ",ifindex=" ++ fmt_d index ++ lit ",htype=eth,ptype=" ++ fmt_d ptype ++ lit ",addr=" ++ join CH_COLON (map fmt_02x (take 6 addr))
  end.

(** The values [BAddr_InitPacket] and the other initialisers make. *)
Definition ip_wf (a : BIPAddr) : Prop := match a with IP_NONE => True | IP_V4 ip => 0 <= ip < 2 ^ 32 | IP_V6 ip => bytes_ok ip /\ zlen ip = 16 end.
Definition addr_wf (a : BAddr) : Prop :=
  match a with
  | ADDR_PACKET proto index htype ptype addr => 0 <= proto < 2 ^ 16 /\ - 2 ^ 31 <= index < 2 ^ 31 /\ htype = 1 /\ 1 <= ptype <= 5 /\ bytes_ok addr /\ zlen addr = 8
  | _ => addr_ok a
  end.

Definition no_nul (t : list Z) : Prop := Forall (fun c => c <> 0) t.

Lemma base_digits_nonneg b fuel x : 0 < b -> 0 <= x -> Forall (fun d => 0 <= d) (base_digits fuel b x).
Proof.
  intros Hb. revert x. induction fuel as [|fuel IH]; intros x Hx; cbn [base_digits]; [constructor|]. case_if; [by constructor|].
  apply Forall_app. split; [apply IH, Z.div_pos; lia|]. constructor; [|constructor]. apply Z.mod_pos_bound. lia.
Qed.
Lemma print_base_no_nul b x : 0 < b -> 0 <= x -> no_nul (print_base b x).
Proof.
  intros Hb Hx. unfold print_base, no_nul. apply Forall_map. eapply list.Forall_impl; [by apply base_digits_nonneg|]. intros d Hd. unfold digit_char, CH_0. cbn beta in *. case_if; lia.
Qed.
Lemma no_nul_app t u : no_nul t -> no_nul u -> no_nul (t ++ u).
Proof. intros. by apply Forall_app. Qed.
Lemma no_nul_cons c t : c <> 0 -> no_nul t -> no_nul (c :: t).
Proof. by constructor. Qed.
Lemma no_nul_lit s : forallb (fun c => negb (c =? 0)) (lit s) = true -> no_nul (lit s).
Proof. unfold no_nul. rewrite forallb_forall, list.Forall_forall. intros H x Hx. apply list_elem_of_In, H in Hx. lia. Qed.
Lemma no_nul_join sep ts : sep <> 0 -> Forall no_nul ts -> no_nul (join sep ts).
Proof. intros Hs Hf. apply no_nul_clean, clean_join; [congruence|]. eapply list.Forall_impl; [exact Hf|]. intros t. apply no_nul_clean. Qed.
Lemma no_nul_fmt_d x : no_nul (fmt_d x).
Proof. unfold fmt_d. case_if; [apply no_nul_cons; [done|]|]; apply print_base_no_nul; lia. Qed.
Lemma no_nul_fmt_02x x : 0 <= x -> no_nul (fmt_02x x).
Proof. intros Hx. unfold fmt_02x. case_if; [apply no_nul_cons; [done|]|]; apply print_base_no_nul; lia. Qed.

Lemma ipv6_words_ok ip : bytes_ok ip -> zlen ip = 16 -> exists ws, ipv6_words ip = Some ws /\ length ws = 8%nat /\ Forall (fun w => 0 <= w < 65536) ws.
Proof.
  intros Hb Hl. unfold zlen in Hl. do 16 (destruct ip as [|? ip]; [cbn in Hl; lia|]). assert (ip = []) as -> by (destruct ip; [done|cbn in Hl; lia]).
  assert (forall a b r, is_byte a -> is_byte b -> exists w, badvpn_read_be16 (a :: b :: r) = Some w /\ 0 <= w < 65536) as Hw.
  { intros a b r Ha Hb'. change (badvpn_read_be16 (a :: b :: r)) with (badvpn_read_be16 [a; b]). assert (bytes_ok [a; b]) by (constructor; [done|constructor; [done|constructor]]). rewrite read_be16_val by done. eexists. split; [done|]. unfold is_byte in *. change (le_val (rev [a; b])) with (b + 256 * (a + 256 * 0)). lia. }
  repeat (apply list.Forall_cons in Hb as [? Hb]). unfold ipv6_words. cbn [drop mapM].
  repeat match goal with |- context [badvpn_read_be16 (?a :: ?b :: ?r)] => let w := fresh "w" in let E := fresh "E" in let R := fresh "R" in destruct (Hw a b r) as (w & E & R); [done|done|]; rewrite E; clear E; cbn [mbind option_bind] end.
  eexists. split; [done|]. split; [done|]. repeat (apply list.Forall_cons; split; [done|]). apply Forall_nil_2.
Qed.

Lemma zlen_ipv6_text ws : length ws = 8%nat -> Forall (fun w => 0 <= w < 65536) ws -> zlen (join CH_COLON (map fmt_x ws)) <= 39.
Proof.
  intros Hl Hf. eapply Z.le_trans; [apply (zlen_join _ _ 4)|unfold zlen; rewrite length_map, Hl; lia].
  - apply Forall_map. eapply list.Forall_impl; [exact Hf|]. intros w Hw. cbn beta. pose proof (print_base_len 16 w 3 ltac:(lia) ltac:(cbn in *; lia)). unfold zlen. lia.
  - by destruct ws.
Qed.

Lemma ip_text_ok a : ip_wf a -> no_nul (ip_text a) /\ zlen (ip_text a) < BIPADDR_MAX_PRINT_LEN.
Proof.
  destruct a as [|ip|ip]; cbn [ip_wf ip_text].
  - intros _. split; [by apply no_nul_lit|by vm_compute].
  - intros Hip. assert (bytes_ok (host32 ip)) as Hb by apply le_digits_bytes. pose proof (zlen_dotted (host32 ip) Hb ltac:(done)). split; [apply no_nul_clean, clean_dotted; done|unfold BIPADDR_MAX_PRINT_LEN; lia].
  - intros [Hb Hl]. destruct (ipv6_words_ok ip Hb Hl) as (ws & -> & Hw & Hf). cbn [default from_option id]. split; [|pose proof (zlen_ipv6_text ws Hw Hf); unfold BIPADDR_MAX_PRINT_LEN; lia].
    apply no_nul_join; [done|]. apply Forall_map. eapply list.Forall_impl; [exact Hf|]. intros w Hw'. apply print_base_no_nul; cbn in Hw'; lia.
Qed.

(** [sprintf] behind the text a buffer holds. *)
Lemma cstr_split mem t : cstr mem = Some t -> exists r, mem = t ++ 0 :: r /\ no_nul t.
Proof.
  revert t. induction mem as [|c mem IH]; intros t; [done|]. cbn [cstr]. destruct (Z.eqb_spec c 0) as [->|Hc]; [intros [= <-]; exists mem; split; [done|constructor]|].
  destruct (cstr mem) as [u|] eqn:E; [|done]. cbn. intros [= <-]. destruct (IH u eq_refl) as (r & -> & H). exists r. split; [done|]. by constructor.
Qed.
Lemma sprintf_append mem t u : cstr mem = Some t -> no_nul u -> zlen t + zlen u < zlen mem ->
  exists mem', sprintf mem (zlen t) u = Some (mem', zlen t + zlen u) /\ cstr mem' = Some (t ++ u) /\ zlen mem' = zlen mem.
Proof.
  intros (r & -> & Ht)%cstr_split Hu Hl. unfold sprintf. pose proof (zlen_nonneg t). pose proof (zlen_nonneg u). bool_true. eexists. split; [done|]. split.
  - unfold splice. assert (Z.to_nat (zlen t) = length t) as -> by (unfold zlen; lia). rewrite take_app_length, <- (app_assoc u). cbn [app]. rewrite (app_assoc t u). apply cstr_app. by apply Forall_app.
  - apply zlen_splice; [lia|]. rewrite zlen_app. change (zlen [0]) with 1. lia.
Qed.

Lemma ip_print_ok a out : ip_wf a -> BIPADDR_MAX_PRINT_LEN <= zlen out ->
  exists out', BIPAddr_Print a out = Some out' /\ cstr out' = Some (ip_text a) /\ zlen out' = zlen out.
Proof.
  intros Ha Ho. destruct (ip_text_ok a Ha) as [Hn Hl]. destruct (sprintf_start out (ip_text a)) as (mem & E & Ec & El); [lia|done|]. exists mem. split; [|done].
  destruct a as [|ip|ip]; cbn [BIPAddr_Print ip_text] in *; [by rewrite E..|]. destruct Ha as [Hb Hz]. destruct (ipv6_words_ok ip Hb Hz) as (ws & Ew & _). rewrite Ew in *. cbn [default from_option id mbind option_bind] in *. by rewrite E.
Qed.

Lemma port_text_ok port : 0 <= port < 2 ^ 16 ->
  0 <= ntoh16 port <= UINT16_MAX /\ no_nul (fmt_u (ntoh16 port)) /\ 1 <= zlen (fmt_u (ntoh16 port)) <= 5 /\ hton16 (ntoh16 port) = port.
Proof.
  intros Hp. pose proof (hton16_range port) as Hr. unfold ntoh16, UINT16_MAX. split; [lia|]. split; [apply print_base_no_nul; lia|].
  destruct (fmt_u_ok (hton16 port)) as (_ & _ & Hl); [lia|]. pose proof (print_base_len 10 (hton16 port) 4 ltac:(lia) ltac:(change (10 ^ Z.of_nat 5) with 100000; lia)). split; [unfold zlen; lia|].
  rewrite hton16_invol. by apply uwrap_small.
Qed.

Lemma print_with_port_ok a port out : ip_wf a -> 0 <= port < 2 ^ 16 -> BADDR_MAX_PRINT_LEN <= zlen out ->
  exists out', print_with_port a port out = Some out' /\ cstr out' = Some (ip_text a ++ CH_COLON :: fmt_u (ntoh16 port)) /\ zlen out' = zlen out.
Proof.
  intros Ha Hp Ho. unfold BADDR_MAX_PRINT_LEN in Ho. destruct (ip_print_ok a out Ha) as (o1 & E1 & C1 & L1); [unfold BIPADDR_MAX_PRINT_LEN; lia|]. destruct (port_text_ok port Hp) as (_ & Hn & Hl & _).
  destruct (ip_text_ok a Ha) as [_ Ht]. unfold BIPADDR_MAX_PRINT_LEN in Ht. unfold print_with_port. rewrite E1. cbn [mbind option_bind]. rewrite C1. cbn [mbind option_bind].
  destruct (sprintf_append o1 (ip_text a) (CH_COLON :: fmt_u (ntoh16 port)) C1) as (o2 & -> & C2 & L2); [by apply no_nul_cons|rewrite zlen_cons; lia|].
  exists o2. split; [done|]. split; [done|lia].
Qed.

Lemma zlen_fmt_d x : - 2 ^ 31 <= x < 2 ^ 31 -> zlen (fmt_d x) <= 11.
Proof.
  intros Hx. unfold fmt_d, zlen. case_if; cbn [length]; [pose proof (print_base_len 10 (- x) 9 ltac:(lia) ltac:(cbn in *; lia)); lia|].
  pose proof (print_base_len 10 x 9 ltac:(lia) ltac:(cbn in *; lia)). lia.
Qed.
Lemma zlen_fmt_02x x : is_byte x -> zlen (fmt_02x x) <= 2.
Proof.
  unfold is_byte. intros Hx. unfold fmt_02x, zlen. case_if; cbn [length]; [pose proof (print_base_len 16 x 0 ltac:(lia) ltac:(cbn in *; lia)); lia|].
  pose proof (print_base_len 16 x 1 ltac:(lia) ltac:(cbn in *; lia)). lia.
Qed.

Lemma packet_text_ok proto index ptype addr : 0 <= proto < 2 ^ 16 -> - 2 ^ 31 <= index < 2 ^ 31 -> 1 <= ptype <= 5 -> bytes_ok addr -> zlen addr = 8 ->
  no_nul (addr_text (ADDR_PACKET proto index 1 ptype addr)) /\ zlen (addr_text (ADDR_PACKET proto index 1 ptype addr)) < BADDR_MAX_PRINT_LEN.
Proof.
  intros Hp Hi Ht Ha Hl. assert (Forall is_byte (take 6 addr)) as Hf by (by apply Forall_take). cbn [addr_text]. split.
  - repeat first [apply no_nul_app | by apply no_nul_lit | apply no_nul_fmt_d | apply print_base_no_nul; lia]. apply no_nul_join; [done|]. apply Forall_map.
    eapply list.Forall_impl; [exact Hf|]. intros x Hx. apply no_nul_fmt_02x. unfold is_byte in Hx. lia.
  - rewrite !zlen_app. pose proof (print_base_len 10 proto 4 ltac:(lia) ltac:(cbn in *; lia)). pose proof (zlen_fmt_d index Hi). pose proof (zlen_fmt_d ptype ltac:(lia)).
    assert (zlen (join CH_COLON (map fmt_02x (take 6 addr))) <= 17).
    { unfold zlen in Hl. eapply Z.le_trans; [apply (zlen_join _ _ 2)|unfold zlen; rewrite length_map, length_take; lia].
      - apply Forall_map. eapply list.Forall_impl; [exact Hf|]. apply zlen_fmt_02x.
      - destruct addr; [cbn in Hl; lia|done]. }
    change (zlen (lit "proto=")) with 6. change (zlen (lit ",ifindex=")) with 9. change (zlen (lit ",htype=eth,ptype=")) with 17. change (zlen (lit ",addr=")) with 6.
    unfold BADDR_MAX_PRINT_LEN, zlen in *. lia.
Qed.

Lemma print_ok a out : addr_wf a -> BADDR_MAX_PRINT_LEN <= zlen out ->
  exists out', BAddr_Print a out = Some out' /\ cstr out' = Some (addr_text a) /\ zlen out' = zlen out.
Proof.
  intros Ha Ho. destruct a as [|ip port|ip port|proto index htype ptype addr]; cbn [addr_wf addr_ok addr_text BAddr_Print] in *.
  - destruct (sprintf_start out (lit "(none)")) as (mem & -> & Ec & El); [unfold BADDR_MAX_PRINT_LEN in Ho; change (zlen (lit "(none)")) with 6; lia|by apply no_nul_lit|]. by exists mem.
  - destruct Ha as [Hip Hp]. by apply print_with_port_ok.
  - destruct Ha as (Hb & Hl & Hp). by apply print_with_port_ok.
  - destruct Ha as (Hp & Hi & -> & Ht & Hb & Hl). cbn [Z.eqb Pos.eqb]. bool_true. destruct (packet_text_ok proto index ptype addr Hp Hi Ht Hb Hl) as [Hn Hz].
    destruct (sprintf_start out _ ltac:(eapply Z.lt_le_trans; [exact Hz|exact Ho]) Hn) as (mem & E & Ec & El). cbn [addr_text] in E. rewrite E. by exists mem.
Qed.

Lemma clean_head c t : clean c t -> head t <> Some c.
Proof. intros H E. apply H. destruct t as [|x t]; [done|]. injection E as ->. apply elem_of_cons. by left. Qed.

(** The part behind the first colon is too long for a port. *)
Lemma printed_ipv6_rejected rs ip port nr : bytes_ok ip -> zlen ip = 16 -> BAddr_Parse2 rs (addr_text (ADDR_IPV6 ip port)) None nr = Some None.
Proof.
  intros Hb Hl. cbn [addr_text ip_text]. destruct (ipv6_words_ok ip Hb Hl) as (ws & -> & Hw & Hf). cbn [default from_option id].
  do 8 (destruct ws as [|? ws]; [done|]). destruct ws; [|done]. apply list.Forall_cons in Hf as [Hz Hf].
  destruct (fmt_x_ok z) as (Hd & _); [cbn beta in Hz; lia|]. cbn [map join concat]. rewrite <- app_assoc. cbn [app].
  match goal with |- BAddr_Parse2 _ (_ ++ CH_COLON :: ?p) _ _ = _ => rewrite (parse_of_text rs _ None nr false (fmt_x z) p) end.
  - match goal with |- context [zlen ?p <? port_buf_size] => assert (port_buf_size <= zlen p) as Hp end.
    { unfold port_buf_size. repeat (rewrite zlen_app || rewrite zlen_cons). repeat match goal with |- context [zlen ?t] => lazymatch goal with _ : 0 <= zlen t |- _ => fail | _ => pose proof (zlen_nonneg t) end end. lia. }
    rewrite (proj2 (Z.ltb_ge _ _) Hp). by rewrite andb_false_r.
  - split; [done|]. split; [by apply hex_digits_clean_of|]. apply clean_head. by apply hex_digits_clean_of.
Qed.

Lemma printed_ipv4_parsed rs ip port nr : resolver_ok rs -> 0 <= ip < 2 ^ 32 -> 0 <= port < 2 ^ 16 ->
  BAddr_Parse2 rs (addr_text (ADDR_IPV4 ip port)) None nr = Some (Some (ADDR_IPV4 ip port, None)).
Proof.
  intros Hrs Hip Hp. destruct (port_text_ok port Hp) as (Hr & _ & Hl & Hi). assert (bytes_ok (host32 ip)) as Hb by apply le_digits_bytes.
  pose proof (zlen_dotted (host32 ip) Hb ltac:(done)) as Hd. pose proof (fmt_u_number (ntoh16 port) ltac:(lia)) as Hn. cbn [addr_text ip_text].
  rewrite (parse_of_text rs _ None nr false (dotted (host32 ip)) (fmt_u (ntoh16 port))).
  - unfold addr_buf_size, port_buf_size. rewrite !(proj2 (Z.ltb_lt _ _)) by lia. cbn [andb]. rewrite (strtol_number _ _ Hn), (number_text_short _ _ Hn) by lia.
    rewrite bool_decide_false by (intros E; rewrite E, zlen_nil in Hl; lia). rewrite bool_decide_true by done. cbn [negb orb].
    replace (ntoh16 port <? 0) with false by (symmetry; lia). replace (ntoh16 port >? UINT16_MAX) with false by (symmetry; lia). cbn [orb].
    unfold resolved. rewrite (gai4_numeric _ Hrs) by done. cbn [mbind option_bind]. by rewrite Hi.
  - split; [done|]. split; [by apply clean_dotted|]. by apply clean_head, clean_dotted.
Qed.

(** every address is printed within the documented buffer size, as its text; a printed IPv4
    address is parsed back to the same address, whatever the resolver does besides recognising dotted
    addresses, while the text of an IPv6 address, which is printed without brackets, is never taken for
    an address. *)
Theorem addr_print_roundtrip rs a out nr : resolver_ok rs -> addr_wf a -> BADDR_MAX_PRINT_LEN <= zlen out ->
  exists out', BAddr_Print a out = Some out' /\ cstr out' = Some (addr_text a) /\ zlen out' = zlen out /\
  match a with
  | ADDR_IPV4 _ _ => BAddr_Parse2 rs (addr_text a) None nr = Some (Some (a, None))
  | ADDR_IPV6 _ _ | ADDR_NONE => BAddr_Parse2 rs (addr_text a) None nr = Some None
  | ADDR_PACKET _ _ _ _ _ => True
  end.
Proof.
  intros Hrs Ha Ho. destruct (print_ok a out Ha Ho) as (out' & E & Ec & El). exists out'. split; [done|]. split; [done|]. split; [done|].
  destruct a as [|ip port|ip port|]; cbn [addr_wf addr_ok] in Ha; [done|destruct Ha; by apply printed_ipv4_parsed|destruct Ha as (? & ? & _); by apply printed_ipv6_rejected|done].
Qed.

(** ** Instances *)

(** A resolver that knows dotted addresses only. *)
Definition numeric_resolver : resolver :=
  mk_resolver (fun _ t => match ipaddr_parse_ipv4_addr t [0; 0; 0; 0] with Some (true, b) => Some (le_val b) | _ => None end) (fun _ _ => None).

Lemma numeric_resolver_ok : resolver_ok numeric_resolver.
Proof.
  split; cbn [gai4 gai6 numeric_resolver]; [|done|].
  - intros _ t ip. destruct (ipv4_parse_exact t [0; 0; 0; 0] eq_refl) as (r & out & -> & Hl & Hiff). destruct r; [|done]. intros [= <-].
    destruct (proj1 (Hiff out) ltac:(done)) as (ts & _ & Hf & _). assert (bytes_ok out) as Hb.
    { apply list.Forall_forall. intros v [i Hi]%list_elem_of_lookup. destruct (Forall2_lookup_r _ _ _ _ _ Hf Hi) as (t' & _ & Ho). apply octet_byte in Ho. unfold is_byte. lia. }
    pose proof (le_val_range out Hb) as Hr. unfold zlen in Hr. rewrite Hl in Hr. exact Hr.
  - intros _ ip Hip. assert (bytes_ok (host32 ip)) as Hb by apply le_digits_bytes. rewrite (ipv4_parse_complete _ _ (host32 ip)); [|done|by apply ipv4_text_print]. by rewrite host32_val.
Qed.

Lemma addr_print_roundtrip_witness : exists out, BAddr_Print (ADDR_IPV4 16777343 14356) (replicate 120 7) = Some out /\ cstr out = Some (lit "127.0.0.1:5176") /\
  BAddr_Parse2 numeric_resolver (lit "127.0.0.1:5176") None false = Some (Some (ADDR_IPV4 16777343 14356, None)).
Proof.
  destruct (addr_print_roundtrip numeric_resolver (ADDR_IPV4 16777343 14356) (replicate 120 7) false) as (out & E & Ec & _ & Ep); [apply numeric_resolver_ok|by vm_compute|by vm_compute|].
  exists out. split; [done|]. split; [exact Ec|exact Ep].
Defined.

(** A blank and a sign in front of a port are accepted. *)
Example port_with_blank : BAddr_Parse2 numeric_resolver (lit "10.0.0.1: +80") None false = Some (Some (ADDR_IPV4 16777226 20480, None)).
Proof. by vm_compute. Qed.
