(* ===== verification/DeviceUdp.v ===== *)
(** * UDP between the TUN device and the UDP relay (tun2socks/tun2socks.c)

    [process_device_udp_packet] takes a UDP datagram out of an IP packet read from the device
    and submits it to the relay client; [udpgw_client_handler_received] wraps a datagram from
    the relay into an IP packet for the device. *)

From S2P Require Import Prelude ByteOrder IpUdp BAddr.

(** The options and globals the two functions read. *)
Record config := {
  udpgw_remote_server_addr : bool;
  netif_ip6addr : bool;
  dnsgw : bool;
  udp_mtu : Z;
  BTap_GetMTU : Z;
}.

(** The call [SocksUdpGwClient_SubmitPacket(&udpgw_client, local_addr, remote_addr, is_dns, data,
    data_len)]. *)
Record submission := submit {
  sub_local : BAddr;
  sub_remote : BAddr;
  sub_is_dns : bool;
  sub_data : list Z;
}.

(** The fields of the DNS header the code reads; [qr] is the top bit of the third byte and
    [rcode] the low nibble of the fourth. *)
Definition sizeof_DnsHeader : Z := 12.
Definition dns_query (data : list Z) : bool :=
  (Z.shiftr (field data 2 1) 7 =? 0) && (Z.land (field data 3 1) 15 =? 0) &&
  (field data 6 2 =? 0) && (field data 8 2 =? 0).

(** What a case of the switch on the IP version leaves: the addresses, [is_dns], the payload
    pointer (the memory from it on) and length; [None] is [goto fail]. *)
Abbreviation parsed := (BAddr * BAddr * bool * list Z * Z)%type.

Definition case_ipv4 (cfg : config) (data : list Z) (data_len : Z) : option (option parsed) :=
  if data_len <? sizeof_ipv4_header then Some None else
  p ← data !! 9%nat;
  if negb (p =? IPV4_PROTOCOL_UDP) then Some None else
  r ← ipv4_check data data_len;
  match r with
  | None => Some None
  | Some (ipv4_header, off, data_len) =>
      let data := drop (Z.to_nat off) data in
      r ← udp_check data data_len;
      match r with
      | None => Some None
      | Some (udp_header, off, data_len) =>
          let data := drop (Z.to_nat off) data in
          let checksum_in_packet := udp_checksum_ udp_header in
          let udp_header := with_udp_checksum udp_header 0 in
          checksum_computed ← udp_checksum udp_header data (u16 data_len)
            (source_address ipv4_header) (destination_address ipv4_header);
          if negb (checksum_in_packet =? checksum_computed) then Some None else
          let local_addr := BAddr_MakeIPv4 (source_address ipv4_header) (source_port udp_header) in
          let remote_addr := BAddr_MakeIPv4 (destination_address ipv4_header) (dest_port udp_header) in
          let is_dns := dnsgw cfg && (dest_port udp_header =? hton16 53) in
          let is_dns :=
            if is_dns then (if data_len <? sizeof_DnsHeader then false else dns_query data)
            else is_dns in
          Some (Some (local_addr, remote_addr, is_dns, data, data_len))
      end
  end.

Definition case_ipv6 (cfg : config) (data : list Z) (data_len : Z) : option (option parsed) :=
  if negb (netif_ip6addr cfg) then Some None else
  if data_len <? sizeof_ipv6_header then Some None else
  p ← data !! 6%nat;
  if negb (p =? IPV6_NEXT_UDP) then Some None else
  r ← ipv6_check data data_len;
  match r with
  | None => Some None
  | Some (ipv6_header, off, data_len) =>
      let data := drop (Z.to_nat off) data in
      r ← udp_check data data_len;
      match r with
      | None => Some None
      | Some (udp_header, off, data_len) =>
          let data := drop (Z.to_nat off) data in
          let checksum_in_packet := udp_checksum_ udp_header in
          let udp_header := with_udp_checksum udp_header 0 in
          checksum_computed ← udp_ip6_checksum udp_header data (u16 data_len)
            (source_address6 ipv6_header) (destination_address6 ipv6_header);
          if negb (checksum_in_packet =? checksum_computed) then Some None else
          let local_addr := BAddr_MakeIPv6 (source_address6 ipv6_header) (source_port udp_header) in
          let remote_addr := BAddr_MakeIPv6 (destination_address6 ipv6_header) (dest_port udp_header) in
          Some (Some (local_addr, remote_addr, false, data, data_len))
      end
  end.

(** [Some None] is the result 0 (not handled), [Some (Some s)] the submission [s] and the
    result 1; [None] is a violated assertion or a read outside the packet. *)
Definition process_device_udp_packet (cfg : config) (data : list Z) (data_len : Z) :
    option (option submission) :=
  ASSERT data_len >=? 0;
  if negb (udpgw_remote_server_addr cfg) then Some None else
  ip_version ← (if data_len >? 0 then b ← data !! 0%nat; Some (Z.shiftr b 4) else Some 0);
  r ← (if ip_version =? 4 then case_ipv4 cfg data data_len
       else if ip_version =? 6 then case_ipv6 cfg data data_len
       else Some None);
  match r with
  | None => Some None
  | Some (local_addr, remote_addr, is_dns, data, data_len) =>
      if data_len >? udp_mtu cfg then Some None else
      ASSERT data_len <=? zlen data;
      Some (Some (submit local_addr remote_addr is_dns (sub data 0 data_len)))
  end.

(** [Some None]: the datagram is dropped; [Some (Some p)]: the packet [p] is given to [BTap_Send]. *)
Definition udpgw_client_handler_received (cfg : config) (local_addr remote_addr : BAddr)
    (data : list Z) (data_len : Z) : option (option (list Z)) :=
  ASSERT udpgw_remote_server_addr cfg;
  ASSERT data_len >=? 0;
  match local_addr, remote_addr with
  | ADDR_IPV4 local_ip local_port, ADDR_IPV4 remote_ip remote_port =>
      if (data_len >? UINT16_MAX - (sizeof_ipv4_header + sizeof_udp_header)) ||
         (data_len >? BTap_GetMTU cfg - (sizeof_ipv4_header + sizeof_udp_header)) then Some None else
      let iph := mk_ipv4 (IPV4_MAKE_VERSION_IHL sizeof_ipv4_header) (hton8 0)
        (hton16 (sizeof_ipv4_header + sizeof_udp_header + data_len)) (hton16 0) (hton16 0)
        (hton8 64) (hton8 IPV4_PROTOCOL_UDP) (hton16 0) remote_ip local_ip in
      c ← ipv4_checksum iph [] 0;
      let iph := with_ipv4_checksum iph c in
      let udph := mk_udp remote_port local_port (hton16 (sizeof_udp_header + data_len)) (hton16 0) in
      c ← udp_checksum udph data (u16 data_len) (source_address iph) (destination_address iph);
      let udph := with_udp_checksum udph c in
      ASSERT data_len <=? zlen data;
      Some (Some (ipv4_bytes iph ++ udp_bytes udph ++ sub data 0 data_len))
  | ADDR_IPV6 local_ip local_port, ADDR_IPV6 remote_ip remote_port =>
      if negb (netif_ip6addr cfg) then Some None else
      if (data_len >? UINT16_MAX - sizeof_udp_header) ||
         (data_len >? BTap_GetMTU cfg - (sizeof_ipv6_header + sizeof_udp_header)) then Some None else
      let iph := mk_ipv6 (hton8 (Z.shiftl 6 4)) (hton8 0) (hton16 0) (hton16 (sizeof_udp_header + data_len))
        (hton8 IPV6_NEXT_UDP) (hton8 64) (take 16 remote_ip) (take 16 local_ip) in
      let udph := mk_udp remote_port local_port (hton16 (sizeof_udp_header + data_len)) (hton16 0) in
      c ← udp_ip6_checksum udph data (u16 data_len) (source_address6 iph) (destination_address6 iph);
      let udph := with_udp_checksum udph c in
      ASSERT data_len <=? zlen data;
      Some (Some (ipv6_bytes iph ++ udp_bytes udph ++ sub data 0 data_len))
  | _, _ => None
  end.

(** ** What is submitted *)

Lemma zlen_drop {A} (l : list A) n : 0 <= n <= zlen l -> zlen (drop (Z.to_nat n) l) = zlen l - n.
Proof. unfold zlen. intros. rewrite length_drop. lia. Qed.

Lemma udp_header_ports data : bytes_ok data -> 8 <= zlen data ->
  0 <= source_port (udp_of_bytes data) < 2 ^ 16 /\ 0 <= dest_port (udp_of_bytes data) < 2 ^ 16.
Proof.
  intros Hb Hl. pose proof (field_range data 0 2 Hb ltac:(lia) ltac:(lia) ltac:(lia)).
  pose proof (field_range data 2 2 Hb ltac:(lia) ltac:(lia) ltac:(lia)). simpl. lia.
Qed.

(** A parsed datagram lies inside the packet [data], behind the headers. *)
Definition inside (cfg : config) (data : list Z) (p : parsed) : Prop :=
  let '(l, r, d, m, len) := p in
  exists o, 28 <= o /\ 0 <= len /\ o + len <= zlen data /\ m = drop (Z.to_nat o) data /\
    addr_ok l /\ addr_ok r /\ addr_type l = addr_type r /\
    (d = true -> dnsgw cfg = true /\ BAddr_GetPort r = Some (hton16 53) /\ 12 <= len /\ dns_query m = true).

Lemma case_ipv4_ok cfg data : bytes_ok data -> exists r, case_ipv4 cfg data (zlen data) = Some r /\
  match r with Some p => inside cfg data p | None => True end.
Proof.
  intros Hb. unfold case_ipv4, sizeof_ipv4_header. pose proof (zlen_nonneg data).
  case_if; [by exists None|].
  destruct (data !! 9%nat) as [p|] eqn:Ep; [|apply lookup_ge_None in Ep; unfold zlen in *; lia].
  cbn [mbind option_bind]. case_if; [by exists None|].
  destruct (ipv4_check_cases data (zlen data) Hb) as ([[[h o] len]|] & -> & H1); [lia| |by exists None].
  destruct H1 as (_ & -> & _ & _ & Ho & Hlen & Hin). cbn [mbind option_bind].
  assert (bytes_ok (drop (Z.to_nat o) data)) as Hb1 by by apply Forall_drop.
  pose proof (zlen_drop data o) as Hz.
  destruct (udp_check_cases (drop (Z.to_nat o) data) len Hb1) as ([[[h2 o2] len2]|] & -> & H2); [lia| |by exists None].
  destruct H2 as (-> & -> & _ & Hl2 & Hin2). cbn [mbind option_bind].
  assert (bytes_ok (drop (Z.to_nat 8) (drop (Z.to_nat o) data))) as Hb2 by by apply Forall_drop.
  pose proof (zlen_drop (drop (Z.to_nat o) data) 8) as Hz2. rewrite uwrap_small by lia.
  destruct (udp_checksum_ok (with_udp_checksum (udp_of_bytes (drop (Z.to_nat o) data)) 0)
    (drop (Z.to_nat 8) (drop (Z.to_nat o) data)) len2 (source_address (ipv4_of_bytes data))
    (destination_address (ipv4_of_bytes data)) Hb2) as [-> _]; [lia..|]. cbn [mbind option_bind].
  case_if; [by exists None|]. eexists. split; [done|].
  pose proof (field_range data 12 4 Hb ltac:(lia) ltac:(lia) ltac:(lia)).
  pose proof (field_range data 16 4 Hb ltac:(lia) ltac:(lia) ltac:(lia)).
  destruct (udp_header_ports (drop (Z.to_nat o) data) Hb1) as [P1 P2]; [lia|].
  exists (o + 8). split_and!; try lia; try done.
  - rewrite drop_drop. f_equal. lia.
  - intros D. destruct (dnsgw cfg && _) eqn:Ed; [|done]. reflect_bool.
    unfold sizeof_DnsHeader in D. destruct (Z.ltb_spec len2 12); [done|].
    split_and!; try done. cbn [BAddr_GetPort BAddr_MakeIPv4]. congruence.
Qed.

Lemma case_ipv6_ok cfg data : bytes_ok data -> exists r, case_ipv6 cfg data (zlen data) = Some r /\
  match r with Some p => inside cfg data p | None => True end.
Proof.
  intros Hb. unfold case_ipv6, sizeof_ipv6_header. pose proof (zlen_nonneg data).
  case_if; [by exists None|]. case_if; [by exists None|].
  destruct (data !! 6%nat) as [p|] eqn:Ep; [|apply lookup_ge_None in Ep; unfold zlen in *; lia].
  cbn [mbind option_bind]. case_if; [by exists None|].
  destruct (ipv6_check_cases data (zlen data) Hb) as ([[[h o] len]|] & -> & H1); [lia| |by exists None].
  destruct H1 as (-> & -> & _ & Hlen & Hin). cbn [mbind option_bind].
  assert (bytes_ok (drop (Z.to_nat 40) data)) as Hb1 by by apply Forall_drop.
  pose proof (zlen_drop data 40) as Hz.
  destruct (udp_check_cases (drop (Z.to_nat 40) data) len Hb1) as ([[[h2 o2] len2]|] & -> & H2); [lia| |by exists None].
  destruct H2 as (-> & -> & _ & Hl2 & Hin2). cbn [mbind option_bind].
  assert (bytes_ok (drop (Z.to_nat 8) (drop (Z.to_nat 40) data))) as Hb2 by by apply Forall_drop.
  pose proof (zlen_drop (drop (Z.to_nat 40) data) 8) as Hz2. rewrite uwrap_small by lia.
  assert (bytes_ok (sub data 0 40) /\ zlen (sub data 0 40) = 40) as [Hb40 Hz40].
  { split; [by apply bytes_ok_sub|rewrite zlen_sub; lia]. }
  cbn [ipv6_of_bytes source_address6 destination_address6].
  destruct (udp_ip6_checksum_ok (with_udp_checksum (udp_of_bytes (drop (Z.to_nat 40) data)) 0)
    (drop (Z.to_nat 8) (drop (Z.to_nat 40) data)) len2 (sub (sub data 0 40) 8 16)
    (sub (sub data 0 40) 24 16) Hb2) as [-> _];
    try (by apply bytes_ok_sub); try (rewrite zlen_sub; lia); [lia..|]. cbn [mbind option_bind].
  case_if; [by exists None|]. eexists. split; [done|].
  destruct (udp_header_ports (drop (Z.to_nat 40) data) Hb1) as [P1 P2]; [lia|].
  assert (forall o, 0 <= o -> o + 16 <= 40 -> take 16 (sub (sub data 0 40) o 16) = sub (sub data 0 40) o 16) as Ht.
  { intros o2 Ho1 Ho2. apply take_ge. pose proof (zlen_sub (sub data 0 40) o2 16). unfold zlen in *. lia. }
  exists 48. unfold BAddr_MakeIPv6. rewrite !Ht by lia.
  cbn [addr_ok with_udp_checksum source_port dest_port].
  split_and!; try lia; try done; try (by apply bytes_ok_sub); try (rewrite zlen_sub; lia).
  by rewrite drop_drop.
Qed.

Lemma process_udp_inside cfg data : bytes_ok data ->
  exists r, process_device_udp_packet cfg data (zlen data) = Some r /\
  match r with
  | None => True
  | Some s => exists o len, 28 <= o /\ 0 <= len <= udp_mtu cfg /\ o + len <= zlen data /\
      sub_data s = sub data o len /\ addr_ok (sub_local s) /\ addr_ok (sub_remote s) /\
      addr_type (sub_local s) = addr_type (sub_remote s) /\
      (sub_is_dns s = true -> dnsgw cfg = true /\ BAddr_GetPort (sub_remote s) = Some (hton16 53) /\ 12 <= len)
  end.
Proof.
  intros Hb. unfold process_device_udp_packet. pose proof (zlen_nonneg data). bool_true.
  case_if; [by exists None|].
  assert (exists v, (if zlen data >? 0 then b ← data !! 0%nat; Some (Z.shiftr b 4) else Some 0) = Some v) as [v ->].
  { case_if; [|by eexists]. destruct (data !! 0%nat) eqn:E9; [by eexists|].
    apply lookup_ge_None in E9. unfold zlen in *. lia. }
  cbn [mbind option_bind].
  assert (exists r, (if v =? 4 then case_ipv4 cfg data (zlen data)
    else if v =? 6 then case_ipv6 cfg data (zlen data) else Some None) = Some r /\
    match r with Some p => inside cfg data p | None => True end) as (r & -> & Hr).
  { destruct (v =? 4); [by apply case_ipv4_ok|]. destruct (v =? 6); [by apply case_ipv6_ok|by exists None]. }
  cbn [mbind option_bind]. destruct r as [[[[[l rm] d] m] len]|]; [|by exists None].
  destruct Hr as (o & Ho & Hl & Hin & -> & Hal & Har & Ht & Hd). case_if; [by exists None|].
  rewrite zlen_drop by lia. bool_true. eexists. split; [done|]. exists o, len. cbn [sub_data sub_local sub_remote sub_is_dns].
  rewrite sub_drop by lia. rewrite Z.add_0_r. split_and!; try done; try lia. intros D. by destruct (Hd D) as (? & ? & ? & _).
Qed.

(** C13: on every packet the device can deliver, [process_device_udp_packet] runs without a
    violated assertion or a read outside the packet.  What it submits to the relay is a
    contiguous part of the packet behind the headers, of at most [udp_mtu] bytes, with two
    well-formed addresses of the same family; it is marked as DNS only for a query to port 53
    when a DNS gateway is configured. *)
Theorem process_device_udp_packet_safe cfg data : bytes_ok data ->
  exists r, process_device_udp_packet cfg data (zlen data) = Some r /\
  match r with
  | None => True
  | Some s => exists o len, 28 <= o /\ 0 <= len <= udp_mtu cfg /\ o + len <= zlen data /\
      sub_data s = sub data o len /\ addr_ok (sub_local s) /\ addr_ok (sub_remote s) /\
      addr_type (sub_local s) = addr_type (sub_remote s) /\
      (sub_is_dns s = true -> dnsgw cfg = true /\ BAddr_GetPort (sub_remote s) = Some (hton16 53) /\ 12 <= len)
  end.
Proof. apply process_udp_inside. Qed.

(** ** Round trip through the wire format *)

Definition ipv4_ok (h : ipv4_header) : Prop :=
  0 <= version4_ihl4 h < 2 ^ 8 /\ 0 <= ds h < 2 ^ 8 /\ 0 <= total_length h < 2 ^ 16 /\
  0 <= identification h < 2 ^ 16 /\ 0 <= flags3_fragmentoffset13 h < 2 ^ 16 /\ 0 <= ttl h < 2 ^ 8 /\
  0 <= protocol h < 2 ^ 8 /\ 0 <= ipv4_checksum_ h < 2 ^ 16 /\ 0 <= source_address h < 2 ^ 32 /\
  0 <= destination_address h < 2 ^ 32.
Definition udp_ok (h : udp_header) : Prop :=
  0 <= source_port h < 2 ^ 16 /\ 0 <= dest_port h < 2 ^ 16 /\ 0 <= udp_length h < 2 ^ 16 /\
  0 <= udp_checksum_ h < 2 ^ 16.

Lemma digits_small n x : 0 <= x < 256 ^ Z.of_nat n -> le_val (le_digits n x) = x.
Proof. intros. rewrite le_val_digits. by apply Z.mod_small. Qed.

Lemma ipv4_of_bytes_bytes h rest : ipv4_ok h -> ipv4_of_bytes (ipv4_bytes h ++ rest) = h.
Proof.
  destruct h. unfold ipv4_ok. simpl. intros (?&?&?&?&?&?&?&?&?&?). unfold ipv4_of_bytes.
  f_equal; first [by apply (digits_small 1) | by apply (digits_small 2) | by apply (digits_small 4)].
Qed.
Lemma udp_of_bytes_bytes h rest : udp_ok h -> udp_of_bytes (udp_bytes h ++ rest) = h.
Proof.
  destruct h. unfold udp_ok. simpl. intros (?&?&?&?). unfold udp_of_bytes.
  f_equal; by apply (digits_small 2).
Qed.

Lemma zlen_ipv4_bytes h : zlen (ipv4_bytes h) = 20.
Proof. done. Qed.
Lemma zlen_udp_bytes h : zlen (udp_bytes h) = 8.
Proof. done. Qed.

Lemma ipv4_checksum_no_extra h extra : ipv4_checksum h extra 0 = ipv4_checksum h [] 0.
Proof. unfold ipv4_checksum. change (Z.to_nat (0 / 2)) with 0%nat. cbn [sum_be16]. reflexivity. Qed.

(** A header with the computed checksum in place passes the check. *)
Lemma ipv4_check_built h rest n : ipv4_ok h -> version4_ihl4 h = 69 ->
  ipv4_checksum (with_ipv4_checksum h 0) [] 0 = Some (ipv4_checksum_ h) ->
  20 <= ntoh16 (total_length h) <= n -> n <= 20 + zlen rest ->
  ipv4_check (ipv4_bytes h ++ rest) n = Some (Some (h, 20, ntoh16 (total_length h) - 20)).
Proof.
  intros Hok Hv Hc Ht Hn. unfold ipv4_check, sizeof_ipv4_header. bool_true. bool_false.
  rewrite zlen_app, zlen_ipv4_bytes. pose proof (zlen_nonneg rest). bool_true.
  rewrite ipv4_of_bytes_sub, ipv4_of_bytes_bytes by done. cbv zeta. unfold IPV4_GET_VERSION, IPV4_GET_IHL.
  rewrite Hv. change (u16 (Z.shiftr (Z.land 69 15) 0 * 4)) with 20. change (Z.shiftr (Z.land 69 240) 4 =? 4) with true.
  cbn [negb Z.ltb]. do 4 bool_false. change (u16 (20 - 20)) with 0. change (hton16 0) with 0.
  rewrite ipv4_checksum_no_extra, Hc. cbn [mbind option_bind]. by rewrite Z.eqb_refl.
Qed.

Lemma udp_check_built h rest n : udp_ok h -> 8 <= ntoh16 (udp_length h) <= n -> n <= 8 + zlen rest ->
  udp_check (udp_bytes h ++ rest) n = Some (Some (h, 8, ntoh16 (udp_length h) - 8)).
Proof.
  intros Hok Ht Hn. unfold udp_check, sizeof_udp_header. bool_true. bool_false.
  rewrite zlen_app, zlen_udp_bytes. pose proof (zlen_nonneg rest). bool_true.
  change (sub (udp_bytes h ++ rest) 0 8) with (udp_bytes h). rewrite <- (app_nil_r (udp_bytes h)).
  rewrite udp_of_bytes_bytes by done. cbv zeta. by do 2 bool_false.
Qed.

Lemma udp_checksum_prefix h data n src dst : bytes_ok data -> 0 <= n <= zlen data -> n <= 65527 ->
  udp_checksum h (sub data 0 n) n src dst = udp_checksum h data n src dst.
Proof.
  intros Hb Hn Hm. assert (bytes_ok (sub data 0 n)) as Hs by by apply bytes_ok_sub.
  destruct (udp_checksum_ok h data n src dst Hb Hn Hm) as [-> _].
  destruct (udp_checksum_ok h (sub data 0 n) n src dst Hs) as [-> _]; [rewrite zlen_sub; lia|done|].
  unfold udp4_sum, sub. rewrite drop_0, take_take, Nat.min_id. done.
Qed.

Lemma build_ipv4 cfg lip lport rip rport data n pkt :
  addr_ok (ADDR_IPV4 lip lport) -> addr_ok (ADDR_IPV4 rip rport) -> bytes_ok data -> 0 <= n <= zlen data ->
  udpgw_client_handler_received cfg (ADDR_IPV4 lip lport) (ADDR_IPV4 rip rport) data n = Some (Some pkt) ->
  zlen pkt = 28 + n /\ zlen pkt <= BTap_GetMTU cfg /\ hd 0 pkt = 69 /\
  exists d, case_ipv4 cfg pkt (zlen pkt) =
    Some (Some (ADDR_IPV4 rip rport, ADDR_IPV4 lip lport, d, sub data 0 n, n)) /\ (dnsgw cfg = false -> d = false).
Proof.
  intros [Hlip Hlp] [Hrip Hrp] Hb Hn. unfold udpgw_client_handler_received.
  destruct (udpgw_remote_server_addr cfg); [|done]. case_if; [|done]. case_if; [done|].
  unfold sizeof_ipv4_header, sizeof_udp_header, UINT16_MAX in *. cbv zeta. rewrite uwrap_small by lia.
  set (iph := mk_ipv4 _ _ _ _ _ _ _ _ _ _). set (udph := mk_udp _ _ _ _).
  destruct (ipv4_checksum iph [] 0) as [c|] eqn:Ec; [|done]. cbn [mbind option_bind].
  destruct (udp_checksum udph data n _ _) as [c2|] eqn:Ec2; [|done]. cbn [mbind option_bind].
  bool_true. intros Hpkt. do 2 apply (inj Some) in Hpkt. subst pkt.
  set (h4 := with_ipv4_checksum iph c) in *. set (hu := with_udp_checksum udph c2).
  assert (0 <= c < 2 ^ 16) as Hc.
  { pose proof (zlen_nonneg (@nil Z)).
    rewrite ipv4_checksum_ok in Ec; [|constructor|lia|lia|done]. injection Ec as <-. apply hton16_range. }
  assert (0 <= c2 < 2 ^ 16) as Hc2.
  { destruct (udp_checksum_ok udph data n (source_address h4) (destination_address h4)) as [Eq _]; [done|lia..|].
    rewrite Eq in Ec2. injection Ec2 as <-. apply hton16_range. }
  pose proof (hton16_range (28 + n)). pose proof (hton16_range (8 + n)).
  assert (ipv4_ok h4) as Hok4.
  { unfold ipv4_ok, h4. cbn -[Z.pow hton16]. change (IPV4_MAKE_VERSION_IHL 20) with 69. change (hton16 0) with 0.
    replace (20 + 8 + n) with (28 + n) by lia. unfold hton8, IPV4_PROTOCOL_UDP. lia. }
  assert (udp_ok hu) as Hoku by (unfold udp_ok, hu; cbn -[Z.pow hton16]; lia).
  assert (zlen (sub data 0 n) = n) as Hz by (apply zlen_sub; lia).
  assert (ntoh16 (total_length h4) = 28 + n) as Et.
  { unfold h4, ntoh16. cbn -[hton16]. rewrite hton16_invol, uwrap_small; lia. }
  assert (ntoh16 (udp_length hu) = 8 + n) as Eu.
  { unfold hu, ntoh16. cbn -[hton16]. rewrite hton16_invol, uwrap_small; lia. }
  rewrite !zlen_app, zlen_ipv4_bytes, zlen_udp_bytes, Hz.
  split; [lia|]. split; [lia|]. split; [done|].
  unfold case_ipv4, sizeof_ipv4_header. bool_false.
  change ((ipv4_bytes h4 ++ udp_bytes hu ++ sub data 0 n) !! 9%nat) with (Some 17). cbn [mbind option_bind].
  change (17 =? IPV4_PROTOCOL_UDP) with true. cbn [negb].
  rewrite ipv4_check_built; [|done..|rewrite Et; lia|rewrite zlen_app, zlen_udp_bytes, Hz; lia].
  cbn [mbind option_bind]. change (drop (Z.to_nat 20) (ipv4_bytes h4 ++ ?l)) with l. rewrite Et.
  rewrite udp_check_built; [|done|lia..]. cbn [mbind option_bind].
  change (drop (Z.to_nat 8) (udp_bytes hu ++ ?l)) with l. rewrite Eu.
  replace (8 + n - 8) with n by lia. rewrite uwrap_small by lia.
  change (with_udp_checksum hu 0) with udph.
  rewrite udp_checksum_prefix by (done || lia). rewrite Ec2. cbn [mbind option_bind].
  change (udp_checksum_ hu) with c2. rewrite Z.eqb_refl. cbn [negb].
  eexists. split; [reflexivity|]. by intros ->.
Qed.

Lemma ipv6_of_bytes_bytes h rest : 0 <= version4_tc4 h < 2 ^ 8 -> 0 <= tc4_fl4 h < 2 ^ 8 -> 0 <= fl h < 2 ^ 16 ->
  0 <= payload_length h < 2 ^ 16 -> 0 <= next_header h < 2 ^ 8 -> 0 <= hop_limit h < 2 ^ 8 ->
  length (source_address6 h) = 16%nat -> length (destination_address6 h) = 16%nat ->
  ipv6_of_bytes (sub (ipv6_bytes h ++ rest) 0 40) = h.
Proof.
  intros H1 H2 H3 H4 H5 H6 Hs Hd.
  assert (sub (ipv6_bytes h ++ rest) 0 40 = ipv6_bytes h) as ->.
  { unfold sub. rewrite drop_0. apply take_app_length'. unfold ipv6_bytes. rewrite !length_app, !le_digits_length. lia. }
  unfold ipv6_of_bytes. destruct h as [v t f p nh hl src dst]. cbn in *. f_equal;
    try first [by apply (digits_small 1) | by apply (digits_small 2)].
  - transitivity (take 16 (src ++ dst)); [done|]. by apply take_app_length'.
  - transitivity (take 16 (drop 16 (src ++ dst))); [done|]. rewrite drop_app_length' by done. apply take_ge. lia.
Qed.

Lemma zlen_ipv6_bytes h : zlen (source_address6 h) = 16 -> zlen (destination_address6 h) = 16 -> zlen (ipv6_bytes h) = 40.
Proof. intros Hs Hd. unfold ipv6_bytes. rewrite !zlen_app, !zlen_le_digits, Hs, Hd. done. Qed.

Lemma drop_ipv6_bytes h l : zlen (ipv6_bytes h) = 40 -> drop (Z.to_nat 40) (ipv6_bytes h ++ l) = l.
Proof. intros Hz. apply drop_app_length'. unfold zlen in Hz. lia. Qed.

Lemma udp_ip6_checksum_prefix h data n src dst : bytes_ok data -> 0 <= n <= zlen data -> n <= 65527 ->
  bytes_ok src -> zlen src = 16 -> bytes_ok dst -> zlen dst = 16 ->
  udp_ip6_checksum h (sub data 0 n) n src dst = udp_ip6_checksum h data n src dst.
Proof.
  intros Hb Hn Hm Hs Hsl Hd Hdl. assert (bytes_ok (sub data 0 n)) as Hs' by by apply bytes_ok_sub.
  destruct (udp_ip6_checksum_ok h data n src dst) as [-> _]; [done..|].
  destruct (udp_ip6_checksum_ok h (sub data 0 n) n src dst Hs') as [-> _]; [rewrite zlen_sub; lia|done..|].
  unfold udp6_sum, sub. rewrite drop_0, take_take, Nat.min_id. done.
Qed.

Lemma build_ipv6 cfg lip lport rip rport data n pkt :
  addr_ok (ADDR_IPV6 lip lport) -> addr_ok (ADDR_IPV6 rip rport) -> bytes_ok data -> 0 <= n <= zlen data ->
  udpgw_client_handler_received cfg (ADDR_IPV6 lip lport) (ADDR_IPV6 rip rport) data n = Some (Some pkt) ->
  zlen pkt = 48 + n /\ zlen pkt <= BTap_GetMTU cfg /\ hd 0 pkt = 96 /\
  case_ipv6 cfg pkt (zlen pkt) = Some (Some (ADDR_IPV6 rip rport, ADDR_IPV6 lip lport, false, sub data 0 n, n)).
Proof.
  intros (Hlb & Hll & Hlp) (Hrb & Hrl & Hrp) Hb Hn. unfold udpgw_client_handler_received.
  destruct (udpgw_remote_server_addr cfg); [|done]. case_if; [|done].
  destruct (netif_ip6addr cfg) eqn:E6; [|done]. cbn [negb]. case_if; [done|].
  unfold sizeof_ipv6_header, sizeof_udp_header, UINT16_MAX in *. cbv zeta. rewrite uwrap_small by lia.
  rewrite !take_ge by (unfold zlen in *; lia).
  set (h6 := mk_ipv6 _ _ _ _ _ _ _ _). set (udph := mk_udp _ _ _ _).
  destruct (udp_ip6_checksum udph data n _ _) as [c2|] eqn:Ec2; [|done]. cbn [mbind option_bind].
  bool_true. intros Hpkt. do 2 apply (inj Some) in Hpkt. subst pkt. set (hu := with_udp_checksum udph c2).
  assert (0 <= c2 < 2 ^ 16) as Hc2.
  { destruct (udp_ip6_checksum_ok udph data n rip lip) as [Eq _]; [done|lia..|done|done|done|done|].
    cbn in Ec2. rewrite Eq in Ec2. injection Ec2 as <-. apply hton16_range. }
  pose proof (hton16_range (8 + n)).
  assert (udp_ok hu) as Hoku by (unfold udp_ok, hu; cbn -[Z.pow hton16]; lia).
  assert (zlen (sub data 0 n) = n) as Hz by (apply zlen_sub; lia).
  assert (zlen (ipv6_bytes h6) = 40) as Hz6 by by apply zlen_ipv6_bytes.
  assert (ntoh16 (hton16 (8 + n)) = 8 + n) as Et by (unfold ntoh16; rewrite hton16_invol, uwrap_small; lia).
  rewrite !zlen_app, Hz6, zlen_udp_bytes, Hz. split; [lia|]. split; [lia|]. split; [done|].
  unfold case_ipv6, sizeof_ipv6_header. rewrite E6. cbn [negb]. bool_false.
  change ((ipv6_bytes h6 ++ udp_bytes hu ++ sub data 0 n) !! 6%nat) with (Some 17). cbn [mbind option_bind].
  change (17 =? IPV6_NEXT_UDP) with true. cbn [negb]. unfold ipv6_check, sizeof_ipv6_header. bool_true. bool_false.
  rewrite !zlen_app, Hz6, zlen_udp_bytes, Hz. bool_true.
  rewrite ipv6_of_bytes_bytes; [|cbn; try (unfold zlen in *; lia); done..].
  cbv zeta. change (Z.shiftr (ntoh8 (version4_tc4 h6)) 4 =? 6) with true. cbn [negb].
  change (payload_length h6) with (hton16 (8 + n)). rewrite Et. bool_false. cbn [mbind option_bind].
  rewrite drop_ipv6_bytes by done. rewrite udp_check_built; [|done|change (udp_length hu) with (hton16 (8 + n)); rewrite Et; lia|lia].
  cbn [mbind option_bind]. change (drop (Z.to_nat 8) (udp_bytes hu ++ ?l)) with l.
  change (udp_length hu) with (hton16 (8 + n)). rewrite Et. replace (8 + n - 8) with n by lia.
  rewrite uwrap_small by lia. change (with_udp_checksum hu 0) with udph.
  rewrite udp_ip6_checksum_prefix by (done || lia). rewrite Ec2. cbn [mbind option_bind].
  change (udp_checksum_ hu) with c2. rewrite Z.eqb_refl. cbn [negb]. unfold BAddr_MakeIPv6.
  change (source_address6 h6) with rip. change (destination_address6 h6) with lip.
  rewrite !take_ge by (unfold zlen in *; lia). done.
Qed.

(** The handler answers on every datagram between addresses of the same IP family; it drops
    exactly what does not fit (or IPv6 when it is off). *)
Definition too_large (cfg : config) (a : BAddr) (n : Z) : Prop :=
  match a with
  | ADDR_IPV4 _ _ => UINT16_MAX - 28 < n \/ BTap_GetMTU cfg - 28 < n
  | _ => netif_ip6addr cfg = false \/ UINT16_MAX - 8 < n \/ BTap_GetMTU cfg - 48 < n
  end.
Definition is_ip (a : BAddr) : Prop := addr_type a = 1 \/ addr_type a = 2.

Lemma handler_received_total cfg local remote data n :
  udpgw_remote_server_addr cfg = true -> addr_ok local -> addr_ok remote -> is_ip local ->
  addr_type local = addr_type remote -> bytes_ok data -> 0 <= n <= zlen data ->
  exists r, udpgw_client_handler_received cfg local remote data n = Some r /\
    (r = None <-> too_large cfg local n).
Proof.
  intros Hg Hl Hr Hip Ht Hb Hn. unfold udpgw_client_handler_received, sizeof_ipv4_header,
    sizeof_ipv6_header, sizeof_udp_header, too_large, UINT16_MAX. rewrite Hg. bool_true. pose proof (zlen_nonneg (@nil Z)).
  destruct local as [|lip lport|lip lport|], remote as [|rip rport|rip rport|]; try done; try (by destruct Hip).
  - case_if; [exists None; split; [done|split; [lia|done]]|]. cbv zeta.
    rewrite ipv4_checksum_ok; [|constructor|lia|lia|done]. cbn [mbind option_bind]. rewrite uwrap_small by lia.
    destruct (udp_checksum_ok (mk_udp rport lport (hton16 (8 + n)) (hton16 0)) data n rip lip) as [Eq _]; [done|lia..|].
    cbn [source_address destination_address with_ipv4_checksum]. rewrite Eq. cbn [mbind option_bind].
    bool_true. eexists. split; [done|]. split; [done|lia].
  - destruct (netif_ip6addr cfg); cbn [negb]; [|exists None; split; [done|split; [by left|done]]].
    case_if; [exists None; split; [done|split; [lia|done]]|]. cbv zeta. rewrite uwrap_small by lia.
    destruct Hl as (Hlb & Hll & _), Hr as (Hrb & Hrl & _).
    cbn [source_address6 destination_address6]. rewrite !take_ge by (unfold zlen in *; lia).
    destruct (udp_ip6_checksum_ok (mk_udp rport lport (hton16 (8 + n)) (hton16 0)) data n rip lip) as [-> _];
      [done|lia..|done|done|done|done|]. cbn [mbind option_bind].
    bool_true. eexists. split; [done|]. split; [done|intros [?|?]; [done|lia]].
Qed.

(** What is made for the device fits its MTU. *)
Lemma received_fits cfg local remote data n pkt : addr_ok local -> addr_ok remote -> addr_type local = addr_type remote -> is_ip local -> bytes_ok data -> 0 <= n <= zlen data ->
  udpgw_client_handler_received cfg local remote data n = Some (Some pkt) -> zlen pkt <= BTap_GetMTU cfg.
Proof.
  intros Hl Hr Ht Hip Hb Hn E. destruct local as [|lip lport|lip lport|], remote as [|rip rport|rip rport|]; try done; try (by destruct Hip).
  - destruct (build_ipv4 _ _ _ _ _ _ _ _ Hl Hr Hb Hn E) as (Hz & Hz2 & _). lia.
  - destruct (build_ipv6 _ _ _ _ _ _ _ _ Hl Hr Hb Hn E) as (Hz & Hz2 & _). lia.
Qed.

(** C12: round trip of the UDP/IP wire format, for IPv4 and IPv6.  On every datagram between two
    addresses of one family the relay-to-device handler returns; it drops the datagram exactly
    when it does not fit the device MTU or the length fields (or IPv6 is off).  Otherwise the
    packet it builds fits the device buffer, and [process_device_udp_packet] accepts it (headers
    and both checksums) and recovers the two addresses, swapped, and the payload, byte for
    byte. *)
Theorem udp_device_roundtrip cfg local remote data n :
  udpgw_remote_server_addr cfg = true -> addr_ok local -> addr_ok remote -> is_ip local ->
  addr_type local = addr_type remote -> bytes_ok data -> 0 <= n <= zlen data -> n <= udp_mtu cfg ->
  exists r, udpgw_client_handler_received cfg local remote data n = Some r /\
  match r with
  | None => too_large cfg local n
  | Some pkt => zlen pkt <= BTap_GetMTU cfg /\ exists d, (dnsgw cfg = false -> d = false) /\
      process_device_udp_packet cfg pkt (zlen pkt) = Some (Some (submit remote local d (sub data 0 n)))
  end.
Proof.
  intros Hg Hl Hr Hip Ht Hb Hn Hm. destruct (handler_received_total cfg local remote data n) as (r & E & Hd); [done..|].
  exists r. split; [done|]. destruct r as [pkt|]; [clear Hd|by apply Hd].
  assert (zlen pkt <= BTap_GetMTU cfg /\ 0 < zlen pkt /\ exists d v, (dnsgw cfg = false -> d = false) /\
    hd 0 pkt = v /\ (if Z.shiftr v 4 =? 4 then case_ipv4 cfg pkt (zlen pkt)
      else if Z.shiftr v 4 =? 6 then case_ipv6 cfg pkt (zlen pkt) else Some None) =
      Some (Some (remote, local, d, sub data 0 n, n))) as (Hz & Hp & d & v & Hdd & Hv & Ec).
  { destruct local as [|lip lport|lip lport|], remote as [|rip rport|rip rport|]; try done; try (by destruct Hip).
    - destruct (build_ipv4 _ _ _ _ _ _ _ _ Hl Hr Hb Hn E) as (Hz & Hz2 & Hv & d & Ec & Hd).
      split; [lia|]. split; [lia|]. by exists d, 69.
    - destruct (build_ipv6 _ _ _ _ _ _ _ _ Hl Hr Hb Hn E) as (Hz & Hz2 & Hv & Ec).
      split; [lia|]. split; [lia|]. by exists false, 96. }
  split; [done|]. exists d. split; [done|]. unfold process_device_udp_packet. bool_true. rewrite Hg. cbn [negb].
  bool_true. destruct pkt as [|b pkt]; [done|]. simpl in Hv. subst b. cbn [lookup list_lookup mbind option_bind].
  rewrite Ec. cbn [mbind option_bind]. bool_false. rewrite zlen_sub by lia. bool_true.
  rewrite sub_sub by lia. done.
Qed.

(** *** Witnesses *)
Definition demo_cfg : config :=
  {| udpgw_remote_server_addr := true; netif_ip6addr := true; dnsgw := true; udp_mtu := 1472; BTap_GetMTU := 1500 |}.
Definition demo_local : BAddr := ADDR_IPV4 16777226 13330.
Definition demo_remote : BAddr := ADDR_IPV6 (replicate 16 1) 13568.
Definition demo_pkt : list Z := Eval vm_compute in
  match udpgw_client_handler_received demo_cfg (ADDR_IPV6 (replicate 16 7) 13330) demo_remote [1; 2; 3] 3 with
  | Some (Some p) => p
  | _ => []
  end.

Lemma bytes_ok_dec l : bool_decide (bytes_ok l) = true -> bytes_ok l.
Proof. apply bool_decide_eq_true_1. Qed.

Lemma process_device_udp_packet_safe_witness :
  exists r, process_device_udp_packet demo_cfg demo_pkt (zlen demo_pkt) = Some r /\
  match r with
  | None => True
  | Some s => exists o len, 28 <= o /\ 0 <= len <= 1472 /\ o + len <= zlen demo_pkt /\
      sub_data s = sub demo_pkt o len /\ addr_ok (sub_local s) /\ addr_ok (sub_remote s) /\
      addr_type (sub_local s) = addr_type (sub_remote s) /\
      (sub_is_dns s = true -> true = true /\ BAddr_GetPort (sub_remote s) = Some (hton16 53) /\ 12 <= len)
  end.
Proof. apply (process_device_udp_packet_safe demo_cfg demo_pkt). apply bytes_ok_dec. vm_compute. reflexivity. Defined.

Lemma udp_device_roundtrip_witness :
  exists r, udpgw_client_handler_received demo_cfg demo_local (ADDR_IPV4 1 2) [1; 2; 3] 3 = Some r /\
  match r with
  | None => too_large demo_cfg demo_local 3
  | Some pkt => zlen pkt <= 1500 /\ exists d, (true = false -> d = false) /\
      process_device_udp_packet demo_cfg pkt (zlen pkt) = Some (Some (submit (ADDR_IPV4 1 2) demo_local d [1; 2; 3]))
  end.
Proof.
  apply (udp_device_roundtrip demo_cfg demo_local (ADDR_IPV4 1 2) [1; 2; 3] 3).
  - reflexivity.
  - simpl. lia.
  - simpl. lia.
  - left. reflexivity.
  - reflexivity.
  - apply bytes_ok_dec. vm_compute. reflexivity.
  - vm_compute. split; congruence.
  - simpl. lia.
Defined.
