(* ===== verification/BPending.v ===== *)
(** * The job queue (base/BPending.c, structure/SLinkedList_impl.h)

    Objects call each other through jobs: [BPending_Set] queues a job, the reactor executes the
    queued jobs one at a time, the one set last first.  The queue is an intrusive doubly linked
    list; a job that is not queued is marked by a [next] pointer to itself.  The model keeps the
    heap of job objects with their pointers; the theorem shows that it implements a list. *)

From stdpp Require Import gmap.
From S2P Require Import Prelude.

Module BPending.
Section BPending.
(** The handlers with their argument. *)
Context {H : Type}.

Abbreviation ptr := positive.

(** [BSmallPending]: the handler, the list node, and the debugging flag [pending]. *)
Record BSmallPending := mk_pending {
  handler : H;
  prev : option ptr;
  next : option ptr;
  pending : bool;
}.

(** The heap of job objects and the group ([jobs.first]). *)
Record t := mk {
  heap : gmap ptr BSmallPending;
  first : option ptr;
}.

Definition with_first (g : t) (f : option ptr) : t := mk (heap g) f.

(** Stores through a pointer; [None]: it points to no object. *)
Definition store (g : t) (p : ptr) (f : BSmallPending -> BSmallPending) : option t :=
  j ← heap g !! p; Some (mk (<[p := f j]> (heap g)) (first g)).
Definition set_next (g : t) (p : ptr) (n : option ptr) : option t :=
  store g p (fun j => mk_pending (handler j) (prev j) n (pending j)).
Definition set_prev (g : t) (p : ptr) (q : option ptr) : option t :=
  store g p (fun j => mk_pending (handler j) q (next j) (pending j)).
Definition set_pending (g : t) (p : ptr) (b : bool) : option t :=
  store g p (fun j => mk_pending (handler j) (prev j) (next j) b).

(** ** SLinkedList *)
Definition ListMarkRemoved (g : t) (e : ptr) : option t := set_next g e (Some e).
Definition ListIsRemoved (g : t) (e : ptr) : option bool :=
  j ← heap g !! e; Some (bool_decide (next j = Some e)).
Definition List_Init : option ptr := None.
Definition List_Prepend (g : t) (e : ptr) : option t :=
  g ← set_next g e (first g);
  g ← match first g with Some f => set_prev g f (Some e) | None => Some g end;
  Some (with_first g (Some e)).
Definition List_Remove (g : t) (e : ptr) : option t :=
  j ← heap g !! e;
  if bool_decide (Some e = first g) then Some (with_first g (next j)) else
  q ← prev j;
  g ← set_next g q (next j);
  match next j with
  | Some n => set_prev g n (prev j)
  | None => Some g
  end.
Definition List_RemoveFirst (g : t) : option t :=
  f ← first g;
  j ← heap g !! f;
  Some (with_first g (next j)).
Definition List_First (g : t) : option ptr := first g.
Definition List_IsEmpty (g : t) : bool := bool_decide (first g = None).

(** ** BPending *)
Definition BPendingGroup_Init : t := mk ∅ List_Init.
Definition BPendingGroup_HasJobs (g : t) : bool := negb (List_IsEmpty g).
Definition BPendingGroup_PeekJob (g : t) : option ptr := List_First g.

(** The result tells which handler is called. *)
Definition BPendingGroup_ExecuteJob (g : t) : option (t * H) :=
  ASSERT negb (List_IsEmpty g);
  p ← List_First g;
  r ← ListIsRemoved g p;
  j ← heap g !! p;
  ASSERT negb r;
  ASSERT pending j;
  g ← List_RemoveFirst g;
  g ← ListMarkRemoved g p;
  g ← set_pending g p false;
  Some (g, handler j).

(** The object at [o] comes into being. *)
Definition BSmallPending_Init (g : t) (o : ptr) (h : H) : option t :=
  let g := mk (<[o := mk_pending h None None false]> (heap g)) (first g) in
  g ← ListMarkRemoved g o;
  set_pending g o false.

(** The object at [o] ceases to exist. *)
Definition BSmallPending_Free (g : t) (o : ptr) : option t :=
  j ← heap g !! o;
  r ← ListIsRemoved g o;
  ASSERT Bool.eqb (pending j) (negb r);
  g ← (if negb r then List_Remove g o else Some g);
  Some (mk (delete o (heap g)) (first g)).

Definition BSmallPending_SetHandler (g : t) (o : ptr) (h : H) : option t :=
  store g o (fun j => mk_pending h (prev j) (next j) (pending j)).

Definition BSmallPending_Set (g : t) (o : ptr) : option t :=
  j ← heap g !! o;
  r ← ListIsRemoved g o;
  ASSERT Bool.eqb (pending j) (negb r);
  g ← (if negb r then List_Remove g o else Some g);
  g ← List_Prepend g o;
  set_pending g o true.

Definition BSmallPending_Unset (g : t) (o : ptr) : option t :=
  j ← heap g !! o;
  r ← ListIsRemoved g o;
  ASSERT Bool.eqb (pending j) (negb r);
  if negb r then
    g ← List_Remove g o;
    g ← ListMarkRemoved g o;
    set_pending g o false
  else Some g.

Definition BSmallPending_IsSet (g : t) (o : ptr) : option bool :=
  j ← heap g !! o;
  r ← ListIsRemoved g o;
  ASSERT Bool.eqb (pending j) (negb r);
  Some (negb r).

(** ** Specification: the queued jobs as a list, next job first *)
Record queue := mkq { registered : gmap ptr H; jobs : list ptr }.

Inductive op := Init (o : ptr) (h : H) | Free (o : ptr) | SetHandler (o : ptr) (h : H)
  | Set_ (o : ptr) | Unset (o : ptr) | Execute.

Definition spec1 (q : queue) (a : op) : option (queue * list H) :=
  match a with
  | Init o h => ASSERT bool_decide (registered q !! o = None); Some (mkq (<[o := h]> (registered q)) (jobs q), [])
  | Free o => _ ← registered q !! o; Some (mkq (delete o (registered q)) (without o (jobs q)), [])
  | SetHandler o h => _ ← registered q !! o; Some (mkq (<[o := h]> (registered q)) (jobs q), [])
  | Set_ o => _ ← registered q !! o; Some (mkq (registered q) (o :: without o (jobs q)), [])
  | Unset o => _ ← registered q !! o; Some (mkq (registered q) (without o (jobs q)), [])
  | Execute =>
      match jobs q with
      | [] => None
      | o :: l => h ← registered q !! o; Some (mkq (registered q) l, [h])
      end
  end.

Definition exec1 (g : t) (a : op) : option (t * list H) :=
  match a with
  | Init o h => g ← BSmallPending_Init g o h; Some (g, [])
  | Free o => g ← BSmallPending_Free g o; Some (g, [])
  | SetHandler o h => g ← BSmallPending_SetHandler g o h; Some (g, [])
  | Set_ o => g ← BSmallPending_Set g o; Some (g, [])
  | Unset o => g ← BSmallPending_Unset g o; Some (g, [])
  | Execute => '(g, h) ← BPendingGroup_ExecuteJob g; Some (g, [h])
  end.

Fixpoint execs {S} (step : S -> op -> option (S * list H)) (s : S) (ops : list op) : option (S * list H) :=
  match ops with
  | [] => Some (s, [])
  | a :: ops => '(s, h1) ← step s a; '(s, h2) ← execs step s ops; Some (s, h1 ++ h2)
  end.

(** ** Invariant *)

(** The list nodes of [l] are linked in its order, from [f]. *)
Definition linked (h : gmap ptr BSmallPending) (f : option ptr) (l : list ptr) : Prop :=
  f = l !! 0%nat /\
  forall i p, l !! i = Some p -> exists j, h !! p = Some j /\ next j = l !! S i /\
    (i <> 0%nat -> prev j = l !! (i - 1)%nat).

(** [h'] has the objects of [h], with the same handlers and flags, those in [keep] unchanged. *)
Definition frame (h h' : gmap ptr BSmallPending) (keep : ptr -> Prop) : Prop :=
  forall p, match h !! p, h' !! p with
  | Some j, Some j' => handler j' = handler j /\ pending j' = pending j /\ (keep p -> j' = j)
  | None, None => True
  | _, _ => False
  end.

Record rep (g : t) (q : queue) : Prop := {
  r_nodup : NoDup (jobs q);
  r_linked : linked (heap g) (first g) (jobs q);
  r_in : forall p j, heap g !! p = Some j -> p ∈ jobs q -> pending j = true;
  r_out : forall p j, heap g !! p = Some j -> p ∉ jobs q -> next j = Some p /\ pending j = false;
  r_reg : registered q = handler <$> heap g;
}.

Lemma frame_refl h keep : frame h h keep.
Proof. intros p. by destruct (h !! p). Qed.
Lemma frame_trans h1 h2 h3 keep : frame h1 h2 keep -> frame h2 h3 keep -> frame h1 h3 keep.
Proof.
  intros F G p. specialize (F p). specialize (G p). destruct (h1 !! p), (h2 !! p), (h3 !! p); try done.
  destruct F as (F1 & F2 & F), G as (G1 & G2 & G). split_and!; [congruence..|]. intros K. by rewrite G, F.
Qed.
Lemma frame_insert h p j j' (keep : ptr -> Prop) : h !! p = Some j -> handler j' = handler j ->
  pending j' = pending j -> ~ keep p -> frame h (<[p := j']> h) keep.
Proof.
  intros Hp Hh Hpe Hk p'. destruct (decide (p = p')) as [<-|N].
  - by rewrite lookup_insert_eq, Hp.
  - rewrite lookup_insert_ne by done. by destruct (h !! p').
Qed.
Lemma frame_handlers h h' keep : frame h h' keep -> handler <$> h' = handler <$> h.
Proof.
  intros F. apply map_eq. intros p. rewrite !lookup_fmap. specialize (F p).
  destruct (h !! p), (h' !! p); try done. simpl. by destruct F as [-> _].
Qed.
Lemma frame_lookup h h' keep p j : frame h h' keep -> h' !! p = Some j ->
  exists j0, h !! p = Some j0 /\ pending j = pending j0 /\ handler j = handler j0 /\ (keep p -> j = j0).
Proof. intros F E. specialize (F p). rewrite E in F. destruct (h !! p) as [j0|]; [|done]. exists j0. by destruct F as (? & ? & ?). Qed.

Lemma prepend_linked g l e j : linked (heap g) (first g) l -> NoDup l -> e ∉ l -> heap g !! e = Some j ->
  exists g', List_Prepend g e = Some g' /\ linked (heap g') (first g') (e :: l) /\
    frame (heap g) (heap g') (fun p => p ∉ e :: l).
Proof.
  intros [Hf Hl] Hn He Hj. unfold List_Prepend, set_next, store. rewrite Hj. simpl.
  assert (forall p, p ∈ l -> p <> e) as Hne by (intros p Hp ->; done).
  destruct (first g) as [f|] eqn:Ef.
  - destruct (Hl 0%nat f) as (jf & Ejf & Enf & _); [by rewrite <- Hf|].
    assert (f ∈ l) as Hfl by (eapply list_elem_of_lookup_2; by rewrite <- Hf).
    unfold set_prev, store. simpl. rewrite lookup_insert_ne by (symmetry; by apply Hne). rewrite Ejf. simpl.
    eexists. split; [done|]. split.
    + split; [done|]. intros [|i] p Hp; simpl in *.
      * simplify_eq. rewrite lookup_insert_ne by (by apply Hne). rewrite lookup_insert_eq.
        eexists. split; [done|]. simpl. by rewrite <- Hf.
      * destruct (Hl i p Hp) as (jp & Ejp & Enp & Epp).
        assert (p ∈ l) by (by eapply list_elem_of_lookup_2).
        destruct (decide (f = p)) as [<-|N].
        -- rewrite lookup_insert_eq. eexists. split; [done|]. simpl. simplify_eq. split; [done|]. intros _.
           assert (i = 0%nat) as -> by (eapply NoDup_lookup; [done..|by rewrite <- Hf]). done.
        -- rewrite lookup_insert_ne by done. rewrite lookup_insert_ne by (symmetry; by apply Hne).
           exists jp. split_and!; try done. intros _. destruct i as [|i].
           ++ rewrite <- Hf in Hp. by simplify_eq.
           ++ rewrite Epp by done. simpl. by rewrite Nat.sub_0_r.
    + eapply frame_trans; [|eapply frame_insert; [rewrite lookup_insert_ne by (symmetry; by apply Hne); exact Ejf|done..|]].
      * eapply frame_insert; [exact Hj|done..|]. intros K. apply K. by left.
      * intros K. apply K. by right.
  - destruct l as [|f l]; [|done]. eexists. split; [done|]. split.
    + split; [done|]. intros [|i] p Hp; simpl in *; [|done]. simplify_eq.
      rewrite lookup_insert_eq. by eexists.
    + eapply frame_insert; [exact Hj|done..|]. intros K. apply K. by left.
Qed.

(** Unlinking position [k]: the node before it, [q], skips it, and the node behind it, if any,
    gets [q] as its predecessor. *)
Lemma unlink_linked h f l k q jq h' : linked h f l -> NoDup l -> k <> 0%nat ->
  l !! (k - 1)%nat = Some q -> h !! q = Some jq ->
  let h1 := <[q := mk_pending (handler jq) (prev jq) (l !! S k) (pending jq)]> h in
  (forall p j', h1 !! p = Some j' -> l !! S k <> Some p -> h' !! p = Some j') ->
  (forall n jn, l !! S k = Some n -> h1 !! n = Some jn ->
     exists jn', h' !! n = Some jn' /\ next jn' = next jn /\ prev jn' = Some q) ->
  linked h' f (delete k l).
Proof.
  intros [Hf Hl] Hn Hk0 Eq Ejq h1 Hsame Hnext.
  assert (forall i, l !! i = Some q -> i = (k - 1)%nat) as Huq by (intros i Hi; by eapply NoDup_lookup).
  split; [by rewrite list_lookup_delete_lt by lia|]. intros i p Hp.
  destruct (decide (i < k)%nat) as [Hik|Hik].
  - rewrite list_lookup_delete_lt in Hp by done. destruct (Hl i p Hp) as (jp & Ejp & Enp & Epp).
    assert (l !! S k <> Some p) as Hns.
    { intros Hs. assert (S k = i) by (by eapply NoDup_lookup). lia. }
    destruct (decide (i = k - 1)%nat) as [->|Hi].
    + simplify_eq. eexists. split; [apply Hsame; [apply lookup_insert_eq|done]|]. simpl.
      rewrite list_lookup_delete_ge by lia. split; [f_equal; lia|]. intros Hi. rewrite Epp by done.
      by rewrite list_lookup_delete_lt by lia.
    + assert (q <> p) by (intros ->; apply Hi; by apply Huq).
      exists jp. split; [apply Hsame; [unfold h1; by rewrite lookup_insert_ne|done]|].
      split; [rewrite Enp; by rewrite list_lookup_delete_lt by lia|]. intros Hi0. rewrite Epp by done.
      by rewrite list_lookup_delete_lt by lia.
  - rewrite list_lookup_delete_ge in Hp by lia. destruct (Hl (S i) p Hp) as (jp & Ejp & Enp & Epp).
    assert (q <> p) as Hqp by (intros ->; apply Huq in Hp; lia).
    assert (h1 !! p = Some jp) as E1 by (unfold h1; by rewrite lookup_insert_ne).
    destruct (decide (i = k)) as [->|Hi].
    + destruct (Hnext p jp Hp E1) as (jn' & E' & En' & Epv). exists jn'. split; [done|].
      split; [by rewrite En', Enp, list_lookup_delete_ge by lia|]. intros _. by rewrite Epv, list_lookup_delete_lt by lia.
    + exists jp. split; [apply Hsame; [done|]|].
      * intros Hs. assert (S k = S i) by (by eapply NoDup_lookup). lia.
      * split; [by rewrite Enp, list_lookup_delete_ge by lia|]. intros _. rewrite Epp by done.
        rewrite list_lookup_delete_ge by lia. f_equal. lia.
Qed.

Lemma remove_linked g l e : linked (heap g) (first g) l -> NoDup l -> e ∈ l ->
  exists g', List_Remove g e = Some g' /\ linked (heap g') (first g') (without e l) /\
    frame (heap g) (heap g') (fun p => p ∉ l \/ p = e).
Proof.
  intros [Hf Hl] Hn He. apply list_elem_of_lookup in He as [k Hk].
  destruct (Hl k e Hk) as (j & Ej & En & Ep). rewrite (without_delete e l k Hn Hk).
  assert (forall i, l !! i = Some e -> i = k) as Hu by (intros i Hi; by eapply NoDup_lookup).
  unfold List_Remove. rewrite Ej. cbn [mbind option_bind]. case_bool_decide as Hfe.
  - assert (k = 0%nat) as -> by (symmetry; apply Hu; congruence).
    eexists. split; [done|]. simpl. split; [|apply frame_refl]. split; [by rewrite list_lookup_delete_ge by lia|].
    intros i p Hp. rewrite list_lookup_delete_ge in Hp |- * by lia.
    destruct (Hl (S i) p Hp) as (jp & Ejp & Enp & Epp). exists jp. split_and!; try done.
    intros Hi. rewrite Epp by done. rewrite list_lookup_delete_ge by lia. f_equal. lia.
  - assert (k <> 0%nat) as Hk0 by (intros ->; congruence). rewrite (Ep Hk0).
    destruct (l !! (k - 1)%nat) as [q|] eqn:Eq; [|apply lookup_ge_None in Eq; apply lookup_lt_Some in Hk; lia].
    cbn [mbind option_bind]. destruct (Hl _ q Eq) as (jq & Ejq & Enq & Epq).
    assert (forall i, l !! i = Some q -> i = (k - 1)%nat) as Huq by (intros i Hi; by eapply NoDup_lookup).
    unfold set_next, store. rewrite Ejq. simpl. rewrite En.
    set (h1 := <[q := _]> (heap g)).
    assert (q <> e) as Hqe by (intros ->; apply Hu in Eq; lia).
    assert (frame (heap g) h1 (fun p => p ∉ l \/ p = e)) as F1.
    { eapply frame_insert; [exact Ejq|done..|]. intros [K|K]; [|done]. apply K. by eapply list_elem_of_lookup_2. }
    destruct (l !! S k) as [n|] eqn:Eqn.
    + destruct (Hl _ n Eqn) as (jn & Ejn & Enn & Epn).
      assert (q <> n) as Hqn by (intros ->; apply Huq in Eqn; lia).
      assert (h1 !! n = Some jn) as E1 by (unfold h1; by rewrite lookup_insert_ne).
      unfold set_prev, store. simpl. fold h1. rewrite E1. simpl. eexists. split; [done|]. simpl. split.
      * apply (unlink_linked (heap g) (first g) l k q jq); [by split|done..| |]; rewrite Eqn; fold h1.
        -- intros p j' Hp Hne. rewrite lookup_insert_ne; [done|congruence].
        -- intros n' jn' [= <-] Hn'. rewrite lookup_insert_eq. eexists. split; [done|]. simpl. split; congruence.
      * eapply frame_trans; [exact F1|]. eapply frame_insert; [exact E1|done..|].
        intros [K|K]; [apply K; by eapply list_elem_of_lookup_2|]. subst. apply Hu in Eqn. lia.
    + eexists. split; [done|]. simpl. split; [|done]. apply (unlink_linked (heap g) (first g) l k q jq); [by split|done..| |]; by rewrite Eqn.
Qed.

(** The links of the queued nodes are all that matters. *)
Lemma linked_ext h h' f l : linked h f l ->
  (forall p j, p ∈ l -> h !! p = Some j -> exists j', h' !! p = Some j' /\ next j' = next j /\ prev j' = prev j) ->
  linked h' f l.
Proof.
  intros [Hf Hl] He. split; [done|]. intros i p Hp. destruct (Hl i p Hp) as (j & Ej & En & Ep).
  destruct (He p j) as (j' & Ej' & En' & Ep'); [by eapply list_elem_of_lookup_2|done|].
  exists j'. by rewrite En', Ep'.
Qed.

Lemma linked_lookup h f l p : linked h f l -> p ∈ l -> exists j, h !! p = Some j.
Proof. intros [_ Hl] Hp. apply list_elem_of_lookup in Hp as [i Hi]. destruct (Hl i p Hi) as (j & ? & _). by exists j. Qed.

(** The links determine the list. *)
Lemma linked_agree h f l l' : linked h f l -> linked h f l' -> l = l'.
Proof.
  intros [Hf Hl] [Hf' Hl']. apply list_eq. intros i. induction i as [|i IH]; [by rewrite <- Hf|].
  destruct (l !! i) as [p|] eqn:E.
  - destruct (Hl i p E) as (j & Ej & En & _). destruct (Hl' i p) as (j' & Ej' & En' & _); [done|]. simplify_eq. congruence.
  - symmetry in IH. apply lookup_ge_None in E, IH. rewrite !(proj2 (lookup_ge_None _ _)); [done|lia..].
Qed.

Lemma is_removed_ok g q o j : rep g q -> heap g !! o = Some j ->
  ListIsRemoved g o = Some (bool_decide (o ∉ jobs q)) /\ pending j = bool_decide (o ∈ jobs q).
Proof.
  intros R Ej. unfold ListIsRemoved. rewrite Ej. simpl. destruct (decide (o ∈ jobs q)) as [Hin|Hout].
  - rewrite (bool_decide_true (o ∈ jobs q)) by done. rewrite (bool_decide_false (o ∉ jobs q)) by tauto.
    split; [|by eapply r_in]. rewrite bool_decide_false; [done|]. apply list_elem_of_lookup in Hin as [i Hi].
    destruct (r_linked _ _ R) as [_ Hl]. destruct (Hl i o Hi) as (j' & Ej' & En & _). simplify_eq.
    rewrite En. intros Hs. assert (S i = i); [|lia]. eapply NoDup_lookup; [apply R|done..].
  - rewrite (bool_decide_false (o ∈ jobs q)) by done. rewrite (bool_decide_true (o ∉ jobs q)) by done.
    destruct (r_out _ _ R o j Ej Hout) as [-> ->]. by rewrite bool_decide_true.
Qed.

(** The common beginning of [Set], [Unset] and [Free]: the job is taken out of the list. *)
Lemma dequeue_ok g q o j : rep g q -> heap g !! o = Some j ->
  exists g', (if bool_decide (o ∈ jobs q) then List_Remove g o else Some g) = Some g' /\
    linked (heap g') (first g') (without o (jobs q)) /\
    frame (heap g) (heap g') (fun p => p ∉ jobs q \/ p = o) /\
    (o ∉ jobs q -> g' = g) /\ heap g' !! o = Some j.
Proof.
  intros R Ej. case_bool_decide as Hin.
  - destruct (remove_linked g (jobs q) o) as (g' & E & L & F); [apply R..|done|].
    exists g'. split_and!; try done. specialize (F o). rewrite Ej in F. destruct (heap g' !! o); [|done].
    destruct F as (_ & _ & F). rewrite F; [done|by right].
  - exists g. rewrite without_id by done. split_and!; try done; [apply R|apply frame_refl].
Qed.

Lemma negb_notin o (l : list ptr) : negb (bool_decide (o ∉ l)) = bool_decide (o ∈ l).
Proof. by rewrite bool_decide_not, negb_involutive. Qed.

(** The guard of the three operations holds. *)
Lemma guard_ok g q o j {A} (k : bool -> option A) : rep g q -> heap g !! o = Some j ->
  (r ← ListIsRemoved g o; ASSERT Bool.eqb (pending j) (negb r); k r) = k (bool_decide (o ∉ jobs q)).
Proof.
  intros R Ej. destruct (is_removed_ok g q o j R Ej) as [-> ->]. simpl. by rewrite negb_notin, eqb_reflx.
Qed.

(** A queue whose list is [l] after the links of [h] are those of [l] and the flags are right. *)
Lemma rep_intro h f r l : NoDup l -> linked h f l ->
  (forall p j, h !! p = Some j -> if decide (p ∈ l) then pending j = true else next j = Some p /\ pending j = false) ->
  handler <$> h = r -> rep (mk h f) (mkq r l).
Proof.
  intros Hn Hl Hp <-. constructor; try done; simpl; intros p j Ej; specialize (Hp p j Ej); by destruct (decide _).
Qed.

Lemma reg_lookup g q o : rep g q -> is_Some (registered q !! o) -> exists j, heap g !! o = Some j.
Proof. intros R [h E]. rewrite (r_reg _ _ R), lookup_fmap in E. destruct (heap g !! o) as [j|]; [by exists j|done]. Qed.

Lemma set_ok g q o : rep g q -> is_Some (registered q !! o) ->
  exists g', BSmallPending_Set g o = Some g' /\ rep g' (mkq (registered q) (o :: without o (jobs q))).
Proof.
  intros R Ho. destruct (reg_lookup g q o R Ho) as [j Ej]. unfold BSmallPending_Set. rewrite Ej. cbn [mbind option_bind].
  rewrite (guard_ok g q o j) by done. rewrite negb_notin.
  destruct (dequeue_ok g q o j R Ej) as (g1 & -> & L1 & F1 & _ & Ej1). cbn [mbind option_bind].
  assert (o ∉ without o (jobs q)) as Hno by (rewrite elem_of_without; tauto).
  assert (NoDup (without o (jobs q))) as Hn by (apply NoDup_without, R).
  destruct (prepend_linked g1 _ o j L1 Hn Hno Ej1) as (g2 & -> & L2 & F2). cbn [mbind option_bind].
  assert (exists j2, heap g2 !! o = Some j2 /\ handler j2 = handler j) as (j2 & Ej2 & Eh).
  { specialize (F2 o). rewrite Ej1 in F2. destruct (heap g2 !! o) as [j2|]; [|done]. exists j2. by destruct F2. }
  unfold set_pending, store. rewrite Ej2. simpl. eexists. split; [done|]. apply rep_intro.
  - by apply list.NoDup_cons.
  - eapply linked_ext; [exact L2|]. intros p jp Hp Ejp. destruct (decide (p = o)) as [->|N].
    + rewrite lookup_insert_eq. simplify_eq. by eexists.
    + rewrite lookup_insert_ne by done. by exists jp.
  - intros p jp Ejp. destruct (decide (p = o)) as [->|N].
    { rewrite lookup_insert_eq in Ejp. simplify_eq. rewrite decide_True by (by left). done. }
    rewrite lookup_insert_ne in Ejp by done.
    destruct (frame_lookup _ _ _ _ _ F2 Ejp) as (jp1 & Ejp1 & Ep1 & _ & K2).
    destruct (frame_lookup _ _ _ _ _ F1 Ejp1) as (jp0 & Ejp0 & Ep0 & _ & K1).
    destruct (decide (p ∈ o :: without o (jobs q))) as [Hin|Hout].
    + apply elem_of_cons in Hin as [?|Hin]; [done|]. apply elem_of_without in Hin as [_ Hin].
      rewrite Ep1, Ep0. by eapply r_in.
    + rewrite K2 by done. assert (p ∉ jobs q) as Hq.
      { intros Hq. apply Hout. right. by apply elem_of_without. }
      rewrite K1 by (by left). by eapply r_out.
  - rewrite (r_reg _ _ R). rewrite <- (frame_handlers _ _ _ F1), <- (frame_handlers _ _ _ F2).
    rewrite fmap_insert. simpl. apply insert_id. rewrite lookup_fmap, Ej2. done.
Qed.

Lemma unset_ok g q o : rep g q -> is_Some (registered q !! o) ->
  exists g', BSmallPending_Unset g o = Some g' /\ rep g' (mkq (registered q) (without o (jobs q))).
Proof.
  intros R Ho. destruct (reg_lookup g q o R Ho) as [j Ej]. unfold BSmallPending_Unset. rewrite Ej. cbn [mbind option_bind].
  rewrite (guard_ok g q o j) by done. rewrite negb_notin.
  destruct (dequeue_ok g q o j R Ej) as (g1 & E1 & L1 & F1 & _ & Ej1). case_bool_decide as Hin.
  - rewrite E1. unfold ListMarkRemoved, set_next, set_pending, store. simpl. rewrite Ej1. simpl.
    rewrite lookup_insert_eq. simpl. rewrite insert_insert_eq. eexists. split; [done|]. apply rep_intro.
    + apply NoDup_without, R.
    + eapply linked_ext; [exact L1|]. intros p jp Hp Ejp. apply elem_of_without in Hp as [Hp _].
      rewrite lookup_insert_ne by done. by exists jp.
    + intros p jp Ejp. destruct (decide (p = o)) as [->|N].
      { rewrite lookup_insert_eq in Ejp. simplify_eq. rewrite decide_False; [done|]. rewrite elem_of_without. tauto. }
      rewrite lookup_insert_ne in Ejp by done.
      destruct (frame_lookup _ _ _ _ _ F1 Ejp) as (jp0 & Ejp0 & Ep0 & _ & K1).
      destruct (decide (p ∈ without o (jobs q))) as [Hp|Hp]; rewrite elem_of_without in Hp.
      * rewrite Ep0. eapply r_in; [done..|tauto].
      * rewrite K1 by (left; tauto). eapply r_out; [done..|tauto].
    + rewrite (r_reg _ _ R), <- (frame_handlers _ _ _ F1), fmap_insert. simpl.
      apply insert_id. rewrite lookup_fmap, Ej1. done.
  - exists g. split; [done|]. rewrite without_id by done. by destruct q.
Qed.

Lemma free_ok g q o : rep g q -> is_Some (registered q !! o) ->
  exists g', BSmallPending_Free g o = Some g' /\ rep g' (mkq (delete o (registered q)) (without o (jobs q))).
Proof.
  intros R Ho. destruct (reg_lookup g q o R Ho) as [j Ej]. unfold BSmallPending_Free. rewrite Ej. cbn [mbind option_bind].
  rewrite (guard_ok g q o j) by done. rewrite negb_notin.
  destruct (dequeue_ok g q o j R Ej) as (g1 & -> & L1 & F1 & _ & Ej1). simpl. eexists. split; [done|]. apply rep_intro.
  - apply NoDup_without, R.
  - eapply linked_ext; [exact L1|]. intros p jp Hp Ejp. apply elem_of_without in Hp as [Hp _].
    rewrite lookup_delete_ne by done. by exists jp.
  - intros p jp Ejp. apply lookup_delete_Some in Ejp as [N Ejp].
    destruct (frame_lookup _ _ _ _ _ F1 Ejp) as (jp0 & Ejp0 & Ep0 & _ & K1).
    destruct (decide (p ∈ without o (jobs q))) as [Hp|Hp]; rewrite elem_of_without in Hp.
    + rewrite Ep0. eapply r_in; [done..|tauto].
    + rewrite K1 by (left; intros Hq; apply Hp; done). eapply r_out; [done..|]. intros Hq. apply Hp. done.
  - by rewrite (r_reg _ _ R), <- (frame_handlers _ _ _ F1), fmap_delete.
Qed.

Lemma pending_init_ok g q o h : rep g q -> registered q !! o = None ->
  exists g', BSmallPending_Init g o h = Some g' /\ rep g' (mkq (<[o := h]> (registered q)) (jobs q)).
Proof.
  intros R Ho. rewrite (r_reg _ _ R), lookup_fmap in Ho. apply fmap_None in Ho.
  assert (o ∉ jobs q) as Hno.
  { intros Hin. destruct (linked_lookup _ _ _ o (r_linked _ _ R) Hin) as [j Ej]. congruence. }
  unfold BSmallPending_Init, ListMarkRemoved, set_next, set_pending, store. simpl. rewrite !lookup_insert_eq. simpl.
  rewrite lookup_insert_eq. simpl. rewrite !insert_insert_eq. eexists. split; [done|]. apply rep_intro.
  - apply R.
  - eapply linked_ext; [apply R|]. intros p jp Hp Ejp. rewrite lookup_insert_ne by congruence. by exists jp.
  - intros p jp Ejp. destruct (decide (p = o)) as [->|N].
    + rewrite lookup_insert_eq in Ejp. simplify_eq. by rewrite decide_False.
    + rewrite lookup_insert_ne in Ejp by done.
      destruct (decide (p ∈ jobs q)); [by eapply r_in|by eapply r_out].
  - by rewrite (r_reg _ _ R), fmap_insert.
Qed.

Lemma sethandler_ok g q o h : rep g q -> is_Some (registered q !! o) ->
  exists g', BSmallPending_SetHandler g o h = Some g' /\ rep g' (mkq (<[o := h]> (registered q)) (jobs q)).
Proof.
  intros R Ho. destruct (reg_lookup g q o R Ho) as [j Ej].
  unfold BSmallPending_SetHandler, store. rewrite Ej. simpl. eexists. split; [done|]. apply rep_intro.
  - apply R.
  - eapply linked_ext; [apply R|]. intros p jp Hp Ejp. destruct (decide (p = o)) as [->|N].
    + rewrite lookup_insert_eq. simplify_eq. by eexists.
    + rewrite lookup_insert_ne by done. by exists jp.
  - intros p jp Ejp. assert (exists jp0, heap g !! p = Some jp0 /\ pending jp = pending jp0 /\ next jp = next jp0)
      as (jp0 & E0 & -> & ->).
    { destruct (decide (p = o)) as [->|N]; [rewrite lookup_insert_eq in Ejp|rewrite lookup_insert_ne in Ejp by done];
        simplify_eq; by eexists. }
    destruct (decide (p ∈ jobs q)); [by eapply r_in|by eapply r_out].
  - by rewrite (r_reg _ _ R), fmap_insert.
Qed.

Lemma execute_ok g q o l : rep g q -> jobs q = o :: l ->
  exists g' h, BPendingGroup_ExecuteJob g = Some (g', h) /\ registered q !! o = Some h /\ rep g' (mkq (registered q) l).
Proof.
  intros R Hq. pose proof (r_linked _ _ R) as [Hf Hl]. rewrite Hq in *. simpl in Hf.
  destruct (Hl 0%nat o eq_refl) as (j & Ej & En & _).
  destruct (is_removed_ok g q o j R Ej) as [Er Ep]. rewrite Hq in *.
  assert (o ∈ o :: l) as Hin by by left. rewrite bool_decide_true in Ep by done.
  unfold BPendingGroup_ExecuteJob, List_IsEmpty, List_First. rewrite Hf. simpl.
  rewrite Er. rewrite bool_decide_false by tauto. simpl. rewrite Ej. simpl. rewrite Ep.
  unfold List_RemoveFirst. rewrite Hf. simpl. rewrite Ej. simpl.
  unfold ListMarkRemoved, set_next, set_pending, store. simpl. rewrite Ej. simpl. rewrite lookup_insert_eq. simpl.
  rewrite insert_insert_eq. eexists _, _. split; [done|]. split; [by rewrite (r_reg _ _ R), lookup_fmap, Ej|].
  pose proof (r_nodup _ _ R) as Hn. rewrite Hq in Hn. apply list.NoDup_cons in Hn as [Hno Hn].
  apply rep_intro; [done| | |].
  - rewrite En. split; [done|]. intros i p Hp. destruct (Hl (S i) p Hp) as (jp & Ejp & Enp & Epp).
    assert (o <> p) by (intros ->; apply Hno; by eapply list_elem_of_lookup_2).
    rewrite lookup_insert_ne by done. exists jp. split_and!; try done. intros Hi. rewrite Epp by done. simpl.
    destruct i; [done|]. simpl. by rewrite Nat.sub_0_r.
  - intros p jp Ejp. destruct (decide (p = o)) as [->|N].
    { rewrite lookup_insert_eq in Ejp. simplify_eq. by rewrite decide_False. }
    rewrite lookup_insert_ne in Ejp by done. destruct (decide (p ∈ l)) as [Hp|Hp].
    + eapply r_in; [done..|]. rewrite Hq. by right.
    + eapply r_out; [done..|]. rewrite Hq. intros [?|?]%elem_of_cons; done.
  - rewrite (r_reg _ _ R), fmap_insert. simpl. apply insert_id. by rewrite lookup_fmap, Ej.
Qed.

Lemma sim1 g q a q' hs : rep g q -> spec1 q a = Some (q', hs) -> exists g', exec1 g a = Some (g', hs) /\ rep g' q'.
Proof.
  intros R E. destruct a as [o h|o|o h|o|o|]; simpl in *.
  - case_bool_decide as Ho; [|done]. simplify_eq. destruct (pending_init_ok g q o h R Ho) as (g' & -> & R'). by eexists.
  - destruct (registered q !! o) eqn:Ho; [|done]. simplify_eq/=. destruct (free_ok g q o R) as (g' & -> & R'); [done|]. by eexists.
  - destruct (registered q !! o) eqn:Ho; [|done]. simplify_eq/=. destruct (sethandler_ok g q o h R) as (g' & -> & R'); [done|]. by eexists.
  - destruct (registered q !! o) eqn:Ho; [|done]. simplify_eq/=. destruct (set_ok g q o R) as (g' & -> & R'); [done|]. by eexists.
  - destruct (registered q !! o) eqn:Ho; [|done]. simplify_eq/=. destruct (unset_ok g q o R) as (g' & -> & R'); [done|]. by eexists.
  - destruct (jobs q) as [|o l] eqn:Hq; [done|]. destruct (execute_ok g q o l R Hq) as (g' & h & -> & Eh & R').
    rewrite Eh in E. simplify_eq/=. by eexists.
Qed.

Lemma sims g q ops q' hs : rep g q -> execs spec1 q ops = Some (q', hs) ->
  exists g', execs exec1 g ops = Some (g', hs) /\ rep g' q'.
Proof.
  revert g q hs. induction ops as [|a ops IH]; intros g q hs R E; simpl in *; [simplify_eq; by exists g|].
  destruct (spec1 q a) as [[q1 h1]|] eqn:E1; [|done]. simpl in E.
  destruct (execs spec1 q1 ops) as [[q2 h2]|] eqn:E2; [|done]. simplify_eq/=.
  destruct (sim1 _ _ _ _ _ R E1) as (g1 & -> & R1). simpl.
  destruct (IH _ _ _ R1 E2) as (g2 & -> & R2). simpl. by exists g2.
Qed.

Definition empty_queue : queue := mkq ∅ [].

Lemma rep_empty : rep BPendingGroup_Init empty_queue.
Proof. apply rep_intro; [constructor|split; [done|by intros]| |apply fmap_empty]. intros p j. by rewrite lookup_empty. Qed.

(** C37: the pointer-linked job queue implements a list of jobs: setting a job puts it in front
    (moving it there if it was queued), unsetting and freeing take it out, and executing takes
    the front job.  Every sequence of operations the list allows (objects initialised before use
    and not twice, no execution of an empty queue) runs on the heap without a violated assertion
    or a stray pointer, calls the same handlers in the same order, and ends in a state whose
    [HasJobs], [PeekJob] and [IsSet] answer for that list. *)
Theorem bpending_refines_list ops q hs :
  execs spec1 empty_queue ops = Some (q, hs) ->
  exists g, execs exec1 BPendingGroup_Init ops = Some (g, hs) /\
    BPendingGroup_HasJobs g = bool_decide (jobs q <> []) /\
    BPendingGroup_PeekJob g = head (jobs q) /\
    forall o h, registered q !! o = Some h -> BSmallPending_IsSet g o = Some (bool_decide (o ∈ jobs q)).
Proof.
  intros E. destruct (sims _ _ _ _ _ rep_empty E) as (g & Eg & R). exists g. split; [done|].
  pose proof (r_linked _ _ R) as [Hf _].
  unfold BPendingGroup_HasJobs, BPendingGroup_PeekJob, List_IsEmpty, List_First.
  split_and!; [by rewrite Hf; destruct (jobs q)|by rewrite Hf; destruct (jobs q)|].
  intros o h Ho. destruct (reg_lookup g q o R) as [j Ej]; [done|]. unfold BSmallPending_IsSet. rewrite Ej.
  cbn [mbind option_bind]. rewrite (guard_ok g q o j) by done. by rewrite negb_notin.
Qed.

End BPending.

Arguments queue H : clear implicits.
Arguments op H : clear implicits.
Arguments t H : clear implicits.

(** Witness: three jobs; the one set again moves to the front, an unset one is skipped. *)
Definition demo_ops : list (op Z) :=
  [Init 1 10; Init 2 20; Init 3 30; Set_ 1; Set_ 2; Set_ 3; Set_ 1; Unset 2; Execute; Set_ 2; Execute].
Lemma bpending_refines_list_witness :
  exists g, execs exec1 BPendingGroup_Init demo_ops = Some (g, [10; 20]) /\
    BPendingGroup_HasJobs g = true /\ BPendingGroup_PeekJob g = Some 3%positive.
Proof.
  destruct (execs spec1 empty_queue demo_ops) as [[q hs]|] eqn:E; [|vm_compute in E; discriminate].
  pose proof E as E2. vm_compute in E2. injection E2 as Eq Ehs.
  destruct (bpending_refines_list demo_ops q hs E) as (g & Hg & H1 & H2 & _).
  exists g. rewrite Hg, H1, H2, <- Ehs, <- Eq. split; [reflexivity|split; reflexivity].
Defined.

End BPending.
