(* ===== verification/JobGroup.v ===== *)
(** * Interface of the job queue

    What the objects of the flow library rely on: jobs are queued, the one set last runs first.
    The pointer-linked queue of [BPending] is an instance. *)

From stdpp Require Import gmap.
From S2P Require Import Prelude BPending.

(** [pg_rep q r l]: in the queue [q] the jobs [r] exist and those of [l] are queued, the next
    one first. *)
Class JobGroup (Q : Type) := {
  pg_rep : Q -> gset positive -> list positive -> Prop;
  pg_init : Q -> positive -> option Q;
  pg_free : Q -> positive -> option Q;
  pg_set : Q -> positive -> option Q;
  pg_unset : Q -> positive -> option Q;
  pg_execute : Q -> option (Q * positive);
  pg_nodup : forall q r l, pg_rep q r l -> NoDup l /\ (forall o, o ∈ l -> o ∈ r);
  pg_agree : forall q r l r' l', pg_rep q r l -> pg_rep q r' l' -> r' = r /\ l' = l;
  pg_init_ok : forall q r l o, pg_rep q r l -> o ∉ r ->
    exists q', pg_init q o = Some q' /\ pg_rep q' ({[o]} ∪ r) l;
  pg_free_ok : forall q r l o, pg_rep q r l -> o ∈ r ->
    exists q', pg_free q o = Some q' /\ pg_rep q' (r ∖ {[o]}) (without o l);
  pg_set_ok : forall q r l o, pg_rep q r l -> o ∈ r ->
    exists q', pg_set q o = Some q' /\ pg_rep q' r (o :: without o l);
  pg_unset_ok : forall q r l o, pg_rep q r l -> o ∈ r ->
    exists q', pg_unset q o = Some q' /\ pg_rep q' r (without o l);
  pg_execute_ok : forall q r o l, pg_rep q r (o :: l) ->
    exists q', pg_execute q = Some (q', o) /\ pg_rep q' r l;
}.

(** Every job's handler is identified by the job itself. *)
Definition bpending_rep (g : BPending.t positive) (r : gset positive) (l : list positive) : Prop :=
  exists reg, BPending.rep g (BPending.mkq reg l) /\ dom reg = r /\ map_Forall (fun o h => h = o) reg.

Lemma bpending_reg g r l o : bpending_rep g r l -> o ∈ r ->
  exists reg, BPending.rep g (BPending.mkq reg l) /\ dom reg = r /\ map_Forall (fun o h => h = o) reg /\
    is_Some (reg !! o).
Proof. intros (reg & R & D & M) Ho. exists reg. split_and!; try done. rewrite <- D in Ho. by apply elem_of_dom. Qed.

#[export] Instance bpending_group : JobGroup (BPending.t positive).
Proof.
  refine {|
    pg_rep := bpending_rep;
    pg_init := fun g o => BPending.BSmallPending_Init g o o;
    pg_free := BPending.BSmallPending_Free;
    pg_set := BPending.BSmallPending_Set;
    pg_unset := BPending.BSmallPending_Unset;
    pg_execute := BPending.BPendingGroup_ExecuteJob;
  |}.
  - intros g r l (reg & R & <- & _). split; [apply R|]. intros o Ho.
    destruct (BPending.linked_lookup _ _ _ o (BPending.r_linked _ _ R) Ho) as [j Ej].
    apply elem_of_dom. pose proof (BPending.r_reg _ _ R) as E. simpl in E. rewrite E, lookup_fmap, Ej. by eexists.
  - intros g r l r' l' (reg & R & <- & _) (reg' & R' & <- & _). split.
    + pose proof (BPending.r_reg _ _ R) as E. pose proof (BPending.r_reg _ _ R') as E'. simpl in *. by rewrite E, E'.
    + eapply BPending.linked_agree; [apply R'|apply R].
  - intros g r l o (reg & R & <- & M) Ho. apply not_elem_of_dom in Ho.
    destruct (BPending.pending_init_ok g _ o o R Ho) as (g' & E & R'). exists g'. split; [done|].
    eexists. split; [exact R'|]. simpl. split; [apply dom_insert_L|]. by apply map_Forall_insert_2.
  - intros g r l o Hr Ho. destruct (bpending_reg _ _ _ _ Hr Ho) as (reg & R & <- & M & S).
    destruct (BPending.free_ok g _ o R S) as (g' & E & R'). exists g'. split; [done|].
    eexists. split; [exact R'|]. simpl. split; [apply dom_delete_L|]. by apply map_Forall_delete.
  - intros g r l o Hr Ho. destruct (bpending_reg _ _ _ _ Hr Ho) as (reg & R & <- & M & S).
    destruct (BPending.set_ok g _ o R S) as (g' & E & R'). exists g'. split; [done|]. by exists reg.
  - intros g r l o Hr Ho. destruct (bpending_reg _ _ _ _ Hr Ho) as (reg & R & <- & M & S).
    destruct (BPending.unset_ok g _ o R S) as (g' & E & R'). exists g'. split; [done|]. by exists reg.
  - intros g r o l (reg & R & <- & M).
    destruct (BPending.execute_ok g _ o l R eq_refl) as (g' & h & E & Eh & R'). simpl in *.
    rewrite (M _ _ Eh) in E. exists g'. split; [done|]. by exists reg.
Defined.

Lemma bpending_rep_empty : pg_rep (JobGroup := bpending_group) BPending.BPendingGroup_Init ∅ [].
Proof. exists ∅. split_and!; [apply BPending.rep_empty|apply dom_empty_L|apply map_Forall_empty]. Qed.

(** Reads of the queue's contents after an operation. *)
Lemma elem_of_set (o p : positive) l : p ∈ o :: without o l <-> p = o \/ p ∈ l.
Proof. rewrite elem_of_cons, elem_of_without. destruct (decide (p = o)); tauto. Qed.
