(* ===== verification/FlowIf.v ===== *)
(** * Flow interfaces (flow/PacketPassInterface, flow/PacketRecvInterface,
    flow/StreamPassInterface, flow/StreamRecvInterface)

    A flow interface connects a user, which starts operations, to a provider, which performs
    them.  The four kinds share a state machine: starting an operation queues the operation job,
    the job calls the provider, the provider's completion queues the done job, and that job
    calls the user back.  Every module gives the code's functions over an arbitrary job queue and
    shows, in lockstep with the contract as an automaton, that no assertion of the code can fail
    while user and provider keep to the contract, that each callback comes exactly when the
    contract allows it, and that the view [FlowView] used by the other components is the one the
    interface gives. *)

From stdpp Require Import gmap.
From S2P Require Import Prelude FlowView BPending JobGroup.

(** [..._STATE_NONE], [..._OPERATION_PENDING], [..._BUSY], [..._DONE_PENDING] *)
Inductive if_state := NONE | OPERATION_PENDING | BUSY | DONE_PENDING.
#[export] Instance if_state_eq_dec : EqDecision if_state.
Proof. solve_decision. Defined.

(** The queued jobs of an interface in a given state. *)
Record in_sync (s : if_state) (op done : positive) (r : gset positive) (l : list positive) : Prop := {
  sy_ne : op <> done;
  sy_reg : op ∈ r /\ done ∈ r;
  sy_op : op ∈ l <-> s = OPERATION_PENDING;
  sy_done : done ∈ l <-> s = DONE_PENDING;
}.

Lemma sync_set_op op done r l : in_sync NONE op done r l -> in_sync OPERATION_PENDING op done r (op :: without op l).
Proof.
  intros [N R O D]. split; [done|done| |].
  - rewrite elem_of_set. split; [done|by left].
  - rewrite elem_of_set, D. split; [intros [?|?]; congruence|done].
Qed.
Lemma sync_set_done op done r l : in_sync BUSY op done r l -> in_sync DONE_PENDING op done r (done :: without done l).
Proof.
  intros [N R O D]. split; [done|done| |].
  - rewrite elem_of_set, O. split; [intros [?|?]; congruence|done].
  - rewrite elem_of_set. split; [done|by left].
Qed.
Lemma sync_cancel op done r l : in_sync OPERATION_PENDING op done r l ->
  in_sync DONE_PENDING op done r (done :: without done (without op l)).
Proof.
  intros [N R O D]. split; [done|done| |].
  - rewrite elem_of_set, elem_of_without. split; [intros [?|[? ?]]; congruence|done].
  - rewrite elem_of_set. split; [done|by left].
Qed.
Lemma sync_other s p op done r l : in_sync s op done r l -> p <> op -> p <> done ->
  in_sync s op done r (p :: without p l) /\ in_sync s op done r (without p l).
Proof.
  intros [N R O D] Hp Hq. split; (split; [done|done| |]); rewrite ?elem_of_set, ?elem_of_without, ?O, ?D;
    (split; [intros; destruct_and?; destruct_or?; congruence|intros ->; auto]).
Qed.
Lemma sync_pop_op op done r l : NoDup (op :: l) -> in_sync OPERATION_PENDING op done r (op :: l) -> in_sync BUSY op done r l.
Proof.
  intros [Hn _]%list.NoDup_cons [N R O D]. split; [done|done|by split|].
  split; [|done]. intros Hd. assert (OPERATION_PENDING = DONE_PENDING); [|done]. apply D. by right.
Qed.
Lemma sync_pop_done op done r l : NoDup (done :: l) -> in_sync DONE_PENDING op done r (done :: l) -> in_sync NONE op done r l.
Proof.
  intros [Hn _]%list.NoDup_cons [N R O D]. split; [done|done| |by split].
  split; [|done]. intros Hd. assert (DONE_PENDING = OPERATION_PENDING); [|done]. apply O. by right.
Qed.
Lemma sync_pop_other s p op done r l : in_sync s op done r (p :: l) -> p <> op -> p <> done -> in_sync s op done r l.
Proof.
  intros [N R O D] Hp Hq. split; [done|done|rewrite <- O|rewrite <- D]; rewrite elem_of_cons;
    (split; [auto|intros [?|?]; congruence]).
Qed.
Lemma notin_add (o p : positive) (r : gset positive) : (o ∉ r) -> p <> o -> o ∉ {[p]} ∪ r.
Proof. intros Ho Hp. rewrite elem_of_union, elem_of_singleton. intros [?|?]; congruence. Qed.
Lemma sync_init (op done : positive) (r : gset positive) l : (forall o, o ∉ r -> o ∉ l) -> (op ∉ r) -> (done ∉ r) -> op <> done ->
  in_sync NONE op done ({[done]} ∪ ({[op]} ∪ r)) l.
Proof.
  intros Hl Ho Hd N. split; [done| | |].
  - rewrite !elem_of_union, !elem_of_singleton. tauto.
  - split; [|done]. intros Hin. by apply Hl in Hin.
  - split; [|done]. intros Hin. by apply Hl in Hin.
Qed.
Lemma sync_front s p op done r l : in_sync s op done r (p :: l) ->
  (p = op -> s = OPERATION_PENDING) /\ (p = done -> s = DONE_PENDING).
Proof. intros [N R O D]. split; intros ->; [apply O|apply D]; by left. Qed.

(** ** PacketPassInterface *)
Module PacketPass.
Section PacketPass.
Context {Q : Type} `{JobGroup Q}.

Record t := mk {
  mtu : Z;
  handler_requestcancel : bool;
  handler_done : bool;
  job_operation : positive;
  job_operation_data : option Z;
  job_operation_len : Z;
  job_requestcancel : positive;
  job_done : positive;
  state : if_state;
  cancel_requested : bool;
}.

Definition with_state (i : t) (s : if_state) : t :=
  mk (mtu i) (handler_requestcancel i) (handler_done i) (job_operation i) (job_operation_data i)
    (job_operation_len i) (job_requestcancel i) (job_done i) s (cancel_requested i).
Definition with_cancel_requested (i : t) (c : bool) : t :=
  mk (mtu i) (handler_requestcancel i) (handler_done i) (job_operation i) (job_operation_data i)
    (job_operation_len i) (job_requestcancel i) (job_done i) (state i) c.
Definition with_operation (i : t) (data : option Z) (len : Z) : t :=
  mk (mtu i) (handler_requestcancel i) (handler_done i) (job_operation i) data len
    (job_requestcancel i) (job_done i) (state i) (cancel_requested i).
Definition with_handlers (i : t) (rc hd : bool) : t :=
  mk (mtu i) rc hd (job_operation i) (job_operation_data i) (job_operation_len i)
    (job_requestcancel i) (job_done i) (state i) (cancel_requested i).

(** [jo], [jr], [jd] are the addresses of the three job objects inside the interface. *)
Definition PacketPassInterface_Init (g : Q) (mtu : Z) (jo jr jd : positive) : option (t * Q) :=
  ASSERT mtu >=? 0;
  g ← pg_init g jo;
  g ← pg_init g jr;
  g ← pg_init g jd;
  Some (mk mtu false false jo None 0 jr jd NONE false, g).
Definition PacketPassInterface_Free (i : t) (g : Q) : option Q :=
  g ← pg_free g (job_done i);
  g ← pg_free g (job_requestcancel i);
  pg_free g (job_operation i).
Definition PacketPassInterface_EnableCancel (i : t) : option t :=
  ASSERT negb (handler_requestcancel i);
  ASSERT negb (handler_done i);
  Some (with_handlers i true (handler_done i)).
Definition PacketPassInterface_Done (i : t) (g : Q) : option (t * Q) :=
  ASSERT bool_decide (state i = BUSY);
  g ← pg_unset g (job_requestcancel i);
  g ← pg_set g (job_done i);
  Some (with_state i DONE_PENDING, g).
Definition PacketPassInterface_GetMTU (i : t) : Z := mtu i.
Definition PacketPassInterface_Sender_Init (i : t) : option t :=
  ASSERT negb (handler_done i);
  Some (with_handlers i (handler_requestcancel i) true).
Definition PacketPassInterface_Sender_Send (i : t) (g : Q) (data : option Z) (data_len : Z) : option (t * Q) :=
  ASSERT data_len >=? 0;
  ASSERT data_len <=? mtu i;
  ASSERT negb (data_len >? 0) || bool_decide (is_Some data);
  ASSERT bool_decide (state i = NONE);
  ASSERT handler_done i;
  let i := with_operation i data data_len in
  g ← pg_set g (job_operation i);
  Some (with_cancel_requested (with_state i OPERATION_PENDING) false, g).
Definition PacketPassInterface_Sender_RequestCancel (i : t) (g : Q) : option (t * Q) :=
  ASSERT bool_decide (state i = OPERATION_PENDING) || bool_decide (state i = BUSY) ||
    bool_decide (state i = DONE_PENDING);
  ASSERT handler_requestcancel i;
  if cancel_requested i then Some (i, g) else
  let i := with_cancel_requested i true in
  if bool_decide (state i = OPERATION_PENDING) then
    g ← pg_unset g (job_operation i);
    g ← pg_set g (job_done i);
    Some (with_state i DONE_PENDING, g)
  else if bool_decide (state i = BUSY) then
    g ← pg_set g (job_requestcancel i);
    Some (i, g)
  else Some (i, g).
Definition PacketPassInterface_HasCancel (i : t) : bool := handler_requestcancel i.

(** The calls the job handlers make to the provider and to the user. *)
Inductive upcall := handler_operation (data : option Z) (len : Z) | handler_cancel | handler_completed.

Definition _PacketPassInterface_job_operation (i : t) : option (t * upcall) :=
  ASSERT bool_decide (state i = OPERATION_PENDING);
  Some (with_state i BUSY, handler_operation (job_operation_data i) (job_operation_len i)).
Definition _PacketPassInterface_job_requestcancel (i : t) : option (t * upcall) :=
  ASSERT bool_decide (state i = BUSY);
  ASSERT cancel_requested i;
  ASSERT handler_requestcancel i;
  Some (i, handler_cancel).
Definition _PacketPassInterface_job_done (i : t) : option (t * upcall) :=
  ASSERT bool_decide (state i = DONE_PENDING);
  Some (with_state i NONE, handler_completed).

(** The job the queue hands out runs its handler; other objects' jobs do not touch [i]. *)
Definition run_job (i : t) (o : positive) : option (t * option upcall) :=
  if bool_decide (o = job_operation i) then '(i, u) ← _PacketPassInterface_job_operation i; Some (i, Some u)
  else if bool_decide (o = job_requestcancel i) then '(i, u) ← _PacketPassInterface_job_requestcancel i; Some (i, Some u)
  else if bool_decide (o = job_done i) then '(i, u) ← _PacketPassInterface_job_done i; Some (i, Some u)
  else Some (i, None).

(** *** The contract

    [Held] is the time between the provider's [handler_operation] and its [Done]; the cancel
    request of the user is forwarded to the provider once, while it holds the packet. *)
Inductive cancel := NotAsked | Asked | Told.
Inductive phase := Idle | Requested (data : option Z) (len : Z)
  | Held (data : option Z) (len : Z) (c : cancel) | Completed (data : option Z) (len : Z).

Inductive action := Send (data : option Z) (len : Z) | RequestCancel | Done | Call (u : upcall).

Definition contract (mtu : Z) (can_cancel : bool) (ph : phase) (a : action) : option phase :=
  match a, ph with
  | Send d n, Idle =>
      ASSERT (0 <=? n) && (n <=? mtu) && (negb (n >? 0) || bool_decide (is_Some d)); Some (Requested d n)
  | RequestCancel, Requested d n => ASSERT can_cancel; Some (Completed d n)
  | RequestCancel, Held d n NotAsked => ASSERT can_cancel; Some (Held d n Asked)
  | RequestCancel, Held d n c => ASSERT can_cancel; Some (Held d n c)
  | RequestCancel, Completed d n => ASSERT can_cancel; Some (Completed d n)
  | Done, Held d n _ => Some (Completed d n)
  | Call (handler_operation d' n'), Requested d n =>
      ASSERT bool_decide (d' = d) && (n' =? n); Some (Held d n NotAsked)
  | Call handler_cancel, Held d n Asked => Some (Held d n Told)
  | Call handler_completed, Completed d n => Some Idle
  | _, _ => None
  end.

(** What the user sees. *)
Definition view (ph : phase) : pass_view :=
  match ph with
  | Idle => PIdle
  | Requested d n | Held d n _ | Completed d n => PBusy d n
  end.

(** *** The interface in its environment *)
Inductive event := USend (data : option Z) (len : Z) | UCancel | PDone | Execute | OtherSet (o : positive).

Record world := mkw { iface : t; group : Q; ph : phase }.

(** The code and the contract side by side.  [None]: a violated assertion, or a callback that
    the contract does not allow. *)
Definition exec (w : world) (e : event) : option world :=
  let i := iface w in let c := contract (mtu i) (handler_requestcancel i) in
  match e with
  | USend d n => '(i, g) ← PacketPassInterface_Sender_Send i (group w) d n; p ← c (ph w) (Send d n); Some (mkw i g p)
  | UCancel => '(i, g) ← PacketPassInterface_Sender_RequestCancel i (group w); p ← c (ph w) RequestCancel; Some (mkw i g p)
  | PDone => '(i, g) ← PacketPassInterface_Done i (group w); p ← c (ph w) Done; Some (mkw i g p)
  | Execute =>
      '(g, o) ← pg_execute (group w);
      '(i, u) ← run_job i o;
      p ← match u with Some u => c (ph w) (Call u) | None => Some (ph w) end;
      Some (mkw i g p)
  | OtherSet o => g ← pg_set (group w) o; Some (mkw i g (ph w))
  end.

(** User and provider keep to the contract; the reactor executes a job when there is one; other
    objects set their own jobs. *)
Definition allowed (w : world) (e : event) : Prop :=
  let i := iface w in let c := contract (mtu i) (handler_requestcancel i) (ph w) in
  match e with
  | USend d n => is_Some (c (Send d n))
  | UCancel => is_Some (c RequestCancel)
  | PDone => is_Some (c Done)
  | Execute => exists r o l, pg_rep (group w) r (o :: l)
  | OtherSet o => o <> job_operation i /\ o <> job_requestcancel i /\ o <> job_done i /\
      exists r l, pg_rep (group w) r l /\ o ∈ r
  end.

(** *** Invariant *)
Record inv (w : world) (r : gset positive) (l : list positive) : Prop := {
  i_rep : pg_rep (group w) r l;
  i_sync : in_sync (state (iface w)) (job_operation (iface w)) (job_done (iface w)) r l;
  i_jr : job_requestcancel (iface w) ∈ r /\ job_requestcancel (iface w) <> job_operation (iface w) /\
    job_requestcancel (iface w) <> job_done (iface w);
  i_user : handler_done (iface w) = true;
  i_phase : match ph w with
    | Idle => state (iface w) = NONE /\ job_requestcancel (iface w) ∉ l
    | Requested d n => state (iface w) = OPERATION_PENDING /\ job_operation_data (iface w) = d /\
        job_operation_len (iface w) = n /\ cancel_requested (iface w) = false /\ job_requestcancel (iface w) ∉ l
    | Held d n c => state (iface w) = BUSY /\ job_operation_data (iface w) = d /\ job_operation_len (iface w) = n /\
        (c = NotAsked <-> cancel_requested (iface w) = false) /\ (c = Asked <-> job_requestcancel (iface w) ∈ l) /\
        (c = NotAsked \/ handler_requestcancel (iface w) = true)
    | Completed d n => state (iface w) = DONE_PENDING /\ job_requestcancel (iface w) ∉ l
    end;
}.

Definition next (w : world) (e : event) (r : gset positive) : Prop :=
  exists w' l', exec w e = Some w' /\ inv w' r l'.

Lemma send_ok w r l d n : inv w r l -> allowed w (USend d n) -> next w (USend d n) r.
Proof.
  intros [R S J U P] [p Hp]. unfold next, exec. cbv zeta. rewrite Hp. simpl in Hp. destruct (ph w); try done.
  destruct P as [Hs Hj]. destruct (_ && _) eqn:E in Hp; [|done]. simplify_eq.
  apply andb_true_iff in E as [[E1 E2]%andb_true_iff Ed]. apply Z.leb_le in E1, E2. rewrite Hs in S.
  unfold PacketPassInterface_Sender_Send. do 2 bool_true. rewrite Ed, Hs, U. simpl.
  destruct (pg_set_ok _ _ _ (job_operation (iface w)) R) as (g' & -> & R'); [apply S|].
  simpl. eexists _, _. split; [done|]. split; simpl; try done; [by apply sync_set_op|].
  split_and!; try done. rewrite elem_of_set. intros [?|?]; [|done]. by destruct J as (_ & ? & _).
Qed.

Lemma done_ok w r l : inv w r l -> allowed w PDone -> next w PDone r.
Proof.
  intros [R S J U P] [p Hp]. unfold next, exec. cbv zeta. rewrite Hp. simpl in Hp. destruct (ph w) as [| |d n c|]; try done.
  destruct P as (Hs & _). simplify_eq. destruct J as (Jr & Jo & Jd). unfold PacketPassInterface_Done. rewrite Hs in *.
  simpl. destruct (pg_unset_ok _ _ _ (job_requestcancel (iface w)) R) as (g1 & -> & R1); [done|]. simpl.
  destruct (pg_set_ok _ _ _ (job_done (iface w)) R1) as (g2 & -> & R2); [apply S|]. simpl.
  eexists _, _. split; [done|]. split; simpl; try done.
  - apply sync_set_done. by apply sync_other.
  - split; [done|]. rewrite elem_of_set, elem_of_without. intros [?|[? _]]; done.
Qed.

Lemma cancel_ok w r l : inv w r l -> allowed w UCancel -> next w UCancel r.
Proof.
  intros [R S J U P] [p Hp]. unfold next, exec. cbv zeta. rewrite Hp. simpl in Hp.
  assert (handler_requestcancel (iface w) = true) as Hc.
  { destruct (handler_requestcancel (iface w)); [done|]. by destruct (ph w) as [| |? ? []|]. }
  rewrite Hc in Hp. destruct J as (Jr & Jo & Jd). unfold PacketPassInterface_Sender_RequestCancel. rewrite Hc.
  destruct (ph w) as [|d n|d n c|d n] eqn:Eph; [done|..].
  - destruct P as (Hs & Hd & Hn & Hcr & Hj). simplify_eq. rewrite Hs in *. simpl. rewrite Hcr. simpl. rewrite Hs. simpl.
    destruct (pg_unset_ok _ _ _ (job_operation (iface w)) R) as (g1 & -> & R1); [apply S|]. simpl.
    destruct (pg_set_ok _ _ _ (job_done (iface w)) R1) as (g2 & -> & R2); [apply S|]. simpl.
    eexists _, _. split; [done|]. split; simpl; try done; [by apply sync_cancel|].
    split; [done|]. rewrite elem_of_set, elem_of_without. intros [?|[_ ?]]; done.
  - destruct P as (Hs & Hd & Hn & Hcr & Hj & Hh). rewrite Hs in *. simpl.
    destruct c; simplify_eq.
    + rewrite (proj1 Hcr eq_refl). simpl. rewrite Hs. simpl.
      destruct (pg_set_ok _ _ _ (job_requestcancel (iface w)) R) as (g1 & -> & R1); [done|]. simpl.
      eexists _, _. split; [done|]. split; simpl; try done.
      * rewrite Hs. by apply sync_other.
      * split_and!; try done; [by rewrite elem_of_set; split; [left|]|by right].
    + destruct (cancel_requested (iface w)) eqn:Ec; [|by destruct Hcr as [_ Hcr]; specialize (Hcr eq_refl)].
      eexists _, _. split; [done|]. split; simpl; try done; [by rewrite Hs|]. by rewrite Ec.
    + destruct (cancel_requested (iface w)) eqn:Ec; [|by destruct Hcr as [_ Hcr]; specialize (Hcr eq_refl)].
      eexists _, _. split; [done|]. split; simpl; try done; [by rewrite Hs|]. by rewrite Ec.
  - destruct P as (Hs & Hj). simplify_eq. rewrite Hs in *. simpl.
    destruct (cancel_requested (iface w)); simpl; rewrite ?Hs; simpl.
    + eexists _, _. split; [done|]. split; simpl; try done; by rewrite Hs.
    + eexists _, _. split; [done|]. split; simpl; try done; by rewrite Hs.
Qed.

Lemma other_ok w r l o : inv w r l -> allowed w (OtherSet o) -> next w (OtherSet o) r.
Proof.
  intros [R S J U P] (No & Nr & Nd & r' & l' & R' & Ho). unfold next, exec.
  destruct (pg_agree _ _ _ _ _ R R') as [-> ->].
  destruct (pg_set_ok _ _ _ o R Ho) as (g1 & E & R1). cbv zeta. rewrite E. simpl.
  eexists _, _. split; [done|]. split; simpl; try done; [by apply sync_other|].
  assert (forall q : positive, q <> o -> q ∈ o :: without o l <-> q ∈ l) as M.
  { intros q Hq. rewrite elem_of_set. split; [intros [?|?]; done|by right]. }
  destruct (ph w); rewrite ?M by congruence; done.
Qed.

Lemma execute_step w r l : inv w r l -> allowed w Execute -> next w Execute r.
Proof.
  intros [R S J U P] (r' & o & l' & R'). unfold next, exec. cbv zeta.
  destruct (pg_agree _ _ _ _ _ R R') as [-> <-]. destruct (pg_execute_ok _ _ _ _ R) as (g1 & E & R1).
  rewrite E. simpl. unfold run_job. destruct J as (Jr & Jo & Jd). destruct (pg_nodup _ _ _ R) as [Hn _].
  destruct (sync_front _ _ _ _ _ _ S) as [Fo Fd]. case_bool_decide as Eo; [|case_bool_decide as Er; [|case_bool_decide as Ed]].
  - subst o. specialize (Fo eq_refl). unfold _PacketPassInterface_job_operation. rewrite Fo in *. simpl.
    destruct (ph w); try (by destruct P). destruct P as (_ & <- & <- & Hcr & Hj). simpl.
    rewrite bool_decide_true, Z.eqb_refl by done. simpl. eexists _, _. split; [done|].
    apply not_elem_of_cons in Hj as [_ Hj]. split; simpl; try done; [by apply sync_pop_op|].
    split_and!; try done; by left.
  - subst o. unfold _PacketPassInterface_job_requestcancel.
    assert (job_requestcancel (iface w) ∈ job_requestcancel (iface w) :: l') as Hin by by left.
    destruct (ph w) as [|d n|d n c|d n]; try (by destruct P as [? ?]; destruct_and?).
    destruct P as (Hs & Hd & Hnn & Hcr & Hj & Hh). assert (c = Asked) as -> by by apply Hj.
    rewrite Hs in *. destruct (cancel_requested (iface w)) eqn:Ecr; [|by destruct Hcr as [_ Hcr]; specialize (Hcr eq_refl)].
    destruct Hh as [?|Hh]; [done|]. rewrite Hh. simpl. eexists _, _. split; [done|].
    apply list.NoDup_cons in Hn as [Hni _].
    split; simpl; try done; [rewrite Hs; by apply (sync_pop_other _ (job_requestcancel (iface w)))|].
    split_and!; try done; [by rewrite Ecr|by right].
  - subst o. specialize (Fd eq_refl). unfold _PacketPassInterface_job_done. rewrite Fd in *. simpl.
    destruct (ph w); try (by destruct P). destruct P as (_ & Hj). simpl. eexists _, _. split; [done|].
    apply not_elem_of_cons in Hj as [_ Hj]. split; simpl; try done. by apply sync_pop_done.
  - simpl. eexists _, _. split; [done|]. split; simpl; try done; [by eapply sync_pop_other|].
    assert (forall q : positive, q <> o -> q ∈ o :: l' <-> q ∈ l') as M.
    { intros q Hq. rewrite elem_of_cons. split; [intros [?|?]; done|by right]. }
    destruct (ph w); rewrite M in P by congruence; done.
Qed.

(** An interface made in the group [g], with or without cancellation, and given a user. *)
Definition start (g : Q) (mtu : Z) (jo jr jd : positive) (c : bool) : option world :=
  '(i, g) ← PacketPassInterface_Init g mtu jo jr jd;
  i ← (if c then PacketPassInterface_EnableCancel i else Some i);
  i ← PacketPassInterface_Sender_Init i;
  Some (mkw i g Idle).

Inductive reach (w0 : world) : world -> Prop :=
| reach_refl : reach w0 w0
| reach_step w e w' : reach w0 w -> allowed w e -> exec w e = Some w' -> reach w0 w'.

Definition fresh (r : gset positive) (jo jr jd : positive) : Prop :=
  (jo ∉ r) /\ (jr ∉ r) /\ (jd ∉ r) /\ jo <> jr /\ jo <> jd /\ jr <> jd.

Lemma start_ok g r l mtu jo jr jd c : pg_rep g r l -> 0 <= mtu -> fresh r jo jr jd ->
  exists w r', start g mtu jo jr jd c = Some w /\ inv w r' l /\ iface w = mk mtu c true jo None 0 jr jd NONE false.
Proof.
  intros R Hm (Ho & Hr & Hd & N1 & N2 & N3). unfold start, PacketPassInterface_Init. bool_true.
  assert (forall o, o ∉ r -> o ∉ l) as Hl by (intros o Hno Hin; apply Hno; by apply (pg_nodup _ _ _ R)).
  destruct (pg_init_ok _ _ _ jo R) as (g1 & -> & R1); [done|]. simpl.
  destruct (pg_init_ok _ _ _ jr R1) as (g2 & -> & R2); [by apply notin_add|]. simpl.
  destruct (pg_init_ok _ _ _ jd R2) as (g3 & -> & R3); [by do 2 (apply notin_add; [|done])|]. simpl.
  eexists _, _. split; [by destruct c|]. split; [|done]. split; simpl; try exact R3; try done.
  - split; [done|rewrite !elem_of_union, !elem_of_singleton; tauto|by split; [intros ?%Hl|]|by split; [intros ?%Hl|]].
  - split; [rewrite !elem_of_union, !elem_of_singleton; tauto|done].
  - split; [done|by apply Hl].
Qed.

Lemma exec_ok w r l e : inv w r l -> allowed w e -> next w e r.
Proof.
  intros I A. destruct e; [eapply send_ok|eapply cancel_ok|eapply done_ok|eapply execute_step|eapply other_ok]; done.
Qed.

Lemma reach_inv w0 w r l : inv w0 r l -> reach w0 w -> exists l', inv w r l'.
Proof.
  intros I. induction 1 as [|w e w' _ [l' IH] A E]; [by exists l|].
  destruct (exec_ok w r l' e IH A) as (w2 & l2 & E2 & I2). simplify_eq. by exists l2.
Qed.

(** the packet-pass interface keeps its contract, over any job queue.  From a freshly
    initialised interface, and while user and provider keep to the contract, every step (send,
    cancel, done, any job executed, jobs of other objects) runs without a violated assertion and
    every callback is one the contract allows: the provider gets the packet exactly as it was
    sent, at most one cancel request while it holds it, and the user gets one completion per
    send.  An operation that was started is never lost: its job is queued until it was executed.
    The user's view of a send is the one of [FlowView]. *)
Theorem packet_pass_protocol g r l mtu_ jo jr jd c w0 w :
  pg_rep g r l -> 0 <= mtu_ -> fresh r jo jr jd -> start g mtu_ jo jr jd c = Some w0 -> reach w0 w ->
  (forall e, allowed w e -> is_Some (exec w e)) /\
  (forall d n w', exec w (USend d n) = Some w' ->
     FlowView.PacketPassInterface_Sender_Send (view (ph w)) (mtu (iface w)) d n = Some (view (ph w'))) /\
  (exists r' l', pg_rep (group w) r' l' /\
     match ph w with
     | Requested _ _ => job_operation (iface w) ∈ l'
     | Held _ _ Asked => job_requestcancel (iface w) ∈ l'
     | Completed _ _ => job_done (iface w) ∈ l'
     | _ => True
     end).
Proof.
  intros R Hm F E0 Hw. destruct (start_ok g r l mtu_ jo jr jd c R Hm F) as (w1 & r' & E1 & I & _). simplify_eq.
  destruct (reach_inv _ _ _ _ I Hw) as [l' I']. split_and!.
  - intros e A. destruct (exec_ok w r' l' e I' A) as (w' & _ & E & _). by exists w'.
  - intros d n w' E. unfold exec in E. cbv zeta in E.
    destruct (PacketPassInterface_Sender_Send _ _ _ _) as [[i1 g1]|]; [|done]. simpl in E.
    destruct (ph w); try done. unfold FlowView.PacketPassInterface_Sender_Send. simpl.
    destruct (_ && _) eqn:Eb in E; [|done]. simplify_eq/=.
    apply andb_true_iff in Eb as [[E1' E2]%andb_true_iff Ed]. apply Z.leb_le in E1', E2. do 2 bool_true. by rewrite Ed.
  - exists r', l'. split; [apply I'|]. destruct I' as [_ S _ _ P]. destruct (ph w) as [|d n|d n []|d n]; try done.
    + apply S. by destruct P.
    + by destruct P as (_ & _ & _ & _ & P & _); apply P.
    + apply S. by destruct P.
Qed.

End PacketPass.

Arguments world Q : clear implicits.

(** Witness over the pointer-linked job queue: a packet of 5 bytes is sent and cancelled. *)
Definition demo_start : option (world (BPending.t positive)) := start BPending.BPendingGroup_Init 10 1 2 3 true.
Definition demo_none : world (BPending.t positive) :=
  mkw (mk 0 false false 1 None 0 1 1 NONE false) BPending.BPendingGroup_Init Idle.
Definition demo0 : world (BPending.t positive) := Eval vm_compute in default demo_none demo_start.
Definition demo1 : world (BPending.t positive) := Eval vm_compute in
  default demo_none (w ← exec demo0 (USend (Some 64) 5); exec w UCancel).

Lemma pp_demo_reach : reach demo0 demo1.
Proof.
  eapply (reach_step _ (default demo_none (exec demo0 (USend (Some 64) 5))) UCancel).
  - eapply (reach_step _ demo0 (USend (Some 64) 5)); [constructor|by eexists|vm_compute; reflexivity].
  - by eexists.
  - vm_compute. reflexivity.
Qed.

Lemma packet_pass_protocol_witness :
  exists r' l', pg_rep (group demo1) r' l' /\ job_done (iface demo1) ∈ l'.
Proof.
  apply (packet_pass_protocol BPending.BPendingGroup_Init ∅ [] 10 1 2 3 true demo0 demo1 bpending_rep_empty).
  - lia.
  - split_and!; try done; apply not_elem_of_empty.
  - vm_compute. reflexivity.
  - exact pp_demo_reach.
Defined.

End PacketPass.

(** ** PacketRecvInterface *)
Module PacketRecv.
Section PacketRecv.
Context {Q : Type} `{JobGroup Q}.

Record t := mk {
  mtu : Z;
  handler_done : bool;
  job_operation : positive;
  job_operation_data : option Z;
  job_done : positive;
  job_done_len : Z;
  state : if_state;
}.

Definition with_state (i : t) (s : if_state) : t :=
  mk (mtu i) (handler_done i) (job_operation i) (job_operation_data i) (job_done i) (job_done_len i) s.
Definition with_operation (i : t) (data : option Z) : t :=
  mk (mtu i) (handler_done i) (job_operation i) data (job_done i) (job_done_len i) (state i).
Definition with_done_len (i : t) (n : Z) : t :=
  mk (mtu i) (handler_done i) (job_operation i) (job_operation_data i) (job_done i) n (state i).

Definition PacketRecvInterface_Init (g : Q) (mtu : Z) (jo jd : positive) : option (t * Q) :=
  ASSERT mtu >=? 0;
  g ← pg_init g jo;
  g ← pg_init g jd;
  Some (mk mtu false jo None jd 0 NONE, g).
Definition PacketRecvInterface_Free (i : t) (g : Q) : option Q :=
  g ← pg_free g (job_done i);
  pg_free g (job_operation i).
Definition PacketRecvInterface_Done (i : t) (g : Q) (data_len : Z) : option (t * Q) :=
  ASSERT data_len >=? 0;
  ASSERT data_len <=? mtu i;
  ASSERT bool_decide (state i = BUSY);
  let i := with_done_len i data_len in
  g ← pg_set g (job_done i);
  Some (with_state i DONE_PENDING, g).
Definition PacketRecvInterface_GetMTU (i : t) : Z := mtu i.
Definition PacketRecvInterface_Receiver_Init (i : t) : option t :=
  ASSERT negb (handler_done i);
  Some (mk (mtu i) true (job_operation i) (job_operation_data i) (job_done i) (job_done_len i) (state i)).
Definition PacketRecvInterface_Receiver_Recv (i : t) (g : Q) (data : option Z) : option (t * Q) :=
  ASSERT negb (mtu i >? 0) || bool_decide (is_Some data);
  ASSERT bool_decide (state i = NONE);
  ASSERT handler_done i;
  let i := with_operation i data in
  g ← pg_set g (job_operation i);
  Some (with_state i OPERATION_PENDING, g).

Inductive upcall := handler_operation (data : option Z) | handler_completed (data_len : Z).

Definition _PacketRecvInterface_job_operation (i : t) : option (t * upcall) :=
  ASSERT bool_decide (state i = OPERATION_PENDING);
  Some (with_state i BUSY, handler_operation (job_operation_data i)).
Definition _PacketRecvInterface_job_done (i : t) : option (t * upcall) :=
  ASSERT bool_decide (state i = DONE_PENDING);
  Some (with_state i NONE, handler_completed (job_done_len i)).

Definition run_job (i : t) (o : positive) : option (t * option upcall) :=
  if bool_decide (o = job_operation i) then '(i, u) ← _PacketRecvInterface_job_operation i; Some (i, Some u)
  else if bool_decide (o = job_done i) then '(i, u) ← _PacketRecvInterface_job_done i; Some (i, Some u)
  else Some (i, None).

(** *** The contract *)
Inductive phase := Idle | Requested (data : option Z) | Held (data : option Z)
  | Completed (data : option Z) (k : Z).
Inductive action := Recv (data : option Z) | Done (k : Z) | Call (u : upcall).

Definition contract (mtu : Z) (ph : phase) (a : action) : option phase :=
  match a, ph with
  | Recv d, Idle => ASSERT negb (mtu >? 0) || bool_decide (is_Some d); Some (Requested d)
  | Done k, Held d => ASSERT (0 <=? k) && (k <=? mtu); Some (Completed d k)
  | Call (handler_operation d'), Requested d => ASSERT bool_decide (d' = d); Some (Held d)
  | Call (handler_completed k'), Completed d k => ASSERT k' =? k; Some Idle
  | _, _ => None
  end.

Definition view (ph : phase) : recv_view :=
  match ph with
  | Idle => RIdle
  | Requested d | Held d | Completed d _ => RBusy (default 0 d)
  end.

(** *** The interface in its environment *)
Inductive event := UStart (data : option Z) | PDone (k : Z) | Execute | OtherSet (o : positive).
Record world := mkw { iface : t; group : Q; ph : phase }.

Definition exec (w : world) (e : event) : option world :=
  let i := iface w in let c := contract (mtu i) in
  match e with
  | UStart d => '(i, g) ← PacketRecvInterface_Receiver_Recv i (group w) d; p ← c (ph w) (Recv d); Some (mkw i g p)
  | PDone k => '(i, g) ← PacketRecvInterface_Done i (group w) k; p ← c (ph w) (Done k); Some (mkw i g p)
  | Execute =>
      '(g, o) ← pg_execute (group w);
      '(i, u) ← run_job i o;
      p ← match u with Some u => c (ph w) (Call u) | None => Some (ph w) end;
      Some (mkw i g p)
  | OtherSet o => g ← pg_set (group w) o; Some (mkw i g (ph w))
  end.

Definition allowed (w : world) (e : event) : Prop :=
  let i := iface w in let c := contract (mtu i) (ph w) in
  match e with
  | UStart d => is_Some (c (Recv d))
  | PDone k => is_Some (c (Done k))
  | Execute => exists r o l, pg_rep (group w) r (o :: l)
  | OtherSet o => o <> job_operation i /\ o <> job_done i /\ exists r l, pg_rep (group w) r l /\ o ∈ r
  end.

Record inv (w : world) (r : gset positive) (l : list positive) : Prop := {
  i_rep : pg_rep (group w) r l;
  i_sync : in_sync (state (iface w)) (job_operation (iface w)) (job_done (iface w)) r l;
  i_user : handler_done (iface w) = true;
  i_phase : match ph w with
    | Idle => state (iface w) = NONE
    | Requested d => state (iface w) = OPERATION_PENDING /\ job_operation_data (iface w) = d
    | Held d => state (iface w) = BUSY
    | Completed _ k => state (iface w) = DONE_PENDING /\ job_done_len (iface w) = k
    end;
}.

Lemma packet_recv_exec_ok w r l e : inv w r l -> allowed w e -> exists w' l', exec w e = Some w' /\ inv w' r l'.
Proof.
  intros [R S U P] A. destruct e as [d|k| |o]; unfold exec; cbv zeta.
  - destruct A as [p Hp]. rewrite Hp. simpl in Hp. destruct (ph w); try done.
    destruct (_ || _) eqn:E in Hp; [|done]. simplify_eq. rewrite P in S.
    unfold PacketRecvInterface_Receiver_Recv. rewrite E, P, U. simpl.
    destruct (pg_set_ok _ _ _ (job_operation (iface w)) R) as (g' & -> & R'); [apply S|]. simpl.
    eexists _, _. split; [done|]. split; simpl; try done. by apply sync_set_op.
  - destruct A as [p Hp]. rewrite Hp. simpl in Hp. destruct (ph w); try done.
    destruct (_ && _) eqn:E in Hp; [|done]. simplify_eq. rename P into Hs.
    apply andb_true_iff in E as [E1 E2]. apply Z.leb_le in E1, E2. unfold PacketRecvInterface_Done. do 2 bool_true. rewrite Hs in *. simpl.
    destruct (pg_set_ok _ _ _ (job_done (iface w)) R) as (g' & -> & R'); [apply S|]. simpl.
    eexists _, _. split; [done|]. split; simpl; try done. by apply sync_set_done.
  - destruct A as (r' & o & l' & R'). destruct (pg_agree _ _ _ _ _ R R') as [-> <-].
    destruct (pg_execute_ok _ _ _ _ R) as (g1 & E & R1). rewrite E. simpl. unfold run_job.
    destruct (pg_nodup _ _ _ R) as [Hn _]. destruct (sync_front _ _ _ _ _ _ S) as [Fo Fd].
    case_bool_decide as Eo; [|case_bool_decide as Ed].
    + subst o. specialize (Fo eq_refl). unfold _PacketRecvInterface_job_operation. rewrite Fo in *. simpl.
      destruct (ph w); try done; try (by destruct P). destruct P as (_ & <-). simpl.
      rewrite bool_decide_true by done. simpl. eexists _, _. split; [done|]. split; simpl; try done. by apply sync_pop_op.
    + subst o. specialize (Fd eq_refl). unfold _PacketRecvInterface_job_done. rewrite Fd in *. simpl.
      destruct (ph w); try done; try (by destruct P). destruct P as (_ & <-). simpl. rewrite Z.eqb_refl.
      eexists _, _. split; [done|]. split; simpl; try done. by apply sync_pop_done.
    + simpl. eexists _, _. split; [done|]. split; simpl; try done. by eapply sync_pop_other.
  - destruct A as (No & Nd & r' & l' & R' & Ho). destruct (pg_agree _ _ _ _ _ R R') as [-> ->].
    destruct (pg_set_ok _ _ _ o R Ho) as (g1 & E & R1). rewrite E. simpl.
    eexists _, _. split; [done|]. split; simpl; try done. by apply sync_other.
Qed.

Definition start (g : Q) (mtu : Z) (jo jd : positive) : option world :=
  '(i, g) ← PacketRecvInterface_Init g mtu jo jd;
  i ← PacketRecvInterface_Receiver_Init i;
  Some (mkw i g Idle).

Inductive reach (w0 : world) : world -> Prop :=
| reach_refl : reach w0 w0
| reach_step w e w' : reach w0 w -> allowed w e -> exec w e = Some w' -> reach w0 w'.

Lemma packet_recv_reach_inv g r l mtu_ jo jd w0 w : pg_rep g r l -> 0 <= mtu_ -> (jo ∉ r) -> (jd ∉ r) -> jo <> jd ->
  start g mtu_ jo jd = Some w0 -> reach w0 w -> exists r' l', inv w r' l'.
Proof.
  intros R Hm Ho Hd N E0. assert (exists r', inv w0 r' l) as [r' I].
  { revert E0. unfold start, PacketRecvInterface_Init. bool_true.
    assert (forall o, o ∉ r -> o ∉ l) as Hl by (intros o Hno Hin; apply Hno; by apply (pg_nodup _ _ _ R)).
    destruct (pg_init_ok _ _ _ jo R) as (g1 & -> & R1); [done|]. simpl.
    destruct (pg_init_ok _ _ _ jd R1) as (g2 & -> & R2); [by apply notin_add|]. simpl.
    intros E0. simplify_eq. exists ({[jd]} ∪ ({[jo]} ∪ r)). split; simpl; try done. by apply sync_init. }
  induction 1 as [|w e w' _ (r1 & l1 & IH) A E]; [by exists r', l|].
  destruct (packet_recv_exec_ok w r1 l1 e IH A) as (w2 & l2 & E2 & I2). simplify_eq. by exists r1, l2.
Qed.

(** The packet-receive interface keeps its contract, over any job queue: while user and
    provider keep to it, every step runs without a violated assertion; the provider gets the
    destination exactly as the user gave it, and the user one completion per receive, with the
    length the provider reported; started operations are never lost.  The user's view is the one
    of [FlowView]. *)
Theorem packet_recv_protocol g r l mtu_ jo jd w0 w :
  pg_rep g r l -> 0 <= mtu_ -> (jo ∉ r) -> (jd ∉ r) -> jo <> jd -> start g mtu_ jo jd = Some w0 -> reach w0 w ->
  (forall e, allowed w e -> is_Some (exec w e)) /\
  (forall d w', exec w (UStart d) = Some w' ->
     FlowView.PacketRecvInterface_Receiver_Recv (view (ph w)) (mtu (iface w)) d = Some (view (ph w'))) /\
  (exists r' l', pg_rep (group w) r' l' /\
     match ph w with
     | Requested _ => job_operation (iface w) ∈ l'
     | Completed _ _ => job_done (iface w) ∈ l'
     | _ => True
     end).
Proof.
  intros R Hm Ho Hd N E0 Hw. destruct (packet_recv_reach_inv g r l mtu_ jo jd w0 w) as (r' & l' & I); [done..|]. split_and!.
  - intros e A. destruct (packet_recv_exec_ok w r' l' e I A) as (w' & _ & E & _). by exists w'.
  - intros d w' E. unfold exec in E. cbv zeta in E. destruct (PacketRecvInterface_Receiver_Recv _ _ _) as [[i1 g1]|]; [|done].
    simpl in E. destruct (ph w); try done. unfold FlowView.PacketRecvInterface_Receiver_Recv. simpl.
    destruct (_ || _) eqn:Eb in E; [|done]. simplify_eq/=. by rewrite Eb.
  - exists r', l'. split; [apply I|]. destruct I as [_ S _ P]. destruct (ph w); try done; apply S; by destruct P.
Qed.

End PacketRecv.
Arguments world Q : clear implicits.

Definition demo0 : world (BPending.t positive) := Eval vm_compute in
  default (mkw (mk 0 false 1 None 1 0 NONE) BPending.BPendingGroup_Init Idle) (start BPending.BPendingGroup_Init 10 1 2).
Definition demo1 : world (BPending.t positive) := Eval vm_compute in
  default demo0 (w ← exec demo0 (UStart (Some 64)); w ← exec w Execute; exec w (PDone 5)).
Lemma packet_recv_demo_reach : reach demo0 demo1.
Proof.
  eapply (reach_step _ (default demo0 (w ← exec demo0 (UStart (Some 64)); exec w Execute)) (PDone 5)).
  - eapply (reach_step _ (default demo0 (exec demo0 (UStart (Some 64)))) Execute).
    + eapply (reach_step _ demo0 (UStart (Some 64))); [constructor|by eexists|vm_compute; reflexivity].
    + destruct (packet_recv_reach_inv BPending.BPendingGroup_Init ∅ [] 10 1 2 demo0 (default demo0 (exec demo0 (UStart (Some 64)))))
        as (r & l & I); try done; try apply not_elem_of_empty; try exact bpending_rep_empty; try lia.
      * eapply (reach_step _ demo0 (UStart (Some 64))); [constructor|by eexists|vm_compute; reflexivity].
      * exists r. assert (job_operation (iface (default demo0 (exec demo0 (UStart (Some 64))))) ∈ l) as Hl by (apply I; reflexivity).
        destruct l as [|o l]; [by apply not_elem_of_nil in Hl|]. exists o, l. apply I.
    + vm_compute. reflexivity.
  - by eexists.
  - vm_compute. reflexivity.
Qed.

Lemma packet_recv_protocol_witness : exists r' l', pg_rep (group demo1) r' l' /\ job_done (iface demo1) ∈ l'.
Proof.
  apply (packet_recv_protocol BPending.BPendingGroup_Init ∅ [] 10 1 2 demo0 demo1 bpending_rep_empty ltac:(lia)).
  - apply not_elem_of_empty.
  - apply not_elem_of_empty.
  - done.
  - vm_compute. reflexivity.
  - exact packet_recv_demo_reach.
Defined.

End PacketRecv.

(** ** StreamRecvInterface *)
Module StreamRecv.
Section StreamRecv.
Context {Q : Type} `{JobGroup Q}.

Record t := mk {
  handler_done : bool;
  job_operation : positive;
  job_operation_data : option Z;
  job_operation_len : Z;
  job_done : positive;
  job_done_len : Z;
  state : if_state;
}.

Definition with_state (i : t) (s : if_state) : t :=
  mk (handler_done i) (job_operation i) (job_operation_data i) (job_operation_len i) (job_done i) (job_done_len i) s.
Definition with_operation (i : t) (data : option Z) (len : Z) : t :=
  mk (handler_done i) (job_operation i) data len (job_done i) (job_done_len i) (state i).
Definition with_done_len (i : t) (n : Z) : t :=
  mk (handler_done i) (job_operation i) (job_operation_data i) (job_operation_len i) (job_done i) n (state i).

Definition StreamRecvInterface_Init (g : Q) (jo jd : positive) : option (t * Q) :=
  g ← pg_init g jo;
  g ← pg_init g jd;
  Some (mk false jo None 0 jd 0 NONE, g).
Definition StreamRecvInterface_Free (i : t) (g : Q) : option Q :=
  g ← pg_free g (job_done i);
  pg_free g (job_operation i).
Definition StreamRecvInterface_Done (i : t) (g : Q) (data_len : Z) : option (t * Q) :=
  ASSERT bool_decide (state i = BUSY);
  ASSERT data_len >? 0;
  ASSERT data_len <=? job_operation_len i;
  let i := with_done_len i data_len in
  g ← pg_set g (job_done i);
  Some (with_state i DONE_PENDING, g).
Definition StreamRecvInterface_Receiver_Init (i : t) : option t :=
  ASSERT negb (handler_done i);
  Some (mk true (job_operation i) (job_operation_data i) (job_operation_len i) (job_done i) (job_done_len i) (state i)).
Definition StreamRecvInterface_Receiver_Recv (i : t) (g : Q) (data : option Z) (len : Z) : option (t * Q) :=
  ASSERT len >? 0;
  ASSERT bool_decide (is_Some data);
  ASSERT bool_decide (state i = NONE);
  ASSERT handler_done i;
  let i := with_operation i data len in
  g ← pg_set g (job_operation i);
  Some (with_state i OPERATION_PENDING, g).

Inductive upcall := handler_operation (data : option Z) (len : Z) | handler_completed (data_len : Z).

Definition _StreamRecvInterface_job_operation (i : t) : option (t * upcall) :=
  ASSERT bool_decide (state i = OPERATION_PENDING);
  Some (with_state i BUSY, handler_operation (job_operation_data i) (job_operation_len i)).
Definition _StreamRecvInterface_job_done (i : t) : option (t * upcall) :=
  ASSERT bool_decide (state i = DONE_PENDING);
  Some (with_state i NONE, handler_completed (job_done_len i)).

Definition run_job (i : t) (o : positive) : option (t * option upcall) :=
  if bool_decide (o = job_operation i) then '(i, u) ← _StreamRecvInterface_job_operation i; Some (i, Some u)
  else if bool_decide (o = job_done i) then '(i, u) ← _StreamRecvInterface_job_done i; Some (i, Some u)
  else Some (i, None).

(** *** The contract *)
Inductive phase := Idle | Requested (data : option Z) (len : Z) | Held (data : option Z) (len : Z)
  | Completed (data : option Z) (len : Z) (k : Z).
Inductive action := Recv (data : option Z) (len : Z) | Done (k : Z) | Call (u : upcall).

Definition contract (ph : phase) (a : action) : option phase :=
  match a, ph with
  | Recv d n, Idle => ASSERT (n >? 0) && bool_decide (is_Some d); Some (Requested d n)
  | Done k, Held d n => ASSERT (k >? 0) && (k <=? n); Some (Completed d n k)
  | Call (handler_operation d' n'), Requested d n => ASSERT bool_decide (d' = d) && (n' =? n); Some (Held d n)
  | Call (handler_completed k'), Completed d n k => ASSERT k' =? k; Some Idle
  | _, _ => None
  end.

Definition view (ph : phase) : srecv_view :=
  match ph with
  | Idle => SRIdle
  | Requested d n | Held d n | Completed d n _ => SRBusy (default 0 d) n
  end.

(** *** The interface in its environment *)
Inductive event := UStart (data : option Z) (len : Z) | PDone (k : Z) | Execute | OtherSet (o : positive).
Record world := mkw { iface : t; group : Q; ph : phase }.

Definition exec (w : world) (e : event) : option world :=
  let i := iface w in let c := contract in
  match e with
  | UStart d n => '(i, g) ← StreamRecvInterface_Receiver_Recv i (group w) d n; p ← c (ph w) (Recv d n); Some (mkw i g p)
  | PDone k => '(i, g) ← StreamRecvInterface_Done i (group w) k; p ← c (ph w) (Done k); Some (mkw i g p)
  | Execute =>
      '(g, o) ← pg_execute (group w);
      '(i, u) ← run_job i o;
      p ← match u with Some u => c (ph w) (Call u) | None => Some (ph w) end;
      Some (mkw i g p)
  | OtherSet o => g ← pg_set (group w) o; Some (mkw i g (ph w))
  end.

Definition allowed (w : world) (e : event) : Prop :=
  let i := iface w in let c := contract (ph w) in
  match e with
  | UStart d n => is_Some (c (Recv d n))
  | PDone k => is_Some (c (Done k))
  | Execute => exists r o l, pg_rep (group w) r (o :: l)
  | OtherSet o => o <> job_operation i /\ o <> job_done i /\ exists r l, pg_rep (group w) r l /\ o ∈ r
  end.

Record inv (w : world) (r : gset positive) (l : list positive) : Prop := {
  i_rep : pg_rep (group w) r l;
  i_sync : in_sync (state (iface w)) (job_operation (iface w)) (job_done (iface w)) r l;
  i_user : handler_done (iface w) = true;
  i_phase : match ph w with
    | Idle => state (iface w) = NONE
    | Requested d n => state (iface w) = OPERATION_PENDING /\ job_operation_data (iface w) = d /\ job_operation_len (iface w) = n
    | Held d n => state (iface w) = BUSY /\ job_operation_len (iface w) = n
    | Completed _ _ k => state (iface w) = DONE_PENDING /\ job_done_len (iface w) = k
    end;
}.

Lemma stream_recv_exec_ok w r l e : inv w r l -> allowed w e -> exists w' l', exec w e = Some w' /\ inv w' r l'.
Proof.
  intros [R S U P] A. destruct e as [d n|k| |o]; unfold exec; cbv zeta.
  - destruct A as [p Hp]. rewrite Hp. simpl in Hp. destruct (ph w); try done.
    destruct (_ && _) eqn:E in Hp; [|done]. simplify_eq. rewrite P in S.
    unfold StreamRecvInterface_Receiver_Recv. apply andb_true_iff in E as [E1 E2]. rewrite E1, E2, P, U. simpl.
    destruct (pg_set_ok _ _ _ (job_operation (iface w)) R) as (g' & -> & R'); [apply S|]. simpl.
    eexists _, _. split; [done|]. split; simpl; try done. by apply sync_set_op.
  - destruct A as [p Hp]. rewrite Hp. simpl in Hp. destruct (ph w); try done.
    destruct (_ && _) eqn:E in Hp; [|done]. simplify_eq. destruct P as [Hs <-].
    apply andb_true_iff in E as [E1 E2]. unfold StreamRecvInterface_Done. rewrite Hs, E1, E2. rewrite Hs in *. simpl.
    destruct (pg_set_ok _ _ _ (job_done (iface w)) R) as (g' & -> & R'); [apply S|]. simpl.
    eexists _, _. split; [done|]. split; simpl; try done. by apply sync_set_done.
  - destruct A as (r' & o & l' & R'). destruct (pg_agree _ _ _ _ _ R R') as [-> <-].
    destruct (pg_execute_ok _ _ _ _ R) as (g1 & E & R1). rewrite E. simpl. unfold run_job.
    destruct (pg_nodup _ _ _ R) as [Hn _]. destruct (sync_front _ _ _ _ _ _ S) as [Fo Fd].
    case_bool_decide as Eo; [|case_bool_decide as Ed].
    + subst o. specialize (Fo eq_refl). unfold _StreamRecvInterface_job_operation. rewrite Fo in *. simpl.
      destruct (ph w); try done; try (by destruct P). destruct P as (_ & <- & <-). simpl.
      rewrite bool_decide_true, Z.eqb_refl by done. simpl. eexists _, _. split; [done|]. split; simpl; try done. by apply sync_pop_op.
    + subst o. specialize (Fd eq_refl). unfold _StreamRecvInterface_job_done. rewrite Fd in *. simpl.
      destruct (ph w); try done; try (by destruct P). destruct P as (_ & <-). simpl. rewrite Z.eqb_refl.
      eexists _, _. split; [done|]. split; simpl; try done. by apply sync_pop_done.
    + simpl. eexists _, _. split; [done|]. split; simpl; try done. by eapply sync_pop_other.
  - destruct A as (No & Nd & r' & l' & R' & Ho). destruct (pg_agree _ _ _ _ _ R R') as [-> ->].
    destruct (pg_set_ok _ _ _ o R Ho) as (g1 & E & R1). rewrite E. simpl.
    eexists _, _. split; [done|]. split; simpl; try done. by apply sync_other.
Qed.

Definition start (g : Q) (jo jd : positive) : option world :=
  '(i, g) ← StreamRecvInterface_Init g jo jd;
  i ← StreamRecvInterface_Receiver_Init i;
  Some (mkw i g Idle).

Inductive reach (w0 : world) : world -> Prop :=
| reach_refl : reach w0 w0
| reach_step w e w' : reach w0 w -> allowed w e -> exec w e = Some w' -> reach w0 w'.

Lemma stream_recv_reach_inv g r l jo jd w0 w : pg_rep g r l -> (jo ∉ r) -> (jd ∉ r) -> jo <> jd ->
  start g jo jd = Some w0 -> reach w0 w -> exists r' l', inv w r' l'.
Proof.
  intros R Ho Hd N E0. assert (exists r', inv w0 r' l) as [r' I].
  { revert E0. unfold start, StreamRecvInterface_Init. 
    assert (forall o, o ∉ r -> o ∉ l) as Hl by (intros o Hno Hin; apply Hno; by apply (pg_nodup _ _ _ R)).
    destruct (pg_init_ok _ _ _ jo R) as (g1 & -> & R1); [done|]. simpl.
    destruct (pg_init_ok _ _ _ jd R1) as (g2 & -> & R2); [by apply notin_add|]. simpl.
    intros E0. simplify_eq. exists ({[jd]} ∪ ({[jo]} ∪ r)). split; simpl; try done. by apply sync_init. }
  induction 1 as [|w e w' _ (r1 & l1 & IH) A E]; [by exists r', l|].
  destruct (stream_recv_exec_ok w r1 l1 e IH A) as (w2 & l2 & E2 & I2). simplify_eq. by exists r1, l2.
Qed.

(** The stream-receive interface keeps its contract, over any job queue: while user and
    provider keep to it, every step runs without a violated assertion; the provider gets the
    region exactly as the user gave it, the user one completion per operation, for at least one
    and at most the offered number of bytes; started operations are never lost.  The user's view
    is the one of [FlowView]. *)
Theorem stream_recv_protocol g r l jo jd w0 w :
  pg_rep g r l -> (jo ∉ r) -> (jd ∉ r) -> jo <> jd -> start g jo jd = Some w0 -> reach w0 w ->
  (forall e, allowed w e -> is_Some (exec w e)) /\
  (forall d n w', exec w (UStart d n) = Some w' ->
     FlowView.StreamRecvInterface_Receiver_Recv (view (ph w)) (default 0 d) n = Some (view (ph w'))) /\
  (exists r' l', pg_rep (group w) r' l' /\
     match ph w with
     | Requested _ _ => job_operation (iface w) ∈ l'
     | Completed _ _ _ => job_done (iface w) ∈ l'
     | _ => True
     end).
Proof.
  intros R Ho Hd N E0 Hw. destruct (stream_recv_reach_inv g r l jo jd w0 w) as (r' & l' & I); [done..|]. split_and!.
  - intros e A. destruct (stream_recv_exec_ok w r' l' e I A) as (w' & _ & E & _). by exists w'.
  - intros d n w' E. unfold exec in E. cbv zeta in E. destruct (StreamRecvInterface_Receiver_Recv _ _ _ _) as [[i1 g1]|]; [|done].
    simpl in E. destruct (ph w); try done. unfold FlowView.StreamRecvInterface_Receiver_Recv. simpl.
    destruct (_ && _) eqn:Eb in E; [|done]. simplify_eq/=. apply andb_true_iff in Eb as [Eb _]. by rewrite Eb.
  - exists r', l'. split; [apply I|]. destruct I as [_ S _ P]. destruct (ph w); try done; apply S; by destruct P.
Qed.

End StreamRecv.
Arguments world Q : clear implicits.

Definition demo0 : world (BPending.t positive) := Eval vm_compute in
  default (mkw (mk false 1 None 0 1 0 NONE) BPending.BPendingGroup_Init Idle) (start BPending.BPendingGroup_Init 1 2).
Definition demo1 : world (BPending.t positive) := Eval vm_compute in
  default demo0 (w ← exec demo0 (UStart (Some 64) 8); w ← exec w Execute; exec w (PDone 5)).
Lemma stream_recv_demo_reach : reach demo0 demo1.
Proof.
  eapply (reach_step _ (default demo0 (w ← exec demo0 (UStart (Some 64) 8); exec w Execute)) (PDone 5)).
  - eapply (reach_step _ (default demo0 (exec demo0 (UStart (Some 64) 8))) Execute).
    + eapply (reach_step _ demo0 (UStart (Some 64) 8)); [constructor|by eexists|vm_compute; reflexivity].
    + destruct (stream_recv_reach_inv BPending.BPendingGroup_Init ∅ [] 1 2 demo0 (default demo0 (exec demo0 (UStart (Some 64) 8))))
        as (r & l & I); try done; try apply not_elem_of_empty; try exact bpending_rep_empty; try lia.
      * eapply (reach_step _ demo0 (UStart (Some 64) 8)); [constructor|by eexists|vm_compute; reflexivity].
      * exists r. assert (job_operation (iface (default demo0 (exec demo0 (UStart (Some 64) 8)))) ∈ l) as Hl by (apply I; reflexivity).
        destruct l as [|o l]; [by apply not_elem_of_nil in Hl|]. exists o, l. apply I.
    + vm_compute. reflexivity.
  - by eexists.
  - vm_compute. reflexivity.
Qed.

Lemma stream_recv_protocol_witness : exists r' l', pg_rep (group demo1) r' l' /\ job_done (iface demo1) ∈ l'.
Proof.
  apply (stream_recv_protocol BPending.BPendingGroup_Init ∅ [] 1 2 demo0 demo1 bpending_rep_empty).
  - apply not_elem_of_empty.
  - apply not_elem_of_empty.
  - done.
  - vm_compute. reflexivity.
  - exact stream_recv_demo_reach.
Defined.

End StreamRecv.

(** ** StreamPassInterface *)
Module StreamPass.
Section StreamPass.
Context {Q : Type} `{JobGroup Q}.

Record t := mk {
  handler_done : bool;
  job_operation : positive;
  job_operation_data : option Z;
  job_operation_len : Z;
  job_done : positive;
  job_done_len : Z;
  state : if_state;
}.

Definition with_state (i : t) (s : if_state) : t :=
  mk (handler_done i) (job_operation i) (job_operation_data i) (job_operation_len i) (job_done i) (job_done_len i) s.
Definition with_operation (i : t) (data : option Z) (len : Z) : t :=
  mk (handler_done i) (job_operation i) data len (job_done i) (job_done_len i) (state i).
Definition with_done_len (i : t) (n : Z) : t :=
  mk (handler_done i) (job_operation i) (job_operation_data i) (job_operation_len i) (job_done i) n (state i).

Definition StreamPassInterface_Init (g : Q) (jo jd : positive) : option (t * Q) :=
  g ← pg_init g jo;
  g ← pg_init g jd;
  Some (mk false jo None 0 jd 0 NONE, g).
Definition StreamPassInterface_Free (i : t) (g : Q) : option Q :=
  g ← pg_free g (job_done i);
  pg_free g (job_operation i).
Definition StreamPassInterface_Done (i : t) (g : Q) (data_len : Z) : option (t * Q) :=
  ASSERT bool_decide (state i = BUSY);
  ASSERT data_len >? 0;
  ASSERT data_len <=? job_operation_len i;
  let i := with_done_len i data_len in
  g ← pg_set g (job_done i);
  Some (with_state i DONE_PENDING, g).
Definition StreamPassInterface_Sender_Init (i : t) : option t :=
  ASSERT negb (handler_done i);
  Some (mk true (job_operation i) (job_operation_data i) (job_operation_len i) (job_done i) (job_done_len i) (state i)).
Definition StreamPassInterface_Sender_Send (i : t) (g : Q) (data : option Z) (len : Z) : option (t * Q) :=
  ASSERT len >? 0;
  ASSERT bool_decide (is_Some data);
  ASSERT bool_decide (state i = NONE);
  ASSERT handler_done i;
  let i := with_operation i data len in
  g ← pg_set g (job_operation i);
  Some (with_state i OPERATION_PENDING, g).

Inductive upcall := handler_operation (data : option Z) (len : Z) | handler_completed (data_len : Z).

Definition _StreamPassInterface_job_operation (i : t) : option (t * upcall) :=
  ASSERT bool_decide (state i = OPERATION_PENDING);
  Some (with_state i BUSY, handler_operation (job_operation_data i) (job_operation_len i)).
Definition _StreamPassInterface_job_done (i : t) : option (t * upcall) :=
  ASSERT bool_decide (state i = DONE_PENDING);
  Some (with_state i NONE, handler_completed (job_done_len i)).

Definition run_job (i : t) (o : positive) : option (t * option upcall) :=
  if bool_decide (o = job_operation i) then '(i, u) ← _StreamPassInterface_job_operation i; Some (i, Some u)
  else if bool_decide (o = job_done i) then '(i, u) ← _StreamPassInterface_job_done i; Some (i, Some u)
  else Some (i, None).

(** *** The contract *)
Inductive phase := Idle | Requested (data : option Z) (len : Z) | Held (data : option Z) (len : Z)
  | Completed (data : option Z) (len : Z) (k : Z).
Inductive action := Send (data : option Z) (len : Z) | Done (k : Z) | Call (u : upcall).

Definition contract (ph : phase) (a : action) : option phase :=
  match a, ph with
  | Send d n, Idle => ASSERT (n >? 0) && bool_decide (is_Some d); Some (Requested d n)
  | Done k, Held d n => ASSERT (k >? 0) && (k <=? n); Some (Completed d n k)
  | Call (handler_operation d' n'), Requested d n => ASSERT bool_decide (d' = d) && (n' =? n); Some (Held d n)
  | Call (handler_completed k'), Completed d n k => ASSERT k' =? k; Some Idle
  | _, _ => None
  end.

Definition view (ph : phase) : spass_view :=
  match ph with
  | Idle => SPIdle
  | Requested d n | Held d n | Completed d n _ => SPBusy (default 0 d) n
  end.

(** *** The interface in its environment *)
Inductive event := UStart (data : option Z) (len : Z) | PDone (k : Z) | Execute | OtherSet (o : positive).
Record world := mkw { iface : t; group : Q; ph : phase }.

Definition exec (w : world) (e : event) : option world :=
  let i := iface w in let c := contract in
  match e with
  | UStart d n => '(i, g) ← StreamPassInterface_Sender_Send i (group w) d n; p ← c (ph w) (Send d n); Some (mkw i g p)
  | PDone k => '(i, g) ← StreamPassInterface_Done i (group w) k; p ← c (ph w) (Done k); Some (mkw i g p)
  | Execute =>
      '(g, o) ← pg_execute (group w);
      '(i, u) ← run_job i o;
      p ← match u with Some u => c (ph w) (Call u) | None => Some (ph w) end;
      Some (mkw i g p)
  | OtherSet o => g ← pg_set (group w) o; Some (mkw i g (ph w))
  end.

Definition allowed (w : world) (e : event) : Prop :=
  let i := iface w in let c := contract (ph w) in
  match e with
  | UStart d n => is_Some (c (Send d n))
  | PDone k => is_Some (c (Done k))
  | Execute => exists r o l, pg_rep (group w) r (o :: l)
  | OtherSet o => o <> job_operation i /\ o <> job_done i /\ exists r l, pg_rep (group w) r l /\ o ∈ r
  end.

Record inv (w : world) (r : gset positive) (l : list positive) : Prop := {
  i_rep : pg_rep (group w) r l;
  i_sync : in_sync (state (iface w)) (job_operation (iface w)) (job_done (iface w)) r l;
  i_user : handler_done (iface w) = true;
  i_phase : match ph w with
    | Idle => state (iface w) = NONE
    | Requested d n => state (iface w) = OPERATION_PENDING /\ job_operation_data (iface w) = d /\ job_operation_len (iface w) = n
    | Held d n => state (iface w) = BUSY /\ job_operation_len (iface w) = n
    | Completed _ _ k => state (iface w) = DONE_PENDING /\ job_done_len (iface w) = k
    end;
}.

Lemma stream_pass_exec_ok w r l e : inv w r l -> allowed w e -> exists w' l', exec w e = Some w' /\ inv w' r l'.
Proof.
  intros [R S U P] A. destruct e as [d n|k| |o]; unfold exec; cbv zeta.
  - destruct A as [p Hp]. rewrite Hp. simpl in Hp. destruct (ph w); try done.
    destruct (_ && _) eqn:E in Hp; [|done]. simplify_eq. rewrite P in S.
    unfold StreamPassInterface_Sender_Send. apply andb_true_iff in E as [E1 E2]. rewrite E1, E2, P, U. simpl.
    destruct (pg_set_ok _ _ _ (job_operation (iface w)) R) as (g' & -> & R'); [apply S|]. simpl.
    eexists _, _. split; [done|]. split; simpl; try done. by apply sync_set_op.
  - destruct A as [p Hp]. rewrite Hp. simpl in Hp. destruct (ph w); try done.
    destruct (_ && _) eqn:E in Hp; [|done]. simplify_eq. destruct P as [Hs <-].
    apply andb_true_iff in E as [E1 E2]. unfold StreamPassInterface_Done. rewrite Hs, E1, E2. rewrite Hs in *. simpl.
    destruct (pg_set_ok _ _ _ (job_done (iface w)) R) as (g' & -> & R'); [apply S|]. simpl.
    eexists _, _. split; [done|]. split; simpl; try done. by apply sync_set_done.
  - destruct A as (r' & o & l' & R'). destruct (pg_agree _ _ _ _ _ R R') as [-> <-].
    destruct (pg_execute_ok _ _ _ _ R) as (g1 & E & R1). rewrite E. simpl. unfold run_job.
    destruct (pg_nodup _ _ _ R) as [Hn _]. destruct (sync_front _ _ _ _ _ _ S) as [Fo Fd].
    case_bool_decide as Eo; [|case_bool_decide as Ed].
    + subst o. specialize (Fo eq_refl). unfold _StreamPassInterface_job_operation. rewrite Fo in *. simpl.
      destruct (ph w); try done; try (by destruct P). destruct P as (_ & <- & <-). simpl.
      rewrite bool_decide_true, Z.eqb_refl by done. simpl. eexists _, _. split; [done|]. split; simpl; try done. by apply sync_pop_op.
    + subst o. specialize (Fd eq_refl). unfold _StreamPassInterface_job_done. rewrite Fd in *. simpl.
      destruct (ph w); try done; try (by destruct P). destruct P as (_ & <-). simpl. rewrite Z.eqb_refl.
      eexists _, _. split; [done|]. split; simpl; try done. by apply sync_pop_done.
    + simpl. eexists _, _. split; [done|]. split; simpl; try done. by eapply sync_pop_other.
  - destruct A as (No & Nd & r' & l' & R' & Ho). destruct (pg_agree _ _ _ _ _ R R') as [-> ->].
    destruct (pg_set_ok _ _ _ o R Ho) as (g1 & E & R1). rewrite E. simpl.
    eexists _, _. split; [done|]. split; simpl; try done. by apply sync_other.
Qed.

Definition start (g : Q) (jo jd : positive) : option world :=
  '(i, g) ← StreamPassInterface_Init g jo jd;
  i ← StreamPassInterface_Sender_Init i;
  Some (mkw i g Idle).

Inductive reach (w0 : world) : world -> Prop :=
| reach_refl : reach w0 w0
| reach_step w e w' : reach w0 w -> allowed w e -> exec w e = Some w' -> reach w0 w'.

Lemma stream_pass_reach_inv g r l jo jd w0 w : pg_rep g r l -> (jo ∉ r) -> (jd ∉ r) -> jo <> jd ->
  start g jo jd = Some w0 -> reach w0 w -> exists r' l', inv w r' l'.
Proof.
  intros R Ho Hd N E0. assert (exists r', inv w0 r' l) as [r' I].
  { revert E0. unfold start, StreamPassInterface_Init. 
    assert (forall o, o ∉ r -> o ∉ l) as Hl by (intros o Hno Hin; apply Hno; by apply (pg_nodup _ _ _ R)).
    destruct (pg_init_ok _ _ _ jo R) as (g1 & -> & R1); [done|]. simpl.
    destruct (pg_init_ok _ _ _ jd R1) as (g2 & -> & R2); [by apply notin_add|]. simpl.
    intros E0. simplify_eq. exists ({[jd]} ∪ ({[jo]} ∪ r)). split; simpl; try done. by apply sync_init. }
  induction 1 as [|w e w' _ (r1 & l1 & IH) A E]; [by exists r', l|].
  destruct (stream_pass_exec_ok w r1 l1 e IH A) as (w2 & l2 & E2 & I2). simplify_eq. by exists r1, l2.
Qed.

(** The stream-pass interface keeps its contract, over any job queue: while user and
    provider keep to it, every step runs without a violated assertion; the provider gets the
    region exactly as the user gave it, the user one completion per operation, for at least one
    and at most the offered number of bytes; started operations are never lost.  The user's view
    is the one of [FlowView]. *)
Theorem stream_pass_protocol g r l jo jd w0 w :
  pg_rep g r l -> (jo ∉ r) -> (jd ∉ r) -> jo <> jd -> start g jo jd = Some w0 -> reach w0 w ->
  (forall e, allowed w e -> is_Some (exec w e)) /\
  (forall d n w', exec w (UStart d n) = Some w' ->
     FlowView.StreamPassInterface_Sender_Send (view (ph w)) (default 0 d) n = Some (view (ph w'))) /\
  (exists r' l', pg_rep (group w) r' l' /\
     match ph w with
     | Requested _ _ => job_operation (iface w) ∈ l'
     | Completed _ _ _ => job_done (iface w) ∈ l'
     | _ => True
     end).
Proof.
  intros R Ho Hd N E0 Hw. destruct (stream_pass_reach_inv g r l jo jd w0 w) as (r' & l' & I); [done..|]. split_and!.
  - intros e A. destruct (stream_pass_exec_ok w r' l' e I A) as (w' & _ & E & _). by exists w'.
  - intros d n w' E. unfold exec in E. cbv zeta in E. destruct (StreamPassInterface_Sender_Send _ _ _ _) as [[i1 g1]|]; [|done].
    simpl in E. destruct (ph w); try done. unfold FlowView.StreamPassInterface_Sender_Send. simpl.
    destruct (_ && _) eqn:Eb in E; [|done]. simplify_eq/=. apply andb_true_iff in Eb as [Eb _]. by rewrite Eb.
  - exists r', l'. split; [apply I|]. destruct I as [_ S _ P]. destruct (ph w); try done; apply S; by destruct P.
Qed.

End StreamPass.
Arguments world Q : clear implicits.

Definition demo0 : world (BPending.t positive) := Eval vm_compute in
  default (mkw (mk false 1 None 0 1 0 NONE) BPending.BPendingGroup_Init Idle) (start BPending.BPendingGroup_Init 1 2).
Definition demo1 : world (BPending.t positive) := Eval vm_compute in
  default demo0 (w ← exec demo0 (UStart (Some 64) 8); w ← exec w Execute; exec w (PDone 5)).
Lemma stream_pass_demo_reach : reach demo0 demo1.
Proof.
  eapply (reach_step _ (default demo0 (w ← exec demo0 (UStart (Some 64) 8); exec w Execute)) (PDone 5)).
  - eapply (reach_step _ (default demo0 (exec demo0 (UStart (Some 64) 8))) Execute).
    + eapply (reach_step _ demo0 (UStart (Some 64) 8)); [constructor|by eexists|vm_compute; reflexivity].
    + destruct (stream_pass_reach_inv BPending.BPendingGroup_Init ∅ [] 1 2 demo0 (default demo0 (exec demo0 (UStart (Some 64) 8))))
        as (r & l & I); try done; try apply not_elem_of_empty; try exact bpending_rep_empty; try lia.
      * eapply (reach_step _ demo0 (UStart (Some 64) 8)); [constructor|by eexists|vm_compute; reflexivity].
      * exists r. assert (job_operation (iface (default demo0 (exec demo0 (UStart (Some 64) 8)))) ∈ l) as Hl by (apply I; reflexivity).
        destruct l as [|o l]; [by apply not_elem_of_nil in Hl|]. exists o, l. apply I.
    + vm_compute. reflexivity.
  - by eexists.
  - vm_compute. reflexivity.
Qed.

Lemma stream_pass_protocol_witness : exists r' l', pg_rep (group demo1) r' l' /\ job_done (iface demo1) ∈ l'.
Proof.
  apply (stream_pass_protocol BPending.BPendingGroup_Init ∅ [] 1 2 demo0 demo1 bpending_rep_empty).
  - apply not_elem_of_empty.
  - apply not_elem_of_empty.
  - done.
  - vm_compute. reflexivity.
  - exact stream_pass_demo_reach.
Defined.

End StreamPass.
