(* ===== verification/BSocksClient.v ===== *)
(** * The SOCKS5 client (socksclient/BSocksClient.c, misc/socks_proto.h)

    The client connects to the SOCKS server, negotiates an authentication method, authenticates
    if needed, requests the connection to the destination, and is then up: the user talks to the
    destination through the connection.  One buffer, reallocated for every message, serves for
    sending and receiving. *)

From S2P Require Import Prelude BAlign ByteOrder BAddr FlowView.
Import BSize.

Definition SOCKS_VERSION : Z := 5.
Definition SOCKS_METHOD_NO_AUTHENTICATION_REQUIRED : Z := 0.
Definition SOCKS_METHOD_USERNAME_PASSWORD : Z := 2.
Definition SOCKS_CMD_CONNECT : Z := 1.
Definition SOCKS_ATYP_IPV4 : Z := 1.
Definition SOCKS_ATYP_IPV6 : Z := 4.
Definition SOCKS_REP_SUCCEEDED : Z := 0.

(** Object representations of the message structs; all fields but the addresses are bytes. *)
Definition sizeof_client_hello_header : Z := 2.
Definition sizeof_client_hello_method : Z := 1.
Definition sizeof_server_hello : Z := 2.
Definition sizeof_request_header : Z := 4.
Definition sizeof_reply_header : Z := 4.
Definition sizeof_addr_ipv4 : Z := 6.
Definition sizeof_addr_ipv6 : Z := 18.
Definition client_hello_header (ver nmethods : Z) : list Z := [u8 ver; u8 nmethods].
Definition client_hello_method (method : Z) : list Z := [u8 method].
Definition request_header (ver cmd rsv atyp : Z) : list Z := [u8 ver; u8 cmd; u8 rsv; u8 atyp].
Definition socks_addr_ipv4 (addr port : Z) : list Z := host32 addr ++ host16 port.
Definition socks_addr_ipv6 (addr : list Z) (port : Z) : list Z := take 16 addr ++ host16 port.

Inductive state := CONNECTING | SENDING_HELLO | SENT_HELLO | SENDING_PASSWORD | SENT_PASSWORD
  | SENDING_REQUEST | SENT_REQUEST | RECEIVED_REPLY_HEADER | UP.
#[export] Instance state_eq_dec : EqDecision state.
Proof. solve_decision. Defined.

(** [BSOCKSCLIENT_EVENT_...] *)
Inductive report := EVENT_ERROR | EVENT_UP | EVENT_ERROR_CLOSED.

(** [struct BSocksClient_auth_info]; the user name and password with their lengths. *)
Record auth_info := mk_auth { auth_type : Z; username : list Z; password : list Z }.
Definition BSocksClient_auth_none : auth_info := mk_auth SOCKS_METHOD_NO_AUTHENTICATION_REQUIRED [] [].
Definition BSocksClient_auth_password (u p : list Z) : auth_info := mk_auth SOCKS_METHOD_USERNAME_PASSWORD u p.

(** Which I/O objects exist on the connection. *)
Inductive io := IO_NONE | IO_CONTROL | IO_UP.

Record t := mk {
  auths : list auth_info;
  dest_addr : BAddr;
  st : state;
  buffer : option (list Z);
  con : io;
  send_if : pass_view;
  recv_if : srecv_view;
  recv_dest : Z;
  recv_len : Z;
  recv_total : Z;
}.

Definition with_state (o : t) (s : state) : t :=
  mk (auths o) (dest_addr o) s (buffer o) (con o) (send_if o) (recv_if o) (recv_dest o) (recv_len o) (recv_total o).
Definition with_buffer (o : t) (b : option (list Z)) : t :=
  mk (auths o) (dest_addr o) (st o) b (con o) (send_if o) (recv_if o) (recv_dest o) (recv_len o) (recv_total o).
Definition with_send (o : t) (s : pass_view) : t :=
  mk (auths o) (dest_addr o) (st o) (buffer o) (con o) s (recv_if o) (recv_dest o) (recv_len o) (recv_total o).
Definition with_recv (o : t) (r : srecv_view) : t :=
  mk (auths o) (dest_addr o) (st o) (buffer o) (con o) (send_if o) r (recv_dest o) (recv_len o) (recv_total o).
Definition with_recv_pos (o : t) (dest len total : Z) : t :=
  mk (auths o) (dest_addr o) (st o) (buffer o) (con o) (send_if o) (recv_if o) dest len total.
Definition with_io (o : t) (c : io) : t :=
  mk (auths o) (dest_addr o) (st o) (buffer o) c PIdle SRIdle (recv_dest o) (recv_len o) (recv_total o).

Definition init_control_io (o : t) : t := with_io o IO_CONTROL.
Definition free_control_io (o : t) : t := with_io o IO_NONE.
Definition init_up_io (o : t) : t := with_io o IO_UP.
Definition free_up_io (o : t) : t := with_io o IO_NONE.

Section Realloc.
(** [realloc]; the contents it carries over are not relied upon. *)
Context (realloc : option (list Z) -> Z -> option (list Z)).

Definition BRealloc (m : option (list Z)) (bytes : Z) : option (list Z) :=
  if bytes =? 0 then realloc m 1 else realloc m bytes.

(** [None]: the result 0. *)
Definition reserve_buffer (o : t) (size : bsize_t) : option t :=
  if is_overflow size then None else
  match BRealloc (buffer o) (value size) with
  | None => None
  | Some b => Some (with_buffer o (Some b))
  end.

(** The effect of a handler: a new state, and the event it reports to the user, if any. *)
Abbreviation result := (option (t * option report)).
Definition report_error (o : t) (e : report) : result := Some (o, Some e).

(** [memcpy] into the buffer. *)
Definition write (o : t) (off : Z) (d : list Z) : option t :=
  b ← buffer o;
  ASSERT (0 <=? off) && (off + zlen d <=? zlen b);
  Some (with_buffer o (Some (splice b off d))).
(** [memcpy] from the buffer. *)
Definition read (o : t) (off n : Z) : option (list Z) :=
  b ← buffer o;
  ASSERT (0 <=? off) && (off + n <=? zlen b);
  Some (sub b off n).

Definition do_receive (o : t) : option t :=
  ASSERT recv_len o <? recv_total o;
  r ← StreamRecvInterface_Receiver_Recv (recv_if o) (recv_dest o + recv_len o) (recv_total o - recv_len o);
  Some (with_recv o r).
Definition start_receive (o : t) (dest total : Z) : option t :=
  ASSERT total >? 0;
  do_receive (with_recv_pos o dest 0 total).

Definition send_buffer (o : t) (size : Z) : option t :=
  s ← PacketPassInterface_Sender_Send (send_if o) INT_MAX (Some 0) (i32 size);
  Some (with_send o s).

(** The loop that writes the methods from index [i] on. *)
Fixpoint write_methods (o : t) (i : Z) (l : list auth_info) : option t :=
  match l with
  | [] => Some o
  | a :: l =>
      o ← write o (sizeof_client_hello_header + i * sizeof_client_hello_method)
            (client_hello_method (hton8 (auth_type a)));
      write_methods o (i + 1) l
  end.

(** [con_ok]: the result of [BConnection_Init]. *)
Definition connector_handler (o : t) (is_error con_ok : bool) : result :=
  ASSERT bool_decide (st o = CONNECTING);
  if is_error then report_error o EVENT_ERROR else
  if negb con_ok then report_error o EVENT_ERROR else
  let o := init_control_io o in
  let num_auth_info := zlen (auths o) in
  if (num_auth_info =? 0) || (num_auth_info >? 255) then report_error (free_control_io o) EVENT_ERROR else
  let size := bsize_add (bsize_fromsize sizeof_client_hello_header)
    (bsize_mul (bsize_fromsize num_auth_info) (bsize_fromsize sizeof_client_hello_method)) in
  match reserve_buffer o size with
  | None => report_error (free_control_io o) EVENT_ERROR
  | Some o =>
      o ← write o 0 (client_hello_header (hton8 SOCKS_VERSION) (hton8 num_auth_info));
      o ← write_methods o 0 (auths o);
      o ← send_buffer o (value size);
      Some (with_state o SENDING_HELLO, None)
  end.

Definition connection_handler (o : t) (recv_closed : bool) : result :=
  ASSERT negb (bool_decide (st o = CONNECTING));
  if bool_decide (st o = UP) && recv_closed then report_error o EVENT_ERROR_CLOSED
  else report_error o EVENT_ERROR.

Definition auth_finished (o : t) : result :=
  let size := bsize_fromsize sizeof_request_header in
  let size :=
    match dest_addr o with
    | ADDR_IPV4 _ _ => bsize_add size (bsize_fromsize sizeof_addr_ipv4)
    | ADDR_IPV6 _ _ => bsize_add size (bsize_fromsize sizeof_addr_ipv6)
    | _ => size
    end in
  match reserve_buffer o size with
  | None => report_error o EVENT_ERROR
  | Some o =>
      '(o, atyp) ←
        match dest_addr o with
        | ADDR_IPV4 ip port =>
            o ← write o sizeof_request_header (socks_addr_ipv4 ip port); Some (o, hton8 SOCKS_ATYP_IPV4)
        | ADDR_IPV6 ip port =>
            o ← write o sizeof_request_header (socks_addr_ipv6 ip port); Some (o, hton8 SOCKS_ATYP_IPV6)
        | _ => None
        end;
      o ← write o 0 (request_header (hton8 SOCKS_VERSION) (hton8 SOCKS_CMD_CONNECT) (hton8 0) atyp);
      o ← send_buffer o (value size);
      Some (with_state o SENDING_REQUEST, None)
  end.

(** [case STATE_SENT_HELLO] of the switch. *)
Definition received_hello (o : t) : result :=
  imsg ← read o 0 sizeof_server_hello;
  ver ← imsg !! 0%nat;
  method ← imsg !! 1%nat;
  if negb (ntoh8 ver =? SOCKS_VERSION) then report_error o EVENT_ERROR else
  match find (fun a => auth_type a =? ntoh8 method) (auths o) with
  | None => report_error o EVENT_ERROR
  | Some ai =>
      if auth_type ai =? SOCKS_METHOD_NO_AUTHENTICATION_REQUIRED then auth_finished o
      else if auth_type ai =? SOCKS_METHOD_USERNAME_PASSWORD then
        let username_len := zlen (username ai) in
        let password_len := zlen (password ai) in
        if (username_len =? 0) || (username_len >? 255) || (password_len =? 0) || (password_len >? 255)
        then report_error o EVENT_ERROR else
        let size := bsize_fromsize (1 + 1 + username_len + 1 + password_len) in
        match reserve_buffer o size with
        | None => report_error o EVENT_ERROR
        | Some o =>
            o ← write o 0 [1];
            o ← write o 1 [u8 username_len];
            o ← write o 2 (username ai);
            o ← write o (2 + username_len) [u8 password_len];
            o ← write o (3 + username_len) (password ai);
            o ← send_buffer o (value size);
            Some (with_state o SENDING_PASSWORD, None)
        end
      else None
  end.

(** [case STATE_SENT_REQUEST] of the switch. *)
Definition received_reply_header (o : t) : result :=
  imsg ← read o 0 sizeof_reply_header;
  ver ← imsg !! 0%nat;
  rep ← imsg !! 1%nat;
  atyp ← imsg !! 3%nat;
  if negb (ntoh8 ver =? SOCKS_VERSION) then report_error o EVENT_ERROR else
  if negb (ntoh8 rep =? SOCKS_REP_SUCCEEDED) then report_error o EVENT_ERROR else
  match (if ntoh8 atyp =? SOCKS_ATYP_IPV4 then Some sizeof_addr_ipv4
         else if ntoh8 atyp =? SOCKS_ATYP_IPV6 then Some sizeof_addr_ipv6 else None) with
  | None => report_error o EVENT_ERROR
  | Some addr_len =>
      o ← start_receive o sizeof_reply_header addr_len;
      Some (with_state o RECEIVED_REPLY_HEADER, None)
  end.

(** [case STATE_SENT_PASSWORD] of the switch. *)
Definition received_password_reply (o : t) : result :=
  b ← read o 0 2;
  b0 ← b !! 0%nat;
  b1 ← b !! 1%nat;
  if negb (b0 =? 1) then report_error o EVENT_ERROR else
  if negb (b1 =? 0) then report_error o EVENT_ERROR else
  auth_finished o.

Definition recv_handler_done (o : t) (data_len : Z) : result :=
  ASSERT data_len >=? 0;
  ASSERT data_len <=? recv_total o - recv_len o;
  let o := with_recv_pos o (recv_dest o) (recv_len o + data_len) (recv_total o) in
  if recv_len o <? recv_total o then o ← do_receive o; Some (o, None) else
  match st o with
  | SENT_HELLO => received_hello o
  | SENT_REQUEST => received_reply_header o
  | SENT_PASSWORD => received_password_reply o
  | RECEIVED_REPLY_HEADER =>
      let o := with_buffer o None in
      let o := free_control_io o in
      let o := init_up_io o in
      Some (with_state o UP, Some EVENT_UP)
  | _ => None
  end.

Definition send_handler_done (o : t) : result :=
  ASSERT bool_decide (is_Some (buffer o));
  match st o with
  | SENDING_HELLO =>
      let size := bsize_fromsize sizeof_server_hello in
      match reserve_buffer o size with
      | None => report_error o EVENT_ERROR
      | Some o => o ← start_receive o 0 (i32 (value size)); Some (with_state o SENT_HELLO, None)
      end
  | SENDING_REQUEST =>
      let size := bsize_add (bsize_fromsize sizeof_reply_header)
        (bsize_max (bsize_fromsize sizeof_addr_ipv4) (bsize_fromsize sizeof_addr_ipv6)) in
      match reserve_buffer o size with
      | None => report_error o EVENT_ERROR
      | Some o => o ← start_receive o 0 sizeof_reply_header; Some (with_state o SENT_REQUEST, None)
      end
  | SENDING_PASSWORD =>
      let size := bsize_fromsize 2 in
      match reserve_buffer o size with
      | None => report_error o EVENT_ERROR
      | Some o => o ← start_receive o 0 (i32 (value size)); Some (with_state o SENT_PASSWORD, None)
      end
  | _ => None
  end.

(** [connector_ok]: the result of [BConnector_Init]; [inl tt] is the result 0. *)
Definition BSocksClient_Init (server_addr : BAddr) (auth_info : list auth_info) (dest_addr : BAddr)
    (connector_ok : bool) : option (unit + t) :=
  ASSERT negb (BAddr_IsInvalid server_addr);
  ASSERT (addr_type dest_addr =? 1) || (addr_type dest_addr =? 2);
  ASSERT forallb (fun a => (auth_type a =? SOCKS_METHOD_NO_AUTHENTICATION_REQUIRED) ||
                           (auth_type a =? SOCKS_METHOD_USERNAME_PASSWORD)) auth_info;
  if negb connector_ok then Some (inl tt) else
  Some (inr (mk auth_info dest_addr CONNECTING None IO_NONE PIdle SRIdle 0 0 0)).

(** What is released: the I/O objects of the connection, if any. *)
Definition BSocksClient_Free (o : t) : t :=
  if negb (bool_decide (st o = CONNECTING)) then
    if bool_decide (st o = UP) then free_up_io o else free_control_io o
  else o.

(** ** The client in its environment *)

(** The connector reports; the connection took the message; bytes arrived (the receiver may have
    written more than the [len] bytes it reports); the connection reports an error or that it was
    closed. *)
Inductive event := EConnected (is_error con_ok : bool) | ESent | ERecv (data : list Z) (len : Z)
  | EConnection (recv_closed : bool).

(** The client with what was sent and received so far; [alive] until an error was reported, after
    which the user must free the client. *)
Record world := mkw { cl : t; alive : bool; sent : list Z; rcvd : list Z }.

Definition enabled (w : world) (e : event) : bool :=
  alive w &&
  match e with
  | EConnected _ _ => bool_decide (st (cl w) = CONNECTING)
  | ESent => match send_if (cl w) with PBusy _ _ => true | PIdle => false end
  | ERecv data len =>
      match recv_if (cl w) with
      | SRBusy _ avail => (0 <? len) && (len <=? zlen data) && (zlen data <=? avail) && bool_decide (bytes_ok data)
      | SRIdle => false
      end
  | EConnection _ => negb (bool_decide (st (cl w) = CONNECTING))
  end.

Definition finish (r : result) (tx rx : list Z) : option world :=
  '(o, e) ← r;
  Some (mkw o (match e with Some EVENT_ERROR | Some EVENT_ERROR_CLOSED => false | _ => true end) tx rx).

Definition exec (w : world) (e : event) : option world :=
  let o := cl w in
  match e with
  | EConnected is_error con_ok => finish (connector_handler o is_error con_ok) (sent w) (rcvd w)
  | ESent =>
      match send_if o, buffer o with
      | PBusy (Some d) len, Some b =>
          finish (send_handler_done (with_send o PIdle)) (sent w ++ sub b d len) (rcvd w)
      | _, _ => None
      end
  | ERecv data len =>
      match recv_if o, buffer o with
      | SRBusy d _, Some b =>
          ASSERT d + zlen data <=? zlen b;
          finish (recv_handler_done (with_recv (with_buffer o (Some (splice b d data))) SRIdle) len)
            (sent w) (rcvd w ++ take (Z.to_nat len) data)
      | _, _ => None
      end
  | EConnection closed => finish (connection_handler o closed) (sent w) (rcvd w)
  end.

Inductive reach (w0 : world) : world -> Prop :=
| reach_init : reach w0 w0
| reach_step w e w' : reach w0 w -> enabled w e = true -> exec w e = Some w' -> reach w0 w'.

(** ** The SOCKS5 dialog (RFC 1928, RFC 1929) *)
Definition hello_msg (au : list auth_info) : list Z :=
  [5; zlen au] ++ ((fun a => auth_type a) <$> au).
Definition password_msg (a : auth_info) : list Z :=
  [1; zlen (username a)] ++ username a ++ [zlen (password a)] ++ password a.
Definition request_msg (dest : BAddr) : list Z :=
  match dest with
  | ADDR_IPV4 ip port => [5; 1; 0; 1] ++ host32 ip ++ host16 port
  | ADDR_IPV6 ip port => [5; 1; 0; 4] ++ ip ++ host16 port
  | _ => []
  end.

Definition usable (a : auth_info) : Prop := 1 <= zlen (username a) <= 255 /\ 1 <= zlen (password a) <= 255.
Definition chosen (au : list auth_info) (m : Z) : option auth_info := find (fun a => auth_type a =? m) au.

(** The server accepted a method the client offered ([rx]), and the client, asked for it, sent
    its first user name and password and was accepted ([tx] is what it sent). *)
Inductive authenticated (au : list auth_info) : list Z -> list Z -> Prop :=
| auth_by_none a : chosen au 0 = Some a -> authenticated au [5; 0] []
| auth_by_password a : chosen au 2 = Some a -> usable a -> authenticated au [5; 2; 1; 0] (password_msg a).

(** A positive reply with a bound address of the announced type. *)
Definition addr_len (atyp : Z) : option Z := if atyp =? 1 then Some 6 else if atyp =? 4 then Some 18 else None.
Definition reply_ok (reply : list Z) : Prop :=
  exists rsv atyp n addr, reply = [5; 0; rsv; atyp] ++ addr /\ addr_len atyp = Some n /\ zlen addr = n.

Definition valid_dialog (au : list auth_info) (rx : list Z) : Prop :=
  exists a tx reply, authenticated au a tx /\ reply_ok reply /\ rx = a ++ reply.

(** ** Invariant *)

(** A block that [realloc] returns has the size asked for. *)
Context (realloc_size : forall m n b, 0 < n -> realloc m n = Some b -> zlen b = n).
Definition out_of_memory : Prop := exists m n, 0 < n /\ realloc m n = None.

Definition sending (o : t) (msg : list Z) : Prop :=
  con o = IO_CONTROL /\ buffer o = Some msg /\ send_if o = PBusy (Some 0) (zlen msg) /\ recv_if o = SRIdle.
(** [got] of [total] bytes were received at [dest] of a buffer of [size] bytes. *)
Definition receiving (o : t) (dest total size : Z) (got : list Z) : Prop :=
  con o = IO_CONTROL /\ send_if o = PIdle /\ recv_dest o = dest /\ recv_total o = total /\
  recv_len o = zlen got /\ zlen got < total /\ recv_if o = SRBusy (dest + zlen got) (total - zlen got) /\
  exists b, buffer o = Some b /\ zlen b = size /\ sub b dest (zlen got) = got.

Definition types_ok (au : list auth_info) : Prop := Forall (fun a => auth_type a = 0 \/ auth_type a = 2) au.

Definition phase (o : t) (tx rx : list Z) : Prop :=
  let au := auths o in
  match st o with
  | CONNECTING => buffer o = None /\ con o = IO_NONE /\ send_if o = PIdle /\ recv_if o = SRIdle /\ tx = [] /\ rx = []
  | SENDING_HELLO => sending o (hello_msg au) /\ tx = [] /\ rx = []
  | SENT_HELLO => receiving o 0 2 2 rx /\ tx = hello_msg au
  | SENDING_PASSWORD => exists a, chosen au 2 = Some a /\ usable a /\ sending o (password_msg a) /\
      tx = hello_msg au /\ rx = [5; 2]
  | SENT_PASSWORD => exists a got, chosen au 2 = Some a /\ usable a /\ receiving o 0 2 2 got /\
      tx = hello_msg au ++ password_msg a /\ rx = [5; 2] ++ got
  | SENDING_REQUEST => exists txa, authenticated au rx txa /\ sending o (request_msg (dest_addr o)) /\
      tx = hello_msg au ++ txa
  | SENT_REQUEST => exists rxa txa got, authenticated au rxa txa /\ receiving o 0 4 22 got /\
      tx = hello_msg au ++ txa ++ request_msg (dest_addr o) /\ rx = rxa ++ got
  | RECEIVED_REPLY_HEADER => exists rxa txa rsv atyp n got, authenticated au rxa txa /\ addr_len atyp = Some n /\
      receiving o 4 n 22 got /\ tx = hello_msg au ++ txa ++ request_msg (dest_addr o) /\
      rx = rxa ++ [5; 0; rsv; atyp] ++ got
  | UP => con o = IO_UP /\ buffer o = None /\ send_if o = PIdle /\ recv_if o = SRIdle /\
      exists rxa txa reply, authenticated au rxa txa /\ reply_ok reply /\
        tx = hello_msg au ++ txa ++ request_msg (dest_addr o) /\ rx = rxa ++ reply
  end.

Record inv (au : list auth_info) (dest : BAddr) (w : world) : Prop := {
  v_auths : auths (cl w) = au;
  v_dest : dest_addr (cl w) = dest;
  v_phase : alive w = true -> phase (cl w) (sent w) (rcvd w);
}.

(** *** The helpers *)
Lemma write_at o p q d off : buffer o = Some (p ++ q) -> zlen p = off -> zlen d <= zlen q ->
  write o off d = Some (with_buffer o (Some (p ++ d ++ drop (Z.to_nat (zlen d)) q))).
Proof.
  intros Hb Hp Hd. unfold write. rewrite Hb. simpl. pose proof (zlen_nonneg p). rewrite zlen_app. bool_true.
  do 3 f_equal. subst off. unfold splice. f_equal.
  - apply take_app_length'. unfold zlen. lia.
  - f_equal. rewrite drop_app_ge by (unfold zlen in *; lia). f_equal. unfold zlen in *. lia.
Qed.

(** The tail and then the head of a message are written into a buffer of its size. *)
Lemma write_pair o b h a : buffer o = Some b -> zlen b = zlen h + zlen a ->
  exists b1, write o (zlen h) a = Some (with_buffer o (Some b1)) /\
    write (with_buffer o (Some b1)) 0 h = Some (with_buffer o (Some (h ++ a))).
Proof.
  intros Hb Hz. pose proof (zlen_nonneg h). pose proof (zlen_nonneg a).
  assert (zlen (take (Z.to_nat (zlen h)) b) = zlen h) as Ht by (apply zlen_take; lia).
  assert (zlen (drop (Z.to_nat (zlen h)) b) = zlen a) as Hd by (unfold zlen in *; rewrite length_drop; lia).
  eexists. split.
  - apply (write_at _ (take (Z.to_nat (zlen h)) b) (drop (Z.to_nat (zlen h)) b)); [by rewrite take_drop|done|lia].
  - rewrite (write_at _ [] (take (Z.to_nat (zlen h)) b ++ a ++ drop (Z.to_nat (zlen a)) (drop (Z.to_nat (zlen h)) b)));
      [|done|done|rewrite zlen_app; pose proof (zlen_nonneg (a ++ drop (Z.to_nat (zlen a)) (drop (Z.to_nat (zlen h)) b))); lia].
    unfold with_buffer. simpl. do 3 f_equal. rewrite drop_app_length' by (unfold zlen in *; lia).
    rewrite (drop_ge (drop _ b)) by (unfold zlen in *; lia). by rewrite app_nil_r.
Qed.

Lemma reserve_ok o size n : denotes size (Some n) -> 0 < n ->
  (reserve_buffer o size = None /\ out_of_memory) \/
  exists b, reserve_buffer o size = Some (with_buffer o (Some b)) /\ zlen b = n /\ value size = n.
Proof.
  intros [_ [Ho Hv]] Hn. unfold reserve_buffer, BRealloc. rewrite Ho, Hv. bool_false.
  destruct (realloc (buffer o) n) as [b|] eqn:E; [right|left].
  - exists b. split; [done|]. split; [by eapply realloc_size|done].
  - split; [done|]. by exists (buffer o), n.
Qed.

Lemma send_buffer_ok o n : send_if o = PIdle -> 0 <= n <= INT_MAX ->
  send_buffer o n = Some (with_send o (PBusy (Some 0) n)).
Proof.
  intros Hs Hn. unfold send_buffer, PacketPassInterface_Sender_Send. rewrite Hs.
  rewrite i32_small by (unfold INT_MAX in *; lia). do 2 bool_true. by rewrite orb_true_r.
Qed.

Lemma start_receive_ok o dest total : recv_if o = SRIdle -> 0 < total ->
  start_receive o dest total = Some (with_recv (with_recv_pos o dest 0 total) (SRBusy (dest + 0) (total - 0))).
Proof.
  intros Hr Ht. unfold start_receive, do_receive, StreamRecvInterface_Receiver_Recv. simpl. rewrite Hr.
  bool_true. bool_true. rewrite Z.sub_0_r. by bool_true.
Qed.

(** The denotation of the sizes the code computes. *)
Lemma denotes_2 a b : 0 <= a <= 1000 -> 0 <= b <= 1000 ->
  denotes (bsize_add (bsize_fromsize a) (bsize_fromsize b)) (Some (a + b)).
Proof.
  intros Ha Hb. pose proof (add_denotes _ _ _ _ (fromsize_denotes a ltac:(unfold SIZE_MAX; lia))
    (fromsize_denotes b ltac:(unfold SIZE_MAX; lia))) as D. simpl in D. revert D. case_if; [done|unfold SIZE_MAX in *; lia].
Qed.

Lemma request_len dest : addr_ok dest -> addr_type dest = 1 \/ addr_type dest = 2 ->
  zlen (request_msg dest) = match dest with ADDR_IPV4 _ _ => 10 | _ => 22 end.
Proof.
  destruct dest as [|ip port|ip port|]; intros Ha Ht; try (by destruct Ht).
  destruct Ha as (_ & Hl & _). cbn [request_msg]. rewrite !zlen_app, Hl. done.
Qed.

(** [auth_finished] with the I/O objects idle: the request is being sent. *)
Lemma auth_finished_ok o : con o = IO_CONTROL -> send_if o = PIdle -> recv_if o = SRIdle ->
  addr_ok (dest_addr o) -> addr_type (dest_addr o) = 1 \/ addr_type (dest_addr o) = 2 ->
  (auth_finished o = Some (o, Some EVENT_ERROR) /\ out_of_memory) \/
  exists o', auth_finished o = Some (o', None) /\ st o' = SENDING_REQUEST /\
    sending o' (request_msg (dest_addr o)) /\ auths o' = auths o /\ dest_addr o' = dest_addr o.
Proof.
  intros Hc Hs Hr Ha Ht. pose proof (request_len _ Ha Ht) as Hl.
  unfold auth_finished, sizeof_request_header, sizeof_addr_ipv4, sizeof_addr_ipv6.
  destruct (dest_addr o) as [|ip port|ip port|] eqn:Ed; try (by destruct Ht).
  - destruct (reserve_ok o (bsize_add (bsize_fromsize 4) (bsize_fromsize 6)) 10) as [[-> ?]|(b & -> & Hb & Hv)];
      [by apply denotes_2|lia|by left|right].
    cbn [with_buffer dest_addr]. rewrite Ed.
    destruct (write_pair (with_buffer o (Some b)) b [5; 1; 0; 1] (socks_addr_ipv4 ip port)) as (b1 & E1 & E2); [done|done|].
    change (zlen [5; 1; 0; 1]) with 4 in E1. rewrite E1. cbn [mbind option_bind].
    change (request_header _ _ _ _) with [5; 1; 0; 1]. rewrite E2. cbn [mbind option_bind]. rewrite Hv.
    rewrite send_buffer_ok by (done || unfold INT_MAX; lia). eexists. split; [done|]. by rewrite <- Hl.
  - destruct (reserve_ok o (bsize_add (bsize_fromsize 4) (bsize_fromsize 18)) 22) as [[-> ?]|(b & -> & Hb & Hv)];
      [by apply denotes_2|lia|by left|right].
    cbn [with_buffer dest_addr]. rewrite Ed. destruct Ha as (_ & Hip & _).
    destruct (write_pair (with_buffer o (Some b)) b [5; 1; 0; 4] (socks_addr_ipv6 ip port)) as (b1 & E1 & E2); [done| |].
    { unfold socks_addr_ipv6. rewrite take_ge by (unfold zlen in *; lia). rewrite zlen_app, Hip. done. }
    change (zlen [5; 1; 0; 4]) with 4 in E1. rewrite E1. cbn [mbind option_bind].
    change (request_header _ _ _ _) with [5; 1; 0; 4]. rewrite E2. cbn [mbind option_bind]. rewrite Hv.
    rewrite send_buffer_ok by (done || unfold INT_MAX; lia). eexists. split; [done|].
    unfold sending. rewrite Hl. unfold socks_addr_ipv6. simpl. rewrite take_ge by (unfold zlen in *; lia). done.
Qed.

(** The three outcomes of an event: the user's state of affairs is unchanged, and either an
    error was reported, for the reason [why], or the client goes on in its next phase. *)
Definition outcome (o : t) (tx rx : list Z) (why : Prop) (r : result) : Prop :=
  exists o' ev, r = Some (o', ev) /\ auths o' = auths o /\ dest_addr o' = dest_addr o /\
    ((ev = Some EVENT_ERROR /\ why) \/ ((ev = None \/ ev = Some EVENT_UP) /\ phase o' tx rx)).

Lemma outcome_error o tx rx (why : Prop) : why -> outcome o tx rx why (report_error o EVENT_ERROR).
Proof. intros. exists o, (Some EVENT_ERROR). split; [done|]. split; [done|]. split; [done|]. by left. Qed.

(** *** Connecting *)
Lemma write_methods_ok l : forall o p q i, buffer o = Some (p ++ q) -> zlen p = 2 + i -> zlen q = zlen l ->
  types_ok l -> write_methods o i l = Some (with_buffer o (Some (p ++ ((fun a => auth_type a) <$> l)))).
Proof.
  induction l as [|a l IH]; intros o p q i Hb Hp Hq Ht; simpl.
  - assert (q = []) as -> by (destruct q; [done|rewrite zlen_cons in Hq; pose proof (zlen_nonneg q); rewrite zlen_nil in Hq; lia]).
    rewrite <- Hb. by destruct o.
  - rewrite zlen_cons in Hq. destruct q as [|x q]; [pose proof (zlen_nonneg l); rewrite zlen_nil in Hq; lia|].
    rewrite zlen_cons in Hq. inversion Ht as [|? ? Ha Hl]; subst.
    rewrite (write_at o p (x :: q)); [|done|unfold sizeof_client_hello_header, sizeof_client_hello_method; lia|
      rewrite zlen_cons; pose proof (zlen_nonneg q); change (zlen (client_hello_method _)) with 1; lia].
    cbn [mbind option_bind]. change (drop _ (x :: q)) with q.
    assert (client_hello_method (hton8 (auth_type a)) = [auth_type a]) as -> by (by destruct Ha as [-> | ->]).
    rewrite (IH _ (p ++ [auth_type a]) q); [by rewrite <- app_assoc|by rewrite <- app_assoc| |lia|done].
    rewrite zlen_app, zlen_cons, zlen_nil. lia.
Qed.

Lemma hello_len au : zlen (hello_msg au) = 2 + zlen au.
Proof. unfold hello_msg. rewrite zlen_app. unfold zlen. rewrite length_fmap. cbn [length]. lia. Qed.

Lemma hello_size n : 1 <= n <= 255 ->
  denotes (bsize_add (bsize_fromsize sizeof_client_hello_header)
    (bsize_mul (bsize_fromsize n) (bsize_fromsize sizeof_client_hello_method))) (Some (2 + n)).
Proof.
  intros Hn. unfold sizeof_client_hello_header, sizeof_client_hello_method.
  pose proof (mul_denotes _ _ _ _ (fromsize_denotes n ltac:(unfold SIZE_MAX; lia))
    (fromsize_denotes 1 ltac:(unfold SIZE_MAX; lia))) as D. simpl in D. rewrite Z.mul_1_r in D.
  revert D. case_if; [intros D|unfold SIZE_MAX in *; lia].
  pose proof (add_denotes _ _ _ _ (fromsize_denotes 2 ltac:(unfold SIZE_MAX; lia)) D) as D'. simpl in D'.
  revert D'. case_if; [done|unfold SIZE_MAX in *; lia].
Qed.

Definition connect_failure (o : t) (is_error con_ok : bool) : Prop :=
  is_error = true \/ con_ok = false \/ ~ (1 <= zlen (auths o) <= 255) \/ out_of_memory.

Lemma connect_step o tx rx is_error con_ok : phase o tx rx -> st o = CONNECTING -> types_ok (auths o) ->
  outcome o tx rx (connect_failure o is_error con_ok) (connector_handler o is_error con_ok).
Proof.
  unfold phase, connector_handler, connect_failure. intros H Hst Ht. rewrite Hst in *. destruct H as (Hb & Hc & Hs & Hr & -> & ->).
  rewrite bool_decide_true by done. destruct is_error; [by apply outcome_error; left|].
  destruct con_ok; [|by apply outcome_error; right; left]. cbn [negb]. cbv zeta. change (auths (init_control_io o)) with (auths o).
  case_if. { exists (free_control_io (init_control_io o)), (Some EVENT_ERROR). do 3 (split; [done|]). left. split; [done|].
    right; right; left. destruct E; reflect_bool; lia. }
  pose proof (zlen_nonneg (auths o)). pose proof (hello_size (zlen (auths o)) ltac:(lia)) as D.
  destruct (reserve_ok (init_control_io o) _ _ D) as [[-> ?]|(b & -> & Hlen & Hv)]; [lia| |].
  - exists (free_control_io (init_control_io o)), (Some EVENT_ERROR). do 3 (split; [done|]). left. split; [done|]. by do 3 right.
  - rewrite Hv. rewrite (write_at _ [] b); [|done|done|change (zlen (client_hello_header _ _)) with 2; lia].
    cbn [mbind option_bind].
    rewrite (write_methods_ok _ _ (client_hello_header (hton8 SOCKS_VERSION) (hton8 (zlen (auths o)))) (drop 2 b));
      [|done|done|simpl; unfold zlen in *; rewrite length_drop; lia|done].
    cbn [mbind option_bind]. rewrite send_buffer_ok by (done || unfold INT_MAX; lia). cbn [mbind option_bind].
    do 2 eexists. do 3 (split; [done|]). right. split; [by left|]. unfold phase. cbn [st with_state].
    split; [|done]. unfold sending. rewrite hello_len. split; [done|]. split; [|done]. unfold hello_msg, client_hello_header, hton8, SOCKS_VERSION. simpl.
    rewrite (uwrap_small 8 (zlen (auths o))) by lia. done.
Qed.

(** *** A message was sent *)
Lemma expect_reply o size n total : con o = IO_CONTROL -> send_if o = PIdle -> recv_if o = SRIdle ->
  denotes size (Some n) -> 0 < total <= n ->
  (reserve_buffer o size = None /\ out_of_memory) \/
  exists o1 o2, reserve_buffer o size = Some o1 /\ value size = n /\ start_receive o1 0 total = Some o2 /\
    auths o2 = auths o /\ dest_addr o2 = dest_addr o /\ receiving o2 0 total n [].
Proof.
  intros Hc Hs Hr D Ht. destruct (reserve_ok o _ _ D) as [?|(b & E & Hb & Hv)]; [lia|by left|right].
  do 2 eexists. split; [done|]. split; [done|]. split; [apply start_receive_ok; [done|lia]|]. do 2 (split; [done|]).
  unfold receiving. simpl. do 5 (split; [done|]). split; [rewrite zlen_nil; lia|]. split; [done|]. by exists b.
Qed.

(** The rest of [send_handler_done] in each sending state. *)
Lemma expect_outcome o size n total s tx rx (why : Prop) :
  con o = IO_CONTROL -> send_if o = PIdle -> recv_if o = SRIdle -> denotes size (Some n) -> 0 < total <= n ->
  (out_of_memory -> why) ->
  (forall o', auths o' = auths o -> dest_addr o' = dest_addr o -> st o' = s -> receiving o' 0 total n [] -> phase o' tx rx) ->
  outcome o tx rx why
    match reserve_buffer o size with
    | None => report_error o EVENT_ERROR
    | Some o => o ← start_receive o 0 total; Some (with_state o s, None)
    end.
Proof.
  intros Hc Hs Hr D Ht Hw HP.
  destruct (expect_reply o _ _ _ Hc Hs Hr D Ht) as [[-> ?]|(o1 & o2 & -> & Hv & -> & Ha & Hd & R)];
    [by apply outcome_error, Hw|].
  exists (with_state o2 s), None. do 3 (split; [done|]). right. split; [by left|]. by apply HP.
Qed.

Lemma small_size n : 0 <= n <= 1000 -> denotes (bsize_fromsize n) (Some n).
Proof. intros. apply fromsize_denotes. unfold SIZE_MAX. lia. Qed.

Lemma sent_step o tx rx d len : phase o tx rx -> send_if o = PBusy d len ->
  exists msg, buffer o = Some msg /\ d = Some 0 /\ len = zlen msg /\
    outcome o (tx ++ msg) rx out_of_memory (send_handler_done (with_send o PIdle)).
Proof.
  intros H Hb. unfold phase in H. destruct (st o) eqn:Hst;
    repeat match goal with H : _ /\ _ |- _ => destruct H | H : exists _, _ |- _ => destruct H end;
    unfold receiving, sending in *; destruct_and?; try congruence;
    match goal with H : send_if o = PBusy (Some 0) _ |- _ => rewrite H in Hb; injection Hb as <- <- end; subst tx; try subst rx.
  - eexists. split; [eassumption|]. do 2 (split; [done|]). unfold send_handler_done. rewrite bool_decide_true by (simpl; eauto). cbn [with_send st]. rewrite Hst.
    apply (expect_outcome (with_send o PIdle) _ 2); [done|done|done|by apply small_size|done|done|].
    intros o' Ha Hd Hs R. unfold phase. rewrite Hs, Ha. split; [exact R|done].
  - eexists. split; [eassumption|]. do 2 (split; [done|]). unfold send_handler_done. rewrite bool_decide_true by (simpl; eauto). cbn [with_send st]. rewrite Hst.
    apply (expect_outcome (with_send o PIdle) _ 2); [done|done|done|by apply small_size|done|done|].
    intros o' Ha Hd Hs R. unfold phase. rewrite Hs, Ha. eexists _, []. by repeat (split; [eassumption || exact R|]).
  - eexists. split; [eassumption|]. do 2 (split; [done|]). unfold send_handler_done. rewrite bool_decide_true by (simpl; eauto). cbn [with_send st]. rewrite Hst.
    apply (expect_outcome (with_send o PIdle) _ 22); [done|done|done| |done|done|].
    { by apply (denotes_2 4 18). }
    intros o' Ha Hd Hs R. unfold phase. rewrite Hs, Ha, Hd. eexists _, _, []. rewrite app_nil_r. simpl. by rewrite <- app_assoc.
Qed.

(** *** Bytes were received *)
Lemma arrived (b : list Z) dest total got data len : 0 <= dest -> dest + total <= zlen b -> sub b dest (zlen got) = got ->
  0 < len <= zlen data -> zlen data <= total - zlen got ->
  let b' := splice b (dest + zlen got) data in let got' := got ++ take (Z.to_nat len) data in
  dest + zlen got + zlen data <= zlen b /\ zlen b' = zlen b /\ zlen got' = zlen got + len /\ sub b' dest (zlen got') = got'.
Proof.
  intros Hd Ht Hg Hl Ha b' got'. pose proof (zlen_nonneg got). pose proof (zlen_nonneg data).
  assert (zlen got' = zlen got + len) as Hz by (unfold got'; rewrite zlen_app, zlen_take; lia).
  split; [lia|]. split; [apply zlen_splice; lia|]. split; [done|].
  rewrite Hz, (sub_split _ _ _ (zlen got)) by lia. unfold got'. f_equal.
  - unfold b'. rewrite sub_splice_ne by lia. done.
  - replace (zlen got + len - zlen got) with len by lia.
    rewrite <- (sub_splice_eq b (dest + zlen got) data) by lia. fold b'. unfold sub.
    rewrite take_take. f_equal. unfold zlen in *. lia.
Qed.

(** The server's bytes cannot be completed to a dialog that the client accepts. *)
Definition hopeless (au : list auth_info) (rx : list Z) : Prop := ~ exists rest, valid_dialog au (rx ++ rest).
Definition refused (au : list auth_info) (rx : list Z) : Prop := out_of_memory \/ hopeless au rx.

Lemma valid_hello au v m rest : valid_dialog au (v :: m :: rest) ->
  v = 5 /\ exists a, chosen au m = Some a /\ (m = 0 \/ m = 2 /\ usable a /\ exists r, rest = 1 :: 0 :: r).
Proof.
  intros (a & tx & reply & [ai Hc|ai Hc Hu] & _ & E); simplify_eq/=; (split; [done|]; exists ai; split; [done|]); [by left|].
  right. split; [done|]. split; [done|]. by eexists.
Qed.

Lemma valid_after_auth au rxa txa rest : authenticated au rxa txa -> valid_dialog au (rxa ++ rest) -> reply_ok rest.
Proof. intros [? ?|? ? ?] (a1 & tx & reply & [? ?|? ? ?] & R & E); by simplify_eq/=. Qed.

Lemma chosen_type au m a : chosen au m = Some a -> auth_type a = m.
Proof. intros H. apply find_some in H as [_ H]. by apply Z.eqb_eq. Qed.

Lemma two_bytes (l : list Z) : zlen l = 2 -> exists x y, l = [x; y].
Proof. destruct l as [|x [|y [|z l]]]; try done. { by exists x, y. } rewrite !zlen_cons. pose proof (zlen_nonneg l). lia. Qed.
Lemma four_bytes (l : list Z) : zlen l = 4 -> exists x y z w, l = [x; y; z; w].
Proof.
  destruct l as [|x [|y [|z [|w [|a l]]]]]; try done. { by exists x, y, z, w. }
  rewrite !zlen_cons. pose proof (zlen_nonneg l). lia.
Qed.

Lemma read_ok o b n d : buffer o = Some b -> 0 <= n <= zlen b -> sub b 0 n = d -> read o 0 n = Some d.
Proof. intros Hb Hn <-. unfold read. rewrite Hb. simpl. by bool_true. Qed.

(** The client has the I/O objects for control, idle, and the buffer [b]. *)
Definition idle (o : t) (b : list Z) : Prop :=
  con o = IO_CONTROL /\ buffer o = Some b /\ send_if o = PIdle /\ recv_if o = SRIdle.
Definition dest_ok (dest : BAddr) : Prop := addr_ok dest /\ (addr_type dest = 1 \/ addr_type dest = 2).

(** The authentication is complete. *)
Lemma authenticated_step o b txa rx : idle o b -> dest_ok (dest_addr o) -> authenticated (auths o) rx txa ->
  outcome o (hello_msg (auths o) ++ txa) rx (refused (auths o) rx) (auth_finished o).
Proof.
  intros (Hc & _ & Hs & Hr) [Ha Ht] H.
  destruct (auth_finished_ok o Hc Hs Hr Ha Ht) as [[E W]|(o' & E & Hst & S & Hau & Hd)].
  - exists o, (Some EVENT_ERROR). do 3 (split; [done|]). left. split; [done|]. by left.
  - exists o', None. do 3 (split; [done|]). right. split; [by left|]. unfold phase. rewrite Hst, Hau, Hd. by exists txa.
Qed.

Lemma write_password o b a (k : t -> result) : buffer o = Some b -> zlen b = 1 + 1 + zlen (username a) + 1 + zlen (password a) ->
  usable a ->
  (o ← write o 0 [1]; o ← write o 1 [u8 (zlen (username a))]; o ← write o 2 (username a);
   o ← write o (2 + zlen (username a)) [u8 (zlen (password a))];
   o ← write o (3 + zlen (username a)) (password a); k o) = k (with_buffer o (Some (password_msg a))).
Proof.
  intros Hb Hz [Hu Hp]. set (u := username a) in *. set (p := password a) in *.
  destruct b as [|x [|y b]]; [rewrite zlen_nil in Hz; lia|rewrite zlen_cons, zlen_nil in Hz; lia|]. rewrite !zlen_cons in Hz.
  rewrite (write_at o [] (x :: y :: b)); [|done|done|unfold zlen; simpl; lia]. cbn [mbind option_bind].
  rewrite (write_at _ [1] (y :: b)); [|done|done|unfold zlen; simpl; lia]. cbn [mbind option_bind].
  change (drop _ (y :: b)) with b. rewrite (write_at _ [1; u8 (zlen u)] b); [|done|done|lia]. cbn [mbind option_bind].
  assert (exists z q, drop (Z.to_nat (zlen u)) b = z :: q /\ zlen q = zlen p) as (z & q & -> & Hq).
  { assert (zlen (drop (Z.to_nat (zlen u)) b) = 1 + zlen p) as H by (unfold zlen in *; rewrite length_drop; lia).
    destruct (drop _ b) as [|z q]; [rewrite zlen_nil in H; lia|]. rewrite zlen_cons in H. exists z, q. split; [done|lia]. }
  rewrite (write_at _ ([1; u8 (zlen u)] ++ u) (z :: q));
    [|by rewrite <- app_assoc|rewrite zlen_app; done|unfold zlen; simpl; lia]. cbn [mbind option_bind].
  rewrite (write_at _ (([1; u8 (zlen u)] ++ u) ++ [u8 (zlen p)]) q);
    [|by rewrite <- !app_assoc|rewrite !zlen_app; change (zlen [_; _]) with 2; change (zlen [_]) with 1; lia|lia].
  cbn [mbind option_bind]. rewrite (drop_ge q) by (unfold zlen in *; lia). rewrite app_nil_r. unfold password_msg. fold u p.
  rewrite !uwrap_small by lia. by rewrite <- !app_assoc.
Qed.

Lemma password_len a : zlen (password_msg a) = 1 + 1 + zlen (username a) + 1 + zlen (password a).
Proof. unfold password_msg. rewrite !zlen_app. change (zlen [_; _]) with 2. change (zlen [_]) with 1. lia. Qed.

Lemma hello_step o b v m : idle o b -> 2 <= zlen b -> sub b 0 2 = [v; m] -> dest_ok (dest_addr o) -> types_ok (auths o) ->
  outcome o (hello_msg (auths o)) [v; m] (refused (auths o) [v; m]) (received_hello o).
Proof.
  intros I Hz Hsub Hd Ht. pose proof I as (Hc & Hb & Hs & Hr). unfold received_hello.
  rewrite (read_ok o b sizeof_server_hello [v; m]) by (done || unfold sizeof_server_hello; lia).
  cbn [mbind option_bind lookup list_lookup]. unfold SOCKS_VERSION, ntoh8, hton8.
  assert (v = 5 \/ v <> 5) as [-> |Hv] by lia; [|bool_true; apply outcome_error; right; intros [rest H];
    by destruct (valid_hello _ _ _ _ H) as [? _]]. bool_false. fold (chosen (auths o) m).
  destruct (chosen (auths o) m) as [ai|] eqn:Hm; [|apply outcome_error; right; intros [rest H];
    destruct (valid_hello _ _ _ _ H) as [_ (a & ? & _)]; congruence].
  pose proof (chosen_type _ _ _ Hm) as Hty. unfold SOCKS_METHOD_NO_AUTHENTICATION_REQUIRED, SOCKS_METHOD_USERNAME_PASSWORD.
  assert (m = 0 \/ m = 2) as [-> | ->].
  { apply find_some in Hm as [Hm _]. apply list_elem_of_In in Hm.
    pose proof (proj1 (list.Forall_forall _ _) Ht ai Hm) as H. simpl in H. lia. }
  - bool_true. rewrite <- (app_nil_r (hello_msg _)). apply (authenticated_step o b); [done|done|]. by econstructor.
  - bool_false. bool_true. case_if.
    + apply outcome_error. right. intros [rest H]. destruct (valid_hello _ _ _ _ H) as [_ (a & Ha & [?|(_ & [U1 U2] & _)])]; [done|].
      simplify_eq. pose proof (zlen_nonneg (username ai)). pose proof (zlen_nonneg (password ai)).
      repeat (first [destruct E as [E|E] | progress reflect_bool]); lia.
    + pose proof (zlen_nonneg (username ai)). pose proof (zlen_nonneg (password ai)).
      destruct (reserve_ok o (bsize_fromsize (1 + 1 + zlen (username ai) + 1 + zlen (password ai))) (1 + 1 + zlen (username ai) + 1 + zlen (password ai)))
        as [[-> ?]|(b' & -> & Hb' & Hv)]; [by apply small_size; lia|lia|by apply outcome_error; left|].
      rewrite (write_password (with_buffer o (Some b')) b' ai (fun o => o ← send_buffer o (value (bsize_fromsize (1 + 1 + zlen (username ai) + 1 + zlen (password ai)))); Some (with_state o SENDING_PASSWORD, None)));
        [|done|done|split; lia]. rewrite Hv. cbv beta.
      rewrite send_buffer_ok by (done || unfold INT_MAX; lia). cbn [mbind option_bind].
      do 2 eexists. do 3 (split; [done|]). right. split; [by left|]. unfold phase. cbn [st with_state].
      exists ai. split; [done|]. split; [split; lia|]. split; [|done]. unfold sending. by rewrite password_len.
Qed.

Lemma password_step o b a x y : idle o b -> 2 <= zlen b -> sub b 0 2 = [x; y] -> dest_ok (dest_addr o) ->
  chosen (auths o) 2 = Some a -> usable a ->
  outcome o (hello_msg (auths o) ++ password_msg a) [5; 2; x; y] (refused (auths o) [5; 2; x; y]) (received_password_reply o).
Proof.
  intros I Hz Hsub Hd Hm Hu. pose proof I as (Hc & Hb & Hs & Hr). unfold received_password_reply.
  rewrite (read_ok o b 2 [x; y]) by (done || lia). cbn [mbind option_bind lookup list_lookup].
  assert (x <> 1 \/ y <> 0 -> hopeless (auths o) [5; 2; x; y]) as Hno.
  { intros N [rest H]. destruct (valid_hello _ _ _ _ H) as [_ (a' & _ & [?|(_ & _ & r & E)])]; [done|]. simplify_eq. lia. }
  case_if; [apply outcome_error; right; apply Hno; lia|]. case_if; [apply outcome_error; right; apply Hno; lia|].
  subst. apply (authenticated_step o b); [done|done|]. by constructor.
Qed.

Lemma addr_len_cases atyp : (if ntoh8 atyp =? SOCKS_ATYP_IPV4 then Some sizeof_addr_ipv4
    else if ntoh8 atyp =? SOCKS_ATYP_IPV6 then Some sizeof_addr_ipv6 else None) = addr_len atyp.
Proof. done. Qed.
Lemma addr_len_range atyp n : addr_len atyp = Some n -> 0 < n <= 18.
Proof. unfold addr_len. repeat case_if; intros; simplify_eq; lia. Qed.

Lemma reply_step o b tx rxa txa v r rsv atyp : idle o b -> zlen b = 22 -> sub b 0 4 = [v; r; rsv; atyp] ->
  authenticated (auths o) rxa txa -> tx = hello_msg (auths o) ++ txa ++ request_msg (dest_addr o) ->
  outcome o tx (rxa ++ [v; r; rsv; atyp]) (refused (auths o) (rxa ++ [v; r; rsv; atyp])) (received_reply_header o).
Proof.
  intros I Hz Hsub HA ->. pose proof I as (Hc & Hb & Hs & Hr). unfold received_reply_header.
  rewrite (read_ok o b sizeof_reply_header [v; r; rsv; atyp]) by (done || unfold sizeof_reply_header; lia).
  cbn [mbind option_bind lookup list_lookup]. unfold SOCKS_VERSION, SOCKS_REP_SUCCEEDED.
  assert (v <> 5 \/ r <> 0 \/ addr_len atyp = None -> hopeless (auths o) (rxa ++ [v; r; rsv; atyp])) as Hno.
  { intros N [rest H]. rewrite <- app_assoc in H. destruct (valid_after_auth _ _ _ _ HA H) as (? & ? & ? & ? & E & ? & _).
    simplify_eq/=. destruct N as [N|[N|N]]; congruence. }
  unfold ntoh8 at 1 2, hton8 at 1 2. case_if; [apply outcome_error; right; apply Hno; lia|]. case_if; [apply outcome_error; right; apply Hno; lia|].
  rewrite addr_len_cases. destruct (addr_len atyp) as [n|] eqn:En; [|apply outcome_error; right; apply Hno; by do 2 right].
  pose proof (addr_len_range _ _ En). rewrite start_receive_ok by (done || lia). cbn [mbind option_bind]. subst.
  do 2 eexists. do 3 (split; [done|]). right. split; [by left|]. unfold phase. cbn [st with_state].
  exists rxa, txa, rsv, atyp, n, []. split; [done|]. split; [done|]. split; [|done].
  unfold receiving. simpl. do 5 (split; [done|]). split; [rewrite zlen_nil; lia|]. split; [done|]. by exists b.
Qed.

(** The bytes did not complete the message. *)
Lemma partial_step o b dest total size got data len : receiving o dest total size got -> buffer o = Some b -> 0 <= dest ->
  dest + total <= size -> 0 < len <= zlen data -> zlen data <= total - zlen got -> zlen got + len < total ->
  exists o', recv_handler_done (with_recv (with_buffer o (Some (splice b (dest + zlen got) data))) SRIdle) len = Some (o', None) /\
    auths o' = auths o /\ dest_addr o' = dest_addr o /\ st o' = st o /\
    receiving o' dest total size (got ++ take (Z.to_nat len) data).
Proof.
  intros (Hc & Hs & Hde & Hto & Hle & Hlt & Hr & b0 & Hb0 & Hz & Hg) Hb Hd Ht Hl Ha Hp. assert (b0 = b) as -> by congruence. subst dest total size.
  destruct (arrived b (recv_dest o) (recv_total o) got data len) as (H1 & H2 & H3 & H4); [done|lia|done|done|done|].
  unfold recv_handler_done. cbn [with_recv with_buffer recv_total recv_len recv_dest]. rewrite Hle. do 2 bool_true.
  unfold with_recv_pos, do_receive, StreamRecvInterface_Receiver_Recv. cbn. do 2 bool_true.
  cbn. eexists. do 4 (split; [done|]). unfold receiving. cbn [con send_if recv_dest recv_total recv_len recv_if buffer].
  rewrite H3. split; [done|]. do 4 (split; [done|]). split; [lia|]. split; [f_equal; lia|]. eexists. split; [done|].
  split; [done|]. by rewrite <- H3.
Qed.

(** The bytes completed the message. *)
Lemma full_step o b dest total size got data len : receiving o dest total size got -> buffer o = Some b -> 0 <= dest ->
  dest + total <= size -> 0 < len <= zlen data -> zlen data <= total - zlen got -> ~ zlen got + len < total ->
  exists o' b', recv_handler_done (with_recv (with_buffer o (Some (splice b (dest + zlen got) data))) SRIdle) len =
      match st o with
      | SENT_HELLO => received_hello o'
      | SENT_REQUEST => received_reply_header o'
      | SENT_PASSWORD => received_password_reply o'
      | RECEIVED_REPLY_HEADER => Some (with_state (init_up_io (free_control_io (with_buffer o' None))) UP, Some EVENT_UP)
      | _ => None
      end /\ auths o' = auths o /\ dest_addr o' = dest_addr o /\ idle o' b' /\ zlen b' = size /\
    zlen (got ++ take (Z.to_nat len) data) = total /\ sub b' dest total = got ++ take (Z.to_nat len) data.
Proof.
  intros (Hc & Hs & Hde & Hto & Hle & Hlt & Hr & b0 & Hb0 & Hz & Hg) Hb Hd Ht Hl Ha Hp. assert (b0 = b) as -> by congruence. subst dest total size.
  destruct (arrived b (recv_dest o) (recv_total o) got data len) as (H1 & H2 & H3 & H4); [done|lia|done|done|done|].
  unfold recv_handler_done. cbn [with_recv with_buffer recv_total recv_len recv_dest]. rewrite Hle. do 2 bool_true.
  cbn [with_recv_pos recv_len recv_total st]. bool_false. eexists _, _. split; [done|]. do 2 (split; [done|]).
  split; [done|]. split; [done|]. split; [lia|]. rewrite <- H4. f_equal. lia.
Qed.

Lemma outcome_auths o o1 tx rx why r : auths o1 = auths o -> dest_addr o1 = dest_addr o -> outcome o1 tx rx why r -> outcome o tx rx why r.
Proof. intros Ha Hd (o' & ev & E & ? & ? & H). exists o', ev. split; [done|]. split; [congruence|]. by split; [congruence|]. Qed.

Lemma receiving_buffer o dest total size got : receiving o dest total size got ->
  exists b, buffer o = Some b /\ zlen b = size /\ recv_if o = SRBusy (dest + zlen got) (total - zlen got).
Proof. intros (_ & _ & _ & _ & _ & _ & Hr & b & Hb & Hz & _). by exists b. Qed.

(** What the state receives: where, how much, and how the phase depends on it. *)
Lemma recv_phase o tx rx d avail : phase o tx rx -> recv_if o = SRBusy d avail ->
  exists dest total size rx0 got, rx = rx0 ++ got /\ receiving o dest total size got /\ 0 <= dest /\ dest + total <= size /\
    (forall o' got', auths o' = auths o -> dest_addr o' = dest_addr o -> st o' = st o -> receiving o' dest total size got' ->
      phase o' tx (rx0 ++ got')) /\
    (forall o' b got', types_ok (auths o) -> dest_ok (dest_addr o) -> auths o' = auths o -> dest_addr o' = dest_addr o -> idle o' b ->
      zlen b = size -> zlen got' = total -> sub b dest total = got' ->
      outcome o tx (rx0 ++ got') (refused (auths o) (rx0 ++ got')) (match st o with
      | SENT_HELLO => received_hello o'
      | SENT_REQUEST => received_reply_header o'
      | SENT_PASSWORD => received_password_reply o'
      | RECEIVED_REPLY_HEADER => Some (with_state (init_up_io (free_control_io (with_buffer o' None))) UP, Some EVENT_UP)
      | _ => None
      end)).
Proof.
  intros H Hr. unfold phase in H. destruct (st o) eqn:Hst;
    try (exfalso; repeat match goal with H : exists _, _ |- _ => destruct H | H : _ /\ _ |- _ => destruct H end;
      unfold sending in *; destruct_and?; congruence).
  - destruct H as [R ->]. exists 0, 2, 2, [], rx. do 3 (split; [done|]). split; [lia|]. split.
    + intros o' got' Ha Hd Hs' R'. unfold phase. rewrite Hs', Ha. done.
    + intros o' b got' Ht Hdo Ha Hd I Hz Hg Hsub. destruct (two_bytes _ Hg) as (x & y & ->). apply (outcome_auths _ o'); [done|done|].
      rewrite <- Ha in *. rewrite <- Hd in *. apply (hello_step o' b); [done|lia|done|done|done].
  - destruct H as (a & got & Hm & Hu & R & -> & ->). exists 0, 2, 2, [5; 2], got. do 3 (split; [done|]). split; [lia|]. split.
    + intros o' got' Ha Hd Hs' R'. unfold phase. rewrite Hs', Ha. by exists a, got'.
    + intros o' b got' Ht Hdo Ha Hd I Hz Hg Hsub. destruct (two_bytes _ Hg) as (x & y & ->). apply (outcome_auths _ o'); [done|done|].
      rewrite <- Ha in *. rewrite <- Hd in *. apply (password_step o' b a); [done|lia|done|done|done|done].
  - destruct H as (rxa & txa & got & HA & R & -> & ->). exists 0, 4, 22, rxa, got. do 3 (split; [done|]). split; [lia|]. split.
    + intros o' got' Ha Hd Hs' R'. unfold phase. rewrite Hs', Ha, Hd. by exists rxa, txa, got'.
    + intros o' b got' Ht Hdo Ha Hd I Hz Hg Hsub. destruct (four_bytes _ Hg) as (x & y & z & w & ->). apply (outcome_auths _ o'); [done|done|].
      rewrite <- Ha in *. rewrite <- Hd in *. by apply (reply_step o' b _ rxa txa).
  - destruct H as (rxa & txa & rsv & atyp & n & got & HA & Hn & R & -> & ->). pose proof (addr_len_range _ _ Hn).
    exists 4, n, 22, (rxa ++ [5; 0; rsv; atyp]), got. split; [by rewrite <- app_assoc|]. do 2 (split; [done|]). split; [lia|]. split.
    + intros o' got' Ha Hd Hs' R'. unfold phase. rewrite Hs', Ha, Hd. exists rxa, txa, rsv, atyp, n, got'. by rewrite <- app_assoc.
    + intros o' b got' Ht Hdo Ha Hd I Hz Hg Hsub. do 2 eexists. do 3 (split; [done|]). right. split; [by right|].
      unfold phase. simpl. do 4 (split; [done|]). rewrite Ha, Hd. exists rxa, txa, ([5; 0; rsv; atyp] ++ got').
      split; [done|]. split; [by exists rsv, atyp, n, got'|]. split; [done|]. by rewrite <- app_assoc.
Qed.

Lemma recv_step o tx rx d avail data len : phase o tx rx -> types_ok (auths o) -> dest_ok (dest_addr o) ->
  recv_if o = SRBusy d avail -> 0 < len <= zlen data -> zlen data <= avail ->
  exists b, buffer o = Some b /\ d + zlen data <= zlen b /\
    outcome o tx (rx ++ take (Z.to_nat len) data) (refused (auths o) (rx ++ take (Z.to_nat len) data))
      (recv_handler_done (with_recv (with_buffer o (Some (splice b d data))) SRIdle) len).
Proof.
  intros H Ht Hd Hr Hl Ha.
  destruct (recv_phase _ _ _ _ _ H Hr) as (dest & total & size & rx0 & got & -> & R & Hde & Hsz & HP & HF).
  destruct (receiving_buffer _ _ _ _ _ R) as (b & Hb & Hz & Hr'). rewrite Hr in Hr'. injection Hr' as -> ->.
  exists b. split; [done|]. split; [lia|]. rewrite <- app_assoc.
  destruct (decide (zlen got + len < total)) as [Hlt|Hge].
  - destruct (partial_step _ _ _ _ _ _ _ _ R Hb Hde Hsz Hl Ha Hlt) as (o' & E & E1 & E2 & E3 & R').
    exists o', None. do 3 (split; [done|]). right. split; [by left|]. by apply HP.
  - destruct (full_step _ _ _ _ _ _ _ _ R Hb Hde Hsz Hl Ha Hge) as (o' & b' & E & E1 & E2 & I & Hz' & Hg & Hs).
    rewrite E. by apply (HF o' b').
Qed.

(** *** Every event *)
(** Why the event [e] leads to an error; [rx] are all bytes received up to it. *)
Definition failure (o : t) (e : event) (rx : list Z) : Prop :=
  match e with
  | EConnected is_error con_ok => connect_failure o is_error con_ok
  | ESent => out_of_memory
  | ERecv _ _ => refused (auths o) rx
  | EConnection _ => True
  end.

Lemma finish_outcome w tx rx why r : outcome (cl w) tx rx why r ->
  exists w', finish r tx rx = Some w' /\ sent w' = tx /\ rcvd w' = rx /\ inv (auths (cl w)) (dest_addr (cl w)) w' /\
    (alive w' = false -> why).
Proof.
  intros (o' & ev & -> & Ha & Hd & H). eexists. split; [done|]. do 2 (split; [done|]). simpl.
  split; [|by destruct H as [[-> ?]|[[-> | ->] ?]]]. constructor; simpl; [done|done|].
  by destruct H as [[-> ?]|[[-> | ->] ?]].
Qed.

Lemma socks_exec_ok w e : inv (auths (cl w)) (dest_addr (cl w)) w -> types_ok (auths (cl w)) -> dest_ok (dest_addr (cl w)) ->
  enabled w e = true ->
  exists w', exec w e = Some w' /\ inv (auths (cl w)) (dest_addr (cl w)) w' /\ (alive w' = false -> failure (cl w) e (rcvd w')).
Proof.
  intros [_ _ HP] Ht Hd He. unfold enabled in He. apply andb_true_iff in He as [Hal He]. specialize (HP Hal).
  unfold exec. destruct e as [is_error con_ok| |data len|closed].
  - apply bool_decide_eq_true in He.
    destruct (finish_outcome w _ _ _ _ (connect_step _ _ _ is_error con_ok HP He Ht)) as (w' & E & _ & _ & Hi & Hf). by exists w'.
  - destruct (send_if (cl w)) as [|d len] eqn:Es; [done|].
    destruct (sent_step _ _ _ _ _ HP Es) as (msg & Hb & -> & -> & Ho). rewrite Hb, sub_0_all.
    destruct (finish_outcome w _ _ _ _ Ho) as (w' & E & _ & _ & Hi & Hf). by exists w'.
  - destruct (recv_if (cl w)) as [|d avail] eqn:Er; [done|]. reflect_bool.
    destruct (recv_step _ _ _ _ _ data len HP Ht Hd Er) as (b & Hb & Hz & Ho); [lia|done|]. rewrite Hb. bool_true.
    destruct (finish_outcome w _ _ _ _ Ho) as (w' & E & _ & Hrx & Hi & Hf). exists w'. split; [done|]. split; [done|].
    simpl. by rewrite Hrx.
  - unfold connection_handler. rewrite He.
    destruct (bool_decide (st (cl w) = UP) && closed); (eexists; split; [done|]; split; [by constructor|done]).
Qed.

Section Reachable.
Context (server dest : BAddr) (au : list auth_info) (o0 : t).
Context (Hinit : BSocksClient_Init server au dest true = Some (inr o0)) (Hdest : addr_ok dest).
Let w0 := mkw o0 true [] [].

Lemma init_facts : types_ok au /\ dest_ok dest /\ inv au dest w0.
Proof.
  clear realloc_size. revert Hinit. unfold BSocksClient_Init. repeat case_if; try done. intros [= Ho]. split_and!.
  - apply list.Forall_forall. intros a Ha. apply list_elem_of_In in Ha. rewrite forallb_forall in *.
    match goal with H : forall x, _ |- _ => specialize (H a Ha); apply orb_true_iff in H as [H|H]; apply Z.eqb_eq in H end; [by left|by right].
  - split; [done|]. destruct E0; reflect_bool; auto.
  - unfold w0. rewrite <- Ho. by constructor.
Qed.

Lemma socks_reach_inv w : reach w0 w -> inv au dest w.
Proof.
  destruct init_facts as (Ht & Hd & Hi). induction 1 as [|w e w' _ IH He E]; [done|].
  pose proof IH as [<- <- _]. destruct (socks_exec_ok w e IH Ht Hd He) as (w1 & E1 & I1 & _). congruence.
Qed.

Lemma socks_reach_exec w e : reach w0 w -> enabled w e = true ->
  exists w', exec w e = Some w' /\ inv au dest w' /\ (alive w' = false -> failure (cl w) e (rcvd w')).
Proof.
  intros Hw He. destruct init_facts as (Ht & Hd & _). pose proof (socks_reach_inv w Hw) as I. pose proof I as [<- <- _].
  by apply socks_exec_ok.
Qed.
End Reachable.

(** The number of operations the client has outstanding on its control I/O objects. *)
Definition outstanding (o : t) : nat :=
  ((match send_if o with PIdle => 0 | PBusy _ _ => 1 end) + (match recv_if o with SRIdle => 0 | SRBusy _ _ => 1 end))%nat.
Definition expected_outstanding (s : state) : nat := match s with CONNECTING | UP => 0 | _ => 1 end.
Definition expected_io (s : state) : io := match s with CONNECTING => IO_NONE | UP => IO_UP | _ => IO_CONTROL end.

Lemma phase_io o tx rx : phase o tx rx ->
  con o = expected_io (st o) /\ outstanding o = expected_outstanding (st o) /\
  (is_Some (buffer o) <-> expected_outstanding (st o) = 1%nat).
Proof.
  intros H. unfold phase in H. unfold outstanding.
  destruct (st o); repeat match goal with H : exists _, _ |- _ => destruct H | H : _ /\ _ |- _ => destruct H end;
    unfold sending, receiving in *;
    repeat match goal with H : exists _, _ |- _ => destruct H | H : _ /\ _ |- _ => destruct H end;
    repeat match goal with H : send_if o = _ |- _ => rewrite H; clear H | H : recv_if o = _ |- _ => rewrite H; clear H
      | H : buffer o = _ |- _ => rewrite H; clear H end; (split; [done|]; split; [done|]);
    (split; [intros Hs; first [done | by destruct Hs] | intros; first [done | by eexists]]).
Qed.

(** C9: the SOCKS client violates no assertion and accesses its buffer within bounds: from a
    successful [BSocksClient_Init], in every state reached by any interleaving of connection,
    sending, receiving and error events and any answers of the server and of the allocator, every
    enabled event runs; and until an error is reported, the I/O objects that exist are those that
    [BSocksClient_Free] frees in this state, and exactly one operation is outstanding while the
    client negotiates, and none before and after. *)
Theorem socks_client_safe server dest au o0 w :
  BSocksClient_Init server au dest true = Some (inr o0) -> addr_ok dest -> reach (mkw o0 true [] []) w ->
  (forall e, enabled w e = true -> is_Some (exec w e)) /\
  (alive w = true -> con (cl w) = expected_io (st (cl w)) /\ con (BSocksClient_Free (cl w)) = IO_NONE /\
    outstanding (cl w) = expected_outstanding (st (cl w)) /\
    (is_Some (buffer (cl w)) <-> expected_outstanding (st (cl w)) = 1%nat)).
Proof.
  intros Hi Ha Hw. split.
  - intros e He. destruct (socks_reach_exec _ _ _ _ Hi Ha w e Hw He) as (w' & -> & _). done.
  - intros Hal. pose proof (socks_reach_inv _ _ _ _ Hi Ha w Hw) as [_ _ HP]. apply HP in Hal. apply phase_io in Hal as (H1 & H2 & H3).
    split; [done|]. split; [|done]. unfold BSocksClient_Free. by destruct (st (cl w)).
Qed.

(** C8: the SOCKS client reports that it is up only after a complete dialog: when it is up, what
    the server sent is the acceptance of a method the client offered, for the method
    username/password the acceptance of the first user name and password configured, and a
    positive reply with a bound address of its announced type; and what the client sent is its
    offer, the authentication and the request to connect to the destination, nothing else. *)
Theorem socks_client_up server dest au o0 w :
  BSocksClient_Init server au dest true = Some (inr o0) -> addr_ok dest -> reach (mkw o0 true [] []) w ->
  alive w = true -> st (cl w) = UP ->
  exists rxa txa reply, authenticated au rxa txa /\ reply_ok reply /\
    rcvd w = rxa ++ reply /\ sent w = hello_msg au ++ txa ++ request_msg dest.
Proof.
  intros Hi Ha Hw Hal Hst. pose proof (socks_reach_inv _ _ _ _ Hi Ha w Hw) as [<- <- HP]. apply HP in Hal.
  unfold phase in Hal. rewrite Hst in Hal. destruct Hal as (_ & _ & _ & _ & rxa & txa & reply & H1 & H2 & H3 & H4).
  by exists rxa, txa, reply.
Qed.

(** the SOCKS client fails only for a reason: an event after which it reported an error is a
    failed connection attempt, an error of the connection, an allocation that failed, a number of
    methods that is not 1 to 255 or, on receiving, bytes of the server that no continuation
    makes a dialog acceptable for the configured methods. *)
Theorem socks_client_errors server dest au o0 w e w' :
  BSocksClient_Init server au dest true = Some (inr o0) -> addr_ok dest -> reach (mkw o0 true [] []) w ->
  enabled w e = true -> exec w e = Some w' -> alive w' = false ->
  match e with
  | EConnected is_error con_ok => is_error = true \/ con_ok = false \/ ~ (1 <= zlen au <= 255) \/ out_of_memory
  | ESent => out_of_memory
  | ERecv _ _ => out_of_memory \/ ~ exists rest, valid_dialog au (rcvd w' ++ rest)
  | EConnection _ => True
  end.
Proof.
  intros Hi Ha Hw He E Hal. destruct (socks_reach_exec _ _ _ _ Hi Ha w e Hw He) as (w1 & E1 & _ & Hf).
  rewrite E in E1. injection E1 as <-. pose proof (socks_reach_inv _ _ _ _ Hi Ha w Hw) as [<- _ _].
  specialize (Hf Hal). by destruct e.
Qed.

End Realloc.

(** ** A run *)
Fixpoint run (realloc : option (list Z) -> Z -> option (list Z)) (w : world) (es : list event) : option world :=
  match es with
  | [] => Some w
  | e :: es => if enabled w e then w ← exec realloc w e; run realloc w es else None
  end.

Lemma run_reach realloc es : forall w0 w w', reach realloc w0 w -> run realloc w es = Some w' -> reach realloc w0 w'.
Proof.
  induction es as [|e es IH]; intros w0 w w' Hr; simpl; [by intros [= <-]|]. destruct (enabled w e) eqn:He; [|done].
  destruct (exec realloc w e) as [w1|] eqn:E; [|done]. apply IH. by eapply reach_step.
Qed.

(** An allocator that always succeeds. *)
Definition demo_realloc (m : option (list Z)) (n : Z) : option (list Z) := zeros n.
Lemma demo_realloc_size m n b : 0 < n -> demo_realloc m n = Some b -> zlen b = n.
Proof. intros _. apply zeros_size. Qed.

Definition demo_auths : list auth_info := [BSocksClient_auth_none; BSocksClient_auth_password [97; 98] [99]].
Definition demo_server : BAddr := ADDR_IPV4 16777343 14340.
Definition demo_dest : BAddr := ADDR_IPV4 16909060 20480.
Definition demo_client : t :=
  Eval vm_compute in match BSocksClient_Init demo_server demo_auths demo_dest true with
    | Some (inr o) => o | _ => mk [] demo_dest CONNECTING None IO_NONE PIdle SRIdle 0 0 0 end.
(** The server asks for the password, accepts it, and accepts the request. *)
Definition demo_events : list event :=
  [EConnected false true; ESent; ERecv [5] 1; ERecv [2] 1; ESent; ERecv [1; 0] 2; ESent; ERecv [5; 0; 0; 1] 4;
   ERecv [1; 2; 3] 2; ERecv [3; 4; 0; 80] 4].
Definition demo_up : world :=
  Eval vm_compute in default (mkw demo_client false [] []) (run demo_realloc (mkw demo_client true [] []) demo_events).
(** The client while it waits for the reply to its password. *)
Definition demo_wait : world :=
  Eval vm_compute in default (mkw demo_client false [] []) (run demo_realloc (mkw demo_client true [] []) (take 5 demo_events)).

Lemma socks_client_safe_witness :
  reach demo_realloc (mkw demo_client true [] []) demo_wait /\ st (cl demo_wait) = SENT_PASSWORD /\
  outstanding (cl demo_wait) = 1%nat /\ is_Some (exec demo_realloc demo_wait (ERecv [1; 0] 2)).
Proof.
  assert (reach demo_realloc (mkw demo_client true [] []) demo_wait) as R
    by (apply (run_reach _ (take 5 demo_events) _ (mkw demo_client true [] [])); [constructor|vm_compute; reflexivity]).
  split; [exact R|]. split; [reflexivity|].
  destruct (socks_client_safe demo_realloc demo_realloc_size demo_server demo_dest demo_auths demo_client demo_wait) as [He Hio];
    [reflexivity|simpl; lia|exact R|].
  destruct (Hio eq_refl) as (_ & _ & Ho & _). split; [exact Ho|apply He; vm_compute; reflexivity].
Defined.

Lemma socks_client_up_witness :
  reach demo_realloc (mkw demo_client true [] []) demo_up /\
  exists rxa txa reply, authenticated demo_auths rxa txa /\ reply_ok reply /\
    rcvd demo_up = rxa ++ reply /\ sent demo_up = hello_msg demo_auths ++ txa ++ request_msg demo_dest.
Proof.
  assert (reach demo_realloc (mkw demo_client true [] []) demo_up) as R
    by (apply (run_reach _ demo_events _ (mkw demo_client true [] [])); [constructor|vm_compute; reflexivity]).
  split; [exact R|].
  apply (socks_client_up demo_realloc demo_realloc_size demo_server demo_dest demo_auths demo_client demo_up);
    [reflexivity|simpl; lia|exact R|reflexivity|reflexivity].
Defined.

(** A negative reply to the password. *)
Definition demo_refused : world :=
  Eval vm_compute in default (mkw demo_client false [] []) (exec demo_realloc demo_wait (ERecv [1; 1] 2)).

Lemma socks_client_errors_witness :
  alive demo_refused = false /\ rcvd demo_refused = [5; 2; 1; 1] /\
  (out_of_memory demo_realloc \/ ~ exists rest, valid_dialog demo_auths (rcvd demo_refused ++ rest)).
Proof.
  split; [reflexivity|]. split; [reflexivity|].
  apply (socks_client_errors demo_realloc demo_realloc_size demo_server demo_dest demo_auths demo_client demo_wait
    (ERecv [1; 1] 2) demo_refused); [reflexivity|simpl; lia| |vm_compute; reflexivity|vm_compute; reflexivity|reflexivity].
  apply (run_reach _ (take 5 demo_events) _ (mkw demo_client true [] [])); [constructor|vm_compute; reflexivity].
Defined.
