(* ===== verification/LinkedList1.v ===== *)
(** * Doubly linked list (structure/LinkedList1.h)

    The intrusive list that keeps connections and clients in order of use.  The model keeps the
    heap of nodes with their pointers and the list's two end pointers; the theorem shows that
    every operation implements the operation of the same name on a mathematical list. *)

From stdpp Require Import gmap.
From Stdlib Require List.
From S2P Require Import Prelude.

Module LinkedList1.

Abbreviation ptr := positive.

(** [LinkedList1Node] *)
Record node := mk_node { p : option ptr; n : option ptr }.
(** [LinkedList1], with the heap its nodes live in. *)
Record t := mk { heap : gmap ptr node; first : option ptr; last : option ptr }.

Definition with_first (s : t) (f : option ptr) : t := mk (heap s) f (last s).
Definition with_last (s : t) (l : option ptr) : t := mk (heap s) (first s) l.

(** Stores through a pointer; [None]: it points to no node. *)
Definition set_p (s : t) (x : ptr) (v : option ptr) : option t :=
  e ← heap s !! x; Some (mk (<[x := mk_node v (n e)]> (heap s)) (first s) (last s)).
Definition set_n (s : t) (x : ptr) (v : option ptr) : option t :=
  e ← heap s !! x; Some (mk (<[x := mk_node (p e) v]> (heap s)) (first s) (last s)).

(** [if (x) { x->n = v; } else { list->first = v; }] *)
Definition set_n_or_first (s : t) (x v : option ptr) : option t :=
  match x with Some x => set_n s x v | None => Some (with_first s v) end.
(** [if (x) { x->p = v; } else { list->last = v; }] *)
Definition set_p_or_last (s : t) (x v : option ptr) : option t :=
  match x with Some x => set_p s x v | None => Some (with_last s v) end.

Definition LinkedList1_Init (s : t) : t := mk (heap s) None None.
Definition LinkedList1_IsEmpty (s : t) : bool := bool_decide (first s = None).
Definition LinkedList1_GetFirst (s : t) : option ptr := first s.
Definition LinkedList1_GetLast (s : t) : option ptr := last s.

Definition LinkedList1_Prepend (s : t) (x : ptr) : option t :=
  s ← set_p s x None;
  s ← set_n s x (first s);
  s ← set_p_or_last s (first s) (Some x);
  Some (with_first s (Some x)).

Definition LinkedList1_Append (s : t) (x : ptr) : option t :=
  s ← set_p s x (last s);
  s ← set_n s x None;
  s ← set_n_or_first s (last s) (Some x);
  Some (with_last s (Some x)).

Definition LinkedList1_InsertBefore (s : t) (x target : ptr) : option t :=
  tg ← heap s !! target;
  s ← set_p s x (p tg);
  s ← set_n s x (Some target);
  tg ← heap s !! target;
  s ← set_n_or_first s (p tg) (Some x);
  set_p s target (Some x).

Definition LinkedList1_InsertAfter (s : t) (x target : ptr) : option t :=
  s ← set_p s x (Some target);
  tg ← heap s !! target;
  s ← set_n s x (n tg);
  tg ← heap s !! target;
  s ← set_p_or_last s (n tg) (Some x);
  set_n s target (Some x).

Definition LinkedList1_Remove (s : t) (x : ptr) : option t :=
  e ← heap s !! x;
  s ← set_n_or_first s (p e) (n e);
  e ← heap s !! x;
  set_p_or_last s (n e) (p e).

(** [ins_first], [ins_last]: the argument [ins_list]. *)
Definition LinkedList1_InsertListAfter (s : t) (ins_first ins_last : option ptr) (target : option ptr) : option t :=
  match ins_first with
  | None => Some s
  | Some f =>
      t_next ← match target with Some tg => e ← heap s !! tg; Some (n e) | None => Some (first s) end;
      s ← set_p s f target;
      l ← ins_last;
      s ← set_n s l t_next;
      s ← set_n_or_first s target (Some f);
      set_p_or_last s t_next (Some l)
  end.

Definition LinkedList1Node_Next (s : t) (x : ptr) : option (option ptr) := e ← heap s !! x; Some (n e).
Definition LinkedList1Node_Prev (s : t) (x : ptr) : option (option ptr) := e ← heap s !! x; Some (p e).

(** ** Representation *)

(** The pointer to the first (last) node of [l], or [o] when there is none. *)
Definition head_or (l : list ptr) (o : option ptr) : option ptr := match l with [] => o | x :: _ => Some x end.
Definition last_or (l : list ptr) (o : option ptr) : option ptr := match list.last l with Some x => Some x | None => o end.

(** The nodes of [l] are linked; before the first comes [a], after the last [b]. *)
Fixpoint dll (h : gmap ptr node) (a : option ptr) (l : list ptr) (b : option ptr) : Prop :=
  match l with
  | [] => True
  | x :: l => h !! x = Some (mk_node a (head_or l b)) /\ dll h (Some x) l b
  end.

Definition rep (s : t) (l : list ptr) : Prop :=
  NoDup l /\ first s = head_or l None /\ last s = last_or l None /\ dll (heap s) None l None.

Lemma last_or_cons x l o : last_or (x :: l) o = last_or l (Some x).
Proof. unfold last_or. rewrite last_cons. by destruct (list.last l). Qed.
Lemma last_or_snoc l x o : last_or (l ++ [x]) o = Some x.
Proof. unfold last_or. by rewrite last_snoc. Qed.
Lemma last_or_app l k o : last_or (l ++ k) o = last_or k (last_or l o).
Proof. unfold last_or. rewrite last_app. by destruct (list.last k). Qed.
Lemma head_or_app l k o : head_or (l ++ k) o = head_or l (head_or k o).
Proof. by destruct l. Qed.

Lemma dll_app h l : forall a k b, dll h a (l ++ k) b <-> dll h a l (head_or k b) /\ dll h (last_or l a) k b.
Proof.
  induction l as [|x l IH]; intros a k b; simpl; [tauto|]. rewrite IH, head_or_app, last_or_cons. tauto.
Qed.

Lemma dll_ext h h' l : forall a b, (forall x, x ∈ l -> h' !! x = h !! x) -> dll h a l b -> dll h' a l b.
Proof.
  induction l as [|x l IH]; intros a b Hx; simpl; [done|]. intros [E D]. split.
  - rewrite Hx; [done|by left].
  - apply IH; [|done]. intros y Hy. apply Hx. by right.
Qed.

(** The two ends of a list that is open in the middle: the nodes [l1] before and [l2] after. *)
Record parts (s : t) (l1 : list ptr) (a b : option ptr) (l2 : list ptr) : Prop := {
  pt_nodup : NoDup (l1 ++ l2);
  pt_first : l1 = [] \/ first s = head_or l1 None;
  pt_last : l2 = [] \/ last s = last_or l2 None;
  pt_left : dll (heap s) None l1 a;
  pt_right : dll (heap s) b l2 None;
}.

Lemma parts_ext s s' l1 a b l2 : parts s l1 a b l2 -> first s' = first s -> last s' = last s ->
  (forall x, x ∈ l1 ++ l2 -> heap s' !! x = heap s !! x) -> parts s' l1 a b l2.
Proof.
  intros [] Hf Hl Hh. constructor; rewrite ?Hf, ?Hl; try done.
  - eapply dll_ext; [|done]. intros x Hx. apply Hh, elem_of_app. by left.
  - eapply dll_ext; [|done]. intros x Hx. apply Hh, elem_of_app. by right.
Qed.

(** The left part is closed with [v]. *)
Lemma left_ok s l1 a b l2 v : parts s l1 a b l2 ->
  exists s', set_n_or_first s (last_or l1 None) v = Some s' /\ parts s' l1 v b l2 /\
    first s' = head_or l1 v /\ last s' = last s /\ (forall x, x ∉ l1 -> heap s' !! x = heap s !! x).
Proof.
  intros [Hn Hf Hl D1 D2]. destruct l1 as [|z l _] using rev_ind.
  { eexists. split; [done|]. split; [|done]. constructor; try done. by left. }
  rewrite last_or_snoc. simpl. apply dll_app in D1 as [D1 [E _]]. unfold set_n. rewrite E. simpl. eexists. split; [done|].
  apply list.NoDup_app in Hn as (Hn1 & Hd & Hn2). pose proof Hn1 as (_ & Hz & _)%list.NoDup_app.
  split; [constructor; simpl|].
  - by apply list.NoDup_app.
  - right. destruct Hf as [Hf|Hf]; [by destruct l|done].
  - done.
  - apply dll_app. split; simpl.
    + eapply dll_ext; [|done]. intros x Hx. apply lookup_insert_ne. intros ->. apply (Hz x Hx). by left.
    + split; [|done]. by rewrite lookup_insert_eq.
  - eapply dll_ext; [|done]. intros x Hx. apply lookup_insert_ne. intros ->. apply (Hd x); [|done]. apply elem_of_app. right. by left.
  - split; [|split; [done|]].
    + destruct Hf as [Hf|Hf]; [by destruct l|]. simpl. rewrite Hf. by destruct l.
    + intros x Hx. apply lookup_insert_ne. intros ->. apply Hx, elem_of_app. right. by left.
Qed.

(** The right part is closed with [v]. *)
Lemma right_ok s l1 a b l2 v : parts s l1 a b l2 ->
  exists s', set_p_or_last s (head_or l2 None) v = Some s' /\ parts s' l1 a v l2 /\
    first s' = first s /\ last s' = last_or l2 v /\ (forall x, x ∉ l2 -> heap s' !! x = heap s !! x).
Proof.
  intros [Hn Hf Hl D1 D2]. destruct l2 as [|z l].
  { eexists. split; [done|]. split; [|done]. constructor; try done. by left. }
  simpl in *. destruct D2 as [E D2]. unfold set_p. rewrite E. simpl. eexists. split; [done|].
  pose proof Hn as (Hn1 & Hd & Hn2)%list.NoDup_app. apply list.NoDup_cons in Hn2 as [Hz Hn2].
  split; [constructor; simpl|].
  - done.
  - done.
  - right. by destruct Hl.
  - eapply dll_ext; [|done]. intros x Hx. apply lookup_insert_ne. intros ->. apply (Hd x Hx). by left.
  - split; [by rewrite lookup_insert_eq|]. eapply dll_ext; [|done]. intros x Hx. apply lookup_insert_ne. by intros ->.
  - split; [done|]. split.
    + destruct Hl as [|Hl]; [done|]. simpl. rewrite Hl, !last_or_cons. done.
    + intros x Hx. apply lookup_insert_ne. intros ->. apply Hx. by left.
Qed.

Lemma rep_parts s l1 l2 : rep s (l1 ++ l2) -> parts s l1 (head_or l2 None) (last_or l1 None) l2.
Proof.
  intros (Hn & Hf & Hl & D). apply dll_app in D as [D1 D2]. constructor; try done.
  - destruct l1; [by left|right]. done.
  - destruct l2 as [|y l2 _] using rev_ind; [by left|right]. by rewrite Hl, app_assoc, !last_or_snoc.
Qed.

Lemma rep_ext s s' l : rep s l -> first s' = first s -> last s' = last s -> (forall x, x ∈ l -> heap s' !! x = heap s !! x) -> rep s' l.
Proof. intros (Hn & Hf & Hl & D) Ef El Hh. split; [done|]. rewrite Ef, El. do 2 (split; [done|]). by eapply dll_ext. Qed.

(** Both parts closed around [m]. *)
Lemma join s l1 m l2 : parts s l1 (head_or (m ++ l2) None) (last_or (l1 ++ m) None) l2 -> NoDup (l1 ++ m ++ l2) ->
  dll (heap s) (last_or l1 None) m (head_or l2 None) ->
  first s = head_or l1 (head_or (m ++ l2) None) -> last s = last_or l2 (last_or (l1 ++ m) None) ->
  rep s (l1 ++ m ++ l2).
Proof.
  intros [_ _ _ D1 D2] Hn Dm Hf Hl. split; [done|]. rewrite Hf, Hl, (head_or_app l1), !last_or_app. split; [done|]. split; [done|].
  apply dll_app. split; [done|]. apply dll_app. split; [done|]. by rewrite <- last_or_app.
Qed.

Definition same_outside (l : list ptr) (s s' : t) : Prop := forall x, x ∉ l -> heap s' !! x = heap s !! x.

Section Middle.
Context (l1 m l2 : list ptr) (s : t) (a b : option ptr).
Context (HP : parts s l1 a b l2) (Hn : NoDup (l1 ++ m ++ l2)).
Context (Dm : dll (heap s) (last_or l1 None) m (head_or l2 None)).

Lemma m_apart x : x ∈ m -> (x ∉ l1) /\ (x ∉ l2).
Proof using Hn.
  clear HP Dm. apply list.NoDup_app in Hn as (_ & H1 & H2). apply list.NoDup_app in H2 as (_ & H2 & _). intros Hx. split.
  - intros H. apply (H1 x H), elem_of_app. by left.
  - by apply H2.
Qed.

Lemma link_left_right : exists s1 s2,
  set_n_or_first s (last_or l1 None) (head_or (m ++ l2) None) = Some s1 /\
  set_p_or_last s1 (head_or l2 None) (last_or (l1 ++ m) None) = Some s2 /\
  rep s2 (l1 ++ m ++ l2) /\ same_outside (l1 ++ l2) s s2 /\ same_outside l1 s s1.
Proof using HP Hn Dm.
  destruct (left_ok _ _ _ _ _ (head_or (m ++ l2) None) HP) as (s1 & E1 & P1 & F1 & L1 & H1).
  destruct (right_ok _ _ _ _ _ (last_or (l1 ++ m) None) P1) as (s2 & E2 & P2 & F2 & L2 & H2).
  exists s1, s2. split; [done|]. split; [done|]. split; [apply join; try done|split; [|done]].
  - eapply dll_ext; [|done]. intros x Hx. apply m_apart in Hx as [? ?]. rewrite H2, H1; done.
  - congruence.
  - intros x Hx. rewrite not_elem_of_app in Hx. destruct Hx. rewrite H2, H1; done.
Qed.

Lemma link_right_left : exists s1 s2,
  set_p_or_last s (head_or l2 None) (last_or (l1 ++ m) None) = Some s1 /\
  set_n_or_first s1 (last_or l1 None) (head_or (m ++ l2) None) = Some s2 /\
  rep s2 (l1 ++ m ++ l2) /\ same_outside (l1 ++ l2) s s2 /\ same_outside l2 s s1.
Proof using HP Hn Dm.
  destruct (right_ok _ _ _ _ _ (last_or (l1 ++ m) None) HP) as (s1 & E1 & P1 & F1 & L1 & H1).
  destruct (left_ok _ _ _ _ _ (head_or (m ++ l2) None) P1) as (s2 & E2 & P2 & F2 & L2 & H2).
  exists s1, s2. split; [done|]. split; [done|]. split; [apply join; try done|split; [|done]].
  - eapply dll_ext; [|done]. intros x Hx. apply m_apart in Hx as [? ?]. rewrite H2, H1; done.
  - congruence.
  - intros x Hx. rewrite not_elem_of_app in Hx. destruct Hx. rewrite H2, H1; done.
Qed.
End Middle.

(** ** The operations *)

(** The two stores that initialise the node [x]. *)
Definition with_node (s : t) (x : ptr) (e : node) : t := mk (<[x := e]> (heap s)) (first s) (last s).
Lemma set_p_ok s x e v : heap s !! x = Some e -> set_p s x v = Some (with_node s x (mk_node v (n e))).
Proof. unfold set_p. by intros ->. Qed.
Lemma set_n_ok s x e v : heap s !! x = Some e -> set_n s x v = Some (with_node s x (mk_node (p e) v)).
Proof. unfold set_n. by intros ->. Qed.
Lemma set_n_node s x e v : set_n (with_node s x e) x v = Some (with_node s x (mk_node (p e) v)).
Proof. unfold set_n, with_node. simpl. rewrite lookup_insert_eq. simpl. by rewrite insert_insert_eq. Qed.

Lemma parts_with_node s l1 a b l2 x e : parts s l1 a b l2 -> x ∉ l1 ++ l2 -> parts (with_node s x e) l1 a b l2.
Proof. intros HP Hx. eapply parts_ext; [done|done|done|]. intros y Hy. simpl. apply lookup_insert_ne. by intros ->. Qed.

Lemma NoDup_insert (l1 l2 : list ptr) x : NoDup (l1 ++ l2) -> x ∉ l1 ++ l2 -> NoDup (l1 ++ [x] ++ l2).
Proof.
  intros Hn Hx. change (NoDup (l1 ++ x :: l2)). apply (list.NoDup_Permutation_proper _ _ (Permutation_middle l1 l2 x)).
  by apply list.NoDup_cons.
Qed.

Lemma node_dll s x a b : dll (heap (with_node s x (mk_node a b))) a [x] b.
Proof. simpl. by rewrite lookup_insert_eq. Qed.

Lemma outside_insert l s x e s' : same_outside l (with_node s x e) s' -> same_outside (x :: l) s s'.
Proof.
  intros H y Hy. apply not_elem_of_cons in Hy as [Hy Hl]. rewrite H by done. simpl. by rewrite lookup_insert_ne.
Qed.

Section Ops.
Context (s : t) (x : ptr) (Hx : is_Some (heap s !! x)).

Lemma prepend_ok l : rep s l -> x ∉ l ->
  exists s', LinkedList1_Prepend s x = Some s' /\ rep s' (x :: l) /\ same_outside (x :: l) s s'.
Proof using Hx.
  intros R Hn. destruct Hx as [e He]. unfold LinkedList1_Prepend. rewrite (set_p_ok _ _ _ _ He). simpl. rewrite set_n_node. simpl.
  pose proof R as (Hd & Hf & _). rewrite Hf.
  destruct (link_right_left [] [x] l (with_node s x (mk_node None (head_or l None))) (head_or l None) None) as (s1 & s2 & E1 & E2 & R2 & O & _).
  - apply parts_with_node; [by apply (rep_parts s [] l)|done].
  - by apply NoDup_insert.
  - apply node_dll.
  - simpl in E1, E2. change (last_or [x] None) with (Some x) in E1. rewrite E1. simpl. injection E2 as <-. eexists. split; [done|]. split; [done|]. by eapply outside_insert.
Qed.

Lemma append_ok l : rep s l -> x ∉ l ->
  exists s', LinkedList1_Append s x = Some s' /\ rep s' (l ++ [x]) /\ same_outside (x :: l) s s'.
Proof using Hx.
  intros R Hn. destruct Hx as [e He]. unfold LinkedList1_Append. rewrite (set_p_ok _ _ _ _ He). simpl. rewrite set_n_node. simpl.
  pose proof R as (Hd & _ & Hl & _). rewrite Hl.
  destruct (link_left_right l [x] [] (with_node s x (mk_node (last_or l None) None)) None (last_or l None)) as (s1 & s2 & E1 & E2 & R2 & O & _).
  - apply parts_with_node; [apply (rep_parts s l []); by rewrite app_nil_r|by rewrite app_nil_r].
  - apply NoDup_insert; by rewrite app_nil_r.
  - apply node_dll.
  - simpl in E1, E2. rewrite E1. simpl. rewrite last_or_snoc in E2. injection E2 as <-. eexists. split; [done|]. split; [done|].
    rewrite app_nil_r in O. by eapply outside_insert.
Qed.

Lemma insert_before_ok l1 target l2 : rep s (l1 ++ target :: l2) -> x ∉ l1 ++ target :: l2 ->
  exists s', LinkedList1_InsertBefore s x target = Some s' /\ rep s' (l1 ++ x :: target :: l2) /\
    same_outside (x :: l1 ++ target :: l2) s s'.
Proof using Hx.
  intros R Hn. destruct Hx as [e He]. unfold LinkedList1_InsertBefore. pose proof (rep_parts _ _ _ R) as HP.
  pose proof (pt_right _ _ _ _ _ HP) as [Ht _]. rewrite Ht. simpl. rewrite (set_p_ok _ _ _ _ He). simpl. rewrite set_n_node. simpl.
  assert (x <> target) by (intros ->; apply Hn, elem_of_app; right; by left).
  rewrite lookup_insert_ne by done. rewrite Ht. simpl.
  destruct (link_left_right l1 [x] (target :: l2) (with_node s x (mk_node (last_or l1 None) (Some target))) (Some target) (last_or l1 None))
    as (s1 & s2 & E1 & E2 & R2 & O & _).
  - by apply parts_with_node.
  - apply NoDup_insert; [apply R|done].
  - apply node_dll.
  - simpl in E1, E2. rewrite E1. simpl. rewrite last_or_snoc in E2. exists s2. split; [done|]. split; [done|]. by eapply outside_insert.
Qed.

Lemma insert_after_ok l1 target l2 : rep s (l1 ++ target :: l2) -> x ∉ l1 ++ target :: l2 ->
  exists s', LinkedList1_InsertAfter s x target = Some s' /\ rep s' (l1 ++ target :: x :: l2) /\
    same_outside (x :: l1 ++ target :: l2) s s'.
Proof using Hx.
  intros R Hn. destruct Hx as [e He]. unfold LinkedList1_InsertAfter.
  replace (l1 ++ target :: l2) with ((l1 ++ [target]) ++ l2) in * by (by rewrite <- app_assoc).
  pose proof (rep_parts _ _ _ R) as HP. pose proof (pt_left _ _ _ _ _ HP) as [_ [Ht _]]%dll_app. rewrite last_or_snoc in HP.
  assert (x <> target) by (intros ->; apply Hn, elem_of_app; left; apply elem_of_app; right; by left).
  rewrite (set_p_ok _ _ _ _ He). simpl. rewrite lookup_insert_ne by done. rewrite Ht. simpl. rewrite set_n_node. simpl.
  rewrite lookup_insert_ne by done. rewrite Ht. simpl.
  destruct (link_right_left (l1 ++ [target]) [x] l2 (with_node s x (mk_node (Some target) (head_or l2 None))) (head_or l2 None) (Some target))
    as (s1 & s2 & E1 & E2 & R2 & O & _).
  - by apply parts_with_node.
  - apply NoDup_insert; [apply R|done].
  - rewrite last_or_snoc. apply node_dll.
  - rewrite !last_or_snoc in E1, E2. simpl in E2. rewrite E1. simpl. exists s2. split; [done|].
    rewrite <- app_assoc in R2. split; [done|]. by eapply outside_insert.
Qed.
End Ops.

Lemma NoDup_middle (l1 m l2 : list ptr) : NoDup (l1 ++ m ++ l2) -> NoDup (l1 ++ l2).
Proof.
  intros (H1 & H2 & H3)%list.NoDup_app. apply list.NoDup_app in H3 as (_ & _ & H3). apply list.NoDup_app. split; [done|].
  split; [|done]. intros y Hy Hy2. apply (H2 y Hy), elem_of_app. by right.
Qed.

Lemma remove_ok s l1 x l2 : rep s (l1 ++ x :: l2) ->
  exists s', LinkedList1_Remove s x = Some s' /\ rep s' (l1 ++ l2) /\ same_outside (l1 ++ l2) s s'.
Proof.
  intros R. pose proof R as (Hn & _). pose proof (rep_parts s l1 (x :: l2) R) as [_ Hf Hl D1 [Ex D2]].
  pose proof (NoDup_middle l1 [x] l2 Hn) as Hn'. pose proof Hn as (_ & Ha & [Hx _]%list.NoDup_cons)%list.NoDup_app.
  destruct (link_left_right l1 [] l2 s (Some x) (Some x)) as (s1 & s2 & E1 & E2 & R2 & O & O1); [|done|done|].
  { constructor; try done. destruct l2; [by left|right]. destruct Hl as [?|Hl]; [done|]. by rewrite Hl, !last_or_cons. }
  unfold LinkedList1_Remove. rewrite Ex. simpl in *. rewrite E1. simpl.
  rewrite O1 by (intros H; apply (Ha x H); by left). rewrite Ex. simpl. rewrite app_nil_r in E2. by exists s2.
Qed.

Lemma dll_set_p h a f l b v : NoDup (f :: l) -> dll h a (f :: l) b -> dll (<[f := mk_node v (head_or l b)]> h) v (f :: l) b.
Proof.
  intros [Hf _]%list.NoDup_cons [_ D]. split; [by rewrite lookup_insert_eq|]. eapply dll_ext; [|done].
  intros y Hy. apply lookup_insert_ne. by intros ->.
Qed.
Lemma dll_set_n h a l g b v : NoDup (l ++ [g]) -> dll h a (l ++ [g]) b ->
  h !! g = Some (mk_node (last_or l a) b) /\ dll (<[g := mk_node (last_or l a) v]> h) a (l ++ [g]) v.
Proof.
  intros (_ & Hd & _)%list.NoDup_app [D [E _]]%dll_app. split; [done|]. apply dll_app. split; [|by split; [rewrite lookup_insert_eq|]].
  eapply dll_ext; [|done]. intros y Hy. apply lookup_insert_ne. intros ->. apply (Hd y Hy). by left.
Qed.

Lemma insert_list_ok s l1 m l2 : rep s (l1 ++ l2) -> dll (heap s) None m None -> NoDup (l1 ++ m ++ l2) ->
  exists s', LinkedList1_InsertListAfter s (head_or m None) (last_or m None) (last_or l1 None) = Some s' /\
    rep s' (l1 ++ m ++ l2) /\ same_outside (l1 ++ m ++ l2) s s'.
Proof.
  intros R Dm Hn. destruct m as [|f m']; [by exists s|]. set (m := f :: m') in *. change (head_or m None) with (Some f).
  pose proof (rep_parts _ _ _ R) as HP. unfold LinkedList1_InsertListAfter.
  assert (match last_or l1 None with Some tg => e ← heap s !! tg; Some (n e) | None => Some (first s) end = Some (head_or l2 None)) as ->.
  { destruct l1 as [|z l _] using rev_ind; [simpl; by destruct R as (_ & -> & _)|]. rewrite last_or_snoc.
    destruct HP as [_ _ _ [_ [E _]]%dll_app _]. by rewrite E. }
  assert (NoDup m) as Hm by (apply list.NoDup_app in Hn as (_ & _ & Hn); by apply list.NoDup_app in Hn as (Hm & _ & _)).
  simpl mbind. rewrite (set_p_ok _ f (mk_node None (head_or m' None))) by apply Dm. simpl mbind.
  apply (dll_set_p _ _ _ _ _ (last_or l1 None) Hm) in Dm.
  destruct (List.exists_last (l := m)) as (k & g & Em); [done|].
  fold m in Dm. rewrite Em, last_or_snoc. rewrite Em in Dm, Hm. apply (dll_set_n _ _ _ _ _ (head_or l2 None) Hm) in Dm as [Eg Dm].
  simpl mbind. erewrite (set_n_ok _ g) by exact Eg. simpl mbind. simpl p. rewrite <- Em in *.
  set (s2 := with_node _ g _). change (<[g := _]> _) with (heap s2) in Dm.
  assert (forall x, x ∉ m -> heap s2 !! x = heap s !! x) as Hs2.
  { intros x Hx. simpl. rewrite !lookup_insert_ne; [done| |]; intros ->; apply Hx; [by left|]. rewrite Em. apply elem_of_app. right. by left. }
  destruct (link_left_right l1 m l2 s2 (head_or l2 None) (last_or l1 None)) as (s3 & s4 & E3 & E4 & R4 & O & _); [|done|done|].
  { eapply parts_ext; [exact HP|done|done|]. intros x Hx. apply Hs2. intros Hx'.
    pose proof (m_apart _ _ _ Hn x Hx') as [? ?]. by apply elem_of_app in Hx as [?|?]. }
  change (head_or (m ++ l2) None) with (Some f) in E3. rewrite E3. simpl. rewrite Em, app_assoc, last_or_snoc in E4.
  exists s4. split; [done|]. split; [done|]. intros x Hx. change (x ∉ l1 ++ m ++ l2) in Hx. apply not_elem_of_app in Hx as [Hx1 Hx]. apply (not_elem_of_app m l2) in Hx as [Hx2 Hx3].
  rewrite O by (rewrite not_elem_of_app; done). by apply Hs2.
Qed.

(** ** Specification *)
Inductive op := Prepend (x : ptr) | Append (x : ptr) | InsertBefore (x target : ptr) | InsertAfter (x target : ptr)
  | Remove (x : ptr) | InsertListAfter (m : list ptr) (target : option ptr).

(** The list before and from (up to and after) the first [target]. *)
Fixpoint insert_before (x target : ptr) (l : list ptr) : list ptr :=
  match l with [] => [] | y :: l => if bool_decide (y = target) then x :: y :: l else y :: insert_before x target l end.
Fixpoint insert_after (m : list ptr) (target : ptr) (l : list ptr) : list ptr :=
  match l with [] => [] | y :: l => if bool_decide (y = target) then y :: m ++ l else y :: insert_after m target l end.

Definition spec (l : list ptr) (a : op) : list ptr :=
  match a with
  | Prepend x => x :: l
  | Append x => l ++ [x]
  | InsertBefore x target => insert_before x target l
  | InsertAfter x target => insert_after [x] target l
  | Remove x => without x l
  | InsertListAfter m (Some target) => insert_after m target l
  | InsertListAfter m None => m ++ l
  end.

(** What the caller must ensure: a node to insert exists and is in no list, the target is in the
    list; a list to insert is a list, disjoint from this one. *)
Definition pre (s : t) (l : list ptr) (a : op) : Prop :=
  match a with
  | Prepend x | Append x => is_Some (heap s !! x) /\ x ∉ l
  | InsertBefore x target | InsertAfter x target => is_Some (heap s !! x) /\ (x ∉ l) /\ target ∈ l
  | Remove x => x ∈ l
  | InsertListAfter m target => dll (heap s) None m None /\ NoDup (m ++ l) /\
      match target with Some tg => tg ∈ l | None => True end
  end.
(** The nodes an operation may change. *)
Definition touched (l : list ptr) (a : op) : list ptr :=
  match a with
  | Prepend x | Append x | InsertBefore x _ | InsertAfter x _ => x :: l
  | Remove x => without x l
  | InsertListAfter m _ => m ++ l
  end.

Definition exec (s : t) (a : op) : option t :=
  match a with
  | Prepend x => LinkedList1_Prepend s x
  | Append x => LinkedList1_Append s x
  | InsertBefore x target => LinkedList1_InsertBefore s x target
  | InsertAfter x target => LinkedList1_InsertAfter s x target
  | Remove x => LinkedList1_Remove s x
  | InsertListAfter m target => LinkedList1_InsertListAfter s (head_or m None) (last_or m None) target
  end.

Lemma insert_before_at x target l1 l2 : target ∉ l1 -> insert_before x target (l1 ++ target :: l2) = l1 ++ x :: target :: l2.
Proof.
  induction l1 as [|y l1 IH]; intros Hn; simpl; [by rewrite bool_decide_true|]. apply not_elem_of_cons in Hn as [? ?].
  rewrite bool_decide_false by done. by rewrite IH.
Qed.
Lemma insert_after_at m target l1 l2 : target ∉ l1 -> insert_after m target (l1 ++ target :: l2) = l1 ++ target :: m ++ l2.
Proof.
  induction l1 as [|y l1 IH]; intros Hn; simpl; [by rewrite bool_decide_true|]. apply not_elem_of_cons in Hn as [? ?].
  rewrite bool_decide_false by done. by rewrite IH.
Qed.

(** A list without duplicates, cut at one of its nodes. *)
Lemma cut (l : list ptr) x : NoDup l -> x ∈ l -> exists l1 l2, l = l1 ++ x :: l2 /\ (x ∉ l1) /\ without x l = l1 ++ l2.
Proof.
  intros Hn (l1 & l2 & ->)%list_elem_of_split. exists l1, l2. apply list.NoDup_app in Hn as (_ & Ha & [Hx _]%list.NoDup_cons).
  assert (x ∉ l1) as H1 by (intros H; apply (Ha x H); by left). split; [done|]. split; [done|].
  by rewrite without_app, without_cons_eq, !without_id.
Qed.

(** Every operation, called as it must be, simulates its specification. *)
Lemma exec_spec s l a : rep s l -> pre s l a ->
  exists s', exec s a = Some s' /\ rep s' (spec l a) /\ same_outside (touched l a) s s'.
Proof.
  intros R. pose proof R as (Hn & _). destruct a as [x|x|x target|x target|x|m target]; simpl.
  - intros [Hx Hl]. by apply prepend_ok.
  - intros [Hx Hl]. by apply append_ok.
  - intros (Hx & Hl & Ht). destruct (cut l target Hn Ht) as (l1 & l2 & -> & H1 & _). rewrite insert_before_at by done.
    by apply insert_before_ok.
  - intros (Hx & Hl & Ht). destruct (cut l target Hn Ht) as (l1 & l2 & -> & H1 & _). rewrite insert_after_at by done.
    by apply insert_after_ok.
  - intros Hx. destruct (cut l x Hn Hx) as (l1 & l2 & -> & H1 & ->). by apply remove_ok.
  - intros (Dm & Hm & Ht). destruct target as [tg|].
    + destruct (cut l tg Hn Ht) as (l1 & l2 & -> & H1 & _). rewrite insert_after_at by done.
      replace (l1 ++ tg :: l2) with ((l1 ++ [tg]) ++ l2) in * by (by rewrite <- app_assoc).
      assert (NoDup ((l1 ++ [tg]) ++ m ++ l2)) as Hn'.
      { eapply list.NoDup_Permutation_proper; [|exact Hm]. rewrite (app_assoc m), (app_assoc (l1 ++ [tg])). apply Permutation_app_tail, Permutation_app_comm. }
      destruct (insert_list_ok s (l1 ++ [tg]) m l2 R Dm Hn') as (s' & E & R' & O). rewrite last_or_snoc in E. exists s'.
      split; [done|]. rewrite <- app_assoc in R'. split; [done|]. intros x Hx. apply O. intros Hx'. apply Hx.
      rewrite !elem_of_app in *. tauto.
    + destruct (insert_list_ok s [] m l R Dm Hm) as (s' & E & R' & O). by exists s'.
Qed.

(** the doubly linked list implements a list: in any state that represents a list, each of
    [LinkedList1_Prepend], [LinkedList1_Append], [LinkedList1_InsertBefore],
    [LinkedList1_InsertAfter], [LinkedList1_Remove] and [LinkedList1_InsertListAfter], called as
    documented, follows only valid pointers, results in a state that represents the list with the
    node (the nodes) inserted or removed at its place, and changes no node outside the lists
    involved; the end pointers and the neighbours of a node are those of the list. *)
Theorem linkedlist1_refines_list s l a : rep s l -> pre s l a ->
  (exists s', exec s a = Some s' /\ rep s' (spec l a) /\ forall x, x ∉ touched l a -> heap s' !! x = heap s !! x) /\
  LinkedList1_IsEmpty s = bool_decide (l = []) /\ LinkedList1_GetFirst s = l !! 0%nat /\
  LinkedList1_GetLast s = list.last l /\
  (forall i x, l !! i = Some x -> LinkedList1Node_Next s x = Some (l !! S i) /\
     LinkedList1Node_Prev s x = Some (match i with O => None | S j => l !! j end)).
Proof.
  intros R Hp. split; [by apply exec_spec|]. destruct R as (_ & Hf & Hl & D).
  unfold LinkedList1_IsEmpty, LinkedList1_GetFirst, LinkedList1_GetLast. rewrite Hf, Hl. split; [by destruct l|].
  split; [by destruct l|]. split; [unfold last_or; by destruct (list.last l)|]. intros i x Hx.
  rewrite <- (take_drop_middle l i x Hx) in D. apply dll_app in D as [_ [E _]].
  unfold LinkedList1Node_Next, LinkedList1Node_Prev. rewrite E. simpl. split; f_equal.
  - replace (S i) with (S i + 0)%nat at 2 by lia. rewrite <- lookup_drop. by destruct (drop (S i) l).
  - destruct i as [|j]; [done|]. unfold last_or. apply lookup_lt_Some in Hx. rewrite last_lookup, length_take.
    replace (Init.Nat.pred (S j `min` length l)) with j by lia. rewrite lookup_take_lt by lia. by destruct (l !! j).
Qed.

(** A list of two nodes, and a third node. *)
Definition demo : t := mk {[1%positive := mk_node None (Some 2%positive); 2%positive := mk_node (Some 1%positive) None;
  3%positive := mk_node None None]} (Some 1%positive) (Some 2%positive).

Lemma linkedlist1_refines_list_witness :
  (exists s', LinkedList1_InsertAfter demo 3 1 = Some s' /\ rep s' [1%positive; 3%positive; 2%positive] /\
    forall x, x ∉ [3%positive; 1%positive; 2%positive] -> heap s' !! x = heap demo !! x) /\
  LinkedList1Node_Next demo 1 = Some (Some 2%positive).
Proof.
  assert (NoDup [1%positive; 2%positive]) as Hn by (apply (bool_decide_unpack _); vm_compute; exact I).
  destruct (linkedlist1_refines_list demo [1%positive; 2%positive] (InsertAfter 3 1)) as (He & _ & _ & _ & Hnb).
  - split; [exact Hn|]. repeat split; reflexivity.
  - split; [exists (mk_node None None); reflexivity|]. split; apply (bool_decide_unpack _); vm_compute; exact I.
  - split; [exact He|]. apply (Hnb 0%nat). reflexivity.
Defined.

End LinkedList1.
