(* ===== verification/PacketFlow.v ===== *)
(** * Small flow components (flow/PacketStreamSender.c, flow/SinglePacketBuffer.c,
    flow/PacketPassConnector.c, flow/BufferWriter.c)

    Each component sits between two interfaces, seen as in [FlowView]; its environment starts
    operations on its input and completes those on its output.  Packets live in memory of the
    environment, at an address; the worlds below record it. *)

From S2P Require Import Prelude FlowView.

(** ** PacketStreamSender: packets become a stream *)
Module PacketStreamSender.

Record t := mk {
  input : pass_view;
  output : spass_view;
  mtu : Z;
  in_len : Z;
  in_ : Z;
  in_used : Z;
}.
Definition with_output (s : t) (o : spass_view) : t := mk (input s) o (mtu s) (in_len s) (in_ s) (in_used s).
Definition with_input (s : t) (i : pass_view) : t := mk i (output s) (mtu s) (in_len s) (in_ s) (in_used s).
Definition with_packet (s : t) (len addr used : Z) : t := mk (input s) (output s) (mtu s) len addr used.

Definition send_data (s : t) : option t :=
  ASSERT in_len s >=? 0;
  if in_used s <? in_len s then
    o ← StreamPassInterface_Sender_Send (output s) (in_ s + in_used s) (in_len s - in_used s);
    Some (with_output s o)
  else
    let s := with_packet s (-1) (in_ s) (in_used s) in
    i ← PacketPassInterface_Done (input s);
    Some (with_input s i).

Definition input_handler_send (s : t) (data data_len : Z) : option t :=
  ASSERT in_len s =? -1;
  ASSERT data_len >=? 0;
  send_data (with_packet s data_len data 0).

Definition output_handler_done (s : t) (data_len : Z) : option t :=
  ASSERT in_len s >=? 0;
  ASSERT data_len >? 0;
  ASSERT data_len <=? in_len s - in_used s;
  send_data (with_packet s (in_len s) (in_ s) (in_used s + data_len)).

Definition PacketStreamSender_Init (mtu : Z) : option t :=
  ASSERT mtu >=? 0;
  Some (mk PIdle SPIdle mtu (-1) 0 0).

(** *** Environment *)

(** The user sends the packet [d], stored at [addr]; the stream takes [n] bytes. *)
Inductive event := ESend (d : list Z) (addr : Z) | ETaken (n : Z).

(** [pkt]: the packet last sent; [sent]: all packets sent; [stream]: all bytes the stream took. *)
Record world := mkw { snd : t; pkt : list Z; sent : list (list Z); stream : list Z }.

Definition enabled (w : world) (e : event) : bool :=
  match e with
  | ESend d _ => match input (snd w) with PIdle => zlen d <=? mtu (snd w) | PBusy _ _ => false end
  | ETaken n => match output (snd w) with SPBusy _ len => (0 <? n) && (n <=? len) | SPIdle => false end
  end.

Definition exec (w : world) (e : event) : option world :=
  let s := snd w in
  match e with
  | ESend d addr =>
      i ← PacketPassInterface_Sender_Send (input s) (mtu s) (Some addr) (zlen d);
      s ← input_handler_send (with_input s i) addr (zlen d);
      Some (mkw s d (sent w ++ [d]) (stream w))
  | ETaken n =>
      match output s with
      | SPBusy a len =>
          ASSERT (0 <=? a - in_ s) && (a - in_ s + n <=? zlen (pkt w));
          s' ← output_handler_done (with_output s SPIdle) n;
          Some (mkw s' (pkt w) (sent w) (stream w ++ sub (pkt w) (a - in_ s) n))
      | SPIdle => None
      end
  end.

Inductive reach (w0 : world) : world -> Prop :=
| reach_init : reach w0 w0
| reach_step w e w' : reach w0 w -> enabled w e = true -> exec w e = Some w' -> reach w0 w'.

(** The packet being sent is given to the stream from its first byte not yet taken on. *)
Definition inv (m : Z) (w : world) : Prop :=
  let s := snd w in mtu s = m /\
  ((input s = PIdle /\ output s = SPIdle /\ in_len s = -1 /\ stream w = concat (sent w)) \/
   exists l, sent w = l ++ [pkt w] /\ in_len s = zlen (pkt w) /\ 0 <= in_used s < zlen (pkt w) /\
     input s = PBusy (Some (in_ s)) (zlen (pkt w)) /\ output s = SPBusy (in_ s + in_used s) (zlen (pkt w) - in_used s) /\
     stream w = concat l ++ sub (pkt w) 0 (in_used s)).

Lemma concat_snoc (l : list (list Z)) d : concat (l ++ [d]) = concat l ++ d.
Proof. rewrite concat_app. simpl. by rewrite app_nil_r. Qed.

(** [send_data] in the middle of a packet, whose first bytes were taken. *)
Lemma send_data_ok m s d l str : mtu s = m -> in_len s = zlen d -> 0 <= in_used s <= zlen d ->
  input s = PBusy (Some (in_ s)) (zlen d) -> output s = SPIdle -> str = concat l ++ sub d 0 (in_used s) ->
  exists s', send_data s = Some s' /\ inv m (mkw s' d (l ++ [d]) str).
Proof.
  intros Hm Hl Hu Hi Ho ->. unfold send_data. bool_true. case_if.
  - unfold StreamPassInterface_Sender_Send. rewrite Ho. bool_true. cbn [mbind option_bind]. eexists. split; [done|].
    split; [done|]. right. exists l. simpl. rewrite Hl. split_and!; try done; lia.
  - cbn. rewrite Hi. simpl. eexists. split; [done|]. split; [done|]. left. simpl. do 3 (split; [done|]).
    rewrite concat_snoc. f_equal. replace (in_used s) with (zlen d) by lia. apply sub_0_all.
Qed.

Lemma exec_inv m w e : inv m w -> enabled w e = true -> exists w', exec w e = Some w' /\ inv m w'.
Proof.
  intros [Hm H] He. destruct e as [d addr|n]; simpl in *.
  - destruct H as [(Hi & Ho & Hl & Hs)|(l & _ & _ & _ & Hi & _)]; rewrite Hi in *; [|done]. reflect_bool.
    pose proof (zlen_nonneg d). unfold PacketPassInterface_Sender_Send. do 2 bool_true. rewrite orb_true_r. simpl.
    unfold input_handler_send. simpl. rewrite Hl. do 2 bool_true.
    destruct (send_data_ok m (with_packet (with_input (snd w) (PBusy (Some addr) (zlen d))) (zlen d) addr 0) d (sent w) (stream w))
      as (s' & E & I); [done|done|simpl; lia|done|done|simpl; by rewrite app_nil_r|].
    rewrite E. simpl. by eexists.
  - destruct H as [(Hi & Ho & Hl & Hs)|(l & Hse & Hl & Hu & Hi & Ho & Hs)]; rewrite Ho in *; [done|]. reflect_bool.
    replace (in_ (snd w) + in_used (snd w) - in_ (snd w)) with (in_used (snd w)) by lia. bool_true.
    unfold output_handler_done. simpl. rewrite Hl. do 3 bool_true.
    destruct (send_data_ok m (with_packet (with_output (snd w) SPIdle) (zlen (pkt w)) (in_ (snd w)) (in_used (snd w) + n)) (pkt w) l
      (stream w ++ sub (pkt w) (in_used (snd w)) n)) as (s' & E & I); simpl; try done; [lia| |].
    + rewrite Hs, <- app_assoc. f_equal. rewrite (sub_split (pkt w) 0 (in_used (snd w) + n) (in_used (snd w))) by lia.
      do 2 f_equal; lia.
    + rewrite E. simpl. rewrite Hse. by eexists.
Qed.

(** A packet stream sender writes the packets it is given to the stream unchanged: under any
    interleaving, however the stream cuts its writes, no assertion fails, and the bytes taken so
    far are those of the packets sent, in order, but for the part of the last packet still
    outstanding; a packet is outstanding on the input exactly as long as bytes of it are on the
    output, so that when the input is free every byte was taken. *)
Theorem packet_stream_sender_correct m s0 w :
  PacketStreamSender_Init m = Some s0 -> reach (mkw s0 [] [] []) w ->
  (forall e, enabled w e = true -> is_Some (exec w e)) /\
  (input (snd w) = PIdle <-> output (snd w) = SPIdle) /\
  exists rest, concat (sent w) = stream w ++ rest /\ zlen rest = match output (snd w) with SPIdle => 0 | SPBusy _ len => len end.
Proof.
  unfold PacketStreamSender_Init. destruct (m >=? 0); [|done]. intros [= <-] Hr.
  assert (inv m w) as I.
  { induction Hr as [|w e w' _ IH He E]; [split; [done|]; by left|].
    destruct (exec_inv m w e IH He) as (w1 & E1 & I1). congruence. }
  split; [|split].
  - intros e He. destruct (exec_inv m w e I He) as (w' & -> & _). by eexists.
  - destruct I as [_ [(-> & -> & _)|(l & _ & _ & _ & -> & -> & _)]]; [done|]. done.
  - destruct I as [_ [(_ & -> & _ & ->)|(l & -> & _ & Hu & _ & -> & ->)]].
    + exists []. by rewrite app_nil_r.
    + exists (sub (pkt w) (in_used (snd w)) (zlen (pkt w) - in_used (snd w))). split; [|apply zlen_sub; lia].
      rewrite concat_snoc, <- app_assoc. f_equal. rewrite <- (sub_0_all (pkt w)) at 1. by apply sub_split; lia.
Qed.

Definition demo0 : t := Eval vm_compute in default (mk PIdle SPIdle 0 0 0 0) (PacketStreamSender_Init 4).
Definition demo1 : world :=
  Eval vm_compute in default (mkw demo0 [] [] []) (w ← exec (mkw demo0 [] [] []) (ESend [1; 2; 3] 100); exec w (ETaken 2)).

Lemma packet_stream_sender_correct_witness :
  reach (mkw demo0 [] [] []) demo1 /\ stream demo1 = [1; 2] /\ is_Some (exec demo1 (ETaken 1)) /\
  exists rest, concat (sent demo1) = stream demo1 ++ rest /\ zlen rest = 1.
Proof.
  assert (reach (mkw demo0 [] [] []) demo1) as R.
  { eapply (reach_step _ _ (ETaken 2)); [eapply (reach_step _ _ (ESend [1; 2; 3] 100)); [constructor| |]| |]; vm_compute; reflexivity. }
  destruct (packet_stream_sender_correct 4 demo0 demo1) as (He & _ & Hs); [reflexivity|exact R|].
  split; [exact R|]. split; [reflexivity|]. split; [apply He; vm_compute; reflexivity|exact Hs].
Defined.

End PacketStreamSender.

(** ** SinglePacketBuffer: one packet in transit *)
Module SinglePacketBuffer.
Section Alloc.
Context (malloc : Z -> option (list Z)).

Definition BAlloc (bytes : Z) : option (list Z) := if bytes =? 0 then malloc 1 else malloc bytes.

Record t := mk {
  input : recv_view;
  input_mtu : Z;
  output : pass_view;
  output_mtu : Z;
  buf : list Z;
}.

Definition input_handler_done (o : t) (in_len : Z) : option t :=
  v ← PacketPassInterface_Sender_Send (output o) (output_mtu o) (Some 0) in_len;
  Some (mk (input o) (input_mtu o) v (output_mtu o) (buf o)).

Definition output_handler_done (o : t) : option t :=
  v ← PacketRecvInterface_Receiver_Recv (input o) (input_mtu o) (Some 0);
  Some (mk v (input_mtu o) (output o) (output_mtu o) (buf o)).

(** [inl tt]: the result 0. *)
Definition SinglePacketBuffer_Init (in_mtu out_mtu : Z) : option (unit + t) :=
  ASSERT out_mtu >=? in_mtu;
  match BAlloc in_mtu with
  | None => Some (inl tt)
  | Some b =>
      v ← PacketRecvInterface_Receiver_Recv RIdle in_mtu (Some 0);
      Some (inr (mk v in_mtu PIdle out_mtu b))
  end.

(** *** Environment *)
Inductive event := EWrite (off : Z) (data : list Z) | EInDone (len : Z) | EOutDone.

Definition enabled (o : t) (e : event) : bool :=
  match e, input o, output o with
  | EWrite off data, RBusy _, _ => (0 <=? off) && (off + zlen data <=? input_mtu o)
  | EInDone len, RBusy _, _ => (0 <=? len) && (len <=? input_mtu o)
  | EOutDone, _, PBusy _ _ => true
  | _, _, _ => false
  end.

(** The new state, and the packet received or taken. *)
Definition exec (o : t) (e : event) : option (t * list (list Z) * list (list Z)) :=
  match e, input o, output o with
  | EWrite off data, RBusy d, _ =>
      ASSERT d + off + zlen data <=? zlen (buf o);
      Some (mk (input o) (input_mtu o) (output o) (output_mtu o) (splice (buf o) (d + off) data), [], [])
  | EInDone len, RBusy d, _ =>
      ASSERT d + len <=? zlen (buf o);
      o' ← input_handler_done (mk RIdle (input_mtu o) (output o) (output_mtu o) (buf o)) len;
      Some (o', [sub (buf o) d len], [])
  | EOutDone, _, PBusy (Some d) len =>
      ASSERT d + len <=? zlen (buf o);
      o' ← output_handler_done (mk (input o) (input_mtu o) PIdle (output_mtu o) (buf o));
      Some (o', [], [sub (buf o) d len])
  | _, _, _ => None
  end.

Inductive reach (o0 : t) : t -> list (list Z) -> list (list Z) -> Prop :=
| reach_init : reach o0 o0 [] []
| reach_step o rx tx e o' r s : reach o0 o rx tx -> enabled o e = true -> exec o e = Some (o', r, s) ->
    reach o0 o' (rx ++ r) (tx ++ s).

Context (malloc_size : forall n m, 0 < n -> malloc n = Some m -> zlen m = n).

Definition inv (in_mtu out_mtu : Z) (o : t) (rx tx : list (list Z)) : Prop :=
  input_mtu o = in_mtu /\ output_mtu o = out_mtu /\ in_mtu <= zlen (buf o) /\
  ((input o = RBusy 0 /\ output o = PIdle /\ rx = tx) \/
   exists len, 0 <= len <= in_mtu /\ input o = RIdle /\ output o = PBusy (Some 0) len /\ rx = tx ++ [sub (buf o) 0 len]).

Lemma single_exec_inv im om o rx tx e : 0 <= im <= om -> inv im om o rx tx -> enabled o e = true ->
  exists o' r s, exec o e = Some (o', r, s) /\ inv im om o' (rx ++ r) (tx ++ s).
Proof.
  intros Hm (Hi & Ho & Hb & H) He. destruct e as [off data|len|]; simpl in *.
  - destruct H as [(Ei & Eo & ->)|(len & Hl & Ei & Eo & ->)]; rewrite Ei in *; [|done]. reflect_bool. simpl. bool_true.
    do 3 eexists. split; [done|]. rewrite !app_nil_r. do 2 (split; [done|]). split; [|by left].
    simpl. rewrite zlen_splice by lia. done.
  - destruct H as [(Ei & Eo & ->)|(len' & Hl & Ei & Eo & ->)]; rewrite Ei in *; [|done]. reflect_bool. simpl. bool_true.
    unfold input_handler_done, PacketPassInterface_Sender_Send. simpl. rewrite Eo. do 2 bool_true. rewrite orb_true_r. simpl.
    do 3 eexists. split; [done|]. rewrite app_nil_r. do 3 (split; [done|]). right. exists len. split; [lia|done].
  - destruct H as [(Ei & Eo & ->)|(len & Hl & Ei & Eo & ->)]; rewrite Eo in *; [done|]. bool_true.
    unfold output_handler_done, PacketRecvInterface_Receiver_Recv. simpl. rewrite Ei, orb_true_r. simpl.
    do 3 eexists. split; [done|]. rewrite app_nil_r. do 3 (split; [done|]). by left.
Qed.

Lemma single_init_inv im om o : 0 <= im -> SinglePacketBuffer_Init im om = Some (inr o) -> im <= om /\ inv im om o [] [].
Proof.
  intros Hm. unfold SinglePacketBuffer_Init, BAlloc, PacketRecvInterface_Receiver_Recv. rewrite orb_true_r. case_if; [|done].
  destruct (if im =? 0 then malloc 1 else malloc im) as [b|] eqn:Eb; [|done]. simpl. intros [= <-]. split; [lia|].
  do 2 (split; [done|]). split; [|by left]. revert Eb. case_if; intros Eb; apply malloc_size in Eb; simpl; lia.
Qed.

(** a single packet buffer passes every packet it receives on, unchanged and in order, and
    receives the next one only when the packet was taken: in every reachable state no assertion
    can fail and no access is out of bounds, exactly one of its two interfaces is busy, and the
    packets taken by the output are those received, but for the one that the output holds. *)
Theorem single_packet_buffer_correct in_mtu out_mtu o0 o rx tx :
  0 <= in_mtu -> SinglePacketBuffer_Init in_mtu out_mtu = Some (inr o0) -> reach o0 o rx tx ->
  (forall e, enabled o e = true -> is_Some (exec o e)) /\
  match input o, output o with
  | RBusy _, PIdle => rx = tx
  | RIdle, PBusy (Some d) len => rx = tx ++ [sub (buf o) d len]
  | _, _ => False
  end.
Proof.
  intros Hm Hi Hr. destruct (single_init_inv _ _ _ Hm Hi) as [Hle I0].
  assert (inv in_mtu out_mtu o rx tx) as I.
  { induction Hr as [|o rx tx e o' r s _ IH He E]; [done|].
    destruct (single_exec_inv in_mtu out_mtu _ _ _ e ltac:(lia) IH He) as (o1 & r1 & s1 & E1 & I1). rewrite E in E1. injection E1 as <- <- <-. done. }
  split.
  - intros e He. destruct (single_exec_inv in_mtu out_mtu _ _ _ e ltac:(lia) I He) as (o1 & r1 & s1 & -> & _). by eexists.
  - destruct I as (_ & _ & _ & [(-> & -> & ->)|(len & _ & -> & -> & ->)]); done.
Qed.
End Alloc.

Definition single_demo0 : t :=
  Eval vm_compute in match SinglePacketBuffer_Init zeros 4 6 with Some (inr o) => o | _ => mk RIdle 0 PIdle 0 [] end.
Definition single_demo1 : t :=
  Eval vm_compute in match exec single_demo0 (EWrite 0 [7; 8; 9]) with Some (o, _, _) => o | _ => single_demo0 end.
Definition single_demo2 : t :=
  Eval vm_compute in match exec single_demo1 (EInDone 3) with Some (o, _, _) => o | _ => single_demo0 end.

Lemma single_packet_buffer_correct_witness :
  reach single_demo0 single_demo2 [[7; 8; 9]] [] /\ is_Some (exec single_demo2 EOutDone) /\
  match input single_demo2, output single_demo2 with
  | RBusy _, PIdle => False
  | RIdle, PBusy (Some d) len => [[7; 8; 9]] = [sub (buf single_demo2) d len]
  | _, _ => False
  end.
Proof.
  assert (reach single_demo0 single_demo2 [[7; 8; 9]] []) as R.
  { apply (reach_step _ single_demo1 [] [] (EInDone 3) _ [[7; 8; 9]] []); [|reflexivity|reflexivity].
    apply (reach_step _ single_demo0 [] [] (EWrite 0 [7; 8; 9]) _ [] []); [constructor|reflexivity|reflexivity]. }
  destruct (single_packet_buffer_correct zeros (fun n m _ => zeros_size n m) 4 6 single_demo0 single_demo2 [[7; 8; 9]] []) as [He Hs];
    [lia|reflexivity|exact R|].
  split; [exact R|]. split; [apply He; reflexivity|exact Hs].
Defined.

End SinglePacketBuffer.

(** ** PacketPassConnector: an input whose output comes and goes *)
Module PacketPassConnector.

Record t := mk {
  input : pass_view;
  input_mtu : Z;
  in_len : Z;
  in_ : option Z;
  output : option pass_view;
  output_mtu : Z;
}.
Definition with_output (o : t) (v : option pass_view) (mtu : Z) : t := mk (input o) (input_mtu o) (in_len o) (in_ o) v mtu.

(** [PacketPassInterface_Sender_Send(o->output, o->in, o->in_len)] *)
Definition send_to_output (o : t) : option t :=
  v ← output o;
  v ← PacketPassInterface_Sender_Send v (output_mtu o) (in_ o) (in_len o);
  Some (with_output o (Some v) (output_mtu o)).

Definition input_handler_send (o : t) (data : option Z) (data_len : Z) : option t :=
  ASSERT data_len >=? 0;
  ASSERT data_len <=? input_mtu o;
  ASSERT in_len o =? -1;
  let o := mk (input o) (input_mtu o) data_len data (output o) (output_mtu o) in
  if bool_decide (is_Some (output o)) then send_to_output o else Some o.

Definition output_handler_done (o : t) : option t :=
  ASSERT in_len o >=? 0;
  ASSERT bool_decide (is_Some (output o));
  let o := mk (input o) (input_mtu o) (-1) (in_ o) (output o) (output_mtu o) in
  i ← PacketPassInterface_Done (input o);
  Some (mk i (input_mtu o) (in_len o) (in_ o) (output o) (output_mtu o)).

Definition PacketPassConnector_Init (mtu : Z) : option t :=
  ASSERT mtu >=? 0;
  Some (mk PIdle mtu (-1) None None 0).

(** [mtu]: that of the new output, whose [PacketPassInterface_Sender_Init] makes it idle. *)
Definition PacketPassConnector_ConnectOutput (o : t) (mtu : Z) : option t :=
  ASSERT bool_decide (output o = None);
  ASSERT mtu >=? input_mtu o;
  let o := with_output o (Some PIdle) mtu in
  if in_len o >=? 0 then send_to_output o else Some o.

Definition PacketPassConnector_DisconnectOutput (o : t) : option t :=
  ASSERT bool_decide (is_Some (output o));
  Some (with_output o None 0).

(** *** Environment *)
Inductive event := ESend (data : option Z) (len : Z) | EConnect (mtu : Z) | EDisconnect | EOutDone.

(** The packets sent, and those taken by an output. *)
Record world := mkw { pc : t; sent : list (option Z * Z); taken : list (option Z * Z) }.

Definition enabled (w : world) (e : event) : bool :=
  let o := pc w in
  match e with
  | ESend data len => match input o with
      | PIdle => (0 <=? len) && (len <=? input_mtu o) && (negb (len >? 0) || bool_decide (is_Some data))
      | PBusy _ _ => false end
  | EConnect mtu => bool_decide (output o = None) && (input_mtu o <=? mtu)
  | EDisconnect => bool_decide (is_Some (output o))
  | EOutDone => match output o with Some (PBusy _ _) => true | _ => false end
  end.

Definition exec (w : world) (e : event) : option world :=
  let o := pc w in
  match e with
  | ESend data len =>
      i ← PacketPassInterface_Sender_Send (input o) (input_mtu o) data len;
      o ← input_handler_send (mk i (input_mtu o) (in_len o) (in_ o) (output o) (output_mtu o)) data len;
      Some (mkw o (sent w ++ [(data, len)]) (taken w))
  | EConnect mtu => o ← PacketPassConnector_ConnectOutput o mtu; Some (mkw o (sent w) (taken w))
  | EDisconnect => o ← PacketPassConnector_DisconnectOutput o; Some (mkw o (sent w) (taken w))
  | EOutDone =>
      match output o with
      | Some (PBusy data len) =>
          o ← output_handler_done (with_output o (Some PIdle) (output_mtu o));
          Some (mkw o (sent w) (taken w ++ [(data, len)]))
      | _ => None
      end
  end.

Inductive reach (w0 : world) : world -> Prop :=
| reach_init : reach w0 w0
| reach_step w e w' : reach w0 w -> enabled w e = true -> exec w e = Some w' -> reach w0 w'.

(** The packet on the input, if any. *)
Definition held (o : t) : list (option Z * Z) := match input o with PIdle => [] | PBusy d len => [(d, len)] end.

Record inv (w : world) : Prop := {
  v_mtu : is_Some (output (pc w)) -> input_mtu (pc w) <= output_mtu (pc w);
  v_in : (input (pc w) = PIdle /\ in_len (pc w) = -1) \/
    (input (pc w) = PBusy (in_ (pc w)) (in_len (pc w)) /\ 0 <= in_len (pc w) <= input_mtu (pc w) /\
      (0 < in_len (pc w) -> is_Some (in_ (pc w))));
  v_out : output (pc w) = None \/ output (pc w) = Some (input (pc w));
  v_packets : sent w = taken w ++ held (pc w);
}.

Lemma send_to_output_ok o : output o = Some PIdle -> input_mtu o <= output_mtu o -> 0 <= in_len o <= input_mtu o ->
  (0 < in_len o -> is_Some (in_ o)) ->
  send_to_output o = Some (with_output o (Some (PBusy (in_ o) (in_len o))) (output_mtu o)).
Proof.
  intros Ho Hm Hl Hd. unfold send_to_output, PacketPassInterface_Sender_Send. rewrite Ho. simpl. do 2 bool_true.
  assert (negb (in_len o >? 0) || bool_decide (is_Some (in_ o)) = true) as ->; [|done].
  rewrite orb_true_iff, negb_true_iff, bool_decide_eq_true, Z.gtb_ltb, Z.ltb_ge.
  destruct (decide (0 < in_len o)); [right; auto|left; lia].
Qed.

Lemma connector_exec_inv w e : inv w -> enabled w e = true -> exists w', exec w e = Some w' /\ inv w'.
Proof.
  intros [Vm Vi Vo Vp] He. destruct w as [o tx rx]. destruct e as [data len|mtu| |]; simpl in *.
  - destruct Vi as [[Ei El]|(Ei & _)]; rewrite Ei in *; [|done].
    apply andb_true_iff in He as [He Hd]. unfold PacketPassInterface_Sender_Send. rewrite Hd. reflect_bool. do 2 bool_true. simpl.
    unfold input_handler_send. simpl. rewrite El. do 3 bool_true.
    assert (0 < len -> is_Some data) as Hdat.
    { intros Hl. destruct Hd as [Hd|Hd]; [reflect_bool; lia|by apply bool_decide_eq_true in Hd]. }
    unfold held in Vp. rewrite Ei, app_nil_r in Vp. subst tx. destruct Vo as [Eo|Eo]; rewrite Eo in *; simpl.
    + eexists. split; [done|]. constructor; simpl; [by intros [? ?]|right; split; [done|split; [simpl; lia|done]]|by left|done].
    + rewrite send_to_output_ok by (try done; simpl; apply Vm; by eexists). simpl. eexists. split; [done|].
      constructor; simpl; [intros; apply Vm; by eexists|right; split; [done|split; [simpl; lia|done]]|by right|done].
  - apply andb_true_iff in He as [He Hm]. apply bool_decide_eq_true in He. reflect_bool.
    unfold PacketPassConnector_ConnectOutput. rewrite He. simpl. bool_true. destruct Vi as [[Ei El]|(Ei & Hl & Hd)].
    + rewrite El. simpl. eexists. split; [done|]. constructor; simpl; [done|by left|right; by rewrite Ei|done].
    + bool_true. rewrite send_to_output_ok by done. simpl. eexists. split; [done|].
      constructor; simpl; [done|right; split; [done|split; [simpl; lia|done]]|right; by rewrite Ei|done].
  - unfold PacketPassConnector_DisconnectOutput. rewrite He. simpl. eexists. split; [done|].
    constructor; simpl; [by intros [? ?]|done|by left|done].
  - destruct Vo as [Eo|Eo]; rewrite Eo in *; [done|]. destruct Vi as [[Ei El]|(Ei & Hl & Hd)]; rewrite Ei in *; [done|].
    unfold output_handler_done. simpl. bool_true. rewrite Ei. simpl. eexists. split; [done|].
    constructor; simpl; [intros; apply Vm; by eexists|by left|by right|]. unfold held in *. simpl. rewrite Ei in Vp. by rewrite app_nil_r.
Qed.

(** A packet connector loses and repeats no packet while outputs come and go: under any
    interleaving of packets, connections and disconnections of outputs, no assertion can fail;
    the packets taken by outputs are those sent, in order, but for the packet still held; and a
    held packet is outstanding on the output whenever one is connected, also one connected after
    the packet came or after another output was disconnected while it had the packet. *)
Theorem packet_pass_connector_correct mtu o0 w :
  PacketPassConnector_Init mtu = Some o0 -> reach (mkw o0 [] []) w ->
  (forall e, enabled w e = true -> is_Some (exec w e)) /\ sent w = taken w ++ held (pc w) /\
  (is_Some (output (pc w)) -> output (pc w) = Some (input (pc w))).
Proof.
  unfold PacketPassConnector_Init. destruct (mtu >=? 0); [|done]. intros [= <-] Hr.
  assert (inv w) as I.
  { induction Hr as [|w e w' _ IH He E].
    - constructor; simpl; [by intros [? ?]|by left|by left|done].
    - destruct (connector_exec_inv w e IH He) as (w1 & E1 & I1). congruence. }
  split; [|split].
  - intros e He. destruct (connector_exec_inv w e I He) as (w' & -> & _). by eexists.
  - apply I.
  - intros [v Hv]. destruct (v_out _ I) as [H|H]; [congruence|done].
Qed.

Definition conn_demo0 : t := Eval vm_compute in default (mk PIdle 0 0 None None 0) (PacketPassConnector_Init 10).
Definition conn_demo1 : world :=
  Eval vm_compute in default (mkw conn_demo0 [] []) (w ← exec (mkw conn_demo0 [] []) (ESend (Some 5) 3); exec w (EConnect 10)).

Lemma packet_pass_connector_correct_witness :
  reach (mkw conn_demo0 [] []) conn_demo1 /\ is_Some (exec conn_demo1 EOutDone) /\
  output (pc conn_demo1) = Some (PBusy (Some 5) 3).
Proof.
  assert (reach (mkw conn_demo0 [] []) conn_demo1) as R.
  { eapply (reach_step _ _ (EConnect 10)); [eapply (reach_step _ _ (ESend (Some 5) 3)); [constructor| |]| |]; vm_compute; reflexivity. }
  destruct (packet_pass_connector_correct 10 conn_demo0 conn_demo1) as (He & _ & Ho); [reflexivity|exact R|].
  split; [exact R|]. split; [apply He; reflexivity|]. apply Ho. vm_compute. eexists. reflexivity.
Defined.

End PacketPassConnector.
