(* ===== verification/SendPath.v ===== *)
(** * The send path of a UDP connection (flow/BufferWriter.c in front of flow/PacketBuffer.c)

    A writer lets its user fill the packet that a receiver waits for in place.  The UDP
    connections of the relay client write through it into a packet buffer, from which the datagram
    socket takes the packets. *)

From S2P Require Import Prelude ChunkBuffer2 FlowView PacketBuffer.

Module BufferWriter.

Record t := mk {
  recv_interface : recv_view;
  out_have : bool;
  out : Z;
  d_mtu : Z;
  d_writing : bool;
}.
Definition with_recv (o : t) (r : recv_view) : t := mk r (out_have o) (out o) (d_mtu o) (d_writing o).

Definition output_handler_recv (o : t) (data : Z) : option t :=
  ASSERT negb (out_have o);
  Some (mk (recv_interface o) true data (d_mtu o) (d_writing o)).

Definition BufferWriter_Init (mtu : Z) : option t :=
  ASSERT mtu >=? 0;
  Some (mk RIdle false 0 mtu false).

(** [Some None]: the result 0; [Some (Some (o, buf))]: the result 1. *)
Definition BufferWriter_StartPacket (o : t) : option (option (t * Z)) :=
  ASSERT negb (d_writing o);
  if negb (out_have o) then Some None else
  Some (Some (mk (recv_interface o) (out_have o) (out o) (d_mtu o) true, out o)).

Definition BufferWriter_EndPacket (o : t) (len : Z) : option t :=
  ASSERT len >=? 0;
  ASSERT len <=? d_mtu o;
  ASSERT out_have o;
  ASSERT d_writing o;
  let o := mk (recv_interface o) false (out o) (d_mtu o) (d_writing o) in
  r ← PacketRecvInterface_Done (recv_interface o) (d_mtu o) len;
  Some (mk r (out_have o) (out o) (d_mtu o) false).

End BufferWriter.

Module SendPath.

(** The jobs of the interface between the two: the receive operation is to be told to the
    writer; its completion with a packet of [len] bytes is to be told to the buffer. *)
Inductive job := JOp | JDone (len : Z).

Record t := mk { wr : BufferWriter.t; pb : PacketBuffer.t }.

(** A handler of the buffer ran; it started a receive operation if its input, idle before, is busy. *)
Definition requested (w : BufferWriter.t) (before after : PacketBuffer.t) : t * list job :=
  match PacketBuffer.input before, PacketBuffer.input after with
  | RIdle, RBusy d => (mk (BufferWriter.with_recv w (RBusy d)) after, [JOp])
  | _, _ => (mk w after, [])
  end.

(** [BufferWriter_Init] and [PacketBuffer_Init], as in [connection_init]. *)
Definition init (alloc : Z -> option (list Z)) (mtu out_mtu num : Z) : option (unit + t * list job) :=
  w ← BufferWriter.BufferWriter_Init mtu;
  r ← PacketBuffer.PacketBuffer_Init alloc mtu out_mtu num;
  match r with
  | inl _ => Some (inl tt)
  | inr b => Some (inr (requested w (PacketBuffer.with_input b RIdle) b))
  end.

(** The interface runs its job. *)
Definition run_job (c : t) (j : job) : option (t * list job) :=
  match j with
  | JOp =>
      match BufferWriter.recv_interface (wr c) with
      | RBusy d => w ← BufferWriter.output_handler_recv (wr c) d; Some (mk w (pb c), [])
      | RIdle => None
      end
  | JDone len =>
      let b := PacketBuffer.with_input (pb c) RIdle in
      b' ← PacketBuffer.input_handler_done b len;
      Some (requested (wr c) b b')
  end.

(** The datagram socket took a packet. *)
Definition out_done (c : t) : option (t * list job) :=
  let b := PacketBuffer.with_output (pb c) PIdle in
  b' ← PacketBuffer.output_handler_done b;
  Some (requested (wr c) b b').

(** Writing at [out + off]; the memory there has the length of the MTU. *)
Definition write_out (c : t) (out off : Z) (data : list Z) : option t :=
  ASSERT (0 <=? off) && (off + zlen data <=? BufferWriter.d_mtu (wr c));
  Some (mk (wr c) (PacketBuffer.with_buf (pb c) (ChunkBuffer2.write_input (PacketBuffer.buf (pb c)) (out + off) data))).

Definition start_packet (c : t) : option (option (t * Z)) :=
  r ← BufferWriter.BufferWriter_StartPacket (wr c);
  match r with
  | None => Some None
  | Some (w, out) => Some (Some (mk w (pb c), out))
  end.
Definition end_packet (c : t) (len : Z) : option (t * list job) :=
  w ← BufferWriter.BufferWriter_EndPacket (wr c) len;
  Some (mk w (pb c), [JDone len]).

(** ** Invariant *)

(** Where the interface between the two stands, with its pending jobs: the buffer has no room;
    it asked for a packet; the writer has its place; a packet was written. *)
Inductive stage := Full | Asked | Ready | Submitted (len : Z).
Definition stage_jobs (g : stage) : list job :=
  match g with Full | Ready => [] | Asked => [JOp] | Submitted len => [JDone len] end.

Record ok (c : t) (q : list (list Z)) (num : Z) (g : stage) : Prop := {
  k_buf : PacketBuffer.ok (pb c) q num;
  k_mtu : BufferWriter.d_mtu (wr c) = PacketBuffer.input_mtu (pb c);
  k_writing : BufferWriter.d_writing (wr c) = false;
  k_stage :
    match g with
    | Full => PacketBuffer.input (pb c) = RIdle /\ BufferWriter.recv_interface (wr c) = RIdle /\ BufferWriter.out_have (wr c) = false
    | Asked => exists d, PacketBuffer.input (pb c) = RBusy d /\ BufferWriter.recv_interface (wr c) = RBusy d /\
        BufferWriter.out_have (wr c) = false
    | Ready => exists d, PacketBuffer.input (pb c) = RBusy d /\ BufferWriter.recv_interface (wr c) = RBusy d /\
        BufferWriter.out_have (wr c) = true /\ BufferWriter.out (wr c) = d
    | Submitted len => exists d, PacketBuffer.input (pb c) = RBusy d /\ BufferWriter.recv_interface (wr c) = RIdle /\
        BufferWriter.out_have (wr c) = false /\ 0 <= len <= PacketBuffer.input_mtu (pb c)
    end;
}.

(** The packets accepted and not yet taken. *)
Definition queue (c : t) (q : list (list Z)) (g : stage) : list (list Z) :=
  match g with Submitted len => q ++ [PacketBuffer.in_packet (pb c) len] | _ => q end.

(** After a handler of the buffer ran with its input idle. *)
Lemma requested_ok w b b' q num : PacketBuffer.input b = RIdle -> PacketBuffer.ok b' q num ->
  BufferWriter.d_mtu w = PacketBuffer.input_mtu b' -> BufferWriter.d_writing w = false ->
  BufferWriter.recv_interface w = RIdle -> BufferWriter.out_have w = false ->
  exists c g, requested w b b' = (c, stage_jobs g) /\ ok c q num g /\ queue c q g = q /\ (g = Full \/ g = Asked) /\
    PacketBuffer.input_mtu (pb c) = PacketBuffer.input_mtu b'.
Proof.
  intros Hb Hok Hm Hw Hr Ho. unfold requested. rewrite Hb. destruct (PacketBuffer.input b') as [|d] eqn:E.
  - exists (mk w b'), Full. split; [done|]. split; [by constructor|]. auto.
  - exists (mk (BufferWriter.with_recv w (RBusy d)) b'), Asked. split; [done|]. split; [constructor; try done; by exists d|]. auto.
Qed.

Lemma run_op_ok c q num : ok c q num Asked -> exists c', run_job c JOp = Some (c', []) /\ ok c' q num Ready /\ pb c' = pb c.
Proof.
  intros [Hb Hm Hw (d & Hi & Hr & Ho)]. unfold run_job, BufferWriter.output_handler_recv. rewrite Hr, Ho. simpl.
  eexists. split; [done|]. split; [|done]. constructor; try done. by exists d.
Qed.

(** The handlers keep the MTU. *)
Lemma recv_mtu o o' : PacketBuffer.recv o = Some o' -> PacketBuffer.input_mtu o' = PacketBuffer.input_mtu o.
Proof. unfold PacketBuffer.recv. destruct (PacketRecvInterface_Receiver_Recv _ _ _); simpl; [|done]. by intros [= <-]. Qed.
Lemma send_mtu o o' : PacketBuffer.send o = Some o' -> PacketBuffer.input_mtu o' = PacketBuffer.input_mtu o.
Proof. unfold PacketBuffer.send. destruct (PacketPassInterface_Sender_Send _ _ _ _); simpl; [|done]. by intros [= <-]. Qed.
Lemma choice_mtu (c : bool) (f : PacketBuffer.t -> option PacketBuffer.t) o o' :
  (forall o1, f o = Some o1 -> PacketBuffer.input_mtu o1 = PacketBuffer.input_mtu o) ->
  (if c then f o else Some o) = Some o' -> PacketBuffer.input_mtu o' = PacketBuffer.input_mtu o.
Proof. intros Hf. destruct c; [apply Hf|by intros [= <-]]. Qed.

Lemma input_mtu_in b len b' : PacketBuffer.input_handler_done b len = Some b' -> PacketBuffer.input_mtu b' = PacketBuffer.input_mtu b.
Proof.
  unfold PacketBuffer.input_handler_done. do 2 (case_if; [|done]). destruct (ChunkBuffer2.ChunkBuffer2_SubmitPacket _ _) as [x|]; [|done].
  simpl. destruct (if _ >=? _ then _ else _) as [o|] eqn:E1; simpl; [|done]. intros E2.
  rewrite (choice_mtu _ _ _ _ (send_mtu o) E2), (choice_mtu _ _ _ _ (recv_mtu _) E1). done.
Qed.
Lemma input_mtu_out b b' : PacketBuffer.output_handler_done b = Some b' -> PacketBuffer.input_mtu b' = PacketBuffer.input_mtu b.
Proof.
  unfold PacketBuffer.output_handler_done. destruct (ChunkBuffer2.ChunkBuffer2_ConsumePacket _) as [x|]; [|done].
  simpl. destruct (if _ && _ then _ else _) as [o|] eqn:E1; simpl; [|done]. intros E2.
  rewrite (choice_mtu _ _ _ _ (send_mtu o) E2), (choice_mtu _ _ _ _ (recv_mtu _) E1). done.
Qed.

Lemma init_mtu alloc mtu out_mtu num b : PacketBuffer.PacketBuffer_Init alloc mtu out_mtu num = Some (inr b) -> PacketBuffer.input_mtu b = mtu.
Proof.
  unfold PacketBuffer.PacketBuffer_Init. do 2 (case_if; [|done]). cbv zeta. case_if; [done|]. destruct (alloc _); [|done]. destruct (ChunkBuffer2.ChunkBuffer2_Init _ _ _); simpl; [|done].
  destruct (PacketBuffer.recv _) as [x|] eqn:Er; simpl; [|done]. intros [= <-]. by rewrite (recv_mtu _ _ Er).
Qed.

Lemma run_done_ok c q num len : ok c q num (Submitted len) ->
  exists c' g, run_job c (JDone len) = Some (c', stage_jobs g) /\ ok c' (queue c q (Submitted len)) num g /\ (g = Full \/ g = Asked) /\
    PacketBuffer.input_mtu (pb c') = PacketBuffer.input_mtu (pb c).
Proof.
  intros [Hb Hm Hw (d & Hi & Hr & Ho & Hl)]. unfold run_job.
  destruct (PacketBuffer.in_step (pb c) q num len Hb) as (b' & E & Hok).
  { simpl. rewrite Hi. apply andb_true_iff. rewrite !Z.leb_le. lia. }
  cbn [PacketBuffer.exec] in E. rewrite E. simpl. apply input_mtu_in in E. simpl in E.
  destruct (requested_ok (wr c) (PacketBuffer.with_input (pb c) RIdle) b' _ _ eq_refl Hok) as (c' & g & -> & Hk & _ & Hg & Hmt);
    [congruence|done|done|done|]. exists c', g. do 3 (split; [done|]). congruence.
Qed.

(** While the writer has or had its place, the socket taking a packet leaves it alone. *)
Lemma out_keeps b q num d b' : PacketBuffer.ok b q num -> q <> [] -> PacketBuffer.input b = RBusy d ->
  PacketBuffer.output_handler_done (PacketBuffer.with_output b PIdle) = Some b' ->
  PacketBuffer.input b' = RBusy d /\ ChunkBuffer2.buffer (PacketBuffer.buf b') = ChunkBuffer2.buffer (PacketBuffer.buf b).
Proof.
  intros Hok Hq Hi. destruct q as [|p q]; [done|]. pose proof (PacketBuffer.ok_in _ _ _ Hok) as Ha. rewrite Hi in Ha.
  destruct (ChunkBuffer2.consume_ok _ _ _ (PacketBuffer.ok_buf _ _ _ Hok)) as (x & Ex & _ & _ & Em & _).
  unfold PacketBuffer.output_handler_done. cbn [PacketBuffer.with_output PacketBuffer.buf PacketBuffer.input_mtu]. rewrite Ex.
  cbn [mbind option_bind]. destruct Ha as [_ Ha]. bool_false. cbn [mbind option_bind].
  case_if; [|intros [= <-]; done]. unfold PacketBuffer.send. destruct (PacketPassInterface_Sender_Send _ _ _ _); [|done].
  simpl. intros [= <-]. done.
Qed.

Lemma queue_out b q num d len : PacketBuffer.ok b q num -> PacketBuffer.output b = PBusy d len -> q <> [].
Proof. intros Hok Ho. pose proof (PacketBuffer.ok_out _ _ _ Hok) as H. rewrite Ho in H. by destruct H. Qed.

(** The socket took the first packet. *)
Lemma out_done_ok c q num g len d : ok c q num g -> PacketBuffer.output (pb c) = PBusy d len ->
  exists c' g' q', out_done c = Some (c', match g with Full => stage_jobs g' | _ => [] end) /\
    queue c q g = PacketBuffer.out_packet (pb c) :: queue c' q' g' /\ ok c' q' num g' /\
    match g with Full => g' = Full \/ g' = Asked | _ => g' = g end /\
    PacketBuffer.input_mtu (pb c') = PacketBuffer.input_mtu (pb c).
Proof.
  intros [Hb Hm Hw Hg] Ho. pose proof (queue_out _ _ _ _ _ Hb Ho) as Hne. unfold out_done.
  destruct (PacketBuffer.out_step (pb c) q num Hb) as (b' & p & q' & Eq & Ep & E & Hok); [simpl; by rewrite Ho; destruct (PacketBuffer.input _)|].
  cbn [PacketBuffer.exec] in E. rewrite E. simpl. pose proof (input_mtu_out _ _ E) as Em. simpl in Em.
  destruct g as [| | |len'].
  - destruct Hg as (Hi & Hr & Hh).
    destruct (requested_ok (wr c) (PacketBuffer.with_output (pb c) PIdle) b' _ _ Hi Hok) as (c' & g & -> & Hk & Hq & Hg & Hm');
      [congruence|done|done|done|]. exists c', g, q'. split; [done|]. split; [|split; [done|]; split; [done|congruence]].
    rewrite Hq. simpl. by rewrite Eq, Ep.
  - destruct Hg as (d' & Hi & Hr & Hh). destruct (out_keeps _ _ _ _ _ Hb Hne Hi E) as [Hi' _].
    unfold requested. simpl. rewrite Hi. exists (mk (wr c) b'), Asked, q'. split; [done|]. split; [simpl; by rewrite Eq, Ep|].
    split; [|done]. constructor; simpl; [done|congruence|done|]. by exists d'.
  - destruct Hg as (d' & Hi & Hr & Hh). destruct (out_keeps _ _ _ _ _ Hb Hne Hi E) as [Hi' _].
    unfold requested. simpl. rewrite Hi. exists (mk (wr c) b'), Ready, q'. split; [done|]. split; [simpl; by rewrite Eq, Ep|].
    split; [|done]. constructor; simpl; [done|congruence|done|]. by exists d'.
  - destruct Hg as (d' & Hi & Hr & Hh & Hl). destruct (out_keeps _ _ _ _ _ Hb Hne Hi E) as [Hi' Hbuf].
    unfold requested. simpl. rewrite Hi. exists (mk (wr c) b'), (Submitted len'), q'. split; [done|]. split; [|split; [|done]].
    + simpl. unfold PacketBuffer.in_packet. simpl. rewrite Hi, Hi', Hbuf, Eq, Ep. done.
    + constructor; simpl; [done|congruence|done|]. exists d'. do 3 (split; [done|]). lia.
Qed.

(** The writer's user fills the packet; [pre] was written. *)
Record writing (c : t) (q : list (list Z)) (num d : Z) (pre : list Z) : Prop := {
  w_buf : PacketBuffer.ok (pb c) q num;
  w_mtu : BufferWriter.d_mtu (wr c) = PacketBuffer.input_mtu (pb c);
  w_in : PacketBuffer.input (pb c) = RBusy d;
  w_wr : wr c = BufferWriter.mk (RBusy d) true d (BufferWriter.d_mtu (wr c)) true;
  w_pre : sub (ChunkBuffer2.buffer (PacketBuffer.buf (pb c))) d (zlen pre) = pre;
  w_len : zlen pre <= PacketBuffer.input_mtu (pb c);
}.

Lemma path_start_ok c q num : ok c q num Ready ->
  exists c' d, start_packet c = Some (Some (c', d)) /\ writing c' q num d [] /\
    PacketBuffer.input_mtu (pb c') = PacketBuffer.input_mtu (pb c).
Proof.
  intros [Hb Hm Hw (d & Hi & Hr & Hh & Ho)]. unfold start_packet, BufferWriter.BufferWriter_StartPacket. rewrite Hw, Hh. simpl.
  do 2 eexists. split; [done|]. split; [|done]. pose proof (PacketBuffer.ok_mtu _ _ _ Hb).
  constructor; simpl; try done; [by rewrite Ho|by rewrite Hr, Ho|rewrite zlen_nil; lia].
Qed.

Lemma start_refused c q num g : ok c q num g -> g <> Ready -> start_packet c = Some None.
Proof.
  intros [Hb Hm Hw Hg] Hn. unfold start_packet, BufferWriter.BufferWriter_StartPacket. rewrite Hw.
  assert (BufferWriter.out_have (wr c) = false) as ->; [|done]. by destruct g; destruct_and?; try done; destruct Hg as (? & _ & _ & ?); destruct_and?.
Qed.

(** The memory offered to the writer lies in the buffer. *)
Lemma writing_room c q num d pre : writing c q num d pre ->
  0 <= d /\ d + PacketBuffer.input_mtu (pb c) <= zlen (ChunkBuffer2.buffer (PacketBuffer.buf (pb c))).
Proof.
  intros [Hb _ Hi _ _ _]. exact (PacketBuffer.in_room _ _ _ _ Hb Hi).
Qed.

Lemma write_ok c q num d pre data : writing c q num d pre -> zlen pre + zlen data <= PacketBuffer.input_mtu (pb c) ->
  exists c', write_out c d (zlen pre) data = Some c' /\ writing c' q num d (pre ++ data) /\
    PacketBuffer.input_mtu (pb c') = PacketBuffer.input_mtu (pb c).
Proof.
  intros W Hl. pose proof (writing_room _ _ _ _ _ W) as [Hd Hr]. destruct W as [Hb Hm Hi Hw Hp Hz].
  pose proof (zlen_nonneg pre). pose proof (zlen_nonneg data). unfold write_out. rewrite Hm. bool_true.
  eexists. split; [done|]. split; [|done]. constructor; cbn [pb wr]; try done.
  - apply PacketBuffer.write_step; [done|]. simpl. rewrite Hi. apply andb_true_iff. rewrite !Z.leb_le. lia.
  - simpl. rewrite zlen_app, (sub_split _ d _ (zlen pre)) by lia. f_equal.
    + rewrite sub_splice_ne by lia. done.
    + replace (zlen pre + zlen data - zlen pre) with (zlen data) by lia. apply sub_splice_eq. lia.
  - simpl. rewrite zlen_app. lia.
Qed.

Lemma end_ok c q num d pre : writing c q num d pre ->
  exists c', end_packet c (zlen pre) = Some (c', [JDone (zlen pre)]) /\ ok c' q num (Submitted (zlen pre)) /\
    queue c' q (Submitted (zlen pre)) = q ++ [pre] /\ PacketBuffer.input_mtu (pb c') = PacketBuffer.input_mtu (pb c).
Proof.
  intros [Hb Hm Hi Hw Hp Hz]. pose proof (zlen_nonneg pre).
  unfold end_packet, BufferWriter.BufferWriter_EndPacket, PacketRecvInterface_Done. rewrite Hw. simpl. rewrite Hm. do 2 bool_true. simpl.
  eexists. split; [done|]. split; [constructor; simpl; try done|].
  - exists d. split; [done|]. do 2 (split; [done|]). lia.
  - simpl. unfold PacketBuffer.in_packet. simpl. by rewrite Hi, Hp.
Qed.

(** ** The path in its environment *)

(** A user sends a packet; the result tells whether the writer had a place for it. *)
Definition send (c : t) (msg : list Z) : option (t * list job * bool) :=
  r ← start_packet c;
  match r with
  | None => Some (c, [], false)
  | Some (c, out) =>
      c ← write_out c out 0 msg;
      '(c, js) ← end_packet c (zlen msg);
      Some (c, js, true)
  end.

Inductive event := ESend (msg : list Z) | EJob | EOut.

(** The pending jobs, the packets accepted and those the socket took. *)
Record world := mkw { path : t; jobs : list job; accepted : list (list Z); taken : list (list Z) }.

Definition enabled (w : world) (e : event) : bool :=
  match e with
  | ESend msg => zlen msg <=? BufferWriter.d_mtu (wr (path w))
  | EJob => match jobs w with [] => false | _ => true end
  | EOut => match PacketBuffer.output (pb (path w)) with PBusy _ _ => true | PIdle => false end
  end.

Definition exec (w : world) (e : event) : option world :=
  match e with
  | ESend msg =>
      '(c, js, took) ← send (path w) msg;
      Some (mkw c (js ++ jobs w) (if took : bool then accepted w ++ [msg] else accepted w) (taken w))
  | EJob =>
      match jobs w with
      | [] => None
      | j :: js => '(c, js') ← run_job (path w) j; Some (mkw c (js' ++ js) (accepted w) (taken w))
      end
  | EOut =>
      '(c, js) ← out_done (path w);
      Some (mkw c (js ++ jobs w) (accepted w) (taken w ++ [PacketBuffer.out_packet (pb (path w))]))
  end.

Inductive reach (w0 : world) : world -> Prop :=
| reach_init : reach w0 w0
| reach_step w e w' : reach w0 w -> enabled w e = true -> exec w e = Some w' -> reach w0 w'.

Definition inv (num : Z) (w : world) : Prop :=
  exists q g, ok (path w) q num g /\ jobs w = stage_jobs g /\ accepted w = taken w ++ queue (path w) q g.

Lemma path_send_ok c q num g msg : ok c q num g -> zlen msg <= PacketBuffer.input_mtu (pb c) ->
  (g <> Ready /\ send c msg = Some (c, [], false)) \/
  (g = Ready /\ exists c', send c msg = Some (c', [JDone (zlen msg)], true) /\ ok c' q num (Submitted (zlen msg)) /\
    queue c' q (Submitted (zlen msg)) = q ++ [msg]).
Proof.
  intros Hok Hl. unfold send. assert (g = Ready \/ g <> Ready) as [-> |Hn] by (destruct g; by auto).
  - right. split; [done|]. destruct (path_start_ok _ _ _ Hok) as (c1 & d & -> & W & Hm). simpl.
    destruct (write_ok c1 q num d [] msg W) as (c2 & E2 & W2 & _); [rewrite zlen_nil; lia|]. change (zlen []) with 0 in E2. rewrite E2. simpl.
    change ([] ++ msg) with msg in W2. destruct (end_ok _ _ _ _ _ W2) as (c3 & -> & Hok3 & Hq & _). simpl. by exists c3.
  - left. split; [done|]. by rewrite (start_refused _ _ _ _ Hok Hn).
Qed.

Lemma path_exec_inv num w e : inv num w -> enabled w e = true -> exists w', exec w e = Some w' /\ inv num w'.
Proof.
  intros (q & g & Hok & Hj & Ha) He. destruct w as [c js acc tk]. simpl in *. destruct e as [msg| |]; simpl in *.
  - reflect_bool. rewrite (k_mtu _ _ _ _ Hok) in He.
    destruct (path_send_ok _ _ _ _ msg Hok He) as [[Hn ->]|(-> & c' & -> & Hok' & Hq)]; simpl.
    + eexists. split; [done|]. by exists q, g.
    + eexists. split; [done|]. exists q, (Submitted (zlen msg)). split; [done|]. split; [by rewrite Hj|].
      cbn [accepted taken path]. by rewrite Hq, Ha, app_assoc.
  - destruct g as [| | |len]; rewrite Hj in *; try done; simpl in *.
    + destruct (run_op_ok _ _ _ Hok) as (c' & E & Hok' & _). simpl in E. rewrite E. simpl. eexists. split; [done|]. by exists q, Ready.
    + destruct (run_done_ok _ _ _ _ Hok) as (c' & g & E & Hok' & Hg & _). simpl in E. rewrite E. simpl. eexists. split; [done|].
      exists (q ++ [PacketBuffer.in_packet (pb c) len]), g. split; [done|]. split; [by rewrite app_nil_r|]. by destruct Hg as [-> | ->].
  - destruct (PacketBuffer.output (pb c)) as [|d len] eqn:Ho; [done|].
    destruct (out_done_ok _ _ _ _ _ _ Hok Ho) as (c' & g' & q' & -> & Hq & Hok' & Hg & _). simpl. eexists. split; [done|].
    exists q', g'. split; [done|]. split; [rewrite Hj; destruct g; subst; try done; by rewrite app_nil_r|].
    simpl. by rewrite Ha, Hq, <- app_assoc.
Qed.

Section Theorems.
Context (alloc : Z -> option (list Z)) (alloc_size : forall n m, alloc n = Some m -> zlen m = n).
Context (mtu out_mtu num : Z) (Hmtu : 0 <= mtu <= INT_MAX) (Hout : mtu <= out_mtu) (Hnum : 0 < num).
Context (Hsize : ChunkBuffer2.BLOCK * ((1 + ChunkBuffer2.blocks_of mtu) * (num + 1)) <= INT_MAX).

Lemma path_init_ok : init alloc mtu out_mtu num = Some (inl tt) \/
  exists c, init alloc mtu out_mtu num = Some (inr (c, [JOp])) /\ ok c [] num Asked /\ PacketBuffer.input_mtu (pb c) = mtu.
Proof using alloc_size Hmtu Hout Hnum Hsize.
  unfold init, BufferWriter.BufferWriter_Init. bool_true. simpl.
  destruct (PacketBuffer.init_cases alloc alloc_size mtu out_mtu num Hmtu Hout Hnum Hsize) as [->|(b & E & Hok)]; [by left|right].
  rewrite E. simpl. destruct (PacketBuffer.room _ _ _ Hok) as [d Hd]; [simpl; lia|].
  pose proof (init_mtu alloc mtu out_mtu num b E) as Hm.
  unfold requested. simpl. rewrite Hd. eexists. split; [done|]. split; [|done]. constructor; simpl; try done. by exists d.
Qed.

(** The path can be made when memory can be had. *)
Lemma path_init_alloc : (forall n, 0 <= n -> is_Some (alloc n)) -> init alloc mtu out_mtu num <> Some (inl tt).
Proof using Hmtu Hout Hnum Hsize.
  intros Ha. pose proof (ChunkBuffer2.blocks_of_spec mtu Hmtu) as [Hbl _].
  unfold init, BufferWriter.BufferWriter_Init. bool_true. cbn [mbind option_bind]. unfold PacketBuffer.PacketBuffer_Init.
  do 2 bool_true. cbv zeta. assert (num + 1 <= (1 + ChunkBuffer2.blocks_of mtu) * (num + 1)) by nia. unfold ChunkBuffer2.BLOCK, INT_MAX in Hsize.
  rewrite ChunkBuffer2.calc_blocks_spec by (unfold INT_MAX in *; lia). unfold INT_MAX. bool_true. bool_false.
  destruct (Ha ((1 + ChunkBuffer2.blocks_of mtu) * (num + 1) * ChunkBuffer2.BLOCK)) as [m ->]; [unfold ChunkBuffer2.BLOCK; nia|].
  destruct (ChunkBuffer2.ChunkBuffer2_Init _ _ _); simpl; [|done]. by destruct (PacketBuffer.recv _).
Qed.

(** the send path of a UDP connection delivers what it accepts: under any interleaving of
    packets written, jobs and packets taken by the socket, no assertion of the writer, the
    buffer or the ring can fail; the packets accepted are those the socket took followed by a
    queue, in order and byte for byte; and once its pending job ran, the path accepts a packet
    whenever fewer than [num] packets are queued. *)
Theorem send_path_fifo c0 js w :
  init alloc mtu out_mtu num = Some (inr (c0, js)) -> reach (mkw c0 js [] []) w ->
  (forall e, enabled w e = true -> is_Some (exec w e)) /\
  exists q, accepted w = taken w ++ q /\
    (q <> [] -> jobs w = [] -> exists d len, PacketBuffer.output (pb (path w)) = PBusy d len) /\
    (jobs w = [] -> Z.of_nat (length q) < num -> BufferWriter.out_have (wr (path w)) = true).
Proof using alloc_size Hmtu Hout Hnum Hsize.
  intros Hi Hr. destruct path_init_ok as [?|(c & E & Hok & _)]; [congruence|]. rewrite Hi in E. injection E as -> ->.
  assert (inv num w) as I.
  { induction Hr as [|w e w' _ IH He E]; [by exists [], Asked|].
    destruct (path_exec_inv num w e IH He) as (w1 & E1 & I1). congruence. }
  split.
  - intros e He. destruct (path_exec_inv num w e I He) as (w' & -> & _). by eexists.
  - destruct I as (q & g & Hk & Hj & Ha). exists (queue (path w) q g). split; [done|]. split; intros H1 H2.
    + rewrite H2 in Hj. pose proof (PacketBuffer.ok_out _ _ _ (k_buf _ _ _ _ Hk)) as Ho.
      destruct (PacketBuffer.output (pb (path w))) as [|d len]; [|by exists d, len]. destruct g; try done.
    + rewrite H1 in Hj. destruct g; try done; destruct Hk as [Hb _ _ Hs]; simpl in *.
      * destruct (PacketBuffer.room _ _ _ Hb H2) as [d ?]. destruct Hs. congruence.
      * by destruct Hs as (d & _ & _ & ? & _).
Qed.
End Theorems.

Fixpoint run (w : world) (es : list event) : option world :=
  match es with
  | [] => Some w
  | e :: es => if enabled w e then w ← exec w e; run w es else None
  end.
Lemma path_run_reach es : forall w0 w w', reach w0 w -> run w es = Some w' -> reach w0 w'.
Proof.
  induction es as [|e es IH]; intros w0 w w' Hr; simpl; [by intros [= <-]|]. destruct (enabled w e) eqn:He; [|done].
  destruct (exec w e) as [w1|] eqn:E; [|done]. apply IH. by eapply reach_step.
Qed.

(** Packets of up to 8 bytes, room for two. *)
Definition path_demo0 : t * list job :=
  Eval vm_compute in match init zeros 8 16 2 with Some (inr c) => c
    | _ => (mk (BufferWriter.mk RIdle false 0 0 false) (PacketBuffer.mk RIdle 0 PIdle 0 (ChunkBuffer2.mk [] 0 0 0 0 0 None 0 None 0)), []) end.
Definition path_demo_w0 : world := mkw (path_demo0.1) (path_demo0.2) [] [].
Definition path_demo_events : list event := [EJob; ESend [1; 2; 3]; EJob; EJob].
Definition path_demo1 : world := Eval vm_compute in default path_demo_w0 (run path_demo_w0 path_demo_events).

Lemma send_path_fifo_witness :
  reach path_demo_w0 path_demo1 /\ accepted path_demo1 = [[1; 2; 3]] /\ is_Some (exec path_demo1 (ESend [4])) /\
  exists q, accepted path_demo1 = taken path_demo1 ++ q.
Proof.
  assert (reach path_demo_w0 path_demo1) as R.
  { apply (path_run_reach path_demo_events _ path_demo_w0); [constructor|vm_compute; reflexivity]. }
  destruct (send_path_fifo zeros zeros_size 8 16 2 ltac:(unfold INT_MAX; lia) ltac:(lia) ltac:(lia) ltac:(vm_compute; congruence)
    (path_demo0.1) (path_demo0.2) path_demo1) as (He & q & Hq & _); [reflexivity|exact R|].
  split; [exact R|]. split; [reflexivity|]. split; [apply He; reflexivity|]. exists q. exact Hq.
Defined.

End SendPath.
