(* ===== verification/SendFlow.v ===== *)
(** * Interface of a send flow

    A client that has one queue of outgoing packets per connection writes a packet in three
    steps: it asks for a place, which there may not be, fills the packet from its start, and ends it
    (flow/BufferWriter.h).  [SendFlow] is what it relies on: what was filled in is accepted as one
    packet, unchanged, whatever jobs and outputs run in between ([fl_step]).  [fl_init] is the
    initialiser, with the allocator's answers. *)

From S2P Require Import Prelude.

Class SendFlow (F : Type) := {
  fl_ok : F -> Prop;
  fl_mtu : F -> Z;
  (** The packets accepted since the flow was made. *)
  fl_accepted : F -> list (list Z);
  fl_step : F -> F -> Prop;
  (** [fl_writing f f' out pre]: in [f'] the packet at [out], asked for in [f], is filled with [pre]. *)
  fl_writing : F -> F -> Z -> list Z -> Prop;
  fl_init : (Z -> option (list Z)) -> Z -> Z -> Z -> option (option F);
  fl_start : F -> option (option (F * Z));
  fl_write : F -> Z -> Z -> list Z -> option F;
  fl_end : F -> Z -> option F;
  fl_init_ok : forall alloc mtu num out_mtu, (forall n m, alloc n = Some m -> zlen m = n) -> 0 <= mtu <= 65535 -> 0 < num <= 2 ^ 14 -> 2 + mtu <= out_mtu ->
    exists r, fl_init alloc mtu num out_mtu = Some r /\ forall f, r = Some f -> fl_ok f /\ fl_mtu f = mtu /\ fl_accepted f = [];
  fl_step_ok : forall f f', fl_ok f -> fl_step f f' -> fl_ok f' /\ fl_mtu f' = fl_mtu f /\ fl_accepted f' = fl_accepted f;
  fl_start_ok : forall f, fl_ok f -> exists r, fl_start f = Some r /\ match r with Some (f', out) => fl_writing f f' out [] | None => True end;
  fl_write_ok : forall f f' out pre data, fl_writing f f' out pre -> zlen pre + zlen data <= fl_mtu f -> exists f'', fl_write f' out (zlen pre) data = Some f'' /\ fl_writing f f'' out (pre ++ data);
  fl_end_ok : forall f f' out pre, fl_writing f f' out pre -> exists f'', fl_end f' (zlen pre) = Some f'' /\ fl_ok f'' /\ fl_mtu f'' = fl_mtu f /\ fl_accepted f'' = fl_accepted f ++ [pre];
}.
