(* ===== verification/PacketProtoFlow.v ===== *)
(** * Packets into a stream, queued (flow/PacketProtoFlow.c)

    A writer, the encoder of [PacketProto] and a packet buffer in a row: the user fills a packet in place, the
    encoder puts its length in front of it, the buffer queues it for the output.  The memory of a packet is that of
    the buffer all the way. *)

From S2P Require Import Prelude ByteOrder ChunkBuffer2 FlowView PacketBuffer PacketProto SendPath SendFlow.

Module PacketProtoFlow.

Record t := mk { ainput : BufferWriter.t; encoder : Encoder.t; buffer : PacketBuffer.t }.

(** The jobs of the two interfaces in between: the buffer asked the encoder for a packet, the encoder the
    writer; the writer completed one, the encoder did. *)
Inductive job := JAskEncoder | JAskWriter | JToEncoder (len : Z) | JToBuffer (len : Z).

Definition with_output (e : Encoder.t) (v : recv_view) : Encoder.t := Encoder.mk (Encoder.input e) (Encoder.input_mtu e) v (Encoder.output_mtu e) (Encoder.output_packet e).
Definition with_input (e : Encoder.t) (v : recv_view) : Encoder.t := Encoder.mk v (Encoder.input_mtu e) (Encoder.output e) (Encoder.output_mtu e) (Encoder.output_packet e).

(** A handler of the buffer ran; it started a receive operation if its input, idle before, is busy. *)
Definition requested (o : t) (before after : PacketBuffer.t) : t * list job :=
  match PacketBuffer.input before, PacketBuffer.input after with
  | RIdle, RBusy d => (mk (ainput o) (with_output (encoder o) (RBusy d)) after, [JAskEncoder])
  | _, _ => (mk (ainput o) (encoder o) after, [])
  end.

(** [inl tt]: the result 0. *)
Definition PacketProtoFlow_Init (alloc : Z -> option (list Z)) (input_mtu num_packets output_mtu : Z) : option (unit + t * list job) :=
  ASSERT input_mtu >=? 0;
  ASSERT input_mtu <=? PACKETPROTO_MAXPAYLOAD;
  ASSERT num_packets >? 0;
  ASSERT output_mtu >=? PACKETPROTO_ENCLEN input_mtu;
  w ← BufferWriter.BufferWriter_Init input_mtu;
  e ← Encoder.PacketProtoEncoder_Init input_mtu;
  r ← PacketBuffer.PacketBuffer_Init alloc (Encoder.output_mtu e) output_mtu num_packets;
  match r with
  | inl _ => Some (inl tt)
  | inr b => Some (inr (requested (mk w e b) (PacketBuffer.with_input b RIdle) b))
  end.

(** An interface runs its job. *)
Definition run_job (o : t) (j : job) : option (t * list job) :=
  match j with
  | JAskEncoder =>
      match Encoder.output (encoder o) with
      | RBusy d =>
          e ← Encoder.output_handler_recv (encoder o) d;
          Some (mk (BufferWriter.with_recv (ainput o) (Encoder.input e)) e (buffer o), [JAskWriter])
      | RIdle => None
      end
  | JAskWriter =>
      match BufferWriter.recv_interface (ainput o) with
      | RBusy d => w ← BufferWriter.output_handler_recv (ainput o) d; Some (mk w (encoder o) (buffer o), [])
      | RIdle => None
      end
  | JToEncoder len =>
      '(e, m) ← Encoder.input_handler_done (with_input (encoder o) RIdle) (ChunkBuffer2.buffer (PacketBuffer.buf (buffer o))) len;
      Some (mk (ainput o) e (PacketBuffer.with_buf (buffer o) (ChunkBuffer2.with_buffer (PacketBuffer.buf (buffer o)) m)), [JToBuffer (PACKETPROTO_ENCLEN len)])
  | JToBuffer len =>
      let b := PacketBuffer.with_input (buffer o) RIdle in
      b' ← PacketBuffer.input_handler_done b len;
      Some (requested o b b')
  end.

(** The output took a packet. *)
Definition out_done (o : t) : option (t * list job) :=
  let b := PacketBuffer.with_output (buffer o) PIdle in
  b' ← PacketBuffer.output_handler_done b;
  Some (requested o b b').

(** Writing at [out + off] into the packet of the writer. *)
Definition write_out (o : t) (out off : Z) (data : list Z) : option t :=
  ASSERT (0 <=? off) && (off + zlen data <=? BufferWriter.d_mtu (ainput o));
  Some (mk (ainput o) (encoder o) (PacketBuffer.with_buf (buffer o) (ChunkBuffer2.write_input (PacketBuffer.buf (buffer o)) (out + off) data))).
Definition start_packet (o : t) : option (option (t * Z)) :=
  r ← BufferWriter.BufferWriter_StartPacket (ainput o);
  match r with
  | None => Some None
  | Some (w, out) => Some (Some (mk w (encoder o) (buffer o), out))
  end.
Definition end_packet (o : t) (len : Z) : option (t * list job) :=
  w ← BufferWriter.BufferWriter_EndPacket (ainput o) len;
  Some (mk w (encoder o) (buffer o), [JToEncoder len]).

(** ** Invariant *)

(** Where a packet is: there is no room; it was asked for; it can be written; it was written; it
    was encoded. *)
Inductive stage := Full | AskedEncoder | AskedWriter | Ready | Written (len : Z) | Encoded (len : Z).
Definition stage_jobs (g : stage) : list job :=
  match g with Full | Ready => [] | AskedEncoder => [JAskEncoder] | AskedWriter => [JAskWriter] | Written len => [JToEncoder len] | Encoded len => [JToBuffer (2 + len)] end.

(** The encoder and the writer in each stage, for a packet at [d]. *)
Definition shape (g : stage) (m d : Z) (e : Encoder.t) (w : BufferWriter.t) : Prop :=
  let em i o p := Encoder.mk i m o (2 + m) p in
  let wm r h x := BufferWriter.mk r h x m false in
  exists x, match g with
  | Full => e = em RIdle RIdle None /\ w = wm RIdle false x
  | AskedEncoder => e = em RIdle (RBusy d) None /\ w = wm RIdle false x
  | AskedWriter => e = em (RBusy (d + 2)) (RBusy d) (Some d) /\ w = wm (RBusy (d + 2)) false x
  | Ready => e = em (RBusy (d + 2)) (RBusy d) (Some d) /\ w = wm (RBusy (d + 2)) true (d + 2)
  | Written _ => e = em (RBusy (d + 2)) (RBusy d) (Some d) /\ w = wm RIdle false x
  | Encoded _ => e = em RIdle RIdle None /\ w = wm RIdle false x
  end.

Definition mem (o : t) : list Z := ChunkBuffer2.buffer (PacketBuffer.buf (buffer o)).

Record ok (o : t) (q : list (list Z)) (num m : Z) (g : stage) : Prop := {
  k_buf : PacketBuffer.ok (buffer o) q num;
  k_mtu : 0 <= m <= PACKETPROTO_MAXPAYLOAD /\ PacketBuffer.input_mtu (buffer o) = 2 + m;
  k_stage :
    match g with
    | Full => PacketBuffer.input (buffer o) = RIdle /\ shape g m 0 (encoder o) (ainput o)
    | _ => exists d, PacketBuffer.input (buffer o) = RBusy d /\ shape g m d (encoder o) (ainput o) /\
        match g with Written len => 0 <= len <= m | Encoded len => 0 <= len <= m /\ sub (mem o) d 2 = host16 len | _ => True end
    end;
}.

(** The packets accepted and not yet taken, as the output gets them. *)
Definition queue (o : t) (q : list (list Z)) (g : stage) : list (list Z) :=
  match PacketBuffer.input (buffer o), g with
  | RBusy d, Written len | RBusy d, Encoded len => q ++ [encoding (sub (mem o) (d + 2) len)]
  | _, _ => q
  end.

Lemma requested_cases o b b' q num m : PacketBuffer.input b = RIdle -> PacketBuffer.ok b' q num -> 0 <= m <= PACKETPROTO_MAXPAYLOAD -> PacketBuffer.input_mtu b' = 2 + m -> shape Full m 0 (encoder o) (ainput o) ->
  exists o' g, requested o b b' = (o', stage_jobs g) /\ ok o' q num m g /\ queue o' q g = q /\ (g = Full \/ g = AskedEncoder).
Proof.
  intros Hb Hok Hm Hi (x & He & Hw). unfold requested. rewrite Hb. destruct (PacketBuffer.input b') as [|d] eqn:E.
  - exists (mk (ainput o) (encoder o) b'), Full. split; [done|]. split; [split; [done..|]; split; [done|]; by exists x|]. split; [unfold queue; cbn; by rewrite E|auto].
  - eexists _, AskedEncoder. split; [done|]. split; [|split; [unfold queue; cbn; by rewrite E|auto]]. split; [done..|]. exists d. split; [done|]. split; [|done]. exists x. cbn. by rewrite He.
Qed.

Lemma ask_encoder_ok o q num m : ok o q num m AskedEncoder -> exists o', run_job o JAskEncoder = Some (o', [JAskWriter]) /\ ok o' q num m AskedWriter /\ queue o' q AskedWriter = q.
Proof.
  intros [Hb Hm (d & Hi & (x & He & Hw) & _)]. cbn [run_job]. rewrite He. cbn [Encoder.output]. unfold Encoder.output_handler_recv, PacketRecvInterface_Receiver_Recv. cbn [Encoder.output_packet Encoder.input].
  rewrite (bool_decide_true (@None Z = None)) by done. rewrite (bool_decide_true (is_Some _)) by (by eexists). rewrite orb_true_r. cbn [mbind option_bind default from_option Encoder.input Encoder.output Encoder.input_mtu Encoder.output_mtu].
  eexists. split; [done|]. split; [|unfold queue; cbn; by rewrite Hi]. split; [done..|]. exists d. split; [done|]. split; [|done]. exists x. cbn. by rewrite Hw.
Qed.

Lemma ask_writer_ok o q num m : ok o q num m AskedWriter -> exists o', run_job o JAskWriter = Some (o', []) /\ ok o' q num m Ready /\ queue o' q Ready = q.
Proof.
  intros [Hb Hm (d & Hi & (x & He & Hw) & _)]. cbn [run_job]. rewrite Hw. cbn. eexists. split; [done|]. split; [|unfold queue; cbn; by rewrite Hi]. split; [done..|]. exists d. split; [done|]. split; [|done]. exists x. by rewrite He.
Qed.

Lemma to_encoder_ok o q num m len : ok o q num m (Written len) ->
  exists o', run_job o (JToEncoder len) = Some (o', [JToBuffer (2 + len)]) /\ ok o' q num m (Encoded len) /\ queue o' q (Encoded len) = queue o q (Written len).
Proof.
  intros [Hb [Hm Hmtu] (d & Hi & (x & He & Hw) & Hl)]. pose proof (PacketBuffer.in_room _ _ _ _ Hb Hi) as [Hd Hr]. rewrite Hmtu in Hr. unfold PACKETPROTO_MAXPAYLOAD, UINT16_MAX in Hm.
  cbn [run_job]. rewrite He. unfold Encoder.input_handler_done, with_input, packetproto_header, PACKETPROTO_ENCLEN, packetproto_header. cbn [Encoder.output_packet Encoder.output Encoder.output_mtu Encoder.input Encoder.input_mtu].
  bool_true. unfold htol16. rewrite uwrap_small by lia. unfold PacketRecvInterface_Done. bool_true. bool_true. cbn [mbind option_bind]. eexists. split; [done|].
  change (ChunkBuffer2.with_buffer (PacketBuffer.buf (buffer o)) (splice (ChunkBuffer2.buffer (PacketBuffer.buf (buffer o))) d (host16 len))) with (ChunkBuffer2.write_input (PacketBuffer.buf (buffer o)) d (host16 len)).
  assert (zlen (host16 len) = 2) as Hz by done. split.
  - split; cbn [buffer encoder ainput].
    + apply PacketBuffer.write_step; [done|]. unfold PacketBuffer.enabled. rewrite Hi, Hz. apply andb_true_iff. rewrite !Z.leb_le. lia.
    + done.
    + exists d. split; [done|]. split; [by exists x|]. split; [done|]. unfold mem. cbn [buffer PacketBuffer.with_buf PacketBuffer.buf ChunkBuffer2.write_input ChunkBuffer2.with_buffer ChunkBuffer2.buffer].
      replace 2 with (zlen (host16 len)) by done. apply sub_splice_eq. lia.
  - unfold queue. cbn [buffer PacketBuffer.with_buf PacketBuffer.input]. rewrite Hi. unfold mem. cbn [buffer PacketBuffer.with_buf PacketBuffer.buf ChunkBuffer2.write_input ChunkBuffer2.with_buffer ChunkBuffer2.buffer]. rewrite sub_splice_ne by lia. done.
Qed.

Lemma to_buffer_ok o q num m len : ok o q num m (Encoded len) ->
  exists o' g, run_job o (JToBuffer (2 + len)) = Some (o', stage_jobs g) /\ ok o' (queue o q (Encoded len)) num m g /\ queue o' (queue o q (Encoded len)) g = queue o q (Encoded len) /\ (g = Full \/ g = AskedEncoder).
Proof.
  intros [Hb [Hm Hmtu] (d & Hi & Hsh & Hl & Hh)]. pose proof (PacketBuffer.in_room _ _ _ _ Hb Hi) as [Hd Hr]. cbn [run_job].
  destruct (PacketBuffer.in_step (buffer o) q num (2 + len) Hb) as (b' & E & Hok).
  { cbn. rewrite Hi, Hmtu. apply andb_true_iff. rewrite !Z.leb_le. lia. }
  assert (PacketBuffer.in_packet (buffer o) (2 + len) = encoding (sub (mem o) (d + 2) len)) as Ep.
  { unfold PacketBuffer.in_packet, encoding. rewrite Hi. fold (mem o) in *. rewrite (sub_split _ d (2 + len) 2) by lia. rewrite Hh. unfold mem in *. rewrite zlen_sub by lia. by replace (2 + len - 2) with len by lia. }
  rewrite Ep in Hok. assert (queue o q (Encoded len) = q ++ [encoding (sub (mem o) (d + 2) len)]) as -> by (unfold queue; by rewrite Hi).
  cbn [PacketBuffer.exec] in E. rewrite E. cbn [mbind option_bind]. apply SendPath.input_mtu_in in E. cbn in E.
  destruct (requested_cases o (PacketBuffer.with_input (buffer o) RIdle) b' _ _ m eq_refl Hok) as (o' & g & -> & Hk & Hq & Hg); [done|congruence| |by exists o', g].
  destruct Hsh as (x & He & Hw). by exists x.
Qed.

Lemma flow_out_ok o q num m g d len : ok o q num m g -> PacketBuffer.output (buffer o) = PBusy d len ->
  exists o' g' q', out_done o = Some (o', match g with Full => stage_jobs g' | _ => [] end) /\ queue o q g = PacketBuffer.out_packet (buffer o) :: queue o' q' g' /\ ok o' q' num m g' /\
    match g with Full => g' = Full \/ g' = AskedEncoder | _ => g' = g end.
Proof.
  intros [Hb [Hm Hmtu] Hg] Ho. pose proof (SendPath.queue_out _ _ _ _ _ Hb Ho) as Hne. unfold out_done.
  destruct (PacketBuffer.out_step (buffer o) q num Hb) as (b' & p & q' & Eq & Ep & E & Hok); [cbn; by rewrite Ho; destruct (PacketBuffer.input _)|].
  cbn [PacketBuffer.exec] in E. rewrite E. cbn [mbind option_bind]. pose proof (SendPath.input_mtu_out _ _ E) as Em. cbn in Em.
  assert (g = Full \/ exists d', PacketBuffer.input (buffer o) = RBusy d' /\ g <> Full) as [-> |(d' & Hi & Hn)].
  { destruct g; [by left|right; destruct Hg as (d' & ? & _); exists d'; done..]. }
  - destruct Hg as [Hi Hsh]. destruct (requested_cases o (PacketBuffer.with_output (buffer o) PIdle) b' _ _ m Hi Hok) as (o' & g & -> & Hk & Hq & Hg); [done|congruence|done|].
    exists o', g, q'. split; [done|]. split; [|done]. rewrite Hq. unfold queue. rewrite Hi. by rewrite Eq, Ep.
  - destruct (SendPath.out_keeps _ _ _ _ _ Hb Hne Hi E) as [Hi' Hbuf]. unfold requested. cbn. rewrite Hi. exists (mk (ainput o) (encoder o) b'), g, q'.
    split; [by destruct g|]. split; [unfold queue, mem; cbn; rewrite Hi, Hi', Hbuf, Eq, Ep; by destruct g|]. split; [|by destruct g].
    split; cbn; [done|split; [done|congruence]|]. unfold mem in *. cbn. rewrite Hbuf. destruct g; try done; destruct Hg as (d2 & Hi2 & ? & ?); rewrite Hi in Hi2; injection Hi2 as <-; by exists d'.
Qed.


(** The user fills the packet; [pre] was written. *)
Record writing (o : t) (q : list (list Z)) (num m d : Z) (pre : list Z) : Prop := {
  w_buf : PacketBuffer.ok (buffer o) q num;
  w_mtu : 0 <= m <= PACKETPROTO_MAXPAYLOAD /\ PacketBuffer.input_mtu (buffer o) = 2 + m;
  w_in : PacketBuffer.input (buffer o) = RBusy d;
  w_enc : encoder o = Encoder.mk (RBusy (d + 2)) m (RBusy d) (2 + m) (Some d);
  w_wr : ainput o = BufferWriter.mk (RBusy (d + 2)) true (d + 2) m true;
  w_pre : sub (mem o) (d + 2) (zlen pre) = pre;
  w_len : zlen pre <= m;
}.

Lemma flow_start_ok o q num m g : ok o q num m g ->
  (g <> Ready /\ start_packet o = Some None) \/ (g = Ready /\ exists o' d, start_packet o = Some (Some (o', d + 2)) /\ writing o' q num m d []).
Proof.
  intros [Hb Hm Hg]. unfold start_packet, BufferWriter.BufferWriter_StartPacket.
  destruct g; [destruct Hg as [Hi (x & He & Hw)]|destruct Hg as (d & Hi & (x & He & Hw) & Hl)..]; rewrite Hw; cbn; try (left; by split).
  right. split; [done|]. exists (mk (BufferWriter.mk (RBusy (d + 2)) true (d + 2) m true) (encoder o) (buffer o)), d. split; [done|]. split; try done. change (zlen []) with 0. lia.
Qed.

Lemma flow_write_ok o q num m d pre data : writing o q num m d pre -> zlen pre + zlen data <= m ->
  exists o', write_out o (d + 2) (zlen pre) data = Some o' /\ writing o' q num m d (pre ++ data).
Proof.
  intros [Hb [Hm Hmtu] Hi He Hw Hp Hl] Hz. pose proof (PacketBuffer.in_room _ _ _ _ Hb Hi) as [Hd Hr]. pose proof (zlen_nonneg pre). pose proof (zlen_nonneg data). unfold write_out. rewrite Hw. cbn [BufferWriter.d_mtu]. bool_true.
  eexists. split; [done|]. split; cbn [ainput encoder buffer]; try done.
  - apply PacketBuffer.write_step; [done|]. unfold PacketBuffer.enabled. rewrite Hi. apply andb_true_iff. rewrite !Z.leb_le. lia.
  - unfold mem in *. cbn. rewrite zlen_app, (sub_split _ (d + 2) _ (zlen pre)) by lia. f_equal.
    + rewrite sub_splice_ne by lia. done.
    + replace (zlen pre + zlen data - zlen pre) with (zlen data) by lia. apply sub_splice_eq. lia.
  - rewrite zlen_app. lia.
Qed.

Lemma flow_end_ok o q num m d pre : writing o q num m d pre ->
  exists o', end_packet o (zlen pre) = Some (o', [JToEncoder (zlen pre)]) /\ ok o' q num m (Written (zlen pre)) /\ queue o' q (Written (zlen pre)) = q ++ [encoding pre].
Proof.
  intros [Hb [Hm Hmtu] Hi He Hw Hp Hl]. pose proof (zlen_nonneg pre). unfold end_packet, BufferWriter.BufferWriter_EndPacket, PacketRecvInterface_Done. rewrite Hw. cbn. do 2 bool_true. cbn.
  eexists. split; [done|]. split; [split; cbn; try done; exists d; split; [done|]; split; [by exists (d + 2)|lia]|]. unfold queue. cbn. rewrite Hi. unfold mem in *. cbn. by rewrite Hp.
Qed.

(** ** The flow in its environment *)
Record world := mkw { flow : t; jobs : list job; accepted : list (list Z); taken : list (list Z) }.
Inductive event := EJob | EOut.
Definition enabled (w : world) (e : event) : bool :=
  match e with
  | EJob => match jobs w with [] => false | _ => true end
  | EOut => match PacketBuffer.output (buffer (flow w)) with PBusy _ _ => true | PIdle => false end
  end.
Definition exec (w : world) (e : event) : option world :=
  match e with
  | EJob => match jobs w with [] => None | j :: js => '(o, js') ← run_job (flow w) j; Some (mkw o (js' ++ js) (accepted w) (taken w)) end
  | EOut => '(o, js) ← out_done (flow w); Some (mkw o (js ++ jobs w) (accepted w) (taken w ++ [PacketBuffer.out_packet (buffer (flow w))]))
  end.

(** A user sends a packet, in pieces; the flag: whether there was a place for it. *)
Fixpoint write_pieces (o : t) (out off : Z) (ps : list (list Z)) : option (t * Z) :=
  match ps with [] => Some (o, off) | p :: ps => o ← write_out o out off p; write_pieces o out (off + zlen p) ps end.
Definition send (w : world) (ps : list (list Z)) : option (world * bool) :=
  r ← start_packet (flow w);
  match r with
  | None => Some (w, false)
  | Some (o, out) =>
      '(o, len) ← write_pieces o out 0 ps;
      '(o, js) ← end_packet o len;
      Some (mkw o (js ++ jobs w) (accepted w ++ [concat ps]) (taken w), true)
  end.

Inductive reach (w0 : world) : world -> Prop :=
| reach_init : reach w0 w0
| reach_step w e w' : reach w0 w -> enabled w e = true -> exec w e = Some w' -> reach w0 w'
| reach_send w ps w' b : reach w0 w -> zlen (concat ps) <= BufferWriter.d_mtu (ainput (flow w)) -> send w ps = Some (w', b) -> reach w0 w'.

Definition inv (num m : Z) (w : world) : Prop :=
  exists q g, ok (flow w) q num m g /\ jobs w = stage_jobs g /\ map encoding (accepted w) = taken w ++ queue (flow w) q g.

Lemma flow_exec_inv num m w e : inv num m w -> enabled w e = true -> exists w', exec w e = Some w' /\ inv num m w' /\ accepted w' = accepted w.
Proof.
  intros (q & g & Hok & Hj & Ha) He. destruct w as [o js acc tk]. cbn [flow jobs accepted taken] in *. destruct e; cbn [exec enabled flow jobs accepted taken] in *.
  - destruct g as [| | | |len|len]; rewrite Hj in *; try done; cbn [stage_jobs] in *.
    + destruct (ask_encoder_ok _ _ _ _ Hok) as (o' & E & Hok' & Hq). rewrite E. cbn [mbind option_bind]. eexists. split; [done|]. split; [|done]. exists q, AskedWriter. split; [done|]. split; [done|]. cbn. rewrite Hq. rewrite Ha. unfold queue. destruct (PacketBuffer.input _); done.
    + destruct (ask_writer_ok _ _ _ _ Hok) as (o' & E & Hok' & Hq). rewrite E. cbn [mbind option_bind]. eexists. split; [done|]. split; [|done]. exists q, Ready. split; [done|]. split; [done|]. cbn. rewrite Hq. rewrite Ha. unfold queue. destruct (PacketBuffer.input _); done.
    + destruct (to_encoder_ok _ _ _ _ _ Hok) as (o' & E & Hok' & Hq). rewrite E. cbn [mbind option_bind]. eexists. split; [done|]. split; [|done]. exists q, (Encoded len). split; [done|]. split; [done|]. cbn [accepted taken flow]. by rewrite Hq.
    + destruct (to_buffer_ok _ _ _ _ _ Hok) as (o' & g & E & Hok' & Hq & Hg). rewrite E. cbn [mbind option_bind]. eexists. split; [done|]. split; [|done]. exists (queue o q (Encoded len)), g. split; [done|]. split; [by rewrite app_nil_r|]. cbn [accepted taken flow]. by rewrite Hq.
  - destruct (PacketBuffer.output (buffer o)) as [|d len] eqn:Ho; [done|].
    destruct (flow_out_ok _ _ _ _ _ _ _ Hok Ho) as (o' & g' & q' & -> & Hq & Hok' & Hg). cbn. eexists. split; [done|]. split; [|done].
    exists q', g'. split; [done|]. split; [rewrite Hj; destruct g; subst; try done; by rewrite app_nil_r|]. cbn. by rewrite Ha, Hq, <- app_assoc.
Qed.

Lemma pieces_ok ps : forall o q num m d pre, writing o q num m d pre -> zlen pre + zlen (concat ps) <= m ->
  exists o', write_pieces o (d + 2) (zlen pre) ps = Some (o', zlen (pre ++ concat ps)) /\ writing o' q num m d (pre ++ concat ps).
Proof.
  induction ps as [|p ps IH]; intros o q num m d pre W Hz; cbn [write_pieces concat].
  - exists o. rewrite app_nil_r. done.
  - cbn [concat] in Hz. rewrite zlen_app in Hz. pose proof (zlen_nonneg (concat ps)). destruct (flow_write_ok _ _ _ _ _ _ p W) as (o1 & -> & W1); [lia|]. cbn [mbind option_bind].
    destruct (IH o1 q num m d (pre ++ p) W1) as (o2 & E & W2); [rewrite zlen_app; lia|]. rewrite zlen_app in E. rewrite E. exists o2. by rewrite <- app_assoc in *.
Qed.

Lemma flow_send_inv num m w ps : inv num m w -> zlen (concat ps) <= m -> exists w' b, send w ps = Some (w', b) /\ inv num m w' /\ accepted w' = accepted w ++ (if b then [concat ps] else []) /\
  (b = true <-> BufferWriter.out_have (ainput (flow w)) = true).
Proof.
  intros (q & g & Hok & Hj & Ha) Hz. unfold send.
  assert (BufferWriter.out_have (ainput (flow w)) = true <-> g = Ready) as Hr.
  { destruct Hok as [_ _ Hg]. destruct g; [destruct Hg as [_ (x & _ & Hw)]|destruct Hg as (d & _ & (x & _ & Hw) & _)..]; rewrite Hw; done. }
  destruct (flow_start_ok _ _ _ _ _ Hok) as [[Hn ->]|(-> & o' & d & -> & W)]; cbn [mbind option_bind].
  - exists w, false. split; [done|]. split; [by exists q, g|]. rewrite app_nil_r. split; [done|]. rewrite Hr. by split.
  - destruct (pieces_ok ps o' q num m d [] W) as (o2 & E & W2); [change (zlen []) with 0; lia|]. change (zlen []) with 0 in E. rewrite E. cbn [mbind option_bind]. change ([] ++ concat ps) with (concat ps) in *.
    destruct (flow_end_ok _ _ _ _ _ _ W2) as (o3 & -> & Hok3 & Hq). cbn [mbind option_bind]. eexists _, true. split; [done|]. split; [|by rewrite Hr]. exists q, (Written (zlen (concat ps))). split; [done|]. cbn [jobs accepted taken flow]. rewrite Hj. split; [done|].
    rewrite map_app, Ha, Hq. cbn [map]. unfold queue. destruct (PacketBuffer.input _); by rewrite app_assoc.
Qed.


Section Theorems.
Context (alloc : Z -> option (list Z)) (alloc_size : forall n m, alloc n = Some m -> zlen m = n).
Context (m num out_mtu : Z) (Hm : 0 <= m <= PACKETPROTO_MAXPAYLOAD) (Hnum : 0 < num <= 2 ^ 14) (Hout : PACKETPROTO_ENCLEN m <= out_mtu).

Lemma proto_init_ok : PacketProtoFlow_Init alloc m num out_mtu = Some (inl tt) \/
  exists o g, PacketProtoFlow_Init alloc m num out_mtu = Some (inr (o, stage_jobs g)) /\ inv num m (mkw o (stage_jobs g) [] []).
Proof using alloc_size Hm Hnum Hout.
  unfold PACKETPROTO_MAXPAYLOAD, UINT16_MAX, PACKETPROTO_ENCLEN, packetproto_header in *.
  assert (0 <= 2 + m <= INT_MAX) as Hi by (unfold INT_MAX; lia). pose proof (ChunkBuffer2.blocks_of_spec (2 + m) Hi) as [Hb1 Hb2]. unfold ChunkBuffer2.BLOCK in Hb2.
  assert (ChunkBuffer2.BLOCK * ((1 + ChunkBuffer2.blocks_of (2 + m)) * (num + 1)) <= INT_MAX) as Hsize by (unfold ChunkBuffer2.BLOCK, INT_MAX; nia).
  unfold PacketProtoFlow_Init, BufferWriter.BufferWriter_Init, Encoder.PacketProtoEncoder_Init, PACKETPROTO_ENCLEN, packetproto_header, PACKETPROTO_MAXPAYLOAD, UINT16_MAX. do 4 bool_true. cbn [mbind option_bind Encoder.output_mtu].
  destruct (PacketBuffer.init_cases alloc alloc_size (2 + m) out_mtu num Hi Hout ltac:(lia) Hsize) as [->|(b & E & Hok)]; [by left|right]. rewrite E. cbn [mbind option_bind].
  assert (PacketBuffer.input_mtu b = 2 + m) as Hmtu by (by apply (SendPath.init_mtu alloc (2 + m) out_mtu num)).
  destruct (requested_cases (mk (BufferWriter.mk RIdle false 0 m false) (Encoder.mk RIdle m RIdle (2 + m) None) b) (PacketBuffer.with_input b RIdle) b [] num m eq_refl Hok) as (o & g & -> & Hk & Hq & _);
    [unfold PACKETPROTO_MAXPAYLOAD, UINT16_MAX; lia|done|by exists 0|].
  exists o, g. split; [done|]. exists [], g. split; [done|]. split; [done|]. cbn [map accepted taken flow app]. by rewrite Hq.
Qed.

Lemma flow_reach_inv o js w : PacketProtoFlow_Init alloc m num out_mtu = Some (inr (o, js)) -> reach (mkw o js [] []) w -> inv num m w /\ BufferWriter.d_mtu (ainput (flow w)) = m.
Proof using alloc_size Hm Hnum Hout.
  assert (forall w, inv num m w -> BufferWriter.d_mtu (ainput (flow w)) = m) as Hd.
  { intros w0 (q & g & [_ _ Hg] & _). destruct g; [destruct Hg as [_ (x & _ & Hw)]|destruct Hg as (d & _ & (x & _ & Hw) & _)..]; by rewrite Hw. }
  intros Hi Hr. assert (inv num m w) as I; [|auto]. destruct proto_init_ok as [?|(o' & g & E & I0)]; [congruence|]. rewrite Hi in E. injection E as -> ->.
  induction Hr as [|w e w' _ IH He E|w ps w' b _ IH Hz E]; [done| |].
  - destruct (flow_exec_inv num m w e IH He) as (w1 & E1 & I1 & _). congruence.
  - rewrite (Hd w IH) in Hz. destruct (flow_send_inv num m w ps IH Hz) as (w1 & b1 & E1 & I1 & _). congruence.
Qed.

(** C17: a flow of framed packets delivers what it accepts: under any interleaving of packets written in pieces, jobs and packets
    taken by the output, no assertion of the writer, the encoder, the buffer or the ring can fail; the packets
    the output took, followed by a queue, are the encodings of those accepted, in order and byte for byte, so that a decoder of
    the stream gives them back; a packet that is queued is offered to the output once the jobs ran; and then a packet is
    accepted whenever fewer than [num] are queued. *)
Theorem proto_flow_fifo o js w : PacketProtoFlow_Init alloc m num out_mtu = Some (inr (o, js)) -> reach (mkw o js [] []) w ->
  (forall e, enabled w e = true -> is_Some (exec w e)) /\
  (forall ps, zlen (concat ps) <= m -> exists w' b, send w ps = Some (w', b) /\ accepted w' = accepted w ++ (if b then [concat ps] else [])) /\
  exists q, map encoding (accepted w) = taken w ++ q /\
    (jobs w = [] -> q <> [] -> exists d len, PacketBuffer.output (buffer (flow w)) = PBusy d len) /\
    (jobs w = [] -> Z.of_nat (length q) < num -> forall ps, zlen (concat ps) <= m -> exists w', send w ps = Some (w', true)).
Proof using alloc_size Hm Hnum Hout.
  intros Hi Hr. destruct (flow_reach_inv o js w Hi Hr) as [I _]. split; [intros e He; destruct (flow_exec_inv num m w e I He) as (w' & -> & _); by eexists|].
  split; [intros ps Hz; destruct (flow_send_inv num m w ps I Hz) as (w' & b & E & _ & Ha & _); by exists w', b|].
  pose proof I as (q & g & Hk & Hj & Ha). exists (queue (flow w) q g). split; [done|]. split.
  - intros Hjs Hq. rewrite Hjs in Hj. pose proof (PacketBuffer.ok_out _ _ _ (k_buf _ _ _ _ _ Hk)) as Ho. destruct (PacketBuffer.output (buffer (flow w))) as [|d len]; [|by exists d, len].
    destruct g; try done; subst q; unfold queue in Hq; by destruct (PacketBuffer.input _).
  - intros Hjs Hq ps Hz. destruct (flow_send_inv num m w ps I Hz) as (w' & b & E & _ & _ & Hb). exists w'. rewrite E. do 2 f_equal. apply Hb. rewrite Hjs in Hj. destruct Hk as [Hbuf _ Hg].
    destruct g; try done; unfold queue in Hq.
    + destruct Hg as [Hin _]. rewrite Hin in Hq. destruct (PacketBuffer.room _ _ _ Hbuf Hq) as [d ?]. congruence.
    + destruct Hg as (d & _ & (x & _ & Hw) & _). by rewrite Hw.
Qed.
End Theorems.


(** ** The flow implements [SendFlow] *)
Definition w_mtu_of (w : world) : Z := BufferWriter.d_mtu (ainput (flow w)).
Definition w_init (alloc : Z -> option (list Z)) (m num out_mtu : Z) : option (option world) :=
  r ← PacketProtoFlow_Init alloc m num out_mtu;
  Some (match r with inl _ => None | inr (o, js) => Some (mkw o js [] []) end).
Definition w_start (w : world) : option (option (world * Z)) :=
  r ← start_packet (flow w);
  Some (match r with None => None | Some (o, out) => Some (mkw o (jobs w) (accepted w) (taken w), out) end).
Definition w_write (w : world) (out off : Z) (data : list Z) : option world := o ← write_out (flow w) out off data; Some (mkw o (jobs w) (accepted w) (taken w)).
Definition w_end (w : world) (len : Z) : option world :=
  '(o, js) ← end_packet (flow w) len;
  Some (mkw o (js ++ jobs w) (accepted w ++ [sub (mem (flow w)) (BufferWriter.out (ainput (flow w))) len]) (taken w)).

Definition w_ok (w : world) : Prop := exists num, inv num (w_mtu_of w) w.
Definition w_writing (w w' : world) (out : Z) (pre : list Z) : Prop :=
  exists num q d, out = d + 2 /\ writing (flow w') q num (w_mtu_of w) d pre /\ jobs w' = [] /\ accepted w' = accepted w /\ map encoding (accepted w') = taken w' ++ q.

Lemma inv_mtu num m w : inv num m w -> w_mtu_of w = m.
Proof. intros (q & g & [_ _ Hg] & _). unfold w_mtu_of. destruct g; [destruct Hg as [_ (x & _ & Hw)]|destruct Hg as (d & _ & (x & _ & Hw) & _)..]; by rewrite Hw. Qed.

#[export] Instance proto_flow_send : SendFlow world.
Proof.
  refine {|
    fl_ok := w_ok; fl_mtu := w_mtu_of; fl_accepted := accepted;
    fl_step := fun w w' => exists e, enabled w e = true /\ exec w e = Some w';
    fl_writing := w_writing; fl_init := w_init; fl_start := w_start; fl_write := w_write; fl_end := w_end;
  |}.
  - intros alloc m num out Ha Hm Hn Ho. unfold w_init. destruct (proto_init_ok alloc Ha m num out Hm Hn Ho) as [->|(o & g & -> & I)]; cbn; [by exists None|].
    eexists. split; [done|]. intros f [= <-]. pose proof (inv_mtu _ _ _ I) as E. split; [exists num; by rewrite E|done].
  - intros f f' [num I] (e & He & E). destruct (flow_exec_inv num _ f e I He) as (w1 & E1 & I1 & Ha). rewrite E in E1. injection E1 as <-. pose proof (inv_mtu _ _ _ I1) as Em. split; [exists num; by rewrite Em|done].
  - intros w [num (q & g & Hok & Hj & Ha)]. unfold w_start. destruct (flow_start_ok _ _ _ _ _ Hok) as [[_ ->]|(-> & o & d & -> & W)]; cbn [mbind option_bind]; [by exists None|].
    eexists. split; [done|]. exists num, q, d. split; [done|]. split; [done|]. cbn. split; [done|]. split; [done|]. rewrite Ha. unfold queue. by destruct (PacketBuffer.input _).
  - intros w w' out pre data (num & q & d & -> & W & Hj & Ha & Hq) Hz. unfold w_write. destruct (flow_write_ok _ _ _ _ _ _ data W Hz) as (o & -> & W'). cbn. eexists. split; [done|]. by exists num, q, d.
  - intros w w' out pre (num & q & d & -> & W & Hj & Ha & Hq). unfold w_end. destruct (flow_end_ok _ _ _ _ _ _ W) as (o & -> & Hok & Hqq). cbn [mbind option_bind]. rewrite (w_wr _ _ _ _ _ _ W). cbn [BufferWriter.out]. rewrite (w_pre _ _ _ _ _ _ W).
    eexists. split; [done|]. assert (inv num (w_mtu_of w) (mkw o ([JToEncoder (zlen pre)] ++ jobs w') (accepted w' ++ [pre]) (taken w'))) as I.
    { exists q, (Written (zlen pre)). split; [done|]. cbn [jobs accepted taken flow]. split; [by rewrite Hj|]. by rewrite map_app, Hq, Hqq, app_assoc. }
    pose proof (inv_mtu _ _ _ I) as Em. split; [exists num; by rewrite Em|]. split; [done|]. cbn. by rewrite Ha.
Defined.

(** ** A run *)
Definition flow_demo0 : t * list job := Eval vm_compute in
  match PacketProtoFlow_Init zeros 8 2 16 with Some (inr c) => c | _ => (mk (BufferWriter.mk RIdle false 0 0 false) (Encoder.mk RIdle 0 RIdle 0 None) (PacketBuffer.mk RIdle 0 PIdle 0 (ChunkBuffer2.mk [] 0 0 0 0 0 None 0 None 0)), []) end.
Definition flow_w0 : world := mkw (flow_demo0.1) (flow_demo0.2) [] [].
Definition after (w : world) (es : list event) : world := fold_left (fun w e => default w (if enabled w e then exec w e else None)) es w.
Definition flow_w1 : world := Eval vm_compute in after flow_w0 [EJob; EJob].
Definition flow_w2 : world := Eval vm_compute in match send flow_w1 [[1; 2]; [3]] with Some (w, _) => w | None => flow_w1 end.
Definition flow_w3 : world := Eval vm_compute in after flow_w2 [EJob; EJob; EJob; EJob; EOut].

Lemma after_reach w0 es : forall w, reach w0 w -> reach w0 (after w es).
Proof.
  induction es as [|e es IH]; intros w Hr; [done|]. cbn. apply IH. destruct (enabled w e) eqn:He; [|done]. destruct (exec w e) as [w'|] eqn:E; [|done]. by eapply reach_step.
Qed.
Lemma flow_demo_reach : reach flow_w0 flow_w3.
Proof.
  change flow_w3 with (after flow_w2 [EJob; EJob; EJob; EJob; EOut]). apply after_reach. apply (reach_send _ flow_w1 [[1; 2]; [3]] flow_w2 true); [|by vm_compute|by vm_compute].
  change flow_w1 with (after flow_w0 [EJob; EJob]). apply after_reach. constructor.
Qed.

Lemma proto_flow_fifo_witness : taken flow_w3 = [[3; 0; 1; 2; 3]] /\ exists w, send flow_w3 [[4]; [5; 6]] = Some (w, true).
Proof.
  split; [by vm_compute|]. destruct (proto_flow_fifo zeros zeros_size 8 2 16 ltac:(by vm_compute) ltac:(by vm_compute) ltac:(by vm_compute) (flow_demo0.1) (flow_demo0.2) flow_w3) as (_ & _ & q & Hq & _ & Hs);
    [by vm_compute|exact flow_demo_reach|]. apply Hs; [by vm_compute| |by vm_compute].
  change (taken flow_w3) with [[3; 0; 1; 2; 3]] in Hq. change (map encoding (accepted flow_w3)) with [[3; 0; 1; 2; 3]] in Hq. destruct q; [by vm_compute|done].
Defined.

End PacketProtoFlow.
