(* ===== verification/KeyTree.v ===== *)
(** * Interface of a tree of keyed nodes

    Clients index their connections by a value (an address, a number) in a balanced tree ordered by a
    comparator (structure/BAVL.h).  A tree holds nodes, here the connections; the values
    it compares stay in the connections, so the operations take the map [k] from nodes to
    values.  The laws are the documented contract of [BAVL_Init], [BAVL_Insert], [BAVL_Remove]
    and [BAVL_LookupExact]; [ok] are the values on which the comparator is an order. *)

From stdpp Require Import gmap.
From S2P Require Import Prelude BAddr.

(** The nodes of [s] have values on which the comparator is an order. *)
Definition keys_ok {V : Type} (ok : V -> Prop) (k : positive -> option V) (s : gset positive) : Prop :=
  forall i, i ∈ s -> exists b, k i = Some b /\ ok b.

Class KeyTree {V : Type} (ok : V -> Prop) (cmp : V -> V -> Z) (T : Type) := {
  tr_rep : (positive -> option V) -> T -> gset positive -> Prop;
  tr_init : T;
  tr_insert : (positive -> option V) -> T -> positive -> option T;
  tr_remove : T -> positive -> option T;
  tr_lookup : (positive -> option V) -> T -> V -> option positive;
  (** The tree reads the values of its nodes only. *)
  tr_ext : forall k k' t s, tr_rep k t s -> (forall i, i ∈ s -> k' i = k i) -> tr_rep k' t s;
  tr_init_ok : forall k, tr_rep k tr_init ∅;
  tr_insert_ok : forall k t s i a, tr_rep k t s -> keys_ok ok k s -> i ∉ s -> k i = Some a -> ok a ->
    (forall j b, j ∈ s -> k j = Some b -> cmp a b <> 0) ->
    exists t', tr_insert k t i = Some t' /\ tr_rep k t' ({[i]} ∪ s);
  tr_remove_ok : forall k t s i, tr_rep k t s -> keys_ok ok k s -> i ∈ s ->
    exists t', tr_remove t i = Some t' /\ tr_rep k t' (s ∖ {[i]});
  tr_lookup_some : forall k t s a i, tr_rep k t s -> keys_ok ok k s -> ok a -> tr_lookup k t a = Some i ->
    i ∈ s /\ exists b, k i = Some b /\ cmp a b = 0;
  tr_lookup_none : forall k t s a i b, tr_rep k t s -> keys_ok ok k s -> ok a -> tr_lookup k t a = None ->
    i ∈ s -> k i = Some b -> cmp a b <> 0;
}.

(** The tree of the UDP relay, by local address. *)
Abbreviation AddrTree := (KeyTree addr_ok BAddr_CompareOrder).

(** ** A reference implementation: a list searched from its start *)
Definition list_lookup_key {V : Type} (cmp : V -> V -> Z) (k : positive -> option V) (t : list positive) (a : V) : option positive :=
  find (fun i => match k i with Some b => cmp a b =? 0 | None => false end) t.

#[export] Instance list_tree {V : Type} (ok : V -> Prop) (cmp : V -> V -> Z) : KeyTree ok cmp (list positive).
Proof.
  refine {|
    tr_rep := fun k t s => NoDup t /\ forall i, i ∈ t <-> i ∈ s;
    tr_init := [];
    tr_insert := fun k t i => Some (i :: t);
    tr_remove := fun t i => if bool_decide (i ∈ t) then Some (without i t) else None;
    tr_lookup := list_lookup_key cmp;
  |}.
  - done.
  - intros k. split; [constructor|]. intros i. split; intros H; [by apply not_elem_of_nil in H|by apply not_elem_of_empty in H].
  - intros k t s i a [Hn Hs] _ Hi _ _ _. eexists. split; [done|]. split.
    + apply list.NoDup_cons. split; [by rewrite Hs|done].
    + intros j. rewrite elem_of_cons, elem_of_union, elem_of_singleton, Hs. done.
  - intros k t s i [Hn Hs] _ Hi. rewrite bool_decide_true by (by apply Hs). eexists. split; [done|]. split; [by apply NoDup_without|].
    intros j. rewrite elem_of_without, elem_of_difference, elem_of_singleton, Hs. tauto.
  - intros k t s a i [Hn Hs] _ _ H. apply find_some in H as [Hi H]. apply list_elem_of_In, Hs in Hi. split; [done|].
    destruct (k i) as [b|]; [|done]. exists b. split; [done|]. by apply Z.eqb_eq.
  - intros k t s a i b [Hn Hs] _ _ H Hi Hk E. apply Hs, list_elem_of_In in Hi. pose proof (find_none _ _ H i Hi) as Hf. simpl in Hf.
    rewrite Hk in Hf. by apply Z.eqb_neq in Hf.
Defined.
