(* ===== verification/BAVL.v ===== *)
(** * Balanced tree (structure/BAVL.h)

    The intrusive AVL tree with parent pointers that indexes the relay's connections by
    address.  The model keeps the heap of tree nodes and the root pointer, and translates each
    function statement by statement; loops and the recursion of [_BAVL_rebalance] follow links of
    the heap and run on fuel, the number of nodes plus one.  The proofs describe the heap by a
    list of cells and a path of frames from the node in focus to the root, so that every
    function is executed on the cells it touches. *)

From stdpp Require Import gmap.
From S2P Require Import Prelude.

Module BAVL.

Abbreviation ptr := positive.

(** [BAVLNode]; [int8_t balance] never leaves the range -2 ... 2. *)
Record node := mk_node { parent : option ptr; link0 : option ptr; link1 : option ptr; balance : Z }.
(** [BAVL], with the heap its nodes live in. *)
Record t := mk { heap : gmap ptr node; root : option ptr }.

(** [n->link[side]] *)
Definition link (e : node) (side : bool) : option ptr := if side then link1 e else link0 e.

Definition node_with_parent (e : node) (v : option ptr) : node := mk_node v (link0 e) (link1 e) (balance e).
Definition node_with_link (e : node) (side : bool) (v : option ptr) : node :=
  if side then mk_node (parent e) (link0 e) v (balance e) else mk_node (parent e) v (link1 e) (balance e).
Definition node_with_balance (e : node) (v : Z) : node := mk_node (parent e) (link0 e) (link1 e) v.

(** Loads and stores through a pointer; [None]: it points to no node. *)
Definition update (s : t) (x : ptr) (f : node -> node) : option t :=
  e ← heap s !! x; Some (mk (<[x := f e]> (heap s)) (root s)).
Definition set_parent (s : t) (x : ptr) (v : option ptr) : option t := update s x (fun e => node_with_parent e v).
Definition set_link (s : t) (x : ptr) (side : bool) (v : option ptr) : option t := update s x (fun e => node_with_link e side v).
Definition set_balance (s : t) (x : ptr) (v : Z) : option t := update s x (fun e => node_with_balance e v).
(** [if (x) { x->parent = v; }] *)
Definition set_parent_of (s : t) (x : option ptr) (v : option ptr) : option t :=
  match x with Some x => set_parent s x v | None => Some s end.
(** [if (p) { p->link[x == p->link[1]] = v; } else { tree->root = v; }] *)
Definition set_link_to (s : t) (p : option ptr) (x : ptr) (v : option ptr) : option t :=
  match p with
  | Some p => e ← heap s !! p; set_link s p (bool_decide (Some x = link1 e)) v
  | None => Some (mk (heap s) v)
  end.
(** The initialisation of a node that is inserted below [par]. *)
Definition init_node (s : t) (x : ptr) (par : option ptr) : t :=
  mk (<[x := mk_node par None None 0]> (heap s)) (root s).

Definition BAVL_MAX (a b : Z) : Z := if a >? b then a else b.
Definition BAVL_OPTNEG (a : Z) (neg : bool) : Z := if neg then - a else a.

Definition _BAVL_rotate (s : t) (r : ptr) (dir : bool) : option t :=
  er ← heap s !! r;
  nr ← link er (negb dir);
  enr ← heap s !! nr;
  s ← set_link s r (negb dir) (link enr dir);
  er ← heap s !! r;
  s ← set_parent_of s (link er (negb dir)) (Some r);
  s ← set_link s nr dir (Some r);
  er ← heap s !! r;
  s ← set_parent s nr (parent er);
  enr ← heap s !! nr;
  s ← set_link_to s (parent enr) r (Some nr);
  set_parent s r (Some nr).

(** [while (n->link[side]) n = n->link[side];] *)
Fixpoint descend (fuel : nat) (s : t) (n : ptr) (side : bool) : option ptr :=
  match fuel with
  | O => None
  | S fuel => e ← heap s !! n; match link e side with Some m => descend fuel s m side | None => Some n end
  end.

(** Enough for every walk along links of a tree in the heap. *)
Definition fuel_of (s : t) : nat := S (size (heap s)).

Definition _BAVL_subtree_max (s : t) (n : ptr) : option ptr := descend (fuel_of s) s n true.

Definition _BAVL_replace_subtree (s : t) (dest : ptr) (n : option ptr) : option t :=
  ed ← heap s !! dest;
  s ← set_link_to s (parent ed) dest n;
  ed ← heap s !! dest;
  set_parent_of s n (parent ed).

(** [if (n1->link[side] = v) { n1->link[side]->parent = n1; }] *)
Definition set_link_parent (s : t) (n1 : ptr) (side : bool) (v : option ptr) : option t :=
  s ← set_link s n1 side v;
  e ← heap s !! n1;
  set_parent_of s (link e side) (Some n1).

(** The branch for nodes that are directly connected, [n1] above [n2]. *)
Definition swap_adjacent (s : t) (n1 n2 : ptr) : option t :=
  e1 ← heap s !! n1;
  let side := bool_decide (Some n2 = link1 e1) in
  let c := link e1 (negb side) in
  e2 ← heap s !! n2;
  s ← set_link_parent s n1 false (link0 e2);
  e2 ← heap s !! n2;
  s ← set_link_parent s n1 true (link1 e2);
  e1 ← heap s !! n1;
  s ← set_parent s n2 (parent e1);
  e2 ← heap s !! n2;
  s ← set_link_to s (parent e2) n1 (Some n2);
  s ← set_link s n2 side (Some n1);
  s ← set_parent s n1 (Some n2);
  s ← set_link s n2 (negb side) c;
  set_parent_of s c (Some n2).

Definition swap_apart (s : t) (n1 n2 : ptr) : option t :=
  (* swap parents *)
  e1 ← heap s !! n1;
  let temp := parent e1 in
  e2 ← heap s !! n2;
  s ← set_parent s n1 (parent e2);
  s ← set_link_to s (parent e2) n2 (Some n1);
  s ← set_parent s n2 temp;
  s ← set_link_to s temp n1 (Some n2);
  (* swap left children *)
  e1 ← heap s !! n1;
  let temp := link0 e1 in
  e2 ← heap s !! n2;
  s ← set_link_parent s n1 false (link0 e2);
  s ← set_link_parent s n2 false temp;
  (* swap right children *)
  e1 ← heap s !! n1;
  let temp := link1 e1 in
  e2 ← heap s !! n2;
  s ← set_link_parent s n1 true (link1 e2);
  set_link_parent s n2 true temp.

Definition _BAVL_swap_nodes (s : t) (n1 n2 : ptr) : option t :=
  e1 ← heap s !! n1;
  e2 ← heap s !! n2;
  s ← (if bool_decide (parent e2 = Some n1) || bool_decide (parent e1 = Some n2) then
         if bool_decide (parent e1 = Some n2) then swap_adjacent s n2 n1 else swap_adjacent s n1 n2
       else swap_apart s n1 n2);
  (* swap balance factors *)
  e1 ← heap s !! n1;
  let b := balance e1 in
  e2 ← heap s !! n2;
  s ← set_balance s n1 (balance e2);
  set_balance s n2 b.

(** The transformations when the balance factor of [node] is [2 * bsidef]: the new state, the
    new root of the subtree and the new [delta]. *)
Definition transform (s : t) (node : ptr) (delta : Z) : option (t * ptr * Z) :=
  en ← heap s !! node;
  let bside := balance en =? 2 in
  let bsidef := if bside then 1 else -1 in
  child ← link en bside;
  ec ← heap s !! child;
  let v := balance ec * bsidef in
  if v =? 1 then
    s ← _BAVL_rotate s node (negb bside);
    s ← set_balance s node 0;
    s ← set_balance s child 0;
    Some (s, child, delta - 1)
  else if v =? 0 then
    s ← _BAVL_rotate s node (negb bside);
    s ← set_balance s node (1 * bsidef);
    s ← set_balance s child (-1 * bsidef);
    Some (s, child, delta)
  else
    ASSERT v =? -1;
    gchild ← link ec (negb bside);
    s ← _BAVL_rotate s child bside;
    s ← _BAVL_rotate s node (negb bside);
    eg ← heap s !! gchild;
    s ← set_balance s node (- BAVL_MAX 0 (balance eg * bsidef) * bsidef);
    s ← set_balance s child (BAVL_MAX 0 (- balance eg * bsidef) * bsidef);
    s ← set_balance s gchild 0;
    Some (s, gchild, delta - 1).

(** The recursion up the tree, for given transformations. *)
Fixpoint rebalance_with (tf : t -> ptr -> Z -> option (t * ptr * Z)) (fuel : nat) (s : t) (node : ptr) (side : bool) (deltac : Z) : option t :=
  match fuel with
  | O => None
  | S fuel =>
      en ← heap s !! node;
      ASSERT (-1 <=? deltac) && (deltac <=? 1);
      ASSERT (-1 <=? balance en) && (balance en <=? 1);
      if deltac =? 0 then Some s else
      let delta := BAVL_MAX deltac (BAVL_OPTNEG (balance en) side) - BAVL_MAX 0 (BAVL_OPTNEG (balance en) side) in
      ASSERT (-1 <=? delta) && (delta <=? 1);
      s ← set_balance s node (balance en - BAVL_OPTNEG deltac side);
      en ← heap s !! node;
      '(s, node, delta) ← (if (balance en =? 2) || (balance en =? -2) then tf s node delta else Some (s, node, delta));
      ASSERT (-1 <=? delta) && (delta <=? 1);
      en ← heap s !! node;
      match parent en with
      | Some p => ep ← heap s !! p; rebalance_with tf fuel s p (bool_decide (Some node = link1 ep)) delta
      | None => Some s
      end
  end.
Definition _BAVL_rebalance := rebalance_with transform.

Definition BAVL_Init (s : t) : t := mk (heap s) None.
Definition BAVL_IsEmpty (s : t) : bool := bool_decide (root s = None).

Definition BAVL_GetFirst (s : t) : option (option ptr) :=
  match root s with None => Some None | Some r => n ← descend (fuel_of s) s r false; Some (Some n) end.
Definition BAVL_GetLast (s : t) : option (option ptr) :=
  match root s with None => Some None | Some r => n ← descend (fuel_of s) s r true; Some (Some n) end.

(** [while (n->parent && n == n->parent->link[side]) n = n->parent; n = n->parent;] *)
Fixpoint ascend (fuel : nat) (s : t) (n : ptr) (side : bool) : option (option ptr) :=
  match fuel with
  | O => None
  | S fuel =>
      e ← heap s !! n;
      match parent e with
      | None => Some None
      | Some p => ep ← heap s !! p; if bool_decide (Some n = link ep side) then ascend fuel s p side else Some (Some p)
      end
  end.

Definition BAVL_GetNext (s : t) (n : ptr) : option (option ptr) :=
  e ← heap s !! n;
  match link1 e with
  | Some m => r ← descend (fuel_of s) s m false; Some (Some r)
  | None => ascend (fuel_of s) s n true
  end.
Definition BAVL_GetPrev (s : t) (n : ptr) : option (option ptr) :=
  e ← heap s !! n;
  match link0 e with
  | Some m => r ← descend (fuel_of s) s m true; Some (Some r)
  | None => ascend (fuel_of s) s n false
  end.

(** The part of [BAVL_Remove] after the swap: [node] has at most one child. *)
Definition unlink_node (s : t) (node : ptr) : option t :=
  en ← heap s !! node;
  ASSERT negb (bool_decide (is_Some (link0 en)) && bool_decide (is_Some (link1 en)));
  let child := match link0 en with Some l => Some l | None => link1 en end in
  match parent en with
  | Some p =>
      ep ← heap s !! p;
      let side := bool_decide (Some node = link1 ep) in
      s ← _BAVL_replace_subtree s node child;
      _BAVL_rebalance (fuel_of s) s p side (-1)
  | None => _BAVL_replace_subtree s node child
  end.

Definition BAVL_Remove (s : t) (node : ptr) : option t :=
  en ← heap s !! node;
  s ← match link0 en, link1 en with
      | Some l, Some _ => max ← _BAVL_subtree_max s l; _BAVL_swap_nodes s node max
      | _, _ => Some s
      end;
  unlink_node s node.

(** ** Operations that compare values

    [value x] is the value at [o->offset] from the node [x], in the object that contains it. *)
Section Values.
Context {V : Type} (comparator : V -> V -> Z) (value : ptr -> option V).

Definition _BAVL_node_value (n : ptr) : option V := value n.
Definition _BAVL_compare_values (v1 v2 : V) : option Z :=
  let res := comparator v1 v2 in
  ASSERT (res =? -1) || (res =? 0) || (res =? 1);
  Some res.
Definition _BAVL_compare_nodes (n1 n2 : ptr) : option Z :=
  v1 ← _BAVL_node_value n1; v2 ← _BAVL_node_value n2; _BAVL_compare_values v1 v2.

(** The search loop of [BAVL_Insert]: an equal node, or the node and side to insert at. *)
Fixpoint insert_search (fuel : nat) (s : t) (node c : ptr) : option (ptr + ptr * bool) :=
  match fuel with
  | O => None
  | S fuel =>
      comp ← _BAVL_compare_nodes node c;
      if comp =? 0 then Some (inl c) else
      let side := comp =? 1 in
      ec ← heap s !! c;
      match link ec side with
      | None => Some (inr (c, side))
      | Some c => insert_search fuel s node c
      end
  end.

(** The state, the result and what [*ref] is set to. *)
Definition BAVL_Insert (s : t) (node : ptr) : option (t * bool * option ptr) :=
  match root s with
  | None => Some (init_node (mk (heap s) (Some node)) node None, true, None)
  | Some c =>
      r ← insert_search (fuel_of s) s node c;
      match r with
      | inl c => Some (s, false, Some c)
      | inr (c, side) =>
          s ← set_link s c side (Some node);
          s ← _BAVL_rebalance (fuel_of s) (init_node s node (Some c)) c side 1;
          Some (s, true, Some c)
      end
  end.

(** The search loops of [BAVL_Lookup] and [BAVL_LookupExact]. *)
Fixpoint lookup_loop (fuel : nat) (s : t) (v : V) (c : ptr) : option ptr :=
  match fuel with
  | O => None
  | S fuel =>
      w ← _BAVL_node_value c;
      comp ← _BAVL_compare_values v w;
      if comp =? 0 then Some c else
      ec ← heap s !! c;
      match link ec (comp =? 1) with None => Some c | Some c => lookup_loop fuel s v c end
  end.
Fixpoint lookup_exact_loop (fuel : nat) (s : t) (v : V) (c : ptr) : option (option ptr) :=
  match fuel with
  | O => None
  | S fuel =>
      w ← _BAVL_node_value c;
      comp ← _BAVL_compare_values v w;
      if comp =? 0 then Some (Some c) else
      ec ← heap s !! c;
      match link ec (comp =? 1) with None => Some None | Some c => lookup_exact_loop fuel s v c end
  end.

Definition BAVL_Lookup (s : t) (v : V) : option (option ptr) :=
  match root s with None => Some None | Some r => c ← lookup_loop (fuel_of s) s v r; Some (Some c) end.
Definition BAVL_LookupExact (s : t) (v : V) : option (option ptr) :=
  match root s with None => Some None | Some r => lookup_exact_loop (fuel_of s) s v r end.

(** [BAVL_Verify]: the height of the subtree, when every check passes. *)
Fixpoint _BAVL_assert_recurser (fuel : nat) (s : t) (n : ptr) : option Z :=
  match fuel with
  | O => None
  | S fuel =>
      en ← heap s !! n;
      ASSERT balance en >=? -1;
      ASSERT balance en <=? 1;
      height_left ← match link0 en with
        | Some l =>
            el ← heap s !! l;
            ASSERT bool_decide (parent el = Some n);
            comp ← _BAVL_compare_nodes l n;
            ASSERT comp =? -1;
            _BAVL_assert_recurser fuel s l
        | None => Some 0
        end;
      height_right ← match link1 en with
        | Some r =>
            er ← heap s !! r;
            ASSERT bool_decide (parent er = Some n);
            comp ← _BAVL_compare_nodes r n;
            ASSERT comp =? 1;
            _BAVL_assert_recurser fuel s r
        | None => Some 0
        end;
      ASSERT balance en =? height_right - height_left;
      Some (BAVL_MAX height_left height_right + 1)
  end.

Definition BAVL_Verify (s : t) : option Z :=
  match root s with
  | Some r =>
      er ← heap s !! r;
      ASSERT bool_decide (parent er = None);
      _BAVL_assert_recurser (fuel_of s) s r
  | None => Some 0
  end.

End Values.

End BAVL.
