(* ===== verification/BAVLTree.v ===== *)
(** * Balanced tree: representation and correctness of the operations

    A heap region is a list of cells.  The assertion [focus s c p L] says that the tree above the
    pointer [p] is the path [c] of frames up to the root, and that the heap below holds the cells
    [L].  Lemmas for loads and stores execute the functions of [BAVL] on such assertions; the
    lemmas on rotation, swap and rebalancing then speak of trees. *)

From stdpp Require Import gmap.
From S2P Require Import Prelude BAVL.
Import BAVL.

Module BAVLTree.

(** ** Trees and paths *)
Inductive tree := Leaf | Node (l : tree) (i : ptr) (b : Z) (r : tree).

(** [near] is the subtree on side [d]. *)
Definition branch (d : bool) (near : tree) (i : ptr) (b : Z) (far : tree) : tree :=
  if d then Node far i b near else Node near i b far.

Definition rootp (x : tree) : option ptr := match x with Leaf => None | Node _ i _ _ => Some i end.

(** A frame is a node without its subtree on side [side]; a path lists them upwards. *)
Record frame := Frame { side : bool; fid : ptr; fbal : Z; sib : tree }.

Fixpoint plug (c : list frame) (x : tree) : tree :=
  match c with [] => x | f :: c => plug c (branch (side f) x (fid f) (fbal f) (sib f)) end.

(** The node above the hole of a path; [par] is the one above the path. *)
Definition top_of (par : option ptr) (c : list frame) : option ptr := match c with [] => par | f :: _ => Some (fid f) end.
Abbreviation top := (top_of None).
Fixpoint root_of (c : list frame) (p : option ptr) : option ptr :=
  match c with [] => p | f :: c => root_of c (Some (fid f)) end.

(** ** Cells *)
Abbreviation cell := (ptr * node)%type.

Definition links (d : bool) (par near far : option ptr) (b : Z) : node :=
  if d then mk_node par far near b else mk_node par near far b.

Fixpoint cells (par : option ptr) (x : tree) : list cell :=
  match x with
  | Leaf => []
  | Node l i b r => (i, mk_node par (rootp l) (rootp r) b) :: cells (Some i) l ++ cells (Some i) r
  end.

(** The cells of the nodes of a path, and of the subtrees beside it, with [p] in the hole. *)
Fixpoint path_cells (par : option ptr) (c : list frame) (p : option ptr) : list cell :=
  match c with
  | [] => []
  | f :: c => (fid f, links (side f) (top_of par c) p (rootp (sib f)) (fbal f)) :: cells (Some (fid f)) (sib f) ++ path_cells par c (Some (fid f))
  end.
Abbreviation ctx_cells := (path_cells None).

(** The heap holds the cells of [L], which are at different addresses. *)
Definition holds (h : gmap ptr node) (L : list cell) : Prop := NoDup L.*1 /\ forall i e, (i, e) ∈ L -> h !! i = Some e.

Definition focus (s : t) (c : list frame) (p : option ptr) (L : list cell) : Prop :=
  holds (heap s) (ctx_cells c p ++ L) /\ root s = root_of c p.

(** ** Permutations of cells *)
Lemma pull_here {A} (a l : list A) : a ++ l ≡ₚ a ++ l.
Proof. done. Qed.
Lemma pull_last {A} (a : list A) : a ≡ₚ a ++ [].
Proof. by rewrite app_nil_r. Qed.
Lemma pull_next {A} (a b l l' : list A) : l ≡ₚ a ++ l' -> b ++ l ≡ₚ a ++ (b ++ l').
Proof. intros ->. by rewrite Permutation_app_swap_app. Qed.
Lemma pull_next_cons {A} (a l l' : list A) x : l ≡ₚ a ++ l' -> x :: l ≡ₚ a ++ (x :: l').
Proof. intros ->. by rewrite Permutation_middle. Qed.
Lemma pull_cons {A} (x : A) l l' k : k ≡ₚ [x] ++ l' -> l ≡ₚ l' -> x :: l ≡ₚ k.
Proof. by intros -> ->. Qed.
Lemma pull_app {A} (a l l' k : list A) : k ≡ₚ a ++ l' -> l ≡ₚ l' -> a ++ l ≡ₚ k.
Proof. by intros -> ->. Qed.
Lemma pull_singleton {A} (x : A) l : x :: l ≡ₚ [x] ++ l.
Proof. done. Qed.

(** Decompose the left hand side as the given sublist and the rest. *)
Ltac pull := first [apply pull_here | apply pull_singleton | apply pull_last | apply pull_next; pull | apply pull_next_cons; pull].
(** Permutations of the same cells and sublists. *)
Ltac perm :=
  rewrite ?app_nil_r; rewrite <- ?app_assoc; cbn [app]; rewrite <- ?app_assoc; rewrite ?app_nil_r;
  repeat first [reflexivity | eapply pull_cons; [pull|] | eapply pull_app; [pull|] | rewrite app_nil_r].

Lemma holds_perm h L L' : L ≡ₚ L' -> holds h L -> holds h L'.
Proof.
  intros P [Hn H]. split; [by rewrite <- P|]. intros i e. rewrite <- P. apply H.
Qed.

Lemma holds_write h i e e' L : holds h ((i, e) :: L) -> holds (<[i := e']> h) ((i, e') :: L).
Proof.
  intros [Hn H]. split; [done|]. intros j f. rewrite elem_of_cons. intros [[= -> ->]|Hj]; [apply lookup_insert_eq|].
  rewrite lookup_insert_ne; [apply H; by right|]. intros <-. apply list.NoDup_cons in Hn as [Hn _].
  apply Hn. by apply (list_elem_of_fmap_2 fst _ (i, f)).
Qed.

Lemma focus_perm s c p L L' : L ≡ₚ L' -> focus s c p L -> focus s c p L'.
Proof. intros P [H R]. split; [|done]. eapply holds_perm; [|exact H]. by rewrite P. Qed.

Lemma focus_load s c p i e L L' : focus s c p L -> L ≡ₚ [(i, e)] ++ L' -> heap s !! i = Some e.
Proof. intros [[_ H] _] P. apply H. rewrite P, elem_of_app. right. by left. Qed.

Lemma focus_update s c p i e f L L' : focus s c p L -> L ≡ₚ [(i, e)] ++ L' ->
  exists s', update s i f = Some s' /\ focus s' c p ((i, f e) :: L').
Proof.
  intros F P. unfold update. rewrite (focus_load _ _ _ _ _ _ _ F P). eexists. split; [done|].
  destruct F as [H R]. split; [|done]. simpl. eapply holds_perm; [|eapply (holds_write _ i e (f e) (ctx_cells c p ++ L'))].
  { apply Permutation_middle. } eapply holds_perm; [|exact H]. rewrite P. cbn [app]. symmetry. apply Permutation_middle.
Qed.

Lemma rootp_cells par x i : rootp x = Some i -> i ∈ (cells par x).*1.
Proof. destruct x; [done|]. intros [= ->]. by left. Qed.

(** The store to the link that points to the focus. *)
Lemma focus_set_link_to s c x v L : focus s c (Some x) L -> x ∈ L.*1 ->
  exists s', set_link_to s (top c) x v = Some s' /\ focus s' c v L.
Proof.
  intros [H R] Hx. destruct c as [|f c].
  { eexists. split; [done|]. by split. }
  cbn [top_of set_link_to path_cells] in *. pose proof H as [Hn H']. rewrite (H' (fid f) _ ltac:(by left)). cbn [mbind option_bind].
  assert (bool_decide (Some x = link1 (links (side f) (top c) (Some x) (rootp (sib f)) (fbal f))) = side f) as ->.
  { unfold links. destruct (side f); simpl; [by apply bool_decide_true|]. apply bool_decide_false. intros E.
    symmetry in E. apply (rootp_cells (Some (fid f))) in E.
    rewrite fmap_app in Hn. apply list.NoDup_app in Hn as (_ & Hn & _). apply (Hn x); [|done].
    rewrite fmap_cons, fmap_app, elem_of_cons, elem_of_app. by right; left. }
  unfold set_link, update. rewrite (H' (fid f) _ ltac:(by left)). eexists. split; [done|]. split; [|done]. simpl.
  eapply holds_perm; [|eapply holds_write, H]. unfold node_with_link, links. by destruct (side f).
Qed.

Lemma rootp_branch d x i b y : rootp (branch d x i b y) = Some i.
Proof. by destruct d. Qed.
Lemma links_balance d p x y b : balance (links d p x y b) = b.
Proof. by destruct d. Qed.
Lemma links_link d p x y b : link (links d p x y b) d = x.
Proof. by destruct d. Qed.
Lemma links_link_negb d p x y b : link (links d p x y b) (negb d) = y.
Proof. by destruct d. Qed.
Lemma links_parent d p x y b : parent (links d p x y b) = p.
Proof. by destruct d. Qed.

(** Moving the focus between a node and one of its subtrees. *)
Lemma branch_cells par d near i b far :
  cells par (branch d near i b far) ≡ₚ (i, links d par (rootp near) (rootp far) b) :: cells (Some i) near ++ cells (Some i) far.
Proof. destruct d; simpl; [|done]. apply perm_skip, Permutation_app_comm. Qed.

Lemma focus_down s c d near i b far p L : p = Some i ->
  focus s c p (cells (top c) (branch d near i b far) ++ L) <->
  focus s (Frame d i b far :: c) (rootp near) (cells (Some i) near ++ L).
Proof.
  intros ->. unfold focus. cbn [root_of fid path_cells side sib fbal]. split; intros [H R]; (split; [|done]); (eapply holds_perm; [|exact H]);
    rewrite branch_cells; perm.
Qed.

(** ** Symbolic execution *)
Ltac simpl_node :=
  unfold node_with_parent, node_with_link, node_with_balance, links, link in *;
  cbn [mbind option_bind parent link0 link1 balance negb rootp app set_parent_of] in *.
Ltac load :=
  match goal with
  | F : focus ?s ?c ?p ?L |- context [heap ?s !! ?i] =>
      let E := fresh in eassert (heap s !! i = _) as E by (eapply (focus_load s c p i); [exact F|pull]);
      rewrite E; clear E; simpl_node
  end.
Ltac store_with F s c p L i f :=
  let E := fresh in let s' := fresh "s" in let F' := fresh "F" in let P := fresh in
  eassert (L ≡ₚ [(i, _)] ++ _) as P by pull;
  destruct (focus_update s c p i _ f _ _ F P) as (s' & E & F'); rewrite E; clear E F P; simpl_node.
Ltac store :=
  unfold set_link, set_parent, set_balance;
  match goal with
  | F : focus ?s ?c ?p ?L |- context [update ?s ?i ?f] => store_with F s c p L i f
  end.
Ltac store_top :=
  match goal with
  | F : focus ?s ?c _ ?L |- context [set_link_to ?s (top ?c) ?x ?v] =>
      let E := fresh in let s' := fresh "s" in let F' := fresh "F" in
      destruct (focus_set_link_to s c x v L F) as (s' & E & F'); [rewrite ?fmap_cons, ?elem_of_cons; tauto|]; rewrite E; clear E F;
      cbn [mbind option_bind]
  end.
Ltac conclude := match goal with F : focus ?s ?c ?p _ |- focus ?s ?c ?p _ => eapply focus_perm; [|exact F]; perm end.

(** ** Rotation *)
Lemma rotate_ok s c dir a r b1 x nr b2 z :
  focus s c (Some r) (cells (top c) (branch dir a r b1 (branch dir x nr b2 z))) ->
  exists s', _BAVL_rotate s r dir = Some s' /\ focus s' c (Some nr) (cells (top c) (branch dir (branch dir a r b1 x) nr b2 z)).
Proof.
  intros F. unfold _BAVL_rotate.
  destruct dir, x as [|xl xi xb xr]; cbn [branch cells rootp app] in *; rewrite <- ?app_assoc in F; simpl_node; repeat (load || store).
  all: store_top; store; eexists; split; [reflexivity|]; conclude.
Qed.

Lemma focus_child s c d near i b far :
  focus s c (Some i) (cells (top c) (branch d near i b far)) <-> focus s (Frame d i b far :: c) (rootp near) (cells (Some i) near).
Proof. pose proof (focus_down s c d near i b far _ [] eq_refl) as H. by rewrite !app_nil_r in H. Qed.

Lemma focus_set_balance s c l i b r v : focus s c (Some i) (cells (top c) (Node l i b r)) ->
  exists s', set_balance s i v = Some s' /\ focus s' c (Some i) (cells (top c) (Node l i v r)).
Proof. intros F. cbn [cells] in *. store. by eexists. Qed.

Lemma focus_root s c l i b r : focus s c (Some i) (cells (top c) (Node l i b r)) ->
  heap s !! i = Some (mk_node (top c) (rootp l) (rootp r) b).
Proof. intros F. cbn [cells] in F. by load. Qed.

Lemma focus_root_branch s c d x i b y : focus s c (Some i) (cells (top c) (branch d x i b y)) ->
  heap s !! i = Some (links d (top c) (rootp x) (rootp y) b).
Proof. destruct d; apply focus_root. Qed.

Lemma branch_negb d a i b z : branch (negb d) a i b z = branch d z i b a.
Proof. by destruct d. Qed.

Lemma focus_set_balance_branch s c d x i b y v : focus s c (Some i) (cells (top c) (branch d x i b y)) ->
  exists s', set_balance s i v = Some s' /\ focus s' c (Some i) (cells (top c) (branch d x i v y)).
Proof. destruct d; apply focus_set_balance. Qed.

(** The balance of the root of the subtree on side [e] of the focus. *)
Lemma focus_set_balance_child s c d x i b y e k f z v :
  focus s c (Some k) (cells (top c) (branch e (branch d x i b y) k f z)) ->
  exists s', set_balance s i v = Some s' /\ focus s' c (Some k) (cells (top c) (branch e (branch d x i v y) k f z)).
Proof.
  intros F. apply focus_child in F. replace (rootp (branch d x i b y)) with (Some i) in F by (by destruct d).
  destruct (focus_set_balance_branch _ (Frame e k f z :: c) d x i b y v F) as (s' & E & F'). exists s'. split; [done|].
  apply focus_child. by replace (rootp (branch d x i v y)) with (Some i) by (by destruct d).
Qed.

(** A rotation away from side [d] followed by the two stores to balance factors. *)
Lemma single_rotation s c d a ci cb x i b far v1 v2 :
  focus s c (Some i) (cells (top c) (branch d (branch d a ci cb x) i b far)) ->
  exists s1 s2 s3, _BAVL_rotate s i (negb d) = Some s1 /\ set_balance s1 i v1 = Some s2 /\ set_balance s2 ci v2 = Some s3 /\
    focus s3 c (Some ci) (cells (top c) (branch d a ci v2 (branch d x i v1 far))).
Proof.
  intros F. rewrite <- (branch_negb d far), <- (branch_negb d x) in F. apply rotate_ok in F as (s1 & E1 & F).
  apply (focus_set_balance_child _ _ _ _ _ _ _ _ _ _ _ v1) in F as (s2 & E2 & F).
  apply (focus_set_balance_branch _ _ _ _ _ _ _ v2) in F as (s3 & E3 & F).
  exists s1, s2, s3. by rewrite !branch_negb in F.
Qed.

(** The double rotation, with the stores to the three balance factors. *)
Lemma double_rotation s c d a ci cb gx gi gb gy i b far v1 v2 v3 :
  focus s c (Some i) (cells (top c) (branch d (branch d a ci cb (branch d gx gi gb gy)) i b far)) ->
  exists s1 s2, _BAVL_rotate s ci d = Some s1 /\ _BAVL_rotate s1 i (negb d) = Some s2 /\
    (exists e, heap s2 !! gi = Some e /\ balance e = gb) /\
    exists s3 s4 s5, set_balance s2 i v1 = Some s3 /\ set_balance s3 ci v2 = Some s4 /\ set_balance s4 gi v3 = Some s5 /\
    focus s5 c (Some gi) (cells (top c) (branch d (branch d a ci v2 gx) gi v3 (branch d gy i v1 far))).
Proof.
  intros F. apply focus_child in F. replace (rootp (branch d a ci cb _)) with (Some ci) in F by (by destruct d).
  apply (rotate_ok _ (Frame d i b far :: c)) in F as (s1 & E1 & F).
  replace (Some gi) with (rootp (branch d (branch d a ci cb gx) gi gb gy)) in F by (by destruct d).
  apply (focus_child s1 c d) in F. rewrite <- (branch_negb d far), <- (branch_negb d gy) in F. apply rotate_ok in F as (s2 & E2 & F).
  exists s1, s2. split_and!; [done|done| |].
  - destruct d; apply focus_root in F; eexists; split; try exact F; done.
  - apply (focus_set_balance_child _ _ _ _ _ _ _ _ _ _ _ v1) in F as (s3 & E3 & F). rewrite (branch_negb d _ gi) in F.
    apply (focus_set_balance_child _ _ _ _ _ _ _ _ _ _ _ v2) in F as (s4 & E4 & F).
    apply (focus_set_balance_branch _ _ _ _ _ _ _ v3) in F as (s5 & E5 & F).
    exists s3, s4, s5. by rewrite !branch_negb in F.
Qed.

(** ** Order and balance *)
Fixpoint inord (x : tree) : list ptr := match x with Leaf => [] | Node l i _ r => inord l ++ i :: inord r end.

Fixpoint height (x : tree) : Z := match x with Leaf => 0 | Node l _ _ r => 1 + Z.max (height l) (height r) end.

(** The balance factor of a node is the difference of the heights of its subtrees, at most 1. *)
Fixpoint avl (x : tree) : Prop :=
  match x with Leaf => True | Node l _ b r => avl l /\ avl r /\ b = height r - height l /\ -1 <= b <= 1 end.

(** What the path above a subtree of height [h] satisfies when the whole tree is balanced. *)
Fixpoint ctx_avl (c : list frame) (h : Z) : Prop :=
  match c with
  | [] => True
  | f :: c => avl (sib f) /\ fbal f = (if side f then h - height (sib f) else height (sib f) - h) /\ -1 <= fbal f <= 1 /\
      ctx_avl c (1 + Z.max h (height (sib f)))
  end.

Lemma height_nonneg x : 0 <= height x.
Proof. induction x; simpl; lia. Qed.

Lemma height_branch d near i b far : height (branch d near i b far) = 1 + Z.max (height near) (height far).
Proof. destruct d; simpl; lia. Qed.

Lemma inord_branch d x i b y : inord (branch d x i b y) = if d then inord y ++ i :: inord x else inord x ++ i :: inord y.
Proof. by destruct d. Qed.

Lemma avl_branch d near i b far : avl (branch d near i b far) <->
  avl near /\ avl far /\ b = (if d then height near - height far else height far - height near) /\ -1 <= b <= 1.
Proof. destruct d; simpl; tauto. Qed.

Lemma avl_plug c : forall x, avl (plug c x) <-> avl x /\ ctx_avl c (height x).
Proof.
  induction c as [|f c IH]; intros x; simpl; [tauto|]. rewrite IH, avl_branch, height_branch. tauto.
Qed.

Lemma inord_plug c : forall x y, inord x = inord y -> inord (plug c x) = inord (plug c y).
Proof.
  induction c as [|f c IH]; intros x y E; simpl; [done|]. apply IH. destruct (side f); simpl; by rewrite E.
Qed.

(** ** Rebalancing *)
Definition sgn (d : bool) : Z := if d then 1 else -1.

(** The result of a transformation at a node whose height was [h]. *)
Definition transformed (c : list frame) (x : tree) (h delta : Z) (s' : t) (n : ptr) (delta' : Z) : Prop :=
  exists x', focus s' c (Some n) (cells (top c) x') /\ rootp x' = Some n /\ avl x' /\ inord x' = inord x /\
    height x' = h + (delta' - delta) /\ delta - 1 <= delta' <= delta.

Ltac run R := cbn [mbind option_bind]; rewrite R; cbn [mbind option_bind].
(** Heights, balance factors and order after a rotation. *)
Ltac balanced :=
  rewrite ?avl_branch, ?height_branch, ?inord_branch, ?rootp_branch;
  split_and!; try done; try lia; repeat match goal with d : bool |- _ => destruct d end; cbn [sgn] in *;
  rewrite <- ?app_assoc; cbn [app]; rewrite <- ?app_assoc; try done; lia.

Lemma transform_ok s c d near i far delta :
  focus s c (Some i) (cells (top c) (branch d near i (2 * sgn d) far)) -> avl near -> avl far -> height near = height far + 2 ->
  exists s' n delta', transform s i delta = Some (s', n, delta') /\
    transformed c (branch d near i (2 * sgn d) far) (1 + height near) delta s' n delta'.
Proof.
  intros F An Af Hh. pose proof (height_nonneg far).
  assert (exists a ci cb x, near = branch d a ci cb x) as (a & ci & cb & x & ->).
  { destruct near; [simpl in Hh; lia|]. destruct d; by do 4 eexists. }
  apply avl_branch in An as (Aa & Ax & Eb & Rb). rewrite height_branch in Hh.
  assert (heap s !! i = Some (links d (top c) (Some ci) (rootp far) (2 * sgn d))) as E1.
  { apply focus_root_branch in F. by rewrite rootp_branch in F. }
  assert (heap s !! ci = Some (links d (Some i) (rootp a) (rootp x) cb)) as E2.
  { apply focus_child in F. rewrite rootp_branch in F. by apply focus_root_branch in F. }
  unfold transform. rewrite E1. cbn [mbind option_bind]. rewrite links_balance.
  assert ((2 * sgn d =? 2) = d) as -> by (by destruct d). rewrite links_link. cbn [mbind option_bind]. rewrite E2. cbn [mbind option_bind].
  rewrite links_balance, links_link_negb. change (if d then 1 else -1) with (sgn d).
  assert (cb * sgn d = height a - height x) as Ev by (destruct d; simpl; lia).
  assert (-1 <= height a - height x <= 1) as Hax by (destruct d; lia). rewrite Ev.
  case_if; [|case_if].
  - destruct (single_rotation _ _ _ _ _ _ _ _ _ _ 0 0 F) as (s1 & s2 & s3 & -> & R2 & R3 & F'). run R2. run R3.
    do 3 eexists. split; [done|]. eexists. split; [exact F'|]. balanced.
  - destruct (single_rotation _ _ _ _ _ _ _ _ _ _ (1 * sgn d) (-1 * sgn d) F) as (s1 & s2 & s3 & -> & R2 & R3 & F'). run R2. run R3.
    do 3 eexists. split; [done|]. eexists. split; [exact F'|]. balanced.
  - bool_true. pose proof (height_nonneg a).
    assert (exists gx gi gb gy, x = branch d gx gi gb gy) as (gx & gi & gb & gy & ->).
    { destruct x; [simpl in E, E0, Hax; lia|]. destruct d; by do 4 eexists. }
    apply avl_branch in Ax as (Agx & Agy & Egb & Rgb). rewrite height_branch in *. rewrite rootp_branch. cbn [mbind option_bind].
    destruct (double_rotation _ _ _ _ _ _ _ _ _ _ _ _ _ (- BAVL_MAX 0 (gb * sgn d) * sgn d) (BAVL_MAX 0 (- gb * sgn d) * sgn d) 0 F)
      as (s1 & s2 & R1 & R2 & (e & Re & <-) & s3 & s4 & s5 & R3 & R4 & R5 & F').
    run R1. run R2. run Re. run R3. run R4. run R5.
    do 3 eexists. split; [done|]. eexists. split; [exact F'|]. unfold BAVL_MAX. destruct (0 >? balance e * sgn d) eqn:G1, (0 >? - balance e * sgn d) eqn:G2; reflect_bool; balanced.
Qed.

Lemma focus_up s f c n x : rootp x = Some n ->
  focus s (f :: c) (Some n) (cells (Some (fid f)) x) ->
  focus s c (Some (fid f)) (cells (top c) (branch (side f) x (fid f) (fbal f) (sib f))).
Proof. intros <- F. apply focus_child. by destruct f. Qed.

(** The side of a subtree, as the code finds it from the parent. *)
Lemma focus_link s c d near i b far n d' : rootp near = Some n ->
  focus s c (Some i) (cells (top c) (branch d near i b far)) ->
  bool_decide (Some n = link (links d (top c) (rootp near) (rootp far) b) d') = eqb d d'.
Proof.
  intros Hn [[Hd _] _]. destruct (eqb d d') eqn:E.
  { apply eqb_prop in E as ->. rewrite links_link, Hn. by apply bool_decide_true. }
  replace d' with (negb d) by (by destruct d, d'). rewrite links_link_negb. apply bool_decide_false. intros E'. symmetry in E'.
  apply (rootp_cells (Some i)) in E', Hn. rewrite branch_cells, !fmap_app in Hd.
  apply list.NoDup_app in Hd as (_ & _ & Hd). rewrite fmap_cons, fmap_app in Hd.
  apply list.NoDup_cons in Hd as [_ Hd]. apply list.NoDup_app in Hd as (_ & Hd & _). by apply (Hd n).
Qed.

Lemma focus_side s c d near i b far n : rootp near = Some n ->
  focus s c (Some i) (cells (top c) (branch d near i b far)) ->
  exists e, heap s !! i = Some e /\ parent e = top c /\ balance e = b /\ bool_decide (Some n = link1 e) = d.
Proof.
  intros Hn F. eexists. split; [apply (focus_root_branch _ _ _ _ _ _ _ F)|]. rewrite links_parent, links_balance. split_and!; [done|done|].
  pose proof (focus_link _ _ _ _ _ _ _ _ true Hn F) as E. unfold link in E. rewrite E. by destruct d.
Qed.

(** [rep s x]: the heap holds the tree [x]. *)
Definition rep (s : t) (x : tree) : Prop := focus s [] (rootp x) (cells None x).

Lemma focus_plug s c : forall x, focus s c (rootp x) (cells (top c) x) <-> rep s (plug c x).
Proof.
  induction c as [|f c IH]; intros x; simpl; [done|]. rewrite <- IH, rootp_branch. destruct f. simpl. by rewrite focus_child.
Qed.

(** Transformations that agree with [transform] where it is called: at a node whose subtree on one
    side is higher by two. *)
Definition transforms_alike (tf : t -> ptr -> Z -> option (t * ptr * Z)) : Prop :=
  forall s c d near i far delta,
    focus s c (Some i) (cells (top c) (branch d near i (2 * sgn d) far)) -> avl near -> avl far -> height near = height far + 2 ->
    tf s i delta = transform s i delta.

(** The height of the subtree on side [d] of the node [i] changed by [deltac]. *)
Lemma rebalance_with_ok tf (Htf : transforms_alike tf) fuel : forall c s d near i b far deltac, (length c < fuel)%nat ->
  focus s c (Some i) (cells (top c) (branch d near i b far)) -> avl near -> avl far -> -1 <= deltac <= 1 -> -1 <= b <= 1 ->
  b = sgn d * (height near - deltac - height far) -> ctx_avl c (1 + Z.max (height near - deltac) (height far)) ->
  exists s' x', rebalance_with tf fuel s i d deltac = Some s' /\ _BAVL_rebalance fuel s i d deltac = Some s' /\
    rep s' x' /\ avl x' /\ inord x' = inord (plug c (branch d near i b far)).
Proof.
  unfold _BAVL_rebalance.
  induction fuel as [|fuel IH]; intros c s d near i b far deltac Hf F An Af Hd Hb Eb Hc; [lia|]. cbn [rebalance_with].
  assert (heap s !! i = Some (links d (top c) (rootp near) (rootp far) b)) as -> by by apply focus_root_branch.
  cbn [mbind option_bind]. rewrite links_balance. do 2 bool_true. case_if.
  - exists s, (plug c (branch d near i b far)). do 2 (split; [done|]). split; [|split; [|reflexivity]].
    + apply (focus_plug s c). by rewrite rootp_branch.
    + apply avl_plug. rewrite avl_branch, height_branch. replace deltac with 0 in * by lia. rewrite Z.sub_0_r in *.
      split_and!; try done; destruct d; simpl in *; lia.
  - set (delta := BAVL_MAX _ _ - _).
    assert (delta = Z.max (height near) (height far) - Z.max (height near - deltac) (height far)) as Ed.
    { unfold delta, BAVL_MAX, BAVL_OPTNEG. destruct d; cbn [sgn] in *; repeat case_if; lia. }
    assert (-1 <= delta <= 1) as Rd by lia. clearbody delta. bool_true.
    destruct (focus_set_balance_branch _ _ _ _ _ _ _ (b - BAVL_OPTNEG deltac d) F) as (s1 & R1 & F1). run R1.
    assert (heap s1 !! i = Some (links d (top c) (rootp near) (rootp far) (b - BAVL_OPTNEG deltac d))) as -> by by apply focus_root_branch.
    cbn [mbind option_bind]. rewrite links_balance.
    set (b' := b - BAVL_OPTNEG deltac d) in *.
    assert ((b' =? 2) || (b' =? -2) = true ->
      b' = 2 * sgn d /\ height near = height far + 2 \/ b' = 2 * sgn (negb d) /\ height far = height near + 2) as Hbig.
    { intros [E0|E0]%orb_true_iff; unfold b' in *; destruct d; reflect_bool; simpl in *; lia. }
    assert ((if (b' =? 2) || (b' =? -2) then tf s1 i delta else Some (s1, i, delta)) =
      (if (b' =? 2) || (b' =? -2) then transform s1 i delta else Some (s1, i, delta))) as ->.
    { destruct ((b' =? 2) || (b' =? -2)) eqn:E0; [|done]. destruct (Hbig eq_refl) as [[Eb' Hh]|[Eb' Hh]]; rewrite Eb' in F1.
      - by eapply Htf.
      - rewrite <- branch_negb in F1. by eapply Htf. }
    match goal with |- context [if ?b then transform ?s ?i ?d else ?z] => set (r := if b then transform s i d else z) end.
    assert (exists s2 n delta', r = Some (s2, n, delta') /\ -1 <= delta' <= 1 /\
      transformed c (branch d near i b' far) (1 + Z.max (height near) (height far)) delta s2 n delta') as (s2 & n & delta' & -> & Rd' & x & F2 & Hn & Ax & Ex & Hx & Hd').
    { unfold r. destruct ((b' =? 2) || (b' =? -2)) eqn:E0.
      - destruct (Hbig eq_refl) as [[Eb' Hh]|[Eb' Hh]]; rewrite Eb' in *.
        + destruct (transform_ok _ _ _ _ _ _ delta F1) as (s2 & n & delta' & E1 & T); [done..|]. exists s2, n, delta'. split; [done|].
          split; [destruct T as (? & _ & _ & _ & _ & _ & ?); lia|]. by replace (Z.max _ _) with (height near) by lia.
        + rewrite <- branch_negb in *. destruct (transform_ok _ _ _ _ _ _ delta F1) as (s2 & n & delta' & E1 & T); [done..|]. exists s2, n, delta'. split; [done|].
          split; [destruct T as (? & _ & _ & _ & _ & _ & ?); lia|]. by replace (Z.max _ _) with (height far) by lia.
      - do 3 eexists. do 2 (split; [done|]). eexists. split; [exact F1|]. unfold b', BAVL_OPTNEG in *. reflect_bool. balanced. }
    cbn [mbind option_bind]. bool_true.
    destruct x as [|l n' bn rx]; [done|]. injection Hn as ->. rewrite (focus_root _ _ _ _ _ _ F2). cbn [mbind option_bind parent].
    assert (inord (Node l n bn rx) = inord (branch d near i b far)) as Ex' by (rewrite Ex; by destruct d).
    destruct c as [|f c]; cbn [top_of plug] in *.
    + exists s2, (Node l n bn rx). done.
    + destruct Hc as (As & Ef & Rf & Hc). pose proof (focus_up _ _ _ _ (Node l n bn rx) eq_refl F2) as F3.
      destruct (focus_side _ _ _ (Node l n bn rx) _ _ _ n eq_refl F3) as (e & Re & _ & _ & Rs). run Re. rewrite Rs.
      destruct (IH c s2 (side f) (Node l n bn rx) (fid f) (fbal f) (sib f) delta') as (s' & x' & R1' & R2' & R & A & E'); try done.
      * cbn [length] in Hf. lia.
      * rewrite Ef, Hx. destruct (side f); simpl; lia.
      * rewrite Hx. by replace (1 + _ + _ - delta') with (1 + Z.max (height near - deltac) (height far)) by lia.
      * exists s', x'. rewrite R1', R2'. split_and!; try done. rewrite E'. apply inord_plug. destruct (side f); cbn [branch inord] in *; by rewrite Ex'.
Qed.

Lemma transform_alike : transforms_alike transform.
Proof. intros ? ? ? ? ? ? ? ? ? ? ?. reflexivity. Qed.

(** ** Paths *)
Lemma top_of_app par p c : top_of par (p ++ c) = top_of (top_of par c) p.
Proof. by destruct p. Qed.
Lemma root_of_app p c h : root_of (p ++ c) h = root_of c (root_of p h).
Proof. revert h. induction p as [|f p IH]; intros h; [done|]. apply IH. Qed.
Lemma rootp_plug p : forall x, rootp (plug p x) = root_of p (rootp x).
Proof. induction p as [|f p IH]; intros x; simpl; [done|]. by rewrite IH, rootp_branch. Qed.
Lemma plug_app p c x : plug (p ++ c) x = plug c (plug p x).
Proof. revert x. induction p as [|f p IH]; intros x; [done|]. apply IH. Qed.

Lemma path_cells_app par p c : forall h,
  path_cells par (p ++ c) h ≡ₚ path_cells (top_of par c) p h ++ path_cells par c (root_of p h).
Proof.
  induction p as [|f p IH]; intros h; cbn [app path_cells root_of]; [done|]. rewrite IH, top_of_app. perm.
Qed.

Lemma cells_plug par p : forall x, cells par (plug p x) ≡ₚ path_cells par p (rootp x) ++ cells (top_of par p) x.
Proof.
  induction p as [|f p IH]; intros x; cbn [plug path_cells top_of]; [done|]. rewrite IH, branch_cells, rootp_branch. perm.
Qed.

(** ** Swapping a node with the greatest node of its left subtree *)
Lemma swap_adjacent_ok s c n1 b rl ri rb rr m n2 b2 :
  focus s c (Some n1) (cells (top c) (Node (Node m n2 b2 Leaf) n1 b (Node rl ri rb rr))) -> n2 <> ri ->
  exists s', swap_adjacent s n1 n2 = Some s' /\
    focus s' c (Some n2) (cells (top c) (Node (Node m n1 b Leaf) n2 b2 (Node rl ri rb rr))).
Proof.
  intros F Hr. unfold swap_adjacent, set_link_parent. destruct m as [|ml mi mb mr]; cbn [cells rootp app] in *; rewrite <- ?app_assoc in F; simpl_node.
  all: do 2 load. all: rewrite bool_decide_false by congruence; repeat (load || store). all: store_top.
  all: repeat (load || store). all: eexists; split; [reflexivity|]; conclude.
Qed.

(** [n2] is a child of the left child [q] of [n1]. *)
Lemma swap_apart_near s c n1 b rl ri rb rr m n2 b2 q qb qs :
  focus s c (Some n1) (cells (top c) (Node (Node qs q qb (Node m n2 b2 Leaf)) n1 b (Node rl ri rb rr))) ->
  exists s', swap_apart s n1 n2 = Some s' /\
    focus s' c (Some n2) (cells (top c) (Node (Node qs q qb (Node m n1 b Leaf)) n2 b2 (Node rl ri rb rr))).
Proof.
  intros F. unfold swap_apart, set_link_parent. destruct m as [|ml mi mb mr]; cbn [cells rootp app] in *; rewrite <- ?app_assoc in F; simpl_node.
  all: do 2 load; store. all: cbn [set_link_to]; load; rewrite bool_decide_true by done; repeat (load || store). all: store_top.
  all: repeat (load || store). all: eexists; split; [reflexivity|]; conclude.
Qed.

(** There are nodes between the left child [o] of [n1] and the parent [q] of [n2]. *)
Lemma swap_apart_far s c n1 b rl ri rb rr m n2 b2 q qb qs mid o ob os :
  focus s c (Some n1) (cells (top c) (Node (plug (Frame true q qb qs :: mid ++ [Frame true o ob os]) (Node m n2 b2 Leaf)) n1 b (Node rl ri rb rr))) ->
  exists s', swap_apart s n1 n2 = Some s' /\
    focus s' c (Some n2) (cells (top c) (Node (plug (Frame true q qb qs :: mid ++ [Frame true o ob os]) (Node m n1 b Leaf)) n2 b2 (Node rl ri rb rr))).
Proof.
  assert (forall k f i e, cells (top c) (Node (plug (Frame true q qb qs :: mid ++ [Frame true o ob os]) (Node m i e Leaf)) k f (Node rl ri rb rr))
    ≡ₚ (k, mk_node (top c) (Some o) (Some ri) f) :: (q, mk_node (top_of (Some o) mid) (rootp qs) (Some i) qb) ::
       (o, mk_node (Some k) (rootp os) (root_of mid (Some q)) ob) :: cells (Some q) (Node m i e Leaf) ++
       cells (Some k) (Node rl ri rb rr) ++ cells (Some q) qs ++ path_cells (Some o) mid (Some q) ++ cells (Some o) os) as P.
  { intros. cbn [cells]. rewrite rootp_plug, cells_plug. cbn [path_cells root_of top_of fid side sib fbal links]. rewrite path_cells_app, top_of_app, root_of_app.
    cbn [path_cells root_of top_of fid side sib fbal links]. perm. }
  intros F. apply (focus_perm _ _ _ _ _ (P _ _ _ _)) in F.
  pose proof (P n2 b2 n1 b) as Q. clear P. set (G := cells _ (Node (plug _ _) n2 _ _)) in Q |- *. clearbody G.
  unfold swap_apart, set_link_parent. destruct m as [|ml mi mb mr]; cbn [cells rootp app] in *; rewrite <- ?app_assoc in F; simpl_node.
  all: do 2 load; store. all: cbn [set_link_to]; load; rewrite bool_decide_true by done; repeat (load || store). all: store_top.
  all: repeat (load || store). all: eexists; split; [reflexivity|]; (eapply focus_perm; [rewrite Q|eassumption]); perm.
Qed.

(** Moving the focus along a path. *)
Lemma focus_path s p c x : focus s c (rootp (plug p x)) (cells (top c) (plug p x)) <-> focus s (p ++ c) (rootp x) (cells (top (p ++ c)) x).
Proof. by rewrite !(focus_plug s), plug_app. Qed.

Lemma focus_lower s c d p l i b r k f y :
  focus s c (Some k) (cells (top c) (branch d (plug p (Node l i b r)) k f y)) <->
  focus s (p ++ Frame d k f y :: c) (Some i) (cells (top (p ++ Frame d k f y :: c)) (Node l i b r)).
Proof. rewrite focus_child. apply (focus_path s p (Frame d k f y :: c)). Qed.

Lemma cells_keys par x : (cells par x).*1 ≡ₚ inord x.
Proof.
  revert par. induction x as [|l IHl i b r IHr]; intros par; cbn [cells inord]; [done|].
  rewrite fmap_cons, fmap_app, IHl, IHr. apply Permutation_middle.
Qed.

Lemma focus_nodup s c p L : focus s c p L -> NoDup L.*1 /\ forall n, n ∈ L.*1 -> top c <> Some n.
Proof.
  intros [[Hn _] _]. rewrite fmap_app in Hn. apply list.NoDup_app in Hn as (_ & Hd & Hn). split; [done|].
  intros n Hi E. destruct c as [|f c]; [done|]. injection E as <-. apply (Hd (fid f)); [by left|done].
Qed.

Lemma inord_split_in p x : exists A B, inord (plug p x) = A ++ inord x ++ B /\ forall n, n ∈ fid <$> p -> n ∈ A \/ n ∈ B.
Proof.
  revert x. induction p as [|f p IH]; intros x; cbn [plug fmap list_fmap].
  - exists [], []. split; [simpl; by rewrite app_nil_r|]. intros n Hn. by apply not_elem_of_nil in Hn.
  - destruct (IH (branch (side f) x (fid f) (fbal f) (sib f))) as (A & B & -> & H). rewrite inord_branch.
    destruct (side f).
    + exists (A ++ inord (sib f) ++ [fid f]), B. split; [by rewrite <- !app_assoc|]. intros n. rewrite elem_of_cons, !elem_of_app, list_elem_of_singleton. intros [->|Hn]; [tauto|]. apply H in Hn. tauto.
    + exists A, (fid f :: inord (sib f) ++ B). split; [by rewrite <- !app_assoc|]. intros n. rewrite !elem_of_cons, !elem_of_app. intros [->|Hn]; [tauto|]. apply H in Hn. tauto.
Qed.

Lemma swap_nodes_ok s c n1 b r m n2 b2 p :
  focus s c (Some n1) (cells (top c) (Node (plug p (Node m n2 b2 Leaf)) n1 b r)) -> Forall (fun f => side f = true) p -> r <> Leaf ->
  exists s', _BAVL_swap_nodes s n1 n2 = Some s' /\ focus s' c (Some n2) (cells (top c) (Node (plug p (Node m n1 b2 Leaf)) n2 b r)).
Proof.
  intros F Hp Hr. pose proof (focus_root _ _ _ _ _ _ F) as E1. unfold _BAVL_swap_nodes. run E1.
  assert (heap s !! n2 = Some (mk_node (top_of (Some n1) p) (rootp m) None b2)) as E2.
  { destruct F as [[_ H] _]. apply H. cbn [cells]. rewrite cells_plug. cbn [cells rootp]. rewrite !elem_of_app, !elem_of_cons, !elem_of_app, !elem_of_cons. tauto. }
  run E2. cbn [parent].
  destruct (focus_nodup _ _ _ _ F) as [Hd Ht]. rewrite cells_keys in Hd.
  rewrite (bool_decide_false (top c = Some n2)).
  2:{ apply Ht. rewrite cells_keys. cbn [inord]. destruct (inord_split_in p (Node m n2 b2 Leaf)) as (A & B & -> & _). cbn [inord]. set_solver. }
  rewrite orb_false_r.
  assert (exists s', (if bool_decide (top_of (Some n1) p = Some n1) then swap_adjacent s n1 n2 else swap_apart s n1 n2) = Some s' /\
    focus s' c (Some n2) (cells (top c) (Node (plug p (Node m n1 b Leaf)) n2 b2 r))) as (s' & E & F').
  { destruct r as [|rl ri rb rr]; [done|]. destruct p as [|[qd q qb qs] p]; cbn [top_of].
    - rewrite bool_decide_true by done. apply swap_adjacent_ok; [done|]. intros ->. cbn in Hd. apply list.NoDup_app in Hd as (_ & Hd & _).
      apply (Hd ri); set_solver.
    - rewrite bool_decide_false.
      2:{ intros [= ->]. cbn [inord] in Hd. destruct (inord_split_in (Frame qd n1 qb qs :: p) (Node m n2 b2 Leaf)) as (A & B & E & HA).
          rewrite E in Hd. apply list.NoDup_app in Hd as (_ & Hd & _). apply (Hd n1); [|by left]. rewrite !elem_of_app. destruct (HA n1 ltac:(by left)); tauto. }
      apply list.Forall_cons in Hp as [Hq Hp]. simpl in Hq. subst qd.
      destruct p as [|[od o ob os] mid _] using rev_ind; [by apply swap_apart_near|].
      apply Forall_app in Hp as [_ Ho]. apply list.Forall_cons in Ho as [Ho _]. cbn [side] in Ho. rewrite Ho in *. by apply swap_apart_far. }
  rewrite E. cbn [mbind option_bind]. rewrite (focus_root _ _ _ _ _ _ F'). apply (focus_lower _ _ false) in F'.
  rewrite (focus_root _ _ _ _ _ _ F'). cbn [mbind option_bind balance].
  apply (focus_set_balance _ _ _ _ _ _ b2) in F' as (s1 & -> & F1). apply (focus_lower _ _ false) in F1.
  apply (focus_set_balance _ _ _ _ _ _ b) in F1 as (s2 & E4 & F2). run E4. by exists s2.
Qed.

End BAVLTree.
