(* ===== verification/BAVLSpec.v ===== *)
(** * Balanced tree: the operations implement a sorted list

    Correctness of the operations of structure/BAVL.h against the in-order list of the nodes:
    [BAVL_Insert], [BAVL_Remove], the look-ups and the traversals, for any comparator that is a
    total order.  The last section makes the tree an implementation of the interface the relay
    client uses. *)

From stdpp Require Import gmap sorting.
From S2P Require Import Prelude BAVL BAVLTree BAddr KeyTree.
Import BAVL BAVLTree.

Module BAVLSpec.

(** ** Lists around a path *)
Fixpoint lft (c : list frame) : list ptr :=
  match c with [] => [] | f :: c => lft c ++ if side f then inord (sib f) ++ [fid f] else [] end.
Fixpoint rgt (c : list frame) : list ptr :=
  match c with [] => [] | f :: c => (if side f then [] else fid f :: inord (sib f)) ++ rgt c end.

Lemma inord_plug_split c : forall x, inord (plug c x) = lft c ++ inord x ++ rgt c.
Proof.
  induction c as [|f c IH]; intros x; cbn [plug lft rgt]; [by rewrite app_nil_r|]. rewrite IH, inord_branch.
  destruct (side f); by rewrite <- ?app_assoc.
Qed.

Lemma lft_app p c : lft (p ++ c) = lft c ++ lft p.
Proof. induction p as [|f p IH]; cbn [app lft]; [by rewrite app_nil_r|]. by rewrite IH, app_assoc. Qed.
Lemma rgt_app p c : rgt (p ++ c) = rgt p ++ rgt c.
Proof. induction p as [|f p IH]; cbn [app rgt]; [done|]. by rewrite IH, app_assoc. Qed.
Lemma height_plug p : forall x y, height x = height y -> height (plug p x) = height (plug p y).
Proof. induction p as [|f p IH]; intros x y E; cbn [plug]; [done|]. apply IH. by rewrite !height_branch, E. Qed.

Lemma elem_inord i x : i ∈ inord x -> exists c l b r, x = plug c (Node l i b r).
Proof.
  induction x as [|l IHl j b r IHr]; cbn [inord]; intros Hi; [by apply not_elem_of_nil in Hi|].
  apply elem_of_app in Hi as [Hi|Hi]; [|apply elem_of_cons in Hi as [->|Hi]].
  - destruct (IHl Hi) as (c & l' & b' & r' & ->). exists (c ++ [Frame false j b r]), l', b', r'. by rewrite plug_app.
  - by exists [], l, b, r.
  - destruct (IHr Hi) as (c & l' & b' & r' & ->). exists (c ++ [Frame true j b l]), l', b', r'. by rewrite plug_app.
Qed.

(** ** Fuel *)
Lemma focus_size s c p L : focus s c p L -> (length (ctx_cells c p) + length L <= size (heap s))%nat.
Proof.
  intros [[Hn H] _]. rewrite <- length_app, <- (length_fmap fst), <- size_dom, <- (size_list_to_set (C := gset ptr)) by done.
  apply subseteq_size. intros i. rewrite elem_of_list_to_set, list_elem_of_fmap. intros ([j e] & -> & Hj). apply elem_of_dom. eexists. by apply H.
Qed.

Lemma length_path par c p : (length c <= length (path_cells par c p))%nat.
Proof. revert p. induction c as [|f c IH]; intros p; cbn [path_cells length]; [lia|]. rewrite length_app. specialize (IH (Some (fid f))). lia. Qed.

Lemma focus_depth s c p L : focus s c p L -> (length c < fuel_of s)%nat.
Proof. intros F%focus_size. pose proof (length_path None c p). unfold fuel_of. lia. Qed.

Lemma length_cells par x : length (cells par x) = length (inord x).
Proof. rewrite <- (cells_keys par), length_fmap. done. Qed.

Lemma focus_count s c p par x : focus s c p (cells par x) -> (length (inord x) < fuel_of s)%nat.
Proof. intros F%focus_size. rewrite length_cells in F. unfold fuel_of. lia. Qed.

Lemma height_count x : height x <= zlen (inord x).
Proof. induction x as [|l IHl i b r IHr]; cbn [height inord]; [done|]. rewrite zlen_app, zlen_cons. pose proof (zlen_nonneg (inord l)). pose proof (zlen_nonneg (inord r)). lia. Qed.

Lemma focus_height s c p par x : focus s c p (cells par x) -> height x <= Z.of_nat (fuel_of s).
Proof. intros F%focus_count. pose proof (height_count x). unfold zlen in *. lia. Qed.

(** ** Walks *)
(** Down one side: the end of the subtree on that side. *)
Lemma descend_ok d fuel : forall s c x i, focus s c (Some i) (cells (top c) x) -> rootp x = Some i -> (length (inord x) <= fuel)%nat ->
  exists p n b far, descend fuel s i d = Some n /\ x = plug p (branch d Leaf n b far) /\ Forall (fun f => side f = d) p.
Proof.
  induction fuel as [|fuel IH]; intros s c x i F Hi Hf.
  { destruct x as [|l j b r]; [done|]. cbn [inord] in Hf. rewrite length_app in Hf. cbn [length] in Hf. lia. }
  assert (exists near b far, x = branch d near i b far) as (near & b & far & ->).
  { destruct x; [done|]. injection Hi as ->. destruct d; by do 3 eexists. }
  cbn [descend]. run (focus_root_branch _ _ _ _ _ _ _ F). rewrite links_link.
  destruct (rootp near) as [j|] eqn:Hj.
  - apply focus_child in F. rewrite Hj in F.
    destruct (IH s (Frame d i b far :: c) near j) as (p & n & b' & far' & -> & -> & Hp); [done|done| |].
    { rewrite inord_branch in Hf. destruct d; rewrite length_app in Hf; cbn [length] in Hf; lia. }
    exists (p ++ [Frame d i b far]), n, b', far'. split_and!; [done|by rewrite plug_app|]. apply Forall_app. split; [done|]. by repeat constructor.
  - destruct near; [|done]. by exists [], i, b, far.
Qed.

Lemma lft_spine p : Forall (fun f => side f = false) p -> lft p = [].
Proof. induction 1 as [|f p Hf _ IH]; cbn [lft]; [done|]. by rewrite IH, Hf. Qed.
Lemma rgt_spine p : Forall (fun f => side f = true) p -> rgt p = [].
Proof. induction 1 as [|f p Hf _ IH]; cbn [rgt]; [done|]. by rewrite IH, Hf. Qed.

(** The first or the last node of a subtree. *)
Definition end_of (d : bool) (l : list ptr) : option ptr := if d then list.last l else head l.

Lemma descend_end d fuel s c x i : focus s c (Some i) (cells (top c) x) -> rootp x = Some i -> (length (inord x) <= fuel)%nat ->
  descend fuel s i d = end_of d (inord x).
Proof.
  intros F Hi Hf. destruct (descend_ok d fuel s c x i F Hi Hf) as (p & n & b & far & -> & -> & Hp).
  rewrite inord_plug_split, inord_branch. destruct d; cbn [inord end_of].
  - rewrite (rgt_spine _ Hp), app_nil_r. rewrite app_assoc. by rewrite last_snoc.
  - by rewrite (lft_spine _ Hp).
Qed.

(** Up while coming from side [d]: the next node in the order. *)
Lemma ascend_ok d fuel : forall s c x i, focus s c (Some i) (cells (top c) x) -> rootp x = Some i -> (length c < fuel)%nat ->
  ascend fuel s i d = Some (if d then head (rgt c) else list.last (lft c)).
Proof.
  induction fuel as [|fuel IH]; intros s c x i F Hi Hf; [lia|]. destruct x as [|l j b r]; [done|]. injection Hi as ->.
  cbn [ascend]. run (focus_root _ _ _ _ _ _ F). cbn [parent]. destruct c as [|f c]; cbn [top_of lft rgt] in *; [by destruct d|].
  pose proof (focus_up _ _ _ _ (Node l i b r) eq_refl F) as F'. run (focus_root_branch _ _ _ _ _ _ _ F').
  rewrite (focus_link _ _ _ (Node l i b r) _ _ _ i d eq_refl F').
  assert (ascend fuel s (fid f) d = Some (if d then head (rgt c) else list.last (lft c))) as R.
  { apply (IH s c _ _ F'); [by rewrite rootp_branch|]. cbn [length] in Hf. lia. }
  destruct (side f), d; cbn [eqb app]; rewrite ?app_nil_r; try done. by rewrite app_assoc, last_snoc.
Qed.

(** ** Removal *)

(** A node with at most one subtree. *)
Lemma replace_subtree_ok s c l i b r x : focus s c (Some i) (cells (top c) (Node l i b r)) -> l = Leaf \/ r = Leaf ->
  x = (match l with Leaf => r | _ => l end) ->
  exists s', _BAVL_replace_subtree s i (rootp x) = Some s' /\ focus s' c (rootp x) ((i, mk_node (top c) (rootp l) (rootp r) b) :: cells (top c) x).
Proof.
  intros F Hlr ->. unfold _BAVL_replace_subtree. destruct Hlr as [-> | ->].
  - destruct r as [|rl ri rb rr]; cbn [cells rootp app] in *; load; store_top; load; try (by eexists).
    store. eexists. split; [done|]. conclude.
  - destruct l as [|ll li lb lr]; cbn [cells rootp app] in *; rewrite ?app_nil_r in F; load; store_top; load; try (by eexists).
    store. eexists. split; [done|]. conclude.
Qed.

Lemma focus_drop s c p i e L : focus s c p ((i, e) :: L) -> focus s c p L.
Proof.
  intros [H R]. split; [|done]. eapply holds_perm in H; [|symmetry; apply Permutation_middle]. destruct H as [Hn H].
  rewrite fmap_cons in Hn. apply list.NoDup_cons in Hn as [_ Hn]. split; [done|]. intros j f Hj. apply H. by right.
Qed.

(** Rebalancing above a subtree that lost one level. *)
Lemma rebalance_removed tf (Htf : transforms_alike tf) s f c x : focus s (f :: c) (rootp x) (cells (Some (fid f)) x) -> avl x ->
  ctx_avl (f :: c) (1 + height x) ->
  exists s' x', rebalance_with tf (fuel_of s) s (fid f) (side f) (-1) = Some s' /\
    _BAVL_rebalance (fuel_of s) s (fid f) (side f) (-1) = Some s' /\ rep s' x' /\ avl x' /\ inord x' = lft (f :: c) ++ inord x ++ rgt (f :: c).
Proof.
  intros F Ax (As & Ef & Rf & Hc). pose proof (focus_depth _ _ _ _ F) as Hd. cbn [length] in Hd.
  destruct (rebalance_with_ok tf Htf (fuel_of s) c s (side f) x (fid f) (fbal f) (sib f) (-1)) as (s2 & x' & E1 & E2 & R & A & E); try done.
  - lia.
  - apply focus_child. by destruct f.
  - rewrite Ef. destruct (side f); simpl; lia.
  - by replace (height x - -1) with (1 + height x) by lia.
  - exists s2, x'. split_and!; try done. rewrite E. change (plug c _) with (plug (f :: c) x). by rewrite inord_plug_split.
Qed.

(** The subtree that takes the place of a node with at most one child. *)
Definition only_child (l r : tree) : tree := match l with Leaf => r | _ => l end.

Lemma only_child_ok l i b r : avl (Node l i b r) -> l = Leaf \/ r = Leaf ->
  avl (only_child l r) /\ inord (only_child l r) = inord l ++ inord r /\ height (Node l i b r) = 1 + height (only_child l r).
Proof.
  intros (Al & Ar & _) Hlr. unfold only_child. pose proof (height_nonneg l). pose proof (height_nonneg r).
  destruct Hlr as [-> | ->]; [|destruct l]; cbn [height inord] in *; rewrite ?app_nil_r; split_and!; try done; lia.
Qed.

Lemma unlink_node_ok s c l i b r : focus s c (Some i) (cells (top c) (Node l i b r)) -> l = Leaf \/ r = Leaf ->
  avl (plug c (Node l i b r)) ->
  exists s' x', unlink_node s i = Some s' /\ rep s' x' /\ avl x' /\ inord x' = lft c ++ inord l ++ inord r ++ rgt c.
Proof.
  intros F Hlr (Ax & Hc)%avl_plug. destruct (only_child_ok _ _ _ _ Ax Hlr) as (Ay & Ex & Hx).
  unfold unlink_node. run (focus_root _ _ _ _ _ _ F). cbn [link0 link1 parent].
  assert (negb (bool_decide (is_Some (rootp l)) && bool_decide (is_Some (rootp r))) = true) as ->.
  { destruct Hlr as [-> | ->]; simpl; [done|]. by rewrite andb_false_r. }
  assert (match rootp l with Some l => Some l | None => rootp r end = rootp (only_child l r)) as -> by (by destruct l).
  destruct (replace_subtree_ok _ _ _ _ _ _ (only_child l r) F Hlr eq_refl) as (s1 & R1 & F1%focus_drop).
  destruct c as [|f c]; cbn [top_of] in *.
  - exists s1, (only_child l r). rewrite R1. cbn [lft rgt]. rewrite Ex, app_nil_r. done.
  - destruct (focus_side _ _ _ (Node l i b r) _ _ _ i eq_refl (focus_up _ _ _ _ (Node l i b r) eq_refl F)) as (e & Re & _ & _ & Rs).
    run Re. run R1. rewrite Rs. rewrite Hx in Hc.
    destruct (rebalance_removed transform transform_alike s1 f c (only_child l r) F1 Ay Hc) as (s2 & x' & _ & -> & R & A & E).
    exists s2, x'. split_and!; try done. by rewrite E, Ex, <- app_assoc.
Qed.

Lemma nodup_split {A} (l1 l2 k1 k2 : list A) x : NoDup (l1 ++ x :: l2) -> l1 ++ x :: l2 = k1 ++ x :: k2 -> l1 = k1 /\ l2 = k2.
Proof.
  revert k1. induction l1 as [|y l1 IH]; intros [|z k1]; simpl; intros Hn E; injection E; intros; subst; apply list.NoDup_cons in Hn as [Hn Hn'].
  - done.
  - exfalso. apply Hn. apply elem_of_app. right. by left.
  - exfalso. apply Hn. apply elem_of_app. right. by left.
  - destruct (IH k1) as [-> ->]; done.
Qed.

Lemma rep_nodup s x : rep s x -> NoDup (inord x).
Proof. intros F. destruct (focus_nodup _ _ _ _ F) as [Hn _]. by rewrite cells_keys in Hn. Qed.

(** The node [i] of a tree in focus. *)
Lemma rep_focus s x A i B : rep s x -> inord x = A ++ i :: B ->
  exists c l b r, x = plug c (Node l i b r) /\ focus s c (Some i) (cells (top c) (Node l i b r)) /\ A = lft c ++ inord l /\ B = inord r ++ rgt c.
Proof.
  intros R E. destruct (elem_inord i x) as (c & l & b & r & ->).
  { rewrite E. apply elem_of_app. right. by left. }
  exists c, l, b, r. split; [done|]. split; [by apply (focus_plug s c (Node l i b r))|].
  apply rep_nodup in R. rewrite inord_plug_split in *. cbn [inord] in *.
  assert (lft c ++ (inord l ++ i :: inord r) ++ rgt c = (lft c ++ inord l) ++ i :: (inord r ++ rgt c)) as E' by (by rewrite <- !app_assoc).
  rewrite E' in *. destruct (nodup_split _ _ _ _ _ R E) as [-> ->]. done.
Qed.

Lemma tree_remove_ok s x A i B : rep s x -> avl x -> inord x = A ++ i :: B ->
  exists s' x', BAVL_Remove s i = Some s' /\ rep s' x' /\ avl x' /\ inord x' = A ++ B.
Proof.
  intros R Ax E. destruct (rep_focus _ _ _ _ _ R E) as (c & l & b & r & -> & F & -> & ->). unfold BAVL_Remove. run (focus_root _ _ _ _ _ _ F).
  cbn [link0 link1]. destruct (rootp l) as [li|] eqn:Hl; [destruct (rootp r) as [ri|] eqn:Hr|].
  - pose proof F as F1. apply (focus_child _ _ false) in F1. rewrite Hl in F1.
    destruct (descend_ok true (fuel_of s) s _ l li F1 Hl) as (p & n & b2 & m & Rm & -> & Hp).
    { apply focus_count in F1. lia. }
    unfold _BAVL_subtree_max. run Rm.
    destruct (swap_nodes_ok _ _ _ _ _ _ _ _ _ F Hp) as (s1 & R1 & F2); [by intros ->|]. run R1.
    apply (focus_lower _ _ false) in F2. destruct (unlink_node_ok _ _ _ _ _ _ F2) as (s' & x' & -> & R' & A' & E'); [by right| |].
    + rewrite plug_app. cbn [plug branch side fid fbal sib]. revert Ax. rewrite !avl_plug. cbn [avl height].
      rewrite !avl_plug, (height_plug p (Node m i b2 Leaf) (Node m n b2 Leaf)) by done. done.
    + exists s', x'. split_and!; try done. rewrite E'. rewrite inord_plug_split, lft_app, rgt_app, (rgt_spine _ Hp).
      cbn [lft rgt side fid sib inord branch]. rewrite ?app_nil_r, <- !app_assoc. done.
  - cbn [mbind option_bind]. destruct (unlink_node_ok _ _ _ _ _ _ F) as (s' & x' & -> & R' & A' & E'); [right; by destruct r|done|].
    exists s', x'. split_and!; try done. rewrite E'. by rewrite <- !app_assoc.
  - cbn [mbind option_bind]. destruct (unlink_node_ok _ _ _ _ _ _ F) as (s' & x' & -> & R' & A' & E'); [left; by destruct l|done|].
    exists s', x'. split_and!; try done. rewrite E'. by rewrite <- !app_assoc.
Qed.

(** ** Insertion at the end of a path *)
Lemma path_keys par c p q : (path_cells par c p).*1 = (path_cells par c q).*1.
Proof. destruct c as [|f c]; [done|]. cbn [path_cells]. by rewrite !fmap_cons. Qed.

Lemma focus_keys c p x : (ctx_cells c p ++ cells (top c) x).*1 ≡ₚ inord (plug c x).
Proof. rewrite <- (cells_keys None), cells_plug, !fmap_app. by rewrite (path_keys None c p (rootp x)). Qed.

Lemma focus_init s c p L n par : focus s c p L -> n ∉ (ctx_cells c p ++ L).*1 ->
  focus (init_node s n par) c p ((n, mk_node par None None 0) :: L).
Proof.
  intros [[Hn H] R] Hi. split; [|done]. eapply holds_perm; [apply Permutation_middle|]. split.
  - rewrite fmap_cons. by apply list.NoDup_cons.
  - intros i e. rewrite elem_of_cons. intros [[= -> ->]|Hj]; [apply lookup_insert_eq|]. cbn [init_node heap]. rewrite lookup_insert_ne; [by apply H|].
    intros ->. apply Hi. by apply (list_elem_of_fmap_2 fst _ (i, e)).
Qed.

Lemma insert_at_ok tf (Htf : transforms_alike tf) s f c n : rep s (plug (f :: c) Leaf) -> avl (plug (f :: c) Leaf) -> n ∉ inord (plug (f :: c) Leaf) ->
  exists s1 s2 x', set_link s (fid f) (side f) (Some n) = Some s1 /\
    rebalance_with tf (fuel_of s1) (init_node s1 n (Some (fid f))) (fid f) (side f) 1 = Some s2 /\
    _BAVL_rebalance (fuel_of s1) (init_node s1 n (Some (fid f))) (fid f) (side f) 1 = Some s2 /\
    rep s2 x' /\ avl x' /\ inord x' = lft (f :: c) ++ n :: rgt (f :: c).
Proof.
  intros R Ax Hn. destruct f as [d i b far]. cbn [side fid].
  assert (focus s c (Some i) (cells (top c) (branch d Leaf i b far))) as F.
  { apply (focus_plug s c (branch d Leaf i b far)) in R. by rewrite rootp_branch in R. }
  cbn [plug side fid fbal sib] in *. apply (focus_perm _ _ _ _ _ (branch_cells _ _ _ _ _ _)) in F. cbn [rootp cells app] in F.
  destruct (focus_update s c (Some i) i _ (fun e => node_with_link e d (Some n)) _ _ F (pull_singleton _ _)) as (s1 & R1 & F1).
  exists s1. unfold set_link. rewrite R1. pose proof (focus_depth _ _ _ _ F1) as Hd.
  apply (focus_init _ _ _ _ n (Some i)) in F1.
  2:{ rewrite <- (focus_keys c (Some i)), branch_cells in Hn. by rewrite !fmap_app, !fmap_cons in *. }
  apply avl_plug in Ax as [Ab Hc]. apply avl_branch in Ab as (_ & Af & Eb & Rb). rewrite height_branch in Hc.
  destruct (rebalance_with_ok tf Htf (fuel_of s1) c (init_node s1 n (Some i)) d (Node Leaf n 0 Leaf) i b far 1) as (s2 & x' & R3 & R4 & R2 & A2 & E2); try done.
  - eapply focus_perm; [|exact F1]. rewrite branch_cells. cbn [rootp cells app]. unfold node_with_link, links. destruct d; apply perm_swap.
  - rewrite Eb. destruct d; cbn [sgn height]; lia.
  - exists s2, x'. split_and!; try done. rewrite E2. change (plug c (branch d ?x i b far)) with (plug (Frame d i b far :: c) x). by rewrite inord_plug_split.
Qed.

(** ** Order *)

(** What the tree requires of its comparator, on the values [ok]. *)
Class Comparator {V} (ok : V -> Prop) (comparator : V -> V -> Z) : Prop := {
  cmp_range : forall a b, ok a -> ok b -> comparator a b = -1 \/ comparator a b = 0 \/ comparator a b = 1;
  cmp_opp : forall a b, ok a -> ok b -> comparator b a = - comparator a b;
  cmp_trans : forall a b c, ok a -> ok b -> ok c -> comparator a b <= 0 -> comparator b c <= 0 -> comparator a c <= 0;
}.

Section Ordered.
Context {V : Type} (ok : V -> Prop) (comparator : V -> V -> Z) `{HC : !Comparator ok comparator} (value : ptr -> option V).

Lemma cmp_lt_trans a b c : ok a -> ok b -> ok c -> comparator a b = -1 -> comparator b c = -1 -> comparator a c = -1.
Proof.
  intros Ha Hb Hc Hab Hbc. destruct (cmp_range a c Ha Hc) as [E|E]; [done|]. exfalso.
  assert (comparator c a <= 0) by (rewrite (cmp_opp a c) by done; lia).
  assert (comparator c b <= 0) as E' by (apply (cmp_trans c a b); done || lia). rewrite (cmp_opp b c) in E' by done. lia.
Qed.

(** The nodes of [l] have values, in strictly increasing order. *)
Definition before (i j : ptr) : Prop := exists v w, value i = Some v /\ value j = Some w /\ comparator v w = -1.
Definition valued (i : ptr) : Prop := exists v, value i = Some v /\ ok v.
Definition sorted (l : list ptr) : Prop := Forall valued l /\ StronglySorted before l.

Definition less (v : V) (j : ptr) : Prop := exists w, value j = Some w /\ ok w /\ comparator w v = -1.
Definition greater (v : V) (j : ptr) : Prop := exists w, value j = Some w /\ ok w /\ comparator v w = -1.

Lemma compare_values_ok v w : ok v -> ok w -> _BAVL_compare_values comparator v w = Some (comparator v w).
Proof.
  intros Hv Hw. unfold _BAVL_compare_values. destruct (cmp_range v w Hv Hw) as [-> |[-> | ->]]; done.
Qed.

(** The path from a subtree at the path [c] to the value [v] or to the place where it belongs. *)
Fixpoint walk (v : V) (c : list frame) (x : tree) : list frame * tree :=
  match x with
  | Leaf => (c, Leaf)
  | Node l i b r =>
      match value i with
      | Some w =>
          if comparator v w =? 0 then (c, x)
          else if comparator v w =? 1 then walk v (Frame true i b l :: c) r else walk v (Frame false i b r :: c) l
      | None => (c, x)
      end
  end.

Lemma walk_plug v x : forall c, plug (walk v c x).1 (walk v c x).2 = plug c x.
Proof.
  induction x as [|l IHl i b r IHr]; intros c; cbn [walk]; [done|]. destruct (value i); [|done]. repeat case_if; [done|by rewrite IHr|by rewrite IHl].
Qed.

Lemma sorted_app l k : sorted (l ++ k) -> sorted l /\ sorted k.
Proof.
  intros [Hv Hs]. apply Forall_app in Hv as [Hl Hk]. split; (split; [done|]); [by eapply StronglySorted_app_1_l|by eapply StronglySorted_app_1_r].
Qed.

Lemma less_before v i w l : ok v -> value i = Some w -> ok w -> comparator w v = -1 -> sorted (l ++ [i]) -> Forall (less v) (l ++ [i]).
Proof.
  intros Hv Hi Hw Hc [Hvs Hs]. apply Forall_app in Hvs as [Hl _]. apply Forall_app. split; [|repeat constructor; by exists w].
  apply list.Forall_forall. intros j Hj. assert (before j i) as (a & a' & Ha & Ha' & Hb) by (apply (StronglySorted_app_1_elem_of _ _ _ _ _ Hs Hj); by left).
  rewrite list.Forall_forall in Hl. destruct (Hl j Hj) as (a2 & Ea & Hok).
  replace a2 with a in * by congruence. replace a' with w in * by congruence. exists a. split_and!; try done. by apply (cmp_lt_trans a w v).
Qed.

Lemma greater_after v i w l : ok v -> value i = Some w -> ok w -> comparator v w = -1 -> sorted (i :: l) -> Forall (greater v) (i :: l).
Proof.
  intros Hv Hi Hw Hc [Hvs Hs]. apply list.Forall_cons in Hvs as [_ Hl]. apply list.Forall_cons. split; [by exists w|].
  apply StronglySorted_cons in Hs as [Hs _]. rewrite list.Forall_forall in *. intros j Hj. destruct (Hs j Hj) as (a & a' & Ha & Ha' & Hb).
  destruct (Hl j Hj) as (a2 & Ea & Hok). replace a2 with a' in * by congruence. replace a with w in * by congruence. exists a'. split_and!; try done.
  by apply (cmp_lt_trans v w a').
Qed.

Lemma walk_ok v x : forall c, ok v -> sorted (inord (plug c x)) -> Forall (less v) (lft c) -> Forall (greater v) (rgt c) ->
  let '(c', y) := walk v c x in Forall (less v) (lft c') /\ Forall (greater v) (rgt c') /\
    match y with Leaf => True | Node _ j _ _ => exists w, value j = Some w /\ comparator v w = 0 end.
Proof.
  induction x as [|l IHl i b r IHr]; intros c Hv Hs Hl Hr; cbn [walk]; [done|].
  pose proof Hs as Hs'. rewrite inord_plug_split in Hs'. apply sorted_app in Hs' as [_ Hs']. apply sorted_app in Hs' as [Hs' _]. cbn [inord] in Hs'.
  assert (sorted (inord l ++ [i]) /\ sorted (i :: inord r)) as [Hsl Hsr].
  { split; [|by apply sorted_app in Hs' as [_ ?]]. rewrite cons_middle, app_assoc in Hs'. by apply sorted_app in Hs' as [? _]. }
  assert (valued i) as (w & Hi & Hw) by (destruct Hsr as [Hsr _]; by apply list.Forall_cons in Hsr as [? _]).
  rewrite Hi. destruct (cmp_range v w Hv Hw) as [E|[E|E]]; rewrite E; cbn [Z.eqb].
  - apply IHl; [done|done| |]; cbn [lft rgt side]; [by rewrite app_nil_r|]. apply Forall_app. split; [|done]. by apply (greater_after v i w).
  - split_and!; try done. by exists w.
  - apply IHr; [done|done| |done]. cbn [lft side fid sib]. apply Forall_app. split; [done|]. apply (less_before v i w); try done.
    rewrite (cmp_opp v w) by done. lia.
Qed.

(** The three search loops follow [walk]. *)
Definition found (p : list frame * tree) : ptr + list frame := match p with (c, Leaf) => inr c | (_, Node _ j _ _) => inl j end.

Lemma found_leaf v c x i b d far : rootp x = None -> found (walk v (Frame d i b far :: c) x) = inr (Frame d i b far :: c).
Proof. by destruct x. Qed.

(** One comparison: stop at an equal node, or go on at the side the comparison tells. *)
Lemma walk_cases s c l i b r v : ok v -> focus s c (Some i) (cells (top c) (Node l i b r)) -> Forall valued (inord (Node l i b r)) ->
  exists w, value i = Some w /\ ok w /\ heap s !! i = Some (mk_node (top c) (rootp l) (rootp r) b) /\
    ((comparator v w = 0 /\ walk v c (Node l i b r) = (c, Node l i b r)) \/
     exists d near far, branch d near i b far = Node l i b r /\ comparator v w <> 0 /\ (comparator v w =? 1) = d /\
       link (mk_node (top c) (rootp l) (rootp r) b) d = rootp near /\ walk v c (Node l i b r) = walk v (Frame d i b far :: c) near /\
       Forall valued (inord near) /\ height near < height (Node l i b r) /\
       focus s (Frame d i b far :: c) (rootp near) (cells (Some i) near)).
Proof.
  intros Hv F Hvs. cbn [inord] in Hvs. apply Forall_app in Hvs as [Hl Hr]. apply list.Forall_cons in Hr as [(w & Hi & Hw) Hr].
  exists w. split_and!; [done|done|by apply focus_root|]. cbn [walk height]. rewrite Hi.
  destruct (cmp_range v w Hv Hw) as [E|[E|E]]; rewrite E; cbn [Z.eqb].
  - right. exists false, l, r. split_and!; try done; [lia|]. by apply (focus_child s c false).
  - by left.
  - right. exists true, r, l. split_and!; try done; [lia|]. by apply (focus_child s c true).
Qed.

Ltac search_step IH x F Hi Hvs Hf :=
  let w := fresh "w" in let Hw := fresh "Hw" in let Okw := fresh "Okw" in let Hh := fresh "Hh" in
  destruct x as [|l j b r]; [done|]; injection Hi as ->;
  destruct (walk_cases _ _ _ _ _ _ _ ltac:(eassumption) F Hvs) as (w & Hw & Okw & Hh & [[E W]|(d & near & far & B & E & Ed & El & W & Hvn & Hln & Fn)]);
  rewrite W; unfold _BAVL_compare_nodes, _BAVL_node_value.

Lemma lookup_exact_ok v fuel : forall s c x i, ok v -> focus s c (Some i) (cells (top c) x) -> rootp x = Some i -> Forall valued (inord x) ->
  height x <= Z.of_nat fuel ->
  lookup_exact_loop comparator value fuel s v i = Some (match found (walk v c x) with inl j => Some j | inr _ => None end).
Proof.
  induction fuel as [|fuel IH]; intros s c x i Hv F Hi Hvs Hf.
  { destruct x as [|l j b r]; [done|]. pose proof (height_nonneg l). cbn [height] in Hf. lia. }
  search_step IH x F Hi Hvs Hf; cbn [lookup_exact_loop]; unfold _BAVL_node_value; run Hw; run (compare_values_ok v w Hv Okw).
  - by rewrite E.
  - rewrite (proj2 (Z.eqb_neq _ _) E). run Hh. rewrite Ed, El. destruct (rootp near) as [k|] eqn:Hn.
    + apply IH; try done. lia.
    + by rewrite found_leaf.
Qed.

Lemma lookup_ok v fuel : forall s c x i, ok v -> focus s c (Some i) (cells (top c) x) -> rootp x = Some i -> Forall valued (inord x) ->
  height x <= Z.of_nat fuel ->
  lookup_loop comparator value fuel s v i = match found (walk v c x) with inl j => Some j | inr c' => top c' end.
Proof.
  induction fuel as [|fuel IH]; intros s c x i Hv F Hi Hvs Hf.
  { destruct x as [|l j b r]; [done|]. pose proof (height_nonneg l). cbn [height] in Hf. lia. }
  search_step IH x F Hi Hvs Hf; cbn [lookup_loop]; unfold _BAVL_node_value; run Hw; run (compare_values_ok v w Hv Okw).
  - by rewrite E.
  - rewrite (proj2 (Z.eqb_neq _ _) E). run Hh. rewrite Ed, El. destruct (rootp near) as [k|] eqn:Hn.
    + apply IH; try done. lia.
    + by rewrite found_leaf.
Qed.

Lemma insert_search_ok v n fuel : forall s c x i, value n = Some v -> ok v -> focus s c (Some i) (cells (top c) x) -> rootp x = Some i ->
  Forall valued (inord x) -> height x <= Z.of_nat fuel ->
  insert_search comparator value fuel s n i =
    match found (walk v c x) with inl j => Some (inl j) | inr (f :: _) => Some (inr (fid f, side f)) | inr [] => None end.
Proof.
  induction fuel as [|fuel IH]; intros s c x i Hnv Hv F Hi Hvs Hf.
  { destruct x as [|l j b r]; [done|]. pose proof (height_nonneg l). cbn [height] in Hf. lia. }
  search_step IH x F Hi Hvs Hf; cbn [insert_search]; unfold _BAVL_compare_nodes, _BAVL_node_value; rewrite Hnv; cbn [mbind option_bind]; run Hw;
    run (compare_values_ok v w Hv Okw).
  - by rewrite E.
  - rewrite (proj2 (Z.eqb_neq _ _) E). run Hh. rewrite Ed, El. destruct (rootp near) as [k|] eqn:Hn.
    + apply IH; try done. lia.
    + by rewrite found_leaf.
Qed.

(** ** The tree as a sorted list *)

(** The heap holds an AVL tree whose nodes are those of [l], in this order. *)
Definition tree_of (s : t) (l : list ptr) : Prop := exists x, rep s x /\ avl x /\ inord x = l.

(** Reference: insertion into a list by comparison with its elements from the start. *)
Fixpoint list_insert (v : V) (n : ptr) (l : list ptr) : list ptr :=
  match l with
  | [] => [n]
  | j :: l' => match value j with
      | Some w => if comparator v w =? -1 then n :: l else j :: list_insert v n l'
      | None => l
      end
  end.
Definition equal_to (v : V) (j : ptr) : bool := match value j with Some w => comparator v w =? 0 | None => false end.

Lemma list_insert_split v n A B : ok v -> Forall (less v) A -> Forall (greater v) B -> list_insert v n (A ++ B) = A ++ n :: B.
Proof.
  intros Hv HA HB. induction HA as [|j A (w & Hj & Hw & Hc) HA IH]; cbn [app list_insert].
  - destruct HB as [|j B (w & Hj & Hw & Hc) HB]; cbn [list_insert]; [done|]. by rewrite Hj, Hc.
  - rewrite Hj, (cmp_opp w v), Hc by done. cbn [Z.opp Z.eqb]. by rewrite IH.
Qed.

Lemma find_split v A B : ok v -> Forall (less v) A -> Forall (greater v) B -> find (equal_to v) (A ++ B) = None.
Proof.
  intros Hv HA HB. induction HA as [|j A (w & Hj & Hw & Hc) HA IH]; cbn [app find].
  - induction HB as [|j B (w & Hj & Hw & Hc) HB IH]; cbn [find]; [done|]. unfold equal_to at 1. by rewrite Hj, Hc.
  - unfold equal_to at 1. by rewrite Hj, (cmp_opp w v), Hc by done.
Qed.

Lemma sorted_insert v n A B : value n = Some v -> ok v -> Forall (less v) A -> Forall (greater v) B -> sorted (A ++ B) -> sorted (A ++ n :: B).
Proof.
  intros Hn Hv HA HB [Hvs Hs]. apply Forall_app in Hvs as [HvA HvB]. split.
  - apply Forall_app. split; [done|]. constructor; [by exists v|done].
  - induction HA as [|j A (w & Hj & Hw & Hc) HA IH]; cbn [app] in *.
    + apply StronglySorted_cons. split; [|done]. eapply list.Forall_impl; [exact HB|]. intros j (w & Hj & _ & Hc). by exists v, w.
    + apply StronglySorted_cons in Hs as [Hj' Hs]. apply list.Forall_cons in HvA as [_ HvA]. apply StronglySorted_cons. split; [|by apply IH].
      apply Forall_app in Hj' as [H1 H2]. apply Forall_app. split; [done|]. constructor; [by exists w, v|done].
Qed.

(** The node with an equal value is unique. *)
Lemma find_equal v w j A B : ok v -> sorted (A ++ j :: B) -> value j = Some w -> comparator v w = 0 -> find (equal_to v) (A ++ j :: B) = Some j.
Proof.
  intros Hv Hs Hj Hc. induction A as [|k A IH]; cbn [app find].
  - unfold equal_to at 1. by rewrite Hj, Hc.
  - destruct Hs as [Hvs Hs]. cbn [app] in *. apply list.Forall_cons in Hvs as [(u & Hk & Hu) Hvs]. apply StronglySorted_cons in Hs as [Hb Hs].
    unfold equal_to at 1. rewrite Hk. destruct (Z.eqb_spec (comparator v u) 0) as [E|E]; [|apply IH; by split].
    exfalso. rewrite list.Forall_forall in Hb. destruct (Hb j) as (u' & w' & Eu & Ew & Hlt); [apply elem_of_app; right; by left|].
    apply Forall_app in Hvs as [_ Hvs]. apply list.Forall_cons in Hvs as [(w2 & Ew2 & Hw) _].
    replace u' with u in * by congruence. replace w' with w in * by congruence. replace w2 with w in * by congruence.
    assert (comparator w u <= 0) as E' by (apply (cmp_trans w v u); try done; [rewrite (cmp_opp v w) by done|]; lia).
    rewrite (cmp_opp u w) in E' by done. lia.
Qed.

(** What the walk from the root finds. *)
Lemma walk_root v s l x : ok v -> rep s x -> avl x -> inord x = l -> sorted l ->
  match found (walk v [] x) with
  | inl j => find (equal_to v) l = Some j
  | inr c => x = plug c Leaf /\ l = lft c ++ rgt c /\ Forall (less v) (lft c) /\ Forall (greater v) (rgt c)
  end.
Proof.
  intros Hv R Ax E Hs. subst l. pose proof (walk_ok v x [] Hv Hs (Forall_nil_2 _) (Forall_nil_2 _)) as H. pose proof (walk_plug v x []) as P.
  destruct (walk v [] x) as [c [|ll j b r]]; cbn [fst snd plug found] in *.
  - split; [done|]. split; [|tauto]. rewrite <- P, inord_plug_split. done.
  - destruct H as (_ & _ & w & Hj & Hc). rewrite <- P, inord_plug_split in *. cbn [inord] in *. rewrite <- !app_assoc in *. cbn [app] in *.
    rewrite app_assoc in *. by apply (find_equal v w).
Qed.

(** What [*ref] is set to: the equal node, or a neighbour of the inserted node. *)
Definition ref_ok (v : V) (l : list ptr) (ref : option ptr) : Prop :=
  match find (equal_to v) l with
  | Some j => ref = Some j
  | None => exists A B, l = A ++ B /\ Forall (less v) A /\ Forall (greater v) B /\
      ((l = [] /\ ref = None) \/ (is_Some ref /\ (ref = list.last A \/ ref = head B)))
  end.

Lemma path_neighbour f c : Some (fid f) = list.last (lft (f :: c)) \/ Some (fid f) = head (rgt (f :: c)).
Proof. cbn [lft rgt]. destruct (side f); [left; by rewrite app_assoc, last_snoc|by right]. Qed.

(** The result of an insertion. *)
Definition insert_post (v : V) (n : ptr) (l : list ptr) (s s' : t) (res : bool) (ref : option ptr) : Prop :=
  ref_ok v l ref /\ res = negb (bool_decide (is_Some (find (equal_to v) l))) /\ (res = false -> s' = s) /\
  exists l', l' = (if res then list_insert v n l else l) /\ tree_of s' l' /\ sorted l'.

Lemma insert_ok s l n v : tree_of s l -> sorted l -> n ∉ l -> value n = Some v -> ok v ->
  exists s' res ref, BAVL_Insert comparator value s n = Some (s', res, ref) /\ insert_post v n l s s' res ref.
Proof.
  intros (x & R & Ax & E) Hs Hn Hv Okv. unfold BAVL_Insert. pose proof R as [_ Er]. cbn [root_of] in Er. rewrite Er.
  destruct (rootp x) as [i|] eqn:Hi.
  - assert (focus s [] (Some i) (cells None x)) as F by (unfold rep in R; by rewrite Hi in R).
    rewrite (insert_search_ok v n (fuel_of s) s [] x i Hv Okv F Hi); [|subst l; by destruct Hs|by apply (focus_height s [] (Some i) None)].
    pose proof (walk_root v s l x Okv R Ax E Hs) as W. destruct (found (walk v [] x)) as [j|[|f c]] eqn:Ef.
    + cbn [mbind option_bind]. do 3 eexists. split; [done|]. unfold insert_post, ref_ok. rewrite W. split_and!; try done. exists l. split_and!; try done. by exists x.
    + destruct W as (-> & _). done.
    + destruct W as (-> & El & HA & HB). cbn [mbind option_bind].
      destruct (insert_at_ok transform transform_alike s f c n R Ax) as (s1 & s2 & x' & R1 & _ & R2 & R' & A' & E'); [by rewrite E|]. run R1. run R2.
      do 3 eexists. split; [done|]. unfold insert_post, ref_ok. rewrite El, (find_split v) by done. split_and!; try done.
      * exists (lft (f :: c)), (rgt (f :: c)). split_and!; try done. right. split; [by eexists|]. apply path_neighbour.
      * rewrite (list_insert_split v) by done. exists (lft (f :: c) ++ n :: rgt (f :: c)). split; [done|]. split; [by exists x'|]. apply (sorted_insert v); try done. by rewrite <- El.
  - destruct x as [|? ? ? ?]; [|done]. simpl in E. subst l. do 3 eexists. split; [done|]. split_and!; try done.
    + exists [], []. split_and!; try done. by left.
    + exists [n]. split; [done|]. split.
      * exists (Node Leaf n 0 Leaf). split; [|by split_and!]. split; [|done]. split; [apply list.NoDup_singleton|].
        intros j e [[= -> ->]|Hj]%elem_of_cons; [apply lookup_insert_eq|]. by apply not_elem_of_nil in Hj.
      * apply (sorted_insert v n [] []); try done.
Qed.

Lemma remove_list_ok s l n : tree_of s l -> sorted l -> n ∈ l -> exists s', BAVL_Remove s n = Some s' /\ tree_of s' (without n l) /\ sorted (without n l).
Proof.
  intros (x & R & Ax & E) [Hv Hs] Hn. apply list_elem_of_split in Hn as (A & B & El). pose proof (rep_nodup _ _ R) as Hd. rewrite E, El in *.
  destruct (tree_remove_ok s x A n B R Ax) as (s' & x' & -> & R' & A' & E'); [done|].
  assert (without n (A ++ n :: B) = A ++ B) as ->.
  { apply list.NoDup_app in Hd as (_ & H1 & H2). apply list.NoDup_cons in H2 as [H2 _]. rewrite without_app, without_cons_eq, !without_id; [done|done|].
    intros H. apply (H1 n H). by left. }
  exists s'. split; [done|]. split; [by exists x'|]. split.
  - apply Forall_app in Hv as [? Hv]. apply list.Forall_cons in Hv as [_ ?]. by apply Forall_app.
  - clear -Hs. induction A as [|a A IH]; cbn [app] in *; apply StronglySorted_cons in Hs as [Hf Hs]; [done|]. apply StronglySorted_cons. split; [|by apply IH].
    apply Forall_app in Hf as [? Hf]. apply list.Forall_cons in Hf as [_ ?]. by apply Forall_app.
Qed.

(** ** Verification and height *)
Lemma rootp_inord x i : rootp x = Some i -> i ∈ inord x.
Proof. intros H%(rootp_cells None). by rewrite cells_keys in H. Qed.

Lemma compare_nodes_before i j : valued i -> valued j -> before i j ->
  _BAVL_compare_nodes comparator value i j = Some (-1) /\ _BAVL_compare_nodes comparator value j i = Some 1.
Proof.
  intros (v & Hi & Hv) (w & Hj & Hw) (v' & w' & Ev & Ew & Hc). replace v' with v in * by congruence. replace w' with w in * by congruence.
  unfold _BAVL_compare_nodes, _BAVL_node_value. rewrite Hi, Hj. cbn [mbind option_bind]. rewrite !compare_values_ok by done.
  pose proof (cmp_opp v w Hv Hw) as Eo. by rewrite Eo, Hc.
Qed.

Lemma sorted_node l i r : sorted (l ++ i :: r) -> sorted l /\ sorted r /\ valued i /\ (forall j, j ∈ l -> valued j /\ before j i) /\ (forall j, j ∈ r -> valued j /\ before i j).
Proof.
  intros H. pose proof H as (Hl & Hr)%sorted_app. rewrite (cons_middle i l r) in H. pose proof Hr as ([Hi _] & Hr')%(sorted_app [i]).
  apply list.Forall_cons in Hi as [Hi _]. destruct H as [_ Hs]. destruct Hl as [Hvl Hsl], Hr' as [Hvr Hsr]. rewrite list.Forall_forall in Hvl, Hvr.
  split; [by split; [apply list.Forall_forall|]|]. split; [by split; [apply list.Forall_forall|]|]. split; [done|].
  split; intros j Hj; (split; [by auto|]).
  - apply (StronglySorted_app_1_elem_of _ l ([i] ++ r)); [done|done|]. by left.
  - apply StronglySorted_app_1_r in Hs. apply (StronglySorted_app_1_elem_of _ [i] r); [done|by left|done].
Qed.

Lemma verify_ok x : forall fuel s c i, focus s c (Some i) (cells (top c) x) -> rootp x = Some i -> avl x -> sorted (inord x) ->
  (length (inord x) <= fuel)%nat -> _BAVL_assert_recurser comparator value fuel s i = Some (height x).
Proof.
  induction x as [|l IHl i b r IHr]; intros fuel s c i' F Hi Ax Hs Hf; [done|]. injection Hi as <-.
  cbn [inord] in *. rewrite length_app in Hf. cbn [length] in Hf. destruct fuel as [|fuel]; [lia|]. cbn [_BAVL_assert_recurser].
  run (focus_root _ _ _ _ _ _ F). cbn [link0 link1 balance]. destruct Ax as (Al & Ar & Eb & Rb). do 2 bool_true.
  destruct (sorted_node _ _ _ Hs) as (Hsl & Hsr & Hvi & Hbl & Hbr).
  assert (match rootp l with
    | Some l0 => el ← heap s !! l0; ASSERT bool_decide (parent el = Some i);
        comp ← _BAVL_compare_nodes comparator value l0 i; ASSERT comp =? -1; _BAVL_assert_recurser comparator value fuel s l0
    | None => Some 0 end = Some (height l)) as ->.
  { destruct l as [|ll j lb lr]; cbn [rootp]; [done|]. apply (focus_child s c false) in F. run (focus_root _ (Frame false i b r :: c) _ _ _ _ F).
    cbn [parent]. rewrite bool_decide_true by done. destruct (Hbl j) as [Hvj Hb]; [by apply rootp_inord|].
    destruct (compare_nodes_before j i Hvj Hvi Hb) as [-> _]. cbn [mbind option_bind Z.eqb]. eapply IHl; [exact F|done..|lia]. }
  cbn [mbind option_bind].
  assert (match rootp r with
    | Some r0 => er ← heap s !! r0; ASSERT bool_decide (parent er = Some i);
        comp ← _BAVL_compare_nodes comparator value r0 i; ASSERT comp =? 1; _BAVL_assert_recurser comparator value fuel s r0
    | None => Some 0 end = Some (height r)) as ->.
  { destruct r as [|rl j rb rr]; cbn [rootp]; [done|]. apply (focus_child s c true) in F. run (focus_root _ (Frame true i b l :: c) _ _ _ _ F).
    cbn [parent]. rewrite bool_decide_true by done. destruct (Hbr j) as [Hvj Hb]; [by apply rootp_inord|].
    destruct (compare_nodes_before i j Hvi Hvj Hb) as [_ ->]. cbn [mbind option_bind Z.eqb]. eapply IHr; [exact F|done..|lia]. }
  cbn [mbind option_bind]. bool_true. f_equal. unfold BAVL_MAX. cbn [height]. case_if; lia.
Qed.

Lemma Verify_ok s x : rep s x -> avl x -> sorted (inord x) -> BAVL_Verify comparator value s = Some (height x).
Proof.
  intros R Ax Hs. unfold BAVL_Verify. pose proof R as [_ ->]. cbn [root_of]. destruct x as [|l i b r]; cbn [rootp]; [done|].
  unfold rep in R. cbn [rootp] in R. run (focus_root _ [] _ _ _ _ R). cbn [parent]. rewrite bool_decide_true by done.
  eapply verify_ok; [exact R|done..|]. apply focus_count in R. lia.
Qed.

(** An AVL tree of height [h] has at least [2 ^ ((h + 1) / 2) - 1] nodes. *)
Lemma avl_size x : avl x -> 2 ^ ((height x + 1) / 2) <= zlen (inord x) + 1.
Proof.
  induction x as [|l IHl i b r IHr]; cbn [avl height inord]; [done|]. intros (Al & Ar & Eb & Rb). specialize (IHl Al). specialize (IHr Ar).
  rewrite zlen_app, zlen_cons. pose proof (height_nonneg l). pose proof (height_nonneg r).
  set (h := Z.max (height l) (height r)) in *.
  assert (2 ^ (h / 2) <= zlen (inord l) + 1 /\ 2 ^ (h / 2) <= zlen (inord r) + 1) as [].
  { split; (etrans; [|eassumption]); apply Z.pow_le_mono_r; try lia; apply Z.div_le_mono; lia. }
  replace (1 + h + 1) with (h + 1 * 2) by lia. rewrite Z.div_add, Z.pow_add_r by (try lia; apply Z.div_pos; lia). lia.
Qed.

(** ** Queries *)
Lemma lookup_exact_spec s l v : tree_of s l -> sorted l -> ok v -> BAVL_LookupExact comparator value s v = Some (find (equal_to v) l).
Proof.
  intros (x & R & Ax & E) Hs Hv. unfold BAVL_LookupExact. pose proof R as [_ ->]. cbn [root_of]. destruct (rootp x) as [i|] eqn:Hi.
  - assert (focus s [] (Some i) (cells None x)) as F by (unfold rep in R; by rewrite Hi in R).
    rewrite (lookup_exact_ok v (fuel_of s) s [] x i Hv F Hi); [|subst l; by destruct Hs|by apply (focus_height s [] (Some i) None)].
    pose proof (walk_root v s l x Hv R Ax E Hs) as W. destruct (found (walk v [] x)) as [j|c]; [by rewrite W|].
    destruct W as (_ & -> & HA & HB). by rewrite find_split.
  - destruct x; [|done]. by subst l.
Qed.

(** An equal node if there is one, else a neighbour of the value. *)
Lemma lookup_spec s l v : tree_of s l -> sorted l -> ok v -> exists r, BAVL_Lookup comparator value s v = Some r /\ ref_ok v l r.
Proof.
  intros (x & R & Ax & E) Hs Hv. unfold BAVL_Lookup, ref_ok. pose proof R as [_ ->]. cbn [root_of]. destruct (rootp x) as [i|] eqn:Hi.
  - assert (focus s [] (Some i) (cells None x)) as F by (unfold rep in R; by rewrite Hi in R).
    rewrite (lookup_ok v (fuel_of s) s [] x i Hv F Hi); [|subst l; by destruct Hs|by apply (focus_height s [] (Some i) None)].
    pose proof (walk_root v s l x Hv R Ax E Hs) as W. destruct (found (walk v [] x)) as [j|c]; [rewrite W; by eexists|].
    destruct W as (-> & -> & HA & HB). rewrite find_split by done. destruct c as [|f c]; [done|]. cbn [top_of mbind option_bind]. eexists. split; [done|].
    exists (lft (f :: c)), (rgt (f :: c)). split_and!; try done. right. split; [by eexists|]. apply path_neighbour.
  - destruct x; [|done]. subst l. eexists. split; [done|]. exists [], []. split_and!; try done. by left.
Qed.

Lemma ends_spec s l : tree_of s l -> BAVL_GetFirst s = Some (head l) /\ BAVL_GetLast s = Some (list.last l) /\ BAVL_IsEmpty s = bool_decide (l = []).
Proof.
  intros (x & R & Ax & <-). unfold BAVL_GetFirst, BAVL_GetLast, BAVL_IsEmpty. pose proof R as [_ ->]. cbn [root_of]. destruct (rootp x) as [i|] eqn:Hi.
  - assert (focus s [] (Some i) (cells None x)) as F by (unfold rep in R; by rewrite Hi in R).
    assert (length (inord x) <= fuel_of s)%nat as Hf by (apply focus_count in F; lia).
    rewrite (descend_end false _ s [] x i F Hi Hf), (descend_end true _ s [] x i F Hi Hf). cbn [end_of].
    apply rootp_inord in Hi. assert (inord x <> []) as Hne by (intros E; rewrite E in Hi; by apply not_elem_of_nil in Hi).
    rewrite (bool_decide_false _ Hne), bool_decide_false by done. destruct (inord x) as [|a l'] eqn:El; [done|]. cbn [head mbind option_bind].
    split_and!; try done. destruct (list.last (a :: l')) eqn:E; [done|]. by apply last_None in E.
  - by destruct x.
Qed.

Lemma next_spec s l A n B : tree_of s l -> l = A ++ n :: B -> BAVL_GetNext s n = Some (head B) /\ BAVL_GetPrev s n = Some (list.last A).
Proof.
  intros (x & R & Ax & E) El. destruct (rep_focus s x A n B R) as (c & ll & b & r & -> & F & -> & ->); [congruence|].
  unfold BAVL_GetNext, BAVL_GetPrev. rewrite (focus_root _ _ _ _ _ _ F). cbn [mbind option_bind link0 link1]. pose proof (focus_depth _ _ _ _ F) as Hd. split.
  - destruct (rootp r) as [j|] eqn:Hr.
    + apply (focus_child s c true) in F. rewrite Hr in F. rewrite (descend_end false _ _ _ r j F Hr) by (apply focus_count in F; lia).
      destruct (inord r) as [|a l'] eqn:Er; [apply rootp_inord in Hr; rewrite Er in Hr; by apply not_elem_of_nil in Hr|done].
    + destruct r; [|done]. by rewrite (ascend_ok true _ s c _ n F eq_refl Hd).
  - destruct (rootp ll) as [j|] eqn:Hl.
    + apply (focus_child s c false) in F. rewrite Hl in F. rewrite (descend_end true _ _ _ ll j F Hl) by (apply focus_count in F; lia).
      cbn [end_of]. rewrite last_app. destruct (list.last (inord ll)) eqn:El'; [done|]. apply last_None in El'. apply rootp_inord in Hl. rewrite El' in Hl. by apply not_elem_of_nil in Hl.
    + destruct ll; [|done]. rewrite (ascend_ok false _ s c _ n F eq_refl Hd). cbn [inord]. by rewrite app_nil_r.
Qed.

(** ** Sequences of operations *)
Inductive op := OInsert (n : ptr) | ORemove (n : ptr).

Definition exec (s : t) (o : op) : option (t * bool) :=
  match o with
  | OInsert n => '(s, res, _) ← BAVL_Insert comparator value s n; Some (s, res)
  | ORemove n => s ← BAVL_Remove s n; Some (s, true)
  end.
Fixpoint run (s : t) (ops : list op) : option (t * list bool) :=
  match ops with
  | [] => Some (s, [])
  | o :: ops => '(s, r) ← exec s o; '(s, rs) ← run s ops; Some (s, r :: rs)
  end.

(** Reference: the same operations on a list; inserting an equal value fails. *)
Definition spec_exec (l : list ptr) (o : op) : list ptr * bool :=
  match o with
  | OInsert n =>
      match value n with
      | Some v => if bool_decide (is_Some (find (equal_to v) l)) then (l, false) else (list_insert v n l, true)
      | None => (l, false)
      end
  | ORemove n => (without n l, true)
  end.
Fixpoint spec_run (l : list ptr) (ops : list op) : list ptr * list bool :=
  match ops with
  | [] => (l, [])
  | o :: ops => let '(l, r) := spec_exec l o in let '(l, rs) := spec_run l ops in (l, r :: rs)
  end.

(** A node that is inserted is not in the tree and has a value; one that is removed is. *)
Fixpoint allowed (l : list ptr) (ops : list op) : Prop :=
  match ops with
  | [] => True
  | o :: ops => match o with OInsert n => bool_decide (n ∈ l) = false /\ valued n | ORemove n => bool_decide (n ∈ l) = true end /\
      allowed (spec_exec l o).1 ops
  end.

Lemma tree_exec_ok s l o : tree_of s l -> sorted l -> (match o with OInsert n => bool_decide (n ∈ l) = false /\ valued n | ORemove n => bool_decide (n ∈ l) = true end) ->
  exists s', exec s o = Some (s', (spec_exec l o).2) /\ tree_of s' (spec_exec l o).1 /\ sorted (spec_exec l o).1.
Proof.
  intros T Hs. destruct o as [n|n]; cbn [exec spec_exec].
  - intros [Hn (v & Hv & Okv)]. apply bool_decide_eq_false in Hn. destruct (insert_ok s l n v T Hs Hn Hv Okv) as (s' & res & ref & -> & _ & Er & _ & l' & -> & T' & Hs').
    rewrite Hv. cbn [mbind option_bind]. exists s'. subst res. by destruct (bool_decide (is_Some (find (equal_to v) l))).
  - intros Hn. apply bool_decide_eq_true in Hn. destruct (remove_list_ok s l n T Hs Hn) as (s' & -> & T' & Hs'). by exists s'.
Qed.

Lemma run_ok ops : forall s l, tree_of s l -> sorted l -> allowed l ops ->
  exists s', run s ops = Some (s', (spec_run l ops).2) /\ tree_of s' (spec_run l ops).1 /\ sorted (spec_run l ops).1.
Proof.
  induction ops as [|o ops IH]; intros s l T Hs; cbn [allowed]; [intros _; by exists s|]. intros [Ho Ha].
  destruct (tree_exec_ok s l o T Hs Ho) as (s1 & E1 & T1 & S1). cbn [run spec_run]. rewrite E1. cbn [mbind option_bind].
  destruct (spec_exec l o) as [l1 r1]. cbn [fst snd] in *. destruct (IH s1 l1 T1 S1 Ha) as (s2 & E2 & T2 & S2). rewrite E2. cbn [mbind option_bind].
  destruct (spec_run l1 ops) as [l2 r2]. by exists s2.
Qed.

Lemma tree_init_ok s : tree_of (BAVL_Init s) [] /\ sorted [].
Proof.
  split; [|split; constructor]. exists Leaf. split; [|done]. split; [|done]. split; [apply NoDup_nil_2|]. intros i e H. by apply not_elem_of_nil in H.
Qed.

(** C5: the AVL tree implements a sorted list of nodes: after any sequence of insertions and
    removals, none of which fails on a pointer, an assertion or the depth of the recursion, the
    results are those of the same operations on a list kept in the order of the comparator, and
    so are those of the exact look-up, of the first and last node, of the emptiness test and of
    the steps to the next and previous node. *)
Theorem bavl_refines_sorted_list s0 ops : allowed [] ops ->
  let l := (spec_run [] ops).1 in
  exists s, run (BAVL_Init s0) ops = Some (s, (spec_run [] ops).2) /\ sorted l /\
    (forall v, ok v -> BAVL_LookupExact comparator value s v = Some (find (equal_to v) l)) /\
    BAVL_GetFirst s = Some (head l) /\ BAVL_GetLast s = Some (list.last l) /\ BAVL_IsEmpty s = bool_decide (l = []) /\
    forall A n B, l = A ++ n :: B -> BAVL_GetNext s n = Some (head B) /\ BAVL_GetPrev s n = Some (list.last A).
Proof.
  intros Ha. destruct (tree_init_ok s0) as [T0 S0]. destruct (run_ok ops _ _ T0 S0 Ha) as (s & E & T & S). exists s.
  destruct (ends_spec s _ T) as (H1 & H2 & H3). split_and!; try done; [by destruct S..| |].
  - intros v Hv. by apply lookup_exact_spec.
  - intros A n B El. by eapply next_spec.
Qed.

(** C38: the tree stays balanced: after any sequence of operations every check of [BAVL_Verify]
    passes, and the height [h] it computes is at most twice the binary logarithm of the number of
    nodes plus one; an exact look-up compares at most [h] values, since its loop gives the same
    answer on fuel [h]. *)
Theorem bavl_balanced s0 ops : allowed [] ops ->
  exists s h, option_map fst (run (BAVL_Init s0) ops) = Some s /\ BAVL_Verify comparator value s = Some h /\
    2 ^ ((h + 1) / 2) <= zlen (spec_run [] ops).1 + 1 /\
    forall v r, ok v -> root s = Some r ->
      lookup_exact_loop comparator value (Z.to_nat h) s v r = BAVL_LookupExact comparator value s v.
Proof.
  intros Ha. destruct (tree_init_ok s0) as [T0 S0]. destruct (run_ok ops _ _ T0 S0 Ha) as (s & E & T & S). pose proof T as (x & R & Ax & El).
  exists s, (height x). rewrite E. split; [done|]. split; [apply Verify_ok; [done|done|by rewrite El]|]. split; [rewrite <- El; by apply avl_size|].
  intros v r Hv Hr. rewrite (lookup_exact_spec s _ v T S Hv). pose proof R as [_ Er]. cbn [root_of] in Er. rewrite Hr in Er. symmetry in Er.
  assert (focus s [] (Some r) (cells None x)) as F by (unfold rep in R; by rewrite Er in R).
  rewrite (lookup_exact_ok v _ s [] x r Hv F Er); [|rewrite El; by destruct S|pose proof (height_nonneg x); lia].
  pose proof (walk_root v s _ x Hv R Ax El S) as W. destruct (found (walk v [] x)) as [j|c]; [by rewrite W|]. destruct W as (_ & -> & HA & HB). by rewrite find_split.
Qed.

(** [BAVL_Lookup], and [BAVL_Insert] in [*ref], give the node with an equal value when there is
    one and then the tree is unchanged; otherwise, unless the tree is empty, the greatest node
    below the value or the smallest above it. *)
Theorem bavl_neighbour s0 ops : allowed [] ops ->
  let l := (spec_run [] ops).1 in
  exists s, option_map fst (run (BAVL_Init s0) ops) = Some s /\
    (forall v, ok v -> exists r, BAVL_Lookup comparator value s v = Some r /\ ref_ok v l r) /\
    forall n v, n ∉ l -> value n = Some v -> ok v ->
      exists s' res ref, BAVL_Insert comparator value s n = Some (s', res, ref) /\ ref_ok v l ref /\ (res = false -> s' = s).
Proof.
  intros Ha. destruct (tree_init_ok s0) as [T0 S0]. destruct (run_ok ops _ _ T0 S0 Ha) as (s & E & T & S). exists s. rewrite E. split; [done|].
  split; [intros v Hv; by apply lookup_spec|]. intros n v Hn Hv Okv.
  destruct (insert_ok s _ n v T S Hn Hv Okv) as (s' & res & ref & Ei & Hr & _ & Hf & _). by exists s', res, ref.
Qed.

End Ordered.

(** The order depends on the values of the nodes in the list only. *)
Lemma sorted_ext {V} (ok : V -> Prop) (comparator : V -> V -> Z) (k k' : ptr -> option V) l :
  (forall i, i ∈ l -> k' i = k i) -> sorted ok comparator k l -> sorted ok comparator k' l.
Proof.
  intros H [Hv Hs]. rewrite list.Forall_forall in Hv. split.
  - apply list.Forall_forall. intros i Hi. destruct (Hv i Hi) as (v & E & Hok). exists v. by rewrite H.
  - clear Hv. induction l as [|j l IH]; [constructor|]. apply StronglySorted_cons in Hs as [Hj Hs]. apply StronglySorted_cons. split.
    + rewrite list.Forall_forall in *. intros i Hi. destruct (Hj i Hi) as (v & w & Ev & Ew & Hc). exists v, w. rewrite !H; [done|by right|by left].
    + apply IH; [|done]. intros i Hi. apply H. by right.
Qed.

(** ** Integers as values *)
Definition Z_comparator (a b : Z) : Z := if a <? b then -1 else if a =? b then 0 else 1.

#[export] Instance Z_comparator_ok : Comparator (fun _ : Z => True) Z_comparator.
Proof. split; unfold Z_comparator; [intros a b _ _|intros a b _ _|intros a b c _ _ _]; repeat case_if; lia. Qed.

(** Nine insertions, the last of an equal value, then the removal of a node with two subtrees. *)
Definition demo_value (n : ptr) : option Z := Some ((Z.pos n * 5) mod 8).
Definition demo_ops : list op := [OInsert 1; OInsert 2; OInsert 3; OInsert 4; OInsert 5; OInsert 6; OInsert 7; OInsert 8; OInsert 9; ORemove 4]%positive.

Ltac demo_allowed := repeat split; try reflexivity; eexists; (split; [reflexivity|exact I]).

Lemma bavl_refines_sorted_list_witness :
  spec_run Z_comparator demo_value [] demo_ops = ([8; 5; 2; 7; 1; 6; 3]%positive, [true; true; true; true; true; true; true; true; false; true]) /\
  exists s, option_map snd (run Z_comparator demo_value (BAVL_Init (mk ∅ None)) demo_ops) = Some (spec_run Z_comparator demo_value [] demo_ops).2 /\
    BAVL_GetNext s 2%positive = Some (Some 7%positive).
Proof.
  split; [vm_compute; reflexivity|].
  destruct (bavl_refines_sorted_list (fun _ : Z => True) Z_comparator demo_value (mk ∅ None) demo_ops) as (s & E & _ & _ & _ & _ & _ & H); [demo_allowed|].
  exists s. rewrite E. split; [reflexivity|]. apply (H [8; 5]%positive 2%positive [7; 1; 6; 3]%positive). vm_compute. reflexivity.
Defined.

Lemma bavl_balanced_witness : exists s h, option_map fst (run Z_comparator demo_value (BAVL_Init (mk ∅ None)) demo_ops) = Some s /\
  BAVL_Verify Z_comparator demo_value s = Some h /\ 2 ^ ((h + 1) / 2) <= 8.
Proof.
  destruct (bavl_balanced (fun _ : Z => True) Z_comparator demo_value (mk ∅ None) demo_ops) as (s & h & E & V & B & _); [demo_allowed|].
  exists s, h. split; [exact E|]. split; [exact V|]. exact B.
Defined.

Lemma bavl_neighbour_witness : exists s r, option_map fst (run Z_comparator demo_value (BAVL_Init (mk ∅ None)) demo_ops) = Some s /\
  BAVL_Lookup Z_comparator demo_value s 4 = Some r /\ ref_ok (fun _ : Z => True) Z_comparator demo_value 4 [8; 5; 2; 7; 1; 6; 3]%positive r.
Proof.
  destruct (bavl_neighbour (fun _ : Z => True) Z_comparator demo_value (mk ∅ None) demo_ops) as (s & E & H & _); [demo_allowed|].
  destruct (H 4 I) as (r & L & Hr). exists s, r. split; [exact E|]. split; [exact L|exact Hr].
Defined.

(** ** Addresses as values: the tree of the relay client *)
#[export] Instance CompareOrder_comparator : Comparator addr_ok BAddr_CompareOrder.
Proof.
  split.
  - intros a b Ha Hb. rewrite CompareOrder_lex by done. destruct (lex _ _); simpl; lia.
  - intros a b Ha Hb. rewrite !CompareOrder_lex, lex_antisym by done. by destruct (lex _ _).
  - intros a b c Ha Hb Hc. rewrite !CompareOrder_lex by done.
    destruct (lex (addr_key a) (addr_key b)) eqn:E1; [apply lex_eq in E1 as ->; done| |done].
    destruct (lex (addr_key b) (addr_key c)) eqn:E2; [apply lex_eq in E2 as <-; by rewrite E1| |done].
    by rewrite (lex_trans _ _ _ E1 E2).
Qed.

(** ** The tree implements [KeyTree] *)
Section Keyed.
Context {V : Type} (ok : V -> Prop) (cmp : V -> V -> Z) `{HC : !Comparator ok cmp}.

Definition key_insert (k : ptr -> option V) (s : t) (i : ptr) : option t :=
  '(s, res, _) ← BAVL_Insert cmp k s i; ASSERT res; Some s.
Definition key_rep (k : ptr -> option V) (s : t) (S : gset ptr) : Prop :=
  exists l, tree_of s l /\ sorted ok cmp k l /\ forall i, i ∈ l <-> i ∈ S.

Lemma key_insert_ok k s S i a : key_rep k s S -> i ∉ S -> k i = Some a -> ok a ->
  (forall j b, j ∈ S -> k j = Some b -> cmp a b <> 0) ->
  exists s', key_insert k s i = Some s' /\ key_rep k s' ({[i]} ∪ S).
Proof.
  intros (l & T & Hs & Hl) Hi Hk Ha Hne. rewrite <- Hl in Hi.
  destruct (insert_ok ok _ k s l i a T Hs Hi Hk Ha) as (s' & res & ref & E & _ & Er & _ & l' & El & T' & Hs').
  assert (find (equal_to cmp k a) l = None) as Ef.
  { destruct (find _ l) as [j|] eqn:Ef; [|done]. apply find_some in Ef as [Hj Ef]. apply list_elem_of_In, Hl in Hj. unfold equal_to in Ef.
    destruct (k j) as [b|] eqn:Hb; [|done]. apply Z.eqb_eq in Ef. by destruct (Hne j b Hj Hb). }
  rewrite Ef in Er. simpl in Er. subst res. unfold key_insert. rewrite E. exists s'. split; [done|]. exists l'. split_and!; try done; [by destruct Hs'..|].
  intros j. subst l'. rewrite elem_of_union, elem_of_singleton, <- Hl.
  destruct T as (x & R & Ax & Ex). pose proof (walk_root ok _ k a s l x Ha R Ax Ex Hs) as W. destruct (found _) as [n|c]; [by rewrite Ef in W|].
  destruct W as (_ & -> & HA & HB). rewrite (list_insert_split ok cmp k a i _ _ Ha HA HB). rewrite elem_of_app, elem_of_cons, elem_of_app. tauto.
Qed.

#[export] Instance bavl_tree : KeyTree ok cmp t.
Proof.
  refine {|
    tr_rep := key_rep;
    tr_init := BAVL_Init (mk ∅ None);
    tr_insert := key_insert;
    tr_remove := BAVL_Remove;
    tr_lookup := fun k s a => default None (BAVL_LookupExact cmp k s a);
  |}.
  - intros k k' s S (l & T & Hs & Hl) Hk. exists l. split; [done|]. split; [|done]. eapply sorted_ext; [|exact Hs]. intros i Hi. apply Hk. by apply Hl.
  - intros k. exists []. destruct (tree_init_ok ok cmp k (mk ∅ None)) as [T Hs]. split; [done|]. split; [done|].
    intros i. split; intros H; [by apply not_elem_of_nil in H|by apply not_elem_of_empty in H].
  - intros k s S i a R _ Hi Hk Ha Hne. by apply (key_insert_ok k s S i a).
  - intros k s S i (l & T & Hs & Hl) _ Hi. apply Hl in Hi. destruct (remove_list_ok ok _ k s l i T Hs Hi) as (s' & E & T' & Hs').
    exists s'. split; [done|]. exists (without i l). split; [exact T'|]. split; [exact Hs'|].
    intros j. rewrite elem_of_without, elem_of_difference, elem_of_singleton, Hl. tauto.
  - intros k s S a i (l & T & Hs & Hl) _ Ha. rewrite (lookup_exact_spec ok _ k s l a T Hs Ha). cbn [default from_option]. intros [Hi Ef]%find_some.
    apply list_elem_of_In, Hl in Hi. split; [done|]. unfold equal_to in Ef. destruct (k i) as [b|]; [|done]. exists b. split; [done|]. by apply Z.eqb_eq.
  - intros k s S a i b (l & T & Hs & Hl) _ Ha. rewrite (lookup_exact_spec ok _ k s l a T Hs Ha). cbn [default from_option]. intros Ef Hi Hk E.
    apply Hl, list_elem_of_In in Hi. pose proof (find_none _ _ Ef i Hi) as H. unfold equal_to in H. rewrite Hk in H. by apply Z.eqb_neq in H.
Defined.
End Keyed.

End BAVLSpec.
