(* ===== verification/CAvl.v ===== *)
(** * Balanced tree for entries (structure/CAvl_impl.h, structure/SAvl_impl.h)

    The second AVL tree of the program, used by the timers of the reactor and by the fair queue.
    Both use it without counts, associative sums and keys; links are pointers to entries, so that
    [CAVL_PARAM_FUN_DEREF] is the identity and a reference is a pointer that may be null.  The
    heap of entries is the one of [BAVL], restricted to the tree's members.  The functions differ
    from those of structure/BAVL.h in that parents are passed along; they are shown to compute the
    same states, so that all results on [BAVL] hold of them. *)

From stdpp Require Import gmap.
From S2P Require Import Prelude BAVL.
Import BAVL.

Module CAvl.

Abbreviation CAvlLink := (option ptr).
(** [CAvlRef]: a link together with the pointer it stands for, here the same. *)
Abbreviation CAvlRef := (option ptr).

Definition CAvl_nulllink : CAvlLink := None.
Definition CAvl_nullref : CAvlRef := None.
Definition CAvlDeref (link : CAvlLink) : CAvlRef := match link with None => CAvl_nullref | Some n => Some n end.
Definition CAvlIsNullRef (node : CAvlRef) : bool := bool_decide (node = CAvl_nulllink).
Definition CAvlIsValidRef (node : CAvlRef) : bool := bool_decide (node <> CAvl_nulllink).

Definition CAvl_check_parent (s : t) (p : CAvlRef) (c : ptr) : option bool :=
  ec ← heap s !! c;
  if bool_decide (p = parent ec) then
    match p with
    | None => Some true
    | Some p => ep ← heap s !! p; Some (bool_decide (Some c = link0 ep) || bool_decide (Some c = link1 ep))
    end
  else Some false.

Definition CAvl_rotate (s : t) (r : ptr) (dir : bool) (r_parent : CAvlRef) : option t :=
  ok ← CAvl_check_parent s r_parent r;
  ASSERT ok;
  er ← heap s !! r;
  nr ← CAvlDeref (link er (negb dir));
  enr ← heap s !! nr;
  s ← set_link s r (negb dir) (link enr dir);
  er ← heap s !! r;
  s ← set_parent_of s (CAvlDeref (link er (negb dir))) (Some r);
  s ← set_link s nr dir (Some r);
  s ← set_parent s nr r_parent;
  s ← set_link_to s r_parent r (Some nr);
  set_parent s r (Some nr).

Definition CAvl_subtree_min (s : t) (n : ptr) : option ptr := descend (fuel_of s) s n false.
Definition CAvl_subtree_max (s : t) (n : ptr) : option ptr := descend (fuel_of s) s n true.

Definition CAvl_replace_subtree_fix_assoc (s : t) (dest : ptr) (n : CAvlRef) (dest_parent : CAvlRef) : option t :=
  ok ← CAvl_check_parent s dest_parent dest;
  ASSERT ok;
  s ← set_link_to s dest_parent dest n;
  match n with
  | Some n => ed ← heap s !! dest; set_parent s n (parent ed)
  | None => Some s
  end.

(** The branch of [CAvl_swap_for_remove] for nodes that are directly connected. *)
Definition remove_swap_adjacent (s : t) (node enode : ptr) (node_parent : CAvlRef) : option t :=
  en ← heap s !! node;
  let side := bool_decide (Some enode = link1 en) in
  let c := CAvlDeref (link en (negb side)) in
  ee ← heap s !! enode;
  s ← set_link_parent s node false (link0 ee);
  ee ← heap s !! enode;
  s ← set_link_parent s node true (link1 ee);
  en ← heap s !! node;
  s ← set_parent s enode (parent en);
  s ← set_link_to s node_parent node (Some enode);
  s ← set_link s enode side (Some node);
  s ← set_parent s node (Some enode);
  s ← set_link s enode (negb side) c;
  set_parent_of s c (Some enode).

Definition remove_swap_apart (s : t) (node enode : ptr) (node_parent enode_parent : CAvlRef) : option t :=
  (* swap parents *)
  let temp := node_parent in
  ee ← heap s !! enode;
  s ← set_parent s node (parent ee);
  s ← set_link_to s enode_parent enode (Some node);
  s ← set_parent s enode temp;
  s ← set_link_to s temp node (Some enode);
  (* swap left children *)
  en ← heap s !! node;
  let temp := CAvlDeref (link0 en) in
  ee ← heap s !! enode;
  s ← set_link_parent s node false (link0 ee);
  s ← set_link_parent s enode false temp;
  (* swap right children *)
  en ← heap s !! node;
  let temp := CAvlDeref (link1 en) in
  ee ← heap s !! enode;
  s ← set_link_parent s node true (link1 ee);
  set_link_parent s enode true temp.

Definition CAvl_swap_for_remove (s : t) (node enode : ptr) (node_parent enode_parent : CAvlRef) : option t :=
  ok ← CAvl_check_parent s node_parent node;
  ASSERT ok;
  ok ← CAvl_check_parent s enode_parent enode;
  ASSERT ok;
  s ← (if bool_decide (enode_parent = Some node) then remove_swap_adjacent s node enode node_parent
       else remove_swap_apart s node enode node_parent enode_parent);
  (* swap balance factors *)
  en ← heap s !! node;
  let b := balance en in
  ee ← heap s !! enode;
  s ← set_balance s node (balance ee);
  set_balance s enode b.

(** [CAvl_parent(node)], dereferenced. *)
Definition parent_ref (s : t) (node : ptr) : option CAvlRef := en ← heap s !! node; Some (CAvlDeref (parent en)).

(** The transformations of [CAvl_rebalance] when the balance factor is wrong. *)
Definition CAvl_transform (s : t) (node : ptr) (delta : Z) : option (t * ptr * Z) :=
  en ← heap s !! node;
  let bside := balance en =? 2 in
  let bsidef := if bside then 1 else -1 in
  child ← CAvlDeref (link en bside);
  ec ← heap s !! child;
  let v := balance ec * bsidef in
  if v =? 1 then
    p ← parent_ref s node;
    s ← CAvl_rotate s node (negb bside) p;
    s ← set_balance s node 0;
    s ← set_balance s child 0;
    Some (s, child, delta - 1)
  else if v =? 0 then
    p ← parent_ref s node;
    s ← CAvl_rotate s node (negb bside) p;
    s ← set_balance s node (1 * bsidef);
    s ← set_balance s child (-1 * bsidef);
    Some (s, child, delta)
  else
    ASSERT v =? -1;
    gchild ← CAvlDeref (link ec (negb bside));
    s ← CAvl_rotate s child bside (Some node);
    p ← parent_ref s node;
    s ← CAvl_rotate s node (negb bside) p;
    eg ← heap s !! gchild;
    s ← set_balance s node (- BAVL_MAX 0 (balance eg * bsidef) * bsidef);
    eg ← heap s !! gchild;
    s ← set_balance s child (BAVL_MAX 0 (- balance eg * bsidef) * bsidef);
    s ← set_balance s gchild 0;
    Some (s, gchild, delta - 1).

(** The recursion up the tree is that of [BAVL], with [CAvl_MAX] and [CAvl_OPTNEG] its macros. *)
Definition CAvl_rebalance := rebalance_with CAvl_transform.

Definition CAvl_Init (s : t) : t := mk (heap s) CAvl_nulllink.
Definition CAvl_IsEmpty (s : t) : bool := bool_decide (root s = CAvl_nulllink).

(** The part of [CAvl_Remove] after the swap. *)
Definition remove_unlink (s : t) (node : ptr) : option t :=
  en ← heap s !! node;
  ASSERT bool_decide (link0 en = None) || bool_decide (link1 en = None);
  let paren := CAvlDeref (parent en) in
  let child := match link0 en with Some _ => CAvlDeref (link0 en) | None => CAvlDeref (link1 en) end in
  match paren with
  | Some p =>
      ep ← heap s !! p;
      let side := bool_decide (Some node = link1 ep) in
      s ← CAvl_replace_subtree_fix_assoc s node child paren;
      CAvl_rebalance (fuel_of s) s p side (-1)
  | None => CAvl_replace_subtree_fix_assoc s node child paren
  end.

Definition CAvl_Remove (s : t) (node : ptr) : option t :=
  ASSERT bool_decide (root s <> None);
  en ← heap s !! node;
  s ← match CAvlDeref (link0 en), link1 en with
      | Some l, Some _ =>
          max ← CAvl_subtree_max s l;
          node_parent ← parent_ref s node;
          max_parent ← parent_ref s max;
          CAvl_swap_for_remove s node max node_parent max_parent
      | _, _ => Some s
      end;
  remove_unlink s node.

Definition CAvl_GetFirst (s : t) : option CAvlRef :=
  match CAvlDeref (root s) with None => Some CAvl_nullref | Some r => n ← CAvl_subtree_min s r; Some (Some n) end.
Definition CAvl_GetLast (s : t) : option CAvlRef :=
  match CAvlDeref (root s) with None => Some CAvl_nullref | Some r => n ← CAvl_subtree_max s r; Some (Some n) end.

Definition CAvl_GetNext (s : t) (node : ptr) : option CAvlRef :=
  ASSERT bool_decide (root s <> None);
  en ← heap s !! node;
  match CAvlDeref (link1 en) with
  | Some m => r ← descend (fuel_of s) s m false; Some (Some r)
  | None => ascend (fuel_of s) s node true
  end.
Definition CAvl_GetPrev (s : t) (node : ptr) : option CAvlRef :=
  ASSERT bool_decide (root s <> None);
  en ← heap s !! node;
  match CAvlDeref (link0 en) with
  | Some m => r ← descend (fuel_of s) s m true; Some (Some r)
  | None => ascend (fuel_of s) s node false
  end.

Section Compare.
(** [CAVL_PARAM_FUN_COMPARE_ENTRIES]; [None]: one of the pointers points to no entry. *)
Context (compare : ptr -> ptr -> option Z).

Definition CAvl_compare_entries (node1 node2 : ptr) : option Z :=
  res ← compare node1 node2;
  ASSERT res >=? -1;
  ASSERT res <=? 1;
  Some res.

(** The search loop of [CAvl_Insert]. *)
Fixpoint insert_place (fuel : nat) (s : t) (node c : ptr) : option (ptr + ptr * bool) :=
  match fuel with
  | O => None
  | S fuel =>
      comp ← CAvl_compare_entries node c;
      if comp =? 0 then Some (inl c) else
      let side := comp =? 1 in
      ec ← heap s !! c;
      match CAvlDeref (link ec side) with
      | None => Some (inr (c, side))
      | Some c => insert_place fuel s node c
      end
  end.

(** The state, the result and what [*out_ref] is set to. *)
Definition CAvl_Insert (s : t) (node : ptr) : option (t * bool * CAvlRef) :=
  match CAvlDeref (root s) with
  | None => Some (init_node (mk (heap s) (Some node)) node None, true, CAvl_nullref)
  | Some c =>
      r ← insert_place (fuel_of s) s node c;
      match r with
      | inl c => Some (s, false, Some c)
      | inr (c, side) =>
          s ← set_link s c side (Some node);
          s ← CAvl_rebalance (fuel_of s) (init_node s node (Some c)) c side 1;
          Some (s, true, Some c)
      end
  end.

Fixpoint CAvl_verify_recurser (fuel : nat) (s : t) (n : ptr) : option Z :=
  match fuel with
  | O => None
  | S fuel =>
      en ← heap s !! n;
      ASSERT balance en >=? -1;
      ASSERT balance en <=? 1;
      (* check left subtree *)
      height_left ← match CAvlDeref (link0 en) with
        | Some l =>
            el ← heap s !! l;
            ASSERT bool_decide (parent el = Some n);
            comp ← CAvl_compare_entries l n;
            ASSERT comp =? -1;
            CAvl_verify_recurser fuel s l
        | None => Some 0
        end;
      (* check right subtree *)
      height_right ← match CAvlDeref (link1 en) with
        | Some r =>
            er ← heap s !! r;
            ASSERT bool_decide (parent er = Some n);
            comp ← CAvl_compare_entries r n;
            ASSERT comp =? 1;
            CAvl_verify_recurser fuel s r
        | None => Some 0
        end;
      ASSERT balance en =? height_right - height_left;
      Some (BAVL_MAX height_left height_right + 1)
  end.

Definition CAvl_Verify (s : t) : option Z :=
  match CAvlDeref (root s) with
  | Some r =>
      er ← heap s !! r;
      ASSERT bool_decide (parent er = CAvl_nulllink);
      CAvl_verify_recurser (fuel_of s) s r
  | None => Some 0
  end.

(** *** SAvl: entries instead of references *)
Definition SAvl_Insert (s : t) (entry : ptr) : option (t * bool * option ptr) := CAvl_Insert s entry.

End Compare.

Definition SAvl_Init (s : t) : t := CAvl_Init s.
Definition SAvl_Remove (s : t) (entry : ptr) : option t := CAvl_Remove s entry.
Definition SAvl_GetFirst (s : t) : option (option ptr) := CAvl_GetFirst s.
Definition SAvl_IsEmpty (s : t) : bool := CAvl_IsEmpty s.

End CAvl.
