(* ===== verification/CAvlSpec.v ===== *)
(** * Balanced tree for entries: agreement with structure/BAVL.h

    On every AVL tree in the heap the functions of [CAvl] compute the same states and results as
    those of [BAVL]. *)

From stdpp Require Import gmap sorting.
From S2P Require Import Prelude BAVL BAVLTree BAVLSpec CAvl.
Import BAVL BAVLTree BAVLSpec CAvl.

Module CAvlSpec.

Lemma deref_id p : CAvlDeref p = p.
Proof. by destruct p. Qed.

Lemma check_parent_ok s c i x : focus s c (Some i) (cells (top c) x) -> rootp x = Some i -> CAvl_check_parent s (top c) i = Some true.
Proof.
  intros F Hi. destruct x as [|l j b r]; [done|]. injection Hi as ->. unfold CAvl_check_parent. run (focus_root _ _ _ _ _ _ F).
  cbn [parent]. rewrite bool_decide_true by done. destruct c as [|f c]; [done|]. cbn [top_of].
  pose proof (focus_up _ _ _ _ (Node l i b r) eq_refl F) as F'. run (focus_root_branch _ _ _ _ _ _ _ F').
  unfold links. destruct (side f); cbn [link0 link1 rootp]; by rewrite (bool_decide_true (Some i = Some i)), ?orb_true_r by done.
Qed.

Lemma parent_ref_ok s c i x : focus s c (Some i) (cells (top c) x) -> rootp x = Some i -> parent_ref s i = Some (top c).
Proof.
  intros F Hi. destruct x as [|l j b r]; [done|]. injection Hi as ->. unfold parent_ref. rewrite (focus_root _ _ _ _ _ _ F).
  cbn [mbind option_bind parent]. by rewrite deref_id.
Qed.

(** Execute both sides of an equation. *)
Ltac step := first [progress cbn [CAvlDeref CAvl_nullref mbind option_bind set_parent_of] | load | store].

Lemma rotate_eq s c dir a r b1 x nr b2 z :
  focus s c (Some r) (cells (top c) (branch dir a r b1 (branch dir x nr b2 z))) ->
  CAvl_rotate s r dir (top c) = _BAVL_rotate s r dir.
Proof.
  intros F. unfold CAvl_rotate. rewrite (check_parent_ok _ _ _ _ F (rootp_branch _ _ _ _ _)). cbn [mbind option_bind].
  unfold _BAVL_rotate.
  destruct dir, x as [|xl xi xb xr]; cbn [branch cells rootp app] in *; rewrite <- ?app_assoc in F; simpl_node; repeat step.
  all: done.
Qed.

Lemma CAvl_transforms_alike : transforms_alike CAvl_transform.
Proof.
  intros s c d near i far delta F An Af Hh. pose proof (height_nonneg far).
  assert (exists a ci cb x, near = branch d a ci cb x) as (a & ci & cb & x & ->).
  { destruct near; [simpl in Hh; lia|]. destruct d; by do 4 eexists. }
  assert (heap s !! i = Some (links d (top c) (Some ci) (rootp far) (2 * sgn d))) as E1.
  { apply focus_root_branch in F. by rewrite rootp_branch in F. }
  assert (heap s !! ci = Some (links d (Some i) (rootp a) (rootp x) cb)) as E2.
  { apply focus_child in F. rewrite rootp_branch in F. by apply focus_root_branch in F. }
  unfold CAvl_transform, transform. rewrite E1. cbn [mbind option_bind]. rewrite links_balance.
  assert ((2 * sgn d =? 2) = d) as -> by (by destruct d). rewrite links_link. cbn [mbind option_bind CAvlDeref]. rewrite E2. cbn [mbind option_bind].
  rewrite links_balance, links_link_negb, deref_id.
  assert (CAvl_rotate s i (negb d) (top c) = _BAVL_rotate s i (negb d)) as R.
  { rewrite <- (branch_negb d far), <- (branch_negb d x) in F. by eapply rotate_eq. }
  rewrite (parent_ref_ok _ _ _ _ F (rootp_branch _ _ _ _ _)). cbn [mbind option_bind]. rewrite R.
  case_if; [done|]. case_if; [done|]. case_if; [|done].
  destruct (rootp x) as [g|] eqn:Hx; [|done]. cbn [mbind option_bind].
  assert (exists gx gb gy, x = branch d gx g gb gy) as (gx & gb & gy & ->).
  { destruct x; [done|]. injection Hx as ->. destruct d; by do 3 eexists. }
  apply focus_child in F. rewrite rootp_branch in F. pose proof (rotate_eq _ _ _ _ _ _ _ _ _ _ F) as R0. cbn [top_of fid] in R0. rewrite R0.
  apply (rotate_ok _ (Frame d i _ far :: c)) in F as (s1 & R1 & F). run R1.
  replace (Some g) with (rootp (branch d (branch d a ci cb gx) g gb gy)) in F by (by destruct d).
  apply (focus_child s1 c d) in F. rewrite (parent_ref_ok _ _ _ _ F (rootp_branch _ _ _ _ _)). cbn [mbind option_bind].
  rewrite <- (branch_negb d far), <- (branch_negb d gy) in F. rewrite (rotate_eq _ _ _ _ _ _ _ _ _ _ F).
  apply rotate_ok in F as (s2 & R2 & F). run R2. run (focus_root_branch _ _ _ _ _ _ _ F). rewrite links_balance.
  apply (focus_set_balance_child _ _ _ _ _ _ _ _ _ _ _ (- BAVL_MAX 0 (gb * (if d then 1 else -1)) * (if d then 1 else -1))) in F as (s3 & R3 & F).
  run R3. run (focus_root_branch _ _ _ _ _ _ _ F). by rewrite links_balance.
Qed.

(** ** Removal *)
Lemma bind_ext {A B} (m : option A) (f g : A -> option B) : (forall x, f x = g x) -> m ≫= f = m ≫= g.
Proof. intros H. destruct m; [apply H|done]. Qed.

Lemma bind_eq {A B} (m m' : option A) (f g : A -> option B) : m = m' -> (forall x, f x = g x) -> m ≫= f = m' ≫= g.
Proof. intros ->. apply bind_ext. Qed.

Lemma replace_subtree_eq s c l i b r : focus s c (Some i) (cells (top c) (Node l i b r)) -> l = Leaf \/ r = Leaf ->
  CAvl_replace_subtree_fix_assoc s i (rootp (only_child l r)) (top c) = _BAVL_replace_subtree s i (rootp (only_child l r)).
Proof.
  intros F Hlr. unfold CAvl_replace_subtree_fix_assoc. rewrite (check_parent_ok _ _ _ _ F eq_refl). cbn [mbind option_bind].
  unfold _BAVL_replace_subtree. cbn [cells] in F. load. store_top. destruct (rootp (only_child l r)) as [n|]; load; done.
Qed.

Lemma swap_adjacent_eq s c n1 b rl ri rb rr m n2 b2 :
  focus s c (Some n1) (cells (top c) (Node (Node m n2 b2 Leaf) n1 b (Node rl ri rb rr))) -> n2 <> ri ->
  remove_swap_adjacent s n1 n2 (top c) = swap_adjacent s n1 n2.
Proof.
  intros F Hr. unfold remove_swap_adjacent, swap_adjacent, set_link_parent.
  destruct m as [|ml mi mb mr]; cbn [cells rootp app] in *; rewrite <- ?app_assoc in F; simpl_node.
  all: do 2 load. all: rewrite bool_decide_false by congruence; repeat step. all: done.
Qed.

Lemma swap_apart_eq s n1 n2 e1 e2 : heap s !! n1 = Some e1 -> heap s !! n2 = Some e2 ->
  remove_swap_apart s n1 n2 (parent e1) (parent e2) = swap_apart s n1 n2.
Proof.
  intros E1 E2. unfold remove_swap_apart, swap_apart. rewrite E1, E2. cbn [mbind option_bind].
  repeat (rewrite ?deref_id; first [done | apply bind_ext; intros ?]).
Qed.

Lemma swap_for_remove_eq s c n1 b r m n2 b2 p :
  focus s c (Some n1) (cells (top c) (Node (plug p (Node m n2 b2 Leaf)) n1 b r)) -> r <> Leaf ->
  CAvl_swap_for_remove s n1 n2 (top c) (top_of (Some n1) p) = _BAVL_swap_nodes s n1 n2.
Proof.
  intros F Hr. destruct r as [|rl ri rb rr]; [done|]. pose proof (focus_root _ _ _ _ _ _ F) as E1. pose proof (proj1 (focus_lower _ _ false _ _ _ _ _ _ _ _) F) as F2.
  pose proof (focus_root _ _ _ _ _ _ F2) as E2. rewrite top_of_app in E2. cbn [top_of fid] in E2.
  unfold CAvl_swap_for_remove, _BAVL_swap_nodes. rewrite (check_parent_ok _ _ _ _ F eq_refl). cbn [mbind option_bind].
  pose proof (check_parent_ok _ _ _ _ F2 eq_refl) as E3. rewrite top_of_app in E3. cbn [top_of fid] in E3. rewrite E3. cbn [mbind option_bind].
  rewrite E1. cbn [mbind option_bind]. rewrite E2. cbn [mbind option_bind parent].
  destruct (focus_nodup _ _ _ _ F) as [Hd Ht]. rewrite cells_keys in Hd. cbn [inord] in Hd.
  rewrite (bool_decide_false (top c = Some n2)).
  2:{ apply Ht. rewrite cells_keys. cbn [inord]. destruct (inord_split_in p (Node m n2 b2 Leaf)) as (A & B & -> & _). cbn [inord]. set_solver. }
  rewrite orb_false_r. case_bool_decide as Hp.
  - assert (p = []) as ->.
    { destruct p as [|f p]; [done|]. exfalso. cbn [top_of] in Hp. injection Hp as Hf. destruct (inord_split_in (f :: p) (Node m n2 b2 Leaf)) as (A & B & E & HA).
      rewrite E in Hd. apply list.NoDup_app in Hd as (_ & Hd & _). apply (Hd n1); [|by left]. rewrite !elem_of_app. destruct (HA n1); [rewrite <- Hf; by left|tauto..]. }
    erewrite swap_adjacent_eq; [done|exact F|]. intros ->. cbn in Hd. apply list.NoDup_app in Hd as (_ & Hd & _). apply (Hd ri); set_solver.
  - pose proof (swap_apart_eq s n1 n2 _ _ E1 E2) as E4. cbn [parent] in E4. by rewrite E4.
Qed.

Lemma remove_unlink_eq s c l i b r : focus s c (Some i) (cells (top c) (Node l i b r)) -> l = Leaf \/ r = Leaf ->
  avl (plug c (Node l i b r)) -> remove_unlink s i = unlink_node s i.
Proof.
  intros F Hlr (Ax & Hc)%avl_plug. destruct (only_child_ok _ _ _ _ Ax Hlr) as (Ay & Ex & Hx). rewrite Hx in Hc.
  unfold remove_unlink, unlink_node. run (focus_root _ _ _ _ _ _ F). cbn [link0 link1 parent]. rewrite !deref_id.
  assert (bool_decide (rootp l = None) || bool_decide (rootp r = None) = true) as ->.
  { destruct Hlr as [-> | ->]; simpl; [done|]. by rewrite orb_true_r. }
  assert (negb (bool_decide (is_Some (rootp l)) && bool_decide (is_Some (rootp r))) = true) as ->.
  { destruct Hlr as [-> | ->]; simpl; [done|]. by rewrite andb_false_r. }
  assert (match rootp l with Some l => Some l | None => rootp r end = rootp (only_child l r)) as -> by (by destruct l).
  assert (match rootp l with Some _ => rootp l | None => rootp r end = rootp (only_child l r)) as -> by (by destruct l).
  rewrite (replace_subtree_eq _ _ _ _ _ _ F Hlr). destruct (replace_subtree_ok _ _ _ _ _ _ (only_child l r) F Hlr eq_refl) as (s1 & R1 & F1%focus_drop).
  destruct c as [|f c]; cbn [top_of] in *; [done|].
  destruct (focus_side _ _ _ (Node l i b r) _ _ _ i eq_refl (focus_up _ _ _ _ (Node l i b r) eq_refl F)) as (e & Re & _ & _ & Rs).
  run Re. run R1. rewrite Rs. destruct (rebalance_removed _ CAvl_transforms_alike s1 f c _ F1 Ay Hc) as (s2 & x' & E1 & E2 & _).
  unfold CAvl_rebalance. congruence.
Qed.

Lemma remove_eq s l n : tree_of s l -> n ∈ l -> CAvl_Remove s n = BAVL_Remove s n.
Proof.
  intros (x & R & Ax & E) Hn. apply list_elem_of_split in Hn as (A & B & El). subst l.
  destruct (rep_focus _ _ _ _ _ R El) as (c & ll & b & r & -> & F & -> & ->). unfold CAvl_Remove, BAVL_Remove.
  assert (root s <> None) as Hroot.
  { destruct R as [_ R]. cbn [root_of] in R. rewrite R, rootp_plug. cbn [rootp]. clear. revert n. induction c as [|f c IH]; intros n; cbn [root_of]; [done|]. apply IH. }
  rewrite bool_decide_true by done. run (focus_root _ _ _ _ _ _ F). cbn [link0 link1]. rewrite deref_id.
  destruct (rootp ll) as [li|] eqn:Hl; [destruct (rootp r) as [ri|] eqn:Hr|]; cbn [mbind option_bind].
  - pose proof F as F1. apply (focus_child _ _ false) in F1. rewrite Hl in F1.
    destruct (descend_ok true (fuel_of s) s _ ll li F1 Hl) as (p & k & b2 & m & Rm & -> & Hp).
    { apply focus_count in F1. lia. }
    unfold CAvl_subtree_max, _BAVL_subtree_max. run Rm. cbn [branch] in *. pose proof (proj1 (focus_lower _ _ false _ _ _ _ _ _ _ _) F) as F2.
    rewrite (parent_ref_ok _ _ _ _ F eq_refl), (parent_ref_ok _ _ _ _ F2 eq_refl), top_of_app. cbn [mbind option_bind top_of fid].
    rewrite (swap_for_remove_eq _ _ _ _ _ _ _ _ _ F) by (by intros ->).
    destruct (swap_nodes_ok _ _ _ _ _ _ _ _ _ F Hp) as (s1 & R1 & F3); [by intros ->|]. run R1.
    apply (focus_lower _ _ false) in F3. eapply remove_unlink_eq; [exact F3|by right|].
    rewrite plug_app. cbn [plug branch side fid fbal sib]. revert Ax. rewrite !avl_plug. cbn [avl height].
    rewrite !avl_plug, (height_plug p (Node m n b2 Leaf) (Node m k b2 Leaf)) by done. done.
  - eapply remove_unlink_eq; [exact F|right; by destruct r|done].
  - eapply remove_unlink_eq; [exact F|left; by destruct ll|done].
Qed.

(** ** Walks *)
Lemma first_eq s : CAvl_GetFirst s = BAVL_GetFirst s /\ CAvl_GetLast s = BAVL_GetLast s.
Proof. unfold CAvl_GetFirst, CAvl_GetLast. by rewrite !deref_id. Qed.

Lemma next_eq s n : root s <> None -> CAvl_GetNext s n = BAVL_GetNext s n /\ CAvl_GetPrev s n = BAVL_GetPrev s n.
Proof.
  intros Hr. unfold CAvl_GetNext, CAvl_GetPrev, BAVL_GetNext, BAVL_GetPrev. rewrite bool_decide_true by done.
  split; apply bind_ext; intros e; by rewrite deref_id.
Qed.

Lemma CAvl_first_ok s l : tree_of s l -> CAvl_GetFirst s = Some (head l) /\ CAvl_IsEmpty s = bool_decide (l = []).
Proof. intros T. destruct (first_eq s) as [-> _]. by destruct (ends_spec s l T) as (? & _ & ?). Qed.

(** A node that is not in the tree may go. *)
Lemma tree_of_delete s l n : tree_of s l -> n ∉ l -> tree_of (mk (delete n (heap s)) (root s)) l.
Proof.
  intros (x & [[Hn H] R] & Ax & E) Hx. exists x. split; [|done]. split; [|done]. split; [done|]. cbn [heap].
  intros i e Hi. rewrite lookup_delete_ne; [by apply H|]. intros ->. apply Hx. rewrite <- E, <- (cells_keys None). cbn [path_cells app] in Hi.
  by apply (list_elem_of_fmap_2 fst _ (i, e)).
Qed.

(** ** Operations that compare *)
Section Compare.
Context {V : Type} (ok : V -> Prop) (comparator : V -> V -> Z) `{HC : !Comparator ok comparator} (value : ptr -> option V).
(** The comparison of entries is that of their values. *)
Context (compare : ptr -> ptr -> option Z) (Hcompare : forall i j, compare i j = (v ← value i; w ← value j; Some (comparator v w))).

Abbreviation in_order := (sorted ok comparator value).

Lemma compare_entries_eq i j : valued ok value i -> valued ok value j ->
  CAvl_compare_entries compare i j = _BAVL_compare_nodes comparator value i j.
Proof.
  intros (v & Hi & Hv) (w & Hj & Hw). unfold CAvl_compare_entries, _BAVL_compare_nodes, _BAVL_node_value. rewrite Hcompare, Hi, Hj. cbn [mbind option_bind].
  rewrite (compare_values_ok ok comparator v w Hv Hw). destruct (cmp_range v w Hv Hw) as [-> |[-> | ->]]; done.
Qed.

Lemma insert_place_eq n fuel : forall s c x i, valued ok value n -> focus s c (Some i) (cells (top c) x) -> rootp x = Some i -> Forall (valued ok value) (inord x) ->
  insert_place compare fuel s n i = insert_search comparator value fuel s n i.
Proof.
  induction fuel as [|fuel IH]; intros s c x i Hn F Hi Hvs; cbn [insert_place insert_search]; [done|].
  destruct x as [|l j b r]; [done|]. injection Hi as ->. cbn [inord] in Hvs. apply Forall_app in Hvs as [Hl Hr]. apply list.Forall_cons in Hr as [Hi Hr].
  rewrite compare_entries_eq by done. apply bind_ext. intros comp. case_if; [done|]. run (focus_root _ _ _ _ _ _ F). rewrite deref_id.
  destruct (comp =? 1); cbn [link link0 link1].
  - destruct (rootp r) as [k|] eqn:Hk; [|done]. apply (focus_child s c true) in F. rewrite Hk in F. by apply (IH s (Frame true i b l :: c) r k).
  - destruct (rootp l) as [k|] eqn:Hk; [|done]. apply (focus_child s c false) in F. rewrite Hk in F. by apply (IH s (Frame false i b r :: c) l k).
Qed.

Lemma insert_eq s l n : tree_of s l -> in_order l -> n ∉ l -> valued ok value n ->
  CAvl_Insert compare s n = BAVL_Insert comparator value s n.
Proof.
  intros (x & R & Ax & E) Hs Hn (v & Hv & Okv). unfold CAvl_Insert, BAVL_Insert. pose proof R as [_ Er]. cbn [root_of] in Er. rewrite Er, deref_id.
  destruct (rootp x) as [i|] eqn:Hi; [|done].
  assert (focus s [] (Some i) (cells None x)) as F by (unfold rep in R; by rewrite Hi in R).
  rewrite (insert_place_eq n _ s [] x i); [|by exists v|done|done|subst l; by destruct Hs].
  rewrite (insert_search_ok ok _ _ v n (fuel_of s) s [] x i Hv Okv F Hi); [|subst l; by destruct Hs|by apply (focus_height s [] (Some i) None)].
  pose proof (walk_root ok _ _ v s l x Okv R Ax E Hs) as W. destruct (found (walk comparator value v [] x)) as [j|[|f c]] eqn:Ef; [done..|].
  destruct W as (-> & El & HA & HB). cbn [mbind option_bind].
  destruct (insert_at_ok _ CAvl_transforms_alike s f c n R Ax) as (s1 & s2 & x' & R1 & R2 & R3 & _); [by rewrite E|]. run R1.
  unfold CAvl_rebalance. by rewrite R2, R3.
Qed.

Lemma CAvl_insert_ok s l n v : tree_of s l -> in_order l -> n ∉ l -> value n = Some v -> ok v ->
  exists s' res ref, CAvl_Insert compare s n = Some (s', res, ref) /\ insert_post ok comparator value v n l s s' res ref.
Proof. intros T Hs Hn Hv Okv. rewrite (insert_eq s l n T Hs Hn); [by apply insert_ok|by exists v]. Qed.

Lemma CAvl_remove_ok s l n : tree_of s l -> in_order l -> n ∈ l ->
  exists s', CAvl_Remove s n = Some s' /\ tree_of s' (without n l) /\ in_order (without n l).
Proof. intros T Hs Hn. rewrite (remove_eq s l n T Hn). by apply remove_list_ok. Qed.

Lemma verify_eq fuel : forall s c x i, focus s c (Some i) (cells (top c) x) -> rootp x = Some i -> Forall (valued ok value) (inord x) ->
  CAvl_verify_recurser compare fuel s i = _BAVL_assert_recurser comparator value fuel s i.
Proof.
  induction fuel as [|fuel IH]; intros s c x i F Hi Hvs; cbn [CAvl_verify_recurser _BAVL_assert_recurser]; [done|].
  destruct x as [|l j b r]; [done|]. injection Hi as ->. cbn [inord] in Hvs. apply Forall_app in Hvs as [Hl Hr]. apply list.Forall_cons in Hr as [Hi Hr].
  run (focus_root _ _ _ _ _ _ F). cbn [link0 link1 balance]. rewrite !deref_id.
  assert (forall d near far, branch d near i b far = Node l i b r -> Forall (valued ok value) (inord near) -> forall k, rootp near = Some k ->
    CAvl_compare_entries compare k i = _BAVL_compare_nodes comparator value k i /\
    CAvl_verify_recurser compare fuel s k = _BAVL_assert_recurser comparator value fuel s k) as H.
  { intros d near far B Hn k Hk. rewrite <- B in F. apply focus_child in F. rewrite Hk in F. split; [|by apply (IH s (Frame d i b far :: c) near k)].
    apply compare_entries_eq; [|done]. apply rootp_inord in Hk. rewrite list.Forall_forall in Hn. by apply Hn. }
  do 2 (case_if; [|done]). apply bind_eq; [|intros hl; apply bind_eq; [|done]].
  - destruct (rootp l) as [k|] eqn:Hk; [|done]. by destruct (H false l r eq_refl Hl k Hk) as [-> ->].
  - destruct (rootp r) as [k|] eqn:Hk; [|done]. by destruct (H true r l eq_refl Hr k Hk) as [-> ->].
Qed.

(** ** Sequences of operations *)
Definition cavl_exec (s : t) (o : op) : option (t * bool) :=
  match o with
  | OInsert n => '(s, res, _) ← CAvl_Insert compare s n; Some (s, res)
  | ORemove n => s ← CAvl_Remove s n; Some (s, true)
  end.
Fixpoint cavl_run (s : t) (ops : list op) : option (t * list bool) :=
  match ops with
  | [] => Some (s, [])
  | o :: ops => '(s, r) ← cavl_exec s o; '(s, rs) ← cavl_run s ops; Some (s, r :: rs)
  end.

Lemma cavl_run_eq ops : forall s l, tree_of s l -> in_order l -> allowed ok comparator value l ops ->
  cavl_run s ops = BAVLSpec.run comparator value s ops.
Proof.
  induction ops as [|o ops IH]; intros s l T Hs; cbn [allowed]; [done|]. intros [Ho Ha].
  destruct (tree_exec_ok ok comparator value s l o T Hs Ho) as (s1 & E1 & T1 & S1). cbn [cavl_run BAVLSpec.run].
  assert (cavl_exec s o = exec comparator value s o) as ->.
  { destruct o as [n|n]; cbn [cavl_exec exec].
    - destruct Ho as [Hn Hv]. apply bool_decide_eq_false in Hn. by rewrite (insert_eq s l n).
    - apply bool_decide_eq_true in Ho. by rewrite (remove_eq s l n). }
  rewrite E1. cbn [mbind option_bind]. by rewrite (IH s1 _ T1 S1 Ha).
Qed.

(** the tree of structure/CAvl_impl.h and the one of structure/BAVL.h are the same data
    structure: under any sequence of insertions and removals both build the same heap, pointer by
    pointer and balance factor by balance factor, with the same results, none of their assertions
    (those of [CAvl_check_parent] on the parents passed along included) failing; walks along the
    tree and its verification then give the same answers. *)
Theorem cavl_is_bavl s0 ops : allowed ok comparator value [] ops ->
  exists s rs, cavl_run (CAvl_Init s0) ops = Some (s, rs) /\ BAVLSpec.run comparator value (BAVL_Init s0) ops = Some (s, rs) /\
    CAvl_GetFirst s = BAVL_GetFirst s /\ CAvl_GetLast s = BAVL_GetLast s /\ CAvl_IsEmpty s = BAVL_IsEmpty s /\
    CAvl_Verify compare s = BAVL_Verify comparator value s /\ is_Some (CAvl_Verify compare s) /\
    forall n, n ∈ (spec_run comparator value [] ops).1 -> CAvl_GetNext s n = BAVL_GetNext s n /\ CAvl_GetPrev s n = BAVL_GetPrev s n.
Proof.
  intros Ha. destruct (tree_init_ok ok comparator value s0) as [T0 S0]. destruct (run_ok ok comparator value ops _ _ T0 S0 Ha) as (s & E & T & S).
  exists s, (spec_run comparator value [] ops).2. pose proof (cavl_run_eq ops _ [] T0 S0 Ha) as Ec. rewrite E in Ec. destruct (first_eq s) as [E1 E2].
  assert (CAvl_Verify compare s = BAVL_Verify comparator value s) as Ev.
  { destruct T as (x & R & Ax & El). unfold CAvl_Verify, BAVL_Verify. rewrite deref_id. pose proof R as [_ Er]. cbn [root_of] in Er. rewrite Er.
    destruct (rootp x) as [i|] eqn:Hi; [|done]. apply bind_ext. intros e. unfold CAvl_nulllink. case_if; [|done].
    apply (verify_eq _ s [] x i); [unfold rep in R; by rewrite Hi in R|done|rewrite El; by destruct S]. }
  split_and!; try done.
  - rewrite Ev. destruct T as (x & R & Ax & El). rewrite (Verify_ok ok comparator value s x); [by eexists|done|done|by rewrite El].
  - intros n Hn. apply next_eq. intros Hr. destruct T as (x & [_ R] & Ax & El). cbn [root_of] in R. rewrite Hr in R. destruct x; [|done].
    rewrite <- El in Hn. by apply not_elem_of_nil in Hn.
Qed.

End Compare.

Definition demo_compare (i j : ptr) : option Z := v ← demo_value i; w ← demo_value j; Some (Z_comparator v w).

Lemma cavl_is_bavl_witness : exists s rs, cavl_run demo_compare (CAvl_Init (mk ∅ None)) demo_ops = Some (s, rs) /\
  rs = [true; true; true; true; true; true; true; true; false; true] /\ is_Some (CAvl_Verify demo_compare s).
Proof.
  destruct (cavl_is_bavl (fun _ : Z => True) Z_comparator demo_value demo_compare (fun _ _ => eq_refl) (mk ∅ None) demo_ops) as (s & rs & E & E' & _ & _ & _ & _ & V & _); [demo_allowed|].
  exists s, rs. split; [exact E|]. split; [|exact V]. apply (f_equal (option_map snd)) in E'. vm_compute in E'. congruence.
Defined.

End CAvlSpec.

