(* ===== verification/EntryOrder.v ===== *)
(** * Entries ordered by a number, then by address

    The trees of timers and of queued flows compare two entries by a number they hold and, when it
    is the same, by their addresses, so that no two entries are equal. *)

From stdpp Require Import gmap sorting.
From S2P Require Import Prelude BAddr BAVL BAVLTree BAVLSpec CAvl CAvlSpec.
Import BAVLSpec CAvlSpec.

Definition tcmp (a b : Z * Z) : Z :=
  let cmp := B_COMPARE a.1 b.1 in if negb (cmp =? 0) then cmp else B_COMPARE a.2 b.2.

Lemma B_COMPARE_cases a b : (a < b /\ B_COMPARE a b = -1) \/ (a = b /\ B_COMPARE a b = 0) \/ (a > b /\ B_COMPARE a b = 1).
Proof. unfold B_COMPARE. destruct (Z.gtb_spec a b), (Z.ltb_spec a b); simpl; lia. Qed.

(** The order is lexicographic. *)
Lemma tcmp_cases a b : tcmp a b = -1 /\ (a.1 < b.1 \/ (a.1 = b.1 /\ a.2 < b.2)) \/ tcmp a b = 0 /\ a.1 = b.1 /\ a.2 = b.2 \/
  tcmp a b = 1 /\ (a.1 > b.1 \/ (a.1 = b.1 /\ a.2 > b.2)).
Proof.
  unfold tcmp. destruct (B_COMPARE_cases a.1 b.1) as [[H ->]|[[H ->]|[H ->]]]; cbn [Z.eqb negb]; [by auto| |by auto].
  destruct (B_COMPARE_cases a.2 b.2) as [[H' ->]|[[H' ->]|[H' ->]]]; tauto.
Qed.

#[export] Instance tcmp_comparator : Comparator (fun _ : Z * Z => True) tcmp.
Proof.
  split.
  - intros a b _ _. destruct (tcmp_cases a b) as [[? _]|[[? _]|[? _]]]; auto.
  - intros a b _ _. destruct (tcmp_cases a b) as [[-> ?]|[[-> ?]|[-> ?]]], (tcmp_cases b a) as [[-> ?]|[[-> ?]|[-> ?]]]; lia.
  - intros a b c _ _ _. destruct (tcmp_cases a b) as [[-> ?]|[[-> ?]|[-> ?]]], (tcmp_cases b c) as [[-> ?]|[[-> ?]|[-> ?]]], (tcmp_cases a c) as [[-> ?]|[[-> ?]|[-> ?]]]; lia.
Qed.

Lemma tree_of_nodup s l : tree_of s l -> NoDup l.
Proof. intros (x & R & _ & <-). by apply rep_nodup in R. Qed.


Abbreviation by_number k := (sorted (fun _ : Z * Z => True) tcmp k).

Lemma by_number_head (k : positive -> option (Z * Z)) i l j v : by_number k (i :: l) -> j ∈ l -> k i = Some v -> exists w, k j = Some w /\ v.1 <= w.1.
Proof.
  intros [_ Hs] Hj Hi. apply StronglySorted_cons in Hs as [Hs _]. rewrite list.Forall_forall in Hs. destruct (Hs j Hj) as (v' & w & Ev & Ew & Hc).
  rewrite Hi in Ev. injection Ev as <-. exists w. split; [done|]. destruct (tcmp_cases v w) as [[H ?]|[[H ?]|[H ?]]]; lia.
Qed.

(** The order is kept when the numbers of all entries change by the same amount. *)
Lemma by_number_shift (k k' : positive -> option (Z * Z)) d l : by_number k l ->
  (forall i v, i ∈ l -> k i = Some v -> k' i = Some (v.1 - d, v.2)) -> by_number k' l.
Proof.
  intros [Hv Hs] H. split.
  - rewrite list.Forall_forall in *. intros i Hi. destruct (Hv i Hi) as (v & E & _). exists (v.1 - d, v.2). split; [by apply H|done].
  - clear Hv. induction l as [|j l IH]; [constructor|]. apply StronglySorted_cons in Hs as [Hj Hs]. apply StronglySorted_cons. split.
    + rewrite list.Forall_forall in *. intros i Hi. destruct (Hj i Hi) as (v & w & Ev & Ew & Hc). exists (v.1 - d, v.2), (w.1 - d, w.2).
      split; [apply H; [by left|done]|]. split; [apply H; [by right|done]|].
      destruct (tcmp_cases v w) as [[? ?]|[[? ?]|[? ?]]], (tcmp_cases (v.1 - d, v.2) (w.1 - d, w.2)) as [[? ?]|[[? ?]|[? ?]]]; cbn [fst snd] in *; lia.
    + apply IH; [done|]. intros i v Hi. apply H. by right.
Qed.

(** An entry that is not in the tree is inserted: no other has its address. *)
Lemma by_number_insert (k : positive -> option (Z * Z)) compare s l n v :
  (forall i j, compare i j = (v ← k i; w ← k j; Some (tcmp v w))) -> (forall j w, k j = Some w -> w.2 = Z.pos j) ->
  tree_of s l -> by_number k l -> n ∉ l -> k n = Some v ->
  exists s' ref l', CAvl.CAvl_Insert compare s n = Some (s', true, ref) /\ tree_of s' l' /\ by_number k l' /\ forall i, i ∈ l' <-> i = n \/ i ∈ l.
Proof.
  intros Hc Hk T S Hn Hv. destruct (CAvl_insert_ok (fun _ => True) tcmp k compare Hc s l n v T S Hn Hv I) as (s' & res & ref & -> & _ & Hres & _ & l' & El & Tl & Sl).
  assert (find (equal_to tcmp k v) l = None) as Ef.
  { destruct (find _ _) as [j|] eqn:Ef; [|done]. apply find_some in Ef as [Hj Ef]. apply list_elem_of_In in Hj. unfold equal_to in Ef. destruct (k j) as [w|] eqn:Ej; [|done].
    apply Z.eqb_eq in Ef. destruct (tcmp_cases v w) as [[H ?]|[[H [? H']]|[H ?]]]; try lia. rewrite (Hk n v Hv), (Hk j w Ej) in H'. injection H' as ->. done. }
  rewrite Ef in Hres. cbn in Hres. subst res. exists s', ref, l'. split_and!; try done. subst l'. destruct T as (y & R & Ay & Ey).
  pose proof (walk_root (fun _ : Z * Z => True) tcmp k v s l y I R Ay Ey S) as W. destruct (found _) as [i|c]; [by rewrite Ef in W|]. destruct W as (_ & Es & HA & HB).
  intros i. rewrite Es, (list_insert_split (fun _ : Z * Z => True) _ _ _ _ _ _ I HA HB), !elem_of_app, elem_of_cons. tauto.
Qed.
