(* ===== verification/BReactor.v ===== *)
(** * The reactor (system/BReactor_badvpn.c with epoll, system/BTime.h, misc/overflow.h)

    The event loop of the program.  It runs queued jobs first, then expired timers, then the
    file descriptors that epoll reported, and waits when there is nothing left.  The state keeps
    the pointer structures of the code: the job queue of [BPending], the tree of running timers of
    [CAvl], and the lists of expired timers and of active limits of [LinkedList1].  What the
    operating system answers (the clock, [epoll_ctl], [epoll_wait]) is an argument.  Handlers are
    not part of the reactor: a step of the loop tells which handler is called. *)

From stdpp Require Import gmap.
From S2P Require Import Prelude DebugCounter BAddr BPending LinkedList1 BAVL CAvl.

Module BReactor.

Abbreviation ptr := positive.

(** ** Time *)
Definition INT64_MAX : Z := 9223372036854775807.
Definition INT64_MIN : Z := -9223372036854775808.
Definition is_int64 (x : Z) : bool := (INT64_MIN <=? x) && (x <=? INT64_MAX).

Definition add_int64_overflows (a b : Z) : Z :=
  if xorb (a <? 0) (b <? 0) then 0
  else if a <? 0 then - Z.b2z (a <? INT64_MIN - b)
  else Z.b2z (a >? INT64_MAX - b).

Definition btime_add (t1 t2 : Z) : Z :=
  let overflows := add_int64_overflows t1 t2 in
  if negb (overflows =? 0) then (if overflows >? 0 then INT64_MAX else INT64_MIN) else t1 + t2.

(** ** Timers *)
Inductive timer_state := TIMER_STATE_INACTIVE | TIMER_STATE_RUNNING | TIMER_STATE_EXPIRED.
#[export] Instance timer_state_eq_dec : EqDecision timer_state.
Proof. solve_decision. Defined.

(** [BSmallTimer], with [msTime] of a [BTimer].  The members of its tree node and, in a union with
    the links of the tree, its list node are in the heaps of the tree and the list. *)
Record BSmallTimer := mk_timer { absTime : Z; state : timer_state; is_small : bool; msTime : Z }.

Definition timer_with_state (e : BSmallTimer) (v : timer_state) : BSmallTimer := mk_timer (absTime e) v (is_small e) (msTime e).
Definition timer_with_absTime (e : BSmallTimer) (v : Z) : BSmallTimer := mk_timer v (state e) (is_small e) (msTime e).

Record timers_t := mk_timers {
  timers : gmap ptr BSmallTimer;
  timers_tree : BAVL.t;
  timers_expired_list : LinkedList1.t;
}.
Definition set_timer (o : timers_t) (t : ptr) (e : BSmallTimer) : timers_t :=
  mk_timers (<[t := e]> (timers o)) (timers_tree o) (timers_expired_list o).
Definition with_tree (o : timers_t) (x : BAVL.t) : timers_t := mk_timers (timers o) x (timers_expired_list o).
Definition with_expired (o : timers_t) (l : LinkedList1.t) : timers_t := mk_timers (timers o) (timers_tree o) l.

(** The union [u]: its memory holds the links of the tree or the list node; what a list node holds
    before it is first written is what the links were. *)
Definition u_to_list_node (o : timers_t) (t : ptr) : timers_t :=
  let e := match BAVL.heap (timers_tree o) !! t with
    | Some e => LinkedList1.mk_node (BAVL.link0 e) (BAVL.link1 e)
    | None => LinkedList1.mk_node None None
    end in
  let l := timers_expired_list o in
  mk_timers (timers o) (BAVL.mk (delete t (BAVL.heap (timers_tree o))) (BAVL.root (timers_tree o)))
    (LinkedList1.mk (<[t := e]> (LinkedList1.heap l)) (LinkedList1.first l) (LinkedList1.last l)).
Definition u_to_tree_links (o : timers_t) (t : ptr) : timers_t :=
  let l := timers_expired_list o in
  mk_timers (timers o) (timers_tree o) (LinkedList1.mk (delete t (LinkedList1.heap l)) (LinkedList1.first l) (LinkedList1.last l)).

Definition compare_timers (ts : gmap ptr BSmallTimer) (t1 t2 : ptr) : option Z :=
  e1 ← ts !! t1;
  e2 ← ts !! t2;
  let cmp := B_COMPARE (absTime e1) (absTime e2) in
  Some (if negb (cmp =? 0) then cmp else B_COMPARE (Z.pos t1) (Z.pos t2)).

(** Remove from the running timers tree, add to the expired timers list, set expired. *)
Definition expire_timer (o : timers_t) (t : ptr) : option timers_t :=
  x ← CAvl.CAvl_Remove (timers_tree o) t;
  let o := u_to_list_node (with_tree o x) t in
  l ← LinkedList1.LinkedList1_Append (timers_expired_list o) t;
  let o := with_expired o l in
  e ← timers o !! t;
  Some (set_timer o t (timer_with_state e TIMER_STATE_EXPIRED)).

(** The loop of [move_expired_timers]; the result tells whether a timer was moved. *)
Fixpoint move_expired_loop (fuel : nat) (o : timers_t) (now : Z) (moved : bool) : option (timers_t * bool) :=
  match fuel with
  | O => None
  | S fuel =>
      ref ← CAvl.CAvl_GetFirst (timers_tree o);
      match ref with
      | None => Some (o, moved)
      | Some timer =>
          e ← timers o !! timer;
          ASSERT bool_decide (state e = TIMER_STATE_RUNNING);
          if absTime e >? now then Some (o, moved) else
          o ← expire_timer o timer;
          move_expired_loop fuel o now true
      end
  end.
Definition timers_fuel (o : timers_t) : nat := S (size (timers o)).
Definition move_expired_timers (o : timers_t) (now : Z) : option (timers_t * bool) :=
  move_expired_loop (timers_fuel o) o now false.

(** The loop of [move_first_timers]. *)
Fixpoint move_first_loop (fuel : nat) (o : timers_t) (first_time : Z) : option timers_t :=
  match fuel with
  | O => None
  | S fuel =>
      ref ← CAvl.CAvl_GetFirst (timers_tree o);
      match ref with
      | None => Some o
      | Some timer =>
          e ← timers o !! timer;
          ASSERT bool_decide (state e = TIMER_STATE_RUNNING);
          ASSERT absTime e >=? first_time;
          if absTime e >? first_time then Some o else
          o ← expire_timer o timer;
          move_first_loop fuel o first_time
      end
  end.
Definition move_first_timers (o : timers_t) : option timers_t :=
  ref ← CAvl.CAvl_GetFirst (timers_tree o);
  first_timer ← ref;
  e ← timers o !! first_timer;
  ASSERT bool_decide (state e = TIMER_STATE_RUNNING);
  let first_time := absTime e in
  o ← expire_timer o first_timer;
  move_first_loop (timers_fuel o) o first_time.

(** [absTime] is not initialised, here 0; it is set before the timer is in the tree. *)
Definition BSmallTimer_Init (o : timers_t) (t : ptr) : timers_t := set_timer o t (mk_timer 0 TIMER_STATE_INACTIVE true 0).
Definition BTimer_Init (o : timers_t) (t : ptr) (ms : Z) : timers_t := set_timer o t (mk_timer 0 TIMER_STATE_INACTIVE false ms).
Definition BSmallTimer_IsRunning (o : timers_t) (t : ptr) : option bool :=
  e ← timers o !! t; Some (negb (bool_decide (state e = TIMER_STATE_INACTIVE))).

(** A [BTimer] has a [BSmallTimer] as its base. *)
Definition BTimer_IsRunning (o : timers_t) (t : ptr) : option bool := BSmallTimer_IsRunning o t.

Definition BReactor_RemoveSmallTimer (o : timers_t) (t : ptr) : option timers_t :=
  e ← timers o !! t;
  if bool_decide (state e = TIMER_STATE_INACTIVE) then Some o else
  o ← (if bool_decide (state e = TIMER_STATE_EXPIRED) then
         l ← LinkedList1.LinkedList1_Remove (timers_expired_list o) t;
         Some (with_expired o l)
       else
         x ← CAvl.CAvl_Remove (timers_tree o) t;
         Some (with_tree o x));
  e ← timers o !! t;
  Some (set_timer o t (timer_with_state e TIMER_STATE_INACTIVE)).

Inductive timer_mode := BTIMER_SET_ABSOLUTE | BTIMER_SET_RELATIVE.

(** [now]: what [btime_gettime] returns. *)
Definition BReactor_SetSmallTimer (o : timers_t) (t : ptr) (mode : timer_mode) (time now : Z) : option timers_t :=
  o ← BReactor_RemoveSmallTimer o t;
  let time := match mode with BTIMER_SET_RELATIVE => btime_add now time | BTIMER_SET_ABSOLUTE => time end in
  e ← timers o !! t;
  let o := set_timer o t (timer_with_state (timer_with_absTime e time) TIMER_STATE_RUNNING) in
  let o := u_to_tree_links o t in
  '(x, res, _) ← CAvl.CAvl_Insert (compare_timers (timers o)) (timers_tree o) t;
  ASSERT res;
  Some (with_tree o x).

Definition BReactor_SetTimer (o : timers_t) (t : ptr) (now : Z) : option timers_t :=
  e ← timers o !! t; BReactor_SetSmallTimer o t BTIMER_SET_RELATIVE (msTime e) now.
Definition BReactor_SetTimerAfter (o : timers_t) (t : ptr) (after now : Z) : option timers_t :=
  BReactor_SetSmallTimer o t BTIMER_SET_RELATIVE after now.
Definition BReactor_SetTimerAbsolute (o : timers_t) (t : ptr) (time now : Z) : option timers_t :=
  BReactor_SetSmallTimer o t BTIMER_SET_ABSOLUTE time now.
Definition BReactor_RemoveTimer (o : timers_t) (t : ptr) : option timers_t := BReactor_RemoveSmallTimer o t.

(** ** File descriptors *)
Definition BSYSTEM_MAX_RESULTS : Z := 64.
Definition BREACTOR_READ : Z := 1.
Definition BREACTOR_WRITE : Z := 2.
Definition BREACTOR_ERROR : Z := 4.
Definition BREACTOR_HUP : Z := 8.
Definition EPOLLIN : Z := 1.
Definition EPOLLOUT : Z := 4.
Definition EPOLLERR : Z := 8.
Definition EPOLLHUP : Z := 16.

(** [epoll_returned_ptr] points to the member [data.ptr] of an entry of the results: its index. *)
Record BFileDescriptor := mk_fd { fd : Z; active : bool; waitEvents : Z; epoll_returned_ptr : option nat }.
Record epoll_event := mk_event { data_ptr : option ptr; events : Z }.

(** [epoll]: the interest list of the kernel, by file descriptor. *)
Record fds_t := mk_fds {
  fds : gmap ptr BFileDescriptor;
  epoll : gmap Z (ptr * Z);
  epoll_results : list epoll_event;
  epoll_results_num : nat;
  epoll_results_pos : nat;
  d_fds_counter : Z;
}.
Definition set_fd (o : fds_t) (f : ptr) (e : BFileDescriptor) : fds_t :=
  mk_fds (<[f := e]> (fds o)) (epoll o) (epoll_results o) (epoll_results_num o) (epoll_results_pos o) (d_fds_counter o).
Definition with_epoll (o : fds_t) (k : gmap Z (ptr * Z)) : fds_t :=
  mk_fds (fds o) k (epoll_results o) (epoll_results_num o) (epoll_results_pos o) (d_fds_counter o).
Definition with_results (o : fds_t) (l : list epoll_event) (num pos : nat) : fds_t :=
  mk_fds (fds o) (epoll o) l num pos (d_fds_counter o).
Definition with_fds_counter (o : fds_t) (c : Z) : fds_t :=
  mk_fds (fds o) (epoll o) (epoll_results o) (epoll_results_num o) (epoll_results_pos o) c.

(** [epoll_ctl]: fails when the descriptor is, or is not, registered; [mem]: there is memory. *)
Definition epoll_ctl_add (k : gmap Z (ptr * Z)) (mem : bool) (fd : Z) (p : ptr) : option (gmap Z (ptr * Z)) :=
  match k !! fd with None => if mem then Some (<[fd := (p, 0)]> k) else None | Some _ => None end.
Definition epoll_ctl_mod (k : gmap Z (ptr * Z)) (fd : Z) (p : ptr) (ev : Z) : option (gmap Z (ptr * Z)) :=
  match k !! fd with Some _ => Some (<[fd := (p, ev)]> k) | None => None end.
Definition epoll_ctl_del (k : gmap Z (ptr * Z)) (fd : Z) : option (gmap Z (ptr * Z)) :=
  match k !! fd with Some _ => Some (delete fd k) | None => None end.

Definition BFileDescriptor_Init (o : fds_t) (f : ptr) (fd : Z) : fds_t := set_fd o f (mk_fd fd false 0 None).

(** The result tells whether it succeeded. *)
Definition BReactor_AddFileDescriptor (o : fds_t) (f : ptr) (mem : bool) : option (fds_t * bool) :=
  e ← fds o !! f;
  ASSERT negb (active e);
  match epoll_ctl_add (epoll o) mem (fd e) f with
  | None => Some (o, false)
  | Some k =>
      c ← DebugCounter_Increment (d_fds_counter o);
      Some (with_fds_counter (set_fd (with_epoll o k) f (mk_fd (fd e) true 0 None)) c, true)
  end.

Definition set_data_ptr (l : list epoll_event) (i : nat) (p : option ptr) : option (list epoll_event) :=
  ev ← l !! i; Some (<[i := mk_event p (events ev)]> l).

Definition BReactor_RemoveFileDescriptor (o : fds_t) (f : ptr) : option fds_t :=
  e ← fds o !! f;
  ASSERT active e;
  c ← DebugCounter_Decrement (d_fds_counter o);
  let o := set_fd (with_fds_counter o c) f (mk_fd (fd e) false (waitEvents e) (epoll_returned_ptr e)) in
  k ← epoll_ctl_del (epoll o) (fd e);
  let o := with_epoll o k in
  match epoll_returned_ptr e with
  | Some i => l ← set_data_ptr (epoll_results o) i None; Some (with_results o l (epoll_results_num o) (epoll_results_pos o))
  | None => Some o
  end.

Definition has (x bit : Z) : bool := negb (Z.land x bit =? 0).
Definition bit_if (b : bool) (bit : Z) : Z := if b then bit else 0.

Definition BReactor_SetFileDescriptorEvents (o : fds_t) (f : ptr) (ev : Z) : option fds_t :=
  e ← fds o !! f;
  ASSERT active e;
  ASSERT Z.ldiff ev (Z.lor BREACTOR_READ BREACTOR_WRITE) =? 0;
  if waitEvents e =? ev then Some o else
  let eevents := Z.lor (bit_if (has ev BREACTOR_READ) EPOLLIN) (bit_if (has ev BREACTOR_WRITE) EPOLLOUT) in
  k ← epoll_ctl_mod (epoll o) (fd e) f eevents;
  Some (set_fd (with_epoll o k) f (mk_fd (fd e) (active e) ev (epoll_returned_ptr e))).

(** [set_epoll_fd_pointers], from the entry [i] on for [n] entries. *)
Fixpoint set_epoll_fd_pointers (o : fds_t) (i n : nat) : option fds_t :=
  match n with
  | O => Some o
  | S n =>
      ev ← epoll_results o !! i;
      bfd ← data_ptr ev;
      e ← fds o !! bfd;
      ASSERT active e;
      ASSERT bool_decide (epoll_returned_ptr e = None);
      set_epoll_fd_pointers (set_fd o bfd (mk_fd (fd e) (active e) (waitEvents e) (Some i))) (S i) n
  end.

(** The events to report for the watched events [wait] and the events [ev] of epoll. *)
Definition reported_events (wait ev : Z) : Z :=
  Z.lor (bit_if (has wait BREACTOR_READ && has ev EPOLLIN) BREACTOR_READ)
    (Z.lor (bit_if (has wait BREACTOR_WRITE && has ev EPOLLOUT) BREACTOR_WRITE)
      (Z.lor (bit_if (has ev EPOLLERR) BREACTOR_ERROR) (bit_if (has ev EPOLLHUP) BREACTOR_HUP))).

(** Dispatch of the next entry of the results, if there is one: the handler called. *)
Definition dispatch_fd (o : fds_t) : option (fds_t * option (ptr * Z)) :=
  let i := epoll_results_pos o in
  ev ← epoll_results o !! i;
  let o := with_results o (epoll_results o) (epoll_results_num o) (S i) in
  match data_ptr ev with
  | None => Some (o, None)
  | Some bfd =>
      e ← fds o !! bfd;
      ASSERT active e;
      ASSERT bool_decide (epoll_returned_ptr e = Some i);
      let o := set_fd o bfd (mk_fd (fd e) (active e) (waitEvents e) None) in
      let evs := reported_events (waitEvents e) (events ev) in
      if evs =? 0 then Some (o, None) else Some (o, Some (bfd, evs))
  end.

(** ** Limits *)
Record BReactorLimit := mk_limit { limit : Z; count : Z }.
Record limits_t := mk_limits {
  limits : gmap ptr BReactorLimit;
  active_limits_list : LinkedList1.t;
  d_limits_ctr : Z;
}.
Definition set_limit (o : limits_t) (x : ptr) (e : BReactorLimit) : limits_t :=
  mk_limits (<[x := e]> (limits o)) (active_limits_list o) (d_limits_ctr o).
Definition with_active (o : limits_t) (l : LinkedList1.t) : limits_t := mk_limits (limits o) l (d_limits_ctr o).

(** The object comes into being, with its list node. *)
Definition BReactorLimit_Init (o : limits_t) (x : ptr) (lim : Z) : option limits_t :=
  ASSERT lim >? 0;
  c ← DebugCounter_Increment (d_limits_ctr o);
  let l := active_limits_list o in
  Some (mk_limits (<[x := mk_limit lim 0]> (limits o))
    (LinkedList1.mk (<[x := LinkedList1.mk_node None None]> (LinkedList1.heap l)) (LinkedList1.first l) (LinkedList1.last l)) c).
Definition BReactorLimit_Free (o : limits_t) (x : ptr) : option limits_t :=
  e ← limits o !! x;
  c ← DebugCounter_Decrement (d_limits_ctr o);
  l ← (if count e >? 0 then LinkedList1.LinkedList1_Remove (active_limits_list o) x else Some (active_limits_list o));
  Some (mk_limits (delete x (limits o)) (LinkedList1.mk (delete x (LinkedList1.heap l)) (LinkedList1.first l) (LinkedList1.last l)) c).
Definition BReactorLimit_Increment (o : limits_t) (x : ptr) : option (limits_t * bool) :=
  e ← limits o !! x;
  if count e >=? limit e then Some (o, false) else
  let o := set_limit o x (mk_limit (limit e) (count e + 1)) in
  if count e + 1 =? 1 then
    l ← LinkedList1.LinkedList1_Append (active_limits_list o) x;
    Some (with_active o l, true)
  else Some (o, true).
Definition BReactorLimit_SetLimit (o : limits_t) (x : ptr) (lim : Z) : option limits_t :=
  e ← limits o !! x;
  ASSERT lim >? 0;
  Some (set_limit o x (mk_limit lim (count e))).

(** The loop at the end of [wait_for_events]. *)
Fixpoint reset_limits (fuel : nat) (o : limits_t) : option limits_t :=
  match fuel with
  | O => None
  | S fuel =>
      match LinkedList1.LinkedList1_GetFirst (active_limits_list o) with
      | None => Some o
      | Some x =>
          e ← limits o !! x;
          ASSERT count e >? 0;
          let o := set_limit o x (mk_limit (limit e) 0) in
          l ← LinkedList1.LinkedList1_Remove (active_limits_list o) x;
          reset_limits fuel (with_active o l)
      end
  end.

(** ** The event loop *)
Record t := mk {
  exiting : bool;
  exit_code : Z;
  pending_jobs : BPending.t positive;
  tm : timers_t;
  fdt : fds_t;
  lm : limits_t;
}.
Definition with_jobs (o : t) (j : BPending.t positive) : t := mk (exiting o) (exit_code o) j (tm o) (fdt o) (lm o).
Definition with_tm (o : t) (x : timers_t) : t := mk (exiting o) (exit_code o) (pending_jobs o) x (fdt o) (lm o).
Definition with_fdt (o : t) (x : fds_t) : t := mk (exiting o) (exit_code o) (pending_jobs o) (tm o) x (lm o).
Definition with_lm (o : t) (x : limits_t) : t := mk (exiting o) (exit_code o) (pending_jobs o) (tm o) (fdt o) x.

(** What [BReactor_Init] sets up; there are no objects yet. *)
Definition initial : t :=
  mk false 0 BPending.BPendingGroup_Init
    (mk_timers ∅ (CAvl.CAvl_Init (BAVL.mk ∅ None)) (LinkedList1.LinkedList1_Init (LinkedList1.mk ∅ None None)))
    (mk_fds ∅ ∅ (replicate (Z.to_nat BSYSTEM_MAX_RESULTS) (mk_event None 0)) 0 0 0)
    (mk_limits ∅ (LinkedList1.LinkedList1_Init (LinkedList1.mk ∅ None None)) 0).
(** [efd]: the answer of [epoll_create]; [inl tt]: the failure the function reports. *)
Definition BReactor_Init (efd : Z) : unit + t := if efd <? 0 then inl tt else inr initial.

Definition BReactor_Free (o : t) : option unit :=
  ASSERT negb (BPending.BPendingGroup_HasJobs (pending_jobs o));
  ASSERT CAvl.CAvl_IsEmpty (timers_tree (tm o));
  ASSERT LinkedList1.LinkedList1_IsEmpty (timers_expired_list (tm o));
  ASSERT LinkedList1.LinkedList1_IsEmpty (active_limits_list (lm o));
  _ ← DebugCounter_Free (d_fds_counter (fdt o));
  DebugCounter_Free (d_limits_ctr (lm o)).

Definition BReactor_Quit (o : t) (code : Z) : t := mk true code (pending_jobs o) (tm o) (fdt o) (lm o).

(** What [epoll_wait] returns: results, [EINTR], or another error. *)
Inductive wait_answer := WReturned (l : list epoll_event) | WInterrupted | WFailed.

(** [timeout_rel_trunc] for [timeout_rel]. *)
Definition truncate_timeout (timeout_rel : Z) : Z := if timeout_rel >? INT_MAX then INT_MAX else timeout_rel.

(** The loop of [wait_for_events] before the reset of the limits.  A round has the answer of
    [epoll_wait] and the time after it, which is read in the loop; the result has the time of
    the last round.  [Some None]: the rounds are over and it still waits. *)
Fixpoint wait_loop (o : t) (timeout_abs : option Z) (now : Z) (rounds : list (wait_answer * Z)) : option (option (t * Z)) :=
  match rounds with
  | [] => Some None
  | (answer, clock) :: rounds =>
      timeout ← match timeout_abs with
        | Some abs => ASSERT is_int64 (abs - now); Some (Some (abs - now))
        | None => Some None
        end;
      let timeout_rel := default 0 timeout in
      let timeout_rel_trunc := match timeout with Some rel => truncate_timeout rel | None => 0 end in
      let try_again :=
        match timeout_abs with
        | Some abs => if clock >=? abs then x ← move_first_timers (tm o); Some (Some (with_tm o x, clock)) else wait_loop o timeout_abs clock rounds
        | None => wait_loop o timeout_abs now rounds
        end in
      match answer with
      | WInterrupted => try_again
      | WFailed => None
      | WReturned l =>
          let waitres := zlen l in
          ASSERT negb (waitres =? 0) || bool_decide (is_Some timeout_abs);
          ASSERT waitres <=? BSYSTEM_MAX_RESULTS;
          if negb (waitres =? 0) || (timeout_rel_trunc =? timeout_rel) then
            if negb (waitres =? 0) then
              let f := with_results (fdt o) (l ++ drop (length l) (epoll_results (fdt o))) (length l) (epoll_results_pos (fdt o)) in
              f ← set_epoll_fd_pointers f 0 (length l);
              Some (Some (with_fdt o f, clock))
            else
              x ← move_first_timers (tm o);
              Some (Some (with_tm o x, clock))
          else try_again
      end
  end.

(** [now]: the time when it is called, which is read when there is a timer. *)
Definition wait_for_events (o : t) (now : Z) (rounds : list (wait_answer * Z)) : option (option (t * Z)) :=
  ASSERT negb (BPending.BPendingGroup_HasJobs (pending_jobs o));
  ASSERT LinkedList1.LinkedList1_IsEmpty (timers_expired_list (tm o));
  ASSERT bool_decide (epoll_results_pos (fdt o) = epoll_results_num (fdt o));
  let o := with_fdt o (with_results (fdt o) (epoll_results (fdt o)) 0 0) in
  first_timer ← CAvl.CAvl_GetFirst (timers_tree (tm o));
  let finish (w : option (option (t * Z))) : option (option (t * Z)) :=
    r ← w;
    match r with
    | None => Some None
    | Some (o, time) => x ← reset_limits (S (size (limits (lm o)))) (lm o); Some (Some (with_lm o x, time))
    end in
  match first_timer with
  | Some timer =>
      e ← timers (tm o) !! timer;
      ASSERT bool_decide (state e = TIMER_STATE_RUNNING);
      '(x, moved) ← move_expired_timers (tm o) now;
      if (moved : bool) then Some (Some (with_tm o x, now)) else
      e ← timers x !! timer;
      finish (wait_loop (with_tm o x) (Some (absTime e)) now rounds)
  | None => finish (wait_loop o None 0 rounds)
  end.

(** The handler a step of the loop calls, if any. *)
Inductive called := CJob (j : positive) | CTimer (timer : ptr) | CFd (f : ptr) (events : Z).

(** One iteration of the loop of [BReactor_Exec] when not exiting, up to the call of the handler,
    with the time at its end. *)
Definition BReactor_Exec_step (o : t) (now : Z) (rounds : list (wait_answer * Z)) : option (option (t * Z * option called)) :=
  if BPending.BPendingGroup_HasJobs (pending_jobs o) then
    '(j, h) ← BPending.BPendingGroup_ExecuteJob (pending_jobs o);
    Some (Some (with_jobs o j, now, Some (CJob h)))
  else match LinkedList1.LinkedList1_GetFirst (timers_expired_list (tm o)) with
  | Some timer =>
      e ← timers (tm o) !! timer;
      ASSERT bool_decide (state e = TIMER_STATE_EXPIRED);
      l ← LinkedList1.LinkedList1_Remove (timers_expired_list (tm o)) timer;
      let x := set_timer (with_expired (tm o) l) timer (timer_with_state e TIMER_STATE_INACTIVE) in
      Some (Some (with_tm o x, now, Some (CTimer timer)))
  | None =>
      if bool_decide (epoll_results_pos (fdt o) < epoll_results_num (fdt o))%nat then
        '(f, c) ← dispatch_fd (fdt o);
        Some (Some (with_fdt o f, now, match c with Some (bfd, evs) => Some (CFd bfd evs) | None => None end))
      else
        r ← wait_for_events o now rounds;
        Some (match r with Some (o, time) => Some (o, time, None) | None => None end)
  end.

(** One iteration of the loop of [BReactor_Synchronize] when not exiting: [inl tt], [ref] is
    reached. *)
Definition BReactor_Synchronize_step (o : t) (ref : positive) : option (unit + t * positive) :=
  ASSERT BPending.BPendingGroup_HasJobs (pending_jobs o);
  if bool_decide (BPending.BPendingGroup_PeekJob (pending_jobs o) = Some ref) then Some (inl tt) else
  '(j, h) ← BPending.BPendingGroup_ExecuteJob (pending_jobs o);
  Some (inr (with_jobs o j, h)).

End BReactor.
