(* ===== verification/BReactorTimers.v ===== *)
(** * Timers of the reactor

    The tree of running timers and the list of expired timers, against two lists of timers: the
    running ones in the order of time and address, and the expired ones in the order in which
    their handlers are called. *)

From stdpp Require Import gmap sorting.
From S2P Require Import Prelude BAddr LinkedList1 EntryOrder BAVL BAVLSpec CAvl CAvlSpec BReactor.
Import BAVLSpec CAvlSpec BReactor.

Module BReactorTimers.

(** ** The order of timers *)
Definition tkey (ts : gmap ptr BSmallTimer) (i : ptr) : option (Z * Z) := e ← ts !! i; Some (absTime e, Z.pos i).

Lemma compare_timers_key ts i j : compare_timers ts i j = (v ← tkey ts i; w ← tkey ts j; Some (tcmp v w)).
Proof. unfold compare_timers, tkey. by destruct (ts !! i), (ts !! j). Qed.

Abbreviation in_time_order ts := (by_number (tkey ts)).

(** ** Representation *)
Record timers_ok (o : timers_t) (lt le : list ptr) : Prop := {
  to_tree : tree_of (timers_tree o) lt;
  to_sorted : in_time_order (timers o) lt;
  to_list : LinkedList1.rep (timers_expired_list o) le;
  to_state : forall i e, timers o !! i = Some e -> (state e = TIMER_STATE_RUNNING <-> i ∈ lt) /\ (state e = TIMER_STATE_EXPIRED <-> i ∈ le);
  to_dom : forall i, i ∈ lt ++ le -> is_Some (timers o !! i);
}.

Lemma timers_ok_nodup o lt le : timers_ok o lt le -> NoDup (lt ++ le).
Proof.
  intros T. apply list.NoDup_app. split; [eapply tree_of_nodup, T|]. split; [|apply (to_list _ _ _ T)].
  intros i Hi Hj. destruct (to_dom _ _ _ T i) as [e E]; [apply elem_of_app; by left|]. destruct (to_state _ _ _ T i e E) as [H1 H2].
  apply H1 in Hi. apply H2 in Hj. congruence.
Qed.

Lemma timers_ok_fuel o lt le : timers_ok o lt le -> (length lt < timers_fuel o)%nat.
Proof.
  intros T. unfold timers_fuel. pose proof (timers_ok_nodup _ _ _ T) as [Hn _]%list.NoDup_app.
  rewrite <- (size_list_to_set (C := gset ptr)) by done. rewrite <- size_dom. apply Nat.lt_succ_r, subseteq_size.
  intros i. rewrite elem_of_list_to_set. intros Hi. apply elem_of_dom, (to_dom _ _ _ T), elem_of_app. by left.
Qed.

(** The expiration time of a timer. *)
Definition time_of (o : timers_t) (i : ptr) : option Z := absTime <$> timers o !! i.

Lemma sorted_times o l i j k : in_time_order (timers o) (i :: l) -> j ∈ l -> time_of o i = Some k -> exists k', time_of o j = Some k' /\ k <= k'.
Proof.
  unfold time_of. intros Hs Hj Hi. destruct (timers o !! i) as [e|] eqn:E; [|done]. injection Hi as <-.
  destruct (by_number_head _ _ _ j (absTime e, Z.pos i) Hs Hj) as (w & Hw & Hle); [unfold tkey; by rewrite E|].
  unfold tkey in Hw. destruct (timers o !! j) as [e'|]; [|done]. injection Hw as <-. by exists (absTime e').
Qed.

(** The state of one timer changes. *)
Lemma state_change (ts : gmap ptr BSmallTimer) (t : ptr) e s (lt le lt' le' : list ptr) :
  (forall i e, ts !! i = Some e -> (state e = TIMER_STATE_RUNNING <-> i ∈ lt) /\ (state e = TIMER_STATE_EXPIRED <-> i ∈ le)) ->
  (s = TIMER_STATE_RUNNING <-> t ∈ lt') -> (s = TIMER_STATE_EXPIRED <-> t ∈ le') ->
  (forall i, i <> t -> (i ∈ lt' <-> i ∈ lt) /\ (i ∈ le' <-> i ∈ le)) ->
  forall i f, <[t := timer_with_state e s]> ts !! i = Some f -> (state f = TIMER_STATE_RUNNING <-> i ∈ lt') /\ (state f = TIMER_STATE_EXPIRED <-> i ∈ le').
Proof.
  intros H Hr He Hne i f. destruct (decide (i = t)) as [->|N].
  - rewrite lookup_insert_eq. intros [= <-]. done.
  - rewrite lookup_insert_ne by done. intros E. destruct (Hne i N) as [-> ->]. by apply H.
Qed.

Lemma tkey_with_state (ts : gmap ptr BSmallTimer) (t : ptr) e s i : ts !! t = Some e -> tkey (<[t := timer_with_state e s]> ts) i = tkey ts i.
Proof. intros E. unfold tkey. destruct (decide (i = t)) as [->|N]; [by rewrite lookup_insert_eq, E|by rewrite lookup_insert_ne]. Qed.

Lemma time_with_state o (t : ptr) e s i : timers o !! t = Some e -> absTime <$> (<[t := timer_with_state e s]> (timers o)) !! i = time_of o i.
Proof. intros E. unfold time_of. destruct (decide (i = t)) as [->|N]; [by rewrite lookup_insert_eq, E|by rewrite lookup_insert_ne]. Qed.

Lemma dom_change {A} (m : gmap ptr A) t e i : is_Some (m !! t) -> is_Some (<[t := e]> m !! i) <-> is_Some (m !! i).
Proof. intros Ht. destruct (decide (i = t)) as [->|N]; [rewrite lookup_insert_eq; split; [done|by eexists]|by rewrite lookup_insert_ne]. Qed.

(** What a timer keeps when its state changes. *)
Definition fields (e : BSmallTimer) : Z * bool * Z := (absTime e, is_small e, msTime e).

Lemma fields_with_state (ts : gmap ptr BSmallTimer) (t : ptr) e s i : ts !! t = Some e -> fields <$> (<[t := timer_with_state e s]> ts) !! i = fields <$> ts !! i.
Proof. intros E. destruct (decide (i = t)) as [->|N]; [by rewrite lookup_insert_eq, E|by rewrite lookup_insert_ne]. Qed.

(** *** Expiry *)
Lemma expire_ok o t lt le : timers_ok o (t :: lt) le ->
  exists o', expire_timer o t = Some o' /\ timers_ok o' lt (le ++ [t]) /\ (forall i, time_of o' i = time_of o i) /\
    (forall i, fields <$> timers o' !! i = fields <$> timers o !! i).
Proof.
  intros T. pose proof (timers_ok_nodup _ _ _ T) as Hn. cbn [app] in Hn. apply list.NoDup_cons in Hn as [Hnt Hn]. rewrite elem_of_app in Hnt.
  destruct (to_dom _ _ _ T t) as [e Ee]; [by left|]. destruct T as [T1 T2 T3 T4 T5]. unfold expire_timer.
  destruct (CAvl_remove_ok (fun _ => True) tcmp (tkey (timers o)) _ _ t T1 T2) as (x & -> & T1' & T2'); [by left|]. cbn [mbind option_bind].
  rewrite without_cons_eq, without_id in T1', T2' by tauto.
  set (o1 := u_to_list_node (with_tree o x) t).
  destruct (LinkedList1.append_ok (timers_expired_list o1) t) with (l := le) as (l' & -> & R' & _).
  { unfold o1. cbn. rewrite lookup_insert_eq. by eexists. }
  { eapply LinkedList1.rep_ext; [exact T3|done|done|]. intros i Hi. cbn. apply lookup_insert_ne. intros ->. tauto. }
  { tauto. }
  cbn [mbind option_bind with_expired timers u_to_list_node with_tree o1]. rewrite Ee. cbn [mbind option_bind]. eexists. split; [done|].
  split; [|split; [intros i; exact (time_with_state o t e _ i Ee)|intros i; exact (fields_with_state _ t e _ i Ee)]].
  split; cbn [set_timer timers timers_tree timers_expired_list with_expired].
  - apply tree_of_delete; [done|tauto].
  - eapply sorted_ext; [|exact T2']. intros i _. by apply tkey_with_state.
  - done.
  - eapply state_change; [exact T4|split; [done|tauto]|split; [intros _; apply elem_of_app; right; by left|done]|].
    intros i N. rewrite !elem_of_app, !elem_of_cons, elem_of_nil. tauto.
  - intros i Hi. apply dom_change; [by eexists|]. apply T5. rewrite !elem_of_app, !elem_of_cons, ?elem_of_nil in *. tauto.
Qed.

Definition at_most (o : timers_t) (k : Z) (i : ptr) : Prop := exists v, time_of o i = Some v /\ v <= k.
Definition later (o : timers_t) (k : Z) (i : ptr) : Prop := exists v, time_of o i = Some v /\ k < v.

(** The running timers [lt] are those that expire by [k], which were moved to the end of the
    expired timers [le] in their order, and the later ones. *)
Record expired_by (k : Z) (o : timers_t) (lt le : list ptr) (o' : timers_t) (due rest : list ptr) : Prop := {
  ex_split : lt = due ++ rest;
  ex_ok : timers_ok o' rest (le ++ due);
  ex_times : forall i, time_of o' i = time_of o i;
  ex_fields : forall i, fields <$> timers o' !! i = fields <$> timers o !! i;
  ex_due : Forall (at_most o k) due;
  ex_rest : Forall (later o k) rest;
}.

Lemma expired_none k o lt le : timers_ok o lt le -> Forall (later o k) lt -> expired_by k o lt le o [] lt.
Proof. intros T H. split; try done. by rewrite app_nil_r. Qed.

Lemma expired_more k o t lt le o1 o2 due rest : timers_ok o (t :: lt) le -> at_most o k t ->
  (forall i, time_of o1 i = time_of o i) -> (forall i, fields <$> timers o1 !! i = fields <$> timers o !! i) ->
  expired_by k o1 lt (le ++ [t]) o2 due rest -> expired_by k o (t :: lt) le o2 (t :: due) rest.
Proof.
  intros T Hk Ht Hd [E1 E2 E3 E4 E5 E6]. split.
  - by rewrite E1.
  - by rewrite <- app_assoc in E2.
  - intros i. by rewrite E3.
  - intros i. by rewrite E4.
  - constructor; [done|]. eapply list.Forall_impl; [exact E5|]. intros i (v & Hv & ?). exists v. by rewrite <- Ht.
  - eapply list.Forall_impl; [exact E6|]. intros i (v & Hv & ?). exists v. by rewrite <- Ht.
Qed.

Lemma head_running o t lt le : timers_ok o (t :: lt) le -> exists e, timers o !! t = Some e /\ state e = TIMER_STATE_RUNNING /\ time_of o t = Some (absTime e) /\
  forall i, i ∈ lt -> exists v, time_of o i = Some v /\ absTime e <= v.
Proof.
  intros T. destruct (to_dom _ _ _ T t) as [e E]; [by left|]. exists e. split; [done|].
  assert (time_of o t = Some (absTime e)) as Ht by (unfold time_of; by rewrite E).
  split_and!; [|done|].
  - apply (to_state _ _ _ T t e E). by left.
  - intros i Hi. by eapply sorted_times; [apply (to_sorted _ _ _ T)|..].
Qed.

Lemma head_later o t lt le e k : timers_ok o (t :: lt) le -> timers o !! t = Some e -> k < absTime e -> Forall (later o k) (t :: lt).
Proof.
  intros T E Hk. destruct (head_running _ _ _ _ T) as (e' & E' & _ & Ht & Hl). simplify_eq. constructor; [by exists (absTime e)|].
  apply list.Forall_forall. intros i Hi. destruct (Hl i Hi) as (v & Hv & ?). exists v. split; [done|lia].
Qed.

Lemma move_expired_loop_ok now fuel : forall o lt le moved, timers_ok o lt le -> (length lt < fuel)%nat ->
  exists o' due rest, move_expired_loop fuel o now moved = Some (o', moved || bool_decide (due <> [])) /\ expired_by now o lt le o' due rest /\ (due = [] -> o' = o).
Proof.
  induction fuel as [|fuel IH]; intros o lt le moved T Hf; [lia|]. cbn [move_expired_loop].
  destruct (CAvl_first_ok _ _ (to_tree _ _ _ T)) as [-> _]. cbn [mbind option_bind]. destruct lt as [|t lt]; cbn [head].
  - exists o, [], []. rewrite orb_false_r. split; [done|]. split; [|done]. by apply expired_none.
  - destruct (head_running _ _ _ _ T) as (e & E & Hs & Ht & Hl). rewrite E. cbn [mbind option_bind]. rewrite bool_decide_true by done. case_if.
    + exists o, [], (t :: lt). rewrite orb_false_r. split; [done|]. split; [|done]. apply expired_none; [done|]. by apply (head_later o t lt le e); [..|lia].
    + destruct (expire_ok _ _ _ _ T) as (o1 & -> & T1 & Ht1 & Hd1). cbn [mbind option_bind].
      destruct (IH o1 lt (le ++ [t]) true T1) as (o2 & due & rest & -> & H & _); [cbn [length] in Hf; lia|].
      exists o2, (t :: due), rest. split; [by rewrite orb_true_r|]. split; [|done]. eapply expired_more; try done. exists (absTime e). split; [done|lia].
Qed.

Lemma move_expired_ok now o lt le : timers_ok o lt le ->
  exists o' due rest, move_expired_timers o now = Some (o', bool_decide (due <> [])) /\ expired_by now o lt le o' due rest /\ (due = [] -> o' = o).
Proof. intros T. apply (move_expired_loop_ok now _ o lt le false T). by eapply timers_ok_fuel. Qed.

Lemma move_first_loop_ok k fuel : forall o lt le, timers_ok o lt le -> (length lt < fuel)%nat ->
  (forall i, i ∈ lt -> exists v, time_of o i = Some v /\ k <= v) ->
  exists o' due rest, move_first_loop fuel o k = Some o' /\ expired_by k o lt le o' due rest.
Proof.
  induction fuel as [|fuel IH]; intros o lt le T Hf Hk; [lia|]. cbn [move_first_loop].
  destruct (CAvl_first_ok _ _ (to_tree _ _ _ T)) as [-> _]. cbn [mbind option_bind]. destruct lt as [|t lt]; cbn [head].
  - exists o, [], []. split; [done|]. by apply expired_none.
  - destruct (head_running _ _ _ _ T) as (e & E & Hs & Ht & Hl). rewrite E. cbn [mbind option_bind]. rewrite bool_decide_true by done.
    destruct (Hk t) as (v & Hv & ?); [by left|]. replace v with (absTime e) in * by congruence. bool_true. case_if.
    + exists o, [], (t :: lt). split; [done|]. apply expired_none; [done|]. by apply (head_later o t lt le e); [..|lia].
    + destruct (expire_ok _ _ _ _ T) as (o1 & -> & T1 & Ht1 & Hd1). cbn [mbind option_bind].
      destruct (IH o1 lt (le ++ [t]) T1) as (o2 & due & rest & -> & H0).
      * cbn [length] in Hf. lia.
      * intros i Hi. rewrite Ht1. apply Hk. by right.
      * exists o2, (t :: due), rest. split; [done|]. eapply expired_more; try done. exists (absTime e). split; [done|lia].
Qed.

(** At a time-out the timers with the earliest time expire. *)
Lemma move_first_ok o t lt le k : timers_ok o (t :: lt) le -> time_of o t = Some k ->
  exists o' due rest, move_first_timers o = Some o' /\ expired_by k o (t :: lt) le o' (t :: due) rest.
Proof.
  intros T Hk. unfold move_first_timers. destruct (CAvl_first_ok _ _ (to_tree _ _ _ T)) as [-> _]. cbn [mbind option_bind head].
  destruct (head_running _ _ _ _ T) as (e & E & Hs & Ht & Hl). rewrite E. cbn [mbind option_bind]. rewrite bool_decide_true by done.
  replace (absTime e) with k in * by congruence. destruct (expire_ok _ _ _ _ T) as (o1 & -> & T1 & Ht1 & Hd1). cbn [mbind option_bind].
  destruct (move_first_loop_ok k (timers_fuel o1) o1 lt (le ++ [t]) T1) as (o2 & due & rest & -> & H).
  - by eapply timers_ok_fuel.
  - intros i Hi. rewrite Ht1. by apply Hl.
  - exists o2, due, rest. split; [done|]. eapply expired_more; try done. by exists k.
Qed.

(** *** Setting and removing timers *)
Lemma list_remove_ok l le t : LinkedList1.rep l le -> t ∈ le ->
  exists l', LinkedList1.LinkedList1_Remove l t = Some l' /\ LinkedList1.rep l' (without t le).
Proof.
  intros R Ht. destruct (LinkedList1.cut le t (proj1 R) Ht) as (l1 & l2 & -> & _ & ->).
  destruct (LinkedList1.remove_ok l l1 t l2 R) as (l' & E & R' & _). by exists l'.
Qed.

(** What a change of one timer leaves as it is. *)
Definition same_others (t : ptr) (o o' : timers_t) : Prop := forall i, i <> t -> timers o' !! i = timers o !! i.

Lemma remove_timer_ok o t lt le e : timers_ok o lt le -> timers o !! t = Some e ->
  exists o', BReactor_RemoveSmallTimer o t = Some o' /\ timers_ok o' (without t lt) (without t le) /\
    timers o' = <[t := timer_with_state e TIMER_STATE_INACTIVE]> (timers o).
Proof.
  intros T E. pose proof (timers_ok_nodup _ _ _ T) as Hn. destruct (to_state _ _ _ T t e E) as [Hr He]. destruct T as [T1 T2 T3 T4 T5].
  assert (forall x l, tree_of x (without t lt) -> in_time_order (timers o) (without t lt) -> LinkedList1.rep l (without t le) ->
    timers_ok (mk_timers (<[t := timer_with_state e TIMER_STATE_INACTIVE]> (timers o)) x l) (without t lt) (without t le)) as OK.
  { intros x l Hx Hs Hl. split; cbn [timers timers_tree timers_expired_list]; try done.
    - eapply sorted_ext; [|exact Hs]. intros i _. by apply tkey_with_state.
    - eapply state_change; [exact T4|rewrite elem_of_without; split; [done|tauto]..|]. intros i N. rewrite !elem_of_without. tauto.
    - intros i Hi. apply dom_change; [by eexists|]. apply T5. rewrite elem_of_app, !elem_of_without in Hi. rewrite elem_of_app. tauto. }
  unfold BReactor_RemoveSmallTimer. rewrite E. cbn [mbind option_bind]. destruct (state e) eqn:Es.
  - rewrite bool_decide_true by done. exists o. split; [done|].
    assert ((t ∉ lt) /\ t ∉ le) as [Nt Ne] by (split; intros H; [apply Hr in H|apply He in H]; done). rewrite !without_id by done. split; [done|].
    symmetry. apply insert_id. rewrite E. f_equal. destruct e; simpl in *. by subst.
  - do 2 rewrite bool_decide_false by done. assert (t ∈ lt) as Ht by (by apply Hr). assert (t ∉ le) as Ne by (intros H; by apply He in H).
    destruct (CAvl_remove_ok (fun _ => True) tcmp (tkey (timers o)) _ _ t T1 T2 Ht) as (x & -> & T1' & T2'). cbn [mbind option_bind with_tree timers]. rewrite E.
    cbn [mbind option_bind]. eexists. split; [done|]. split; [|done]. apply OK; [done|done|]. by rewrite without_id.
  - rewrite bool_decide_false, bool_decide_true by done. assert (t ∈ le) as Ht by (by apply He). assert (t ∉ lt) as Ne by (intros H; by apply Hr in H).
    destruct (list_remove_ok _ _ t T3 Ht) as (l' & -> & R'). cbn [mbind option_bind with_expired timers]. rewrite E.
    cbn [mbind option_bind]. eexists. split; [done|]. split; [|done]. apply OK; [by rewrite (without_id t lt)..|done].
Qed.

(** The expiration time that is set. *)
Definition deadline (mode : timer_mode) (time now : Z) : Z :=
  match mode with BTIMER_SET_RELATIVE => btime_add now time | BTIMER_SET_ABSOLUTE => time end.

Lemma set_timer_ok o t lt le e mode time now : timers_ok o lt le -> timers o !! t = Some e ->
  exists o' lt', BReactor_SetSmallTimer o t mode time now = Some o' /\ timers_ok o' lt' (without t le) /\
    (forall i, i ∈ lt' <-> i = t \/ i ∈ lt) /\
    timers o' = <[t := mk_timer (deadline mode time now) TIMER_STATE_RUNNING (is_small e) (msTime e)]> (timers o).
Proof.
  intros T E. unfold BReactor_SetSmallTimer. destruct (remove_timer_ok o t lt le e T E) as (o1 & -> & T' & E1). cbn [mbind option_bind].
  rewrite E1, lookup_insert_eq. cbn [mbind option_bind]. fold (deadline mode time now).
  set (e' := timer_with_state (timer_with_absTime (timer_with_state e TIMER_STATE_INACTIVE) (deadline mode time now)) TIMER_STATE_RUNNING).
  set (o2 := u_to_tree_links (set_timer o1 t e') t). destruct T' as [T1 T2 T3 T4 T5].
  assert (timers o2 = <[t := e']> (timers o)) as E2 by (unfold o2; cbn; by rewrite E1, insert_insert_eq).
  assert (in_time_order (timers o2) (without t lt)) as S2.
  { eapply sorted_ext; [|exact T2]. intros i [N _]%elem_of_without. unfold tkey. by rewrite E1, E2, !lookup_insert_ne. }
  assert (t ∉ without t lt) as Nt by (rewrite elem_of_without; tauto).
  assert (tkey (timers o2) t = Some (deadline mode time now, Z.pos t)) as Kt by (unfold tkey; by rewrite E2, lookup_insert_eq).
  destruct (by_number_insert (tkey (timers o2)) _ (timers_tree o1) (without t lt) t (deadline mode time now, Z.pos t) (compare_timers_key _)) as (x & ref & l' & Ei & Tl & Sl & Hl'); [|done..|].
  { intros j w. unfold tkey. destruct (timers o2 !! j); [by intros [= <-]|done]. }
  change (timers_tree o2) with (timers_tree o1). rewrite Ei. cbn [mbind option_bind]. do 2 eexists. split; [done|].
  assert (forall i, i ∈ l' <-> i = t \/ i ∈ lt) as Hl by (intros i; rewrite Hl', elem_of_without; destruct (decide (i = t)); tauto).
  split; [|split; [exact Hl|exact E2]].
  split; cbn [with_tree timers timers_tree timers_expired_list].
  - done.
  - done.
  - unfold o2. eapply LinkedList1.rep_ext; [exact T3|done|done|]. cbn. intros i [N _]%elem_of_without. by apply lookup_delete_ne.
  - rewrite E2. intros i f. destruct (decide (i = t)) as [->|N].
    + rewrite lookup_insert_eq. intros [= <-]. cbn. rewrite Hl, elem_of_without. split; [tauto|]. split; [done|tauto].
    + rewrite lookup_insert_ne by done. intros Ei'. destruct (to_state _ _ _ T i f Ei') as [-> ->]. rewrite Hl, elem_of_without. tauto.
  - intros i Hi. rewrite E2. apply dom_change; [by eexists|]. rewrite elem_of_app, Hl, elem_of_without in Hi.
    destruct Hi as [[-> |Hi]|[_ Hi]]; [by eexists|apply (to_dom _ _ _ T), elem_of_app; tauto..].
Qed.

(** A timer that is not active may be initialised again or go. *)
Lemma timer_inactive o lt le t : timers_ok o lt le -> (forall e, timers o !! t = Some e -> state e = TIMER_STATE_INACTIVE) ->
  (t ∉ lt ++ le) /\
  (forall e, state e = TIMER_STATE_INACTIVE -> timers_ok (set_timer o t e) lt le) /\
  timers_ok (mk_timers (delete t (timers o)) (timers_tree o) (timers_expired_list o)) lt le.
Proof.
  intros T Ht. assert (t ∉ lt ++ le) as Nt.
  { intros H. destruct (to_dom _ _ _ T t H) as [e E]. pose proof (Ht e E) as Hs. apply elem_of_app in H. destruct (to_state _ _ _ T t e E) as [H1 H2]. rewrite Hs in *. destruct H as [H|H]; [apply H1 in H|apply H2 in H]; done. }
  split; [done|]. destruct T as [T1 T2 T3 T4 T5]. rewrite elem_of_app in Nt. split; [intros e He|]; split; cbn [set_timer timers timers_tree timers_expired_list]; try done.
  - eapply sorted_ext; [|exact T2]. intros i Hi. unfold tkey. rewrite lookup_insert_ne; [done|]. intros ->. tauto.
  - intros i f. destruct (decide (i = t)) as [->|N]; [|rewrite lookup_insert_ne by done; apply T4]. rewrite lookup_insert_eq. intros [= <-]. rewrite He. split; (split; [done|tauto]).
  - intros i Hi. rewrite lookup_insert_ne; [by apply T5|]. intros ->. apply elem_of_app in Hi. tauto.
  - eapply sorted_ext; [|exact T2]. intros i Hi. unfold tkey. rewrite lookup_delete_ne; [done|]. intros ->. tauto.
  - intros i f [_ E]%lookup_delete_Some. by apply T4.
  - intros i Hi. rewrite lookup_delete_ne; [by apply T5|]. intros ->. apply elem_of_app in Hi. tauto.
Qed.

Lemma sorted_sublist ts l k : k `sublist_of` l -> in_time_order ts l -> in_time_order ts k.
Proof.
  intros Hk [Hv Hs]. rewrite list.Forall_forall in Hv. split; [apply list.Forall_forall; intros i Hi; apply Hv; by eapply sublist_subseteq|]. clear Hv.
  induction Hk as [|x k l Hk IH|x k l Hk IH]; [done|apply StronglySorted_cons in Hs as [Hx Hs]..].
  - apply StronglySorted_cons. split; [|by apply IH]. rewrite list.Forall_forall in *. intros i Hi. apply Hx. by eapply sublist_subseteq.
  - by apply IH.
Qed.

End BReactorTimers.
