(* ===== verification/BReactorFds.v ===== *)
(** * File descriptors and limits of the reactor

    The results of [epoll_wait] hold pointers to file descriptor objects, and these hold pointers
    back to the results, so that removing a descriptor takes it out of the results still to be
    dispatched.  The invariant [fds_ok] says that both agree, and that the kernel watches exactly
    the active descriptors. *)

From stdpp Require Import gmap.
From S2P Require Import Prelude DebugCounter LinkedList1 BReactor.
Import BReactor.

Module BReactorFds.

(** ** File descriptors *)

(** What epoll is told to watch. *)
Definition epoll_mask (ev : Z) : Z := Z.lor (bit_if (has ev BREACTOR_READ) EPOLLIN) (bit_if (has ev BREACTOR_WRITE) EPOLLOUT).

Record fds_ok (o : fds_t) : Prop := {
  fo_len : length (epoll_results o) = 64%nat;
  fo_pos : (epoll_results_pos o <= epoll_results_num o <= 64)%nat;
  fo_entry : forall i ev f, (epoll_results_pos o <= i < epoll_results_num o)%nat -> epoll_results o !! i = Some ev -> data_ptr ev = Some f ->
    exists e, fds o !! f = Some e /\ active e = true /\ epoll_returned_ptr e = Some i;
  fo_back : forall f e i, fds o !! f = Some e -> active e = true -> epoll_returned_ptr e = Some i ->
    (epoll_results_pos o <= i < epoll_results_num o)%nat /\ exists ev, epoll_results o !! i = Some ev /\ data_ptr ev = Some f;
  fo_kernel : forall f e, fds o !! f = Some e -> active e = true -> epoll o !! fd e = Some (f, epoll_mask (waitEvents e));
  fo_watched : forall n f m, epoll o !! n = Some (f, m) -> exists e, fds o !! f = Some e /\ active e = true /\ fd e = n;
  fo_count : counter_ok (d_fds_counter o) (size (epoll o));
}.

Section Fds.
Context (o : fds_t) (OK : fds_ok o).

(** An object that is not active may be initialised or go. *)
Lemma fd_inactive f : (forall e, fds o !! f = Some e -> active e = false) ->
  (forall n, fds_ok (BFileDescriptor_Init o f n)) /\
  fds_ok (mk_fds (delete f (fds o)) (epoll o) (epoll_results o) (epoll_results_num o) (epoll_results_pos o) (d_fds_counter o)).
Proof using OK.
  intros Hf. destruct OK as [O1 O2 O3 O4 O5 O6 O7].
  assert (forall g e, fds o !! g = Some e -> active e = true -> g <> f) as Hne.
  { intros g e Eg Ha ->. apply Hf in Eg. congruence. }
  split; [intros n|]; split; cbn; try done.
  - intros i ev g Hi Hev Hg. destruct (O3 i ev g Hi Hev Hg) as (e & Eg & Ha & Hr). exists e. by rewrite lookup_insert_ne by (symmetry; eauto).
  - intros g e i. destruct (decide (g = f)) as [->|N]; [rewrite lookup_insert_eq; by intros [= <-]|]. rewrite lookup_insert_ne by done. apply O4.
  - intros g e. destruct (decide (g = f)) as [->|N]; [rewrite lookup_insert_eq; by intros [= <-]|]. rewrite lookup_insert_ne by done. apply O5.
  - intros m g k E. destruct (O6 m g k E) as (e & Eg & Ha & Hr). exists e. by rewrite lookup_insert_ne by (symmetry; eauto).
  - intros i ev g Hi Hev Hg. destruct (O3 i ev g Hi Hev Hg) as (e & Eg & Ha & Hr). exists e. by rewrite lookup_delete_ne by (symmetry; eauto).
  - intros g e i [N E]%lookup_delete_Some. by apply O4.
  - intros g e [N E]%lookup_delete_Some. by apply O5.
  - intros m g k E. destruct (O6 m g k E) as (e & Eg & Ha & Hr). exists e. by rewrite lookup_delete_ne by (symmetry; eauto).
Qed.

Lemma add_fd_ok f e mem : fds o !! f = Some e -> active e = false ->
  exists o' res, BReactor_AddFileDescriptor o f mem = Some (o', res) /\ fds_ok o' /\
    (res = true <-> mem = true /\ epoll o !! fd e = None).
Proof using OK.
  intros E Ha. unfold BReactor_AddFileDescriptor. rewrite E. cbn [mbind option_bind]. rewrite Ha. cbn [negb]. unfold epoll_ctl_add.
  destruct (epoll o !! fd e) as [p|] eqn:Ek; [exists o, false; split_and!; try done; split; [done|by intros [_ ?]]|].
  destruct mem; [|exists o, false; split_and!; try done; split; [done|by intros [? _]]].
  pose proof OK as [O1 O2 O3 O4 O5 O6 O7]. destruct (counter_increment _ _ O7) as (c & -> & Hc). cbn [mbind option_bind].
  assert (forall g e', fds o !! g = Some e' -> active e' = true -> g <> f) as Hne by (intros g e' Eg Hg ->; congruence).
  do 2 eexists. split; [done|]. split; [|done]. split; cbn; try done.
  - intros i ev g Hi Hev Hg. destruct (O3 i ev g Hi Hev Hg) as (e' & Eg & Ha' & Hr). exists e'. by rewrite lookup_insert_ne by (symmetry; eauto).
  - intros g e' i. destruct (decide (g = f)) as [->|N]; [rewrite lookup_insert_eq; by intros [= <-]|]. rewrite lookup_insert_ne by done. apply O4.
  - intros g e'. destruct (decide (g = f)) as [->|N]; [rewrite lookup_insert_eq; intros [= <-] _; cbn; by rewrite lookup_insert_eq|].
    rewrite lookup_insert_ne by done. intros Eg Hg. rewrite lookup_insert_ne; [by apply O5|]. intros Ef. rewrite Ef, (O5 g e' Eg Hg) in Ek. done.
  - intros n g m. destruct (decide (n = fd e)) as [->|N].
    + rewrite lookup_insert_eq. intros [= <- <-]. rewrite lookup_insert_eq. by eexists.
    + rewrite lookup_insert_ne by done. intros Em. destruct (O6 n g m Em) as (e' & Eg & Hg & Hn). exists e'. by rewrite lookup_insert_ne by (symmetry; eauto).
  - by rewrite map_size_insert_None.
Qed.

Lemma remove_fd_ok f e : fds o !! f = Some e -> active e = true ->
  exists o', BReactor_RemoveFileDescriptor o f = Some o' /\ fds_ok o' /\
    fds o' = <[f := mk_fd (fd e) false (waitEvents e) (epoll_returned_ptr e)]> (fds o) /\
    forall i ev, (epoll_results_pos o' <= i < epoll_results_num o')%nat -> epoll_results o' !! i = Some ev -> data_ptr ev <> Some f.
Proof using OK.
  intros E Ha. unfold BReactor_RemoveFileDescriptor. rewrite E. cbn [mbind option_bind]. rewrite Ha. pose proof OK as [O1 O2 O3 O4 O5 O6 O7].
  pose proof (O5 f e E Ha) as Ek. assert (exists n, size (epoll o) = S n /\ size (delete (fd e) (epoll o)) = n) as (n & Hn & Hn').
  { rewrite map_size_delete_Some by (by eexists). destruct (size (epoll o)) as [|n] eqn:Hs; [|by exists n].
    apply map_size_empty_iff in Hs. by rewrite Hs in Ek. }
  rewrite Hn in O7. destruct (counter_decrement _ _ O7) as (c & -> & Hc). cbn [mbind option_bind].
  unfold epoll_ctl_del. cbn [epoll set_fd with_fds_counter]. rewrite Ek. cbn [mbind option_bind].
  set (m' := <[f := mk_fd (fd e) false (waitEvents e) (epoll_returned_ptr e)]> (fds o)).
  assert (forall results, length results = 64%nat ->
    (forall i, (exists ev, results !! i = Some ev /\ data_ptr ev = Some f) -> (epoll_results_pos o <= i < epoll_results_num o)%nat -> False) ->
    (forall i g, g <> f -> (exists ev, results !! i = Some ev /\ data_ptr ev = Some g) <-> (exists ev, epoll_results o !! i = Some ev /\ data_ptr ev = Some g)) ->
    fds_ok (mk_fds m' (delete (fd e) (epoll o)) results (epoll_results_num o) (epoll_results_pos o) c)) as Hok.
  { intros results Hl Hf Hg. split; cbn; try done.
    - intros i ev g Hi Hev Hd. assert (g <> f) as N by (intros ->; apply (Hf i); eauto). destruct (proj1 (Hg i g N)) as (ev' & Hev' & Hd'); [eauto|].
      destruct (O3 i ev' g Hi Hev' Hd') as (e' & ? & ? & ?). exists e'. unfold m'. by rewrite lookup_insert_ne.
    - intros g e' i. unfold m'. destruct (decide (g = f)) as [->|N]; [rewrite lookup_insert_eq; by intros [= <-]|]. rewrite lookup_insert_ne by done.
      intros Eg Hga Hr. destruct (O4 g e' i Eg Hga Hr) as [? H]. split; [done|]. by apply Hg.
    - intros g e'. unfold m'. destruct (decide (g = f)) as [->|N]; [rewrite lookup_insert_eq; by intros [= <-]|]. rewrite lookup_insert_ne by done.
      intros Eg Hga. rewrite lookup_delete_ne; [by apply O5|]. intros Ef. pose proof (O5 g e' Eg Hga) as H. rewrite <- Ef, Ek in H. congruence.
    - intros k g m [Nk Em]%lookup_delete_Some. destruct (O6 k g m Em) as (e' & Eg & Hga & <-). exists e'. unfold m'.
      rewrite lookup_insert_ne; [done|]. intros <-. congruence.
    - by rewrite Hn'. }
  destruct (epoll_returned_ptr e) as [i|] eqn:Er.
  - destruct (O4 f e i E Ha Er) as (Hi & ev & Hev & Hd). unfold set_data_ptr. cbn [epoll_results with_epoll set_fd with_fds_counter]. rewrite Hev. cbn [mbind option_bind].
    assert (forall j, (exists ev', <[i := mk_event None (events ev)]> (epoll_results o) !! j = Some ev' /\ data_ptr ev' = Some f) -> (epoll_results_pos o <= j < epoll_results_num o)%nat -> False) as Hf.
    { intros j (ev' & Hev' & Hd') Hj. destruct (decide (j = i)) as [->|N].
      - rewrite list_lookup_insert_eq in Hev' by (by eapply lookup_lt_Some). by injection Hev' as <-.
      - rewrite list_lookup_insert_ne in Hev' by done. destruct (O3 j ev' f Hj Hev' Hd') as (e' & Ee' & _ & Hr). congruence. }
    eexists. split; [done|]. split; [|split; [done|cbn; intros j ev' Hj Hev' Hd'; apply (Hf j); eauto]].
    apply Hok; [by rewrite length_insert|done|].
    intros j g N. destruct (decide (j = i)) as [->|Nj].
    + rewrite list_lookup_insert_eq by (by eapply lookup_lt_Some). split; intros (ev' & Hev' & Hd'); simplify_eq/=.
    + by rewrite list_lookup_insert_ne.
  - assert (forall j, (exists ev', epoll_results o !! j = Some ev' /\ data_ptr ev' = Some f) -> (epoll_results_pos o <= j < epoll_results_num o)%nat -> False) as Hf.
    { intros j (ev' & Hev' & Hd') Hj. destruct (O3 j ev' f Hj Hev' Hd') as (e' & Ee' & _ & Hr). congruence. }
    eexists. split; [done|]. split; [by apply Hok|]. split; [done|]. cbn. intros j ev' Hj Hev' Hd'. apply (Hf j); eauto.
Qed.

(** A change of an active object that keeps its descriptor. *)
Lemma change_fd f e w r l pos k : fds o !! f = Some e -> active e = true -> length l = 64%nat -> (pos <= epoll_results_num o)%nat ->
  (forall n, k !! n = if bool_decide (n = fd e) then Some (f, epoll_mask w) else epoll o !! n) -> size k = size (epoll o) ->
  (forall i ev g, (pos <= i < epoll_results_num o)%nat -> l !! i = Some ev -> data_ptr ev = Some g ->
    if bool_decide (g = f) then r = Some i else exists e', fds o !! g = Some e' /\ active e' = true /\ epoll_returned_ptr e' = Some i) ->
  (forall g e' i, (if bool_decide (g = f) then r = Some i else fds o !! g = Some e' /\ active e' = true /\ epoll_returned_ptr e' = Some i) ->
    (pos <= i < epoll_results_num o)%nat /\ exists ev, l !! i = Some ev /\ data_ptr ev = Some g) ->
  fds_ok (mk_fds (<[f := mk_fd (fd e) true w r]> (fds o)) k l (epoll_results_num o) pos (d_fds_counter o)).
Proof using OK.
  intros E Ha Hl Hp Hk Hs H3 H4. destruct OK as [O1 O2 O3 O4 O5 O6 O7]. split; cbn; try done.
  - lia.
  - intros i ev g Hi Hev Hg. specialize (H3 i ev g Hi Hev Hg). case_bool_decide as N; [subst g; rewrite lookup_insert_eq; by eexists|by rewrite lookup_insert_ne].
  - intros g e' i Eg Ha' Hr. apply (H4 g e' i). case_bool_decide as N; [subst g; rewrite lookup_insert_eq in Eg; by injection Eg as <-|by rewrite lookup_insert_ne in Eg].
  - intros g e'. rewrite Hk. destruct (decide (g = f)) as [->|N]; [rewrite lookup_insert_eq; intros [= <-] _; cbn; by rewrite bool_decide_true|].
    rewrite lookup_insert_ne by done. intros Eg Hg. rewrite bool_decide_false; [by apply O5|]. intros Ef. pose proof (O5 g e' Eg Hg) as H. rewrite Ef, (O5 f e E Ha) in H. congruence.
  - intros n g m. rewrite Hk. case_bool_decide as N; [intros [= <- <-]; rewrite lookup_insert_eq; by eexists|]. intros Em.
    destruct (O6 n g m Em) as (e' & Eg & Hg & Hn). exists e'. rewrite lookup_insert_ne; [done|]. intros <-. congruence.
  - by rewrite Hs.
Qed.

Lemma set_events_ok f e ev : fds o !! f = Some e -> active e = true -> Z.ldiff ev (Z.lor BREACTOR_READ BREACTOR_WRITE) = 0 ->
  exists o', BReactor_SetFileDescriptorEvents o f ev = Some o' /\ fds_ok o' /\
    fds o' = <[f := mk_fd (fd e) true ev (epoll_returned_ptr e)]> (fds o).
Proof using OK.
  intros E Ha Hev. unfold BReactor_SetFileDescriptorEvents. rewrite E. cbn [mbind option_bind]. rewrite Ha, Hev. cbn [Z.eqb]. case_if.
  - exists o. split_and!; try done. symmetry. apply insert_id. rewrite E. f_equal. destruct e; simpl in *. by subst.
  - pose proof (fo_kernel _ OK f e E Ha) as Ek. unfold epoll_ctl_mod. rewrite Ek. cbn [mbind option_bind]. eexists. split; [done|]. split; [|done].
    unfold set_fd, with_epoll. cbn. fold (epoll_mask ev). apply (change_fd f e); try done; [apply OK|apply OK| | | |].
    + intros n. case_bool_decide as N; [by rewrite N, lookup_insert_eq|by rewrite lookup_insert_ne].
    + apply map_size_insert_Some. by eexists.
    + intros i ev' g Hi Hev' Hg. destruct (fo_entry _ OK i ev' g Hi Hev' Hg) as (e' & Eg & ? & ?). case_bool_decide as N; [subst g; congruence|eauto].
    + intros g e' i. case_bool_decide as N; [subst g; intros Hr; by eapply (fo_back _ OK)|intros (Eg & Hg & Hr); by eapply (fo_back _ OK)].
Qed.

(** One result is dispatched: a handler is called for an object that is active, unless it was
    removed or nothing of what is reported is watched. *)
Lemma dispatch_ok : (epoll_results_pos o < epoll_results_num o)%nat ->
  exists o' c ev, dispatch_fd o = Some (o', c) /\ fds_ok o' /\ epoll_results_num o' = epoll_results_num o /\
    epoll_results_pos o' = S (epoll_results_pos o) /\ epoll_results o !! epoll_results_pos o = Some ev /\
    match data_ptr ev with
    | None => c = None /\ fds o' = fds o
    | Some f => exists e, fds o !! f = Some e /\ active e = true /\ fds o' = <[f := mk_fd (fd e) true (waitEvents e) None]> (fds o) /\
        c = (let evs := reported_events (waitEvents e) (events ev) in if evs =? 0 then None else Some (f, evs))
    end.
Proof using OK.
  intros Hp. pose proof OK as [O1 O2 O3 O4 O5 O6 O7].
  destruct (lookup_lt_is_Some_2 (epoll_results o) (epoll_results_pos o)) as [ev Hev]; [lia|]. unfold dispatch_fd. rewrite Hev. cbn [mbind option_bind].
  destruct (data_ptr ev) as [f|] eqn:Hd.
  - destruct (O3 (epoll_results_pos o) ev f ltac:(lia) Hev Hd) as (e & E & Ha & Hr). cbn [fds with_results]. rewrite E. cbn [mbind option_bind]. rewrite Ha, bool_decide_true by done. cbn zeta.
    assert (fds_ok (mk_fds (<[f := mk_fd (fd e) true (waitEvents e) None]> (fds o)) (epoll o) (epoll_results o) (epoll_results_num o)
      (S (epoll_results_pos o)) (d_fds_counter o))) as OK'.
    { apply (change_fd f e); try done.
      - intros n. case_bool_decide as N; [rewrite N; by apply O5|done].
      - intros i ev' g Hi Hev' Hg. destruct (O3 i ev' g ltac:(lia) Hev' Hg) as (e' & Eg & ? & Hr'). case_bool_decide as N; [|eauto].
        subst g. replace e' with e in * by congruence. rewrite Hr in Hr'. injection Hr' as <-. lia.
      - intros g e' i. case_bool_decide as N; [done|]. intros (Eg & Hg & Hr'). destruct (O4 g e' i Eg Hg Hr') as [Hi (ev' & Hev' & Hd')].
        split; [|eauto]. assert (i <> epoll_results_pos o) by (intros ->; congruence). lia. }
    case_if; (do 2 eexists; exists ev; rewrite Hd; (split; [reflexivity|])); (split; [exact OK'|]); do 3 (split; [done|]); exists e; split_and!; try done; cbn zeta.
    + by bool_true.
    + by bool_false.
  - do 2 eexists. exists ev. rewrite Hd. split; [done|]. split; [|done]. split; cbn; try done; [lia| |].
    + intros i ev' g Hi. apply O3. lia.
    + intros g e i Eg Hg Hr. destruct (O4 g e i Eg Hg Hr) as [Hi (ev' & Hev' & Hd')]. split; [|eauto].
      assert (i <> epoll_results_pos o) by (intros ->; congruence). lia.
Qed.
End Fds.

(** *** Results of a wait *)
Definition at_result (i : nat) (e : BFileDescriptor) : BFileDescriptor := mk_fd (fd e) (active e) (waitEvents e) (Some i).
Fixpoint mark (m : gmap ptr BFileDescriptor) (i : nat) (l : list ptr) : gmap ptr BFileDescriptor :=
  match l with [] => m | f :: l => mark (alter (at_result i) f m) (S i) l end.

Lemma lookup_mark l : forall m i f, NoDup l ->
  (f ∉ l -> mark m i l !! f = m !! f) /\ forall j, l !! j = Some f -> mark m i l !! f = at_result (i + j) <$> m !! f.
Proof.
  induction l as [|g l IH]; intros m i f Hn; [done|]. apply list.NoDup_cons in Hn as [Hg Hn]. cbn [mark].
  destruct (IH (alter (at_result i) g m) (S i) f Hn) as [H1 H2]. split.
  - intros [N Hl]%not_elem_of_cons. rewrite H1 by done. by apply lookup_alter_ne.
  - intros [|j] Hj; cbn in Hj.
    + injection Hj as ->. rewrite H1 by done. by rewrite lookup_alter_eq, Nat.add_0_r.
    + rewrite (H2 j Hj), lookup_alter_ne; [f_equal; f_equal; lia|]. intros ->. apply Hg. by eapply list_elem_of_lookup_2.
Qed.

Lemma set_pointers_ok o : forall l i, (forall j f, l !! j = Some f -> exists ev, epoll_results o !! (i + j)%nat = Some ev /\ data_ptr ev = Some f) ->
  NoDup l -> (forall f, f ∈ l -> exists e, fds o !! f = Some e /\ active e = true /\ epoll_returned_ptr e = None) ->
  set_epoll_fd_pointers o i (length l) =
    Some (mk_fds (mark (fds o) i l) (epoll o) (epoll_results o) (epoll_results_num o) (epoll_results_pos o) (d_fds_counter o)).
Proof.
  intros l. revert o. induction l as [|f l IH]; intros o i Hr Hn Ha; cbn [length set_epoll_fd_pointers mark]; [by destruct o|].
  apply list.NoDup_cons in Hn as [Hf Hn]. destruct (Hr 0%nat f eq_refl) as (ev & Hev & Hd). rewrite Nat.add_0_r in Hev. rewrite Hev. cbn [mbind option_bind].
  rewrite Hd. cbn [mbind option_bind]. destruct (Ha f) as (e & E & He & Hp); [by left|]. rewrite E. cbn [mbind option_bind]. rewrite He, bool_decide_true by done.
  rewrite IH.
  - cbn. do 2 f_equal. f_equal. apply map_eq. intros g. destruct (decide (g = f)) as [->|N].
    + by rewrite lookup_insert_eq, lookup_alter_eq, E; unfold at_result; cbn; rewrite He.
    + by rewrite lookup_insert_ne, lookup_alter_ne.
  - intros j g Hj. cbn. replace (S (i + j)) with (i + S j)%nat by lia. by apply Hr.
  - done.
  - intros g Hg. cbn. rewrite lookup_insert_ne; [apply Ha; by right|]. by intros ->.
Qed.

(** The answer of [epoll_wait]: some of the watched descriptors, each once. *)
Definition watched_by (k : gmap Z (ptr * Z)) (f : ptr) : Prop := exists n m, k !! n = Some (f, m).
Definition results_ok (k : gmap Z (ptr * Z)) (l : list epoll_event) : Prop :=
  exists ps, data_ptr <$> l = Some <$> ps /\ NoDup ps /\ Forall (watched_by k) ps /\ (length l <= 64)%nat.

Lemma wait_results_ok o l : fds_ok o -> epoll_results_pos o = epoll_results_num o -> results_ok (epoll o) l ->
  exists o', set_epoll_fd_pointers (with_results o (l ++ drop (length l) (epoll_results o)) (length l) 0) 0 (length l) = Some o' /\ fds_ok o' /\
    epoll_results_num o' = length l /\ epoll_results_pos o' = 0%nat.
Proof.
  intros OK Hp (ps & Hps & Hn & Hw & Hl). assert (length l = length ps) as El by (rewrite <- (length_fmap data_ptr), Hps; apply length_fmap).
  assert (forall j ev f, (j < length l)%nat -> (l ++ drop (length l) (epoll_results o)) !! j = Some ev -> data_ptr ev = Some f -> ps !! j = Some f) as Hpj.
  { intros j ev f Hj Hev Hd. rewrite lookup_app_l in Hev by done. assert ((data_ptr <$> l) !! j = Some (Some f)) as H by (by rewrite list_lookup_fmap, Hev, <- Hd).
    rewrite Hps, list_lookup_fmap in H. destruct (ps !! j) eqn:?; simpl in H; congruence. }
  assert (forall j f, ps !! j = Some f -> exists ev, (l ++ drop (length l) (epoll_results o)) !! j = Some ev /\ data_ptr ev = Some f) as Hjp.
  { intros j f Hj. assert ((data_ptr <$> l) !! j = Some (Some f)) as H by (by rewrite Hps, list_lookup_fmap, Hj). rewrite list_lookup_fmap in H.
    destruct (l !! j) as [ev|] eqn:Ej; [|done]. exists ev. injection H as ->. split; [|done]. rewrite lookup_app_l; [done|]. by eapply lookup_lt_Some. }
  pose proof OK as [O1 O2 O3 O4 O5 O6 O7].
  assert (forall f e, fds o !! f = Some e -> active e = true -> epoll_returned_ptr e = None) as Hnone.
  { intros f e E Ha. destruct (epoll_returned_ptr e) as [i|] eqn:Er; [|done]. destruct (O4 f e i E Ha Er) as [? _]. lia. }
  assert (forall f, f ∈ ps -> exists e, fds o !! f = Some e /\ active e = true /\ epoll_returned_ptr e = None) as Hact.
  { intros f Hf. rewrite list.Forall_forall in Hw. destruct (Hw f Hf) as (n & m & Em). destruct (O6 n f m Em) as (e & E & Ha & _). exists e. eauto. }
  pose proof (set_pointers_ok (with_results o (l ++ drop (length l) (epoll_results o)) (length l) 0) ps 0 Hjp Hn Hact) as Es. rewrite <- El in Es. rewrite Es. eexists. split; [done|]. split; [|done].
  assert (forall f e', mark (fds o) 0 ps !! f = Some e' -> exists e, fds o !! f = Some e /\ fd e' = fd e /\ active e' = active e /\ waitEvents e' = waitEvents e /\
    (active e = true -> forall j, epoll_returned_ptr e' = Some j -> ps !! j = Some f)) as Hm.
  { intros f e'. destruct (lookup_mark ps (fds o) 0 f Hn) as [M1 M2]. destruct (decide (f ∈ ps)) as [[j Hj]%list_elem_of_lookup|Nf].
    - rewrite (M2 j Hj). destruct (fds o !! f) as [e|] eqn:E; [|done]. intros [= <-]. exists e. split_and!; try done. intros _ k [= <-]. done.
    - rewrite (M1 Nf). intros E. exists e'. split_and!; try done. intros Ha j Hj. rewrite (Hnone f e' E Ha) in Hj. done. }
  assert (forall f e, fds o !! f = Some e -> exists e', mark (fds o) 0 ps !! f = Some e' /\ fd e' = fd e /\ active e' = active e) as Hm'.
  { intros f e E. destruct (lookup_mark ps (fds o) 0 f Hn) as [M1 M2]. destruct (decide (f ∈ ps)) as [[j Hj]%list_elem_of_lookup|Nf].
    - rewrite (M2 j Hj), E. eexists. by split_and!.
    - rewrite (M1 Nf). exists e. by split_and!. }
  split; cbn.
  - rewrite length_app, length_drop. lia.
  - lia.
  - intros i ev f Hi Hev Hd. pose proof (Hpj i ev f ltac:(lia) Hev Hd) as Hj. destruct (lookup_mark ps (fds o) 0 f Hn) as [_ M2]. rewrite (M2 i Hj).
    destruct (Hact f) as (e & E & Ha & _); [by eapply list_elem_of_lookup_2|]. rewrite E. eexists. by split_and!.
  - intros f e' i E' Ha Hr. destruct (Hm f e' E') as (e & E & _ & Ea & _ & Hj). specialize (Hj ltac:(congruence) i Hr). split; [|by apply Hjp].
    apply lookup_lt_Some in Hj. lia.
  - intros f e' E' Ha. destruct (Hm f e' E') as (e & E & -> & Ea & -> & _). apply O5; congruence.
  - intros n f m Em. destruct (O6 n f m Em) as (e & E & Ha & Hfd). destruct (Hm' f e E) as (e' & E' & ? & ?). exists e'. split_and!; congruence.
  - done.
Qed.

(** ** Limits *)
Record limits_ok (o : limits_t) (la : list ptr) : Prop := {
  lo_list : LinkedList1.rep (active_limits_list o) la;
  lo_count : forall x e, limits o !! x = Some e -> 0 <= count e <= INT_MAX /\ 0 < limit e <= INT_MAX /\ (count e > 0 <-> x ∈ la) /\
    is_Some (LinkedList1.heap (active_limits_list o) !! x);
  lo_dom : forall x, x ∈ la -> is_Some (limits o !! x);
  lo_ctr : counter_ok (d_limits_ctr o) (size (limits o));
}.

Lemma limit_init_ok o la x l : limits_ok o la -> limits o !! x = None -> 0 < l <= INT_MAX ->
  exists o', BReactorLimit_Init o x l = Some o' /\ limits_ok o' la.
Proof.
  intros [L1 L2 L3 L4] Hx Hl. unfold BReactorLimit_Init. bool_true. destruct (counter_increment _ _ L4) as (c & -> & Hc). cbn [mbind option_bind].
  assert (x ∉ la) as Nx by (intros H; apply L3 in H as [? H]; congruence). eexists. split; [done|]. split; cbn.
  - eapply LinkedList1.rep_ext; [exact L1|done|done|]. cbn. intros i Hi. apply lookup_insert_ne. by intros ->.
  - intros y e. destruct (decide (y = x)) as [->|N].
    + rewrite !lookup_insert_eq. intros [= <-]. cbn. unfold INT_MAX in *. repeat split; try lia; try by eexists. by intros H.
    + rewrite !lookup_insert_ne by done. apply L2.
  - intros y Hy. rewrite lookup_insert_ne; [by apply L3|]. by intros ->.
  - by rewrite map_size_insert_None.
Qed.

Lemma list_remove_node l la x : LinkedList1.rep l la -> x ∈ la ->
  exists l', LinkedList1.LinkedList1_Remove l x = Some l' /\ LinkedList1.rep l' (without x la) /\
    forall y, is_Some (LinkedList1.heap l !! y) -> y ∉ without x la -> is_Some (LinkedList1.heap l' !! y).
Proof.
  intros R Hx. destruct (LinkedList1.cut la x (proj1 R) Hx) as (l1 & l2 & -> & _ & E). rewrite E.
  destruct (LinkedList1.remove_ok l l1 x l2 R) as (l' & Er & R' & O). exists l'. split_and!; try done. intros y Hy Ny. by rewrite O.
Qed.

Lemma rep_elem l la x : LinkedList1.rep l la -> x ∈ la -> is_Some (LinkedList1.heap l !! x).
Proof.
  intros (_ & _ & _ & D) Hx. apply list_elem_of_split in Hx as (l1 & l2 & ->). apply LinkedList1.dll_app in D as [_ [E _]]. by eexists.
Qed.

Lemma limit_free_ok o la x : limits_ok o la -> is_Some (limits o !! x) ->
  exists o' la', BReactorLimit_Free o x = Some o' /\ limits_ok o' la' /\ limits o' = delete x (limits o).
Proof.
  intros [L1 L2 L3 L4] [e E]. unfold BReactorLimit_Free. rewrite E. cbn [mbind option_bind].
  assert (exists n, size (limits o) = S n /\ size (delete x (limits o)) = n) as (n & Hn & Hn').
  { rewrite map_size_delete_Some by (by eexists). destruct (size (limits o)) as [|n] eqn:Hs; [|by exists n].
    apply map_size_empty_iff in Hs. by rewrite Hs in E. }
  rewrite Hn in L4. destruct (counter_decrement _ _ L4) as (c & -> & Hc). cbn [mbind option_bind]. destruct (L2 x e E) as (? & ? & Hin & ?).
  assert (exists l, (if count e >? 0 then LinkedList1.LinkedList1_Remove (active_limits_list o) x else Some (active_limits_list o)) = Some l /\
    LinkedList1.rep l (without x la) /\ forall y, is_Some (LinkedList1.heap (active_limits_list o) !! y) -> is_Some (LinkedList1.heap l !! y)) as (l & -> & R & Hh).
  { case_if.
    - destruct (list_remove_node _ _ x L1) as (l & -> & R & Hl); [by apply Hin|]. exists l. split_and!; try done. intros y Hy.
      destruct (decide (y ∈ without x la)); [by eapply rep_elem|by apply Hl].
    - exists (active_limits_list o). rewrite without_id; [done|]. intros Hx. apply Hin in Hx. lia. }
  cbn [mbind option_bind]. do 2 eexists. split; [done|]. split; [|done]. split; cbn.
  - eapply LinkedList1.rep_ext; [exact R|done|done|]. cbn. intros i [N _]%elem_of_without. by apply lookup_delete_ne.
  - intros y f [N Ey]%lookup_delete_Some. rewrite lookup_delete_ne by done. destruct (L2 y f Ey) as (? & ? & Hy & ?). rewrite elem_of_without.
    do 2 (split; [done|]). split; [rewrite Hy; split; [done|tauto]|by apply Hh].
  - intros y [N Hy]%elem_of_without. rewrite lookup_delete_ne by done. by apply L3.
  - by rewrite Hn'.
Qed.

(** The count of one limit changes. *)
Lemma limit_change o la la' x e l : limits_ok o la -> is_Some (limits o !! x) -> LinkedList1.rep l la' ->
  (forall y, is_Some (LinkedList1.heap (active_limits_list o) !! y) -> is_Some (LinkedList1.heap l !! y)) ->
  0 <= count e <= INT_MAX -> 0 < limit e <= INT_MAX -> (count e > 0 <-> x ∈ la') -> (forall y, y <> x -> y ∈ la' <-> y ∈ la) ->
  limits_ok (mk_limits (<[x := e]> (limits o)) l (d_limits_ctr o)) la'.
Proof.
  intros [L1 L2 L3 L4] Hx R Hh Hc Hl Hin Hne. split; cbn; [done| | |by rewrite map_size_insert_Some].
  - intros y f. destruct (decide (y = x)) as [->|N].
    + rewrite lookup_insert_eq. intros [= <-]. do 3 (split; [done|]). apply Hh. destruct Hx as [e' E]. by apply (L2 x e').
    + rewrite lookup_insert_ne by done. intros Ey. destruct (L2 y f Ey) as (? & ? & Hy & ?). do 2 (split; [done|]). split; [by rewrite Hne|by apply Hh].
  - intros y Hy. destruct (decide (y = x)) as [->|N]; [rewrite lookup_insert_eq; by eexists|]. rewrite lookup_insert_ne by done. by apply L3, Hne.
Qed.

Lemma limit_set_ok o la x l : limits_ok o la -> is_Some (limits o !! x) -> 0 < l <= INT_MAX ->
  exists o', BReactorLimit_SetLimit o x l = Some o' /\ limits_ok o' la.
Proof.
  intros L [e E] Hl. unfold BReactorLimit_SetLimit. rewrite E. cbn [mbind option_bind]. bool_true. eexists. split; [done|].
  destruct (lo_count _ _ L x e E) as (? & ? & ? & ?). apply (limit_change o la); try done; apply (lo_list _ _ L).
Qed.

(** The counter is incremented exactly when it is below the limit. *)
Lemma limit_increment_ok o la x e : limits_ok o la -> limits o !! x = Some e ->
  exists o' la', BReactorLimit_Increment o x = Some (o', count e <? limit e) /\ limits_ok o' la' /\
    limits o' = (if count e <? limit e then <[x := mk_limit (limit e) (count e + 1)]> (limits o) else limits o).
Proof.
  intros L E. unfold BReactorLimit_Increment. rewrite E. cbn [mbind option_bind]. destruct (lo_count _ _ L x e E) as (? & ? & Hin & [nd Hnd]). case_if.
  { replace (count e <? limit e) with false by (symmetry; apply Z.ltb_ge; lia). by exists o, la. }
  replace (count e <? limit e) with true by (symmetry; apply Z.ltb_lt; lia). case_if.
  - assert (x ∉ la) as Nx by (rewrite <- Hin; lia).
    destruct (LinkedList1.append_ok (active_limits_list o) x ltac:(by eexists) la (lo_list _ _ L) Nx) as (l & El & R & O).
    change (active_limits_list (set_limit o x _)) with (active_limits_list o). rewrite El. cbn [mbind option_bind]. do 2 eexists. split; [done|]. split; [|done].
    apply (limit_change o la (la ++ [x])); try done; cbn.
    + intros y [ny Hy]. destruct (decide (y ∈ x :: la)) as [Hi|Ni]; [|rewrite O by done; by eexists]. eapply rep_elem; [exact R|]. rewrite elem_of_app, list_elem_of_singleton. apply elem_of_cons in Hi. tauto.
    + lia.
    + rewrite elem_of_app, list_elem_of_singleton. split; [by right|lia].
    + intros y N. rewrite elem_of_app, list_elem_of_singleton. tauto.
  - do 2 eexists. split; [done|]. split; [|done]. apply (limit_change o la la); try done; cbn; [apply (lo_list _ _ L)|lia|rewrite <- Hin; lia].
Qed.

(** Every count is reset. *)
Lemma reset_limits_ok fuel : forall o la, limits_ok o la -> (length la < fuel)%nat ->
  exists o', reset_limits fuel o = Some o' /\ limits_ok o' [] /\ limits o' = (fun e => mk_limit (limit e) 0) <$> limits o.
Proof.
  induction fuel as [|fuel IH]; intros o la L Hf; [lia|]. cbn [reset_limits]. unfold LinkedList1.LinkedList1_GetFirst.
  pose proof (lo_list _ _ L) as (Hn & -> & _). destruct la as [|x la]; cbn [LinkedList1.head_or].
  - exists o. split; [done|]. split; [done|]. apply map_eq. intros x. rewrite lookup_fmap. destruct (limits o !! x) as [e|] eqn:E; [|done].
    destruct (lo_count _ _ L x e E) as (? & _ & Hin & _). cbn. f_equal. destruct e as [l c]. cbn in *. f_equal.
    assert (~ c > 0) by (rewrite Hin; apply not_elem_of_nil). lia.
  - destruct (lo_dom _ _ L x) as [e E]; [by left|]. rewrite E. cbn [mbind option_bind]. destruct (lo_count _ _ L x e E) as (? & ? & Hin & _).
    assert (count e > 0) by (apply Hin; by left). bool_true. apply list.NoDup_cons in Hn as [Nx Hn].
    destruct (list_remove_node _ _ x (lo_list _ _ L)) as (l & El & R & Hl); [by left|]. change (active_limits_list (set_limit o x _)) with (active_limits_list o).
    rewrite El. cbn [mbind option_bind]. rewrite without_cons_eq, without_id in R, Hl by done.
    destruct (IH (with_active (set_limit o x (mk_limit (limit e) 0)) l) la) as (o' & -> & L' & E').
    + apply (limit_change o (x :: la) la); try done; cbn; [|intros y N; rewrite elem_of_cons; tauto].
      intros y Hy. destruct (decide (y ∈ la)); [by eapply rep_elem|by apply Hl].
    + cbn [length] in Hf. lia.
    + exists o'. split; [done|]. split; [done|]. rewrite E'. cbn. apply map_eq. intros y. rewrite !lookup_fmap.
      destruct (decide (y = x)) as [->|N]; [by rewrite lookup_insert_eq, E|by rewrite lookup_insert_ne].
Qed.

Lemma limits_fuel o la : limits_ok o la -> (length la < S (size (limits o)))%nat.
Proof.
  intros [L1 L2 L3 L4]. rewrite <- (size_list_to_set (C := gset ptr)) by apply L1. rewrite <- size_dom. apply Nat.lt_succ_r, subseteq_size.
  intros x. rewrite elem_of_list_to_set. intros Hx. by apply elem_of_dom, L3.
Qed.

End BReactorFds.
