(* ===== verification/BReactorInv.v ===== *)
(** * The reactor: invariant and theorems

    The environment of the reactor is the program: its handlers and start-up code call the
    functions of the reactor in any order the documentation allows, between the iterations of the
    event loop; and the operating system, which tells the time and the results of [epoll_wait]. *)

From stdpp Require Import gmap sorting.
From S2P Require Import Prelude DebugCounter EntryOrder BPending JobGroup LinkedList1 BAVL BAVLSpec CAvl CAvlSpec BReactor BReactorTimers BReactorFds.
Import BAVLSpec CAvlSpec BReactor BReactorTimers BReactorFds.

Module BReactorInv.

(** ** Time *)
Lemma btime_add_clamp a b : is_int64 a = true -> is_int64 b = true -> btime_add a b = Z.max INT64_MIN (Z.min INT64_MAX (a + b)).
Proof.
  unfold is_int64, btime_add, add_int64_overflows. intros Ha Hb. reflect_bool. unfold INT64_MIN, INT64_MAX in *.
  destruct (Z.ltb_spec a 0), (Z.ltb_spec b 0); cbn [xorb];
    [destruct (Z.ltb_spec a (-9223372036854775808 - b))|..|destruct (Z.gtb_spec a (9223372036854775807 - b))];
    cbn [Z.b2z]; rewrite ?Z.opp_0; try change (- (1)) with (-1); cbn [Z.eqb negb Z.gtb Z.compare]; lia.
Qed.

(** ** Environment *)

(** [clock]: the time, as far as it was told. *)
Record world := mkw { rx : t; clock : Z }.

Inductive event :=
| EInitJob (j : positive) | EFreeJob (j : positive) | ESetJob (j : positive) | EUnsetJob (j : positive)
| EInitTimer (t : ptr) (small : bool) (ms : Z) | EFreeTimer (t : ptr) | ERemoveTimer (t : ptr)
| ESetTimer (t : ptr) (mode : timer_mode) (time now : Z) | ESetTimerDefault (t : ptr) (now : Z)
| EInitFd (f : ptr) (n : Z) | EFreeFd (f : ptr) | EAddFd (f : ptr) (mem : bool) | ERemoveFd (f : ptr) | ESetEvents (f : ptr) (ev : Z)
| EInitLimit (x : ptr) (lim : Z) | EFreeLimit (x : ptr) | EIncrement (x : ptr) | ESetLimit (x : ptr) (lim : Z)
| EQuit (code : Z) | ESynchronize (ref : positive)
| ELoop (now : Z) (rounds : list (wait_answer * Z)).

(** The first time-out of the running timers. *)
Definition first_timeout (o : t) : option Z :=
  match CAvl.CAvl_GetFirst (timers_tree (tm o)) with Some (Some t) => absTime <$> timers (tm o) !! t | _ => None end.

Definition results_okb (k : gmap Z (ptr * Z)) (l : list epoll_event) : bool :=
  bool_decide (NoDup (data_ptr <$> l)) && (length l <=? 64)%nat &&
  forallb (fun ev => match data_ptr ev with Some f => existsb (fun x => bool_decide (x.2.1 = f)) (map_to_list k) | None => false end) l.

(** What [epoll_wait], called at [now] with a given time-out, can return at [time]: some watched
    descriptors; nothing, when the time-out is over; [EINTR]. *)
Definition answer_ok (k : gmap Z (ptr * Z)) (timeout_abs : option Z) (now time : Z) (a : wait_answer) : bool :=
  (now <=? time) && (time <=? INT64_MAX) &&
  match a with
  | WReturned [] => match timeout_abs with Some abs => now + truncate_timeout (abs - now) <=? time | None => false end
  | WReturned l => results_okb k l
  | WInterrupted => true
  | WFailed => false
  end.
Fixpoint rounds_ok (k : gmap Z (ptr * Z)) (timeout_abs : option Z) (now : Z) (rounds : list (wait_answer * Z)) : bool :=
  match rounds with
  | [] => true
  | (a, time) :: rounds => answer_ok k timeout_abs now time a && rounds_ok k timeout_abs time rounds
  end.

Definition registered (o : t) (j : positive) : bool := bool_decide (is_Some (BPending.heap (pending_jobs o) !! j)).
Definition timer_in (o : t) (t : ptr) (s : timer_state) : bool :=
  match timers (tm o) !! t with Some e => bool_decide (state e = s) | None => false end.
Definition fd_is (o : t) (f : ptr) (a : bool) : bool := match fds (fdt o) !! f with Some e => bool_decide (active e = a) | None => false end.

(** What the documentation of the functions requires. *)
Definition enabled (w : world) (e : event) : bool :=
  let o := rx w in
  match e with
  | EInitJob j => negb (registered o j)
  | EFreeJob j | ESetJob j | EUnsetJob j => registered o j
  | EInitTimer t _ ms => (bool_decide (timers (tm o) !! t = None) || timer_in o t TIMER_STATE_INACTIVE) && is_int64 ms
  | EFreeTimer t => timer_in o t TIMER_STATE_INACTIVE
  | ERemoveTimer t => bool_decide (is_Some (timers (tm o) !! t))
  | ESetTimer t _ time now => bool_decide (is_Some (timers (tm o) !! t)) && is_int64 time && (clock w <=? now) && (now <=? INT64_MAX)
  | ESetTimerDefault t now => bool_decide (is_Some (timers (tm o) !! t)) && (clock w <=? now) && (now <=? INT64_MAX)
  | EInitFd f _ => bool_decide (fds (fdt o) !! f = None) || fd_is o f false
  | EFreeFd f | EAddFd f _ => fd_is o f false
  | ERemoveFd f => fd_is o f true
  | ESetEvents f ev => fd_is o f true && (Z.ldiff ev (Z.lor BREACTOR_READ BREACTOR_WRITE) =? 0)
  | EInitLimit x l => bool_decide (limits (lm o) !! x = None) && (0 <? l) && (l <=? INT_MAX)
  | EFreeLimit x | EIncrement x => bool_decide (is_Some (limits (lm o) !! x))
  | ESetLimit x l => bool_decide (is_Some (limits (lm o) !! x)) && (0 <? l) && (l <=? INT_MAX)
  | EQuit _ => true
  | ESynchronize ref => negb (exiting o) && bool_decide (BPending.BSmallPending_IsSet (pending_jobs o) ref = Some true)
  | ELoop now rounds => negb (exiting o) && (clock w <=? now) && (now <=? INT64_MAX) && rounds_ok (epoll (fdt o)) (first_timeout o) now rounds
  end.

(** [Some None]: the loop still waits. *)
Definition exec (w : world) (e : event) : option (option (world * option called)) :=
  let o := rx w in
  let done (o : t) : option (option (world * option called)) := Some (Some (mkw o (clock w), None)) in
  match e with
  | EInitJob j => g ← BPending.BSmallPending_Init (pending_jobs o) j j; done (with_jobs o g)
  | EFreeJob j => g ← BPending.BSmallPending_Free (pending_jobs o) j; done (with_jobs o g)
  | ESetJob j => g ← BPending.BSmallPending_Set (pending_jobs o) j; done (with_jobs o g)
  | EUnsetJob j => g ← BPending.BSmallPending_Unset (pending_jobs o) j; done (with_jobs o g)
  | EInitTimer t small ms => done (with_tm o (if small then BSmallTimer_Init (tm o) t else BTimer_Init (tm o) t ms))
  | EFreeTimer t => done (with_tm o (mk_timers (delete t (timers (tm o))) (timers_tree (tm o)) (timers_expired_list (tm o))))
  | ERemoveTimer t => x ← BReactor_RemoveSmallTimer (tm o) t; done (with_tm o x)
  | ESetTimer t mode time now => x ← BReactor_SetSmallTimer (tm o) t mode time now; Some (Some (mkw (with_tm o x) now, None))
  | ESetTimerDefault t now => x ← BReactor_SetTimer (tm o) t now; Some (Some (mkw (with_tm o x) now, None))
  | EInitFd f n => done (with_fdt o (BFileDescriptor_Init (fdt o) f n))
  | EFreeFd f =>
      let x := fdt o in
      done (with_fdt o (mk_fds (delete f (fds x)) (epoll x) (epoll_results x) (epoll_results_num x) (epoll_results_pos x) (d_fds_counter x)))
  | EAddFd f mem => '(x, _) ← BReactor_AddFileDescriptor (fdt o) f mem; done (with_fdt o x)
  | ERemoveFd f => x ← BReactor_RemoveFileDescriptor (fdt o) f; done (with_fdt o x)
  | ESetEvents f ev => x ← BReactor_SetFileDescriptorEvents (fdt o) f ev; done (with_fdt o x)
  | EInitLimit x l => y ← BReactorLimit_Init (lm o) x l; done (with_lm o y)
  | EFreeLimit x => y ← BReactorLimit_Free (lm o) x; done (with_lm o y)
  | EIncrement x => '(y, _) ← BReactorLimit_Increment (lm o) x; done (with_lm o y)
  | ESetLimit x l => y ← BReactorLimit_SetLimit (lm o) x l; done (with_lm o y)
  | EQuit code => done (BReactor_Quit o code)
  | ESynchronize ref =>
      r ← BReactor_Synchronize_step o ref;
      match r with inl _ => done o | inr (o, h) => Some (Some (mkw o (clock w), Some (CJob h))) end
  | ELoop now rounds =>
      r ← BReactor_Exec_step o now rounds;
      Some (match r with Some (o, time, c) => Some (mkw o time, c) | None => None end)
  end.

Inductive reach : world -> Prop :=
| reach_init efd o now : BReactor_Init efd = inr o -> 0 <= now <= INT64_MAX -> reach (mkw o now)
| reach_step w e w' c : reach w -> enabled w e = true -> exec w e = Some (Some (w', c)) -> reach w'.

(** ** Invariant *)
Definition times_ok (o : timers_t) : Prop := forall i e, timers o !! i = Some e -> is_int64 (absTime e) = true /\ is_int64 (msTime e) = true.

Record inv_at (w : world) (r : gset positive) (l lt le la : list positive) : Prop := {
  iv_jobs : bpending_rep (pending_jobs (rx w)) r l;
  iv_timers : timers_ok (tm (rx w)) lt le;
  iv_fds : fds_ok (fdt (rx w));
  iv_limits : limits_ok (lm (rx w)) la;
  iv_order : in_time_order (timers (tm (rx w))) le;
  iv_due : Forall (at_most (tm (rx w)) (clock w)) le;
  iv_times : times_ok (tm (rx w));
  iv_clock : 0 <= clock w <= INT64_MAX;
}.
Definition inv (w : world) : Prop := exists r l lt le la, inv_at w r l lt le la.

(** *** Jobs *)
Lemma jobs_read g r l : bpending_rep g r l -> BPending.BPendingGroup_HasJobs g = bool_decide (l <> []) /\ BPending.BPendingGroup_PeekJob g = head l /\
  (forall j, is_Some (BPending.heap g !! j) <-> j ∈ r) /\ forall j, BPending.BSmallPending_IsSet g j = Some true -> j ∈ l.
Proof.
  intros (reg & R & <- & _). pose proof (BPending.r_linked _ _ R) as [Hf _]. cbn in Hf.
  unfold BPending.BPendingGroup_HasJobs, BPending.BPendingGroup_PeekJob, BPending.List_IsEmpty, BPending.List_First. rewrite Hf.
  split; [by destruct l|]. split; [by destruct l|]. pose proof (BPending.r_reg _ _ R) as E. cbn in E. split.
  - intros j. rewrite E, elem_of_dom, lookup_fmap, fmap_is_Some. done.
  - intros j. unfold BPending.BSmallPending_IsSet. destruct (BPending.heap g !! j) as [e|] eqn:Ej; [|done]. cbn [mbind option_bind].
    rewrite (BPending.guard_ok g _ j e) by done. rewrite BPending.negb_notin. intros [= H]. by apply bool_decide_eq_true in H.
Qed.

(** *** Waiting *)
Lemma results_okb_ok k l : results_okb k l = true -> results_ok k l.
Proof.
  unfold results_okb. intros ([Hn Hl]%andb_true_iff & Hw)%andb_true_iff. apply bool_decide_eq_true in Hn. apply Nat.leb_le in Hl.
  rewrite forallb_forall in Hw. assert (exists ps, data_ptr <$> l = Some <$> ps /\ Forall (watched_by k) ps) as (ps & E & Hps).
  { clear Hn Hl. induction l as [|ev l IH]; [by exists []|]. destruct IH as (ps & E & Hps); [intros x Hx; apply Hw; by right|].
    specialize (Hw ev ltac:(by left)). destruct (data_ptr ev) as [f|] eqn:Ed; [|done]. exists (f :: ps). rewrite !fmap_cons, Ed, E. split; [done|]. constructor; [|done].
    apply existsb_exists in Hw as ([n [g m]] & Hin & Hb). apply bool_decide_eq_true in Hb as <-. exists n, m. by apply elem_of_map_to_list, list_elem_of_In. }
  exists ps. split_and!; try done. rewrite E in Hn. by apply NoDup_fmap_1 in Hn.
Qed.

Lemma with_tm_id o : with_tm o (tm o) = o.
Proof. by destruct o. Qed.

(** What a wait has found: timers with the earliest time, or results. *)
Definition wait_found (o : t) (lt : list ptr) (o' : t) (time : Z) : Prop :=
  (exists x due rest k, o' = with_tm o x /\ expired_by k (tm o) lt [] x due rest /\ due <> [] /\ k <= time) \/
  (exists f, o' = with_fdt o f /\ fds_ok f /\ epoll_results_pos f = 0%nat /\ (0 < epoll_results_num f)%nat).

Definition time_out (o : t) (lt : list ptr) : option Z := match lt with [] => None | t :: _ => time_of (tm o) t end.

Lemma wait_timeout o t lt abs time : timers_ok (tm o) (t :: lt) [] -> time_of (tm o) t = Some abs -> abs <= time ->
  exists x, move_first_timers (tm o) = Some x /\ wait_found o (t :: lt) (with_tm o x) time.
Proof.
  intros T Ht Hk. destruct (move_first_ok _ _ _ _ _ T Ht) as (x & due & rest & -> & H). exists x. split; [done|].
  left. exists x, (t :: due), rest, abs. done.
Qed.

Lemma wait_returned o lt l time rest : fds_ok (fdt o) -> epoll_results_pos (fdt o) = 0%nat -> epoll_results_num (fdt o) = 0%nat ->
  results_okb (epoll (fdt o)) l = true -> l <> [] -> 
  exists o', (ASSERT negb (zlen l =? 0) || rest; ASSERT zlen l <=? BSYSTEM_MAX_RESULTS;
      f ← set_epoll_fd_pointers (with_results (fdt o) (l ++ drop (length l) (epoll_results (fdt o))) (length l) (epoll_results_pos (fdt o))) 0 (length l);
      Some (Some (with_fdt o f, time))) = Some (Some (o', time)) /\ (zlen l =? 0) = false /\ wait_found o lt o' time.
Proof.
  intros F Hp Hn Hl Hne. apply results_okb_ok in Hl. assert ((zlen l =? 0) = false) as E0 by (apply Z.eqb_neq; destruct l; [done|rewrite zlen_cons; pose proof (zlen_nonneg l); lia]).
  destruct (wait_results_ok (fdt o) l F ltac:(congruence) Hl) as (f & Ef & F' & N' & P'). rewrite E0. cbn [negb orb].
  assert ((zlen l <=? BSYSTEM_MAX_RESULTS) = true) as -> by (destruct Hl as (ps & _ & _ & _ & ?); apply Z.leb_le; unfold zlen, BSYSTEM_MAX_RESULTS; lia).
  rewrite Hp, Ef. cbn [mbind option_bind]. eexists. split; [done|]. split; [done|]. right. exists f. split_and!; try done.
  rewrite N'. destruct l; [done|cbn; lia].
Qed.

Lemma rounds_ok_earlier k rounds now now' : now <= now' -> rounds_ok k None now' rounds = true -> rounds_ok k None now rounds = true.
Proof.
  intros H. destruct rounds as [|[a time] rounds]; [done|]. cbn [rounds_ok]. unfold answer_ok. rewrite !andb_true_iff. intros (((? & ?) & ?) & ?). split_and!; try done. lia.
Qed.

Lemma wait_forever_ok o rounds : forall now, timers_ok (tm o) [] [] -> fds_ok (fdt o) -> epoll_results_pos (fdt o) = 0%nat -> epoll_results_num (fdt o) = 0%nat ->
  rounds_ok (epoll (fdt o)) None now rounds = true ->
  exists res, wait_loop o None now rounds = Some res /\
    match res with None => True | Some (o', time) => now <= time <= INT64_MAX /\ wait_found o [] o' time end.
Proof.
  induction rounds as [|[a time] rounds IH]; intros now T F Hp Hn; [by exists None|]. cbn [rounds_ok wait_loop].
  unfold answer_ok. intros (([Hnt Htm]%andb_true_iff & Ha)%andb_true_iff & Hrs)%andb_true_iff. apply Z.leb_le in Hnt, Htm.
  cbn [mbind option_bind default from_option]. destruct a as [[|ev l]| |]; [done| | |done].
  - destruct (wait_returned o [] (ev :: l) time false F Hp Hn Ha) as (o' & E & E0 & W); [done|]. rewrite bool_decide_false by (by intros [? ?]). rewrite E0 in *. cbn [negb orb] in *.
    rewrite E. eexists. split; [done|]. done.
  - apply IH; try done. by eapply rounds_ok_earlier.
Qed.

Lemma wait_loop_ok o t lt abs rounds : forall now, timers_ok (tm o) (t :: lt) [] -> fds_ok (fdt o) -> epoll_results_pos (fdt o) = 0%nat -> epoll_results_num (fdt o) = 0%nat ->
  time_of (tm o) t = Some abs -> 0 <= now -> now < abs <= INT64_MAX -> rounds_ok (epoll (fdt o)) (Some abs) now rounds = true ->
  exists res, wait_loop o (Some abs) now rounds = Some res /\
    match res with None => True | Some (o', time) => now <= time <= INT64_MAX /\ wait_found o (t :: lt) o' time end.
Proof.
  induction rounds as [|[a time] rounds IH]; intros now T F Hp Hn Ht H0 Habs; [by exists None|]. cbn [rounds_ok wait_loop].
  unfold answer_ok. intros (([Hnt Htm]%andb_true_iff & Ha)%andb_true_iff & Hrs)%andb_true_iff. apply Z.leb_le in Hnt, Htm.
  assert (is_int64 (abs - now) = true) as -> by (unfold is_int64, INT64_MIN, INT64_MAX in *; apply andb_true_iff; split; apply Z.leb_le; lia).
  cbn [mbind option_bind default from_option].
  assert (exists res, (if time >=? abs then x ← move_first_timers (tm o); Some (Some (with_tm o x, time)) else wait_loop o (Some abs) time rounds) = Some res /\
    match res with None => True | Some (o', time) => now <= time <= INT64_MAX /\ wait_found o (t :: lt) o' time end) as Hagain.
  { case_if.
    - destruct (wait_timeout o t lt abs time T Ht ltac:(lia)) as (x & -> & W). eexists. split; [done|]. done.
    - destruct (IH time) as (res & -> & H); try done; [lia..|]. exists res. split; [done|]. destruct res as [[o' time']|]; [|done]. destruct H as [? ?]. split; [lia|done]. }
  destruct a as [[|ev l]| |]; [| |exact Hagain|done].
  - rewrite bool_decide_true by (by eexists). change (zlen (@nil epoll_event) =? 0) with true. change (zlen (@nil epoll_event) <=? BSYSTEM_MAX_RESULTS) with true. cbn [negb orb]. case_if; [|exact Hagain].
    destruct (wait_timeout o t lt abs time T Ht) as (x & -> & W); [unfold id in *; lia|]. eexists. split; [done|]. done.
  - destruct (wait_returned o (t :: lt) (ev :: l) time (bool_decide (is_Some (Some abs))) F Hp Hn Ha) as (o' & E & E0 & W); [done|]. rewrite E0 in *. cbn [negb orb] in *.
    rewrite E. eexists. split; [done|]. done.
Qed.

(** The state after a wait: the timers that expire by [k] have expired, and there is something to
    dispatch. *)
Record waited (o : t) (lt : list ptr) (now : Z) (o' : t) (time k : Z) (due rest la : list ptr) : Prop := {
  wd_same : exiting o' = exiting o /\ exit_code o' = exit_code o /\ pending_jobs o' = pending_jobs o;
  wd_timers : expired_by k (tm o) lt [] (tm o') due rest;
  wd_fds : fds_ok (fdt o');
  wd_limits : limits_ok (lm o') la;
  wd_time : now <= k <= time /\ time <= INT64_MAX;
  wd_work : due <> [] \/ (epoll_results_pos (fdt o') < epoll_results_num (fdt o'))%nat;
}.

Lemma reset_fds f : fds_ok f -> epoll_results_pos f = epoll_results_num f -> fds_ok (with_results f (epoll_results f) 0 0).
Proof.
  intros [O1 O2 O3 O4 O5 O6 O7] Hp. split; cbn; try done.
  - lia.
  - lia.
  - intros g e i E Ha Hr. destruct (O4 g e i E Ha Hr) as [? _]. lia.
Qed.

(** From what the loop found to the state after the reset of the limits. *)
Lemma wait_finish o lt la now (w : option (option (t * Z))) : Forall (later (tm o) now) lt -> timers_ok (tm o) lt [] -> fds_ok (fdt o) -> limits_ok (lm o) la ->
  (exists res, w = Some res /\ match res with None => True | Some (o', time) => now <= time <= INT64_MAX /\ wait_found o lt o' time end) ->
  exists res, (r ← w; match r with None => Some None | Some (o, time) => x ← reset_limits (S (size (limits (lm o)))) (lm o); Some (Some (with_lm o x, time)) end) = Some res /\
    match res with None => True | Some (o', time) => exists k due rest, waited o lt now o' time k due rest [] end.
Proof.
  intros Hl T F L (res & -> & H). cbn [mbind option_bind]. destruct res as [[o1 time]|]; [|by exists None]. destruct H as [Ht W].
  assert (lm o1 = lm o) as El by (destruct W as [(x & _ & _ & _ & -> & _)|(f & -> & _)]; done). rewrite El.
  destruct (reset_limits_ok _ _ _ L (limits_fuel _ _ L)) as (x & -> & L' & _). cbn [mbind option_bind]. eexists. split; [done|].
  destruct W as [(y & due & rest & k & -> & Hx & Hne & Hk)|(f & -> & F' & Hp & Hn)].
  - exists k, due, rest. split; cbn; try done; [|by left]. split; [|lia].
    destruct due as [|i due]; [done|]. pose proof (ex_due _ _ _ _ _ _ _ Hx) as ((v & Hv & ?) & _)%list.Forall_cons. rewrite (ex_split _ _ _ _ _ _ _ Hx) in Hl.
    apply list.Forall_cons in Hl as [(v' & Hv' & ?) _]. replace v' with v in * by congruence. lia.
  - exists now, [], lt. split; cbn; try done; [lia|right; lia].
Qed.

Lemma wait_loop_forever o rounds : forall a b, wait_loop o None a rounds = wait_loop o None b rounds.
Proof.
  induction rounds as [|[an time] rounds IH]; intros a b; cbn [wait_loop]; [done|]. cbn [mbind option_bind default from_option]. by rewrite (IH a b).
Qed.

(** The wait of the loop; without the running timers the time is not read. *)
Lemma wait_for_events_ok o r lt la now rounds : bpending_rep (pending_jobs o) r [] -> timers_ok (tm o) lt [] -> fds_ok (fdt o) -> limits_ok (lm o) la ->
  times_ok (tm o) -> epoll_results_pos (fdt o) = epoll_results_num (fdt o) -> 0 <= now <= INT64_MAX ->
  rounds_ok (epoll (fdt o)) (first_timeout o) now rounds = true ->
  exists res, wait_for_events o now rounds = Some res /\
    match res with None => True | Some (o', time) => exists k due rest la', waited o lt now o' time k due rest la' end.
Proof.
  intros J T F L Hto Hp Hnow. unfold first_timeout, wait_for_events. destruct (jobs_read _ _ _ J) as (-> & _).
  rewrite bool_decide_false by tauto. cbn [negb]. unfold LinkedList1.LinkedList1_IsEmpty.
  pose proof (to_list _ _ _ T) as (_ & -> & _). cbn [LinkedList1.head_or]. do 2 rewrite bool_decide_true by done.
  set (o1 := with_fdt o (with_results (fdt o) (epoll_results (fdt o)) 0 0)). change (tm o1) with (tm o). pose proof (reset_fds _ F Hp) as F1.
  destruct (CAvl_first_ok _ _ (to_tree _ _ _ T)) as [-> _]. cbn [mbind option_bind].
  assert (forall o' time k due rest la', waited o1 lt now o' time k due rest la' -> waited o lt now o' time k due rest la') as Hw by (intros ? ? ? ? ? ? []; done).
  assert (forall w, Forall (later (tm o) now) lt ->
    (exists res, w = Some res /\ match res with None => True | Some (o', time) => now <= time <= INT64_MAX /\ wait_found o1 lt o' time end) ->
    exists res, (r ← w; match r with None => Some None | Some (o, time) => x ← reset_limits (S (size (limits (lm o)))) (lm o); Some (Some (with_lm o x, time)) end) = Some res /\
      match res with None => True | Some (o', time) => exists k due rest la', waited o lt now o' time k due rest la' end) as Hfin.
  { intros w Hl H. destruct (wait_finish o1 lt la now w Hl T F1 L H) as (res & -> & Hres). exists res. split; [done|].
    destruct res as [[o' time]|]; [|done]. destruct Hres as (k & due & rest & W). exists k, due, rest, []. by apply Hw. }
  destruct lt as [|timer lt]; cbn [head].
  - intros Hr. apply Hfin; [done|]. rewrite (wait_loop_forever o1 rounds 0 now). by apply (wait_forever_ok o1).
  - destruct (head_running _ _ _ _ T) as (e & E & Hs & Ht & Hl). rewrite E. cbn [fmap option_fmap option_map mbind option_bind]. rewrite bool_decide_true by done.
    intros Hr. destruct (move_expired_ok now _ _ _ T) as (x & due & rest & -> & Hx & Hid). cbn [mbind option_bind]. case_bool_decide as Hd.
    + eexists. split; [done|]. exists now, due, rest, la. apply Hw. split; cbn; try done; [lia|by left].
    + assert (due = []) as -> by (destruct due; [done|by destruct Hd]). rewrite (Hid eq_refl). destruct Hx as [E1 _ _ _ _ E6]. cbn [app] in E1. subst rest.
      rewrite E. cbn [mbind option_bind]. change (with_tm o1 (tm o)) with (with_tm o1 (tm o1)). rewrite with_tm_id. apply Hfin; [done|].
      pose proof E6 as [(v & Hv & ?) _]%list.Forall_cons. destruct (Hto _ _ E) as [Hi _]. unfold is_int64 in Hi. apply andb_true_iff in Hi as [_ Hi]. apply Z.leb_le in Hi.
      apply (wait_loop_ok o1); try done; [lia|]. replace (absTime e) with v in * by congruence. lia.
Qed.

(** *** Preservation *)
Lemma job_ops g r l j : bpending_rep g r l ->
  (j ∉ r -> exists g', BPending.BSmallPending_Init g j j = Some g' /\ bpending_rep g' ({[j]} ∪ r) l) /\
  (j ∈ r -> (exists g', BPending.BSmallPending_Free g j = Some g' /\ bpending_rep g' (r ∖ {[j]}) (without j l)) /\
    (exists g', BPending.BSmallPending_Set g j = Some g' /\ bpending_rep g' r (j :: without j l)) /\
    exists g', BPending.BSmallPending_Unset g j = Some g' /\ bpending_rep g' r (without j l)).
Proof.
  intros J. split; intros Hj; [exact (pg_init_ok (JobGroup := bpending_group) g r l j J Hj)|]. split_and!.
  - exact (pg_free_ok (JobGroup := bpending_group) g r l j J Hj).
  - exact (pg_set_ok (JobGroup := bpending_group) g r l j J Hj).
  - exact (pg_unset_ok (JobGroup := bpending_group) g r l j J Hj).
Qed.

Section Preserve.
Context (w : world) (r : gset positive) (l lt le la : list positive) (I : inv_at w r l lt le la).

Lemma inv_jobs g r' l' : bpending_rep g r' l' -> inv (mkw (with_jobs (rx w) g) (clock w)).
Proof using I. intros J. exists r', l', lt, le, la. by destruct I. Qed.
Lemma inv_fdt f : fds_ok f -> inv (mkw (with_fdt (rx w) f) (clock w)).
Proof using I. intros F. exists r, l, lt, le, la. by destruct I. Qed.
Lemma inv_lm x la' : limits_ok x la' -> inv (mkw (with_lm (rx w) x) (clock w)).
Proof using I. intros F. exists r, l, lt, le, la'. by destruct I. Qed.

(** The timers change; those expired before are expired later in the same order, or not at all. *)
Lemma inv_tm x lt' le' now : timers_ok x lt' le' -> le' `sublist_of` le -> (forall i, i ∈ le' -> timers x !! i = timers (tm (rx w)) !! i) ->
  times_ok x -> clock w <= now <= INT64_MAX -> inv (mkw (with_tm (rx w) x) now).
Proof using I.
  intros T Hs Hx Ht Hn. exists r, l, lt', le', la. destruct I as [I1 I2 I3 I4 I5 I6 I7 I8]. split; cbn; try done; [| |lia].
  - eapply sorted_ext; [|by eapply sorted_sublist]. intros i Hi. unfold tkey. by rewrite Hx.
  - apply list.Forall_forall. intros i Hi. rewrite list.Forall_forall in I6. assert (i ∈ le) as Hi' by (by eapply sublist_subseteq).
    destruct (I6 i Hi') as (v & Hv & ?). exists v. unfold time_of in *. rewrite Hx by done. split; [done|lia].
Qed.

Lemma without_sublist t : without t le `sublist_of` le.
Proof. unfold without. apply sublist_filter. Qed.

(** The event is executed, and the invariant holds afterwards. *)
Definition preserved (x : option (option (world * option called))) : Prop :=
  exists res, x = Some res /\ match res with None => True | Some (w', _) => inv w' end.

Lemma preserved_intro w' c : inv w' -> preserved (Some (Some (w', c))).
Proof. intros H. by eexists. Qed.

Lemma registered_reg j : registered (rx w) j = bool_decide (j ∈ r).
Proof using I. unfold registered. destruct (jobs_read _ _ _ (iv_jobs _ _ _ _ _ _ I)) as (_ & _ & H & _). by apply bool_decide_ext. Qed.

Lemma exec_job_ok e : match e with EInitJob _ | EFreeJob _ | ESetJob _ | EUnsetJob _ => enabled w e = true | _ => False end -> preserved (exec w e).
Proof using I.
  destruct e as [j|j|j|j| | | | | | | | | | | | | | | | |]; try done; cbn [enabled exec]; rewrite registered_reg; intros H;
    destruct (job_ops _ _ _ j (iv_jobs _ _ _ _ _ _ I)) as [H1 H2].
  1: apply negb_true_iff, bool_decide_eq_false in H; destruct (H1 H) as (g & -> & J).
  2-4: apply bool_decide_eq_true in H; destruct (H2 H) as ((g1 & E1 & J1) & (g2 & E2 & J2) & (g3 & E3 & J3)).
  2: rewrite E1. 3: rewrite E2. 4: rewrite E3.
  all: cbn [mbind option_bind]; apply preserved_intro; by eapply inv_jobs.
Qed.

Lemma times_ok_insert t e : is_int64 (absTime e) = true -> is_int64 (msTime e) = true -> forall x, timers x = <[t := e]> (timers (tm (rx w))) -> times_ok x.
Proof using I.
  intros H1 H2 x E i f. rewrite E. destruct (decide (i = t)) as [->|N]; [rewrite lookup_insert_eq; by intros [= <-]|].
  rewrite lookup_insert_ne by done. apply (iv_times _ _ _ _ _ _ I).
Qed.

Lemma deadline_int64 mode time now : is_int64 time = true -> 0 <= now <= INT64_MAX -> is_int64 (deadline mode time now) = true.
Proof.
  intros Ht Hn. destruct mode; cbn [deadline]; [done|]. rewrite btime_add_clamp; [|unfold is_int64, INT64_MIN, INT64_MAX in *; apply andb_true_iff; split; apply Z.leb_le; lia|done].
  unfold is_int64, INT64_MIN, INT64_MAX in *. apply andb_true_iff. split; apply Z.leb_le; lia.
Qed.

Lemma set_preserved t e mode time now : timers (tm (rx w)) !! t = Some e -> is_int64 time = true -> clock w <= now <= INT64_MAX ->
  exists x, BReactor_SetSmallTimer (tm (rx w)) t mode time now = Some x /\ inv (mkw (with_tm (rx w) x) now).
Proof using I.
  intros E Ht Hn. destruct (set_timer_ok _ t lt le e mode time now (iv_timers _ _ _ _ _ _ I) E) as (x & lt' & -> & T & _ & Ex). exists x. split; [done|].
  pose proof (iv_clock _ _ _ _ _ _ I). destruct (iv_times _ _ _ _ _ _ I t e E) as [_ Hms]. eapply inv_tm; try done.
  - apply without_sublist.
  - intros i [N _]%elem_of_without. by rewrite Ex, lookup_insert_ne.
  - eapply times_ok_insert; [| |exact Ex]; [|done]. apply deadline_int64; [done|lia].
Qed.

Lemma exec_timer_ok e : match e with EInitTimer _ _ _ | EFreeTimer _ | ERemoveTimer _ | ESetTimer _ _ _ _ | ESetTimerDefault _ _ => enabled w e = true | _ => False end ->
  preserved (exec w e).
Proof using I.
  pose proof (iv_timers _ _ _ _ _ _ I) as T. pose proof (iv_clock _ _ _ _ _ _ I) as Hc.
  destruct e as [ | | | |t small ms|t|t|t mode time now|t now| | | | | | | | | | | |]; try done; cbn [enabled exec].
  - intros [Ht Hms]%andb_true_iff. destruct (timer_inactive _ _ _ t T) as (Nt & T1 & _).
    { intros e E. unfold timer_in in Ht. rewrite E in Ht. apply orb_true_iff in Ht as [Ht|Ht]; by apply bool_decide_eq_true in Ht. }
    rewrite elem_of_app in Nt. apply preserved_intro. destruct small; (eapply inv_tm; [apply T1; done|done| | |lia]).
    all: try (intros i Hi; cbn; rewrite lookup_insert_ne; [done|]; intros ->; tauto).
    all: eapply times_ok_insert; [| |reflexivity]; done.
  - intros Ht. destruct (timer_inactive _ _ _ t T) as (Nt & _ & T1).
    { intros e E. unfold timer_in in Ht. rewrite E in Ht. by apply bool_decide_eq_true in Ht. }
    rewrite elem_of_app in Nt. apply preserved_intro. eapply inv_tm; [exact T1|done| | |lia].
    + intros i Hi. cbn. rewrite lookup_delete_ne; [done|]. intros ->. tauto.
    + intros i f E. cbn in E. apply lookup_delete_Some in E as [_ E]. exact (iv_times _ _ _ _ _ _ I i f E).
  - intros [e E]%bool_decide_eq_true. destruct (remove_timer_ok _ t lt le e T E) as (x & -> & T1 & Ex). cbn [mbind option_bind].
    destruct (iv_times _ _ _ _ _ _ I t e E) as [? ?]. apply preserved_intro. eapply inv_tm; [exact T1|apply without_sublist| | |lia].
    + intros i [N _]%elem_of_without. by rewrite Ex, lookup_insert_ne.
    + by eapply times_ok_insert; [| |exact Ex].
  - intros [[[[e E]%bool_decide_eq_true Ht]%andb_true_iff Hn]%andb_true_iff Hm]%andb_true_iff. apply Z.leb_le in Hn, Hm.
    destruct (set_preserved t e mode time now E Ht) as (x & -> & H); [lia|]. by apply preserved_intro.
  - intros [[[e E]%bool_decide_eq_true Hn]%andb_true_iff Hm]%andb_true_iff. apply Z.leb_le in Hn, Hm. unfold BReactor_SetTimer. rewrite E. cbn [mbind option_bind].
    destruct (iv_times _ _ _ _ _ _ I t e E) as [Ha1 Ha2]. destruct (set_preserved t e BTIMER_SET_RELATIVE (msTime e) now E) as (x & -> & H3); [done|lia|]. by apply preserved_intro.
Qed.

Lemma fd_is_true f a : fd_is (rx w) f a = true -> exists e, fds (fdt (rx w)) !! f = Some e /\ active e = a.
Proof. unfold fd_is. destruct (fds (fdt (rx w)) !! f) as [e|]; [|done]. intros H%bool_decide_eq_true. by exists e. Qed.

Lemma exec_fd_ok e : match e with EInitFd _ _ | EFreeFd _ | EAddFd _ _ | ERemoveFd _ | ESetEvents _ _ => enabled w e = true | _ => False end ->
  preserved (exec w e).
Proof using I.
  pose proof (iv_fds _ _ _ _ _ _ I) as F.
  destruct e as [ | | | | | | | | |f n|f|f mem|f|f ev| | | | | | |]; try done; cbn [enabled exec].
  - intros Hf. destruct (fd_inactive _ F f) as [F1 _]; [|by eapply preserved_intro, inv_fdt].
    intros e E. apply orb_true_iff in Hf as [Hf%bool_decide_eq_true|(e' & ? & ?)%fd_is_true]; congruence.
  - intros (e & E & Ha)%fd_is_true. destruct (fd_inactive _ F f) as [_ F1]; [|by eapply preserved_intro, inv_fdt]. intros e' E'. congruence.
  - intros (e & E & Ha)%fd_is_true. destruct (add_fd_ok _ F f e mem E Ha) as (o' & res & -> & F1 & _). by eapply preserved_intro, inv_fdt.
  - intros (e & E & Ha)%fd_is_true. destruct (remove_fd_ok _ F f e E Ha) as (o' & -> & F1 & _). by eapply preserved_intro, inv_fdt.
  - intros [(e & E & Ha)%fd_is_true Hev]%andb_true_iff. apply Z.eqb_eq in Hev. destruct (set_events_ok _ F f e ev E Ha Hev) as (o' & -> & F1 & _). by eapply preserved_intro, inv_fdt.
Qed.

Lemma exec_limit_ok e : match e with EInitLimit _ _ | EFreeLimit _ | EIncrement _ | ESetLimit _ _ => enabled w e = true | _ => False end ->
  preserved (exec w e).
Proof using I.
  pose proof (iv_limits _ _ _ _ _ _ I) as L.
  destruct e as [ | | | | | | | | | | | | | |x lim|x|x|x lim| | |]; try done; cbn [enabled exec].
  - intros ([Hx%bool_decide_eq_true H1%Z.ltb_lt]%andb_true_iff & H2%Z.leb_le)%andb_true_iff. destruct (limit_init_ok _ la x lim L Hx) as (o' & -> & L1); [lia|]. by eapply preserved_intro, inv_lm.
  - intros Hx%bool_decide_eq_true. destruct (limit_free_ok _ la x L Hx) as (o' & la' & -> & L1 & _). by eapply preserved_intro, inv_lm.
  - intros [e E]%bool_decide_eq_true. destruct (limit_increment_ok _ la x e L E) as (o' & la' & -> & L1 & _). by eapply preserved_intro, inv_lm.
  - intros ([Hx%bool_decide_eq_true H1%Z.ltb_lt]%andb_true_iff & H2%Z.leb_le)%andb_true_iff. destruct (limit_set_ok _ la x lim L Hx) as (o' & -> & L1); [lia|]. by eapply preserved_intro, inv_lm.
Qed.

End Preserve.

(** The results to be dispatched after a wait are those that [epoll_wait] returned in one of its rounds, or there are none. *)
Definition from_epoll (rounds : list (wait_answer * Z)) (f : fds_t) : Prop := epoll_results_pos f = 0%nat /\
  (epoll_results_num f = 0%nat \/ exists l time, (WReturned l, time) ∈ rounds /\ epoll_results_num f = length l /\ take (length l) (epoll_results f) = l).

Lemma pointers_results n : forall f i f', set_epoll_fd_pointers f i n = Some f' ->
  epoll_results f' = epoll_results f /\ epoll_results_num f' = epoll_results_num f /\ epoll_results_pos f' = epoll_results_pos f.
Proof.
  induction n as [|n IH]; intros f i f'; cbn; [by intros [= <-]|]. destruct (epoll_results f !! i) as [ev|]; [|done]. cbn. destruct (data_ptr ev) as [bfd|]; [|done]. cbn.
  destruct (fds f !! bfd) as [e|]; [|done]. cbn. destruct (active e); [|done]. destruct (bool_decide _); [|done]. intros H%IH. done.
Qed.
Lemma wait_loop_results o abs rounds : epoll_results_pos (fdt o) = 0%nat -> epoll_results_num (fdt o) = 0%nat -> forall now o' time, wait_loop o abs now rounds = Some (Some (o', time)) -> from_epoll rounds (fdt o').
Proof.
  intros Hp Hn. induction rounds as [|[a clk] rounds IH]; intros now o' time; [done|]. cbn [wait_loop]. destruct (match abs with Some abs => ASSERT is_int64 (abs - now); Some (Some (abs - now)) | None => Some None end) as [timeout|]; [|done]. cbn [mbind option_bind].
  assert (forall now o' time, wait_loop o abs now rounds = Some (Some (o', time)) -> from_epoll ((a, clk) :: rounds) (fdt o')) as IH'.
  { intros now1 o1 time1 H%IH. destruct H as [H1 [H2|(l & tl & Hl & H2)]]; (split; [done|]); [by left|right]. exists l, tl. split; [by right|done]. }
  assert (forall x o1 time1, (y ← x; Some (Some (with_tm o y, clk))) = Some (Some (o1, time1)) -> from_epoll ((a, clk) :: rounds) (fdt o1)) as Htm.
  { intros x o1 time1. destruct x; [|done]. cbn. intros [= <- <-]. split; [done|by left]. }
  assert (match abs with Some abs0 => if clk >=? abs0 then x ← move_first_timers (tm o); Some (Some (with_tm o x, clk)) else wait_loop o abs clk rounds | None => wait_loop o abs now rounds end = Some (Some (o', time)) -> from_epoll ((a, clk) :: rounds) (fdt o')) as Hagain.
  { destruct abs as [abs|]; [destruct (clk >=? abs); [apply Htm|apply IH']|apply IH']. }
  destruct a as [l| |]; [|exact Hagain|done]. destruct (_ || _); [|done]. destruct (_ <=? _); [|done]. destruct (_ || _); [|exact Hagain]. destruct (negb _) eqn:E0; [|apply Htm].
  destruct (set_epoll_fd_pointers _ _ _) as [f|] eqn:Ef; [|done]. cbn [mbind option_bind]. intros [= <- <-]. apply pointers_results in Ef as (R1 & R2 & R3). cbn in *. split; [by rewrite R3|]. right. exists l, clk.
  split; [by left|]. split; [done|]. by rewrite R1, take_app_length.
Qed.
Lemma wait_results o now rounds o' time : wait_for_events o now rounds = Some (Some (o', time)) -> from_epoll rounds (fdt o').
Proof.
  unfold wait_for_events. intros H. destruct (negb _); [|done]. destruct (LinkedList1.LinkedList1_IsEmpty _); [|done]. destruct (bool_decide _); [|done]. cbv zeta in H. set (o1 := with_fdt o _) in H.
  assert (forall o2 abs n, fdt o2 = fdt o1 -> (r ← wait_loop o2 abs n rounds; match r with None => Some None | Some (o, time) => x ← reset_limits (S (size (limits (lm o)))) (lm o); Some (Some (with_lm o x, time)) end) = Some (Some (o', time)) ->
    from_epoll rounds (fdt o')) as Hfin.
  { intros o2 abs n E2 H2. destruct (wait_loop o2 abs n rounds) as [[[o3 t3]|]|] eqn:Ew; [|done..]. cbn [mbind option_bind] in H2. destruct (reset_limits _ _); [|done]. cbn in H2. injection H2 as <- <-. cbn.
    by apply (wait_loop_results o2 abs rounds) in Ew; [|by rewrite E2..]. }
  destruct (CAvl.CAvl_GetFirst _) as [[timer|]|]; [| |done]; cbn [mbind option_bind] in H; [|by apply (Hfin o1) in H].
  destruct (timers _ !! timer) as [e|]; [|done]. cbn [mbind option_bind] in H. destruct (bool_decide _); [|done]. destruct (move_expired_timers _ now) as [[x moved]|]; [|done]. cbn [mbind option_bind] in H.
  destruct moved; [injection H as <- <-; split; [done|by left]|]. destruct (timers x !! timer) as [e'|]; [|done]. cbn [mbind option_bind] in H. by apply (Hfin (with_tm o1 x)) in H.
Qed.

(** One iteration of the loop: what is called, and what it finds when it waits. *)
Lemma exec_step_ok w r l lt le la now rounds : inv_at w r l lt le la -> clock w <= now <= INT64_MAX -> rounds_ok (epoll (fdt (rx w))) (first_timeout (rx w)) now rounds = true ->
  exists res, BReactor_Exec_step (rx w) now rounds = Some res /\
    match res with
    | None => l = [] /\ le = []
    | Some (o', time, c) => inv (mkw o' time) /\ now <= time /\
        match l, le with
        | j :: _, _ => c = Some (CJob j)
        | [], i :: le' => c = Some (CTimer i) /\ time = now /\ timers (tm o') !! i = (fun e => timer_with_state e TIMER_STATE_INACTIVE) <$> timers (tm (rx w)) !! i
        | [], [] =>
            if (epoll_results_pos (fdt (rx w)) <? epoll_results_num (fdt (rx w)))%nat then
              exists ev, epoll_results (fdt (rx w)) !! epoll_results_pos (fdt (rx w)) = Some ev /\ epoll_results_pos (fdt o') = S (epoll_results_pos (fdt (rx w))) /\
                match data_ptr ev with
                | None => c = None
                | Some f => exists e, fds (fdt (rx w)) !! f = Some e /\ active e = true /\
                    c = (let evs := reported_events (waitEvents e) (events ev) in if evs =? 0 then None else Some (CFd f evs))
                end
            else c = None /\ from_epoll rounds (fdt o') /\ exists k due rest la', waited (rx w) lt now o' time k due rest la'
        end
    end.
Proof.
  intros I Hn Hr. pose proof I as [J T F L Ho Hd Ht Hc]. unfold BReactor_Exec_step. destruct (jobs_read _ _ _ J) as (-> & _). destruct l as [|j l'].
  2:{ rewrite bool_decide_true by done. destruct (pg_execute_ok (JobGroup := bpending_group) _ _ _ _ J) as (g & E & J'). cbn in E. rewrite E. cbn [mbind option_bind].
      eexists. split; [done|]. split; [|split; [lia|done]]. exists r, l', lt, le, la. split; cbn; try done; [|lia].
      eapply list.Forall_impl; [exact Hd|]. intros i (v & Hv & ?). exists v. split; [done|lia]. }
  rewrite bool_decide_false by tauto. unfold LinkedList1.LinkedList1_GetFirst. pose proof (to_list _ _ _ T) as R. pose proof R as (Hnd & -> & _).
  destruct le as [|i le']; cbn [LinkedList1.head_or].
  - destruct (Nat.ltb_spec (epoll_results_pos (fdt (rx w))) (epoll_results_num (fdt (rx w)))) as [Hp|Hp].
    + rewrite bool_decide_true by done. destruct (dispatch_ok _ F Hp) as (f' & c & ev & -> & F' & _ & Hp' & Hev & Hm). cbn [mbind option_bind]. eexists. split; [done|].
      split; [|split; [lia|]].
      * exists r, [], lt, [], la. split; cbn; try done. lia.
      * exists ev. split; [done|]. split; [done|]. destruct (data_ptr ev) as [f|]; [|by destruct Hm as [-> _]]. destruct Hm as (e & E & Ha & _ & ->). exists e. split_and!; try done.
        cbn zeta. by destruct (reported_events (waitEvents e) (events ev) =? 0).
    + rewrite bool_decide_false by lia. pose proof (fo_pos _ F). 
      destruct (wait_for_events_ok (rx w) r lt la now rounds J T F L Ht) as (res & Ew & H0); [lia|lia|done|]. rewrite Ew. cbn [mbind option_bind]. destruct res as [[o' time]|]; [|by eexists]. apply wait_results in Ew.
      eexists. split; [done|]. destruct H0 as (k & due & rest & la' & W). pose proof W as [(E1 & E2 & E3) Wt Wf Wl Wti Ww]. split; [|split; [lia|split; [done|split; [done|by exists k, due, rest, la']]]].
      destruct Wt as [Es Eo Et Ed Edue Erest]. exists r, [], rest, due, la'. split; cbn; try done.
      * by rewrite E3.
      * eapply sorted_ext; [|eapply sorted_sublist; [|exact (to_sorted _ _ _ T)]].
        -- intros x Hx. unfold tkey. specialize (Et x). unfold time_of in Et. destruct (timers (tm o') !! x), (timers (tm (rx w)) !! x); simpl in *; congruence.
        -- rewrite Es. apply sublist_inserts_r. done.
      * eapply list.Forall_impl; [exact Edue|]. intros x (v & Hv & ?). exists v. rewrite Et. split; [done|lia].
      * intros x e' E'. specialize (Ed x). rewrite E' in Ed. destruct (timers (tm (rx w)) !! x) as [e|] eqn:E; [|done]. injection Ed as -> _ ->. by apply (Ht x).
      * lia.
  - destruct (to_dom _ _ _ T i) as [e E]; [apply elem_of_app; right; by left|]. rewrite E. cbn [mbind option_bind].
    rewrite bool_decide_true by (apply (to_state _ _ _ T i e E); by left).
    destruct (remove_timer_ok _ i lt _ e T E) as (x & Ex & T' & Et). unfold BReactor_RemoveSmallTimer in Ex. rewrite E in Ex. cbn [mbind option_bind] in Ex.
    assert (state e = TIMER_STATE_EXPIRED) as Hs by (apply (to_state _ _ _ T i e E); by left). rewrite Hs in Ex. rewrite bool_decide_false, bool_decide_true in Ex by done.
    destruct (LinkedList1.LinkedList1_Remove (timers_expired_list (tm (rx w))) i) as [l'|]; [|done]. cbn [mbind option_bind with_expired timers] in Ex |- *. rewrite E in Ex.
    cbn [mbind option_bind] in Ex. injection Ex as Ex. rewrite Ex. eexists. split; [done|]. split; [|split; [lia|split; [done|split; [done|cbn; by rewrite Et, lookup_insert_eq]]]].
    destruct (Ht i e E) as [? ?]. eapply inv_tm; [exact I|exact T'|apply without_sublist| | |lia].
    + intros k [N _]%elem_of_without. by rewrite Et, lookup_insert_ne.
    + by eapply times_ok_insert; [exact I| | |exact Et].
Qed.


Lemma reactor_exec_inv w e : inv w -> enabled w e = true -> preserved (exec w e).
Proof.
  intros (r & l & lt & le & la & I) He.
  destruct e as [j|j|j|j|x small ms|x|x|x mode time now|x now|f n|f|f mem|f|f ev|x lim|x|x|x lim|code|ref|now rounds].
  1-4: by eapply exec_job_ok. 1-5: by eapply exec_timer_ok. 1-5: by eapply exec_fd_ok. 1-4: by eapply exec_limit_ok.
  - apply preserved_intro. exists r, l, lt, le, la. by destruct I.
  - cbn [enabled exec] in *. apply andb_true_iff in He as [_ He]. apply bool_decide_eq_true in He. unfold BReactor_Synchronize_step.
    pose proof (iv_jobs _ _ _ _ _ _ I) as J. destruct (jobs_read _ _ _ J) as (-> & -> & _ & Hset). apply Hset in He.
    destruct l as [|j l]; [by apply not_elem_of_nil in He|]. rewrite bool_decide_true by done. cbn [head]. case_bool_decide; cbn [mbind option_bind].
    + apply preserved_intro. exists r, (j :: l), lt, le, la. by destruct I.
    + destruct (pg_execute_ok (JobGroup := bpending_group) _ _ _ _ J) as (g & E & J'). cbn in E. rewrite E. cbn [mbind option_bind].
      eapply preserved_intro, inv_jobs; [exact I|exact J'].
  - cbn [enabled exec] in *. apply andb_true_iff in He as [[[_ Hn]%andb_true_iff Hm]%andb_true_iff Hr]. apply Z.leb_le in Hn, Hm.
    destruct (exec_step_ok _ _ _ _ _ _ now rounds I ltac:(lia) Hr) as (res & -> & H). cbn [mbind option_bind]. destruct res as [[[o' time] c]|]; [|by eexists].
    eapply preserved_intro. by destruct H.
Qed.

Lemma inv_init efd o now : BReactor_Init efd = inr o -> 0 <= now <= INT64_MAX -> inv (mkw o now).
Proof.
  unfold BReactor_Init. destruct (efd <? 0); [done|]. intros [= <-] Hn. exists ∅, [], [], [], []. split; cbn.
  - exact bpending_rep_empty.
  - split; cbn; [| |by repeat split; try constructor| |].
    + by destruct (tree_init_ok (fun _ : Z * Z => True) tcmp (tkey ∅) (BAVL.mk ∅ None)).
    + split; constructor.
    + intros i e. by rewrite lookup_empty.
    + intros i Hi. by apply not_elem_of_nil in Hi.
  - split; cbn [fds epoll epoll_results epoll_results_num epoll_results_pos d_fds_counter].
    + by rewrite length_replicate.
    + lia.
    + intros i ev f Hi. lia.
    + intros f e i. by rewrite lookup_empty.
    + intros f e. by rewrite lookup_empty.
    + intros f e m. by rewrite lookup_empty.
    + right. by rewrite map_size_empty.
  - split; cbn; [by repeat split; try constructor|intros x e; by rewrite lookup_empty|intros x Hx; by apply not_elem_of_nil in Hx|right; by rewrite map_size_empty].
  - split; constructor.
  - constructor.
  - intros i e. cbn. by rewrite lookup_empty.
  - done.
Qed.

Lemma reactor_reach_inv w : reach w -> inv w.
Proof.
  induction 1 as [efd o now Ho Hn|w e w' c _ IH He E]; [by eapply inv_init|]. destruct (reactor_exec_inv w e IH He) as (res & E' & H).
  rewrite E in E'. by injection E' as <-.
Qed.

(** ** Theorems *)

(** C6: the reactor is safe: in every state the program and the operating system can bring about,
    every call its documentation allows and every iteration of the event loop succeeds: no
    assertion fails, and no pointer of the job queue, of the timers (whose list nodes share memory
    with the links of the tree), of the results of epoll or of the limits is dangling.  When
    nothing is registered any more, the reactor can be freed. *)
Theorem reactor_safe w : reach w ->
  (forall e, enabled w e = true -> is_Some (exec w e)) /\
  (BPending.BPendingGroup_HasJobs (pending_jobs (rx w)) = false -> (forall i e, timers (tm (rx w)) !! i = Some e -> state e = TIMER_STATE_INACTIVE) ->
   (forall f e, fds (fdt (rx w)) !! f = Some e -> active e = false) -> limits (lm (rx w)) = ∅ -> BReactor_Free (rx w) = Some tt).
Proof.
  intros R. apply reactor_reach_inv in R. split.
  - intros e He. destruct (reactor_exec_inv w e R He) as (res & -> & _). by eexists.
  - destruct R as (r & l & lt & le & la & [J T F L _ _ _ _]). intros Hj Ht Hf Hl. unfold BReactor_Free. rewrite Hj. cbn [negb].
    assert (lt = [] /\ le = []) as [-> ->].
    { assert (forall i, i ∉ lt ++ le) as H.
      { intros i Hi. destruct (to_dom _ _ _ T i Hi) as [e E]. pose proof (Ht i e E). destruct (to_state _ _ _ T i e E) as [H1 H2].
        apply elem_of_app in Hi as [Hi|Hi]; [apply H1 in Hi|apply H2 in Hi]; congruence. }
      destruct lt as [|i lt]; [|destruct (H i); by left]. destruct le as [|i le]; [done|]. destruct (H i). by left. }
    destruct (CAvl_first_ok _ _ (to_tree _ _ _ T)) as [_ ->]. unfold LinkedList1.LinkedList1_IsEmpty. pose proof (to_list _ _ _ T) as (_ & -> & _).
    pose proof (lo_list _ _ L) as (_ & -> & _). assert (la = []) as ->.
    { destruct la as [|x la]; [done|]. destruct (lo_dom _ _ L x) as [e E]; [by left|]. by rewrite Hl in E. }
    cbn [LinkedList1.head_or]. repeat rewrite bool_decide_true by done.
    assert (size (epoll (fdt (rx w))) = 0%nat) as Hs.
    { apply map_size_empty_iff, map_empty. intros n. destruct (epoll (fdt (rx w)) !! n) as [[f m]|] eqn:E; [|done].
      destruct (fo_watched _ F n f m E) as (e & Ee & Ha & _). apply Hf in Ee. congruence. }
    pose proof (fo_count _ F) as C1. pose proof (lo_ctr _ _ L) as C2. rewrite Hs in C1. rewrite Hl, map_size_empty in C2. unfold DebugCounter_Free, counter_ok in *.
    destruct C1 as [-> | ->], C2 as [-> | ->]; done.
Qed.

(** The result of epoll that is next, if there is one left. *)
Definition next_result (o : fds_t) : option epoll_event := if (epoll_results_pos o <? epoll_results_num o)%nat then epoll_results o !! epoll_results_pos o else None.
(** What a handler must be told, for the events [wait] that are watched and the events [ev] of a result: what both
    have, and errors and hang-ups anyway. *)
Definition tells (wait ev evs : Z) : Prop :=
  has evs BREACTOR_READ = has wait BREACTOR_READ && has ev EPOLLIN /\ has evs BREACTOR_WRITE = has wait BREACTOR_WRITE && has ev EPOLLOUT /\
  has evs BREACTOR_ERROR = has ev EPOLLERR /\ has evs BREACTOR_HUP = has ev EPOLLHUP /\ 0 <= evs < 16.
Lemma reported_tells wait ev : tells wait ev (reported_events wait ev).
Proof.
  unfold tells, reported_events. destruct (has wait BREACTOR_READ && has ev EPOLLIN), (has wait BREACTOR_WRITE && has ev EPOLLOUT), (has ev EPOLLERR), (has ev EPOLLHUP); by vm_compute.
Qed.

(** What an iteration of the loop calls, in the state [w]. *)
Definition dispatch_spec (w : world) (rounds : list (wait_answer * Z)) (w' : world) (c : option called) : Prop :=
  let o := rx w in
  let no_jobs := BPending.BPendingGroup_HasJobs (pending_jobs o) = false in
  let none_expired := forall i e, timers (tm o) !! i = Some e -> state e <> TIMER_STATE_EXPIRED in
  let one_further := epoll_results_pos (fdt (rx w')) = S (epoll_results_pos (fdt o)) in
  match c with
  | Some (CJob j) => BPending.BPendingGroup_PeekJob (pending_jobs o) = Some j
  | Some (CTimer i) => no_jobs /\ timer_in (rx w') i TIMER_STATE_INACTIVE = true /\
      exists e, timers (tm o) !! i = Some e /\ state e = TIMER_STATE_EXPIRED /\ absTime e <= clock w /\
      forall i' e', timers (tm o) !! i' = Some e' -> state e' = TIMER_STATE_EXPIRED -> absTime e <= absTime e'
  | Some (CFd f evs) => no_jobs /\ none_expired /\ one_further /\
      exists ev e, next_result (fdt o) = Some ev /\ data_ptr ev = Some f /\ fds (fdt o) !! f = Some e /\ active e = true /\ evs <> 0 /\ tells (waitEvents e) (events ev) evs
  | None => no_jobs /\ none_expired /\
      match next_result (fdt o) with
      | Some ev => one_further /\ forall f, data_ptr ev = Some f -> exists e, fds (fdt o) !! f = Some e /\ active e = true /\ tells (waitEvents e) (events ev) 0
      | None => from_epoll rounds (fdt (rx w'))
      end
  end.

Lemma none_expired_ok o lt : timers_ok o lt [] -> forall i e, timers o !! i = Some e -> state e <> TIMER_STATE_EXPIRED.
Proof. intros T i e E H. apply (to_state _ _ _ T i e E) in H. by apply not_elem_of_nil in H. Qed.

(** C21: the event loop dispatches in the documented order: the job set last if there is one; else
    the expired timer with the earliest time, which is over, and whose object is not running when
    its handler is called; else the next result of epoll that is left, one after the other.  The handler of its file
    descriptor is called, which is active, with exactly the events that the result has and that are watched at that
    moment, and errors and hang-ups; a result is passed over only when its descriptor was removed or when there is nothing to
    tell.  The loop waits only when no result is left to dispatch, and then those it has are the ones that [epoll_wait] returned. *)
Theorem reactor_dispatch w now rounds w' c : reach w -> enabled w (ELoop now rounds) = true ->
  exec w (ELoop now rounds) = Some (Some (w', c)) -> dispatch_spec w rounds w' c.
Proof.
  intros R He E. apply reactor_reach_inv in R as (r & l & lt & le & la & I). cbn [enabled exec] in *.
  apply andb_true_iff in He as [[[_ Hn]%andb_true_iff Hm]%andb_true_iff Hr]. apply Z.leb_le in Hn, Hm.
  destruct (exec_step_ok _ _ _ _ _ _ now rounds I ltac:(lia) Hr) as (res & Es & H). rewrite Es in E. cbn [mbind option_bind] in E. injection E as E.
  destruct res as [[[o' time] c']|]; [|done]. injection E as <- <-. destruct H as (_ & _ & H). pose proof I as [J T F _ Ho Hd _ _].
  destruct (jobs_read _ _ _ J) as (Hj & Hp & _). destruct l as [|j l]; [|subst c'; cbn; by rewrite Hp].
  rewrite bool_decide_false in Hj by tauto. destruct le as [|i le].
  - pose proof (none_expired_ok _ _ T) as Hx. destruct (_ <? _)%nat eqn:El.
    + destruct H as (ev & Hev & Hpos & H). assert (next_result (fdt (rx w)) = Some ev) as Hnext by (unfold next_result; by rewrite El).
      destruct (data_ptr ev) as [f|] eqn:Hd'; [|subst c'; cbn; rewrite Hnext; split; [done|]; split; [done|]; split; [done|]; intros f; by rewrite Hd'].
      destruct H as (e & E & Ha & ->). cbn zeta. pose proof (reported_tells (waitEvents e) (events ev)) as Ht. destruct (Z.eqb_spec (reported_events (waitEvents e) (events ev)) 0) as [E0|].
      * cbn. rewrite Hnext. split; [done|]. split; [done|]. split; [done|]. intros f' Ef. rewrite Hd' in Ef. injection Ef as <-. rewrite E0 in Ht. by exists e.
      * split; [done|]. split; [done|]. split; [done|]. by exists ev, e.
    + destruct H as (-> & H & _). cbn. unfold next_result. by rewrite El.
  - destruct H as (-> & -> & Ei). destruct (to_dom _ _ _ T i) as [e E]; [apply elem_of_app; right; by left|]. split; [done|]. split.
    + unfold timer_in. cbn. rewrite Ei, E. done.
    + exists e. assert (time_of (tm (rx w)) i = Some (absTime e)) as Hti by (unfold time_of; by rewrite E). split; [done|]. split; [apply (to_state _ _ _ T i e E); by left|]. split.
      * apply list.Forall_cons in Hd as [(v & Hv & ?) _]. congruence.
      * intros i' e' E' Hs'. apply (to_state _ _ _ T i' e' E') in Hs'. apply elem_of_cons in Hs' as [->|Hi]; [replace e' with e by congruence; lia|].
        destruct (sorted_times _ _ _ i' _ Ho Hi Hti) as (v & Hv & ?). unfold time_of in Hv. rewrite E' in Hv. simpl in Hv. congruence.
Qed.

(** C22: timers expire exactly when their time has come: a wait that starts at [now] and ends at the
    time [clock w'] expires, for some [k] between the two, the running timers with a time up to [k]
    and no other (so none early, and all that are due at [now]), changes nothing else about any timer,
    and ends only with an expired timer or a result to dispatch.  The waiting survives
    interrupted calls and time-outs beyond the range of [epoll_wait]. *)
Theorem reactor_timers w now rounds w' c : reach w -> enabled w (ELoop now rounds) = true ->
  exec w (ELoop now rounds) = Some (Some (w', c)) -> BPending.BPendingGroup_HasJobs (pending_jobs (rx w)) = false ->
  (forall i e, timers (tm (rx w)) !! i = Some e -> state e <> TIMER_STATE_EXPIRED) ->
  epoll_results_pos (fdt (rx w)) = epoll_results_num (fdt (rx w)) ->
  exists k, now <= k <= clock w' /\
    (forall i, timers (tm (rx w')) !! i =
      (fun e => if bool_decide (state e = TIMER_STATE_RUNNING) && (absTime e <=? k) then timer_with_state e TIMER_STATE_EXPIRED else e) <$> timers (tm (rx w)) !! i) /\
    ((exists i e, timers (tm (rx w)) !! i = Some e /\ state e = TIMER_STATE_RUNNING /\ absTime e <= k) \/
     (epoll_results_pos (fdt (rx w')) < epoll_results_num (fdt (rx w')))%nat).
Proof.
  intros R He E Hj Hx Hp. apply reactor_reach_inv in R as (r & l & lt & le & la & I). cbn [enabled exec] in *.
  apply andb_true_iff in He as [[[_ Hn]%andb_true_iff Hm]%andb_true_iff Hr]. apply Z.leb_le in Hn, Hm.
  destruct (exec_step_ok _ _ _ _ _ _ now rounds I ltac:(lia) Hr) as (res & Es & H). rewrite Es in E. cbn [mbind option_bind] in E. injection E as E.
  destruct res as [[[o' time] c']|]; [|done]. injection E as <- <-. destruct H as (_ & _ & H). pose proof I as [J T F _ Ho Hd _ _].
  destruct (jobs_read _ _ _ J) as (Hj' & _). rewrite Hj in Hj'. symmetry in Hj'. apply bool_decide_eq_false in Hj'. destruct l as [|j l]; [|by destruct Hj'].
  destruct le as [|i le].
  2:{ destruct (to_dom _ _ _ T i) as [e E]; [apply elem_of_app; right; by left|]. destruct (Hx i e E). apply (to_state _ _ _ T i e E). by left. }
  rewrite Hp, Nat.ltb_irrefl in H. destruct H as (_ & _ & k & due & rest & la' & [_ [Es1 Eo Et Ef Ed Er] _ _ [Hk _] Ww]). exists k. split; [done|]. cbn [rx tm fdt].
  rewrite list.Forall_forall in Ed, Er. split.
  - intros i. specialize (Ef i). destruct (timers (tm (rx w)) !! i) as [e|] eqn:E; destruct (timers (tm o') !! i) as [e'|] eqn:E'; try done. cbn. f_equal.
    destruct (to_state _ _ _ T i e E) as [S1 _]. destruct (to_state _ _ _ Eo i e' E') as [S2 S3]. cbn [app] in S3. rewrite Es1, elem_of_app in S1.
    assert (time_of (tm (rx w)) i = Some (absTime e)) as Hti by (unfold time_of; by rewrite E).
    injection Ef as F1 F2 F3. destruct e as [ab st sm ms], e' as [ab' st' sm' ms']. cbn in *. subst ab' sm' ms'.
    destruct (decide (i ∈ due)) as [Hi|Ni].
    + destruct (Ed i Hi) as (v & Hv & ?). replace v with ab in * by congruence. rewrite bool_decide_true by tauto. bool_true. unfold timer_with_state. cbn. f_equal. tauto.
    + assert ((bool_decide (st = TIMER_STATE_RUNNING) && (ab <=? k)) = false) as ->.
      { apply andb_false_iff. destruct (decide (i ∈ rest)) as [Hi|Nr]; [right|left; apply bool_decide_eq_false; tauto].
        destruct (Er i Hi) as (v & Hv & ?). replace v with ab in * by congruence. apply Z.leb_gt. lia. }
      f_equal. pose proof (Hx i _ E) as Hne. cbn in Hne. destruct st, st'; try done; exfalso; intuition congruence.
  - destruct Ww as [Hne|?]; [left|by right]. destruct due as [|i due]; [done|]. destruct (Ed i) as (v & Hv & ?); [by left|].
    destruct (to_dom _ _ _ T i) as [e E]; [apply elem_of_app; left; rewrite Es1; by left|]. exists i, e. split; [done|]. unfold time_of in Hv. rewrite E in Hv. injection Hv as ->.
    split; [|done]. apply (to_state _ _ _ T i e E). rewrite Es1. by left.
Qed.

(** C20: file descriptors and results agree, whatever handlers do between the dispatches: epoll
    watches exactly the active descriptors, for the events last set; a result not yet dispatched
    names an active descriptor, which points back to it, and no other does; and removing a
    descriptor, even one whose result is about to be dispatched, leaves no result that names it. *)
Theorem reactor_fd_results w : reach w ->
  let o := fdt (rx w) in
  (forall n f m, epoll o !! n = Some (f, m) <->
    exists e, fds o !! f = Some e /\ active e = true /\ fd e = n /\ m = epoll_mask (waitEvents e)) /\
  (forall f i, (exists ev, (epoll_results_pos o <= i < epoll_results_num o)%nat /\ epoll_results o !! i = Some ev /\ data_ptr ev = Some f) <->
    exists e, fds o !! f = Some e /\ active e = true /\ epoll_returned_ptr e = Some i) /\
  forall f w' c, enabled w (ERemoveFd f) = true -> exec w (ERemoveFd f) = Some (Some (w', c)) ->
    forall i ev, (epoll_results_pos (fdt (rx w')) <= i < epoll_results_num (fdt (rx w')))%nat -> epoll_results (fdt (rx w')) !! i = Some ev -> data_ptr ev <> Some f.
Proof.
  intros (r & l & lt & le & la & [_ _ F _ _ _ _ _])%reactor_reach_inv. pose proof F as [O1 O2 O3 O4 O5 O6 O7]. split; [|split].
  - intros n f m. split.
    + intros E. destruct (O6 n f m E) as (e & Ee & Ha & Hn). exists e. split_and!; try done. pose proof (O5 f e Ee Ha) as E'. rewrite Hn, E in E'. congruence.
    + intros (e & Ee & Ha & <- & ->). by apply O5.
  - intros f i. split; [intros (ev & Hi & Hev & Hd); by eapply O3|]. intros (e & Ee & Ha & Hr). destruct (O4 f e i Ee Ha Hr) as (Hi & ev & Hev & Hd). by exists ev.
  - intros f w' c He E. cbn [enabled exec] in *. apply fd_is_true in He as (e & Ee & Ha). destruct (remove_fd_ok _ F f e Ee Ha) as (o' & Er & _ & _ & H).
    rewrite Er in E. cbn [mbind option_bind] in E. injection E as <- <-. exact H.
Qed.

(** ** A run: two timers and two file descriptors *)
Fixpoint run (w : world) (es : list event) : option (world * list (option called)) :=
  match es with
  | [] => Some (w, [])
  | e :: es =>
      if enabled w e then
        match exec w e with
        | Some (Some (w, c)) => '(w, cs) ← run w es; Some (w, c :: cs)
        | _ => None
        end
      else None
  end.

Lemma reactor_run_reach es : forall w w' cs, reach w -> run w es = Some (w', cs) -> reach w'.
Proof.
  induction es as [|e es IH]; intros w w' cs R; cbn [run]; [by intros [= <- _]|]. destruct (enabled w e) eqn:He; [|done].
  destruct (exec w e) as [[[w1 c]|]|] eqn:E; [|done..]. destruct (run w1 es) as [[w2 cs2]|] eqn:E2; [|done]. intros [= <- _].
  eapply IH; [|exact E2]. by eapply reach_step.
Qed.

Definition started : world := mkw initial 0.

(** Timers at 150 and 120, descriptors 7 and 8; a wait that is interrupted and then finds both
    descriptors; the second is removed before its result is dispatched. *)
Definition demo_setup : list event :=
  [EInitTimer 1 true 0; EInitTimer 2 false 20; ESetTimer 1 BTIMER_SET_ABSOLUTE 150 100; ESetTimerDefault 2 100;
   EInitFd 3 7; EInitFd 4 8; EAddFd 3 true; EAddFd 4 true; ESetEvents 3 BREACTOR_READ; ESetEvents 4 BREACTOR_WRITE].
Definition demo_wait : event :=
  ELoop 101 [(WInterrupted, 102); (WReturned [mk_event (Some 3%positive) EPOLLIN; mk_event (Some 4%positive) EPOLLOUT], 110)].
Definition demo_events : list event := demo_setup ++ [demo_wait; ERemoveFd 4; ELoop 111 []].
Definition demo : world := Eval vm_compute in default started (fst <$> run started demo_events).

Lemma reactor_demo_reach : reach demo /\ snd <$> run started demo_events = Some (replicate 12 None ++ [Some (CFd 3 BREACTOR_READ)]).
Proof.
  split; [|vm_compute; reflexivity].
  eapply (reactor_run_reach demo_events started demo (replicate 12 None ++ [Some (CFd 3 BREACTOR_READ)])); [apply (reach_init 5); [reflexivity|unfold INT64_MAX; lia]|].
  vm_compute. reflexivity.
Qed.

(** The result of the removed descriptor is skipped, then the wait ends at the first timer. *)
Definition demo_skip : event := ELoop 112 [].
Definition demo_idle : world := Eval vm_compute in default demo (fst <$> run demo [demo_skip]).
Definition demo_timeout : event := ELoop 113 [(WReturned [], 121)].
Definition demo_due : world := Eval vm_compute in default demo (fst <$> run demo_idle [demo_timeout]).

Lemma demo_idle_reach : reach demo_idle.
Proof. eapply (reactor_run_reach [demo_skip]); [apply reactor_demo_reach|vm_compute; reflexivity]. Qed.
Lemma demo_due_reach : reach demo_due.
Proof. eapply (reactor_run_reach [demo_timeout]); [apply demo_idle_reach|vm_compute; reflexivity]. Qed.

Lemma reactor_safe_witness : reach demo /\ is_Some (exec demo demo_skip).
Proof. split; [apply reactor_demo_reach|]. apply (reactor_safe demo); [apply reactor_demo_reach|vm_compute; reflexivity]. Defined.

(** With both results left, the first one is dispatched. *)
Definition demo_found : world := Eval vm_compute in default started (fst <$> run started (demo_setup ++ [demo_wait])).
Lemma demo_found_reach : reach demo_found.
Proof. eapply (reactor_run_reach (demo_setup ++ [demo_wait]) started); [apply (reach_init 5); [reflexivity|unfold INT64_MAX; lia]|vm_compute; reflexivity]. Qed.

Lemma reactor_dispatch_witness : (exists w', exec demo_due (ELoop 122 []) = Some (Some (w', Some (CTimer 2))) /\ dispatch_spec demo_due [] w' (Some (CTimer 2))) /\
  exists w', exec demo_found (ELoop 111 []) = Some (Some (w', Some (CFd 3 BREACTOR_READ))) /\ dispatch_spec demo_found [] w' (Some (CFd 3 BREACTOR_READ)).
Proof.
  split.
  - eexists. split; [vm_compute; reflexivity|]. eapply (reactor_dispatch demo_due 122 []); [apply demo_due_reach|vm_compute; reflexivity|vm_compute; reflexivity].
  - eexists. split; [vm_compute; reflexivity|]. eapply (reactor_dispatch demo_found 111 []); [apply demo_found_reach|vm_compute; reflexivity|vm_compute; reflexivity].
Defined.

Lemma reactor_timers_witness : exists k, 113 <= k <= 121 /\ forall i, timers (tm (rx demo_due)) !! i =
  (fun e => if bool_decide (state e = TIMER_STATE_RUNNING) && (absTime e <=? k) then timer_with_state e TIMER_STATE_EXPIRED else e) <$> timers (tm (rx demo_idle)) !! i.
Proof.
  destruct (reactor_timers demo_idle 113 [(WReturned [], 121)] demo_due None) as (k & Hk & H & _); [apply demo_idle_reach|vm_compute; reflexivity..| |reflexivity|].
  - intros i e E. assert (forallb (fun x => bool_decide (state x.2 <> TIMER_STATE_EXPIRED)) (map_to_list (timers (tm (rx demo_idle)))) = true) as H by (vm_compute; reflexivity).
    rewrite forallb_forall in H. apply elem_of_map_to_list, list_elem_of_In, H in E. by apply bool_decide_eq_true in E.
  - exists k. split; [exact Hk|exact H].
Defined.

Lemma reactor_fd_results_witness : exists w', exec demo (ERemoveFd 3) = Some (Some (w', None)) /\
  forall i ev, (epoll_results_pos (fdt (rx w')) <= i < epoll_results_num (fdt (rx w')))%nat -> epoll_results (fdt (rx w')) !! i = Some ev -> data_ptr ev <> Some 3%positive.
Proof.
  eexists. split; [vm_compute; reflexivity|]. destruct (reactor_fd_results demo) as (_ & _ & H); [apply reactor_demo_reach|].
  eapply (H 3%positive); vm_compute; reflexivity.
Defined.

End BReactorInv.
