(* ===== verification/IoReactor.v ===== *)
(** * The reactor as its I/O objects see it

    Connections, datagram sockets and the TUN device watch one file descriptor each and limit how
    often they do I/O in one round of the event loop.  [IoReactor] is what they rely on: the
    documented behaviour of the file descriptor and limit functions of the reactor.  An object's
    [BFileDescriptor] and [BReactorLimit] members are named by their addresses. *)

From stdpp Require Import gmap.
From S2P Require Import Prelude DebugCounter LinkedList1 BReactor BReactorFds BReactorInv.
Import BReactor BReactorFds.

(** [fd_watch]: the events a file descriptor object waits for, [None] when it is not active;
    [lim_state]: limit and count of a limit object.  [fd_add] is [BFileDescriptor_Init] followed by
    [BReactor_AddFileDescriptor]; the flag is the answer of the operating system. *)
Class IoReactor (R : Type) := {
  io_ok : R -> Prop;
  fd_watch : R -> ptr -> option Z;
  lim_state : R -> ptr -> option (Z * Z);
  fd_add : R -> ptr -> Z -> bool -> option (R * bool);
  fd_remove : R -> ptr -> option R;
  fd_set_events : R -> ptr -> Z -> option R;
  lim_init : R -> ptr -> Z -> option R;
  lim_free : R -> ptr -> option R;
  lim_increment : R -> ptr -> option (R * bool);
  fd_add_ok : forall r f n mem, io_ok r -> fd_watch r f = None -> exists r' res, fd_add r f n mem = Some (r', res) /\ io_ok r' /\
    (forall g, fd_watch r' g = if res && bool_decide (g = f) then Some 0 else fd_watch r g) /\ forall x, lim_state r' x = lim_state r x;
  fd_remove_ok : forall r f, io_ok r -> is_Some (fd_watch r f) -> exists r', fd_remove r f = Some r' /\ io_ok r' /\
    (forall g, fd_watch r' g = if bool_decide (g = f) then None else fd_watch r g) /\ forall x, lim_state r' x = lim_state r x;
  fd_set_events_ok : forall r f ev, io_ok r -> is_Some (fd_watch r f) -> Z.ldiff ev (Z.lor BREACTOR_READ BREACTOR_WRITE) = 0 ->
    exists r', fd_set_events r f ev = Some r' /\ io_ok r' /\
    (forall g, fd_watch r' g = if bool_decide (g = f) then Some ev else fd_watch r g) /\ forall x, lim_state r' x = lim_state r x;
  lim_init_ok : forall r x l, io_ok r -> lim_state r x = None -> 0 < l <= INT_MAX -> exists r', lim_init r x l = Some r' /\ io_ok r' /\
    (forall g, fd_watch r' g = fd_watch r g) /\ forall y, lim_state r' y = if bool_decide (y = x) then Some (l, 0) else lim_state r y;
  lim_free_ok : forall r x, io_ok r -> is_Some (lim_state r x) -> exists r', lim_free r x = Some r' /\ io_ok r' /\
    (forall g, fd_watch r' g = fd_watch r g) /\ forall y, lim_state r' y = if bool_decide (y = x) then None else lim_state r y;
  lim_increment_ok : forall r x l c, io_ok r -> lim_state r x = Some (l, c) -> exists r', lim_increment r x = Some (r', c <? l) /\ io_ok r' /\
    (forall g, fd_watch r' g = fd_watch r g) /\
    forall y, lim_state r' y = if bool_decide (y = x) then Some (l, if c <? l then c + 1 else c) else lim_state r y;
}.

(** Limits may be reset, and grow, between the events of an object. *)
Definition same_limit {R : Type} `{!IoReactor R} (r r' : R) (x : ptr) : Prop :=
  match lim_state r x with Some (l, _) => exists c, lim_state r' x = Some (l, c) | None => lim_state r' x = None end.

(** ** The events of a descriptor as flags *)
Definition waits (rd wr : bool) : Z := Z.lor (bit_if rd BREACTOR_READ) (bit_if wr BREACTOR_WRITE).
Definition reports (rd wr er hu : bool) : Z := Z.lor (waits rd wr) (Z.lor (bit_if er BREACTOR_ERROR) (bit_if hu BREACTOR_HUP)).

Lemma waits_inj rd wr rd' wr' : waits rd wr = waits rd' wr' -> rd = rd' /\ wr = wr'.
Proof. by destruct rd, wr, rd', wr'. Qed.
Lemma waits_ok rd wr : Z.ldiff (waits rd wr) (Z.lor BREACTOR_READ BREACTOR_WRITE) = 0.
Proof. by destruct rd, wr. Qed.
Lemma waits_add_read rd wr : Z.lor (waits rd wr) BREACTOR_READ = waits true wr.
Proof. by destruct rd, wr. Qed.
Lemma waits_add_write rd wr : Z.lor (waits rd wr) BREACTOR_WRITE = waits rd true.
Proof. by destruct rd, wr. Qed.
Lemma waits_drop_read rd wr : Z.ldiff (waits rd wr) BREACTOR_READ = waits false wr.
Proof. by destruct rd, wr. Qed.
Lemma waits_drop_write rd wr : Z.ldiff (waits rd wr) BREACTOR_WRITE = waits rd false.
Proof. by destruct rd, wr. Qed.
Lemma waits_handled rd wr a b c d : Z.ldiff (waits rd wr) (reports a b c d) = waits (rd && negb a) (wr && negb b).
Proof. by destruct rd, wr, a, b, c, d. Qed.
Lemma has_waits rd wr : has (waits rd wr) BREACTOR_READ = rd /\ has (waits rd wr) BREACTOR_WRITE = wr.
Proof. by destruct rd, wr. Qed.
Lemma has_reports a b c d : has (reports a b c d) BREACTOR_READ = a /\ has (reports a b c d) BREACTOR_WRITE = b /\
  has (reports a b c d) (Z.lor BREACTOR_ERROR BREACTOR_HUP) = c || d /\ has (reports a b c d) BREACTOR_HUP = d.
Proof. by destruct a, b, c, d. Qed.
Lemma reports_ne a b c d : reports a b c d <> 0 <-> a || b || c || d = true.
Proof. by destruct a, b, c, d. Qed.

(** What the reactor can report to an object that waits for [w]. *)
Definition reported (w events : Z) : bool :=
  (0 <? events) && (events <? 16) && (Z.ldiff events (Z.lor w (Z.lor BREACTOR_ERROR BREACTOR_HUP)) =? 0).

Lemma reported_flags rd wr events : reported (waits rd wr) events = true ->
  exists a b c d, events = reports a b c d /\ (a = true -> rd = true) /\ (b = true -> wr = true) /\ a || b || c || d = true.
Proof.
  unfold reported. intros ((H1 & H2)%andb_true_iff & H3)%andb_true_iff. apply Z.ltb_lt in H1, H2.
  exists (has events BREACTOR_READ), (has events BREACTOR_WRITE), (has events BREACTOR_ERROR), (has events BREACTOR_HUP).
  assert (forallb (fun ev => implb (Z.ldiff ev (Z.lor (waits rd wr) (Z.lor BREACTOR_ERROR BREACTOR_HUP)) =? 0)
    ((ev =? reports (has ev BREACTOR_READ) (has ev BREACTOR_WRITE) (has ev BREACTOR_ERROR) (has ev BREACTOR_HUP)) && implb (has ev BREACTOR_READ) rd &&
     implb (has ev BREACTOR_WRITE) wr && (has ev BREACTOR_READ || has ev BREACTOR_WRITE || has ev BREACTOR_ERROR || has ev BREACTOR_HUP)))
    (seqZ 1 15) = true) as Hall by (by destruct rd, wr).
  rewrite forallb_forall in Hall. specialize (Hall events). rewrite H3 in Hall. cbn [implb] in Hall.
  assert (In events (seqZ 1 15)) as Hin by (apply list_elem_of_In, elem_of_seqZ; lia). apply Hall in Hin. clear Hall.
  rewrite !andb_true_iff, !implb_true_iff in Hin. destruct Hin as (((E & Ha) & Hb) & Hc). apply Z.eqb_eq in E. done.
Qed.

Lemma dispatched_reported rd wr ev : reported_events (waits rd wr) ev <> 0 -> reported (waits rd wr) (reported_events (waits rd wr) ev) = true.
Proof.
  unfold reported_events. destruct (has_waits rd wr) as [-> ->].
  by destruct rd, wr, (has ev EPOLLIN), (has ev EPOLLOUT), (has ev EPOLLERR), (has ev EPOLLHUP).
Qed.

(** ** The reactor of the program *)
Definition reactor_ok (r : t) : Prop := fds_ok (fdt r) /\ exists la, limits_ok (lm r) la.
Definition reactor_watch (r : t) (f : ptr) : option Z := e ← fds (fdt r) !! f; if active e then Some (waitEvents e) else None.
Definition reactor_limit (r : t) (x : ptr) : option (Z * Z) := e ← limits (lm r) !! x; Some (limit e, count e).
Definition reactor_add (r : t) (f : ptr) (n : Z) (mem : bool) : option (t * bool) :=
  '(o, res) ← BReactor_AddFileDescriptor (BFileDescriptor_Init (fdt r) f n) f mem; Some (with_fdt r o, res).
Definition reactor_remove (r : t) (f : ptr) : option t := o ← BReactor_RemoveFileDescriptor (fdt r) f; Some (with_fdt r o).
Definition reactor_set_events (r : t) (f : ptr) (ev : Z) : option t := o ← BReactor_SetFileDescriptorEvents (fdt r) f ev; Some (with_fdt r o).
Definition reactor_limit_init (r : t) (x : ptr) (l : Z) : option t := o ← BReactorLimit_Init (lm r) x l; Some (with_lm r o).
Definition reactor_limit_free (r : t) (x : ptr) : option t := o ← BReactorLimit_Free (lm r) x; Some (with_lm r o).
Definition reactor_limit_increment (r : t) (x : ptr) : option (t * bool) :=
  '(o, res) ← BReactorLimit_Increment (lm r) x; Some (with_lm r o, res).

Lemma watch_some r f ev : reactor_watch r f = Some ev -> exists e, fds (fdt r) !! f = Some e /\ active e = true /\ waitEvents e = ev.
Proof. unfold reactor_watch. destruct (fds (fdt r) !! f) as [e|]; [|done]. cbn. destruct (active e) eqn:Ha; [|done]. intros [= <-]. by exists e. Qed.
Lemma watch_none r f : reactor_watch r f = None -> forall e, fds (fdt r) !! f = Some e -> active e = false.
Proof. unfold reactor_watch. intros H e E. rewrite E in H. cbn in H. by destruct (active e). Qed.

(** The new state of one descriptor. *)
Lemma watch_update r o f e : fds o = <[f := e]> (fds (fdt r)) ->
  forall g, reactor_watch (with_fdt r o) g = if bool_decide (g = f) then (if active e then Some (waitEvents e) else None) else reactor_watch r g.
Proof.
  intros E g. unfold reactor_watch. cbn. rewrite E. case_bool_decide as Hg.
  - subst g. by rewrite lookup_insert_eq.
  - by rewrite lookup_insert_ne by done.
Qed.

Lemma reactor_add_ok r f n mem : reactor_ok r -> reactor_watch r f = None ->
  exists r' res, reactor_add r f n mem = Some (r', res) /\ reactor_ok r' /\
  (forall g, reactor_watch r' g = if res && bool_decide (g = f) then Some 0 else reactor_watch r g) /\ forall x, reactor_limit r' x = reactor_limit r x.
Proof.
  intros [F L] Hw. destruct (fd_inactive _ F f (watch_none _ _ Hw)) as [F1 _]. specialize (F1 n).
  destruct (add_fd_ok _ F1 f (mk_fd n false 0 None) mem) as (o & res & E & F2 & _); [cbn; by rewrite lookup_insert_eq|done|].
  unfold reactor_add. rewrite E. cbn [mbind option_bind]. exists (with_fdt r o), res. split; [done|]. split; [done|]. split; [|done].
  intros g. unfold BReactor_AddFileDescriptor in E. cbn in E. rewrite lookup_insert_eq in E. cbn in E.
  assert (Hsame : forall o', fds o' = <[f := mk_fd n false 0 None]> (fds (fdt r)) -> reactor_watch (with_fdt r o') g = reactor_watch r g).
  { intros o' Eo. rewrite (watch_update r o' f _ Eo). case_bool_decide; [subst; by rewrite Hw|done]. }
  destruct (epoll_ctl_add _ _ _ _) as [k|]; [|injection E as <- <-; by apply Hsame].
  destruct (DebugCounter_Increment _) as [c|]; [|done]. cbn in E. injection E as <- <-. cbn [andb].
  rewrite (watch_update r _ f (mk_fd n true 0 None)); [done|]. cbn. by rewrite insert_insert_eq.
Qed.

Lemma reactor_remove_ok r f : reactor_ok r -> is_Some (reactor_watch r f) -> exists r', reactor_remove r f = Some r' /\ reactor_ok r' /\
  (forall g, reactor_watch r' g = if bool_decide (g = f) then None else reactor_watch r g) /\ forall x, reactor_limit r' x = reactor_limit r x.
Proof.
  intros [F L] [ev Hw]. apply watch_some in Hw as (e & E & Ha & _). destruct (remove_fd_ok _ F f e E Ha) as (o & Eo & F' & Hfds & _).
  unfold reactor_remove. rewrite Eo. cbn [mbind option_bind]. eexists. split; [done|]. split; [done|]. split; [|done]. by apply (watch_update r o f _ Hfds).
Qed.

Lemma reactor_set_events_ok r f ev : reactor_ok r -> is_Some (reactor_watch r f) -> Z.ldiff ev (Z.lor BREACTOR_READ BREACTOR_WRITE) = 0 ->
  exists r', reactor_set_events r f ev = Some r' /\ reactor_ok r' /\
  (forall g, reactor_watch r' g = if bool_decide (g = f) then Some ev else reactor_watch r g) /\ forall x, reactor_limit r' x = reactor_limit r x.
Proof.
  intros [F L] [ev' Hw] Hev. apply watch_some in Hw as (e & E & Ha & _). destruct (set_events_ok _ F f e ev E Ha Hev) as (o & Eo & F' & Hfds).
  unfold reactor_set_events. rewrite Eo. cbn [mbind option_bind]. eexists. split; [done|]. split; [done|]. split; [|done]. by apply (watch_update r o f _ Hfds).
Qed.

Lemma limit_update r o x e : limits o = <[x := e]> (limits (lm r)) ->
  forall y, reactor_limit (with_lm r o) y = if bool_decide (y = x) then Some (limit e, count e) else reactor_limit r y.
Proof.
  intros E y. unfold reactor_limit. cbn. rewrite E. case_bool_decide as Hy.
  - subst y. by rewrite lookup_insert_eq.
  - by rewrite lookup_insert_ne by done.
Qed.

Lemma reactor_limit_init_ok r x l : reactor_ok r -> reactor_limit r x = None -> 0 < l <= INT_MAX -> exists r', reactor_limit_init r x l = Some r' /\ reactor_ok r' /\
  (forall g, reactor_watch r' g = reactor_watch r g) /\ forall y, reactor_limit r' y = if bool_decide (y = x) then Some (l, 0) else reactor_limit r y.
Proof.
  intros [F [la L]] Hx Hl. assert (limits (lm r) !! x = None) as Hn by (unfold reactor_limit in Hx; by destruct (limits (lm r) !! x)).
  destruct (limit_init_ok _ la x l L Hn Hl) as (o & E & L'). unfold reactor_limit_init. rewrite E. cbn [mbind option_bind]. eexists. split; [done|].
  split; [split; [done|by exists la]|]. split; [done|]. unfold BReactorLimit_Init in E. destruct (l >? 0); [|done].
  destruct (DebugCounter_Increment _) as [c|]; [|done]. cbn in E. injection E as <-. by apply (limit_update r _ x (mk_limit l 0)).
Qed.

Lemma reactor_limit_free_ok r x : reactor_ok r -> is_Some (reactor_limit r x) -> exists r', reactor_limit_free r x = Some r' /\ reactor_ok r' /\
  (forall g, reactor_watch r' g = reactor_watch r g) /\ forall y, reactor_limit r' y = if bool_decide (y = x) then None else reactor_limit r y.
Proof.
  intros [F [la L]] Hx. assert (is_Some (limits (lm r) !! x)) as Hs by (unfold reactor_limit in Hx; destruct (limits (lm r) !! x); [by eexists|by destruct Hx]).
  destruct (limit_free_ok _ la x L Hs) as (o & la' & E & L' & El). unfold reactor_limit_free. rewrite E. cbn [mbind option_bind]. eexists. split; [done|].
  split; [split; [done|by exists la']|]. split; [done|]. intros y. unfold reactor_limit. cbn. rewrite El. case_bool_decide as Hy.
  - subst y. by rewrite lookup_delete_eq.
  - by rewrite lookup_delete_ne by done.
Qed.

Lemma reactor_limit_increment_ok r x l c : reactor_ok r -> reactor_limit r x = Some (l, c) ->
  exists r', reactor_limit_increment r x = Some (r', c <? l) /\ reactor_ok r' /\ (forall g, reactor_watch r' g = reactor_watch r g) /\
  forall y, reactor_limit r' y = if bool_decide (y = x) then Some (l, if c <? l then c + 1 else c) else reactor_limit r y.
Proof.
  intros [F [la L]] Hx. unfold reactor_limit in Hx. destruct (limits (lm r) !! x) as [e|] eqn:E; [|done]. cbn in Hx. injection Hx as <- <-.
  destruct (limit_increment_ok _ la x e L E) as (o & la' & Eo & L' & El). unfold reactor_limit_increment. rewrite Eo. cbn [mbind option_bind]. eexists. split; [done|].
  split; [split; [done|by exists la']|]. split; [done|]. destruct (count e <? limit e).
  - by apply (limit_update r o x _ El).
  - intros y. unfold reactor_limit. cbn. rewrite El. case_bool_decide; [|done]. subst y. by rewrite E.
Qed.

#[export] Instance reactor_io : IoReactor t := {|
  io_ok := reactor_ok; fd_watch := reactor_watch; lim_state := reactor_limit;
  fd_add := reactor_add; fd_remove := reactor_remove; fd_set_events := reactor_set_events;
  lim_init := reactor_limit_init; lim_free := reactor_limit_free; lim_increment := reactor_limit_increment;
  fd_add_ok := reactor_add_ok; fd_remove_ok := reactor_remove_ok; fd_set_events_ok := reactor_set_events_ok;
  lim_init_ok := reactor_limit_init_ok; lim_free_ok := reactor_limit_free_ok; lim_increment_ok := reactor_limit_increment_ok;
|}.

(** Every state the event loop can reach is one its users can rely on. *)
Lemma reactor_reach_ok w : BReactorInv.reach w -> io_ok (BReactorInv.rx w).
Proof. intros (r & l & lt & le & la & I)%BReactorInv.reactor_reach_inv. destruct I. split; [done|by exists la]. Qed.
Lemma reactor_initial_ok : reactor_ok initial.
Proof. apply (reactor_reach_ok (BReactorInv.mkw initial 0)), (BReactorInv.reach_init 5); [done|unfold INT64_MAX; lia]. Qed.
