(* ===== verification/Sockets.v ===== *)
(** * The operating system's side of sockets

    Socket addresses as the system calls take and return them, and the part of the kernel's state
    that the program is responsible for: its open descriptors and the files of its Unix sockets.
    What a system call answers is an argument of the function that makes it. *)

From stdpp Require Import gmap.
From S2P Require Import Prelude.

Definition AF_UNIX : Z := 1.
Definition AF_INET : Z := 2.
Definition AF_INET6 : Z := 10.
Definition AF_PACKET : Z := 17.
Definition PACKET_HOST : Z := 0.
Definition PACKET_BROADCAST : Z := 1.
Definition PACKET_MULTICAST : Z := 2.
Definition PACKET_OTHERHOST : Z := 3.
Definition PACKET_OUTGOING : Z := 4.

Definition sizeof_sockaddr_in : Z := 16.
Definition sizeof_sockaddr_in6 : Z := 28.
Definition sizeof_sockaddr_ll : Z := 20.
Definition offsetof_sll_addr : Z := 12.
Definition offsetof_sun_path : Z := 2.

(** [struct sockaddr] by its family; other families have no contents here. *)
Inductive sockaddr :=
| SA_IN (sin_port s_addr : Z)
| SA_IN6 (sin6_port sin6_flowinfo : Z) (s6_addr : list Z) (sin6_scope_id : Z)
| SA_LL (sll_protocol sll_ifindex sll_hatype sll_pkttype sll_halen : Z) (sll_addr : list Z)
| SA_OTHER (sa_family : Z).
Definition sa_family (a : sockaddr) : Z :=
  match a with SA_IN _ _ => AF_INET | SA_IN6 _ _ _ _ => AF_INET6 | SA_LL _ _ _ _ _ _ => AF_PACKET | SA_OTHER f => f end.

(** [struct sys_addr] *)
Record sys_addr := mk_sys { sys_len : Z; sys_sa : sockaddr }.

(** The kernel returns an address with the length of its family. *)
Definition sys_addr_ok (a : sys_addr) : Prop :=
  match sys_sa a with
  | SA_IN _ _ => sys_len a = sizeof_sockaddr_in
  | SA_IN6 _ _ ip _ => sys_len a = sizeof_sockaddr_in6 /\ zlen ip = 16
  | SA_LL _ _ _ _ _ ad => sys_len a <= sizeof_sockaddr_ll /\ zlen ad = 8
  | SA_OTHER f => f <> AF_INET /\ f <> AF_INET6 /\ f <> AF_PACKET
  end.

#[export] Instance sys_addr_ok_dec a : Decision (sys_addr_ok a).
Proof. destruct a as [n [| | |]]; unfold sys_addr_ok; cbn; apply _. Defined.

(** [files]: the paths of sockets in the file system. *)
Record kernel := mk_kernel { open_fds : gset Z; files : gset (list Z) }.

(** [socket] and [accept] answer a number that is not in use, or fail. *)
Definition new_fd (k : kernel) (a : option Z) : kernel :=
  match a with Some n => mk_kernel ({[n]} ∪ open_fds k) (files k) | None => k end.
Definition fd_answer_ok (k : kernel) (a : option Z) : bool :=
  match a with Some n => (0 <=? n) && bool_decide (n ∉ open_fds k) | None => true end.

(** [None]: what is closed is not open, as after a descriptor is closed twice. *)
Definition sys_close (k : kernel) (n : Z) : option kernel :=
  if bool_decide (n ∈ open_fds k) then Some (mk_kernel (open_fds k ∖ {[n]}) (files k)) else None.

Definition sys_unlink (k : kernel) (path : list Z) (ok : bool) : kernel :=
  if ok then mk_kernel (open_fds k) (files k ∖ {[path]}) else k.
Definition sys_bind_file (k : kernel) (path : list Z) : kernel := mk_kernel (open_fds k) ({[path]} ∪ files k).

Lemma close_new k n : n ∉ open_fds k -> sys_close (new_fd k (Some n)) n = Some k.
Proof.
  intros H. unfold sys_close. cbn. rewrite bool_decide_true by (apply elem_of_union; left; by apply elem_of_singleton). destruct k as [o f]. cbn in *. f_equal. f_equal. apply set_eq. intros x.
  rewrite elem_of_difference, elem_of_union, elem_of_singleton. split; [tauto|]. intros Hx. split; [by right|]. by intros ->.
Qed.
Lemma close_open k n : n ∈ open_fds k -> sys_close k n = Some (mk_kernel (open_fds k ∖ {[n]}) (files k)).
Proof. intros H. unfold sys_close. by rewrite bool_decide_true. Qed.

(** ** The memory of the process

    The bytes at the addresses that [read], [write] and the like are called with. *)
Definition memory : Type := gmap Z Z.
Fixpoint read_from (m : memory) (p : Z) (n : nat) : list Z := match n with O => [] | S n => (m !!! p) :: read_from m (p + 1) n end.
Definition read_mem (m : memory) (p n : Z) : list Z := read_from m p (Z.to_nat n).
Fixpoint write_mem (m : memory) (p : Z) (d : list Z) : memory := match d with [] => m | b :: d => write_mem (<[p := b]> m) (p + 1) d end.

(** The [n] bytes at [p] and the [k] bytes at [q] have no byte in common. *)
Definition apart (p n q k : Z) : bool := (p + n <=? q) || (q + k <=? p).

Lemma write_outside d : forall m p a, a < p \/ p + zlen d <= a -> write_mem m p d !!! a = m !!! a.
Proof.
  induction d as [|b d IH]; intros m p a Ha; [done|]. cbn [write_mem]. rewrite zlen_cons in Ha. pose proof (zlen_nonneg d). rewrite IH by lia. apply lookup_total_insert_ne. lia.
Qed.
Lemma read_write d : forall m p, read_mem (write_mem m p d) p (zlen d) = d.
Proof.
  unfold read_mem, zlen. induction d as [|b d IH]; intros m p; [done|]. cbn [length]. rewrite Nat2Z.id. cbn [read_from write_mem]. f_equal.
  - rewrite write_outside by lia. apply lookup_total_insert_eq.
  - specialize (IH (<[p := b]> m) (p + 1)). by rewrite Nat2Z.id in IH.
Qed.
Lemma read_same m m' p n : (forall a, p <= a < p + n -> m' !!! a = m !!! a) -> read_mem m' p n = read_mem m p n.
Proof.
  unfold read_mem. intros H. assert (forall a, p <= a < p + Z.of_nat (Z.to_nat n) -> m' !!! a = m !!! a) as H' by (intros a Ha; apply H; lia). revert H'. generalize (Z.to_nat n). clear n H.
  intros n. revert p. induction n as [|n IH]; intros p H; [done|]. cbn [read_from]. f_equal; [apply H; lia|]. apply IH. intros a Ha. apply H. lia.
Qed.
Lemma read_apart m p d q n k : zlen d <= n -> apart p n q k = true -> read_mem (write_mem m p d) q k = read_mem m q k.
Proof. intros Hd [H%Z.leb_le|H%Z.leb_le]%orb_true_iff; apply read_same; intros a Ha; apply write_outside; lia. Qed.
Lemma read_prefix m p n k : 0 <= k <= n -> read_mem m p k = sub (read_mem m p n) 0 k.
Proof.
  intros H. unfold sub, read_mem. change (Z.to_nat 0) with 0%nat. rewrite drop_0. assert (Z.to_nat k <= Z.to_nat n)%nat as Hk by lia. revert Hk. generalize (Z.to_nat k), (Z.to_nat n). clear H k n.
  intros k n. revert p k. induction n as [|n IH]; intros p k Hk; destruct k as [|k]; try done; [lia|]. cbn [read_from take]. f_equal. apply IH. lia.
Qed.
Lemma zlen_read m p n : 0 <= n -> zlen (read_mem m p n) = n.
Proof.
  intros H. unfold zlen, read_mem. assert (forall k q, length (read_from m q k) = k) as Hl by (intros k; induction k as [|k IH]; intros q; [done|]; cbn; by rewrite IH). rewrite Hl. lia.
Qed.
