(* ===== verification/BSignal.v ===== *)
(** * Signals (system/BSignal.c, system/BUnixSignal.c, the build with signalfd)

    The signals that end the program are blocked and read from a descriptor, which the reactor
    watches; one that is read is passed to the handler that [main] gave.  The reactor is any [IoReactor]; the answers of the
    operating system are arguments. *)

From stdpp Require Import gmap.
From S2P Require Import Prelude LinkedList1 BReactor IoReactor Sockets.

Module BSignal.

Section Signals.
Context {R : Type} `{!IoReactor R}.

(** ** system/BUnixSignal.c *)

(** [signalfd_bfd]: the address of the descriptor object. *)
Record BUnixSignal := mk { signals : list Z; signalfd_fd : Z; signalfd_bfd : LinkedList1.ptr }.
(** The process: its descriptors and the signals that are blocked. *)
Record process := mk_process { kern : kernel; blocked : gset Z }.

Definition sizeof_signalfd_siginfo : Z := 128.

(** [bytes]: what [read] returns; [ssi_signo]: the number in what was read.  The result: the signal that the handler is
    called with. *)
Definition signalfd_handler (o : BUnixSignal) (bytes ssi_signo : Z) : option (option Z) :=
  if bytes <? 0 then Some None else
  ASSERT bytes =? sizeof_signalfd_siginfo;
  if ssi_signo >? INT_MAX then Some None else
  if negb (bool_decide (ssi_signo ∈ signals o)) then Some None else
  Some (Some ssi_signo).

(** The answers of [signalfd], [fcntl], the system call of [BReactor_AddFileDescriptor] and [pthread_sigmask]. *)
Record init_answers := mk_answers { a_signalfd : option Z; a_nonblock : bool; a_mem : bool; a_mask : bool }.
Definition BUnixSignal_Init (p : process) (r : R) (bfd : LinkedList1.ptr) (sigs : list Z) (a : init_answers) : option (process * R * option BUnixSignal) :=
  match a_signalfd a with
  | None => Some (p, r, None)
  | Some fd =>
      let p := mk_process (new_fd (kern p) (Some fd)) (blocked p) in
      let fail1 (p : process) (r : R) := k ← sys_close (kern p) fd; Some (mk_process k (blocked p), r, None) in
      if negb (a_nonblock a) then fail1 p r else
      '(r, ok) ← fd_add r bfd fd (a_mem a);
      if negb (ok : bool) then fail1 p r else
      r ← fd_set_events r bfd BReactor.BREACTOR_READ;
      if negb (a_mask a) then r ← fd_remove r bfd; fail1 p r else
      Some (mk_process (kern p) (list_to_set sigs ∪ blocked p), r, Some (mk sigs fd bfd))
  end.

Definition BUnixSignal_Free (p : process) (r : R) (o : BUnixSignal) (unblock : bool) : option (process * R) :=
  let b := if unblock then blocked p ∖ list_to_set (signals o) else blocked p in
  r ← fd_remove r (signalfd_bfd o);
  k ← sys_close (kern p) (signalfd_fd o);
  Some (mk_process k b, r).

(** ** system/BSignal.c *)
Definition SIGHUP : Z := 1.
Definition SIGINT : Z := 2.
Definition SIGTERM : Z := 15.
Definition ending_signals : list Z := [SIGTERM; SIGINT; SIGHUP].
(** [signal]: the object, once it was initialised. *)
Record bsignal_global := mk_global { initialized : bool; finished : bool; signal : option BUnixSignal }.

(** The user's handler is called. *)
Definition unix_signal_handler (g : bsignal_global) (signo : Z) : option unit :=
  ASSERT (signo =? SIGTERM) || (signo =? SIGINT) || (signo =? SIGHUP);
  ASSERT initialized g;
  ASSERT negb (finished g);
  Some tt.

Definition BSignal_Init (g : bsignal_global) (p : process) (r : R) (bfd : LinkedList1.ptr) (a : init_answers) : option (bsignal_global * process * R * bool) :=
  ASSERT negb (initialized g);
  '(p, r, o) ← BUnixSignal_Init p r bfd ending_signals a;
  match o with
  | None => Some (g, p, r, false)
  | Some o => Some (mk_global true false (Some o), p, r, true)
  end.
Definition BSignal_Finish (g : bsignal_global) (p : process) (r : R) : option (bsignal_global * process * R) :=
  ASSERT initialized g;
  ASSERT negb (finished g);
  o ← signal g;
  '(p, r) ← BUnixSignal_Free p r o false;
  Some (mk_global (initialized g) true (signal g), p, r).

(** ** Environment *)
Record world := mkw { glob : bsignal_global; proc : process; reactor : R }.
Context (bfd : LinkedList1.ptr).

(** [ESignal]: the reactor reports the descriptor.  [EOther]: other objects use the reactor, open and close their own
    descriptors, and block signals. *)
Inductive event := EInit (a : init_answers) | ESignal (bytes ssi_signo : Z) | EFinish | EOther (r : R) (fds : gset Z) (sigs : gset Z).
Definition active (g : bsignal_global) : bool := initialized g && negb (finished g).
Definition own_fd (g : bsignal_global) : gset Z := match signal g with Some o => if active g then {[signalfd_fd o]} else ∅ | None => ∅ end.

Definition enabled (w : world) (e : event) : Prop :=
  match e with
  | EInit a => initialized (glob w) = false /\ fd_answer_ok (kern (proc w)) (a_signalfd a) = true
  | ESignal bytes n => active (glob w) = true /\ (bytes = -1 \/ bytes = sizeof_signalfd_siginfo) /\ 0 <= n < 2 ^ 32
  | EFinish => active (glob w) = true
  | EOther r fds sigs => io_ok r /\ fd_watch r bfd = fd_watch (reactor w) bfd /\ (own_fd (glob w) ⊆ fds) /\ (blocked (proc w) ⊆ sigs)
  end.

(** The second result: whether the user's handler is called. *)
Definition exec (w : world) (e : event) : option (world * bool) :=
  match e with
  | EInit a => '(g, p, r, _) ← BSignal_Init (glob w) (proc w) (reactor w) bfd a; Some (mkw g p r, false)
  | ESignal bytes n =>
      o ← signal (glob w);
      s ← signalfd_handler o bytes n;
      match s with
      | Some signo => _ ← unix_signal_handler (glob w) signo; Some (w, true)
      | None => Some (w, false)
      end
  | EFinish => '(g, p, r) ← BSignal_Finish (glob w) (proc w) (reactor w); Some (mkw g p r, false)
  | EOther r fds sigs => Some (mkw (glob w) (mk_process (mk_kernel fds (files (kern (proc w)))) sigs) r, false)
  end.

Inductive reach (w0 : world) : world -> Prop :=
| reach_init : reach w0 w0
| reach_step w e w' b : reach w0 w -> enabled w e -> exec w e = Some (w', b) -> reach w0 w'.

(** ** Invariant *)
Record inv (w : world) : Prop := {
  i_io : io_ok (reactor w);
  i_watch : fd_watch (reactor w) bfd = if active (glob w) then Some BReactor.BREACTOR_READ else None;
  i_signal : if initialized (glob w) then exists fd, signal (glob w) = Some (mk ending_signals fd bfd) else signal (glob w) = None;
  i_open : own_fd (glob w) ⊆ open_fds (kern (proc w));
  i_blocked : initialized (glob w) = true -> list_to_set ending_signals ⊆ blocked (proc w);
}.

Lemma close_added k n : n ∉ open_fds k -> exists k', sys_close (new_fd k (Some n)) n = Some k' /\ open_fds k' = open_fds k.
Proof. intros Hn. rewrite (close_new k n Hn). by eexists. Qed.

(** Initialisation succeeds with the descriptor watched and the signals blocked, or leaves everything as it was. *)
Lemma unix_init_ok p r a : io_ok r -> fd_watch r bfd = None -> fd_answer_ok (kern p) (a_signalfd a) = true ->
  exists p' r' o, BUnixSignal_Init p r bfd ending_signals a = Some (p', r', o) /\ io_ok r' /\ (open_fds (kern p) ⊆ open_fds (kern p')) /\
    match o with
    | Some o => fd_watch r' bfd = Some BReactor.BREACTOR_READ /\ (exists fd, o = mk ending_signals fd bfd /\ fd ∈ open_fds (kern p')) /\ (list_to_set ending_signals ⊆ blocked p')
    | None => fd_watch r' bfd = None /\ open_fds (kern p') = open_fds (kern p) /\ blocked p' = blocked p
    end.
Proof.
  intros I W Ha. unfold BUnixSignal_Init. destruct (a_signalfd a) as [fd|]; [|exists p, r, None; done]. assert (fd ∉ open_fds (kern p)) as Hf by (cbn in Ha; apply andb_true_iff in Ha as [_ Ha]; by apply bool_decide_eq_true in Ha).
  cbn [kern blocked]. destruct (close_added _ _ Hf) as (k1 & C1 & O1). destruct (a_nonblock a); cbn [negb]; [|rewrite C1; eexists _, r, None; split; [done|]; cbn; rewrite O1; done].
  destruct (fd_add_ok r bfd fd (a_mem a) I W) as (r1 & res & -> & I1 & W1 & _). cbn [mbind option_bind]. destruct res; cbn [negb]; [|rewrite C1; eexists _, r1, None; split; [done|]; cbn; rewrite O1, W1; done].
  pose proof (W1 bfd) as Wb. rewrite bool_decide_true in Wb by done. cbn in Wb. destruct (fd_set_events_ok r1 bfd BReactor.BREACTOR_READ I1 ltac:(by rewrite Wb; eexists) eq_refl) as (r2 & -> & I2 & W2 & _). cbn [mbind option_bind].
  pose proof (W2 bfd) as Wb2. rewrite bool_decide_true in Wb2 by done. destruct (a_mask a); cbn [negb].
  - eexists _, r2, _. split; [done|]. cbn. split; [done|]. split; [by apply union_subseteq_r|]. split; [done|]. split; [|by apply union_subseteq_l]. exists fd. split; [done|]. apply elem_of_union. left. by apply elem_of_singleton.
  - destruct (fd_remove_ok r2 bfd I2 ltac:(by rewrite Wb2; eexists)) as (r3 & -> & I3 & W3 & _). cbn [mbind option_bind]. rewrite C1. eexists _, r3, None. split; [done|]. cbn. rewrite O1, W3, bool_decide_true by done. done.
Qed.

Lemma signal_step w e : inv w -> enabled w e -> exists w' b, exec w e = Some (w', b) /\ inv w' /\ (b = true -> exists bytes n, e = ESignal bytes n /\ n ∈ ending_signals).
Proof.
  intros [I W S O B] He. destruct w as [g p r]. cbn [glob proc reactor] in *. destruct e as [a|bytes n| |r' fds sigs]; cbn [enabled exec glob proc reactor] in *.
  - destruct He as [Hi Ha]. unfold BSignal_Init. assert (active g = false) as Hact by (unfold active; by rewrite Hi). rewrite Hi, Hact in *. cbn [negb].
    destruct (unix_init_ok p r a I W Ha) as (p' & r' & o & -> & I' & Hsub & Ho). cbn [mbind option_bind]. destruct o as [o|]; cbn [mbind option_bind].
    + destruct Ho as (W' & (fd & -> & Hfd) & B'). eexists _, _. split; [done|]. split; [|done]. split; cbn; try done; [by exists fd|]. by apply singleton_subseteq_l.
    + destruct Ho as (W' & O' & B'). eexists _, _. split; [done|]. split; [|done]. split; cbn; try done; [by rewrite Hact|by rewrite Hi|by rewrite O'|by rewrite Hi].
  - destruct He as (Ha & Hb & Hn). unfold active in Ha. apply andb_true_iff in Ha as [Hi Hf]. rewrite Hi in S. destruct S as [fd Es]. rewrite Es. cbn [mbind option_bind]. unfold signalfd_handler. cbn [signals].
    assert (inv (mkw g p r)) as Inv by (split; cbn; try done; rewrite Hi; by exists fd). destruct Hb as [-> | ->]; [by eexists _, _|]. change (sizeof_signalfd_siginfo <? 0) with false. change (sizeof_signalfd_siginfo =? sizeof_signalfd_siginfo) with true. cbv iota.
    destruct (n >? INT_MAX); [by eexists _, _|]. case_bool_decide as Hin; cbn [negb]; [|by eexists _, _]. cbn [mbind option_bind]. unfold unix_signal_handler.
    assert ((n =? SIGTERM) || (n =? SIGINT) || (n =? SIGHUP) = true) as ->.
    { unfold ending_signals in Hin. rewrite !elem_of_cons in Hin. rewrite !orb_true_iff, !Z.eqb_eq. destruct Hin as [?|[?|[?|H]]]; auto. by apply not_elem_of_nil in H. }
    rewrite Hi, Hf. cbn. eexists _, _. split; [done|]. split; [done|]. intros _. by eexists _, n.
  - unfold BSignal_Finish. pose proof He as Ha. unfold active in Ha. apply andb_true_iff in Ha as [Hi Hf]. rewrite Hi, Hf, He in *. destruct S as [fd Es]. rewrite Es. cbn [mbind option_bind]. unfold BUnixSignal_Free. cbn [signalfd_bfd signalfd_fd].
    destruct (fd_remove_ok r bfd I ltac:(by rewrite W; eexists)) as (r' & -> & I' & W' & _). cbn [mbind option_bind].
    assert (fd ∈ open_fds (kern p)) as Hfd by (apply O; unfold own_fd; rewrite Es, He; by apply elem_of_singleton). rewrite (close_open _ _ Hfd). cbn [mbind option_bind]. eexists _, _. split; [done|]. split; [|done].
    split; cbn; try done.
    + rewrite W', bool_decide_true by done. done.
    + by exists fd.
  - destruct He as (H1 & H2 & H3 & H4). eexists _, _. split; [done|]. split; [|done]. split; cbn; try done; [by rewrite H2|]. intros Hi. etrans; [by apply B|done].
Qed.

(** Signals are safe: initialised once or not at all, finished once, no assertion of either file fails, and the program's handler is
    called for the three signals that end it and no others, and only between initialisation and the end.  The
    descriptor is open and watched for exactly that time, and the signals stay blocked from then on. *)
Theorem signals_safe p r w : io_ok r -> fd_watch r bfd = None -> reach (mkw (mk_global false false None) p r) w ->
  (forall e, enabled w e -> exists w' b, exec w e = Some (w', b) /\ (b = true -> exists bytes n, e = ESignal bytes n /\ n ∈ ending_signals)) /\
  (fd_watch (reactor w) bfd = if active (glob w) then Some BReactor.BREACTOR_READ else None) /\ (own_fd (glob w) ⊆ open_fds (kern (proc w))) /\
  (initialized (glob w) = true -> list_to_set ending_signals ⊆ blocked (proc w)).
Proof.
  intros Hio Hw Hr. assert (inv w) as I.
  { induction Hr as [|w e w' b Hr IH He E]; [split; cbn; try done; by apply empty_subseteq|]. destruct (signal_step w e IH He) as (w1 & b1 & E1 & I1 & _). rewrite E in E1. by injection E1 as <- <-. }
  split; [|by destruct I]. intros e He. destruct (signal_step w e I He) as (w' & b & E & _ & H). by exists w', b.
Qed.
End Signals.
End BSignal.
