(* ===== verification/BTap.v ===== *)
(** * The TUN device (tuntap/BTap.c, the build for Linux)

    The device is a descriptor in a reactor, of which it uses the file descriptor functions
    ([IoReactor]).  Packets read from it are given to its output, a packet receive interface; a packet that is
    sent is written at once.  The answers of the operating system are arguments. *)

From stdpp Require Import gmap.
From S2P Require Import Prelude FlowView BReactor IoReactor Sockets.
Import BReactor.

Module BTap.

Definition BTAP_ETHERNET_HEADER_LENGTH : Z := 14.

Inductive BTap_dev_type := BTAP_DEV_TUN | BTAP_DEV_TAP.
#[export] Instance dev_type_eq_dec : EqDecision BTap_dev_type.
Proof. solve_decision. Defined.

(** [BTAP_INIT_FD] and [BTAP_INIT_STRING] with their parts of the union. *)
Inductive BTap_init := INIT_FD (fd mtu : Z) | INIT_STRING (name : option (list Z)).
Record BTap_init_data := mk_init_data { dev_type : BTap_dev_type; init : BTap_init }.

(** [bfd]: an address; [output_packet]: where the packet to be read goes; [d_err]: whether an
    error was reported. *)
Record BTap := mk { frame_mtu : Z; output : recv_view; output_packet : option Z; close_fd : bool; fd : Z; bfd : ptr; poll_events : Z; d_err : bool }.

Definition with_output (o : BTap) (v : recv_view) (p : option Z) : BTap := mk (frame_mtu o) v p (close_fd o) (fd o) (bfd o) (poll_events o) (d_err o).
Definition with_poll (o : BTap) (ev : Z) : BTap := mk (frame_mtu o) (output o) (output_packet o) (close_fd o) (fd o) (bfd o) ev (d_err o).
Definition with_err (o : BTap) : BTap := mk (frame_mtu o) (output o) (output_packet o) (close_fd o) (fd o) (bfd o) (poll_events o) true.

(** What [read] answers: a negative result is an error or, with [EAGAIN] and [EWOULDBLOCK],
    [READ_AGAIN]. *)
Inductive read_answer := READ_BYTES (n : Z) | READ_AGAIN | READ_ERROR.

(** What the device does to its user: completes the packet, or reports an error. *)
Inductive action := OutputDone (n : Z) | Error.

Section Reactor.
Context {R : Type} `{!IoReactor R}.

Definition report_error (o : BTap) : option (BTap * list action) :=
  ASSERT negb (d_err o);
  Some (with_err o, [Error]).

Definition retry_later (a : read_answer) : bool := match a with READ_BYTES n => n =? 0 | READ_AGAIN => true | READ_ERROR => false end.
Definition bytes_of (a : read_answer) : Z := match a with READ_BYTES n => n | _ => -1 end.

Definition fd_handler (r : R) (o : BTap) (events : Z) (a : read_answer) : option (R * BTap * list action) :=
  ASSERT negb (d_err o);
  if negb (has events BREACTOR_READ) then Some (r, o, []) else
  ASSERT bool_decide (is_Some (output_packet o));
  if bytes_of a <=? 0 then
    if retry_later a then Some (r, o, []) else
    '(o, acts) ← report_error o; Some (r, o, acts)
  else
  ASSERT bytes_of a <=? frame_mtu o;
  let o := with_output o (output o) None in
  let o := with_poll o (Z.ldiff (poll_events o) BREACTOR_READ) in
  r ← fd_set_events r (bfd o) (poll_events o);
  v ← PacketRecvInterface_Done (output o) (frame_mtu o) (bytes_of a);
  Some (r, with_output o v (output_packet o), [OutputDone (bytes_of a)]).

Definition output_handler_recv (r : R) (o : BTap) (data : Z) (a : read_answer) : option (R * BTap * list action) :=
  ASSERT negb (d_err o);
  ASSERT negb (bool_decide (is_Some (output_packet o)));
  if bytes_of a <=? 0 then
    if retry_later a then
      let o := with_output o (output o) (Some data) in
      let o := with_poll o (Z.lor (poll_events o) BREACTOR_READ) in
      r ← fd_set_events r (bfd o) (poll_events o);
      Some (r, o, [])
    else
    '(o, acts) ← report_error o; Some (r, o, acts)
  else
  ASSERT bytes_of a <=? frame_mtu o;
  v ← PacketRecvInterface_Done (output o) (frame_mtu o) (bytes_of a);
  Some (r, with_output o v (output_packet o), [OutputDone (bytes_of a)]).

(** [a_open], [a_sock]: the answers of [open] and [socket]; [a_mtu]: of the request for the MTU; the
    flags: whether the calls succeed. *)
Record init_answers := mk_answers { a_open : option Z; a_setiff : bool; a_sock : option Z; a_mtu : option Z; a_nonblock : bool; a_mem : bool }.

(** The descriptor and the MTU; [None] with the kernel for [fail0], and a descriptor alone for
    [fail1]. *)
Definition open_device (k : kernel) (d : BTap_init_data) (a : init_answers) : option (kernel * option (Z * option Z)) :=
  match init d with
  | INIT_FD fd mtu =>
      ASSERT fd >=? 0;
      ASSERT mtu >=? 0;
      ASSERT negb (bool_decide (dev_type d = BTAP_DEV_TAP)) || (mtu >=? BTAP_ETHERNET_HEADER_LENGTH);
      Some (k, Some (fd, Some mtu))
  | INIT_STRING _ =>
      let k := new_fd k (a_open a) in
      match a_open a with
      | None => Some (k, None)
      | Some n =>
          if negb (a_setiff a) then Some (k, Some (n, None)) else
          let k := new_fd k (a_sock a) in
          match a_sock a with
          | None => Some (k, Some (n, None))
          | Some sock =>
              match a_mtu a with
              | None => k ← sys_close k sock; Some (k, Some (n, None))
              | Some ifr_mtu =>
                  let mtu := if bool_decide (dev_type d = BTAP_DEV_TUN) then ifr_mtu else ifr_mtu + BTAP_ETHERNET_HEADER_LENGTH in
                  k ← sys_close k sock;
                  Some (k, Some (n, Some mtu))
              end
          end
      end
  end.

Definition BTap_Init2 (k : kernel) (r : R) (obj : ptr) (d : BTap_init_data) (a : init_answers) : option (kernel * R * option BTap) :=
  let cl := match init d with INIT_FD _ _ => false | INIT_STRING _ => true end in
  '(k, res) ← open_device k d a;
  match res with
  | None => Some (k, r, None)
  | Some (n, mtu) =>
      let fail1 k (r : R) := k ← (if cl then sys_close k n else Some k); Some (k, r, None) in
      match mtu with
      | None => fail1 k r
      | Some mtu =>
          if negb (a_nonblock a) then fail1 k r else
          '(r, ok) ← fd_add r obj n (a_mem a);
          if negb (ok : bool) then fail1 k r else
          Some (k, r, Some (mk mtu RIdle None cl n obj 0 false))
      end
  end.
Definition BTap_Init (k : kernel) (r : R) (obj : ptr) (devname : option (list Z)) (tun : bool) (a : init_answers) : option (kernel * R * option BTap) :=
  BTap_Init2 k r obj (mk_init_data (if tun then BTAP_DEV_TUN else BTAP_DEV_TAP) (INIT_STRING devname)) a.

Definition BTap_Free (k : kernel) (r : R) (o : BTap) : option (kernel * R) :=
  r ← fd_remove r (bfd o);
  k ← (if close_fd o then sys_close k (fd o) else Some k);
  Some (k, r).

Definition BTap_GetMTU (o : BTap) : Z := frame_mtu o.

(** The packet that is written; errors of [write] are ignored. *)
Definition BTap_Send (o : BTap) (data : list Z) : option (list Z) :=
  ASSERT negb (d_err o);
  ASSERT zlen data <=? frame_mtu o;
  Some data.

End Reactor.

(** ** The invariant of the device

    While there is no error, a packet is waited for in the reactor exactly when one was asked
    for and could not be read at once. *)
Section Inv.
Context {R : Type} `{!IoReactor R}.
Context (obj : ptr).

Record tap_base (r : R) (o : BTap) : Prop := {
  t_io : io_ok r; t_obj : bfd o = obj; t_mtu : 0 <= frame_mtu o;
  t_watch : fd_watch r obj = Some (poll_events o);
  t_poll : poll_events o = waits (bool_decide (is_Some (output_packet o))) false }.
Definition tap_idle (r : R) (o : BTap) : Prop := tap_base r o /\ output o = RIdle /\ output_packet o = None /\ d_err o = false.
Definition tap_asked (r : R) (o : BTap) (d : Z) : Prop := tap_base r o /\ output o = RBusy d /\ output_packet o = None /\ d_err o = false.
Definition tap_waits (r : R) (o : BTap) (d : Z) : Prop := tap_base r o /\ output o = RBusy d /\ output_packet o = Some d /\ d_err o = false.
Definition tap_failed (r : R) (o : BTap) : Prop := tap_base r o /\ d_err o = true.

Definition same_device (o o' : BTap) : Prop := frame_mtu o' = frame_mtu o /\ fd o' = fd o /\ close_fd o' = close_fd o.

(** [read] gives at most what it is asked for. *)
Definition read_ok (o : BTap) (a : read_answer) : bool := match a with READ_BYTES n => (0 <=? n) && (n <=? frame_mtu o) | _ => true end.

Lemma tap_set_events r o w : tap_base r o -> exists r', fd_set_events r obj (waits w false) = Some r' /\ io_ok r' /\ fd_watch r' obj = Some (waits w false) /\ (forall g, g <> obj -> fd_watch r' g = fd_watch r g) /\
  forall x, lim_state r' x = lim_state r x.
Proof.
  intros [B1 B2 B3 B4 B5]. destruct (fd_set_events_ok r obj (waits w false) B1 ltac:(by eexists) (waits_ok _ _)) as (r' & E & I & W & L). exists r'. split; [done|]. split; [done|].
  split; [by rewrite W, bool_decide_true|]. split; [intros g Hg; by rewrite W, bool_decide_false|done].
Qed.

(** The outcome of a read: the packet is complete, it is waited for, or an error was reported. *)
Definition read_outcome (o : BTap) (d : Z) (a : read_answer) (res : option (R * BTap * list action)) : Prop :=
  exists r' o' acts, res = Some (r', o', acts) /\ same_device o o' /\
  match a with
  | READ_ERROR => acts = [Error] /\ tap_failed r' o'
  | READ_BYTES n => if n =? 0 then acts = [] /\ tap_waits r' o' d else acts = [OutputDone n] /\ tap_idle r' o'
  | READ_AGAIN => acts = [] /\ tap_waits r' o' d
  end.

Lemma tap_recv r o d a : tap_asked r o d -> read_ok o a = true -> read_outcome o d a (output_handler_recv r o d a).
Proof.
  intros (B & Eo & Ep & Ee) Ha. unfold output_handler_recv. rewrite Ee, Ep. rewrite (bool_decide_false (is_Some None)) by apply is_Some_None. cbn [negb].
  assert (read_outcome o d READ_AGAIN (let o := with_output o (output o) (Some d) in let o := with_poll o (Z.lor (poll_events o) BREACTOR_READ) in r ← fd_set_events r (bfd o) (poll_events o); Some (r, o, []))) as Hwait.
  { cbv zeta. cbn [with_output with_poll bfd poll_events]. rewrite (t_poll _ _ B), Ep, (t_obj _ _ B). rewrite (bool_decide_false (is_Some None)) by apply is_Some_None. rewrite waits_add_read.
    destruct (tap_set_events r o true B) as (r' & -> & I & W & _). cbn [mbind option_bind]. eexists _, _, _. split; [done|]. split; [done|]. split; [done|]. split; [|done].
    destruct B. split; cbn; try done. }
  destruct a as [n| |]; cbn [bytes_of retry_later read_ok] in *.
  - apply andb_true_iff in Ha as [H1%Z.leb_le H2%Z.leb_le]. destruct (Z.eqb_spec n 0) as [->|Hn]; [cbn [Z.leb]; exact Hwait|]. bool_false. bool_true. rewrite Eo. unfold PacketRecvInterface_Done. bool_true. bool_true.
    cbn [mbind option_bind]. eexists _, _, _. split; [done|]. split; [done|]. rewrite (proj2 (Z.eqb_neq n 0)) by done. split; [done|]. split; [|done]. destruct B as [B1 B2 B3 B4 B5]. rewrite Ep in B5. by split.
  - exact Hwait.
  - cbn. unfold report_error. rewrite Ee. cbn. eexists _, _, _. split; [done|]. split; [done|]. split; [done|]. split; [|done]. destruct B. split; cbn; try done.
Qed.

Lemma tap_fd_read r o d a ev : tap_waits r o d -> read_ok o a = true -> has ev BREACTOR_READ = true -> read_outcome o d a (fd_handler r o ev a).
Proof.
  intros (B & Eo & Ep & Ee) Ha Hev. unfold fd_handler. rewrite Ee, Hev, Ep. rewrite (bool_decide_true (is_Some (Some d))) by (by eexists). cbn [negb].
  assert (read_outcome o d READ_AGAIN (Some (r, o, []))) as Hwait by (eexists _, _, _; done).
  destruct a as [n| |]; cbn [bytes_of retry_later read_ok] in *.
  - apply andb_true_iff in Ha as [H1%Z.leb_le H2%Z.leb_le]. destruct (Z.eqb_spec n 0) as [->|Hn]; [cbn [Z.leb]; exact Hwait|]. bool_false. bool_true. cbv zeta.
    cbn [with_output with_poll bfd poll_events output frame_mtu output_packet]. rewrite (t_poll _ _ B), Ep, (t_obj _ _ B). rewrite (bool_decide_true (is_Some (Some d))) by (by eexists). rewrite waits_drop_read.
    destruct (tap_set_events r o false B) as (r' & -> & I & W & _). cbn [mbind option_bind]. rewrite Eo. unfold PacketRecvInterface_Done. bool_true. bool_true. cbn [mbind option_bind].
    eexists _, _, _. split; [done|]. split; [done|]. rewrite (proj2 (Z.eqb_neq n 0)) by done. split; [done|]. split; [|done]. destruct B. split; cbn; try done.
  - exact Hwait.
  - cbn. unfold report_error. rewrite Ee. cbn. eexists _, _, _. split; [done|]. split; [done|]. split; [done|]. split; [|done]. destruct B. split; cbn; try done.
Qed.

(** Other reports are ignored. *)
Lemma tap_fd_other r o ev a : d_err o = false -> has ev BREACTOR_READ = false -> fd_handler r o ev a = Some (r, o, []).
Proof. intros He Hev. unfold fd_handler. by rewrite He, Hev. Qed.

Lemma tap_send o p : d_err o = false -> zlen p <= frame_mtu o -> BTap_Send o p = Some p.
Proof. intros He Hp. unfold BTap_Send. rewrite He. cbn [negb]. by bool_true. Qed.

(** ** Making and freeing the device *)
Definition init_ok (k : kernel) (d : BTap_init_data) (a : init_answers) : bool :=
  match init d with
  | INIT_FD fd mtu => (0 <=? fd) && bool_decide (fd ∈ open_fds k) && (0 <=? mtu) && (negb (bool_decide (dev_type d = BTAP_DEV_TAP)) || (mtu >=? BTAP_ETHERNET_HEADER_LENGTH))
  | INIT_STRING _ => fd_answer_ok k (a_open a) && fd_answer_ok (new_fd k (a_open a)) (a_sock a) && match a_mtu a with Some m => 0 <=? m | None => true end
  end.

(** A device that was made from a descriptor does not own it. *)
Definition owns (o : option BTap) : gset Z := match o with Some o => if close_fd o then {[fd o]} else ∅ | None => ∅ end.

Lemma tap_init_ok k r d a : io_ok r -> fd_watch r obj = None -> init_ok k d a = true ->
  exists k' r' o, BTap_Init2 k r obj d a = Some (k', r', o) /\ io_ok r' /\ (forall x, lim_state r' x = lim_state r x) /\ (forall g, g <> obj -> fd_watch r' g = fd_watch r g) /\
    open_fds k' = owns o ∪ open_fds k /\ (forall o', o = Some o' -> fd o' ∈ open_fds k' /\ (close_fd o' = true -> fd o' ∉ open_fds k)) /\ match o with Some o => tap_idle r' o | None => fd_watch r' obj = None end.
Proof.
  intros I W Hok. unfold BTap_Init2.
  (* the tail, once the descriptor [n] is there *)
  assert (forall k1 n mtu cl, open_fds k1 = (if cl : bool then {[n]} else ∅) ∪ open_fds k -> n ∈ open_fds k1 -> (cl = true -> n ∉ open_fds k) -> (forall m, mtu = Some m -> 0 <= m) ->
    exists k' r' o, (let fail1 k (r : R) := k ← (if cl then sys_close k n else Some k); Some (k, r, None) in
      match mtu with
      | None => fail1 k1 r
      | Some mtu =>
          if negb (a_nonblock a) then fail1 k1 r else
          '(r, ok) ← fd_add r obj n (a_mem a);
          if negb (ok : bool) then fail1 k1 r else Some (k1, r, Some (mk mtu RIdle None cl n obj 0 false))
      end) = Some (k', r', o) /\ io_ok r' /\ (forall x, lim_state r' x = lim_state r x) /\ (forall g, g <> obj -> fd_watch r' g = fd_watch r g) /\
    open_fds k' = owns o ∪ open_fds k /\ (forall o', o = Some o' -> fd o' ∈ open_fds k' /\ (close_fd o' = true -> fd o' ∉ open_fds k)) /\ match o with Some o => tap_idle r' o | None => fd_watch r' obj = None end) as Htail.
  { intros k1 n mtu cl Ek Hn Hcl Hm. cbv zeta.
    assert (forall r1, io_ok r1 -> (forall x, lim_state r1 x = lim_state r x) -> (forall g, fd_watch r1 g = fd_watch r g) -> exists k' r' o, (k ← (if cl then sys_close k1 n else Some k1); Some (k, r1, None)) = Some (k', r', o) /\ io_ok r' /\
      (forall x, lim_state r' x = lim_state r x) /\ (forall g, g <> obj -> fd_watch r' g = fd_watch r g) /\ open_fds k' = owns o ∪ open_fds k /\ (forall o', o = Some o' -> fd o' ∈ open_fds k' /\ (close_fd o' = true -> fd o' ∉ open_fds k)) /\
      match o with Some o => tap_idle r' o | None => fd_watch r' obj = None end) as Hfail.
    { intros r1 I1 L1 W1. assert (exists k2, (if cl then sys_close k1 n else Some k1) = Some k2 /\ open_fds k2 = open_fds k) as (k2 & -> & E2).
      { destruct cl; [|exists k1; split; [done|]; by rewrite Ek, union_empty_l_L]. rewrite close_open by done. eexists. split; [done|]. cbn. rewrite Ek. specialize (Hcl eq_refl).
        apply set_eq. intros y. rewrite elem_of_difference, elem_of_union, elem_of_singleton. split; [by intros [[?|?] ?]|]. intros Hy. split; [by right|by intros ->]. }
      cbn [mbind option_bind]. exists k2, r1, None. split; [done|]. split; [done|]. split; [done|]. split; [by intros|]. split; [cbn [owns]; by rewrite E2, union_empty_l_L|]. split; [done|]. by rewrite W1. }
    destruct mtu as [mtu|]; [|by apply Hfail]. destruct (a_nonblock a); cbn [negb]; [|by apply Hfail].
    destruct (fd_add_ok r obj n (a_mem a) I W) as (r1 & res & -> & I1 & W1 & L1). cbn [mbind option_bind]. destruct res; cbn [negb andb] in *; [|by apply Hfail].
    eexists _, _, (Some _). split; [done|]. split; [done|]. split; [done|]. split; [intros g Hg; by rewrite W1, bool_decide_false|]. split; [done|]. split; [by intros o' [= <-]|].
    split; [|done]. split; cbn; try done; [by apply Hm|by rewrite W1, bool_decide_true]. }
  unfold open_device, init_ok in *. destruct (init d) as [n mtu|nm].
  - apply andb_true_iff in Hok as [[[H1 H2%bool_decide_eq_true]%andb_true_iff H3]%andb_true_iff H4]. rewrite !(proj2 (Z.geb_le _ _)) by lia. rewrite H4. cbn [mbind option_bind].
    apply (Htail k n (Some mtu) false); [by rewrite union_empty_l_L|done|done|]. intros m [= <-]. lia.
  - apply andb_true_iff in Hok as [[H1 H2]%andb_true_iff H3]. destruct (a_open a) as [n|]; cbn [mbind option_bind new_fd] in *.
    2: { exists k, r, None. split; [done|]. split; [done|]. split; [done|]. split; [done|]. split; [cbn [owns]; by rewrite union_empty_l_L|done]. }
    cbn in H1. apply andb_true_iff in H1 as [_ H1%bool_decide_eq_true].
    assert (n ∈ open_fds (mk_kernel ({[n]} ∪ open_fds k) (files k))) as Hin by (apply elem_of_union; left; by apply elem_of_singleton).
    destruct (a_setiff a); cbn [negb mbind option_bind]; [|by apply (Htail _ n None true)]. destruct (a_sock a) as [sk|]; cbn [mbind option_bind new_fd fd_answer_ok] in *; [|by apply (Htail _ n None true)].
    apply andb_true_iff in H2 as [_ H2%bool_decide_eq_true]. pose proof (close_new (mk_kernel ({[n]} ∪ open_fds k) (files k)) sk H2) as Hcn. cbn [new_fd] in Hcn.
    destruct (a_mtu a) as [m|]; rewrite Hcn; cbn [mbind option_bind].
    + apply (Htail _ n (Some _) true); [done|done|done|]. intros m' [= <-]. unfold BTAP_ETHERNET_HEADER_LENGTH. case_bool_decide; lia.
    + by apply (Htail _ n None true).
Qed.

Lemma tap_free_ok k r o : tap_base r o -> (close_fd o = true -> fd o ∈ open_fds k) ->
  exists k' r', BTap_Free k r o = Some (k', r') /\ io_ok r' /\ fd_watch r' obj = None /\ (forall g, g <> obj -> fd_watch r' g = fd_watch r g) /\ (forall x, lim_state r' x = lim_state r x) /\ open_fds k' = open_fds k ∖ owns (Some o).
Proof.
  intros [B1 B2 B3 B4 B5] Hk. unfold BTap_Free. rewrite B2. destruct (fd_remove_ok r obj B1 ltac:(by eexists)) as (r' & -> & I & W & L). cbn [mbind option_bind owns].
  destruct (close_fd o).
  - rewrite close_open by auto. cbn [mbind option_bind]. eexists _, r'. split; [done|]. split; [done|]. split; [by rewrite W, bool_decide_true|]. split; [intros g Hg; by rewrite W, bool_decide_false|]. done.
  - cbn [mbind option_bind]. exists k, r'. split; [done|]. split; [done|]. split; [by rewrite W, bool_decide_true|]. split; [intros g Hg; by rewrite W, bool_decide_false|]. split; [done|]. by rewrite difference_empty_L.
Qed.
End Inv.

End BTap.
