(* ===== verification/TunDevice.v ===== *)
(** * The device in tun2socks (tun2socks/tun2socks.c)

    Packets read from the TUN device go through a buffer for one packet ([device_read_buffer]) to
    [device_read_handler_send], which gives them to the UDP relay or to lwIP; the packets of lwIP and of the
    relay are written to the device.  Also here: the job that initialises lwIP, its timer, and the end of the
    program.

    The components are those of [BTap], [PacketFlow] and [DeviceUdp].  The two interfaces between
    them are seen with their jobs: after a call of [..._Recv] or [..._Send] a job calls the handler of the
    other side ([Operation]), and after a call of [..._Done] a job calls the done handler ([Done]).  lwIP is the
    environment: it answers the calls and sends packets, also from within them. *)

From stdpp Require Import gmap.
From S2P Require Import Prelude ByteOrder FlowView BAddr BReactor IoReactor Sockets BTap PacketFlow DeviceUdp.
Import BReactor BTap.

Module TunDevice.

(** The states of an interface object. *)
Inductive phase := Idle | Operation | Busy | Done (len : Z).
#[export] Instance phase_eq_dec : EqDecision phase.
Proof. solve_decision. Defined.

(** ** State *)

(** [pcbs]: the TCP control blocks that lwIP made for listening and that were not closed. *)
Record globals := mk_globals { quitting : bool; init_job : bool; have_netif : bool; listener : bool; listener_ip6 : bool; pcbs : Z; tcp_timer_mod4 : Z }.

Definition with_quitting (g : globals) : globals := mk_globals true (init_job g) (have_netif g) (listener g) (listener_ip6 g) (pcbs g) (tcp_timer_mod4 g).
Definition with_netif (g : globals) : globals := mk_globals (quitting g) (init_job g) true (listener g) (listener_ip6 g) (pcbs g) (tcp_timer_mod4 g).
Definition with_init_job (g : globals) (b : bool) : globals := mk_globals (quitting g) b (have_netif g) (listener g) (listener_ip6 g) (pcbs g) (tcp_timer_mod4 g).
Definition with_listener (g : globals) : globals := mk_globals (quitting g) (init_job g) (have_netif g) true (listener_ip6 g) (pcbs g) (tcp_timer_mod4 g).
Definition with_listener_ip6 (g : globals) : globals := mk_globals (quitting g) (init_job g) (have_netif g) (listener g) true (pcbs g) (tcp_timer_mod4 g).
Definition with_pcbs (g : globals) (n : Z) : globals := mk_globals (quitting g) (init_job g) (have_netif g) (listener g) (listener_ip6 g) n (tcp_timer_mod4 g).
Definition with_mod4 (g : globals) (n : Z) : globals := mk_globals (quitting g) (init_job g) (have_netif g) (listener g) (listener_ip6 g) (pcbs g) n.
Definition no_globals : globals := mk_globals false false false false false 0 0.

(** ** The end of the program *)
Definition terminate (g : globals) : option globals :=
  ASSERT negb (quitting g);
  Some (with_quitting g).
Definition signal_handler (g : globals) : option globals :=
  ASSERT negb (quitting g);
  terminate g.
Definition device_error_handler (g : globals) : option globals :=
  ASSERT negb (quitting g);
  terminate g.

(** ** From the device *)
Section Config.
Context (cfg : config).

(** The configuration with the MTU of the device. *)
Definition config_of (o : BTap) : config :=
  {| udpgw_remote_server_addr := DeviceUdp.udpgw_remote_server_addr cfg; netif_ip6addr := DeviceUdp.netif_ip6addr cfg; dnsgw := DeviceUdp.dnsgw cfg; udp_mtu := DeviceUdp.udp_mtu cfg;
     DeviceUdp.BTap_GetMTU := BTap_GetMTU o |}.

(** What becomes of a packet. *)
Inductive fate := ToRelay (s : submission) | TooLarge | NoMemory | ToLwip (ipv6 : bool) | NoVersion.
#[export] Instance submission_eq_dec : EqDecision submission.
Proof. solve_decision. Defined.
#[export] Instance fate_eq_dec : EqDecision fate.
Proof. solve_decision. Defined.

(** [pbuf_free] on one of [n] packet buffers. *)
Definition pbuf_free (n : Z) : option Z := ASSERT 0 <? n; Some (n - 1).

(** [owned]: the packet buffers of the caller; [ok]: whether lwIP takes the packet; the second result is
    whether the function returns [ERR_OK]. *)
Definition netif_input_func (p : list Z) (owned : Z) (ok : bool) : option (fate * bool * Z) :=
  ip_version ← (if zlen p >? 0 then b ← p !! 0%nat; Some (Z.shiftr b 4) else Some 0);
  if ip_version =? 4 then Some (ToLwip false, ok, if ok then owned - 1 else owned)
  else if (ip_version =? 6) && DeviceUdp.netif_ip6addr cfg then Some (ToLwip true, ok, if ok then owned - 1 else owned)
  else
    owned ← pbuf_free owned;
    Some (NoVersion, true, owned).

(** [mem]: whether there is a packet buffer.  The third result is the number of packet
    buffers that are left. *)
Definition device_read_handler_send (g : globals) (o : BTap) (i : pass_view) (data : list Z) (mem ok : bool) : option (pass_view * fate * Z) :=
  ASSERT negb (quitting g);
  i ← PacketPassInterface_Done i;
  r ← process_device_udp_packet (config_of o) data (zlen data);
  match r with
  | Some s => Some (i, ToRelay s, 0)
  | None =>
      if zlen data >? UINT16_MAX then Some (i, TooLarge, 0) else
      if negb mem then Some (i, NoMemory, 0) else
      ASSERT have_netif g;
      '(f, res, owned) ← netif_input_func data 1 ok;
      if negb (res : bool) then owned ← pbuf_free owned; Some (i, f, owned) else Some (i, f, owned)
  end.

(** ** To the device *)

(** The loop over the buffers of a packet: the write buffer and the length. *)
Fixpoint gather (o : BTap) (buf : list Z) (len : Z) (p : list (list Z)) : option (list Z * option Z) :=
  match p with
  | [] => Some (buf, Some len)
  | c :: p =>
      if zlen c >? BTap_GetMTU o - len then Some (buf, None) else
      ASSERT len + zlen c <=? zlen buf;
      gather o (splice buf len c) (len + zlen c) p
  end.

(** [p]: the payloads of the packet's buffers; the write buffer and what is written. *)
Definition common_netif_output (g : globals) (o : BTap) (buf : list Z) (p : list (list Z)) : option (list Z * option (list Z)) :=
  if quitting g then Some (buf, None) else
  match p with
  | [] => None
  | [c] =>
      if zlen c >? BTap_GetMTU o then Some (buf, None) else
      w ← BTap_Send o c;
      Some (buf, Some w)
  | _ =>
      '(buf, len) ← gather o buf 0 p;
      match len with
      | None => Some (buf, None)
      | Some len => w ← BTap_Send o (sub buf 0 len); Some (buf, Some w)
      end
  end.
Definition netif_output_func (g : globals) (o : BTap) (buf : list Z) (p : list (list Z)) : option (list Z * option (list Z)) := common_netif_output g o buf p.
Definition netif_output_ip6_func (g : globals) (o : BTap) (buf : list Z) (p : list (list Z)) : option (list Z * option (list Z)) := common_netif_output g o buf p.

(** ** lwIP *)

(** The answers of [netif_add], and for each listener of [tcp_new_ip_type], [tcp_bind_to_netif] and
    [tcp_listen]. *)
Record lwip_answers := mk_lwip { l_netif : bool; l_new : bool; l_bind : bool; l_listen : bool; l_new6 : bool; l_bind6 : bool; l_listen6 : bool }.

(** A listening control block: whether there is one, and the control blocks. *)
Definition make_listener (n : Z) (new bind listen : bool) : bool * Z :=
  if negb new then (false, n) else
  let n := n + 1 in
  if negb bind then (false, n - 1) else
  if negb listen then (false, n - 1) else (true, n).

Definition lwip_init_job_hadler (g : globals) (a : lwip_answers) : option globals :=
  let g := with_init_job g false in
  ASSERT negb (quitting g);
  ASSERT negb (have_netif g);
  ASSERT negb (listener g);
  ASSERT negb (listener_ip6 g);
  let fail g := if negb (quitting g) then terminate g else Some g in
  if negb (l_netif a) then fail g else
  let g := with_netif g in
  let '(l, n) := make_listener (pcbs g) (l_new a) (l_bind a) (l_listen a) in
  let g := with_pcbs g n in
  if negb l then fail g else
  let g := with_listener g in
  if DeviceUdp.netif_ip6addr cfg then
    let '(l, n) := make_listener (pcbs g) (l_new6 a) (l_bind6 a) (l_listen6 a) in
    let g := with_pcbs g n in
    if negb l then fail g else Some (with_listener_ip6 g)
  else Some g.

(** Whether the functions that run every second are called as well. *)
Definition tcp_timer_handler (g : globals) : option (globals * bool) :=
  ASSERT negb (quitting g);
  let m := (tcp_timer_mod4 g + 1) mod 4 in
  Some (with_mod4 g m, m =? 0).

(** What [main] does with lwIP after the event loop: [tcp_close] on the listeners, [netif_remove],
    and [BPending_Free] on the job. *)
Definition free_lwip (g : globals) : globals :=
  let n := if listener_ip6 g then pcbs g - 1 else pcbs g in
  let n := if listener g then n - 1 else n in
  mk_globals (quitting g) false false (listener g) (listener_ip6 g) n (tcp_timer_mod4 g).
End Config.

End TunDevice.
