(* ===== verification/TunDeviceInv.v ===== *)
(** * The device in tun2socks: environment, invariant and theorems

    The environment is the operating system, the reactor, lwIP, the UDP relay, and everything else that uses the
    reactor in between ([reach_other]).  The device is made from a descriptor, as the application does it. *)

From stdpp Require Import gmap.
From S2P Require Import Prelude ByteOrder FlowView BAddr BReactor IoReactor Sockets BTap PacketFlow DeviceUdp TunDevice.
Import BReactor BTap TunDevice.

Module TunDeviceInv.
Module SPB := PacketFlow.SinglePacketBuffer.

Section World.
Context {R : Type} `{!IoReactor R}.
Context (cfg : config) (obj : ptr).

(** ** Environment *)

(** [d_in]: the packets the kernel gave; [d_fate]: what became of them; [d_out]: the packets
    written; [left]: packet buffers neither given away nor freed; [ticks], [seconds]: the calls of the timer, and those
    with the functions of every second. *)
Record log := mk_log { d_in : list (list Z); d_fate : list (list Z * fate); d_out : list (list Z); left : Z; ticks : Z; seconds : Z }.
Definition no_log : log := mk_log [] [] [] 0 0 0.
Definition log_in (x : log) (d : list Z) : log := mk_log (d_in x ++ [d]) (d_fate x) (d_out x) (left x) (ticks x) (seconds x).
Definition log_fate (x : log) (d : list Z) (f : fate) (n : Z) : log := mk_log (d_in x) (d_fate x ++ [(d, f)]) (d_out x) (left x + n) (ticks x) (seconds x).
Definition log_out (x : log) (w : option (list Z)) : log := mk_log (d_in x) (d_fate x) (d_out x ++ match w with Some p => [p] | None => [] end) (left x) (ticks x) (seconds x).
Definition log_tick (x : log) (s : bool) : log := mk_log (d_in x) (d_fate x) (d_out x) (left x) (ticks x + 1) (if s then seconds x + 1 else seconds x).

(** [rif]: the output of the device, the input of the buffer; [pif]: [device_read_interface];
    [wbuf]: [device_write_buf]. *)
Record world := mkw { kn : kernel; rx : R; tap : option BTap; spb : SPB.t; rif : phase; pif : phase; wbuf : list Z; gl : globals; lg : log }.

Definition with_dev (w : world) (r : R) (o : BTap) : world := mkw (kn w) r (Some o) (spb w) (rif w) (pif w) (wbuf w) (gl w) (lg w).
Definition with_spb (w : world) (s : SPB.t) : world := mkw (kn w) (rx w) (tap w) s (rif w) (pif w) (wbuf w) (gl w) (lg w).
Definition with_rif (w : world) (p : phase) : world := mkw (kn w) (rx w) (tap w) (spb w) p (pif w) (wbuf w) (gl w) (lg w).
Definition with_pif (w : world) (p : phase) : world := mkw (kn w) (rx w) (tap w) (spb w) (rif w) p (wbuf w) (gl w) (lg w).
Definition with_wbuf (w : world) (b : list Z) : world := mkw (kn w) (rx w) (tap w) (spb w) (rif w) (pif w) b (gl w) (lg w).
Definition with_gl (w : world) (g : globals) : world := mkw (kn w) (rx w) (tap w) (spb w) (rif w) (pif w) (wbuf w) g (lg w).
Definition with_log (w : world) (x : log) : world := mkw (kn w) (rx w) (tap w) (spb w) (rif w) (pif w) (wbuf w) (gl w) x.

(** [outs]: packets lwIP sends from within a call; [d]: the bytes read from the device; [m1], [m2]: the memory for
    the buffer and the write buffer, if there is any. *)
Inductive event :=
| EStart (fd mtu : Z) (nonblock mem : bool) (m1 m2 : option (list Z))
| EInitJob (a : lwip_answers) (outs : list (list (list Z)))
| EJobRecv (a : read_answer) (d : list Z) | EFd (events : Z) (a : read_answer) (d : list Z) | ERecvDone
| EJobSend (mem ok : bool) (outs : list (list (list Z))) | ESendDone
| EOutput (p : list (list Z)) | EFromRelay (local remote : BAddr) (data : list Z) (n : Z)
| ETimer (outs : list (list (list Z))) | ESignal | EStop.

Definition answer_ok (o : BTap) (a : read_answer) (d : list Z) : bool :=
  read_ok o a && match a with READ_BYTES n => (n =? zlen d) && bool_decide (bytes_ok d) | _ => true end.

(** A packet of lwIP has at least one buffer. *)
Definition packet_ok (p : list (list Z)) : bool := negb (bool_decide (p = [])).

Definition is_ip_dec (a : BAddr) : bool := (addr_type a =? 1) || (addr_type a =? 2).
Definition addr_ok_dec (a : BAddr) : bool :=
  match a with
  | ADDR_NONE => true | ADDR_IPV4 ip port => (0 <=? ip) && (ip <? 2 ^ 32) && (0 <=? port) && (port <? 2 ^ 16)
  | ADDR_IPV6 ip port => bool_decide (bytes_ok ip) && (zlen ip =? 16) && (0 <=? port) && (port <? 2 ^ 16) | ADDR_PACKET _ _ _ _ _ => false
  end.

(** The job that initialises lwIP was set last and runs before the others. *)
Definition running (w : world) : bool := negb (quitting (gl w)) && negb (init_job (gl w)) && bool_decide (is_Some (tap w)).

Definition enabled (w : world) (e : event) : bool :=
  match e with
  | EStart fd mtu _ _ m1 m2 => bool_decide (tap w = None) && negb (quitting (gl w)) && (0 <=? fd) && bool_decide (fd ∈ open_fds (kn w)) && (0 <=? mtu) &&
      match m1 with Some b => zlen b =? Z.max 1 mtu | None => true end && match m2 with Some b => zlen b =? Z.max 1 mtu | None => true end
  | EInitJob _ outs => negb (quitting (gl w)) && init_job (gl w) && forallb packet_ok outs
  | EJobRecv a d => running w && bool_decide (rif w = Operation) && match tap w with Some o => answer_ok o a d | None => false end
  | EFd ev a d => running w && match tap w with Some o => answer_ok o a d | None => false end && match fd_watch (rx w) obj with Some x => reported x ev | None => false end
  | ERecvDone => running w && match rif w with Done _ => true | _ => false end
  | EJobSend _ _ outs => running w && bool_decide (pif w = Operation) && forallb packet_ok outs
  | ESendDone => running w && match pif w with Done _ => true | _ => false end
  | EOutput p => bool_decide (is_Some (tap w)) && have_netif (gl w) && packet_ok p
  | EFromRelay local remote data n => running w && DeviceUdp.udpgw_remote_server_addr cfg && addr_ok_dec local && addr_ok_dec remote && is_ip_dec local && (addr_type local =? addr_type remote) &&
      bool_decide (bytes_ok data) && (0 <=? n) && (n <=? zlen data)
  | ETimer outs => running w && forallb packet_ok outs
  | ESignal => running w
  | EStop => bool_decide (is_Some (tap w)) && quitting (gl w)
  end.

(** A packet of lwIP. *)
Definition emit (w : world) (p : list (list Z)) : option world :=
  o ← tap w;
  '(b, out) ← common_netif_output (gl w) o (wbuf w) p;
  Some (with_log (with_wbuf w b) (log_out (lg w) out)).
Fixpoint emits (w : world) (ps : list (list (list Z))) : option world := match ps with [] => Some w | p :: ps => w ← emit w p; emits w ps end.

(** What the device did: [d] was read into the packet that was asked for. *)
Definition acted (w : world) (d : list Z) (res : option (R * BTap * list action)) : option world :=
  '(r, o, acts) ← res;
  let w := with_dev w r o in
  match acts with
  | [] => Some w
  | OutputDone n :: _ =>
      ASSERT zlen d <=? zlen (SPB.buf (spb w));
      let s := spb w in
      Some (with_log (with_rif (with_spb w (SPB.mk (SPB.input s) (SPB.input_mtu s) (SPB.output s) (SPB.output_mtu s) (splice (SPB.buf s) 0 d))) (Done n)) (log_in (lg w) d))
  | Error :: _ => g ← device_error_handler (gl w); Some (with_gl w g)
  end.

(** A call of [PacketRecvInterface_Receiver_Recv] by the buffer. *)
Definition receiver_recv (w : world) (s : SPB.t) : option world :=
  o ← tap w;
  Some (with_rif (with_spb (with_dev w (rx w) (with_output o (SPB.input s) (output_packet o))) s) Operation).

Definition exec (w : world) (e : event) : option world :=
  match e with
  | EStart fd mtu nb mem m1 m2 =>
      '(k, r, res) ← BTap_Init2 (kn w) (rx w) obj (mk_init_data BTAP_DEV_TUN (INIT_FD fd mtu)) (mk_answers None false None None nb mem);
      match res with
      | None => Some (mkw k r None (spb w) (rif w) (pif w) (wbuf w) (gl w) (lg w))
      | Some o =>
          let fail k r := '(k, r) ← BTap_Free k r o; Some (mkw k r None (spb w) (rif w) (pif w) (wbuf w) (gl w) (lg w)) in
          s ← SPB.SinglePacketBuffer_Init (fun _ => m1) (BTap_GetMTU o) (BTap_GetMTU o);
          match s with
          | inl _ => fail k r
          | inr s =>
              match m2 with
              | None => fail k r
              | Some b => receiver_recv (mkw k r (Some o) s Idle Idle b (with_init_job no_globals true) no_log) s
              end
          end
      end
  | EInitJob a outs => g ← lwip_init_job_hadler cfg (gl w) a; emits (with_gl w g) outs
  | EJobRecv a d => o ← tap w; acted (with_rif w Busy) d (output_handler_recv (rx w) o 0 a)
  | EFd ev a d => o ← tap w; acted w d (fd_handler (rx w) o ev a)
  | ERecvDone =>
      match rif w with
      | Done n =>
          let s := spb w in
          s ← SPB.input_handler_done (SPB.mk RIdle (SPB.input_mtu s) (SPB.output s) (SPB.output_mtu s) (SPB.buf s)) n;
          Some (with_pif (with_rif (with_spb w s) Idle) Operation)
      | _ => None
      end
  | EJobSend mem ok outs =>
      o ← tap w;
      match SPB.output (spb w) with
      | PBusy (Some a) len =>
          let data := sub (SPB.buf (spb w)) a len in
          '(v, f, n) ← device_read_handler_send cfg (gl w) o (SPB.output (spb w)) data mem ok;
          let s := spb w in
          emits (with_log (with_pif (with_spb w (SPB.mk (SPB.input s) (SPB.input_mtu s) v (SPB.output_mtu s) (SPB.buf s))) (Done 0)) (log_fate (lg w) data f n)) outs
      | _ => None
      end
  | ESendDone => s ← SPB.output_handler_done (spb w); receiver_recv (with_pif w Idle) s
  | EOutput p => emit w p
  | EFromRelay local remote data n =>
      o ← tap w;
      r ← udpgw_client_handler_received (config_of cfg o) local remote data n;
      match r with
      | None => Some w
      | Some p =>
          ASSERT zlen p <=? zlen (wbuf w);
          let b := splice (wbuf w) 0 p in
          q ← BTap_Send o (sub b 0 (zlen p)); Some (with_log (with_wbuf w b) (log_out (lg w) (Some q)))
      end
  | ETimer outs => '(g, s) ← tcp_timer_handler (gl w); emits (with_log (with_gl w g) (log_tick (lg w) s)) outs
  | ESignal => g ← signal_handler (gl w); Some (with_gl w g)
  | EStop => o ← tap w; '(k, r) ← BTap_Free (kn w) (rx w) o; Some (mkw k r None (spb w) Idle Idle (wbuf w) (free_lwip (gl w)) (lg w))
  end.

Inductive reach : world -> Prop :=
| reach_init k r s b : io_ok r -> fd_watch r obj = None -> reach (mkw k r None s Idle Idle b no_globals no_log)
| reach_other w k' r' : reach w -> io_ok r' -> fd_watch r' obj = fd_watch (rx w) obj -> reach (mkw k' r' (tap w) (spb w) (rif w) (pif w) (wbuf w) (gl w) (lg w))
| reach_step w e w' : reach w -> enabled w e = true -> exec w e = Some w' -> reach w'.

(** ** Invariant *)

(** What becomes of a packet. *)
Definition version (d : list Z) : Z := match d with b :: _ => Z.shiftr b 4 | [] => 0 end.
Definition fate_of (x : list Z * fate) : Prop :=
  let '(d, f) := x in
  exists r, process_device_udp_packet cfg d (zlen d) = Some r /\
  match r with
  | Some s => f = ToRelay s
  | None =>
      match f with
      | ToRelay _ => False
      | TooLarge => UINT16_MAX < zlen d
      | NoMemory => True
      | ToLwip false => version d = 4
      | ToLwip true => version d = 6 /\ DeviceUdp.netif_ip6addr cfg = true
      | NoVersion => version d <> 4 /\ (version d <> 6 \/ DeviceUdp.netif_ip6addr cfg = false)
      end
  end.

(** Where the packet is: asked for, waited for, read, given on, taken.  The last argument is the
    packet that is in the buffer. *)
Inductive cycle (r : R) (o : BTap) (s : SPB.t) : phase -> phase -> list (list Z) -> Prop :=
| cy_asked : tap_asked obj r o 0 -> SPB.input s = RBusy 0 -> SPB.output s = PIdle -> cycle r o s Operation Idle []
| cy_waits : tap_waits obj r o 0 -> SPB.input s = RBusy 0 -> SPB.output s = PIdle -> cycle r o s Busy Idle []
| cy_got n : tap_idle obj r o -> SPB.input s = RBusy 0 -> SPB.output s = PIdle -> 0 < n <= frame_mtu o -> bytes_ok (sub (SPB.buf s) 0 n) -> cycle r o s (Done n) Idle [sub (SPB.buf s) 0 n]
| cy_send n : tap_idle obj r o -> SPB.input s = RIdle -> SPB.output s = PBusy (Some 0) n -> 0 < n <= frame_mtu o -> bytes_ok (sub (SPB.buf s) 0 n) -> cycle r o s Idle Operation [sub (SPB.buf s) 0 n]
| cy_sent m : tap_idle obj r o -> SPB.input s = RIdle -> SPB.output s = PIdle -> cycle r o s Idle (Done m) [].

Record dev_ok (w : world) (o : BTap) : Prop := {
  v_base : tap_base obj (rx w) o;
  v_fd : close_fd o = false;
  v_spb : SPB.input_mtu (spb w) = frame_mtu o /\ SPB.output_mtu (spb w) = frame_mtu o /\ frame_mtu o <= zlen (SPB.buf (spb w));
  v_wbuf : frame_mtu o <= zlen (wbuf w);
  v_path : exists pend, d_in (lg w) = map fst (d_fate (lg w)) ++ pend /\ (length pend <= 1)%nat /\ (quitting (gl w) = false -> cycle (rx w) o (spb w) (rif w) (pif w) pend);
  v_out : Forall (fun p => zlen p <= frame_mtu o) (d_out (lg w));
}.

Record glob_ok (g : globals) (x : log) (on : bool) : Prop := {
  g_init : init_job g = true -> on = true /\ (quitting g = false -> have_netif g = false /\ listener g = false /\ listener_ip6 g = false);
  g_netif : quitting g = false -> init_job g = false -> have_netif g = on;
  g_off : on = false -> have_netif g = false /\ pcbs g = 0;
  g_pcbs : on = true -> pcbs g = Z.b2z (listener g) + Z.b2z (listener_ip6 g);
  g_time : 0 <= ticks x /\ tcp_timer_mod4 g = ticks x mod 4 /\ seconds x = ticks x / 4;
}.

Definition tap_ok (w : world) : Prop := match tap w with Some o => dev_ok w o | None => fd_watch (rx w) obj = None end.
Record inv (w : world) : Prop := {
  i_io : io_ok (rx w);
  i_tap : tap_ok w;
  i_gl : glob_ok (gl w) (lg w) (bool_decide (is_Some (tap w)));
  i_fate : Forall fate_of (d_fate (lg w));
  i_left : left (lg w) = 0;
}.

(** ** Output *)
Definition out_of (q : bool) (o : BTap) (p : list (list Z)) : option (list Z) :=
  if q then None else if zlen (concat p) <=? frame_mtu o then Some (concat p) else None.

Lemma gather_ok o p : forall buf len pre, zlen pre = len -> len <= frame_mtu o -> frame_mtu o <= zlen buf -> sub buf 0 len = pre ->
  exists buf', zlen buf' = zlen buf /\
    gather o buf len p = Some (buf', if len + zlen (concat p) <=? frame_mtu o then Some (len + zlen (concat p)) else None) /\
    (len + zlen (concat p) <= frame_mtu o -> sub buf' 0 (len + zlen (concat p)) = pre ++ concat p).
Proof.
  induction p as [|c p IH]; intros buf len pre Hpre Hlen Hbuf Hs; cbn [gather concat].
  - exists buf. rewrite zlen_nil, Z.add_0_r, app_nil_r. by rewrite (proj2 (Z.leb_le _ _) Hlen).
  - pose proof (zlen_nonneg c). pose proof (zlen_nonneg pre). pose proof (zlen_nonneg (concat p)). rewrite zlen_app. unfold BTap_GetMTU. destruct (Z.gtb_spec (zlen c) (frame_mtu o - len)) as [Hc|Hc].
    + exists buf. rewrite (proj2 (Z.leb_gt _ _)) by lia. split; [done|]. split; [done|lia].
    + bool_true. destruct (IH (splice buf len c) (len + zlen c) (pre ++ c)) as (buf' & Hz & E & Hsub); [rewrite zlen_app; lia|lia|rewrite zlen_splice by lia; lia| |].
      { rewrite (sub_split _ 0 (len + zlen c) len) by lia. rewrite Z.add_0_l. replace (len + zlen c - len) with (zlen c) by lia. rewrite sub_splice_eq by lia. rewrite sub_splice_ne by lia. by rewrite Hs. }
      rewrite zlen_splice in Hz by lia. exists buf'. split; [done|]. rewrite E, Z.add_assoc. split; [done|]. rewrite app_assoc. exact Hsub.
Qed.

Lemma netif_output_ok g o buf p : packet_ok p = true -> (quitting g = false -> d_err o = false) -> 0 <= frame_mtu o -> frame_mtu o <= zlen buf ->
  exists buf', zlen buf' = zlen buf /\ common_netif_output g o buf p = Some (buf', out_of (quitting g) o p).
Proof.
  intros Hp He Hm Hb. unfold common_netif_output, out_of. destruct (quitting g); [by exists buf|]. specialize (He eq_refl). unfold packet_ok in Hp. apply negb_true_iff, bool_decide_eq_false in Hp.
  destruct p as [|c p]; [done|]. destruct p as [|c' p].
  - exists buf. split; [done|]. cbn [concat]. rewrite app_nil_r. unfold BTap_GetMTU. destruct (Z.gtb_spec (zlen c) (frame_mtu o)); [by rewrite (proj2 (Z.leb_gt _ _)) by lia|].
    rewrite (proj2 (Z.leb_le _ _)) by lia. by rewrite tap_send by done.
  - destruct (gather_ok o (c :: c' :: p) buf 0 []) as (buf' & Hz & -> & Hs); [done|lia|lia|by rewrite sub_nil|]. cbn [mbind option_bind]. rewrite Z.add_0_l in *. exists buf'. split; [done|].
    destruct (Z.leb_spec (zlen (concat (c :: c' :: p))) (frame_mtu o)) as [Hl|Hl]; [|done]. rewrite (Hs Hl). cbn [app]. by rewrite tap_send by done.
Qed.

Definition log_outs (x : log) (ps : list (list Z)) : log := mk_log (d_in x) (d_fate x) (d_out x ++ ps) (left x) (ticks x) (seconds x).

Lemma outs_fit q o ps : Forall (fun p => zlen p <= frame_mtu o) (omap (out_of q o) ps).
Proof.
  apply list.Forall_forall. intros p (x & _ & E)%list_elem_of_omap. unfold out_of in E. destruct q; [done|]. destruct (Z.leb_spec (zlen (concat x)) (frame_mtu o)); [|done]. by injection E as <-.
Qed.

(** The device of a world in which packets may be written. *)
Definition can_write (w : world) (o : BTap) : Prop := tap w = Some o /\ (quitting (gl w) = false -> d_err o = false) /\ 0 <= frame_mtu o <= zlen (wbuf w).

Lemma emits_ok ps : forall w o, can_write w o -> forallb packet_ok ps = true ->
  exists b, zlen b = zlen (wbuf w) /\ emits w ps = Some (with_log (with_wbuf w b) (log_outs (lg w) (omap (out_of (quitting (gl w)) o) ps))).
Proof.
  induction ps as [|p ps IH]; intros w o (Ht & He & Hm) Hp; cbn [emits].
  - exists (wbuf w). split; [done|]. destruct w as [? ? ? ? ? ? ? ? []]. cbn. unfold log_outs. cbn. by rewrite app_nil_r.
  - cbn [forallb] in Hp. apply andb_true_iff in Hp as [Hp Hps]. unfold emit. rewrite Ht. cbn [mbind option_bind].
    destruct (netif_output_ok (gl w) o (wbuf w) p Hp He) as (b & Hb & ->); [lia..|]. cbn [mbind option_bind].
    destruct (IH (with_log (with_wbuf w b) (log_out (lg w) (out_of (quitting (gl w)) o p))) o) as (b' & Hb' & ->); [by rewrite <- Hb in Hm|done|].
    cbn in Hb'. exists b'. split; [congruence|]. unfold log_outs, log_out, with_log, with_wbuf. cbn. rewrite <- app_assoc. by destruct (out_of (quitting (gl w)) o p).
Qed.

(** Packets that fit do not change anything else. *)
Lemma inv_written w o b ps : inv w -> tap w = Some o -> zlen b = zlen (wbuf w) -> Forall (fun p => zlen p <= frame_mtu o) ps -> inv (with_log (with_wbuf w b) (log_outs (lg w) ps)).
Proof.
  intros [I1 I2 I3 I4 I5] Ht Hb Hp. split; cbn; try done.
  - unfold tap_ok in *. cbn. rewrite Ht in *. destruct I2 as [V1 V2 V3 V4 V5 V6]. split; cbn; try done; [lia|by apply list.Forall_app].
  - destruct I3 as [? ? ? ? ?]. by split.
Qed.


Lemma running_tap w o : inv w -> tap w = Some o -> can_write w o.
Proof.
  intros I Ht. pose proof (i_tap _ I) as V. unfold tap_ok in V. rewrite Ht in V. destruct V as [V1 _ _ V4 (pend & _ & _ & Hc) _]. split; [done|]. split; [|pose proof (t_mtu _ _ _ V1); lia].
  intros Hq. destruct (Hc Hq) as [H|H|? H|? H|? H]; by destruct H as (_ & _ & _ & ?).
Qed.

Lemma inv_emits w o ps : inv w -> tap w = Some o -> forallb packet_ok ps = true -> exists w', emits w ps = Some w' /\ inv w' /\ tap w' = Some o.
Proof.
  intros I Ht Hp. destruct (emits_ok ps w o (running_tap w o I Ht) Hp) as (b & Hb & ->). eexists. split; [done|]. split; [|done]. apply (inv_written w o); [done|done|done|apply outs_fit].
Qed.

(** ** The globals *)
Lemma glob_log g x x' on : ticks x' = ticks x -> seconds x' = seconds x -> glob_ok g x on -> glob_ok g x' on.
Proof. intros H1 H2 [G1 G2 G3 G4 G5]. split; rewrite ?H1, ?H2; done. Qed.

Lemma quit_ok g x on : glob_ok g x on -> quitting g = false -> terminate g = Some (with_quitting g) /\ glob_ok (with_quitting g) x on.
Proof. intros [G1 G2 G3 G4 G5] Hq. unfold terminate. rewrite Hq. split; [done|]. split; cbn; try done. intros H. split; [by apply G1|done]. Qed.

Lemma make_listener_ok n a b c : make_listener n a b c = (a && b && c, if a && b && c then n + 1 else n).
Proof. unfold make_listener. destruct a, b, c; cbn; f_equal; lia. Qed.

Lemma init_job_ok g x a : glob_ok g x true -> init_job g = true -> quitting g = false ->
  exists g', lwip_init_job_hadler cfg g a = Some g' /\ init_job g' = false /\ glob_ok g' x true /\
    (quitting g' = negb (l_netif a && l_new a && l_bind a && l_listen a && (negb (DeviceUdp.netif_ip6addr cfg) || l_new6 a && l_bind6 a && l_listen6 a))).
Proof.
  intros [G1 G2 G3 G4 G5] Hj Hq. destruct (G1 Hj) as [_ (N & L & L6)%(fun f => f Hq)]. specialize (G4 eq_refl). rewrite L, L6 in G4. cbn in G4.
  destruct g as [q j nf l l6 pc m4]. cbn in *. subst. unfold lwip_init_job_hadler. cbn. destruct a as [a1 a2 a3 a4 a5 a6 a7]. cbn. destruct a1; cbn; [|eexists; split; [done|]; split; [done|]; split; [by split|done]].
  rewrite make_listener_ok. destruct (a2 && a3 && a4); cbn; [|eexists; split; [done|]; split; [done|]; split; [by split|done]].
  destruct (DeviceUdp.netif_ip6addr cfg); cbn; [|eexists; split; [done|]; split; [done|]; split; [by split|done]].
  rewrite make_listener_ok. destruct (a5 && a6 && a7); cbn; (eexists; split; [done|]; split; [done|]; split; [by split|done]).
Qed.

Lemma timer_ok g x on : glob_ok g x on -> quitting g = false -> exists g' s, tcp_timer_handler g = Some (g', s) /\ quitting g' = false /\ init_job g' = init_job g /\ glob_ok g' (log_tick x s) on.
Proof.
  intros [G1 G2 G3 G4 (T1 & T2 & T3)] Hq. unfold tcp_timer_handler. rewrite Hq. eexists _, _. split; [done|]. cbn. split; [done|]. split; [done|]. split; cbn; try done.
  split; [lia|]. rewrite T2. rewrite Zplus_mod_idemp_l. split; [done|]. rewrite T3. destruct (Z.eqb_spec ((ticks x + 1) mod 4) 0); Z.to_euclidean_division_equations; lia.
Qed.


(** ** The events *)
Lemma running_parts w : inv w -> running w = true -> exists o pend, tap w = Some o /\ quitting (gl w) = false /\ init_job (gl w) = false /\ have_netif (gl w) = true /\ dev_ok w o /\
  d_in (lg w) = map fst (d_fate (lg w)) ++ pend /\ cycle (rx w) o (spb w) (rif w) (pif w) pend.
Proof.
  intros [I1 I2 I3 I4 I5] Hr. unfold running in Hr. apply andb_true_iff in Hr as [[Hq%negb_true_iff Hj%negb_true_iff]%andb_true_iff (o & Ht)%bool_decide_eq_true].
  unfold tap_ok in I2. rewrite Ht in *. pose proof I2 as [V1 V2 V3 V4 (pend & V5 & V5' & V6) V7]. exists o, pend. do 3 (split; [done|]). split; [by apply (g_netif _ _ _ I3)|]. auto.
Qed.

Lemma same_base r o o' w : dev_ok w o -> same_device o o' -> tap_base obj r o' -> forall w', rx w' = r -> wbuf w' = wbuf w -> SPB.input_mtu (spb w') = SPB.input_mtu (spb w) -> SPB.output_mtu (spb w') = SPB.output_mtu (spb w) ->
  zlen (SPB.buf (spb w')) = zlen (SPB.buf (spb w)) -> d_out (lg w') = d_out (lg w) ->
  (exists pend, d_in (lg w') = map fst (d_fate (lg w')) ++ pend /\ (length pend <= 1)%nat /\ (quitting (gl w') = false -> cycle r o' (spb w') (rif w') (pif w') pend)) -> dev_ok w' o'.
Proof.
  intros [V1 V2 (V3 & V3' & V3'') V4 V5 V6] (S1 & S2 & S3) B w' Hr Hb Hi Ho Hz Hd Hp. split; rewrite ?Hr, ?Hb, ?S1, ?S3, ?Hi, ?Ho, ?Hz, ?Hd; done.
Qed.

(** The result of a read, seen from the buffer. *)
Lemma acted_ok w o d a res : inv w -> running w = true -> tap w = Some o -> pif w = Idle -> SPB.input (spb w) = RBusy 0 -> SPB.output (spb w) = PIdle -> d_in (lg w) = map fst (d_fate (lg w)) ->
  answer_ok o a d = true -> read_outcome obj o 0 a res -> exists w', acted (with_rif w Busy) d res = Some w' /\ inv w'.
Proof.
  intros I Hr Ht Hpif Hi Ho Hin Ha (r' & o' & acts & -> & Hs & H). destruct (running_parts w I Hr) as (o1 & pend & Ht' & Hq & Hj & Hn & V & _). rewrite Ht in Ht'. injection Ht' as <-.
  destruct I as [I1 I2 I3 I4 I5]. unfold acted. cbn [mbind option_bind]. rewrite Ht in I3. unfold answer_ok in Ha. apply andb_true_iff in Ha as [Hro Hd].
  assert (tap_waits obj r' o' 0 -> inv (with_dev (with_rif w Busy) r' o')) as Hwait.
  { intros Hw. split; cbn; try done; [apply Hw|]. unfold tap_ok. cbn. eapply (same_base r' o o' w); try done; [apply Hw|]. exists []. cbn. rewrite app_nil_r. split; [done|]. split; [lia|]. intros _. rewrite Hpif. by constructor. }
  destruct a as [n| |].
  - destruct (Z.eqb_spec n 0) as [->|Hn0].
    + destruct H as [-> H]. eexists. split; [done|]. auto.
    + destruct H as [-> H]. cbn in Hro, Hd. apply andb_true_iff in Hro as [Hn1 Hn2]. apply andb_true_iff in Hd as [->%Z.eqb_eq Hby%bool_decide_eq_true]. destruct (v_spb _ _ V) as (M1 & M2 & M3).
      cbn [with_dev with_rif spb]. bool_true. eexists. split; [done|]. split; cbn; try done; [apply H| |by apply (glob_log _ (lg w))]. unfold tap_ok. cbn. eapply (same_base r' o o' w); try done; cbn; [apply H|rewrite zlen_splice by lia; done|].
      assert (sub (splice (SPB.buf (spb w)) 0 d) 0 (zlen d) = d) as Esub by (apply sub_splice_eq; lia).
      exists [d]. rewrite Hin. split; [done|]. split; [done|]. intros _. rewrite Hpif.
      pose proof (cy_got r' o' (SPB.mk (SPB.input (spb w)) (SPB.input_mtu (spb w)) (SPB.output (spb w)) (SPB.output_mtu (spb w)) (splice (SPB.buf (spb w)) 0 d)) (zlen d) H Hi Ho) as Hc. cbn [SPB.buf] in Hc. rewrite Esub in Hc. apply Hc; [|done].
      destruct Hs as (-> & _). lia.
  - destruct H as [-> H]. eexists. split; [done|]. auto.
  - destruct H as [-> H]. unfold device_error_handler. cbn. rewrite Hq. cbn. destruct (quit_ok _ _ _ I3 Hq) as [-> G]. cbn. eexists. split; [done|]. split; cbn; try done; [apply H|].
    unfold tap_ok. cbn. eapply (same_base r' o o' w); try done; [apply H|]. exists []. cbn. rewrite app_nil_r. split; [done|]. split; [lia|done].
Qed.


Lemma step_job_recv w a d : inv w -> enabled w (EJobRecv a d) = true -> exists w', exec w (EJobRecv a d) = Some w' /\ inv w'.
Proof.
  intros I He. cbn [enabled] in He. apply andb_true_iff in He as [[Hr Hp%bool_decide_eq_true]%andb_true_iff Ha]. destruct (running_parts w I Hr) as (o & pend & Ht & Hq & Hj & Hn & V & Hin & C).
  rewrite Ht in Ha. cbn [exec]. rewrite Ht. cbn [mbind option_bind]. rewrite Hp in C. inversion C as [H Hi Ho E1 E2 E3| | | |]. subst pend. rewrite app_nil_r in Hin.
  eapply (acted_ok w o d a); try done. apply tap_recv; [done|]. unfold answer_ok in Ha. by apply andb_true_iff in Ha as [? _].
Qed.

Lemma step_fd w ev a d : inv w -> enabled w (EFd ev a d) = true -> exists w', exec w (EFd ev a d) = Some w' /\ inv w'.
Proof.
  intros I He. cbn [enabled] in He. apply andb_true_iff in He as [[Hr Ha]%andb_true_iff Hw]. destruct (running_parts w I Hr) as (o & pend & Ht & Hq & Hj & Hn & V & Hin & C).
  rewrite Ht in Ha. cbn [exec]. rewrite Ht. cbn [mbind option_bind]. pose proof (v_base _ _ V) as B. rewrite (t_watch _ _ _ B), (t_poll _ _ _ B) in Hw.
  destruct (reported_flags _ _ _ Hw) as (x1 & x2 & x3 & x4 & -> & H1 & H2 & _). destruct (has_reports x1 x2 x3 x4) as [Hh _]. destruct x1.
  - specialize (H1 eq_refl). apply bool_decide_eq_true in H1. remember (rif w) as x eqn:Ex in C. remember (pif w) as y eqn:Ey in C.
    destruct C as [H Hi Ho|H Hi Ho|? H|? H|? H]; try (by destruct H as (_ & _ & Hx & _); rewrite Hx in H1; destruct H1).
    rewrite app_nil_r in Hin. assert (with_rif w Busy = w) as Ew by (destruct w as [? ? ? ? rf]; cbn in Ex; by subst rf). cut (exists w', acted (with_rif w Busy) d (fd_handler (rx w) o (reports true x2 x3 x4) a) = Some w' /\ inv w'); [by rewrite Ew|].
    eapply (acted_ok w o d a); try done. apply tap_fd_read; [done| |done]. unfold answer_ok in Ha. by apply andb_true_iff in Ha as [? _].
  - rewrite tap_fd_other; [|by apply (running_tap w o)|done]. cbn. eexists. split; [done|]. assert (with_dev w (rx w) o = w) as -> by (destruct w; cbn in Ht; by subst). done.
Qed.


Lemma step_recv_done w : inv w -> enabled w ERecvDone = true -> exists w', exec w ERecvDone = Some w' /\ inv w'.
Proof.
  intros I He. cbn [enabled] in He. apply andb_true_iff in He as [Hr Hp]. destruct (running_parts w I Hr) as (o & pend & Ht & Hq & Hj & Hn & V & Hin & C).
  destruct (rif w) as [| | |n] eqn:Erif; try done. inversion C as [| |n' H Hi Ho Hn' Hby E1 E2 E3| |]. subst n' pend. cbn [exec]. rewrite Erif.
  unfold SPB.input_handler_done, PacketPassInterface_Sender_Send. cbn [SPB.output SPB.output_mtu SPB.buf SPB.input SPB.input_mtu]. destruct (v_spb _ _ V) as (M1 & M2 & M3). rewrite Ho, M2. bool_true. bool_true. rewrite (bool_decide_true (is_Some (Some 0))) by (by eexists).
  rewrite orb_true_r. cbn [mbind option_bind]. eexists. split; [done|]. destruct I as [I1 I2 I3 I4 I5]. split; cbn; try done. unfold tap_ok. cbn. rewrite Ht.
  eapply (same_base (rx w) o o w); try done; [apply H|]. eexists. cbn. split; [done|]. split; [done|]. intros _. by apply (cy_send (rx w) o (SPB.mk RIdle (SPB.input_mtu (spb w)) (PBusy (Some 0) n) (frame_mtu o) (SPB.buf (spb w))) n).
Qed.

Lemma step_send_done w : inv w -> enabled w ESendDone = true -> exists w', exec w ESendDone = Some w' /\ inv w'.
Proof.
  intros I He. cbn [enabled] in He. apply andb_true_iff in He as [Hr Hp]. destruct (running_parts w I Hr) as (o & pend & Ht & Hq & Hj & Hn & V & Hin & C).
  destruct (pif w) as [| | |n] eqn:Epif; try done. inversion C as [| | | |n' H Hi Ho E1 E2 E3]. subst n' pend. cbn [exec].
  unfold SPB.output_handler_done, PacketRecvInterface_Receiver_Recv. rewrite Hi. rewrite (bool_decide_true (is_Some (Some 0))) by (by eexists). rewrite orb_true_r. cbn [mbind option_bind default].
  unfold receiver_recv. cbn. rewrite Ht. cbn. eexists. split; [done|]. destruct I as [I1 I2 I3 I4 I5]. rewrite Ht in I3. split; cbn; try done. unfold tap_ok. cbn.
  destruct H as ([B1 B2 B3 B4 B5] & H2 & H3 & H4).
  assert (tap_asked obj (rx w) (with_output o (RBusy 0) (output_packet o)) 0) as Hk by (split; [by split|done]).
  eapply (same_base (rx w) o (with_output o (RBusy 0) (output_packet o)) w); try done. exists []. cbn. split; [done|]. split; [lia|]. intros _. by constructor.
Qed.


Lemma version_spec d : bytes_ok d -> (if zlen d >? 0 then b ← d !! 0%nat; Some (Z.shiftr b 4) else Some 0) = Some (version d).
Proof. intros _. destruct d as [|b d]; [done|]. rewrite zlen_cons. pose proof (zlen_nonneg d). bool_true. done. Qed.

(** Every packet is given away or freed, and by the reason that its header is. *)
Lemma send_fate g o data mem ok len : quitting g = false -> have_netif g = true -> bytes_ok data ->
  exists f, device_read_handler_send cfg g o (PBusy (Some 0) len) data mem ok = Some (PIdle, f, 0) /\ fate_of (data, f).
Proof.
  intros Hq Hn Hb. unfold device_read_handler_send, fate_of. rewrite Hq, Hn. cbn [negb PacketPassInterface_Done mbind option_bind].
  change (process_device_udp_packet (config_of cfg o) data (zlen data)) with (process_device_udp_packet cfg data (zlen data)).
  destruct (process_udp_inside cfg data Hb) as ([s|] & Ep & _); rewrite Ep; cbn [mbind option_bind].
  - eexists. split; [done|]. by eexists.
  - destruct (Z.gtb_spec (zlen data) UINT16_MAX); [eexists; split; [done|]; by eexists|]. destruct mem; cbn [negb]; [|eexists; split; [done|]; by eexists].
    unfold netif_input_func. rewrite version_spec by done. cbn [mbind option_bind]. destruct (Z.eqb_spec (version data) 4).
    { exists (ToLwip false). split; [by destruct ok|by eexists]. }
    destruct (Z.eqb_spec (version data) 6), (DeviceUdp.netif_ip6addr cfg); cbn [andb pbuf_free mbind option_bind].
    { exists (ToLwip true). split; [by destruct ok|by eexists]. }
    all: exists NoVersion; (split; [done|]); eexists; (split; [done|]); cbn; auto.
Qed.

Lemma step_job_send w mem ok outs : inv w -> enabled w (EJobSend mem ok outs) = true -> exists w', exec w (EJobSend mem ok outs) = Some w' /\ inv w'.
Proof.
  intros I He. cbn [enabled] in He. apply andb_true_iff in He as [[Hr Hp%bool_decide_eq_true]%andb_true_iff Ho]. destruct (running_parts w I Hr) as (o & pend & Ht & Hq & Hj & Hn & V & Hin & C).
  cbn [exec]. rewrite Ht. cbn [mbind option_bind]. rewrite Hp in C. inversion C as [| | |n H Hi Ho' Hn' Hby E1 E2 E3|]. subst pend. rewrite Ho'.
  destruct (send_fate (gl w) o (sub (SPB.buf (spb w)) 0 n) mem ok n Hq Hn Hby) as (f & -> & Hf). cbn [mbind option_bind].
  cut (inv (with_log (with_pif (with_spb w (SPB.mk (SPB.input (spb w)) (SPB.input_mtu (spb w)) PIdle (SPB.output_mtu (spb w)) (SPB.buf (spb w)))) (Done 0)) (log_fate (lg w) (sub (SPB.buf (spb w)) 0 n) f 0))).
  { intros I'. by destruct (inv_emits _ o outs I' Ht Ho) as (w' & -> & I'' & _); exists w'. }
  destruct I as [I1 I2 I3 I4 I5]. split; cbn; try done.
  - unfold tap_ok. cbn. rewrite Ht. eapply (same_base (rx w) o o w); try done; [apply H|]. exists []. cbn. rewrite map_app, app_nil_r. split; [done|]. split; [lia|]. intros _. rewrite <- E1. by apply (cy_sent (rx w) o (SPB.mk _ _ PIdle _ _)).
  - by apply (glob_log _ (lg w)).
  - apply list.Forall_app. split; [done|by constructor].
  - lia.
Qed.


(** New globals do not change the device, unless the program ends. *)
Lemma inv_globals w g x : inv w -> glob_ok g x (bool_decide (is_Some (tap w))) -> (quitting g = false -> quitting (gl w) = false) -> d_in x = d_in (lg w) -> d_fate x = d_fate (lg w) -> d_out x = d_out (lg w) -> left x = left (lg w) ->
  inv (with_log (with_gl w g) x).
Proof.
  intros [I1 I2 I3 I4 I5] G Hq H1 H2 H3 H4. split; cbn; rewrite ?H1, ?H2, ?H3, ?H4; try done. unfold tap_ok in *. cbn. destruct (tap w) as [o|]; [|done].
  destruct I2 as [V1 V2 V3 V4 (pend & V5 & V5' & V6) V7]. split; cbn; rewrite ?H1, ?H2, ?H3; try done. exists pend. split; [done|]. split; [done|]. auto.
Qed.
Lemma with_log_same w g : with_log (with_gl w g) (lg w) = with_gl w g.
Proof. done. Qed.

Lemma step_init_job w a outs : inv w -> enabled w (EInitJob a outs) = true -> exists w', exec w (EInitJob a outs) = Some w' /\ inv w'.
Proof.
  intros I He. cbn [enabled] in He. apply andb_true_iff in He as [[Hq%negb_true_iff Hj]%andb_true_iff Ho]. pose proof (i_gl _ I) as G. destruct (g_init _ _ _ G Hj) as [Ht%bool_decide_eq_true _]. destruct Ht as [o Ht]. rewrite Ht in G.
  cbn [exec]. destruct (init_job_ok (gl w) (lg w) a G Hj Hq) as (g & -> & Hj' & G' & _). cbn [mbind option_bind]. rewrite <- with_log_same.
  destruct (inv_emits (with_log (with_gl w g) (lg w)) o outs) as (w' & -> & I' & _); [|done|done|by exists w']. apply inv_globals; try done. by rewrite Ht.
Qed.

Lemma step_timer w outs : inv w -> enabled w (ETimer outs) = true -> exists w', exec w (ETimer outs) = Some w' /\ inv w'.
Proof.
  intros I He. cbn [enabled] in He. apply andb_true_iff in He as [Hr Ho]. destruct (running_parts w I Hr) as (o & pend & Ht & Hq & _). pose proof (i_gl _ I) as G.
  cbn [exec]. destruct (timer_ok (gl w) (lg w) _ G Hq) as (g & s & -> & Hq' & Hj' & G'). cbn [mbind option_bind].
  destruct (inv_emits (with_log (with_gl w g) (log_tick (lg w) s)) o outs) as (w' & -> & I' & _); [|done|done|by exists w']. by apply inv_globals.
Qed.

Lemma step_signal w : inv w -> enabled w ESignal = true -> exists w', exec w ESignal = Some w' /\ inv w'.
Proof.
  intros I Hr. cbn [enabled] in Hr. destruct (running_parts w I Hr) as (o & pend & Ht & Hq & _). cbn [exec]. unfold signal_handler. rewrite Hq. cbn [negb].
  destruct (quit_ok _ _ _ (i_gl _ I) Hq) as [-> G]. cbn [mbind option_bind]. eexists. split; [done|]. rewrite <- with_log_same. by apply inv_globals.
Qed.

Lemma step_output w p : inv w -> enabled w (EOutput p) = true -> exists w', exec w (EOutput p) = Some w' /\ inv w'.
Proof.
  intros I He. cbn [enabled] in He. apply andb_true_iff in He as [[(o & Ht)%bool_decide_eq_true _]%andb_true_iff Hp]. cbn [exec].
  destruct (inv_emits w o [p] I Ht) as (w' & E & I' & _); [cbn; by rewrite Hp|]. cbn [emits] in E. exists w'. split; [|done]. by destruct (emit w p).
Qed.

Lemma addr_ok_spec a : addr_ok_dec a = true -> addr_ok a.
Proof.
  destruct a; cbn; try done.
  - intros [[[? ?]%andb_true_iff ?]%andb_true_iff ?]%andb_true_iff. split; lia.
  - intros [[[?%bool_decide_eq_true ?%Z.eqb_eq]%andb_true_iff ?]%andb_true_iff ?]%andb_true_iff. repeat split; try done; lia.
Qed.

Lemma step_from_relay w l r data n : inv w -> enabled w (EFromRelay l r data n) = true -> exists w', exec w (EFromRelay l r data n) = Some w' /\ inv w'.
Proof.
  intros I He. cbn [enabled] in He. apply andb_true_iff in He as [[[[[[[[Hr Hu]%andb_true_iff Hl%addr_ok_spec]%andb_true_iff Hr'%addr_ok_spec]%andb_true_iff Hip]%andb_true_iff Hty%Z.eqb_eq]%andb_true_iff Hb%bool_decide_eq_true]%andb_true_iff Hn1]%andb_true_iff Hn2].
  assert (is_ip l) as Hip' by (unfold is_ip, is_ip_dec in *; apply orb_true_iff in Hip as [?%Z.eqb_eq|?%Z.eqb_eq]; auto). destruct (running_parts w I Hr) as (o & pend & Ht & Hq & _). cbn [exec]. rewrite Ht. cbn [mbind option_bind].
  destruct (handler_received_total (config_of cfg o) l r data n) as ([p|] & E & _); [done..|lia| |]; rewrite E; cbn [mbind option_bind]; [|by exists w].
  assert (zlen p <= frame_mtu o) as Hz. { assert (0 <= n <= zlen data) as Hn by lia. pose proof (received_fits (config_of cfg o) l r data n p Hl Hr' Hty Hip' Hb Hn E) as X. exact X. }
  destruct (running_tap w o I Ht) as (_ & Hdn & Hm). bool_true. pose proof (zlen_nonneg p). rewrite sub_splice_eq by lia. rewrite tap_send; [|by apply (running_tap w o)|done]. cbn [mbind option_bind]. eexists. split; [done|].
  apply (inv_written w o _ [p]); [done|done| |by constructor]. apply zlen_splice; lia.
Qed.

Lemma step_stop w : inv w -> enabled w EStop = true -> exists w', exec w EStop = Some w' /\ inv w'.
Proof.
  intros I He. cbn [enabled] in He. apply andb_true_iff in He as [(o & Ht)%bool_decide_eq_true Hq]. cbn [exec]. rewrite Ht. cbn [mbind option_bind].
  destruct I as [I1 I2 I3 I4 I5]. unfold tap_ok in I2. rewrite Ht in *. destruct I2 as [V1 V2 V3 V4 V5 V6]. destruct (tap_free_ok obj (kn w) (rx w) o V1) as (k & r & -> & Hio & Hw & _); [by rewrite V2|].
  cbn [mbind option_bind]. eexists. split; [done|]. split; cbn; try done. destruct I3 as [G1 G2 G3 G4 G5]. specialize (G4 eq_refl). split; cbn; try done.
  intros _. split; [done|]. rewrite G4. destruct (listener (gl w)), (listener_ip6 (gl w)); cbn; lia.
Qed.

Lemma step_start w fd mtu nb mem m1 m2 : inv w -> enabled w (EStart fd mtu nb mem m1 m2) = true -> exists w', exec w (EStart fd mtu nb mem m1 m2) = Some w' /\ inv w'.
Proof.
  intros I He. cbn [enabled] in He. apply andb_true_iff in He as [[[[[[Ht%bool_decide_eq_true Hq%negb_true_iff]%andb_true_iff Hfd]%andb_true_iff Hin]%andb_true_iff Hm]%andb_true_iff Hm1]%andb_true_iff Hm2].
  destruct I as [I1 I2 I3 I4 I5]. unfold tap_ok in I2. rewrite Ht in *.
  destruct (tap_init_ok obj (kn w) (rx w) (mk_init_data BTAP_DEV_TUN (INIT_FD fd mtu)) (mk_answers None false None None nb mem) I1 I2) as (k & r & res & E & Hio & _ & _ & Hk & Hfds & Hres).
  { unfold init_ok. cbn. by rewrite Hfd, Hin, Hm. }
  cbn [exec]. rewrite E. cbn [mbind option_bind].
  assert (forall k r, io_ok r -> fd_watch r obj = None -> inv (mkw k r None (spb w) (rif w) (pif w) (wbuf w) (gl w) (lg w))) as Hnone by (by intros k' r' ? ?).
  destruct res as [o|]; [|eexists; split; [done|]; by apply Hnone].
  assert (frame_mtu o = mtu /\ close_fd o = false) as [Eo Ecl].
  { revert E. unfold BTap_Init2, open_device. cbn [init dev_type]. rewrite !(proj2 (Z.geb_le _ _)) by lia. rewrite (bool_decide_false (BTAP_DEV_TUN = BTAP_DEV_TAP)) by done. destruct nb; cbn; [|done]. destruct (fd_add (rx w) obj fd mem) as [[r1 [|]]|]; cbn; intros E; by simplify_eq/=. }
  cbv zeta.
  assert (exists w', ('(k, r) ← BTap_Free k r o; Some (mkw k r None (spb w) (rif w) (pif w) (wbuf w) (gl w) (lg w))) = Some w' /\ inv w') as Hfail.
  { destruct (tap_free_ok obj k r o) as (k' & r' & -> & Hio' & Hw' & _); [apply Hres|by rewrite Ecl|]. eexists. split; [done|]. by apply Hnone. }
  unfold SPB.SinglePacketBuffer_Init, SPB.BAlloc, BTap_GetMTU. rewrite (proj2 (Z.geb_le _ _)) by lia. replace (if frame_mtu o =? 0 then m1 else m1) with m1 by (by case_if). destruct m1 as [b1|]; [|done].
  unfold PacketRecvInterface_Receiver_Recv. rewrite (bool_decide_true (is_Some (Some 0))) by (by eexists). rewrite orb_true_r. cbn [mbind option_bind default].
  destruct m2 as [b2|]; [|done]. apply Z.eqb_eq in Hm1, Hm2. unfold receiver_recv. cbn. eexists. split; [done|]. destruct Hres as ([B1 B2 B3 B4 B5] & H2 & H3 & H4).
  assert (tap_asked obj r (with_output o (RBusy 0) (output_packet o)) 0) as Hask by (split; [by split|done]). split; cbn; try done.
  - unfold tap_ok. cbn. split; cbn; try done; [do 2 (split; [done|]); lia|lia|]. exists []. split; [done|]. split; [cbn; lia|]. intros _. by constructor.
Qed.

Lemma d_step w e : inv w -> enabled w e = true -> exists w', exec w e = Some w' /\ inv w'.
Proof.
  destruct e; eauto using step_start, step_init_job, step_job_recv, step_fd, step_recv_done, step_job_send, step_send_done, step_output, step_from_relay, step_timer, step_signal, step_stop.
Qed.

Lemma d_reach_inv w : reach w -> inv w.
Proof.
  induction 1 as [k r s b I W|w k' r' _ [I1 I2 I3 I4 I5] Hio Hw|w e w' _ IH He E].
  - by split.
  - split; cbn; try done. unfold tap_ok in *. cbn. destruct (tap w) as [o|]; [|congruence]. destruct I2 as [V1 V2 V3 V4 (pend & V5 & V5' & V6) V7]. split; cbn; try done.
    + destruct V1. split; [done..| |done]. congruence.
    + exists pend. split; [done|]. split; [done|]. intros Hq. destruct (V6 Hq) as [H|H|? H|? H|? H]; constructor; try done; (destruct H as (B & ?); split; [|done]); destruct B; (split; [done..| |done]; congruence).
  - destruct (d_step w e IH He) as (w1 & E1 & I1). congruence.
Qed.


(** ** Theorems *)


(** The stages of a packet on its way from the device: asked for, waited for in the reactor,
    read, given to the handler, taken by it; and the event that comes next. *)
Definition stages (w : world) : list bool :=
  [bool_decide (rif w = Operation); bool_decide (fd_watch (rx w) obj = Some (waits true false)); match rif w with Done _ => true | _ => false end;
   bool_decide (pif w = Operation); match pif w with Done _ => true | _ => false end].
Definition next (w : world) : option event :=
  match stages w with
  | [true; _; _; _; _] => Some (EJobRecv READ_AGAIN [])
  | [_; true; _; _; _] => Some (EFd BREACTOR_READ READ_AGAIN [])
  | [_; _; true; _; _] => Some ERecvDone
  | [_; _; _; true; _] => Some (EJobSend true true [])
  | [_; _; _; _; true] => Some ESendDone
  | _ => None
  end.

Lemma cycle_stage w o pend : running w = true -> tap w = Some o -> cycle (rx w) o (spb w) (rif w) (pif w) pend ->
  count_occ bool_dec (stages w) true = 1%nat /\ exists e, next w = Some e /\ enabled w e = true.
Proof.
  intros Hr Ht C. assert (answer_ok o READ_AGAIN [] = true) as Ha by done. remember (rif w) as x eqn:Ex in C. remember (pif w) as y eqn:Ey in C. symmetry in Ex, Ey.
  assert (forall r, fd_watch (rx w) obj = Some (poll_events o) -> poll_events o = waits (bool_decide (is_Some (output_packet o))) false -> output_packet o = r ->
    bool_decide (fd_watch (rx w) obj = Some (waits true false)) = bool_decide (is_Some r)) as Hf.
  { intros r -> -> ->. destruct (bool_decide (is_Some r)); by vm_compute. }
  destruct C as [H Hi Ho|H Hi Ho|n H|n H|n H]; destruct H as (B & _ & Hp & _); pose proof (Hf _ (t_watch _ _ _ B) (t_poll _ _ _ B) Hp) as F; unfold next, stages; rewrite Ex, Ey, F.
  - split; [by vm_compute|]. eexists. split; [by vm_compute|]. cbn [enabled]. by rewrite Hr, Ex, Ht, Ha.
  - split; [by vm_compute|]. eexists. split; [by vm_compute|]. cbn [enabled]. rewrite Hr, Ht, Ha. rewrite (t_watch _ _ _ B), (t_poll _ _ _ B), Hp. by vm_compute.
  - split; [by vm_compute|]. eexists. split; [by vm_compute|]. cbn [enabled]. by rewrite Hr, Ex.
  - split; [by vm_compute|]. eexists. split; [by vm_compute|]. cbn [enabled]. by rewrite Hr, Ey.
  - split; [by vm_compute|]. eexists. split; [by vm_compute|]. cbn [enabled]. by rewrite Hr, Ey.
Qed.

(** C15: packets from the device are handled one after the other, and reading never stops.
    Those that were handled are those that the kernel gave, in order, but for at most one that is on its way; each went to the UDP
    relay if it is a datagram for it, else to lwIP by the version in its first byte,
    unless there was no memory or it is larger than lwIP can take, or it has another version.
    While the program runs, exactly one of the stages of a packet is pending, and its event can happen:
    there is never a packet asked for twice, nor a descriptor that nobody waits for.  The
    functions of every second are called on each fourth call of the timer. *)
Theorem tun_device_path w o : reach w -> tap w = Some o ->
  (exists pend, d_in (lg w) = map fst (d_fate (lg w)) ++ pend /\ (length pend <= 1)%nat) /\ Forall fate_of (d_fate (lg w)) /\
  (running w = true -> count_occ bool_dec (stages w) true = 1%nat /\ exists e, next w = Some e /\ enabled w e = true) /\
  seconds (lg w) = ticks (lg w) / 4.
Proof.
  intros I%d_reach_inv Ht. split.
  { pose proof (i_tap _ I) as V. unfold tap_ok in V. rewrite Ht in V. destruct (v_path _ _ V) as (pend & H1 & H2 & _). by exists pend. }
  split; [apply I|]. split; [|apply (g_time _ _ _ (i_gl _ I))]. intros Hr. destruct (running_parts w I Hr) as (o' & pend & Ht' & _ & _ & _ & _ & _ & C). rewrite Ht in Ht'. injection Ht' as <-. by apply (cycle_stage w o pend).
Qed.

(** C28: a packet of lwIP is written to the device as one packet, the contents of its buffers in
    order, unless the program is ending or the packet is larger than the MTU; then it is dropped.  Nothing else changes but
    the write buffer, which keeps its size. *)
Theorem tun_device_output w o p : reach w -> tap w = Some o -> p <> [] ->
  exists b, zlen b = zlen (wbuf w) /\
    exec w (EOutput p) = Some (with_log (with_wbuf w b) (log_outs (lg w) (if negb (quitting (gl w)) && (zlen (concat p) <=? BTap_GetMTU o) then [concat p] else []))).
Proof.
  intros I%d_reach_inv Ht Hp. assert (forallb packet_ok [p] = true) as Hok by (cbn; unfold packet_ok; by rewrite bool_decide_false).
  destruct (emits_ok [p] w o (running_tap w o I Ht) Hok) as (b & Hb & E). exists b. split; [done|]. cbn [exec emits] in *. destruct (emit w p) as [w'|]; [|done]. cbn in E. rewrite E. do 2 f_equal.
  unfold out_of, BTap_GetMTU. destruct (quitting (gl w)); [done|]. cbn [negb andb]. by destruct (zlen (concat p) <=? frame_mtu o).
Qed.

(** A run of events. *)
Fixpoint run (w : world) (es : list event) : option world :=
  match es with
  | [] => Some w
  | e :: es => if enabled w e then w ← exec w e; run w es else None
  end.
Lemma td_run_reach es : forall w w', reach w -> run w es = Some w' -> reach w'.
Proof.
  induction es as [|e es IH]; intros w w' Hr; cbn [run]; [by intros [= <-]|]. destruct (enabled w e) eqn:He; [|done].
  destruct (exec w e) as [w1|] eqn:E; [|done]. apply IH. by eapply reach_step.
Qed.

End World.

(** ** A run in the reactor of the program

    The device is made with an MTU of 60, and nothing can be read at first.  Then there are a datagram for the
    relay, a packet of IPv4 for lwIP and one with an unknown version. *)
Definition td_fill (n : Z) : option (list Z) := Some (replicate (Z.to_nat n) 0).
Definition td_start : world (R := BReactor.t) := mkw (mk_kernel {[5]} ∅) initial None (SPB.mk RIdle 0 PIdle 0 []) Idle Idle [] no_globals no_log.
Definition td_pass (d : list Z) : list event := [EFd BREACTOR_READ (READ_BYTES (zlen d)) d; ERecvDone; EJobSend true true []; ESendDone; EJobRecv READ_AGAIN []].
Definition td_ip4 : list Z := [69; 0; 0; 4].
Definition td_events : list event :=
  [EStart 5 60 true true (td_fill 60) (td_fill 60); EInitJob (mk_lwip true true true true true true true) []; EJobRecv READ_AGAIN []] ++
  td_pass demo_pkt ++ td_pass td_ip4 ++ td_pass [0; 1] ++ [ETimer [[[69; 1]; [2]]]; EFd BREACTOR_READ (READ_BYTES 4) td_ip4].
Definition td_run (w : world (R := BReactor.t)) (es : list event) : option (world (R := BReactor.t)) := run demo_cfg 1 w es.
Definition td_demo : world (R := BReactor.t) := Eval vm_compute in default td_start (td_run td_start td_events).
Definition td_tap : BTap := Eval vm_compute in default (mk 0 RIdle None false 0 1 0 false) (tap td_demo).

Lemma td_demo_reach : reach demo_cfg 1 td_demo.
Proof. apply (td_run_reach demo_cfg 1 td_events td_start); [|by vm_compute]. constructor; [apply reactor_initial_ok|by vm_compute]. Qed.


Lemma tun_device_path_witness : Forall (fate_of demo_cfg) (d_fate (lg td_demo)) /\ length (d_fate (lg td_demo)) = 3%nat /\ d_in (lg td_demo) = [demo_pkt; td_ip4; [0; 1]; td_ip4] /\
  count_occ bool_dec (stages 1 td_demo) true = 1%nat /\ next 1 td_demo = Some ERecvDone.
Proof.
  destruct (tun_device_path demo_cfg 1 td_demo td_tap td_demo_reach) as (_ & H2 & H3 & _); [by vm_compute|]. split; [exact H2|]. split; [by vm_compute|]. split; [by vm_compute|].
  split; [apply H3; by vm_compute|by vm_compute].
Defined.

Lemma tun_device_output_witness : exists b, zlen b = 60 /\
  exec demo_cfg 1 td_demo (EOutput [[96; 1]; [2; 3]; []; [4]]) = Some (with_log (with_wbuf td_demo b) (log_outs (lg td_demo) [[96; 1; 2; 3; 4]])).
Proof. apply (tun_device_output demo_cfg 1 td_demo td_tap [[96; 1]; [2; 3]; []; [4]] td_demo_reach); [by vm_compute|done]. Defined.

(** A packet that is larger than the MTU is dropped when its second buffer does not fit. *)
Example output_too_large : forall w, exec demo_cfg 1 td_demo (EOutput [replicate 60 1; [2]]) = Some w -> d_out (lg w) = d_out (lg td_demo).
Proof. intros w. vm_compute. by intros [= <-]. Qed.

(** A report of [BREACTOR_ERROR] or [BREACTOR_HUP] alone is ignored and leaves the wait in place: the descriptor is reported again at once. *)
Example device_hup_ignored : forall w, td_run td_demo [ERecvDone; EJobSend true true []; ESendDone; EJobRecv READ_AGAIN []] = Some w ->
  exec demo_cfg 1 w (EFd BREACTOR_HUP READ_AGAIN []) = Some w /\ reported (waits true false) BREACTOR_HUP = true.
Proof. intros w. vm_compute. by intros [= <-]. Qed.

End TunDeviceInv.
