(* ===== verification/BConnection.v ===== *)
(** * Stream sockets (system/BConnection_unix.c, system/BConnection_unix.h, misc/debugerror.h,
    misc/nonblocking.h)

    A listener accepts connections, a connector makes one, and a connection transfers bytes
    through the stream interfaces of its user.  All three live in a reactor, of which they use the
    file descriptor and limit functions ([IoReactor]); the state of their jobs is kept as flags.
    A handler tells what it did: the data it passed to or took from the kernel, the operations it
    completed, and the user's handler it called. *)

From stdpp Require Import gmap.
From S2P Require Import Prelude FlowView BAddr BReactor IoReactor Sockets.
Import BReactor.

Module BConnection.

Definition MAX_UNIX_SOCKET_PATH : Z := 200.
Definition BCONNECTION_SEND_LIMIT : Z := 2.
Definition BCONNECTION_RECV_LIMIT : Z := 2.

Inductive send_state_t := SEND_STATE_NOT_INITED | SEND_STATE_READY | SEND_STATE_BUSY.
Inductive recv_state_t := RECV_STATE_NOT_INITED | RECV_STATE_READY | RECV_STATE_BUSY | RECV_STATE_INITED_CLOSED | RECV_STATE_NOT_INITED_CLOSED.
#[export] Instance send_state_eq_dec : EqDecision send_state_t.
Proof. solve_decision. Defined.
#[export] Instance recv_state_eq_dec : EqDecision recv_state_t.
Proof. solve_decision. Defined.

(** ** Addresses *)

(** [struct unix_addr]: the bytes of the union. *)
Record unix_addr := mk_unix { unix_len : Z; unix_bytes : list Z }.
Definition unix_addr_size : Z := offsetof_sun_path + MAX_UNIX_SOCKET_PATH + 1.

(** [inl tt]: the result 0.  The path is without its final zero, which [strcpy] writes too. *)
Definition build_unix_address (socket_path : list Z) : option (unit + unix_addr) :=
  if zlen socket_path >? MAX_UNIX_SOCKET_PATH then Some (inl tt) else
  let bytes := [AF_UNIX; 0] ++ socket_path ++ [0] in
  ASSERT zlen bytes <=? unix_addr_size;
  Some (inr (mk_unix (offsetof_sun_path + zlen socket_path + 1) bytes)).

Definition addr_socket_to_sys (addr : BAddr) : option sys_addr :=
  match addr with
  | ADDR_IPV4 ip port => Some (mk_sys sizeof_sockaddr_in (SA_IN port ip))
  | ADDR_IPV6 ip port => Some (mk_sys sizeof_sockaddr_in6 (SA_IN6 port 0 (take 16 ip) 0))
  | _ => None
  end.

Definition addr_sys_to_socket (addr : sys_addr) : option BAddr :=
  match sys_sa addr with
  | SA_IN sin_port s_addr => ASSERT sys_len addr =? sizeof_sockaddr_in; Some (ADDR_IPV4 s_addr sin_port)
  | SA_IN6 sin6_port _ s6_addr _ => ASSERT sys_len addr =? sizeof_sockaddr_in6; Some (ADDR_IPV6 (take 16 s6_addr) sin6_port)
  | _ => Some ADDR_NONE
  end.

Definition BConnection_AddressSupported (addr : BAddr) : bool := (addr_type addr =? 1) || (addr_type addr =? 2).

Inductive BLisCon_from := BLISCON_FROM_ADDR (addr : BAddr) | BLISCON_FROM_UNIX (socket_path : list Z).

(** ** State *)

(** [l_bfd], [c_bfd], [bfd]: the addresses of the [BFileDescriptor] members. *)
Record BListener := mk_listener { unix_socket_path : option (list Z); l_fd : Z; l_bfd : ptr; default_job : bool }.
Record BConnector := mk_connector { job : bool; c_fd : Z; connected : bool; have_bfd : bool; c_bfd : ptr }.

(** [d_err]: whether an error was reported; [handler]: whether it is set; [send_limit],
    [recv_limit]: addresses. *)
Record BConnection := mk {
  handler : bool;
  fd : Z;
  close_fd : bool;
  is_hupd : bool;
  bfd : ptr;
  wait_events : Z;
  send_limit : ptr;
  send_iface : spass_view;
  send_job : bool;
  send_busy_data : Z;
  send_busy_data_len : Z;
  send_state : send_state_t;
  recv_limit : ptr;
  recv_iface : srecv_view;
  recv_job : bool;
  recv_busy_data : Z;
  recv_busy_data_avail : Z;
  recv_state : recv_state_t;
  d_err : bool;
}.
Definition with_handler (o : BConnection) (h : bool) : BConnection :=
  mk h (fd o) (close_fd o) (is_hupd o) (bfd o) (wait_events o) (send_limit o) (send_iface o) (send_job o) (send_busy_data o) (send_busy_data_len o) (send_state o)
    (recv_limit o) (recv_iface o) (recv_job o) (recv_busy_data o) (recv_busy_data_avail o) (recv_state o) (d_err o).
Definition with_wait (o : BConnection) (hup : bool) (ev : Z) : BConnection :=
  mk (handler o) (fd o) (close_fd o) hup (bfd o) ev (send_limit o) (send_iface o) (send_job o) (send_busy_data o) (send_busy_data_len o) (send_state o)
    (recv_limit o) (recv_iface o) (recv_job o) (recv_busy_data o) (recv_busy_data_avail o) (recv_state o) (d_err o).
Definition with_send (o : BConnection) (i : spass_view) (j : bool) (s : send_state_t) : BConnection :=
  mk (handler o) (fd o) (close_fd o) (is_hupd o) (bfd o) (wait_events o) (send_limit o) i j (send_busy_data o) (send_busy_data_len o) s
    (recv_limit o) (recv_iface o) (recv_job o) (recv_busy_data o) (recv_busy_data_avail o) (recv_state o) (d_err o).
Definition with_send_data (o : BConnection) (d len : Z) : BConnection :=
  mk (handler o) (fd o) (close_fd o) (is_hupd o) (bfd o) (wait_events o) (send_limit o) (send_iface o) (send_job o) d len (send_state o)
    (recv_limit o) (recv_iface o) (recv_job o) (recv_busy_data o) (recv_busy_data_avail o) (recv_state o) (d_err o).
Definition with_recv (o : BConnection) (i : srecv_view) (j : bool) (s : recv_state_t) : BConnection :=
  mk (handler o) (fd o) (close_fd o) (is_hupd o) (bfd o) (wait_events o) (send_limit o) (send_iface o) (send_job o) (send_busy_data o) (send_busy_data_len o) (send_state o)
    (recv_limit o) i j (recv_busy_data o) (recv_busy_data_avail o) s (d_err o).
Definition with_recv_data (o : BConnection) (d avail : Z) : BConnection :=
  mk (handler o) (fd o) (close_fd o) (is_hupd o) (bfd o) (wait_events o) (send_limit o) (send_iface o) (send_job o) (send_busy_data o) (send_busy_data_len o) (send_state o)
    (recv_limit o) (recv_iface o) (recv_job o) d avail (recv_state o) (d_err o).
Definition with_err (o : BConnection) : BConnection :=
  mk (handler o) (fd o) (close_fd o) (is_hupd o) (bfd o) (wait_events o) (send_limit o) (send_iface o) (send_job o) (send_busy_data o) (send_busy_data_len o) (send_state o)
    (recv_limit o) (recv_iface o) (recv_job o) (recv_busy_data o) (recv_busy_data_avail o) (recv_state o) true.

Section Reactor.
Context {R : Type} `{!IoReactor R}.

(** ** Listener *)

(** [a_strdup], [a_nonblock], [a_bind], [a_listen], [a_mem]: whether the call succeeds; [a_unlink]:
    whether the old socket file was removed, [None] for an error other than [ENOENT]; [a_unlink2]:
    whether the socket file is removed after a failure. *)
Record listen_answers := mk_listen {
  a_strdup : bool; a_socket : option Z; a_nonblock : bool; a_unlink : option bool; a_bind : bool; a_listen : bool; a_mem : bool; a_unlink2 : bool }.

(** The labels of the function. *)
Definition listener_fail3 (k : kernel) (r : R) (from : BLisCon_from) (n : Z) (a : listen_answers) : option (kernel * R * option BListener) :=
  let k := match from with BLISCON_FROM_UNIX path => sys_unlink k path (a_unlink2 a) | _ => k end in
  k ← sys_close k n; Some (k, r, None).

Definition BListener_InitFrom (k : kernel) (r : R) (obj : ptr) (from : BLisCon_from) (a : listen_answers) : option (kernel * R * option BListener) :=
  let path := match from with BLISCON_FROM_UNIX p => Some p | BLISCON_FROM_ADDR _ => None end in
  if bool_decide (is_Some path) && negb (a_strdup a) then Some (k, r, None) else
  ok ← match from with
    | BLISCON_FROM_UNIX p => u ← build_unix_address p; Some (match u with inr _ => true | inl _ => false end)
    | BLISCON_FROM_ADDR addr => if negb (BConnection_AddressSupported addr) then Some false else _ ← addr_socket_to_sys addr; Some true
    end;
  if negb (ok : bool) then Some (k, r, None) else
  let k := new_fd k (a_socket a) in
  match a_socket a with
  | None => Some (k, r, None)
  | Some n =>
      let fail2 k := k ← sys_close k n; Some (k, r, None) in
      if negb (a_nonblock a) then fail2 k else
      match (match path with Some p => match a_unlink a with Some b => Some (sys_unlink k p b) | None => None end | None => Some k end) with
      | None => fail2 k
      | Some k =>
          if negb (a_bind a) then fail2 k else
          let k := match path with Some p => sys_bind_file k p | None => k end in
          if negb (a_listen a) then listener_fail3 k r from n a else
          '(r, res) ← fd_add r obj n (a_mem a);
          if negb (res : bool) then listener_fail3 k r from n a else
          r ← fd_set_events r obj BREACTOR_READ;
          Some (k, r, Some (mk_listener path n obj false))
      end
  end.

(** [ok]: whether the socket file could be removed. *)
Definition BListener_Free (k : kernel) (r : R) (o : BListener) (ok : bool) : option (kernel * R) :=
  r ← fd_remove r (l_bfd o);
  k ← sys_close k (l_fd o);
  Some (match unix_socket_path o with Some p => sys_unlink k p ok | None => k end, r).

(** The user's handler is called then. *)
Definition listener_fd_handler (o : BListener) (events : Z) : BListener := mk_listener (unix_socket_path o) (l_fd o) (l_bfd o) true.

(** The job is not set any more when it runs.  [a]: the answer of [accept]. *)
Definition listener_default_job_handler (k : kernel) (o : BListener) (a : option Z) : option (kernel * BListener) :=
  let o := mk_listener (unix_socket_path o) (l_fd o) (l_bfd o) false in
  match a with
  | None => Some (k, o)
  | Some n => k ← sys_close (new_fd k (Some n)) n; Some (k, o)
  end.

(** ** Connector *)
Inductive connect_answer := CONNECT_DONE | CONNECT_INPROGRESS | CONNECT_FAILED.
Record connect_answers := mk_connect { c_socket : option Z; c_nonblock : bool; c_connect : connect_answer; c_mem : bool }.

Definition BConnector_InitFrom (k : kernel) (r : R) (obj : ptr) (from : BLisCon_from) (a : connect_answers) : option (kernel * R * option BConnector) :=
  ok ← match from with
    | BLISCON_FROM_UNIX p => u ← build_unix_address p; Some (match u with inr _ => true | inl _ => false end)
    | BLISCON_FROM_ADDR addr => if negb (BConnection_AddressSupported addr) then Some false else _ ← addr_socket_to_sys addr; Some true
    end;
  if negb (ok : bool) then Some (k, r, None) else
  let k := new_fd k (c_socket a) in
  match c_socket a with
  | None => Some (k, r, None)
  | Some n =>
      let fail2 := k ← sys_close k n; Some (k, r, None) in
      if negb (c_nonblock a) then fail2 else
      match c_connect a with
      | CONNECT_FAILED => fail2
      | CONNECT_INPROGRESS =>
          '(r, res) ← fd_add r obj n (c_mem a);
          if negb (res : bool) then k ← sys_close k n; Some (k, r, None) else
          r ← fd_set_events r obj BREACTOR_WRITE;
          Some (k, r, Some (mk_connector false n false true obj))
      | CONNECT_DONE => Some (k, r, Some (mk_connector true n true false obj))
      end
  end.

Definition BConnector_Free (k : kernel) (r : R) (o : BConnector) : option (kernel * R) :=
  r ← (if have_bfd o then fd_remove r (c_bfd o) else Some r);
  k ← (if negb (c_fd o =? -1) then sys_close k (c_fd o) else Some k);
  Some (k, r).

(** [so_error]: the value of [SO_ERROR], [None] when [getsockopt] fails.  The result has the
    argument [is_error] of the call of the user's handler. *)
Definition connector_fd_handler (r : R) (o : BConnector) (events : Z) (so_error : option Z) : option (R * BConnector * bool) :=
  ASSERT c_fd o >=? 0;
  ASSERT negb (connected o);
  ASSERT have_bfd o;
  r ← fd_remove r (c_bfd o);
  let conn := match so_error with Some result => result =? 0 | None => false end in
  let o := mk_connector (job o) (c_fd o) conn false (c_bfd o) in
  Some (r, o, negb (connected o)).

Definition connector_job_handler (o : BConnector) : option (BConnector * bool) :=
  let o := mk_connector false (c_fd o) (connected o) (have_bfd o) (c_bfd o) in
  ASSERT c_fd o >=? 0;
  ASSERT connected o;
  ASSERT negb (have_bfd o);
  Some (o, false).

(** ** Connection *)

(** [WTook data n]: the kernel took [n] bytes at the address [data], with which [write] was called; [RGave data n]: it
    wrote [n] bytes at the address [data], with which [read] was called; [SendDone], [RecvDone]: the user's operation is completed
    with [n] bytes; [Event]: the user's handler is called. *)
Inductive con_event := BCONNECTION_EVENT_ERROR | BCONNECTION_EVENT_RECVCLOSED.
Inductive action := WTook (data n : Z) | RGave (data n : Z) | SendDone (n : Z) | RecvDone (n : Z) | Event (e : con_event).

Inductive io_answer := IO_BYTES (n : Z) | IO_AGAIN | IO_ERROR.

Definition connection_report_error (r : R) (o : BConnection) : option (R * BConnection * list action) :=
  ASSERT negb (d_err o);
  ASSERT handler o;
  Some (r, with_err o, [Event BCONNECTION_EVENT_ERROR]).

Definition wait_for (r : R) (o : BConnection) (ev : Z) : option (R * BConnection * list action) :=
  let o := with_wait o (is_hupd o) (Z.lor (wait_events o) ev) in
  r ← fd_set_events r (bfd o) (wait_events o);
  Some (r, o, []).

Definition connection_send (r : R) (o : BConnection) (a : io_answer) : option (R * BConnection * list action) :=
  ASSERT negb (d_err o);
  ASSERT bool_decide (send_state o = SEND_STATE_BUSY);
  '(r, go) ← (if negb (is_hupd o) then lim_increment r (send_limit o) else Some (r, true));
  if negb (go : bool) then wait_for r o BREACTOR_WRITE else
  match a with
  | IO_AGAIN => if negb (is_hupd o) then wait_for r o BREACTOR_WRITE else connection_report_error r o
  | IO_ERROR => connection_report_error r o
  | IO_BYTES bytes =>
      ASSERT bytes >? 0;
      ASSERT bytes <=? send_busy_data_len o;
      i ← StreamPassInterface_Done (send_iface o) bytes;
      Some (r, with_send o i (send_job o) SEND_STATE_READY, [WTook (send_busy_data o) bytes; SendDone bytes])
  end.

Definition connection_recv (r : R) (o : BConnection) (a : io_answer) : option (R * BConnection * list action) :=
  ASSERT negb (d_err o);
  ASSERT bool_decide (recv_state o = RECV_STATE_BUSY);
  '(r, go) ← (if negb (is_hupd o) then lim_increment r (recv_limit o) else Some (r, true));
  if negb (go : bool) then wait_for r o BREACTOR_READ else
  match a with
  | IO_AGAIN => if negb (is_hupd o) then wait_for r o BREACTOR_READ else connection_report_error r o
  | IO_ERROR => connection_report_error r o
  | IO_BYTES bytes =>
      if bytes =? 0 then
        ASSERT handler o;
        Some (r, with_recv o (recv_iface o) (recv_job o) RECV_STATE_INITED_CLOSED, [Event BCONNECTION_EVENT_RECVCLOSED])
      else
        ASSERT bytes >? 0;
        ASSERT bytes <=? recv_busy_data_avail o;
        i ← StreamRecvInterface_Done (recv_iface o) bytes;
        Some (r, with_recv o i (recv_job o) RECV_STATE_READY, [RGave (recv_busy_data o) bytes; RecvDone bytes])
  end.

(** [a]: the answer to the one [write] or [read] made. *)
Definition connection_fd_handler (r : R) (o : BConnection) (events : Z) (a : io_answer) : option (R * BConnection * list action) :=
  ASSERT negb (d_err o);
  ASSERT negb (is_hupd o);
  let o := with_wait o (is_hupd o) (Z.ldiff (wait_events o) events) in
  r ← fd_set_events r (bfd o) (wait_events o);
  '(r, o) ← (if has events BREACTOR_HUP then r ← fd_remove r (bfd o); Some (r, with_wait o true (wait_events o)) else Some (r, o));
  let failed := has events (Z.lor BREACTOR_ERROR BREACTOR_HUP) in
  let busy_send := bool_decide (send_state o = SEND_STATE_BUSY) in
  let have_send := has events BREACTOR_WRITE || (failed && busy_send) in
  ASSERT negb have_send || busy_send;
  let busy_recv := bool_decide (recv_state o = RECV_STATE_BUSY) in
  let have_recv := has events BREACTOR_READ || (failed && busy_recv) in
  ASSERT negb have_recv || busy_recv;
  if have_send then
    let o := if have_recv then with_recv o (recv_iface o) true (recv_state o) else o in
    connection_send r o a
  else if have_recv then connection_recv r o a
  else if negb (is_hupd o) then connection_report_error r o
  else Some (r, o, []).

(** The job is not set any more when it runs. *)
Definition connection_send_job_handler (r : R) (o : BConnection) (a : io_answer) : option (R * BConnection * list action) :=
  let o := with_send o (send_iface o) false (send_state o) in
  ASSERT negb (d_err o);
  ASSERT bool_decide (send_state o = SEND_STATE_BUSY);
  connection_send r o a.
Definition connection_recv_job_handler (r : R) (o : BConnection) (a : io_answer) : option (R * BConnection * list action) :=
  let o := with_recv o (recv_iface o) false (recv_state o) in
  ASSERT negb (d_err o);
  ASSERT bool_decide (recv_state o = RECV_STATE_BUSY);
  connection_recv r o a.

Definition connection_send_if_handler_send (r : R) (o : BConnection) (data data_len : Z) (a : io_answer) : option (R * BConnection * list action) :=
  ASSERT negb (d_err o);
  ASSERT bool_decide (send_state o = SEND_STATE_READY);
  ASSERT data_len >? 0;
  let o := with_send_data o data data_len in
  let o := with_send o (send_iface o) (send_job o) SEND_STATE_BUSY in
  connection_send r o a.
Definition connection_recv_if_handler_recv (r : R) (o : BConnection) (data data_avail : Z) (a : io_answer) : option (R * BConnection * list action) :=
  ASSERT negb (d_err o);
  ASSERT bool_decide (recv_state o = RECV_STATE_READY);
  ASSERT data_avail >? 0;
  let o := with_recv_data o data data_avail in
  let o := with_recv o (recv_iface o) (recv_job o) RECV_STATE_BUSY in
  connection_recv r o a.

(** What a connection is made from; a listener or connector changes. *)
Inductive BConnection_source := SOURCE_LISTENER (l : BListener) | SOURCE_CONNECTOR (c : BConnector) | SOURCE_PIPE (pipefd : Z) (close_it : bool).

(** [i_accept]: the answer of [accept] with the address it returns; [i_nonblock], [i_mem]: whether
    the call succeeds. *)
Record init_answers := mk_init { i_accept : option (Z * sys_addr); i_nonblock : bool; i_mem : bool }.

(** The descriptor, whether it is to be closed, the changed source, and the address of the peer;
    [None] for it when the descriptor could not be had ([fail0]), and the flag for whether it is
    non-blocking ([fail1] otherwise). *)
Definition source_fd (k : kernel) (source : BConnection_source) (a : init_answers) :
    option (kernel * BConnection_source * option (Z * bool * bool * BAddr)) :=
  match source with
  | SOURCE_LISTENER l =>
      let s := SOURCE_LISTENER (mk_listener (unix_socket_path l) (l_fd l) (l_bfd l) false) in
      match i_accept a with
      | None => Some (k, s, None)
      | Some (n, sa) =>
          let k := new_fd k (Some n) in
          if negb (i_nonblock a) then Some (k, s, Some (n, true, false, ADDR_NONE)) else
          addr ← addr_sys_to_socket sa;
          Some (k, s, Some (n, true, true, addr))
      end
  | SOURCE_CONNECTOR c =>
      Some (k, SOURCE_CONNECTOR (mk_connector (job c) (-1) (connected c) (have_bfd c) (c_bfd c)), Some (c_fd c, true, true, ADDR_NONE))
  | SOURCE_PIPE pipefd close_it => Some (k, source, Some (pipefd, close_it, i_nonblock a, ADDR_NONE))
  end.

Definition BConnection_Init (k : kernel) (r : R) (obj slim rlim : ptr) (source : BConnection_source) (a : init_answers) :
    option (kernel * R * BConnection_source * option (BConnection * BAddr)) :=
  ASSERT match source with
    | SOURCE_LISTENER l => default_job l
    | SOURCE_CONNECTOR c => (c_fd c >=? 0) && connected c && negb (have_bfd c) && negb (job c)
    | SOURCE_PIPE pipefd _ => pipefd >=? 0
    end;
  '(k, source, res) ← source_fd k source a;
  match res with
  | None => Some (k, r, source, None)
  | Some (n, cl, nb, addr) =>
      let fail1 k (r : R) := k ← (if (cl : bool) then sys_close k n else Some k); Some (k, r, source, None) in
      if negb (nb : bool) then fail1 k r else
      '(r, res) ← fd_add r obj n (i_mem a);
      if negb (res : bool) then fail1 k r else
      r ← lim_init r slim BCONNECTION_SEND_LIMIT;
      r ← lim_init r rlim BCONNECTION_RECV_LIMIT;
      let o := mk true n cl false obj 0 slim SPIdle false 0 0 SEND_STATE_NOT_INITED rlim SRIdle false 0 0 RECV_STATE_NOT_INITED false in
      Some (k, r, source, Some (o, addr))
  end.

Definition BConnection_Free (k : kernel) (r : R) (o : BConnection) : option (kernel * R) :=
  ASSERT bool_decide (send_state o = SEND_STATE_NOT_INITED);
  ASSERT bool_decide (recv_state o = RECV_STATE_NOT_INITED) || bool_decide (recv_state o = RECV_STATE_NOT_INITED_CLOSED);
  r ← lim_free r (recv_limit o);
  r ← lim_free r (send_limit o);
  r ← (if negb (is_hupd o) then fd_remove r (bfd o) else Some r);
  k ← (if close_fd o then sys_close k (fd o) else Some k);
  Some (k, r).

Definition BConnection_SetHandlers (o : BConnection) (h : bool) : BConnection := with_handler o h.

Definition BConnection_SendAsync_Init (o : BConnection) : option BConnection :=
  ASSERT negb (d_err o);
  ASSERT bool_decide (send_state o = SEND_STATE_NOT_INITED);
  Some (with_send o SPIdle false SEND_STATE_READY).

Definition BConnection_SendAsync_Free (r : R) (o : BConnection) : option (R * BConnection) :=
  ASSERT bool_decide (send_state o = SEND_STATE_READY) || bool_decide (send_state o = SEND_STATE_BUSY);
  '(r, o) ← (if negb (is_hupd o) then
      let o := with_wait o (is_hupd o) (Z.ldiff (wait_events o) BREACTOR_WRITE) in
      r ← fd_set_events r (bfd o) (wait_events o); Some (r, o)
    else Some (r, o));
  Some (r, with_send o SPIdle false SEND_STATE_NOT_INITED).

Definition BConnection_RecvAsync_Init (o : BConnection) : option BConnection :=
  ASSERT negb (d_err o);
  ASSERT bool_decide (recv_state o = RECV_STATE_NOT_INITED);
  Some (with_recv o SRIdle false RECV_STATE_READY).

Definition BConnection_RecvAsync_Free (r : R) (o : BConnection) : option (R * BConnection) :=
  ASSERT bool_decide (recv_state o = RECV_STATE_READY) || bool_decide (recv_state o = RECV_STATE_BUSY) || bool_decide (recv_state o = RECV_STATE_INITED_CLOSED);
  '(r, o) ← (if negb (is_hupd o) then
      let o := with_wait o (is_hupd o) (Z.ldiff (wait_events o) BREACTOR_READ) in
      r ← fd_set_events r (bfd o) (wait_events o); Some (r, o)
    else Some (r, o));
  Some (r, with_recv o SRIdle false RECV_STATE_NOT_INITED).

End Reactor.
End BConnection.
