(* ===== verification/BConnectionInv.v ===== *)
(** * Stream sockets: environment, invariant and theorems

    A listener, a connector and a connection share a reactor with the rest of the program.  Their
    environment is the user, who calls their functions as documented, the reactor, which reports
    events and runs jobs, the operating system, which answers the system calls, and everything
    else that uses the reactor in between ([reach_other]). *)

From stdpp Require Import gmap.
From S2P Require Import Prelude FlowView BAddr BReactor IoReactor Sockets BConnection.
Import BReactor BConnection.

Module BConnectionInv.

(** ** Addresses *)
Lemma connection_addr_roundtrip addr : BConnection_AddressSupported addr = true -> addr_ok addr ->
  exists s, addr_socket_to_sys addr = Some s /\ sys_addr_ok s /\ addr_sys_to_socket s = Some addr.
Proof.
  unfold BConnection_AddressSupported. destruct addr as [|ip port|ip port|]; try done; intros _ Ha.
  - eexists. split; [done|]. done.
  - destruct Ha as (_ & Hip & _). eexists. split; [done|]. assert (take 16 ip = ip) as -> by (apply take_ge; unfold zlen in Hip; lia).
    split; [done|]. unfold addr_sys_to_socket. cbn. by rewrite take_ge by (unfold zlen in Hip; lia).
Qed.
Lemma sys_to_socket_ok s : sys_addr_ok s -> is_Some (addr_sys_to_socket s).
Proof. destruct s as [n [| | |]]; unfold sys_addr_ok, addr_sys_to_socket; cbn; [intros ->|intros [-> _]|intros _|intros _]; by eexists. Qed.

Lemma build_unix_ok path : exists u, build_unix_address path = Some u.
Proof.
  unfold build_unix_address. case_if; [by eexists|]. unfold unix_addr_size, MAX_UNIX_SOCKET_PATH, offsetof_sun_path in *.
  rewrite !zlen_app. change (zlen [AF_UNIX; 0]) with 2. change (zlen [0]) with 1. bool_true. by eexists.
Qed.

(** The check of the address, in both functions. *)
Lemma from_ok (from : BLisCon_from) : exists b, match from with
  | BLISCON_FROM_UNIX p => u ← build_unix_address p; Some (match u with inr _ => true | inl _ => false end)
  | BLISCON_FROM_ADDR addr => if negb (BConnection_AddressSupported addr) then Some false else _ ← addr_socket_to_sys addr; Some true
  end = Some (b : bool).
Proof.
  destruct from as [addr|p].
  - destruct addr; cbn; by eexists.
  - destruct (build_unix_ok p) as [u ->]. cbn. by eexists.
Qed.

Section World.
Context {R : Type} `{!IoReactor R}.
(** The addresses of the objects in their structures. *)
Context (lobj cobj obj slim rlim : ptr).

(** ** Environment *)

(** What the user and the kernel see.  [mem]: the memory of the process; [buf], [src]: the bytes the user is sending and where it has them;
    [dest]: where it wants to have what is received; [out_wire]: the bytes the kernel read from memory to send them, [in_wire]: those it
    wrote to memory; [out_user]: the bytes of whose transmission the user was told, [in_user]: those it found at [dest] when it was told that
    they are there; [events_told]: the events reported; [sick]: the kernel has an error of the
    socket to return. *)
Record log := mk_log { mem : memory; buf : list Z; src : Z; dest : Z; out_wire : list Z; out_user : list Z; in_wire : list Z; in_user : list Z; events_told : list con_event; sick : bool }.
Definition no_log (m : memory) : log := mk_log m [] 0 0 [] [] [] [] [] false.

(** [told]: whether the connector's user was told, and of which result. *)
Record world := mkw { kn : kernel; rx : R; ls : option BListener; cn : option BConnector; told : option bool; con : option BConnection; lg : log }.

Inductive event :=
| EListen (from : BLisCon_from) (a : listen_answers) | EListenerFd (events : Z) | EListenerJob (a : option Z) | EListenerFree (ok : bool)
| EConnect (from : BLisCon_from) (a : connect_answers) | EConnectorFd (events : Z) (so_error : option Z) | EConnectorJob | EConnectorFree
| EAccept (a : init_answers) | ETake (a : init_answers) | EPipe (n : Z) (close_it : bool) (a : init_answers)
| ESetHandlers (h : bool) | ESendInit | ESendFree | ERecvInit | ERecvFree
| ESend (data : Z) (b : list Z) (a : io_answer) | ERecv (dst avail : Z) (a : io_answer) (d : list Z)
| EFd (events : Z) (a : io_answer) (d : list Z) | ESendJob (a : io_answer) | ERecvJob (a : io_answer) (d : list Z)
| EFree.

(** The descriptors the objects are to close. *)
Definition fd_of_listener (l : option BListener) : option Z := l ← l; Some (l_fd l).
Definition fd_of_connector (c : option BConnector) : option Z := c ← c; if c_fd c =? -1 then None else Some (c_fd c).
Definition fd_of_connection (o : option BConnection) : option Z := o ← o; if close_fd o then Some (fd o) else None.
Definition owned (w : world) (n : Z) : Prop := fd_of_listener (ls w) = Some n \/ fd_of_connector (cn w) = Some n \/ fd_of_connection (con w) = Some n.
#[local] Instance owned_dec w n : Decision (owned w n).
Proof. unfold owned. apply _. Defined.

(** What [write] can answer for [len] bytes, and [read] for [avail]. *)
Definition write_answer (len : Z) (a : io_answer) : bool := match a with IO_BYTES n => (0 <? n) && (n <=? len) | _ => true end.
Definition read_answer (avail : Z) (a : io_answer) (d : list Z) : bool := match a with IO_BYTES n => (n =? zlen d) && (n <=? avail) | _ => true end.

(** An error reported without hang-up and without the readiness that the object waits for [w].  POSIX describes a pending error as
    one that the next operation on the socket returns: [error_returned] says that the kernel does so.  It is no condition of
    [enabled], which admits any answer. *)
Definition error_alone (w events : Z) : bool := has events BREACTOR_ERROR && negb (has events BREACTOR_HUP) && negb (Z.ldiff w events =? 0).
Definition pending_ok (sk : bool) (a : io_answer) : bool := negb sk || match a with IO_ERROR => true | _ => false end.
Definition sick_after (w : world) (ev : Z) : bool :=
  sick (lg w) || match fd_watch (rx w) obj with Some x => error_alone x ev | None => false end.
Definition error_returned (w : world) (e : event) : bool :=
  match e with
  | ESend _ _ a | ERecv _ _ a _ | ESendJob a | ERecvJob a _ => pending_ok (sick (lg w)) a
  | EFd ev a _ => pending_ok (sick_after w ev) a
  | _ => true
  end.

Definition usable (o : BConnection) : bool := negb (d_err o) && handler o.
Definition sending (o : BConnection) : bool := bool_decide (send_state o = SEND_STATE_BUSY).
Definition receiving (o : BConnection) : bool := bool_decide (recv_state o = RECV_STATE_BUSY).

(** The user's buffers: it has the bytes in memory, and those of a send and a receive do not overlap while both are outstanding. *)
Definition send_buffer_ok (o : BConnection) (x : log) (data : Z) (b : list Z) : bool :=
  bool_decide (read_mem (mem x) data (zlen b) = b) && (negb (receiving o) || apart (dest x) (recv_busy_data_avail o) data (zlen b)).
Definition recv_buffer_ok (o : BConnection) (x : log) (dst avail : Z) : bool := negb (sending o) || apart dst avail (src x) (zlen (buf x)).

(** What the documentation requires of the user, and what the reactor and the kernel can do. *)
Definition enabled (w : world) (e : event) : bool :=
  match e with
  | EListen _ a => bool_decide (ls w = None) && fd_answer_ok (kn w) (a_socket a)
  | EListenerFd ev => match ls w, fd_watch (rx w) lobj with Some l, Some x => reported x ev | _, _ => false end
  | EListenerJob a => match ls w with Some l => default_job l && fd_answer_ok (kn w) a | None => false end
  | EListenerFree _ => bool_decide (is_Some (ls w))
  | EConnect _ a => bool_decide (cn w = None) && fd_answer_ok (kn w) (c_socket a)
  | EConnectorFd ev _ => match cn w, fd_watch (rx w) cobj with Some c, Some x => reported x ev | _, _ => false end
  | EConnectorJob => match cn w with Some c => job c | None => false end
  | EConnectorFree => bool_decide (is_Some (cn w))
  | EAccept a => bool_decide (con w = None) && match ls w with Some l => default_job l | None => false end &&
      match i_accept a with Some (n, sa) => fd_answer_ok (kn w) (Some n) && bool_decide (sys_addr_ok sa) | None => true end
  | ETake a => bool_decide (con w = None) && bool_decide (told w = Some false) && match cn w with Some c => c_fd c >=? 0 | None => false end
  | EPipe n _ _ => bool_decide (con w = None) && (0 <=? n) && bool_decide (n ∈ open_fds (kn w)) && bool_decide (~ owned w n)
  | _ =>
      match con w with
      | None => false
      | Some o =>
          match e with
          | ESetHandlers _ => negb (d_err o)
          | ESendInit => negb (d_err o) && bool_decide (send_state o = SEND_STATE_NOT_INITED)
          | ESendFree => negb (bool_decide (send_state o = SEND_STATE_NOT_INITED))
          | ERecvInit => negb (d_err o) && bool_decide (recv_state o = RECV_STATE_NOT_INITED)
          | ERecvFree => negb (bool_decide (recv_state o = RECV_STATE_NOT_INITED))
          | ESend data b a => usable o && bool_decide (send_state o = SEND_STATE_READY) && (0 <? zlen b) && write_answer (zlen b) a && send_buffer_ok o (lg w) data b
          | ERecv dst avail a d => usable o && bool_decide (recv_state o = RECV_STATE_READY) && (0 <? avail) && read_answer avail a d && recv_buffer_ok o (lg w) dst avail
          | EFd ev a d =>
              usable o && negb (send_job o) && negb (recv_job o) &&
              match fd_watch (rx w) obj with Some x => reported x ev | None => false end &&
              (if sending o && (has ev BREACTOR_WRITE || has ev (Z.lor BREACTOR_ERROR BREACTOR_HUP)) then write_answer (send_busy_data_len o) a
               else read_answer (recv_busy_data_avail o) a d)
          | ESendJob a => usable o && send_job o && write_answer (send_busy_data_len o) a
          | ERecvJob a d => usable o && recv_job o && read_answer (recv_busy_data_avail o) a d
          | EFree => bool_decide (send_state o = SEND_STATE_NOT_INITED) && bool_decide (recv_state o = RECV_STATE_NOT_INITED)
          | _ => false
          end
      end
  end.

(** The history after an action; [d]: the bytes the kernel gives. *)
Definition note (d : list Z) (x : log) (a : action) : log :=
  match a with
  | WTook data n => mk_log (mem x) (buf x) (src x) (dest x) (out_wire x ++ read_mem (mem x) data n) (out_user x) (in_wire x) (in_user x) (events_told x) (sick x)
  | SendDone n => mk_log (mem x) [] (src x) (dest x) (out_wire x) (out_user x ++ sub (buf x) 0 n) (in_wire x) (in_user x) (events_told x) (sick x)
  | RGave data n => mk_log (write_mem (mem x) data d) (buf x) (src x) (dest x) (out_wire x) (out_user x) (in_wire x ++ d) (in_user x) (events_told x) (sick x)
  | RecvDone n => mk_log (mem x) (buf x) (src x) (dest x) (out_wire x) (out_user x) (in_wire x) (in_user x ++ read_mem (mem x) (dest x) n) (events_told x) (sick x)
  | Event e => mk_log (mem x) (buf x) (src x) (dest x) (out_wire x) (out_user x) (in_wire x) (in_user x) (events_told x ++ [e]) (sick x)
  end.
Definition with_buf (x : log) (data : Z) (b : list Z) : log := mk_log (mem x) b data (dest x) (out_wire x) (out_user x) (in_wire x) (in_user x) (events_told x) (sick x).
Definition with_dest (x : log) (dst : Z) : log := mk_log (mem x) (buf x) (src x) dst (out_wire x) (out_user x) (in_wire x) (in_user x) (events_told x) (sick x).
Definition with_mem (x : log) (m : memory) : log := mk_log m (buf x) (src x) (dest x) (out_wire x) (out_user x) (in_wire x) (in_user x) (events_told x) (sick x).
Definition with_sick (x : log) (b : bool) : log := mk_log (mem x) (buf x) (src x) (dest x) (out_wire x) (out_user x) (in_wire x) (in_user x) (events_told x) b.

Definition with_con (w : world) (r : R) (o : BConnection) (x : log) : world := mkw (kn w) r (ls w) (cn w) (told w) (Some o) x.
Definition acted (w : world) (x : log) (d : list Z) (res : option (R * BConnection * list action)) : option world :=
  '(r, o, acts) ← res; Some (with_con w r o (fold_left (note d) acts x)).
Definition made (w : world) (l : option BListener) (c : option BConnector) (res : option (kernel * R * BConnection_source * option (BConnection * BAddr))) : option world :=
  '(k, r, s, o) ← res;
  let l := match s with SOURCE_LISTENER l => Some l | _ => l end in
  let c := match s with SOURCE_CONNECTOR c => Some c | _ => c end in
  Some (mkw k r l c (told w) (fst <$> o) (no_log (mem (lg w)))).

Definition exec (w : world) (e : event) : option world :=
  let k := kn w in let r := rx w in
  match e with
  | EListen from a => '(k, r, l) ← BListener_InitFrom k r lobj from a; Some (mkw k r l (cn w) (told w) (con w) (lg w))
  | EListenerFd ev => l ← ls w; Some (mkw k r (Some (listener_fd_handler l ev)) (cn w) (told w) (con w) (lg w))
  | EListenerJob a => l ← ls w; '(k, l) ← listener_default_job_handler k l a; Some (mkw k r (Some l) (cn w) (told w) (con w) (lg w))
  | EListenerFree ok => l ← ls w; '(k, r) ← BListener_Free k r l ok; Some (mkw k r None (cn w) (told w) (con w) (lg w))
  | EConnect from a => '(k, r, c) ← BConnector_InitFrom k r cobj from a; Some (mkw k r (ls w) c None (con w) (lg w))
  | EConnectorFd ev so => c ← cn w; '(r, c, e) ← connector_fd_handler r c ev so; Some (mkw k r (ls w) (Some c) (Some e) (con w) (lg w))
  | EConnectorJob => c ← cn w; '(c, e) ← connector_job_handler c; Some (mkw k r (ls w) (Some c) (Some e) (con w) (lg w))
  | EConnectorFree => c ← cn w; '(k, r) ← BConnector_Free k r c; Some (mkw k r (ls w) None None (con w) (lg w))
  | EAccept a => l ← ls w; made w (ls w) (cn w) (BConnection_Init k r obj slim rlim (SOURCE_LISTENER l) a)
  | ETake a => c ← cn w; made w (ls w) (cn w) (BConnection_Init k r obj slim rlim (SOURCE_CONNECTOR c) a)
  | EPipe n cl a => made w (ls w) (cn w) (BConnection_Init k r obj slim rlim (SOURCE_PIPE n cl) a)
  | ESetHandlers h => o ← con w; Some (with_con w r (BConnection_SetHandlers o h) (lg w))
  | ESendInit => o ← con w; o ← BConnection_SendAsync_Init o; Some (with_con w r o (lg w))
  | ESendFree => o ← con w; '(r, o) ← BConnection_SendAsync_Free r o; Some (with_con w r o (with_buf (lg w) 0 []))
  | ERecvInit => o ← con w; o ← BConnection_RecvAsync_Init o; Some (with_con w r o (lg w))
  | ERecvFree => o ← con w; '(r, o) ← BConnection_RecvAsync_Free r o; Some (with_con w r o (lg w))
  | ESend data b a =>
      o ← con w; i ← StreamPassInterface_Sender_Send (send_iface o) data (zlen b);
      acted w (with_buf (lg w) data b) [] (connection_send_if_handler_send r (with_send o i (send_job o) (send_state o)) data (zlen b) a)
  | ERecv dst avail a d =>
      o ← con w; i ← StreamRecvInterface_Receiver_Recv (recv_iface o) dst avail;
      acted w (with_dest (lg w) dst) d (connection_recv_if_handler_recv r (with_recv o i (recv_job o) (recv_state o)) dst avail a)
  | EFd ev a d => o ← con w; acted w (with_sick (lg w) (sick_after w ev)) d (connection_fd_handler r o ev a)
  | ESendJob a => o ← con w; acted w (lg w) [] (connection_send_job_handler r o a)
  | ERecvJob a d => o ← con w; acted w (lg w) d (connection_recv_job_handler r o a)
  | EFree => o ← con w; '(k, r) ← BConnection_Free k r o; Some (mkw k r (ls w) (cn w) (told w) None (lg w))
  end.

(** Others leave the bytes that are being sent as they are. *)
Definition leaves_buffer (w : world) (m : memory) : Prop :=
  forall o, con w = Some o -> sending o = true -> read_mem m (src (lg w)) (zlen (buf (lg w))) = read_mem (mem (lg w)) (src (lg w)) (zlen (buf (lg w))).

(** [posix]: whether pending errors are returned as POSIX describes; when it is false, the operating system answers anything. *)
Context (posix : bool).
Inductive reach : world -> Prop :=
| reach_init k r m : io_ok r -> fd_watch r lobj = None -> fd_watch r cobj = None -> fd_watch r obj = None -> lim_state r slim = None -> lim_state r rlim = None ->
    reach (mkw k r None None None None (no_log m))
| reach_other w k' r' m' : reach w -> io_ok r' -> (forall f, f ∈ [lobj; cobj; obj] -> fd_watch r' f = fd_watch (rx w) f) ->
    same_limit (rx w) r' slim -> same_limit (rx w) r' rlim -> (forall n, owned w n -> n ∈ open_fds k') -> leaves_buffer w m' ->
    reach (mkw k' r' (ls w) (cn w) (told w) (con w) (with_mem (lg w) m'))
| reach_step w e w' : reach w -> enabled w e = true -> (posix = true -> error_returned w e = true) -> exec w e = Some w' -> reach w'.

(** A readiness is reported for which the connection still waits although nothing is outstanding. *)
Definition stale (w : world) (e : event) : bool :=
  match e, con w with
  | EFd ev _ _, Some o => (has ev BREACTOR_WRITE && negb (sending o)) || (has ev BREACTOR_READ && negb (receiving o))
  | _, _ => false
  end.

(** ** Invariant *)
Context (Hlc : lobj <> cobj) (Hlo : lobj <> obj) (Hco : cobj <> obj) (Hlim : slim <> rlim).

Definition listener_ok (r : R) (l : option BListener) : Prop :=
  match l with
  | None => fd_watch r lobj = None
  | Some l => l_bfd l = lobj /\ fd_watch r lobj = Some BREACTOR_READ /\ 0 <= l_fd l
  end.

Definition connector_ok (r : R) (c : option BConnector) (t : option bool) : Prop :=
  match c with
  | None => fd_watch r cobj = None
  | Some c => c_bfd c = cobj /\ fd_watch r cobj = (if have_bfd c then Some BREACTOR_WRITE else None) /\ (c_fd c = -1 \/ 0 <= c_fd c) /\
      match t with
      | None => 0 <= c_fd c /\ connected c = negb (have_bfd c) /\ job c = negb (have_bfd c)
      | Some is_error => have_bfd c = false /\ job c = false /\ connected c = negb is_error
      end
  end.

(** What holds of a connection at every moment, also in the middle of a handler: the reactor watches
    what [wait_events] says, [rd] and [wr]. *)
Record base (r : R) (o : BConnection) (rd wr : bool) : Prop := {
  b_io : io_ok r;
  b_obj : bfd o = obj /\ send_limit o = slim /\ recv_limit o = rlim;
  b_watch : fd_watch r obj = if is_hupd o then None else Some (wait_events o);
  b_wait : wait_events o = waits rd wr;
  b_limits : exists cs cr, lim_state r slim = Some (BCONNECTION_SEND_LIMIT, cs) /\ lim_state r rlim = Some (BCONNECTION_RECV_LIMIT, cr);
}.

(** The operations of the user. *)
Record ops (o : BConnection) (x : log) : Prop := {
  p_send : send_iface o = if sending o then SPBusy (send_busy_data o) (send_busy_data_len o) else SPIdle;
  p_buf : if sending o then 0 < send_busy_data_len o /\ zlen (buf x) = send_busy_data_len o else buf x = [];
  p_recv : recv_iface o = if receiving o || bool_decide (recv_state o = RECV_STATE_INITED_CLOSED) then SRBusy (recv_busy_data o) (recv_busy_data_avail o) else SRIdle;
  p_job : send_job o = false;
  p_state : recv_state o <> RECV_STATE_NOT_INITED_CLOSED;
  p_bytes : out_user x = out_wire x /\ in_user x = in_wire x;
  p_src : sending o = true -> send_busy_data o = src x /\ read_mem (mem x) (src x) (zlen (buf x)) = buf x;
  p_dest : receiving o = true -> recv_busy_data o = dest x /\ (sending o = true -> apart (dest x) (recv_busy_data_avail o) (src x) (zlen (buf x)) = true);
  p_err : exists l, events_told x = l ++ (if d_err o then [BCONNECTION_EVENT_ERROR] else []) /\ BCONNECTION_EVENT_ERROR ∉ l;
}.

(** Every operation outstanding is waited for.  When pending errors are returned, nothing else is, and a receive is waited for once, unless
    there is an error to return. *)
Definition send_settled (o : BConnection) (wr : bool) : Prop :=
  if is_hupd o then sending o = false else (sending o = true -> wr = true) /\ (posix = true -> wr = true -> sending o = true).
Definition recv_settled (o : BConnection) (rd sk : bool) : Prop :=
  if is_hupd o then receiving o = recv_job o
  else (receiving o = true -> rd || recv_job o = true) /\ (recv_job o = true -> receiving o = true) /\
    (posix = true -> (rd = true -> receiving o = true) /\ (sk = false -> rd && recv_job o = false)).
Definition settled (o : BConnection) (rd wr sk : bool) : Prop := d_err o = false -> send_settled o wr /\ recv_settled o rd sk.

Definition con_ok (r : R) (o : option BConnection) (x : log) : Prop :=
  match o with
  | None => fd_watch r obj = None /\ lim_state r slim = None /\ lim_state r rlim = None
  | Some o => (exists rd wr, base r o rd wr /\ settled o rd wr (sick x)) /\ ops o x /\ (close_fd o = true -> 0 <= fd o)
  end.

(** They are open, and no two objects have the same. *)
Record owned_ok (k : kernel) (a b c : option Z) : Prop := {
  o_open : forall n, a = Some n \/ b = Some n \/ c = Some n -> n ∈ open_fds k;
  o_distinct : forall n, ~ (a = Some n /\ b = Some n) /\ ~ (a = Some n /\ c = Some n) /\ ~ (b = Some n /\ c = Some n);
}.

Record inv (w : world) : Prop := {
  i_io : io_ok (rx w);
  i_ls : listener_ok (rx w) (ls w);
  i_cn : connector_ok (rx w) (cn w) (told w);
  i_con : con_ok (rx w) (con w) (lg w);
  i_fds : owned_ok (kn w) (fd_of_listener (ls w)) (fd_of_connector (cn w)) (fd_of_connection (con w));
}.

(** ** The handlers of a connection *)

(** A change of the reactor that concerns the connection only. *)
Definition others (r r' : R) : Prop := fd_watch r' lobj = fd_watch r lobj /\ fd_watch r' cobj = fd_watch r cobj.
Lemma others_refl r : others r r.
Proof. done. Qed.
Lemma others_trans r1 r2 r3 : others r1 r2 -> others r2 r3 -> others r1 r3.
Proof. intros [? ?] [? ?]. split; congruence. Qed.

Lemma set_events_base r o rd wr rd' wr' : base r o rd wr -> is_hupd o = false ->
  exists r', fd_set_events r (bfd o) (waits rd' wr') = Some r' /\ base r' (with_wait o (is_hupd o) (waits rd' wr')) rd' wr' /\ others r r'.
Proof using Type*.
  intros [B1 B2 B3 B4 B5] Hh. rewrite Hh in B3. destruct (fd_set_events_ok r obj (waits rd' wr') B1 ltac:(by eexists) (waits_ok _ _)) as (r' & E & I & W & L).
  destruct B2 as (Eb & ? & ?). rewrite Eb, E. exists r'. split; [done|]. split.
  - split; cbn; try done; [by rewrite W, Hh, bool_decide_true by done|]. by setoid_rewrite L.
  - split; rewrite W; by rewrite bool_decide_false by done.
Qed.

Lemma wait_for_read r o rd wr : base r o rd wr -> is_hupd o = false ->
  exists r', wait_for r o BREACTOR_READ = Some (r', with_wait o (is_hupd o) (waits true wr), []) /\ base r' (with_wait o (is_hupd o) (waits true wr)) true wr /\ others r r'.
Proof using Type*.
  intros B Hh. unfold wait_for. cbn. rewrite (b_wait _ _ _ _ B), waits_add_read.
  destruct (set_events_base _ _ _ _ true wr B Hh) as (r' & -> & B' & O). by exists r'.
Qed.
Lemma wait_for_write r o rd wr : base r o rd wr -> is_hupd o = false ->
  exists r', wait_for r o BREACTOR_WRITE = Some (r', with_wait o (is_hupd o) (waits rd true), []) /\ base r' (with_wait o (is_hupd o) (waits rd true)) rd true /\ others r r'.
Proof using Type*.
  intros B Hh. unfold wait_for. cbn. rewrite (b_wait _ _ _ _ B), waits_add_write.
  destruct (set_events_base _ _ _ _ rd true B Hh) as (r' & -> & B' & O). by exists r'.
Qed.

(** [base] reads the reactor's part of the connection only. *)
Lemma base_same r o o' rd wr : base r o rd wr -> bfd o' = bfd o -> send_limit o' = send_limit o -> recv_limit o' = recv_limit o ->
  is_hupd o' = is_hupd o -> wait_events o' = wait_events o -> base r o' rd wr.
Proof. intros [B1 B2 B3 B4 B5] E1 E2 E3 E4 E5. split; rewrite ?E1, ?E2, ?E3, ?E4, ?E5; done. Qed.

Lemma increment_base r o rd wr x : base r o rd wr -> x = slim \/ x = rlim ->
  exists r' go, lim_increment r x = Some (r', go) /\ base r' o rd wr /\ others r r'.
Proof using Type*.
  intros [B1 B2 B3 B4 (cs & cr & L1 & L2)] Hx.
  assert (exists l c, lim_state r x = Some (l, c)) as (l & c & Lx) by (destruct Hx; subst; eauto).
  destruct (lim_increment_ok r x l c B1 Lx) as (r' & -> & I & W & L). exists r', (c <? l). split; [done|]. split; [|split; by rewrite W].
  split; try done; [by rewrite W|]. rewrite !L. destruct Hx as [-> | ->].
  - rewrite bool_decide_true, bool_decide_false by done. rewrite L1 in Lx. injection Lx as <- <-. eauto.
  - rewrite bool_decide_false, bool_decide_true by done. rewrite L2 in Lx. injection Lx as <- <-. eauto.
Qed.

(** The three outcomes of an attempt to send. *)
Inductive send_outcome (o : BConnection) (rd wr : bool) (a : io_answer) : BConnection -> bool -> list action -> Prop :=
| so_wait : is_hupd o = false -> send_outcome o rd wr a (with_wait o (is_hupd o) (waits rd true)) true []
| so_error : send_outcome o rd wr a (with_err o) wr [Event BCONNECTION_EVENT_ERROR]
| so_done n : a = IO_BYTES n -> send_outcome o rd wr a (with_send o SPIdle (send_job o) SEND_STATE_READY) wr [WTook (send_busy_data o) n; SendDone n].

Lemma connection_send_ok r o rd wr a : base r o rd wr -> usable o = true -> sending o = true ->
  send_iface o = SPBusy (send_busy_data o) (send_busy_data_len o) -> write_answer (send_busy_data_len o) a = true ->
  exists r' o' wr' acts, connection_send r o a = Some (r', o', acts) /\ base r' o' rd wr' /\ others r r' /\ send_outcome o rd wr a o' wr' acts.
Proof using Type*.
  intros B [He Hh]%andb_true_iff Hs Hi Ha. unfold connection_send. rewrite He. fold (sending o). rewrite Hs.
  assert (exists r1 go, (if negb (is_hupd o) then lim_increment r (send_limit o) else Some (r, true)) = Some (r1, go) /\ base r1 o rd wr /\ others r r1 /\
    (go = false -> is_hupd o = false)) as (r1 & go & -> & B1 & O1 & Hgo).
  { destruct (is_hupd o) eqn:Eh; cbn [negb]; [by exists r, true|]. destruct (b_obj _ _ _ _ B) as (_ & -> & _).
    destruct (increment_base r o rd wr slim B ltac:(by left)) as (r' & go & -> & ? & ?). by exists r', go. }
  cbn [mbind option_bind]. pose proof (base_same r1 o (with_err o) rd wr B1 eq_refl eq_refl eq_refl eq_refl eq_refl) as Berr.
  assert (is_hupd o = false -> exists r' o' wr' acts, wait_for r1 o BREACTOR_WRITE = Some (r', o', acts) /\ base r' o' rd wr' /\ others r r' /\ send_outcome o rd wr a o' wr' acts) as Hwait.
  { intros Eh. destruct (wait_for_write r1 o rd wr B1 Eh) as (r' & -> & B' & O'). do 4 eexists. split; [done|]. split; [done|]. split; [by eapply others_trans|by constructor]. }
  assert (exists r' o' wr' acts, connection_report_error r1 o = Some (r', o', acts) /\ base r' o' rd wr' /\ others r r' /\ send_outcome o rd wr a o' wr' acts) as Herr.
  { unfold connection_report_error. rewrite He, Hh. do 4 eexists. split; [done|]. split; [done|]. split; [done|constructor]. }
  destruct go; cbn [negb]; [|by apply Hwait, Hgo]. destruct a as [n| |]; [|destruct (is_hupd o) eqn:Eh; cbn [negb]; [done|by apply Hwait]|done].
  cbn in Ha. reflect_bool. bool_true. bool_true. rewrite Hi. unfold StreamPassInterface_Done. bool_true. bool_true. cbn [mbind option_bind].
  do 4 eexists. split; [done|]. split; [by eapply base_same|]. split; [done|by constructor].
Qed.

Inductive recv_outcome (o : BConnection) (rd wr : bool) (a : io_answer) : BConnection -> bool -> list action -> Prop :=
| ro_wait : is_hupd o = false -> recv_outcome o rd wr a (with_wait o (is_hupd o) (waits true wr)) true []
| ro_error : recv_outcome o rd wr a (with_err o) rd [Event BCONNECTION_EVENT_ERROR]
| ro_closed : a = IO_BYTES 0 -> recv_outcome o rd wr a (with_recv o (recv_iface o) (recv_job o) RECV_STATE_INITED_CLOSED) rd [Event BCONNECTION_EVENT_RECVCLOSED]
| ro_done n : a = IO_BYTES n -> 0 < n -> recv_outcome o rd wr a (with_recv o SRIdle (recv_job o) RECV_STATE_READY) rd [RGave (recv_busy_data o) n; RecvDone n].

Lemma connection_recv_ok r o rd wr a d : base r o rd wr -> usable o = true -> receiving o = true ->
  recv_iface o = SRBusy (recv_busy_data o) (recv_busy_data_avail o) -> read_answer (recv_busy_data_avail o) a d = true ->
  exists r' o' rd' acts, connection_recv r o a = Some (r', o', acts) /\ base r' o' rd' wr /\ others r r' /\ recv_outcome o rd wr a o' rd' acts.
Proof using Type*.
  intros B [He Hh]%andb_true_iff Hs Hi Ha. unfold connection_recv. rewrite He. fold (receiving o). rewrite Hs.
  assert (exists r1 go, (if negb (is_hupd o) then lim_increment r (recv_limit o) else Some (r, true)) = Some (r1, go) /\ base r1 o rd wr /\ others r r1 /\
    (go = false -> is_hupd o = false)) as (r1 & go & -> & B1 & O1 & Hgo).
  { destruct (is_hupd o) eqn:Eh; cbn [negb]; [by exists r, true|]. destruct (b_obj _ _ _ _ B) as (_ & _ & ->).
    destruct (increment_base r o rd wr rlim B ltac:(by right)) as (r' & go & -> & ? & ?). by exists r', go. }
  cbn [mbind option_bind]. pose proof (base_same r1 o (with_err o) rd wr B1 eq_refl eq_refl eq_refl eq_refl eq_refl) as Berr.
  assert (is_hupd o = false -> exists r' o' rd' acts, wait_for r1 o BREACTOR_READ = Some (r', o', acts) /\ base r' o' rd' wr /\ others r r' /\ recv_outcome o rd wr a o' rd' acts) as Hwait.
  { intros Eh. destruct (wait_for_read r1 o rd wr B1 Eh) as (r' & -> & B' & O'). do 4 eexists. split; [done|]. split; [done|]. split; [by eapply others_trans|by constructor]. }
  assert (exists r' o' rd' acts, connection_report_error r1 o = Some (r', o', acts) /\ base r' o' rd' wr /\ others r r' /\ recv_outcome o rd wr a o' rd' acts) as Herr.
  { unfold connection_report_error. rewrite He, Hh. do 4 eexists. split; [done|]. split; [done|]. split; [done|constructor]. }
  destruct go; cbn [negb]; [|by apply Hwait, Hgo]. destruct a as [n| |]; [|destruct (is_hupd o) eqn:Eh; cbn [negb]; [done|by apply Hwait]|done].
  cbn in Ha. reflect_bool. pose proof (zlen_nonneg d). case_if.
  - rewrite Hh. do 4 eexists. split; [done|]. split; [by eapply base_same|]. split; [done|]. constructor. congruence.
  - bool_true. bool_true. rewrite Hi. unfold StreamRecvInterface_Done. bool_true. bool_true. cbn [mbind option_bind].
    do 4 eexists. split; [done|]. split; [by eapply base_same|]. split; [done|]. constructor; [done|lia].
Qed.

Definition con_good (r : R) (o : BConnection) (x : log) : Prop := (exists rd wr, base r o rd wr /\ settled o rd wr (sick x)) /\ ops o x.

(** The reports after one more. *)
Lemma told_error (l : list con_event) : (exists k, l = k ++ [] /\ BCONNECTION_EVENT_ERROR ∉ k) ->
  exists k, l ++ [BCONNECTION_EVENT_ERROR] = k ++ [BCONNECTION_EVENT_ERROR] /\ BCONNECTION_EVENT_ERROR ∉ k.
Proof. intros (k & -> & H). exists k. by rewrite app_nil_r. Qed.
Lemma told_closed (l : list con_event) : (exists k, l = k ++ [] /\ BCONNECTION_EVENT_ERROR ∉ k) ->
  exists k, l ++ [BCONNECTION_EVENT_RECVCLOSED] = k ++ [] /\ BCONNECTION_EVENT_ERROR ∉ k.
Proof. intros (k & -> & H). exists (k ++ [BCONNECTION_EVENT_RECVCLOSED]). rewrite !app_nil_r. split; [done|]. rewrite elem_of_app, list_elem_of_singleton. by intros [?|?]. Qed.

(** What an attempt yields: a good state, under the condition [g] on its answer, and nothing of the other objects changed. *)
Definition yields (r : R) (o : BConnection) (d : list Z) (x : log) (g : Prop) (res : option (R * BConnection * list action)) : Prop :=
  exists r' o' acts, res = Some (r', o', acts) /\ others r r' /\ (g -> con_good r' o' (fold_left (note d) acts x)) /\ fd o' = fd o /\ close_fd o' = close_fd o.
Definition returned (sk : bool) (a : io_answer) : Prop := posix = true -> pending_ok sk a = true.
Lemma returned_bytes sk n : returned sk (IO_BYTES n) -> posix = true -> sk = false.
Proof. unfold returned, pending_ok. rewrite orb_false_r. intros H Hp. by apply negb_true_iff, H. Qed.

Lemma attempt_send r o rd wr a d x : base r o rd wr -> (posix = true -> is_hupd o = false -> sick x = false -> wr = false) -> ops o x -> usable o = true -> sending o = true -> recv_settled o rd (sick x) ->
  write_answer (send_busy_data_len o) a = true -> yields r o d x (returned (sick x) a) (connection_send r o a).
Proof using Type*.
  intros B Hwr P Hu Hs Hr Ha. pose proof P as [P1 P2 P3 P4 P5 P6 P7 P8 P9]. rewrite Hs in P1, P2. pose proof Hu as [He Hh]%andb_true_iff. apply negb_true_iff in He.
  destruct (connection_send_ok r o rd wr a B Hu Hs P1 Ha) as (r' & o' & wr' & acts & E & B' & O & Out). exists r', o', acts. split; [done|]. split; [done|].
  assert (fd o' = fd o /\ close_fd o' = close_fd o) as [-> ->] by (by destruct Out). split; [|done]. intros Hsk. split.
  - exists rd, wr'. split; [done|]. destruct Out as [Hn| |n Hn]; [|done|]; intros _; (split; [|exact Hr]); unfold send_settled; cbn.
    + by rewrite Hn.
    + subst a. destruct (is_hupd o); [done|]. split; [done|]. intros Hp Hw. rewrite Hwr in Hw; [done..|]. by apply (returned_bytes _ n).
  - destruct Out as [Hn| |n Hn]; cbn [fold_left note].
    + by destruct P.
    + destruct P. split; try done. cbn. apply told_error. by rewrite He in *.
    + subst a. cbn in Ha. reflect_bool. destruct (P7 Hs) as [Es Eb]. split; try done; cbn; [|by intros Hrc; destruct (P8 Hrc)]. destruct P6 as [-> ->]. split; [|done]. f_equal.
      rewrite Es. destruct P2 as [_ P2]. rewrite (read_prefix _ _ (zlen (buf x))) by lia. by rewrite Eb.
Qed.

Lemma attempt_recv r o rd wr a d x : base r o rd wr -> (posix = true -> is_hupd o = false -> sick x = false -> rd = false) -> ops o x -> usable o = true -> receiving o = true -> recv_job o = false ->
  send_settled o wr -> read_answer (recv_busy_data_avail o) a d = true -> yields r o d x (returned (sick x) a) (connection_recv r o a).
Proof using Type*.
  intros B Hrd P Hu Hs Hj Hw Ha. pose proof P as [P1 P2 P3 P4 P5 P6 P7 P8 P9]. rewrite Hs in P3. cbn [orb] in P3. pose proof Hu as [He Hh]%andb_true_iff. apply negb_true_iff in He.
  destruct (connection_recv_ok r o rd wr a d B Hu Hs P3 Ha) as (r' & o' & rd' & acts & E & B' & O & Out). exists r', o', acts. split; [done|]. split; [done|].
  assert (fd o' = fd o /\ close_fd o' = close_fd o) as [-> ->] by (by destruct Out). split; [|done]. intros Hsk. split.
  - exists rd', wr. split; [done|]. destruct Out as [Hn| |Hn|n Hn Hp]; [|done|..]; intros _; (split; [exact Hw|]); unfold recv_settled; cbn; rewrite Hj; [by rewrite Hn|..]; (destruct (is_hupd o) eqn:Eh; [done|]);
      (split; [done|]; split; [done|]; intros Hpx; subst a; by rewrite Hrd by (done || exact (returned_bytes _ _ Hsk Hpx))).
  - destruct Out as [Hn| |Hn|n Hn Hp]; cbn [fold_left note].
    + by destruct P.
    + destruct P. split; try done. cbn. apply told_error. by rewrite He in *.
    + split; try done; cbn. rewrite He in *. by apply told_closed.
    + subst a. cbn in Ha. reflect_bool. destruct (P8 Hs) as [Ed Hap]. split; try done; cbn.
      * destruct P6 as [-> ->]. split; [done|]. subst n. by rewrite Ed, read_write.
      * intros Hsn. destruct (P7 Hsn) as [-> Eb]. split; [done|]. rewrite Ed, (read_apart _ _ _ _ (recv_busy_data_avail o)); [done|lia|by apply Hap].
Qed.

(** *** The events of a connection *)
Lemma usable_no_err o : usable o = true -> d_err o = false.
Proof. intros [?%negb_true_iff _]%andb_true_iff. done. Qed.
(** What the user asks for is not outstanding, hence not waited for. *)
Lemma not_sending_wait o wr : send_settled o wr -> sending o = false -> posix = true -> is_hupd o = false -> wr = false.
Proof. unfold send_settled. intros S Hs Hp Hh. rewrite Hh, Hs in S. destruct S as [_ S]. destruct wr; [by specialize (S Hp eq_refl)|done]. Qed.
Lemma not_receiving_wait o rd sk : recv_settled o rd sk -> receiving o = false -> recv_job o = false /\ (posix = true -> is_hupd o = false -> rd = false).
Proof.
  unfold recv_settled. intros S Hs. rewrite Hs in S. destruct (is_hupd o); [done|]. destruct S as (_ & S1 & S2). split; [destruct (recv_job o); [by specialize (S1 eq_refl)|done]|]. intros Hp _. destruct (S2 Hp) as [S3 _]. destruct rd; [by specialize (S3 eq_refl)|done].
Qed.

Lemma send_event_yields r o x data b a : con_good r o x -> usable o = true -> send_state o = SEND_STATE_READY -> 0 < zlen b -> write_answer (zlen b) a = true -> send_buffer_ok o x data b = true ->
  exists i, StreamPassInterface_Sender_Send (send_iface o) data (zlen b) = Some i /\
    yields r o [] (with_buf x data b) (returned (sick x) a) (connection_send_if_handler_send r (with_send o i (send_job o) (send_state o)) data (zlen b) a).
Proof using Type*.
  intros [(rd & wr & B & S) P] Hu Hs Hb Ha [Hm%bool_decide_eq_true Hap]%andb_true_iff. pose proof (usable_no_err o Hu) as He. destruct (S He) as [Sw Sr].
  assert (sending o = false) as Hsf by (unfold sending; by rewrite Hs). pose proof (p_send _ _ P) as Pi. rewrite Hsf in Pi. rewrite Pi.
  unfold StreamPassInterface_Sender_Send. bool_true. eexists. split; [done|].
  unfold connection_send_if_handler_send. cbn. rewrite He, Hs. cbn [negb]. rewrite bool_decide_true by done. bool_true.
  match goal with |- yields _ _ _ _ _ (connection_send _ ?o1 _) => apply (attempt_send r o1 rd wr a [] (with_buf x data b)) end; try done; [by eapply base_same|intros Hp Hh _; by apply (not_sending_wait o)|].
  destruct P as [_ _ P3 P4 P5 P6 _ P8 P9]. split; try done. cbn. intros Hrc. change (receiving _) with (receiving o) in Hrc. destruct (P8 Hrc) as [P8' _]. split; [done|]. intros _. by rewrite Hrc in Hap.
Qed.

Lemma recv_event_yields r o x dst avail a d : con_good r o x -> usable o = true -> recv_state o = RECV_STATE_READY -> 0 < avail -> read_answer avail a d = true -> recv_buffer_ok o x dst avail = true ->
  exists i, StreamRecvInterface_Receiver_Recv (recv_iface o) dst avail = Some i /\
    yields r o d (with_dest x dst) (returned (sick x) a) (connection_recv_if_handler_recv r (with_recv o i (recv_job o) (recv_state o)) dst avail a).
Proof using Type*.
  intros [(rd & wr & B & S) P] Hu Hs Hb Ha Hap. pose proof (usable_no_err o Hu) as He. destruct (S He) as [Sw Sr].
  assert (receiving o = false) as Hsf by (unfold receiving; by rewrite Hs). pose proof (p_recv _ _ P) as Pi. rewrite Hsf, Hs in Pi. cbn in Pi. rewrite Pi.
  unfold StreamRecvInterface_Receiver_Recv. bool_true. eexists. split; [done|].
  unfold connection_recv_if_handler_recv. cbn. rewrite He, Hs. cbn [negb]. rewrite bool_decide_true by done. bool_true. destruct (not_receiving_wait _ _ _ Sr Hsf) as [Hj Hrd].
  match goal with |- yields _ _ _ _ _ (connection_recv _ ?o1 _) => apply (attempt_recv r o1 rd wr a d (with_dest x dst)) end; try done; [by eapply base_same|intros Hp Hh _; by apply Hrd|].
  destruct P as [P1 P2 _ P4 P5 P6 P7 _ P9]. split; try done. cbn. intros _. split; [done|]. intros Hsn. change (sending _) with (sending o) in Hsn. unfold recv_buffer_ok in Hap. by rewrite Hsn in Hap.
Qed.

Lemma recv_job_yields r o x a d : con_good r o x -> usable o = true -> recv_job o = true -> read_answer (recv_busy_data_avail o) a d = true ->
  yields r o d x (returned (sick x) a) (connection_recv_job_handler r o a).
Proof using Type*.
  intros [(rd & wr & B & S) P] Hu Hj Ha. pose proof (usable_no_err o Hu) as He. destruct (S He) as [Sw Sr]. unfold recv_settled in Sr. rewrite Hj in Sr.
  assert (receiving o = true) as Hs by (destruct (is_hupd o); [done|]; destruct Sr as (_ & Sr1 & _); by apply Sr1).
  unfold connection_recv_job_handler. cbn. rewrite He. cbn [negb]. fold (receiving o). rewrite Hs.
  match goal with |- yields _ _ _ _ _ (connection_recv _ ?o1 _) => apply (attempt_recv r o1 rd wr a d x) end; try done; [by eapply base_same|..].
  - cbn. intros Hp Hh Hs0. rewrite Hh in Sr. destruct Sr as (_ & _ & Sr). destruct (Sr Hp) as [_ Sr']. specialize (Sr' Hs0). by rewrite andb_true_r in Sr'.
  - by destruct P.
Qed.

Lemma remove_base r o rd wr : base r o rd wr -> is_hupd o = false ->
  exists r', fd_remove r (bfd o) = Some r' /\ base r' (with_wait o true (wait_events o)) rd wr /\ others r r'.
Proof using Type*.
  intros [B1 B2 B3 B4 B5] Hh. rewrite Hh in B3. destruct (fd_remove_ok r obj B1 ltac:(by eexists)) as (r' & E & I & W & L).
  destruct B2 as (Eb & ? & ?). rewrite Eb, E. exists r'. split; [done|]. split.
  - split; cbn; try done; [by rewrite W, bool_decide_true by done|]. by setoid_rewrite L.
  - split; rewrite W; by rewrite bool_decide_false by done.
Qed.

(** What the handled events leave waited for, unless an error is reported alone. *)
Lemma handled_flags ra wa er hu rd wr : error_alone (waits rd wr) (IoReactor.reports ra wa er hu) = false -> hu = false -> er = true ->
  wr && negb wa = false /\ rd && negb ra = false.
Proof. destruct ra, wa, er, hu, rd, wr; by vm_compute. Qed.

(** The receive side when the fd handler comes to the send: a job is set for it if it is to be tried. *)
Definition recv_queued (o : BConnection) (q : bool) : BConnection := if q then with_recv o (recv_iface o) true (recv_state o) else o.
Lemma handled_recv o rd wr ra wa er hu sk W : recv_job o = false -> (receiving o = true -> rd = true) -> (posix = true -> rd = true -> receiving o = true) -> (ra = true -> receiving o = true) ->
  (sk = false -> error_alone (waits rd wr) (IoReactor.reports ra wa er hu) = false) ->
  recv_settled (recv_queued (with_wait o hu W) (receiving o && (ra || (er || hu)))) (rd && negb ra) sk.
Proof.
  intros Hj Hr Hp Hra Hsk. unfold recv_settled, recv_queued.
  destruct (receiving o && (ra || (er || hu))) eqn:Er; cbn [is_hupd with_recv with_wait recv_job].
  - change (receiving (with_recv (with_wait o hu W) (recv_iface (with_wait o hu W)) true (recv_state (with_wait o hu W)))) with (receiving o). apply andb_true_iff in Er as [Er Er']. rewrite Er in *. destruct hu; [done|]. split; [by rewrite orb_true_r|]. split; [done|].
    intros Hpx. split; [done|]. intros H. apply Hsk in H. destruct er; [by destruct (handled_flags _ _ _ _ _ _ H eq_refl eq_refl) as [_ ->]|].
    destruct ra; [by rewrite andb_false_r|done].
  - change (receiving (with_wait o hu W)) with (receiving o). rewrite Hj, orb_false_r, andb_false_r. destruct (receiving o); cbn [andb] in Er.
    + apply orb_false_iff in Er as [-> [_ ->]%orb_false_iff]. rewrite Hr by done. done.
    + destruct hu; [done|]. split; [done|]. split; [done|]. intros Hpx. split; [|done]. intros [H _]%andb_true_iff. by apply Hp.
Qed.
Lemma yields_same r o o' d x g res : yields r o d x g res -> fd o' = fd o -> close_fd o' = close_fd o -> yields r o' d x g res.
Proof. intros (r' & o1 & acts & E & O & G & E1 & E2) F1 F2. exists r', o1, acts. rewrite F1, F2. done. Qed.

Lemma yields_others r r2 o o2 d x g res : others r r2 -> fd o2 = fd o -> close_fd o2 = close_fd o -> yields r2 o2 d x g res -> yields r o d x g res.
Proof. intros O F1 F2 (r' & o1 & acts & -> & O' & G & E1 & E2). exists r', o1, acts. rewrite E1, E2. split; [done|]. split; [by eapply others_trans|done]. Qed.

(** The handler comes to its assertions on the operations: they hold exactly when nothing stale is reported. *)
Lemma fd_event_yields r o x ev a d w0 : con_good r o x -> usable o = true -> recv_job o = false -> fd_watch r obj = Some w0 -> reported w0 ev = true ->
  (if sending o && (has ev BREACTOR_WRITE || has ev (Z.lor BREACTOR_ERROR BREACTOR_HUP)) then write_answer (send_busy_data_len o) a else read_answer (recv_busy_data_avail o) a d) = true ->
  let sk := sick x || error_alone w0 ev in
  if (has ev BREACTOR_WRITE && negb (sending o)) || (has ev BREACTOR_READ && negb (receiving o)) then connection_fd_handler r o ev a = None
  else yields r o d (with_sick x sk) (returned sk a) (connection_fd_handler r o ev a).
Proof using Type*.
  intros [(rd & wr & B & S) P] Hu Hj Hw Hev Ha. pose proof (usable_no_err o Hu) as He. destruct (S He) as [Sw Sr].
  rewrite (b_watch _ _ _ _ B) in Hw. destruct (is_hupd o) eqn:Hh; [done|]. injection Hw as <-. unfold recv_settled in Sr. unfold send_settled in Sw. rewrite Hh in Sr, Sw. rewrite Hj, orb_false_r in Sr.
  destruct Sr as (Sr1 & _ & Sr2), Sw as [Sw1 Sw2]. rewrite (b_wait _ _ _ _ B) in *. apply reported_flags in Hev as (ra & wa & er & hu & -> & Hra & Hwa & Hne).
  cbv zeta. set (sk := sick x || error_alone (waits rd wr) (IoReactor.reports ra wa er hu)) in *.
  assert (sk = false -> error_alone (waits rd wr) (IoReactor.reports ra wa er hu) = false) as Hsk by (intros [_ H]%orb_false_iff; exact H).
  destruct (has_reports ra wa er hu) as (E1 & E2 & E3 & E4). rewrite E2, E3 in Ha.
  unfold connection_fd_handler. rewrite He, Hh, (b_wait _ _ _ _ B), waits_handled. cbn [negb]. cbv zeta. cbn [bfd with_wait wait_events].
  destruct (set_events_base _ _ _ _ (rd && negb ra) (wr && negb wa) B Hh) as (r1 & -> & B1 & O1). cbn [mbind option_bind]. rewrite Hh in B1.
  rewrite E1, E2, E3, E4.
  set (W := waits (rd && negb ra) (wr && negb wa)) in *.
  lazymatch goal with |- context [if hu then ?A else ?A'] => assert (exists r2, (if hu then A else A') = Some (r2, with_wait o hu W) /\
    base r2 (with_wait o hu W) (rd && negb ra) (wr && negb wa) /\ others r r2) as (r2 & -> & B2 & O2) end.
  { destruct hu; [|by exists r1]. destruct (remove_base r1 _ _ _ B1 eq_refl) as (r2 & E & B2 & O2). cbn [bfd with_wait] in E. rewrite E. exists r2.
    split; [done|]. split; [done|by eapply others_trans]. }
  cbn [mbind option_bind send_state recv_state recv_iface is_hupd with_wait]. fold (sending o) (receiving o).
  destruct ((wa && negb (sending o)) || (ra && negb (receiving o))) eqn:Est.
  { apply orb_true_iff in Est as [[-> Hns%negb_true_iff]%andb_true_iff|[-> Hnr%negb_true_iff]%andb_true_iff]; [by rewrite Hns|]. rewrite Hnr. cbn [orb negb]. by destruct (negb _ || sending o). }
  apply orb_false_iff in Est as [Ew Er0]. assert (wa = true -> sending o = true) as Hwa' by (intros ->; by destruct (sending o)). assert (ra = true -> receiving o = true) as Hra' by (intros ->; by destruct (receiving o)).
  assert ((wa || (er || hu) && sending o) = sending o && (wa || (er || hu))) as -> by (destruct wa, (er || hu), (sending o); try done; by discriminate Hwa').
  assert ((ra || (er || hu) && receiving o) = receiving o && (ra || (er || hu))) as -> by (destruct ra, (er || hu), (receiving o); try done; by discriminate Hra').
  replace (negb (sending o && (wa || (er || hu))) || sending o) with true by (by destruct (sending o), (wa || (er || hu))).
  replace (negb (receiving o && (ra || (er || hu))) || receiving o) with true by (by destruct (receiving o), (ra || (er || hu))).
  apply (yields_others r r2 o (with_wait o hu W)); [done..|].
  assert (recv_settled (recv_queued (with_wait o hu W) (receiving o && (ra || (er || hu)))) (rd && negb ra) sk) as Hrs by (apply (handled_recv o rd wr ra wa er hu sk W Hj); try done; intros Hp; by apply Sr2). clear E1 E2 E3 E4.
  assert (ops (with_wait o hu W) (with_sick x sk)) as P2 by (by destruct P). assert (ops (with_recv (with_wait o hu W) (recv_iface o) true (recv_state o)) (with_sick x sk)) as P3 by (by destruct P).
  destruct (sending o && (wa || (er || hu))) eqn:Es.
  - apply andb_true_iff in Es as [Es Es'].
    assert (posix = true -> hu = false -> sk = false -> wr && negb wa = false) as Hwr by (intros _ -> H; apply Hsk in H; destruct er; [by destruct (handled_flags _ _ _ _ _ _ H eq_refl eq_refl) as [-> _]|]; destruct wa; [apply andb_false_r|done]).
    destruct (receiving o && (ra || (er || hu))) eqn:Er.
    + eapply yields_same; [eapply attempt_send; [eapply base_same; [exact B2|done..]|exact Hwr|exact P3|done..]|done..].
    + eapply attempt_send; [exact B2|exact Hwr|done..].
  - assert (send_settled (with_wait o hu W) (wr && negb wa)) as Hss.
    { unfold send_settled. cbn [is_hupd with_wait]. change (sending (with_wait o hu W)) with (sending o). destruct hu; [destruct (sending o); [|done]; cbn in Es; by destruct wa, er|].
      split; [intros Hs; rewrite Hs in Es; cbn in Es; apply orb_false_iff in Es as [-> _]; by rewrite Sw1|]. intros Hp [H _]%andb_true_iff. by apply Sw2. }
    destruct (receiving o && (ra || (er || hu))) eqn:Er.
    + apply andb_true_iff in Er as [Er Er']. eapply attempt_recv; [exact B2| |done..].
      intros Hp Hu0 H. cbn in Hu0. subst hu. unfold recv_settled in Hrs. cbn in Hrs. destruct Hrs as (_ & _ & Hrs). destruct (Hrs Hp) as [_ Hrs']. specialize (Hrs' H). by rewrite andb_true_r in Hrs'.
    + destruct hu; cbn [negb].
      * eexists _, _, _. split; [done|]. split; [apply others_refl|]. split; [|done]. intros _. split; [|done]. do 2 eexists. split; [exact B2|]. intros _. done.
      * unfold connection_report_error. cbn [d_err with_wait handler]. rewrite He. apply andb_true_iff in Hu as [_ ->]. cbn [negb].
        eexists _, _, _. split; [done|]. split; [apply others_refl|]. split; [|done]. intros _. split; [do 2 eexists; split; [by eapply base_same; [exact B2|..]|by intros ?]|].
        destruct P. split; try done. cbn. apply told_error. by rewrite He in *.
Qed.

Lemma send_free_good r o x : con_good r o x -> send_state o <> SEND_STATE_NOT_INITED ->
  exists r' o', BConnection_SendAsync_Free r o = Some (r', o') /\ others r r' /\ con_good r' o' (with_buf x 0 []) /\ fd o' = fd o /\ close_fd o' = close_fd o.
Proof using Type*.
  intros [(rd & wr & B & S) P] Hs. unfold BConnection_SendAsync_Free.
  replace (bool_decide (send_state o = SEND_STATE_READY) || bool_decide (send_state o = SEND_STATE_BUSY)) with true by (by destruct (send_state o)).
  assert (exists r' o' wr', (if negb (is_hupd o) then r' ← fd_set_events r (bfd o) (Z.ldiff (wait_events o) BREACTOR_WRITE); Some (r', with_wait o (is_hupd o) (Z.ldiff (wait_events o) BREACTOR_WRITE))
    else Some (r, o)) = Some (r', o') /\ others r r' /\ base r' o' rd wr' /\ (is_hupd o = false -> wr' = false) /\
    o' = with_wait o (is_hupd o) (wait_events o')) as (r' & o' & wr' & E & O & B' & Hwr & E2).
  { destruct (is_hupd o) eqn:Hh; cbn [negb].
    - exists r, o, wr. split; [done|]. split; [done|]. split; [done|]. split; [done|]. rewrite <- Hh. by destruct o.
    - rewrite (b_wait _ _ _ _ B), waits_drop_write. destruct (set_events_base _ _ _ _ rd false B Hh) as (r' & -> & B' & O). rewrite Hh in B'.
      exists r', (with_wait o false (waits rd false)), false. done. }
  cbn [bfd with_wait wait_events] in *. rewrite E. cbn [mbind option_bind]. exists r', (with_send o' SPIdle false SEND_STATE_NOT_INITED). split; [done|]. split; [done|].
  rewrite E2. split; [|done]. split.
  - exists rd, wr'. split; [rewrite <- E2; by eapply base_same|]. cbn. intros He. destruct (S He) as [_ Sr]. split; [|exact Sr]. unfold send_settled. cbn. destruct (is_hupd o); [done|]. split; [done|]. intros _. by rewrite Hwr.
  - destruct P as [P1 P2 P3 P4 P5 P6 P7 P8 P9]. split; try done. cbn. intros Hrc. by destruct (P8 Hrc).
Qed.

Lemma recv_free_good r o x : con_good r o x -> recv_state o <> RECV_STATE_NOT_INITED ->
  exists r' o', BConnection_RecvAsync_Free r o = Some (r', o') /\ others r r' /\ con_good r' o' x /\ fd o' = fd o /\ close_fd o' = close_fd o.
Proof using Type*.
  intros [(rd & wr & B & S) P] Hs. unfold BConnection_RecvAsync_Free. pose proof (p_state _ _ P) as Hs'.
  replace (bool_decide (recv_state o = RECV_STATE_READY) || bool_decide (recv_state o = RECV_STATE_BUSY) || bool_decide (recv_state o = RECV_STATE_INITED_CLOSED)) with true
    by (by destruct (recv_state o)).
  assert (exists r' o' rd', (if negb (is_hupd o) then r' ← fd_set_events r (bfd o) (Z.ldiff (wait_events o) BREACTOR_READ); Some (r', with_wait o (is_hupd o) (Z.ldiff (wait_events o) BREACTOR_READ))
    else Some (r, o)) = Some (r', o') /\ others r r' /\ base r' o' rd' wr /\ (is_hupd o = false -> rd' = false) /\ o' = with_wait o (is_hupd o) (wait_events o'))
    as (r' & o' & rd' & E & O & B' & Hrd & E2).
  { destruct (is_hupd o) eqn:Hh; cbn [negb].
    - exists r, o, rd. split; [done|]. split; [done|]. split; [done|]. split; [done|]. rewrite <- Hh. by destruct o.
    - rewrite (b_wait _ _ _ _ B), waits_drop_read. destruct (set_events_base _ _ _ _ false wr B Hh) as (r' & -> & B' & O). rewrite Hh in B'.
      exists r', (with_wait o false (waits false wr)), false. done. }
  cbn [bfd with_wait wait_events] in *. rewrite E. cbn [mbind option_bind]. exists r', (with_recv o' SRIdle false RECV_STATE_NOT_INITED). split; [done|]. split; [done|].
  rewrite E2. split; [|done]. split.
  - exists rd', wr. split; [rewrite <- E2; by eapply base_same|]. cbn. intros He. destruct (S He) as [Sw _]. split; [exact Sw|].
    unfold recv_settled. cbn. destruct (is_hupd o); [done|]. by rewrite Hrd.
  - destruct P. by split.
Qed.

(** *** Making and freeing a connection *)
Definition acquire (k : kernel) (s : BConnection_source) (a : init_answers) : kernel * option (Z * bool) :=
  match s with
  | SOURCE_LISTENER _ => match i_accept a with Some (n, _) => (new_fd k (Some n), Some (n, true)) | None => (k, None) end
  | SOURCE_CONNECTOR c => (k, Some (c_fd c, true))
  | SOURCE_PIPE n cl => (k, Some (n, cl))
  end.
Definition used (s : BConnection_source) : BConnection_source :=
  match s with
  | SOURCE_LISTENER l => SOURCE_LISTENER (mk_listener (unix_socket_path l) (l_fd l) (l_bfd l) false)
  | SOURCE_CONNECTOR c => SOURCE_CONNECTOR (mk_connector (job c) (-1) (connected c) (have_bfd c) (c_bfd c))
  | SOURCE_PIPE _ _ => s
  end.
Definition released (k : kernel) (q : option (Z * bool)) : kernel :=
  match q with Some (n, true) => mk_kernel (open_fds k ∖ {[n]}) (files k) | _ => k end.
Definition source_ready (s : BConnection_source) : bool :=
  match s with
  | SOURCE_LISTENER l => default_job l
  | SOURCE_CONNECTOR c => (c_fd c >=? 0) && connected c && negb (have_bfd c) && negb (job c)
  | SOURCE_PIPE pipefd _ => pipefd >=? 0
  end.

Lemma source_fd_ok k s a : match s, i_accept a with SOURCE_LISTENER _, Some (_, sa) => sys_addr_ok sa | _, _ => True end ->
  exists res, source_fd k s a = Some (fst (acquire k s a), used s, res) /\
    match snd (acquire k s a), res with
    | Some (n, cl), Some (n', cl', nb, addr) => n' = n /\ cl' = cl
    | None, None => True
    | _, _ => False
    end.
Proof.
  intros Ha. destruct s as [l|c|n cl]; cbn.
  - destruct (i_accept a) as [[n sa]|]; cbn; [|by eexists]. destruct (i_nonblock a); cbn; [|by eexists]. destruct (sys_to_socket_ok sa Ha) as [addr ->]. cbn. by eexists.
  - by eexists.
  - by eexists.
Qed.

Lemma connection_init_ok k r s a m : io_ok r -> con_ok r None (no_log m) -> source_ready s = true ->
  match s, i_accept a with SOURCE_LISTENER _, Some (_, sa) => sys_addr_ok sa | _, _ => True end ->
  let k1 := fst (acquire k s a) in let q := snd (acquire k s a) in
  (forall n, q = Some (n, true) -> n ∈ open_fds k1 /\ 0 <= n) ->
  exists k' r' res, BConnection_Init k r obj slim rlim s a = Some (k', r', used s, res) /\ io_ok r' /\ others r r' /\ con_ok r' (fst <$> res) (no_log m) /\
    match res with None => k' = released k1 q | Some (o, _) => k' = k1 /\ q = Some (fd o, close_fd o) end.
Proof using Type*.
  intros I (W & L1 & L2) Hs Ha k1 q Hq. unfold BConnection_Init. fold (source_ready s). rewrite Hs. destruct (source_fd_ok k s a Ha) as (res & -> & Hres). cbn [mbind option_bind].
  fold k1 q in Hres |- *. destruct q as [[n cl]|], res as [[[[n' cl'] nb] addr]|]; try done; [|by exists k1, r, None]. destruct Hres as [-> ->].
  assert (exists k', (if cl then sys_close k1 n else Some k1) = Some k' /\ k' = released k1 (Some (n, cl))) as (kf & Ek & Hk).
  { destruct cl; [|by eexists]. rewrite close_open by (by apply Hq). by eexists. }
  destruct nb; cbn [negb]; [|rewrite Ek; cbn [mbind option_bind]; by exists kf, r, None].
  destruct (fd_add_ok r obj n (i_mem a) I W) as (r1 & res & -> & I1 & W1 & Lim1). cbn [mbind option_bind].
  assert (others r r1) as O1 by (split; rewrite W1, bool_decide_false, andb_false_r by done; done).
  destruct res; cbn [negb andb] in *.
  - destruct (lim_init_ok r1 slim BCONNECTION_SEND_LIMIT I1) as (r2 & -> & I2 & W2 & Lim2); [by rewrite Lim1|by vm_compute|]. cbn [mbind option_bind].
    destruct (lim_init_ok r2 rlim BCONNECTION_RECV_LIMIT I2) as (r3 & -> & I3 & W3 & Lim3); [by rewrite Lim2, Lim1, bool_decide_false by done|by vm_compute|]. cbn [mbind option_bind].
    eexists k1, r3, (Some _). split; [done|]. split; [done|]. split; [split; rewrite W3, W2; apply O1|]. split; [|done].
    cbn. split; [|split; [split; try done; cbn; exists []; split; [done|apply not_elem_of_nil]|by intros ->; apply Hq]].
    exists false, false. split; [|done]. split; cbn; try done; [by rewrite W3, W2, W1, bool_decide_true by done|].
    exists 0, 0. rewrite !Lim3, !Lim2. rewrite (bool_decide_false (slim = rlim)), !bool_decide_true by done. done.
  - rewrite Ek. cbn [mbind option_bind]. exists kf, r1, None. split; [done|]. split; [done|]. split; [done|]. split; [|done]. cbn. by rewrite W1, !Lim1.
Qed.

Lemma connection_free_ok k r o x : con_good r o x -> send_state o = SEND_STATE_NOT_INITED -> recv_state o = RECV_STATE_NOT_INITED -> (close_fd o = true -> fd o ∈ open_fds k) ->
  exists r', BConnection_Free k r o = Some (released k (Some (fd o, close_fd o)), r') /\ io_ok r' /\ others r r' /\ con_ok r' None x.
Proof using Type*.
  intros [(rd & wr & [B1 (E1 & E2 & E3) B3 B4 (cs & cr & L1 & L2)] & _) P] Hs Hr Hk. unfold BConnection_Free. rewrite Hs, Hr. cbn [orb]. rewrite !bool_decide_true by done. cbn [orb]. rewrite E1, E2, E3.
  destruct (lim_free_ok r rlim B1) as (r1 & -> & I1 & W1 & Lim1); [by eexists|]. cbn [mbind option_bind].
  destruct (lim_free_ok r1 slim I1) as (r2 & -> & I2 & W2 & Lim2); [rewrite Lim1, bool_decide_false by done; by eexists|]. cbn [mbind option_bind].
  assert (exists r3, (if negb (is_hupd o) then fd_remove r2 obj else Some r2) = Some r3 /\ io_ok r3 /\ (forall g, fd_watch r3 g = if bool_decide (g = obj) then None else fd_watch r g) /\
    forall y, lim_state r3 y = lim_state r2 y) as (r3 & -> & I3 & W3 & Lim3).
  { destruct (is_hupd o); cbn [negb].
    - exists r2. split; [done|]. split; [done|]. split; [|done]. intros g. rewrite W2, W1. case_bool_decide; [by subst|done].
    - destruct (fd_remove_ok r2 obj I2) as (r3 & -> & I3 & W3 & Lim3); [rewrite W2, W1, B3; by eexists|]. exists r3. split; [done|]. split; [done|]. split; [|done]. intros g. by rewrite W3, W2, W1. }
  cbn [mbind option_bind]. exists r3. split; [|split; [done|]; split].
  - destruct (close_fd o) eqn:Ec; [by rewrite close_open by auto|done].
  - split; rewrite W3; by rewrite bool_decide_false by done.
  - cbn. rewrite W3, !Lim3, !Lim2, !Lim1. rewrite (bool_decide_false (rlim = slim)), !bool_decide_true by done. done.
Qed.

(** ** Listener and connector *)

(** A change of the reactor that concerns the descriptor object [f] only. *)
Definition only (f : ptr) (r r' : R) : Prop := io_ok r' /\ (forall g, g <> f -> fd_watch r' g = fd_watch r g) /\ forall x, lim_state r' x = lim_state r x.

(** Adding a descriptor and watching it. *)
Lemma add_and_watch r f n mem ev : io_ok r -> fd_watch r f = None -> Z.ldiff ev (Z.lor BREACTOR_READ BREACTOR_WRITE) = 0 ->
  exists r' res, fd_add r f n mem = Some (r', res) /\ only f r r' /\
    if res then exists r'', fd_set_events r' f ev = Some r'' /\ only f r r'' /\ fd_watch r'' f = Some ev else fd_watch r' f = None.
Proof.
  intros I W Hev. destruct (fd_add_ok r f n mem I W) as (r' & res & -> & I' & W' & L'). exists r', res. split; [done|].
  split; [split; [done|]; split; [|done]; intros g Hg; by rewrite W', bool_decide_false, andb_false_r by done|].
  destruct res; cbn [andb] in W'; [|by rewrite W'].
  destruct (fd_set_events_ok r' f ev I') as (r'' & -> & I'' & W'' & L''); [rewrite W', bool_decide_true by done; by eexists|done|].
  exists r''. split; [done|]. split; [|by rewrite W'', bool_decide_true by done]. split; [done|]. split.
  - intros g Hg. by rewrite W'', W', !bool_decide_false by done.
  - intros x. by rewrite L'', L'.
Qed.

(** The descriptors the kernel has for the object after its initialisation. *)
Definition fds_after (k : kernel) (n : option Z) (k' : kernel) : Prop :=
  open_fds k' = match n with Some n => {[n]} ∪ open_fds k | None => open_fds k end.

Lemma close_after k1 k n : open_fds k1 = {[n]} ∪ open_fds k -> n ∉ open_fds k -> exists k', sys_close k1 n = Some k' /\ fds_after k None k'.
Proof.
  intros E Hn. unfold sys_close. rewrite E, bool_decide_true by (apply elem_of_union; left; by apply elem_of_singleton).
  eexists. split; [done|]. unfold fds_after. cbn. apply set_eq. intros y. rewrite elem_of_difference, elem_of_union, elem_of_singleton.
  split; [tauto|]. intros Hy. split; [by right|]. by intros ->.
Qed.

Lemma listener_init_ok k r from a : io_ok r -> fd_watch r lobj = None -> fd_answer_ok k (a_socket a) = true ->
  exists k' r' l, BListener_InitFrom k r lobj from a = Some (k', r', l) /\ only lobj r r' /\ listener_ok r' l /\ fds_after k (fd_of_listener l) k' /\
    forall n, fd_of_listener l = Some n -> n ∉ open_fds k.
Proof.
  intros I W Ha. unfold BListener_InitFrom. destruct (from_ok from) as [b Eb]. rewrite Eb. clear Eb.
  assert (only lobj r r) as Or by (split; [done|by split]).
  assert (exists k' r' l, Some (k, r, @None BListener) = Some (k', r', l) /\ only lobj r r' /\ listener_ok r' l /\ fds_after k (fd_of_listener l) k' /\
    forall n, fd_of_listener l = Some n -> n ∉ open_fds k) as Hfail by (by exists k, r, None).
  case_if; [exact Hfail|]. cbn [mbind option_bind]. destruct b; cbn [negb]; [|exact Hfail]. destruct (a_socket a) as [n|]; [|exact Hfail]. cbn in Ha. apply andb_true_iff in Ha as [Hn Hk].
  apply Z.leb_le in Hn. apply bool_decide_eq_true in Hk.
  assert (Hclose : forall k1 r1, open_fds k1 = {[n]} ∪ open_fds k -> only lobj r r1 -> fd_watch r1 lobj = None ->
    exists k' r' l, (k2 ← sys_close k1 n; Some (k2, r1, @None BListener)) = Some (k', r', l) /\ only lobj r r' /\ listener_ok r' l /\ fds_after k (fd_of_listener l) k' /\
      forall n, fd_of_listener l = Some n -> n ∉ open_fds k).
  { intros k1 r1 E1 O1 W1. destruct (close_after k1 k n E1 Hk) as (k2 & -> & H2). by exists k2, r1, None. }
  assert (Hfail3 : forall k1 r1, open_fds k1 = {[n]} ∪ open_fds k -> only lobj r r1 -> fd_watch r1 lobj = None ->
    exists k' r' l, listener_fail3 k1 r1 from n a = Some (k', r', l) /\ only lobj r r' /\ listener_ok r' l /\ fds_after k (fd_of_listener l) k' /\
      forall n, fd_of_listener l = Some n -> n ∉ open_fds k).
  { intros k1 r1 E1 O1 W1. unfold listener_fail3. apply Hclose; [|done..]. destruct from; [done|]. unfold sys_unlink. by destruct (a_unlink2 a). }
  destruct (a_nonblock a); cbn [negb]; [|by apply Hclose].
  set (path := match from with BLISCON_FROM_ADDR _ => None | BLISCON_FROM_UNIX p => Some p end).
  assert (exists k2, match path with Some p => match a_unlink a with Some b => Some (sys_unlink (new_fd k (Some n)) p b) | None => None end | None => Some (new_fd k (Some n)) end = k2 /\
    forall k1, k2 = Some k1 -> open_fds k1 = {[n]} ∪ open_fds k) as (k2 & -> & Hk2).
  { eexists. split; [done|]. destruct path as [p|]; [|by intros ? [= <-]]. destruct (a_unlink a) as [u|]; [|done]. intros ? [= <-]. by destruct u. }
  destruct k2 as [k2|]; [|by apply Hclose]. specialize (Hk2 k2 eq_refl). destruct (a_bind a); cbn [negb]; [|by apply Hclose].
  assert (open_fds (match path with Some p => sys_bind_file k2 p | None => k2 end) = {[n]} ∪ open_fds k) as E3 by (by destruct path).
  destruct (a_listen a); cbn [negb]; [|by apply Hfail3].
  destruct (add_and_watch r lobj n (a_mem a) BREACTOR_READ I W eq_refl) as (r1 & res & -> & O1 & H1). cbn [mbind option_bind]. destruct res; cbn [negb]; [|by apply Hfail3].
  destruct H1 as (r2 & -> & O2 & W2). cbn [mbind option_bind]. eexists _, r2, (Some _). split; [done|]. split; [done|]. split; [done|]. split; [done|]. by intros ? [= <-].
Qed.

Lemma connector_init_ok k r from a : io_ok r -> fd_watch r cobj = None -> fd_answer_ok k (c_socket a) = true ->
  exists k' r' c, BConnector_InitFrom k r cobj from a = Some (k', r', c) /\ only cobj r r' /\ connector_ok r' c None /\ fds_after k (fd_of_connector c) k' /\
    forall n, fd_of_connector c = Some n -> n ∉ open_fds k.
Proof.
  intros I W Ha. unfold BConnector_InitFrom. destruct (from_ok from) as [b Eb]. rewrite Eb. clear Eb. cbn [mbind option_bind].
  assert (only cobj r r) as Or by (split; [done|by split]).
  destruct b; cbn [negb]; [|by exists k, r, None]. destruct (c_socket a) as [n|]; [|by exists k, r, None]. cbn in Ha. apply andb_true_iff in Ha as [Hn Hk].
  apply Z.leb_le in Hn. apply bool_decide_eq_true in Hk.
  assert (Hclose : forall r1, only cobj r r1 -> fd_watch r1 cobj = None ->
    exists k' r' c, (k2 ← sys_close (new_fd k (Some n)) n; Some (k2, r1, @None BConnector)) = Some (k', r', c) /\ only cobj r r' /\ connector_ok r' c None /\ fds_after k (fd_of_connector c) k' /\
      forall n, fd_of_connector c = Some n -> n ∉ open_fds k).
  { intros r1 O1 W1. destruct (close_after (new_fd k (Some n)) k n eq_refl Hk) as (k2 & -> & H2). by exists k2, r1, None. }
  assert (Hgood : forall r1 c, only cobj r r1 -> c_fd c = n -> connector_ok r1 (Some c) None ->
    exists k' r' c', Some (new_fd k (Some n), r1, Some c) = Some (k', r', c') /\ only cobj r r' /\ connector_ok r' c' None /\ fds_after k (fd_of_connector c') k' /\
      forall n, fd_of_connector c' = Some n -> n ∉ open_fds k).
  { intros r1 c O1 E1 W1. eexists _, r1, (Some c). split; [done|]. split; [done|]. split; [done|]. cbn. rewrite E1. replace (n =? -1) with false by (symmetry; lia). split; [done|]. by intros ? [= <-]. }
  destruct (c_nonblock a); cbn [negb]; [|by apply Hclose]. destruct (c_connect a); [| |by apply Hclose].
  - apply Hgood; [done..|]. cbn. rewrite W. split_and!; try done. by right.
  - destruct (add_and_watch r cobj n (c_mem a) BREACTOR_WRITE I W eq_refl) as (r1 & res & -> & O1 & H1). cbn [mbind option_bind]. destruct res; cbn [negb]; [|by apply Hclose].
    destruct H1 as (r2 & -> & O2 & W2). cbn [mbind option_bind]. apply Hgood; [done..|]. cbn. split_and!; try done. by right.
Qed.

Lemma connector_free_ok k r c t : io_ok r -> connector_ok r (Some c) t -> (forall n, fd_of_connector (Some c) = Some n -> n ∈ open_fds k) ->
  exists r', BConnector_Free k r c = Some (match fd_of_connector (Some c) with Some n => mk_kernel (open_fds k ∖ {[n]}) (files k) | None => k end, r') /\
    only cobj r r' /\ fd_watch r' cobj = None.
Proof.
  intros I (Eb & W & _) Hk. unfold BConnector_Free. rewrite Eb.
  assert (exists r', (if have_bfd c then fd_remove r cobj else Some r) = Some r' /\ only cobj r r' /\ fd_watch r' cobj = None) as (r' & -> & O & W').
  { destruct (have_bfd c); [|exists r; split; [done|]; split; [by split|done]]. destruct (fd_remove_ok r cobj I) as (r' & -> & I' & W' & L'); [by eexists|].
    exists r'. split; [done|]. split; [|by rewrite W', bool_decide_true by done]. split; [done|]. split; [|done]. intros g Hg. by rewrite W', bool_decide_false by done. }
  cbn [mbind option_bind]. exists r'. split; [|done]. cbn in *. destruct (c_fd c =? -1) eqn:E; cbn [negb]; [done|]. by rewrite close_open by (by apply Hk).
Qed.

(** ** Preservation *)
Lemma listener_frame r r' l : fd_watch r' lobj = fd_watch r lobj -> listener_ok r l -> listener_ok r' l.
Proof. intros E. unfold listener_ok. by rewrite E. Qed.
Lemma connector_frame r r' c t : fd_watch r' cobj = fd_watch r cobj -> connector_ok r c t -> connector_ok r' c t.
Proof. intros E. unfold connector_ok. by rewrite E. Qed.
Lemma con_frame r r' o x : io_ok r' -> fd_watch r' obj = fd_watch r obj -> same_limit r r' slim -> same_limit r r' rlim -> con_ok r o x -> con_ok r' o x.
Proof.
  intros I E E1 E2. unfold con_ok, same_limit in *. destruct o as [o|].
  - intros ((rd & wr & [B1 B2 B3 B4 (cs & cr & L1 & L2)] & S) & P). split; [|done]. exists rd, wr. split; [|done].
    rewrite L1 in E1. rewrite L2 in E2. destruct E1 as [cs' E1], E2 as [cr' E2]. split; try done; [by rewrite E|]. by exists cs', cr'.
  - intros (W & L1 & L2). rewrite L1 in E1. rewrite L2 in E2. by rewrite E, E1, E2.
Qed.
Lemma con_frame_only f r r' o x : only f r r' -> f <> obj -> con_ok r o x -> con_ok r' o x.
Proof.
  intros (I & W & L) N. apply con_frame; [done|by apply W|..]; unfold same_limit; rewrite L; destruct (lim_state r _) as [[? ?]|]; [by eexists|done|by eexists|done].
Qed.

(** The descriptors a user gives away. *)
Definition given (e : event) (n : Z) : Prop := match e with EPipe m true _ => n = m | _ => False end.

(** The open descriptors that are not the objects' stay what they are. *)
Definition balanced (w : world) (e : event) (w' : world) : Prop :=
  forall n, (n ∈ open_fds (kn w') /\ ~ owned w' n) <-> (n ∈ open_fds (kn w) /\ ~ owned w n /\ ~ given e n).

Lemma balanced_same w e w' : open_fds (kn w') = open_fds (kn w) -> fd_of_listener (ls w') = fd_of_listener (ls w) -> fd_of_connector (cn w') = fd_of_connector (cn w) ->
  fd_of_connection (con w') = fd_of_connection (con w) -> (forall n, ~ given e n) -> balanced w e w'.
Proof. intros E1 E2 E3 E4 G n. unfold owned. rewrite E1, E2, E3, E4. specialize (G n). tauto. Qed.

Definition is_con_event (e : event) : bool :=
  match e with ESetHandlers _ | ESendInit | ESendFree | ERecvInit | ERecvFree | ESend _ _ _ | ERecv _ _ _ _ | EFd _ _ _ | ESendJob _ | ERecvJob _ _ => true | _ => false end.

(** An event of the connection that leaves it a good connection. *)
Lemma con_event_step w e o r' o' x' : inv w -> con w = Some o -> is_con_event e = true -> others (rx w) r' -> con_good r' o' x' -> fd o' = fd o -> close_fd o' = close_fd o ->
  inv (with_con w r' o' x') /\ balanced w e (with_con w r' o' x').
Proof.
  intros [I1 I2 I3 I4 I5] Ho He [O1 O2] G E1 E2. assert (fd_of_connection (Some o') = fd_of_connection (Some o)) as Ef by (cbn; by rewrite E1, E2). split.
  - split; cbn [with_con kn rx ls cn told con lg].
    + destruct G as ((rd & wr & B & _) & _). apply B.
    + by eapply listener_frame.
    + by eapply connector_frame.
    + destruct G as [G P]. rewrite Ho in I4. destruct I4 as (_ & _ & H). split; [done|]. split; [done|]. by rewrite E1, E2.
    + by rewrite Ef, <- Ho.
  - apply balanced_same; cbn; try done; [by rewrite Ho|]. intros n Hg. by destruct e.
Qed.

(** What a step yields: the invariant, under the condition [g] on its answer, and in any case the balance of the descriptors, and the
    reactor does not watch for an object that is gone. *)
Definition unwatched (w : world) : Prop :=
  (ls w = None -> fd_watch (rx w) lobj = None) /\ (cn w = None -> fd_watch (rx w) cobj = None) /\
  (con w = None -> fd_watch (rx w) obj = None /\ lim_state (rx w) slim = None /\ lim_state (rx w) rlim = None).
Lemma inv_unwatched w : inv w -> unwatched w.
Proof. intros [_ I2 I3 I4 _]. split; [intros H; by rewrite H in I2|]. split; [intros H; by rewrite H in I3|]. intros H. by rewrite H in I4. Qed.
Definition steps (w : world) (e : event) (g : Prop) (res : option world) : Prop := exists w', res = Some w' /\ balanced w e w' /\ unwatched w' /\ (g -> inv w').
Lemma acted_step w e o x d g res : inv w -> con w = Some o -> is_con_event e = true -> yields (rx w) o d x g res -> steps w e g (acted w x d res).
Proof.
  intros I Ho He (r' & o' & acts & -> & O & G & E1 & E2). cbn. eexists. split; [done|]. split; [|split; [|intros Hg; by apply (con_event_step w e o); auto]].
  - apply balanced_same; cbn; try done; [rewrite Ho; cbn; by rewrite E1, E2|]. intros n Hg. by destruct e.
  - destruct (inv_unwatched w I) as (U1 & U2 & _), O as [O1 O2]. split; cbn; [by rewrite O1|]. split; [by rewrite O2|done].
Qed.

Lemma inv_good w o : inv w -> con w = Some o -> con_good (rx w) o (lg w).
Proof. intros I Ho. pose proof (i_con _ I) as H. rewrite Ho in H. destruct H as (H & P & _). done. Qed.

Lemma init_good r o x : con_good r o x -> d_err o = false ->
  (send_state o = SEND_STATE_NOT_INITED -> con_good r (with_send o SPIdle false SEND_STATE_READY) x) /\
  (recv_state o = RECV_STATE_NOT_INITED -> con_good r (with_recv o SRIdle false RECV_STATE_READY) x).
Proof.
  intros [(rd & wr & B & S) P] He. destruct (S He) as [Sw Sr]. pose proof P as [P1 P2 P3 P4 P5 P6 P7 P8 P9]. split; intros Hs.
  - assert (sending o = false) as Hf by (unfold sending; by rewrite Hs). split.
    + exists rd, wr. split; [by eapply base_same|]. intros _. split; [|exact Sr]. unfold send_settled in *. by rewrite Hf in Sw.
    + rewrite Hf in P2. split; try done. cbn. intros Hrc. by destruct (P8 Hrc).
  - assert (receiving o = false) as Hf by (unfold receiving; by rewrite Hs). destruct (not_receiving_wait _ _ _ Sr Hf) as [_ Hrd]. split.
    + exists rd, wr. split; [by eapply base_same|]. intros _. split; [exact Sw|]. unfold recv_settled. cbn. destruct (is_hupd o); [done|]. split; [done|]. split; [done|]. intros Hp. by rewrite Hrd.
    + by split.
Qed.

Lemma con_event_ok w e : inv w -> is_con_event e = true -> enabled w e = true ->
  if stale w e then exec w e = None else steps w e (posix = true -> error_returned w e = true) (exec w e).
Proof using Type*.
  intros I Hc He. destruct (con w) as [o|] eqn:Ho; [|by destruct e; cbn in He; rewrite ?Ho in He]. pose proof (inv_good w o I Ho) as G.
  assert (forall r' o' x', others (rx w) r' -> con_good r' o' x' -> fd o' = fd o -> close_fd o' = close_fd o -> steps w e (posix = true -> error_returned w e = true) (Some (with_con w r' o' x'))) as Hgood.
  { intros r' o' x' H1 H2 H3 H4. destruct (con_event_step w e o r' o' x' I Ho Hc H1 H2 H3 H4) as [H5 H6]. eexists. split; [done|]. split; [exact H6|]. split; [by apply inv_unwatched|by intros _]. }
  destruct e; try done; cbn [enabled exec stale error_returned] in *; rewrite Ho in He; rewrite Ho; cbn [mbind option_bind].
  - apply Hgood; try done. destruct G as [(rd & wr & B & S) P]. split; [|by destruct P]. exists rd, wr. split; [by eapply base_same|done].
  - apply andb_true_iff in He as [He Hs]. apply negb_true_iff in He. unfold BConnection_SendAsync_Init. rewrite He, Hs. cbn. apply Hgood; try done. apply bool_decide_eq_true in Hs. by apply init_good.
  - apply negb_true_iff, bool_decide_eq_false in He. destruct (send_free_good _ _ _ G He) as (r' & o' & -> & O & G' & E1 & E2). by apply Hgood.
  - apply andb_true_iff in He as [He Hs]. apply negb_true_iff in He. unfold BConnection_RecvAsync_Init. rewrite He, Hs. cbn. apply Hgood; try done. apply bool_decide_eq_true in Hs. by apply init_good.
  - apply negb_true_iff, bool_decide_eq_false in He. destruct (recv_free_good _ _ _ G He) as (r' & o' & -> & O & G' & E1 & E2). by apply Hgood.
  - apply andb_true_iff in He as [[[[Hu Hs]%andb_true_iff Hb]%andb_true_iff Ha]%andb_true_iff Hm]. apply bool_decide_eq_true in Hs. apply Z.ltb_lt in Hb.
    destruct (send_event_yields _ _ _ data b a G Hu Hs Hb Ha Hm) as (i & -> & Y). by apply (acted_step w _ o).
  - apply andb_true_iff in He as [[[[Hu Hs]%andb_true_iff Hb]%andb_true_iff Ha]%andb_true_iff Hm]. apply bool_decide_eq_true in Hs. apply Z.ltb_lt in Hb.
    destruct (recv_event_yields _ _ _ dst avail a d G Hu Hs Hb Ha Hm) as (i & -> & Y). by apply (acted_step w _ o).
  - apply andb_true_iff in He as [[[[Hu Hj1]%andb_true_iff Hj2]%andb_true_iff Hw]%andb_true_iff Ha]. unfold sick_after. destruct (fd_watch (rx w) obj) as [w0|] eqn:Ew; [|done].
    apply negb_true_iff in Hj2. pose proof (fd_event_yields _ _ _ _ a d w0 G Hu Hj2 Ew Hw Ha) as Y. cbv zeta in Y. destruct ((has _ BREACTOR_WRITE && negb (sending o)) || _); [by rewrite Y|]. by apply (acted_step w _ o).
  - destruct G as [_ P]. by rewrite (p_job _ _ P), andb_false_r in He.
  - apply andb_true_iff in He as [[Hu Hj]%andb_true_iff Ha]. apply (acted_step w _ o); try done. by apply recv_job_yields.
Qed.

(** *** Descriptors *)
Definition holds (a b c : option Z) (n : Z) : Prop := a = Some n \/ b = Some n \/ c = Some n.

(** Which descriptors there are, and which are the objects', before and after. *)
Definition change (k : kernel) (a b c : option Z) (g : Z -> Prop) (k' : kernel) (a' b' c' : option Z) : Prop :=
  owned_ok k' a' b' c' /\ forall n, (n ∈ open_fds k' /\ ~ holds a' b' c' n) <-> (n ∈ open_fds k /\ ~ holds a b c n /\ ~ g n).

Definition is_new (k : kernel) (m : option Z) (k' : kernel) : Prop := fds_after k m k' /\ forall n, m = Some n -> n ∉ open_fds k.
Definition is_closed (k : kernel) (m : option Z) (k' : kernel) : Prop :=
  forall n, n ∈ open_fds k' <-> n ∈ open_fds k /\ m <> Some n.

Lemma change_new k a b c g k' m : owned_ok k a b c -> is_new k m k' -> (forall n, ~ g n) ->
  (a = None -> change k a b c g k' m b c) /\ (b = None -> change k a b c g k' a m c) /\ (c = None -> change k a b c g k' a b m).
Proof.
  intros [O D] [E F] G. assert (forall n, n ∈ open_fds k' <-> m = Some n \/ n ∈ open_fds k) as Hk.
  { intros n. unfold fds_after in E. rewrite E. destruct m as [m|]; [|intuition congruence]. rewrite elem_of_union, elem_of_singleton. intuition congruence. }
  split_and!; intros ->; (split; [split|]); unfold holds; intros n; specialize (D n); specialize (O n); specialize (F n); specialize (G n); rewrite ?Hk; intuition congruence.
Qed.
Lemma change_closed k a b c g k' m : owned_ok k a b c -> is_closed k m k' -> (forall n, ~ g n) ->
  (a = m -> change k a b c g k' None b c) /\ (b = m -> change k a b c g k' a None c) /\ (c = m -> change k a b c g k' a b None).
Proof.
  intros [O D] Hk G.
  split_and!; intros ->; (split; [split|]); unfold holds; intros n; specialize (D n); specialize (O n); specialize (G n); specialize (Hk n); rewrite ?Hk; clear Hk; intuition congruence.
Qed.

Lemma change_keep k a b c (g : Z -> Prop) k' : owned_ok k a b c -> (forall n, n ∈ open_fds k' <-> n ∈ open_fds k) -> (forall n, ~ g n) -> change k a b c g k' a b c.
Proof.
  intros [O D] Hk G. split; [split|]; unfold holds; intros n; specialize (D n); specialize (O n); specialize (G n); specialize (Hk n); rewrite ?Hk; clear Hk; intuition congruence.
Qed.

(** The connector's descriptor becomes the connection's, or is closed. *)
Lemma change_taken k a m g : owned_ok k a (Some m) None -> (forall n, ~ g n) -> change k a (Some m) None g k a None (Some m).
Proof. intros [O D] G. split; [split|]; unfold holds; intros n; specialize (D n); specialize (O n); specialize (G n); intuition congruence. Qed.

(** A descriptor of the user becomes the connection's. *)
Lemma change_given k a b m : owned_ok k a b None -> m ∈ open_fds k -> ~ holds a b None m -> change k a b None (eq m) k a b (Some m).
Proof.
  intros [O D] Hm H. unfold holds in H. split; [split|]; unfold holds; intros n; specialize (D n); specialize (O n);
    (destruct (decide (n = m)) as [-> |N]; [|assert (Some m <> Some n) by congruence]); intuition congruence.
Qed.
Lemma change_given_closed k a b m k' : owned_ok k a b None -> is_closed k (Some m) k' -> ~ holds a b None m -> change k a b None (eq m) k' a b None.
Proof.
  intros [O D] Hk H. unfold holds in H. split; [split|]; unfold holds; intros n; specialize (D n); specialize (O n); specialize (Hk n); rewrite ?Hk; clear Hk;
    (destruct (decide (n = m)) as [-> |N]; [|assert (Some m <> Some n) by congruence]); intuition congruence.
Qed.
Lemma closed_is k n : is_closed k (Some n) (mk_kernel (open_fds k ∖ {[n]}) (files k)).
Proof. intros m. cbn. rewrite elem_of_difference, elem_of_singleton. intuition congruence. Qed.

Lemma change_step w e w' g : inv w -> (forall n, g n <-> given e n) -> io_ok (rx w') -> listener_ok (rx w') (ls w') -> connector_ok (rx w') (cn w') (told w') -> con_ok (rx w') (con w') (lg w') ->
  change (kn w) (fd_of_listener (ls w)) (fd_of_connector (cn w)) (fd_of_connection (con w)) g (kn w') (fd_of_listener (ls w')) (fd_of_connector (cn w')) (fd_of_connection (con w')) ->
  inv w' /\ balanced w e w'.
Proof. intros I G I1 I2 I3 I4 [O H]. split; [by split|]. intros n. rewrite <- (G n). apply H. Qed.

Lemma listener_event_ok w e : inv w -> match e with EListen _ _ | EListenerFd _ | EListenerJob _ | EListenerFree _ => True | _ => False end -> enabled w e = true ->
  exists w', exec w e = Some w' /\ inv w' /\ balanced w e w'.
Proof using Type*.
  intros I Hc He. pose proof I as [I1 I2 I3 I4 I5]. destruct e; try done; cbn [enabled exec] in *; clear Hc.
  - apply andb_true_iff in He as [Hl Ha]. apply bool_decide_eq_true in Hl. rewrite Hl in I2. destruct (listener_init_ok (kn w) (rx w) from a I1 I2 Ha) as (k' & r' & l & -> & O & L & F & N).
    eexists. split; [done|]. apply (change_step w _ _ (fun _ => False)); cbn; try done; [apply O|by eapply connector_frame; [apply O|]|by eapply con_frame_only|].
    destruct (change_new _ _ _ _ (fun _ => False) k' (fd_of_listener l) I5) as [H _]; [done|tauto|]. apply H. by rewrite Hl.
  - destruct (ls w) as [l|] eqn:El; [|done]. cbn. eexists. split; [done|]. apply (change_step w _ _ (fun _ => False)); cbn; try done. rewrite El. by apply change_keep; [|tauto|tauto].
  - destruct (ls w) as [l|] eqn:El; [|done]. apply andb_true_iff in He as [Hj Ha]. cbn. unfold listener_default_job_handler.
    assert (exists k', (match a with Some n => k ← sys_close (new_fd (kn w) (Some n)) n; Some (k, mk_listener (unix_socket_path l) (l_fd l) (l_bfd l) false) | None => Some (kn w, mk_listener (unix_socket_path l) (l_fd l) (l_bfd l) false) end) =
      Some (k', mk_listener (unix_socket_path l) (l_fd l) (l_bfd l) false) /\ k' = kn w) as (k' & -> & ->).
    { destruct a as [n|]; [|by eexists]. cbn in Ha. apply andb_true_iff in Ha as [_ Ha]. apply bool_decide_eq_true in Ha. rewrite close_new by done. by eexists. }
    cbn. eexists. split; [done|]. apply (change_step w _ _ (fun _ => False)); cbn; try done. rewrite El. by apply change_keep; [|tauto|tauto].
  - apply bool_decide_eq_true in He as [l El]. rewrite El in I2, I5. destruct I2 as (Eb & W & Hn). rewrite El. cbn [mbind option_bind]. unfold BListener_Free. rewrite Eb.
    destruct (fd_remove_ok (rx w) lobj I1) as (r' & -> & I' & W' & L'); [by eexists|]. cbn [mbind option_bind]. rewrite close_open by (apply (o_open _ _ _ _ I5); by left). cbn [mbind option_bind].
    eexists. split; [done|]. assert (only lobj (rx w) r') as O by (split; [done|]; split; [|done]; intros g Hg; by rewrite W', bool_decide_false by done).
    apply (change_step w _ _ (fun _ => False)); cbn; try done; [by rewrite W', bool_decide_true by done|by eapply connector_frame; [apply O|]|by eapply con_frame_only|]. rewrite El.
    set (kc := match unix_socket_path l with Some p => _ | None => _ end). assert (is_closed (kn w) (Some (l_fd l)) kc) as Hcl.
    { intros n. pose proof (closed_is (kn w) (l_fd l) n) as Hn'. cbn in Hn'. subst kc. destruct (unix_socket_path l); [|exact Hn']. unfold sys_unlink. by destruct ok. }
    destruct (change_closed _ _ _ _ (fun _ => False) kc (Some (l_fd l)) I5) as [H _]; [done|tauto|]. by apply H.
Qed.

Lemma connector_event_ok w e : inv w -> match e with EConnect _ _ | EConnectorFd _ _ | EConnectorJob | EConnectorFree => True | _ => False end -> enabled w e = true ->
  exists w', exec w e = Some w' /\ inv w' /\ balanced w e w'.
Proof using Type*.
  intros I Hc He. pose proof I as [I1 I2 I3 I4 I5]. destruct e; try done; cbn [enabled exec] in *; clear Hc.
  - apply andb_true_iff in He as [Hl Ha]. apply bool_decide_eq_true in Hl. rewrite Hl in I3. destruct (connector_init_ok (kn w) (rx w) from a I1 I3 Ha) as (k' & r' & c & -> & O & L & F & N).
    eexists. split; [done|]. apply (change_step w _ _ (fun _ => False)); cbn; try done; [apply O|by eapply listener_frame; [apply O|]|by eapply con_frame_only|].
    destruct (change_new _ _ _ _ (fun _ => False) k' (fd_of_connector c) I5) as (_ & H & _); [done|tauto|]. apply H. by rewrite Hl.
  - destruct (cn w) as [c|] eqn:El; [|done]. destruct (fd_watch (rx w) cobj) as [w0|] eqn:Ew; [|done]. destruct I3 as (Eb & W & Hn & Ht). rewrite Ew in W.
    destruct (have_bfd c) eqn:Eh; [|done]. assert (told w = None) as Et by (destruct (told w) as [b|]; [by destruct Ht|done]). rewrite Et in Ht. destruct Ht as (Hp & Hcn & Hj).
    cbn. unfold connector_fd_handler. bool_true. rewrite Hcn, Eh, Eb. cbn [negb]. destruct (fd_remove_ok (rx w) cobj I1) as (r' & -> & I' & W' & L'); [by eexists|]. cbn [mbind option_bind].
    eexists. split; [done|]. assert (only cobj (rx w) r') as O by (split; [done|]; split; [|done]; intros g Hg; by rewrite W', bool_decide_false by done).
    apply (change_step w _ _ (fun _ => False)); cbn; try done; [by eapply listener_frame; [apply O|]| |by eapply con_frame_only|].
    + rewrite W', bool_decide_true, Hj by done. split_and!; try done. by rewrite negb_involutive.
    + rewrite El. by apply change_keep; [|tauto|tauto].
  - destruct (cn w) as [c|] eqn:El; [|done]. destruct I3 as (Eb & W & Hn & Ht). assert (told w = None) as Et by (destruct (told w) as [b|]; [|done]; destruct Ht as (_ & ? & _); congruence).
    rewrite Et in Ht. destruct Ht as (Hp & Hcn & Hj). rewrite He in Hj. symmetry in Hj. apply negb_true_iff in Hj. rewrite Hj in *. cbn in Hcn.
    cbn. unfold connector_job_handler. cbn. bool_true. rewrite Hcn, Hj. cbn. eexists. split; [done|]. apply (change_step w _ _ (fun _ => False)); cbn; try done.
    rewrite El. by apply change_keep; [|tauto|tauto].
  - apply bool_decide_eq_true in He as [c El]. rewrite El in I3, I5. rewrite El. cbn [mbind option_bind].
    destruct (connector_free_ok (kn w) (rx w) c (told w) I1 I3) as (r' & -> & O & W'); [intros n Hn; apply (o_open _ _ _ _ I5); right; by left|]. cbn [mbind option_bind].
    eexists. split; [done|]. apply (change_step w _ _ (fun _ => False)); cbn [kn rx ls cn told con lg]; try done; [apply O|by eapply listener_frame; [apply O|]|by eapply con_frame_only|]. rewrite El.
    set (kc := match fd_of_connector (Some c) with Some n => _ | None => _ end). assert (is_closed (kn w) (fd_of_connector (Some c)) kc) as Hcl.
    { subst kc. destruct (fd_of_connector (Some c)) as [n|]; [apply closed_is|]. intros n. intuition congruence. }
    destruct (change_closed _ _ _ _ (fun _ => False) kc (fd_of_connector (Some c)) I5) as (_ & H & _); [done|tauto|]. by apply H.
Qed.

Lemma made_event_ok w e : inv w -> match e with EAccept _ | ETake _ | EPipe _ _ _ | EFree => True | _ => False end -> enabled w e = true ->
  exists w', exec w e = Some w' /\ inv w' /\ balanced w e w'.
Proof using Type*.
  intros I Hc He. pose proof I as [I1 I2 I3 I4 I5]. destruct e as [| | | | | | | |a|a|m cl a| | | | | | | | | | |]; try done; cbn [enabled exec] in *; clear Hc.
  - apply andb_true_iff in He as [[Hn Hl]%andb_true_iff Ha]. apply bool_decide_eq_true in Hn. rewrite Hn in I4, I5. destruct (ls w) as [l|] eqn:El; [|done]. cbn [mbind option_bind].
    destruct (connection_init_ok (kn w) (rx w) (SOURCE_LISTENER l) a (mem (lg w)) I1 I4 Hl) as (k' & r' & res & -> & I' & O & C & Hk).
    { destruct (i_accept a) as [[n sa]|]; [|done]. apply andb_true_iff in Ha as [_ Ha]. by apply bool_decide_eq_true in Ha. }
    { intros n. cbn. destruct (i_accept a) as [[n' sa]|]; [|done]. cbn. intros [= <-]. apply andb_true_iff in Ha as [[Ha _]%andb_true_iff _]. apply Z.leb_le in Ha. split; [|done].
      apply elem_of_union. left. by apply elem_of_singleton. }
    cbn [made mbind option_bind used]. eexists. split; [done|].
    apply (change_step w _ _ (fun _ => False)); cbn [kn rx ls cn told con lg]; try done; [by eapply listener_frame; [apply O|]|by eapply connector_frame; [apply O|]|]. rewrite El, Hn. cbn [fd_of_listener mbind option_bind l_fd].
    cbn in Hk. destruct (i_accept a) as [[n sa]|]; cbn in Hk, Ha.
    + apply andb_true_iff in Ha as [[Hp Hf]%andb_true_iff _]. apply bool_decide_eq_true in Hf. destruct res as [[o addr]|]; cbn [fmap option_fmap option_map fst] in *.
      * destruct Hk as [-> [= Ef Ec]]. cbn [fd_of_connection mbind option_bind]. rewrite <- Ec, <- Ef.
        destruct (change_new _ _ _ _ (fun _ => False) (new_fd (kn w) (Some n)) (Some n) I5) as (_ & _ & H); [|tauto|by apply H]. split; [done|]. by intros ? [= <-].
      * subst k'. apply change_keep; [done| |tauto]. intros x. cbn. rewrite elem_of_difference, elem_of_union, elem_of_singleton.
        destruct (decide (x = n)) as [-> |]; intuition congruence.
    + destruct res as [[o addr]|]; [by destruct Hk|]. subst k'. apply change_keep; [done|tauto|tauto].
  - apply andb_true_iff in He as [[Hn Ht]%andb_true_iff Ha]. apply bool_decide_eq_true in Hn, Ht. rewrite Hn in I4, I5. destruct (cn w) as [c|] eqn:El; [|done]. cbn [mbind option_bind].
    rewrite Ht in I3. destruct I3 as (Eb & W & Hp & Hh & Hj & Hcn). cbn in Hcn. apply Z.geb_le in Ha.
    assert (fd_of_connector (Some c) = Some (c_fd c)) as Ef by (cbn; by replace (c_fd c =? -1) with false by (symmetry; lia)). rewrite Ef in I5.
    destruct (connection_init_ok (kn w) (rx w) (SOURCE_CONNECTOR c) a (mem (lg w)) I1 I4) as (k' & r' & res & -> & I' & O & C & Hk); [|done| |].
    { cbn. rewrite Hcn, Hh, Hj. cbn. rewrite !andb_true_r. by apply Z.geb_le. }
    { intros n. cbn. intros [= <-]. split; [|done]. apply (o_open _ _ _ _ I5). right. by left. }
    cbn [made mbind option_bind used]. eexists. split; [done|].
    apply (change_step w _ _ (fun _ => False)); cbn [kn rx ls cn told con lg]; try done; [by eapply listener_frame; [apply O|]|..].
    + rewrite Ht. cbn. rewrite Hh in *. destruct O as [_ ->]. rewrite W. split_and!; try done. by left.
    + rewrite El, Hn, Ef. cbn [fd_of_connector mbind option_bind c_fd Z.eqb Pos.eqb]. cbn in Hk. destruct res as [[o addr]|]; cbn [fmap option_fmap option_map fst] in *.
      * destruct Hk as [-> [= E1 E2]]. cbn [fd_of_connection mbind option_bind]. rewrite <- E1, <- E2. apply change_taken; [done|tauto].
      * subst k'. destruct (change_closed _ _ _ _ (fun _ => False) (mk_kernel (open_fds (kn w) ∖ {[c_fd c]}) (files (kn w))) (Some (c_fd c)) I5) as (_ & H & _); [apply closed_is|tauto|by apply H].
  - apply andb_true_iff in He as [[[Hn Hp]%andb_true_iff Ho]%andb_true_iff Hw]. apply bool_decide_eq_true in Hn, Ho, Hw. apply Z.leb_le in Hp. unfold owned in Hw. rewrite Hn in I4, I5, Hw.
    destruct (connection_init_ok (kn w) (rx w) (SOURCE_PIPE m cl) a (mem (lg w)) I1 I4) as (k' & r' & res & -> & I' & O & C & Hk); [by apply Z.geb_le|by destruct (i_accept a)|by intros n [= <- _]|].
    cbn [made mbind option_bind used]. eexists. split; [done|]. cbn in Hk.
    apply (change_step w _ _ (fun n => cl = true /\ m = n)); cbn [kn rx ls cn told con lg]; try done; [|by eapply listener_frame; [apply O|]|by eapply connector_frame; [apply O|]|].
    { intros n. cbn. destruct cl; intuition congruence. }
    rewrite Hn. destruct res as [[o addr]|]; cbn [fmap option_fmap option_map fst] in *.
    + destruct Hk as [-> [= E1 E2]]. cbn [fd_of_connection mbind option_bind]. rewrite <- E1, <- E2. destruct cl; [|by apply change_keep; [|tauto|intros n [? _]]].
      destruct (change_given (kn w) _ _ m I5 Ho Hw) as [H1 H2]. split; [done|]. intros n. rewrite H2. intuition.
    + subst k'. destruct cl; [|by apply change_keep; [|tauto|intros n [? _]]].
      destruct (change_given_closed (kn w) _ _ m _ I5 (closed_is _ _) Hw) as [H1 H2]. split; [done|]. intros n. rewrite H2. intuition.
  - destruct (con w) as [o|] eqn:Ho; [|done]. apply andb_true_iff in He as [Hs Hr]. apply bool_decide_eq_true in Hs, Hr. cbn [mbind option_bind].
    pose proof (inv_good w o I Ho) as G. destruct (connection_free_ok (kn w) (rx w) o _ G Hs Hr) as (r' & -> & I' & O & C).
    { intros Hcl. apply (o_open _ _ _ _ I5). right. right. cbn. by rewrite Hcl. }
    cbn [mbind option_bind]. eexists. split; [done|].
    apply (change_step w _ _ (fun _ => False)); cbn [kn rx ls cn told con lg]; try done; [by eapply listener_frame; [apply O|]|by eapply connector_frame; [apply O|]|]. rewrite Ho.
    destruct (change_closed _ _ _ _ (fun _ => False) (released (kn w) (Some (fd o, close_fd o))) (fd_of_connection (Some o)) I5) as (_ & _ & H); [|tauto|by apply H].
    cbn. destruct (close_fd o); [apply closed_is|]. intros n. intuition congruence.
Qed.

Lemma sockets_step w e : inv w -> enabled w e = true -> if stale w e then exec w e = None else steps w e (posix = true -> error_returned w e = true) (exec w e).
Proof using Type*.
  intros I He. destruct (is_con_event e) eqn:Hc; [by apply con_event_ok|].
  assert (exists w', exec w e = Some w' /\ inv w' /\ balanced w e w') as (w' & -> & I' & B') by (destruct e; try done; solve [by apply listener_event_ok|by apply connector_event_ok|by apply made_event_ok]).
  assert (stale w e = false) as -> by (by destruct e). exists w'. split; [done|]. split; [done|]. split; [by apply inv_unwatched|done].
Qed.

(** When errors are returned, nothing is waited for that is not outstanding. *)
Lemma never_stale w e : inv w -> posix = true -> enabled w e = true -> stale w e = false.
Proof using Type*.
  intros I Hp He. destruct e; try done. cbn [enabled stale] in *. destruct (con w) as [o|] eqn:Ho; [|done]. apply andb_true_iff in He as [[[[Hu _]%andb_true_iff Hj]%andb_true_iff Hw]%andb_true_iff _]. apply negb_true_iff in Hj.
  destruct (inv_good w o I Ho) as [(rd & wr & B & S) _]. destruct (S (usable_no_err o Hu)) as [Sw Sr]. rewrite (b_watch _ _ _ _ B) in Hw. unfold send_settled, recv_settled in *. destruct (is_hupd o); [done|].
  rewrite (b_wait _ _ _ _ B) in Hw. apply reported_flags in Hw as (ra & wa & er & hu & -> & Hra & Hwa & _). destruct (has_reports ra wa er hu) as (-> & -> & _). destruct Sw as [_ Sw], Sr as (_ & _ & Sr). destruct (Sr Hp) as [Sr' _].
  apply orb_false_iff. split; [destruct wa; [|done]; by rewrite Sw by auto|destruct ra; [|done]; by rewrite Sr' by auto].
Qed.

Lemma con_mem r o x m : (forall c, o = Some c -> sending c = true -> read_mem m (src x) (zlen (buf x)) = read_mem (mem x) (src x) (zlen (buf x))) -> con_ok r o x -> con_ok r o (with_mem x m).
Proof.
  unfold con_ok. destruct o as [o|]; [|done]. intros Hm (H & P & Hc). split; [exact H|]. split; [|done]. destruct P as [P1 P2 P3 P4 P5 P6 P7 P8 P9]. split; try done. cbn. intros Hs. destruct (P7 Hs) as [? E]. split; [done|]. etransitivity; [by apply (Hm o)|exact E].
Qed.

Lemma sockets_reach_inv w : reach w -> inv w.
Proof using Type*.
  induction 1 as [k r m I W1 W2 W3 L1 L2|w k' r' m' _ IH I W L1 L2 Hk Hm|w e w' _ IH He Herr E].
  - split; cbn; try done. split; intros n; [by intros [?|[?|?]]|]. split_and!; by intros [? ?].
  - destruct IH as [I1 I2 I3 I4 I5]. split; cbn; try done.
    + eapply listener_frame; [|done]. apply W. by left.
    + eapply connector_frame; [|done]. apply W. right. by left.
    + apply con_mem; [exact Hm|]. apply (con_frame (rx w)); try done. apply W. right. right. by left.
    + split; [|apply I5]. intros n Hn. by apply Hk.
  - pose proof (sockets_step w e IH He) as H. destruct (stale w e); [congruence|]. destruct H as (w1 & E1 & _ & _ & I'). rewrite E in E1. injection E1 as <-. by apply I'.
Qed.

(** ** Theorems *)

(** C26: stream sockets are safe: whatever the user does within the documented rules, whatever the reactor
    reports and the operating system answers, and whatever others do with the reactor in between, no
    assertion of the listener, the connector, the connection, their interfaces or the reactor's functions is
    violated, with one exception: the assertion of [connection_fd_handler] on its operations is violated exactly when a readiness is
    reported that the connection still waits for although the operation is over ([stale]).  This never happens when the operating system returns
    a pending error from the next operation, as POSIX says ([posix], [error_returned]).  And the descriptors the three objects are to close are open and distinct, so that none is
    closed twice or used after it was closed. *)
Theorem stream_sockets_safe w : reach w ->
  (forall e, enabled w e = true -> if stale w e then exec w e = None else is_Some (exec w e)) /\
  (posix = true -> forall e, enabled w e = true -> stale w e = false) /\
  (forall n, owned w n -> n ∈ open_fds (kn w)) /\
  (forall c o, cn w = Some c -> con w = Some o -> close_fd o = true -> c_fd c <> fd o) /\
  (forall c b, cn w = Some c -> told w = Some b -> connected c = negb b /\ forall ev so, enabled w EConnectorJob = false /\ enabled w (EConnectorFd ev so) = false).
Proof using Type*.
  intros Hr. apply sockets_reach_inv in Hr as I. split; [|split; [by intros Hp e He; apply never_stale|split; [|split]]].
  - intros e He. pose proof (sockets_step w e I He) as H. destruct (stale w e); [done|]. destruct H as (w' & -> & _). by eexists.
  - intros n Hn. apply (o_open _ _ _ _ (i_fds _ I)). exact Hn.
  - intros c o Ec Eo Hcl E. pose proof (i_fds _ I) as [_ D]. rewrite Ec, Eo in D. cbn in D. rewrite Hcl, E in D. pose proof (i_con _ I) as H. rewrite Eo in H.
    destruct H as (_ & _ & Hp). specialize (Hp Hcl). destruct (D (fd o)) as (_ & _ & H). apply H. replace (fd o =? -1) with false by (symmetry; lia). done.
  - intros c b Ec Et. pose proof (i_cn _ I) as H. rewrite Ec, Et in H. destruct H as (_ & W & _ & Hh & Hj & Hc). split; [done|]. intros ev so. cbn. rewrite Ec, Hj, W, Hh. done.
Qed.

(** C34: no descriptor is lost: every event of the three objects leaves the open descriptors that are not
    theirs as they are, except that a descriptor given to a connection becomes the connection's: one that a
    failed initialisation had opened is closed again, one that a connector hands to a connection is closed by
    the connection only; and when an object is gone the reactor does not watch for it. *)
Theorem descriptors_balanced w e w' : reach w -> enabled w e = true -> exec w e = Some w' ->
  balanced w e w' /\
  (ls w' = None -> fd_watch (rx w') lobj = None) /\ (cn w' = None -> fd_watch (rx w') cobj = None) /\
  (con w' = None -> fd_watch (rx w') obj = None /\ lim_state (rx w') slim = None /\ lim_state (rx w') rlim = None).
Proof using Type*.
  intros Hr He E. apply sockets_reach_inv in Hr as I. pose proof (sockets_step w e I He) as H. destruct (stale w e); [congruence|]. destruct H as (w1 & E1 & B & U & _). replace w1 with w' in * by congruence. done.
Qed.

(** C27: the user of a connection is told the truth: the bytes of whose transmission it was told are, in
    order, the bytes that the kernel took from memory, where [write] was told to find them, and the bytes that the user finds at the places it gave are, in order, those that the kernel
    gave, wherever [read] was told to write them; an operation is
    outstanding exactly while the connection is busy with it; an error is reported at most once, as the last
    report, and exactly then the connection is in error. *)
Theorem connection_stream w o : reach w -> con w = Some o ->
  out_user (lg w) = out_wire (lg w) /\ in_user (lg w) = in_wire (lg w) /\
  (send_iface o = SPIdle <-> send_state o <> SEND_STATE_BUSY) /\
  (recv_iface o = SRIdle <-> recv_state o <> RECV_STATE_BUSY /\ recv_state o <> RECV_STATE_INITED_CLOSED) /\
  exists l, events_told (lg w) = l ++ (if d_err o then [BCONNECTION_EVENT_ERROR] else []) /\ BCONNECTION_EVENT_ERROR ∉ l.
Proof using Type*.
  intros Hr Ho. apply sockets_reach_inv in Hr as I. destruct (inv_good w o I Ho) as [_ [P1 P2 P3 P4 P5 [P6 P6'] _ _ P9]]. split; [done|]. split; [done|].
  rewrite P1, P3. unfold sending, receiving. clear P1 P2 P3. split; [case_bool_decide; intuition congruence|]. split; [|done]. repeat case_bool_decide; cbn [orb]; intuition congruence.
Qed.

(** *** Progress *)
Lemma increment_free r o rd wr x l c : base r o rd wr -> x = slim \/ x = rlim -> lim_state r x = Some (l, c) -> c < l ->
  exists r', lim_increment r x = Some (r', true).
Proof. intros [B1 _ _ _ _] Hx L Hc. destruct (lim_increment_ok r x l c B1 L) as (r' & -> & _). rewrite (proj2 (Z.ltb_lt c l) Hc). by exists r'. Qed.

Lemma set_events_limits r o rd wr rd' wr' r' : base r o rd wr -> is_hupd o = false -> fd_set_events r (bfd o) (waits rd' wr') = Some r' -> forall x, lim_state r' x = lim_state r x.
Proof.
  intros [B1 (E & _) B3 _ _] Hh Er. rewrite Hh in B3. rewrite E in Er. destruct (fd_set_events_ok r obj (waits rd' wr') B1 ltac:(by eexists) (waits_ok _ _)) as (r1 & E1 & _ & _ & L). congruence.
Qed.

(** no operation is forgotten, when pending errors are returned: while there is no error, the reactor waits on the connection's
    descriptor for writability exactly when a send is outstanding, and a receive is outstanding exactly when it
    waits for readability or a job is set for it, and not both unless the kernel has an error to return
    (after a hang-up the descriptor is not watched, and a receive has a job); and at the next report of readiness that the limit admits, the operation is completed with what the
    kernel takes or gives. *)
Theorem connection_waits w o : posix = true -> reach w -> con w = Some o -> d_err o = false ->
  (if is_hupd o then fd_watch (rx w) obj = None /\ sending o = false /\ receiving o = recv_job o
   else exists rd, fd_watch (rx w) obj = Some (waits rd (sending o)) /\ receiving o = rd || recv_job o /\ (sick (lg w) = false -> rd && recv_job o = false)) /\
  (forall l c n, is_hupd o = false -> handler o = true -> recv_job o = false -> sending o = true -> lim_state (rx w) slim = Some (l, c) -> c < l -> 0 < n <= send_busy_data_len o ->
    exists w' o', exec w (EFd BREACTOR_WRITE (IO_BYTES n) []) = Some w' /\ out_user (lg w') = out_user (lg w) ++ sub (buf (lg w)) 0 n /\ con w' = Some o' /\ send_iface o' = SPIdle) /\
  (forall l c d, is_hupd o = false -> handler o = true -> recv_job o = false -> receiving o = true -> lim_state (rx w) rlim = Some (l, c) -> c < l -> 0 < zlen d <= recv_busy_data_avail o ->
    exists w' o', exec w (EFd BREACTOR_READ (IO_BYTES (zlen d)) d) = Some w' /\ in_user (lg w') = in_user (lg w) ++ d /\ con w' = Some o' /\ recv_iface o' = SRIdle).
Proof using Type*.
  intros Hpx Hr Ho He. apply sockets_reach_inv in Hr as I. destruct (inv_good w o I Ho) as [(rd & wr & B & S') P].
  assert (if is_hupd o then sending o = false /\ receiving o = recv_job o else wr = sending o /\ receiving o = rd || recv_job o /\ (sick (lg w) = false -> rd && recv_job o = false)) as S.
  { destruct (S' He) as [Sw Sr]. unfold send_settled, recv_settled in *. destruct (is_hupd o); [done|]. destruct Sw as [Sw1 Sw2], Sr as (Sr1 & Sr2 & Sr3). destruct (Sr3 Hpx) as [Sr4 Sr5]. specialize (Sw2 Hpx). split; [|split; [|done]].
    - destruct wr, (sending o); intuition congruence.
    - destruct rd, (recv_job o), (receiving o); cbn in *; intuition congruence. }
  clear S'. split; [|split].
  - rewrite (b_watch _ _ _ _ B). destruct (is_hupd o); [done|]. destruct S as (-> & H). rewrite (b_wait _ _ _ _ B). by exists rd.
  - intros l c n Hh Hhd Hj Hs Hl Hc Hn. rewrite Hh in S. destruct S as (-> & Sr & _). rewrite Hj, orb_false_r in Sr. subst rd.
    change BREACTOR_WRITE with (IoReactor.reports false true false false). cbn [exec]. rewrite Ho. cbn [mbind option_bind]. unfold connection_fd_handler. rewrite He, Hh, (b_wait _ _ _ _ B). cbn [negb bfd with_wait wait_events].
    rewrite waits_handled. cbv zeta. cbn [negb andb]. rewrite andb_true_r, andb_false_r.
    destruct (set_events_base _ _ _ _ (receiving o) false B Hh) as (r1 & E1 & B1 & O1). rewrite E1. cbn [mbind option_bind].
    destruct (has_reports false true false false) as (-> & -> & -> & ->). cbn [orb andb negb mbind option_bind]. cbn [send_state with_wait].
    fold (sending o). rewrite Hs. cbn [negb orb]. unfold connection_send. cbn [d_err send_state with_wait is_hupd send_limit]. fold (sending o). rewrite He, Hs. cbn [negb].
    destruct (b_obj _ _ _ _ B) as (_ & -> & _). destruct (increment_free r1 _ _ _ slim l c B1) as (r2 & ->); [by left|by rewrite (set_events_limits _ _ _ _ _ _ _ B Hh E1)|done|].
    cbn [mbind option_bind negb]. cbn [send_busy_data_len with_wait send_iface]. bool_true. bool_true. rewrite (p_send _ _ P), Hs. unfold StreamPassInterface_Done. bool_true. bool_true.
    cbn. eexists _, _. split; [done|]. done.
  - intros l c d Hh Hhd Hj Hs Hl Hc Hn. rewrite Hh in S. destruct S as (-> & Sr & _). rewrite Hj, orb_false_r in Sr. subst rd.
    change BREACTOR_READ with (IoReactor.reports true false false false). cbn [exec]. rewrite Ho. cbn [mbind option_bind]. unfold connection_fd_handler. rewrite He, Hh, (b_wait _ _ _ _ B). cbn [negb bfd with_wait wait_events].
    rewrite waits_handled. cbv zeta. cbn [negb andb]. rewrite andb_true_r, andb_false_r.
    destruct (set_events_base _ _ _ _ false (sending o) B Hh) as (r1 & E1 & B1 & O1). rewrite E1. cbn [mbind option_bind].
    destruct (has_reports true false false false) as (-> & -> & -> & ->). cbn [orb andb negb mbind option_bind]. cbn [recv_state with_wait].
    fold (receiving o). rewrite Hs. cbn [negb orb]. unfold connection_recv. cbn [d_err recv_state with_wait is_hupd recv_limit]. fold (receiving o). rewrite He, Hs. cbn [negb].
    destruct (b_obj _ _ _ _ B) as (_ & _ & ->). destruct (increment_free r1 _ _ _ rlim l c B1) as (r2 & ->); [by right|by rewrite (set_events_limits _ _ _ _ _ _ _ B Hh E1)|done|].
    cbn [mbind option_bind negb]. cbn [recv_busy_data_avail with_wait recv_iface]. bool_false. bool_true. bool_true. rewrite (p_recv _ _ P), Hs. unfold StreamRecvInterface_Done. cbn [orb]. bool_true. bool_true.
    cbn. eexists _, _. split; [done|]. cbn. by rewrite (proj1 (p_dest _ _ P Hs)), read_write.
Qed.

Fixpoint run (w : world) (es : list event) : option world :=
  match es with
  | [] => Some w
  | e :: es => if enabled w e && (negb posix || error_returned w e) then w ← exec w e; run w es else None
  end.
Lemma sockets_run_reach es : forall w w', reach w -> run w es = Some w' -> reach w'.
Proof.
  induction es as [|e es IH]; intros w w' Hr; cbn [run]; [by intros [= <-]|]. destruct (enabled w e) eqn:He; [|done]. destruct (negb posix || error_returned w e) eqn:Herr; [|done].
  cbn [andb]. destruct (exec w e) as [w1|] eqn:E; [|done]. apply IH. eapply reach_step; try done. intros Hp. by rewrite Hp in Herr.
Qed.
End World.

(** ** A run in the reactor of the program

    A connector connects descriptor 5; a connection takes it over, and starts to send the three bytes at address 50 and to
    receive at address 100; the kernel is not ready for either. *)
Definition demo_start : world (R := BReactor.t) := mkw (mk_kernel ∅ ∅) initial None None None None (no_log (write_mem ∅ 50 [1; 2; 3])).
Definition demo_peer : BLisCon_from := BLISCON_FROM_ADDR (ADDR_IPV4 16777343 14356).
Definition demo_events : list event :=
  [EConnect demo_peer (mk_connect (Some 5) true CONNECT_INPROGRESS true); EConnectorFd BREACTOR_WRITE (Some 0);
   ETake (mk_init None true true); EConnectorFree; ESendInit; ERecvInit; ESend 50 [1; 2; 3] IO_AGAIN; ERecv 100 8 IO_AGAIN []].
Definition demo_run (w : world (R := BReactor.t)) (es : list event) : option (world (R := BReactor.t)) := run 1 2 3 4 5 true w es.
Definition demo : world (R := BReactor.t) := Eval vm_compute in default demo_start (demo_run demo_start demo_events).
Definition demo_con (w : world (R := BReactor.t)) : BConnection := default (mk true 0 true false 1 0 1 SPIdle false 0 0 SEND_STATE_READY 1 SRIdle false 0 0 RECV_STATE_READY false) (con w).

Lemma sockets_demo_reach : reach 1 2 3 4 5 true demo.
Proof.
  apply (sockets_run_reach 1 2 3 4 5 true demo_events demo_start); [|by vm_compute]. constructor; [apply reactor_initial_ok|by vm_compute..].
Qed.

(** The kernel takes two bytes at the first report; in the same report the connection is found to be readable. *)
Definition demo_ready : event := EFd (Z.lor BREACTOR_READ BREACTOR_WRITE) (IO_BYTES 2) [].

Lemma stream_sockets_safe_witness : is_Some (exec 1 2 3 4 5 demo demo_ready) /\ 5 ∈ open_fds (kn demo).
Proof.
  destruct (stream_sockets_safe 1 2 3 4 5 true ltac:(done) ltac:(done) ltac:(done) ltac:(done) demo sockets_demo_reach) as (H1 & _ & H2 & _ & _).
  split; [exact (H1 demo_ready ltac:(by vm_compute))|apply H2; by vm_compute; right; right].
Defined.

Definition demo_idle : world (R := BReactor.t) := Eval vm_compute in default demo_start (demo_run demo [ESendFree; ERecvFree]).
Definition demo_freed : world (R := BReactor.t) := Eval vm_compute in default demo_start (demo_run demo_idle [EFree]).
Lemma sockets_idle_reach : reach 1 2 3 4 5 true demo_idle.
Proof. apply (sockets_run_reach 1 2 3 4 5 true [ESendFree; ERecvFree] demo); [apply sockets_demo_reach|by vm_compute]. Qed.

(** Freeing the connection closes the descriptor that the connector opened. *)
Lemma descriptors_balanced_witness : balanced demo_idle EFree demo_freed /\ bool_decide (5 ∈ open_fds (kn demo_idle)) = true /\ bool_decide (5 ∈ open_fds (kn demo_freed)) = false.
Proof.
  split; [|by vm_compute].
  apply (descriptors_balanced 1 2 3 4 5 true ltac:(done) ltac:(done) ltac:(done) ltac:(done) demo_idle EFree demo_freed sockets_idle_reach); by vm_compute.
Defined.

Definition demo_sent : world (R := BReactor.t) := Eval vm_compute in default demo_start (demo_run demo [demo_ready; ERecvJob (IO_BYTES 3) [7; 8; 9]]).
Lemma demo_sent_reach : reach 1 2 3 4 5 true demo_sent.
Proof. apply (sockets_run_reach 1 2 3 4 5 true [demo_ready; ERecvJob (IO_BYTES 3) [7; 8; 9]] demo); [apply sockets_demo_reach|by vm_compute]. Qed.

Lemma connection_stream_witness : out_user (lg demo_sent) = out_wire (lg demo_sent) /\ out_user (lg demo_sent) = [1; 2] /\ in_user (lg demo_sent) = [7; 8; 9].
Proof.
  split; [|by vm_compute].
  apply (connection_stream 1 2 3 4 5 true ltac:(done) ltac:(done) ltac:(done) ltac:(done) demo_sent (demo_con demo_sent) demo_sent_reach). by vm_compute.
Defined.

Lemma connection_waits_witness : fd_watch (rx demo) 3%positive = Some (waits true true) /\
  exists w' o', exec 1 2 3 4 5 demo (EFd BREACTOR_WRITE (IO_BYTES 3) []) = Some w' /\ out_user (lg w') = [1; 2; 3] /\ con w' = Some o' /\ send_iface o' = SPIdle.
Proof.
  destruct (connection_waits 1 2 3 4 5 true ltac:(done) ltac:(done) ltac:(done) ltac:(done) demo (demo_con demo) eq_refl sockets_demo_reach ltac:(by vm_compute) ltac:(by vm_compute)) as (H1 & H2 & _).
  split; [by vm_compute|]. clear H1. apply (H2 2 1 3); by vm_compute.
Defined.

(** What POSIX says of pending errors is needed: when an error is reported alone and the send succeeds all the same, the
    connection goes on waiting for writability without anything to send, and the next report of it is [stale] and violates an
    assertion of [connection_fd_handler]. *)
Definition demo_alone : list event := [EFd BREACTOR_ERROR (IO_BYTES 3) []; ERecvJob IO_AGAIN []].
Example error_reported_alone : run 1 2 3 4 5 true demo demo_alone = None /\ exists w, run 1 2 3 4 5 false demo demo_alone = Some w /\
  send_state (demo_con w) = SEND_STATE_READY /\ fd_watch (rx w) 3%positive = Some (waits true true) /\
  (enabled 1 2 3 w (EFd BREACTOR_WRITE IO_AGAIN []), stale w (EFd BREACTOR_WRITE IO_AGAIN [])) = (true, true) /\
  forall a d, exec 1 2 3 4 5 w (EFd BREACTOR_WRITE a d) = None.
Proof. split; [by vm_compute|]. eexists. split; [by vm_compute|]. do 3 (split; [by vm_compute|]). intros a d. by vm_compute. Qed.

(** The state [RECV_STATE_NOT_INITED_CLOSED] is never entered: after the end of the stream the receive
    interface can be initialised again. *)
Example recv_again_after_close :
  let w := default demo_start (demo_run demo [EFd BREACTOR_READ (IO_BYTES 0) []; ERecvFree; ERecvInit]) in
  (recv_state (demo_con w), events_told (lg w)) = (RECV_STATE_READY, [BCONNECTION_EVENT_RECVCLOSED]).
Proof. by vm_compute. Qed.

End BConnectionInv.
