(* ===== verification/BDatagram.v ===== *)
(** * Datagram sockets (system/BDatagram_unix.c, system/BDatagram_unix.h)

    A datagram socket sends the packets of its user to an address the user sets, and receives
    packets with the addresses they come from and were sent to.  It lives in a reactor, of which it
    uses the file descriptor and limit functions ([IoReactor]); the state of its jobs is kept as
    flags.  Nothing is sent before the addresses are set, and nothing is received before the socket
    was bound or has sent. *)

From stdpp Require Import gmap.
From S2P Require Import Prelude FlowView BAddr BReactor IoReactor Sockets.
Import BReactor.

Module BDatagram.

Definition BDATAGRAM_SEND_LIMIT : Z := 2.
Definition BDATAGRAM_RECV_LIMIT : Z := 2.
Definition ARPHRD_ETHER : Z := 1.
Definition BADDR_PACKET_HEADER_TYPE_ETHERNET : Z := 1.

(** ** Addresses *)
Definition BDatagram_AddressFamilySupported (family : Z) : bool := (family =? 1) || (family =? 2) || (family =? 5).

Definition family_socket_to_sys (family : Z) : option Z :=
  if family =? 1 then Some AF_INET else if family =? 2 then Some AF_INET6 else if family =? 5 then Some AF_PACKET else None.

(** The switch on [BADDR_PACKET_PACKET_TYPE_...], and its inverse. *)
Definition pkttype_to_sys (packet_type : Z) : option Z :=
  if packet_type =? 1 then Some PACKET_HOST else if packet_type =? 2 then Some PACKET_BROADCAST else if packet_type =? 3 then Some PACKET_MULTICAST
  else if packet_type =? 4 then Some PACKET_OTHERHOST else if packet_type =? 5 then Some PACKET_OUTGOING else None.
Definition pkttype_of_sys (sll_pkttype : Z) : option Z :=
  if sll_pkttype =? PACKET_HOST then Some 1 else if sll_pkttype =? PACKET_BROADCAST then Some 2 else if sll_pkttype =? PACKET_MULTICAST then Some 3
  else if sll_pkttype =? PACKET_OTHERHOST then Some 4 else if sll_pkttype =? PACKET_OUTGOING then Some 5 else None.

Definition addr_socket_to_sys (addr : BAddr) : option sys_addr :=
  match addr with
  | ADDR_IPV4 ip port => Some (mk_sys sizeof_sockaddr_in (SA_IN port ip))
  | ADDR_IPV6 ip port => Some (mk_sys sizeof_sockaddr_in6 (SA_IN6 port 0 (take 16 ip) 0))
  | ADDR_PACKET phys_proto interface_index header_type packet_type phys_addr =>
      ASSERT header_type =? BADDR_PACKET_HEADER_TYPE_ETHERNET;
      t ← pkttype_to_sys packet_type;
      Some (mk_sys sizeof_sockaddr_ll (SA_LL phys_proto interface_index ARPHRD_ETHER t 6 (take 6 phys_addr ++ [0; 0])))
  | ADDR_NONE => None
  end.

Definition addr_sys_to_socket (addr : sys_addr) : option BAddr :=
  match sys_sa addr with
  | SA_IN sin_port s_addr => ASSERT sys_len addr =? sizeof_sockaddr_in; Some (ADDR_IPV4 s_addr sin_port)
  | SA_IN6 sin6_port _ s6_addr _ => ASSERT sys_len addr =? sizeof_sockaddr_in6; Some (ADDR_IPV6 (take 16 s6_addr) sin6_port)
  | SA_LL proto ifindex hatype pkttype halen sll_addr =>
      if sys_len addr <? offsetof_sll_addr + 6 then Some ADDR_NONE else
      if negb (hatype =? ARPHRD_ETHER) then Some ADDR_NONE else
      match pkttype_of_sys pkttype with
      | None => Some ADDR_NONE
      | Some packet_type =>
          if negb (halen =? 6) then Some ADDR_NONE else
          Some (ADDR_PACKET proto ifindex BADDR_PACKET_HEADER_TYPE_ETHERNET packet_type (take 6 sll_addr))
      end
  | SA_OTHER _ => Some ADDR_NONE
  end.

(** The ancillary data of a message that names a local address ([ipi_spec_dst] when it is sent,
    [ipi_addr] when it was received; [ipi6_addr]); other data is ignored. *)
Inductive cmsg := IP_PKTINFO (addr : Z) | IPV6_PKTINFO (addr : list Z) | CMSG_OTHER.

(** The control data that is sent with a local address. *)
Definition control_of (local_addr : BIPAddr) : option cmsg :=
  match local_addr with IP_V4 ip => Some (IP_PKTINFO ip) | IP_V6 ip => Some (IPV6_PKTINFO (take 16 ip)) | IP_NONE => None end.

(** The loop over the control data of a message received. *)
Definition local_of (l : list cmsg) : BIPAddr :=
  fold_left (fun a c => match c with IP_PKTINFO ip => IP_V4 ip | IPV6_PKTINFO ip => IP_V6 (take 16 ip) | CMSG_OTHER => a end) l IP_NONE.

(** ** State *)
Record send_t := mk_send {
  s_limit : ptr; s_have_addrs : bool; s_remote_addr : BAddr; s_local_addr : BIPAddr; s_inited : bool; s_mtu : Z; s_iface : pass_view; s_job : bool;
  s_busy : bool; s_busy_data : option Z; s_busy_data_len : Z }.
Record recv_t := mk_recv {
  r_limit : ptr; r_started : bool; r_have_addrs : bool; r_remote_addr : BAddr; r_local_addr : BIPAddr; r_inited : bool; r_mtu : Z; r_iface : recv_view; r_job : bool;
  r_busy : bool; r_busy_data : Z }.

(** [bfd], [s_limit], [r_limit]: addresses; [d_err]: whether an error was reported. *)
Record BDatagram := mk { fd : Z; bfd : ptr; wait_events : Z; snd_ : send_t; rcv : recv_t; d_err : bool }.

Definition with_wait (o : BDatagram) (ev : Z) : BDatagram := mk (fd o) (bfd o) ev (snd_ o) (rcv o) (d_err o).
Definition with_snd (o : BDatagram) (s : send_t) : BDatagram := mk (fd o) (bfd o) (wait_events o) s (rcv o) (d_err o).
Definition with_rcv (o : BDatagram) (r : recv_t) : BDatagram := mk (fd o) (bfd o) (wait_events o) (snd_ o) r (d_err o).
Definition with_err (o : BDatagram) : BDatagram := mk (fd o) (bfd o) (wait_events o) (snd_ o) (rcv o) true.
Definition s_set_job (s : send_t) (j : bool) : send_t :=
  mk_send (s_limit s) (s_have_addrs s) (s_remote_addr s) (s_local_addr s) (s_inited s) (s_mtu s) (s_iface s) j (s_busy s) (s_busy_data s) (s_busy_data_len s).
Definition s_set_busy (s : send_t) (i : pass_view) (b : bool) (d : option Z) (len : Z) : send_t :=
  mk_send (s_limit s) (s_have_addrs s) (s_remote_addr s) (s_local_addr s) (s_inited s) (s_mtu s) i (s_job s) b d len.
Definition s_set_addrs (s : send_t) (ra : BAddr) (la : BIPAddr) : send_t :=
  mk_send (s_limit s) true ra la (s_inited s) (s_mtu s) (s_iface s) (s_job s) (s_busy s) (s_busy_data s) (s_busy_data_len s).
Definition s_set_inited (s : send_t) (b : bool) (mtu : Z) (busy : bool) : send_t :=
  mk_send (s_limit s) (s_have_addrs s) (s_remote_addr s) (s_local_addr s) b mtu PIdle false busy (s_busy_data s) (s_busy_data_len s).
Definition r_set_job (r : recv_t) (j : bool) : recv_t :=
  mk_recv (r_limit r) (r_started r) (r_have_addrs r) (r_remote_addr r) (r_local_addr r) (r_inited r) (r_mtu r) (r_iface r) j (r_busy r) (r_busy_data r).
Definition r_set_busy (r : recv_t) (i : recv_view) (b : bool) (d : Z) : recv_t :=
  mk_recv (r_limit r) (r_started r) (r_have_addrs r) (r_remote_addr r) (r_local_addr r) (r_inited r) (r_mtu r) i (r_job r) b d.
Definition r_set_started (r : recv_t) (j : bool) : recv_t :=
  mk_recv (r_limit r) true (r_have_addrs r) (r_remote_addr r) (r_local_addr r) (r_inited r) (r_mtu r) (r_iface r) j (r_busy r) (r_busy_data r).
Definition r_set_addrs (r : recv_t) (ra : BAddr) (la : BIPAddr) : recv_t :=
  mk_recv (r_limit r) (r_started r) true ra la (r_inited r) (r_mtu r) (r_iface r) (r_job r) (r_busy r) (r_busy_data r).
Definition r_set_inited (r : recv_t) (b : bool) (mtu : Z) (busy : bool) : recv_t :=
  mk_recv (r_limit r) (r_started r) (r_have_addrs r) (r_remote_addr r) (r_local_addr r) b mtu RIdle false busy (r_busy_data r).

(** [BPending_Set] on the job of the receive side, if a receive is outstanding; [started] is set. *)
Definition start_receiving (o : BDatagram) : BDatagram :=
  if negb (r_started (rcv o)) then with_rcv o (r_set_started (rcv o) (if r_inited (rcv o) && r_busy (rcv o) then true else r_job (rcv o))) else o.

Section Reactor.
Context {R : Type} `{!IoReactor R}.

(** [DTook data len n name control]: [sendmsg] took the message of [len] bytes at [data], [msg_iov], and returned [n] (that it is
    less than [len] is only logged); [DGave data n]: [recvmsg] wrote a packet of [n] bytes to [data]. *)
Inductive action :=
| DTook (data : option Z) (len n : Z) (name : sys_addr) (control : option cmsg) | SendDone | DGave (data n : Z) | RecvDone (n : Z) | EventError.

Inductive send_answer := S_BYTES (n : Z) | S_AGAIN | S_ERROR.
Inductive recv_answer := R_MSG (n : Z) (name : sys_addr) (control : list cmsg) | R_AGAIN | R_ERROR.

Definition report_error (r : R) (o : BDatagram) : option (R * BDatagram * list action) :=
  ASSERT negb (d_err o);
  Some (r, with_err o, [EventError]).

Definition wait_for (r : R) (o : BDatagram) (ev : Z) : option (R * BDatagram * list action) :=
  let o := with_wait o (Z.lor (wait_events o) ev) in
  r ← fd_set_events r (bfd o) (wait_events o);
  Some (r, o, []).

Definition do_send (r : R) (o : BDatagram) (a : send_answer) : option (R * BDatagram * list action) :=
  ASSERT negb (d_err o);
  let s := snd_ o in
  ASSERT s_inited s;
  ASSERT s_busy s;
  ASSERT s_have_addrs s;
  '(r, go) ← lim_increment r (s_limit s);
  if negb (go : bool) then wait_for r o BREACTOR_WRITE else
  name ← addr_socket_to_sys (s_remote_addr s);
  let control := control_of (s_local_addr s) in
  match a with
  | S_AGAIN => wait_for r o BREACTOR_WRITE
  | S_ERROR => report_error r o
  | S_BYTES bytes =>
      ASSERT bytes >=? 0;
      ASSERT bytes <=? s_busy_data_len s;
      let o := start_receiving o in
      i ← PacketPassInterface_Done (s_iface s);
      Some (r, with_snd o (s_set_busy s i false (s_busy_data s) (s_busy_data_len s)), [DTook (s_busy_data s) (s_busy_data_len s) bytes name control; SendDone])
  end.

Definition do_recv (r : R) (o : BDatagram) (a : recv_answer) : option (R * BDatagram * list action) :=
  ASSERT negb (d_err o);
  let v := rcv o in
  ASSERT r_inited v;
  ASSERT r_busy v;
  ASSERT r_started v;
  '(r, go) ← lim_increment r (r_limit v);
  if negb (go : bool) then wait_for r o BREACTOR_READ else
  match a with
  | R_AGAIN => wait_for r o BREACTOR_READ
  | R_ERROR => report_error r o
  | R_MSG bytes name control =>
      ASSERT bytes >=? 0;
      ASSERT bytes <=? r_mtu v;
      ra ← addr_sys_to_socket name;
      let v := r_set_addrs v ra (local_of control) in
      i ← PacketRecvInterface_Done (r_iface v) (r_mtu v) bytes;
      Some (r, with_rcv o (r_set_busy v i false (r_busy_data v)), [DGave (r_busy_data v) bytes; RecvDone bytes])
  end.

(** [a], [b]: the answers to [sendmsg] and [recvmsg]; one of them is called. *)
Definition fd_handler (r : R) (o : BDatagram) (events : Z) (a : send_answer) (b : recv_answer) : option (R * BDatagram * list action) :=
  ASSERT negb (d_err o);
  let o := with_wait o (Z.ldiff (wait_events o) events) in
  r ← fd_set_events r (bfd o) (wait_events o);
  let failed := has events (Z.lor BREACTOR_ERROR BREACTOR_HUP) in
  let can_send := s_inited (snd_ o) && s_busy (snd_ o) && s_have_addrs (snd_ o) in
  let have_send := has events BREACTOR_WRITE || (failed && can_send) in
  ASSERT negb have_send || can_send;
  let can_recv := r_inited (rcv o) && r_busy (rcv o) && r_started (rcv o) in
  let have_recv := has events BREACTOR_READ || (failed && can_recv) in
  ASSERT negb have_recv || can_recv;
  if have_send then
    let o := if have_recv then with_rcv o (r_set_job (rcv o) true) else o in
    do_send r o a
  else if have_recv then do_recv r o b
  else report_error r o.

(** The job is not set any more when it runs. *)
Definition send_job_handler (r : R) (o : BDatagram) (a : send_answer) : option (R * BDatagram * list action) :=
  let o := with_snd o (s_set_job (snd_ o) false) in
  ASSERT negb (d_err o);
  ASSERT s_inited (snd_ o);
  ASSERT s_busy (snd_ o);
  ASSERT s_have_addrs (snd_ o);
  do_send r o a.
Definition recv_job_handler (r : R) (o : BDatagram) (b : recv_answer) : option (R * BDatagram * list action) :=
  let o := with_rcv o (r_set_job (rcv o) false) in
  ASSERT negb (d_err o);
  ASSERT r_inited (rcv o);
  ASSERT r_busy (rcv o);
  ASSERT r_started (rcv o);
  do_recv r o b.

Definition send_if_handler_send (o : BDatagram) (data : option Z) (data_len : Z) : option BDatagram :=
  ASSERT negb (d_err o);
  let s := snd_ o in
  ASSERT s_inited s;
  ASSERT negb (s_busy s);
  ASSERT data_len >=? 0;
  ASSERT data_len <=? s_mtu s;
  let s := s_set_busy s (s_iface s) true data data_len in
  if negb (s_have_addrs s) then Some (with_snd o s) else Some (with_snd o (s_set_job s true)).

Definition recv_if_handler_recv (o : BDatagram) (data : Z) : option BDatagram :=
  ASSERT negb (d_err o);
  let v := rcv o in
  ASSERT r_inited v;
  ASSERT negb (r_busy v);
  let v := r_set_busy v (r_iface v) true data in
  if negb (r_started v) then Some (with_rcv o v) else Some (with_rcv o (r_set_job v true)).

(** The option, with its level, that [set_pktinfo] sets to 1; a failure is only logged. *)
Definition set_pktinfo (family : Z) : option (Z * Z) := if family =? 1 then Some (0, 8) else if family =? 2 then Some (41, 49) else None.

(** [n]: the answer of [socket]; [nonblock], [mem]: whether the calls succeed. *)
Definition BDatagram_Init (k : kernel) (r : R) (obj slim rlim : ptr) (family : Z) (n : option Z) (nonblock mem : bool) : option (kernel * R * option BDatagram) :=
  ASSERT BDatagram_AddressFamilySupported family;
  _ ← family_socket_to_sys family;
  let k := new_fd k n in
  match n with
  | None => Some (k, r, None)
  | Some n =>
      if negb nonblock then k ← sys_close k n; Some (k, r, None) else
      '(r, res) ← fd_add r obj n mem;
      if negb (res : bool) then k ← sys_close k n; Some (k, r, None) else
      r ← lim_init r slim BDATAGRAM_SEND_LIMIT;
      r ← lim_init r rlim BDATAGRAM_RECV_LIMIT;
      Some (k, r, Some (mk n obj 0 (mk_send slim false ADDR_NONE IP_NONE false 0 PIdle false false None 0)
        (mk_recv rlim false false ADDR_NONE IP_NONE false 0 RIdle false false 0) false))
  end.

Definition BDatagram_Free (k : kernel) (r : R) (o : BDatagram) : option (kernel * R) :=
  ASSERT negb (r_inited (rcv o));
  ASSERT negb (s_inited (snd_ o));
  r ← lim_free r (r_limit (rcv o));
  r ← lim_free r (s_limit (snd_ o));
  r ← fd_remove r (bfd o);
  k ← sys_close k (fd o);
  Some (k, r).

(** [ok]: the answer of [bind]. *)
Definition BDatagram_Bind (o : BDatagram) (addr : BAddr) (ok : bool) : option (BDatagram * bool) :=
  ASSERT negb (d_err o);
  ASSERT BDatagram_AddressFamilySupported (addr_type addr);
  _ ← addr_socket_to_sys addr;
  if negb ok then Some (o, false) else Some (start_receiving o, true).

Definition BDatagram_SetSendAddrs (o : BDatagram) (remote_addr : BAddr) (local_addr : BIPAddr) : option BDatagram :=
  ASSERT negb (d_err o);
  ASSERT BDatagram_AddressFamilySupported (addr_type remote_addr);
  let s := snd_ o in
  let start := negb (s_have_addrs s) && s_inited s && s_busy s in
  let s := s_set_addrs s remote_addr local_addr in
  Some (with_snd o (if start then s_set_job s true else s)).

Definition BDatagram_GetLastReceiveAddrs (o : BDatagram) : option (BAddr * BIPAddr) :=
  if negb (r_have_addrs (rcv o)) then None else Some (r_remote_addr (rcv o), r_local_addr (rcv o)).

Definition BDatagram_GetFd (o : BDatagram) : Z := fd o.

(** [ok]: the answer of [setsockopt]. *)
Definition BDatagram_SetReuseAddr (o : BDatagram) (reuse : Z) (ok : bool) : option bool :=
  ASSERT (reuse =? 0) || (reuse =? 1);
  Some ok.

Definition BDatagram_SendAsync_Init (o : BDatagram) (mtu : Z) : option BDatagram :=
  ASSERT negb (d_err o);
  ASSERT negb (s_inited (snd_ o));
  ASSERT mtu >=? 0;
  Some (with_snd o (s_set_inited (snd_ o) true mtu false)).

Definition BDatagram_SendAsync_Free (r : R) (o : BDatagram) : option (R * BDatagram) :=
  ASSERT s_inited (snd_ o);
  let o := with_wait o (Z.ldiff (wait_events o) BREACTOR_WRITE) in
  r ← fd_set_events r (bfd o) (wait_events o);
  Some (r, with_snd o (s_set_inited (snd_ o) false (s_mtu (snd_ o)) (s_busy (snd_ o)))).

Definition BDatagram_RecvAsync_Init (o : BDatagram) (mtu : Z) : option BDatagram :=
  ASSERT negb (d_err o);
  ASSERT negb (r_inited (rcv o));
  ASSERT mtu >=? 0;
  Some (with_rcv o (r_set_inited (rcv o) true mtu false)).

Definition BDatagram_RecvAsync_Free (r : R) (o : BDatagram) : option (R * BDatagram) :=
  ASSERT r_inited (rcv o);
  let o := with_wait o (Z.ldiff (wait_events o) BREACTOR_READ) in
  r ← fd_set_events r (bfd o) (wait_events o);
  Some (r, with_rcv o (r_set_inited (rcv o) false (r_mtu (rcv o)) (r_busy (rcv o)))).

End Reactor.
End BDatagram.
