(* ===== verification/BDatagramInv.v ===== *)
(** * Datagram sockets: environment, invariant and theorems

    The environment of a datagram socket is its user, the reactor, the operating system, and
    everything else that uses the reactor in between ([reach_other]). *)

From stdpp Require Import gmap.
From S2P Require Import Prelude FlowView BAddr BReactor IoReactor Sockets BDatagram.
Import BReactor BDatagram.

Module BDatagramInv.

(** ** Addresses *)

(** The addresses a socket can be told to send to. *)
Definition sendable (a : BAddr) : bool := bool_decide (is_Some (addr_socket_to_sys a)).

Lemma sendable_supported a : sendable a = true -> BDatagram_AddressFamilySupported (addr_type a) = true.
Proof. intros [n H]%bool_decide_eq_true. by destruct a. Qed.

Lemma pkttype_roundtrip t s : pkttype_to_sys t = Some s -> pkttype_of_sys s = Some t.
Proof. unfold pkttype_to_sys. repeat (case_if; [intros [= <-]; by subst|]). done. Qed.

(** An address survives the conversion to the system's form and back. *)
Lemma datagram_addr_roundtrip a s : addr_socket_to_sys a = Some s ->
  match a with ADDR_IPV6 ip _ => zlen ip = 16 | ADDR_PACKET _ _ _ _ ad => zlen ad = 6 | _ => True end ->
  sys_addr_ok s /\ addr_sys_to_socket s = Some a.
Proof.
  destruct a as [|ip port|ip port|proto ifi ht pt ad]; cbn [addr_socket_to_sys]; [done|..].
  - by intros [= <-].
  - intros [= <-] Hip. assert (take 16 ip = ip) as -> by (apply take_ge; unfold zlen in Hip; lia). split; [done|]. cbn. by rewrite take_ge by (unfold zlen in Hip; lia).
  - case_if; [|done]. destruct (pkttype_to_sys pt) as [t|] eqn:Et; [|done]. cbn [mbind option_bind]. intros [= <-] Had. assert (take 6 ad = ad) as -> by (apply take_ge; unfold zlen in Had; lia).
    split; [split; [done|rewrite zlen_app, Had; done]|]. cbn. rewrite (pkttype_roundtrip _ _ Et). cbn. unfold zlen in Had. rewrite take_app_le by lia. rewrite take_ge by lia. by subst ht.
Qed.

Lemma datagram_sys_to_socket s : sys_addr_ok s -> is_Some (addr_sys_to_socket s).
Proof.
  destruct s as [n [| |proto ifi ha pt hl ad|]]; unfold sys_addr_ok, addr_sys_to_socket; cbn; [intros ->; by eexists|intros [-> _]; by eexists| |by eexists].
  intros _. do 2 (case_if; [by eexists|]). destruct (pkttype_of_sys pt); [|by eexists]. case_if; by eexists.
Qed.

Section World.
Context {R : Type} `{!IoReactor R}.
Context (obj slim rlim : ptr).

(** ** Environment *)

(** The bytes at a pointer that may be null; what is received at [dst] does not touch them. *)
Definition bytes_at (m : memory) (p : option Z) (n : Z) : list Z := match p with Some p => read_mem m p n | None => [] end.
Definition clear_of (dst mtu : Z) (p : option Z) (n : Z) : bool := match p with Some p => apart dst mtu p n | None => true end.

(** [mem]: the memory of the process; [pkt], [src]: the packet the user is sending and where it has it; [dest]: where it wants to have what is
    received; [addrs]: the addresses it set last; [d_out]: the messages the
    kernel took from memory; [d_done]: the packets of whose transmission the user was told, with the addresses
    then set; [d_in], [d_user]: the packets the kernel gave and those the user found at [dest] when it was told that they are there; [last_from]: the
    addresses of the last one; [errors]: the errors reported; [sick]: the kernel has an error to return. *)
Record log := mk_log {
  mem : memory; pkt : list Z; src : option Z; dest : Z; addrs : option (BAddr * BIPAddr); d_out : list (sys_addr * option cmsg * list Z); d_done : list (option (BAddr * BIPAddr) * list Z);
  d_in : list (list Z); d_user : list (list Z); last_from : option (sys_addr * list cmsg); errors : nat; sick : bool }.
Definition no_log (m : memory) : log := mk_log m [] None 0 None [] [] [] [] None 0 false.
Definition with_mem (x : log) (m : memory) : log := mk_log m (pkt x) (src x) (dest x) (addrs x) (d_out x) (d_done x) (d_in x) (d_user x) (last_from x) (errors x) (sick x).
Definition with_dest (x : log) (dst : Z) : log := mk_log (mem x) (pkt x) (src x) dst (addrs x) (d_out x) (d_done x) (d_in x) (d_user x) (last_from x) (errors x) (sick x).
Definition with_pkt (x : log) (data : option Z) (p : list Z) : log := mk_log (mem x) p data (dest x) (addrs x) (d_out x) (d_done x) (d_in x) (d_user x) (last_from x) (errors x) (sick x).
Definition with_addrs (x : log) (a : BAddr * BIPAddr) : log := mk_log (mem x) (pkt x) (src x) (dest x) (Some a) (d_out x) (d_done x) (d_in x) (d_user x) (last_from x) (errors x) (sick x).
Definition with_sick (x : log) (b : bool) : log := mk_log (mem x) (pkt x) (src x) (dest x) (addrs x) (d_out x) (d_done x) (d_in x) (d_user x) (last_from x) (errors x) b.

Record world := mkw { kn : kernel; rx : R; dg : option BDatagram; lg : log }.

(** [d]: the bytes of the packet received. *)
Inductive event :=
| EInit (family : Z) (n : option Z) (nonblock mem : bool) | EFree | EBind (a : BAddr) (ok : bool) | ESetAddrs (ra : BAddr) (la : BIPAddr) | EReuse (reuse : Z) (ok : bool)
| ESendInit (mtu : Z) | ESendFree | ERecvInit (mtu : Z) | ERecvFree
| ESend (data : option Z) (p : list Z) | ERecv (dst : Z)
| EFd (events : Z) (a : send_answer) (b : recv_answer) (d : list Z) | ESendJob (a : send_answer) | ERecvJob (b : recv_answer) (d : list Z).

(** What [sendmsg] can answer for [len] bytes, and [recvmsg] for [mtu]. *)
Definition send_answer_ok (len : Z) (a : send_answer) : bool := match a with S_BYTES n => (0 <=? n) && (n <=? len) | _ => true end.
Definition recv_answer_ok (mtu : Z) (b : recv_answer) (d : list Z) : bool :=
  match b with R_MSG n name _ => (n =? zlen d) && (n <=? mtu) && bool_decide (sys_addr_ok name) | _ => true end.

Definition sending (o : BDatagram) : bool := s_inited (snd_ o) && s_busy (snd_ o).
Definition receiving (o : BDatagram) : bool := r_inited (rcv o) && r_busy (rcv o).
Definition can_send (o : BDatagram) : bool := s_inited (snd_ o) && s_busy (snd_ o) && s_have_addrs (snd_ o).
Definition can_recv (o : BDatagram) : bool := r_inited (rcv o) && r_busy (rcv o) && r_started (rcv o).

(** An error or hang-up reported without the readiness that is waited for.  POSIX describes a pending error as
    one that the next operation on the socket returns: [error_returned] says that the kernel does so.  It is no condition of
    [enabled], which admits any answer. *)
Definition error_alone (w events : Z) : bool := has events (Z.lor BREACTOR_ERROR BREACTOR_HUP) && negb (Z.ldiff w events =? 0).
Definition sick_after (w : world) (ev : Z) : bool :=
  sick (lg w) || match fd_watch (rx w) obj with Some x => error_alone x ev | None => false end.
Definition send_pending_ok (sk : bool) (a : send_answer) : bool := negb sk || match a with S_ERROR => true | _ => false end.
Definition recv_pending_ok (sk : bool) (b : recv_answer) : bool := negb sk || match b with R_ERROR => true | _ => false end.
Definition sends_first (o : BDatagram) (ev : Z) : bool := can_send o && (has ev BREACTOR_WRITE || has ev (Z.lor BREACTOR_ERROR BREACTOR_HUP)).
Definition error_returned (w : world) (e : event) : bool :=
  match e, dg w with
  | EFd ev a b _, Some o => if sends_first o ev then send_pending_ok (sick_after w ev) a else recv_pending_ok (sick_after w ev) b
  | ESendJob a, _ => send_pending_ok (sick (lg w)) a
  | ERecvJob b _, _ => recv_pending_ok (sick (lg w)) b
  | _, _ => true
  end.

(** The user's buffers: it has the packet in memory, and those of a send and a receive do not overlap while both are outstanding. *)
Definition send_buffer_ok (o : BDatagram) (x : log) (data : option Z) (p : list Z) : bool :=
  (negb (0 <? zlen p) || bool_decide (is_Some data)) && bool_decide (bytes_at (mem x) data (zlen p) = p) && (negb (receiving o) || clear_of (dest x) (r_mtu (rcv o)) data (zlen p)).
Definition recv_buffer_ok (o : BDatagram) (x : log) (dst : Z) : bool := negb (sending o) || clear_of dst (r_mtu (rcv o)) (src x) (zlen (pkt x)).

Definition enabled (w : world) (e : event) : bool :=
  match e, dg w with
  | EInit family n _ _, None => BDatagram_AddressFamilySupported family && fd_answer_ok (kn w) n
  | EFree, Some o => negb (r_inited (rcv o)) && negb (s_inited (snd_ o))
  | EBind a _, Some o => negb (d_err o) && sendable a
  | ESetAddrs ra _, Some o => negb (d_err o) && sendable ra
  | EReuse reuse _, Some o => (reuse =? 0) || (reuse =? 1)
  | ESendInit mtu, Some o => negb (d_err o) && negb (s_inited (snd_ o)) && (0 <=? mtu)
  | ESendFree, Some o => s_inited (snd_ o)
  | ERecvInit mtu, Some o => negb (d_err o) && negb (r_inited (rcv o)) && (0 <=? mtu)
  | ERecvFree, Some o => r_inited (rcv o)
  | ESend data p, Some o => negb (d_err o) && s_inited (snd_ o) && negb (s_busy (snd_ o)) && (zlen p <=? s_mtu (snd_ o)) && send_buffer_ok o (lg w) data p
  | ERecv dst, Some o => negb (d_err o) && r_inited (rcv o) && negb (r_busy (rcv o)) && recv_buffer_ok o (lg w) dst
  | EFd ev a b d, Some o => negb (d_err o) && negb (s_job (snd_ o)) && negb (r_job (rcv o)) &&
      match fd_watch (rx w) obj with Some x => reported x ev | None => false end &&
      (if sends_first o ev then send_answer_ok (s_busy_data_len (snd_ o)) a else recv_answer_ok (r_mtu (rcv o)) b d)
  | ESendJob a, Some o => negb (d_err o) && s_job (snd_ o) && send_answer_ok (s_busy_data_len (snd_ o)) a
  | ERecvJob b d, Some o => negb (d_err o) && r_job (rcv o) && recv_answer_ok (r_mtu (rcv o)) b d
  | _, _ => false
  end.

(** The history after an action; [d]: the bytes the kernel gives, with the addresses [from]. *)
Definition note (d : list Z) (from : option (sys_addr * list cmsg)) (x : log) (a : action) : log :=
  match a with
  | DTook data len _ name c => mk_log (mem x) (pkt x) (src x) (dest x) (addrs x) (d_out x ++ [(name, c, bytes_at (mem x) data len)]) (d_done x) (d_in x) (d_user x) (last_from x) (errors x) (sick x)
  | SendDone => mk_log (mem x) (pkt x) (src x) (dest x) (addrs x) (d_out x) (d_done x ++ [(addrs x, pkt x)]) (d_in x) (d_user x) (last_from x) (errors x) (sick x)
  | DGave data n => mk_log (write_mem (mem x) data d) (pkt x) (src x) (dest x) (addrs x) (d_out x) (d_done x) (d_in x ++ [d]) (d_user x) from (errors x) (sick x)
  | RecvDone n => mk_log (mem x) (pkt x) (src x) (dest x) (addrs x) (d_out x) (d_done x) (d_in x) (d_user x ++ [read_mem (mem x) (dest x) n]) (last_from x) (errors x) (sick x)
  | EventError => mk_log (mem x) (pkt x) (src x) (dest x) (addrs x) (d_out x) (d_done x) (d_in x) (d_user x) (last_from x) (S (errors x)) (sick x)
  end.
Definition from_of (b : recv_answer) : option (sys_addr * list cmsg) := match b with R_MSG _ name c => Some (name, c) | _ => None end.

Definition acted (w : world) (x : log) (d : list Z) (b : recv_answer) (res : option (R * BDatagram * list action)) : option world :=
  '(r, o, acts) ← res; Some (mkw (kn w) r (Some o) (fold_left (note d (from_of b)) acts x)).

Definition exec (w : world) (e : event) : option world :=
  let k := kn w in let r := rx w in
  match e with
  | EInit family n nb memory => '(k, r, o) ← BDatagram_Init k r obj slim rlim family n nb memory; Some (mkw k r o (no_log (mem (lg w))))
  | EFree => o ← dg w; '(k, r) ← BDatagram_Free k r o; Some (mkw k r None (lg w))
  | EBind a ok => o ← dg w; '(o, _) ← BDatagram_Bind o a ok; Some (mkw k r (Some o) (lg w))
  | ESetAddrs ra la => o ← dg w; o ← BDatagram_SetSendAddrs o ra la; Some (mkw k r (Some o) (with_addrs (lg w) (ra, la)))
  | EReuse reuse ok => o ← dg w; _ ← BDatagram_SetReuseAddr o reuse ok; Some w
  | ESendInit mtu => o ← dg w; o ← BDatagram_SendAsync_Init o mtu; Some (mkw k r (Some o) (lg w))
  | ESendFree => o ← dg w; '(r, o) ← BDatagram_SendAsync_Free r o; Some (mkw k r (Some o) (lg w))
  | ERecvInit mtu => o ← dg w; o ← BDatagram_RecvAsync_Init o mtu; Some (mkw k r (Some o) (lg w))
  | ERecvFree => o ← dg w; '(r, o) ← BDatagram_RecvAsync_Free r o; Some (mkw k r (Some o) (lg w))
  | ESend data p =>
      o ← dg w; i ← PacketPassInterface_Sender_Send (s_iface (snd_ o)) (s_mtu (snd_ o)) data (zlen p);
      o ← send_if_handler_send (with_snd o (s_set_busy (snd_ o) i (s_busy (snd_ o)) (s_busy_data (snd_ o)) (s_busy_data_len (snd_ o)))) data (zlen p);
      Some (mkw k r (Some o) (with_pkt (lg w) data p))
  | ERecv dst =>
      o ← dg w; i ← PacketRecvInterface_Receiver_Recv (r_iface (rcv o)) (r_mtu (rcv o)) (Some dst);
      o ← recv_if_handler_recv (with_rcv o (r_set_busy (rcv o) i (r_busy (rcv o)) (r_busy_data (rcv o)))) dst;
      Some (mkw k r (Some o) (with_dest (lg w) dst))
  | EFd ev a b d => o ← dg w; acted w (with_sick (lg w) (sick_after w ev)) d b (fd_handler r o ev a b)
  | ESendJob a => o ← dg w; acted w (lg w) [] R_AGAIN (send_job_handler r o a)
  | ERecvJob b d => o ← dg w; acted w (lg w) d b (recv_job_handler r o b)
  end.

Definition own (w : world) : gset Z := match dg w with Some o => {[fd o]} | None => ∅ end.

(** Others leave the packet that is being sent as it is. *)
Definition leaves_packet (w : world) (m : memory) : Prop :=
  forall o, dg w = Some o -> sending o = true -> bytes_at m (src (lg w)) (zlen (pkt (lg w))) = bytes_at (mem (lg w)) (src (lg w)) (zlen (pkt (lg w))).

(** [posix]: whether pending errors are returned as POSIX describes; when it is false, the operating system answers anything. *)
Context (posix : bool).
Inductive reach : world -> Prop :=
| reach_init k r m : io_ok r -> fd_watch r obj = None -> lim_state r slim = None -> lim_state r rlim = None -> reach (mkw k r None (no_log m))
| reach_other w k' r' m' : reach w -> io_ok r' -> fd_watch r' obj = fd_watch (rx w) obj -> same_limit (rx w) r' slim -> same_limit (rx w) r' rlim ->
    own w ⊆ open_fds k' -> leaves_packet w m' -> reach (mkw k' r' (dg w) (with_mem (lg w) m'))
| reach_step w e w' : reach w -> enabled w e = true -> (posix = true -> error_returned w e = true) -> exec w e = Some w' -> reach w'.

(** A readiness is reported for which the socket still waits although nothing is to be sent or received. *)
Definition stale (w : world) (e : event) : bool :=
  match e, dg w with
  | EFd ev _ _ _, Some o => (has ev BREACTOR_WRITE && negb (can_send o)) || (has ev BREACTOR_READ && negb (can_recv o))
  | _, _ => false
  end.

(** ** Invariant *)
Context (Hlim : slim <> rlim).

Record base (r : R) (o : BDatagram) (rd wr : bool) : Prop := {
  b_io : io_ok r;
  b_obj : bfd o = obj /\ s_limit (snd_ o) = slim /\ r_limit (rcv o) = rlim;
  b_watch : fd_watch r obj = Some (wait_events o);
  b_wait : wait_events o = waits rd wr;
  b_limits : exists cs cr, lim_state r slim = Some (BDATAGRAM_SEND_LIMIT, cs) /\ lim_state r rlim = Some (BDATAGRAM_RECV_LIMIT, cr);
}.

(** A message is the packet, with the addresses that were set. *)
Definition sent_as (m : sys_addr * option cmsg * list Z) (p : option (BAddr * BIPAddr) * list Z) : Prop :=
  exists ra la, p.1 = Some (ra, la) /\ addr_socket_to_sys ra = Some m.1.1 /\ m.1.2 = control_of la /\ m.2 = p.2.

Record ops (o : BDatagram) (x : log) : Prop := {
  p_send : s_iface (snd_ o) = if sending o then PBusy (s_busy_data (snd_ o)) (s_busy_data_len (snd_ o)) else PIdle;
  p_pkt : sending o = true -> zlen (pkt x) = s_busy_data_len (snd_ o) /\ s_busy_data (snd_ o) = src x /\ bytes_at (mem x) (src x) (zlen (pkt x)) = pkt x;
  p_dest : receiving o = true -> r_busy_data (rcv o) = dest x /\ (sending o = true -> clear_of (dest x) (r_mtu (rcv o)) (src x) (zlen (pkt x)) = true);
  p_recv : r_iface (rcv o) = if receiving o then RBusy (r_busy_data (rcv o)) else RIdle;
  p_addrs : addrs x = if s_have_addrs (snd_ o) then Some (s_remote_addr (snd_ o), s_local_addr (snd_ o)) else None;
  p_name : s_have_addrs (snd_ o) = true -> is_Some (addr_socket_to_sys (s_remote_addr (snd_ o)));
  p_out : Forall2 sent_as (d_out x) (d_done x);
  p_in : d_user x = d_in x;
  p_last : BDatagram_GetLastReceiveAddrs o = match last_from x with Some (name, c) => a ← addr_sys_to_socket name; Some (a, local_of c) | None => None end;
  p_err : errors x = Nat.b2n (d_err o);
}.

(** Every operation that can be attempted is waited for or has a job, and only such an operation has a job.  When pending errors are returned,
    nothing else is waited for, and an operation has a wait or a job, not both, unless there is an error to return.  [can]: whether the operation
    can be attempted; [wt], [jb]: its wait and its job. *)
Definition waited (can wt jb sk : bool) : Prop :=
  (can = true -> wt || jb = true) /\ (jb = true -> can = true) /\ (posix = true -> (wt = true -> can = true) /\ (sk = false -> wt && jb = false)).
Definition send_settled (o : BDatagram) (wr sk : bool) : Prop := waited (can_send o) wr (s_job (snd_ o)) sk.
Definition recv_settled (o : BDatagram) (rd sk : bool) : Prop := waited (can_recv o) rd (r_job (rcv o)) sk.
Definition settled (o : BDatagram) (rd wr sk : bool) : Prop := d_err o = false -> send_settled o wr sk /\ recv_settled o rd sk.

Definition good (r : R) (o : BDatagram) (x : log) : Prop := (exists rd wr, base r o rd wr /\ settled o rd wr (sick x)) /\ ops o x.

Definition dg_ok (r : R) (o : option BDatagram) (x : log) : Prop :=
  match o with None => fd_watch r obj = None /\ lim_state r slim = None /\ lim_state r rlim = None | Some o => good r o x end.

Record inv (w : world) : Prop := { i_io : io_ok (rx w); i_dg : dg_ok (rx w) (dg w) (lg w); i_fd : own w ⊆ open_fds (kn w) }.

(** ** Waits *)
Lemma waited_idle wt jb sk : waited false wt jb sk -> jb = false /\ (posix = true -> wt = false).
Proof. intros (_ & H1 & H2). split; [destruct jb; [by specialize (H1 eq_refl)|done]|]. intros Hp. destruct (H2 Hp) as [H3 _]. destruct wt; [by specialize (H3 eq_refl)|done]. Qed.
Lemma waited_over wt sk : (posix = true -> wt = false) -> waited false wt false sk.
Proof. intros H. split; [done|]. split; [done|]. intros Hp. by rewrite H. Qed.
Lemma waited_job wt sk : (posix = true -> sk = false -> wt = false) -> waited true wt true sk.
Proof. intros H. split; [by rewrite orb_true_r|]. split; [done|]. intros Hp. split; [done|]. intros Hs. by rewrite H. Qed.
Lemma waited_wait sk : waited true true false sk.
Proof. done. Qed.
Lemma waited_once can wt jb sk : posix = true -> waited can wt jb sk -> can = wt || jb /\ (sk = false -> wt && jb = false).
Proof. intros Hp (H1 & H2 & H3). destruct (H3 Hp) as [H4 H5]. split; [|done]. destruct can, wt, jb; intuition congruence. Qed.
(** A report [rp] of the readiness, or one of an error [f], ends the wait and leaves a job or an attempt. *)
Lemma waited_handled can wt rp f sk sk' : waited can wt false sk' -> (sk = false -> f = true -> wt && negb rp = false) -> waited can (wt && negb rp) (can && (rp || f)) sk.
Proof.
  intros (H1 & _ & H2) H3. rewrite orb_false_r in H1. split; [|split; [by destruct can|]].
  - intros ->. rewrite H1 by done. by destruct rp, f.
  - intros Hp. destruct (H2 Hp) as [H4 _]. split; [intros [H _]%andb_true_iff; by apply H4|]. intros Hs. destruct f; [by rewrite H3|]. by destruct wt, rp, can.
Qed.

(** ** The handlers *)
Lemma dg_base_same r o o' rd wr : base r o rd wr -> bfd o' = bfd o -> s_limit (snd_ o') = s_limit (snd_ o) -> r_limit (rcv o') = r_limit (rcv o) ->
  wait_events o' = wait_events o -> base r o' rd wr.
Proof. intros [B1 B2 B3 B4 B5] E1 E2 E3 E4. split; rewrite ?E1, ?E2, ?E3, ?E4; done. Qed.

Lemma dg_set_events r o rd wr rd' wr' : base r o rd wr ->
  exists r', fd_set_events r (bfd o) (waits rd' wr') = Some r' /\ base r' (with_wait o (waits rd' wr')) rd' wr' /\ forall x, lim_state r' x = lim_state r x.
Proof.
  intros [B1 B2 B3 B4 B5]. destruct (fd_set_events_ok r obj (waits rd' wr') B1 ltac:(by eexists) (waits_ok _ _)) as (r' & E & I & W & L).
  destruct B2 as (Eb & ? & ?). rewrite Eb, E. exists r'. split; [done|]. split; [|done]. split; cbn; try done; [by rewrite W, bool_decide_true by done|]. by setoid_rewrite L.
Qed.

Lemma dg_wait_write r o rd wr : base r o rd wr ->
  exists r', wait_for r o BREACTOR_WRITE = Some (r', with_wait o (waits rd true), []) /\ base r' (with_wait o (waits rd true)) rd true.
Proof.
  intros B. unfold wait_for. cbn. rewrite (b_wait _ _ _ _ B), waits_add_write. destruct (dg_set_events _ _ _ _ rd true B) as (r' & -> & B' & _). by exists r'.
Qed.
Lemma dg_wait_read r o rd wr : base r o rd wr ->
  exists r', wait_for r o BREACTOR_READ = Some (r', with_wait o (waits true wr), []) /\ base r' (with_wait o (waits true wr)) true wr.
Proof.
  intros B. unfold wait_for. cbn. rewrite (b_wait _ _ _ _ B), waits_add_read. destruct (dg_set_events _ _ _ _ true wr B) as (r' & -> & B' & _). by exists r'.
Qed.

Lemma dg_increment r o rd wr x l c : base r o rd wr -> x = slim \/ x = rlim -> lim_state r x = Some (l, c) ->
  exists r', lim_increment r x = Some (r', c <? l) /\ base r' o rd wr.
Proof using Hlim.
  intros [B1 B2 B3 B4 (cs & cr & L1 & L2)] Hx Lx. destruct (lim_increment_ok r x l c B1 Lx) as (r' & -> & I & W & L). exists r'. split; [done|].
  split; try done; [by rewrite W|]. rewrite !L. destruct Hx as [-> | ->].
  - rewrite bool_decide_true, bool_decide_false by done. rewrite L1 in Lx. injection Lx as <- <-. eauto.
  - rewrite bool_decide_false, bool_decide_true by done. rewrite L2 in Lx. injection Lx as <- <-. eauto.
Qed.

(** What is received does not touch the packet that is sent. *)
Lemma bytes_apart m dst d mtu p n : zlen d <= mtu -> clear_of dst mtu p n = true -> bytes_at (write_mem m dst d) p n = bytes_at m p n.
Proof. intros Hd. destruct p as [p|]; [|done]. by apply read_apart. Qed.

(** After a send: receiving is started. *)
Lemma start_same o : fd (start_receiving o) = fd o /\ bfd (start_receiving o) = bfd o /\ wait_events (start_receiving o) = wait_events o /\ snd_ (start_receiving o) = snd_ o /\
  d_err (start_receiving o) = d_err o /\ r_limit (rcv (start_receiving o)) = r_limit (rcv o).
Proof. unfold start_receiving. by destruct (r_started (rcv o)). Qed.
Lemma start_settled o rd sk : recv_settled o rd sk -> recv_settled (start_receiving o) rd sk.
Proof.
  unfold recv_settled, start_receiving, can_recv. intros H. destruct (r_started (rcv o)) eqn:Es; cbn; [by rewrite Es|]. rewrite andb_false_r in H. apply waited_idle in H as [-> H].
  rewrite andb_true_r. destruct (r_inited (rcv o) && r_busy (rcv o)); [apply waited_job; auto|by apply waited_over].
Qed.
Lemma start_ops o x : ops o x -> ops (start_receiving o) x.
Proof. unfold start_receiving. destruct (r_started (rcv o)); cbn; [done|]. intros []. by split. Qed.

(** What an attempt yields: a good state, under the condition [g] on its answer. *)
Definition yields (o : BDatagram) (d : list Z) (b : recv_answer) (x : log) (g : Prop) (res : option (R * BDatagram * list action)) : Prop :=
  exists r' o' acts, res = Some (r', o', acts) /\ (g -> good r' o' (fold_left (note d (from_of b)) acts x)) /\ fd o' = fd o.

Lemma error_yields r o d b x rd wr g : base r o rd wr -> ops o x -> d_err o = false -> yields o d b x g (report_error r o).
Proof.
  intros B P He. unfold report_error. rewrite He. eexists _, _, _. split; [done|]. split; [|done]. intros _. split; [exists rd, wr; split; [by eapply dg_base_same|done]|].
  destruct P as [P1 P2 P2' P3 P4 P5 P6 P7 P8 P9]. split; try done. cbn. by rewrite P9, He.
Qed.

(** The condition on the answer of an attempt. *)
Definition send_returned (sk : bool) (a : send_answer) : Prop := posix = true -> send_pending_ok sk a = true.
Definition recv_returned (sk : bool) (b : recv_answer) : Prop := posix = true -> recv_pending_ok sk b = true.
Lemma send_returned_bytes sk n : send_returned sk (S_BYTES n) -> posix = true -> sk = false.
Proof. unfold send_returned, send_pending_ok. rewrite orb_false_r. intros H Hp. by apply negb_true_iff, H. Qed.
Lemma recv_returned_msg sk n name c : recv_returned sk (R_MSG n name c) -> posix = true -> sk = false.
Proof. unfold recv_returned, recv_pending_ok. rewrite orb_false_r. intros H Hp. by apply negb_true_iff, H. Qed.

Lemma dg_attempt_send r o rd wr a d b x : base r o rd wr -> ops o x -> d_err o = false -> can_send o = true -> s_job (snd_ o) = false -> (posix = true -> sick x = false -> wr = false) ->
  recv_settled o rd (sick x) -> send_answer_ok (s_busy_data_len (snd_ o)) a = true -> yields o d b x (send_returned (sick x) a) (do_send r o a).
Proof using Hlim.
  intros B P He Hs Hj Hwr Hr Ha. pose proof P as [P1 P2 P2' P3 P4 P5 P6 P7 P8 P9]. unfold do_send. rewrite He. cbn [negb]. unfold can_send in Hs. apply andb_true_iff in Hs as [[Hi Hb]%andb_true_iff Hh]. rewrite Hi, Hb, Hh.
  assert (sending o = true) as Hsn by (unfold sending; by rewrite Hi, Hb).
  destruct (b_limits _ _ _ _ B) as (cs & cr & L1 & _). destruct (b_obj _ _ _ _ B) as (_ & -> & _).
  destruct (dg_increment r o rd wr slim _ _ B ltac:(by left) L1) as (r1 & -> & B1). cbn [mbind option_bind].
  assert (yields o d b x (send_returned (sick x) a) (wait_for r1 o BREACTOR_WRITE)) as Hwait.
  { destruct (dg_wait_write r1 o rd wr B1) as (r2 & -> & B2). eexists _, _, _. split; [done|]. split; [|done]. intros _. split; [|by destruct P]. exists rd, true. split; [done|]. intros _. split; [|exact Hr].
    unfold send_settled, can_send. cbn. rewrite Hi, Hb, Hh, Hj. apply waited_wait. }
  case_if; [exact Hwait|]. destruct (P5 Hh) as [name En]. rewrite En. cbn [mbind option_bind]. destruct a as [n| |]; [|exact Hwait|by eapply error_yields].
  cbn in Ha. reflect_bool. bool_true. bool_true. rewrite P1, Hsn. cbn [PacketPassInterface_Done mbind option_bind]. eexists _, _, _. split; [done|].
  destruct (start_same o) as (E1 & E2 & E3 & E4 & E5 & E6). split; [|exact E1]. intros Hg. split.
  - exists rd, wr. split; [eapply dg_base_same; cbn; try done; by rewrite <- E4|]. intros _. split; [|by apply start_settled].
    unfold send_settled, can_send. cbn. rewrite Hj, Hi. apply waited_over. intros Hp. apply Hwr; [done|]. by apply (send_returned_bytes _ n).
  - destruct (P2 Hsn) as (Hlen & Hptr & Hmem).
    apply start_ops in P as [Q1 Q2 Q2' Q3 Q4 Q5 Q6 Q7 Q8 Q9]. unfold sending, receiving in *. rewrite E4 in *. split; unfold sending, receiving; cbn; try done; rewrite ?E4, ?andb_false_r; try done.
    + intros Hrc. destruct (Q2' Hrc) as [Hd _]. by split.
    + apply Forall2_app; [done|]. constructor; [|done]. rewrite P4, Hh. exists (s_remote_addr (snd_ o)), (s_local_addr (snd_ o)). cbn. rewrite Hptr, <- Hlen. done.
Qed.

Lemma dg_attempt_recv r o rd wr b d x : base r o rd wr -> ops o x -> d_err o = false -> can_recv o = true -> r_job (rcv o) = false -> (posix = true -> sick x = false -> rd = false) ->
  send_settled o wr (sick x) -> recv_answer_ok (r_mtu (rcv o)) b d = true -> yields o d b x (recv_returned (sick x) b) (do_recv r o b).
Proof using Hlim.
  intros B P He Hs Hj Hrd Hr Ha. pose proof P as [P1 P2 P2' P3 P4 P5 P6 P7 P8 P9]. unfold do_recv. rewrite He. cbn [negb]. unfold can_recv in Hs. apply andb_true_iff in Hs as [[Hi Hb]%andb_true_iff Hh]. rewrite Hi, Hb, Hh.
  destruct (b_limits _ _ _ _ B) as (cs & cr & _ & L2). destruct (b_obj _ _ _ _ B) as (_ & _ & ->).
  destruct (dg_increment r o rd wr rlim _ _ B ltac:(by right) L2) as (r1 & -> & B1). cbn [mbind option_bind].
  assert (receiving o = true) as Hrc by (unfold receiving; by rewrite Hi, Hb).
  assert (yields o d b x (recv_returned (sick x) b) (wait_for r1 o BREACTOR_READ)) as Hwait.
  { destruct (dg_wait_read r1 o rd wr B1) as (r2 & -> & B2). eexists _, _, _. split; [done|]. split; [|done]. intros _. split; [|by destruct P]. exists true, wr. split; [done|]. intros _. split; [exact Hr|].
    unfold recv_settled, can_recv. cbn. rewrite Hi, Hb, Hh, Hj. apply waited_wait. }
  case_if; [exact Hwait|]. destruct b as [n name c| |]; [|exact Hwait|by eapply error_yields].
  cbn in Ha. apply andb_true_iff in Ha as [[Hn Hm]%andb_true_iff Hok]. apply Z.eqb_eq in Hn. apply Z.leb_le in Hm. apply bool_decide_eq_true in Hok.
  pose proof (zlen_nonneg d). destruct (datagram_sys_to_socket name Hok) as [ra Era]. bool_true. bool_true. rewrite Era. cbn [mbind option_bind r_iface r_set_addrs r_mtu]. rewrite P3, Hrc.
  unfold PacketRecvInterface_Done. bool_true. bool_true. cbn [mbind option_bind]. eexists _, _, _. split; [done|]. split; [|done]. intros Hg. split.
  - exists rd, wr. split; [by eapply dg_base_same|]. intros _. split; [exact Hr|]. unfold recv_settled, can_recv. cbn. rewrite Hj, andb_false_r. apply waited_over.
    intros Hp. apply Hrd; [done|]. by apply (recv_returned_msg _ n name c).
  - destruct (P2' Hrc) as [Hd Hap]. split; unfold receiving; cbn; rewrite ?andb_false_r; try done; [|by rewrite P7, Hn, Hd, read_write|by rewrite Era].
    intros Hsn. destruct (P2 Hsn) as (Hlen & Hptr & Hmem). split; [done|]. split; [done|]. etransitivity; [|exact Hmem]. rewrite Hd. apply (bytes_apart _ _ _ (r_mtu (rcv o))); [lia|by apply Hap].
Qed.

(** *** Events *)
Lemma dg_handled ra wa er hu r s : error_alone (waits r s) (reports ra wa er hu) = false -> er || hu = true -> s && negb wa = false /\ r && negb ra = false.
Proof. destruct ra, wa, er, hu, r, s; by vm_compute. Qed.

Lemma dg_fd_event r o x ev a b d w0 : good r o x -> d_err o = false -> s_job (snd_ o) = false -> r_job (rcv o) = false -> fd_watch r obj = Some w0 -> reported w0 ev = true ->
  (if sends_first o ev then send_answer_ok (s_busy_data_len (snd_ o)) a else recv_answer_ok (r_mtu (rcv o)) b d) = true ->
  let sk := sick x || error_alone w0 ev in
  if (has ev BREACTOR_WRITE && negb (can_send o)) || (has ev BREACTOR_READ && negb (can_recv o)) then fd_handler r o ev a b = None
  else yields o d b (with_sick x sk) (if sends_first o ev then send_returned sk a else recv_returned sk b) (fd_handler r o ev a b).
Proof using Hlim.
  intros [(rd & wr & B & S) P] He Hsj Hrj Hw Hev Ha. destruct (S He) as [S1 S2]. unfold send_settled in S1. unfold recv_settled in S2. rewrite Hsj in S1. rewrite Hrj in S2. cbv zeta.
  rewrite (b_watch _ _ _ _ B) in Hw. injection Hw as <-. rewrite (b_wait _ _ _ _ B) in *. apply reported_flags in Hev as (ra & wa & er & hu & -> & Hra & Hwa & Hne).
  set (sk := sick x || error_alone (waits rd wr) (reports ra wa er hu)) in *.
  assert (sk = false -> er || hu = true -> wr && negb wa = false /\ rd && negb ra = false) as Hsk by (intros [_ H]%orb_false_iff He'; exact (dg_handled _ _ _ _ _ _ H He')).
  apply (waited_handled _ _ wa (er || hu) sk) in S1; [|intros ? ?; by apply Hsk]. apply (waited_handled _ _ ra (er || hu) sk) in S2; [|intros ? ?; by apply Hsk].
  unfold fd_handler. rewrite He, (b_wait _ _ _ _ B), waits_handled. cbn [negb]. cbv zeta. cbn [bfd with_wait wait_events].
  destruct (dg_set_events _ _ _ _ (rd && negb ra) (wr && negb wa) B) as (r1 & -> & B1 & _). cbn [mbind option_bind snd_ rcv with_wait]. fold (can_send o) (can_recv o).
  unfold sends_first in *. destruct (has_reports ra wa er hu) as (E1 & E2 & E3 & _). rewrite E2, E3 in Ha. rewrite E1, E2, E3. clear E1 E2 E3.
  destruct ((wa && negb (can_send o)) || (ra && negb (can_recv o))) eqn:Est.
  { apply orb_true_iff in Est as [[-> Hns%negb_true_iff]%andb_true_iff|[-> Hnr%negb_true_iff]%andb_true_iff]; [by rewrite Hns|]. rewrite Hnr. cbn [orb negb]. by destruct (negb _ || can_send o). }
  apply orb_false_iff in Est as [Ew Er0]. assert (wa = true -> can_send o = true) as Hwa' by (intros ->; by destruct (can_send o)). assert (ra = true -> can_recv o = true) as Hra' by (intros ->; by destruct (can_recv o)).
  assert ((wa || (er || hu) && can_send o) = can_send o && (wa || (er || hu))) as -> by (destruct wa, (er || hu), (can_send o); try done; by discriminate Hwa').
  assert ((ra || (er || hu) && can_recv o) = can_recv o && (ra || (er || hu))) as -> by (destruct ra, (er || hu), (can_recv o); try done; by discriminate Hra').
  replace (negb (can_send o && (wa || (er || hu))) || can_send o) with true by (by destruct (can_send o), (wa || (er || hu))).
  replace (negb (can_recv o && (ra || (er || hu))) || can_recv o) with true by (by destruct (can_recv o), (ra || (er || hu))).
  set (o1 := with_wait o (waits (rd && negb ra) (wr && negb wa))) in *.
  assert (forall j, ops (with_rcv o1 (r_set_job (rcv o) j)) (with_sick x sk)) as P1 by (intros j; by destruct P). assert (ops o1 (with_sick x sk)) as P2 by (by destruct P).
  destruct (can_send o && (wa || (er || hu))) eqn:Es.
  - apply andb_true_iff in Es as [Es Es']. assert (posix = true -> sk = false -> wr && negb wa = false) as Hwr by (intros Hp Hk; destruct S1 as (_ & _ & S1); destruct (S1 Hp) as [_ S1']; specialize (S1' Hk); by rewrite andb_true_r in S1').
    destruct (can_recv o && (ra || (er || hu))) eqn:Er.
    + apply andb_true_iff in Er as [Er Er']. apply (dg_attempt_send r1 (with_rcv o1 (r_set_job (rcv o) true)) (rd && negb ra) (wr && negb wa) a d b (with_sick x sk)); try done. by eapply dg_base_same.
    + apply (dg_attempt_send r1 o1 (rd && negb ra) (wr && negb wa) a d b (with_sick x sk)); try done. unfold recv_settled. cbn. by rewrite Hrj.
  - assert (send_settled o1 (wr && negb wa) sk) as Hss by (unfold send_settled; cbn; by rewrite Hsj).
    destruct (can_recv o && (ra || (er || hu))) eqn:Er; [|exact (error_yields r1 o1 d b _ _ _ _ B1 P2 He)].
    apply andb_true_iff in Er as [Er Er']. apply (dg_attempt_recv r1 o1 (rd && negb ra) (wr && negb wa) b d (with_sick x sk)); try done.
    intros Hp Hk. destruct S2 as (_ & _ & S2). destruct (S2 Hp) as [_ S2']. specialize (S2' Hk). by rewrite andb_true_r in S2'.
Qed.

Lemma dg_send_job r o x a b d : good r o x -> d_err o = false -> s_job (snd_ o) = true -> send_answer_ok (s_busy_data_len (snd_ o)) a = true ->
  yields o d b x (send_returned (sick x) a) (send_job_handler r o a).
Proof using Hlim.
  intros [(rd & wr & B & S) P] He Hj Ha. destruct (S He) as [(_ & S1 & S1') S2]. rewrite Hj, andb_true_r in S1'. specialize (S1 Hj).
  unfold send_job_handler. cbn. rewrite He. cbn [negb]. pose proof S1 as [[Hi Hb]%andb_true_iff Hh]%andb_true_iff. rewrite Hi, Hb, Hh.
  apply (dg_attempt_send r (with_snd o (s_set_job (snd_ o) false)) rd wr); try done; [by eapply dg_base_same|by destruct P|intros Hp; by apply S1'].
Qed.
Lemma dg_recv_job r o x b d : good r o x -> d_err o = false -> r_job (rcv o) = true -> recv_answer_ok (r_mtu (rcv o)) b d = true ->
  yields o d b x (recv_returned (sick x) b) (recv_job_handler r o b).
Proof using Hlim.
  intros [(rd & wr & B & S) P] He Hj Ha. destruct (S He) as [S2 (_ & S1 & S1')]. rewrite Hj, andb_true_r in S1'. specialize (S1 Hj).
  unfold recv_job_handler. cbn. rewrite He. cbn [negb]. pose proof S1 as [[Hi Hb]%andb_true_iff Hh]%andb_true_iff. rewrite Hi, Hb, Hh.
  apply (dg_attempt_recv r (with_rcv o (r_set_job (rcv o) false)) rd wr); try done; [by eapply dg_base_same|by destruct P|intros Hp; by apply S1'].
Qed.

(** The calls of the user that do no I/O. *)
Lemma dg_send_op r o x data p : good r o x -> d_err o = false -> s_inited (snd_ o) = true -> s_busy (snd_ o) = false -> zlen p <= s_mtu (snd_ o) -> send_buffer_ok o x data p = true ->
  exists i o', PacketPassInterface_Sender_Send (s_iface (snd_ o)) (s_mtu (snd_ o)) data (zlen p) = Some i /\
    send_if_handler_send (with_snd o (s_set_busy (snd_ o) i (s_busy (snd_ o)) (s_busy_data (snd_ o)) (s_busy_data_len (snd_ o)))) data (zlen p) = Some o' /\
    good r o' (with_pkt x data p) /\ fd o' = fd o.
Proof.
  intros [(rd & wr & B & S) P] He Hi Hb Hp [[Hd Hm]%andb_true_iff Hap]%andb_true_iff. apply bool_decide_eq_true in Hm. destruct (S He) as [S1 S2]. pose proof P as [P1 P2 P2' P3 P4 P5 P6 P7 P8 P9]. pose proof (zlen_nonneg p).
  unfold sending in P1. rewrite Hi, Hb in P1. cbn in P1.
  unfold send_settled, can_send in S1. rewrite Hb, andb_false_r in S1. cbn in S1. apply waited_idle in S1 as [Hj Hwr].
  assert (receiving o = true -> r_busy_data (rcv o) = dest x /\ clear_of (dest x) (r_mtu (rcv o)) data (zlen p) = true) as Hdest by (intros Hrc; rewrite Hrc in Hap; by destruct (P2' Hrc)).
  unfold PacketPassInterface_Sender_Send. bool_true. bool_true. rewrite P1. assert (negb (zlen p >? 0) || bool_decide (is_Some data) = true) as ->.
  { by rewrite Z.gtb_ltb. }
  unfold send_if_handler_send. cbn [d_err with_snd snd_ s_set_busy s_inited s_busy s_mtu s_have_addrs s_iface]. rewrite He, Hi, Hb. cbn [negb].
  replace (zlen p >=? 0) with true by (symmetry; lia). replace (zlen p <=? s_mtu (snd_ o)) with true by (symmetry; lia).
  destruct (s_have_addrs (snd_ o)) eqn:Eh; cbn [negb]; eexists _, _; (split; [done|]).
  - split; [done|]. split; [|done]. split; [|split; unfold sending; cbn; rewrite ?Hi, ?Eh; try done; try (by apply P5); intros Hrc; by destruct (Hdest Hrc)]. exists rd, wr. split; [by eapply dg_base_same|]. intros _. split; [|exact S2].
    unfold send_settled, can_send. cbn. rewrite Hi, Eh. apply waited_job; auto.
  - split; [done|]. split; [|done]. split; [|split; unfold sending; cbn; rewrite ?Hi, ?Eh; try done; intros Hrc; by destruct (Hdest Hrc)]. exists rd, wr. split; [by eapply dg_base_same|]. intros _. split; [|exact S2].
    unfold send_settled, can_send. cbn. rewrite Eh, Hj, andb_false_r. by apply waited_over.
Qed.

Lemma dg_recv_op r o x dst : good r o x -> d_err o = false -> r_inited (rcv o) = true -> r_busy (rcv o) = false -> recv_buffer_ok o x dst = true ->
  exists i o', PacketRecvInterface_Receiver_Recv (r_iface (rcv o)) (r_mtu (rcv o)) (Some dst) = Some i /\
    recv_if_handler_recv (with_rcv o (r_set_busy (rcv o) i (r_busy (rcv o)) (r_busy_data (rcv o)))) dst = Some o' /\ good r o' (with_dest x dst) /\ fd o' = fd o.
Proof.
  intros [(rd & wr & B & S) P] He Hi Hb Hap. destruct (S He) as [S2 S1]. pose proof P as [P1 P2 P2' P3 P4 P5 P6 P7 P8 P9]. unfold receiving in P3. rewrite Hi, Hb in P3. cbn in P3.
  unfold recv_settled, can_recv in S1. rewrite Hb, andb_false_r in S1. cbn in S1. apply waited_idle in S1 as [Hj Hrd].
  assert (sending o = true -> clear_of dst (r_mtu (rcv o)) (src x) (zlen (pkt x)) = true) as Hdest by (intros Hsn; unfold recv_buffer_ok in Hap; by rewrite Hsn in Hap).
  unfold PacketRecvInterface_Receiver_Recv. rewrite (bool_decide_true (is_Some (Some dst))), orb_true_r, P3 by (by eexists).
  unfold recv_if_handler_recv. cbn [d_err with_rcv rcv r_set_busy r_inited r_busy r_started r_iface]. rewrite He, Hi, Hb. cbn [negb].
  destruct (r_started (rcv o)) eqn:Eh; cbn [negb]; eexists _, _; (split; [done|]).
  - split; [done|]. split; [|done]. split; [|split; unfold receiving; cbn; rewrite ?Hi; done]. exists rd, wr. split; [by eapply dg_base_same|]. intros _. split; [exact S2|].
    unfold recv_settled, can_recv. cbn. rewrite Hi, Eh. apply waited_job; auto.
  - split; [done|]. split; [|done]. split; [|split; unfold receiving; cbn; rewrite ?Hi; done]. exists rd, wr. split; [by eapply dg_base_same|]. intros _. split; [exact S2|].
    unfold recv_settled, can_recv. cbn. rewrite Eh, Hj, andb_false_r. by apply waited_over.
Qed.

Lemma dg_set_addrs r o x ra la : good r o x -> d_err o = false -> sendable ra = true ->
  exists o', BDatagram_SetSendAddrs o ra la = Some o' /\ good r o' (with_addrs x (ra, la)) /\ fd o' = fd o.
Proof.
  intros [(rd & wr & B & S) P] He Hs. destruct (S He) as [S1 S2]. pose proof P as [P1 P2 P2' P3 P4 P5 P6 P7 P8 P9]. unfold BDatagram_SetSendAddrs. rewrite He, (sendable_supported ra Hs). cbn [negb].
  apply bool_decide_eq_true in Hs. eexists. split; [done|]. split; [|done]. unfold send_settled, can_send in S1. destruct (s_have_addrs (snd_ o)) eqn:Eh; cbn [negb andb].
  - split; [|by split]. exists rd, wr. split; [by eapply dg_base_same|]. intros _. split; [|exact S2]. exact S1.
  - rewrite andb_false_r in S1. apply waited_idle in S1 as [Hj Hwr]. unfold sending in P1, P2, P2'. destruct (s_inited (snd_ o) && s_busy (snd_ o)) eqn:Eb.
    + split; [|split; unfold sending; cbn; rewrite ?Eb; done]. exists rd, wr. split; [by eapply dg_base_same|]. intros _. split; [|exact S2]. unfold send_settled, can_send. cbn. rewrite Eb. apply waited_job; auto.
    + split; [|split; unfold sending; cbn; rewrite ?Eb; done]. exists rd, wr. split; [by eapply dg_base_same|]. intros _. split; [|exact S2]. unfold send_settled, can_send. cbn. rewrite Eb, Hj. by apply waited_over.
Qed.

Lemma dg_bind r o x a ok : good r o x -> d_err o = false -> sendable a = true -> exists o' res, BDatagram_Bind o a ok = Some (o', res) /\ good r o' x /\ fd o' = fd o.
Proof.
  intros [(rd & wr & B & S) P] He Hs. unfold BDatagram_Bind. rewrite He, (sendable_supported a Hs). cbn [negb]. apply bool_decide_eq_true in Hs as [name ->]. cbn [mbind option_bind].
  destruct ok; cbn [negb]; [|exists o, false; split; [done|]; split; [split; [by exists rd, wr|done]|done]]. destruct (start_same o) as (E1 & E2 & E3 & E4 & E5 & E6).
  eexists _, _. split; [done|]. split; [|exact E1]. split; [|by apply start_ops]. exists rd, wr. split; [eapply dg_base_same; try done; by rewrite E4|].
  intros _. destruct (S He) as [S1 S2]. split; [|by apply start_settled]. unfold send_settled, can_send in *. by rewrite E4.
Qed.

(** The send side made or freed. *)
Lemma ops_idle_send o x i mtu b : ops o x -> i && b = false -> ops (with_snd o (s_set_inited (snd_ o) i mtu b)) x.
Proof.
  intros [P1 P2 P2' P3 P4 P5 P6 P7 P8 P9] Hi. split; unfold sending; cbn; rewrite ?Hi; try done. intros Hrc. by destruct (P2' Hrc).
Qed.

Lemma dg_side_init r o x mtu : good r o x -> d_err o = false ->
  (s_inited (snd_ o) = false -> good r (with_snd o (s_set_inited (snd_ o) true mtu false)) x) /\
  (r_inited (rcv o) = false -> good r (with_rcv o (r_set_inited (rcv o) true mtu false)) x).
Proof.
  intros [(rd & wr & B & S) P] He. destruct (S He) as [S1 S2]. split; intros Hi.
  - split; [|by apply ops_idle_send]. exists rd, wr. split; [by eapply dg_base_same|]. intros _. split; [|exact S2]. unfold send_settled, can_send in *. rewrite Hi in S1. cbn in *.
    apply waited_over. by apply waited_idle in S1 as [_ H].
  - split; [|destruct P; by split]. exists rd, wr. split; [by eapply dg_base_same|]. intros _. split; [exact S1|]. unfold recv_settled, can_recv in *. rewrite Hi in S2. cbn in *.
    apply waited_over. by apply waited_idle in S2 as [_ H].
Qed.

Lemma dg_send_free r o x : good r o x -> s_inited (snd_ o) = true -> exists r' o', BDatagram_SendAsync_Free r o = Some (r', o') /\ good r' o' x /\ fd o' = fd o.
Proof.
  intros [(rd & wr & B & S) P] Hi. unfold BDatagram_SendAsync_Free. rewrite Hi. cbn. rewrite (b_wait _ _ _ _ B), waits_drop_write.
  destruct (dg_set_events _ _ _ _ rd false B) as (r' & -> & B' & _). cbn [mbind option_bind]. eexists _, _. split; [done|]. split; [|done]. split; [|by apply (ops_idle_send (with_wait o _)); [destruct P|]].
  exists rd, false. split; [by eapply dg_base_same|]. intros He. destruct (S He) as [S1 S2]. split; [|exact S2]. by apply waited_over.
Qed.
Lemma dg_recv_free r o x : good r o x -> r_inited (rcv o) = true -> exists r' o', BDatagram_RecvAsync_Free r o = Some (r', o') /\ good r' o' x /\ fd o' = fd o.
Proof.
  intros [(rd & wr & B & S) P] Hi. unfold BDatagram_RecvAsync_Free. rewrite Hi. cbn. rewrite (b_wait _ _ _ _ B), waits_drop_read.
  destruct (dg_set_events _ _ _ _ false wr B) as (r' & -> & B' & _). cbn [mbind option_bind]. eexists _, _. split; [done|]. split; [|done]. split; [|destruct P; by split].
  exists false, wr. split; [by eapply dg_base_same|]. intros He. destruct (S He) as [S1 S2]. split; [exact S1|]. by apply waited_over.
Qed.

(** *** Making and freeing a socket *)
Lemma dg_init_ok k r family n nb memory m : io_ok r -> dg_ok r None (no_log m) -> BDatagram_AddressFamilySupported family = true -> fd_answer_ok k n = true ->
  exists k' r' o, BDatagram_Init k r obj slim rlim family n nb memory = Some (k', r', o) /\ io_ok r' /\ dg_ok r' o (no_log m) /\
    match o with None => open_fds k' = open_fds k | Some o => n = Some (fd o) /\ k' = new_fd k n end.
Proof using Hlim.
  intros I (W & L1 & L2) Hf Hn. unfold BDatagram_Init. rewrite Hf. assert (exists f, family_socket_to_sys family = Some f) as [f ->].
  { unfold BDatagram_AddressFamilySupported, family_socket_to_sys in *. destruct (family =? 1); [by eexists|]. destruct (family =? 2); [by eexists|]. cbn in Hf. rewrite Hf. by eexists. }
  cbn [mbind option_bind]. destruct n as [n|]; [|by exists k, r, None]. cbn in Hn. apply andb_true_iff in Hn as [_ Hn]. apply bool_decide_eq_true in Hn.
  destruct nb; cbn [negb]; [|rewrite close_new by done; by exists k, r, None].
  destruct (fd_add_ok r obj n memory I W) as (r1 & res & -> & I1 & W1 & Lim1). cbn [mbind option_bind]. destruct res; cbn [negb andb] in *.
  - destruct (lim_init_ok r1 slim BDATAGRAM_SEND_LIMIT I1) as (r2 & -> & I2 & W2 & Lim2); [by rewrite Lim1|by vm_compute|]. cbn [mbind option_bind].
    destruct (lim_init_ok r2 rlim BDATAGRAM_RECV_LIMIT I2) as (r3 & -> & I3 & W3 & Lim3); [by rewrite Lim2, Lim1, bool_decide_false by done|by vm_compute|]. cbn [mbind option_bind].
    eexists _, r3, (Some _). split; [done|]. split; [done|]. split; [|done]. split; [|split; by try constructor].
    exists false, false. split; [|intros _; split; by apply waited_over]. split; cbn; try done; [by rewrite W3, W2, W1, bool_decide_true by done|].
    exists 0, 0. rewrite !Lim3, !Lim2. rewrite (bool_decide_false (slim = rlim)), !bool_decide_true by done. done.
  - rewrite close_new by done. cbn [mbind option_bind]. exists k, r1, None. split; [done|]. split; [done|]. split; [|done]. cbn. by rewrite W1, !Lim1.
Qed.

Lemma dg_free_ok k r o x : good r o x -> s_inited (snd_ o) = false -> r_inited (rcv o) = false -> fd o ∈ open_fds k ->
  exists r', BDatagram_Free k r o = Some (mk_kernel (open_fds k ∖ {[fd o]}) (files k), r') /\ io_ok r' /\ dg_ok r' None x.
Proof using Hlim.
  intros [(rd & wr & [B1 (E1 & E2 & E3) B3 B4 (cs & cr & L1 & L2)] & _) P] Hs Hr Hk. unfold BDatagram_Free. rewrite Hs, Hr. cbn [negb]. rewrite E1, E2, E3.
  destruct (lim_free_ok r rlim B1) as (r1 & -> & I1 & W1 & Lim1); [by eexists|]. cbn [mbind option_bind].
  destruct (lim_free_ok r1 slim I1) as (r2 & -> & I2 & W2 & Lim2); [rewrite Lim1, bool_decide_false by done; by eexists|]. cbn [mbind option_bind].
  destruct (fd_remove_ok r2 obj I2) as (r3 & -> & I3 & W3 & Lim3); [rewrite W2, W1, B3; by eexists|]. cbn [mbind option_bind].
  rewrite close_open by done. cbn [mbind option_bind]. exists r3. split; [done|]. split; [done|]. cbn. rewrite W3, !Lim3, !Lim2, !Lim1. rewrite (bool_decide_false (rlim = slim)), !bool_decide_true by done. done.
Qed.

(** ** Preservation *)

(** The descriptors that are not the socket's stay what they are. *)
Definition dg_balanced (w w' : world) : Prop := open_fds (kn w') ∖ own w' = open_fds (kn w) ∖ own w.

Lemma dg_keep w o r' o' x' : inv w -> dg w = Some o -> good r' o' x' -> fd o' = fd o -> inv (mkw (kn w) r' (Some o') x') /\ dg_balanced w (mkw (kn w) r' (Some o') x').
Proof.
  intros [I1 I2 I3] Ho G E. unfold dg_balanced, own in *. cbn. rewrite Ho, E in *. split; [|done]. split; cbn; try done; [|by rewrite E]. destruct G as [(rd & wr & B & _) _]. apply B.
Qed.

(** What a step yields: the balance of the descriptors, and the invariant, under the condition [g] on its answer. *)
Definition steps (w : world) (g : Prop) (res : option world) : Prop := exists w', res = Some w' /\ dg_balanced w w' /\ (g -> inv w').
Lemma dg_acted w o x d b g res : inv w -> dg w = Some o -> yields o d b x g res -> steps w g (acted w x d b res).
Proof.
  intros I Ho (r' & o' & acts & -> & G & E). cbn. eexists. split; [done|]. split; [|intros Hg; by apply (dg_keep w o); auto]. unfold dg_balanced, own. cbn. by rewrite Ho, E.
Qed.

Lemma dg_step w e : inv w -> enabled w e = true -> if stale w e then exec w e = None else steps w (posix = true -> error_returned w e = true) (exec w e).
Proof using Hlim.
  intros I He. pose proof I as [I1 I2 I3].
  assert (forall w', inv w' /\ dg_balanced w w' -> steps w (posix = true -> error_returned w e = true) (Some w')) as Hok by (intros w' [? ?]; by exists w').
  unfold enabled in He. destruct (dg w) as [o|] eqn:Ho; [destruct e; try done|destruct e; try done]; cbn [exec stale error_returned] in *; rewrite ?Ho in *; cbn [mbind option_bind]; cbn [dg_ok] in I2.
  - apply andb_true_iff in He as [Hr%negb_true_iff Hs%negb_true_iff]. unfold own in I3. rewrite Ho in I3.
    destruct (dg_free_ok (kn w) (rx w) o _ I2 Hs Hr) as (r' & -> & I' & D); [apply I3; by apply elem_of_singleton|]. cbn [mbind option_bind]. apply Hok. split; [by split|].
    unfold dg_balanced, own. cbn. rewrite Ho. by rewrite difference_empty_L.
  - apply andb_true_iff in He as [He%negb_true_iff Ha]. destruct (dg_bind _ _ _ a ok I2 He Ha) as (o' & res & -> & G & E). apply Hok. by apply (dg_keep w o).
  - apply andb_true_iff in He as [He%negb_true_iff Ha]. destruct (dg_set_addrs _ _ _ ra la I2 He Ha) as (o' & -> & G & E). apply Hok. by apply (dg_keep w o).
  - unfold BDatagram_SetReuseAddr. rewrite He. cbn. apply Hok. by split.
  - apply andb_true_iff in He as [[He%negb_true_iff Hi%negb_true_iff]%andb_true_iff Hm%Z.leb_le]. unfold BDatagram_SendAsync_Init. rewrite He, Hi. cbn [negb]. bool_true. apply Hok.
    apply (dg_keep w o); try done. by apply dg_side_init.
  - destruct (dg_send_free _ _ _ I2 He) as (r' & o' & -> & G & E). apply Hok. by apply (dg_keep w o).
  - apply andb_true_iff in He as [[He%negb_true_iff Hi%negb_true_iff]%andb_true_iff Hm%Z.leb_le]. unfold BDatagram_RecvAsync_Init. rewrite He, Hi. cbn [negb]. bool_true. apply Hok.
    apply (dg_keep w o); try done. by apply dg_side_init.
  - destruct (dg_recv_free _ _ _ I2 He) as (r' & o' & -> & G & E). apply Hok. by apply (dg_keep w o).
  - apply andb_true_iff in He as [[[[He%negb_true_iff Hi]%andb_true_iff Hb%negb_true_iff]%andb_true_iff Hm%Z.leb_le]%andb_true_iff Hd].
    destruct (dg_send_op _ _ _ data p I2 He Hi Hb Hm Hd) as (i & o' & -> & E & G & Ef).
    cbn [mbind option_bind]. rewrite E. cbn [mbind option_bind]. apply Hok. by apply (dg_keep w o).
  - apply andb_true_iff in He as [[[He%negb_true_iff Hi]%andb_true_iff Hb%negb_true_iff]%andb_true_iff Hd]. destruct (dg_recv_op _ _ _ dst I2 He Hi Hb Hd) as (i & o' & -> & E & G & Ef).
    cbn [mbind option_bind]. rewrite E. cbn [mbind option_bind]. apply Hok. by apply (dg_keep w o).
  - apply andb_true_iff in He as [[[[He%negb_true_iff Hsj%negb_true_iff]%andb_true_iff Hrj%negb_true_iff]%andb_true_iff Hw]%andb_true_iff Ha].
    unfold sick_after in *. destruct (fd_watch (rx w) obj) as [w0|] eqn:Ew; [|done]. pose proof (dg_fd_event (rx w) o _ _ a b d w0 I2 He Hsj Hrj Ew Hw Ha) as Y. cbv zeta in Y.
    destruct ((has _ BREACTOR_WRITE && negb (can_send o)) || _); [by rewrite Y|]. apply (dg_acted w o); try done. by destruct (sends_first o _).
  - apply andb_true_iff in He as [[He%negb_true_iff Hj]%andb_true_iff Ha]. apply (dg_acted w o); try done. by apply dg_send_job.
  - apply andb_true_iff in He as [[He%negb_true_iff Hj]%andb_true_iff Ha]. apply (dg_acted w o); try done. by apply dg_recv_job.
  - apply andb_true_iff in He as [Hf Hn]. destruct (dg_init_ok (kn w) (rx w) family n nonblock mem0 (mem (lg w)) I1 I2 Hf Hn) as (k' & r' & o & -> & I' & D & Hk). cbn [mbind option_bind]. apply Hok.
    unfold dg_balanced, own. cbn. rewrite Ho. destruct o as [o|].
    + destruct Hk as [-> ->]. cbn in Hn. apply andb_true_iff in Hn as [_ Hn]. apply bool_decide_eq_true in Hn. split; [split; cbn; try done; apply union_subseteq_l|]. cbn.
      apply set_eq. intros y. rewrite !elem_of_difference, elem_of_union, elem_of_singleton. split; [|intros [Hy _]; split; [by right|by intros ->]]. intros [[?|?] ?]; [done|]. split; [done|apply not_elem_of_empty].
    + split; [split; cbn; try done; apply empty_subseteq|]. by rewrite Hk.
Qed.

(** When pending errors are returned, nothing is waited for without an operation. *)
Lemma dg_never_stale w e : inv w -> posix = true -> enabled w e = true -> stale w e = false.
Proof.
  intros I Hp He. destruct e; try done. cbn [enabled stale] in *. destruct (dg w) as [o|] eqn:Ho; [|done]. apply andb_true_iff in He as [[[[He%negb_true_iff _]%andb_true_iff _]%andb_true_iff Hw]%andb_true_iff _].
  pose proof (i_dg _ I) as G. rewrite Ho in G. destruct G as [(rd & wr & B & S) _]. destruct (S He) as [(_ & _ & S1) (_ & _ & S2)]. destruct (S1 Hp) as [S1' _], (S2 Hp) as [S2' _].
  rewrite (b_watch _ _ _ _ B), (b_wait _ _ _ _ B) in Hw. apply reported_flags in Hw as (ra & wa & er & hu & -> & Hra & Hwa & _). destruct (has_reports ra wa er hu) as (-> & -> & _).
  apply orb_false_iff. split; [destruct wa; [|done]; by rewrite S1' by auto|destruct ra; [|done]; by rewrite S2' by auto].
Qed.

Lemma dg_mem o x m : (sending o = true -> bytes_at m (src x) (zlen (pkt x)) = bytes_at (mem x) (src x) (zlen (pkt x))) -> ops o x -> ops o (with_mem x m).
Proof.
  intros Hm [P1 P2 P2' P3 P4 P5 P6 P7 P8 P9]. split; try done. cbn. intros Hs. destruct (P2 Hs) as (? & ? & E). split; [done|]. split; [done|]. etransitivity; [by apply Hm|exact E].
Qed.

Lemma dg_reach_inv w : reach w -> inv w.
Proof using Hlim.
  induction 1 as [k r m I W L1 L2|w k' r' m' _ IH I W L1 L2 Hk Hm|w e w' _ IH He Herr E].
  - by split.
  - destruct IH as [I1 I2 I3]. split; cbn; try done. unfold dg_ok in *. unfold same_limit in *. destruct (dg w) as [o|] eqn:Ho.
    + destruct I2 as [(rd & wr & [B1 B2 B3 B4 (cs & cr & E1 & E2)] & S) P]. split; [|apply dg_mem; [by apply Hm|done]]. exists rd, wr. split; [|done]. rewrite E1 in L1. rewrite E2 in L2.
      destruct L1 as [cs' L1], L2 as [cr' L2]. split; try done; [by rewrite W|by exists cs', cr'].
    + destruct I2 as (E1 & E2 & E3). rewrite E2 in L1. rewrite E3 in L2. by rewrite W.
  - pose proof (dg_step w e IH He) as H. destruct (stale w e); [congruence|]. destruct H as (w1 & E1 & _ & I'). rewrite E in E1. injection E1 as <-. by apply I'.
Qed.

(** An attempt that the limit admits and the kernel grants. *)
Lemma dg_send_now r o rd wr x l c n : base r o rd wr -> ops o x -> d_err o = false -> can_send o = true -> lim_state r slim = Some (l, c) -> c < l -> 0 <= n <= s_busy_data_len (snd_ o) ->
  exists r' o' name, do_send r o (S_BYTES n) = Some (r', o', [DTook (s_busy_data (snd_ o)) (s_busy_data_len (snd_ o)) n name (control_of (s_local_addr (snd_ o))); SendDone]) /\
    addr_socket_to_sys (s_remote_addr (snd_ o)) = Some name /\ s_iface (snd_ o') = PIdle.
Proof.
  intros B P He Hs Hl Hc Hn. unfold can_send in Hs. apply andb_true_iff in Hs as [[Hi Hb]%andb_true_iff Hh]. unfold do_send. rewrite He, Hi, Hb, Hh. cbn [negb].
  destruct (b_obj _ _ _ _ B) as (_ & -> & _). destruct (lim_increment_ok r slim l c (b_io _ _ _ _ B) Hl) as (r' & -> & _). rewrite (proj2 (Z.ltb_lt c l) Hc). cbn [mbind option_bind negb].
  destruct (p_name _ _ P Hh) as [name ->]. cbn [mbind option_bind]. bool_true. bool_true. rewrite (p_send _ _ P). unfold sending. rewrite Hi, Hb. cbn. eexists _, _, name. done.
Qed.
Lemma dg_recv_now r o rd wr x l c (d : list Z) name ctl : base r o rd wr -> ops o x -> d_err o = false -> can_recv o = true -> lim_state r rlim = Some (l, c) -> c < l -> zlen d <= r_mtu (rcv o) ->
  sys_addr_ok name -> exists r' o', do_recv r o (R_MSG (zlen d) name ctl) = Some (r', o', [DGave (r_busy_data (rcv o)) (zlen d); RecvDone (zlen d)]) /\ r_iface (rcv o') = RIdle.
Proof.
  intros B P He Hs Hl Hc Hn Hok. unfold can_recv in Hs. apply andb_true_iff in Hs as [[Hi Hb]%andb_true_iff Hh]. unfold do_recv. rewrite He, Hi, Hb, Hh. cbn [negb].
  destruct (b_obj _ _ _ _ B) as (_ & _ & ->). destruct (lim_increment_ok r rlim l c (b_io _ _ _ _ B) Hl) as (r' & -> & _). rewrite (proj2 (Z.ltb_lt c l) Hc). cbn [mbind option_bind negb].
  pose proof (zlen_nonneg d). bool_true. bool_true. destruct (datagram_sys_to_socket name Hok) as [ra ->]. cbn [mbind option_bind r_iface r_set_addrs r_mtu]. rewrite (p_recv _ _ P). unfold receiving. rewrite Hi, Hb. cbn [andb].
  unfold PacketRecvInterface_Done. bool_true. bool_true. cbn. eexists _, _. done.
Qed.

(** ** Theorems *)

(** C35: a datagram socket is safe: whatever the user does within the documented rules, whatever the reactor
    reports and the operating system answers, and whatever others do with the reactor in between, no assertion
    of the socket, its interfaces or the reactor's functions is violated, with one exception: the assertions of [fd_handler] on its
    operations are violated exactly when a readiness is reported that the socket still waits for although there is nothing to send or to receive
    ([stale]).  This never happens when the operating system returns a pending error from the next operation, as POSIX says ([posix],
    [error_returned]).  And the descriptor of the socket is open
    until the socket is freed, the other open descriptors stay what they are (one that a failed initialisation
    had opened is closed again), and a socket that is gone leaves nothing in the reactor. *)
Theorem datagram_safe w : reach w ->
  (forall e, enabled w e = true -> if stale w e then exec w e = None else is_Some (exec w e)) /\
  (posix = true -> forall e, enabled w e = true -> stale w e = false) /\
  (forall e w', enabled w e = true -> exec w e = Some w' -> dg_balanced w w') /\
  (forall o, dg w = Some o -> fd o ∈ open_fds (kn w)) /\
  (dg w = None -> fd_watch (rx w) obj = None /\ lim_state (rx w) slim = None /\ lim_state (rx w) rlim = None).
Proof using Hlim.
  intros Hr. apply dg_reach_inv in Hr as I. split; [|split; [by intros Hp e He; apply dg_never_stale|split; [|split]]].
  - intros e He. pose proof (dg_step w e I He) as H. destruct (stale w e); [done|]. destruct H as (w' & -> & _). by eexists.
  - intros e w' He E. pose proof (dg_step w e I He) as H. destruct (stale w e); [congruence|]. destruct H as (w1 & E1 & B & _). by replace w' with w1 by congruence.
  - intros o Ho. pose proof (i_fd _ I) as H. unfold own in H. rewrite Ho in H. by apply H, elem_of_singleton.
  - intros Ho. pose proof (i_dg _ I) as H. by rewrite Ho in H.
Qed.

(** C36: the user of a datagram socket is told the truth: the messages the kernel took from memory, where and in the length that [sendmsg] was
    told, are, one by one and in order, the whole packets of whose transmission the user was told, each with the remote and the local address that
    were set, and the packets that the user finds at the places it gave are, one by one and in order, those the kernel gave, wherever [recvmsg]
    was told to write them; the addresses of the last packet are
    the ones the kernel gave with it; an operation is outstanding exactly while the socket is busy with it, and an
    error is reported at most once.  (That [sendmsg] returns less than the length of the message is only logged.) *)
Theorem datagram_delivery w o : reach w -> dg w = Some o ->
  Forall2 sent_as (d_out (lg w)) (d_done (lg w)) /\ d_user (lg w) = d_in (lg w) /\
  BDatagram_GetLastReceiveAddrs o = match last_from (lg w) with Some (name, c) => a ← addr_sys_to_socket name; Some (a, local_of c) | None => None end /\
  (s_iface (snd_ o) = PIdle <-> s_inited (snd_ o) && s_busy (snd_ o) = false) /\ (r_iface (rcv o) = RIdle <-> r_inited (rcv o) && r_busy (rcv o) = false) /\
  errors (lg w) = Nat.b2n (d_err o).
Proof using Hlim.
  intros Hr Ho. apply dg_reach_inv in Hr as I. pose proof (i_dg _ I) as G. rewrite Ho in G. destruct G as [_ [P1 P2 P2' P3 P4 P5 P6 P7 P8 P9]].
  rewrite P1, P3. do 3 (split; [done|]). fold (sending o) (receiving o). split; [by destruct (sending o); split|]. split; [|done]. by destruct (receiving o); split.
Qed.

(** no operation is forgotten, when pending errors are returned: while there is no error, a packet that is to be sent and whose addresses are
    set has either a job or a wait for writability, and a receive of a socket that was bound or has sent has
    either a job or a wait for readability; a wait exists only for such an operation, and unless the
    kernel has an error to return an operation does not have both.  At the next report of readiness that the
    limit admits the packet the kernel takes is sent, and the packet the kernel gives is received. *)
Theorem datagram_waits w o : posix = true -> reach w -> dg w = Some o -> d_err o = false ->
  (exists rd wr, fd_watch (rx w) obj = Some (waits rd wr) /\ can_send o = wr || s_job (snd_ o) /\ can_recv o = rd || r_job (rcv o) /\
    (sick (lg w) = false -> wr && s_job (snd_ o) = false /\ rd && r_job (rcv o) = false)) /\
  (forall l c n b d, s_job (snd_ o) = false -> can_send o = true -> lim_state (rx w) slim = Some (l, c) -> c < l -> 0 <= n <= s_busy_data_len (snd_ o) ->
    exists w' o', exec w (EFd BREACTOR_WRITE (S_BYTES n) b d) = Some w' /\ d_done (lg w') = d_done (lg w) ++ [(addrs (lg w), pkt (lg w))] /\ dg w' = Some o' /\ s_iface (snd_ o') = PIdle) /\
  (forall l c a (d : list Z) name ctl, r_job (rcv o) = false -> can_recv o = true -> lim_state (rx w) rlim = Some (l, c) -> c < l -> zlen d <= r_mtu (rcv o) -> sys_addr_ok name ->
    exists w' o', exec w (EFd BREACTOR_READ a (R_MSG (zlen d) name ctl) d) = Some w' /\ d_user (lg w') = d_user (lg w) ++ [d] /\ dg w' = Some o' /\ r_iface (rcv o') = RIdle).
Proof using Hlim.
  intros Hpx Hr Ho He. apply dg_reach_inv in Hr as I. pose proof (i_dg _ I) as G. rewrite Ho in G. destruct G as [(rd & wr & B & S) P].
  destruct (S He) as [[S1 S1']%(waited_once _ _ _ _ Hpx) [S2 S2']%(waited_once _ _ _ _ Hpx)]. split; [|split].
  - exists rd, wr. rewrite (b_watch _ _ _ _ B), (b_wait _ _ _ _ B). split; [done|]. split; [done|]. split; [done|]. auto.
  - intros l c n b d Hj Hs Hl Hc Hn. rewrite Hs, Hj, orb_false_r in S1. subst wr. cbn [exec]. rewrite Ho. cbn [mbind option_bind]. unfold fd_handler. rewrite He, (b_wait _ _ _ _ B), waits_drop_write.
    cbn [negb bfd with_wait wait_events]. cbv zeta. destruct (dg_set_events _ _ _ _ rd false B) as (r1 & -> & B1 & L1). cbn [mbind option_bind snd_ rcv with_wait]. fold (can_send o). rewrite Hs.
    change (has BREACTOR_WRITE BREACTOR_WRITE) with true. change (has BREACTOR_WRITE BREACTOR_READ) with false. change (has BREACTOR_WRITE (Z.lor BREACTOR_ERROR BREACTOR_HUP)) with false. cbn [negb orb andb]. destruct (dg_send_now r1 (with_wait o (waits rd false)) rd false (lg w) l c n B1) as (r2 & o2 & name & E & En & Ei); try done; [by destruct P|by rewrite L1|].
    rewrite E. cbn. eexists _, _. split; [done|]. done.
  - intros l c a d name ctl Hj Hs Hl Hc Hn Hok. rewrite Hs, Hj, orb_false_r in S2. subst rd. cbn [exec]. rewrite Ho. cbn [mbind option_bind]. unfold fd_handler. rewrite He, (b_wait _ _ _ _ B), waits_drop_read.
    cbn [negb bfd with_wait wait_events]. cbv zeta. destruct (dg_set_events _ _ _ _ false wr B) as (r1 & -> & B1 & L1). cbn [mbind option_bind snd_ rcv with_wait]. fold (can_send o) (can_recv o). rewrite Hs.
    change (has BREACTOR_READ BREACTOR_WRITE) with false. change (has BREACTOR_READ BREACTOR_READ) with true. change (has BREACTOR_READ (Z.lor BREACTOR_ERROR BREACTOR_HUP)) with false. cbn [negb orb andb]. destruct (dg_recv_now r1 (with_wait o (waits false wr)) false wr (lg w) l c d name ctl B1) as (r2 & o2 & E & Ei); try done; [by destruct P|by rewrite L1|].
    rewrite E. cbn. eexists _, _. split; [done|]. cbn. assert (receiving o = true) as Hrc by (by apply andb_true_iff in Hs as [? _]). by rewrite (proj1 (p_dest _ _ P Hrc)), read_write.
Qed.

Fixpoint run (w : world) (es : list event) : option world :=
  match es with
  | [] => Some w
  | e :: es => if enabled w e && (negb posix || error_returned w e) then w ← exec w e; run w es else None
  end.
Lemma dg_run_reach es : forall w w', reach w -> run w es = Some w' -> reach w'.
Proof.
  induction es as [|e es IH]; intros w w' Hr; cbn [run]; [by intros [= <-]|]. destruct (enabled w e) eqn:He; [|done]. destruct (negb posix || error_returned w e) eqn:Herr; [|done].
  cbn [andb]. destruct (exec w e) as [w1|] eqn:E; [|done]. apply IH. eapply reach_step; try done. intros Hp. by rewrite Hp in Herr.
Qed.
End World.

(** ** A run in the reactor of the program

    A socket that is not bound: the receive waits until a packet was sent, and the packet until
    the addresses are set; the kernel is not ready for it at first.  The packet is at address 50. *)
Definition dg_start : world (R := BReactor.t) := mkw (mk_kernel {[4]} ∅) initial None (no_log (write_mem ∅ 50 [1; 2; 3])).
Definition dg_peer : BAddr := ADDR_IPV4 134744072 13568.
Definition dg_events : list event :=
  [EInit 1 (Some 7) true true; ESendInit 1500; ERecvInit 1500; ERecv 100; ESend (Some 50) [1; 2; 3]; ESetAddrs dg_peer (IP_V4 16777343); ESendJob S_AGAIN].
Definition dg_run (w : world (R := BReactor.t)) (es : list event) : option (world (R := BReactor.t)) := run 1 2 3 true w es.
Definition dg_demo : world (R := BReactor.t) := Eval vm_compute in default dg_start (dg_run dg_start dg_events).
Definition dg_of (w : world (R := BReactor.t)) : BDatagram :=
  default (mk 0 1 0 (mk_send 1 false ADDR_NONE IP_NONE false 0 PIdle false false None 0) (mk_recv 1 false false ADDR_NONE IP_NONE false 0 RIdle false false 0) false) (dg w).

Lemma dg_demo_reach : reach 1 2 3 true dg_demo.
Proof. apply (dg_run_reach 1 2 3 true dg_events dg_start); [|by vm_compute]. constructor; [apply reactor_initial_ok|by vm_compute..]. Qed.

(** The answer comes from the same address. *)
Definition dg_answer : recv_answer := R_MSG 2 (mk_sys sizeof_sockaddr_in (SA_IN 13568 134744072)) [CMSG_OTHER; IP_PKTINFO 16777343].
Definition dg_more : list event := [EFd BREACTOR_WRITE (S_BYTES 3) R_AGAIN []; ERecvJob R_AGAIN []; EFd BREACTOR_READ S_AGAIN dg_answer [8; 9]].
Definition dg_done_world : world (R := BReactor.t) := Eval vm_compute in default dg_start (dg_run dg_demo dg_more).
Lemma dg_done_reach : reach 1 2 3 true dg_done_world.
Proof. apply (dg_run_reach 1 2 3 true dg_more dg_demo); [apply dg_demo_reach|by vm_compute]. Qed.

Lemma datagram_safe_witness : is_Some (exec 1 2 3 dg_demo (EFd BREACTOR_WRITE (S_BYTES 3) R_AGAIN [])) /\ 7 ∈ open_fds (kn dg_demo).
Proof.
  destruct (datagram_safe 1 2 3 true ltac:(done) dg_demo dg_demo_reach) as (H1 & _ & _ & H3 & _).
  split; [exact (H1 (EFd BREACTOR_WRITE (S_BYTES 3) R_AGAIN []) ltac:(by vm_compute))|]. apply (H3 (dg_of dg_demo)). by vm_compute.
Defined.

Lemma datagram_delivery_witness : Forall2 sent_as (d_out (lg dg_done_world)) (d_done (lg dg_done_world)) /\
  d_done (lg dg_done_world) = [(Some (dg_peer, IP_V4 16777343), [1; 2; 3])] /\ d_user (lg dg_done_world) = [[8; 9]] /\
  BDatagram_GetLastReceiveAddrs (dg_of dg_done_world) = Some (dg_peer, IP_V4 16777343).
Proof.
  split; [|by vm_compute]. apply (datagram_delivery 1 2 3 true ltac:(done) dg_done_world (dg_of dg_done_world) dg_done_reach). by vm_compute.
Defined.

Lemma datagram_waits_witness : fd_watch (rx dg_demo) 1%positive = Some (waits false true) /\
  exists w' o', exec 1 2 3 dg_demo (EFd BREACTOR_WRITE (S_BYTES 3) R_AGAIN []) = Some w' /\ d_done (lg w') = [(Some (dg_peer, IP_V4 16777343), [1; 2; 3])] /\ dg w' = Some o' /\ s_iface (snd_ o') = PIdle.
Proof.
  destruct (datagram_waits 1 2 3 true ltac:(done) dg_demo (dg_of dg_demo) eq_refl dg_demo_reach ltac:(by vm_compute) ltac:(by vm_compute)) as (_ & H2 & _).
  split; [by vm_compute|]. apply (H2 2 1 3 R_AGAIN []); by vm_compute.
Defined.

(** As for a connection, what POSIX says of pending errors is needed: an error reported without the readiness that is waited for leaves the
    wait in place, and when the packet is sent all the same the next report is [stale] and violates an assertion. *)
Definition dg_alone : list event := [EFd BREACTOR_ERROR (S_BYTES 3) R_AGAIN []; ERecvJob R_AGAIN []].
Example datagram_error_alone : run 1 2 3 true dg_demo dg_alone = None /\ exists w, run 1 2 3 false dg_demo dg_alone = Some w /\
  s_busy (snd_ (dg_of w)) = false /\ fd_watch (rx w) 1%positive = Some (waits true true) /\
  (enabled 1 w (EFd BREACTOR_WRITE S_AGAIN R_AGAIN []), stale w (EFd BREACTOR_WRITE S_AGAIN R_AGAIN [])) = (true, true) /\
  forall a b d, exec 1 2 3 w (EFd BREACTOR_WRITE a b d) = None.
Proof. split; [by vm_compute|]. eexists. split; [by vm_compute|]. do 3 (split; [by vm_compute|]). intros a b d. by vm_compute. Qed.

End BDatagramInv.
