(* ===== verification/PacketPassFairQueue.v ===== *)
(** * Fair queue (flow/PacketPassFairQueue.c)

    Any number of flows share one output.  Each flow has a virtual time, which a packet advances by
    its size and a constant weight; of the flows with a packet the one with the least time goes
    next.  The packets queued are in a tree ([CAvl], through the wrappers of structure/SAvl_impl.h)
    ordered by time and address, all flows are in a list ([LinkedList1]).  The state keeps the memory
    of the flow objects, so that a dangling pointer to one is a failing look-up. *)

From stdpp Require Import gmap.
From S2P Require Import Prelude BAlign DebugCounter FlowView BAddr LinkedList1 BAVL CAvl.

Module PacketPassFairQueue.

Abbreviation ptr := positive.

(** The value of the build; the header suggests a smaller one to test the handling of overflow, so
    the functions have it as an argument. *)
Definition FAIRQUEUE_MAX_TIME : Z := UINT64_MAX.

(** [handler_busy]: whether the one-shot handler is set. *)
Record PacketPassFairQueueFlow := mk_flow {
  handler_busy : bool;
  input : pass_view;
  time : Z;
  is_queued : bool;
  data : option Z;
  data_len : Z;
}.
Definition with_handler_busy (e : PacketPassFairQueueFlow) (v : bool) := mk_flow v (input e) (time e) (is_queued e) (data e) (data_len e).
Definition with_input (e : PacketPassFairQueueFlow) (v : pass_view) := mk_flow (handler_busy e) v (time e) (is_queued e) (data e) (data_len e).
Definition with_time (e : PacketPassFairQueueFlow) (v : Z) := mk_flow (handler_busy e) (input e) v (is_queued e) (data e) (data_len e).
Definition with_is_queued (e : PacketPassFairQueueFlow) (v : bool) := mk_flow (handler_busy e) (input e) (time e) v (data e) (data_len e).
Definition with_queued (e : PacketPassFairQueueFlow) (d : option Z) (len : Z) := mk_flow (handler_busy e) (input e) (time e) (is_queued e) d len.

(** [flows]: the memory of the flow objects; [output_cancel]: whether the output supports
    cancellation; [schedule_job]: whether the job is set. *)
Record t := mk {
  output : pass_view;
  output_mtu : Z;
  output_cancel : bool;
  use_cancel : bool;
  packet_weight : Z;
  sending_flow : option ptr;
  sending_len : Z;
  previous_flow : option ptr;
  queued_tree : BAVL.t;
  flows_list : LinkedList1.t;
  freeing : bool;
  schedule_job : bool;
  d_ctr : Z;
  flows : gmap ptr PacketPassFairQueueFlow;
}.
Definition with_output (m : t) (v : pass_view) : t :=
  mk v (output_mtu m) (output_cancel m) (use_cancel m) (packet_weight m) (sending_flow m) (sending_len m) (previous_flow m) (queued_tree m) (flows_list m) (freeing m) (schedule_job m) (d_ctr m) (flows m).
Definition with_sending (m : t) (s : option ptr) (len : Z) : t :=
  mk (output m) (output_mtu m) (output_cancel m) (use_cancel m) (packet_weight m) s len (previous_flow m) (queued_tree m) (flows_list m) (freeing m) (schedule_job m) (d_ctr m) (flows m).
Definition with_previous (m : t) (p : option ptr) : t :=
  mk (output m) (output_mtu m) (output_cancel m) (use_cancel m) (packet_weight m) (sending_flow m) (sending_len m) p (queued_tree m) (flows_list m) (freeing m) (schedule_job m) (d_ctr m) (flows m).
Definition with_tree (m : t) (x : BAVL.t) : t :=
  mk (output m) (output_mtu m) (output_cancel m) (use_cancel m) (packet_weight m) (sending_flow m) (sending_len m) (previous_flow m) x (flows_list m) (freeing m) (schedule_job m) (d_ctr m) (flows m).
Definition with_list (m : t) (l : LinkedList1.t) : t :=
  mk (output m) (output_mtu m) (output_cancel m) (use_cancel m) (packet_weight m) (sending_flow m) (sending_len m) (previous_flow m) (queued_tree m) l (freeing m) (schedule_job m) (d_ctr m) (flows m).
Definition with_freeing (m : t) (b : bool) : t :=
  mk (output m) (output_mtu m) (output_cancel m) (use_cancel m) (packet_weight m) (sending_flow m) (sending_len m) (previous_flow m) (queued_tree m) (flows_list m) b (schedule_job m) (d_ctr m) (flows m).
Definition with_job (m : t) (b : bool) : t :=
  mk (output m) (output_mtu m) (output_cancel m) (use_cancel m) (packet_weight m) (sending_flow m) (sending_len m) (previous_flow m) (queued_tree m) (flows_list m) (freeing m) b (d_ctr m) (flows m).
Definition with_ctr (m : t) (c : Z) : t :=
  mk (output m) (output_mtu m) (output_cancel m) (use_cancel m) (packet_weight m) (sending_flow m) (sending_len m) (previous_flow m) (queued_tree m) (flows_list m) (freeing m) (schedule_job m) c (flows m).
Definition with_flows (m : t) (fs : gmap ptr PacketPassFairQueueFlow) : t :=
  mk (output m) (output_mtu m) (output_cancel m) (use_cancel m) (packet_weight m) (sending_flow m) (sending_len m) (previous_flow m) (queued_tree m) (flows_list m) (freeing m) (schedule_job m) (d_ctr m) fs.
Definition set_flow (m : t) (f : ptr) (e : PacketPassFairQueueFlow) : t := with_flows m (<[f := e]> (flows m)).

Definition compare_flows (fs : gmap ptr PacketPassFairQueueFlow) (f1 f2 : ptr) : option Z :=
  e1 ← fs !! f1;
  e2 ← fs !! f2;
  let cmp := B_COMPARE (time e1) (time e2) in
  Some (if negb (cmp =? 0) then cmp else B_COMPARE (Z.pos f1) (Z.pos f2)).

Definition get_current_time (m : t) : option Z :=
  match sending_flow m with
  | Some s => e ← flows m !! s; Some (time e)
  | None =>
      first_flow ← CAvl.SAvl_GetFirst (queued_tree m);
      '(now, have) ← match first_flow with
        | Some f => e ← flows m !! f; ASSERT is_queued e; Some (time e, true)
        | None => Some (0, false)
        end;
      '(now, have) ← match previous_flow m with
        | Some p => e ← flows m !! p; Some (if negb have || (time e <? now) then (time e, true) else (now, have))
        | None => Some (now, have)
        end;
      Some (if (have : bool) then now else 0)
  end.

(** The loop of [increment_sent_flow] over the list of flows, from [list_node] on. *)
Fixpoint subtract_loop (fuel : nat) (m : t) (flow : ptr) (subtract : Z) (list_node : option ptr) : option t :=
  match list_node with
  | None => Some m
  | Some someflow =>
      match fuel with
      | O => None
      | S fuel =>
          e ← flows m !! someflow;
          m ← (if (subtract >? time e) && negb (bool_decide (someflow = flow)) then
                 ASSERT negb (is_queued e); Some (set_flow m someflow (with_time e 0))
               else Some (set_flow m someflow (with_time e (u64 (time e - subtract)))));
          next ← LinkedList1.LinkedList1Node_Next (flows_list m) someflow;
          subtract_loop fuel m flow subtract next
      end
  end.

Section MaxTime.
Context (max_time : Z).

Definition increment_sent_flow (m : t) (flow : ptr) (amount : Z) : option t :=
  e ← flows m !! flow;
  ASSERT amount <=? max_time;
  ASSERT negb (is_queued e);
  ASSERT bool_decide (sending_flow m = None);
  m ← (if amount >? max_time - time e then
         first_flow ← CAvl.SAvl_GetFirst (queued_tree m);
         subtract ← match first_flow with
           | None => Some (time e)
           | Some f => e ← flows m !! f; ASSERT is_queued e; Some (time e)
           end;
         subtract_loop (size (flows m)) m flow subtract (LinkedList1.LinkedList1_GetFirst (flows_list m))
       else Some m);
  e ← flows m !! flow;
  Some (set_flow m flow (with_time e (u64 (time e + amount)))).

Definition schedule (m : t) : option t :=
  ASSERT bool_decide (sending_flow m = None);
  ASSERT bool_decide (previous_flow m = None);
  ASSERT negb (freeing m);
  ASSERT negb (CAvl.SAvl_IsEmpty (queued_tree m));
  first_flow ← CAvl.SAvl_GetFirst (queued_tree m);
  qflow ← first_flow;
  e ← flows m !! qflow;
  ASSERT is_queued e;
  x ← CAvl.SAvl_Remove (queued_tree m) qflow;
  let m := set_flow (with_tree m x) qflow (with_is_queued e false) in
  v ← PacketPassInterface_Sender_Send (output m) (output_mtu m) (data e) (data_len e);
  Some (with_sending (with_output m v) (Some qflow) (data_len e)).

Definition schedule_job_handler (m : t) : option t :=
  ASSERT bool_decide (sending_flow m = None);
  ASSERT negb (freeing m);
  let m := with_previous m None in
  if negb (CAvl.SAvl_IsEmpty (queued_tree m)) then schedule m else Some m.

Definition input_handler_send (m : t) (flow : ptr) (d : option Z) (len : Z) : option t :=
  ASSERT bool_decide (Some flow <> sending_flow m);
  e ← flows m !! flow;
  ASSERT negb (is_queued e);
  ASSERT negb (freeing m);
  m ← (if bool_decide (Some flow = previous_flow m) then Some (with_previous m None)
       else now ← get_current_time m; Some (set_flow m flow (with_time e (bmax_uint64 (time e) now))));
  e ← flows m !! flow;
  let m := set_flow m flow (with_queued e d len) in
  '(x, res, _) ← CAvl.SAvl_Insert (compare_flows (flows m)) (queued_tree m) flow;
  ASSERT res;
  e ← flows m !! flow;
  let m := set_flow (with_tree m x) flow (with_is_queued e true) in
  if bool_decide (sending_flow m = None) && negb (schedule_job m) then schedule m else Some m.

(** The flag of the result: the busy handler is called. *)
Definition output_handler_done (m : t) : option (t * bool) :=
  flow ← sending_flow m;
  ASSERT bool_decide (previous_flow m = None);
  ASSERT negb (schedule_job m);
  ASSERT negb (freeing m);
  e ← flows m !! flow;
  ASSERT negb (is_queued e);
  let len := sending_len m in
  let m := with_previous (with_sending m None len) (Some flow) in
  m ← increment_sent_flow m flow (packet_weight m + len);
  let m := with_job m true in
  e ← flows m !! flow;
  i ← PacketPassInterface_Done (input e);
  let m := set_flow m flow (with_input e i) in
  if handler_busy e then Some (set_flow m flow (with_handler_busy (with_input e i) false), true) else Some (m, false).

(** [inl tt]: the MTU of the output is too large. *)
Definition PacketPassFairQueue_Init (mtu : Z) (cancel use_cancel_ : bool) (weight : Z) : option (unit + t) :=
  ASSERT weight >? 0;
  ASSERT negb use_cancel_ || cancel;
  if negb ((mtu <=? max_time) && (weight <=? max_time - mtu)) then Some (inl tt) else
  Some (inr (mk PIdle mtu cancel use_cancel_ weight None 0 None (CAvl.SAvl_Init (BAVL.mk ∅ None))
    (LinkedList1.LinkedList1_Init (LinkedList1.mk ∅ None None)) false false 0 ∅)).

End MaxTime.

Definition PacketPassFairQueue_Free (m : t) : option unit :=
  ASSERT LinkedList1.LinkedList1_IsEmpty (flows_list m);
  ASSERT CAvl.SAvl_IsEmpty (queued_tree m);
  ASSERT bool_decide (previous_flow m = None);
  ASSERT bool_decide (sending_flow m = None);
  DebugCounter_Free (d_ctr m).

Definition PacketPassFairQueue_PrepareFree (m : t) : t := with_freeing m true.
Definition PacketPassFairQueue_GetMTU (m : t) : Z := output_mtu m.

(** The object is the memory at [flow]. *)
Definition PacketPassFairQueueFlow_Init (m : t) (flow : ptr) : option t :=
  ASSERT negb (freeing m);
  let m := set_flow m flow (mk_flow false PIdle 0 false None 0) in
  let l := flows_list m in
  l ← LinkedList1.LinkedList1_Append (LinkedList1.with_node l flow (LinkedList1.mk_node None None)) flow;
  c ← DebugCounter_Increment (d_ctr m);
  Some (with_ctr (with_list m l) c).

(** The memory of the object, its nodes included, is gone afterwards. *)
Definition PacketPassFairQueueFlow_Free (m : t) (flow : ptr) : option t :=
  ASSERT freeing m || bool_decide (Some flow <> sending_flow m);
  c ← DebugCounter_Decrement (d_ctr m);
  let m := with_ctr m c in
  let m := if bool_decide (Some flow = sending_flow m) then with_sending m None (sending_len m) else m in
  let m := if bool_decide (Some flow = previous_flow m) then with_previous m None else m in
  e ← flows m !! flow;
  m ← (if is_queued e then x ← CAvl.SAvl_Remove (queued_tree m) flow; Some (with_tree m x) else Some m);
  l ← LinkedList1.LinkedList1_Remove (flows_list m) flow;
  let m := with_list m (LinkedList1.mk (delete flow (LinkedList1.heap l)) (LinkedList1.first l) (LinkedList1.last l)) in
  let m := with_tree m (BAVL.mk (delete flow (BAVL.heap (queued_tree m))) (BAVL.root (queued_tree m))) in
  Some (with_flows m (delete flow (flows m))).

Definition PacketPassFairQueueFlow_AssertFree (m : t) (flow : ptr) : option unit :=
  ASSERT freeing m || bool_decide (Some flow <> sending_flow m);
  Some tt.

Definition PacketPassFairQueueFlow_IsBusy (m : t) (flow : ptr) : option bool :=
  ASSERT negb (freeing m);
  Some (bool_decide (Some flow = sending_flow m)).

(** The output completes the operation earlier, or as it would have. *)
Definition PacketPassFairQueueFlow_RequestCancel (m : t) (flow : ptr) : option t :=
  ASSERT bool_decide (Some flow = sending_flow m);
  ASSERT use_cancel m;
  ASSERT negb (freeing m);
  ASSERT negb (schedule_job m);
  ASSERT (match output m with PBusy _ _ => true | PIdle => false end);
  ASSERT output_cancel m;
  Some m.

Definition PacketPassFairQueueFlow_SetBusyHandler (m : t) (flow : ptr) (handler : bool) : option t :=
  ASSERT bool_decide (Some flow = sending_flow m);
  ASSERT negb (freeing m);
  e ← flows m !! flow;
  Some (set_flow m flow (with_handler_busy e handler)).

End PacketPassFairQueue.
