(* ===== verification/FairQueueInv.v ===== *)
(** * Fair queue: invariant, safety and fairness

    The invariant relates the pointer structures of [PacketPassFairQueue] to the list [lq] of the
    queued flows in the order of time and address, and the list [lf] of all flows.  The theorems are
    about every interleaving of packets, completions, the scheduling job, and flows that come and
    go. *)

From stdpp Require Import gmap sorting.
From S2P Require Import Prelude BAlign DebugCounter FlowView BAddr LinkedList1 BAVL BAVLSpec EntryOrder CAvl CAvlSpec PacketPassFairQueue.
Import BAVLSpec CAvlSpec PacketPassFairQueue.

Module FairQueueInv.

Section MaxTime.
Context (max_time : Z) (Hmax : max_time <= UINT64_MAX).

(** ** The order of flows *)
Definition fkey (fs : gmap ptr PacketPassFairQueueFlow) (i : ptr) : option (Z * Z) := e ← fs !! i; Some (time e, Z.pos i).

Lemma compare_flows_key fs i j : compare_flows fs i j = (v ← fkey fs i; w ← fkey fs j; Some (tcmp v w)).
Proof. unfold compare_flows, fkey. by destruct (fs !! i), (fs !! j). Qed.

(** ** Invariant *)
Definition packet_ok (m : t) (d : option Z) (len : Z) : Prop := 0 <= len <= output_mtu m /\ (0 < len -> is_Some d).

(** The operation on the input of a flow. *)
Definition input_of (m : t) (f : ptr) (e : PacketPassFairQueueFlow) : pass_view :=
  if is_queued e then PBusy (data e) (data_len e) else if bool_decide (sending_flow m = Some f) then output m else PIdle.

Record sending_ok (m : t) (lq : list ptr) (s : ptr) : Prop := {
  s_flow : exists e, flows m !! s = Some e /\ forall g eg, g ∈ lq -> flows m !! g = Some eg -> time e <= time eg;
  s_queued : s ∉ lq;
  s_previous : previous_flow m = None;
  s_job : schedule_job m = false;
  s_output : exists d, output m = PBusy d (sending_len m) /\ packet_ok m d (sending_len m);
}.

Record core (m : t) (lq lf : list ptr) : Prop := {
  q_tree : tree_of (queued_tree m) lq;
  q_sorted : by_number (fkey (flows m)) lq;
  q_list : LinkedList1.rep (flows_list m) lf;
  q_dom : forall f, f ∈ lf <-> is_Some (flows m !! f);
  q_queued : forall f, f ∈ lq <-> exists e, flows m !! f = Some e /\ is_queued e = true;
  q_range : forall f e, flows m !! f = Some e -> 0 <= time e <= max_time;
  q_packet : forall f e, flows m !! f = Some e -> is_queued e = true -> packet_ok m (data e) (data_len e);
  q_input : forall f e, flows m !! f = Some e -> input e = input_of m f e;
  q_sending : forall s, sending_flow m = Some s -> sending_ok m lq s;
  q_idle : sending_flow m = None -> freeing m = false -> output m = PIdle;
  q_previous : forall p, previous_flow m = Some p -> is_Some (flows m !! p) /\ (p ∉ lq) /\ (schedule_job m = true \/ freeing m = true);
  q_ctr : counter_ok (d_ctr m) (length lf);
  q_weight : 0 < packet_weight m /\ 0 <= output_mtu m /\ packet_weight m + output_mtu m <= max_time;
  q_cancel : use_cancel m = true -> output_cancel m = true;
}.

(** The output is never idle while a packet waits, but for the time until the scheduling job. *)
Definition work (m : t) (lq : list ptr) : Prop :=
  sending_flow m = None -> freeing m = false -> schedule_job m = false -> lq = [].

Definition time_of (m : t) (f : ptr) : option Z := time <$> flows m !! f.

Lemma nodup_queued m lq lf : core m lq lf -> NoDup lq.
Proof. intros C. eapply tree_of_nodup, C. Qed.

Lemma core_size m lq lf : core m lq lf -> size (flows m) = length lf.
Proof.
  intros C. pose proof (q_list _ _ _ C) as (Hn & _). rewrite <- (size_list_to_set (C := gset ptr)) by done. rewrite <- size_dom. f_equal. apply leibniz_equiv.
  intros f. rewrite elem_of_list_to_set, elem_of_dom. symmetry. apply C.
Qed.

Lemma queued_first m lq lf : core m lq lf -> CAvl.SAvl_GetFirst (queued_tree m) = Some (head lq) /\ CAvl.SAvl_IsEmpty (queued_tree m) = bool_decide (lq = []).
Proof. intros C. apply CAvl_first_ok, C. Qed.

Lemma head_least m q lq lf : core m (q :: lq) lf -> exists e, flows m !! q = Some e /\ is_queued e = true /\
  forall g eg, g ∈ q :: lq -> flows m !! g = Some eg -> time e <= time eg.
Proof.
  intros C. destruct (proj1 (q_queued _ _ _ C q)) as (e & E & Hq); [by left|]. exists e. split; [done|]. split; [done|]. intros g eg Hg Eg.
  apply elem_of_cons in Hg as [->|Hg]; [rewrite E in Eg; by injection Eg as ->|].
  destruct (by_number_head _ _ _ g (time e, Z.pos q) (q_sorted _ _ _ C) Hg) as (w & Hw & Hle); [unfold fkey; by rewrite E|].
  unfold fkey in Hw. rewrite Eg in Hw. by injection Hw as <-.
Qed.

(** ** Virtual time *)
Lemma next_ok s l1 x l2 : LinkedList1.rep s (l1 ++ x :: l2) -> LinkedList1.LinkedList1Node_Next s x = Some (LinkedList1.head_or l2 None).
Proof. intros (_ & _ & _ & D). apply LinkedList1.dll_app in D as [_ [E _]]. unfold LinkedList1.LinkedList1Node_Next. by rewrite E. Qed.

(** One flow of the loop that subtracts [sub]. *)
Definition lowered (f : ptr) (sub : Z) (g : ptr) (e : PacketPassFairQueueFlow) : PacketPassFairQueueFlow :=
  with_time e (if bool_decide (g = f) then u64 (time e - sub) else Z.max 0 (time e - sub)).

Lemma subtract_loop_ok f sub l2 : forall fuel m l1, LinkedList1.rep (flows_list m) (l1 ++ l2) -> (length l2 <= fuel)%nat -> 0 <= sub ->
  (forall g, g ∈ l2 -> exists e, flows m !! g = Some e /\ 0 <= time e <= UINT64_MAX /\ (is_queued e = true -> sub <= time e)) ->
  exists fs, subtract_loop fuel m f sub (LinkedList1.head_or l2 None) = Some (with_flows m fs) /\
    forall g, fs !! g = if bool_decide (g ∈ l2) then lowered f sub g <$> flows m !! g else flows m !! g.
Proof.
  induction l2 as [|x l2 IH]; intros fuel m l1 R Hf Hs He.
  - exists (flows m). destruct fuel; (split; [by destruct m|]); intros g; rewrite bool_decide_false; try done; apply not_elem_of_nil.
  - destruct fuel as [|fuel]; [cbn [length] in Hf; lia|]. cbn [subtract_loop LinkedList1.head_or].
    destruct (He x) as (e & E & Hr & Hq); [by left|]. rewrite E. cbn [mbind option_bind].
    assert ((if (sub >? time e) && negb (bool_decide (x = f)) then ASSERT negb (is_queued e); Some (set_flow m x (with_time e 0))
             else Some (set_flow m x (with_time e (u64 (time e - sub))))) = Some (set_flow m x (lowered f sub x e))) as ->.
    { unfold lowered. destruct (bool_decide (x = f)); [by rewrite andb_false_r|]. rewrite andb_true_r. unfold UINT64_MAX in *. case_if.
      - destruct (is_queued e); [specialize (Hq eq_refl); lia|]. cbn [negb]. do 3 f_equal. lia.
      - do 3 f_equal. rewrite uwrap_small; lia. }
    pose proof R as (Hn & _). cbn [mbind option_bind]. assert (flows_list (set_flow m x (lowered f sub x e)) = flows_list m) as Ef by done. rewrite Ef, (next_ok _ l1 x l2 R).
    cbn [mbind option_bind]. destruct (IH fuel (set_flow m x (lowered f sub x e)) (l1 ++ [x])) as (fs & -> & Hfs).
    + by rewrite <- app_assoc.
    + cbn [length] in Hf. lia.
    + done.
    + intros g Hg. apply list.NoDup_app in Hn as (_ & _ & Hn). apply list.NoDup_cons in Hn as [Hx _]. destruct (He g) as (eg & Eg & Hg'); [by right|]. exists eg.
      cbn. rewrite lookup_insert_ne by congruence. done.
    + exists fs. split; [done|]. intros g. rewrite Hfs. cbn. apply list.NoDup_app in Hn as (_ & _ & Hn). apply list.NoDup_cons in Hn as [Hx _].
      destruct (decide (g = x)) as [->|N].
      * rewrite bool_decide_false by done. rewrite bool_decide_true by (by left). by rewrite lookup_insert_eq, E.
      * rewrite lookup_insert_ne by done. assert (bool_decide (g ∈ x :: l2) = bool_decide (g ∈ l2)) as -> by (apply bool_decide_ext; rewrite elem_of_cons; tauto). done.
Qed.

(** The times after a packet of [f]: its own is advanced by [amount], and [sub] is subtracted from
    all of them. *)
Definition advanced (f : ptr) (amount sub : Z) (g : ptr) (e : PacketPassFairQueueFlow) : PacketPassFairQueueFlow :=
  with_time e (if bool_decide (g = f) then time e + amount - sub else Z.max 0 (time e - sub)).

Record advance (m : t) (lq : list ptr) (f : ptr) (amount sub : Z) (fs : gmap ptr PacketPassFairQueueFlow) : Prop := {
  ad_sub : 0 <= sub;
  ad_queued : forall g e, g ∈ lq -> flows m !! g = Some e -> sub <= time e;
  ad_sent : forall e, flows m !! f = Some e -> 0 <= time e + amount - sub <= max_time /\ (sub = 0 \/ max_time < time e + amount);
  ad_flows : forall g, fs !! g = advanced f amount sub g <$> flows m !! g;
}.

Lemma increment_ok m lq lf f e amount : tree_of (queued_tree m) lq -> LinkedList1.rep (flows_list m) lf -> by_number (fkey (flows m)) lq ->
  (forall g, g ∈ lf <-> is_Some (flows m !! g)) -> (forall g, g ∈ lq <-> exists e, flows m !! g = Some e /\ is_queued e = true) ->
  (forall g e, flows m !! g = Some e -> 0 <= time e <= max_time) ->
  flows m !! f = Some e -> f ∉ lq -> sending_flow m = None -> (forall g eg, g ∈ lq -> flows m !! g = Some eg -> time e <= time eg) -> 0 <= amount <= max_time ->
  exists sub fs, increment_sent_flow max_time m f amount = Some (with_flows m fs) /\ advance m lq f amount sub fs.
Proof using Hmax.
  intros T R S D Q G E Hf Hsend Hle Ha. unfold increment_sent_flow. rewrite E. cbn [mbind option_bind]. bool_true.
  assert (is_queued e = false) as ->. { destruct (is_queued e) eqn:Eq; [|done]. destruct Hf. apply Q. by exists e. }
  rewrite Hsend. cbn [negb]. rewrite bool_decide_true by done. pose proof (G f e E) as Hr. unfold UINT64_MAX in *. case_if.
  - assert (exists sub, (first_flow ← CAvl.SAvl_GetFirst (queued_tree m);
        match first_flow with None => Some (time e) | Some f => e ← flows m !! f; ASSERT is_queued e; Some (time e) end) = Some sub /\ time e <= sub <= max_time /\
        forall g eg, g ∈ lq -> flows m !! g = Some eg -> sub <= time eg) as (sub & Es & Hsub & Hq).
    { unfold CAvl.SAvl_GetFirst. destruct (CAvl_first_ok _ _ T) as [-> _]. cbn [mbind option_bind]. destruct lq as [|q lq]; cbn [head].
      - exists (time e). split; [done|]. split; [lia|]. intros g eg Hg. by apply not_elem_of_nil in Hg.
      - destruct (proj1 (Q q)) as (eq & Eq & Hqq); [by left|]. rewrite Eq. cbn [mbind option_bind]. rewrite Hqq. exists (time eq). split; [done|]. split.
        + split; [apply (Hle q); [by left|done]|by apply (G q)].
        + intros g eg [->|Hg]%elem_of_cons Eg; [replace eg with eq by congruence; lia|].
          destruct (by_number_head _ _ _ g (time eq, Z.pos q) S Hg) as (w & Hw & Hl); [unfold fkey; by rewrite Eq|]. unfold fkey in Hw. rewrite Eg in Hw. by injection Hw as <-. }
    destruct (CAvl.SAvl_GetFirst (queued_tree m)) as [ff|]; [|done]. cbn [mbind option_bind] in Es |- *. rewrite Es. cbn [mbind option_bind].
    assert (LinkedList1.LinkedList1_GetFirst (flows_list m) = LinkedList1.head_or lf None) as -> by apply R.
    destruct (subtract_loop_ok f sub lf (size (flows m)) m []) as (fs & -> & Hfs).
    + done.
    + destruct R as (Hn & _). rewrite <- (size_list_to_set (C := gset ptr)), <- size_dom by done. apply subseteq_size. intros g. rewrite elem_of_list_to_set, elem_of_dom. apply D.
    + lia.
    + intros g Hg. apply D in Hg as [eg Eg]. exists eg. split; [done|]. pose proof (G g eg Eg). split; [unfold UINT64_MAX; lia|]. intros Hq'. apply (Hq g eg); [|done]. apply Q. by exists eg.
    + cbn [mbind option_bind with_flows flows]. assert (forall g, fs !! g = lowered f sub g <$> flows m !! g) as Hl.
      { intros g. rewrite Hfs. destruct (flows m !! g) eqn:Eg; [rewrite bool_decide_true; [done|apply D; by eexists]|by case_bool_decide]. }
      rewrite Hl, E. cbn [fmap option_fmap option_map mbind option_bind]. exists sub. eexists. split; [done|]. split; [lia|done|..].
      * intros e' E'. replace e' with e by congruence. lia.
      * intros g. cbn. destruct (decide (g = f)) as [->|N].
        -- rewrite lookup_insert_eq, E. cbn. unfold advanced, lowered. rewrite bool_decide_true by done. cbn. f_equal. unfold with_time. cbn. f_equal.
           unfold uwrap. rewrite Zplus_mod_idemp_l, Z.mod_small; lia.
        -- rewrite lookup_insert_ne, Hl by done. destruct (flows m !! g); [|done]. cbn. unfold advanced, lowered. by rewrite bool_decide_false by done.
  - cbn [mbind option_bind]. rewrite E. cbn [mbind option_bind]. exists 0. eexists. split; [done|]. split; [lia|..].
    + intros g eg Hg Eg. by apply (G g).
    + intros e' E'. replace e' with e by congruence. lia.
    + intros g. destruct (decide (g = f)) as [->|N].
      * rewrite lookup_insert_eq, E. cbn. unfold advanced. rewrite bool_decide_true by done. do 2 f_equal. rewrite uwrap_small; lia.
      * rewrite lookup_insert_ne by done. destruct (flows m !! g) as [eg|] eqn:Eg; [|done]. cbn. unfold advanced. rewrite bool_decide_false by done. f_equal.
        pose proof (G g eg Eg). destruct eg. unfold with_time. cbn in *. f_equal. lia.
Qed.

(** ** Scheduling *)
Lemma output_send_ok v mtu d len : v = PIdle -> 0 <= len <= mtu -> (0 < len -> is_Some d) -> PacketPassInterface_Sender_Send v mtu d len = Some (PBusy d len).
Proof.
  intros -> Hl Hd. unfold PacketPassInterface_Sender_Send. do 2 bool_true.
  destruct (Z.gtb_spec len 0); cbn [negb orb]; [rewrite bool_decide_true by (apply Hd; lia)|]; done.
Qed.

Lemma fkey_same (fs : gmap ptr PacketPassFairQueueFlow) f e e' i : fs !! f = Some e -> time e' = time e -> fkey (<[f := e']> fs) i = fkey fs i.
Proof. intros E H. unfold fkey. destruct (decide (i = f)) as [->|N]; [rewrite lookup_insert_eq, E; cbn; by rewrite H|by rewrite lookup_insert_ne]. Qed.

Lemma insert_is_Some (fs : gmap ptr PacketPassFairQueueFlow) f e' g : is_Some (fs !! f) -> is_Some (<[f := e']> fs !! g) <-> is_Some (fs !! g).
Proof. intros H. destruct (decide (g = f)) as [->|N]; [rewrite lookup_insert_eq; split; [done|by eexists]|by rewrite lookup_insert_ne]. Qed.

(** A property of all flows after the change of one: the changed one, and the others. *)
Tactic Notation "each_flow" ident(g) ident(e) ident(N) ident(E) :=
  intros g e;
  match goal with
  | |- <[?f := _]> _ !! _ = Some _ -> _ =>
      destruct (decide (g = f)) as [->|N]; [rewrite lookup_insert_eq; intros [= <-]|rewrite lookup_insert_ne by done; intros E]
  end.

Lemma schedule_ok m q lq lf : core m (q :: lq) lf -> sending_flow m = None -> previous_flow m = None -> freeing m = false -> schedule_job m = false ->
  exists e x, flows m !! q = Some e /\
    schedule m = Some (with_sending (with_output (set_flow (with_tree m x) q (with_is_queued e false)) (PBusy (data e) (data_len e))) (Some q) (data_len e)) /\
    core (with_sending (with_output (set_flow (with_tree m x) q (with_is_queued e false)) (PBusy (data e) (data_len e))) (Some q) (data_len e)) lq lf.
Proof.
  intros C Hs Hp Hf Hj. destruct (head_least _ _ _ _ C) as (e & E & Hq & Hle). pose proof (nodup_queued _ _ _ C) as Hn. apply list.NoDup_cons in Hn as [Hq' Hn].
  pose proof C as [C1 C2 C3 C4 C5 C6 C7 C8 C9 C10 C11 C12 C13 C14].
  destruct (CAvl_remove_ok (fun _ => True) tcmp (fkey (flows m)) _ _ q C1 C2) as (x & Ex & C1' & C2'); [by left|].
  rewrite without_cons_eq, without_id in C1', C2' by done. exists e, x. split; [done|]. destruct (C7 q e E Hq) as [Hl Hd]. split.
  - unfold schedule. rewrite Hs, Hp, Hf. rewrite bool_decide_true by done. cbn [negb]. destruct (queued_first _ _ _ C) as [-> ->].
    rewrite bool_decide_false by done. cbn [negb mbind option_bind head]. rewrite E. cbn [mbind option_bind]. rewrite Hq. unfold CAvl.SAvl_Remove. rewrite Ex. cbn [mbind option_bind].
    rewrite (output_send_ok _ _ _ _) by (try done; by apply C10). done.
  - assert (is_Some (flows m !! q)) as Hsq by by eexists. split; cbn.
    + done.
    + eapply sorted_ext; [|exact C2']. intros i _. by apply (fkey_same _ q e).
    + done.
    + intros g. rewrite C4. symmetry. by apply insert_is_Some.
    + intros g. destruct (decide (g = q)) as [->|N].
      * rewrite lookup_insert_eq. split; [done|]. intros (e' & [= <-] & ?). done.
      * rewrite lookup_insert_ne by done. rewrite <- C5, elem_of_cons. tauto.
    + each_flow g eg N Eg; [by apply (C6 q e)|by apply (C6 g)].
    + each_flow g eg N Eg; [done|by apply (C7 g)].
    + each_flow g eg N Eg.
      * unfold input_of. cbn. rewrite bool_decide_true by done. rewrite (C8 q e E). unfold input_of. by rewrite Hq.
      * rewrite (C8 g eg Eg). unfold input_of. cbn. rewrite Hs. rewrite (bool_decide_false (None = Some g)) by done. rewrite bool_decide_false by congruence. done.
    + intros s [= <-]. split; cbn; try done.
      * exists (with_is_queued e false). rewrite lookup_insert_eq. split; [done|]. intros g eg Hg. rewrite lookup_insert_ne by congruence. intros Eg. apply (Hle g eg); [by right|done].
      * exists (data e). done.
    + done.
    + rewrite Hp. done.
    + done.
    + done.
    + done.
Qed.

(** ** A packet arrives *)

(** The flows that take part in the competition for the output. *)
Definition competes (m : t) (lq : list ptr) (g : ptr) : Prop := g ∈ lq \/ sending_flow m = Some g \/ previous_flow m = Some g.

Lemma current_time_ok m lq lf : core m lq lf -> exists now, get_current_time m = Some now /\ 0 <= now <= max_time /\
  forall g eg, flows m !! g = Some eg -> competes m lq g -> now <= time eg.
Proof.
  intros C. unfold get_current_time. pose proof (q_weight _ _ _ C) as HW. destruct (sending_flow m) as [s|] eqn:Es.
  - destruct (q_sending _ _ _ C s Es) as [(e & E & Hle) _ Hp _ _]. rewrite E. cbn [mbind option_bind]. exists (time e). split; [done|].
    split; [by apply (q_range _ _ _ C s)|]. intros g eg Eg [Hg|[Hg|Hg]]; [by eapply Hle|replace eg with e by congruence; lia|congruence].
  - destruct (queued_first _ _ _ C) as [-> _]. cbn [mbind option_bind].
    assert (exists now have, match head lq with Some f => e ← flows m !! f; ASSERT is_queued e; Some (time e, true) | None => Some (0, false) end = Some (now, have) /\
      0 <= now <= max_time /\ (have = false -> lq = []) /\ forall g eg, g ∈ lq -> flows m !! g = Some eg -> now <= time eg) as (now & have & -> & Hr & Hh & Hl).
    { destruct lq as [|q lq]; cbn [head].
      - exists 0, false. split; [done|]. split; [lia|]. split; [done|]. intros g eg Hg. by apply not_elem_of_nil in Hg.
      - destruct (head_least _ _ _ _ C) as (e & E & Hq & Hle). rewrite E. cbn [mbind option_bind]. rewrite Hq. exists (time e), true. split; [done|].
        split; [by apply (q_range _ _ _ C q)|]. done. }
    cbn [mbind option_bind]. destruct (previous_flow m) as [p|] eqn:Ep.
    + destruct (q_previous _ _ _ C p Ep) as ([e E] & _). rewrite E. cbn [mbind option_bind]. pose proof (q_range _ _ _ C p e E) as Hre.
      exists (if negb have || (time e <? now) then time e else now). split; [destruct have; cbn [negb orb]; [destruct (time e <? now)|]; done|].
      split; [destruct (negb have || (time e <? now)); lia|]. intros g eg Eg [Hg|[Hg|Hg]]; [|congruence|].
      * specialize (Hl g eg Hg Eg). destruct have; cbn [negb orb]; [case_if; lia|]. rewrite Hh in Hg by done. by apply not_elem_of_nil in Hg.
      * rewrite Ep in Hg. injection Hg as ->. replace eg with e by congruence. destruct have; cbn [negb orb]; [case_if; lia|lia].
    + cbn [mbind option_bind]. exists (if have then now else 0). split; [by destruct have|]. split; [destruct have; lia|].
      intros g eg Eg [Hg|[Hg|Hg]]; [|congruence..]. destruct have; [by eapply Hl|]. by apply (q_range _ _ _ C g).
Qed.

(** The flow [f] with the packet it sent, when it is in the tree. *)
Definition waiting (e : PacketPassFairQueueFlow) (T : Z) (d : option Z) (len : Z) : PacketPassFairQueueFlow := mk_flow (handler_busy e) (PBusy d len) T true d len.

Lemma queue_flow_ok m lq lf f e T d len p : core m lq lf -> flows m !! f = Some e -> input e = PIdle -> f ∉ lq -> sending_flow m <> Some f -> packet_ok m d len ->
  0 <= T <= max_time -> (forall s es, sending_flow m = Some s -> flows m !! s = Some es -> time es <= T) ->
  (p = None \/ p = previous_flow m) -> p <> Some f ->
  exists x ref lq', CAvl.SAvl_Insert (compare_flows (<[f := mk_flow (handler_busy e) (PBusy d len) T false d len]> (flows m))) (queued_tree m) f = Some (x, true, ref) /\
    (forall g, g ∈ lq' <-> g = f \/ g ∈ lq) /\
    core (set_flow (with_tree (with_previous m p) x) f (waiting e T d len)) lq' lf.
Proof.
  intros C E Hi Hf Hs Hp HT Hsend Hpr Npf. set (fs := <[f := mk_flow (handler_busy e) (PBusy d len) T false d len]> (flows m)).
  pose proof C as [C1 C2 C3 C4 C5 C6 C7 C8 C9 C10 C11 C12 C13 C14]. assert (is_Some (flows m !! f)) as Hsf by by eexists.
  assert (fkey fs f = Some (T, Z.pos f)) as Kf by (unfold fkey, fs; by rewrite lookup_insert_eq).
  assert (by_number (fkey fs) lq) as Sf.
  { eapply sorted_ext; [|exact C2]. intros i Hi'. unfold fkey, fs. by rewrite lookup_insert_ne by congruence. }
  destruct (by_number_insert (fkey fs) (compare_flows fs) (queued_tree m) lq f (T, Z.pos f)) as (x & ref & lq' & Ei & T' & S' & Hm); [apply compare_flows_key| |done..|].
  { intros j w. unfold fkey. destruct (fs !! j); [by intros [= <-]|done]. }
  exists x, ref, lq'. split; [done|]. split; [done|]. split; cbn.
  - done.
  - eapply sorted_ext; [|exact S']. intros i _. unfold fkey, fs. destruct (decide (i = f)) as [->|N]; [by rewrite !lookup_insert_eq|by rewrite !lookup_insert_ne].
  - done.
  - intros g. rewrite C4. symmetry. by apply insert_is_Some.
  - intros g. rewrite Hm. destruct (decide (g = f)) as [->|N].
    + rewrite lookup_insert_eq. split; [intros _; by eexists|by left].
    + rewrite lookup_insert_ne by done. rewrite C5. tauto.
  - each_flow g eg N Eg; [done|by apply (C6 g)].
  - each_flow g eg N Eg; [done|by apply (C7 g)].
  - each_flow g eg N Eg; [done|]. rewrite (C8 g eg Eg). done.
  - intros s Es. destruct (C9 s Es) as [(es & Ees & Hle) S2 S3 S4 S5]. assert (s <> f) by congruence. split; cbn; try done.
    + exists es. rewrite lookup_insert_ne by done. split; [done|]. intros g eg Hg. destruct (decide (g = f)) as [->|N].
      * rewrite lookup_insert_eq. intros [= <-]. cbn. by apply (Hsend s).
      * rewrite lookup_insert_ne by done. apply Hle. apply Hm in Hg. tauto.
    + rewrite Hm. tauto.
    + destruct Hpr as [-> | ->]; done.
  - done.
  - intros q Hq. destruct Hpr as [-> | ->]; [done|]. destruct (C11 q Hq) as (H1 & H2 & H3). split; [by apply insert_is_Some|]. split; [|done]. rewrite Hm. intros [->|?]; congruence.
  - done.
  - done.
  - done.
Qed.

(** The time a flow has when it is queued. *)
Definition raised (m : t) (f : ptr) (e : PacketPassFairQueueFlow) (T : Z) : Prop :=
  if bool_decide (previous_flow m = Some f) then T = time e else exists now, get_current_time m = Some now /\ T = Z.max (time e) now.

Lemma get_current_time_ext m f e e' : flows m !! f = Some e -> time e' = time e -> is_queued e' = is_queued e ->
  get_current_time (set_flow m f e') = get_current_time m.
Proof.
  intros E Ht Hq. unfold get_current_time. cbn.
  assert (forall A (K : Z -> bool -> option A) g, (e ← <[f := e']> (flows m) !! g; K (time e) (is_queued e)) = (e ← flows m !! g; K (time e) (is_queued e))) as H.
  { intros A K g. destruct (decide (g = f)) as [->|N]; [rewrite lookup_insert_eq, E; cbn; by rewrite Ht, Hq|by rewrite lookup_insert_ne]. }
  destruct (sending_flow m) as [s|]; [apply (H Z (fun t _ => Some t) s)|]. apply bind_ext. intros o.
  apply bind_eq; [destruct o as [g|]; [apply (H _ (fun t q => ASSERT q; Some (t, true)) g)|done]|]. intros [now have].
  apply bind_eq; [|done]. destruct (previous_flow m) as [g|]; [|done]. apply (H _ (fun t _ => Some (if negb have || (t <? now) then (t, true) else (now, have))) g).
Qed.

(** What the environment sees of the flows. *)
Definition sig (e : PacketPassFairQueueFlow) : Z * pass_view := (time e, input e).
Definition same_sig (fs fs' : gmap ptr PacketPassFairQueueFlow) : Prop := forall g, sig <$> fs' !! g = sig <$> fs !! g.

Lemma same_sig_insert fs fs' f e e' : same_sig fs fs' -> sig e' = sig e -> same_sig (<[f := e]> fs) (<[f := e']> fs').
Proof. intros H He g. destruct (decide (g = f)) as [->|N]; [rewrite !lookup_insert_eq; cbn; by rewrite He|by rewrite !lookup_insert_ne]. Qed.

Lemma job_ok m lq lf : core m lq lf -> sending_flow m = None -> freeing m = false ->
  exists m' lq', schedule_job_handler (with_job m false) = Some m' /\ core m' lq' lf /\ work m' lq' /\ same_sig (flows m) (flows m') /\
    packet_weight m' = packet_weight m /\ output_mtu m' = output_mtu m.
Proof.
  intros C Hs Hf. assert (core (with_previous (with_job m false) None) lq lf) as C'.
  { destruct C as [C1 C2 C3 C4 C5 C6 C7 C8 C9 C10 C11 C12 C13 C14]. split; cbn; try done. rewrite Hs. done. }
  unfold schedule_job_handler. cbn [with_job sending_flow freeing]. rewrite Hs, Hf. rewrite bool_decide_true by done. cbn [negb].
  destruct (queued_first _ _ _ C') as [_ ->]. destruct lq as [|q lq].
  - rewrite bool_decide_true by done. eexists _, []. split; [done|]. split; [exact C'|]. done.
  - rewrite bool_decide_false by done. cbn [negb]. destruct (schedule_ok _ _ _ _ C' Hs eq_refl Hf eq_refl) as (e & x & E & -> & C'').
    eexists _, lq. split; [done|]. split; [exact C''|]. split; [done|]. split; [|done]. cbn in *. intros g.
    destruct (decide (g = q)) as [->|N]; [by rewrite lookup_insert_eq, E|by rewrite lookup_insert_ne].
Qed.

Lemma idle_flow m lq lf f e : core m lq lf -> flows m !! f = Some e -> input e = PIdle -> (f ∉ lq) /\ is_queued e = false /\ sending_flow m <> Some f.
Proof.
  intros C E Hi. pose proof (q_input _ _ _ C f e E) as H. rewrite Hi in H. unfold input_of in H. destruct (is_queued e) eqn:Hq; [done|]. split_and!; [|done|].
  - intros Hf. apply (q_queued _ _ _ C) in Hf as (e' & E' & H'). congruence.
  - intros Hs. rewrite bool_decide_true in H by done. destruct (q_sending _ _ _ C f Hs) as [_ _ _ _ (d & Hd & _)]. congruence.
Qed.

Lemma send_event_ok m lq lf f e d len : core m lq lf -> work m lq -> flows m !! f = Some e -> input e = PIdle -> freeing m = false -> packet_ok m d len ->
  exists m' lq' T, input_handler_send (set_flow m f (with_input e (PBusy d len))) f d len = Some m' /\ core m' lq' lf /\ work m' lq' /\
    raised m f e T /\ same_sig (<[f := with_time (with_input e (PBusy d len)) T]> (flows m)) (flows m') /\
    packet_weight m' = packet_weight m /\ output_mtu m' = output_mtu m.
Proof.
  intros C W E Hi Hf Hp. destruct (idle_flow _ _ _ _ _ C E Hi) as (Hq & Hnq & Hs). pose proof (q_range _ _ _ C f e E) as Hr.
  set (e1 := with_input e (PBusy d len)). unfold input_handler_send. cbn [set_flow with_flows sending_flow previous_flow freeing flows schedule_job].
  rewrite bool_decide_true by congruence. rewrite lookup_insert_eq. cbn [mbind option_bind]. unfold e1 at 1. cbn [with_input is_queued]. rewrite Hnq, Hf. cbn [negb].
  destruct (current_time_ok _ _ _ C) as (now & En & Hnow & Hleast).
  set (T := if bool_decide (previous_flow m = Some f) then time e else Z.max (time e) now).
  set (p := if bool_decide (previous_flow m = Some f) then None else previous_flow m).
  assert ((if bool_decide (Some f = previous_flow m) then Some (with_previous (set_flow m f e1) None)
     else now ← get_current_time (set_flow m f e1); Some (set_flow (set_flow m f e1) f (with_time e1 (bmax_uint64 (time e1) now)))) =
     Some (set_flow (with_previous m p) f (with_time e1 T))) as ->.
  { unfold T, p. destruct (decide (previous_flow m = Some f)) as [Ep|Np].
    - do 2 rewrite bool_decide_true by done. f_equal.
    - rewrite bool_decide_false by congruence. rewrite bool_decide_false by done. rewrite (get_current_time_ext m f e e1 E) by done. rewrite En. cbn [mbind option_bind]. rewrite bmax_uint64_max.
      f_equal. unfold set_flow, with_flows. cbn. rewrite insert_insert_eq. by destruct m. }
  cbn [mbind option_bind set_flow with_flows with_previous flows queued_tree]. rewrite lookup_insert_eq. cbn [mbind option_bind]. rewrite insert_insert_eq.
  destruct (queue_flow_ok m lq lf f e T d len p C E Hi Hq Hs Hp) as (x & ref & lq' & Ex & Hm & C').
  { unfold T. case_bool_decide; lia. }
  { intros s es Es Ees. unfold T. rewrite bool_decide_false.
    - specialize (Hleast s es Ees). unfold get_current_time in En. rewrite Es, Ees in En. injection En as <-. lia.
    - intros Ep. rewrite (s_previous _ _ _ (q_sending _ _ _ C s Es)) in Ep. done. }
  { unfold p. case_bool_decide; auto. }
  { unfold p. by case_bool_decide. }
  assert (with_queued (with_time e1 T) d len = mk_flow (handler_busy e) (PBusy d len) T false d len) as ->.
  { unfold e1, with_queued, with_time, with_input. cbn. by rewrite Hnq. }
  rewrite Ex. cbn [mbind option_bind]. rewrite lookup_insert_eq. cbn [mbind option_bind with_is_queued].
  set (m2 := set_flow (with_tree (with_previous m p) x) f (waiting e T d len)) in C'.
  match goal with |- context [schedule ?m'] => assert (m' = m2) as -> end.
  { unfold m2, set_flow, with_flows, with_tree, with_previous, waiting. cbn. f_equal. rewrite ?insert_insert_eq. reflexivity. }
  assert (raised m f e T) as HR. { unfold raised, T. case_bool_decide; [done|]. by exists now. }
  assert (same_sig (<[f := with_time e1 T]> (flows m)) (flows m2)) as HS by (by apply same_sig_insert).
  match goal with |- context [if ?b then schedule _ else _] => change b with (bool_decide (sending_flow m = None) && negb (schedule_job m)) end.
  destruct (bool_decide (sending_flow m = None) && negb (schedule_job m)) eqn:Es.
  - apply andb_true_iff in Es as [Es Hj]. apply bool_decide_eq_true in Es. apply negb_true_iff in Hj. pose proof (W Es Hf Hj) as ->.
    assert (previous_flow m2 = None) as Hp2.
    { change (previous_flow m2) with p. destruct p as [q|] eqn:Ep; [|done]. assert (previous_flow m = Some q) as Epm by (unfold p in Ep; by case_bool_decide).
      destruct (q_previous _ _ _ C q Epm) as (_ & _ & [?|?]); congruence. }
    destruct lq' as [|q lq']; [exfalso; apply (not_elem_of_nil f), Hm; by left|].
    destruct (schedule_ok m2 q lq' lf C' Es Hp2 Hf Hj) as (eq & y & Eq & -> & C'').
    eexists _, lq', T. split; [done|]. split; [exact C''|]. split; [done|]. split; [done|]. split; [|done].
    cbn. intros g. rewrite <- HS. destruct (decide (g = q)) as [->|N]; [by rewrite lookup_insert_eq, Eq|by rewrite lookup_insert_ne].
  - eexists m2, lq', T. split; [done|]. split; [exact C'|]. split; [|done]. intros Es' _ Hj'. cbn in Es', Hj'. rewrite Es', Hj' in Es. done.
Qed.

(** ** A packet was sent *)

(** A flow after a packet of [s] was sent. *)
Definition after_sent (s : ptr) (amount sub : Z) (g : ptr) (e : PacketPassFairQueueFlow) : PacketPassFairQueueFlow :=
  if bool_decide (g = s) then with_handler_busy (with_input (advanced s amount sub g e) PIdle) false else advanced s amount sub g e.

Lemma after_sent_time s amount sub g e : time (after_sent s amount sub g e) = if bool_decide (g = s) then time e + amount - sub else Z.max 0 (time e - sub).
Proof. unfold after_sent, advanced. by case_bool_decide. Qed.
Lemma after_sent_ne s amount sub g e : g <> s -> after_sent s amount sub g e = with_time e (Z.max 0 (time e - sub)).
Proof. intros N. unfold after_sent, advanced. by rewrite !bool_decide_false. Qed.

(** The state after the packet of [s]: the scheduling job is set. *)
Definition sent_state (m : t) (s : ptr) (len : Z) (fs : gmap ptr PacketPassFairQueueFlow) : t :=
  with_flows (with_job (with_previous (with_sending (with_output m PIdle) None len) (Some s)) true) fs.

Lemma sent_core m lq lf s e amount sub fs len : core m lq lf -> freeing m = false -> flows m !! s = Some e -> s ∉ lq -> is_queued e = false ->
  sending_flow m = Some s -> 0 <= sub -> (forall g e, g ∈ lq -> flows m !! g = Some e -> sub <= time e) -> 0 <= time e + amount - sub <= max_time ->
  (forall g, fs !! g = after_sent s amount sub g <$> flows m !! g) -> core (sent_state m s len fs) lq lf.
Proof.
  intros [C1 C2 C3 C4 C5 C6 C7 C8 C9 C10 C11 C12 C13 C14] Hf E Hs Hq Hsend Hsub Hle Hr Hfs.
  assert (forall g eg, fs !! g = Some eg -> exists e0, flows m !! g = Some e0 /\ eg = after_sent s amount sub g e0) as Hinv.
  { intros g eg Eg. rewrite Hfs in Eg. destruct (flows m !! g) as [e0|]; [|done]. injection Eg as <-. by exists e0. }
  split; cbn; try done.
  - apply (by_number_shift (fkey (flows m)) _ sub); [exact C2|]. intros i v Hi Hv. unfold fkey in *. rewrite Hfs. destruct (flows m !! i) as [ei|] eqn:Ei; [|done]. injection Hv as <-. cbn.
    rewrite after_sent_time. rewrite bool_decide_false by congruence. specialize (Hle i ei Hi Ei). do 2 f_equal. lia.
  - intros g. rewrite C4, Hfs, fmap_is_Some. done.
  - intros g. rewrite C5, Hfs. destruct (decide (g = s)) as [->|N].
    + rewrite E. cbn. split; [intros (e' & [= <-] & ?); congruence|]. intros (e' & [= <-] & H). unfold after_sent in H. rewrite bool_decide_true in H by done. cbn in H. congruence.
    + destruct (flows m !! g) as [eg|]; cbn; [|by split; intros (? & ? & ?)]. rewrite after_sent_ne by done. split; intros (? & [= <-] & ?); by eexists.
  - intros g eg Eg. destruct (Hinv g eg Eg) as (e0 & E0 & ->). rewrite after_sent_time. pose proof (C6 g e0 E0). case_bool_decide as Ed; [subst g; replace e0 with e by congruence; done|lia].
  - intros g eg Eg Hqg. destruct (Hinv g eg Eg) as (e0 & E0 & ->). destruct (decide (g = s)) as [->|N].
    + unfold after_sent in Hqg. rewrite bool_decide_true in Hqg by done. cbn in Hqg. congruence.
    + rewrite after_sent_ne in * by done. by apply (C7 g e0).
  - intros g eg Eg. destruct (Hinv g eg Eg) as (e0 & E0 & ->). unfold input_of. cbn. destruct (decide (g = s)) as [->|N].
    + replace e0 with e by congruence. unfold after_sent. rewrite bool_decide_true by done. cbn. rewrite Hq. done.
    + rewrite after_sent_ne by done. cbn. rewrite (C8 g e0 E0). unfold input_of. by rewrite (bool_decide_false (sending_flow m = Some g)) by congruence.
  - intros p [= <-]. rewrite Hfs, E. split; [by eexists|]. split; [done|by left].
Qed.

Lemma done_event_ok m lq lf s d len : core m lq lf -> freeing m = false -> sending_flow m = Some s -> output m = PBusy d len ->
  exists e sub fs, flows m !! s = Some e /\ output_handler_done max_time (with_output m PIdle) = Some (sent_state m s len fs, handler_busy e) /\
    core (sent_state m s len fs) lq lf /\ input e = PBusy d len /\ 0 <= len <= output_mtu m /\
    (forall g, fs !! g = after_sent s (packet_weight m + len) sub g <$> flows m !! g) /\
    0 <= sub /\ (forall g e, g ∈ lq -> flows m !! g = Some e -> sub <= time e) /\
    0 <= time e + (packet_weight m + len) - sub <= max_time /\ (sub = 0 \/ max_time < time e + (packet_weight m + len)) /\
    (forall g eg, g ∈ lq -> flows m !! g = Some eg -> time e <= time eg).
Proof using Hmax.
  intros C Hf Hs Ho. destruct (q_sending _ _ _ C s Hs) as [(e & E & Hle) Hq Hp Hj (d' & Hd & Hl & _)]. rewrite Hd in Ho. injection Ho as -> <-.
  assert (is_queued e = false) as Hnq. { destruct (is_queued e) eqn:Eq; [|done]. destruct Hq. apply (q_queued _ _ _ C). by exists e. }
  assert (input e = PBusy d (sending_len m)) as Hi.
  { rewrite (q_input _ _ _ C s e E). unfold input_of. rewrite Hnq. by rewrite bool_decide_true. }
  pose proof (q_weight _ _ _ C) as (W1 & W2 & W3). set (am := packet_weight m + sending_len m).
  set (m1 := with_previous (with_sending (with_output m PIdle) None (sending_len m)) (Some s)).
  pose proof C as [C1 C2 C3 C4 C5 C6 _ _ _ _ _ _ _ _].
  destruct (increment_ok m1 lq lf s e am) as (sub & fs1 & Ei & [A1 A2 A3 A4]); try done.
  { unfold am. lia. }
  destruct (A3 e E) as [A3' A3'']. exists e, sub. set (e1 := advanced s am sub s e).
  assert (fs1 !! s = Some e1) as Es1 by (rewrite A4; change (flows m1) with (flows m); by rewrite E).
  exists (<[s := with_handler_busy (with_input e1 PIdle) false]> fs1).
  assert (forall g, <[s := with_handler_busy (with_input e1 PIdle) false]> fs1 !! g = after_sent s am sub g <$> flows m !! g) as Hfs.
  { intros g. destruct (decide (g = s)) as [->|N].
    - rewrite lookup_insert_eq, E. cbn [fmap option_fmap option_map]. unfold after_sent. by rewrite bool_decide_true.
    - rewrite lookup_insert_ne, A4 by done. change (flows m1) with (flows m). destruct (flows m !! g); [|done]. cbn [fmap option_fmap option_map]. unfold after_sent. by rewrite bool_decide_false. }
  split; [done|]. split; [|split; [by eapply sent_core|done]].
  unfold output_handler_done. cbn [sending_flow previous_flow schedule_job freeing flows with_output packet_weight sending_len]. rewrite Hs. cbn [mbind option_bind]. rewrite Hp, Hj, Hf, E.
  rewrite bool_decide_true by done. cbn [negb mbind option_bind]. rewrite Hnq. cbn [negb].
  change (increment_sent_flow _ _ s _) with (increment_sent_flow max_time m1 s am). rewrite Ei. cbn [mbind option_bind with_job with_flows flows]. rewrite Es1. cbn [mbind option_bind].
  assert (input e1 = PBusy d (sending_len m)) as -> by (exact Hi). cbn [PacketPassInterface_Done mbind option_bind]. change (handler_busy e1) with (handler_busy e).
  destruct (handler_busy e) eqn:Eb.
  - unfold set_flow, with_flows, with_job, sent_state, m1. cbn. by rewrite insert_insert_eq.
  - unfold set_flow, with_flows, with_job, sent_state, m1. cbn. unfold with_handler_busy. cbn. do 5 f_equal. unfold e1, advanced, with_input, with_time. cbn. by rewrite Eb.
Qed.

(** ** Flows come and go *)
Definition fresh_flow : PacketPassFairQueueFlow := mk_flow false PIdle 0 false None 0.

Lemma flow_init_ok m lq lf f : core m lq lf -> freeing m = false -> flows m !! f = None ->
  exists l c, PacketPassFairQueueFlow_Init m f = Some (with_ctr (with_list (set_flow m f fresh_flow) l) c) /\
    core (with_ctr (with_list (set_flow m f fresh_flow) l) c) lq (lf ++ [f]).
Proof.
  intros C Hf E. pose proof C as [C1 C2 C3 C4 C5 C6 C7 C8 C9 C10 C11 C12 C13 C14].
  assert (f ∉ lf) as Nf by (rewrite C4, E; by intros [? ?]). assert (f ∉ lq) as Nq by (rewrite C5; intros (e & E' & _); congruence).
  assert (Some f <> sending_flow m) as Ns. { intros Hs. destruct (C9 f (eq_sym Hs)) as [(e & E' & _) _ _ _ _]. congruence. }
  destruct (LinkedList1.append_ok (LinkedList1.with_node (flows_list m) f (LinkedList1.mk_node None None)) f) with (l := lf) as (l & El & Rl & _).
  { cbn. rewrite lookup_insert_eq. by eexists. }
  { eapply LinkedList1.rep_ext; [exact C3|done|done|]. intros i Hi. cbn. apply lookup_insert_ne. congruence. }
  { done. }
  destruct (counter_increment _ _ C12) as (c & Ec & Hc). exists l, c. split.
  - unfold PacketPassFairQueueFlow_Init. rewrite Hf. cbn [negb flows_list set_flow with_flows]. rewrite El. cbn [mbind option_bind]. change (d_ctr _) with (d_ctr m). by rewrite Ec.
  - split; cbn; try done.
    + eapply sorted_ext; [|exact C2]. intros i Hi. unfold fkey. by rewrite lookup_insert_ne by congruence.
    + intros g. rewrite elem_of_app, list_elem_of_singleton, C4. destruct (decide (g = f)) as [->|N]; [rewrite lookup_insert_eq; split; [by eexists|auto]|].
      rewrite lookup_insert_ne by done. tauto.
    + intros g. rewrite C5. destruct (decide (g = f)) as [->|N]; [|by rewrite lookup_insert_ne]. rewrite lookup_insert_eq, E. split; [by intros (? & ? & _)|]. by intros (? & [= <-] & ?).
    + each_flow g eg N Eg; [cbn; lia|by apply (C6 g)].
    + each_flow g eg N Eg; [done|by apply (C7 g)].
    + each_flow g eg N Eg; [|by apply (C8 g)]. unfold input_of. cbn. by rewrite bool_decide_false by congruence.
    + intros s Hs. destruct (C9 s Hs) as [(e & Es & Hle) S2 S3 S4 S5]. split; try done. exists e. cbn. rewrite lookup_insert_ne by congruence. split; [done|].
      intros g eg Hg. rewrite lookup_insert_ne by congruence. by apply Hle.
    + intros p Hp. destruct (C11 p Hp) as (H1 & H2). split; [|done]. destruct (decide (p = f)) as [->|N]; [rewrite lookup_insert_eq; by eexists|by rewrite lookup_insert_ne].
    + rewrite length_app. cbn. by rewrite Nat.add_1_r.
Qed.

(** The state after the flow [f] is freed. *)
Definition freed_state (m : t) (f : ptr) (x : BAVL.t) (l : LinkedList1.t) (c : Z) : t :=
  mk (output m) (output_mtu m) (output_cancel m) (use_cancel m) (packet_weight m)
    (if bool_decide (Some f = sending_flow m) then None else sending_flow m) (sending_len m)
    (if bool_decide (Some f = previous_flow m) then None else previous_flow m) x l (freeing m) (schedule_job m) c (delete f (flows m)).

Lemma flow_free_ok m lq lf f e : core m lq lf -> flows m !! f = Some e -> freeing m = true \/ sending_flow m <> Some f ->
  exists x l c, PacketPassFairQueueFlow_Free m f = Some (freed_state m f x l c) /\ core (freed_state m f x l c) (without f lq) (without f lf).
Proof.
  intros C E Hf. pose proof C as [C1 C2 C3 C4 C5 C6 C7 C8 C9 C10 C11 C12 C13 C14].
  assert (f ∈ lf) as Inf by (apply C4; by eexists). pose proof C3 as (Hn & _).
  destruct (LinkedList1.cut lf f Hn Inf) as (l1 & l2 & El & Nl & Ew).
  destruct (LinkedList1.remove_ok (flows_list m) l1 f l2) as (l & Er & Rl & _); [by rewrite <- El|].
  assert (length lf = S (length (without f lf))) as Hlen by (rewrite Ew, El, !length_app; cbn; lia).
  rewrite Hlen in C12. destruct (counter_decrement _ _ C12) as (c & Ec & Hc).
  assert (exists x0, (if is_queued e then x ← CAvl.SAvl_Remove (queued_tree m) f; Some x else Some (queued_tree m)) = Some x0 /\ tree_of x0 (without f lq) /\ by_number (fkey (flows m)) (without f lq))
    as (x0 & Ex & T0 & S0).
  { destruct (is_queued e) eqn:Eq.
    - destruct (CAvl_remove_ok (fun _ => True) tcmp (fkey (flows m)) _ _ f C1 C2) as (x & Ex & ? & ?); [apply C5; by exists e|]. exists x. unfold CAvl.SAvl_Remove. by rewrite Ex.
    - exists (queued_tree m). rewrite without_id; [done|]. rewrite C5. intros (e' & E' & ?). congruence. }
  exists (BAVL.mk (delete f (BAVL.heap x0)) (BAVL.root x0)), (LinkedList1.mk (delete f (LinkedList1.heap l)) (LinkedList1.first l) (LinkedList1.last l)), c. split.
  - unfold PacketPassFairQueueFlow_Free. assert (freeing m || bool_decide (Some f <> sending_flow m) = true) as ->.
    { apply orb_true_iff. destruct Hf as [?|?]; [by left|right; apply bool_decide_eq_true; congruence]. }
    rewrite Ec. cbn [mbind option_bind].
    set (m1 := if bool_decide (Some f = previous_flow _) then _ else _).
    assert (m1 = mk (output m) (output_mtu m) (output_cancel m) (use_cancel m) (packet_weight m)
      (if bool_decide (Some f = sending_flow m) then None else sending_flow m) (sending_len m)
      (if bool_decide (Some f = previous_flow m) then None else previous_flow m) (queued_tree m) (flows_list m) (freeing m) (schedule_job m) c (flows m)) as ->.
    { unfold m1. cbn [with_ctr sending_flow]. by destruct (bool_decide (Some f = sending_flow m)); cbn [with_sending with_ctr previous_flow]; destruct (bool_decide (Some f = previous_flow m)). }
    cbn [flows]. rewrite E. cbn [mbind option_bind queued_tree]. destruct (is_queued e).
    + destruct (CAvl.SAvl_Remove (queued_tree m) f) as [x|]; [|done]. injection Ex as ->. cbn [mbind option_bind with_tree flows_list]. by rewrite Er.
    + injection Ex as ->. cbn [mbind option_bind flows_list]. by rewrite Er.
  - assert (forall g, g <> f -> delete f (flows m) !! g = flows m !! g) as Hne by (intros g N; by apply lookup_delete_ne).
    assert (forall g eg, delete f (flows m) !! g = Some eg -> g <> f /\ flows m !! g = Some eg) as Hd.
    { intros g eg Eg. destruct (decide (g = f)) as [->|N]; [by rewrite lookup_delete_eq in Eg|]. by rewrite Hne in Eg. }
    split; cbn.
    + apply tree_of_delete; [done|]. rewrite elem_of_without. tauto.
    + eapply sorted_ext; [|exact S0]. intros i [N _]%elem_of_without. unfold fkey. by rewrite Hne.
    + rewrite Ew. eapply LinkedList1.rep_ext; [exact Rl|done|done|]. intros i Hi. cbn. apply lookup_delete_ne. intros <-. rewrite <- Ew, elem_of_without in Hi. tauto.
    + intros g. rewrite elem_of_without, C4. destruct (decide (g = f)) as [->|N]; [rewrite lookup_delete_eq; split; [tauto|by intros [? ?]]|rewrite Hne by done; tauto].
    + intros g. rewrite elem_of_without, C5. split; [intros (N & H); by rewrite Hne|]. intros (eg & Eg & H). destruct (Hd g eg Eg) as [N Eg']. split; [done|by exists eg].
    + intros g eg [_ Eg]%Hd. by apply (C6 g).
    + intros g eg [_ Eg]%Hd. by apply (C7 g).
    + intros g eg [N Eg]%Hd. rewrite (C8 g eg Eg). unfold input_of. cbn. destruct (decide (Some f = sending_flow m)) as [Es|Ns]; [|by rewrite (bool_decide_false (Some f = _))].
      rewrite (bool_decide_true (Some f = _)) by done. rewrite (bool_decide_false (None = _)) by done. by rewrite bool_decide_false by congruence.
    + intros s Hs. destruct (decide (Some f = sending_flow m)) as [Es|Ns]; [by rewrite bool_decide_true in Hs|]. rewrite bool_decide_false in Hs by done.
      destruct (C9 s Hs) as [(es & Ees & Hle) S2 S3 S4 S5]. assert (s <> f) by congruence. split; cbn; try done.
      * exists es. rewrite Hne by done. split; [done|]. intros g eg [N Hg]%elem_of_without. rewrite Hne by done. by apply Hle.
      * rewrite elem_of_without. tauto.
      * rewrite S3. by case_bool_decide.
    + intros Hs Hfr. destruct (decide (Some f = sending_flow m)) as [Es|Ns]; [destruct Hf; congruence|]. rewrite bool_decide_false in Hs by done. by apply C10.
    + intros p Hp. destruct (decide (Some f = previous_flow m)) as [Ep|Np]; [by rewrite bool_decide_true in Hp|]. rewrite bool_decide_false in Hp by done.
      destruct (C11 p Hp) as (H1 & H2 & H3). rewrite Hne by congruence. split; [done|]. split; [rewrite elem_of_without; tauto|done].
    + done.
    + done.
    + done.
Qed.

(** ** Environment

    Senders send on idle inputs, the output completes packets, the scheduling job runs at any time
    after it was set, and flows are made and freed as the header allows.  Once the queue is being
    freed there is no more input and output. *)
Inductive event :=
| ESend (f : ptr) (d : option Z) (len : Z) | EDone | EJob | EInit (f : ptr) | EFree (f : ptr)
| ECancel (f : ptr) | EBusyHandler (f : ptr) (b : bool) | EPrepareFree.

Abbreviation packet := (option Z * Z)%type.

(** The packets a flow was given and those of them that were sent, since it was made. *)
Record world := mkw { fq : t; given : gmap ptr (list packet); taken : gmap ptr (list packet) }.

Definition is_idle (v : pass_view) : bool := match v with PIdle => true | PBusy _ _ => false end.
Definition is_sending (m : t) (f : ptr) : bool := bool_decide (sending_flow m = Some f).

Definition enabled (w : world) (ev : event) : bool :=
  let m := fq w in
  match ev with
  | ESend f d len => negb (freeing m) && (match flows m !! f with Some e => is_idle (input e) | None => false end) &&
      (0 <=? len) && (len <=? output_mtu m) && (negb (len >? 0) || bool_decide (is_Some d))
  | EDone => negb (freeing m) && negb (is_idle (output m))
  | EJob => negb (freeing m) && schedule_job m
  | EInit f => negb (freeing m) && bool_decide (flows m !! f = None)
  | EFree f => bool_decide (is_Some (flows m !! f)) && (freeing m || negb (is_sending m f))
  | ECancel f => negb (freeing m) && is_sending m f && use_cancel m
  | EBusyHandler f _ => negb (freeing m) && is_sending m f
  | EPrepareFree => true
  end.

Definition exec (w : world) (ev : event) : option world :=
  let m := fq w in
  match ev with
  | ESend f d len =>
      e ← flows m !! f;
      i ← PacketPassInterface_Sender_Send (input e) (output_mtu m) d len;
      m ← input_handler_send (set_flow m f (with_input e i)) f d len;
      Some (mkw m (<[f := given w !!! f ++ [(d, len)]]> (given w)) (taken w))
  | EDone =>
      match output m, sending_flow m with
      | PBusy d len, Some s =>
          '(m, _) ← output_handler_done max_time (with_output m PIdle);
          Some (mkw m (given w) (<[s := taken w !!! s ++ [(d, len)]]> (taken w)))
      | _, _ => None
      end
  | EJob => m ← schedule_job_handler (with_job m false); Some (mkw m (given w) (taken w))
  | EInit f => m ← PacketPassFairQueueFlow_Init m f; Some (mkw m (<[f := []]> (given w)) (<[f := []]> (taken w)))
  | EFree f => m ← PacketPassFairQueueFlow_Free m f; Some (mkw m (given w) (taken w))
  | ECancel f => m ← PacketPassFairQueueFlow_RequestCancel m f; Some (mkw m (given w) (taken w))
  | EBusyHandler f b => m ← PacketPassFairQueueFlow_SetBusyHandler m f b; Some (mkw m (given w) (taken w))
  | EPrepareFree => Some (mkw (PacketPassFairQueue_PrepareFree m) (given w) (taken w))
  end.

Inductive reach : world -> Prop :=
| reach_init mtu cancel use weight m : 0 <= mtu -> 0 < weight -> (use = true -> cancel = true) ->
    PacketPassFairQueue_Init max_time mtu cancel use weight = Some (inr m) -> reach (mkw m ∅ ∅)
| reach_step w ev w' : reach w -> enabled w ev = true -> exec w ev = Some w' -> reach w'.

(** The packet a flow holds. *)
Definition held (e : PacketPassFairQueueFlow) : list packet := match input e with PBusy d len => [(d, len)] | PIdle => [] end.

Definition inv (w : world) : Prop := exists lq lf, core (fq w) lq lf /\ work (fq w) lq /\
  forall f e, flows (fq w) !! f = Some e -> given w !!! f = taken w !!! f ++ held e.

(** *** What a step does to the competition *)

(** The service of a flow: the sizes of its packets, with their weights. *)
Definition service (weight : Z) (l : list packet) : Z := foldr (fun p a => weight + p.2 + a) 0 l.
Definition served (w : world) (f : ptr) : Z := service (packet_weight (fq w)) (taken w !!! f).

Lemma service_snoc weight l p : service weight (l ++ [p]) = service weight l + (weight + p.2).
Proof. unfold service. induction l as [|q l IH]; cbn in *; lia. Qed.

(** A flow that has a packet, or had one a moment ago. *)
Definition backlogged (m : t) (f : ptr) : bool :=
  (match flows m !! f with Some e => is_queued e | None => false end) || is_sending m f || bool_decide (previous_flow m = Some f).

(** Time and service of [G] against those of [F], which is backlogged: [G] gains as much in time as in
    service, and is never ahead by more than a packet, unless it was before. *)
Definition fair_step (w w' : world) : Prop :=
  packet_weight (fq w') = packet_weight (fq w) /\ output_mtu (fq w') = output_mtu (fq w) /\
  forall F G eF eG eF' eG', F <> G -> flows (fq w) !! F = Some eF -> flows (fq w) !! G = Some eG -> flows (fq w') !! F = Some eF' -> flows (fq w') !! G = Some eG' ->
    backlogged (fq w) F = true -> backlogged (fq w') F = true ->
    (served w' G - served w G) - (served w' F - served w F) <= (time eG' - time eF') - (time eG - time eF) /\
    time eG' - time eF' <= Z.max (time eG - time eF) (packet_weight (fq w) + output_mtu (fq w)).

Lemma backlogged_competes m lq lf f : core m lq lf -> backlogged m f = true <-> competes m lq f.
Proof.
  intros C. unfold backlogged, competes, is_sending. rewrite !orb_true_iff, !bool_decide_eq_true, (q_queued _ _ _ C).
  destruct (flows m !! f) as [e|]; split; (intros [[H|H]|H] || intros [(e' & [=] & H)|[H|H]] || intros [(e' & [= <-] & H)|[H|H]]); try done; eauto.
Qed.

(** Steps that change neither times nor services. *)
Lemma fair_same w w' : packet_weight (fq w') = packet_weight (fq w) -> output_mtu (fq w') = output_mtu (fq w) ->
  (forall g e e', flows (fq w) !! g = Some e -> flows (fq w') !! g = Some e' -> time e' = time e /\ taken w' !!! g = taken w !!! g) -> fair_step w w'.
Proof.
  intros H1 H2 H. split; [done|]. split; [done|]. intros F G eF eG eF' eG' _ E1 E2 E3 E4 _ _. destruct (H _ _ _ E1 E3) as [-> Hf]. destruct (H _ _ _ E2 E4) as [-> Hg].
  unfold served. rewrite H1, Hf, Hg. lia.
Qed.

Lemma sig_lookup fs fs' g e' : same_sig fs fs' -> fs' !! g = Some e' -> exists e, fs !! g = Some e /\ time e' = time e /\ input e' = input e.
Proof. intros H E. specialize (H g). rewrite E in H. destruct (fs !! g) as [e|]; [|done]. exists e. injection H as ? ?. done. Qed.

Lemma send_step w f d len : inv w -> enabled w (ESend f d len) = true -> exists w', exec w (ESend f d len) = Some w' /\ inv w' /\ fair_step w w'.
Proof.
  intros (lq & lf & C & W & Hg) He. cbn [enabled exec] in *. apply andb_true_iff in He as [[[[Hf Hi]%andb_true_iff Hl]%andb_true_iff Hl']%andb_true_iff Hd].
  apply negb_true_iff in Hf. apply Z.leb_le in Hl, Hl'. destruct (flows (fq w) !! f) as [e|] eqn:E; [|done]. cbn [mbind option_bind].
  assert (input e = PIdle) as Hi' by (by destruct (input e)).
  assert (packet_ok (fq w) d len) as Hp.
  { split; [lia|]. intros Hpos. apply orb_true_iff in Hd as [Hd|Hd]; [reflect_bool; lia|by apply bool_decide_eq_true in Hd]. }
  rewrite (output_send_ok _ _ d len Hi') by apply Hp. cbn [mbind option_bind].
  destruct (send_event_ok _ _ _ _ _ d len C W E Hi' Hf Hp) as (m' & lq' & T & -> & C' & W' & HR & HS & Hw & Hm). cbn [mbind option_bind]. eexists. split; [done|].
  assert (forall g e', flows m' !! g = Some e' -> (g = f /\ time e' = T /\ input e' = PBusy d len) \/ (g <> f /\ exists e, flows (fq w) !! g = Some e /\ time e' = time e /\ input e' = input e)) as Hs.
  { intros g e' E'. destruct (sig_lookup _ _ _ _ HS E') as (e0 & E0 & H1 & H2). destruct (decide (g = f)) as [->|N].
    - rewrite lookup_insert_eq in E0. injection E0 as <-. left. done.
    - rewrite lookup_insert_ne in E0 by done. right. split; [done|]. by exists e0. }
  split.
  - exists lq', lf. split; [done|]. split; [done|]. cbn [fq given taken]. intros g e' E'. destruct (Hs g e' E') as [(-> & _ & H)|(N & e0 & E0 & _ & H)].
    + rewrite lookup_total_insert_eq. rewrite (Hg f e E). unfold held. rewrite Hi', H. by rewrite app_nil_r.
    + rewrite lookup_total_insert_ne, (Hg g e0 E0) by done. unfold held. by rewrite H.
  - split; [done|]. split; [done|]. cbn [fq]. intros F G eF eG eF' eG' N E1 E2 E3 E4 B _. unfold served. cbn [taken fq]. rewrite Hw.
    apply (backlogged_competes _ _ _ _ C) in B. destruct (idle_flow _ _ _ _ _ C E Hi') as (Nq & _ & Ns).
    assert (f = F -> T = time e) as HTF.
    { intros ->. unfold raised in HR. destruct B as [?|[?|B]]; [done|done|]. by rewrite bool_decide_true in HR. }
    assert (f = G -> time e <= T <= Z.max (time e) (time eF)) as HTG.
    { intros ->. unfold raised in HR. case_bool_decide; [lia|]. destruct HR as (now & En & ->). destruct (current_time_ok _ _ _ C) as (now' & En' & _ & Hleast).
      rewrite En in En'. injection En' as <-. specialize (Hleast F eF E1 B). lia. }
    destruct (Hs F eF' E3) as [(-> & HF & _)|(NF & eF0 & EF0 & HF & _)], (Hs G eG' E4) as [(-> & HG & _)|(NG & eG0 & EG0 & HG & _)]; try done.
    + specialize (HTF eq_refl). replace eF with e by congruence. replace eG0 with eG in HG by congruence. lia.
    + specialize (HTG eq_refl). replace eG with e by congruence. replace eF0 with eF in HF by congruence. pose proof (q_weight _ _ _ C). lia.
    + replace eG0 with eG in HG by congruence. replace eF0 with eF in HF by congruence. lia.
Qed.

Lemma done_step w : inv w -> enabled w EDone = true -> exists w', exec w EDone = Some w' /\ inv w' /\ fair_step w w'.
Proof using Hmax.
  intros (lq & lf & C & W & Hg) He. cbn [enabled exec] in *. apply andb_true_iff in He as [Hf Ho]. apply negb_true_iff in Hf.
  destruct (output (fq w)) as [|d len] eqn:Eo; [done|]. destruct (sending_flow (fq w)) as [s|] eqn:Es; [|by rewrite (q_idle _ _ _ C Es Hf) in Eo].
  destruct (done_event_ok _ _ _ _ _ _ C Hf Es Eo) as (e & sub & fs & E & -> & C' & Hi & Hl & Hfs & Hsub & Hq & Hr & Hov & Hle). cbn [mbind option_bind]. eexists. split; [done|].
  set (am := packet_weight (fq w) + len) in *. split.
  - exists lq, lf. split; [done|]. split; [done|]. cbn [fq given taken sent_state with_flows flows]. intros g e' E'. rewrite Hfs in E'. destruct (flows (fq w) !! g) as [e0|] eqn:E0; [|done]. injection E' as <-.
    rewrite (Hg g e0 E0). unfold held. destruct (decide (g = s)) as [->|N].
    + replace e0 with e by congruence. rewrite Hi, lookup_total_insert_eq. unfold after_sent. rewrite bool_decide_true by done. cbn. by rewrite app_nil_r.
    + rewrite lookup_total_insert_ne by done. by rewrite after_sent_ne.
  - split; [done|]. split; [done|]. cbn [fq sent_state with_flows flows]. intros F G eF eG eF' eG' N E1 E2 E3 E4 B B'. rewrite Hfs, E1 in E3. rewrite Hfs, E2 in E4. injection E3 as <-. injection E4 as <-.
    rewrite !after_sent_time. unfold served. cbn [taken fq sent_state with_flows packet_weight with_job with_previous with_sending with_output].
    apply (backlogged_competes _ _ _ _ C) in B. pose proof (q_weight _ _ _ C) as HW. pose proof (q_range _ _ _ C G eG E2) as HrG.
    assert (previous_flow (fq w) = None) as Hp by (apply (s_previous _ _ _ (q_sending _ _ _ C s Es))).
    destruct (decide (F = s)) as [->|NF]; [|destruct B as [B|[B|B]]; [|congruence..]].
    + rewrite (bool_decide_true (s = s)), bool_decide_false by done. rewrite lookup_total_insert_eq, lookup_total_insert_ne, service_snoc by done. cbn [snd]. fold am.
      replace eF with e by congruence. unfold am in *. lia.
    + rewrite (bool_decide_false (F = s)) by done. rewrite (lookup_total_insert_ne _ s F) by done. specialize (Hq F eF B E1). specialize (Hle F eF B E1).
      destruct (decide (G = s)) as [->|NG].
      * rewrite (bool_decide_true (s = s)) by done. rewrite lookup_total_insert_eq, service_snoc. cbn [snd]. fold am. replace eG with e by congruence. unfold am in *. lia.
      * rewrite (bool_decide_false (G = s)) by done. rewrite lookup_total_insert_ne by done. lia.
Qed.

Lemma flow_step w ev : (exists f, ev = EInit f \/ ev = EFree f) -> inv w -> enabled w ev = true -> exists w', exec w ev = Some w' /\ inv w' /\ fair_step w w'.
Proof.
  intros (f & Hev) (lq & lf & C & W & Hg) He. destruct Hev as [-> | ->]; cbn [enabled exec] in *.
  - apply andb_true_iff in He as [Hf E]. apply negb_true_iff in Hf. apply bool_decide_eq_true in E.
    destruct (flow_init_ok _ _ _ f C Hf E) as (l & c & -> & C'). cbn [mbind option_bind]. eexists. split; [done|]. split.
    + exists lq, (lf ++ [f]). split; [exact C'|]. split; [exact W|]. cbn. intros g e'. destruct (decide (g = f)) as [->|N].
      * rewrite !lookup_total_insert_eq, lookup_insert_eq. by intros [= <-].
      * rewrite !lookup_total_insert_ne, lookup_insert_ne by done. apply Hg.
    + apply fair_same; [done..|]. cbn. intros g e e' Eg. assert (g <> f) by congruence. rewrite lookup_insert_ne, lookup_total_insert_ne by done. intros E'. split; [congruence|done].
  - apply andb_true_iff in He as [[e E]%bool_decide_eq_true Hf].
    assert (freeing (fq w) = true \/ sending_flow (fq w) <> Some f) as Hf'.
    { apply orb_true_iff in Hf as [Hf|Hf]; [by left|right]. unfold is_sending in Hf. apply negb_true_iff, bool_decide_eq_false in Hf. done. }
    destruct (flow_free_ok _ _ _ f e C E Hf') as (x & l & c & -> & C'). cbn [mbind option_bind]. eexists. split; [done|].
    assert (forall g e', delete f (flows (fq w)) !! g = Some e' -> flows (fq w) !! g = Some e') as Hd.
    { intros g e'. destruct (decide (g = f)) as [->|N]; [by rewrite lookup_delete_eq|by rewrite lookup_delete_ne]. }
    split.
    + exists (without f lq), (without f lf). split; [exact C'|]. split; [|intros g e' E'%Hd; by apply Hg].
      intros Hs Hfr Hj. cbn in Hs, Hfr, Hj. rewrite (W); [done| |done|done]. destruct Hf' as [?|Hf']; [congruence|]. by rewrite bool_decide_false in Hs by congruence.
    + apply fair_same; [done..|]. cbn. intros g e1 e' Eg E'%Hd. split; [congruence|done].
Qed.

Lemma core_handler m lq lf f e b : core m lq lf -> flows m !! f = Some e -> core (set_flow m f (with_handler_busy e b)) lq lf.
Proof.
  intros [C1 C2 C3 C4 C5 C6 C7 C8 C9 C10 C11 C12 C13 C14] E. assert (is_Some (flows m !! f)) as Hsf by by eexists. split; cbn; try done.
  - eapply sorted_ext; [|exact C2]. intros i _. by apply (fkey_same _ f e).
  - intros g. rewrite C4. symmetry. by apply insert_is_Some.
  - intros g. rewrite C5. destruct (decide (g = f)) as [->|N]; [|by rewrite lookup_insert_ne]. rewrite lookup_insert_eq, E. split; intros (? & [= <-] & ?); by eexists.
  - each_flow g eg N Eg; [by apply (C6 f e)|by apply (C6 g)].
  - each_flow g eg N Eg; [by apply (C7 f e)|by apply (C7 g)].
  - each_flow g eg N Eg; [by apply (C8 f e)|by apply (C8 g)].
  - intros s Hs. destruct (C9 s Hs) as [(es & Es & Hle) S2 S3 S4 S5]. split; try done. cbn.
    assert (forall g eg, <[f := with_handler_busy e b]> (flows m) !! g = Some eg -> exists e0, flows m !! g = Some e0 /\ time eg = time e0) as Ht.
    { each_flow g eg N Eg; [by exists e|by exists eg]. }
    destruct (insert_is_Some (flows m) f (with_handler_busy e b) s Hsf) as [_ [es' Es']]; [by eexists|]. exists es'. split; [done|]. destruct (Ht s es' Es') as (e0 & E0 & ->).
    replace e0 with es by congruence. intros g eg Hg Eg. destruct (Ht g eg Eg) as (e1 & E1 & ->). by apply (Hle g).
  - intros p Hp. destruct (C11 p Hp) as (H1 & H2). split; [|done]. by apply insert_is_Some.
Qed.

Lemma queue_step_ok w ev : inv w -> enabled w ev = true -> exists w', exec w ev = Some w' /\ inv w' /\ fair_step w w'.
Proof using Hmax.
  intros I He. destruct ev as [f d len| | |f|f|f|f b|].
  - by apply send_step.
  - by apply done_step.
  - destruct I as (lq & lf & C & W & Hg). cbn [enabled exec] in *. apply andb_true_iff in He as [Hf Hj]. apply negb_true_iff in Hf.
    assert (sending_flow (fq w) = None) as Hs. { destruct (sending_flow (fq w)) as [s|] eqn:Es; [|done]. destruct (q_sending _ _ _ C s Es). congruence. }
    destruct (job_ok _ _ _ C Hs Hf) as (m' & lq' & -> & C' & W' & HS & Hw & Hm). cbn [mbind option_bind]. eexists. split; [done|]. split.
    + exists lq', lf. split; [done|]. split; [done|]. cbn. intros g e' E'. destruct (sig_lookup _ _ _ _ HS E') as (e & E & _ & H). rewrite (Hg g e E). unfold held. by rewrite H.
    + apply fair_same; [done..|]. cbn. intros g e e' E E'. destruct (sig_lookup _ _ _ _ HS E') as (e0 & E0 & H & _). replace e with e0 by congruence. done.
  - apply flow_step; [exists f; by left|done..].
  - apply flow_step; [exists f; by right|done..].
  - pose proof I as (lq & lf & C & W & Hg). cbn [enabled exec] in *. apply andb_true_iff in He as [[Hf Hs]%andb_true_iff Hu]. apply negb_true_iff in Hf.
    apply bool_decide_eq_true in Hs. destruct (q_sending _ _ _ C f Hs) as [_ _ _ Hj (d & Ho & _)]. unfold PacketPassFairQueueFlow_RequestCancel.
    rewrite Hs, Hu, Hf, Hj, Ho, (q_cancel _ _ _ C Hu). rewrite bool_decide_true by done. cbn [negb mbind option_bind]. eexists. split; [done|]. split; [by destruct w|].
    apply fair_same; [done..|]. cbn. intros g e e' E E'. split; [congruence|done].
  - destruct I as (lq & lf & C & W & Hg). cbn [enabled exec] in *. apply andb_true_iff in He as [Hf Hs]. apply negb_true_iff in Hf.
    apply bool_decide_eq_true in Hs. destruct (q_sending _ _ _ C f Hs) as [(e & E & _) _ _ _ _]. unfold PacketPassFairQueueFlow_SetBusyHandler.
    rewrite Hs, Hf, E. rewrite bool_decide_true by done. cbn [negb mbind option_bind]. eexists. split; [done|]. split.
    + exists lq, lf. split; [by apply core_handler|]. split; [exact W|]. cbn. each_flow g eg N Eg; [by apply (Hg f e)|by apply Hg].
    + apply fair_same; [done..|]. cbn. intros g e1 e' E1. destruct (decide (g = f)) as [->|N]; [rewrite lookup_insert_eq; intros [= <-]; by replace e1 with e by congruence|].
      rewrite lookup_insert_ne by done. intros E'. split; [congruence|done].
  - destruct I as (lq & lf & C & W & Hg). cbn [enabled exec]. eexists. split; [done|]. split.
    + exists lq, lf. split; [|done]. destruct C as [C1 C2 C3 C4 C5 C6 C7 C8 C9 C10 C11 C12 C13 C14]. split; cbn; try done.
      * intros s Hs. by destruct (C9 s Hs).
      * intros p Hp. destruct (C11 p Hp) as (? & ? & _). auto.
    + apply fair_same; [done..|]. cbn. intros g e e' E E'. split; [congruence|done].
Qed.

Lemma queue_reach_inv w : reach w -> inv w.
Proof using Hmax.
  induction 1 as [mtu cancel use weight m Hm Hw Hc E|w ev w' _ IH He E].
  - unfold PacketPassFairQueue_Init in E. revert E. bool_true. case_if; [|done]. case_if; [done|]. intros [= <-]. exists [], []. split; [|split; [done|intros f e; cbn; by rewrite lookup_empty]].
    reflect_bool. destruct (tree_init_ok (fun _ : Z * Z => True) tcmp (fkey ∅) (BAVL.mk ∅ None)) as [T S].
    split; cbn; try done; try (intros f e; by rewrite lookup_empty).
    + by repeat split; try constructor.
    + intros f. rewrite lookup_empty. split; [intros Hi; by apply not_elem_of_nil in Hi|by intros [? ?]].
    + intros f. rewrite lookup_empty. split; [intros Hi; by apply not_elem_of_nil in Hi|by intros (? & ? & _)].
    + by right.
    + lia.
  - destruct (queue_step_ok w ev IH He) as (w1 & E1 & I1 & _). congruence.
Qed.

(** ** Theorems *)

(** C32: the fair queue is safe and loses nothing: in every reachable state every event is handled without a
    violated assertion or a dangling pointer; a flow was given exactly the packets that were sent for it and
    the one it holds, which is queued or on the output; the output is idle only when no packet waits
    or the scheduling job is set; and the queue can be freed when its flows are, also in the middle of a
    packet. *)
Theorem fair_queue_safe w : reach w ->
  (forall ev, enabled w ev = true -> is_Some (exec w ev)) /\
  (forall f e, flows (fq w) !! f = Some e -> given w !!! f = taken w !!! f ++ held e /\
    (is_queued e = true -> input e = PBusy (data e) (data_len e)) /\ (sending_flow (fq w) = Some f -> input e = output (fq w) /\ output (fq w) <> PIdle)) /\
  (freeing (fq w) = false -> output (fq w) = PIdle -> schedule_job (fq w) = false -> forall f e, flows (fq w) !! f = Some e -> input e = PIdle) /\
  (flows (fq w) = ∅ -> PacketPassFairQueue_Free (fq w) = Some tt).
Proof using Hmax.
  intros R. apply queue_reach_inv in R as I. pose proof I as (lq & lf & C & W & Hg). split_and!.
  - intros ev He. destruct (queue_step_ok w ev I He) as (w' & -> & _). by eexists.
  - intros f e E. pose proof (q_input _ _ _ C f e E) as Hi. unfold input_of in Hi. split_and!; [by apply Hg|intros Hq; by rewrite Hq in Hi|].
    intros Hs. destruct (q_sending _ _ _ C f Hs) as [_ Hq _ _ (d & Ho & _)]. rewrite Hi, Ho. destruct (is_queued e) eqn:Eq; [destruct Hq; apply (q_queued _ _ _ C); by exists e|].
    by rewrite bool_decide_true.
  - intros Hf Ho Hj f e E. assert (sending_flow (fq w) = None) as Hs.
    { destruct (sending_flow (fq w)) as [s|] eqn:Es; [|done]. destruct (q_sending _ _ _ C s Es) as [_ _ _ _ (d & Hd & _)]. congruence. }
    rewrite (q_input _ _ _ C f e E). unfold input_of. rewrite Hs. destruct (is_queued e) eqn:Eq; [|done]. exfalso. apply (not_elem_of_nil f). rewrite <- (W Hs Hf Hj). apply (q_queued _ _ _ C). by exists e.
  - intros H0. assert (lf = []) as ->. { destruct lf as [|f lf]; [done|]. destruct (proj1 (q_dom _ _ _ C f)) as [e E]; [by left|]. by rewrite H0 in E. }
    assert (lq = []) as ->. { destruct lq as [|f lq]; [done|]. destruct (proj1 (q_queued _ _ _ C f)) as (e & E & _); [by left|]. by rewrite H0 in E. }
    unfold PacketPassFairQueue_Free, LinkedList1.LinkedList1_IsEmpty. pose proof (q_list _ _ _ C) as (_ & -> & _). destruct (queued_first _ _ _ C) as [_ ->].
    assert (previous_flow (fq w) = None) as ->.
    { destruct (previous_flow (fq w)) as [p|] eqn:Ep; [|done]. destruct (q_previous _ _ _ C p Ep) as ([e E] & _). by rewrite H0 in E. }
    assert (sending_flow (fq w) = None) as ->.
    { destruct (sending_flow (fq w)) as [p|] eqn:Ep; [|done]. destruct (q_sending _ _ _ C p Ep) as [(e & E & _) _ _ _ _]. by rewrite H0 in E. }
    cbn [LinkedList1.head_or]. repeat rewrite bool_decide_true by done. unfold DebugCounter_Free. destruct (q_ctr _ _ _ C) as [-> | ->]; done.
Qed.

(** The states of a run, in each of which [P] holds. *)
Inductive during (P : world -> Prop) (w0 : world) : world -> Prop :=
| during_start : P w0 -> during P w0 w0
| during_step w ev w' : during P w0 w -> enabled w ev = true -> exec w ev = Some w' -> P w' -> during P w0 w'.

Lemma during_last P w w' : during P w w' -> P w'.
Proof. by destruct 1. Qed.
Lemma during_first P w w' : during P w w' -> P w.
Proof. by induction 1. Qed.

(** What [fair_step] gives for a run. *)
Lemma during_fair F G w w' : F <> G -> inv w ->
  during (fun w => backlogged (fq w) F = true /\ is_Some (flows (fq w) !! F) /\ is_Some (flows (fq w) !! G)) w w' ->
  inv w' /\ packet_weight (fq w') = packet_weight (fq w) /\ output_mtu (fq w') = output_mtu (fq w) /\
  forall eF eG eF' eG', flows (fq w) !! F = Some eF -> flows (fq w) !! G = Some eG -> flows (fq w') !! F = Some eF' -> flows (fq w') !! G = Some eG' ->
    (served w' G - served w G) - (served w' F - served w F) <= (time eG' - time eF') - (time eG - time eF) /\
    time eG' - time eF' <= Z.max (time eG - time eF) (packet_weight (fq w) + output_mtu (fq w)).
Proof using Hmax.
  intros N I. induction 1 as [H|w1 ev w2 D IH He E P2].
  - split; [done|]. split; [done|]. split; [done|]. intros eF eG eF' eG' E1 E2 E3 E4. replace eF' with eF by congruence. replace eG' with eG by congruence. lia.
  - destruct IH as (I1 & Hw & Hm & IH). destruct (queue_step_ok w1 ev I1 He) as (w3 & E3 & I3 & Hw2 & Hm2 & H). replace w3 with w2 in * by congruence.
    split; [done|]. split; [congruence|]. split; [congruence|]. intros eF eG eF2 eG2 E1 E2 E4 E5.
    destruct (during_last _ _ _ D) as (B1 & [eF1 EF1] & [eG1 EG1]). destruct P2 as (B2 & _).
    specialize (IH _ _ _ _ E1 E2 EF1 EG1). specialize (H _ _ _ _ _ _ N EF1 EG1 E4 E5 B1 B2). rewrite Hw, Hm in H. lia.
Qed.

(** C33: the fair queue is fair: over any stretch of a run in which the flow [F] has packets to send, another
    flow [G], whatever it does, is served at most one packet of maximal size more than [F], plus the
    lead in virtual time that [F] had over it at the start.  In particular a flow that waits is not starved: every
    other flow is served a bounded amount before it. *)
Theorem fair_queue_fair w w' F G eF eG : reach w -> F <> G -> flows (fq w) !! F = Some eF -> flows (fq w) !! G = Some eG ->
  during (fun w => backlogged (fq w) F = true /\ is_Some (flows (fq w) !! F) /\ is_Some (flows (fq w) !! G)) w w' ->
  served w' G - served w G <= served w' F - served w F + Z.max 0 (packet_weight (fq w) + output_mtu (fq w) + (time eF - time eG)).
Proof using Hmax.
  intros R N E1 E2 D. apply queue_reach_inv in R as I. destruct (during_last _ _ _ D) as (_ & [eF' E3] & [eG' E4]).
  destruct (during_fair F G w w' N I D) as (_ & _ & _ & H). destruct (H _ _ _ _ E1 E2 E3 E4) as [H1 H2]. lia.
Qed.

(** Virtual time is exact although it is kept in 64 bits: when a packet was sent, the time of its flow
    advances by the size of the packet and the weight, and when that would exceed the maximum, one
    amount is first subtracted from all flows: the difference between the flow and every waiting flow, and between
    waiting flows, is what it would be without bound, every time stays in range, and only
    flows without a packet may lose a part of their lag.  The flow on the output never has more time than
    one that waits. *)
Theorem fair_queue_time w w' s e d len : reach w -> enabled w EDone = true -> sending_flow (fq w) = Some s -> flows (fq w) !! s = Some e -> output (fq w) = PBusy d len ->
  exec w EDone = Some w' ->
  exists sub, 0 <= sub /\ (time e + packet_weight (fq w) + len <= max_time -> sub = 0) /\
    (exists e', flows (fq w') !! s = Some e' /\ time e' = time e + packet_weight (fq w) + len - sub /\ 0 <= time e' <= max_time) /\
    forall g eg, g <> s -> flows (fq w) !! g = Some eg -> exists eg', flows (fq w') !! g = Some eg' /\ 0 <= time eg' <= max_time /\
      if is_queued eg then time eg' = time eg - sub /\ time e <= time eg else time eg' = Z.max 0 (time eg - sub).
Proof using Hmax.
  intros R He Hs E Ho Ex. apply queue_reach_inv in R as I. pose proof I as (lq & lf & C & W & Hg). cbn [enabled exec] in *. rewrite Ho, Hs in Ex.
  apply andb_true_iff in He as [Hf _]. apply negb_true_iff in Hf.
  destruct (done_event_ok _ _ _ _ _ _ C Hf Hs Ho) as (e0 & sub & fs & E0 & Ed & C' & _ & Hl & Hfs & Hsub & Hq & Hr & Hov & Hle). rewrite Ed in Ex. cbn [mbind option_bind] in Ex. injection Ex as <-.
  rewrite E in E0. injection E0 as <-. exists sub. split; [done|]. split; [intros; lia|]. cbn [fq sent_state with_flows flows]. split.
  - rewrite Hfs, E. eexists. split; [done|]. rewrite after_sent_time. rewrite bool_decide_true by done. lia.
  - intros g eg N Eg. rewrite Hfs, Eg. eexists. split; [done|]. rewrite after_sent_time, bool_decide_false by done. pose proof (q_range _ _ _ C g eg Eg). split; [lia|].
    destruct (is_queued eg) eqn:Eq; [|done]. assert (g ∈ lq) as Hin by (apply (q_queued _ _ _ C); by exists eg). specialize (Hq g eg Hin Eg). specialize (Hle g eg Hin Eg). lia.
Qed.

(** ** Runs *)
Fixpoint run (w : world) (evs : list event) : option world :=
  match evs with
  | [] => Some w
  | ev :: evs => if enabled w ev then w ← exec w ev; run w evs else None
  end.

Lemma queue_run_reach evs : forall w w', reach w -> run w evs = Some w' -> reach w'.
Proof.
  induction evs as [|ev evs IH]; intros w w' R; cbn [run]; [by intros [= <-]|]. destruct (enabled w ev) eqn:He; [|done].
  destruct (exec w ev) as [w1|] eqn:E; [|done]. cbn [mbind option_bind]. apply IH. by eapply reach_step.
Qed.

Lemma run_during (P : world -> Prop) `{forall w, Decision (P w)} evs : forall w0 w w', during P w0 w ->
  (fix check w evs := match evs with [] => true | ev :: evs => enabled w ev && match exec w ev with Some w => bool_decide (P w) && check w evs | None => false end end) w evs = true ->
  run w evs = Some w' -> during P w0 w'.
Proof.
  induction evs as [|ev evs IH]; intros w0 w w' D Hc; cbn [run]; [by intros [= <-]|]. apply andb_true_iff in Hc as [He Hc]. rewrite He.
  destruct (exec w ev) as [w1|] eqn:E; [|done]. cbn [mbind option_bind]. apply andb_true_iff in Hc as [HP Hc]. apply bool_decide_eq_true in HP.
  apply IH; [|done]. by eapply during_step.
Qed.

End MaxTime.

(** A queue with a small maximal time, flows 1 and 2, and packets of 9 bytes with weight 1. *)
Definition demo_max : Z := 35.
Definition demo0 : t := Eval vm_compute in
  match PacketPassFairQueue_Init demo_max 9 false false 1 with Some (inr m) => m | _ => mk PIdle 0 false false 0 None 0 None (BAVL.mk ∅ None) (LinkedList1.mk ∅ None None) false false 0 ∅ end.
Definition demo_start : world := mkw demo0 ∅ ∅.

Lemma demo_start_reach : reach demo_max demo_start.
Proof. by apply (reach_init demo_max 9 false false 1). Qed.

Definition send (f : ptr) : event := ESend f (Some 0) 9.
(** Both flows have a packet. *)
Definition demo_both : list event := [EInit 1; EInit 2; send 1; send 2]%positive.
(** A packet is sent and its flow has another one. *)
Definition demo_round (f : ptr) : list event := [EDone; send f; EJob].

Definition demo1 : world := Eval vm_compute in default demo_start (run demo_max demo_start demo_both).
Definition demo_rounds : list event := demo_round 1 ++ demo_round 2 ++ demo_round 1 ++ demo_round 2 ++ demo_round 1 ++ demo_round 2.
(** The fourth packet of flow 1 is about to exceed the maximal time. *)
Definition demo2 : world := Eval vm_compute in default demo_start (run demo_max demo1 demo_rounds).
Definition demo3 : world := Eval vm_compute in default demo_start (exec demo_max demo2 EDone).

Lemma demo1_reach : reach demo_max demo1.
Proof. by apply (queue_run_reach demo_max demo_both demo_start); [apply demo_start_reach|vm_compute]. Qed.
Lemma demo2_reach : reach demo_max demo2.
Proof. by apply (queue_run_reach demo_max demo_rounds demo1); [apply demo1_reach|vm_compute]. Qed.

Lemma demo_max_ok : demo_max <= UINT64_MAX.
Proof. by vm_compute. Qed.

Lemma fair_queue_safe_witness : is_Some (exec demo_max demo2 EDone) /\ given demo2 !!! 1%positive = replicate 4 (Some 0, 9).
Proof. split; [apply (fair_queue_safe demo_max demo_max_ok demo2 demo2_reach); by vm_compute|by vm_compute]. Defined.

Definition flow_at (w : world) (f : ptr) : PacketPassFairQueueFlow := default fresh_flow (flows (fq w) !! f).

(** The times of both flows come down from 30 by 30. *)
Lemma fair_queue_time_witness : exists sub, 0 <= sub /\ time (flow_at demo2 1) = 30 /\ time (flow_at demo3 1) = 30 + 1 + 9 - sub /\ time (flow_at demo3 1) = 10.
Proof.
  destruct (fair_queue_time demo_max demo_max_ok demo2 demo3 1 (flow_at demo2 1) (Some 0) 9 demo2_reach) as (sub & H & _ & (e' & E' & H1 & _) & _); [by vm_compute..|].
  exists sub. split; [exact H|]. split; [by vm_compute|]. vm_compute in E'. injection E' as <-. split; [exact H1|by vm_compute].
Defined.

#[export] Instance backlogged_dec m f g : Decision (backlogged m f = true /\ is_Some (flows m !! f) /\ is_Some (flows m !! g)) := _.

Lemma fair_queue_fair_witness : served demo2 1 - served demo1 1 = 30 /\ served demo2 1 - served demo1 1 <= served demo2 2 - served demo1 2 + Z.max 0 (1 + 9 + (0 - 0)).
Proof.
  split; [by vm_compute|]. apply (fair_queue_fair demo_max demo_max_ok demo1 demo2 2 1 (flow_at demo1 2) (flow_at demo1 1) demo1_reach); [done|by vm_compute..|].
  apply (run_during demo_max _ demo_rounds demo1 demo1); [|by vm_compute|by vm_compute]. apply during_start. split; [by vm_compute|]. split; (eexists; by vm_compute).
Defined.

(** The service a flow got while it was alone counts against it later: the virtual time of an idle
    queue is 0, not the time it had reached.  Flow 1 sends three packets while flow 2 has none; then flow 2
    starts with time 0, and flow 1 waits for three packets of it. *)
Lemma idle_time_forgotten :
  exists w, run demo_max demo_start ([EInit 1; send 1; EDone; EJob; send 1; EDone; EJob; send 1; EDone; EJob; EInit 2]%positive ++
    [send 2; send 1]%positive ++ demo_round 2 ++ demo_round 2) = Some w /\
    is_queued (flow_at w 1) = true /\ time (flow_at w 1) = 30 /\ sending_flow (fq w) = Some 2%positive /\ taken w !!! 2%positive = replicate 2 (Some 0, 9).
Proof. eexists. split; [by vm_compute|]. by vm_compute. Qed.

End FairQueueInv.
