(* ===== verification/SocksUdpGwClient.v ===== *)
(** * The UDP relay client, Android build (tun2socks/SocksUdpGwClient.c, protocol/udpgw_proto.h)

    One connection (a UDP socket) per local address, at most [max_connections]; a packet from a
    new local address replaces the least recently used connection when there is no room.  A packet
    goes, with a SOCKS UDP header, to the SOCKS server, or, when it is a DNS query and a DNS
    gateway is configured, as it is to the gateway.  The connections are found through a tree
    ([AddrTree]) and kept in order of use in a [LinkedList1]; each has its [SendPath] and the jobs
    of the reactor, run last in, first out. *)

From stdpp Require Import gmap.
From Stdlib Require List.
From S2P Require Import Prelude BAlign ByteOrder BAddr FlowView ChunkBuffer2 PacketBuffer PacketFlow SendPath LinkedList1 KeyTree BAVL BAVLSpec BSocksClient.
Import BSize.

(** ** protocol/udpgw_proto.h *)
Definition sizeof_socks_udp_header : Z := 4.
Definition sizeof_udpgw_addr_ipv4 : Z := 6.
Definition sizeof_udpgw_addr_ipv6 : Z := 18.
Definition socks_udp_header (rsv frag atyp : Z) : list Z := host16 rsv ++ [u8 frag; u8 atyp].
Definition udpgw_addr_ipv4 (addr_ip addr_port : Z) : list Z := host32 addr_ip ++ host16 addr_port.
Definition udpgw_addr_ipv6 (addr_ip : list Z) (addr_port : Z) : list Z := take 16 addr_ip ++ host16 addr_port.

(** [header]: the size of the header, which depends on the build. *)
Definition compute_mtu_with (header dgram_mtu : Z) : Z :=
  let bs := bsize_add (bsize_fromsize header)
    (bsize_add (bsize_max (bsize_fromsize sizeof_udpgw_addr_ipv4) (bsize_fromsize sizeof_udpgw_addr_ipv6))
       (bsize_fromint dgram_mtu)) in
  match bsize_toint bs with Some s => s | None => -1 end.
Definition udpgw_compute_mtu (dgram_mtu : Z) : Z := compute_mtu_with sizeof_socks_udp_header dgram_mtu.

Definition CONNECTION_UDP_BUFFER_SIZE : Z := 64.

(** A well-formed IP address with its port. *)
Definition ip_addr (a : BAddr) : Prop := addr_ok a /\ (addr_type a = 1 \/ addr_type a = 2).
#[export] Instance addr_ok_dec a : Decision (addr_ok a).
Proof. destruct a; simpl; apply _. Defined.
#[export] Instance ip_addr_dec a : Decision (ip_addr a).
Proof. apply _. Defined.

Lemma checked_some op x y : op x y <= SIZE_MAX -> checked op (Some x) (Some y) = Some (op x y).
Proof. intros H. unfold checked. by rewrite (proj2 (Z.leb_le _ _) H). Qed.

Lemma toint_denotes s d : denotes s d -> bsize_toint s = match d with Some n => if n >? INT_MAX then None else Some n | None => None end.
Proof. intros [_ H]. unfold bsize_toint. destruct d as [n|]; [destruct H as [-> ->]|by rewrite H]. done. Qed.

Lemma compute_mtu_with_value h m : 0 <= h <= 18 -> - INT_MAX - 1 <= m <= INT_MAX ->
  compute_mtu_with h m = if (0 <=? m) && (m + 18 + h <=? INT_MAX) then m + 18 + h else -1.
Proof.
  intros Hh Hm. unfold compute_mtu_with, sizeof_udpgw_addr_ipv4, sizeof_udpgw_addr_ipv6. cbv zeta.
  assert (forall n, 0 <= n <= 18 -> n <= SIZE_MAX) as Hs by (unfold SIZE_MAX; lia).
  erewrite toint_denotes; [|apply add_denotes; [apply fromsize_denotes; auto with lia|];
    apply add_denotes; [apply max_denotes; apply fromsize_denotes; auto with lia|by apply fromint_denotes]].
  destruct (Z.ltb_spec m 0).
  - rewrite checked_some by (unfold SIZE_MAX; lia). cbn [checked]. by bool_false.
  - rewrite (checked_some Z.max), (checked_some Z.add _ m), checked_some by (unfold SIZE_MAX, INT_MAX in *; lia).
    replace (h + (Z.max 6 18 + m)) with (m + 18 + h) by lia. destruct (Z.leb_spec (m + 18 + h) INT_MAX).
    + bool_false. by bool_true.
    + bool_true. by bool_false.
Qed.
Lemma compute_mtu_value m : - INT_MAX - 1 <= m <= INT_MAX ->
  udpgw_compute_mtu m = if (0 <=? m) && (m + 22 <=? INT_MAX) then m + 22 else -1.
Proof. intros Hm. unfold udpgw_compute_mtu. rewrite compute_mtu_with_value by (done || (unfold sizeof_socks_udp_header; lia)). by replace (m + 18 + sizeof_socks_udp_header) with (m + 22) by (unfold sizeof_socks_udp_header; lia). Qed.

(** [udpgw_compute_mtu] adds the largest header to a datagram MTU exactly, and reports with -1
    every MTU that is negative or for which the sum is no [int]. *)
Theorem udpgw_compute_mtu_exact m : - INT_MAX - 1 <= m <= INT_MAX ->
  (0 <= m -> m + 22 <= INT_MAX -> udpgw_compute_mtu m = sizeof_socks_udp_header + sizeof_udpgw_addr_ipv6 + m) /\
  (m < 0 \/ INT_MAX < m + 22 -> udpgw_compute_mtu m = -1).
Proof.
  intros Hm. rewrite compute_mtu_value by done. unfold sizeof_socks_udp_header, sizeof_udpgw_addr_ipv6. split.
  - intros. bool_true. lia.
  - intros [?|?]; by bool_false.
Qed.
Lemma udpgw_compute_mtu_exact_witness : udpgw_compute_mtu 1472 = 1494.
Proof. apply (udpgw_compute_mtu_exact 1472); unfold INT_MAX; lia. Defined.

(** ** State *)
Record SocksUdpGwClient_conaddr := mk_conaddr { local_addr : BAddr; remote_addr : BAddr }.

(** [send_addr]: set by [BDatagram_SetSendAddrs]. *)
Record connection := mk_con {
  conaddr : SocksUdpGwClient_conaddr;
  first_data : list Z;
  is_dns : bool;
  send_addr : BAddr;
  send_path : SendPath.t;
  udp_recv_buffer : SinglePacketBuffer.t;
}.
Definition with_conaddr (c : connection) (a : SocksUdpGwClient_conaddr) (dns : bool) : connection :=
  mk_con a (first_data c) dns (send_addr c) (send_path c) (udp_recv_buffer c).
Definition with_recv_buffer (c : connection) (rb : SinglePacketBuffer.t) : connection :=
  mk_con (conaddr c) (first_data c) (is_dns c) (send_addr c) (send_path c) rb.
Definition with_path (c : connection) (p : SendPath.t) : connection :=
  mk_con (conaddr c) (first_data c) (is_dns c) (send_addr c) p (udp_recv_buffer c).

(** The jobs of a connection: [first_job], and those of its send path. *)
Inductive cjob := JFirst | JPath (j : SendPath.job).
#[export] Instance job_eq_dec : EqDecision SendPath.job.
Proof. solve_decision. Defined.
#[export] Instance cjob_eq_dec : EqDecision cjob.
Proof. solve_decision. Defined.

Section Client.
Context {T : Type} `{!AddrTree T}.
Context (malloc : Z -> option (list Z)).

(** The objects [conns] exist; [jobs] are the pending jobs, the next one first. *)
Record t := mk {
  udp_mtu : Z;
  udpgw_mtu : Z;
  socks_server_addr : BAddr;
  dnsgw : BAddr;
  num_connections : Z;
  max_connections : Z;
  connections_tree : T;
  connections_list : LinkedList1.t;
  conns : gmap positive connection;
  jobs : list (positive * cjob);
}.
Definition with_conns (o : t) (c : gmap positive connection) : t :=
  mk (udp_mtu o) (udpgw_mtu o) (socks_server_addr o) (dnsgw o) (num_connections o) (max_connections o)
    (connections_tree o) (connections_list o) c (jobs o).
Definition with_jobs (o : t) (j : list (positive * cjob)) : t :=
  mk (udp_mtu o) (udpgw_mtu o) (socks_server_addr o) (dnsgw o) (num_connections o) (max_connections o)
    (connections_tree o) (connections_list o) (conns o) j.
Definition with_list (o : t) (l : LinkedList1.t) : t :=
  mk (udp_mtu o) (udpgw_mtu o) (socks_server_addr o) (dnsgw o) (num_connections o) (max_connections o)
    (connections_tree o) l (conns o) (jobs o).
Definition with_tables (o : t) (num : Z) (tr : T) (l : LinkedList1.t) : t :=
  mk (udp_mtu o) (udpgw_mtu o) (socks_server_addr o) (dnsgw o) num (max_connections o) tr l (conns o) (jobs o).

(** The values of the tree's nodes, for [conaddr_comparator], which compares local addresses. *)
Definition keys (o : t) (i : positive) : option BAddr := (fun c => local_addr (conaddr c)) <$> conns o !! i.

(** ** Operations *)

(** [tree_node] is not NULL, and so [con] is not. *)
Definition find_connection (o : t) (a : SocksUdpGwClient_conaddr) (dns : bool) : option (option positive) :=
  match tr_lookup (keys o) (connections_tree o) (local_addr a) with
  | None => Some None
  | Some con =>
      c ← conns o !! con;
      if bool_decide (Some con = None) && negb (Bool.eqb (is_dns c) dns) then Some None else Some (Some con)
  end.

(** The connection's I/O objects are freed with their jobs; [first_job] is not. *)
Definition survives (con : positive) (j : positive * cjob) : bool :=
  match j with (i, JPath _) => negb (bool_decide (i = con)) | (_, JFirst) => true end.
Definition connection_free (o : t) (con : positive) : option t :=
  _ ← conns o !! con;
  l ← LinkedList1.LinkedList1_Remove (connections_list o) con;
  tr ← tr_remove (connections_tree o) con;
  let o := with_tables o (num_connections o - 1) tr (LinkedList1.mk (delete con (LinkedList1.heap l)) (LinkedList1.first l) (LinkedList1.last l)) in
  let o := with_jobs o (List.filter (survives con) (jobs o)) in
  Some (with_conns o (delete con (conns o))).

Definition remove_lru_connection (o : t) (a : SocksUdpGwClient_conaddr) (dns : bool) : option t :=
  f ← find_connection o a dns;
  ASSERT bool_decide (f = None);
  ASSERT num_connections o >? 0;
  con ← LinkedList1.LinkedList1_GetFirst (connections_list o);
  connection_free o con.

Definition reset_connection (o : t) (con : positive) (a : SocksUdpGwClient_conaddr) (dns : bool) : option t :=
  c ← conns o !! con;
  Some (with_conns o (<[con := with_conaddr c a dns]> (conns o))).

(** The header and address in front of the data. *)
Definition write_header (c : connection) (p : SendPath.t) (out : Z) : option (SendPath.t * Z) :=
  if negb (is_dns c) then
    let ra := remote_addr (conaddr c) in
    let atyp := if addr_type ra =? 1 then SOCKS_ATYP_IPV4 else SOCKS_ATYP_IPV6 in
    p ← SendPath.write_out p out 0 (socks_udp_header 0 0 atyp);
    let out_pos := sizeof_socks_udp_header in
    match ra with
    | ADDR_IPV4 ip port =>
        p ← SendPath.write_out p out out_pos (udpgw_addr_ipv4 ip port); Some (p, out_pos + sizeof_udpgw_addr_ipv4)
    | ADDR_IPV6 ip port =>
        p ← SendPath.write_out p out out_pos (udpgw_addr_ipv6 ip port); Some (p, out_pos + sizeof_udpgw_addr_ipv6)
    | _ => Some (p, out_pos)
    end
  else Some (p, 0).

(** The results 1 and 0 are [false] and [true]: whether the packet was queued. *)
Definition connection_send (c : connection) (data : list Z) : option (connection * list SendPath.job * bool) :=
  r ← SendPath.start_packet (send_path c);
  match r with
  | None => Some (c, [], false)
  | Some (p, out) =>
      '(p, out_pos) ← write_header c p out;
      p ← SendPath.write_out p out out_pos data;
      let out_pos := out_pos + zlen data in
      '(p, js) ← SendPath.end_packet p out_pos;
      Some (with_path c p, js, true)
  end.

(** The jobs are set. *)
Definition push (o : t) (con : positive) (js : list SendPath.job) : t :=
  with_jobs o (((fun j => (con, JPath j)) <$> js) ++ jobs o).

Definition connection_send_in (o : t) (con : positive) (data : list Z) : option (t * bool) :=
  c ← conns o !! con;
  '(c, js, res) ← connection_send c data;
  Some (push (with_conns o (<[con := c]> (conns o))) con js, res).

Definition connection_first_job_handler (o : t) (con : positive) : option t :=
  c ← conns o !! con;
  '(o, _) ← connection_send_in o con (first_data c);
  Some o.

(** The operating system's answers: the object that [malloc] returns, and whether
    [BDatagram_Init] and [BDatagram_SetReuseAddr] succeed. *)
Record answers := mk_answers { a_con : option positive; a_dgram : bool; a_reuse : bool }.

(** On failure, everything initialised is freed again, [first_job] and the path's jobs included. *)
Definition connection_init (o : t) (a : SocksUdpGwClient_conaddr) (data : list Z) (dns : bool) (an : answers) : option t :=
  match a_con an with
  | None => Some o
  | Some con =>
      if negb (a_dgram an) then Some o else
      if negb (a_reuse an) then Some o else
      let dest := if dns then dnsgw o else socks_server_addr o in
      p ← SendPath.init malloc (udp_mtu o) (udp_mtu o) CONNECTION_UDP_BUFFER_SIZE;
      match p with
      | inl _ => Some o
      | inr (p, js) =>
          r ← SinglePacketBuffer.SinglePacketBuffer_Init malloc (udp_mtu o) (udp_mtu o);
          match r with
          | inl _ => Some o
          | inr rb =>
              let c := mk_con a data dns dest p rb in
              let o := with_conns o (<[con := c]> (conns o)) in
              tr ← tr_insert (keys o) (connections_tree o) con;
              l ← LinkedList1.LinkedList1_Append
                    (LinkedList1.with_node (connections_list o) con (LinkedList1.mk_node None None)) con;
              let o := with_jobs (with_tables o (num_connections o + 1) tr l) ((con, JFirst) :: jobs o) in
              Some (push o con js)
          end
      end
  end.

Definition SocksUdpGwClient_SubmitPacket (o : t) (la ra : BAddr) (dns : bool) (data : list Z) (an : answers) : option t :=
  ASSERT (addr_type la =? 1) || (addr_type la =? 2);
  ASSERT (addr_type ra =? 1) || (addr_type ra =? 2);
  ASSERT zlen data <=? udp_mtu o;
  let a := mk_conaddr la ra in
  con ← find_connection o a dns;
  o ← (if bool_decide (con = None) && (num_connections o =? max_connections o)
       then remove_lru_connection o a dns else Some o);
  match con with
  | None => connection_init o a data dns an
  | Some con =>
      o ← reset_connection o con a dns;
      '(o, res) ← connection_send_in o con data;
      if negb res then Some o else
      l ← LinkedList1.LinkedList1_Remove (connections_list o) con;
      l ← LinkedList1.LinkedList1_Append l con;
      Some (with_list o l)
  end.

(** A call of the user's handler. *)
Record received := mk_received { r_local : BAddr; r_remote : BAddr; r_data : list Z }.

(** The header of a datagram: the remote address and the payload; [None]: it is dropped. *)
Definition parse_header (data : list Z) : option (BAddr * list Z) :=
  if zlen data <? sizeof_socks_udp_header then None else
  frag ← data !! 2%nat;
  atyp ← data !! 3%nat;
  let data := drop 4 data in
  if negb (frag =? 0) then None else
  if atyp =? SOCKS_ATYP_IPV6 then
    if zlen data <? sizeof_udpgw_addr_ipv6 then None else
    Some (ADDR_IPV6 (sub data 0 16) (le_val (sub data 16 2)), drop 18 data)
  else
    if zlen data <? sizeof_udpgw_addr_ipv4 then None else
    Some (ADDR_IPV4 (le_val (sub data 0 4)) (le_val (sub data 4 2)), drop 6 data).

Definition dgram_handler_received (o : t) (con : positive) (data : list Z) : option (t * option received) :=
  c ← conns o !! con;
  ASSERT zlen data <=? udpgw_mtu o;
  match (if negb (is_dns c) then parse_header data else Some (remote_addr (conaddr c), data)) with
  | None => Some (o, None)
  | Some (ra, data) =>
      let c := with_conaddr c (mk_conaddr (local_addr (conaddr c)) ra) (is_dns c) in
      let o := with_conns o (<[con := c]> (conns o)) in
      if zlen data >? udp_mtu o then Some (o, None) else
      Some (o, Some (mk_received (local_addr (conaddr c)) (remote_addr (conaddr c)) data))
  end.

(** [num]: the contents of [num_connections], which the function does not set. *)
Definition SocksUdpGwClient_Init (num mtu max : Z) (server gw : BAddr) : option t :=
  ASSERT negb (BAddr_IsInvalid server);
  let max := if max >? UINT16_MAX + 1 then UINT16_MAX + 1 else max in
  Some (mk mtu (udpgw_compute_mtu mtu) server gw num max tr_init (LinkedList1.mk ∅ None None) ∅ []).

(** The loop of [SocksUdpGwClient_Free], over at most [fuel] connections. *)
Fixpoint SocksUdpGwClient_Free (fuel : nat) (o : t) : option t :=
  if LinkedList1.LinkedList1_IsEmpty (connections_list o) then Some o else
  match fuel with
  | O => None
  | S fuel =>
      con ← LinkedList1.LinkedList1_GetFirst (connections_list o);
      o ← connection_free o con;
      SocksUdpGwClient_Free fuel o
  end.

(** ** The client in its environment *)

(** The next job runs. *)
Definition run_job (o : t) : option t :=
  match jobs o with
  | [] => None
  | (con, j) :: js =>
      let o := with_jobs o js in
      match j with
      | JFirst => connection_first_job_handler o con
      | JPath j =>
          c ← conns o !! con;
          '(p, js) ← SendPath.run_job (send_path c) j;
          Some (push (with_conns o (<[con := with_path c p]> (conns o))) con js)
      end
  end.

(** The socket of [con] took a packet. *)
Definition datagram_sent (o : t) (con : positive) : option t :=
  c ← conns o !! con;
  '(p, js) ← SendPath.out_done (send_path c);
  Some (push (with_conns o (<[con := with_path c p]> (conns o))) con js).

(** The socket of [con] received a datagram: it goes through the single packet buffer to the
    handler, which accepts it. *)
Definition datagram_received (o : t) (con : positive) (data : list Z) : option (t * option received) :=
  c ← conns o !! con;
  '(rb, _, _) ← SinglePacketBuffer.exec (udp_recv_buffer c) (SinglePacketBuffer.EWrite 0 data);
  '(rb, packets, _) ← SinglePacketBuffer.exec rb (SinglePacketBuffer.EInDone (zlen data));
  packet ← head packets;
  '(o, r) ← dgram_handler_received o con packet;
  '(rb, _, _) ← SinglePacketBuffer.exec rb SinglePacketBuffer.EOutDone;
  c ← conns o !! con;
  Some (with_conns o (<[con := with_recv_buffer c rb]> (conns o)), r).

Inductive event :=
| ESubmit (la ra : BAddr) (dns : bool) (data : list Z) (an : answers)
| EJob
| ESent (con : positive)
| EReceived (con : positive) (data : list Z).

(** Bytes in front of the data. *)
Definition header_len (ra : BAddr) (dns : bool) : Z :=
  if dns then 0 else match ra with ADDR_IPV4 _ _ => 10 | _ => 22 end.

(** A packet of up to [udp_mtu] bytes is submitted while no job of a connection is pending: the packets come from the
    device, and the jobs that one of them sets run, last in, first out, before the job that
    brings the next one.  A socket receives nothing before it
    sent its first datagram, which binds it. *)
Definition enabled (o : t) (e : event) : bool :=
  match e with
  | ESubmit la ra dns data an =>
      bool_decide (jobs o = []) && bool_decide (ip_addr la) && bool_decide (ip_addr ra) &&
      (zlen data <=? udp_mtu o) &&
      match a_con an with Some con => bool_decide (conns o !! con = None) | None => true end
  | EJob => bool_decide (jobs o <> [])
  | ESent con =>
      match conns o !! con with
      | Some c => match PacketBuffer.output (SendPath.pb (send_path c)) with PBusy _ _ => true | PIdle => false end
      | None => false
      end
  | EReceived con data =>
      bool_decide (is_Some (conns o !! con)) && bool_decide ((con, JFirst) ∉ jobs o) && bool_decide (bytes_ok data) &&
      (zlen data <=? udp_mtu o)
  end.

Definition exec (o : t) (e : event) : option (t * option received) :=
  match e with
  | ESubmit la ra dns data an => o ← SocksUdpGwClient_SubmitPacket o la ra dns data an; Some (o, None)
  | EJob => o ← run_job o; Some (o, None)
  | ESent con => o ← datagram_sent o con; Some (o, None)
  | EReceived con data => datagram_received o con data
  end.

Inductive reach (o0 : t) : t -> Prop :=
| reach_init : reach o0 o0
| reach_step o e o' r : reach o0 o -> enabled o e = true -> exec o e = Some (o', r) -> reach o0 o'.

(** ** Specification: the connections as a list, the least recently used one first *)
Record entry := mk_entry { e_local : BAddr; e_remote : BAddr; e_dns : bool; e_send : BAddr }.

Definition spec_find (l : list entry) (la : BAddr) : option entry := find (fun e => bool_decide (e_local e = la)) l.
Definition others (l : list entry) (la : BAddr) : list entry := filter (fun e => e_local e <> la) l.
Definition update (l : list entry) (la ra : BAddr) (dns : bool) : list entry :=
  (fun e => if bool_decide (e_local e = la) then mk_entry la ra dns (e_send e) else e) <$> l.

(** [queued]: the packet was accepted by the existing connection; [created]: the new connection
    could be made. *)
Definition spec_submit (max : Z) (dest : BAddr) (l : list entry) (la ra : BAddr) (dns queued created : bool) : list entry :=
  match spec_find l la with
  | Some e => if queued then others l la ++ [mk_entry la ra dns (e_send e)] else update l la ra dns
  | None =>
      let l := if Z.of_nat (length l) =? max then tail l else l in
      if created then l ++ [mk_entry la ra dns dest] else l
  end.

(** ** Invariant *)
Definition entry_of (c : connection) : entry := mk_entry (local_addr (conaddr c)) (remote_addr (conaddr c)) (is_dns c) (send_addr c).
Definition abs (o : t) (l : list positive) : list entry := omap (fun i => entry_of <$> conns o !! i) l.

(** The pending jobs of a connection. *)
Definition jobs_of (i : positive) (js : list (positive * cjob)) : list cjob :=
  omap (fun kj => if bool_decide (kj.1 = i) then Some kj.2 else None) js.

#[local] Arguments jobs_of : simpl never.
#[local] Arguments abs : simpl never.

(** The receive buffer waits for a datagram. *)
Definition recv_ready (mtu : Z) (rb : SinglePacketBuffer.t) : Prop :=
  SinglePacketBuffer.input rb = RBusy 0 /\ SinglePacketBuffer.output rb = PIdle /\
  SinglePacketBuffer.input_mtu rb = mtu /\ SinglePacketBuffer.output_mtu rb = mtu /\ mtu <= zlen (SinglePacketBuffer.buf rb).

(** The message for [data] fits in a place of [mtu] bytes. *)
Definition fits (mtu : Z) (c : connection) (data : list Z) : Prop :=
  header_len (remote_addr (conaddr c)) (is_dns c) + zlen data <= mtu.

(** While [first_job] is pending, the connection's path is empty and about to be ready. *)
Definition first_ok (q : list (list Z)) (g : SendPath.stage) (firsts : list cjob) : Prop :=
  firsts = [] \/ firsts = [JFirst] /\ q = [] /\ (g = SendPath.Asked \/ g = SendPath.Ready).

Definition con_ok (mtu : Z) (js : list cjob) (c : connection) : Prop :=
  PacketBuffer.input_mtu (SendPath.pb (send_path c)) = mtu /\ recv_ready mtu (udp_recv_buffer c) /\
  addr_ok (local_addr (conaddr c)) /\ addr_ok (remote_addr (conaddr c)) /\
  (addr_type (remote_addr (conaddr c)) = 1 \/ addr_type (remote_addr (conaddr c)) = 2) /\
  exists q g firsts, SendPath.ok (send_path c) q CONNECTION_UDP_BUFFER_SIZE g /\
    js = (JPath <$> SendPath.stage_jobs g) ++ firsts /\ first_ok q g firsts.

Record inv (o : t) (l : list positive) : Prop := {
  i_mtu : 0 <= udp_mtu o <= INT_MAX /\ ChunkBuffer2.BLOCK * ((1 + ChunkBuffer2.blocks_of (udp_mtu o)) * (CONNECTION_UDP_BUFFER_SIZE + 1)) <= INT_MAX;
  i_gw : udpgw_mtu o = udp_mtu o + 22;
  i_max : 0 < max_connections o;
  i_list : LinkedList1.rep (connections_list o) l;
  i_dom : forall i, i ∈ l <-> is_Some (conns o !! i);
  i_tree : tr_rep (keys o) (connections_tree o) (list_to_set l);
  i_num : num_connections o = Z.of_nat (length l) /\ num_connections o <= max_connections o;
  i_inj : forall i j c d, conns o !! i = Some c -> conns o !! j = Some d ->
    local_addr (conaddr c) = local_addr (conaddr d) -> i = j;
  i_jobs : forall k, k ∈ jobs o -> is_Some (conns o !! k.1);
  i_con : forall i c, conns o !! i = Some c -> con_ok (udp_mtu o) (jobs_of i (jobs o)) c;
}.

Lemma inv_keys o l : inv o l -> keys_ok addr_ok (keys o) (list_to_set l).
Proof.
  intros I i Hi. apply elem_of_list_to_set, (i_dom _ _ I) in Hi as [c Hc]. unfold keys. rewrite Hc. simpl.
  eexists. split; [done|]. apply (i_con _ _ I i c Hc).
Qed.

Lemma compare_eq a b : addr_ok a -> addr_ok b -> BAddr_CompareOrder a b = 0 <-> a = b.
Proof. intros Ha Hb. rewrite CompareOrder_lex, sign_0, lex_eq by done. split; [by apply addr_key_inj|by intros ->]. Qed.

(** *** Finding a connection *)
Lemma find_ok o l a dns : inv o l -> addr_ok (local_addr a) ->
  (exists i c, find_connection o a dns = Some (Some i) /\ conns o !! i = Some c /\ local_addr (conaddr c) = local_addr a) \/
  (find_connection o a dns = Some None /\ forall i c, conns o !! i = Some c -> local_addr (conaddr c) <> local_addr a).
Proof.
  intros I Ha. pose proof (inv_keys _ _ I) as Hk. unfold find_connection.
  destruct (tr_lookup (keys o) (connections_tree o) (local_addr a)) as [i|] eqn:E; [left|right].
  - destruct (tr_lookup_some _ _ _ _ _ (i_tree _ _ I) Hk Ha E) as (Hi & b & Hb & Hc). unfold keys in Hb.
    destruct (conns o !! i) as [c|] eqn:Ec; [|done]. simpl in Hb. injection Hb as <-. exists i, c. split; [done|]. split; [done|].
    symmetry. apply compare_eq; [done|apply (i_con _ _ I i c Ec)|done].
  - split; [done|]. intros i c Hc Heq. apply (tr_lookup_none _ _ _ _ i (local_addr (conaddr c)) (i_tree _ _ I) Hk Ha E).
    + apply elem_of_list_to_set, (i_dom _ _ I). by eexists.
    + unfold keys. by rewrite Hc.
    + apply compare_eq; [done|apply (i_con _ _ I i c Hc)|done].
Qed.

(** *** One connection changes *)
Lemma jobs_of_app i js ks : jobs_of i (js ++ ks) = jobs_of i js ++ jobs_of i ks.
Proof. unfold jobs_of. apply omap_app. Qed.
Lemma jobs_of_cons i k j js : jobs_of i ((k, j) :: js) = if bool_decide (k = i) then j :: jobs_of i js else jobs_of i js.
Proof. unfold jobs_of. simpl. by case_bool_decide. Qed.
Lemma jobs_of_push i js : jobs_of i ((fun j => (i, JPath j)) <$> js) = JPath <$> js.
Proof. induction js as [|j js IH]; [done|]. rewrite !fmap_cons, jobs_of_cons, bool_decide_true by done. by rewrite IH. Qed.
Lemma jobs_of_push_ne i k js : k <> i -> jobs_of k ((fun j => (i, JPath j)) <$> js) = [].
Proof. intros Hk. induction js as [|j js IH]; [done|]. rewrite fmap_cons, jobs_of_cons, bool_decide_false by done. by rewrite IH. Qed.

Lemma set_con o l i c c' js : inv o l -> conns o !! i = Some c -> local_addr (conaddr c') = local_addr (conaddr c) ->
  (forall k, k <> i -> jobs_of k js = jobs_of k (jobs o)) -> (forall k, k ∈ js -> is_Some (conns o !! k.1)) ->
  con_ok (udp_mtu o) (jobs_of i js) c' ->
  inv (with_jobs (with_conns o (<[i := c']> (conns o))) js) l.
Proof.
  intros I Hi Hl Hj Hk Hc. destruct I as [I1 I2 I3 I4 I5 I6 I7 I8 I9 I10].
  assert (forall k, is_Some (conns o !! k) <-> is_Some (<[i := c']> (conns o) !! k)) as Hd.
  { intros k. destruct (decide (k = i)) as [-> |Hn]; [rewrite lookup_insert_eq, Hi; by split; eexists|by rewrite lookup_insert_ne]. }
  assert (forall k d, <[i := c']> (conns o) !! k = Some d -> exists d', conns o !! k = Some d' /\ local_addr (conaddr d') = local_addr (conaddr d)) as Hloc.
  { intros k d. destruct (decide (k = i)) as [-> |Hn]; [rewrite lookup_insert_eq; intros [= <-]; by exists c|].
    rewrite lookup_insert_ne by done. intros ?. by exists d. }
  constructor; simpl; try done.
  - intros k. rewrite I5. apply Hd.
  - eapply tr_ext; [exact I6|]. intros k _. unfold keys. simpl. destruct (decide (k = i)) as [-> |Hn];
      [rewrite lookup_insert_eq, Hi; simpl; by rewrite Hl|by rewrite lookup_insert_ne].
  - intros a b ca cb Ha Hb Heq. destruct (Hloc _ _ Ha) as (da & Hda & Ea), (Hloc _ _ Hb) as (db & Hdb & Eb).
    apply (I8 a b da db Hda Hdb). congruence.
  - intros k Hkj. apply Hd. by apply Hk.
  - intros k d. destruct (decide (k = i)) as [-> |Hn]; [rewrite lookup_insert_eq; by intros [= <-]|].
    rewrite lookup_insert_ne by done. rewrite Hj by done. apply I10.
Qed.

(** Jobs are pushed for the connection that changes. *)
Lemma push_con o l i c c' js rest : inv o l -> conns o !! i = Some c -> local_addr (conaddr c') = local_addr (conaddr c) ->
  (forall k, k <> i -> jobs_of k rest = jobs_of k (jobs o)) -> (forall k, k ∈ rest -> k ∈ jobs o) ->
  con_ok (udp_mtu o) ((JPath <$> js) ++ jobs_of i rest) c' ->
  inv (push (with_conns (with_jobs o rest) (<[i := c']> (conns o))) i js) l.
Proof.
  intros I Hi Hl Hj Hk Hc. unfold push. simpl. apply (set_con o l i c c'); try done.
  - intros k Hn. rewrite jobs_of_app, jobs_of_push_ne by done. by apply Hj.
  - intros k. rewrite elem_of_app. intros [H|H]; [|by apply (i_jobs _ _ I), Hk].
    apply list_elem_of_fmap in H as (j & -> & _). simpl. by rewrite Hi.
  - by rewrite jobs_of_app, jobs_of_push.
Qed.

Lemma abs_cons o i l : abs o (i :: l) = match conns o !! i with Some c => entry_of c :: abs o l | None => abs o l end.
Proof. unfold abs. simpl. by destruct (conns o !! i). Qed.
Lemma abs_app o l k : abs o (l ++ k) = abs o l ++ abs o k.
Proof. unfold abs. apply omap_app. Qed.
Lemma abs_ext o o' l : (forall i, i ∈ l -> conns o' !! i = conns o !! i) -> abs o' l = abs o l.
Proof.
  induction l as [|k l IH]; intros H; [done|]. rewrite !abs_cons, H by (by left). rewrite IH; [done|]. intros i Hi. apply H. by right.
Qed.
Lemma abs_set o l i c c' js : conns o !! i = Some c -> entry_of c' = entry_of c ->
  abs (with_jobs (with_conns o (<[i := c']> (conns o))) js) l = abs o l.
Proof.
  intros Hi He. induction l as [|k l IH]; [done|]. rewrite !abs_cons, IH. simpl.
  destruct (decide (k = i)) as [-> |Hn]; [rewrite lookup_insert_eq, Hi; simpl; by rewrite He|by rewrite lookup_insert_ne].
Qed.

(** *** Sending *)
Definition path_ready (c : connection) : bool := BufferWriter.out_have (SendPath.wr (send_path c)).
Lemma path_ready_stage c q g : SendPath.ok (send_path c) q CONNECTION_UDP_BUFFER_SIZE g -> path_ready c = true <-> g = SendPath.Ready.
Proof.
  intros [_ _ _ Hs]. unfold path_ready. destruct g.
  - destruct Hs as (_ & _ & ->). done.
  - destruct Hs as (? & _ & _ & ->). done.
  - destruct Hs as (? & _ & _ & -> & _). done.
  - destruct Hs as (? & _ & _ & -> & _). done.
Qed.

(** The datagram for a packet: RFC 1928's UDP request header, the destination, the data. *)
Definition udp_message (ra : BAddr) (dns : bool) (data : list Z) : list Z :=
  if dns then data else
  match ra with
  | ADDR_IPV4 ip port => [0; 0; 0; 1] ++ host32 ip ++ host16 port ++ data
  | ADDR_IPV6 ip port => [0; 0; 0; 4] ++ ip ++ host16 port ++ data
  | _ => []
  end.

Lemma connection_send_refused c q g data : SendPath.ok (send_path c) q CONNECTION_UDP_BUFFER_SIZE g -> g <> SendPath.Ready ->
  connection_send c data = Some (c, [], false).
Proof. intros Hok Hg. unfold connection_send. by rewrite (SendPath.start_refused _ _ _ _ Hok Hg). Qed.

Lemma connection_send_queued mtu c q data : PacketBuffer.input_mtu (SendPath.pb (send_path c)) = mtu ->
  SendPath.ok (send_path c) q CONNECTION_UDP_BUFFER_SIZE SendPath.Ready -> fits mtu c data ->
  addr_ok (remote_addr (conaddr c)) -> addr_type (remote_addr (conaddr c)) = 1 \/ addr_type (remote_addr (conaddr c)) = 2 ->
  let msg := udp_message (remote_addr (conaddr c)) (is_dns c) data in
  exists p, connection_send c data = Some (with_path c p, [SendPath.JDone (zlen msg)], true) /\
    PacketBuffer.input_mtu (SendPath.pb p) = mtu /\
    SendPath.ok p q CONNECTION_UDP_BUFFER_SIZE (SendPath.Submitted (zlen msg)) /\
    SendPath.queue p q (SendPath.Submitted (zlen msg)) = q ++ [msg].
Proof.
  intros Hm Hok Hf Ha Ht msg. unfold connection_send, fits, header_len in *. pose proof (zlen_nonneg data).
  destruct (SendPath.path_start_ok _ _ _ Hok) as (p0 & d & -> & W0 & M0). simpl. unfold write_header.
  assert (exists p pre, write_header c p0 d = Some (p, zlen pre) /\ SendPath.writing p q CONNECTION_UDP_BUFFER_SIZE d pre /\
    PacketBuffer.input_mtu (SendPath.pb p) = mtu /\ zlen pre + zlen data <= mtu /\ msg = pre ++ data) as (p & pre & E & W & M & Hz & ->).
  { unfold write_header, msg, udp_message, sizeof_socks_udp_header. destruct (is_dns c); simpl.
    { exists p0, []. split; [done|]. split; [done|]. split; [congruence|]. split; [rewrite zlen_nil; lia|done]. }
    destruct (remote_addr (conaddr c)) as [|ip port|ip port|]; try (by destruct Ht).
    - destruct (SendPath.write_ok p0 q _ d [] (socks_udp_header 0 0 SOCKS_ATYP_IPV4) W0) as (p1 & E1 & W1 & M1).
      { change (zlen (socks_udp_header _ _ _)) with 4. rewrite zlen_nil. lia. }
      change (zlen []) with 0 in E1. simpl. rewrite E1. simpl.
      destruct (SendPath.write_ok p1 q _ d _ (udpgw_addr_ipv4 ip port) W1) as (p2 & E2 & W2 & M2).
      { change (zlen (udpgw_addr_ipv4 _ _)) with 6. change (zlen (_ ++ _)) with 4. lia. }
      change (zlen (_ ++ _)) with 4 in E2. rewrite E2. simpl. exists p2, (([] ++ socks_udp_header 0 0 SOCKS_ATYP_IPV4) ++ udpgw_addr_ipv4 ip port).
      split; [done|]. split; [done|]. split; [congruence|]. split; [change (zlen (_ ++ _)) with 10; lia|done].
    - destruct Ha as (_ & Hip & _).
      destruct (SendPath.write_ok p0 q _ d [] (socks_udp_header 0 0 SOCKS_ATYP_IPV6) W0) as (p1 & E1 & W1 & M1).
      { change (zlen (socks_udp_header _ _ _)) with 4. rewrite zlen_nil. lia. }
      change (zlen []) with 0 in E1. simpl. rewrite E1. simpl.
      assert (udpgw_addr_ipv6 ip port = ip ++ host16 port) as Eu by (unfold udpgw_addr_ipv6; rewrite take_ge; [done|unfold zlen in Hip; lia]).
      assert (zlen (udpgw_addr_ipv6 ip port) = 18) as Hu by (rewrite Eu, zlen_app, Hip; done).
      destruct (SendPath.write_ok p1 q _ d _ (udpgw_addr_ipv6 ip port) W1) as (p2 & E2 & W2 & M2).
      { rewrite Hu. change (zlen ([] ++ _)) with 4. lia. }
      change (zlen ([] ++ _)) with 4 in E2. rewrite E2. simpl. exists p2, (([] ++ socks_udp_header 0 0 SOCKS_ATYP_IPV6) ++ udpgw_addr_ipv6 ip port).
      split; [do 2 f_equal; rewrite zlen_app, Hu; done|]. split; [done|]. split; [congruence|].
      split; [rewrite zlen_app, Hu; change (zlen ([] ++ _)) with 4; lia|]. rewrite Eu. simpl. by rewrite <- app_assoc. }
  unfold write_header in E. rewrite E. simpl.
  destruct (SendPath.write_ok p q _ d pre data W) as (p1 & E1 & W1 & M1); [lia|]. rewrite E1. simpl. rewrite <- zlen_app.
  destruct (SendPath.end_ok _ _ _ _ _ W1) as (p2 & E2 & Hok2 & Hq & M2). rewrite E2. simpl. exists p2. split; [done|].
  split; [congruence|]. done.
Qed.

(** The packets queued on the connection [i]. *)
Definition queued (o : t) (i : positive) (qs : list (list Z)) : Prop :=
  exists c q g, conns o !! i = Some c /\ SendPath.ok (send_path c) q CONNECTION_UDP_BUFFER_SIZE g /\
    SendPath.queue (send_path c) q g = qs.

Lemma push_nil o i c : conns o !! i = Some c -> push (with_conns o (<[i := c]> (conns o))) i [] = o.
Proof. intros Hi. destruct o. unfold push, with_conns, with_jobs. simpl in *. by rewrite insert_id. Qed.

Lemma send_in_ok o l i c data : inv o l -> conns o !! i = Some c -> (path_ready c = true -> fits (udp_mtu o) c data) -> JFirst ∉ jobs_of i (jobs o) ->
  exists q g, SendPath.ok (send_path c) q CONNECTION_UDP_BUFFER_SIZE g /\
  ((g <> SendPath.Ready /\ connection_send_in o i data = Some (o, false)) \/
   (g = SendPath.Ready /\ exists o', connection_send_in o i data = Some (o', true) /\ inv o' l /\ (forall k, abs o' k = abs o k) /\
      connections_list o' = connections_list o /\ connections_tree o' = connections_tree o /\ num_connections o' = num_connections o /\
      max_connections o' = max_connections o /\ dnsgw o' = dnsgw o /\ socks_server_addr o' = socks_server_addr o /\
      queued o' i (q ++ [udp_message (remote_addr (conaddr c)) (is_dns c) data]) /\
      jobs o' = (i, JPath (SendPath.JDone (zlen (udp_message (remote_addr (conaddr c)) (is_dns c) data)))) :: jobs o /\
      exists p, conns o' = <[i := with_path c p]> (conns o))).
Proof.
  intros I Hi Hf Hno. destruct (i_con _ _ I i c Hi) as (Hm & Hr & Hl & Ha & Ht & q & g & firsts & Hok & Hj & Hfi).
  exists q, g. split; [done|]. unfold connection_send_in. rewrite Hi. simpl.
  assert (g = SendPath.Ready \/ g <> SendPath.Ready) as [-> |Hg] by (destruct g; by auto); [right|left].
  - split; [done|]. destruct (connection_send_queued (udp_mtu o) c q data Hm Hok (Hf (proj2 (path_ready_stage _ _ _ Hok) eq_refl)) Ha Ht) as (p & -> & Hm' & Hok' & Hq). simpl.
    eexists. split; [done|]. split; [|split; [|do 6 (split; [done|])]].
    + apply (push_con o l i c (with_path c p) _ (jobs o)); try done. split; [done|]. do 4 (split; [done|]). eexists _, _, []. split; [exact Hok'|].
      split; [|by left]. rewrite app_nil_r. simpl. f_equal. rewrite Hj. destruct Hfi as [->|(-> & _)]; [done|].
      exfalso. apply Hno. rewrite Hj. apply elem_of_app. right. by left.
    + intros k. by apply (abs_set o k i c).
    + split; [|split; [done|by exists p]].
      exists (with_path c p), q, (SendPath.Submitted (zlen (udp_message (remote_addr (conaddr c)) (is_dns c) data))).
      split; [simpl; by rewrite lookup_insert_eq|]. done.
  - split; [done|]. rewrite (connection_send_refused _ _ _ _ Hok Hg). simpl. by rewrite push_nil.
Qed.

(** *** The other events *)
Lemma pop_inv o l i j js : inv o l -> jobs o = (i, j) :: js -> forall c, conns o !! i = Some c ->
  con_ok (udp_mtu o) (jobs_of i js) c -> inv (with_jobs o js) l.
Proof.
  intros I Hj c Hc Hk. pose proof (set_con o l i c c js I Hc eq_refl) as H.
  assert (with_conns o (<[i := c]> (conns o)) = o) as E by (destruct o; unfold with_conns; simpl in *; by rewrite insert_id).
  rewrite E in H. apply H; [| |done].
  - intros k Hk'. rewrite Hj, jobs_of_cons, bool_decide_false by done. done.
  - intros k Hk'. apply (i_jobs _ _ I). rewrite Hj. by right.
Qed.

Lemma first_job_ok o l i js : inv o l -> jobs o = (i, JFirst) :: js -> (forall c, conns o !! i = Some c -> fits (udp_mtu o) c (first_data c)) ->
  exists o' c, run_job o = Some o' /\ inv o' l /\ abs o' l = abs o l /\ conns o !! i = Some c /\
    queued o' i [udp_message (remote_addr (conaddr c)) (is_dns c) (first_data c)] /\
    jobs o' = (i, JPath (SendPath.JDone (zlen (udp_message (remote_addr (conaddr c)) (is_dns c) (first_data c))))) :: js /\
    exists p, conns o' = <[i := with_path c p]> (conns o).
Proof.
  intros I Hj Hfit. destruct (i_jobs _ _ I (i, JFirst)) as [c Hc]; [rewrite Hj; by left|]. simpl in Hc.
  pose proof (i_con _ _ I i c Hc) as (Hm & Hr & Hl & Ha & Ht & q & g & firsts & Hok & Hji & Hfi).
  rewrite Hj, jobs_of_cons, bool_decide_true in Hji by done.
  destruct Hfi as [-> |(-> & -> & Hg)]; [rewrite app_nil_r in Hji; by destruct g|].
  assert (g = SendPath.Ready) as -> by (destruct Hg as [-> | ->]; [done|done]). simpl in Hji. injection Hji as Hji.
  assert (inv (with_jobs o js) l) as I'.
  { eapply (pop_inv o l i JFirst js I Hj c Hc). do 5 (split; [done|]). exists [], SendPath.Ready, []. split; [done|]. split; [done|by left]. }
  destruct (send_in_ok (with_jobs o js) l i c (first_data c) I' Hc (fun _ => Hfit c Hc)) as (q' & g' & Hok' & H); [simpl; rewrite Hji; apply not_elem_of_nil|].
  unfold run_job. rewrite Hj. unfold connection_first_job_handler. simpl. rewrite Hc. simpl.
  destruct H as [(Hg' & _)|(-> & o' & E & Hi' & Habs & _ & _ & _ & _ & _ & _ & Q & J & C)].
  - exfalso. apply Hg'. destruct Hok as [_ _ _ (? & _ & Hr1 & Ho1 & _)], Hok' as [_ _ _ Hs].
    destruct g'; try done; [destruct Hs as (_ & _ & ?)|destruct Hs as (? & _ & _ & ?)|destruct Hs as (? & _ & _ & ? & _)]; congruence.
  - rewrite E. simpl. exists o', c. split; [done|]. split; [done|]. split; [done|]. split; [done|].
    split; [|done]. assert (q' = []) as ->; [|done]. pose proof (PacketBuffer.ok_out _ _ _ (SendPath.k_buf _ _ _ _ Hok)) as H1.
    pose proof (PacketBuffer.ok_out _ _ _ (SendPath.k_buf _ _ _ _ Hok')) as H2.
    destruct (PacketBuffer.output (SendPath.pb (send_path c))); [done|]. by destruct H1.
Qed.

Lemma path_job_ok o l i j js : inv o l -> jobs o = (i, JPath j) :: js ->
  exists o', run_job o = Some o' /\ inv o' l /\ abs o' l = abs o l.
Proof.
  intros I Hj. destruct (i_jobs _ _ I (i, JPath j)) as [c Hc]; [rewrite Hj; by left|]. simpl in Hc.
  pose proof (i_con _ _ I i c Hc) as (Hm & Hr & Hl & Ha & Ht & q & g & firsts & Hok & Hji & Hfi).
  rewrite Hj, jobs_of_cons, bool_decide_true in Hji by done. unfold run_job. rewrite Hj. simpl. rewrite Hc. simpl.
  assert (forall p js', PacketBuffer.input_mtu (SendPath.pb p) = udp_mtu o ->
    (exists q g firsts, SendPath.ok p q CONNECTION_UDP_BUFFER_SIZE g /\ (JPath <$> js') ++ jobs_of i js = (JPath <$> SendPath.stage_jobs g) ++ firsts /\
      first_ok q g firsts) ->
    inv (push (with_conns (with_jobs o js) (<[i := with_path c p]> (conns o))) i js') l /\
    abs (push (with_conns (with_jobs o js) (<[i := with_path c p]> (conns o))) i js') l = abs o l) as Hstep.
  { intros p js' Hmp Hp. split; [|by apply (abs_set o l i c)]. apply (push_con o l i c); try done.
    - intros k Hk. rewrite Hj, jobs_of_cons, bool_decide_false by done. done.
    - intros k Hk. rewrite Hj. by right. }
  destruct g as [| | |len]; simpl in Hji.
  - destruct Hfi as [-> |(-> & _ & [? | ?])]; done.
  - injection Hji as -> Hji. destruct (SendPath.run_op_ok _ _ _ Hok) as (p & -> & Hokp & Epb). simpl. eexists. split; [done|].
    apply Hstep; [by rewrite Epb|]. exists q, SendPath.Ready, firsts. split; [done|]. split; [done|].
    destruct Hfi as [-> |(-> & -> & _)]; [by left|right]. split_and!; auto.
  - destruct Hfi as [-> |(-> & _)]; done.
  - injection Hji as -> Hji. destruct (SendPath.run_done_ok _ _ _ _ Hok) as (p & g & -> & Hokp & _ & Hmp). simpl.
    eexists. split; [done|]. apply Hstep; [congruence|]. eexists _, g, []. split; [exact Hokp|]. split; [|by left].
    destruct Hfi as [-> |(_ & _ & [? | ?])]; [|done..]. by rewrite Hji.
Qed.

Lemma sent_event_ok o l i c d len : inv o l -> conns o !! i = Some c ->
  PacketBuffer.output (SendPath.pb (send_path c)) = PBusy d len ->
  exists o' qs, datagram_sent o i = Some o' /\ inv o' l /\ abs o' l = abs o l /\
    queued o i (PacketBuffer.out_packet (SendPath.pb (send_path c)) :: qs) /\ queued o' i qs.
Proof.
  intros I Hc Ho. pose proof (i_con _ _ I i c Hc) as (Hm & Hr & Hl & Ha & Ht & q & g & firsts & Hok & Hji & Hfi).
  unfold datagram_sent. rewrite Hc. simpl.
  destruct (SendPath.out_done_ok _ _ _ _ _ _ Hok Ho) as (p & g' & q' & -> & Hq & Hokp & Hg & Hmp). simpl.
  eexists _, (SendPath.queue p q' g'). split; [done|].
  assert (firsts = []) as ->.
  { destruct Hfi as [->|(_ & -> & _)]; [done|]. by destruct (SendPath.queue_out _ _ _ _ _ (SendPath.k_buf _ _ _ _ Hok) Ho). }
  split; [|split; [by apply (abs_set o l i c)|]].
  - apply (push_con o l i c _ _ (jobs o)); try done. split; [simpl; congruence|]. do 4 (split; [done|]). exists q', g', []. split; [done|]. split; [|by left].
    rewrite app_nil_r, Hji. destruct g; simpl in *; try (subst g'; done). by rewrite app_nil_r.
  - split; [by exists c, q, g|]. exists (with_path c p), q', g'. split; [simpl; by rewrite lookup_insert_eq|]. done.
Qed.

(** A datagram in the receive buffer. *)
Lemma recv_cycle mtu rb data : recv_ready mtu rb -> zlen data <= mtu ->
  exists rb1 rb2 rb3, SinglePacketBuffer.exec rb (SinglePacketBuffer.EWrite 0 data) = Some (rb1, [], []) /\
    SinglePacketBuffer.exec rb1 (SinglePacketBuffer.EInDone (zlen data)) = Some (rb2, [data], []) /\
    SinglePacketBuffer.exec rb2 SinglePacketBuffer.EOutDone = Some (rb3, [], [data]) /\ recv_ready mtu rb3.
Proof.
  destruct rb as [i im o om m]. intros (Hi & Ho & Hm & Hom & Hb) Hd. simpl in *. subst. pose proof (zlen_nonneg data).
  assert (zlen (splice m 0 data) = zlen m) as Hz by (apply zlen_splice; lia).
  assert (sub (splice m 0 data) 0 (zlen data) = data) as Hs by (apply sub_splice_eq; lia).
  set (m' := splice m 0 data) in *. set (rb1 := SinglePacketBuffer.mk (RBusy 0) mtu PIdle mtu m').
  exists rb1, (SinglePacketBuffer.mk RIdle mtu (PBusy (Some 0) (zlen data)) mtu m'), rb1. split; [|split; [|split]].
  - unfold SinglePacketBuffer.exec. simpl. by bool_true.
  - unfold SinglePacketBuffer.exec, SinglePacketBuffer.input_handler_done, PacketPassInterface_Sender_Send. simpl. rewrite Hz. do 3 bool_true.
    rewrite orb_true_r. simpl. by rewrite Hs.
  - unfold SinglePacketBuffer.exec, SinglePacketBuffer.output_handler_done, PacketRecvInterface_Receiver_Recv. simpl. rewrite Hz. bool_true.
    rewrite orb_true_r. simpl. by rewrite Hs.
  - do 4 (split; [done|]). simpl. lia.
Qed.

Lemma le_val_sub_range data off n : bytes_ok data -> 0 <= n -> 0 <= off -> off + n <= zlen data -> 0 <= le_val (sub data off n) < 256 ^ n.
Proof.
  intros Hd Hn Ho Hl. pose proof (le_val_range (sub data off n) (bytes_ok_sub _ _ _ Hd)) as H. by rewrite zlen_sub in H by lia.
Qed.

Lemma parse_header_ok data ra d : bytes_ok data -> parse_header data = Some (ra, d) -> addr_ok ra /\ (addr_type ra = 1 \/ addr_type ra = 2) /\ zlen d <= zlen data.
Proof.
  intros Hd. unfold parse_header, sizeof_socks_udp_header, sizeof_udpgw_addr_ipv6, sizeof_udpgw_addr_ipv4. case_if; [done|].
  destruct (data !! 2%nat) as [frag|]; [|done]. destruct (data !! 3%nat) as [atyp|]; [|done]. simpl.
  assert (bytes_ok (drop 4 data)) as Hd4 by (by apply Forall_drop).
  assert (zlen (drop 4 data) = zlen data - 4) as H4 by (unfold zlen in *; rewrite length_drop; lia).
  case_if; [done|]. case_if; (case_if; [done|]; intros [= <- <-]; split; [|split; [by auto|unfold zlen in *; rewrite !length_drop; lia]]).
  - split; [by apply bytes_ok_sub|]. split; [apply zlen_sub; lia|]. apply (le_val_sub_range _ 16 2); [done|lia..].
  - split; [apply (le_val_sub_range _ 0 4)|apply (le_val_sub_range _ 4 2)]; (done || lia).
Qed.

Lemma abs_update o l i c c' js : inv o l -> conns o !! i = Some c -> local_addr (conaddr c') = local_addr (conaddr c) ->
  send_addr c' = send_addr c ->
  abs (with_jobs (with_conns o (<[i := c']> (conns o))) js) l = update (abs o l) (local_addr (conaddr c)) (remote_addr (conaddr c')) (is_dns c').
Proof.
  intros I Hi Hl Hs. pose proof (i_inj _ _ I) as Hinj. clear I. induction l as [|k l IH]; [done|]. rewrite !abs_cons, IH. simpl.
  destruct (decide (k = i)) as [-> |Hn].
  - rewrite lookup_insert_eq, Hi. unfold update. simpl. rewrite bool_decide_true by done. unfold entry_of. by rewrite Hl, Hs.
  - rewrite lookup_insert_ne by done. destruct (conns o !! k) as [d|] eqn:Hk; [|done]. unfold update. simpl.
    rewrite bool_decide_false; [done|]. intros E. apply Hn. by apply (Hinj k i d c).
Qed.

Lemma no_first js q g firsts : JFirst ∉ js -> js = (JPath <$> SendPath.stage_jobs g) ++ firsts -> first_ok q g firsts -> firsts = [].
Proof. intros Hn -> [->|(-> & _)]; [done|]. exfalso. apply Hn, elem_of_app. right. by left. Qed.

Lemma elem_jobs_of i j js : j ∈ jobs_of i js <-> (i, j) ∈ js.
Proof.
  induction js as [|[k x] js IH]; [split; intros H; by apply not_elem_of_nil in H|]. rewrite jobs_of_cons. rewrite elem_of_cons.
  case_bool_decide as E.
  - subst. rewrite elem_of_cons, IH. split; (intros [H|H]; [left; congruence|by right]).
  - rewrite IH. split; [by right|]. intros [H|H]; [congruence|done].
Qed.

Lemma received_ok o l i c data : inv o l -> conns o !! i = Some c -> (i, JFirst) ∉ jobs o -> bytes_ok data -> zlen data <= udp_mtu o ->
  exists o' r, datagram_received o i data = Some (o', r) /\ inv o' l /\
    match (if is_dns c then Some (remote_addr (conaddr c), data) else parse_header data) with
    | None => r = None /\ abs o' l = abs o l
    | Some (ra, d) => r = Some (mk_received (local_addr (conaddr c)) ra d) /\ abs o' l = update (abs o l) (local_addr (conaddr c)) ra (is_dns c)
    end.
Proof.
  intros I Hc Hno Hb Hz. pose proof (i_con _ _ I i c Hc) as (Hm & Hr & Hl & Ha & Ht & q & g & firsts & Hok & Hji & Hfi).
  assert (firsts = []) as -> by (eapply no_first; [|exact Hji|exact Hfi]; by rewrite elem_jobs_of).
  destruct (recv_cycle _ _ data Hr Hz) as (rb1 & rb2 & rb3 & E1 & E2 & E3 & Hr3).
  unfold datagram_received. rewrite Hc. cbn [mbind option_bind]. rewrite E1. cbn [mbind option_bind]. rewrite E2.
  cbn [mbind option_bind head]. unfold dgram_handler_received. rewrite Hc. cbn [mbind option_bind].
  rewrite (i_gw _ _ I). bool_true.
  assert (forall a dns, local_addr a = local_addr (conaddr c) -> addr_ok (remote_addr a) -> (addr_type (remote_addr a) = 1 \/ addr_type (remote_addr a) = 2) ->
    let c' := with_recv_buffer (with_conaddr c a dns) rb3 in
    inv (with_conns o (<[i := c']> (conns o))) l /\
    abs (with_conns o (<[i := c']> (conns o))) l = update (abs o l) (local_addr (conaddr c)) (remote_addr a) dns) as Hset.
  { intros a dns Hla Hra Hty c'.
    replace (with_conns o (<[i := c']> (conns o))) with (with_jobs (with_conns o (<[i := c']> (conns o))) (jobs o)) by done. split.
    - apply (set_con o l i c); try done; [apply (i_jobs _ _ I)|]. split; [done|]. split; [done|]. simpl. rewrite Hla.
      do 3 (split; [done|]). exists q, g, []. split; [done|]. split; [done|by left].
    - by apply (abs_update o l i c c'). }
  destruct (is_dns c) eqn:Ed; cbn [negb].
  - cbn [mbind option_bind]. cbn [with_conns udp_mtu]. bool_false. cbn [mbind option_bind]. rewrite E3. cbn [mbind option_bind with_conns conns]. rewrite lookup_insert_eq. cbn [mbind option_bind]. rewrite insert_insert_eq. do 2 eexists. split; [done|].
    destruct (Hset (mk_conaddr (local_addr (conaddr c)) (remote_addr (conaddr c))) (is_dns c)) as [H1 H2]; [done..|]. rewrite Ed in H1, H2.
    split; [exact H1|]. split; [done|exact H2].
  - destruct (parse_header data) as [[ra d]|] eqn:Ep; cbn [mbind option_bind].
    + destruct (parse_header_ok _ _ _ Hb Ep) as (Hra & Hty & Hd). cbn [with_conns udp_mtu]. bool_false. cbn [mbind option_bind]. rewrite E3. cbn [mbind option_bind with_conns conns]. rewrite lookup_insert_eq. cbn [mbind option_bind].
      rewrite insert_insert_eq. do 2 eexists. split; [done|]. destruct (Hset (mk_conaddr (local_addr (conaddr c)) ra) (is_dns c)) as [H1 H2]; [done..|]. rewrite Ed in H1, H2.
      split; [exact H1|]. split; [done|exact H2].
    + rewrite E3. cbn [mbind option_bind]. rewrite Hc. cbn [mbind option_bind]. do 2 eexists. split; [done|].
      replace (with_conns o (<[i := with_recv_buffer c rb3]> (conns o)))
        with (with_jobs (with_conns o (<[i := with_recv_buffer c rb3]> (conns o))) (jobs o)) by done.
      split; [|split; [done|by apply (abs_set o l i c)]].
      apply (set_con o l i c); try done; [apply (i_jobs _ _ I)|]. do 5 (split; [done|]). exists q, g, []. split; [done|]. split; [done|by left].
Qed.

(** *** Connections come and go *)
Lemma con_free_ok o i l : inv o (i :: l) -> jobs o = [] ->
  exists o', connection_free o i = Some o' /\ inv o' l /\ abs o' l = abs o l /\ jobs o' = [] /\ conns o' = delete i (conns o) /\
    udp_mtu o' = udp_mtu o /\ max_connections o' = max_connections o /\ num_connections o' = num_connections o - 1 /\
    dnsgw o' = dnsgw o /\ socks_server_addr o' = socks_server_addr o.
Proof.
  intros I Hj. pose proof (inv_keys _ _ I) as Hk. destruct I as [I1 I2 I3 I4 I5 I6 I7 I8 I9 I10].
  assert (i ∉ l) as Hil by (destruct I4 as (Hn & _); by apply list.NoDup_cons in Hn as [? _]).
  destruct (proj1 (I5 i)) as [c Hc]; [by left|]. unfold connection_free. rewrite Hc. simpl.
  destruct (LinkedList1.remove_ok _ [] i l I4) as (s & E & R & _). rewrite E. simpl.
  destruct (tr_remove_ok _ _ _ i I6 Hk) as (tr & Et & Rt); [apply elem_of_list_to_set; by left|]. rewrite Et. simpl. rewrite Hj. simpl.
  eexists. split; [done|]. split; [|split; [apply abs_ext; intros k Hk'; simpl; apply lookup_delete_ne; by intros ->|done]].
  assert (list_to_set (i :: l) ∖ {[i]} = (list_to_set l : gset positive)) as Es.
  { apply set_eq. intros x. rewrite elem_of_difference, elem_of_singleton, !elem_of_list_to_set, elem_of_cons. split; [tauto|].
    intros Hx. split; [by right|]. by intros ->. }
  constructor; simpl; try done.
  - eapply LinkedList1.rep_ext; [exact R|done|done|]. intros x Hx. simpl. apply lookup_delete_ne. by intros ->.
  - intros k. destruct (decide (k = i)) as [-> |Hn].
    + rewrite lookup_delete_eq. split; [done|by intros [? ?]].
    + rewrite lookup_delete_ne, <- I5, elem_of_cons by done. tauto.
  - rewrite <- Es. eapply tr_ext; [exact Rt|]. intros k Hk'. unfold keys. simpl. rewrite lookup_delete_ne; [done|].
    intros ->. apply elem_of_difference in Hk' as [_ Hk']. by apply Hk', elem_of_singleton.
  - simpl in I7. lia.
  - intros a b ca cb Ha Hb. apply lookup_delete_Some in Ha as [_ Ha]. apply lookup_delete_Some in Hb as [_ Hb]. by apply I8.
  - intros k Hk'. by apply not_elem_of_nil in Hk'.
  - intros k d Hd. apply lookup_delete_Some in Hd as [_ Hd]. apply I10 in Hd. by rewrite Hj in Hd.
Qed.

Context (malloc_size : forall n m, malloc n = Some m -> zlen m = n).

Lemma recv_buffer_init mtu : 0 <= mtu ->
  SinglePacketBuffer.SinglePacketBuffer_Init malloc mtu mtu = Some (inl tt) \/
  exists rb, SinglePacketBuffer.SinglePacketBuffer_Init malloc mtu mtu = Some (inr rb) /\ recv_ready mtu rb.
Proof using malloc_size.
  intros Hm. destruct (SinglePacketBuffer.SinglePacketBuffer_Init malloc mtu mtu) as [[[]|rb]|] eqn:E.
  - by left.
  - right. exists rb. split; [done|].
    destruct (SinglePacketBuffer.single_init_inv malloc (fun n m _ => malloc_size n m) _ _ _ Hm E) as (_ & H1 & H2 & H3 & [(H4 & H5 & _)|(len & _ & _ & _ & H)]).
    + done.
    + done.
  - exfalso. revert E. unfold SinglePacketBuffer.SinglePacketBuffer_Init, PacketRecvInterface_Receiver_Recv. bool_true.
    destruct (SinglePacketBuffer.BAlloc malloc mtu); [|done]. by rewrite orb_true_r.
Qed.

(** Nothing stands in the way of a new connection. *)
Definition can_create (an : answers) : Prop :=
  is_Some (a_con an) /\ a_dgram an = true /\ a_reuse an = true /\ forall n, 0 <= n -> is_Some (malloc n).

Lemma con_init_ok o l a data dns an : inv o l -> jobs o = [] -> Z.of_nat (length l) < max_connections o ->
  addr_ok (local_addr a) -> addr_ok (remote_addr a) -> addr_type (remote_addr a) = 1 \/ addr_type (remote_addr a) = 2 ->
  (forall i c, conns o !! i = Some c -> local_addr (conaddr c) <> local_addr a) ->
  (forall con, a_con an = Some con -> conns o !! con = None) ->
  (connection_init o a data dns an = Some o /\ ~ can_create an) \/
  exists o' con c, connection_init o a data dns an = Some o' /\ a_con an = Some con /\ inv o' (l ++ [con]) /\
    jobs o' = [(con, JPath SendPath.JOp); (con, JFirst)] /\ conns o' = <[con := c]> (conns o) /\
    conaddr c = a /\ is_dns c = dns /\ first_data c = data /\ (send_addr c = if dns then dnsgw o else socks_server_addr o) /\ udp_mtu o' = udp_mtu o.
Proof using malloc_size.
  intros I Hj Hlen Hla Hra Hty Hnew Hfresh. pose proof (inv_keys _ _ I) as Hk. destruct I as [I1 I2 I3 I4 I5 I6 I7 I8 I9 I10].
  unfold connection_init. unfold can_create. destruct (a_con an) as [con|] eqn:Ea; [|left; split; [done|]; by intros ([? ?] & _)].
  specialize (Hfresh con eq_refl). destruct (a_dgram an); [|left; split; [done|]; by intros (_ & ? & _)].
  destruct (a_reuse an); [|left; split; [done|]; by intros (_ & _ & ? & _)]. simpl. destruct I1 as [Hmtu Hsz].
  destruct (SendPath.path_init_ok malloc malloc_size (udp_mtu o) (udp_mtu o) CONNECTION_UDP_BUFFER_SIZE Hmtu) as [Ep|(p & -> & Hok & Hmp)]; [lia|done|done| |].
  { rewrite Ep. left. split; [done|]. intros (_ & _ & _ & Hm).
    by destruct (SendPath.path_init_alloc malloc (udp_mtu o) (udp_mtu o) CONNECTION_UDP_BUFFER_SIZE Hmtu ltac:(lia) ltac:(done) Hsz Hm). }
  simpl. destruct (recv_buffer_init (udp_mtu o)) as [Er|(rb & -> & Hrb)]; [lia| |].
  { rewrite Er. left. split; [done|]. intros (_ & _ & _ & Hm). revert Er.
    unfold SinglePacketBuffer.SinglePacketBuffer_Init, SinglePacketBuffer.BAlloc, PacketRecvInterface_Receiver_Recv. bool_true.
    destruct (Hm 1) as [m1 ->]; [lia|]. destruct (Hm (udp_mtu o)) as [m2 ->]; [lia|]. rewrite orb_true_r. by destruct (udp_mtu o =? 0). }
  simpl. right.
  assert (con ∉ l) as Hcl by (intros H; apply I5 in H as [? ?]; congruence).
  set (c := mk_con a data dns (if dns then dnsgw o else socks_server_addr o) p rb). set (o1 := with_conns o (<[con := c]> (conns o))).
  assert (forall k, k ∈ (list_to_set l : gset positive) -> keys o1 k = keys o k) as Hkeys.
  { intros k Hk'. unfold keys. simpl. rewrite lookup_insert_ne; [done|]. intros ->. by apply elem_of_list_to_set in Hk'. }
  assert (keys o1 con = Some (local_addr a)) as Hkc by (unfold keys; simpl; by rewrite lookup_insert_eq).
  destruct (tr_insert_ok (keys o1) (connections_tree o) (list_to_set l) con (local_addr a)) as (tr & Et & Rt); [by eapply tr_ext| | |done|done| |].
  { intros k Hk'. destruct (Hk k Hk') as (b & Hb & ?). exists b. by rewrite Hkeys. }
  { by rewrite elem_of_list_to_set. }
  { intros j b Hjl Hb. rewrite Hkeys in Hb by done. unfold keys in Hb. destruct (conns o !! j) as [d|] eqn:Hd; [|done].
    simpl in Hb. injection Hb as <-. rewrite compare_eq; [|done|apply (I10 j d Hd)]. intros E. by apply (Hnew j d). }
  change (connections_tree o1) with (connections_tree o). rewrite Et. simpl.
  destruct (LinkedList1.append_ok (LinkedList1.with_node (connections_list o) con (LinkedList1.mk_node None None)) con) with (l := l) as (ls & El & Rl & _).
  { simpl. rewrite lookup_insert_eq. by eexists. }
  { eapply LinkedList1.rep_ext; [exact I4|done|done|]. intros x Hx. simpl. apply lookup_insert_ne. by intros ->. }
  { done. }
  rewrite El. simpl. eexists _, con, c. split; [done|]. split; [done|]. split; [|simpl; by rewrite Hj].
  constructor; simpl; try done.
  - intros k. rewrite elem_of_app, list_elem_of_singleton. destruct (decide (k = con)) as [-> |Hn].
    + rewrite lookup_insert_eq. split; [by eexists|by right].
    + rewrite lookup_insert_ne, I5 by done. split; [by intros [?|?]|by left].
  - replace (list_to_set (l ++ [con]) : gset positive) with ({[con]} ∪ list_to_set l : gset positive); [exact Rt|].
    apply set_eq. intros x. rewrite elem_of_union, elem_of_singleton, !elem_of_list_to_set, elem_of_app, list_elem_of_singleton. tauto.
  - rewrite length_app. simpl. lia.
  - intros x y cx cy Hx Hy E. destruct (decide (x = con)) as [-> |Hxn], (decide (y = con)) as [-> |Hyn]; try done.
    + rewrite lookup_insert_eq in Hx. rewrite lookup_insert_ne in Hy by done. injection Hx as <-. by destruct (Hnew y cy Hy).
    + rewrite lookup_insert_eq in Hy. rewrite lookup_insert_ne in Hx by done. injection Hy as <-. by destruct (Hnew x cx Hx).
    + rewrite lookup_insert_ne in Hx, Hy by done. by apply (I8 x y cx cy).
  - rewrite Hj. intros k. rewrite !elem_of_cons. intros [->|[->|H]]; [| |by apply not_elem_of_nil in H]; simpl; by rewrite lookup_insert_eq.
  - intros k d. rewrite Hj, !jobs_of_cons. destruct (decide (k = con)) as [-> |Hn].
    + rewrite lookup_insert_eq. intros [= <-]. rewrite bool_decide_true by done. split; [done|]. split; [done|]. do 3 (split; [done|]).
      exists [], SendPath.Asked, [JFirst]. split; [done|]. split; [done|]. right. split; [done|]. split; [done|by left].
    + rewrite lookup_insert_ne, bool_decide_false by done. intros Hd. apply I10 in Hd. by rewrite Hj in Hd.
Qed.

(** *** The list of connections and its specification *)
Lemma abs_length o l : (forall i, i ∈ l -> is_Some (conns o !! i)) -> length (abs o l) = length l.
Proof.
  induction l as [|i l IH]; intros H; [done|]. rewrite abs_cons. destruct (H i) as [c ->]; [by left|]. simpl. f_equal. apply IH.
  intros k Hk. apply H. by right.
Qed.

Lemma abs_find o l i c : inv o l -> conns o !! i = Some c -> spec_find (abs o l) (local_addr (conaddr c)) = Some (entry_of c).
Proof.
  intros I Hi. pose proof (i_inj _ _ I) as Hinj. assert (i ∈ l) as Hil by (apply (i_dom _ _ I); by eexists). clear I.
  induction l as [|k l IH]; [by apply not_elem_of_nil in Hil|]. rewrite abs_cons. destruct (decide (k = i)) as [-> |Hn].
  - rewrite Hi. unfold spec_find. simpl. by rewrite bool_decide_true.
  - apply elem_of_cons in Hil as [?|Hil]; [done|]. destruct (conns o !! k) as [d|] eqn:Hk; [|by apply IH].
    unfold spec_find. simpl. rewrite bool_decide_false; [by apply IH|]. intros E. apply Hn. by apply (Hinj k i d c).
Qed.

Lemma abs_find_none o l la : (forall i c, conns o !! i = Some c -> local_addr (conaddr c) <> la) -> spec_find (abs o l) la = None.
Proof.
  intros H. induction l as [|k l IH]; [done|]. rewrite abs_cons. destruct (conns o !! k) as [d|] eqn:Hk; [|done].
  unfold spec_find. simpl. rewrite bool_decide_false; [done|]. by apply (H k d).
Qed.

Lemma abs_others o l i c : inv o l -> conns o !! i = Some c -> others (abs o l) (local_addr (conaddr c)) = abs o (without i l).
Proof.
  intros I Hi. pose proof (i_inj _ _ I) as Hinj. clear I. induction l as [|k l IH]; [done|]. unfold others, without in *.
  rewrite abs_cons. destruct (decide (k = i)) as [-> |Hn].
  - rewrite Hi, !filter_cons_False; [done|intros H; by apply H|by intros ?].
  - rewrite (filter_cons_True _ k) by done. rewrite abs_cons. destruct (conns o !! k) as [d|] eqn:Hk; [|done].
    rewrite filter_cons_True; [by rewrite IH|]. intros E. apply Hn. by apply (Hinj k i d c).
Qed.

Lemma others_update l la ra dns : others (update l la ra dns) la = others l la.
Proof.
  unfold others, update. induction l as [|e l IH]; [done|]. rewrite fmap_cons. case_bool_decide as E.
  - rewrite !filter_cons_False; [done|by intros ?|by intros ?].
  - rewrite !filter_cons_True by done. by rewrite IH.
Qed.

(** The connections in another order. *)
Lemma inv_perm o l ls l' : inv o l -> LinkedList1.rep ls l' -> Permutation l' l -> inv (with_list o ls) l'.
Proof.
  intros [I1 I2 I3 I4 I5 I6 I7 I8 I9 I10] R P. constructor; simpl; try done.
  - intros i. rewrite P. apply I5.
  - replace (list_to_set l' : gset positive) with (list_to_set l : gset positive); [done|].
    apply set_eq. intros x. rewrite !elem_of_list_to_set. by rewrite P.
  - by rewrite P.
Qed.

(** A packet for a connection that exists. *)
Lemma submit_known o l i c la ra dns data an : inv o l -> jobs o = [] -> ip_addr la -> ip_addr ra ->
  zlen data <= udp_mtu o -> find_connection o (mk_conaddr la ra) dns = Some (Some i) ->
  conns o !! i = Some c -> local_addr (conaddr c) = la -> (path_ready c = true -> header_len ra dns + zlen data <= udp_mtu o) ->
  exists o' l' q, SocksUdpGwClient_SubmitPacket o la ra dns data an = Some o' /\ inv o' l' /\ queued o i q /\
    (if path_ready c
     then abs o' l' = others (abs o l) la ++ [mk_entry la ra dns (send_addr c)] /\ queued o' i (q ++ [udp_message ra dns data])
     else abs o' l' = update (abs o l) la ra dns /\ queued o' i q) /\
    forall k, (k, JFirst) ∉ jobs o'.
Proof.
  intros I Hj [Hla Hlt] [Hra Hrt] Hz Hf Hi <- Hfit. pose proof (i_con _ _ I i c Hi) as (Hm & Hr & _ & _ & _ & q & g & firsts & Hok & Hji & Hfi).
  rewrite Hj in Hji. assert (firsts = []) as -> by (apply (no_first [] q g firsts); [apply not_elem_of_nil|done|done]).
  unfold SocksUdpGwClient_SubmitPacket. pose proof (zlen_nonneg data). assert (0 <= header_len ra dns) by (unfold header_len; repeat case_match; lia).
  do 3 bool_true. rewrite Hf. cbn [mbind option_bind]. rewrite bool_decide_false by done. cbn [andb mbind option_bind].
  unfold reset_connection. rewrite Hi. cbn [mbind option_bind]. set (c1 := with_conaddr c (mk_conaddr (local_addr (conaddr c)) ra) dns).
  set (o1 := with_conns o (<[i := c1]> (conns o))).
  assert (o1 = with_jobs o1 (jobs o)) as Eo1 by done.
  assert (inv o1 l) as I1.
  { rewrite Eo1. apply (set_con o l i c); try done; [apply (i_jobs _ _ I)|]. rewrite Hj. do 5 (split; [done|]). exists q, g, [].
    split; [done|]. split; [done|by left]. }
  assert (abs o1 l = update (abs o l) (local_addr (conaddr c)) ra dns) as A1 by (rewrite Eo1; by apply (abs_update o l i c c1)).
  assert (conns o1 !! i = Some c1) as Hi1 by (simpl; by rewrite lookup_insert_eq).
  assert (queued o i (SendPath.queue (send_path c) q g)) as Q by (by exists c, q, g).
  destruct (send_in_ok o1 l i c1 data I1 Hi1 Hfit) as (q' & g' & Hok' & H'); [simpl; rewrite Hj; apply not_elem_of_nil|].
  destruct H' as [(Hg & ->)|(-> & o2 & -> & I2 & A2 & El & Et & En & Emx & _ & _ & Q2 & J2 & _)].
  - cbn [mbind option_bind negb]. exists o1, l, (SendPath.queue (send_path c) q g). split; [done|]. split; [done|]. split; [done|].
    destruct (path_ready c) eqn:Epr; [apply (path_ready_stage c q' g' Hok') in Epr; done|].
    split; [split; [done|]; by exists c1, q, g|]. intros k. cbn. rewrite Hj. apply not_elem_of_nil.
  - cbn [mbind option_bind negb]. assert (path_ready c = true) as Epr by (by apply (path_ready_stage c q' _ Hok')).
    assert (i ∈ l) as Hil by (apply (i_dom _ _ I); by eexists).
    destruct (LinkedList1.cut l i (proj1 (i_list _ _ I)) Hil) as (l1 & l2 & -> & Hn1 & Hw).
    rewrite El. simpl connections_list. destruct (LinkedList1.remove_ok _ _ _ _ (i_list _ _ I)) as (s1 & -> & R1 & O1). cbn [mbind option_bind].
    assert (i ∉ l1 ++ l2) as Hni by (rewrite <- Hw; unfold without; rewrite list_elem_of_filter; by intros [? _]).
    destruct (LinkedList1.append_ok s1 i) with (l := l1 ++ l2) as (s2 & -> & R2 & _); [|done|done|].
    { rewrite O1 by done. destruct (i_list _ _ I) as (_ & _ & _ & [_ [E _]]%LinkedList1.dll_app). rewrite E. by eexists. }
    cbn [mbind option_bind]. eexists _, ((l1 ++ l2) ++ [i]), q'. split; [done|]. split; [|split; [by exists c, q', SendPath.Ready|]].
    + eapply inv_perm; [exact I2|done|]. etrans; [apply Permutation_app_comm|]. simpl. apply Permutation_middle.
    + rewrite Epr. split; [|intros k; cbn; rewrite J2; cbn; rewrite Hj; by intros [[=]|?%not_elem_of_nil]%elem_of_cons]. split; [|done].
      change (abs (with_list o2 s2)) with (abs o2). rewrite abs_app, !A2, <- Hw.
      change (without i (l1 ++ i :: l2)) with (without i (l1 ++ i :: l2)).
      rewrite <- (abs_others o1 (l1 ++ i :: l2) i c1 I1 Hi1). change (local_addr (conaddr c1)) with (local_addr (conaddr c)).
      rewrite A1, others_update, abs_cons, Hi1. done.
Qed.

(** A packet from a new local address. *)
Lemma submit_new o l la ra dns data an : inv o l -> jobs o = [] -> ip_addr la -> ip_addr ra ->
  zlen data <= udp_mtu o -> (forall con, a_con an = Some con -> conns o !! con = None) ->
  find_connection o (mk_conaddr la ra) dns = Some None -> (forall i c, conns o !! i = Some c -> local_addr (conaddr c) <> la) ->
  let kept := if Z.of_nat (length (abs o l)) =? max_connections o then tail (abs o l) else abs o l in
  exists o' l', SocksUdpGwClient_SubmitPacket o la ra dns data an = Some o' /\ inv o' l' /\ udp_mtu o' = udp_mtu o /\
    ((abs o' l' = kept /\ jobs o' = [] /\ ~ can_create an) \/
     exists con c, a_con an = Some con /\ conns o' !! con = Some c /\ jobs o' = [(con, JPath SendPath.JOp); (con, JFirst)] /\
       abs o' l' = kept ++ [mk_entry la ra dns (if dns then dnsgw o else socks_server_addr o)] /\
       conaddr c = mk_conaddr la ra /\ is_dns c = dns /\ first_data c = data /\
       send_addr c = if dns then dnsgw o else socks_server_addr o).
Proof using malloc_size.
  intros I Hj [Hla Hlt] [Hra Hrt] Hfit Hfresh Hf Hnew kept.
  assert (length (abs o l) = length l) as Hlen by (apply abs_length; intros i Hi; by apply (i_dom _ _ I)).
  unfold SocksUdpGwClient_SubmitPacket. pose proof (zlen_nonneg data). assert (0 <= header_len ra dns) by (unfold header_len; repeat case_match; lia).
  do 3 bool_true. rewrite Hf. cbn [mbind option_bind]. rewrite bool_decide_true by done. cbn [andb].
  assert (exists o1 l1, (if num_connections o =? max_connections o then remove_lru_connection o (mk_conaddr la ra) dns else Some o) = Some o1 /\
    inv o1 l1 /\ abs o1 l1 = kept /\ jobs o1 = [] /\ Z.of_nat (length l1) < max_connections o1 /\ udp_mtu o1 = udp_mtu o /\
    dnsgw o1 = dnsgw o /\ socks_server_addr o1 = socks_server_addr o /\
    (forall i c, conns o1 !! i = Some c -> conns o !! i = Some c)) as (o1 & l1 & -> & I1 & A1 & J1 & L1 & M1 & G1 & S1 & C1).
  { pose proof (i_num _ _ I) as [Hn Hmax]. pose proof (i_max _ _ I). unfold kept. rewrite Hlen, Hn. case_if.
    - destruct l as [|i l]; [simpl in *; lia|]. unfold remove_lru_connection. rewrite Hf. cbn [mbind option_bind].
      rewrite bool_decide_true by done. rewrite Hn. bool_true. pose proof (i_list _ _ I) as (_ & Hfst & _). unfold LinkedList1.LinkedList1_GetFirst.
      rewrite Hfst. cbn [LinkedList1.head_or mbind option_bind].
      destruct (con_free_ok o i l I Hj) as (o1 & -> & I1 & A1 & J1 & Ec & M1 & X1 & N1 & G1 & S1). exists o1, l. split; [done|]. split; [done|].
      split; [|do 1 (split; [done|]); split; [simpl in *; lia|]; do 3 (split; [done|])].
      + rewrite A1, abs_cons. destruct (proj1 (i_dom _ _ I i)) as [c ->]; [by left|]. done.
      + intros k c. rewrite Ec. intros [_ ?]%lookup_delete_Some. done.
    - exists o, l. do 3 (split; [done|]). split; [done|]. split; [lia|]. done. }
  cbn [mbind option_bind].
  destruct (con_init_ok o1 l1 (mk_conaddr la ra) data dns an I1 J1 L1 Hla Hra Hrt) as [[-> Hno]|(o2 & con & c & -> & Ea & I2 & J2 & Ec & Eca & Ed & Ef & Es & M2)].
  - intros i c Hc. by apply (Hnew i c), C1.
  - intros con Hcon. destruct (conns o1 !! con) eqn:E; [|done]. apply C1 in E. by rewrite (Hfresh con Hcon) in E.
  - exists o1, l1. split; [done|]. split; [done|]. split; [done|]. by left.
  - exists o2, (l1 ++ [con]). split; [done|]. split; [done|]. split; [by rewrite M2|]. right. exists con, c. split; [done|].
    assert (conns o2 !! con = Some c) as Hc2 by (rewrite Ec; by rewrite lookup_insert_eq). split; [done|]. split; [done|].
    rewrite <- G1, <- S1. split; [|done].
    rewrite abs_app, abs_cons, Hc2. f_equal.
    + rewrite (abs_ext o1 o2 l1), A1; [done|]. intros k Hk. rewrite Ec, lookup_insert_ne; [done|]. intros ->.
      apply (i_dom _ _ I1) in Hk as [x Hx]. apply C1 in Hx. by rewrite (Hfresh k Ea) in Hx.
    + unfold abs. simpl. unfold entry_of. rewrite Eca, Ed, Es. done.
Qed.

(** The operation job of a path: the writer has its place. *)
Lemma op_job_ok o l i js : inv o l -> jobs o = (i, JPath SendPath.JOp) :: js ->
  exists o' c p, run_job o = Some o' /\ inv o' l /\ conns o !! i = Some c /\ jobs o' = js /\ conns o' = <[i := with_path c p]> (conns o) /\ udp_mtu o' = udp_mtu o.
Proof.
  intros I Hj. destruct (path_job_ok _ _ _ _ _ I Hj) as (o' & E & I' & _). exists o'.
  destruct (i_jobs _ _ I (i, JPath SendPath.JOp)) as [c Hc]; [rewrite Hj; by left|]. simpl in Hc. exists c.
  pose proof (i_con _ _ I i c Hc) as (_ & _ & _ & _ & _ & q & g & firsts & Hok & Hji & Hfi).
  rewrite Hj, jobs_of_cons, bool_decide_true in Hji by done.
  assert (g = SendPath.Asked) as ->.
  { destruct g as [| | |len]; simpl in Hji; try done; destruct Hfi as [->|(-> & _)]; done. }
  destruct (SendPath.run_op_ok _ _ _ Hok) as (p & Ep & _ & _). exists p. split; [done|]. split; [done|]. split; [done|].
  unfold run_job in E. rewrite Hj in E. cbn [mbind option_bind with_jobs conns] in E. rewrite Hc in E. cbn [mbind option_bind] in E.
  rewrite Ep in E. cbn [mbind option_bind] in E. injection E as <-. done.
Qed.

(** *** Every event *)

(** [es]: the connections, the least recently used first. *)
Definition order (o : t) (es : list entry) : Prop := exists l, LinkedList1.rep (connections_list o) l /\ abs o l = es.

(** The connection for [la] exists and has a place for a packet. *)
Definition accepts (o : t) (la : BAddr) : bool :=
  match find_connection o (mk_conaddr la la) false with
  | Some (Some i) => match conns o !! i with Some c => path_ready c | None => false end
  | _ => false
  end.

(** The tree is asked for the local address only. *)
Lemma find_local o la ra ra' dns dns' : find_connection o (mk_conaddr la ra) dns = find_connection o (mk_conaddr la ra') dns'.
Proof. unfold find_connection. simpl. destruct (tr_lookup _ _ _) as [i|]; [|done]. by destruct (conns o !! i). Qed.

Lemma enabled_submit o la ra dns data an : enabled o (ESubmit la ra dns data an) = true ->
  jobs o = [] /\ ip_addr la /\ ip_addr ra /\ zlen data <= udp_mtu o /\
  (forall con, a_con an = Some con -> conns o !! con = None).
Proof.
  simpl. intros H. apply andb_true_iff in H as [H H5]. apply andb_true_iff in H as [H H4]. apply andb_true_iff in H as [H H3].
  apply andb_true_iff in H as [H1 H2]. rewrite !bool_decide_eq_true in *. apply Z.leb_le in H4. do 4 (split; [done|]).
  intros con E. rewrite E in H5. by apply bool_decide_eq_true in H5.
Qed.

(** What an event does to the connections [es]. *)
Definition effect (o : t) (es : list entry) (e : event) (o' : t) (r : option received) : Prop :=
  match e with
  | ESubmit la ra dns data an => r = None /\ exists created, (can_create an -> created = true) /\
      order o' (spec_submit (max_connections o) (if dns then dnsgw o else socks_server_addr o) es la ra dns (accepts o la) created)
  | EJob | ESent _ => r = None /\ order o' es
  | EReceived con data => exists c, conns o !! con = Some c /\
      match (if is_dns c then Some (remote_addr (conaddr c), data) else parse_header data) with
      | None => r = None /\ order o' es
      | Some (ra, d) => r = Some (mk_received (local_addr (conaddr c)) ra d) /\ order o' (update es (local_addr (conaddr c)) ra (is_dns c))
      end
  end.

Lemma inv_order o l : inv o l -> order o (abs o l).
Proof. intros I. exists l. split; [apply I|done]. Qed.

(** The data is written behind the end of the place for it: [SocksUdpGwClient_SubmitPacket] admits packets of up to [udp_mtu] bytes, and
    the place has as many, for the header too. *)
Definition overrun (o : t) (e : event) : bool :=
  match e with
  | ESubmit la ra dns data _ => accepts o la && (udp_mtu o <? header_len ra dns + zlen data)
  | EJob => match jobs o with
      | (i, JFirst) :: _ => match conns o !! i with Some c => udp_mtu o <? header_len (remote_addr (conaddr c)) (is_dns c) + zlen (first_data c) | None => false end
      | _ => false
      end
  | _ => false
  end.
(** The packets that wait for their first job fit with their headers, and the one that is submitted does. *)
Definition firsts_fit (o : t) : Prop := forall i c, (i, JFirst) ∈ jobs o -> conns o !! i = Some c -> fits (udp_mtu o) c (first_data c).
Definition packet_fits (o : t) (e : event) : bool := match e with ESubmit _ ra dns data _ => header_len ra dns + zlen data <=? udp_mtu o | _ => true end.

Lemma write_out_mtu p out off d p' : SendPath.write_out p out off d = Some p' -> BufferWriter.d_mtu (SendPath.wr p') = BufferWriter.d_mtu (SendPath.wr p).
Proof. unfold SendPath.write_out. case_if; [|done]. by intros [= <-]. Qed.
Lemma write_header_len c p out p' n : write_header c p out = Some (p', n) -> addr_type (remote_addr (conaddr c)) = 1 \/ addr_type (remote_addr (conaddr c)) = 2 ->
  n = header_len (remote_addr (conaddr c)) (is_dns c) /\ BufferWriter.d_mtu (SendPath.wr p') = BufferWriter.d_mtu (SendPath.wr p).
Proof.
  unfold write_header, header_len. destruct (is_dns c); cbn [negb]; [by intros [= <- <-]|]. intros E Ht. destruct (SendPath.write_out p out 0 _) as [p1|] eqn:E1; [|done]. cbn [mbind option_bind] in E.
  apply write_out_mtu in E1. destruct (remote_addr (conaddr c)) as [|ip port|ip port|]; try (by destruct Ht).
  all: destruct (SendPath.write_out p1 out _ _) as [p2|] eqn:E2; [|done]; cbn [mbind option_bind] in E; injection E as <- <-; apply write_out_mtu in E2; split; [done|congruence].
Qed.
Lemma connection_send_overrun c q data mtu : SendPath.ok (send_path c) q CONNECTION_UDP_BUFFER_SIZE SendPath.Ready ->
  addr_type (remote_addr (conaddr c)) = 1 \/ addr_type (remote_addr (conaddr c)) = 2 -> PacketBuffer.input_mtu (SendPath.pb (send_path c)) = mtu ->
  mtu < header_len (remote_addr (conaddr c)) (is_dns c) + zlen data -> connection_send c data = None.
Proof.
  intros Hok Ht <- Hz. destruct (SendPath.path_start_ok _ _ _ Hok) as (p0 & d & E0 & W0 & M0). pose proof (SendPath.w_mtu _ _ _ _ _ W0) as Hm.
  unfold connection_send. rewrite E0. cbn [mbind option_bind]. destruct (write_header c p0 d) as [[p1 n]|] eqn:E1; [|done]. cbn [mbind option_bind].
  apply write_header_len in E1 as [-> E1]; [|done]. unfold SendPath.write_out. rewrite E1, Hm, M0. by bool_false.
Qed.

Lemma submit_overruns o l la ra dns data an : inv o l -> enabled o (ESubmit la ra dns data an) = true -> overrun o (ESubmit la ra dns data an) = true -> exec o (ESubmit la ra dns data an) = None.
Proof.
  intros I He Ho. apply enabled_submit in He as (Hj & Hla & Hra & Hz & _). cbn [overrun exec] in *. apply andb_true_iff in Ho as [Hacc Hlong%Z.ltb_lt]. unfold accepts in Hacc. rewrite (find_local o la la ra false dns) in Hacc.
  unfold SocksUdpGwClient_SubmitPacket. destruct Hla as [_ Hlt], Hra as [Hra Hrt]. do 3 bool_true. destruct (find_connection o (mk_conaddr la ra) dns) as [[i|]|] eqn:Ef; [|done..]. cbn [mbind option_bind].
  destruct (conns o !! i) as [c|] eqn:Hc; [|done]. rewrite bool_decide_false by done. cbn [andb mbind option_bind]. unfold reset_connection. rewrite Hc. cbn [mbind option_bind]. unfold connection_send_in. cbn [conns with_conns]. rewrite lookup_insert_eq. cbn [mbind option_bind].
  pose proof (i_con _ _ I i c Hc) as (Hm & _ & _ & _ & _ & q & g & firsts & Hok & _). apply (path_ready_stage _ _ _ Hok) in Hacc as ->.
  by rewrite (connection_send_overrun (with_conaddr c (mk_conaddr la ra) dns) q data (udp_mtu o)).
Qed.
Lemma first_overruns o l : inv o l -> overrun o EJob = true -> exec o EJob = None.
Proof.
  intros I Ho. cbn [overrun exec] in *. destruct (jobs o) as [|[i [|j]] js] eqn:Hj; [done| |done]. destruct (conns o !! i) as [c|] eqn:Hc; [|done]. apply Z.ltb_lt in Ho.
  pose proof (i_con _ _ I i c Hc) as (Hm & _ & _ & _ & Ht & q & g & firsts & Hok & Hji & Hfi). rewrite Hj, jobs_of_cons, bool_decide_true in Hji by done.
  destruct Hfi as [-> |(-> & -> & Hg)]; [rewrite app_nil_r in Hji; by destruct g|]. assert (g = SendPath.Ready) as -> by (by destruct Hg as [-> | ->]).
  unfold run_job. rewrite Hj. unfold connection_first_job_handler, connection_send_in. cbn [conns with_jobs]. rewrite Hc. cbn [mbind option_bind].
  by rewrite (connection_send_overrun c [] (first_data c) (udp_mtu o)).
Qed.

Lemma submit_effect o l la ra dns data an : inv o l -> enabled o (ESubmit la ra dns data an) = true -> overrun o (ESubmit la ra dns data an) = false ->
  exists o' l', exec o (ESubmit la ra dns data an) = Some (o', None) /\ inv o' l' /\ effect o (abs o l) (ESubmit la ra dns data an) o' None.
Proof using malloc_size.
  intros I He. apply enabled_submit in He as (Hj & Hla & Hra & Hz & Hfr). unfold overrun, effect, spec_submit, accepts. rewrite (find_local o la la ra false dns). intros Ho. simpl.
  destruct (find_ok o l (mk_conaddr la ra) dns I (proj1 Hla)) as [(i & c & Ef & Hc & El)|[Ef Hnew]]; simpl in *.
  - rewrite Ef, Hc in *. assert (path_ready c = true -> header_len ra dns + zlen data <= udp_mtu o) as Hfit by (intros Hp; rewrite Hp in Ho; cbn in Ho; by apply Z.ltb_ge in Ho).
    assert (spec_find (abs o l) la = Some (entry_of c)) as -> by (rewrite <- El; by apply (abs_find o l i c)).
    destruct (submit_known o l i c la ra dns data an I Hj Hla Hra Hz Ef Hc El Hfit) as (o' & l' & q & -> & I' & _ & H & _). simpl.
    exists o', l'. split; [done|]. split; [done|]. split; [done|]. exists true. split; [done|]. exists l'. split; [apply I'|].
    by destruct (path_ready c); destruct H as [-> _].
  - rewrite Ef. rewrite (abs_find_none o l la Hnew).
    destruct (submit_new o l la ra dns data an I Hj Hla Hra Hz Hfr Ef Hnew) as (o' & l' & -> & I' & _ & H). simpl.
    exists o', l'. split; [done|]. split; [done|]. split; [done|]. destruct H as [(Ha & _ & Hno)|(con & c & _ & _ & _ & Ha & _)].
    + exists false. split; [done|]. exists l'. split; [apply I'|done].
    + exists true. split; [done|]. exists l'. split; [apply I'|done].
Qed.

Lemma relay_step o l e : inv o l -> enabled o e = true -> overrun o e = false ->
  exists o' r l', exec o e = Some (o', r) /\ inv o' l' /\ effect o (abs o l) e o' r.
Proof using malloc_size.
  intros I He Ho. destruct e as [la ra dns data an| |con|con data].
  - destruct (submit_effect o l la ra dns data an I He Ho) as (o' & l' & E & I' & H). by exists o', None, l'.
  - simpl in *. apply bool_decide_eq_true in He. destruct (jobs o) as [|[i [|j]] js] eqn:Hj; [done| |].
    + destruct (first_job_ok o l i js I Hj) as (o' & c & -> & I' & A & _); [intros c Hc; rewrite Hc in Ho; by apply Z.ltb_ge in Ho|]. simpl. exists o', None, l. split; [done|]. split; [done|].
      split; [done|]. rewrite <- A. by apply inv_order.
    + destruct (path_job_ok o l i j js I Hj) as (o' & -> & I' & A). simpl. exists o', None, l. split; [done|]. split; [done|].
      split; [done|]. rewrite <- A. by apply inv_order.
  - simpl in *. destruct (conns o !! con) as [c|] eqn:Hc; [|done]. destruct (PacketBuffer.output _) as [|d len] eqn:Hout; [done|].
    destruct (sent_event_ok o l con c d len I Hc Hout) as (o' & qs & -> & I' & A & _). simpl. exists o', None, l. split; [done|]. split; [done|].
    split; [done|]. rewrite <- A. by apply inv_order.
  - simpl in He. apply andb_true_iff in He as [He H4]. apply andb_true_iff in He as [He H3]. apply andb_true_iff in He as [H1 H2].
    rewrite !bool_decide_eq_true in *. apply Z.leb_le in H4. destruct H1 as [c Hc].
    destruct (received_ok o l con c data I Hc H2 H3 H4) as (o' & r & E & I' & H). exists o', r, l. split; [done|]. split; [done|].
    exists c. split; [done|]. destruct (if is_dns c then _ else _) as [[ra d]|]; destruct H as [-> <-]; (split; [done|by apply inv_order]).
Qed.

Lemma relay_overruns o l e : inv o l -> enabled o e = true -> overrun o e = true -> exec o e = None.
Proof. intros I He Ho. destruct e as [la ra dns data an| |con|con data]; [by apply (submit_overruns o l)|by apply (first_overruns o l)|done|done]. Qed.

(** *** Packets that fit *)

(** The pending first jobs are those from before, for the same packets and addresses. *)
Lemma push_fit o i c c' js js' : conns o !! i = Some c -> conaddr c' = conaddr c -> is_dns c' = is_dns c -> first_data c' = first_data c ->
  js ⊆ jobs o -> firsts_fit o -> firsts_fit (push (with_conns (with_jobs o js) (<[i := c']> (conns o))) i js').
Proof.
  intros Hc E1 E2 E3 Hjs Hf k d Hk Hd. unfold push in Hk. cbn in Hk, Hd. apply elem_of_app in Hk as [(j & [=] & _)%list_elem_of_fmap|Hk%Hjs].
  destruct (decide (k = i)) as [-> |Hn]; [rewrite lookup_insert_eq in Hd; injection Hd as <-|rewrite lookup_insert_ne in Hd by done; exact (Hf k d Hk Hd)].
  specialize (Hf i c Hk Hc). unfold fits in *. cbn. by rewrite E1, E2, E3.
Qed.
Lemma send_path_only c data c' js b : connection_send c data = Some (c', js, b) -> conaddr c' = conaddr c /\ is_dns c' = is_dns c /\ first_data c' = first_data c.
Proof. unfold connection_send. intros E. repeat (case_match || simplify_option_eq); try done; by simplify_eq. Qed.

Lemma job_fit o o' : run_job o = Some o' -> firsts_fit o -> firsts_fit o'.
Proof.
  unfold run_job. destruct (jobs o) as [|[i j] js] eqn:Hj; [done|]. intros E Hf. assert (js ⊆ jobs o) as Hjs by (rewrite Hj; intros x Hx; by right).
  destruct j as [|j]; unfold connection_first_job_handler, connection_send_in in E; cbn [conns with_jobs] in E; (destruct (conns o !! i) as [c|] eqn:Hc; [|done]); cbn [mbind option_bind] in E.
  - destruct (connection_send c (first_data c)) as [[[c' js'] b]|] eqn:Es; [|done]. cbn [mbind option_bind] in E. injection E as <-. apply send_path_only in Es as (E1 & E2 & E3). by apply (push_fit o i c).
  - destruct (SendPath.run_job _ j) as [[p js']|]; [|done]. cbn [mbind option_bind] in E. injection E as <-. by apply (push_fit o i c).
Qed.
Lemma sent_fit o con o' : datagram_sent o con = Some o' -> firsts_fit o -> firsts_fit o'.
Proof.
  unfold datagram_sent. destruct (conns o !! con) as [c|] eqn:Hc; [|done]. cbn [mbind option_bind]. destruct (SendPath.out_done _) as [[p js]|]; [|done]. cbn [mbind option_bind]. intros [= <-] Hf.
  by apply (push_fit o con c _ (jobs o)).
Qed.
(** A connection that has no first job pending may change. *)
Lemma change_fit o con d o1 : (con, JFirst) ∉ jobs o -> firsts_fit o -> o1 = with_conns o (<[con := d]> (conns o)) -> firsts_fit o1.
Proof. intros Hn Hf -> k c Hk Hc. cbn in Hk, Hc. assert (k <> con) as Hne by (by intros ->). rewrite lookup_insert_ne in Hc by done. exact (Hf k c Hk Hc). Qed.
Lemma received_fit o con data o' r : datagram_received o con data = Some (o', r) -> (con, JFirst) ∉ jobs o -> firsts_fit o -> firsts_fit o'.
Proof.
  unfold datagram_received. intros E Hn Hf. destruct (conns o !! con) as [c|]; [|done]. cbn [mbind option_bind] in E.
  destruct (SinglePacketBuffer.exec _ _) as [[[rb ?] ?]|]; [|done]. cbn [mbind option_bind] in E. destruct (SinglePacketBuffer.exec rb _) as [[[rb1 packets] ?]|]; [|done]. cbn [mbind option_bind] in E.
  destruct (head packets) as [packet|]; [|done]. cbn [mbind option_bind] in E. destruct (dgram_handler_received o con packet) as [[o1 r1]|] eqn:Eh; [|done]. cbn [mbind option_bind] in E.
  destruct (SinglePacketBuffer.exec rb1 _) as [[[rb2 ?] ?]|]; [|done]. cbn [mbind option_bind] in E. destruct (conns o1 !! con) as [d|]; [|done]. cbn [mbind option_bind] in E. injection E as <- <-.
  assert (firsts_fit o1 /\ jobs o1 = jobs o) as [Hf1 Hj1]; [|eapply change_fit; [|exact Hf1|done]; by rewrite Hj1].
  unfold dgram_handler_received in Eh. destruct (conns o !! con) as [x|]; [|done]. cbn [mbind option_bind] in Eh. destruct (_ <=? _); [|done].
  destruct (if negb (is_dns x) then _ else _) as [[ra dd]|]; [|by injection Eh as <- _]. cbv zeta in Eh. destruct (_ >? _); injection Eh as <- _; (split; [by eapply change_fit|done]).
Qed.

Lemma submit_fit o l la ra dns data an o' : inv o l -> enabled o (ESubmit la ra dns data an) = true -> header_len ra dns + zlen data <= udp_mtu o ->
  SocksUdpGwClient_SubmitPacket o la ra dns data an = Some o' -> firsts_fit o'.
Proof using malloc_size.
  intros I He Hfit E. apply enabled_submit in He as (Hj & Hla & Hra & Hz & Hfr).
  destruct (find_ok o l (mk_conaddr la ra) dns I (proj1 Hla)) as [(i & c & Ef & Hc & El)|[Ef Hnew]]; cbn [local_addr] in *.
  - destruct (submit_known o l i c la ra dns data an I Hj Hla Hra Hz Ef Hc El (fun _ => Hfit)) as (o1 & l1 & q & E1 & _ & _ & _ & Hjf). rewrite E in E1. injection E1 as <-. intros k d Hk. by destruct (Hjf k).
  - destruct (submit_new o l la ra dns data an I Hj Hla Hra Hz Hfr Ef Hnew) as (o1 & l1 & E1 & I1 & Hm & [(_ & Hj1 & _)|(con & c & _ & Hc & Hj1 & _ & Ea & Ed & Efd & _)]); rewrite E in E1; injection E1 as <-; intros k d; rewrite Hj1.
    + by intros ?%not_elem_of_nil.
    + intros [[=]|[[= ->]|?%not_elem_of_nil]%elem_of_cons]%elem_of_cons; [|done]. rewrite Hc. intros [= <-]. unfold fits. by rewrite Ea, Ed, Efd, Hm.
Qed.

Lemma relay_fit o l e : inv o l -> enabled o e = true -> firsts_fit o -> packet_fits o e = true -> overrun o e = false /\ forall o' r, exec o e = Some (o', r) -> firsts_fit o'.
Proof using malloc_size.
  intros I He Hf Hp. destruct e as [la ra dns data an| |con|con data]; cbn [packet_fits overrun exec] in *.
  - apply Z.leb_le in Hp. split; [apply andb_false_iff; right; by apply Z.ltb_ge|]. intros o' r E. destruct (SocksUdpGwClient_SubmitPacket _ _ _ _ _ _) as [o1|] eqn:E1; [|done]. injection E as <- _. by apply (submit_fit o l la ra dns data an).
  - split; [|intros o' r E; destruct (run_job o) as [o1|] eqn:E1; [|done]; injection E as <- _; by apply (job_fit o)].
    destruct (jobs o) as [|[i [|j]] js] eqn:Hj; [done| |done]. destruct (conns o !! i) as [c|] eqn:Hc; [|done]. apply Z.ltb_ge. apply (Hf i c); [rewrite Hj; by left|done].
  - split; [done|]. intros o' r E. destruct (datagram_sent o con) as [o1|] eqn:E1; [|done]. injection E as <- _. by apply (sent_fit o con).
  - split; [done|]. intros o' r E. apply (received_fit _ _ _ _ _ E); [|done]. cbn in He. apply andb_true_iff in He as [[[_ H2]%andb_true_iff _]%andb_true_iff _]. by apply bool_decide_eq_true in H2.
Qed.

Lemma NoDup_locals o l : inv o l -> NoDup (e_local <$> abs o l).
Proof.
  intros I. pose proof (proj1 (i_list _ _ I)) as Hn. pose proof (i_inj _ _ I) as Hinj. clear I. induction l as [|i l IH]; [constructor|].
  apply list.NoDup_cons in Hn as [Hi Hn]. rewrite abs_cons. destruct (conns o !! i) as [c|] eqn:Hc; [|by apply IH]. rewrite fmap_cons.
  apply list.NoDup_cons. split; [|by apply IH]. intros H. apply list_elem_of_fmap in H as (e & Ee & He).
  apply list_elem_of_omap in He as (k & Hk & Ek). destruct (conns o !! k) as [d|] eqn:Hd; [|done]. simpl in Ek. injection Ek as <-.
  assert (i = k) as -> by (apply (Hinj i k c d); done). done.
Qed.

(** *** Freeing *)
Lemma free_all o l : inv o l -> jobs o = [] -> exists o', SocksUdpGwClient_Free (length l) o = Some o' /\ conns o' = ∅ /\ num_connections o' = 0.
Proof.
  revert o. induction l as [|i l IH]; intros o I Hj.
  - exists o. simpl. unfold LinkedList1.LinkedList1_IsEmpty. destruct (i_list _ _ I) as (_ & -> & _). split; [done|].
    split; [|by apply (i_num _ _ I)]. apply map_eq. intros k. rewrite lookup_empty. destruct (conns o !! k) eqn:E; [|done].
    assert (k ∈ ([] : list positive)) as H by (apply (i_dom _ _ I); by eexists). by apply not_elem_of_nil in H.
  - simpl. unfold LinkedList1.LinkedList1_IsEmpty, LinkedList1.LinkedList1_GetFirst. destruct (i_list _ _ I) as (_ & -> & _). simpl.
    destruct (con_free_ok o i l I Hj) as (o1 & -> & I1 & _ & J1 & _). simpl. by apply IH.
Qed.

Section Reachable.
Context (mtu max : Z) (server gw : BAddr) (o0 : t).
Context (Hmtu : 0 <= mtu <= INT_MAX) (Hmax : 0 < max).
Context (Hsize : ChunkBuffer2.BLOCK * ((1 + ChunkBuffer2.blocks_of mtu) * (CONNECTION_UDP_BUFFER_SIZE + 1)) <= INT_MAX).
Context (Hinit : SocksUdpGwClient_Init 0 mtu max server gw = Some o0).

Lemma relay_init_inv : inv o0 [].
Proof using Hmtu Hmax Hsize Hinit.
  revert Hinit. unfold SocksUdpGwClient_Init. case_if; [|done]. intros [= <-].
  pose proof (ChunkBuffer2.blocks_of_spec mtu Hmtu) as Hb. unfold ChunkBuffer2.BLOCK, CONNECTION_UDP_BUFFER_SIZE in *.
  assert (udpgw_compute_mtu mtu = mtu + 22) as Hgw.
  { rewrite compute_mtu_value by (unfold INT_MAX in *; lia). unfold INT_MAX in *. by bool_true. }
  constructor; simpl; try done.
  - unfold UINT16_MAX. case_if; lia.
  - split; [constructor|done].
  - intros i. split; [by intros ?%not_elem_of_nil|]. rewrite lookup_empty. by intros [? ?].
  - apply tr_init_ok.
  - unfold UINT16_MAX. case_if; lia.
  - intros k Hk. by apply not_elem_of_nil in Hk.
Qed.

Lemma relay_init_jobs : jobs o0 = [].
Proof using Hinit. revert Hinit. unfold SocksUdpGwClient_Init. case_if; [|done]. by intros [= <-]. Qed.

Lemma relay_reach_inv o : reach o0 o -> exists l, inv o l.
Proof using malloc_size Hmtu Hmax Hsize Hinit.
  induction 1 as [|o e o' r _ [l IH] He E]; [exists []; apply relay_init_inv|].
  destruct (overrun o e) eqn:Ho; [by rewrite (relay_overruns o l e IH He Ho) in E|].
  destruct (relay_step o l e IH He Ho) as (o1 & r1 & l' & E1 & I' & _). rewrite E in E1. injection E1 as <- _. by exists l'.
Qed.

(** C2: the UDP relay client implements a table of connections in order of use: in every reachable
    state the tree, the linked list and the counter agree on one list of connections with
    distinct local addresses, at most [max_connections] of them; every event runs without
    violating an assertion of the client or of its buffers, lists and interfaces, but for [overrun]: a packet that is admitted, being no longer than [udp_mtu], but does not
    fit with its SOCKS header, is written behind the end of its place, at once or by the first job of its connection; this never
    happens while the packets submitted fit with their headers ([packet_fits]).  An event that runs changes
    the list as specified: a packet from a known local address moves its connection to the end,
    with the new remote address, when its path accepts the packet; one from a new address appends
    a connection, in place of the least recently used one when the table is full; a datagram
    received is handed to the user with the connection's local address and the address in its
    header, which becomes the connection's remote address; jobs and sends leave the list as it is. *)
Theorem relay_refines_lru o : reach o0 o ->
  exists es, order o es /\ num_connections o = Z.of_nat (length es) /\ num_connections o <= max_connections o /\ NoDup (e_local <$> es) /\ firsts_fit o0 /\
  forall e, enabled o e = true ->
    (if overrun o e then exec o e = None else exists o' r, exec o e = Some (o', r) /\ effect o es e o' r) /\
    (firsts_fit o -> packet_fits o e = true -> overrun o e = false /\ forall o' r, exec o e = Some (o', r) -> firsts_fit o').
Proof using malloc_size Hmtu Hmax Hsize Hinit.
  intros Hr. destruct (relay_reach_inv o Hr) as [l I]. exists (abs o l). split; [by apply inv_order|].
  rewrite (abs_length o l) by (intros i Hi; by apply (i_dom _ _ I)). split; [apply I|]. split; [apply I|]. split; [by apply NoDup_locals|].
  split; [intros i c; rewrite relay_init_jobs; by intros ?%not_elem_of_nil|].
  intros e He. split; [|intros Hf Hp; by apply (relay_fit o l)]. destruct (overrun o e) eqn:Ho; [by apply (relay_overruns o l)|].
  destruct (relay_step o l e I He Ho) as (o' & r & l' & E & _ & H). by exists o', r.
Qed.

(** a packet submitted to the relay client is sent as it must be: one for a new local address,
    when a connection can be made, is queued on the new connection's socket once the jobs it set
    ran (the writer is told of its place before the first packet is written), addressed to the
    DNS gateway or the SOCKS server; one for a known local address is queued behind the packets
    of its connection if the path has a place and dropped otherwise.  The message queued is the
    SOCKS UDP header with the remote address and the data, or the data alone for the gateway. *)
Theorem relay_submit_sends o la ra dns data an : reach o0 o -> enabled o (ESubmit la ra dns data an) = true -> packet_fits o (ESubmit la ra dns data an) = true ->
  exists o1, exec o (ESubmit la ra dns data an) = Some (o1, None) /\
  match find_connection o (mk_conaddr la ra) dns with
  | Some (Some i) => exists c q, conns o !! i = Some c /\ queued o i q /\
      queued o1 i (if path_ready c then q ++ [udp_message ra dns data] else q)
  | _ => can_create an -> exists con o2 o3 c, a_con an = Some con /\ exec o1 EJob = Some (o2, None) /\ exec o2 EJob = Some (o3, None) /\
      jobs o3 = [(con, JPath (SendPath.JDone (zlen (udp_message ra dns data))))] /\
      queued o3 con [udp_message ra dns data] /\ conns o3 !! con = Some c /\ local_addr (conaddr c) = la /\
      send_addr c = if dns then dnsgw o else socks_server_addr o
  end.
Proof using malloc_size Hmtu Hmax Hsize Hinit.
  intros Hr He Hfit%Z.leb_le. destruct (relay_reach_inv o Hr) as [l I]. apply enabled_submit in He as (Hj & Hla & Hra & Hz & Hfr). simpl.
  destruct (find_ok o l (mk_conaddr la ra) dns I (proj1 Hla)) as [(i & c & Ef & Hc & El)|[Ef Hnew]]; rewrite Ef; simpl in *.
  - destruct (submit_known o l i c la ra dns data an I Hj Hla Hra Hz Ef Hc El (fun _ => Hfit)) as (o' & l' & q & -> & _ & Q & H & _). simpl.
    exists o'. split; [done|]. exists c, q. split; [done|]. split; [done|]. by destruct (path_ready c); destruct H.
  - destruct (submit_new o l la ra dns data an I Hj Hla Hra Hz Hfr Ef Hnew) as (o1 & l1 & -> & I1 & Hm & H). simpl.
    exists o1. split; [done|]. intros Hcan. destruct H as [(_ & _ & ?)|(con & c & Ea & Hc1 & J1 & _ & Eca & Ed & Efd & Es)]; [done|].
    destruct (op_job_ok o1 l1 con _ I1 J1) as (o2 & c' & p & E2 & I2 & Hc' & J2 & C2 & M2). rewrite Hc1 in Hc'. injection Hc' as <-.
    destruct (first_job_ok o2 l1 con [] I2 J2) as (o3 & c2 & E3 & I3 & _ & Hc2 & Q3 & J3 & p3 & C3).
    { intros d. rewrite C2, lookup_insert_eq. intros [= <-]. unfold fits. cbn. rewrite Eca, Ed, Efd, M2. cbn. lia. }
    rewrite C2, lookup_insert_eq in Hc2. injection Hc2 as <-. simpl in *. rewrite Eca, Ed, Efd in *. simpl in *.
    exists con, o2, o3, (with_path (with_path c p) p3). rewrite E2, E3. do 5 (split; [done|]).
    split; [by rewrite C3, lookup_insert_eq|]. simpl. by rewrite Eca.
Qed.

(** [SocksUdpGwClient_Free] terminates and frees every connection: its loop runs as many times
    as there are connections, without violating an assertion, and leaves none. *)
Theorem relay_free_complete o : reach o0 o -> jobs o = [] ->
  exists o', SocksUdpGwClient_Free (Z.to_nat (num_connections o)) o = Some o' /\ conns o' = ∅ /\ num_connections o' = 0.
Proof using malloc_size Hmtu Hmax Hsize Hinit.
  intros Hr Hj. destruct (relay_reach_inv o Hr) as [l I]. rewrite (proj1 (i_num _ _ I)), Nat2Z.id. by apply free_all.
Qed.
End Reachable.

(** ** Observations *)

(** The test of [is_dns] in [find_connection] has no effect: the connection found does not depend on it. *)
Lemma find_connection_ignores_dns o a dns dns' : find_connection o a dns = find_connection o a dns'.
Proof. destruct a as [la ra]. apply find_local. Qed.

End Client.

(** The SOCKS UDP header of a datagram is read back as it was written: the handler recovers the
    remote address and the payload of every message that [connection_send] builds for it, and the
    message is as much longer than the payload as the size test allows for. *)
Theorem relay_header_roundtrip ra data : ip_addr ra ->
  parse_header (udp_message ra false data) = Some (ra, data) /\
  zlen (udp_message ra false data) = header_len ra false + zlen data.
Proof.
  intros [Ha Ht]. destruct ra as [|ip port|ip port|]; try (by destruct Ht); cbn [udp_message header_len].
  - destruct Ha as [Hip Hp]. assert (zlen ([0; 0; 0; 1] ++ host32 ip ++ host16 port ++ data) = 10 + zlen data) as Hz
      by (rewrite !zlen_app; change (zlen [0; 0; 0; 1]) with 4; change (zlen (host32 ip)) with 4; change (zlen (host16 port)) with 2; lia).
    split; [|done]. pose proof (zlen_nonneg data). unfold parse_header, sizeof_socks_udp_header, sizeof_udpgw_addr_ipv4. rewrite Hz. bool_false.
    change (_ !! 2%nat) with (Some 0). change (_ !! 3%nat) with (Some 1). cbn [mbind option_bind].
    change (drop 4 _) with (host32 ip ++ host16 port ++ data). change (negb (0 =? 0)) with false. change (1 =? SOCKS_ATYP_IPV6) with false. cbv iota.
    rewrite !zlen_app. change (zlen (host32 ip)) with 4. change (zlen (host16 port)) with 2. bool_false. change (drop 6 _) with data. change (sub _ 0 4) with (host32 ip). change (sub _ 4 2) with (host16 port). by rewrite host32_val, host16_val.
  - destruct Ha as (_ & Hip & Hp). assert (zlen ([0; 0; 0; 4] ++ ip ++ host16 port ++ data) = 22 + zlen data) as Hz
      by (rewrite !zlen_app, Hip; change (zlen [0; 0; 0; 4]) with 4; change (zlen (host16 port)) with 2; lia).
    split; [|done]. pose proof (zlen_nonneg data). unfold parse_header, sizeof_socks_udp_header, sizeof_udpgw_addr_ipv6. rewrite Hz. bool_false.
    change (_ !! 2%nat) with (Some 0). change (_ !! 3%nat) with (Some 4). cbn [mbind option_bind].
    change (drop 4 _) with (ip ++ host16 port ++ data). change (negb (0 =? 0)) with false. change (4 =? SOCKS_ATYP_IPV6) with true. cbv iota.
    rewrite !zlen_app, Hip. change (zlen (host16 port)) with 2. bool_false.
    rewrite (sub_app_l ip) by lia. replace 16 with (zlen ip) at 1. rewrite sub_0_all. rewrite sub_app_r by lia. replace (16 - zlen ip) with 0 by lia.
    rewrite (sub_app_l (host16 port)) by (change (zlen (host16 port)) with 2; lia). change (sub (host16 port) 0 2) with (host16 port).
    rewrite host16_val by done. rewrite drop_app_ge by (unfold zlen in Hip; lia). replace (18 - length ip)%nat with 2%nat by (unfold zlen in Hip; lia). done.
Qed.
Lemma relay_header_roundtrip_witness :
  parse_header (udp_message (ADDR_IPV4 16909060 13568) false [1; 2; 3]) = Some (ADDR_IPV4 16909060 13568, [1; 2; 3]).
Proof. apply (relay_header_roundtrip (ADDR_IPV4 16909060 13568) [1; 2; 3]). split; [simpl; lia|left; reflexivity]. Defined.

(** ** A run: room for one connection, datagrams of up to 40 bytes, connections in an AVL tree *)
Section Run.
Context {T : Type} `{!AddrTree T} (malloc : Z -> option (list Z)).
Fixpoint run_events (o : t (T := T)) (es : list event) : option (t (T := T)) :=
  match es with
  | [] => Some o
  | e :: es => if enabled o e then '(o, _) ← exec malloc o e; run_events o es else None
  end.
Lemma run_events_reachable es : forall o0 o o', reach malloc o0 o -> run_events o es = Some o' -> reach malloc o0 o'.
Proof.
  induction es as [|e es IH]; intros o0 o o' Hr; simpl; [by intros [= <-]|]. destruct (enabled o e) eqn:He; [|done].
  destruct (exec malloc o e) as [[o1 r]|] eqn:E; [|done]. apply IH. by eapply reach_step.
Qed.
End Run.

Definition demo_gw : BAddr := ADDR_IPV4 134744072 13568.
Definition demo_local (port : Z) : BAddr := ADDR_IPV4 33554442 port.
Definition demo_remote : BAddr := ADDR_IPV4 16909060 20480.
#[local] Existing Instances BAVLSpec.CompareOrder_comparator BAVLSpec.bavl_tree.
Definition demo_relay : t (T := BAVL.t) :=
  Eval vm_compute in default (mk 0 0 ADDR_NONE ADDR_NONE 0 0 (BAVL.mk ∅ None) (LinkedList1.mk ∅ None None) ∅ [])
    (SocksUdpGwClient_Init 0 40 1 demo_server demo_gw).
Definition yes (con : positive) : answers := mk_answers (Some con) true true.
Definition demo_relay_events : list event := [ESubmit (demo_local 1) demo_remote true [7; 7] (yes 1); EJob; EJob; EJob; EJob].
Definition demo_relay1 : t (T := BAVL.t) := Eval vm_compute in default demo_relay (run_events zeros demo_relay demo_relay_events).

Lemma demo_relay_reach : reach zeros demo_relay demo_relay1.
Proof. apply (run_events_reachable zeros demo_relay_events _ demo_relay); [constructor|vm_compute; reflexivity]. Qed.

(** A packet from another local address takes the place of the only connection. *)
Definition demo_submit : event := ESubmit (demo_local 2) demo_remote false [1; 2; 3] (yes 2).

Lemma relay_refines_lru_witness :
  exists es, order demo_relay1 es /\ num_connections demo_relay1 = Z.of_nat (length es) /\
  exists o' r, exec zeros demo_relay1 demo_submit = Some (o', r) /\ effect zeros demo_relay1 es demo_submit o' r.
Proof.
  destruct (relay_refines_lru zeros zeros_size 40 1 demo_server demo_gw demo_relay ltac:(unfold INT_MAX; lia) ltac:(lia)
    ltac:(vm_compute; congruence) ltac:(vm_compute; reflexivity) demo_relay1 demo_relay_reach) as (es & Ho & Hn & _ & _ & _ & He).
  exists es. split; [exact Ho|]. split; [exact Hn|]. destruct (He demo_submit ltac:(vm_compute; reflexivity)) as [H _].
  assert (overrun demo_relay1 demo_submit = false) as Hov by (vm_compute; reflexivity). rewrite Hov in H. exact H.
Defined.

Lemma relay_submit_sends_witness :
  exists o1, exec zeros demo_relay1 demo_submit = Some (o1, None) /\
  match find_connection demo_relay1 (mk_conaddr (demo_local 2) demo_remote) false with
  | Some (Some i) => exists c q, conns demo_relay1 !! i = Some c /\ queued demo_relay1 i q /\
      queued o1 i (if path_ready c then q ++ [udp_message demo_remote false [1; 2; 3]] else q)
  | _ => can_create zeros (yes 2) -> exists con o2 o3 c, a_con (yes 2) = Some con /\ exec zeros o1 EJob = Some (o2, None) /\
      exec zeros o2 EJob = Some (o3, None) /\ jobs o3 = [(con, JPath (SendPath.JDone (zlen (udp_message demo_remote false [1; 2; 3]))))] /\
      queued o3 con [udp_message demo_remote false [1; 2; 3]] /\ conns o3 !! con = Some c /\ local_addr (conaddr c) = demo_local 2 /\
      send_addr c = socks_server_addr demo_relay1
  end.
Proof.
  apply (relay_submit_sends zeros zeros_size 40 1 demo_server demo_gw demo_relay ltac:(unfold INT_MAX; lia) ltac:(lia)
    ltac:(vm_compute; congruence) ltac:(vm_compute; reflexivity) demo_relay1 (demo_local 2) demo_remote false [1; 2; 3] (yes 2));
    [exact demo_relay_reach|vm_compute; reflexivity..].
Defined.

(** A packet of 40 bytes, as long as [udp_mtu] allows, overruns the place of a connection. *)
Example long_packet_overruns :
  let e := ESubmit (demo_local 1) demo_remote false (replicate 40 7) (yes 2) in
  (enabled demo_relay1 e, overrun demo_relay1 e, exec zeros demo_relay1 e) = (true, true, None).
Proof. vm_compute. reflexivity. Qed.

Lemma relay_free_complete_witness :
  num_connections demo_relay1 = 1 /\
  exists o', SocksUdpGwClient_Free (Z.to_nat (num_connections demo_relay1)) demo_relay1 = Some o' /\ conns o' = ∅ /\ num_connections o' = 0.
Proof.
  split; [vm_compute; reflexivity|].
  apply (relay_free_complete zeros zeros_size 40 1 demo_server demo_gw demo_relay ltac:(unfold INT_MAX; lia) ltac:(lia)
    ltac:(vm_compute; congruence) ltac:(vm_compute; reflexivity) demo_relay1); [exact demo_relay_reach|vm_compute; reflexivity].
Defined.

(** After a DNS query, a packet from the same local address that is none goes to the gateway too,
    with a SOCKS header: the connection is found although its [is_dns] differs, and keeps the
    address it sends to. *)
Example dns_connection_reused :
  let o := default demo_relay (run_events zeros demo_relay1 [ESubmit (demo_local 1) demo_remote false [1; 2; 3] (yes 2)]) in
  (fun c => (is_dns c, send_addr c, PacketBuffer.in_packet (SendPath.pb (send_path c)) 13)) <$> conns o !! 1%positive =
  Some (false, demo_gw, udp_message demo_remote false [1; 2; 3]).
Proof. vm_compute. reflexivity. Qed.

(** A connection freed before its first job ran leaves the job behind. *)
Example first_job_left :
  let o := default demo_relay (run_events zeros demo_relay [ESubmit (demo_local 1) demo_remote true [7; 7] (yes 1)]) in
  let o := default demo_relay (connection_free o 1) in
  (jobs o, conns o !! 1%positive) = ([(1%positive, JFirst)], None).
Proof. vm_compute. reflexivity. Qed.
