(* ===== verification/PacketPassInactivityMonitor.v ===== *)
(** * Detection of inactivity (flowextra/PacketPassInactivityMonitor)

    The monitor lies between a sender and an interface for packets, passes the packets on, and calls a
    handler when no packet was being sent for a while.  The relay uses it to keep its connection to the server
    alive.  Both interfaces are seen through their contract ([FlowIf.PacketPass.contract]): the
    monitor is the provider of its input and the user of its output. *)

From S2P Require Import Prelude FlowIf.
Import PacketPass.

Module PacketPassInactivityMonitor.

(** [timer]: the time after which the timer expires, as it was last set, while it runs; [handler]: whether the user gave
    one; [output_mtu], [can_cancel]: of the output, and so of the input. *)
Record t := mk { output : phase; output_mtu : Z; can_cancel : bool; interval : Z; handler : bool; input : phase; timer : option Z }.
Definition with_timer (o : t) (v : option Z) : t := mk (output o) (output_mtu o) (can_cancel o) (interval o) (handler o) (input o) v.
Definition with_input (o : t) (p : phase) : t := mk (output o) (output_mtu o) (can_cancel o) (interval o) (handler o) p (timer o).
Definition with_output (o : t) (p : phase) : t := mk p (output_mtu o) (can_cancel o) (interval o) (handler o) (input o) (timer o).

Definition input_handler_send (o : t) (data : option Z) (data_len : Z) : option t :=
  p ← contract (output_mtu o) (can_cancel o) (output o) (Send data data_len);
  Some (with_timer (with_output o p) None).
Definition input_handler_requestcancel (o : t) : option t :=
  p ← contract (output_mtu o) (can_cancel o) (output o) RequestCancel;
  Some (with_output o p).
Definition output_handler_done (o : t) : option t :=
  let o := with_timer o (Some (interval o)) in
  p ← contract (output_mtu o) (can_cancel o) (input o) Done;
  Some (with_input o p).
(** The flag: whether the user's handler is called. *)
Definition timer_handler (o : t) : t * bool := (with_timer o (Some (interval o)), handler o).
Definition PacketPassInactivityMonitor_Init (mtu : Z) (cancel : bool) (interval : Z) (handler : bool) : t := mk Idle mtu cancel interval handler Idle (Some interval).
Definition PacketPassInactivityMonitor_Free (o : t) : t := with_timer o None.
Definition PacketPassInactivityMonitor_SetHandler (o : t) (h : bool) : t := mk (output o) (output_mtu o) (can_cancel o) (interval o) h (input o) (timer o).
Definition PacketPassInactivityMonitor_Force (o : t) : t := with_timer o (Some 0).

(** ** Environment

    [ASend], [ACancel]: the sender; [ADone]: the provider of the output; [AInput], [AOutput]: a job of the
    interface calls its handler. *)
Inductive event := ASend (data : option Z) (len : Z) | ACancel | AInput (u : upcall) | AOutput (u : upcall) | ADone | ATimer | AForce | ASetHandler (h : bool).

(** [forced]: whether [PacketPassInactivityMonitor_Force] was called since the packet was passed on. *)
Record world := mkw { monitor : t; forced : bool }.
Definition side (o : t) (p : phase) (a : action) : option phase := contract (output_mtu o) (can_cancel o) p a.

Definition enabled (w : world) (e : event) : Prop :=
  let o := monitor w in
  match e with
  | ASend d n => is_Some (side o (input o) (Send d n))
  | ACancel => is_Some (side o (input o) RequestCancel)
  | AInput u => is_Some (side o (input o) (Call u))
  | AOutput u => is_Some (side o (output o) (Call u))
  | ADone => is_Some (side o (output o) Done)
  | ATimer => is_Some (timer o)
  | AForce | ASetHandler _ => True
  end.

Definition idle (p : phase) : bool := match p with Idle => true | _ => false end.

(** The flag: whether inactivity is reported. *)
Definition exec (w : world) (e : event) : option (world * bool) :=
  let o := monitor w in
  match e with
  | ASend d n => p ← side o (input o) (Send d n); Some (mkw (with_input o p) (forced w), false)
  | ACancel => p ← side o (input o) RequestCancel; Some (mkw (with_input o p) (forced w), false)
  | AInput u =>
      p ← side o (input o) (Call u);
      let o := with_input o p in
      match u with
      | handler_operation d n => o ← input_handler_send o d n; Some (mkw o false, false)
      | handler_cancel => o ← input_handler_requestcancel o; Some (mkw o (forced w), false)
      | handler_completed => Some (mkw o (forced w), false)
      end
  | AOutput u =>
      p ← side o (output o) (Call u);
      let o := with_output o p in
      match u with
      | handler_completed => o ← output_handler_done o; Some (mkw o false, false)
      | _ => Some (mkw o (forced w), false)
      end
  | ADone => p ← side o (output o) Done; Some (mkw (with_output o p) (forced w), false)
  | ATimer => let '(o, b) := timer_handler (with_timer o None) in Some (mkw o (forced w), b)
  | AForce => Some (mkw (PacketPassInactivityMonitor_Force o) (negb (idle (output o))), false)
  | ASetHandler h => Some (mkw (PacketPassInactivityMonitor_SetHandler o h) (forced w), false)
  end.

Inductive reach (w0 : world) : world -> Prop :=
| reach_init : reach w0 w0
| reach_step w e w' b : reach w0 w -> enabled w e -> exec w e = Some (w', b) -> reach w0 w'.

(** ** Invariant: the packet the sender waits for is the packet of the output *)
Definition through (pin pout : phase) : Prop :=
  match pin with
  | Idle | Requested _ _ | Completed _ _ => pout = Idle
  | Held d n c =>
      (pout = Requested d n /\ c <> Told) \/ pout = Completed d n \/ exists c', pout = Held d n c' /\ (c = Told <-> c' <> NotAsked)
  end.
Record inv (w : world) : Prop := {
  i_through : through (input (monitor w)) (output (monitor w));
  i_timer : is_Some (timer (monitor w)) <-> idle (output (monitor w)) = true \/ forced w = true;
}.

(** What a sender may do the monitor may do too. *)
Definition sent_ok (o : t) : Prop := match input o with Requested d n => is_Some (side o Idle (Send d n)) | Held _ _ Asked | Held _ _ Told => can_cancel o = true | _ => True end.

Lemma monitor_step w e : inv w -> sent_ok (monitor w) -> enabled w e -> exists w' b, exec w e = Some (w', b) /\ inv w' /\ sent_ok (monitor w').
Proof.
  destruct w as [[pout m cc iv h pin tm] fo]. intros [Ht Hm] Hs. cbn in *. unfold sent_ok in Hs. cbn in Hs. destruct e as [d n| |u|u| | | |h']; cbn [enabled exec monitor forced input output output_mtu can_cancel timer side].
  - unfold side. cbn. intros [p E]. rewrite E. cbn. eexists _, _. split; [done|]. destruct pin; cbn in E; try done. destruct ((0 <=? n) && (n <=? m) && (negb (n >? 0) || bool_decide (is_Some d))) eqn:Eb; [|done]. injection E as <-. split; [by split|]. unfold sent_ok, side. cbn. rewrite Eb. by eexists.
  - unfold side. cbn. intros [p E]. rewrite E. cbn. eexists _, _. split; [done|]. destruct pin as [|d n|d n [| |]|d n]; cbn in E; try done; destruct cc eqn:Ec; try done; injection E as <-; (split; [split; cbn; [|done]|done]); cbn in Ht; try done.
    destruct Ht as [[-> _]|[->|(c' & -> & H)]]; [by left|by right; left|]. right; right. exists c'. split; [done|]. split; [done|]. intros H'. by apply H in H'.
  - unfold side. cbn. intros [p E]. rewrite E. cbn. destruct u as [d n| |]; destruct pin as [|d' n'|d' n' c'|d' n']; cbn in E; try done.
    + case_bool_decide as Ed; cbn in E; [|done]. destruct (Z.eqb_spec n n') as [->|]; [|done]. cbn in E. injection E as <-. subst d' . cbn in Ht. subst pout. unfold input_handler_send. cbn. unfold side in Hs. cbn in Hs. destruct Hs as [p Hp].
      destruct ((0 <=? n') && (n' <=? m) && (negb (n' >? 0) || bool_decide (is_Some d))) eqn:Eb; [|done]. cbn. eexists _, _. split; [done|]. split; [split; cbn|done]; [by left|]. split; [by intros [? ?]|by intros [?|?]].
    + destruct c'; try done. injection E as <-. unfold input_handler_requestcancel. cbn. cbn in Ht. destruct Ht as [[-> _]|[->|(c' & -> & H)]]; cbn; rewrite Hs.
      * cbn. eexists _, _. split; [done|]. split; [split; cbn; [by right; left|done]|done].
      * cbn. eexists _, _. split; [done|]. split; [split; cbn; [by right; left|done]|done].
      * destruct c'; cbn; (eexists _, _; split; [done|]; split; [split; cbn; [right; right; eexists; split; [done|]; done|done]|done]).
    + injection E as <-. cbn in Ht. subst pout. eexists _, _. split; [done|]. split; [by split|done].
  - unfold side. cbn. intros [p E]. rewrite E. cbn. destruct u as [d n| |]; destruct pout as [|d' n'|d' n' c'|d' n']; cbn in E; try done.
    + case_bool_decide as Ed; cbn in E; [|done]. destruct (Z.eqb_spec n n') as [->|]; [|done]. cbn in E. injection E as <-. eexists _, _. split; [done|]. split; [|done]. split; cbn; [|done].
      destruct pin; cbn in Ht; try done. destruct Ht as [[[= -> ->] H]|[?|(? & ? & _)]]; [|done..]. right; right. exists NotAsked. split; [done|]. split; [by intros ->|done].
    + destruct c'; try done. injection E as <-. eexists _, _. split; [done|]. split; [|done]. split; cbn; [|done].
      destruct pin; cbn in Ht; try done. destruct Ht as [[? H]|[?|(c1 & [= -> -> <-] & H)]]; [done..|]. right; right. exists Told. split; [done|]. split; [done|]. intros _. by apply H.
    + injection E as <-. unfold output_handler_done. cbn. destruct pin as [| |dd nn cc'|]; cbn in Ht; try done. cbn. eexists _, _. split; [done|]. split; [|done]. split; cbn; [done|]. split; [by left|by eexists].
  - unfold side. cbn. intros [p E]. rewrite E. cbn. eexists _, _. split; [done|]. split; [|done]. destruct pout as [|d' n'|d' n' c'|d' n']; cbn in E; try done. injection E as <-. split; cbn; [|done].
    destruct pin; cbn in Ht; try done. destruct Ht as [[? H]|[?|(c1 & [= -> -> <-] & H)]]; [done..|]. by right; left.
  - intros Hi. cbn. eexists _, _. split; [done|]. split; [|done]. split; cbn; [done|]. split; [intros _; by apply Hm|by eexists].
  - intros _. cbn. eexists _, _. split; [done|]. split; [|done]. split; cbn; [done|]. split; [intros _; destruct (idle pout); auto|by eexists].
  - intros _. cbn. eexists _, _. split; [done|]. split; [|done]. by split.
Qed.

(** The monitor is transparent: whatever the sender, the provider of the output and the user of the monitor do
    within the contract, no assertion of the interfaces fails, and the packet the sender waits for
    is the one with the output, cancelled there exactly when the sender asked for it and the request
    was passed on.  The timer runs exactly while the output has no packet, or since
    [PacketPassInactivityMonitor_Force], so that inactivity, and nothing else, is reported. *)
Theorem monitor_transparent m cc iv h w : reach (mkw (PacketPassInactivityMonitor_Init m cc iv h) false) w ->
  (forall e, enabled w e -> is_Some (exec w e)) /\ through (input (monitor w)) (output (monitor w)) /\
  (is_Some (timer (monitor w)) <-> idle (output (monitor w)) = true \/ forced w = true).
Proof.
  intros Hr. assert (inv w /\ sent_ok (monitor w)) as [I S].
  { induction Hr as [|w e w' b Hr [I S] He E]; [split; [split; cbn; [done|]|done]; split; [by left|by eexists]|]. destruct (monitor_step w e I S He) as (w1 & b1 & E1 & H). rewrite E in E1. by injection E1 as <- <-. }
  split; [|by destruct I]. intros e He. destruct (monitor_step w e I S He) as (w' & b & -> & _). by eexists.
Qed.

(** The header's description says that the timer is set when the input cancels; the timer stays stopped
    until the output is done. *)
Definition monitor_run (w : world) (es : list event) : world := fold_left (fun w e => match exec w e with Some (w, _) => w | None => w end) es w.
Example cancel_keeps_timer_stopped :
  let w := monitor_run (mkw (PacketPassInactivityMonitor_Init 10 true 5 true) false) [ASend (Some 0) 3; AInput (handler_operation (Some 0) 3); AOutput (handler_operation (Some 0) 3); ACancel; AInput handler_cancel] in
  input (monitor w) = Held (Some 0) 3 Told /\ output (monitor w) = Held (Some 0) 3 Asked /\ timer (monitor w) = None.
Proof. by vm_compute. Qed.
End PacketPassInactivityMonitor.
