(* ===== verification/UdpGwClient.v ===== *)
(** * The relay over a udpgw connection (udpgw_client/UdpGwClient.c)

    Datagrams of many local and remote addresses share one stream to a server.  Each pair of addresses has a
    connection with a number of 16 bits; a packet of the stream names the connection by its number.  When all numbers are
    in use, the least recently used connection gets the new addresses.  The connections are found through two
    trees ([KeyTree]), by addresses and by number, and kept in order of use in a [LinkedList1]; each has its own
    queue of packets ([SendFlow]), and a fair queue joins them. *)

From stdpp Require Import gmap.
From S2P Require Import Prelude BAlign ByteOrder BAddr FlowView PacketProto LinkedList1 KeyTree BAVL BAVLSpec SendFlow SocksUdpGwClient.
Import BAVLSpec.

Module UdpGwClient.

(** ** protocol/udpgw_proto.h *)
Definition UDPGW_CLIENT_FLAG_KEEPALIVE : Z := Z.shiftl 1 0.
Definition UDPGW_CLIENT_FLAG_REBIND : Z := Z.shiftl 1 1.
Definition UDPGW_CLIENT_FLAG_DNS : Z := Z.shiftl 1 2.
Definition UDPGW_CLIENT_FLAG_IPV6 : Z := Z.shiftl 1 3.
Definition sizeof_udpgw_header : Z := 3.
(** [udpgw_compute_mtu] of the builds that have this client, all but Android's. *)
Definition gw_compute_mtu (dgram_mtu : Z) : Z := compute_mtu_with sizeof_udpgw_header dgram_mtu.
Definition udpgw_header (flags conid : Z) : list Z := u8 flags :: host16 (u16 conid).

(** ** State *)
Record UdpGwClient_conaddr := mk_conaddr { local_addr : BAddr; remote_addr : BAddr }.
#[export] Instance conaddr_eq_dec : EqDecision UdpGwClient_conaddr.
Proof. solve_decision. Defined.

Definition uint16_comparator (v1 v2 : Z) : Z := B_COMPARE v1 v2.
Definition conaddr_comparator (v1 v2 : UdpGwClient_conaddr) : Z :=
  let r := BAddr_CompareOrder (remote_addr v1) (remote_addr v2) in
  if negb (r =? 0) then r else BAddr_CompareOrder (local_addr v1) (local_addr v2).

(** The flows of the send queue, as its users see them: the flow whose packet the output has, and whether the
    queue is being freed (flow/PacketPassFairQueue.h). *)
Inductive qflow := QKeepalive | QCon (con : positive).
#[export] Instance qflow_eq_dec : EqDecision qflow.
Proof. solve_decision. Defined.
Record send_queue := mk_queue { q_flows : list qflow; q_sending : option qflow; q_freeing : bool }.
Definition flow_init (q : send_queue) (f : qflow) : option send_queue :=
  ASSERT negb (q_freeing q);
  Some (mk_queue (f :: q_flows q) (q_sending q) (q_freeing q)).
Definition flow_assert_free (q : send_queue) (f : qflow) : bool := q_freeing q || negb (bool_decide (q_sending q = Some f)).
Definition flow_free (q : send_queue) (f : qflow) : option send_queue :=
  ASSERT flow_assert_free q f;
  ASSERT bool_decide (f ∈ q_flows q);
  Some (mk_queue (without f (q_flows q)) (if bool_decide (q_sending q = Some f) then None else q_sending q) (q_freeing q)).
Definition prepare_free (q : send_queue) : send_queue := mk_queue (q_flows q) (q_sending q) true.
Definition queue_free (q : send_queue) : option unit :=
  ASSERT bool_decide (q_flows q = []);
  ASSERT bool_decide (q_sending q = None);
  Some tt.

Section Client.
Context {F : Type} `{!SendFlow F}.

(** [first_job]: whether it is pending; [first_data]: the bytes it points to, which stay as they are until the job has run, before
    any job that was set earlier; [send_if]: the queue of the connection. *)
Record connection := mk_con { conaddr : UdpGwClient_conaddr; first_flags : Z; first_data : list Z; conid : Z; first_job : bool; send_if : F }.
Definition with_conaddr (c : connection) (a : UdpGwClient_conaddr) : connection := mk_con a (first_flags c) (first_data c) (conid c) (first_job c) (send_if c).
Definition with_flow (c : connection) (f : F) : connection := mk_con (conaddr c) (first_flags c) (first_data c) (conid c) (first_job c) f.
Definition with_first_job (c : connection) (b : bool) : connection := mk_con (conaddr c) (first_flags c) (first_data c) (conid c) b (send_if c).

Context {T U : Type}.
Definition conaddr_ok (a : UdpGwClient_conaddr) : Prop := addr_ok (local_addr a) /\ addr_ok (remote_addr a).
Definition conid_ok (_ : Z) : Prop := True.
Context `{!KeyTree conaddr_ok conaddr_comparator T} `{!KeyTree conid_ok uint16_comparator U}.
Context (malloc : Z -> option (list Z)).

(** The objects [conns] exist.  [keepalive_if], [recv_if]: as the user and the provider of an interface see
    them; [connected]: whether the send connector has an output. *)
Record t := mk {
  udp_mtu : Z; max_connections : Z; send_buffer_size : Z; udpgw_mtu : Z; pp_mtu : Z;
  connections_tree_by_conaddr : T; connections_tree_by_conid : U; connections_list : LinkedList1.t; num_connections : Z; next_conid : Z;
  queue : send_queue; keepalive_if : pass_view; keepalive_sending : bool; have_server : bool; connected : bool; recv_if : pass_view;
  conns : gmap positive connection;
}.

(** Copies with some members replaced. *)
Definition with_tables (o : t) (tr : T) (tid : U) (l : LinkedList1.t) (num : Z) (c : gmap positive connection) : t :=
  mk (udp_mtu o) (max_connections o) (send_buffer_size o) (udpgw_mtu o) (pp_mtu o) tr tid l num (next_conid o) (queue o) (keepalive_if o) (keepalive_sending o) (have_server o) (connected o) (recv_if o) c.
Definition with_conns (o : t) (c : gmap positive connection) : t := with_tables o (connections_tree_by_conaddr o) (connections_tree_by_conid o) (connections_list o) (num_connections o) c.
Definition with_list (o : t) (l : LinkedList1.t) : t := with_tables o (connections_tree_by_conaddr o) (connections_tree_by_conid o) l (num_connections o) (conns o).
Definition with_next (o : t) (n : Z) : t :=
  mk (udp_mtu o) (max_connections o) (send_buffer_size o) (udpgw_mtu o) (pp_mtu o) (connections_tree_by_conaddr o) (connections_tree_by_conid o) (connections_list o) (num_connections o) n (queue o) (keepalive_if o) (keepalive_sending o) (have_server o) (connected o) (recv_if o) (conns o).
Definition with_queue (o : t) (q : send_queue) : t :=
  mk (udp_mtu o) (max_connections o) (send_buffer_size o) (udpgw_mtu o) (pp_mtu o) (connections_tree_by_conaddr o) (connections_tree_by_conid o) (connections_list o) (num_connections o) (next_conid o) q (keepalive_if o) (keepalive_sending o) (have_server o) (connected o) (recv_if o) (conns o).
Definition with_keepalive (o : t) (v : pass_view) (s : bool) : t :=
  mk (udp_mtu o) (max_connections o) (send_buffer_size o) (udpgw_mtu o) (pp_mtu o) (connections_tree_by_conaddr o) (connections_tree_by_conid o) (connections_list o) (num_connections o) (next_conid o) (queue o) v s (have_server o) (connected o) (recv_if o) (conns o).
Definition with_server (o : t) (h c : bool) (v : pass_view) : t :=
  mk (udp_mtu o) (max_connections o) (send_buffer_size o) (udpgw_mtu o) (pp_mtu o) (connections_tree_by_conaddr o) (connections_tree_by_conid o) (connections_list o) (num_connections o) (next_conid o) (queue o) (keepalive_if o) (keepalive_sending o) h c v (conns o).

(** The values of the nodes of the trees. *)
Definition conaddrs (o : t) (i : positive) : option UdpGwClient_conaddr := conaddr <$> conns o !! i.
Definition conids (o : t) (i : positive) : option Z := conid <$> conns o !! i.

(** ** Operations *)
Definition free_server (o : t) : option t :=
  ASSERT connected o;
  Some (with_server o (have_server o) false PIdle).

(** The user's error handler is called. *)
Definition decoder_handler_error (o : t) : option unit :=
  ASSERT have_server o;
  Some tt.

Definition find_connection_by_conaddr (o : t) (a : UdpGwClient_conaddr) : option positive := tr_lookup (conaddrs o) (connections_tree_by_conaddr o) a.
Definition find_connection_by_conid (o : t) (id : Z) : option positive := tr_lookup (conids o) (connections_tree_by_conid o) id.

(** The loop makes at most [fuel] rounds. *)
Fixpoint find_unused_loop (fuel : nat) (o : t) : option (t * Z) :=
  match fuel with
  | O => None
  | S fuel =>
      match find_connection_by_conid o (u16 (next_conid o)) with
      | None => Some (o, u16 (next_conid o))
      | Some _ => find_unused_loop fuel (with_next o (if next_conid o =? max_connections o - 1 then 0 else next_conid o + 1))
      end
  end.
Definition find_unused_conid (o : t) : option (t * Z) :=
  ASSERT num_connections o <? max_connections o;
  find_unused_loop (Z.to_nat (max_connections o)) o.

(** A packet of the stream: flags, number and address, and the rest; [None]: it is malformed. *)
Definition parse_packet (data : list Z) : option (Z * Z * BAddr * list Z) :=
  if zlen data <? sizeof_udpgw_header then None else
  flags ← data !! 0%nat;
  let id := ltoh16 (le_val (sub data 1 2)) in
  let data := drop 3 data in
  if negb (Z.land flags UDPGW_CLIENT_FLAG_IPV6 =? 0) then
    if zlen data <? sizeof_udpgw_addr_ipv6 then None else
    Some (flags, id, ADDR_IPV6 (sub data 0 16) (le_val (sub data 16 2)), drop 18 data)
  else
    if zlen data <? sizeof_udpgw_addr_ipv4 then None else
    Some (flags, id, ADDR_IPV4 (le_val (sub data 0 4)) (le_val (sub data 4 2)), drop 6 data).

Definition move_to_end (o : t) (con : positive) : option t :=
  l ← LinkedList1.LinkedList1_Remove (connections_list o) con;
  l ← LinkedList1.LinkedList1_Append l con;
  Some (with_list o l).

(** The user's handler is called with the last result. *)
Definition recv_interface_handler_send (o : t) (data : list Z) : option (t * option (BAddr * BAddr * list Z)) :=
  ASSERT have_server o;
  ASSERT zlen data <=? udpgw_mtu o;
  v ← PacketPassInterface_Done (recv_if o);
  let o := with_server o (have_server o) (connected o) v in
  match parse_packet data with
  | None => Some (o, None)
  | Some (_, id, ra, data) =>
      if zlen data >? udp_mtu o then Some (o, None) else
      match find_connection_by_conid o id with
      | None => Some (o, None)
      | Some con =>
          c ← conns o !! con;
          if negb (BAddr_CompareOrder (remote_addr (conaddr c)) ra =? 0) then Some (o, None) else
          o ← move_to_end o con;
          Some (o, Some (local_addr (conaddr c), remote_addr (conaddr c), data))
      end
  end.

(** [keepalive_packet]: its length, of 16 bits in the order of the host, and a header. *)
Definition keepalive_packet : list Z := host16 sizeof_udpgw_header ++ udpgw_header UDPGW_CLIENT_FLAG_KEEPALIVE 0.
Definition send_monitor_handler (o : t) : option t :=
  if keepalive_sending o then Some o else
  v ← PacketPassInterface_Sender_Send (keepalive_if o) (pp_mtu o) (Some 0) (zlen keepalive_packet);
  Some (with_keepalive o v true).
Definition keepalive_if_handler_done (o : t) : option t :=
  ASSERT keepalive_sending o;
  Some (with_keepalive o (keepalive_if o) false).

(** [a_con]: the object that [malloc] returns.  On failure the flow is freed again, and the job. *)
Definition connection_init (o : t) (a : UdpGwClient_conaddr) (flags : Z) (data : list Z) (a_con : option positive) : option t :=
  ASSERT num_connections o <? max_connections o;
  ASSERT bool_decide (find_connection_by_conaddr o a = None);
  ASSERT zlen data <=? udp_mtu o;
  match a_con with
  | None => Some o
  | Some con =>
      '(o, id) ← find_unused_conid o;
      q ← flow_init (queue o) (QCon con);
      let o := with_queue o q in
      r ← fl_init malloc (udpgw_mtu o) (send_buffer_size o) (pp_mtu o);
      match r with
      | None =>
          q ← flow_free (queue o) (QCon con);
          Some (with_queue o q)
      | Some f =>
          let o := with_conns o (<[con := mk_con a flags data id true f]> (conns o)) in
          tr ← tr_insert (conaddrs o) (connections_tree_by_conaddr o) con;
          tid ← tr_insert (conids o) (connections_tree_by_conid o) con;
          l ← LinkedList1.LinkedList1_Append (LinkedList1.with_node (connections_list o) con (LinkedList1.mk_node None None)) con;
          Some (with_tables o tr tid l (num_connections o + 1) (conns o))
      end
  end.

Definition connection_free (o : t) (con : positive) : option t :=
  _ ← conns o !! con;
  ASSERT flow_assert_free (queue o) (QCon con);
  l ← LinkedList1.LinkedList1_Remove (connections_list o) con;
  tid ← tr_remove (connections_tree_by_conid o) con;
  tr ← tr_remove (connections_tree_by_conaddr o) con;
  q ← flow_free (queue o) (QCon con);
  Some (with_queue (with_tables o tr tid (LinkedList1.mk (delete con (LinkedList1.heap l)) (LinkedList1.first l) (LinkedList1.last l)) (num_connections o - 1) (delete con (conns o))) q).

(** The flag: whether the packet was queued. *)
Definition connection_send (o : t) (con : positive) (flags : Z) (data : list Z) : option (t * bool) :=
  c ← conns o !! con;
  ASSERT zlen data <=? udp_mtu o;
  r ← fl_start (send_if c);
  match r with
  | None => Some (o, false)
  | Some (f, out) =>
      let ra := remote_addr (conaddr c) in
      let flags := if addr_type ra =? 2 then Z.lor flags UDPGW_CLIENT_FLAG_IPV6 else flags in
      f ← fl_write f out 0 (udpgw_header flags (conid c));
      let out_pos := sizeof_udpgw_header in
      '(f, out_pos) ← match ra with
        | ADDR_IPV4 ip port => f ← fl_write f out out_pos (udpgw_addr_ipv4 ip port); Some (f, out_pos + sizeof_udpgw_addr_ipv4)
        | ADDR_IPV6 ip port => f ← fl_write f out out_pos (udpgw_addr_ipv6 ip port); Some (f, out_pos + sizeof_udpgw_addr_ipv6)
        | _ => Some (f, out_pos)
        end;
      f ← fl_write f out out_pos data;
      f ← fl_end f (out_pos + zlen data);
      Some (with_conns o (<[con := with_flow c f]> (conns o)), true)
  end.

Definition connection_first_job_handler (o : t) (con : positive) : option (t * bool) :=
  c ← conns o !! con;
  connection_send o con (Z.lor UDPGW_CLIENT_FLAG_REBIND (first_flags c)) (first_data c).

Definition reuse_connection (o : t) (a : UdpGwClient_conaddr) : option (t * positive) :=
  ASSERT bool_decide (find_connection_by_conaddr o a = None);
  ASSERT num_connections o >? 0;
  con ← LinkedList1.LinkedList1_GetFirst (connections_list o);
  tr ← tr_remove (connections_tree_by_conaddr o) con;
  c ← conns o !! con;
  let o := with_conns o (<[con := with_conaddr c a]> (conns o)) in
  tr ← tr_insert (conaddrs o) tr con;
  Some (with_tables o tr (connections_tree_by_conid o) (connections_list o) (num_connections o) (conns o), con).

(** [qok]: the result of [PacketPassFairQueue_Init]; [inl tt]: the result 0. *)
Definition UdpGwClient_Init (mtu max num_packets : Z) (qok : bool) : option (unit + t) :=
  ASSERT mtu >=? 0;
  ASSERT gw_compute_mtu mtu >=? 0;
  ASSERT gw_compute_mtu mtu <=? PACKETPROTO_MAXPAYLOAD;
  ASSERT max >? 0;
  ASSERT num_packets >? 0;
  let max := if max >? UINT16_MAX + 1 then UINT16_MAX + 1 else max in
  let gw := gw_compute_mtu mtu in
  if negb qok then Some (inl tt) else
  q ← flow_init (mk_queue [] None false) QKeepalive;
  Some (inr (mk mtu max num_packets gw (gw + packetproto_header) tr_init tr_init (LinkedList1.mk ∅ None None) 0 0 q PIdle false false false PIdle ∅)).

(** The loop of [UdpGwClient_Free], over at most [fuel] connections. *)
Fixpoint free_loop (fuel : nat) (o : t) : option t :=
  if LinkedList1.LinkedList1_IsEmpty (connections_list o) then Some o else
  match fuel with
  | O => None
  | S fuel =>
      con ← LinkedList1.LinkedList1_GetFirst (connections_list o);
      o ← connection_free o con;
      free_loop fuel o
  end.
Definition UdpGwClient_Free (o : t) : option t :=
  let o := with_queue o (prepare_free (queue o)) in
  o ← free_loop (Z.to_nat (num_connections o)) o;
  o ← (if have_server o then free_server o else Some o);
  q ← flow_free (queue o) QKeepalive;
  _ ← queue_free q;
  Some (with_queue o q).

(** The flag: whether a packet was queued. *)
Definition UdpGwClient_SubmitPacket (o : t) (la ra : BAddr) (is_dns : bool) (data : list Z) (a_con : option positive) : option (t * bool) :=
  ASSERT (addr_type la =? 1) || (addr_type la =? 2);
  ASSERT (addr_type ra =? 1) || (addr_type ra =? 2);
  ASSERT zlen data <=? udp_mtu o;
  let a := mk_conaddr la ra in
  let con := find_connection_by_conaddr o a in
  let flags := if is_dns then Z.lor 0 UDPGW_CLIENT_FLAG_DNS else 0 in
  '(o, con, flags) ← (if bool_decide (con = None) && (num_connections o =? max_connections o)
     then '(o, con) ← reuse_connection o a; Some (o, Some con, Z.lor flags UDPGW_CLIENT_FLAG_REBIND)
     else Some (o, con, flags));
  match con with
  | None => o ← connection_init o a flags data a_con; Some (o, false)
  | Some con =>
      o ← move_to_end o con;
      connection_send o con flags data
  end.

(** [mem]: whether [PacketProtoDecoder_Init] has its memory. *)
Definition UdpGwClient_ConnectServer (o : t) (mem : bool) : option (t * bool) :=
  ASSERT negb (have_server o);
  if negb mem then Some (o, false) else
  ASSERT negb (connected o);
  Some (with_server o true true PIdle, true).
Definition UdpGwClient_DisconnectServer (o : t) : option t :=
  ASSERT have_server o;
  o ← free_server o;
  Some (with_server o false (connected o) (recv_if o)).
End Client.
End UdpGwClient.
