(* ===== verification/UdpGwClientInv.v ===== *)
(** * The relay over a udpgw connection: environment, invariant and theorems

    The environment is the user of the client, the fair queue, the monitor of the send side and the decoder of the
    server's stream. *)

From stdpp Require Import gmap.
From S2P Require Import Prelude BAlign ByteOrder BAddr FlowView PacketProto LinkedList1 KeyTree BAVL BAVLSpec SendFlow PacketProtoFlow SocksUdpGwClient UdpGwClient.
Import BAVLSpec UdpGwClient.

Module UdpGwClientInv.

(** ** The comparators are orders *)
#[export] Instance uint16_ok : Comparator conid_ok uint16_comparator.
Proof. split; unfold uint16_comparator, B_COMPARE; intros; repeat match goal with |- context [?x >? ?y] => destruct (Z.gtb_spec x y) | |- context [?x <? ?y] => destruct (Z.ltb_spec x y) | H : context [?x >? ?y] |- _ => destruct (Z.gtb_spec x y) | H : context [?x <? ?y] |- _ => destruct (Z.ltb_spec x y) end; cbn in *; lia. Qed.

#[export] Instance conaddr_cmp_ok : Comparator conaddr_ok conaddr_comparator.
Proof.
  assert (forall a b, addr_ok a -> addr_ok b -> BAddr_CompareOrder a b = 0 <-> a = b) as H0 by (intros; by apply compare_eq).
  split; unfold conaddr_comparator.
  - intros a b [Ha1 Ha2] [Hb1 Hb2]. destruct (Z.eqb_spec (BAddr_CompareOrder (remote_addr a) (remote_addr b)) 0); cbn [negb]; by apply (cmp_range (ok := addr_ok)).
  - intros a b [Ha1 Ha2] [Hb1 Hb2]. rewrite (cmp_opp (remote_addr a) (remote_addr b)) by done. rewrite (cmp_opp (local_addr a) (local_addr b)) by done.
    destruct (Z.eqb_spec (BAddr_CompareOrder (remote_addr a) (remote_addr b)) 0) as [->|Hne]; [done|]. rewrite (proj2 (Z.eqb_neq _ _)) by lia. done.
  - intros a b c [Ha1 Ha2] [Hb1 Hb2] [Hc1 Hc2].
    destruct (Z.eqb_spec (BAddr_CompareOrder (remote_addr a) (remote_addr b)) 0) as [E1|N1]; cbn [negb].
    + apply H0 in E1; [|done..]. rewrite E1. destruct (Z.eqb_spec (BAddr_CompareOrder (remote_addr b) (remote_addr c)) 0); cbn [negb]; [by apply (cmp_trans (ok := addr_ok))|done].
    + destruct (Z.eqb_spec (BAddr_CompareOrder (remote_addr b) (remote_addr c)) 0) as [E2|N2]; cbn [negb].
      * apply H0 in E2; [|done..]. rewrite <- E2. rewrite (proj2 (Z.eqb_neq _ _) N1). done.
      * intros L1 L2. assert (BAddr_CompareOrder (remote_addr a) (remote_addr c) = -1) as ->; [|done].
        apply (cmp_lt_trans addr_ok BAddr_CompareOrder _ (remote_addr b)); try done.
        -- destruct (cmp_range (ok := addr_ok) (remote_addr a) (remote_addr b)) as [?|[?|?]]; done || lia.
        -- destruct (cmp_range (ok := addr_ok) (remote_addr b) (remote_addr c)) as [?|[?|?]]; done || lia.
Qed.

Lemma conaddr_eq a b : conaddr_ok a -> conaddr_ok b -> conaddr_comparator a b = 0 <-> a = b.
Proof.
  intros [Ha1 Ha2] [Hb1 Hb2]. unfold conaddr_comparator. destruct (Z.eqb_spec (BAddr_CompareOrder (remote_addr a) (remote_addr b)) 0) as [E|N]; cbn [negb].
  - apply compare_eq in E; [|done..]. rewrite compare_eq by done. destruct a, b; cbn in *. split; [by intros ->; subst|by intros [= -> ->]].
  - split; [done|]. intros ->. by destruct N; apply compare_eq.
Qed.
Lemma conid_eq a b : uint16_comparator a b = 0 <-> a = b.
Proof. unfold uint16_comparator, B_COMPARE. destruct (Z.gtb_spec a b), (Z.ltb_spec a b); cbn; lia. Qed.

(** ** A packet of the stream *)
Definition address_bytes (ra : BAddr) : list Z := match ra with ADDR_IPV4 ip port => udpgw_addr_ipv4 ip port | ADDR_IPV6 ip port => udpgw_addr_ipv6 ip port | _ => [] end.
Definition packet (flags id : Z) (ra : BAddr) (data : list Z) : list Z :=
  udpgw_header (if addr_type ra =? 2 then Z.lor flags UDPGW_CLIENT_FLAG_IPV6 else flags) id ++ address_bytes ra ++ data.

(** What the client writes is what its own reader, and so a server with it, reads. *)
Lemma address4_read ip port data : 0 <= ip < 2 ^ 32 -> 0 <= port < 2 ^ 16 ->
  let d := udpgw_addr_ipv4 ip port ++ data in le_val (sub d 0 4) = ip /\ le_val (sub d 4 2) = port /\ drop 6 d = data /\ zlen d = 6 + zlen data.
Proof.
  intros Hi Hp. cbv zeta. unfold udpgw_addr_ipv4. rewrite <- app_assoc. change (sub (host32 ip ++ host16 port ++ data) 0 4) with (host32 ip). change (sub (host32 ip ++ host16 port ++ data) 4 2) with (host16 port).
  rewrite host32_val, host16_val by done. split; [done|]. split; [done|]. split; [done|]. rewrite !zlen_app. change (zlen (host32 ip)) with 4. change (zlen (host16 port)) with 2. lia.
Qed.
Lemma address6_read ip port data : zlen ip = 16 -> 0 <= port < 2 ^ 16 ->
  let d := udpgw_addr_ipv6 ip port ++ data in sub d 0 16 = ip /\ le_val (sub d 16 2) = port /\ drop 18 d = data /\ zlen d = 18 + zlen data.
Proof.
  intros Hi Hp. cbv zeta. unfold udpgw_addr_ipv6. rewrite take_ge by (unfold zlen in Hi; lia). rewrite <- app_assoc. split.
  { rewrite (sub_app_l ip) by lia. replace 16 with (zlen ip). apply sub_0_all. }
  split; [rewrite sub_app_r by lia; replace (16 - zlen ip) with 0 by lia; rewrite (sub_app_l (host16 port)) by (change (zlen (host16 port)) with 2; lia); change (sub (host16 port) 0 2) with (host16 port); by apply host16_val|].
  split; [rewrite drop_app_ge by (unfold zlen in Hi; lia); by replace (18 - length ip)%nat with 2%nat by (unfold zlen in Hi; lia)|]. rewrite !zlen_app, Hi. change (zlen (host16 port)) with 2. lia.
Qed.

Lemma packet_roundtrip flags id ra data : ip_addr ra -> 0 <= flags < 8 -> 0 <= id < 2 ^ 16 ->
  exists flags', parse_packet (packet flags id ra data) = Some (flags', id, ra, data).
Proof.
  intros [Ha Ht] Hf Hi. pose proof (zlen_nonneg data). unfold packet, parse_packet, sizeof_udpgw_header.
  assert (forall fl rest, 0 <= fl < 256 -> udpgw_header fl id ++ rest = fl :: host16 id ++ rest) as Hh.
  { intros fl rest Hfl. unfold udpgw_header. by rewrite !uwrap_small by lia. }
  assert (forall fl rest, zlen (fl :: host16 id ++ rest) = 3 + zlen rest) as Hz by (intros; rewrite zlen_cons, zlen_app; change (zlen (host16 id)) with 2; lia).
  assert (forall fl rest, ltoh16 (le_val (sub (fl :: host16 id ++ rest) 1 2)) = id) as Hs by (intros fl rest; by apply host16_val).
  assert (forall fl : Z, 0 <= fl < 8 -> Z.land fl UDPGW_CLIENT_FLAG_IPV6 = 0 /\ Z.land (Z.lor fl UDPGW_CLIENT_FLAG_IPV6) UDPGW_CLIENT_FLAG_IPV6 = 8 /\ 0 <= Z.lor fl UDPGW_CLIENT_FLAG_IPV6 < 256) as Hfl.
  { intros fl H8. assert (fl = 0 \/ fl = 1 \/ fl = 2 \/ fl = 3 \/ fl = 4 \/ fl = 5 \/ fl = 6 \/ fl = 7) as Hc by lia. by repeat destruct Hc as [-> | Hc]; [..|subst fl]; vm_compute. }
  destruct (Hfl flags Hf) as (F1 & F2 & F3).
  destruct ra as [|ip port|ip port|]; cbn [addr_type address_bytes] in *; [by destruct Ht| | |by destruct Ht].
  - destruct Ha as [Hip Hp]. destruct (address4_read ip port data Hip Hp) as (E1 & E2 & E3 & E4). change (1 =? 2) with false. cbv iota. rewrite Hh by lia. rewrite Hz, E4. bool_false.
    cbn [lookup list_lookup mbind option_bind]. rewrite Hs. change (drop 3 (flags :: host16 id ++ udpgw_addr_ipv4 ip port ++ data)) with (udpgw_addr_ipv4 ip port ++ data). rewrite F1. change (negb (0 =? 0)) with false. cbv iota.
    rewrite E4. unfold sizeof_udpgw_addr_ipv4. bool_false. rewrite E1, E2, E3. by eexists.
  - destruct Ha as (_ & Hip & Hp). destruct (address6_read ip port data Hip Hp) as (E1 & E2 & E3 & E4). change (2 =? 2) with true. cbv iota. rewrite Hh by lia. rewrite Hz, E4. bool_false.
    cbn [lookup list_lookup mbind option_bind]. rewrite Hs. change (drop 3 (Z.lor flags UDPGW_CLIENT_FLAG_IPV6 :: host16 id ++ udpgw_addr_ipv6 ip port ++ data)) with (udpgw_addr_ipv6 ip port ++ data). rewrite F2. change (negb (8 =? 0)) with true. cbv iota.
    rewrite E4. unfold sizeof_udpgw_addr_ipv6. bool_false. rewrite E1, E2, E3. by eexists.
Qed.

Section World.
Context {F : Type} `{!SendFlow F} {T U : Type} `{!KeyTree conaddr_ok conaddr_comparator T} `{!KeyTree conid_ok uint16_comparator U}.
Context (malloc : Z -> option (list Z)).
#[local] Abbreviation t := (t (F := F) (T := T) (U := U)).

(** ** Environment *)

(** [ESending]: the queue gives the packet of a flow to its output, or takes one back as sent;
    [EKeepaliveTaken]: the keep-alive packet is one of them; [EPacket]: the decoder has a packet. *)
Inductive event :=
| ESubmit (la ra : BAddr) (dns : bool) (data : list Z) (a_con : option positive) | EFirst (con : positive)
| ESending (s : option qflow) | EKeepalive | EKeepaliveTaken | EConnect (mem : bool) | EDisconnect | EServerError | EPacket (data : list Z).

Definition enabled (o : t) (e : event) : bool :=
  match e with
  | ESubmit la ra dns data a_con => bool_decide (ip_addr la) && bool_decide (ip_addr ra) && (zlen data <=? udp_mtu o) && match a_con with Some con => bool_decide (conns o !! con = None) | None => true end
  | EFirst con => match conns o !! con with Some c => first_job c | None => false end
  | ESending s => match s with Some f => bool_decide (f ∈ q_flows (queue o)) | None => true end
  | EKeepalive => true
  | EKeepaliveTaken => match keepalive_if o with PBusy _ _ => true | PIdle => false end
  | EConnect _ => negb (have_server o)
  | EDisconnect | EServerError => have_server o
  | EPacket data => have_server o && (zlen data <=? udpgw_mtu o) && bool_decide (bytes_ok data)
  end.

(** The second result: what the user receives. *)
Definition exec (o : t) (e : event) : option (t * option (BAddr * BAddr * list Z)) :=
  match e with
  | ESubmit la ra dns data a_con => '(o, _) ← UdpGwClient_SubmitPacket malloc o la ra dns data a_con; Some (o, None)
  | EFirst con =>
      c ← conns o !! con;
      '(o, _) ← connection_first_job_handler (with_conns o (<[con := with_first_job c false]> (conns o))) con; Some (o, None)
  | ESending s => Some (with_queue o (mk_queue (q_flows (queue o)) s (q_freeing (queue o))), None)
  | EKeepalive => o ← send_monitor_handler o; Some (o, None)
  | EKeepaliveTaken => o ← keepalive_if_handler_done (with_keepalive o PIdle (keepalive_sending o)); Some (o, None)
  | EConnect mem => '(o, _) ← UdpGwClient_ConnectServer o mem; Some (o, None)
  | EDisconnect => o ← UdpGwClient_DisconnectServer o; Some (o, None)
  | EServerError => _ ← decoder_handler_error o; Some (o, None)
  | EPacket data => recv_interface_handler_send (with_server o (have_server o) (connected o) (PBusy (Some 0) (zlen data))) data
  end.

(** [reach_flow]: the jobs and the output of a connection's queue ran. *)
Inductive reach (o0 : t) : t -> Prop :=
| reach_init : reach o0 o0
| reach_flow o con c f : reach o0 o -> conns o !! con = Some c -> fl_step (send_if c) f -> reach o0 (with_conns o (<[con := with_flow c f]> (conns o)))
| reach_step o e o' r : reach o0 o -> enabled o e = true -> exec o e = Some (o', r) -> reach o0 o'.

(** ** Specification: a table of connections, the least recently used one first *)

(** [e_sent]: the packets queued for the server. *)
Record entry := mk_entry { e_addr : UdpGwClient_conaddr; e_id : Z; e_sent : list (list Z) }.
Definition entry_of (c : connection) : entry := mk_entry (conaddr c) (conid c) (fl_accepted (send_if c)).
Definition abs (o : t) (l : list positive) : list entry := omap (fun i => entry_of <$> conns o !! i) l.

(** The entry, with the packet if it was queued. *)
Definition sent (e : entry) (b : bool) (p : list Z) : entry := mk_entry (e_addr e) (e_id e) (if b then e_sent e ++ [p] else e_sent e).
Definition others (es : list entry) (a : UdpGwClient_conaddr) : list entry := List.filter (fun e => negb (bool_decide (e_addr e = a))) es.
Definition entry_for (es : list entry) (a : UdpGwClient_conaddr) : option entry := find (fun e => bool_decide (e_addr e = a)) es.
Definition entry_with_id (es : list entry) (id : Z) : option entry := find (fun e => e_id e =? id) es.

Definition dns_flag (dns : bool) : Z := if dns then UDPGW_CLIENT_FLAG_DNS else 0.

(** [b]: whether the connection's queue had a place for the packet. *)
Definition submitted (max : Z) (es : list entry) (a : UdpGwClient_conaddr) (dns : bool) (data : list Z) (a_con : option positive) (es' : list entry) : Prop :=
  match entry_for es a with
  | Some e => exists b, es' = others es a ++ [sent e b (packet (dns_flag dns) (e_id e) (remote_addr a) data)]
  | None =>
      if Z.of_nat (length es) =? max then
        exists e rest b, es = e :: rest /\ es' = rest ++ [sent (mk_entry a (e_id e) (e_sent e)) b (packet (Z.lor (dns_flag dns) UDPGW_CLIENT_FLAG_REBIND) (e_id e) (remote_addr a) data)]
      else
        (es' = es /\ (a_con = None \/ exists m n k, fl_init (F := F) malloc m n k = Some None)) \/
        exists id, 0 <= id < max /\ (id ∉ map e_id es) /\ es' = es ++ [mk_entry a id []]
  end.

(** What is received goes to the local address of the connection that the number names, if the
    remote address is its own. *)
Definition received (mtu : Z) (es : list entry) (data : list Z) (r : option (BAddr * BAddr * list Z)) (es' : list entry) : Prop :=
  match parse_packet data with
  | Some (_, id, ra, d) =>
      match entry_with_id es id with
      | Some e =>
          if (zlen d <=? mtu) && bool_decide (remote_addr (e_addr e) = ra) then r = Some (local_addr (e_addr e), ra, d) /\ es' = others es (e_addr e) ++ [e]
          else r = None /\ es' = es
      | None => r = None /\ es' = es
      end
  | None => r = None /\ es' = es
  end.

(** ** Invariant *)
Record con_ok (mtu gw max : Z) (c : connection (F := F)) : Prop := {
  c_addr : conaddr_ok (conaddr c);
  c_lip : ip_addr (local_addr (conaddr c));
  c_ip : ip_addr (remote_addr (conaddr c));
  c_id : 0 <= conid c < max;
  c_first : zlen (first_data c) <= mtu;
  c_flow : fl_ok (send_if c) /\ fl_mtu (send_if c) = gw;
}.

(** [fr]: whether the send queue is being freed. *)
Record inv (fr : bool) (o : t) (l : list positive) : Prop := {
  i_mtu : 0 <= udp_mtu o /\ udpgw_mtu o = udp_mtu o + 21 /\ udpgw_mtu o <= 65535 /\ pp_mtu o = udpgw_mtu o + 2 /\ 0 < send_buffer_size o <= 2 ^ 14;
  i_max : 0 < max_connections o <= 2 ^ 16;
  i_list : LinkedList1.rep (connections_list o) l;
  i_dom : forall i, i ∈ l <-> is_Some (conns o !! i);
  i_tree : tr_rep (conaddrs o) (connections_tree_by_conaddr o) (list_to_set l);
  i_ids : tr_rep (conids o) (connections_tree_by_conid o) (list_to_set l);
  i_num : num_connections o = Z.of_nat (length l) /\ num_connections o <= max_connections o;
  i_inj : forall i j c d, conns o !! i = Some c -> conns o !! j = Some d -> conaddr c = conaddr d -> i = j;
  i_idinj : forall i j c d, conns o !! i = Some c -> conns o !! j = Some d -> conid c = conid d -> i = j;
  i_con : forall i c, conns o !! i = Some c -> con_ok (udp_mtu o) (udpgw_mtu o) (max_connections o) c;
  i_next : 0 <= next_conid o < max_connections o;
  i_flows : forall f, f ∈ q_flows (queue o) <-> f = QKeepalive \/ exists i, i ∈ l /\ f = QCon i;
  i_sending : forall f, q_sending (queue o) = Some f -> f ∈ q_flows (queue o);
  i_freeing : q_freeing (queue o) = fr;
  i_keep : keepalive_sending o = match keepalive_if o with PBusy _ _ => true | PIdle => false end;
  i_server : connected o = have_server o /\ recv_if o = PIdle;
}.

Lemma inv_conaddrs fr o l : inv fr o l -> keys_ok conaddr_ok (conaddrs o) (list_to_set l).
Proof. intros I i Hi. apply elem_of_list_to_set, (i_dom _ _ _ I) in Hi as [c Hc]. unfold conaddrs. rewrite Hc. eexists. split; [done|]. apply (i_con _ _ _ I i c Hc). Qed.
Lemma inv_conids fr o l : inv fr o l -> keys_ok conid_ok (conids o) (list_to_set l).
Proof. intros I i Hi. apply elem_of_list_to_set, (i_dom _ _ _ I) in Hi as [c Hc]. unfold conids. rewrite Hc. by eexists. Qed.

Lemma find_addr_ok fr o l a : inv fr o l -> conaddr_ok a ->
  match find_connection_by_conaddr o a with Some i => exists c, conns o !! i = Some c /\ conaddr c = a | None => forall i c, conns o !! i = Some c -> conaddr c <> a end.
Proof.
  intros I Ha. pose proof (inv_conaddrs _ _ _ I) as Hk. unfold find_connection_by_conaddr. destruct (tr_lookup (conaddrs o) (connections_tree_by_conaddr o) a) as [i|] eqn:E.
  - destruct (tr_lookup_some _ _ _ _ _ (i_tree _ _ _ I) Hk Ha E) as (Hi & b & Hb & Hc). unfold conaddrs in Hb. destruct (conns o !! i) as [c|] eqn:Ec; [|done]. cbn in Hb. injection Hb as <-. exists c. split; [done|].
    symmetry. apply conaddr_eq; [done|apply (i_con _ _ _ I i c Ec)|done].
  - intros i c Hc Heq. apply (tr_lookup_none _ _ _ _ i (conaddr c) (i_tree _ _ _ I) Hk Ha E).
    + apply elem_of_list_to_set, (i_dom _ _ _ I). by eexists.
    + unfold conaddrs. by rewrite Hc.
    + apply conaddr_eq; [done|apply (i_con _ _ _ I i c Hc)|done].
Qed.
Lemma find_id_ok fr o l id : inv fr o l ->
  match find_connection_by_conid o id with Some i => exists c, conns o !! i = Some c /\ conid c = id | None => forall i c, conns o !! i = Some c -> conid c <> id end.
Proof.
  intros I. pose proof (inv_conids _ _ _ I) as Hk. unfold find_connection_by_conid. destruct (tr_lookup (conids o) (connections_tree_by_conid o) id) as [i|] eqn:E.
  - destruct (tr_lookup_some _ _ _ id _ (i_ids _ _ _ I) Hk Logic.I E) as (Hi & b & Hb & Hc). unfold conids in Hb. destruct (conns o !! i) as [c|] eqn:Ec; [|done]. cbn in Hb. injection Hb as <-. exists c. split; [done|]. symmetry. by apply conid_eq.
  - intros i c Hc Heq. apply (tr_lookup_none _ _ _ id i (conid c) (i_ids _ _ _ I) Hk Logic.I E); [apply elem_of_list_to_set, (i_dom _ _ _ I); by eexists|unfold conids; by rewrite Hc|by apply conid_eq].
Qed.

(** *** The table *)
Lemma gw_abs_cons o i l : abs o (i :: l) = match conns o !! i with Some c => entry_of c :: abs o l | None => abs o l end.
Proof. unfold abs. cbn. by destruct (conns o !! i). Qed.
Lemma gw_abs_app o l k : abs o (l ++ k) = abs o l ++ abs o k.
Proof. unfold abs. apply omap_app. Qed.
Lemma gw_abs_ext o o' l : (forall i, i ∈ l -> entry_of <$> conns o' !! i = entry_of <$> conns o !! i) -> abs o' l = abs o l.
Proof.
  induction l as [|k l IH]; intros H; [done|]. rewrite !gw_abs_cons. pose proof (H k ltac:(by left)) as Hk. rewrite IH by (intros i Hi; apply H; by right).
  destruct (conns o' !! k) as [x|], (conns o !! k) as [y|]; cbn [fmap option_fmap option_map] in Hk; try done. by assert (entry_of x = entry_of y) as -> by congruence.
Qed.
Lemma abs_insert_ne o o' l i c : i ∉ l -> conns o' = <[i := c]> (conns o) -> abs o' l = abs o l.
Proof. intros Hi E. apply gw_abs_ext. intros k Hk. rewrite E, lookup_insert_ne; [done|]. by intros ->. Qed.
Lemma elem_abs o l e : e ∈ abs o l <-> exists i c, i ∈ l /\ conns o !! i = Some c /\ e = entry_of c.
Proof.
  unfold abs. rewrite list_elem_of_omap. split.
  - intros (i & Hi & E). destruct (conns o !! i) as [c|] eqn:Hc; [|done]. cbn in E. injection E as <-. by exists i, c.
  - intros (i & c & Hi & Hc & ->). exists i. by rewrite Hc.
Qed.
Lemma gw_abs_length fr o l : inv fr o l -> length (abs o l) = length l.
Proof.
  intros I. assert (forall k, (forall i, i ∈ k -> is_Some (conns o !! i)) -> length (abs o k) = length k) as H; [|apply H; intros; by apply (i_dom _ _ _ I)].
  induction k as [|i k IH]; intros Hk; [done|]. rewrite gw_abs_cons. destruct (Hk i) as [c ->]; [by left|]. cbn. rewrite IH; [done|]. intros j Hj. apply Hk. by right.
Qed.

(** The place of a connection in the list. *)
Lemma place fr o l i c : inv fr o l -> conns o !! i = Some c -> exists l1 l2, l = l1 ++ i :: l2 /\ (i ∉ l1) /\ (i ∉ l2) /\ abs o l = abs o l1 ++ entry_of c :: abs o l2.
Proof.
  intros I Hc. assert (i ∈ l) as Hi by (apply (i_dom _ _ _ I); by eexists). destruct (LinkedList1.cut l i (proj1 (i_list _ _ _ I)) Hi) as (l1 & l2 & -> & H1 & _).
  exists l1, l2. split; [done|]. split; [done|]. pose proof (proj1 (i_list _ _ _ I)) as (_ & _ & [H2 _]%list.NoDup_cons)%list.NoDup_app. split; [done|]. rewrite gw_abs_app, gw_abs_cons, Hc. done.
Qed.

Lemma others_cons e es a : others (e :: es) a = if bool_decide (e_addr e = a) then others es a else e :: others es a.
Proof. unfold others. cbn. by destruct (bool_decide (e_addr e = a)). Qed.
Lemma others_none o l a : (forall i c, i ∈ l -> conns o !! i = Some c -> conaddr c <> a) -> others (abs o l) a = abs o l.
Proof.
  induction l as [|k l IH]; intros H; [done|]. rewrite gw_abs_cons. assert (others (abs o l) a = abs o l) as E by (apply IH; intros i c Hi; apply H; by right).
  destruct (conns o !! k) as [c|] eqn:Hc; [|done]. rewrite others_cons. rewrite bool_decide_false by (apply (H k); [by left|done]). by rewrite E.
Qed.
Lemma find_none_abs (P : entry -> bool) o l : (forall i c, i ∈ l -> conns o !! i = Some c -> P (entry_of c) = false) -> find P (abs o l) = None.
Proof.
  induction l as [|k l IH]; intros H; [done|]. rewrite gw_abs_cons. destruct (conns o !! k) as [c|] eqn:Hc; [|apply IH; intros i d Hi; apply H; by right].
  cbn. rewrite (H k c) by (by left || done). apply IH. intros i d Hi. apply H. by right.
Qed.
Lemma find_app_r (P : entry -> bool) xs ys : find P xs = None -> find P (xs ++ ys) = find P ys.
Proof. induction xs as [|x xs IH]; [done|]. cbn. destruct (P x); [done|]. apply IH. Qed.
Lemma others_app es es' a : others (es ++ es') a = others es a ++ others es' a.
Proof. apply List.filter_app. Qed.

(** A connection found, seen in the table. *)
Lemma table_at fr o l i c : inv fr o l -> conns o !! i = Some c -> exists l1 l2, l = l1 ++ i :: l2 /\ (i ∉ l1) /\ (i ∉ l2) /\
  entry_for (abs o l) (conaddr c) = Some (entry_of c) /\ entry_with_id (abs o l) (conid c) = Some (entry_of c) /\ others (abs o l) (conaddr c) = abs o (l1 ++ l2).
Proof.
  intros I Hc. destruct (place _ _ _ _ _ I Hc) as (l1 & l2 & -> & H1 & H2 & E). exists l1, l2. do 3 (split; [done|]).
  assert (forall k d, k ∈ l1 ++ l2 -> conns o !! k = Some d -> conaddr d <> conaddr c /\ conid d <> conid c) as Hne.
  { intros k d Hk Hd. assert (k <> i) as Hki by (intros ->; apply elem_of_app in Hk as [?|?]; done). split; intros Eq; apply Hki; [by apply (i_inj _ _ _ I k i d c)|by apply (i_idinj _ _ _ I k i d c)]. }
  rewrite E. unfold entry_for, entry_with_id. split; [|split].
  - rewrite find_app_r; [cbn; by rewrite bool_decide_true|]. apply find_none_abs. intros k d Hk Hd. cbn. apply bool_decide_false. apply (Hne k d); [apply elem_of_app; by left|done].
  - rewrite find_app_r; [cbn; by rewrite Z.eqb_refl|]. apply find_none_abs. intros k d Hk Hd. cbn. apply Z.eqb_neq. apply (Hne k d); [apply elem_of_app; by left|done].
  - rewrite others_app, gw_abs_app, others_cons. rewrite bool_decide_true by done. f_equal; apply others_none; intros k d Hk Hd; apply (Hne k d); try done; apply elem_of_app; auto.
Qed.

(** *** One connection changes *)
Lemma gw_set_con fr o l i c c' : inv fr o l -> conns o !! i = Some c -> conaddr c' = conaddr c -> conid c' = conid c -> con_ok (udp_mtu o) (udpgw_mtu o) (max_connections o) c' -> inv fr (with_conns o (<[i := c']> (conns o))) l.
Proof.
  intros [] Hi Ha Hd Hc.
  assert (forall k, is_Some (conns o !! k) <-> is_Some (<[i := c']> (conns o) !! k)) as Hdom.
  { intros k. destruct (decide (k = i)) as [-> |Hn]; [rewrite lookup_insert_eq, Hi; by split; eexists|by rewrite lookup_insert_ne]. }
  assert (forall k d, <[i := c']> (conns o) !! k = Some d -> exists d', conns o !! k = Some d' /\ conaddr d' = conaddr d /\ conid d' = conid d) as Hloc.
  { intros k d. destruct (decide (k = i)) as [-> |Hn]; [rewrite lookup_insert_eq; intros [= <-]; by exists c|]. rewrite lookup_insert_ne by done. intros ?. by exists d. }
  split; cbn; try done.
  - intros k. rewrite i_dom0. apply Hdom.
  - eapply tr_ext; [exact i_tree0|]. intros k _. unfold conaddrs. cbn. destruct (decide (k = i)) as [-> |Hn]; [rewrite lookup_insert_eq, Hi; cbn; by rewrite Ha|by rewrite lookup_insert_ne].
  - eapply tr_ext; [exact i_ids0|]. intros k _. unfold conids. cbn. destruct (decide (k = i)) as [-> |Hn]; [rewrite lookup_insert_eq, Hi; cbn; by rewrite Hd|by rewrite lookup_insert_ne].
  - intros a b ca cb Hca Hcb Heq. destruct (Hloc _ _ Hca) as (da & Hda & Ea & _), (Hloc _ _ Hcb) as (db & Hdb & Eb & _). apply (i_inj0 a b da db Hda Hdb). congruence.
  - intros a b ca cb Hca Hcb Heq. destruct (Hloc _ _ Hca) as (da & Hda & _ & Ea), (Hloc _ _ Hcb) as (db & Hdb & _ & Eb). apply (i_idinj0 a b da db Hda Hdb). congruence.
  - intros k d. destruct (decide (k = i)) as [-> |Hn]; [rewrite lookup_insert_eq; by intros [= <-]|]. rewrite lookup_insert_ne by done. apply i_con0.
Qed.

Lemma flow_con_ok mtu gw max c f : con_ok mtu gw max c -> fl_ok f -> fl_mtu f = gw -> con_ok mtu gw max (with_flow c f).
Proof. intros [] Hf Hm. by split. Qed.

(** A connection goes to the end of the list. *)
Lemma move_ok fr o l1 l2 i : inv fr o (l1 ++ i :: l2) -> exists o', move_to_end o i = Some o' /\ inv fr o' ((l1 ++ l2) ++ [i]) /\ conns o' = conns o /\ udp_mtu o' = udp_mtu o.
Proof.
  intros I. unfold move_to_end. destruct (LinkedList1.remove_ok _ _ _ _ (i_list _ _ _ I)) as (s1 & -> & R1 & O1). cbn [mbind option_bind].
  pose proof (proj1 (i_list _ _ _ I)) as (_ & Hn1 & [Hn2 _]%list.NoDup_cons)%list.NoDup_app.
  assert (i ∉ l1 ++ l2) as Hni by (intros [H|H]%elem_of_app; [apply (Hn1 i H); by left|done]).
  destruct (LinkedList1.append_ok s1 i) with (l := l1 ++ l2) as (s2 & -> & R2 & _); [|done|done|].
  { rewrite O1 by done. destruct (i_list _ _ _ I) as (_ & _ & _ & [_ [E _]]%LinkedList1.dll_app). rewrite E. by eexists. }
  cbn [mbind option_bind]. eexists. split; [done|]. split; [|done].
  assert (Permutation ((l1 ++ l2) ++ [i]) (l1 ++ i :: l2)) as Hp by (etrans; [apply Permutation_app_comm|]; cbn; apply Permutation_middle).
  destruct I. split; cbn; try done.
  - intros k. by rewrite Hp.
  - by rewrite (list_to_set_perm_L _ _ Hp).
  - by rewrite (list_to_set_perm_L _ _ Hp).
  - by rewrite (Permutation_length Hp).
  - intros f. rewrite i_flows0. by setoid_rewrite Hp.
Qed.

(** A packet is written, if there is a place for it. *)
Lemma zlen_address ra : ip_addr ra -> 0 <= zlen (address_bytes ra) <= 18.
Proof. intros [Ha Ht]. destruct ra as [|ip port|ip port|]; cbn [addr_type] in *; [by destruct Ht|by vm_compute| |by destruct Ht]. destruct Ha as (_ & Hip & _). cbn [address_bytes]. unfold udpgw_addr_ipv6. rewrite zlen_app, take_ge by (unfold zlen in Hip; lia). change (zlen (host16 port)) with 2. lia. Qed.

Lemma gw_send_ok fr o l i c flags data : inv fr o l -> conns o !! i = Some c -> zlen data <= udp_mtu o ->
  exists o' b f, connection_send o i flags data = Some (o', b) /\ inv fr o' l /\ udp_mtu o' = udp_mtu o /\ conns o' = <[i := with_flow c f]> (conns o) /\
    entry_of (with_flow c f) = sent (entry_of c) b (packet flags (conid c) (remote_addr (conaddr c)) data).
Proof.
  intros I Hc Hz. pose proof (i_con _ _ _ I i c Hc) as K. destruct (c_flow _ _ _ _ K) as [Hf Hm]. destruct (i_mtu _ _ _ I) as (M1 & M2 & _). unfold connection_send. rewrite Hc. cbn [mbind option_bind]. bool_true.
  destruct (fl_start_ok _ Hf) as ([[f out]|] & -> & W); cbn [mbind option_bind].
  2: { exists o, false, (send_if c). split; [done|]. split; [done|]. split; [done|]. rewrite insert_id by (by destruct c). by destruct c. }
  pose proof (zlen_address _ (c_ip _ _ _ _ K)) as Ha. set (ra := remote_addr (conaddr c)) in *. set (fl := if addr_type ra =? 2 then _ else _).
  assert (zlen (udpgw_header fl (conid c)) = 3) as Hh by done.
  destruct (fl_write_ok _ _ _ _ (udpgw_header fl (conid c)) W) as (f1 & E1 & W1); [change (zlen []) with 0; lia|]. change (zlen []) with 0 in E1. rewrite E1. cbn [mbind option_bind]. cbn [app] in W1.
  assert (exists f2, match ra with
      | ADDR_IPV4 ip port => f ← fl_write f1 out sizeof_udpgw_header (udpgw_addr_ipv4 ip port); Some (f, sizeof_udpgw_header + sizeof_udpgw_addr_ipv4)
      | ADDR_IPV6 ip port => f ← fl_write f1 out sizeof_udpgw_header (udpgw_addr_ipv6 ip port); Some (f, sizeof_udpgw_header + sizeof_udpgw_addr_ipv6)
      | _ => Some (f1, sizeof_udpgw_header)
      end = Some (f2, zlen (udpgw_header fl (conid c) ++ address_bytes ra)) /\ fl_writing (send_if c) f2 out (udpgw_header fl (conid c) ++ address_bytes ra)) as (f2 & -> & W2).
  { rewrite zlen_app, Hh. destruct (fl_write_ok _ _ _ _ (address_bytes ra) W1) as (f2 & E2 & W2); [lia|]. rewrite Hh in E2. exists f2. split; [|done]. unfold sizeof_udpgw_header.
    destruct (c_ip _ _ _ _ K) as [Hok Hty]. fold ra in Hok, Hty. destruct ra as [|ip port|ip port|]; cbn [addr_type address_bytes] in *; [by destruct Hty| | |by destruct Hty]; rewrite E2; cbn [mbind option_bind]; do 2 f_equal.
    destruct Hok as (_ & Hip & _). unfold udpgw_addr_ipv6, sizeof_udpgw_addr_ipv6. rewrite zlen_app, take_ge by (unfold zlen in Hip; lia). change (zlen (host16 port)) with 2. lia. }
  cbn [mbind option_bind]. destruct (fl_write_ok _ _ _ _ data W2) as (f3 & -> & W3); [rewrite zlen_app; lia|]. cbn [mbind option_bind].
  destruct (fl_end_ok _ _ _ _ W3) as (f4 & E4 & Hf4 & Hm4 & Ha4). rewrite zlen_app in E4. rewrite E4. cbn [mbind option_bind].
  exists (with_conns o (<[i := with_flow c f4]> (conns o))), true, f4. split; [done|]. split; [|split; [done|]; split; [done|]].
  - apply (gw_set_con fr o l i c); try done. apply flow_con_ok; [done|done|congruence].
  - unfold entry_of, sent, packet. cbn. by rewrite Ha4, <- app_assoc.
Qed.

(** *** Numbers *)
Lemma next_inv fr o l n : inv fr o l -> 0 <= n < max_connections o -> inv fr (with_next o n) l.
Proof. intros [] Hn. by split. Qed.

(** A round that finds no unused number saw a used one. *)
Lemma loop_spec fr l fuel : forall o, inv fr o l ->
  (exists n, find_unused_loop fuel o = Some (with_next o n, n) /\ 0 <= n < max_connections o /\ forall i c, conns o !! i = Some c -> conid c <> n) \/
  (forall j, 0 <= j < Z.of_nat fuel -> exists i c, conns o !! i = Some c /\ conid c = (next_conid o + j) mod max_connections o).
Proof.
  induction fuel as [|fuel IH]; intros o I; [right; intros j Hj; lia|]. pose proof (i_next _ _ _ I) as Hn. pose proof (i_max _ _ _ I) as Hm. cbn [find_unused_loop].
  assert (u16 (next_conid o) = next_conid o) as Eu by (apply uwrap_small; lia). rewrite Eu. pose proof (find_id_ok _ _ _ (next_conid o) I) as Hf.
  destruct (find_connection_by_conid o (next_conid o)) as [i|].
  - destruct Hf as (c & Hc & Hid). set (n' := if next_conid o =? max_connections o - 1 then 0 else next_conid o + 1).
    assert (0 <= n' < max_connections o /\ n' = (next_conid o + 1) mod max_connections o) as [Hn' En'].
    { unfold n'. destruct (Z.eqb_spec (next_conid o) (max_connections o - 1)); (split; [lia|]). - replace (next_conid o + 1) with (max_connections o) by lia. by rewrite Z.mod_same by lia. - by rewrite Z.mod_small by lia. }
    destruct (IH (with_next o n') (next_inv _ _ _ _ I Hn')) as [(n & E & H1 & H2)|H]; [left; by exists n|right]. intros j Hj. cbn in H. destruct (Z.eq_dec j 0) as [->|Hj0].
    + exists i, c. split; [done|]. rewrite Z.add_0_r, Z.mod_small by lia. done.
    + destruct (H (j - 1)) as (i' & c' & Hc' & E'); [lia|]. exists i', c'. split; [done|]. rewrite E', En'. rewrite Zplus_mod_idemp_l. f_equal. lia.
  - left. exists (next_conid o). split; [by destruct o|done].
Qed.

Lemma find_unused_ok fr o l : inv fr o l -> num_connections o < max_connections o ->
  exists n, find_unused_conid o = Some (with_next o n, n) /\ 0 <= n < max_connections o /\ forall i c, conns o !! i = Some c -> conid c <> n.
Proof.
  intros I Hnum. unfold find_unused_conid. bool_true. pose proof (i_max _ _ _ I) as Hm. destruct (loop_spec fr l (Z.to_nat (max_connections o)) o I) as [?|H]; [done|exfalso].
  set (ids := map e_id (abs o l)). set (cands := map (fun j => (next_conid o + Z.of_nat j) mod max_connections o) (seq 0 (Z.to_nat (max_connections o)))).
  assert (length ids = length l) as Hl by (unfold ids; by rewrite length_map, (gw_abs_length _ _ _ I)).
  assert (length cands <= length ids)%nat as Hle.
  { apply NoDup_incl_length.
    - apply NoDup_ListNoDup. unfold cands. apply NoDup_fmap_2_strong; [|apply NoDup_seq]. intros x y Hx%elem_of_seq Hy%elem_of_seq E.
      assert (0 <= Z.of_nat x < max_connections o /\ 0 <= Z.of_nat y < max_connections o) as [Hx' Hy'] by lia.
      assert ((Z.of_nat x - Z.of_nat y) mod max_connections o = 0) as E0.
      { replace (Z.of_nat x - Z.of_nat y) with ((next_conid o + Z.of_nat x) - (next_conid o + Z.of_nat y)) by lia. by rewrite Zminus_mod, E, Z.sub_diag, Zmod_0_l. }
      apply Z.mod_divide in E0; [|lia]. destruct E0 as [k Ek]. assert (k = 0) by nia. lia.
    - intros x Hx%in_map_iff. destruct Hx as (jn & <- & Hj%in_seq). destruct (H (Z.of_nat jn)) as (i & c & Hc & <-); [lia|]. apply in_map_iff. exists (entry_of c). split; [done|].
      apply list_elem_of_In, elem_abs. exists i, c. split; [apply (i_dom _ _ _ I); by eexists|done]. }
  unfold cands in Hle. rewrite length_map, length_seq, Hl in Hle. destruct (i_num _ _ _ I). lia.
Qed.

(** *** A new connection *)
Context (malloc_size : forall n m, malloc n = Some m -> zlen m = n).

Lemma queue_inv fr o l q : inv fr o l -> (forall f, f ∈ q_flows q <-> f ∈ q_flows (queue o)) -> q_sending q = q_sending (queue o) -> q_freeing q = fr -> inv fr (with_queue o q) l.
Proof. intros [] Hq Hs Hf. split; cbn; try done; [intros f; by rewrite Hq|]. intros f. rewrite Hs, Hq. auto. Qed.

(** The flow of a new connection is added to the queue and freed again. *)
Lemma flow_init_free q con : q_freeing q = false -> QCon con ∉ q_flows q -> q_sending q <> Some (QCon con) ->
  flow_free (mk_queue (QCon con :: q_flows q) (q_sending q) false) (QCon con) = Some (mk_queue (q_flows q) (q_sending q) false).
Proof.
  intros Hf Hn Hs. unfold flow_free, flow_assert_free. cbn [q_flows q_sending q_freeing orb]. rewrite (bool_decide_false (q_sending q = Some (QCon con))) by done. rewrite bool_decide_true by (by left). cbn [negb]. rewrite without_cons_eq, without_id by done. done.
Qed.

Lemma init_con_ok o l a flags data a_con : inv false o l -> num_connections o < max_connections o -> conaddr_ok a -> ip_addr (local_addr a) -> ip_addr (remote_addr a) -> zlen data <= udp_mtu o ->
  find_connection_by_conaddr o a = None -> (forall i c, conns o !! i = Some c -> conaddr c <> a) -> (forall con, a_con = Some con -> conns o !! con = None) ->
  exists o' l', connection_init malloc o a flags data a_con = Some o' /\ inv false o' l' /\ udp_mtu o' = udp_mtu o /\
    ((abs o' l' = abs o l /\ (a_con = None \/ exists m n k, fl_init (F := F) malloc m n k = Some None)) \/
     exists id, 0 <= id < max_connections o /\ (id ∉ map e_id (abs o l)) /\ abs o' l' = abs o l ++ [mk_entry a id []]).
Proof using malloc_size.
  intros I Hnum Ha Hlip Hip Hz Hf Hnew Hfresh. unfold connection_init. bool_true. rewrite bool_decide_true by done. bool_true.
  destruct a_con as [con|]; [|exists o, l; split; [done|]; split; [done|]; split; [done|]; left; auto]. specialize (Hfresh con eq_refl).
  destruct (find_unused_ok _ _ _ I Hnum) as (n & -> & Hn & Hun). cbn [mbind option_bind]. destruct (i_mtu _ _ _ I) as (M1 & M2 & M3 & M4 & M5).
  assert (con ∉ l) as Hcl by (intros H; apply (i_dom _ _ _ I) in H as [? H]; congruence).
  assert (QCon con ∉ q_flows (queue o)) as Hcf by (intros H; apply (i_flows _ _ _ I) in H as [?|(i & Hi & [= <-])]; done).
  pose proof (i_freeing _ _ _ I) as Hfr. unfold flow_init. cbn [queue with_next]. rewrite Hfr. cbn [negb mbind option_bind].
  destruct (fl_init_ok (F := F) malloc (udpgw_mtu o) (send_buffer_size o) (pp_mtu o) malloc_size) as (r & E & Hr); [lia|lia|lia|].
  cbn [udpgw_mtu send_buffer_size pp_mtu with_queue with_next]. rewrite E. cbn [mbind option_bind]. destruct r as [f|].
  2: { cbn [queue with_queue]. rewrite flow_init_free; [|done|done|]. 2: { intros H. by apply Hcf, (i_sending _ _ _ I). }
    cbn [mbind option_bind]. eexists _, l. split; [done|]. split; [|split; [done|]; left; split; [done|]; right; eauto]. apply (queue_inv false (with_next o n)); [by apply next_inv|done..]. }
  destruct (Hr f eq_refl) as (Hfo & Hfm & Hfa). set (c := mk_con a flags data n true f). cbv zeta.
  set (q := mk_queue (QCon con :: q_flows (queue o)) (q_sending (queue o)) false).
  set (o1 := with_conns (with_queue (with_next o n) q) (<[con := c]> (conns o))).
  change (with_conns (with_queue (with_next o n) q) (<[con := c]> (conns (with_queue (with_next o n) q)))) with o1.
  assert (forall k, k ∈ (list_to_set l : gset positive) -> conaddrs o1 k = conaddrs o k /\ conids o1 k = conids o k) as Hext.
  { intros k Hk%elem_of_list_to_set. unfold conaddrs, conids, o1. cbn. rewrite lookup_insert_ne; [done|]. by intros <-. }
  assert (tr_rep (conaddrs o1) (connections_tree_by_conaddr o) (list_to_set l)) as R1 by (eapply tr_ext; [apply I|]; intros; by apply Hext).
  assert (tr_rep (conids o1) (connections_tree_by_conid o) (list_to_set l)) as R2 by (eapply tr_ext; [apply I|]; intros; by apply Hext).
  assert (keys_ok conaddr_ok (conaddrs o1) (list_to_set l)) as K1 by (intros k Hk; rewrite (proj1 (Hext k Hk)); by apply (inv_conaddrs _ _ _ I)).
  assert (keys_ok conid_ok (conids o1) (list_to_set l)) as K2 by (intros k Hk; rewrite (proj2 (Hext k Hk)); by apply (inv_conids _ _ _ I)).
  assert (con ∉ (list_to_set l : gset positive)) as Hcs by (by rewrite elem_of_list_to_set).
  assert (conaddrs o1 con = Some a /\ conids o1 con = Some n) as [Ka Kn] by (unfold conaddrs, conids, o1; cbn; by rewrite lookup_insert_eq).
  destruct (tr_insert_ok _ _ _ con a R1 K1 Hcs Ka Ha) as (tr & Etr & Rtr).
  { intros k b Hk Hb. rewrite (proj1 (Hext k Hk)) in Hb. unfold conaddrs in Hb. destruct (conns o !! k) as [d|] eqn:Hd; [|done]. cbn in Hb. injection Hb as <-. intros Eq%conaddr_eq; [by apply (Hnew k d)|done|apply (i_con _ _ _ I k d Hd)]. }
  destruct (tr_insert_ok _ _ _ con n R2 K2 Hcs Kn Logic.I) as (tid & Etid & Rtid).
  { intros k b Hk Hb. rewrite (proj2 (Hext k Hk)) in Hb. unfold conids in Hb. destruct (conns o !! k) as [d|] eqn:Hd; [|done]. cbn in Hb. injection Hb as <-. intros Eq%(proj1 (conid_eq _ _)). exact (Hun k d Hd (eq_sym Eq)). }
  change (connections_tree_by_conaddr o1) with (connections_tree_by_conaddr o). rewrite Etr. cbn [mbind option_bind]. change (connections_tree_by_conid o1) with (connections_tree_by_conid o). rewrite Etid. cbn [mbind option_bind].
  assert (LinkedList1.rep (LinkedList1.with_node (connections_list o1) con (LinkedList1.mk_node None None)) l) as Rl.
  { eapply LinkedList1.rep_ext; [exact (i_list _ _ _ I)|done|done|]. intros x Hx. cbn. rewrite lookup_insert_ne; [done|]. by intros <-. }
  destruct (LinkedList1.append_ok (LinkedList1.with_node (connections_list o1) con (LinkedList1.mk_node None None)) con) with (l := l) as (ls & -> & Rls & _); [cbn; rewrite lookup_insert_eq; by eexists|done|done|].
  cbn [mbind option_bind]. eexists _, (l ++ [con]). split; [done|]. split; [|split; [done|right; exists n; split; [done|]; split]].
  - destruct I. split; cbn; try done.
    + intros k. rewrite elem_of_app, list_elem_of_singleton. destruct (decide (k = con)) as [-> |Hk]; [rewrite lookup_insert_eq; split; [by eexists|auto]|]. rewrite lookup_insert_ne by done. rewrite <- i_dom0. tauto.
    + rewrite list_to_set_app_L. cbn. rewrite (union_comm_L (list_to_set l)), union_empty_r_L. exact Rtr.
    + rewrite list_to_set_app_L. cbn. rewrite (union_comm_L (list_to_set l)), union_empty_r_L. exact Rtid.
    + rewrite length_app. cbn. lia.
    + intros i k ci ck. destruct (decide (i = con)) as [-> |Hi], (decide (k = con)) as [-> |Hk]; rewrite ?lookup_insert_eq, ?lookup_insert_ne by done; try done; intros H1 H2; [injection H1 as <-|injection H2 as <-|]; cbn; intros Heq; [by destruct (Hnew k ck)|by destruct (Hnew i ci)|by apply (i_inj0 i k ci ck)].
    + intros i k ci ck. destruct (decide (i = con)) as [-> |Hi], (decide (k = con)) as [-> |Hk]; rewrite ?lookup_insert_eq, ?lookup_insert_ne by done; try done; intros H1 H2; [injection H1 as <-|injection H2 as <-|]; cbn; intros Heq; [by destruct (Hun k ck)|by destruct (Hun i ci)|by apply (i_idinj0 i k ci ck)].
    + intros k d. destruct (decide (k = con)) as [-> |Hk]; [rewrite lookup_insert_eq; intros [= <-]; by split|]. rewrite lookup_insert_ne by done. apply i_con0.
    + intros g. rewrite elem_of_cons, i_flows0. setoid_rewrite elem_of_app. setoid_rewrite list_elem_of_singleton. split.
      * intros [-> |[-> |(i & Hi & ->)]]; [right; exists con; auto|by left|right; exists i; auto].
      * intros [-> |(i & [Hi| ->] & ->)]; [auto|right; right; by exists i|by left].
    + intros g Hg. right. by apply i_sending0.
  - intros (e & Ee & Hin)%list_elem_of_fmap. apply elem_abs in Hin as (i & d & _ & Hd & ->). by apply (Hun i d Hd).
  - rewrite gw_abs_app, gw_abs_cons. cbn [conns with_tables]. unfold o1. cbn [conns with_conns with_tables]. rewrite lookup_insert_eq. f_equal; [by apply (abs_insert_ne _ _ l con c)|]. unfold entry_of. cbn. by rewrite Hfa.
Qed.

(** *** The least recently used connection gets other addresses *)
Lemma reuse_ok fr o i l a : inv fr o (i :: l) -> conaddr_ok a -> ip_addr (local_addr a) -> ip_addr (remote_addr a) -> find_connection_by_conaddr o a = None -> (forall k c, conns o !! k = Some c -> conaddr c <> a) ->
  exists o' c, reuse_connection o a = Some (o', i) /\ inv fr o' (i :: l) /\ udp_mtu o' = udp_mtu o /\ conns o !! i = Some c /\ conns o' = <[i := with_conaddr c a]> (conns o).
Proof.
  intros I Ha Hlip Hip Hf Hnew. unfold reuse_connection. rewrite bool_decide_true by done. destruct (i_num _ _ _ I) as [Hnum _]. rewrite Hnum. cbn [length]. rewrite (proj2 (Z.gtb_lt _ _)) by lia.
  pose proof (i_list _ _ _ I) as (Hnd & Hfst & _). unfold LinkedList1.LinkedList1_GetFirst. rewrite Hfst. cbn [LinkedList1.head_or mbind option_bind].
  assert (i ∈ (list_to_set (i :: l) : gset positive)) as His by (rewrite elem_of_list_to_set; by left). apply list.NoDup_cons in Hnd as [Hil _].
  destruct (tr_remove_ok _ _ _ i (i_tree _ _ _ I) (inv_conaddrs _ _ _ I) His) as (tr & -> & Rtr). cbn [mbind option_bind].
  assert (list_to_set (i :: l) ∖ {[i]} = (list_to_set l : gset positive)) as Eset.
  { apply set_eq. intros x. rewrite elem_of_difference, !elem_of_list_to_set, elem_of_cons, elem_of_singleton. split; [by intros [[?|?] ?]|]. intros Hx. split; [by right|]. by intros ->. }
  rewrite Eset in Rtr. destruct (proj1 (i_dom _ _ _ I i)) as [c Hc]; [by left|]. rewrite Hc. cbn [mbind option_bind]. cbv zeta. set (o1 := with_conns o (<[i := with_conaddr c a]> (conns o))).
  assert (forall k, k ∈ (list_to_set l : gset positive) -> conaddrs o1 k = conaddrs o k) as Hext by (intros k Hk%elem_of_list_to_set; unfold conaddrs, o1; cbn; rewrite lookup_insert_ne; [done|]; by intros <-).
  assert (keys_ok conaddr_ok (conaddrs o1) (list_to_set l)) as K1.
  { intros k Hk. rewrite (Hext k Hk). apply (inv_conaddrs _ _ _ I). rewrite elem_of_list_to_set in *. by right. }
  destruct (tr_insert_ok (conaddrs o1) tr (list_to_set l) i a) as (tr' & Etr & Rtr').
  { by eapply tr_ext. } { done. } { by rewrite elem_of_list_to_set. } { unfold conaddrs, o1. cbn. by rewrite lookup_insert_eq. } { done. }
  { intros k b Hk Hb. rewrite (Hext k Hk) in Hb. unfold conaddrs in Hb. destruct (conns o !! k) as [d|] eqn:Hd; [|done]. cbn in Hb. injection Hb as <-. intros Eq%conaddr_eq; [by apply (Hnew k d)|done|apply (i_con _ _ _ I k d Hd)]. }
  rewrite Etr. cbn [mbind option_bind]. eexists _, c. split; [done|]. split; [|done].
  pose proof (i_con _ _ _ I i c Hc) as K. destruct I. split; cbn; try done.
  - intros k. rewrite i_dom0. destruct (decide (k = i)) as [-> |Hk]; [rewrite lookup_insert_eq, Hc; by split; eexists|by rewrite lookup_insert_ne].
  - eapply tr_ext; [exact i_ids0|]. intros k _. unfold conids. cbn. destruct (decide (k = i)) as [-> |Hk]; [by rewrite lookup_insert_eq, Hc|by rewrite lookup_insert_ne].
  - intros x y cx cy. destruct (decide (x = i)) as [-> |Hx], (decide (y = i)) as [-> |Hy]; rewrite ?lookup_insert_eq, ?lookup_insert_ne by done; try done; intros H1 H2; [injection H1 as <-|injection H2 as <-|]; cbn; intros Heq; [by destruct (Hnew y cy)|by destruct (Hnew x cx)|by apply (i_inj0 x y cx cy)].
  - intros x y cx cy. destruct (decide (x = i)) as [-> |Hx], (decide (y = i)) as [-> |Hy]; rewrite ?lookup_insert_eq, ?lookup_insert_ne by done; try done; intros H1 H2; [injection H1 as <-|injection H2 as <-|]; cbn; intros Heq; [by apply (i_idinj0 i y c cy)|by apply (i_idinj0 x i cx c)|by apply (i_idinj0 x y cx cy)].
  - intros k d. destruct (decide (k = i)) as [-> |Hk]; [rewrite lookup_insert_eq; intros [= <-]; destruct K; by split|]. rewrite lookup_insert_ne by done. apply i_con0.
Qed.

(** A known connection, or one that got new addresses, goes to the end and sends. *)
Lemma move_send fr o l1 l2 i c flags data : inv fr o (l1 ++ i :: l2) -> conns o !! i = Some c -> zlen data <= udp_mtu o ->
  exists o' b, (o ← move_to_end o i; connection_send o i flags data) = Some (o', b) /\ inv fr o' ((l1 ++ l2) ++ [i]) /\
    abs o' ((l1 ++ l2) ++ [i]) = abs o (l1 ++ l2) ++ [sent (entry_of c) b (packet flags (conid c) (remote_addr (conaddr c)) data)].
Proof.
  intros I Hc Hz. destruct (move_ok _ _ _ _ _ I) as (o1 & -> & I1 & C1 & M1). cbn [mbind option_bind].
  assert (conns o1 !! i = Some c) as Hc1 by (by rewrite C1). destruct (gw_send_ok _ o1 _ i c flags data I1 Hc1) as (o2 & b & f & -> & I2 & _ & C2 & E2); [by rewrite M1|].
  exists o2, b. split; [done|]. split; [done|]. rewrite gw_abs_app, gw_abs_cons, C2, lookup_insert_eq, E2. f_equal.
  pose proof (proj1 (i_list _ _ _ I1)) as (_ & Hd & _)%list.NoDup_app. assert (i ∉ l1 ++ l2) as Hni by (intros H; apply (Hd i H); by left).
  rewrite (abs_insert_ne o1 o2 _ i _ Hni C2). apply gw_abs_ext. intros k _. by rewrite C1.
Qed.

Lemma gw_submit_ok o l la ra dns data a_con : inv false o l -> enabled o (ESubmit la ra dns data a_con) = true ->
  exists o' l', exec o (ESubmit la ra dns data a_con) = Some (o', None) /\ inv false o' l' /\ submitted (max_connections o) (abs o l) (mk_conaddr la ra) dns data a_con (abs o' l').
Proof using malloc_size.
  intros I He. cbn [enabled] in He. apply andb_true_iff in He as [[[Hla%bool_decide_eq_true Hra%bool_decide_eq_true]%andb_true_iff Hz%Z.leb_le]%andb_true_iff Hfr].
  cbn [exec]. unfold UdpGwClient_SubmitPacket. assert (conaddr_ok (mk_conaddr la ra)) as Ha by (split; [apply Hla|apply Hra]).
  assert ((addr_type la =? 1) || (addr_type la =? 2) = true) as -> by (destruct Hla as [_ [-> | ->]]; done). assert ((addr_type ra =? 1) || (addr_type ra =? 2) = true) as -> by (destruct Hra as [_ [-> | ->]]; done). bool_true.
  pose proof (find_addr_ok _ _ _ _ I Ha) as Hf. destruct (i_num _ _ _ I) as [Hnum Hle]. change (if dns then Z.lor 0 UDPGW_CLIENT_FLAG_DNS else 0) with (dns_flag dns). unfold submitted.
  destruct (find_connection_by_conaddr o (mk_conaddr la ra)) as [i|] eqn:Ef.
  - destruct Hf as (c & Hc & Eca). rewrite (bool_decide_false (Some i = None)) by done. cbn [andb mbind option_bind]. destruct (table_at _ _ _ _ _ I Hc) as (l1 & l2 & -> & H1 & H2 & T1 & _ & T3). rewrite <- Eca, T1, T3.
    destruct (move_send _ _ _ _ _ c (dns_flag dns) data I Hc Hz) as (o' & b & E & I' & A). rewrite E. cbn [mbind option_bind]. exists o', ((l1 ++ l2) ++ [i]). split; [done|]. split; [done|]. exists b. exact A.
  - rewrite (bool_decide_true (None = None)) by done. assert (entry_for (abs o l) (mk_conaddr la ra) = None) as -> by (apply find_none_abs; intros k d _ Hd; cbn; apply bool_decide_false; by apply (Hf k d)).
    rewrite (gw_abs_length _ _ _ I), <- Hnum. cbn [andb]. destruct (Z.eqb_spec (num_connections o) (max_connections o)) as [Hfull|Hroom].
    + pose proof (i_max _ _ _ I). destruct l as [|i l]; [cbn in Hnum; lia|]. destruct (reuse_ok _ _ _ _ _ I Ha Hla Hra Ef Hf) as (o1 & c & -> & I1 & M1 & Hc & C1). cbn [mbind option_bind].
      assert (conns o1 !! i = Some (with_conaddr c (mk_conaddr la ra))) as Hc1 by (by rewrite C1, lookup_insert_eq).
      destruct (move_send _ o1 [] l i _ (Z.lor (dns_flag dns) UDPGW_CLIENT_FLAG_REBIND) data I1 Hc1) as (o' & b & E & I' & A); [by rewrite M1|]. cbn [mbind option_bind] in E. rewrite E. cbn [mbind option_bind].
      exists o', (l ++ [i]). split; [done|]. split; [done|]. exists (entry_of c), (abs o l), b. split; [by rewrite gw_abs_cons, Hc|]. cbn [app] in A. rewrite A. f_equal.
      pose proof (proj1 (i_list _ _ _ I)) as [Hil _]%list.NoDup_cons. by apply (abs_insert_ne o o1 l i (with_conaddr c (mk_conaddr la ra)) Hil).
    + cbn [mbind option_bind]. destruct (init_con_ok o l (mk_conaddr la ra) (dns_flag dns) data a_con I) as (o' & l' & -> & I' & _ & Hcase); try done; [lia|by intros con ->; apply bool_decide_eq_true in Hfr|].
      cbn [mbind option_bind]. by exists o', l'.
Qed.

(** *** The other events *)
Lemma first_ok o l con c : inv false o l -> conns o !! con = Some c -> exists o' b es1 es2, exec o (EFirst con) = Some (o', None) /\ inv false o' l /\ abs o l = es1 ++ entry_of c :: es2 /\
  abs o' l = es1 ++ sent (entry_of c) b (packet (Z.lor UDPGW_CLIENT_FLAG_REBIND (first_flags c)) (conid c) (remote_addr (conaddr c)) (first_data c)) :: es2.
Proof.
  intros I Hc. cbn [exec]. rewrite Hc. cbn [mbind option_bind]. set (c1 := with_first_job c false). set (o1 := with_conns o (<[con := c1]> (conns o))).
  pose proof (i_con _ _ _ I con c Hc) as K. assert (inv false o1 l) as I1 by (apply (gw_set_con false o l con c); try done; destruct K; by split).
  assert (conns o1 !! con = Some c1) as Hc1 by (unfold o1; cbn; by rewrite lookup_insert_eq). unfold connection_first_job_handler. rewrite Hc1. cbn [mbind option_bind].
  destruct (gw_send_ok _ o1 l con c1 (Z.lor UDPGW_CLIENT_FLAG_REBIND (first_flags c1)) (first_data c1) I1 Hc1 (c_first _ _ _ _ K)) as (o2 & b & f & -> & I2 & _ & C2 & E2). cbn [mbind option_bind].
  destruct (place _ _ _ _ _ I Hc) as (l1 & l2 & -> & H1 & H2 & A). exists o2, b, (abs o l1), (abs o l2). split; [done|]. split; [done|]. split; [done|].
  rewrite gw_abs_app, gw_abs_cons, C2, lookup_insert_eq, E2.
  assert (forall k, con ∉ k -> abs o2 k = abs o k) as Hk by (intros k Hk; rewrite (abs_insert_ne o1 o2 k con _ Hk C2); by apply (abs_insert_ne o o1 k con c1 Hk)). by rewrite !Hk.
Qed.

Lemma server_inv fr o l h : inv fr o l -> inv fr (with_server o h h PIdle) l.
Proof. intros []. by split. Qed.

Lemma parse_packet_ok data fl id ra d : bytes_ok data -> parse_packet data = Some (fl, id, ra, d) -> ip_addr ra.
Proof.
  intros Hb. unfold parse_packet, sizeof_udpgw_header, sizeof_udpgw_addr_ipv6, sizeof_udpgw_addr_ipv4. case_if; [done|]. destruct (data !! 0%nat); [|done]. cbn [mbind option_bind].
  assert (bytes_ok (drop 3 data)) as Hd by (by apply Forall_drop).
  case_if; (case_if; [done|]); intros [= <- <- <- <-].
  - split; [|by right]. cbn. split; [by apply Forall_take, Forall_drop|]. split; [rewrite zlen_sub; lia|]. change (2 ^ 16) with (256 ^ 2). apply le_val_sub_range; [done|lia..].
  - split; [|by left]. cbn. change (2 ^ 16) with (256 ^ 2). change (2 ^ 32) with (256 ^ 4). split; apply le_val_sub_range; (done || lia).
Qed.

Lemma packet_ok o l data : inv false o l -> enabled o (EPacket data) = true -> exists o' r l', exec o (EPacket data) = Some (o', r) /\ inv false o' l' /\ received (udp_mtu o) (abs o l) data r (abs o' l').
Proof.
  intros I He. cbn [enabled] in He. apply andb_true_iff in He as [[Hs Hz]%andb_true_iff Hb%bool_decide_eq_true]. cbn [exec]. unfold recv_interface_handler_send. rewrite Hs. set (o0 := with_server o true (connected o) (PBusy (Some 0) (zlen data))). change (have_server o0) with true. change (udpgw_mtu o0) with (udpgw_mtu o). rewrite Hz. change (PacketPassInterface_Done (recv_if o0)) with (Some PIdle). cbn [mbind option_bind]. change (connected o0) with (connected o).
  set (o1 := with_server o0 true (connected o) PIdle). destruct (i_server _ _ _ I) as [Hcn _]. assert (inv false o1 l) as I1 by (unfold o1, o0; rewrite Hcn, Hs; by apply (server_inv false o l true)).
  assert (abs o1 = abs o) as EA by done. assert (udp_mtu o1 = udp_mtu o) as EM by done. assert (forall k, abs o1 k = abs o k) as EA' by done. unfold received. destruct (parse_packet data) as [[[[fl id] ra] d]|] eqn:Ep; [|by exists o1, None, l].
  rewrite EM. pose proof (parse_packet_ok _ _ _ _ _ Hb Ep) as Hra. pose proof (find_id_ok _ _ _ id I1) as Hf. destruct (find_connection_by_conid o1 id) as [con|].
  - destruct Hf as (c & Hc & <-). destruct (table_at _ _ _ _ _ I1 Hc) as (l1 & l2 & -> & H1 & H2 & _ & T2 & T3). rewrite EA in T2, T3. rewrite T2. cbn [entry_of e_addr].
    destruct (Z.gtb_spec (zlen d) (udp_mtu o)) as [Hg|Hg]; [rewrite (proj2 (Z.leb_gt _ _)) by lia; by exists o1, None, (l1 ++ con :: l2)|]. rewrite (proj2 (Z.leb_le _ _)) by lia. cbn [andb]. rewrite Hc. cbn [mbind option_bind].
    assert ((BAddr_CompareOrder (remote_addr (conaddr c)) ra =? 0) = bool_decide (remote_addr (conaddr c) = ra)) as ->.
    { pose proof (compare_eq (remote_addr (conaddr c)) ra) as Hce. specialize (Hce (proj1 (c_ip _ _ _ _ (i_con _ _ _ I1 con c Hc))) (proj1 Hra)). case_bool_decide as Hcb; [apply Z.eqb_eq; tauto|apply Z.eqb_neq; tauto]. }
    case_bool_decide as Hq; cbn [negb]; [|by exists o1, None, (l1 ++ con :: l2)].
    destruct (move_ok _ _ _ _ _ I1) as (o2 & -> & I2 & C2 & _). cbn [mbind option_bind]. exists o2, (Some (local_addr (conaddr c), remote_addr (conaddr c), d)), ((l1 ++ l2) ++ [con]). split; [done|]. split; [done|]. rewrite Hq. split; [done|].
    rewrite T3, gw_abs_app, gw_abs_cons, C2, Hc. f_equal. rewrite <- EA'. apply gw_abs_ext. intros k _. by rewrite C2.
  - assert (entry_with_id (abs o l) id = None) as -> by (apply find_none_abs; intros k x _ Hx; cbn; apply Z.eqb_neq; by apply (Hf k x)).
    exists o1, None, l. split; [|done]. by destruct (zlen d >? udp_mtu o).
Qed.

(** What an event does to the table. *)
Definition effect (o : t) (es : list entry) (e : event) (r : option (BAddr * BAddr * list Z)) (es' : list entry) : Prop :=
  match e with
  | ESubmit la ra dns data a_con => r = None /\ submitted (max_connections o) es (mk_conaddr la ra) dns data a_con es'
  | EFirst con => r = None /\ exists c b es1 es2, conns o !! con = Some c /\ es = es1 ++ entry_of c :: es2 /\
      es' = es1 ++ sent (entry_of c) b (packet (Z.lor UDPGW_CLIENT_FLAG_REBIND (first_flags c)) (conid c) (remote_addr (conaddr c)) (first_data c)) :: es2
  | EPacket data => received (udp_mtu o) es data r es'
  | _ => r = None /\ es' = es
  end.

Lemma udpgw_step o l e : inv false o l -> enabled o e = true -> exists o' r l', exec o e = Some (o', r) /\ inv false o' l' /\ effect o (abs o l) e r (abs o' l').
Proof using malloc_size.
  intros I He. destruct e as [la ra dns data a_con|con|s| | |mem| | |data].
  - destruct (gw_submit_ok o l la ra dns data a_con I He) as (o' & l' & E & I' & H). by exists o', None, l'.
  - cbn [enabled] in He. destruct (conns o !! con) as [c|] eqn:Hc; [|done]. destruct (first_ok o l con c I Hc) as (o' & b & es1 & es2 & E & I' & A & A'). exists o', None, l. split; [done|]. split; [done|]. split; [done|]. by exists c, b, es1, es2.
  - cbn [exec]. eexists _, None, l. split; [done|]. split; [|done]. destruct I. split; cbn; try done. intros f ->. cbn in He. by apply bool_decide_eq_true in He.
  - cbn [exec]. unfold send_monitor_handler. pose proof (i_keep _ _ _ I) as Hk. destruct (keepalive_sending o) eqn:Ek; [by exists o, None, l|]. destruct (i_mtu _ _ _ I) as (M1 & M2 & M3 & M4 & _).
    unfold PacketPassInterface_Sender_Send. change (zlen keepalive_packet) with 5. destruct (keepalive_if o); [|done]. rewrite (bool_decide_true (is_Some (Some 0))) by (by eexists). rewrite ?orb_true_r. repeat bool_true. cbn [mbind option_bind].
    eexists _, None, l. split; [done|]. split; [|done]. destruct I. by split.
  - cbn [exec]. cbn [enabled] in He. pose proof (i_keep _ _ _ I) as Hk. unfold keepalive_if_handler_done. cbn [keepalive_sending with_keepalive]. destruct (keepalive_if o); [done|]. rewrite Hk. cbn [mbind option_bind]. eexists _, None, l. split; [done|]. split; [|done]. destruct I. by split.
  - cbn [exec]. cbn [enabled] in He. apply negb_true_iff in He. unfold UdpGwClient_ConnectServer. destruct (i_server _ _ _ I) as [Hcn _]. rewrite He. cbn [negb]. destruct mem; cbn [negb]; [|cbn; by exists o, None, l]. rewrite Hcn, He. cbn. eexists _, None, l. split; [done|]. split; [by apply server_inv|done].
  - cbn [exec]. cbn [enabled] in He. unfold UdpGwClient_DisconnectServer, free_server. destruct (i_server _ _ _ I) as [Hcn _]. rewrite Hcn, He. cbn. eexists _, None, l. split; [done|]. split; [|done]. apply (server_inv _ _ _ false I).
  - cbn [exec]. cbn [enabled] in He. unfold decoder_handler_error. rewrite He. cbn. by exists o, None, l.
  - apply (packet_ok o l data I He).
Qed.
(** *** Freeing *)
Lemma free_con_ok o i l : inv true o (i :: l) -> exists o', connection_free o i = Some o' /\ inv true o' l /\ have_server o' = have_server o.
Proof.
  intros I. destruct (proj1 (i_dom _ _ _ I i)) as [c Hc]; [by left|]. unfold connection_free. rewrite Hc. cbn [mbind option_bind].
  assert (forall f, flow_assert_free (queue o) f = true) as Hf by (intros f; unfold flow_assert_free; by rewrite (i_freeing _ _ _ I)). rewrite Hf.
  destruct (LinkedList1.remove_ok _ [] i l (i_list _ _ _ I)) as (s1 & -> & R1 & O1). cbn [mbind option_bind]. cbn [app] in R1.
  pose proof (proj1 (i_list _ _ _ I)) as [Hil Hnd]%list.NoDup_cons. assert (i ∈ (list_to_set (i :: l) : gset positive)) as His by (rewrite elem_of_list_to_set; by left).
  assert (list_to_set (i :: l) ∖ {[i]} = (list_to_set l : gset positive)) as Eset.
  { apply set_eq. intros x. rewrite elem_of_difference, !elem_of_list_to_set, elem_of_cons, elem_of_singleton. split; [by intros [[?|?] ?]|]. intros Hx. split; [by right|]. by intros ->. }
  destruct (tr_remove_ok _ _ _ i (i_ids _ _ _ I) (inv_conids _ _ _ I) His) as (tid & -> & Rtid). destruct (tr_remove_ok _ _ _ i (i_tree _ _ _ I) (inv_conaddrs _ _ _ I) His) as (tr & -> & Rtr). cbn [mbind option_bind].
  unfold flow_free. rewrite Hf. rewrite (bool_decide_true (QCon i ∈ _)) by (apply (i_flows _ _ _ I); right; exists i; split; [by left|done]). cbn [mbind option_bind].
  eexists. split; [done|]. split; [|done]. rewrite Eset in Rtid, Rtr.
  assert (forall k, k ∈ l -> delete i (conns o) !! k = conns o !! k) as Hd by (intros k Hk; rewrite lookup_delete_ne; [done|]; by intros <-).
  destruct I. split; cbn; try done.
  - apply (LinkedList1.rep_ext s1); [done..|]. intros x Hx. cbn. rewrite lookup_delete_ne; [done|]. by intros <-.
  - intros k. destruct (decide (k = i)) as [-> |Hk]; [rewrite lookup_delete_eq; by split; intros [? ?] || intros|]. rewrite lookup_delete_ne by done. rewrite <- i_dom0, elem_of_cons. split; [by right|by intros [?|?]].
  - eapply tr_ext; [exact Rtr|]. intros k Hk%elem_of_list_to_set. unfold conaddrs. cbn. by rewrite Hd.
  - eapply tr_ext; [exact Rtid|]. intros k Hk%elem_of_list_to_set. unfold conids. cbn. by rewrite Hd.
  - destruct i_num0 as [E ?]. cbn [length] in E. lia.
  - intros x y cx cy [_ H1]%lookup_delete_Some [_ H2]%lookup_delete_Some. by apply i_inj0.
  - intros x y cx cy [_ H1]%lookup_delete_Some [_ H2]%lookup_delete_Some. by apply i_idinj0.
  - intros k d [_ H1]%lookup_delete_Some. by apply (i_con0 k).
  - intros f. rewrite elem_of_without, i_flows0. split.
    + intros [Hne [->|(k & Hk & ->)]]; [by left|]. right. exists k. apply elem_of_cons in Hk as [->|Hk]; [done|by split].
    + intros [->|(k & Hk & ->)]; [by split; [|left]|]. split; [by intros [= ->]|]. right. exists k. split; [by right|done].
  - intros f. case_bool_decide as Hs; [done|]. intros Hq. apply elem_of_without. split; [by intros ->|by apply i_sending0].
Qed.
Lemma free_loop_ok l : forall o fuel, inv true o l -> (length l <= fuel)%nat -> exists o', free_loop fuel o = Some o' /\ inv true o' [] /\ have_server o' = have_server o.
Proof.
  induction l as [|i l IH]; intros o fuel I Hl; pose proof (i_list _ _ _ I) as (_ & Hfst & _); cbn [LinkedList1.head_or] in Hfst.
  - exists o. split; [|done]. destruct fuel; cbn [free_loop]; unfold LinkedList1.LinkedList1_IsEmpty; by rewrite Hfst.
  - destruct fuel as [|fuel]; [cbn in Hl; lia|]. cbn [free_loop]. unfold LinkedList1.LinkedList1_IsEmpty, LinkedList1.LinkedList1_GetFirst. rewrite Hfst. rewrite (bool_decide_false (Some i = None)) by done. cbn [mbind option_bind].
    destruct (free_con_ok _ _ _ I) as (o1 & -> & I1 & S1). cbn [mbind option_bind]. destruct (IH o1 fuel I1) as (o2 & -> & I2 & S2); [cbn in Hl; lia|]. exists o2. by rewrite S2.
Qed.
Lemma gw_free_ok o l : inv false o l -> exists o', UdpGwClient_Free o = Some o' /\ conns o' = ∅ /\ num_connections o' = 0 /\ q_flows (queue o') = [] /\ connected o' = false.
Proof.
  intros I. unfold UdpGwClient_Free. set (o1 := with_queue o (prepare_free (queue o))). assert (inv true o1 l) as I1 by (destruct I; by split).
  destruct (free_loop_ok l o1 (Z.to_nat (num_connections o1)) I1) as (o2 & -> & I2 & S2); [rewrite (proj1 (i_num _ _ _ I1)); lia|]. cbn [mbind option_bind].
  assert (exists o3, (if have_server o2 then free_server o2 else Some o2) = Some o3 /\ queue o3 = queue o2 /\ conns o3 = conns o2 /\ num_connections o3 = num_connections o2 /\ connected o3 = false) as (o3 & -> & Q3 & C3 & N3 & D3).
  { destruct (i_server _ _ _ I2) as [Hcn _]. unfold free_server. destruct (have_server o2) eqn:Hh; rewrite ?Hcn; by eexists. }
  cbn [mbind option_bind]. unfold flow_free, flow_assert_free. rewrite Q3, (i_freeing _ _ _ I2). cbn [orb].
  assert (forall f, f ∈ q_flows (queue o2) <-> f = QKeepalive) as Hfl by (intros f; rewrite (i_flows _ _ _ I2); split; [intros [?|(k & Hk & _)]; [done|by apply not_elem_of_nil in Hk]|by left]).
  rewrite bool_decide_true by (by apply Hfl). cbn [mbind option_bind]. unfold queue_free. cbn [q_flows q_sending].
  assert (without QKeepalive (q_flows (queue o2)) = []) as ->.
  { destruct (without QKeepalive (q_flows (queue o2))) as [|f k] eqn:E; [done|]. assert (f ∈ without QKeepalive (q_flows (queue o2))) as [H1 H2]%elem_of_without by (rewrite E; by left). by apply Hfl in H2. }
  rewrite (bool_decide_true ([] = [])) by done.
  assert ((if bool_decide (q_sending (queue o2) = Some QKeepalive) then None else q_sending (queue o2)) = None) as ->.
  { case_bool_decide as Hq; [done|]. destruct (q_sending (queue o2)) as [f|] eqn:E; [|done]. by apply (i_sending _ _ _ I2), Hfl in E as ->. }
  rewrite bool_decide_true by done. cbn [mbind option_bind]. eexists. split; [done|]. cbn. rewrite C3, N3, (proj1 (i_num _ _ _ I2)). split; [|done].
  apply map_empty. intros i. destruct (conns o2 !! i) eqn:E; [|done]. assert (i ∈ []) as H by (apply (i_dom _ _ _ I2); by eexists). by apply not_elem_of_nil in H.
Qed.
(** *** Reachable states *)
Lemma udpgw_init_inv mtu max num qok o0 : mtu <= INT_MAX -> num <= 2 ^ 14 -> UdpGwClient_Init mtu max num qok = Some (inr o0) -> inv false o0 [] /\ udp_mtu o0 = mtu.
Proof.
  intros Hm Hn. unfold UdpGwClient_Init. destruct (Z.geb_spec mtu 0) as [H0|]; [|done]. unfold gw_compute_mtu. rewrite compute_mtu_with_value by (unfold sizeof_udpgw_header, INT_MAX in *; lia).
  replace (mtu + 18 + sizeof_udpgw_header) with (mtu + 21) by (unfold sizeof_udpgw_header; lia). destruct ((0 <=? mtu) && (mtu + 21 <=? INT_MAX)) eqn:E; [|done]. apply andb_true_iff in E as [_ E%Z.leb_le]. bool_true.
  unfold PACKETPROTO_MAXPAYLOAD, UINT16_MAX, packetproto_header. destruct (Z.leb_spec (mtu + 21) 65535) as [H1|]; [|done]. destruct (Z.gtb_spec max 0) as [H2|]; [|done]. destruct (Z.gtb_spec num 0) as [H3|]; [|done].
  destruct qok; [|done]. cbn [negb]. cbn [flow_init q_freeing negb mbind option_bind]. intros [= <-]. split; [|done].
  assert (forall i : positive, i ∈ [] -> False) as Hnil by (intros i; apply not_elem_of_nil).
  assert (0 < (if max >? 65535 + 1 then 65535 + 1 else max) <= 2 ^ 16) as Hmax by (destruct (Z.gtb_spec max (65535 + 1)); lia).
  set (mx := if max >? 65535 + 1 then 65535 + 1 else max) in *. clearbody mx. split; cbn; try done; try lia.
  - by split; [constructor|].
  - intros i. rewrite lookup_empty. split; [by intros ?%Hnil|by intros [? ?]].
  - apply tr_init_ok.
  - apply tr_init_ok.
  - intros f. rewrite list_elem_of_singleton. split; [by left|]. intros [?|(i & Hi & _)]; [done|by apply Hnil in Hi].
Qed.

Lemma udpgw_reach_inv o0 l0 o : inv false o0 l0 -> reach o0 o -> exists l, inv false o l.
Proof using malloc_size.
  intros I0 Hr. induction Hr as [|o con c f Hr [l I] Hc Hs|o e o' r Hr [l I] He E]; [by exists l0| |].
  - exists l. pose proof (i_con _ _ _ I con c Hc) as K. destruct (c_flow _ _ _ _ K) as [K1 K2]. destruct (fl_step_ok _ _ K1 Hs) as (K3 & K4 & _).
    apply (gw_set_con _ o l con c); try done. apply flow_con_ok; [done..|congruence].
  - destruct (udpgw_step o l e I He) as (o1 & r1 & l1 & E1 & I1 & _). rewrite E in E1. injection E1 as <- <-. by exists l1.
Qed.

Lemma abs_NoDup {B} (p : entry -> B) o l : NoDup l -> (forall i j c d, conns o !! i = Some c -> conns o !! j = Some d -> p (entry_of c) = p (entry_of d) -> i = j) -> NoDup (map p (abs o l)).
Proof.
  intros Hn Hinj. induction l as [|k l IH]; [constructor|]. apply list.NoDup_cons in Hn as [Hk Hn]. rewrite gw_abs_cons. destruct (conns o !! k) as [c|] eqn:Hc; [|by apply IH].
  cbn. apply list.NoDup_cons. split; [|by apply IH]. intros (e & He & (i & d & Hi & Hd & ->)%elem_abs)%list_elem_of_fmap. destruct Hk. by rewrite (Hinj k i c d Hc Hd He).
Qed.

Section Theorems.
Context (mtu max num : Z) (qok : bool) (Hmtu : mtu <= INT_MAX) (Hnum : num <= 2 ^ 14) (o0 o : t) (Hinit : UdpGwClient_Init mtu max num qok = Some (inr o0)) (Hreach : reach o0 o).

Lemma udpgw_inv : exists l, inv false o l.
Proof using malloc_size Hmtu Hnum Hinit Hreach. destruct (udpgw_init_inv _ _ _ _ _ Hmtu Hnum Hinit) as [I _]. by apply (udpgw_reach_inv o0 [] o I). Qed.

(** C3: the two trees, the list and the counter of connections implement one bounded table in order of use, in which no
    two connections have the same addresses or the same number.  Under any interleaving of datagrams, packets of
    the server, keep-alive packets, connections to the server and their loss, steps of the queues and failed
    allocations no assertion fails, and each event changes the table as specified: a datagram of known addresses is queued for
    their connection, which becomes the last used; one of new addresses gets a new connection while there are fewer than
    [max_connections], and else the least recently used one with its number, and a packet that tells
    the server to bind again; and a packet of the server reaches the user exactly when its number and remote address are those
    of a connection, with the local address of that connection. *)
Theorem udpgw_refines_table : exists l, LinkedList1.rep (connections_list o) l /\
  let es := abs o l in
  NoDup (map e_addr es) /\ NoDup (map e_id es) /\ Forall (fun e => 0 <= e_id e < max_connections o) es /\ Z.of_nat (length es) = num_connections o /\ num_connections o <= max_connections o /\
  forall e, enabled o e = true -> exists o' r l', exec o e = Some (o', r) /\ LinkedList1.rep (connections_list o') l' /\ effect o es e r (abs o' l').
Proof using malloc_size Hmtu Hnum Hinit Hreach.
  destruct udpgw_inv as [l I]. exists l. pose proof (i_list _ _ _ I) as R. split; [done|]. cbv zeta. destruct (i_num _ _ _ I) as [N1 N2].
  split; [apply abs_NoDup; [apply R|apply I]|]. split; [apply abs_NoDup; [apply R|apply I]|]. split.
  { apply list.Forall_forall. intros e (i & c & _ & Hc & ->)%elem_abs. apply (i_con _ _ _ I i c Hc). }
  split; [by rewrite (gw_abs_length _ _ _ I)|]. split; [done|]. intros e He. destruct (udpgw_step o l e I He) as (o' & r & l' & E & I' & H). exists o', r, l'. split; [done|]. split; [apply I'|done].
Qed.

(** C18: in every reachable state each member of the client and of its connections has a value of its type and purpose: the
    sizes fit in a packet of the stream; the numbers of connections and the next number to try are
    values of [uint16_t], also where the code converts an [int] to it; the local and the remote address of a connection are IP addresses; the
    packet kept for the first send fits; a queue takes packets of the size of the client's; and the keep-alive
    packet is being sent exactly while its interface is busy. *)
Theorem udpgw_types :
  (udpgw_mtu o = sizeof_udpgw_header + sizeof_udpgw_addr_ipv6 + udp_mtu o /\ udpgw_mtu o <= PACKETPROTO_MAXPAYLOAD /\ pp_mtu o = udpgw_mtu o + packetproto_header) /\
  (0 <= next_conid o < max_connections o /\ max_connections o <= UINT16_MAX + 1 /\ u16 (next_conid o) = next_conid o) /\
  (keepalive_sending o = true <-> keepalive_if o <> PIdle) /\ connected o = have_server o /\
  forall con c, conns o !! con = Some c -> u16 (conid c) = conid c /\ conid c < max_connections o /\ conaddr_ok (conaddr c) /\ ip_addr (local_addr (conaddr c)) /\ ip_addr (remote_addr (conaddr c)) /\
    zlen (first_data c) <= udp_mtu o /\ fl_ok (send_if c) /\ fl_mtu (send_if c) = udpgw_mtu o /\ find_connection_by_conaddr o (conaddr c) = Some con /\ find_connection_by_conid o (conid c) = Some con.
Proof using malloc_size Hmtu Hnum Hinit Hreach.
  destruct udpgw_inv as [l I]. destruct (i_mtu _ _ _ I) as (M1 & M2 & M3 & M4 & _), (i_max _ _ _ I) as [X1 X2], (i_next _ _ _ I) as [N1 N2], (i_server _ _ _ I) as [S1 S2]. unfold sizeof_udpgw_header, sizeof_udpgw_addr_ipv6, PACKETPROTO_MAXPAYLOAD, UINT16_MAX, packetproto_header.
  split; [lia|]. split; [split; [done|]; split; [lia|]; apply uwrap_small; lia|]. split; [rewrite (i_keep _ _ _ I); by destruct (keepalive_if o)|]. split; [done|].
  intros con c Hc. destruct (i_con _ _ _ I con c Hc) as [K1 K0 K2 K3 K4 [K5 K6]]. split; [apply uwrap_small; lia|]. do 7 (split; [done || lia|]). split.
  - pose proof (find_addr_ok _ _ _ _ I K1) as Hf. destruct (find_connection_by_conaddr o (conaddr c)) as [i|]; [|by destruct (Hf con c)]. destruct Hf as (d & Hd & E). by rewrite (i_inj _ _ _ I i con d c Hd Hc E).
  - pose proof (find_id_ok _ _ _ (conid c) I) as Hf. destruct (find_connection_by_conid o (conid c)) as [i|]; [|by destruct (Hf con c)]. destruct Hf as (d & Hd & E). by rewrite (i_idinj _ _ _ I i con d c Hd Hc E).
Qed.

(** C40: the loops of the client end: while there are fewer than [max_connections] connections, [find_unused_conid] finds a number
    of no connection within [max_connections] rounds; and [UdpGwClient_Free] frees every connection, one per
    round, also one whose packet the server's connection has, then the keep-alive flow and the queue. *)
Theorem udpgw_loops_end :
  (num_connections o < max_connections o -> exists o' id, find_unused_conid o = Some (o', id) /\ 0 <= id < max_connections o /\ forall con c, conns o !! con = Some c -> conid c <> id) /\
  exists o', UdpGwClient_Free o = Some o' /\ conns o' = ∅ /\ num_connections o' = 0 /\ q_flows (queue o') = [] /\ connected o' = false.
Proof using malloc_size Hmtu Hnum Hinit Hreach.
  destruct udpgw_inv as [l I]. split; [|by apply (gw_free_ok o l)]. intros H. destruct (find_unused_ok _ _ _ I H) as (n & E & Hn & Hu). by eexists _, n.
Qed.
End Theorems.
End World.

(** ** A run, with balanced trees and flows of framed packets *)
#[local] Existing Instances BAVLSpec.bavl_tree PacketProtoFlow.proto_flow_send.
#[local] Abbreviation client := (t (F := PacketProtoFlow.world) (T := BAVL.t) (U := BAVL.t)).
Inductive act := AEvent (e : event) | AFlow (con : positive) (e : PacketProtoFlow.event).
Definition perform (o : client) (a : act) : option client :=
  match a with
  | AEvent e => ASSERT enabled o e; fst <$> exec zeros o e
  | AFlow con e => c ← conns o !! con; ASSERT PacketProtoFlow.enabled (send_if c) e; f ← PacketProtoFlow.exec (send_if c) e; Some (with_conns o (<[con := with_flow c f]> (conns o)))
  end.
Fixpoint performs (o : client) (acts : list act) : option client := match acts with [] => Some o | a :: acts => o ← perform o a; performs o acts end.

Lemma performs_reach o0 acts : forall o o', reach zeros o0 o -> performs o acts = Some o' -> reach zeros o0 o'.
Proof.
  induction acts as [|a acts IH]; intros o o' Hr; cbn; [by intros [= <-]|]. destruct (perform o a) as [o1|] eqn:E; [|done]. apply IH. destruct a as [e|con e]; cbn in E.
  - destruct (enabled o e) eqn:He; [|done]. destruct (exec zeros o e) as [[o2 r]|] eqn:Ex; [|done]. injection E as <-. by eapply reach_step.
  - destruct (conns o !! con) as [c|] eqn:Hc; [|done]. cbn in E. destruct (PacketProtoFlow.enabled (send_if c) e) eqn:He; [|done]. destruct (PacketProtoFlow.exec (send_if c) e) as [f|] eqn:Ex; [|done]. cbn in E. injection E as <-. by eapply reach_flow; [..|exists e].
Qed.

Definition gw_none : client := mk 0 0 0 0 0 (BAVL.mk ∅ None) (BAVL.mk ∅ None) (LinkedList1.mk ∅ None None) 0 0 (mk_queue [] None false) PIdle false false false PIdle ∅.
Definition gw_demo (max : Z) : client := match UdpGwClient_Init 40 max 1 true with Some (inr o) => o | _ => gw_none end.
Definition gw_jobs (con : positive) (n : nat) : list act := replicate n (AFlow con PacketProtoFlow.EJob).
Definition gw_acts : list act :=
  [AEvent (EConnect true); AEvent (ESubmit (demo_local 1) demo_remote true [7; 7] (Some 1%positive))] ++ gw_jobs 1 2 ++ [AEvent (EFirst 1)] ++ gw_jobs 1 4 ++ [AEvent (ESending (Some (QCon 1))); AEvent EKeepalive].
Definition gw_state : client := Eval vm_compute in default gw_none (performs (gw_demo 2) gw_acts).

Lemma gw_reach : reach zeros (gw_demo 2) gw_state.
Proof. apply (performs_reach _ gw_acts (gw_demo 2)); [constructor|by vm_compute]. Qed.
Definition gw_other : event := ESubmit (demo_local 2) demo_remote false [1; 2; 3] (Some 2%positive).

Lemma udpgw_refines_table_witness : exists l, LinkedList1.rep (connections_list gw_state) l /\
  exists o' r l', exec zeros gw_state gw_other = Some (o', r) /\ LinkedList1.rep (connections_list o') l' /\ effect zeros gw_state (abs gw_state l) gw_other r (abs o' l').
Proof.
  destruct (udpgw_refines_table (F := PacketProtoFlow.world) (T := BAVL.t) (U := BAVL.t) zeros zeros_size 40 2 1 true ltac:(by vm_compute) ltac:(by vm_compute) (gw_demo 2) gw_state ltac:(by vm_compute) gw_reach) as (l & R & _ & _ & _ & _ & _ & H).
  exists l. split; [exact R|]. apply (H gw_other). by vm_compute.
Defined.
Lemma udpgw_types_witness : next_conid gw_state = 0 /\ keepalive_if gw_state <> PIdle.
Proof.
  split; [by vm_compute|]. destruct (udpgw_types (F := PacketProtoFlow.world) (T := BAVL.t) (U := BAVL.t) zeros zeros_size 40 2 1 true ltac:(by vm_compute) ltac:(by vm_compute) (gw_demo 2) gw_state ltac:(by vm_compute) gw_reach) as (_ & _ & H & _).
  apply H. by vm_compute.
Defined.
Lemma udpgw_loops_end_witness : q_sending (queue gw_state) = Some (QCon 1) /\ (exists o' id, find_unused_conid gw_state = Some (o', id) /\ 0 <= id < 2) /\ exists o', UdpGwClient_Free gw_state = Some o' /\ conns o' = ∅.
Proof.
  split; [by vm_compute|]. destruct (udpgw_loops_end (F := PacketProtoFlow.world) (T := BAVL.t) (U := BAVL.t) zeros zeros_size 40 2 1 true ltac:(by vm_compute) ltac:(by vm_compute) (gw_demo 2) gw_state ltac:(by vm_compute) gw_reach) as (H1 & o' & H2 & H3 & _).
  split; [|by exists o']. destruct H1 as (o1 & id & E & Hid & _); [by vm_compute|]. by exists o1, id.
Defined.

(** A packet that tells the server to bind again is dropped like any other when the queue is full.  The connection
    keeps its new addresses, and the next packet is sent without the flag: to the server, which compares remote
    addresses only, it belongs to the old local address. *)
Definition rebind_acts : list act :=
  let submit port a_con := AEvent (ESubmit (demo_local port) demo_remote false (replicate 39 5) a_con) in
  submit 1 (Some 1%positive) :: gw_jobs 1 2 ++ [AEvent (EFirst 1)] ++ gw_jobs 1 4 ++ [submit 1 None] ++ gw_jobs 1 2 ++ [submit 2 None; AFlow 1 PacketProtoFlow.EOut; AFlow 1 PacketProtoFlow.EOut] ++ gw_jobs 1 2 ++ [submit 2 None].
Example udpgw_rebind_lost :
  (o ← performs (gw_demo 1) rebind_acts; c ← conns o !! 1%positive; Some (local_addr (conaddr c), map (take 1) (fl_accepted (send_if c)))) = Some (demo_local 2, [[UDPGW_CLIENT_FLAG_REBIND]; [0]; [0]]).
Proof. by vm_compute. Qed.
End UdpGwClientInv.
