(* ===== verification/UdpGwRelay.v ===== *)
(** * The relay client of the builds other than Android's (tun2socks/SocksUdpGwClient.c)

    The datagrams go through a [UdpGwClient], whose stream is a connection to the udpgw server through SOCKS.  The
    relay makes that connection, connects the client to it when it is up, and makes a new one
    some time after it was lost. *)

From stdpp Require Import gmap.
From S2P Require Import Prelude BAddr BAVL BAVLSpec KeyTree SendFlow PacketProtoFlow BSocksClient SocksUdpGwClient UdpGwClient UdpGwClientInv.
Import UdpGwClient.

Module UdpGwRelay.

Section Relay.
Context {F : Type} `{!SendFlow F} {T U : Type} `{!KeyTree conaddr_ok conaddr_comparator T} `{!KeyTree conid_ok uint16_comparator U}.
Context (malloc : Z -> option (list Z)).
#[local] Abbreviation client := (UdpGwClient.t (F := F) (T := T) (U := U)).

(** [reconnect_timer]: whether it runs.  [have_socks]: whether the SOCKS client exists. *)
Record t := mk { udpgw_client : client; reconnect_timer : bool; have_socks : bool; socks_up : bool }.
Definition with_client (o : t) (c : client) : t := mk c (reconnect_timer o) (have_socks o) (socks_up o).
Definition set_timer (o : t) : t := mk (udpgw_client o) true (have_socks o) (socks_up o).

Definition free_socks (o : t) : option t :=
  ASSERT have_socks o;
  c ← (if socks_up o then UdpGwClient_DisconnectServer (udpgw_client o) else Some (udpgw_client o));
  Some (mk c (reconnect_timer o) false (socks_up o)).

(** [ok]: the result of [BSocksClient_Init]. *)
Definition try_connect (o : t) (ok : bool) : option t :=
  ASSERT negb (have_socks o);
  ASSERT negb (reconnect_timer o);
  if negb ok then Some (set_timer o) else
  Some (mk (udpgw_client o) (reconnect_timer o) true false).

Definition reconnect_timer_handler (o : t) (ok : bool) : option t :=
  ASSERT negb (have_socks o);
  try_connect o ok.

(** [mem]: as for [UdpGwClient_ConnectServer]. *)
Inductive socks_event := EVENT_UP | EVENT_ERROR | EVENT_ERROR_CLOSED.
Definition socks_client_handler (o : t) (e : socks_event) (mem : bool) : option t :=
  ASSERT have_socks o;
  match e with
  | EVENT_UP =>
      ASSERT negb (socks_up o);
      '(c, ok) ← UdpGwClient_ConnectServer (udpgw_client o) mem;
      let o := with_client o c in
      if negb (ok : bool) then o ← free_socks o; Some (set_timer o) else
      Some (mk (udpgw_client o) (reconnect_timer o) (have_socks o) true)
  | EVENT_ERROR | EVENT_ERROR_CLOSED => o ← free_socks o; Some (set_timer o)
  end.

Definition udpgw_handler_servererror (o : t) : option t :=
  ASSERT have_socks o;
  ASSERT socks_up o;
  o ← free_socks o;
  Some (set_timer o).

(** [qok]: as for [UdpGwClient_Init]; [ok]: as for [try_connect]. *)
Definition SocksUdpGwClient_Init (udp_mtu max_connections send_buffer_size : Z) (socks_server_addr remote_udpgw_addr : BAddr) (qok ok : bool) : option (unit + t) :=
  ASSERT negb (BAddr_IsInvalid socks_server_addr);
  ASSERT (addr_type remote_udpgw_addr =? 1) || (addr_type remote_udpgw_addr =? 2);
  r ← UdpGwClient_Init udp_mtu max_connections send_buffer_size qok;
  match r with
  | inl _ => Some (inl tt)
  | inr c => o ← try_connect (mk c false false false) ok; Some (inr o)
  end.

(** [BReactor_RemoveTimer] stops the timer, if it runs. *)
Definition remove_timer (o : t) : t := mk (udpgw_client o) false (have_socks o) (socks_up o).
Definition SocksUdpGwClient_Free (o : t) : option t :=
  o ← (if have_socks o then free_socks o else Some o);
  let o := remove_timer o in
  c ← UdpGwClient_Free (udpgw_client o);
  Some (with_client o c).

Definition SocksUdpGwClient_SubmitPacket (o : t) (la ra : BAddr) (is_dns : bool) (data : list Z) (a_con : option positive) : option (t * bool) :=
  '(c, b) ← UdpGwClient_SubmitPacket malloc (udpgw_client o) la ra is_dns data a_con;
  Some (with_client o c, b).

(** ** Environment

    [EClient]: what happens in the client but for its server, [ESubmit] being the user's call; [EServerError]: its
    decoder reports an error. *)
Inductive event := EClient (e : UdpGwClientInv.event) | ETimer (ok : bool) | ESocks (e : socks_event) (mem : bool) | EServerError.

(** The SOCKS client is up once, and then can be closed. *)
Definition enabled (o : t) (e : event) : bool :=
  match e with
  | EClient (UdpGwClientInv.EConnect _) | EClient UdpGwClientInv.EDisconnect | EClient UdpGwClientInv.EServerError => false
  | EClient e => UdpGwClientInv.enabled (udpgw_client o) e
  | ETimer _ => reconnect_timer o
  | ESocks EVENT_UP _ => have_socks o && negb (socks_up o)
  | ESocks EVENT_ERROR _ => have_socks o
  | ESocks EVENT_ERROR_CLOSED _ => have_socks o && socks_up o
  | EServerError => have_server (udpgw_client o)
  end.

Definition exec (o : t) (e : event) : option t :=
  match e with
  | EClient (UdpGwClientInv.ESubmit la ra dns data a_con) => '(o, _) ← SocksUdpGwClient_SubmitPacket o la ra dns data a_con; Some o
  | EClient e => '(c, _) ← UdpGwClientInv.exec malloc (udpgw_client o) e; Some (with_client o c)
  | ETimer ok => reconnect_timer_handler (mk (udpgw_client o) false (have_socks o) (socks_up o)) ok
  | ESocks e mem => socks_client_handler o e mem
  | EServerError => _ ← decoder_handler_error (udpgw_client o); udpgw_handler_servererror o
  end.

(** [reach_flow]: the jobs and the output of a connection's queue ran. *)
Inductive reach (o0 : t) : t -> Prop :=
| reach_init : reach o0 o0
| reach_flow o con c f : reach o0 o -> conns (udpgw_client o) !! con = Some c -> fl_step (send_if c) f -> reach o0 (with_client o (with_conns (udpgw_client o) (<[con := with_flow c f]> (conns (udpgw_client o)))))
| reach_step o e o' : reach o0 o -> enabled o e = true -> exec o e = Some o' -> reach o0 o'.

(** ** The connection to the server *)
Record inv (o : t) : Prop := {
  i_timer : reconnect_timer o = negb (have_socks o);
  i_up : have_server (udpgw_client o) = have_socks o && socks_up o;
}.
Definition safe (o : t) : Prop := inv o /\ exists l, UdpGwClientInv.inv false (udpgw_client o) l.

(** What the client does without its server leaves the connection to it alone. *)
Lemma send_server (c : client) con flags data c' b : connection_send c con flags data = Some (c', b) -> have_server c' = have_server c.
Proof. unfold connection_send. intros H. repeat (case_match || simplify_option_eq); try done; by simplify_eq. Qed.
Lemma move_server (c : client) con c' : move_to_end c con = Some c' -> have_server c' = have_server c.
Proof. unfold move_to_end. intros H. by simplify_option_eq. Qed.
Lemma unused_server fuel : forall (c : client) c' id, find_unused_loop fuel c = Some (c', id) -> have_server c' = have_server c.
Proof. induction fuel as [|fuel IH]; intros c c' id; cbn; [done|]. destruct (find_connection_by_conid c _); [|by intros [= <- <-]]. intros H. by rewrite (IH _ _ _ H). Qed.
Lemma init_server (c : client) a flags data a_con c' : connection_init malloc c a flags data a_con = Some c' -> have_server c' = have_server c.
Proof.
  unfold connection_init, find_unused_conid. intros H. destruct (_ <? _); [|done]. destruct (bool_decide _); [|done]. destruct (_ <=? _); [|done]. destruct a_con as [con|]; [|by injection H as <-].
  destruct (find_unused_loop _ c) as [[c1 id]|] eqn:E; [|done]. rewrite <- (unused_server _ _ _ _ E). cbn [mbind option_bind] in H. destruct (flow_init _ _) as [q|]; [|done]. cbn [mbind option_bind] in H.
  destruct (fl_init _ _ _ _) as [[f|]|]; [| |done]; cbn [mbind option_bind] in H; by simplify_option_eq.
Qed.
Lemma reuse_server (c : client) a c' con : reuse_connection c a = Some (c', con) -> have_server c' = have_server c.
Proof. unfold reuse_connection. intros H. destruct (bool_decide _); [|done]. destruct (_ >? _); [|done]. by simplify_option_eq. Qed.
Lemma submit_server (c : client) la ra dns data a_con c' b : UdpGwClient_SubmitPacket malloc c la ra dns data a_con = Some (c', b) -> have_server c' = have_server c.
Proof.
  unfold UdpGwClient_SubmitPacket. intros H. destruct (_ || _); [|done]. destruct (_ || _); [|done]. destruct (_ <=? _); [|done]. destruct (bool_decide (_ = None) && _).
  - destruct (reuse_connection c _) as [[c1 con]|] eqn:Er; [|done]. cbn [mbind option_bind] in H. destruct (move_to_end c1 con) as [c2|] eqn:Em; [|done]. cbn [mbind option_bind] in H.
    by rewrite (send_server _ _ _ _ _ _ H), (move_server _ _ _ Em), (reuse_server _ _ _ _ Er).
  - cbn [mbind option_bind] in H. destruct (find_connection_by_conaddr c _) as [con|].
    + destruct (move_to_end c con) as [c2|] eqn:Em; [|done]. cbn [mbind option_bind] in H. by rewrite (send_server _ _ _ _ _ _ H), (move_server _ _ _ Em).
    + destruct (connection_init _ c _ _ _ _) as [c2|] eqn:Ei; [|done]. cbn [mbind option_bind] in H. injection H as <- <-. by apply init_server in Ei.
Qed.
Lemma packet_server (c : client) data c' r : recv_interface_handler_send c data = Some (c', r) -> have_server c' = have_server c.
Proof.
  unfold recv_interface_handler_send. intros H. destruct (have_server c) eqn:Hs; [|done]. destruct (_ <=? _); [|done]. destruct (FlowView.PacketPassInterface_Done _) as [v|]; [|done]. cbn [mbind option_bind] in H.
  destruct (parse_packet data) as [[[[fl id] ra] d]|]; [|by injection H as <- <-]. destruct (zlen d >? _); [by injection H as <- <-|]. destruct (find_connection_by_conid _ id) as [con|]; [|by injection H as <- <-].
  destruct (conns _ !! con) as [x|]; [|done]. cbn [mbind option_bind] in H. destruct (negb _); [by injection H as <- <-|]. destruct (move_to_end _ con) as [c2|] eqn:Em; [|done]. cbn [mbind option_bind] in H. injection H as <- <-. by rewrite (move_server _ _ _ Em).
Qed.
Lemma client_server (c : client) e c' r : UdpGwClientInv.exec malloc c e = Some (c', r) -> (forall mem, e <> UdpGwClientInv.EConnect mem) -> e <> UdpGwClientInv.EDisconnect -> have_server c' = have_server c.
Proof.
  intros H H1 H2. destruct e as [la ra dns data a_con|con|s| | |mem| | |data]; cbn [UdpGwClientInv.exec] in H; try done.
  - destruct (UdpGwClient_SubmitPacket _ c _ _ _ _ _) as [[c1 b]|] eqn:E; [|done]. cbn [mbind option_bind] in H. injection H as <- <-. by apply submit_server in E.
  - destruct (conns c !! con) as [x|]; [|done]. cbn [mbind option_bind] in H. unfold connection_first_job_handler in H. destruct (conns _ !! con) as [y|]; [|done]. cbn [mbind option_bind] in H. destruct (connection_send _ _ _ _) as [[c1 b]|] eqn:E; [|done]. cbn [mbind option_bind] in H. injection H as <- <-. by apply send_server in E.
  - by injection H as <- <-.
  - unfold send_monitor_handler in H. destruct (keepalive_sending c); [cbn in H; by injection H as <- <-|]. destruct (FlowView.PacketPassInterface_Sender_Send _ _ _ _); [|done]. cbn in H. by injection H as <- <-.
  - unfold keepalive_if_handler_done in H. cbn in H. destruct (keepalive_sending c); [|done]. cbn in H. by injection H as <- <-.
  - by destruct (H1 mem).
  - unfold decoder_handler_error in H. destruct (have_server c) eqn:Hs; [|done]. cbn in H. by injection H as <- <-.
  - by apply packet_server in H.
Qed.

(** *** Every event *)
Context (malloc_size : forall n m, malloc n = Some m -> zlen m = n).

Lemma free_socks_ok o l : UdpGwClientInv.inv false (udpgw_client o) l -> inv o -> have_socks o = true ->
  exists o', free_socks o = Some o' /\ UdpGwClientInv.inv false (udpgw_client o') l /\ have_server (udpgw_client o') = false /\ have_socks o' = false /\ reconnect_timer o' = reconnect_timer o.
Proof.
  intros I [Ht Hu] Hs. unfold free_socks. rewrite Hs in *. cbn [andb] in Hu. destruct (socks_up o); [|by eexists]. unfold UdpGwClient_DisconnectServer, UdpGwClient.free_server. rewrite Hu. destruct (UdpGwClientInv.i_server _ _ _ I) as [Hc _]. rewrite Hc, Hu. cbn.
  eexists. split; [done|]. cbn. split; [|done]. apply (UdpGwClientInv.server_inv _ _ _ false I).
Qed.

Lemma relay_client_ok o l e : inv o -> UdpGwClientInv.inv false (udpgw_client o) l -> enabled o (EClient e) = true ->
  exists o' r l', exec o (EClient e) = Some o' /\ inv o' /\ UdpGwClientInv.inv false (udpgw_client o') l' /\
    UdpGwClientInv.effect malloc (udpgw_client o) (UdpGwClientInv.abs (udpgw_client o) l) e r (UdpGwClientInv.abs (udpgw_client o') l').
Proof using malloc_size.
  intros [Ht Hu] I He. assert (UdpGwClientInv.enabled (udpgw_client o) e = true /\ (forall mem, e <> UdpGwClientInv.EConnect mem) /\ e <> UdpGwClientInv.EDisconnect) as (He' & N1 & N2) by (by destruct e).
  destruct (UdpGwClientInv.udpgw_step malloc malloc_size _ l e I He') as (c' & r & l' & E & I' & Heff). pose proof (client_server _ _ _ _ E N1 N2) as Hs.
  exists (with_client o c'), r, l'. split; [|split; [split; [done|cbn; by rewrite Hs]|done]]. destruct e; cbn [exec]; try (by rewrite E). unfold SocksUdpGwClient_SubmitPacket. cbn [UdpGwClientInv.exec] in E. destruct (UdpGwClient_SubmitPacket _ _ _ _ _ _ _) as [[c1 b]|]; [|done]. cbn [mbind option_bind] in *. by injection E as -> _.
Qed.

Lemma relay_event_ok o e : safe o -> enabled o e = true -> exists o', exec o e = Some o' /\ safe o'.
Proof using malloc_size.
  intros [J [l I]] He. destruct e as [e|ok|e mem|]; [destruct (relay_client_ok o l e J I He) as (o' & r & l' & E & J' & I' & _); exists o'; split; [done|]; split; [done|by exists l']| | |]; destruct J as [Ht Hu]; cbn [enabled exec] in *.
  - unfold reconnect_timer_handler, try_connect. cbn. rewrite He in Ht. destruct (have_socks o) eqn:Hs; [done|]. cbn. destruct ok; cbn; (eexists; split; [done|]); (split; [by split|by exists l]).
  - assert (have_socks o = true) as Hs by (destruct e; [by apply andb_true_iff in He as [? _]|done|by apply andb_true_iff in He as [? _]]).
    assert (exists o', (o ← free_socks o; Some (set_timer o)) = Some o' /\ safe o') as Hfree.
    { destruct (free_socks_ok o l I (Build_inv _ Ht Hu) Hs) as (o1 & -> & I1 & S1 & H1 & T1). cbn. eexists. split; [done|]. split; [split; cbn; [by rewrite H1|by rewrite S1, H1]|by exists l]. }
    unfold socks_client_handler. rewrite Hs. destruct e; [|exact Hfree..]. rewrite Hs in He. cbn in He. rewrite He. apply negb_true_iff in He. rewrite Hs, He in Hu. cbn [andb] in Hu.
    unfold UdpGwClient_ConnectServer. rewrite Hu. cbn [negb]. destruct mem; cbn [negb mbind option_bind].
    + destruct (UdpGwClientInv.i_server _ _ _ I) as [Hc _]. rewrite Hc, Hu. cbn. eexists. split; [done|]. split; [split; cbn; [done|by rewrite Hs]|]. exists l. by apply UdpGwClientInv.server_inv.
    + by destruct o.
  - unfold decoder_handler_error, udpgw_handler_servererror. rewrite He. cbn [mbind option_bind]. rewrite He in Hu. symmetry in Hu. apply andb_true_iff in Hu as [Hs Hup]. rewrite Hs, Hup.
    destruct (free_socks_ok o l I) as (o1 & -> & I1 & S1 & H1 & T1); [split; [done|by rewrite Hs, Hup]|done|]. cbn. eexists. split; [done|]. split; [split; cbn; [by rewrite H1|by rewrite S1, H1]|by exists l].
Qed.

Lemma relay_init_safe mtu max num server remote qok ok o0 : mtu <= INT_MAX -> num <= 2 ^ 14 -> SocksUdpGwClient_Init mtu max num server remote qok ok = Some (inr o0) -> safe o0.
Proof.
  intros Hm Hn. unfold SocksUdpGwClient_Init. destruct (negb _); [|done]. destruct (_ || _); [|done]. destruct (UdpGwClient_Init mtu max num qok) as [[|c]|] eqn:E; [done| |done]. cbn [mbind option_bind].
  destruct (UdpGwClientInv.udpgw_init_inv _ _ _ _ _ Hm Hn E) as [I _]. assert (have_server c = false) as Hs.
  { unfold UdpGwClient_Init in E. repeat (case_match; [|done]). destruct (negb qok); [done|]. cbn in E. by injection E as <-. }
  unfold try_connect. cbn. destruct ok; cbn; intros [= <-]; (split; [by split|by exists []]).
Qed.
Lemma relay_reach_safe o0 o : safe o0 -> reach o0 o -> safe o.
Proof using malloc_size.
  intros H0 Hr. induction Hr as [|o con c f Hr [[Ht Hu] [l I]] Hc Hs|o e o' Hr IH He E]; [done| |].
  - split; [by split|]. exists l. cbn. pose proof (UdpGwClientInv.i_con _ _ _ I con c Hc) as K. destruct (UdpGwClientInv.c_flow _ _ _ _ K) as [K1 K2]. destruct (fl_step_ok _ _ K1 Hs) as (K3 & K4 & _).
    apply (UdpGwClientInv.gw_set_con _ _ l con c); try done. apply UdpGwClientInv.flow_con_ok; [done..|congruence].
  - destruct (relay_event_ok o e IH He) as (o1 & E1 & H1). rewrite E in E1. by injection E1 as <-.
Qed.

(** C19: the relay never gives up its connection to the server, and never uses one that is gone: under any interleaving of datagrams,
    packets of the server, successes and failures of SOCKS, errors in the stream, failed allocations and the timer, no assertion
    fails; at any time there is either a SOCKS client or the timer that will make one; the udpgw client has a
    server exactly while SOCKS is up; datagrams are queued in its table also while there is none, as the table says; and
    the relay can be freed completely, at any time: no SOCKS client, no running timer and no connection of the udpgw client is left. *)
Theorem relay_reconnects mtu max num server remote qok ok o0 o : mtu <= INT_MAX -> num <= 2 ^ 14 -> SocksUdpGwClient_Init mtu max num server remote qok ok = Some (inr o0) -> reach o0 o ->
  (forall e, enabled o e = true -> is_Some (exec o e)) /\ reconnect_timer o = negb (have_socks o) /\ have_server (udpgw_client o) = have_socks o && socks_up o /\
  (exists l, LinkedList1.LinkedList1.rep (connections_list (udpgw_client o)) l /\ forall e, enabled o (EClient e) = true ->
    exists o' r l', exec o (EClient e) = Some o' /\ LinkedList1.LinkedList1.rep (connections_list (udpgw_client o')) l' /\
      UdpGwClientInv.effect malloc (udpgw_client o) (UdpGwClientInv.abs (udpgw_client o) l) e r (UdpGwClientInv.abs (udpgw_client o') l')) /\
  exists o', SocksUdpGwClient_Free o = Some o' /\ have_socks o' = false /\ reconnect_timer o' = false /\
    conns (udpgw_client o') = ∅ /\ q_flows (queue (udpgw_client o')) = [] /\ connected (udpgw_client o') = false.
Proof using malloc_size.
  intros Hm Hn Hi Hr. pose proof (relay_reach_safe o0 o (relay_init_safe _ _ _ _ _ _ _ _ Hm Hn Hi) Hr) as Hsafe. split; [intros e He; destruct (relay_event_ok o e Hsafe He) as (o' & -> & _); by eexists|].
  destruct Hsafe as [J [l I]]. split; [apply J|]. split; [apply J|]. split.
  - exists l. split; [apply I|]. intros e He. destruct (relay_client_ok o l e J I He) as (o' & r & l' & E & _ & I' & Heff). exists o', r, l'. split; [done|]. split; [apply I'|done].
  - unfold SocksUdpGwClient_Free. assert (exists o1, (if have_socks o then free_socks o else Some o) = Some o1 /\ UdpGwClientInv.inv false (udpgw_client o1) l /\ have_socks o1 = false) as (o1 & -> & I1 & S1).
    { destruct (have_socks o) eqn:Hs; [|by exists o]. destruct (free_socks_ok o l I J Hs) as (o1 & -> & I1 & _ & S1 & _). by exists o1. }
    cbn [mbind option_bind]. destruct (UdpGwClientInv.gw_free_ok (udpgw_client o1) l I1) as (c & E & C1 & C2 & C3 & C4). cbv zeta. cbn [udpgw_client remove_timer]. rewrite E. by eexists.
Qed.
End Relay.

(** ** A run: SOCKS is up, then lost *)
#[local] Existing Instances BAVLSpec.bavl_tree PacketProtoFlow.proto_flow_send UdpGwClientInv.uint16_ok UdpGwClientInv.conaddr_cmp_ok.
#[local] Abbreviation relay := (t (F := PacketProtoFlow.world) (T := BAVL.t) (U := BAVL.t)).
Definition relay_none : relay := mk UdpGwClientInv.gw_none false false false.
Definition relay_demo : relay := match SocksUdpGwClient_Init 40 2 1 (ADDR_IPV4 1 1) (ADDR_IPV4 2 2) true true with Some (inr o) => o | _ => relay_none end.
Fixpoint relay_run (o : relay) (es : list event) : option relay := match es with [] => Some o | e :: es => ASSERT enabled o e; o ← exec zeros o e; relay_run o es end.
Definition relay_events : list event :=
  [EClient (UdpGwClientInv.ESubmit (demo_local 1) demo_remote true [7; 7] (Some 1%positive)); ESocks EVENT_UP true; ESocks EVENT_ERROR_CLOSED true; ETimer true; ESocks EVENT_UP true].
Definition relay_state : relay := Eval vm_compute in default relay_none (relay_run relay_demo relay_events).
Lemma relay_run_reach (o0 : relay) es : forall o o', reach zeros o0 o -> relay_run o es = Some o' -> reach zeros o0 o'.
Proof.
  induction es as [|e es IH]; intros o o' Hr; cbn; [by intros [= <-]|]. destruct (enabled o e) eqn:He; [|done]. destruct (exec zeros o e) as [o1|] eqn:E; [|done]. cbn. apply IH. by eapply reach_step.
Qed.

Lemma relay_reconnects_witness : have_server (udpgw_client relay_state) = true /\ reconnect_timer relay_state = false /\ exists o', SocksUdpGwClient_Free relay_state = Some o' /\ reconnect_timer o' = false /\ conns (udpgw_client o') = ∅.
Proof.
  split; [by vm_compute|].
  destruct (relay_reconnects (F := PacketProtoFlow.world) (T := BAVL.t) (U := BAVL.t) zeros zeros_size 40 2 1 (ADDR_IPV4 1 1) (ADDR_IPV4 2 2) true true relay_demo relay_state) as (_ & H1 & _ & _ & o' & H2 & _ & H3 & H4 & _).
  - by vm_compute.
  - by vm_compute.
  - by vm_compute.
  - apply (relay_run_reach relay_demo relay_events relay_demo); [constructor|by vm_compute].
  - split; [rewrite H1; by vm_compute|]. exists o'. split; [exact H2|]. split; [exact H3|exact H4].
Defined.
End UdpGwRelay.
