(* ===== verification/Connections.v ===== *)
(** * The connections by port of tun2socks (tun2socks/tun2socks.c, Android)

    A tree of counted connections, by port.  The program frees it at its end ([free_connections]); its other functions
    are there but not called. *)

From stdpp Require Import gmap.
From S2P Require Import Prelude BAlign BAddr KeyTree BAVL BAVLSpec.
Import BAVLSpec.

Module Connections.

Record Connection := mk_con { local_addr : BAddr; remote_addr : BAddr; port : Z; count : Z }.
(** [conns]: the allocated objects. *)
Record t := mk { connections_tree : BAVL.t; conns : gmap positive Connection }.
Definition with_count (c : Connection) (n : Z) : Connection := mk_con (local_addr c) (remote_addr c) (port c) n.
Definition ports (h : gmap positive Connection) (i : positive) : option Z := port <$> h !! i.

Definition port_comparator (v1 v2 : Z) : Z := if v1 =? v2 then 0 else if v1 >? v2 then 1 else -1.
Definition find_connection (o : t) (p : Z) : option (option positive) := BAVL.BAVL_LookupExact port_comparator (ports (conns o)) (connections_tree o) p.

Definition remove_connection (o : t) (con : positive) : option t :=
  c ← conns o !! con;
  let n := count c - 1 in
  if n <=? 0 then
    tr ← BAVL.BAVL_Remove (connections_tree o) con;
    Some (mk tr (delete con (conns o)))
  else Some (mk (connections_tree o) (<[con := with_count c n]> (conns o))).

(** [a]: the result of [malloc], which is used without a test.  The count is an [int]. *)
Definition insert_connection (o : t) (la ra : BAddr) (p : Z) (a : option positive) : option t :=
  con ← find_connection o p;
  match con with
  | Some con =>
      c ← conns o !! con;
      ASSERT count c <? INT_MAX;
      Some (mk (connections_tree o) (<[con := with_count c (count c + 1)]> (conns o)))
  | None =>
      tmp ← a;
      let h := <[tmp := mk_con la ra p 1]> (conns o) in
      '(tr, _, _) ← BAVL.BAVL_Insert port_comparator (ports h) (connections_tree o) tmp;
      Some (mk tr h)
  end.

(** The loop makes at most [fuel] rounds.  The objects are not freed. *)
Fixpoint free_connections (fuel : nat) (o : t) : option t :=
  if BAVL.BAVL_IsEmpty (connections_tree o) then Some o else
  match fuel with
  | O => None
  | S fuel =>
      con ← BAVL.BAVL_GetLast (connections_tree o);
      con ← con;
      tr ← BAVL.BAVL_Remove (connections_tree o) con;
      free_connections fuel (mk tr (conns o))
  end.

(** ** The tree is a table of counts *)
#[export] Instance port_cmp_ok : Comparator (fun _ : Z => True) port_comparator.
Proof. split; unfold port_comparator; intros; repeat match goal with |- context [?x >? ?y] => destruct (Z.gtb_spec x y) | |- context [?x =? ?y] => destruct (Z.eqb_spec x y) | H : context [?x >? ?y] |- _ => destruct (Z.gtb_spec x y) | H : context [?x =? ?y] |- _ => destruct (Z.eqb_spec x y) end; lia. Qed.
Lemma port_cmp_eq a b : port_comparator a b = 0 <-> a = b.
Proof. unfold port_comparator. destruct (Z.eqb_spec a b), (Z.gtb_spec a b); lia. Qed.

Record rep (o : t) (m : gmap Z Z) : Prop := {
  r_tree : key_rep (fun _ => True) port_comparator (ports (conns o)) (connections_tree o) (dom (conns o));
  r_inj : forall i j c d, conns o !! i = Some c -> conns o !! j = Some d -> port c = port d -> i = j;
  r_count : forall p n, m !! p = Some n <-> exists i c, conns o !! i = Some c /\ port c = p /\ count c = n;
}.

Lemma rep_find o m p : rep o m -> exists r, find_connection o p = Some r /\ match r with Some i => exists c, conns o !! i = Some c /\ port c = p /\ m !! p = Some (count c) | None => m !! p = None end.
Proof.
  intros [(l & T & Hs & Hl) Hinj Hm]. unfold find_connection. rewrite (lookup_exact_spec (fun _ => True) port_comparator _ _ l p T Hs I). eexists. split; [done|].
  destruct (find _ l) as [i|] eqn:Ef.
  - apply find_some in Ef as [Hi Ef]. apply list_elem_of_In, Hl, elem_of_dom in Hi as [c Hc]. unfold equal_to, ports in Ef. rewrite Hc in Ef. cbn in Ef. apply Z.eqb_eq, (proj1 (port_cmp_eq _ _)) in Ef.
    exists c. split; [done|]. split; [done|]. apply Hm. subst p. by exists i, c.
  - destruct (m !! p) as [n|] eqn:E; [|done]. apply Hm in E as (i & c & Hc & Hp & _). assert (In i l) as Hi by (apply list_elem_of_In, Hl, elem_of_dom; by eexists).
    pose proof (find_none _ _ Ef i Hi) as H. unfold equal_to, ports in H. rewrite Hc in H. cbn in H. apply Z.eqb_neq in H. destruct H. by apply port_cmp_eq.
Qed.

(** A count changes. *)
Lemma rep_set o m i c n : rep o m -> conns o !! i = Some c -> rep (mk (connections_tree o) (<[i := with_count c n]> (conns o))) (<[port c := n]> m).
Proof.
  intros [R Hinj Hm] Hc. assert (forall j, ports (<[i := with_count c n]> (conns o)) j = ports (conns o) j) as Hk.
  { intros j. unfold ports. destruct (decide (j = i)) as [-> |Hj]; [by rewrite lookup_insert_eq, Hc|by rewrite lookup_insert_ne]. }
  assert (forall j d, <[i := with_count c n]> (conns o) !! j = Some d -> exists d', conns o !! j = Some d' /\ port d' = port d) as Hd.
  { intros j d Hj. specialize (Hk j). unfold ports in Hk. rewrite Hj in Hk. destruct (conns o !! j) as [d'|]; [|done]. exists d'. by injection Hk as ->. }
  split; cbn.
  - rewrite (dom_insert_lookup_L (conns o) i) by (by eexists). eapply (tr_ext (KeyTree := bavl_tree (fun _ => True) port_comparator)); [exact R|]. intros j _. apply Hk.
  - intros a b x y Hx Hy E. destruct (Hd _ _ Hx) as (x' & Hx' & Ex), (Hd _ _ Hy) as (y' & Hy' & Ey). apply (Hinj a b x' y' Hx' Hy'). congruence.
  - intros p v. destruct (decide (p = port c)) as [-> |Hp].
    + rewrite lookup_insert_eq. split; [intros [= <-]; exists i, (with_count c n); by rewrite lookup_insert_eq|]. intros (j & d & Hj & Ed & <-). destruct (Hd _ _ Hj) as (d' & Hd' & Ed'). assert (j = i) as -> by (apply (Hinj j i d' c Hd' Hc); congruence).
      rewrite lookup_insert_eq in Hj. by injection Hj as <-.
    + rewrite lookup_insert_ne by done. rewrite Hm. split; intros (j & d & Hj & Ed & En); exists j, d.
      * rewrite lookup_insert_ne; [done|]. intros <-. rewrite Hc in Hj. by injection Hj as <-.
      * destruct (decide (j = i)) as [-> |Hji]; [rewrite lookup_insert_eq in Hj; by injection Hj as <-|]. by rewrite lookup_insert_ne in Hj.
Qed.

(** A connection is added. *)
Lemma rep_new o m tmp la ra p : rep o m -> conns o !! tmp = None -> m !! p = None ->
  let h := <[tmp := mk_con la ra p 1]> (conns o) in exists tr res, BAVL.BAVL_Insert port_comparator (ports h) (connections_tree o) tmp = Some (tr, res) /\ rep (mk tr.1 h) (<[p := 1]> m).
Proof.
  intros [R Hinj Hm] Ht Hp h. assert (forall j d, conns o !! j = Some d -> port d <> p) as Hne by (intros j d Hj Ep; assert (m !! p = Some (count d)) as E by (apply Hm; by exists j, d); by rewrite Hp in E).
  assert (forall j, j ∈ dom (conns o) -> ports h j = ports (conns o) j) as Hk by (intros j [d Hj]%elem_of_dom; unfold ports, h; rewrite lookup_insert_ne; [done|]; intros <-; by rewrite Ht in Hj).
  assert (ports h tmp = Some p) as Htmp by (unfold ports, h; by rewrite lookup_insert_eq).
  destruct (key_insert_ok (fun _ => True) port_comparator (ports h) (connections_tree o) (dom (conns o)) tmp p) as (tr & E & R').
  { eapply (tr_ext (KeyTree := bavl_tree (fun _ => True) port_comparator)); [exact R|exact Hk]. } { by apply not_elem_of_dom. } { done. } { done. }
  { intros j b Hj Hb. rewrite (Hk j Hj) in Hb. unfold ports in Hb. destruct (conns o !! j) as [d|] eqn:Hd; [|done]. cbn in Hb. injection Hb as <-. rewrite port_cmp_eq. intros Ep. by apply (Hne j d). }
  unfold key_insert in E. destruct (BAVL.BAVL_Insert port_comparator (ports h) (connections_tree o) tmp) as [[[tr' res] ref]|]; [|done]. cbn in E. destruct res; [|done]. injection E as ->. exists (tr, true), ref. split; [done|]. split; cbn.
  - unfold h. by rewrite dom_insert_L.
  - unfold h. intros a b x y. destruct (decide (a = tmp)) as [-> |Ha], (decide (b = tmp)) as [-> |Hb]; rewrite ?lookup_insert_eq, ?lookup_insert_ne by done; try done; intros H1 H2; [injection H1 as <-|injection H2 as <-|]; cbn; intros E; [by destruct (Hne b y)|by destruct (Hne a x)|by apply (Hinj a b x y)].
  - unfold h. intros q v. destruct (decide (q = p)) as [-> |Hq].
    + rewrite lookup_insert_eq. split; [intros [= <-]; eexists tmp, _; by rewrite lookup_insert_eq|]. intros (j & d & Hj & Ed & <-). destruct (decide (j = tmp)) as [-> |Hjt]; [rewrite lookup_insert_eq in Hj; by injection Hj as <-|]. rewrite lookup_insert_ne in Hj by done. by destruct (Hne j d).
    + rewrite lookup_insert_ne by done. rewrite Hm. split; intros (j & d & Hj & Ed & En); exists j, d.
      * rewrite lookup_insert_ne; [done|]. intros <-. by rewrite Ht in Hj.
      * destruct (decide (j = tmp)) as [-> |Hjt]; [rewrite lookup_insert_eq in Hj; injection Hj as <-; by destruct Hq|]. by rewrite lookup_insert_ne in Hj.
Qed.

(** A connection is taken out and freed. *)
Lemma rep_remove o m i c : rep o m -> conns o !! i = Some c -> exists tr, BAVL.BAVL_Remove (connections_tree o) i = Some tr /\ rep (mk tr (delete i (conns o))) (delete (port c) m).
Proof.
  intros [R Hinj Hm] Hc. destruct (tr_remove_ok (KeyTree := bavl_tree (fun _ => True) port_comparator) (ports (conns o)) (connections_tree o) (dom (conns o)) i R) as (tr & E & R').
  { intros j [d Hj]%elem_of_dom. unfold ports. rewrite Hj. by eexists. } { apply elem_of_dom. by eexists. }
  exists tr. split; [exact E|]. split; cbn.
  - rewrite dom_delete_L. eapply (tr_ext (KeyTree := bavl_tree (fun _ => True) port_comparator)); [exact R'|]. intros j [_ Hj]%elem_of_difference. unfold ports. rewrite lookup_delete_ne; [done|]. intros <-. apply Hj. by apply elem_of_singleton.
  - intros a b x y [_ H1]%lookup_delete_Some [_ H2]%lookup_delete_Some. by apply Hinj.
  - intros p n. rewrite lookup_delete_Some, Hm. split.
    + intros [Hp (j & d & Hj & Ed & En)]. exists j, d. split; [|done]. apply lookup_delete_Some. split; [|done]. intros <-. rewrite Hc in Hj. injection Hj as <-. by destruct Hp.
    + intros (j & d & [Hji Hj]%lookup_delete_Some & Ed & En). split; [|by exists j, d]. intros Ep. apply Hji. apply (Hinj i j c d Hc Hj). congruence.
Qed.

(** The functions keep one counted connection per port: an insertion counts, or adds a connection of count 1; a
    removal counts down, and the last one frees the connection.  [free_connections] empties the tree, one
    connection per round; the objects stay allocated. *)
Theorem connections_refine_counts o m : rep o m ->
  (forall p la ra tmp, conns o !! tmp = None -> (forall n, m !! p = Some n -> n < INT_MAX) -> exists o', insert_connection o la ra p (Some tmp) = Some o' /\ rep o' (<[p := default 0 (m !! p) + 1]> m)) /\
  (forall p n, m !! p = Some n -> exists con o', find_connection o p = Some (Some con) /\ remove_connection o con = Some o' /\ rep o' (if n - 1 <=? 0 then delete p m else <[p := n - 1]> m)) /\
  (forall p, m !! p = None -> find_connection o p = Some None) /\
  exists o', free_connections (size (conns o)) o = Some o' /\ BAVL.BAVL_IsEmpty (connections_tree o') = true /\ conns o' = conns o.
Proof.
  intros I. split; [|split; [|split]].
  - intros p la ra tmp Ht Hn. unfold insert_connection. destruct (rep_find o m p I) as (r & -> & Hr). cbn [mbind option_bind]. destruct r as [i|].
    + destruct Hr as (c & Hc & Hp & E). rewrite Hc, E. cbn [mbind option_bind default]. specialize (Hn _ E). bool_true. eexists. split; [done|]. rewrite <- Hp. by apply rep_set.
    + rewrite Hr. cbn [mbind option_bind default]. destruct (rep_new o m tmp la ra p I Ht Hr) as ([tr b] & res & -> & H). by eexists.
  - intros p n Hm. destruct (rep_find o m p I) as (r & E & Hr). destruct r as [i|]; [|congruence]. destruct Hr as (c & Hc & Hp & En). assert (count c = n) as <- by congruence. exists i. rewrite E. unfold remove_connection. rewrite Hc. cbn [mbind option_bind]. rewrite <- Hp.
    destruct (count c - 1 <=? 0); [|eexists; split; [done|]; split; [done|]; by apply rep_set]. destruct (rep_remove o m i c I Hc) as (tr & -> & R). eexists. split; [done|]. by split.
  - intros p Hp. destruct (rep_find o m p I) as (r & -> & Hr). destruct r as [i|]; [|done]. destruct Hr as (c & _ & _ & E). congruence.
  - destruct (r_tree _ _ I) as (l & T & Hs & Hl). assert (length l <= size (conns o))%nat as Hlen.
    { rewrite <- size_dom. replace (length l) with (size (list_to_set l : gset positive)) by (apply size_list_to_set; destruct T as (x & R & _ & <-); by apply (rep_nodup (connections_tree o))). apply subseteq_size. intros i Hi%elem_of_list_to_set. by apply Hl. }
    clear I Hl. revert Hlen. generalize (size (conns o)) as fuel. destruct o as [tr h]. cbn in *. intros fuel. revert tr l T Hs. induction fuel as [|fuel IH]; intros tr l T Hs Hlen; cbn [free_connections connections_tree conns]; destruct (ends_spec tr l T) as (_ & Elast & ->).
    + destruct l; [|cbn in Hlen; lia]. eexists. split; [done|]. cbn. destruct (ends_spec tr [] T) as (_ & _ & ->). done.
    + case_bool_decide as El; [subst l; eexists; split; [done|]; cbn; by destruct (ends_spec tr [] T) as (_ & _ & ->)|]. rewrite Elast. cbn [mbind option_bind].
      destruct (list.last l) as [i|] eqn:Ei; [|by apply last_None in Ei]. cbn [mbind option_bind]. assert (i ∈ l) as Hi by (by apply last_Some_elem_of).
      destruct (remove_list_ok (fun _ => True) port_comparator (ports h) tr l i T Hs Hi) as (tr' & -> & T' & Hs'). cbn [mbind option_bind]. apply (IH tr' (without i l) T' Hs').
      assert (length (without i l) < length l)%nat; [|lia]. apply (list.length_filter_lt (.≠ i) l i Hi). by intros [].
Qed.
End Connections.
