(* ===== verification/Options.v ===== *)
(** * Options and start-up settings of tun2socks (tun2socks/tun2socks.c, misc/read_file.h)

    [parse_arguments] turns the command line into [options], [process_arguments] turns those into
    addresses and credentials.  The string members of the structure hold a C string or NULL; its string
    and integer members are named by [str_member] and [int_member].  The list of log
    channels is generated by the build and a parameter, like the resolver.

    The outer [option] is undefined behaviour: an access outside [argv] or a buffer, a NULL
    pointer that is used, an [atoi] out of range. *)

From Stdlib Require Import String.
From S2P Require Import Prelude ByteOrder ParseNumber IpAddr IpAddr6 IpAddr6Print BAddr AddrText IpUdp PacketProto BSocksClient SocksUdpGwClient.
Import Text BSocksClient SocksUdpGwClient.

Module Options.

Abbreviation text := (list Z).

(** ** State *)
Inductive str_member :=
| S_logger_syslog_facility | S_logger_syslog_ident | S_netif_ipaddr | S_netif_netmask | S_netif_ip6addr | S_socks_server_addr | S_username | S_password | S_password_file
| S_udpgw_remote_server_addr | S_sock_path | S_pid | S_dnsgw.
Inductive int_member :=
| I_help | I_version | I_logger | I_loglevel | I_tun_mtu | I_fake_proc | I_append_source_to_username | I_udpgw_max_connections | I_udpgw_connection_buffer_size | I_udpgw_transparent_dns.
#[export] Instance str_member_eq_dec : EqDecision str_member.
Proof. solve_decision. Defined.
#[export] Instance int_member_eq_dec : EqDecision int_member.
Proof. solve_decision. Defined.

Record options_t := mk_options { str : str_member -> option text; int : int_member -> Z; loglevels : list Z }.
Definition set_str (o : options_t) (m : str_member) (v : option text) : options_t :=
  mk_options (fun x => if bool_decide (x = m) then v else str o x) (int o) (loglevels o).
Definition set_int (o : options_t) (m : int_member) (v : Z) : options_t :=
  mk_options (str o) (fun x => if bool_decide (x = m) then v else int o x) (loglevels o).
Definition set_channel (o : options_t) (c v : Z) : options_t := mk_options (str o) (int o) (<[Z.to_nat c := v]> (loglevels o)).

Definition LOGGER_STDOUT : Z := 1.
Definition LOGGER_SYSLOG : Z := 2.
Definition DEFAULT_UDPGW_MAX_CONNECTIONS : Z := 256.
Definition DEFAULT_UDPGW_CONNECTION_BUFFER_SIZE : Z := 8.

Section Channels.
Context (channels : list text).

Fixpoint channel_from (i : Z) (l : list text) (name : text) : Z :=
  match l with [] => -1 | c :: l => if bool_decide (c = name) then i else channel_from (i + 1) l name end.
Definition BLogGlobal_GetChannelByName (name : text) : Z := channel_from 0 channels name.

(** ** The command line *)
Definition defaults (argv0 : text) : options_t := mk_options
  (fun m => match m with S_logger_syslog_facility => Some (lit "daemon") | S_logger_syslog_ident => Some argv0 | _ => None end)
  (fun m => match m with
    | I_logger => LOGGER_STDOUT | I_loglevel => -1 | I_tun_mtu => 1500
    | I_udpgw_max_connections => DEFAULT_UDPGW_MAX_CONNECTIONS | I_udpgw_connection_buffer_size => DEFAULT_UDPGW_CONNECTION_BUFFER_SIZE
    | _ => 0 end)
  (replicate (length channels) (-1)).

(** What a round of the loop does: it returns 0, or goes on with other options and at another place. *)
Inductive outcome := Wrong | Go (o : options_t) (i : Z).

Definition arg_at (argv : list text) (i : Z) : option text := if i <? 0 then None else argv !! Z.to_nat i.

(** [if (1 >= argc - i) return 0; ... argv[i + 1] ...; i++] *)
Definition argument (argv : list text) (i : Z) (k : text -> option (option options_t)) : option outcome :=
  if 1 >=? zlen argv - i then Some Wrong else
  arg2 ← arg_at argv (i + 1);
  r ← k arg2;
  match r with None => Some Wrong | Some o => Some (Go o (i + 1)) end.
Definition string_argument (argv : list text) (o : options_t) (i : Z) (m : str_member) : option outcome :=
  argument argv i (fun arg2 => Some (Some (set_str o m (Some arg2)))).
Definition positive_argument (argv : list text) (o : options_t) (i : Z) (m : int_member) : option outcome :=
  argument argv i (fun arg2 => n ← atoi arg2; if n <=? 0 then Some None else Some (Some (set_int o m n))).

Definition parse_option (argv : list text) (o : options_t) (i : Z) : option outcome :=
  arg ← arg_at argv i;
  if bool_decide (arg = lit "--help") then Some (Go (set_int o I_help 1) i)
  else if bool_decide (arg = lit "--version") then Some (Go (set_int o I_version 1) i)
  else if bool_decide (arg = lit "--logger") then
    argument argv i (fun arg2 =>
      if bool_decide (arg2 = lit "stdout") then Some (Some (set_int o I_logger LOGGER_STDOUT))
      else if bool_decide (arg2 = lit "syslog") then Some (Some (set_int o I_logger LOGGER_SYSLOG))
      else Some None)
  else if bool_decide (arg = lit "--syslog-facility") then string_argument argv o i S_logger_syslog_facility
  else if bool_decide (arg = lit "--syslog-ident") then string_argument argv o i S_logger_syslog_ident
  else if bool_decide (arg = lit "--loglevel") then
    argument argv i (fun arg2 => let n := parse_loglevel arg2 in if n <? 0 then Some None else Some (Some (set_int o I_loglevel n)))
  else if bool_decide (arg = lit "--channel-loglevel") then
    if 2 >=? zlen argv - i then Some Wrong else
    a1 ← arg_at argv (i + 1);
    let channel := BLogGlobal_GetChannelByName a1 in
    if channel <? 0 then Some Wrong else
    a2 ← arg_at argv (i + 2);
    let loglevel := parse_loglevel a2 in
    if loglevel <? 0 then Some Wrong else
    ASSERT channel <? zlen (loglevels o);
    Some (Go (set_channel o channel loglevel) (i + 2))
  else if bool_decide (arg = lit "--fake-proc") then Some (Go (set_int o I_fake_proc 1) i)
  else if bool_decide (arg = lit "--tunmtu") then positive_argument argv o i I_tun_mtu
  else if bool_decide (arg = lit "--dnsgw") then string_argument argv o i S_dnsgw
  else if bool_decide (arg = lit "--sock-path") then string_argument argv o i S_sock_path
  else if bool_decide (arg = lit "--pid") then string_argument argv o i S_pid
  else if bool_decide (arg = lit "--netif-ipaddr") then string_argument argv o i S_netif_ipaddr
  else if bool_decide (arg = lit "--netif-netmask") then string_argument argv o i S_netif_netmask
  else if bool_decide (arg = lit "--netif-ip6addr") then string_argument argv o i S_netif_ip6addr
  else if bool_decide (arg = lit "--socks-server-addr") then string_argument argv o i S_socks_server_addr
  else if bool_decide (arg = lit "--username") then string_argument argv o i S_username
  else if bool_decide (arg = lit "--password") then string_argument argv o i S_password
  else if bool_decide (arg = lit "--password-file") then string_argument argv o i S_password_file
  else if bool_decide (arg = lit "--append-source-to-username") then Some (Go (set_int o I_append_source_to_username 1) i)
  else if bool_decide (arg = lit "--enable-udprelay") then Some (Go (set_str o S_udpgw_remote_server_addr (Some (lit "0.0.0.0:0"))) i)
  else if bool_decide (arg = lit "--udprelay-max-connections") then positive_argument argv o i I_udpgw_max_connections
  else Some Wrong.

Fixpoint parse_loop (fuel : nat) (argv : list text) (o : options_t) (i : Z) : option (option options_t) :=
  if i >=? zlen argv then Some (Some o) else
  match fuel with
  | O => None
  | S fuel =>
      r ← parse_option argv o i;
      match r with Wrong => Some None | Go o i => parse_loop fuel argv o (i + 1) end
  end.

Definition is_set (o : options_t) (m : str_member) : bool := bool_decide (is_Some (str o m)).

Definition parse_arguments (argv : list text) : option (option options_t) :=
  if zlen argv <=? 0 then Some None else
  argv0 ← arg_at argv 0;
  r ← parse_loop (length argv) argv (defaults argv0) 1;
  match r with
  | None => Some None
  | Some o =>
      if negb (int o I_help =? 0) || negb (int o I_version =? 0) then Some (Some o) else
      if negb (is_set o S_netif_ipaddr) then Some None else
      if negb (is_set o S_socks_server_addr) then Some None else
      if is_set o S_username then
        if negb (is_set o S_password) && negb (is_set o S_password_file) then Some None else
        if is_set o S_password && is_set o S_password_file then Some None else
        Some (Some o)
      else Some (Some o)
  end.
End Channels.

(** ** Reading the password file *)

(** A file with contents [data]; [fails]: the read behind the last byte is an error and not the
    end of the file; [mem n]: whether [n] bytes can be allocated. *)
Fixpoint read_loop (fuel : nat) (mem : Z -> bool) (fails : bool) (data : text) (buf_len buf_size : Z) : option (option text) :=
  match fuel with
  | O => None
  | S fuel =>
      let grown :=
        if buf_len =? buf_size then
          if 2 >? SIZE_MAX / buf_size then None else
          let newsize := 2 * buf_size in
          if negb (mem newsize) then None else Some newsize
        else Some buf_size in
      match grown with
      | None => Some None
      | Some buf_size =>
          let bytes := Z.min (buf_size - buf_len) (zlen data - buf_len) in
          if bytes =? 0 then (if fails then Some None else Some (Some (sub data 0 buf_len)))
          else read_loop fuel mem fails data (buf_len + bytes) buf_size
      end
  end.
Definition read_file (mem : Z -> bool) (fails : bool) (file : option text) : option (option text) :=
  match file with
  | None => Some None
  | Some data => if negb (mem 128) then Some None else read_loop (S (length data)) mem fails data 0 128
  end.

(** ** Settings *)
Record settings := mk_settings { netif_ipaddr : BIPAddr; netif_ip6addr : list Z; socks_server_addr : BAddr; socks_auth_info : list auth_info; udpgw_remote_server_addr : BAddr; dnsgw : BAddr }.

(** The objects before they are set: static variables. *)
Definition static_addr : BAddr := ADDR_NONE.
Definition static_ip6 : list Z := replicate 16 0.

(** An address option, if it is given. *)
Definition parse_addr (rs : resolver) (s : text) : option (option BAddr) :=
  r ← BAddr_Parse2 rs s None false; Some (a ← r; Some a.1).

(** [password_file_contents]: what the variable holds before; [main] sets it to NULL. *)
Definition process_arguments (password_file_contents : option text) (rs : resolver) (password_file : text -> option (option text)) (o : options_t) : option (option settings) :=
  ASSERT bool_decide (password_file_contents = None);
  s ← str o S_netif_ipaddr;
  ip ← BIPAddr_Resolve rs s false;
  match ip with
  | Some (IP_V4 ip) =>
    ip6 ← match str o S_netif_ip6addr with
          | Some s => '(r, out) ← ipaddr6_parse_ipv6_addr s static_ip6; Some (if (r : bool) then Some out else None)
          | None => Some (Some static_ip6)
          end;
    match ip6 with
    | None => Some None
    | Some ip6 =>
      s ← str o S_socks_server_addr;
      a ← parse_addr rs s;
      match a with
      | None => Some None
      | Some server =>
        auth ← match str o S_username with
               | None => Some (Some [BSocksClient_auth_none])
               | Some u =>
                   p ← match str o S_password with
                       | Some p => Some (Some p)
                       | None => f ← str o S_password_file; password_file f
                       end;
                   Some (p' ← p; Some [BSocksClient_auth_none; BSocksClient_auth_password u p'])
               end;
        match auth with
        | None => Some None
        | Some auth =>
          u ← match str o S_udpgw_remote_server_addr with Some s => parse_addr rs s | None => Some (Some static_addr) end;
          match u with
          | None => Some None
          | Some u =>
            d ← match str o S_dnsgw with
                | Some s => d ← parse_addr rs s; Some (d' ← d; if addr_type d' =? 1 then Some d' else None)
                | None => Some (Some static_addr)
                end;
            match d with
            | None => Some None
            | Some d => Some (Some (mk_settings (IP_V4 ip) ip6 server auth u d))
            end
          end
        end
      end
    end
  | _ => Some None
  end.

(** The largest UDP payload ([main]), and whether the start-up goes on with it. *)
Definition main_udp_mtu (device_mtu : Z) (ipv6 : bool) : Z :=
  let udp_mtu := device_mtu - (sizeof_ipv4_header + sizeof_udp_header) in
  let udp_mtu := if ipv6 then let udp_ip6_mtu := device_mtu - (sizeof_ipv6_header + sizeof_udp_header) in if udp_mtu <? udp_ip6_mtu then udp_ip6_mtu else udp_mtu else udp_mtu in
  if udp_mtu <? 0 then 0 else udp_mtu.
Definition main_udp_mtu_ok (udp_mtu : Z) : bool :=
  let udpgw_mtu := udpgw_compute_mtu udp_mtu in negb ((udpgw_mtu <? 0) || (udpgw_mtu >? PACKETPROTO_MAXPAYLOAD)).

(** ** Reference: the options of a command line *)
Inductive opt :=
| OHelp | OVersion | OLogger (l : Z) (t : text) | OStr (m : str_member) (t : text) | OLoglevel (t : text) | OChannel (c t : text) | OFakeProc | ONum (m : int_member) (t : text) | OAppend | OUdpRelay.

Definition str_flag (m : str_member) : option text :=
  match m with
  | S_logger_syslog_facility => Some (lit "--syslog-facility") | S_logger_syslog_ident => Some (lit "--syslog-ident") | S_netif_ipaddr => Some (lit "--netif-ipaddr")
  | S_netif_netmask => Some (lit "--netif-netmask") | S_netif_ip6addr => Some (lit "--netif-ip6addr") | S_socks_server_addr => Some (lit "--socks-server-addr")
  | S_username => Some (lit "--username") | S_password => Some (lit "--password") | S_password_file => Some (lit "--password-file") | S_udpgw_remote_server_addr => None
  | S_sock_path => Some (lit "--sock-path") | S_pid => Some (lit "--pid") | S_dnsgw => Some (lit "--dnsgw")
  end.
Definition num_flag (m : int_member) : option text :=
  match m with I_tun_mtu => Some (lit "--tunmtu") | I_udpgw_max_connections => Some (lit "--udprelay-max-connections") | _ => None end.

Definition words (op : opt) : list text :=
  match op with
  | OHelp => [lit "--help"] | OVersion => [lit "--version"] | OLogger _ t => [lit "--logger"; t] | OStr m t => [default [] (str_flag m); t]
  | OLoglevel t => [lit "--loglevel"; t] | OChannel c t => [lit "--channel-loglevel"; c; t] | OFakeProc => [lit "--fake-proc"] | ONum m t => [default [] (num_flag m); t]
  | OAppend => [lit "--append-source-to-username"] | OUdpRelay => [lit "--enable-udprelay"]
  end.
Definition number (t : text) : Z := default 0 (atoi t).

Section Grammar.
Context (channels : list text).

Definition opt_ok (op : opt) : bool :=
  match op with
  | OLogger l t => ((l =? LOGGER_STDOUT) && bool_decide (t = lit "stdout")) || ((l =? LOGGER_SYSLOG) && bool_decide (t = lit "syslog"))
  | OStr m _ => bool_decide (is_Some (str_flag m))
  | OLoglevel t => 0 <=? parse_loglevel t
  | OChannel c t => (0 <=? BLogGlobal_GetChannelByName channels c) && (0 <=? parse_loglevel t)
  | ONum m t => bool_decide (is_Some (num_flag m)) && (0 <? number t)
  | _ => true
  end.

Definition apply (o : options_t) (op : opt) : options_t :=
  match op with
  | OHelp => set_int o I_help 1 | OVersion => set_int o I_version 1 | OLogger l _ => set_int o I_logger l | OStr m t => set_str o m (Some t)
  | OLoglevel t => set_int o I_loglevel (parse_loglevel t) | OChannel c t => set_channel o (BLogGlobal_GetChannelByName channels c) (parse_loglevel t)
  | OFakeProc => set_int o I_fake_proc 1 | ONum m t => set_int o m (number t) | OAppend => set_int o I_append_source_to_username 1
  | OUdpRelay => set_str o S_udpgw_remote_server_addr (Some (lit "0.0.0.0:0"))
  end.

(** What else the command line must have. *)
Definition asks_only (o : options_t) : Prop := int o I_help <> 0 \/ int o I_version <> 0.
Definition complete (o : options_t) : Prop :=
  asks_only o \/
  (is_Some (str o S_netif_ipaddr) /\ is_Some (str o S_socks_server_addr) /\
   (is_Some (str o S_username) -> (is_Some (str o S_password) /\ str o S_password_file = None) \/ (str o S_password = None /\ is_Some (str o S_password_file)))).

(** ** The loop *)
Lemma channel_range c : -1 <= BLogGlobal_GetChannelByName channels c < zlen channels.
Proof.
  unfold BLogGlobal_GetChannelByName. assert (forall l i, 0 <= i -> -1 <= channel_from i l c < i + zlen l) as H; [|specialize (H channels 0); lia].
  induction l as [|x l IH]; intros i Hi; cbn [channel_from]; [rewrite zlen_nil; lia|]. rewrite zlen_cons. pose proof (zlen_nonneg l). case_bool_decide; [lia|]. specialize (IH (i + 1)). lia.
Qed.

Lemma at_here argv i a rest : 0 <= i -> drop (Z.to_nat i) argv = a :: rest -> arg_at argv i = Some a /\ zlen argv - i = 1 + zlen rest /\ drop (Z.to_nat (i + 1)) argv = rest.
Proof.
  intros Hi E. unfold arg_at. replace (i <? 0) with false by (symmetry; lia). pose proof (f_equal length E) as El. rewrite length_drop in El. cbn in El. split; [|split].
  - pose proof (lookup_drop argv (Z.to_nat i) 0) as H. rewrite E, Nat.add_0_r in H. by rewrite <- H.
  - unfold zlen. lia.
  - replace (Z.to_nat (i + 1)) with (Z.to_nat i + 1)%nat by lia. by rewrite <- drop_drop, E.
Qed.

(** An option's argument. *)
Lemma argument_here argv i a b rest k : 0 <= i -> drop (Z.to_nat i) argv = a :: b :: rest ->
  argument argv i k = (r ← k b; match r with None => Some Wrong | Some o => Some (Go o (i + 1)) end).
Proof.
  intros Hi E. destruct (at_here argv i a _ Hi E) as (_ & El & Ed). destruct (at_here argv (i + 1) b rest ltac:(lia) Ed) as (Eb & _). unfold argument. rewrite El, Eb, zlen_cons.
  pose proof (zlen_nonneg rest). replace (1 >=? 1 + (1 + zlen rest)) with false by (symmetry; lia). done.
Qed.
Lemma argument_missing argv i a k : 0 <= i -> drop (Z.to_nat i) argv = [a] -> argument argv i k = Some Wrong.
Proof. intros Hi E. destruct (at_here argv i a _ Hi E) as (_ & El & _). unfold argument. rewrite El, zlen_nil. done. Qed.

Ltac other_flag := rewrite bool_decide_false by (vm_compute; discriminate).
Ltac this_flag := rewrite bool_decide_true by reflexivity.

Lemma parse_option_complete argv o i op rest : 0 <= i -> length (loglevels o) = length channels -> opt_ok op = true -> drop (Z.to_nat i) argv = words op ++ rest ->
  parse_option channels argv o i = Some (Go (apply o op) (i + zlen (words op) - 1)).
Proof.
  intros Hi Hc Hok E. unfold parse_option. destruct op as [| |l t|m t|t|c t| |m t| |]; cbn [words app] in E; cbn [words apply].
  all: destruct (at_here argv i _ _ Hi E) as (-> & El & Ed); cbn [mbind option_bind].
  - this_flag. do 2 f_equal. change (zlen [lit "--help"]) with 1. lia.
  - other_flag. this_flag. do 2 f_equal. change (zlen [lit "--version"]) with 1. lia.
  - do 2 other_flag. this_flag. rewrite (argument_here argv i _ t rest) by done. cbn in Hok. change (zlen [lit "--logger"; t]) with 2. apply orb_true_iff in Hok as [[->%Z.eqb_eq ->%bool_decide_eq_true]%andb_true_iff|[->%Z.eqb_eq ->%bool_decide_eq_true]%andb_true_iff].
    + this_flag. cbn [mbind option_bind]. do 2 f_equal. lia.
    + other_flag. this_flag. cbn [mbind option_bind]. do 2 f_equal. lia.
  - change (zlen [default [] (str_flag m); t]) with 2. unfold string_argument. rewrite !(argument_here argv i _ t rest _ Hi E). cbn [mbind option_bind]. replace (i + 2 - 1) with (i + 1) by lia.
    destruct m; cbn [str_flag default from_option id]; try done; repeat other_flag; by this_flag.
  - change (zlen [lit "--loglevel"; t]) with 2. cbn in Hok. apply Z.leb_le in Hok. repeat other_flag. this_flag. rewrite (argument_here argv i _ t rest _ Hi E). cbv zeta. bool_false. cbn [mbind option_bind]. do 2 f_equal. lia.
  - change (zlen [lit "--channel-loglevel"; c; t]) with 3. cbn in Hok. apply andb_true_iff in Hok as [Hch%Z.leb_le Hl%Z.leb_le]. destruct (at_here argv (i + 1) c (t :: rest) ltac:(lia) Ed) as (Ec & _ & Ed').
    destruct (at_here argv (i + 1 + 1) t rest ltac:(lia) Ed') as (Et & _ & _). replace (i + 1 + 1) with (i + 2) in Et by lia. pose proof (channel_range c). pose proof (zlen_nonneg rest).
    repeat other_flag. this_flag. rewrite El, !zlen_cons, Ec, Et. cbn [mbind option_bind]. cbv zeta. bool_false. bool_false. bool_false. assert (zlen (loglevels o) = zlen channels) as -> by (unfold zlen; lia).
    bool_true. do 2 f_equal. lia.
  - repeat other_flag. this_flag. do 2 f_equal. change (zlen [lit "--fake-proc"]) with 1. lia.
  - change (zlen [default [] (num_flag m); t]) with 2. cbn in Hok. apply andb_true_iff in Hok as [Hm Hn%Z.ltb_lt]. unfold number in *. destruct (atoi t) as [n|] eqn:En; [|cbn in Hn; lia]. cbn in Hn.
    unfold positive_argument. rewrite !(argument_here argv i _ t rest _ Hi E). rewrite En. cbn [mbind option_bind default from_option id]. replace (i + 2 - 1) with (i + 1) by lia.
    destruct m; cbn [num_flag default from_option id] in *; try done; repeat other_flag; this_flag; by bool_false.
  - repeat other_flag. this_flag. do 2 f_equal. change (zlen [lit "--append-source-to-username"]) with 1. lia.
  - repeat other_flag. this_flag. do 2 f_equal. change (zlen [lit "--enable-udprelay"]) with 1. lia.
Qed.

(** A round of the loop reads one option. *)
Definition round (o : options_t) (i : Z) (l : list text) (r : outcome) : Prop :=
  r = Wrong \/ exists op rest, opt_ok op = true /\ l = words op ++ rest /\ r = Go (apply o op) (i + zlen (words op) - 1).

Lemma round_flag o i op a rest : words op = [a] -> opt_ok op = true -> exists r, Some (Go (apply o op) i) = Some r /\ round o i (a :: rest) r.
Proof. intros Hw Hok. eexists. split; [done|]. right. exists op, rest. rewrite Hw. split; [done|]. split; [done|]. f_equal. change (zlen [a]) with 1. lia. Qed.

Lemma round_argument argv o i a rest k : 0 <= i -> drop (Z.to_nat i) argv = a :: rest ->
  (forall b rest', rest = b :: rest' -> exists x, k b = Some x /\ (x = None \/ exists op, opt_ok op = true /\ words op = [a; b] /\ x = Some (apply o op))) ->
  exists r, argument argv i k = Some r /\ round o i (a :: rest) r.
Proof.
  intros Hi E Hk. destruct rest as [|b rest]; [rewrite (argument_missing argv i a) by done; eexists; split; [done|]; by left|].
  rewrite (argument_here argv i a b rest) by done. destruct (Hk b rest eq_refl) as (x & -> & [->|(op & Hok & Hw & ->)]); cbn [mbind option_bind]; eexists; (split; [done|]); [by left|].
  right. exists op, rest. split; [done|]. rewrite Hw. split; [done|]. f_equal. change (zlen [a; b]) with 2. lia.
Qed.

Lemma round_string argv o i a rest m : 0 <= i -> drop (Z.to_nat i) argv = a :: rest -> str_flag m = Some a -> exists r, string_argument argv o i m = Some r /\ round o i (a :: rest) r.
Proof.
  intros Hi E Hm. apply round_argument; [done..|]. intros b rest' _. eexists. split; [done|]. right. exists (OStr m b). cbn. rewrite Hm. split; [by apply bool_decide_eq_true|done].
Qed.
Lemma round_number argv o i a rest m : 0 <= i -> drop (Z.to_nat i) argv = a :: rest -> num_flag m = Some a -> Forall (fun t => is_Some (atoi t)) rest ->
  exists r, positive_argument argv o i m = Some r /\ round o i (a :: rest) r.
Proof.
  intros Hi E Hm Hn. apply round_argument; [done..|]. intros b rest' ->. apply list.Forall_cons in Hn as [[n Hb] _]. rewrite Hb. cbn [mbind option_bind].
  destruct (Z.leb_spec n 0); eexists; (split; [done|]); [by left|]. right. exists (ONum m b). cbn. unfold number. rewrite Hb, Hm. cbn. split; [lia|done].
Qed.

Lemma parse_option_round argv o i a rest : 0 <= i -> length (loglevels o) = length channels -> drop (Z.to_nat i) argv = a :: rest -> Forall (fun t => is_Some (atoi t)) rest ->
  exists r, parse_option channels argv o i = Some r /\ round o i (a :: rest) r.
Proof.
  intros Hi Hc E Hn. destruct (at_here argv i _ _ Hi E) as (Ea & El & Ed). unfold parse_option. rewrite Ea. cbn [mbind option_bind].
  case_bool_decide; [subst a; by apply (round_flag o i OHelp)|]. case_bool_decide; [subst a; by apply (round_flag o i OVersion)|].
  case_bool_decide; [subst a; apply round_argument; [done..|]; intros b rest' ->|].
  { case_bool_decide; [subst b; eexists; split; [done|]; right; by exists (OLogger LOGGER_STDOUT (lit "stdout"))|].
    case_bool_decide; [subst b; eexists; split; [done|]; right; by exists (OLogger LOGGER_SYSLOG (lit "syslog"))|]. eexists. split; [done|]. by left. }
  case_bool_decide; [subst a; by apply round_string|]. case_bool_decide; [subst a; by apply round_string|].
  case_bool_decide; [subst a; apply round_argument; [done..|]; intros b rest' ->; cbv zeta|].
  { destruct (Z.ltb_spec (parse_loglevel b) 0); eexists; (split; [done|]); [by left|]. right. exists (OLoglevel b). cbn. split; [lia|done]. }
  case_bool_decide; [subst a|].
  { rewrite El. destruct rest as [|c rest]; [rewrite zlen_nil; eexists; split; [done|]; by left|]. destruct rest as [|t rest]; [change (zlen [c]) with 1; eexists; split; [done|]; by left|].
    rewrite !zlen_cons. pose proof (zlen_nonneg rest). bool_false. destruct (at_here argv (i + 1) c (t :: rest) ltac:(lia) Ed) as (-> & _ & Ed').
    destruct (at_here argv (i + 1 + 1) t rest ltac:(lia) Ed') as (Et & _ & _). replace (i + 1 + 1) with (i + 2) in Et by lia. rewrite Et. cbn [mbind option_bind]. cbv zeta. pose proof (channel_range c).
    destruct (Z.ltb_spec (BLogGlobal_GetChannelByName channels c) 0); [eexists; split; [done|]; by left|]. destruct (Z.ltb_spec (parse_loglevel t) 0); [eexists; split; [done|]; by left|].
    assert (zlen (loglevels o) = zlen channels) as -> by (unfold zlen; lia). bool_true. eexists. split; [done|]. right. exists (OChannel c t), rest. cbn [words app apply opt_ok].
    split; [apply andb_true_iff; split; lia|]. split; [done|]. f_equal. change (zlen [lit "--channel-loglevel"; c; t]) with 3. lia. }
  case_bool_decide; [subst a; by apply (round_flag o i OFakeProc)|]. case_bool_decide; [subst a; by apply round_number|].
  do 10 (case_bool_decide; [subst a; by apply round_string|]).
  case_bool_decide; [subst a; by apply (round_flag o i OAppend)|]. case_bool_decide; [subst a; by apply (round_flag o i OUdpRelay)|].
  case_bool_decide; [subst a; by apply round_number|]. eexists. split; [done|]. by left.
Qed.

Lemma apply_loglevels o op : length (loglevels (apply o op)) = length (loglevels o).
Proof. destruct op; cbn; try done. by rewrite length_insert. Qed.
Lemma words_cons op : exists a l, words op = a :: l.
Proof. destruct op; cbn; eauto. Qed.

(** The options [os] in the arguments from [i] on, starting from [o]. *)
Definition reads (argv : list text) (o : options_t) (i : Z) (o' : options_t) : Prop :=
  exists os, forallb opt_ok os = true /\ drop (Z.to_nat i) argv = concat (map words os) /\ o' = fold_left apply os o.

Lemma reads_end argv o i o' : drop (Z.to_nat i) argv = [] -> reads argv o i o' <-> o' = o.
Proof.
  intros E. split; [|intros ->; by exists []]. intros (os & _ & Ed & ->). rewrite E in Ed. destruct os as [|op os]; [done|]. cbn in Ed. destruct (words_cons op) as (a & l & Ew). by rewrite Ew in Ed.
Qed.

Lemma reads_step argv o i op rest o' : 0 <= i -> length (loglevels o) = length channels -> opt_ok op = true -> drop (Z.to_nat i) argv = words op ++ rest ->
  reads argv o i o' <-> reads argv (apply o op) (i + zlen (words op)) o'.
Proof.
  intros Hi Hc Hok E. assert (forall op', Z.to_nat (i + zlen (words op')) = (Z.to_nat i + length (words op'))%nat) as Hn by (intros; unfold zlen; lia).
  assert (drop (Z.to_nat (i + zlen (words op))) argv = rest) as Er by (by rewrite Hn, <- drop_drop, E, drop_app_length). split.
  - intros (os & Hos & Ed & ->). destruct os as [|op' os]; [rewrite E in Ed; destruct (words_cons op) as (a & l & Ew); by rewrite Ew in Ed|]. cbn in Hos, Ed. apply andb_true_iff in Hos as [Hop Hos].
    pose proof (parse_option_complete argv o i op rest Hi Hc Hok E) as H1. rewrite (parse_option_complete argv o i op' _ Hi Hc Hop Ed) in H1. injection H1 as Ea El.
    exists os. split; [done|]. split; [|cbn; by rewrite Ea]. rewrite Er. rewrite E in Ed. assert (length (words op) = length (words op')) as Elen by (unfold zlen in El; lia).
    by apply app_inj_1 in Ed as [_ ->].
  - intros (os & Hos & Ed & ->). exists (op :: os). cbn. rewrite Hok. split; [done|]. split; [|done]. by rewrite E, <- Ed, Er.
Qed.

Lemma parse_loop_reads fuel : forall argv o i, 0 <= i <= zlen argv -> zlen argv - i <= Z.of_nat fuel -> length (loglevels o) = length channels -> Forall (fun t => is_Some (atoi t)) (drop (Z.to_nat i) argv) ->
  exists res, parse_loop channels fuel argv o i = Some res /\ forall o', res = Some o' <-> reads argv o i o'.
Proof.
  induction fuel as [|fuel IH]; intros argv o i Hi Hf Hc Hn; cbn [parse_loop].
  { bool_true. eexists. split; [done|]. intros o'. rewrite reads_end by (apply drop_ge; unfold zlen in *; lia). split; [by intros [= ->]|by intros ->]. }
  destruct (Z.geb_spec i (zlen argv)) as [Hge|Hlt].
  { eexists. split; [done|]. intros o'. rewrite reads_end by (apply drop_ge; unfold zlen in *; lia). split; [by intros [= ->]|by intros ->]. }
  destruct (drop (Z.to_nat i) argv) as [|a rest] eqn:E; [apply (f_equal length) in E; rewrite length_drop in E; unfold zlen in *; cbn in E; lia|].
  pose proof Hn as [_ Hn']%list.Forall_cons. destruct (parse_option_round argv o i a rest ltac:(lia) Hc E Hn') as (r & Er & [->|(op & rest' & Hok & Ew & ->)]); rewrite Er; cbn [mbind option_bind].
  - eexists. split; [done|]. intros o'. split; [done|]. intros (os & Hos & Ed & _). destruct os as [|op os]; [by rewrite E in Ed|]. cbn in Hos, Ed. apply andb_true_iff in Hos as [Hop _].
    rewrite (parse_option_complete argv o i op _ ltac:(lia) Hc Hop Ed) in Er. done.
  - rewrite Ew in E. assert (zlen (words op) <= zlen argv - i) as Hw.
    { apply (f_equal length) in E. rewrite length_drop, length_app in E. unfold zlen in *. lia. }
    assert (1 <= zlen (words op)) by (destruct (words_cons op) as (x & l & ->); rewrite zlen_cons; pose proof (zlen_nonneg l); lia).
    replace (i + zlen (words op) - 1 + 1) with (i + zlen (words op)) by lia.
    destruct (IH argv (apply o op) (i + zlen (words op))) as (res & -> & Hres); [lia|lia|by rewrite apply_loglevels| |].
    { replace (Z.to_nat (i + zlen (words op))) with (Z.to_nat i + length (words op))%nat by (unfold zlen; lia). rewrite <- drop_drop. apply Forall_drop. rewrite E, <- Ew. done. }
    exists res. split; [done|]. intros o'. rewrite Hres. symmetry. apply (reads_step argv o i op rest'); [lia|done..].
Qed.

(** The tests behind the loop. *)
Lemma required_ok o : exists res,
  (if negb (int o I_help =? 0) || negb (int o I_version =? 0) then Some (Some o) else
   if negb (is_set o S_netif_ipaddr) then Some None else
   if negb (is_set o S_socks_server_addr) then Some None else
   if is_set o S_username then
     if negb (is_set o S_password) && negb (is_set o S_password_file) then Some None else
     if is_set o S_password && is_set o S_password_file then Some None else
     Some (Some o)
   else Some (Some o)) = Some res /\ forall o', res = Some o' <-> complete o /\ o' = o.
Proof.
  unfold complete, asks_only, is_set. destruct (Z.eqb_spec (int o I_help) 0) as [H1|H1]; [destruct (Z.eqb_spec (int o I_version) 0) as [H2|H2]|]; cbn [negb orb].
  2, 3: eexists; split; [done|]; intros o'; intuition congruence.
  assert (forall x : option text, bool_decide (is_Some x) = match x with Some _ => true | None => false end) as Hb by (by intros [|]).
  assert (forall x : option text, is_Some x <-> x <> None) as Hs by (intros x; symmetry; apply not_eq_None_Some).
  rewrite !Hb. setoid_rewrite Hs. destruct (str o S_netif_ipaddr), (str o S_socks_server_addr), (str o S_username), (str o S_password), (str o S_password_file); cbn [negb andb]; eexists; (split; [done|]); intros o'; intuition congruence.
Qed.

Lemma parse_grammar argv0 args : Forall (fun t => is_Some (atoi t)) args ->
  exists res, parse_arguments channels (argv0 :: args) = Some res /\
  forall o, res = Some o <-> exists os, forallb opt_ok os = true /\ args = concat (map words os) /\ o = fold_left apply os (defaults channels argv0) /\ complete o.
Proof.
  intros Hn. unfold parse_arguments. pose proof (zlen_nonneg args). assert (zlen (argv0 :: args) = 1 + zlen args) as El by (by rewrite zlen_cons). rewrite El. bool_false.
  change (arg_at (argv0 :: args) 0) with (Some argv0). cbn [mbind option_bind].
  destruct (parse_loop_reads (length (argv0 :: args)) (argv0 :: args) (defaults channels argv0) 1) as (res & -> & Hres); [lia|rewrite El; cbn [length]; unfold zlen; lia|apply length_replicate|exact Hn|]. cbn [mbind option_bind].
  assert (forall o, reads (argv0 :: args) (defaults channels argv0) 1 o <-> exists os, forallb opt_ok os = true /\ args = concat (map words os) /\ o = fold_left apply os (defaults channels argv0)) as Hr by done.
  destruct res as [o1|].
  - destruct (required_ok o1) as (res & -> & Hq). exists res. split; [done|]. intros o. rewrite Hq. destruct (proj1 (Hr o1) (proj1 (Hres o1) eq_refl)) as (os & Hos & Ea & Eo). split.
    + intros [Hc ->]. by exists os.
    + intros (os' & Hos' & Ea' & Eo' & Hc). assert (Some o1 = Some o) as [= ->]; [|done]. apply Hres, Hr. by exists os'.
  - exists None. split; [done|]. intros o. split; [done|]. intros (os & Hos & Ea & Eo & _). apply Hres, Hr. by exists os.
Qed.

(** C29: the grammar of the command line, as the code has it (the text of [print_help] differs in two options): with at least the program's name, and with
    every argument a text for which [atoi] is defined (a number in it fits in [int]), parsing ends without an access outside [argv], and it succeeds with options [o] exactly when the arguments are a
    sequence of well-formed options, whose effects in order give [o], and, unless help or the version is asked
    for, the address of the interface and of the SOCKS server are among them, and with a user name
    exactly one of password and password file. *)
Theorem options_grammar argv0 args : Forall (fun t => is_Some (atoi t)) args ->
  exists res, parse_arguments channels (argv0 :: args) = Some res /\
  forall o, res = Some o <-> exists os, forallb opt_ok os = true /\ args = concat (map words os) /\ o = fold_left apply os (defaults channels argv0) /\ complete o.
Proof. apply parse_grammar. Qed.

Lemma parse_complete argv o : parse_arguments channels argv = Some (Some o) -> complete o.
Proof.
  unfold parse_arguments. case_if; [done|]. destruct (arg_at argv 0) as [argv0|]; [|done]. cbn [mbind option_bind]. destruct (parse_loop _ _ _ _ _) as [[o1|]|]; [|done..]. cbn [mbind option_bind].
  destruct (required_ok o1) as (res & -> & Hq). intros [= ->]. by destruct (proj1 (Hq o) eq_refl) as [Hc ->].
Qed.
End Grammar.

(** ** Settings *)
Lemma read_loop_ok mem fails data fuel : forall len size, 0 <= len <= size -> len <= zlen data -> 0 < size -> zlen data - len < Z.of_nat fuel ->
  exists res, read_loop fuel mem fails data len size = Some res /\ (forall t, res = Some t -> t = data /\ fails = false) /\
    ((forall n, mem n = true) -> fails = false -> 2 * zlen data <= SIZE_MAX -> res = Some data).
Proof.
  induction fuel as [|fuel IH]; intros len size Hl Hd Hs Hf; [lia|]. cbn [read_loop].
  assert (forall size', len < size' -> exists res, (let bytes := Z.min (size' - len) (zlen data - len) in if bytes =? 0 then (if fails then Some None else Some (Some (sub data 0 len))) else read_loop fuel mem fails data (len + bytes) size') = Some res /\
    (forall t, res = Some t -> t = data /\ fails = false) /\ ((forall n, mem n = true) -> fails = false -> 2 * zlen data <= SIZE_MAX -> res = Some data)) as Hread.
  { intros size' Hs'. cbv zeta. destruct (Z.eqb_spec (Z.min (size' - len) (zlen data - len)) 0) as [H0|H0].
    - assert (len = zlen data) as -> by lia. rewrite sub_0_all. destruct fails; eexists; (split; [done|]); split; try done. intros t [= <-]. done.
    - apply IH; lia. }
  destruct (Z.eqb_spec len size) as [->|Hne]; [|apply Hread; lia]. destruct (Z.gtb_spec 2 (SIZE_MAX / size)) as [Hbig|Hbig].
  { eexists. split; [done|]. split; [done|]. intros _ _ Hz. assert (2 <= SIZE_MAX / size) by (apply Z.div_le_lower_bound; lia). lia. }
  cbv zeta. destruct (mem (2 * size)) eqn:Em; cbn [negb]; [apply Hread; lia|]. eexists. split; [done|]. split; [done|]. intros Hm. by rewrite Hm in Em.
Qed.

(** The whole file is read, or nothing. *)
Lemma read_file_ok mem fails file : exists res, read_file mem fails file = Some res /\ (forall t, res = Some t -> file = Some t) /\
  ((forall n, mem n = true) -> fails = false -> match file with Some d => 2 * zlen d <= SIZE_MAX -> res = Some d | None => res = None end).
Proof.
  unfold read_file. destruct file as [data|]; [|by exists None]. destruct (mem 128) eqn:Em; cbn [negb]; [|exists None; split; [done|]; split; [done|]; intros Hm; by rewrite Hm in Em].
  pose proof (zlen_nonneg data). destruct (read_loop_ok mem fails data (S (length data)) 0 128) as (res & E & H1 & H2); [lia|lia|lia|unfold zlen; lia|]. exists res. split; [exact E|]. split; [intros t Ht; by destruct (H1 t Ht) as [-> _]|done].
Qed.

Lemma parse_addr_denotes rs s : exists res, parse_addr rs s = Some res /\ forall a, res = Some a <-> denotes rs s None false a None.
Proof.
  unfold parse_addr. destruct (addr_parse_denotes rs s None false) as (res & -> & H). cbn [mbind option_bind]. eexists. split; [done|]. intros a. rewrite <- H. destruct res as [[a' nm]|]; cbn; [|done].
  split; [intros [= <-]|by intros [= -> ->]]. do 2 f_equal. destruct (proj1 (H a' nm) eq_refl) as (? & ? & ? & ? & _ & _ & _ & _ & _ & _ & E). exact E.
Qed.

Definition bracketed (s : text) : bool := (zlen s >=? 1) && bool_decide (s !! 0%nat = Some CH_OPEN) && bool_decide (s !! Z.to_nat (zlen s - 1) = Some CH_CLOSE).
Lemma resolve_ipv4 rs s nr : exists res, BIPAddr_Resolve rs s nr = Some res /\ forall ip, res = Some (IP_V4 ip) <-> bracketed s = false /\ zlen s <= BADDR_MAX_ADDR_LEN /\ gai4 rs nr s = Some ip.
Proof.
  unfold BIPAddr_Resolve. fold (bracketed s). destruct (bracketed s) eqn:Eb.
  - unfold copy_str, BADDR_MAX_ADDR_LEN. destruct (Z.gtb_spec (zlen s - 2) 128) as [H|H]; [eexists; split; [done|]; by intuition|].
    assert (zlen (sub s 1 (zlen s - 2)) <= 128). { unfold sub, zlen in *. rewrite length_take. lia. }
    bool_true. cbn [mbind option_bind]. destruct (gai6 _ _ _); (eexists; split; [done|]); by intuition.
  - unfold copy_str, BADDR_MAX_ADDR_LEN. rewrite sub_0_all. destruct (Z.gtb_spec (zlen s) 128) as [H|H]; [eexists; split; [done|]; intros; intuition; try done; lia|].
    bool_true. cbn [mbind option_bind]. destruct (gai4 rs nr s) as [ip'|]; (eexists; split; [done|]); intros ip; split; try done; [intros [= ->]; done|intros (_ & _ & [= ->]); done|by intros (_ & _ & ?)].
Qed.

(** What the settings are. *)
Record settings_of (rs : resolver) (pf : text -> option (option text)) (o : options_t) (st : settings) : Prop := {
  st_ipaddr : exists s ip, str o S_netif_ipaddr = Some s /\ bracketed s = false /\ zlen s <= BADDR_MAX_ADDR_LEN /\ gai4 rs false s = Some ip /\ netif_ipaddr st = IP_V4 ip;
  st_ip6addr : match str o S_netif_ip6addr with Some s => ipv6_text s (netif_ip6addr st) | None => netif_ip6addr st = static_ip6 end;
  st_server : exists s, str o S_socks_server_addr = Some s /\ denotes rs s None false (socks_server_addr st) None;
  st_auth : match str o S_username with
    | None => socks_auth_info st = [BSocksClient_auth_none]
    | Some u => exists p, socks_auth_info st = [BSocksClient_auth_none; BSocksClient_auth_password u p] /\
        match str o S_password with Some p' => p = p' | None => exists f, str o S_password_file = Some f /\ pf f = Some (Some p) end
    end;
  st_udpgw : match str o S_udpgw_remote_server_addr with Some s => denotes rs s None false (udpgw_remote_server_addr st) None | None => udpgw_remote_server_addr st = static_addr end;
  st_dnsgw : match str o S_dnsgw with Some s => denotes rs s None false (dnsgw st) None /\ addr_type (dnsgw st) = 1 | None => dnsgw st = static_addr end;
}.

Lemma ip6_stage (v : option text) : exists res,
  match v with Some s => '(r, out) ← ipaddr6_parse_ipv6_addr s static_ip6; Some (if (r : bool) then Some out else None) | None => Some (Some static_ip6) end = Some res /\
  forall a, res = Some a <-> match v with Some s => ipv6_text s a | None => a = static_ip6 end.
Proof.
  destruct v as [s|]; [|eexists; split; [done|]; intros a; split; [by intros [= ->]|by intros ->]]. destruct (parse_ipv6_sound s static_ip6 eq_refl) as (r & a' & E & _ & Hs). rewrite E. cbn [mbind option_bind].
  eexists. split; [done|]. intros a. split; [destruct r; [intros [= <-]; by apply Hs|done]|]. intros Ha. apply (parse_ipv6_complete _ static_ip6) in Ha; [|done]. rewrite E in Ha. by injection Ha as -> ->.
Qed.
Lemma addr_stage rs (v : option text) : exists res, match v with Some s => parse_addr rs s | None => Some (Some static_addr) end = Some res /\
  forall a, res = Some a <-> match v with Some s => denotes rs s None false a None | None => a = static_addr end.
Proof. destruct v as [s|]; [apply parse_addr_denotes|]. eexists. split; [done|]. intros a. split; [by intros [= ->]|by intros ->]. Qed.
Lemma dns_stage rs (v : option text) : exists res, match v with Some s => d ← parse_addr rs s; Some (d' ← d; if addr_type d' =? 1 then Some d' else None) | None => Some (Some static_addr) end = Some res /\
  forall a, res = Some a <-> match v with Some s => denotes rs s None false a None /\ addr_type a = 1 | None => a = static_addr end.
Proof.
  destruct v as [s|]; [|eexists; split; [done|]; intros a; split; [by intros [= ->]|by intros ->]]. destruct (parse_addr_denotes rs s) as (res & -> & H). cbn [mbind option_bind]. eexists. split; [done|]. intros a. rewrite <- H.
  destruct res as [d|]; cbn; [|split; [done|by intros []]]. destruct (Z.eqb_spec (addr_type d) 1); split; try done; [by intros [= ->]|by intros [[= ->] _]|by intros [[= ->] ?]].
Qed.
Lemma auth_stage pf (u p f : option text) : (is_Some u -> p = None -> is_Some f) -> (forall t, is_Some (pf t)) -> exists res,
  match u with
  | None => Some (Some [BSocksClient_auth_none])
  | Some u => p ← match p with Some p => Some (Some p) | None => f ← f; pf f end; Some (p' ← p; Some [BSocksClient_auth_none; BSocksClient_auth_password u p'])
  end = Some res /\
  forall l, res = Some l <-> match u with
    | None => l = [BSocksClient_auth_none]
    | Some u => exists q, l = [BSocksClient_auth_none; BSocksClient_auth_password u q] /\ match p with Some p' => q = p' | None => exists t, f = Some t /\ pf t = Some (Some q) end
    end.
Proof.
  intros Hf Hpf. destruct u as [u|]; [|eexists; split; [done|]; intros l; split; [by intros [= ->]|by intros ->]]. destruct p as [p|]; cbn [mbind option_bind].
  - eexists. split; [done|]. intros l. cbn. split; [intros [= <-]; by exists p|by intros (q & -> & ->)].
  - destruct (Hf ltac:(by eexists) eq_refl) as [t ->]. cbn [mbind option_bind]. destruct (Hpf t) as [res E]. rewrite E. cbn [mbind option_bind]. eexists. split; [done|]. intros l. destruct res as [q|]; cbn.
    + split; [intros [= <-]; exists q; split; [done|]; by exists t|]. intros (q' & -> & t' & [= <-] & E'). rewrite E in E'. by injection E' as ->.
    + split; [done|]. intros (q' & _ & t' & [= <-] & E'). by rewrite E in E'.
Qed.

Lemma process_settings rs pf o : complete o -> ~ asks_only o -> (forall t, is_Some (pf t)) ->
  exists res, process_arguments None rs pf o = Some res /\ forall st, res = Some st <-> settings_of rs pf o st.
Proof.
  intros [Hc|([sip Eip] & [ssv Esv] & Hcred)] Ha Hpf; [done|]. unfold process_arguments. rewrite bool_decide_true by done. rewrite Eip, Esv. cbn [mbind option_bind].
  destruct (resolve_ipv4 rs sip false) as (r1 & -> & H1). cbn [mbind option_bind].
  destruct (ip6_stage (str o S_netif_ip6addr)) as (r2 & E2 & H2). rewrite E2. clear E2. cbn [mbind option_bind].
  destruct (parse_addr_denotes rs ssv) as (r3 & E3 & H3). rewrite E3. clear E3. cbn [mbind option_bind].
  destruct (auth_stage pf (str o S_username) (str o S_password) (str o S_password_file)) as (r4 & E4 & H4); [intros Hu Hp; destruct (Hcred Hu) as [[[? ?] _]|[_ ?]]; [congruence|done]|done|]. rewrite E4. clear E4. cbn [mbind option_bind].
  destruct (addr_stage rs (str o S_udpgw_remote_server_addr)) as (r5 & E5 & H5). rewrite E5. clear E5. cbn [mbind option_bind].
  destruct (dns_stage rs (str o S_dnsgw)) as (r6 & E6 & H6). rewrite E6. clear E6. cbn [mbind option_bind].
  assert (forall st, settings_of rs pf o st -> exists ip, r1 = Some (IP_V4 ip) /\ netif_ipaddr st = IP_V4 ip /\ r2 = Some (netif_ip6addr st) /\ r3 = Some (socks_server_addr st) /\ r4 = Some (socks_auth_info st) /\
    r5 = Some (udpgw_remote_server_addr st) /\ r6 = Some (dnsgw st)) as Hst.
  { intros st [(s & ip & E & Hb & Hl & Hg & Hip) S2 (s' & E' & S3) S4 S5 S6]. rewrite Eip in E. injection E as <-. rewrite Esv in E'. injection E' as <-. exists ip. rewrite H1, H2, H3, H4, H5, H6. done. }
  destruct r1 as [[|ip|]|]; try (eexists; split; [done|]; intros st; split; [done|]; intros (? & ? & _)%Hst; congruence).
  destruct r2 as [ip6|]; [|eexists; split; [done|]; intros st; split; [done|]; intros (? & _ & _ & ? & _)%Hst; congruence].
  destruct r3 as [sv|]; [|eexists; split; [done|]; intros st; split; [done|]; intros (? & _ & _ & _ & ? & _)%Hst; congruence].
  destruct r4 as [au|]; [|eexists; split; [done|]; intros st; split; [done|]; intros (? & _ & _ & _ & _ & ? & _)%Hst; congruence].
  destruct r5 as [ud|]; [|eexists; split; [done|]; intros st; split; [done|]; intros (? & _ & _ & _ & _ & _ & ? & _)%Hst; congruence].
  destruct r6 as [dn|]; [|eexists; split; [done|]; intros st; split; [done|]; intros (? & _ & _ & _ & _ & _ & _ & ?)%Hst; congruence].
  eexists. split; [done|]. intros st. split.
  - intros [= <-]. destruct (proj1 (H1 ip) eq_refl) as (? & ? & ?). split; cbn; [by exists sip, ip|by apply H2|exists ssv; split; [done|]; by apply H3|by apply H4|by apply H5|by apply H6].
  - intros (ip' & [= <-] & E1 & [= E2] & [= E3] & [= E4] & [= E5] & [= E6])%Hst. destruct st. cbn in *. congruence.
Qed.

(** C30: options that the command line was parsed to, other than a request for help or the version, are
    processed without using a NULL pointer or leaving a buffer, and the processing succeeds exactly when
    the settings the options denote exist, with exactly these settings: the address of the interface is an IPv4 address the
    resolver finds, the IPv6 address is one in text form, the server's, the relay's and the DNS gateway's are
    addresses with ports, the latter of IPv4, and the credentials are the user name with the password given or the
    contents of the password file. *)
Theorem start_up_settings channels argv o rs pf : parse_arguments channels argv = Some (Some o) -> int o I_help = 0 -> int o I_version = 0 -> (forall t, is_Some (pf t)) ->
  exists res, process_arguments None rs pf o = Some res /\ forall st, res = Some st <-> settings_of rs pf o st.
Proof. intros Hp%parse_complete Hh Hv Hpf. apply process_settings; [done| |done]. by intros [?|?]. Qed.

Lemma main_udp_mtu_value mtu ipv6 : 0 <= mtu <= INT_MAX -> main_udp_mtu mtu ipv6 = Z.max 0 (mtu - 28) /\ (main_udp_mtu_ok (main_udp_mtu mtu ipv6) = true <-> mtu - 28 + 22 <= 65535).
Proof.
  intros Hm. assert (main_udp_mtu mtu ipv6 = Z.max 0 (mtu - 28)) as E.
  { unfold main_udp_mtu, sizeof_ipv4_header, sizeof_ipv6_header, sizeof_udp_header. destruct ipv6; cbv zeta; [bool_false|]; case_if; lia. }
  split; [done|]. unfold main_udp_mtu_ok. rewrite E, compute_mtu_value by (unfold INT_MAX in *; lia). unfold PACKETPROTO_MAXPAYLOAD, UINT16_MAX. cbv zeta. rewrite negb_true_iff, orb_false_iff.
  unfold INT_MAX in *. destruct (Z.leb_spec (Z.max 0 (mtu - 28) + 22) 2147483647); [|lia]. replace (0 <=? Z.max 0 (mtu - 28)) with true by (symmetry; lia). cbn [andb]. lia.
Qed.

(** ** The command line of the application *)
Definition service_channels : list text := [lit "server"; lit "client"; lit "flooder"; lit "tun2socks"].
Definition service_args : list text :=
  [lit "--netif-ipaddr"; lit "172.19.0.2"; lit "--socks-server-addr"; lit "127.0.0.1:1080"; lit "--tunmtu"; lit "1500"; lit "--sock-path"; lit "sock_path";
   lit "--dnsgw"; lit "127.0.0.1:5450"; lit "--loglevel"; lit "warning"; lit "--netif-ip6addr"; lit "fdfe:dcba:9876::2"; lit "--enable-udprelay"].
Definition service_opts : list opt :=
  [OStr S_netif_ipaddr (lit "172.19.0.2"); OStr S_socks_server_addr (lit "127.0.0.1:1080"); ONum I_tun_mtu (lit "1500"); OStr S_sock_path (lit "sock_path"); OStr S_dnsgw (lit "127.0.0.1:5450");
   OLoglevel (lit "warning"); OStr S_netif_ip6addr (lit "fdfe:dcba:9876::2"); OUdpRelay].
Definition service_options : options_t := fold_left (apply service_channels) service_opts (defaults service_channels (lit "tun2socks")).

Lemma options_grammar_witness : parse_arguments service_channels (lit "tun2socks" :: service_args) = Some (Some service_options) /\ int service_options I_tun_mtu = 1500.
Proof.
  split; [|by vm_compute]. destruct (options_grammar service_channels (lit "tun2socks") service_args) as (res & E & H).
  - apply list.Forall_forall. intros t Ht. assert (forallb (fun t => match atoi t with Some _ => true | None => false end) service_args = true) as Hall by (by vm_compute).
    rewrite forallb_forall in Hall. apply list_elem_of_In, Hall in Ht. destruct (atoi t); [by eexists|done].
  - rewrite E. f_equal. apply H. exists service_opts. split; [by vm_compute|]. split; [by vm_compute|]. split; [done|]. right. by vm_compute; repeat split; try (eexists; reflexivity); intros [].
Defined.

Definition no_file (t : text) : option (option text) := Some None.
Definition service_settings : settings :=
  mk_settings (IP_V4 33559468) [253; 254; 220; 186; 152; 118; 0; 0; 0; 0; 0; 0; 0; 0; 0; 2] (ADDR_IPV4 16777343 14340) [BSocksClient_auth_none] (ADDR_IPV4 0 0) (ADDR_IPV4 16777343 18965).

Lemma start_up_settings_witness : process_arguments None numeric_resolver no_file service_options = Some (Some service_settings) /\ settings_of numeric_resolver no_file service_options service_settings.
Proof.
  assert (process_arguments None numeric_resolver no_file service_options = Some (Some service_settings)) as E by (by vm_compute).
  split; [exact E|]. destruct (start_up_settings service_channels (lit "tun2socks" :: service_args) service_options numeric_resolver no_file) as (res & E' & H).
  - by vm_compute.
  - by vm_compute.
  - by vm_compute.
  - intros t. by eexists.
  - apply H. rewrite E in E'. by injection E' as <-.
Defined.

End Options.
