(* ===== verification/Main.v ===== *)
(** * Start-up and clean-up of the process (tun2socks/tun2socks.c)

    [main] parses the command line, waits for the descriptor of the TUN device, becomes a daemon if it is
    told to, makes the objects of the program one after the other, runs the event loop, and frees
    what it made; a failure in between jumps to the label that frees what exists by then.  The
    objects are modelled by the components of the other files.  Here they are names, with what each of them uses while
    it exists: one may be made only when what it uses exists, and freed only when nothing uses it. *)

From Stdlib Require Import String.
From stdpp Require Import gmap.
From S2P Require Import Prelude BAddr AddrText Sockets Options TunDevice.
Import Options.

Module Main.

(** ** The standard streams (misc/open_standard_streams.h)

    [open]: what opening /dev/null answers, by the number of the attempt and the descriptors that are open. *)
Fixpoint open_standard_streams (open : nat -> kernel -> option Z) (fuel n : nat) (k : kernel) : option kernel :=
  match fuel with
  | O => None
  | S fuel =>
      match open n k with
      | None => Some k
      | Some fd =>
          let k := new_fd k (Some fd) in
          k ← (if fd >? 2 then sys_close k fd else Some k);
          if fd <=? 2 then open_standard_streams open fuel (S n) k else Some k
      end
  end.
(** Each round but the last opens one of three streams. *)
Definition stream_rounds : nat := 4.

(** ** Waiting for the descriptor of the device *)

(** The answers of the operating system; [w_recv]: the descriptor that [ancil_recv_fd] receives.  [select] also returns, and
    [accept] then fails, when nobody connects in time. *)
Record wait_answers := mk_wait { w_socket : option Z; w_unlink : bool; w_bind : bool; w_listen : bool; w_select : bool; w_accept : option Z; w_recv : option Z }.
(** [Indeterminate]: the variable [fd] was never assigned: what is returned is an unspecified value.  [fcntl] is called with it
    too, in any case, for the flags of [sock]. *)
Inductive wait_result := Failed | Received (fd : Z) | Indeterminate.

Definition default_sock_path : list Z := lit "/data/data/com.github.shadowsocks/sock_path".
(** The path fits in [sun_path], of 108 bytes, with its terminator, or is cut. *)
Definition sun_path (path : list Z) : list Z := take 107 path.

Definition wait_for_fd (k : kernel) (o : options_t) (a : wait_answers) : option (kernel * wait_result) :=
  match w_socket a with
  | None => Some (k, Failed)
  | Some sock =>
      let k := new_fd k (Some sock) in
      let path := match str o S_sock_path with Some p => p | None => default_sock_path end in
      let k := sys_unlink k path (w_unlink a) in
      if negb (w_bind a) then k ← sys_close k sock; Some (k, Failed) else
      let k := sys_bind_file k (sun_path path) in
      if negb (w_listen a) then k ← sys_close k sock; Some (k, Failed) else
      '(k, r) ← (if negb (w_select a) then Some (k, Indeterminate) else
        match w_accept a with
        | None => Some (k, Indeterminate)
        | Some sock2 =>
            let k := new_fd k (Some sock2) in
            match w_recv a with
            | None => k ← sys_close k sock2; Some (k, Indeterminate)
            | Some fd => let k := new_fd k (Some fd) in k ← sys_close k sock2; Some (k, Received fd)
            end
        end);
      k ← sys_close k sock;
      Some (k, r)
  end.

(** ** Becoming a daemon *)

(** [d_fork]: the result of [fork]; [d_file]: whether the file for the number can be opened. *)
Record daemon_answers := mk_daemon { d_fork : Z; d_file : bool; d_setsid : bool; d_chdir : bool }.
Definition std_fds : gset Z := {[0; 1; 2]}.
(** [inl]: the process exits with the code. *)
Definition daemonize (k : kernel) (path : list Z) (a : daemon_answers) : Z + kernel :=
  if d_fork a <? 0 then inl 1 else
  if d_fork a >? 0 then (if negb (d_file a) then inl 1 else inl 0) else
  if negb (d_setsid a) then inl 1 else
  if negb (d_chdir a) then inl 1 else
  inr (mk_kernel (open_fds k ∖ std_fds) (files k)).

(** ** The objects of the program *)
Inductive resource := Logger | Password | Reactor | Signals | Device | ReadInterface | ReadBuffer | Relay | LwipJob | WriteBuffer | TcpTimer | Netif | Listener | Listener6 | Clients.
#[export] Instance resource_eq_dec : EqDecision resource.
Proof. solve_decision. Defined.

(** What an object calls or reads until it is freed. *)
Definition uses (r : resource) : list resource :=
  match r with
  | Logger | Password | WriteBuffer => []
  | Reactor => [Logger]
  | Signals | ReadInterface | Relay | LwipJob | TcpTimer => [Reactor]
  | Device => [Reactor]
  | ReadBuffer => [Device; ReadInterface; Reactor]
  | Netif => [Device; WriteBuffer]
  | Listener | Listener6 => [Netif]
  | Clients => [Netif; Reactor]
  end.

Record st := mk_st { live : list resource; kern : kernel; looped : bool }.
Definition with_live (s : st) (l : list resource) : st := mk_st l (kern s) (looped s).
Definition make (r : resource) (s : st) : option st :=
  ASSERT bool_decide (r ∉ live s);
  ASSERT forallb (fun u => bool_decide (u ∈ live s)) (uses r);
  Some (with_live s (r :: live s)).
Definition free (r : resource) (s : st) : option st :=
  ASSERT bool_decide (r ∈ live s);
  ASSERT forallb (fun x => bool_decide (r ∉ uses x)) (live s);
  Some (with_live s (without r (live s))).
Definition free_if (b : bool) (r : resource) (s : st) : option st := if b then free r s else Some s.
Definition make_if (b : bool) (r : resource) (s : st) : option st := if b then make r s else Some s.
(** A message needs the logger. *)
Definition log (s : st) : option st := ASSERT bool_decide (Logger ∈ live s); Some s.

(** ** [main] *)
Inductive ending := Return (code : Z) | Exit (code : Z).

(** The answers of the operating system and of the objects' initialisations; [a_garbage]: the unspecified value of [fd] when
    [wait_for_fd] never assigns it. *)
Record answers := mk_answers {
  a_open : nat -> kernel -> option Z; a_syslog : bool; a_wait : wait_answers; a_garbage : Z; a_daemon : daemon_answers; a_network : bool; a_resolver : resolver; a_file : text -> option (option text); a_password : bool;
  a_reactor : bool; a_signal : bool; a_tap : bool; a_buffer : bool; a_relay : bool; a_alloc : bool; a_loop : TunDevice.globals; a_clients : bool;
}.

(** The labels of [main], each with what follows it.  [u]: whether the UDP relay was asked for. *)
Definition fail0 (s : st) : option (st * ending) := Some (s, Return 1).
Definition fail1 (p : bool) (s : st) : option (st * ending) :=
  s ← free_if p Password s;
  s ← log s;
  s ← free Logger s;
  fail0 s.
Definition fail2 (p : bool) (s : st) : option (st * ending) := s ← free Reactor s; fail1 p s.
Definition fail3 (p : bool) (s : st) : option (st * ending) := s ← free Signals s; fail2 p s.
Definition fail4 (p : bool) (s : st) : option (st * ending) := s ← free ReadInterface s; s ← free Device s; fail3 p s.
Definition fail4a (p : bool) (s : st) : option (st * ending) := s ← free ReadBuffer s; fail4 p s.
Definition fail5 (p u : bool) (s : st) : option (st * ending) :=
  s ← free LwipJob s;
  s ← free_if u Relay s;
  fail4a p s.

(** From the event loop on.  [g]: what lwIP has when the loop ends; [c]: whether there are clients. *)
Definition event_loop (g : TunDevice.globals) (c : bool) (s : st) : option st :=
  let s := mk_st (live s) (kern s) true in
  s ← make_if (TunDevice.have_netif g) Netif s;
  s ← make_if (TunDevice.listener g) Listener s;
  s ← make_if (TunDevice.listener_ip6 g) Listener6 s;
  make_if c Clients s.
Definition main_loop (g : TunDevice.globals) (c p u : bool) (s : st) : option (st * ending) :=
  s ← log s;
  s ← event_loop g c s;
  s ← free_if c Clients s;
  s ← free_if (TunDevice.listener_ip6 g) Listener6 s;
  s ← free_if (TunDevice.listener g) Listener s;
  s ← free_if (TunDevice.have_netif g) Netif s;
  s ← log s;
  s ← free TcpTimer s;
  s ← free WriteBuffer s;
  fail5 p u s.

(** From the device on, with the assertions of [BTap_Init2] on its descriptor and MTU. *)
Definition main_device (o : options_t) (a : answers) (fd : Z) (p : bool) (s : st) : option (st * ending) :=
  ASSERT 0 <=? fd;
  ASSERT 0 <=? int o I_tun_mtu;
  if negb (a_tap a) then s ← log s; fail3 p s else
  s ← make Device s;
  s ← make ReadInterface s;
  if negb (a_buffer a) then s ← log s; fail4 p s else
  s ← make ReadBuffer s;
  let u := is_set o S_udpgw_remote_server_addr in
  if u && negb (main_udp_mtu_ok (main_udp_mtu (int o I_tun_mtu) (is_set o S_netif_ip6addr))) then s ← log s; fail4a p s else
  if u && negb (a_relay a) then s ← log s; fail4a p s else
  s ← make_if u Relay s;
  s ← make LwipJob s;
  if negb (a_alloc a) then s ← log s; fail5 p u s else
  s ← make WriteBuffer s;
  s ← make TcpTimer s;
  main_loop (a_loop a) (a_clients a) p u s.

(** From the received descriptor on: [password_file_contents] is NULL until [process_arguments] reads the file. *)
Definition main_objects (o : options_t) (a : answers) (fd : Z) (s : st) : option (st * ending) :=
  if negb (a_network a) then s ← log s; fail1 false s else
  r ← process_arguments None (a_resolver a) (a_file a) o;
  let p := a_password a in
  s ← make_if p Password s;
  match r with
  | None => s ← log s; fail1 p s
  | Some _ =>
      if negb (a_reactor a) then s ← log s; fail1 p s else
      s ← make Reactor s;
      if negb (a_signal a) then s ← log s; fail2 p s else
      s ← make Signals s;
      main_device o a fd p s
  end.

(** [strcpy] of the other name over [argv0], which has room for a text of its length. *)
Definition fake_name : text := lit "com.github.shadowsocks".
Definition fake_proc (argv0 : text) : option text :=
  ASSERT zlen fake_name <=? zlen argv0;
  Some fake_name.

Definition main (channels : list text) (argv : list text) (a : answers) (k : kernel) : option (st * ending) :=
  let s := mk_st [] k false in
  if zlen argv <=? 0 then Some (s, Return 1) else
  k ← open_standard_streams (a_open a) stream_rounds 0 k;
  let s := mk_st [] k false in
  r ← parse_arguments channels argv;
  match r with
  | None => fail0 s
  | Some o =>
      _ ← (if negb (int o I_fake_proc =? 0) then argv0 ← arg_at argv 0; fake_proc argv0 else Some []);
      if negb (int o I_help =? 0) then Some (s, Return 0) else
      if negb (int o I_version =? 0) then Some (s, Return 0) else
      ASSERT (int o I_logger =? LOGGER_STDOUT) || (int o I_logger =? LOGGER_SYSLOG);
      if (int o I_logger =? LOGGER_SYSLOG) && negb (a_syslog a) then fail0 s else
      s ← make Logger s;
      s ← log s;
      '(k, w) ← wait_for_fd (kern s) o (a_wait a);
      let s := mk_st (live s) k false in
      let fd := match w with Failed => -1 | Received fd => fd | Indeterminate => a_garbage a end in
      if fd =? -1 then fail1 false s else
      match str o S_pid with
      | None => main_objects o a fd s
      | Some path =>
          match daemonize (kern s) path (a_daemon a) with
          | inl code => Some (s, Exit code)
          | inr k => main_objects o a fd (mk_st (live s) k false)
          end
      end
  end.

(** ** The environment *)


















(** ** A run: the service's command line, the descriptor 7, and a relay that cannot be initialised *)
Definition run_globals : TunDevice.globals := TunDevice.mk_globals true false true true true 2 0.
(** The lowest of the first four numbers that is free. *)
Definition run_open (n : nat) (k : kernel) : option Z := List.find (fun fd => bool_decide (fd ∉ open_fds k)) [0; 1; 2; 3].
Definition run_answers (recv : option Z) (garbage : Z) (relay : bool) : answers :=
  mk_answers run_open true (mk_wait (Some 5) true true true true (Some 6) recv) garbage (mk_daemon 0 true true true) true numeric_resolver no_file false true true true true relay true run_globals true.
Definition run_kernel : kernel := mk_kernel {[2]} ∅.
Definition run_name : text := lit "/data/data/com.github.shadowsocks/tun2socks".
Definition run_args : list text := lit "--fake-proc" :: service_args.



(** Both assumptions are needed.  When the service sends no descriptor, [fd] is used without a value: the event loop is entered with
    whatever number the variable holds, here 0, though nothing was received, or the assertion of [BTap_Init2] fails.  And a short name has no
    room for the other one. *)
Example unassigned_descriptor :
  (looped <$> (fst <$> main service_channels (run_name :: run_args) (run_answers None 0 true) run_kernel)) = Some true /\
  main service_channels (run_name :: run_args) (run_answers None (-2) true) run_kernel = None.
Proof. by vm_compute. Qed.
Example short_name : main service_channels (lit "tun2socks" :: run_args) (run_answers (Some 7) 0 true) run_kernel = None.
Proof. by vm_compute. Qed.
End Main.
