(* ===== verification/BLog.v ===== *)
(** * Logging (base/BLog.h), and its configuration by tun2socks

    A message is put together in a buffer of 2048 bytes and handed to the log function when it is
    finished.  What [vsnprintf] makes of a format and its arguments is given as the text; the functions that
    format through a callback are given the texts the callback appends.  The lock is the flag
    [logging]: it is taken by [BLog_Begin] and given back by [BLog_Finish]. *)

From Stdlib Require Import String.
From stdpp Require Import list.
From S2P Require Import Prelude ParseNumber IpAddr AddrText Options.
Import Text Options.

Module BLog.

Definition LOGBUF_SIZE : Z := 2048.

(** [levels]: the log levels of the channels. *)
Record t := mk { initialized : bool; levels : list Z; logging : bool; logbuf : list Z; logbuf_pos : Z }.

Definition with_buf (g : t) (b : list Z) (pos : Z) : t := mk (initialized g) (levels g) (logging g) b pos.
Definition with_logging (g : t) (l : bool) : t := mk (initialized g) (levels g) l (logbuf g) (logbuf_pos g).

(** [list_levels]: the levels of the generated list of channels. *)
Definition BLog_Init (g : t) (list_levels : list Z) : option t :=
  ASSERT negb (initialized g);
  ASSERT 0 <? zlen (logbuf g);
  Some (mk true list_levels false (splice (logbuf g) 0 [0]) 0).

Definition BLog_Free (g : t) : option t :=
  ASSERT initialized g;
  ASSERT negb (logging g);
  Some (mk false (levels g) (logging g) (logbuf g) (logbuf_pos g)).

Definition channel_ok (g : t) (channel : Z) : bool := (channel >=? 0) && (channel <? zlen (levels g)).

Definition BLog_SetChannelLoglevel (g : t) (channel loglevel : Z) : option t :=
  ASSERT initialized g;
  ASSERT channel_ok g channel;
  ASSERT (loglevel >=? 0) && (loglevel <=? BLOG_DEBUG);
  Some (mk (initialized g) (<[Z.to_nat channel := loglevel]> (levels g)) (logging g) (logbuf g) (logbuf_pos g)).

Definition BLog_WouldLog (g : t) (channel level : Z) : option bool :=
  ASSERT initialized g;
  ASSERT channel_ok g channel;
  ASSERT (level >=? BLOG_ERROR) && (level <=? BLOG_DEBUG);
  l ← levels g !! Z.to_nat channel;
  Some (level <=? l).

Definition BLog_Begin (g : t) : option t :=
  ASSERT initialized g;
  ASSERT negb (logging g);
  Some (with_logging g true).

(** [vsnprintf(buf + pos, size, ...)] writes at most [size - 1] characters of the text, and a
    terminator; its result is the length of the whole text. *)
Definition vsnprintf (buf : list Z) (pos size : Z) (text : list Z) : option (list Z * Z) :=
  ASSERT (0 <=? pos) && (0 <? size) && (pos + size <=? zlen buf);
  Some (splice buf pos (take (Z.to_nat (size - 1)) text ++ [0]), zlen text).

Definition BLog_AppendVarArg (g : t) (text : list Z) : option t :=
  ASSERT initialized g;
  ASSERT logging g;
  ASSERT logbuf_pos g >=? 0;
  ASSERT logbuf_pos g <? LOGBUF_SIZE;
  '(b, w) ← vsnprintf (logbuf g) (logbuf_pos g) (LOGBUF_SIZE - logbuf_pos g) text;
  if w >=? LOGBUF_SIZE - logbuf_pos g then Some (with_buf g b (LOGBUF_SIZE - 1)) else Some (with_buf g b (logbuf_pos g + w)).
Definition BLog_Append (g : t) (text : list Z) : option t :=
  ASSERT initialized g;
  ASSERT logging g;
  BLog_AppendVarArg g text.

Definition BLog_AppendBytes (g : t) (data : list Z) : option t :=
  ASSERT initialized g;
  ASSERT logging g;
  ASSERT logbuf_pos g >=? 0;
  ASSERT logbuf_pos g <? LOGBUF_SIZE;
  let avail := LOGBUF_SIZE - 1 - logbuf_pos g in
  let len := if zlen data >? avail then avail else zlen data in
  let pos := logbuf_pos g + len in
  ASSERT pos <? zlen (logbuf g);
  Some (with_buf g (splice (splice (logbuf g) (logbuf_pos g) (sub data 0 len)) pos [0]) pos).

(** The message the log function is called with. *)
Definition BLog_Finish (g : t) (channel level : Z) : option (t * list Z) :=
  ASSERT initialized g;
  ASSERT logging g;
  ASSERT channel_ok g channel;
  ASSERT (level >=? BLOG_ERROR) && (level <=? BLOG_DEBUG);
  w ← BLog_WouldLog g channel level;
  ASSERT w;
  ASSERT logbuf_pos g >=? 0;
  ASSERT logbuf_pos g <? LOGBUF_SIZE;
  c ← logbuf g !! Z.to_nat (logbuf_pos g);
  ASSERT c =? 0;
  msg ← cstr (logbuf g);
  Some (with_logging (with_buf g (splice (logbuf g) 0 [0]) 0) false, msg).

(** Texts and bytes a message is put together from. *)
Inductive piece := PText (text : list Z) | PBytes (data : list Z).
Definition append (g : t) (p : piece) : option t := match p with PText x => BLog_Append g x | PBytes d => BLog_AppendBytes g d end.
Fixpoint append_all (g : t) (ps : list piece) : option t := match ps with [] => Some g | p :: ps => g ← append g p; append_all g ps end.

Definition BLog_LogToChannelVarArg (g : t) (channel level : Z) (text : list Z) : option (t * option (list Z)) :=
  ASSERT initialized g;
  ASSERT channel_ok g channel;
  ASSERT (level >=? BLOG_ERROR) && (level <=? BLOG_DEBUG);
  w ← BLog_WouldLog g channel level;
  if negb w then Some (g, None) else
  g ← BLog_Begin g;
  g ← BLog_AppendVarArg g text;
  '(g, msg) ← BLog_Finish g channel level;
  Some (g, Some msg).

Definition BLog_LogViaFuncVarArg (g : t) (func : list piece) (channel level : Z) (text : list Z) : option (t * option (list Z)) :=
  ASSERT initialized g;
  ASSERT channel_ok g channel;
  ASSERT (level >=? BLOG_ERROR) && (level <=? BLOG_DEBUG);
  w ← BLog_WouldLog g channel level;
  if negb w then Some (g, None) else
  g ← BLog_Begin g;
  g ← append_all g func;
  g ← BLog_AppendVarArg g text;
  '(g, msg) ← BLog_Finish g channel level;
  Some (g, Some msg).

(** The loop of [main] over the channels. *)
Fixpoint configure_loop (n : nat) (i : Z) (g : t) (o : options_t) : option t :=
  match n with
  | O => Some g
  | S n =>
      l ← loglevels o !! Z.to_nat i;
      g ← (if l >=? 0 then BLog_SetChannelLoglevel g i l else if int o I_loglevel >=? 0 then BLog_SetChannelLoglevel g i (int o I_loglevel) else Some g);
      configure_loop n (i + 1) g o
  end.
Definition configure (channels : list (list Z)) (g : t) (o : options_t) : option t := configure_loop (length channels) 0 g o.

(** ** The buffer *)

(** The buffer holds [m], and a terminator behind it. *)
Record filled (g : t) (m : list Z) : Prop := {
  f_size : zlen (logbuf g) = LOGBUF_SIZE; f_pos : logbuf_pos g = zlen m; f_fits : zlen m < LOGBUF_SIZE; f_text : exists r, logbuf g = m ++ 0 :: r }.

(** Idle: between messages. *)
Definition idle (g : t) : Prop := initialized g = true /\ logging g = false /\ filled g [].
Definition same_config (g g' : t) : Prop := initialized g' = initialized g /\ levels g' = levels g /\ logging g' = logging g.

Definition clip (m : list Z) : list Z := take (Z.to_nat (LOGBUF_SIZE - 1)) m.

Lemma clip_app m x : clip (clip m ++ x) = clip (m ++ x).
Proof.
  unfold clip. set (n := Z.to_nat _). destruct (decide (length m <= n)%nat) as [H|H]; [by rewrite (take_ge m)|].
  rewrite (take_app_le m) by lia. rewrite take_app_le by (rewrite length_take; lia). by rewrite take_take, Nat.min_id.
Qed.
Lemma zlen_clip m : zlen (clip m) < LOGBUF_SIZE.
Proof. unfold clip, zlen, LOGBUF_SIZE. rewrite length_take. lia. Qed.
Lemma clip_short m : zlen m < LOGBUF_SIZE -> clip m = m.
Proof. intros H. unfold clip. apply take_ge. unfold zlen, LOGBUF_SIZE in *. lia. Qed.

(** Writing a text and a terminator behind what the buffer holds. *)
Lemma filled_write g m x : filled g m -> zlen m + zlen x < LOGBUF_SIZE -> filled (with_buf g (splice (logbuf g) (zlen m) (x ++ [0])) (zlen m + zlen x)) (m ++ x).
Proof.
  intros [F1 F2 F3 [r F4]] Hx. pose proof (zlen_nonneg m). pose proof (zlen_nonneg x). split; cbn; [|by rewrite zlen_app|rewrite zlen_app; lia|].
  - rewrite zlen_splice; [done|lia|]. rewrite zlen_app. change (zlen [0]) with 1. lia.
  - rewrite F4. unfold splice. replace (Z.to_nat (zlen m)) with (length m) by (unfold zlen; lia). rewrite take_app_length. eexists. rewrite <- !app_assoc. done.
Qed.

Lemma append_text_ok g m x : initialized g = true -> logging g = true -> filled g m ->
  exists g', BLog_AppendVarArg g x = Some g' /\ filled g' (clip (m ++ x)) /\ same_config g g'.
Proof.
  intros Hi Hl F. pose proof F as [F1 F2 F3 _]. pose proof (zlen_nonneg m). pose proof (zlen_nonneg x). unfold BLog_AppendVarArg, vsnprintf. rewrite Hi, Hl, F2, F1. unfold LOGBUF_SIZE in *. do 3 bool_true. cbn [mbind option_bind].
  set (y := take (Z.to_nat (2048 - zlen m - 1)) x). destruct (Z.geb_spec (zlen x) (2048 - zlen m)) as [Hx|Hx].
  - assert (zlen y = 2047 - zlen m) as Hy by (unfold y, zlen in *; rewrite length_take; lia). assert (clip (m ++ x) = m ++ y) as ->.
    { unfold clip, y, LOGBUF_SIZE. rewrite take_app, take_ge by (unfold zlen in *; lia). do 2 f_equal. unfold zlen in *. lia. }
    pose proof (filled_write g m y F ltac:(unfold LOGBUF_SIZE; lia)) as Fw. replace (zlen m + zlen y) with (2048 - 1) in Fw by lia. eexists. split; [done|]. by split.
  - assert (y = x) as Ey by (unfold y; apply take_ge; unfold zlen in *; lia). rewrite Ey, clip_short by (rewrite zlen_app; unfold LOGBUF_SIZE; lia).
    eexists. split; [done|]. split; [apply filled_write; [done|unfold LOGBUF_SIZE; lia]|done].
Qed.

Lemma append_bytes_ok g m x : initialized g = true -> logging g = true -> filled g m ->
  exists g', BLog_AppendBytes g x = Some g' /\ filled g' (clip (m ++ x)) /\ same_config g g'.
Proof.
  intros Hi Hl F. pose proof F as [F1 F2 F3 _]. pose proof (zlen_nonneg m). pose proof (zlen_nonneg x). unfold BLog_AppendBytes. rewrite Hi, Hl, F2. unfold LOGBUF_SIZE in *. do 2 bool_true. cbv zeta.
  set (len := if zlen x >? 2048 - 1 - zlen m then 2048 - 1 - zlen m else zlen x). set (y := sub x 0 len).
  assert (0 <= len <= zlen x /\ zlen m + len < 2048) as [Hlen Hfit] by (unfold len; destruct (Z.gtb_spec (zlen x) (2048 - 1 - zlen m)); lia).
  assert (zlen y = len) as Hy by (unfold y; rewrite zlen_sub; lia). rewrite F1. bool_true.
  assert (clip (m ++ x) = m ++ y) as ->.
  { unfold len in *. destruct (Z.gtb_spec (zlen x) (2048 - 1 - zlen m)).
    - unfold clip, y, LOGBUF_SIZE, sub. rewrite take_app, take_ge by (unfold zlen in *; lia). cbn [Z.to_nat drop]. do 2 f_equal. unfold zlen in *. lia.
    - unfold y. rewrite sub_0_all. apply clip_short. rewrite zlen_app. unfold LOGBUF_SIZE. lia. }
  eexists. split; [done|]. split; [|done]. pose proof (filled_write g m y F ltac:(unfold LOGBUF_SIZE; lia)) as Fw. rewrite Hy in Fw.
  replace (splice (splice (logbuf g) (zlen m) y) (zlen m + len) [0]) with (splice (logbuf g) (zlen m) (y ++ [0])); [done|]. rewrite <- Hy. symmetry. apply splice_after; [lia|]. change (zlen [0]) with 1. lia.
Qed.

Definition piece_text (p : piece) : list Z := match p with PText x => x | PBytes d => d end.

Lemma append_all_ok ps : forall g m, initialized g = true -> logging g = true -> filled g (clip m) ->
  exists g', append_all g ps = Some g' /\ filled g' (clip (m ++ concat (map piece_text ps))) /\ same_config g g'.
Proof.
  induction ps as [|p ps IH]; intros g m Hi Hl F; cbn [append_all map concat]; [exists g; by rewrite app_nil_r|].
  assert (exists g1, append g p = Some g1 /\ filled g1 (clip (m ++ piece_text p)) /\ same_config g g1) as (g1 & -> & F1 & C1 & C2 & C3).
  { rewrite <- clip_app. destruct p as [x|d]; cbn [append piece_text]; [unfold BLog_Append; rewrite Hi, Hl; by apply append_text_ok|by apply append_bytes_ok]. }
  cbn [mbind option_bind]. destruct (IH g1 (m ++ piece_text p)) as (g2 & -> & F2 & D1 & D2 & D3); [congruence|congruence|done|]. exists g2. split; [done|]. rewrite app_assoc. split; [done|].
  unfold same_config. intuition congruence.
Qed.

Fixpoint upto_nul (m : list Z) : list Z := match m with [] => [] | c :: m => if c =? 0 then [] else c :: upto_nul m end.
Lemma cstr_upto m r : cstr (m ++ 0 :: r) = Some (upto_nul m).
Proof. induction m as [|c m IH]; cbn; [done|]. case_if; [done|]. by rewrite IH. Qed.

Lemma would_log_ok g channel level : initialized g = true -> channel_ok g channel = true -> BLOG_ERROR <= level <= BLOG_DEBUG ->
  exists l, levels g !! Z.to_nat channel = Some l /\ BLog_WouldLog g channel level = Some (level <=? l).
Proof.
  intros Hi Hc Hl. pose proof Hc as Hc'. unfold channel_ok in Hc'. apply andb_true_iff in Hc' as [H1 H2]. destruct (lookup_lt_is_Some_2 (levels g) (Z.to_nat channel)) as [l El]; [unfold zlen in *; lia|].
  exists l. split; [done|]. unfold BLog_WouldLog. rewrite Hi, Hc, El. bool_true. done.
Qed.

Lemma log_finish_ok g m channel level l : initialized g = true -> logging g = true -> filled g m -> channel_ok g channel = true -> BLOG_ERROR <= level <= BLOG_DEBUG ->
  levels g !! Z.to_nat channel = Some l -> level <= l -> exists g', BLog_Finish g channel level = Some (g', upto_nul m) /\ idle g' /\ levels g' = levels g.
Proof.
  intros Hi Hg F Hc Hl El Hlv. pose proof F as [F1 F2 F3 [r F4]]. destruct (would_log_ok g channel level Hi Hc Hl) as (l' & El' & Ew). replace l' with l in * by congruence. pose proof (zlen_nonneg m).
  unfold BLog_Finish. rewrite Hi, Hg, Hc, Ew. bool_true. cbn [mbind option_bind]. rewrite (proj2 (Z.leb_le _ _) Hlv), F2. unfold LOGBUF_SIZE in *. bool_true. bool_true.
  assert (logbuf g !! Z.to_nat (zlen m) = Some 0) as -> by (rewrite F4; apply lookup_zlen). cbn [mbind option_bind Z.eqb]. assert (cstr (logbuf g) = Some (upto_nul m)) as -> by (rewrite F4; apply cstr_upto). cbn [mbind option_bind]. eexists. split; [done|]. split; [|done]. split; [done|]. split; [done|].
  split; cbn; [rewrite zlen_splice; [done|lia|change (zlen [0]) with 1; lia]|done|done|]. rewrite F4. by eexists.
Qed.

(** a message is logged whole: in every initialised state between messages, for a channel and a level
    that exist, logging through a callback violates no assertion and writes nothing outside the buffer,
    whatever texts and bytes the callback appends; the log function is called exactly when the level is not above
    the channel's, with the first 2047 characters of the texts appended, up to the first NUL; and logging is
    idle again with the channels as they were. *)
Theorem log_message g func channel level text : idle g -> channel_ok g channel = true -> BLOG_ERROR <= level <= BLOG_DEBUG ->
  exists l g', levels g !! Z.to_nat channel = Some l /\ idle g' /\ levels g' = levels g /\
  BLog_LogViaFuncVarArg g func channel level text =
    Some (g', if level <=? l then Some (upto_nul (clip (concat (map piece_text func) ++ text))) else None).
Proof.
  intros (Hi & Hg & F) Hc Hl. destruct (would_log_ok g channel level Hi Hc Hl) as (l & El & Ew). exists l. unfold BLog_LogViaFuncVarArg. rewrite Hi, Hc, Ew. bool_true. cbn [mbind option_bind].
  destruct (Z.leb_spec level l) as [Hlv|Hlv]; cbn [negb]; [|by exists g]. unfold BLog_Begin. rewrite Hi, Hg. cbn [negb mbind option_bind].
  destruct (append_all_ok func (with_logging g true) []) as (g1 & -> & F1 & C1 & C2 & C3); [done|done|by destruct F; split|]. cbn [mbind option_bind app] in *.
  destruct (append_text_ok g1 _ text ltac:(by rewrite C1) ltac:(by rewrite C3) F1) as (g2 & -> & F2 & D1 & D2 & D3). cbn [mbind option_bind]. rewrite clip_app in F2.
  assert (levels g2 = levels g) as Elv by (rewrite D2, C2; done).
  destruct (log_finish_ok g2 _ channel level l ltac:(by rewrite D1, C1) ltac:(by rewrite D3, C3) F2) as (g3 & -> & I3 & L3); [by unfold channel_ok in *; rewrite Elv|done|by rewrite Elv|done|].
  exists g3. split; [done|]. split; [done|]. split; [by rewrite L3|done].
Qed.

(** ** Configuration *)
Definition level_ok (l : Z) : Prop := -1 <= l <= BLOG_DEBUG.
Lemma parse_loglevel_range s : level_ok (parse_loglevel s).
Proof.
  unfold parse_loglevel, level_ok, BLOG_ERROR, BLOG_WARNING, BLOG_NOTICE, BLOG_INFO, BLOG_DEBUG. do 6 (case_bool_decide; [lia|]). destruct (strtol s) as [v e].
  destruct (negb _ && bool_decide (e = []) && (v >=? 0) && (v <=? 5)) eqn:E; [|lia]. apply andb_true_iff in E as [[_ Hv1]%andb_true_iff Hv2]. lia.
Qed.

Definition levels_wf (channels : list (list Z)) (o : options_t) : Prop := length (loglevels o) = length channels /\ Forall level_ok (loglevels o) /\ level_ok (int o I_loglevel).
Lemma apply_levels channels o op : opt_ok channels op = true -> levels_wf channels o -> levels_wf channels (apply channels o op).
Proof.
  intros Hok (H1 & H2 & H3). destruct op as [| |l t|m t|t|c t| |m t| |]; try done; cbn [apply]; try (split; [done|]; split; [done|]; cbn; case_bool_decide; done).
  - split; [done|]. split; [done|]. cbn. apply parse_loglevel_range.
  - split; [cbn; by rewrite length_insert|]. split; [|done]. cbn. apply Forall_insert; [done|]. apply parse_loglevel_range.
  - split; [done|]. split; [done|]. destruct m; done.
Qed.
Lemma fold_levels channels os : forall o, forallb (opt_ok channels) os = true -> levels_wf channels o -> levels_wf channels (fold_left (apply channels) os o).
Proof.
  induction os as [|op os IH]; intros o Hos Hw; cbn [fold_left forallb] in *; [done|]. apply andb_true_iff in Hos as [Hop Hos]. apply IH; [done|]. by apply apply_levels.
Qed.
Lemma defaults_levels channels argv0 : levels_wf channels (defaults channels argv0).
Proof. split; [apply length_replicate|]. split; [by apply Forall_replicate|done]. Qed.

(** The level of a channel after the configuration. *)
Definition configured (o : options_t) (i : nat) (l : Z) : Z :=
  match loglevels o !! i with Some c => if c >=? 0 then c else if int o I_loglevel >=? 0 then int o I_loglevel else l | None => l end.

Lemma set_level_ok g i l : initialized g = true -> 0 <= i < zlen (levels g) -> 0 <= l <= BLOG_DEBUG ->
  BLog_SetChannelLoglevel g i l = Some (mk true (<[Z.to_nat i := l]> (levels g)) (logging g) (logbuf g) (logbuf_pos g)).
Proof. intros Hi Hc Hl. unfold BLog_SetChannelLoglevel, channel_ok. rewrite Hi. do 2 bool_true. done. Qed.

Lemma configure_loop_ok channels o n : levels_wf channels o -> forall i g, 0 <= i -> i + Z.of_nat n = zlen channels -> initialized g = true -> length (levels g) = length channels ->
  exists lv, configure_loop n i g o = Some (mk true lv (logging g) (logbuf g) (logbuf_pos g)) /\ length lv = length channels /\
    forall k l, levels g !! k = Some l -> lv !! k = Some (if Z.of_nat k <? i then l else configured o k l).
Proof.
  intros (Hl1 & Hl2 & Hl3). induction n as [|n IH]; intros i g Hi Hn Hg Hlen; cbn [configure_loop].
  { exists (levels g). split; [destruct g; cbn in Hg; by rewrite Hg|]. split; [done|]. intros k l Hk. apply lookup_lt_Some in Hk as Hk'. replace (Z.of_nat k <? i) with true by (symmetry; unfold zlen in *; lia). done. }
  destruct (lookup_lt_is_Some_2 (loglevels o) (Z.to_nat i)) as [c Ec]; [unfold zlen in *; lia|]. rewrite Ec. cbn [mbind option_bind]. pose proof (Forall_lookup_1 _ _ _ _ Hl2 Ec) as Hc. unfold level_ok in *.
  assert (exists lv, (if c >=? 0 then BLog_SetChannelLoglevel g i c else if int o I_loglevel >=? 0 then BLog_SetChannelLoglevel g i (int o I_loglevel) else Some g) = Some (mk true lv (logging g) (logbuf g) (logbuf_pos g)) /\
    length lv = length channels /\ forall k l, levels g !! k = Some l -> lv !! k = Some (if decide (k = Z.to_nat i) then configured o k l else l)) as (lv & -> & Hlv & Hk).
  { assert (forall x, 0 <= x <= BLOG_DEBUG -> (forall l, configured o (Z.to_nat i) l = x) -> exists lv, BLog_SetChannelLoglevel g i x = Some (mk true lv (logging g) (logbuf g) (logbuf_pos g)) /\
      length lv = length channels /\ forall k l, levels g !! k = Some l -> lv !! k = Some (if decide (k = Z.to_nat i) then configured o k l else l)) as Hset.
    { intros x Hx Hcf. rewrite set_level_ok by (done || (unfold zlen in *; lia)). eexists. split; [done|]. split; [by rewrite length_insert|]. intros k l Hk. case_decide as E.
      - subst k. rewrite list_lookup_insert_eq by (apply lookup_lt_Some in Hk; done). by rewrite Hcf.
      - by rewrite list_lookup_insert_ne. }
    unfold configured in *. destruct (Z.geb_spec c 0); [apply Hset; [lia|]; intros l; rewrite Ec; cbn match; by bool_true|]. destruct (Z.geb_spec (int o I_loglevel) 0).
    - apply Hset; [lia|]. intros l. rewrite Ec. cbn match. bool_false. done.
    - exists (levels g). split; [destruct g; cbn in Hg; by rewrite Hg|]. split; [done|]. intros k l Hk. case_decide; [|done]. subst k. rewrite Ec. cbn match. bool_false. done. }
  cbn [mbind option_bind]. destruct (IH (i + 1) (mk true lv (logging g) (logbuf g) (logbuf_pos g))) as (lv' & -> & Hlen' & Hk'); [lia|lia|done|done|]. cbn [logging logbuf logbuf_pos levels] in *.
  exists lv'. split; [done|]. split; [done|]. intros k l Hkl. rewrite (Hk' k _ (Hk k l Hkl)). f_equal. case_decide.
  - subst k. rewrite (proj2 (Z.ltb_lt _ _)) by lia. by rewrite (proj2 (Z.ltb_ge _ _)) by lia.
  - destruct (Z.ltb_spec (Z.of_nat k) (i + 1)), (Z.ltb_spec (Z.of_nat k) i); done || lia.
Qed.

(** the log levels of the command line take effect: after parsing, the loop over the channels never
    violates the range the logger requires, and every channel has the level given for it, else the
    general one if it was given, else the one it had. *)
Theorem log_levels_configured channels argv0 os o g : forallb (opt_ok channels) os = true -> o = fold_left (apply channels) os (defaults channels argv0) ->
  initialized g = true -> length (levels g) = length channels ->
  exists lv, configure channels g o = Some (mk true lv (logging g) (logbuf g) (logbuf_pos g)) /\ length lv = length channels /\ forall k l, levels g !! k = Some l -> lv !! k = Some (configured o k l).
Proof.
  intros Hos -> Hi Hlen. set (o := fold_left _ _ _). assert (levels_wf channels o) as Hw by (apply fold_levels; [done|apply defaults_levels]).
  destruct (configure_loop_ok channels o (length channels) Hw 0 g ltac:(lia) ltac:(unfold zlen; lia) Hi Hlen) as (lv & E & Hl & Hk). exists lv. split; [exact E|]. split; [done|].
  intros k l Hkl. rewrite (Hk k l Hkl). by rewrite (proj2 (Z.ltb_ge _ _)) by lia.
Qed.

(** ** Instances *)
Definition log_start : t := mk true [4; 4; 4; 4] false (replicate 2048 0) 0.
Definition log_options : list opt := [OLoglevel (lit "warning"); OChannel (lit "tun2socks") (lit "5")].

Lemma log_levels_configured_witness : exists lv, configure service_channels log_start (fold_left (apply service_channels) log_options (defaults service_channels (lit "x"))) = Some (mk true lv false (replicate 2048 0) 0) /\
  lv !! 0%nat = Some 2 /\ lv !! 3%nat = Some 5.
Proof.
  destruct (log_levels_configured service_channels (lit "x") log_options _ log_start ltac:(by vm_compute) eq_refl eq_refl eq_refl) as (lv & E & _ & Hk). exists lv. split; [exact E|].
  split; [rewrite (Hk 0%nat 4 eq_refl)|rewrite (Hk 3%nat 4 eq_refl)]; by vm_compute.
Defined.

Lemma log_message_witness : exists g', BLog_LogViaFuncVarArg log_start [PText (lit "00001 "); PBytes (lit "(x): ")] 3 BLOG_ERROR (lit "closed") = Some (g', Some (lit "00001 (x): closed")).
Proof.
  destruct (log_message log_start [PText (lit "00001 "); PBytes (lit "(x): ")] 3 BLOG_ERROR (lit "closed")) as (l & g' & El & _ & _ & E).
  - split; [done|]. split; [done|]. split; [by vm_compute|by vm_compute|by vm_compute|]. exists (replicate 2047 0). by vm_compute.
  - by vm_compute.
  - by vm_compute.
  - exists g'. vm_compute in El. injection El as <-. rewrite E. by vm_compute.
Defined.

End BLog.
