(* ===== verification/TcpClient.v ===== *)
(** * TCP clients of tun2socks (tun2socks/tun2socks.c)

    Each TCP connection that lwIP accepts becomes a client that relays bytes between the lwIP
    connection (the pcb) and a SOCKS connection: data from lwIP is kept in a buffer of the size of
    the receive window until SOCKS took it, data from SOCKS in a buffer of its own until lwIP
    queued it.  Either side can end first; the client stays until what the other side can still
    take was delivered, and is then freed.

    lwIP and the SOCKS client are the environment: lwIP calls the callbacks that are set on a pcb it
    has not been told to close, delivers no more than the receive window, acknowledges only what
    was written, and answers [tcp_close], [tcp_sndbuf], [tcp_write] and [tcp_output] as the
    events say; SOCKS completes the operations started on its interfaces and reports its events.  A
    callback that runs the pending jobs ([SYNC_COMMIT]) is given the SOCKS events that happen
    meanwhile.

    A function that may free the client returns [Gone]; its caller can then not use the client any
    more, and a use of a pcb that is closed is [None].  The variables of the dead mechanism
    (misc/dead.h) live on the stack of the callbacks. *)

From stdpp Require Import gmap.
From S2P Require Import Prelude BAlign ByteOrder BAddr FlowView LinkedList1.

Module TcpClient.

Abbreviation ptr := positive.

(** ** Data *)

Definition CLIENT_SOCKS_RECV_BUF_SIZE : Z := 8192.

(** The results of lwIP functions the code distinguishes. *)
Inductive err_t := ERR_OK | ERR_MEM | ERR_ABRT | ERR_OTHER.
#[export] Instance err_t_eq_dec : EqDecision err_t.
Proof. solve_decision. Defined.

(** A pcb: whether it may still be used, how it ended, and the callbacks that are set. *)
Inductive pcb_status := PAlive | PClosed | PAborted | PErrored.
#[export] Instance pcb_status_eq_dec : EqDecision pcb_status.
Proof. solve_decision. Defined.
Record tcp_pcb := mk_pcb { status : pcb_status; cb_err : bool; cb_recv : bool; cb_sent : bool }.

(** [dead_t]: null, or a variable on the stack, by its position from the bottom. *)
Inductive dead_t := DNull | DVar (n : nat).
#[export] Instance dead_t_eq_dec : EqDecision dead_t.
Proof. solve_decision. Defined.

(** What passed through a client, for the specification: bytes from lwIP, bytes SOCKS took, the
    count confirmed with [tcp_recved], bytes from SOCKS, bytes written with [tcp_write], the count
    acknowledged by the peer; whether the peer closed, and whether SOCKS reported its end. *)
Record ghost := mk_ghost {
  rx : list Z; taken : list Z; recved : Z;
  got : list Z; written : list Z; acked : Z;
  peer_closed : bool; socks_ended : bool;
}.

(** [struct tcp_client]; the list node is in [tcp_clients]. *)
Record tcp_client := mk {
  aborted : bool;
  dead_aborted : dead_t;
  local_addr : BAddr;
  remote_addr : BAddr;
  pcb : tcp_pcb;
  client_closed : bool;
  buf : list Z;
  buf_used : Z;
  socks_username : option (list Z);
  socks_up : bool;
  socks_closed : bool;
  socks_send_if : spass_view;
  socks_recv_if : srecv_view;
  socks_recv_buf : list Z;
  socks_recv_buf_used : Z;
  socks_recv_buf_sent : Z;
  socks_recv_waiting : bool;
  socks_recv_tcp_pending : Z;
  gh : ghost;
}.

(** The globals, and the variables of the dead mechanism on the stack. *)
Record globals := mk_globals { tcp_clients : LinkedList1.t; num_clients : Z; dead_vars : list Z }.

(** The state a handler of the client [me] works on. *)
Record st := mk_st { me : ptr; glob : globals; cl : tcp_client }.

(** A handler leaves the client allocated or frees it; the memory is then only a record. *)
Inductive result := Alive (s : st) | Gone (s : st).

(** *** Stores to single fields *)
Definition on (f : tcp_client -> tcp_client) (s : st) : st := mk_st (me s) (glob s) (f (cl s)).

Definition set_aborted (v : bool) (c : tcp_client) : tcp_client :=
  mk v (dead_aborted c) (local_addr c) (remote_addr c) (pcb c) (client_closed c) (buf c) (buf_used c) (socks_username c) (socks_up c) (socks_closed c)
    (socks_send_if c) (socks_recv_if c) (socks_recv_buf c) (socks_recv_buf_used c) (socks_recv_buf_sent c) (socks_recv_waiting c) (socks_recv_tcp_pending c) (gh c).
Definition set_dead (v : dead_t) (c : tcp_client) : tcp_client :=
  mk (aborted c) v (local_addr c) (remote_addr c) (pcb c) (client_closed c) (buf c) (buf_used c) (socks_username c) (socks_up c) (socks_closed c)
    (socks_send_if c) (socks_recv_if c) (socks_recv_buf c) (socks_recv_buf_used c) (socks_recv_buf_sent c) (socks_recv_waiting c) (socks_recv_tcp_pending c) (gh c).
Definition set_pcb (v : tcp_pcb) (c : tcp_client) : tcp_client :=
  mk (aborted c) (dead_aborted c) (local_addr c) (remote_addr c) v (client_closed c) (buf c) (buf_used c) (socks_username c) (socks_up c) (socks_closed c)
    (socks_send_if c) (socks_recv_if c) (socks_recv_buf c) (socks_recv_buf_used c) (socks_recv_buf_sent c) (socks_recv_waiting c) (socks_recv_tcp_pending c) (gh c).
Definition set_client_closed (v : bool) (c : tcp_client) : tcp_client :=
  mk (aborted c) (dead_aborted c) (local_addr c) (remote_addr c) (pcb c) v (buf c) (buf_used c) (socks_username c) (socks_up c) (socks_closed c)
    (socks_send_if c) (socks_recv_if c) (socks_recv_buf c) (socks_recv_buf_used c) (socks_recv_buf_sent c) (socks_recv_waiting c) (socks_recv_tcp_pending c) (gh c).
Definition set_buf (b : list Z) (n : Z) (c : tcp_client) : tcp_client :=
  mk (aborted c) (dead_aborted c) (local_addr c) (remote_addr c) (pcb c) (client_closed c) b n (socks_username c) (socks_up c) (socks_closed c)
    (socks_send_if c) (socks_recv_if c) (socks_recv_buf c) (socks_recv_buf_used c) (socks_recv_buf_sent c) (socks_recv_waiting c) (socks_recv_tcp_pending c) (gh c).
Definition set_socks (up closed : bool) (c : tcp_client) : tcp_client :=
  mk (aborted c) (dead_aborted c) (local_addr c) (remote_addr c) (pcb c) (client_closed c) (buf c) (buf_used c) (socks_username c) up closed
    (socks_send_if c) (socks_recv_if c) (socks_recv_buf c) (socks_recv_buf_used c) (socks_recv_buf_sent c) (socks_recv_waiting c) (socks_recv_tcp_pending c) (gh c).
Definition set_send_if (v : spass_view) (c : tcp_client) : tcp_client :=
  mk (aborted c) (dead_aborted c) (local_addr c) (remote_addr c) (pcb c) (client_closed c) (buf c) (buf_used c) (socks_username c) (socks_up c) (socks_closed c)
    v (socks_recv_if c) (socks_recv_buf c) (socks_recv_buf_used c) (socks_recv_buf_sent c) (socks_recv_waiting c) (socks_recv_tcp_pending c) (gh c).
Definition set_recv_if (v : srecv_view) (c : tcp_client) : tcp_client :=
  mk (aborted c) (dead_aborted c) (local_addr c) (remote_addr c) (pcb c) (client_closed c) (buf c) (buf_used c) (socks_username c) (socks_up c) (socks_closed c)
    (socks_send_if c) v (socks_recv_buf c) (socks_recv_buf_used c) (socks_recv_buf_sent c) (socks_recv_waiting c) (socks_recv_tcp_pending c) (gh c).
Definition set_recv_buf (b : list Z) (c : tcp_client) : tcp_client :=
  mk (aborted c) (dead_aborted c) (local_addr c) (remote_addr c) (pcb c) (client_closed c) (buf c) (buf_used c) (socks_username c) (socks_up c) (socks_closed c)
    (socks_send_if c) (socks_recv_if c) b (socks_recv_buf_used c) (socks_recv_buf_sent c) (socks_recv_waiting c) (socks_recv_tcp_pending c) (gh c).
Definition set_recv (used sent : Z) (waiting : bool) (pending : Z) (c : tcp_client) : tcp_client :=
  mk (aborted c) (dead_aborted c) (local_addr c) (remote_addr c) (pcb c) (client_closed c) (buf c) (buf_used c) (socks_username c) (socks_up c) (socks_closed c)
    (socks_send_if c) (socks_recv_if c) (socks_recv_buf c) used sent waiting pending (gh c).
Definition set_gh (v : ghost) (c : tcp_client) : tcp_client :=
  mk (aborted c) (dead_aborted c) (local_addr c) (remote_addr c) (pcb c) (client_closed c) (buf c) (buf_used c) (socks_username c) (socks_up c) (socks_closed c)
    (socks_send_if c) (socks_recv_if c) (socks_recv_buf c) (socks_recv_buf_used c) (socks_recv_buf_sent c) (socks_recv_waiting c) (socks_recv_tcp_pending c) v.

Definition gh_rx (d : list Z) (h : ghost) : ghost := mk_ghost (rx h ++ d) (taken h) (recved h) (got h) (written h) (acked h) (peer_closed h) (socks_ended h).
Definition gh_taken (d : list Z) (h : ghost) : ghost := mk_ghost (rx h) (taken h ++ d) (recved h) (got h) (written h) (acked h) (peer_closed h) (socks_ended h).
Definition gh_recved (n : Z) (h : ghost) : ghost := mk_ghost (rx h) (taken h) (recved h + n) (got h) (written h) (acked h) (peer_closed h) (socks_ended h).
Definition gh_got (d : list Z) (h : ghost) : ghost := mk_ghost (rx h) (taken h) (recved h) (got h ++ d) (written h) (acked h) (peer_closed h) (socks_ended h).
Definition gh_written (d : list Z) (h : ghost) : ghost := mk_ghost (rx h) (taken h) (recved h) (got h) (written h ++ d) (acked h) (peer_closed h) (socks_ended h).
Definition gh_acked (n : Z) (h : ghost) : ghost := mk_ghost (rx h) (taken h) (recved h) (got h) (written h) (acked h + n) (peer_closed h) (socks_ended h).
Definition gh_peer_closed (h : ghost) : ghost := mk_ghost (rx h) (taken h) (recved h) (got h) (written h) (acked h) true (socks_ended h).
Definition gh_socks_ended (h : ghost) : ghost := mk_ghost (rx h) (taken h) (recved h) (got h) (written h) (acked h) (peer_closed h) true.
Definition note (f : ghost -> ghost) (s : st) : st := on (fun c => set_gh (f (gh c)) c) s.

(** ** The dead mechanism (misc/dead.h) *)
(** The variable a pointer refers to; [None]: its frame was left. *)
Definition set_var (vars : list Z) (n : nat) (v : Z) : option (list Z) :=
  ASSERT bool_decide (n < length vars)%nat; Some (<[n := v]> vars).

Definition DEAD_KILL_WITH (s : st) (v : Z) : option st :=
  match dead_aborted (cl s) with
  | DNull => Some s
  | DVar n => vars ← set_var (dead_vars (glob s)) n v; Some (mk_st (me s) (mk_globals (tcp_clients (glob s)) (num_clients (glob s)) vars) (cl s))
  end.

(** The state with a new variable, and the pointer that was saved. *)
Definition DEAD_ENTER (s : st) : st * dead_t :=
  let g := glob s in
  (mk_st (me s) (mk_globals (tcp_clients g) (num_clients g) (dead_vars g ++ [0])) (set_dead (DVar (length (dead_vars g))) (cl s)), dead_aborted (cl s)).

(** The end of the frame: the result, and the value [DEAD_KILLED] had. *)
Definition DEAD_LEAVE2 (r : result) (prev : dead_t) : option (result * Z) :=
  let s := match r with Alive s | Gone s => s end in
  dead ← list.last (dead_vars (glob s));
  r ← (if dead =? 0 then match r with Alive s => Some (Alive (on (set_dead prev) s)) | Gone _ => None end else Some r);
  let s := match r with Alive s | Gone s => s end in
  let vars := take (length (dead_vars (glob s)) - 1) (dead_vars (glob s)) in
  vars ← match prev with DVar n => set_var vars n dead | DNull => Some vars end;
  let s := mk_st (me s) (mk_globals (tcp_clients (glob s)) (num_clients (glob s)) vars) (cl s) in
  Some (match r with Alive _ => Alive s | Gone _ => Gone s end, dead).

(** ** lwIP *)
Definition with_callbacks (f : tcp_pcb -> tcp_pcb) (s : st) : option st :=
  ASSERT bool_decide (status (pcb (cl s)) = PAlive); Some (on (fun c => set_pcb (f (pcb c)) c) s).
Definition tcp_err (s : st) (v : bool) : option st := with_callbacks (fun p => mk_pcb (status p) v (cb_recv p) (cb_sent p)) s.
Definition tcp_recv (s : st) (v : bool) : option st := with_callbacks (fun p => mk_pcb (status p) (cb_err p) v (cb_sent p)) s.
Definition tcp_sent (s : st) (v : bool) : option st := with_callbacks (fun p => mk_pcb (status p) (cb_err p) (cb_recv p) v) s.
Definition set_status (v : pcb_status) (p : tcp_pcb) : tcp_pcb := mk_pcb v (cb_err p) (cb_recv p) (cb_sent p).
Definition tcp_abort (s : st) : option st := with_callbacks (set_status PAborted) s.
(** [ok]: the answer of lwIP. *)
Definition tcp_close (s : st) (ok : bool) : option (st * bool) :=
  s ← with_callbacks (fun p => if ok then set_status PClosed p else p) s; Some (s, ok).
Definition tcp_recved (s : st) (len : Z) : option st := s ← with_callbacks (fun p => p) s; Some (note (gh_recved len) s).
Definition tcp_write (s : st) (data : list Z) (answer : err_t) : option (st * err_t) :=
  s ← with_callbacks (fun p => p) s; Some (if bool_decide (answer = ERR_OK) then note (gh_written data) s else s, answer).
Definition tcp_output (s : st) (ok : bool) : option (st * bool) := s ← with_callbacks (fun p => p) s; Some (s, ok).

(** The answers of lwIP during one handler: to [tcp_close], to each [tcp_sndbuf] and [tcp_write] of
    the loop that queues data, and to [tcp_output]. *)
Record answers := mk_answers { close_ok : bool; writes : list (N * err_t); output_ok : bool }.

(** ** Freeing *)
Definition client_abort_pcb (s : st) : option st :=
  ASSERT negb (aborted (cl s));
  s ← tcp_abort s;
  let s := on (set_aborted true) s in
  DEAD_KILL_WITH s 1.

Definition client_dealloc (s : st) : option result :=
  ASSERT client_closed (cl s);
  ASSERT socks_closed (cl s);
  ASSERT num_clients (glob s) >? 0;
  l ← LinkedList1.LinkedList1_Remove (tcp_clients (glob s)) (me s);
  let s := mk_st (me s) (mk_globals l (num_clients (glob s) - 1) (dead_vars (glob s))) (cl s) in
  s ← (if negb (aborted (cl s)) then DEAD_KILL_WITH s (-1) else Some s);
  Some (Gone s).

(** [tcp_err(pcb, NULL); tcp_recv(pcb, NULL); tcp_sent(pcb, NULL);] *)
Definition remove_callbacks (s : st) : option st :=
  s ← tcp_err s false; s ← tcp_recv s false; tcp_sent s false.

(** The functions that free one side call each other: [client_handle_freed_client],
    [client_free_socks], [client_free_client], and again [client_handle_freed_client].  Each body has
    the function it calls as an argument; the cycle is closed below. *)
Definition handle_freed_client_body (client_free_socks : st -> answers -> option result) (s : st) (a : answers) : option result :=
  ASSERT negb (client_closed (cl s));
  let s := on (set_client_closed true) s in
  if (buf_used (cl s) >? 0) && negb (socks_closed (cl s)) then Some (Alive s)
  else if negb (socks_closed (cl s)) then client_free_socks s a else client_dealloc s.

Definition free_client_body (client_handle_freed_client : st -> answers -> option result) (s : st) (a : answers) : option result :=
  ASSERT negb (client_closed (cl s));
  s ← remove_callbacks s;
  '(s, ok) ← tcp_close s (close_ok a);
  s ← (if negb ok then client_abort_pcb s else Some s);
  client_handle_freed_client s a.

Definition free_socks_body (client_free_client : st -> answers -> option result) (s : st) (a : answers) : option result :=
  ASSERT negb (socks_closed (cl s));
  s ← (if socks_up (cl s) && negb (client_closed (cl s)) then tcp_recv s false else Some s);
  let s := on (fun c => set_socks (socks_up c) true c) s in
  let c := cl s in
  if socks_up c && ((socks_recv_buf_used c >=? 0) || (socks_recv_tcp_pending c >? 0)) && negb (client_closed c) then Some (Alive s)
  else if negb (client_closed c) then client_free_client s a else client_dealloc s.

(** The cycle, [n] times around. *)
Fixpoint free_socks_at (n : nat) (s : st) (a : answers) : option result :=
  match n with
  | O => None
  | S n => free_socks_body (free_client_body (handle_freed_client_body (free_socks_at n))) s a
  end.

Definition FREE_DEPTH : nat := 2.

Definition client_free_socks : st -> answers -> option result := free_socks_at FREE_DEPTH.
Definition client_handle_freed_client : st -> answers -> option result := handle_freed_client_body client_free_socks.
Definition client_free_client : st -> answers -> option result := free_client_body client_handle_freed_client.

Definition client_abort_client (s : st) (a : answers) : option result :=
  ASSERT negb (client_closed (cl s));
  s ← remove_callbacks s;
  s ← client_abort_pcb s;
  client_handle_freed_client s a.

Definition client_murder (s : st) : option result :=
  s ← (if negb (client_closed (cl s)) then
         s ← remove_callbacks s;
         s ← client_abort_pcb s;
         Some (on (set_client_closed true) s)
       else Some s);
  let s := if negb (socks_closed (cl s)) then on (fun c => set_socks (socks_up c) true c) s else s in
  client_dealloc s.

Definition client_err_func (s : st) (a : answers) : option result :=
  ASSERT negb (client_closed (cl s));
  client_handle_freed_client s a.

(** ** From lwIP to SOCKS *)
Definition client_send_to_socks (s : st) : option st :=
  let c := cl s in
  ASSERT negb (socks_closed c);
  ASSERT socks_up c;
  ASSERT buf_used c >? 0;
  i ← StreamPassInterface_Sender_Send (socks_send_if c) 0 (buf_used c);
  Some (on (set_send_if i) s).

Definition client_socks_send_handler_done (s : st) (data_len : Z) (a : answers) : option result :=
  let c := cl s in
  ASSERT negb (socks_closed c);
  ASSERT socks_up c;
  ASSERT buf_used c >? 0;
  ASSERT data_len >? 0;
  ASSERT data_len <=? buf_used c;
  let s := on (set_buf (splice (buf c) 0 (sub (buf c) data_len (buf_used c - data_len))) (buf_used c - data_len)) s in
  s ← (if negb (client_closed (cl s)) then tcp_recved s data_len else Some s);
  if buf_used (cl s) >? 0 then
    i ← StreamPassInterface_Sender_Send (socks_send_if (cl s)) 0 (buf_used (cl s));
    Some (Alive (on (set_send_if i) s))
  else if client_closed (cl s) then client_free_socks s a
  else Some (Alive s).

(** ** From SOCKS to lwIP *)
Definition client_socks_recv_initiate (s : st) : option st :=
  let c := cl s in
  ASSERT negb (client_closed c);
  ASSERT negb (socks_closed c);
  ASSERT socks_up c;
  ASSERT socks_recv_buf_used c =? -1;
  i ← StreamRecvInterface_Receiver_Recv (socks_recv_if c) 0 CLIENT_SOCKS_RECV_BUF_SIZE;
  Some (on (set_recv_if i) s).

(** The loop that queues data; [inr]: [tcp_write] failed and the client is to be aborted. *)
Fixpoint write_loop (n : nat) (s : st) (ws : list (N * err_t)) : option (st + st) :=
  match n with
  | O => None
  | S n =>
      let c := cl s in
      let '(sndbuf, answer, ws) := match ws with (b, r) :: ws => (Z.of_N b, r, ws) | [] => (0, ERR_OK, []) end in
      let to_write := bmin_int (socks_recv_buf_used c - socks_recv_buf_sent c) sndbuf in
      if to_write =? 0 then Some (inl s) else
      ASSERT socks_recv_buf_sent c + to_write <=? zlen (socks_recv_buf c);
      '(s, err) ← tcp_write s (sub (socks_recv_buf c) (socks_recv_buf_sent c) to_write) answer;
      match err with
      | ERR_OK =>
          let s := on (fun c => set_recv (socks_recv_buf_used c) (socks_recv_buf_sent c + to_write) (socks_recv_waiting c) (socks_recv_tcp_pending c + to_write) c) s in
          if socks_recv_buf_sent (cl s) <? socks_recv_buf_used (cl s) then write_loop n s ws else Some (inl s)
      | ERR_MEM => Some (inl s)
      | _ => Some (inr s)
      end
  end.

(** The result and the value returned: 0, or -1 when the client was aborted. *)
Definition client_socks_recv_send_out (s : st) (a : answers) : option (result * Z) :=
  let c := cl s in
  ASSERT negb (client_closed c);
  ASSERT socks_up c;
  ASSERT socks_recv_buf_used c >? 0;
  ASSERT socks_recv_buf_sent c <? socks_recv_buf_used c;
  ASSERT negb (socks_recv_waiting c);
  r ← write_loop (S (Z.to_nat (socks_recv_buf_used c - socks_recv_buf_sent c))) s (writes a);
  match r with
  | inr s => r ← client_abort_client s a; Some (r, -1)
  | inl s =>
      '(s, ok) ← tcp_output s (output_ok a);
      if negb ok then r ← client_abort_client s a; Some (r, -1) else
      let c := cl s in
      if socks_recv_buf_sent c <? socks_recv_buf_used c then
        if socks_recv_tcp_pending c =? 0 then r ← client_abort_client s a; Some (r, -1)
        else Some (Alive (on (fun c => set_recv (socks_recv_buf_used c) (socks_recv_buf_sent c) true (socks_recv_tcp_pending c) c) s), 0)
      else Some (Alive (on (fun c => set_recv (-1) (socks_recv_buf_sent c) (socks_recv_waiting c) (socks_recv_tcp_pending c) c) s), 0)
  end.

Definition client_socks_recv_handler_done (s : st) (data_len : Z) (a : answers) : option result :=
  let c := cl s in
  ASSERT data_len >? 0;
  ASSERT data_len <=? zlen (socks_recv_buf c);
  ASSERT negb (socks_closed c);
  ASSERT socks_up c;
  ASSERT socks_recv_buf_used c =? -1;
  if client_closed c then Some (Alive s) else
  let s := on (fun c => set_recv data_len 0 false (socks_recv_tcp_pending c) c) s in
  '(r, ret) ← client_socks_recv_send_out s a;
  if ret <? 0 then Some r else
  match r with
  | Gone _ => None
  | Alive s => if socks_recv_buf_used (cl s) =? -1 then s ← client_socks_recv_initiate s; Some (Alive s) else Some (Alive s)
  end.

(** ** Events of the SOCKS client *)
Inductive socks_event := BSOCKSCLIENT_EVENT_ERROR | BSOCKSCLIENT_EVENT_UP | BSOCKSCLIENT_EVENT_ERROR_CLOSED.

Definition client_socks_handler (s : st) (event : socks_event) (a : answers) : option result :=
  ASSERT negb (socks_closed (cl s));
  match event with
  | BSOCKSCLIENT_EVENT_ERROR => client_free_socks s a
  | BSOCKSCLIENT_EVENT_UP =>
      ASSERT negb (socks_up (cl s));
      let s := on (fun c => set_recv (-1) (socks_recv_buf_sent c) (socks_recv_waiting c) 0 (set_recv_if SRIdle (set_send_if SPIdle c))) s in
      s ← (if negb (client_closed (cl s)) then tcp_sent s true else Some s);
      let s := on (fun c => set_socks true (socks_closed c) c) s in
      s ← (if buf_used (cl s) >? 0 then client_send_to_socks s else Some s);
      s ← (if negb (client_closed (cl s)) then client_socks_recv_initiate s else Some s);
      Some (Alive s)
  | BSOCKSCLIENT_EVENT_ERROR_CLOSED => ASSERT socks_up (cl s); client_free_socks s a
  end.

(** What the SOCKS side does: it reports an event, took [n] bytes, or received [data]. *)
Inductive sevent := SHandler (e : socks_event) (a : answers) | SSendDone (n : Z) (a : answers) | SRecvDone (data : list Z) (a : answers).

Definition sevent_enabled (s : st) (e : sevent) : bool :=
  let c := cl s in
  negb (socks_closed c) &&
  match e with
  | SHandler BSOCKSCLIENT_EVENT_ERROR _ => true
  | SHandler BSOCKSCLIENT_EVENT_UP _ => negb (socks_up c)
  | SHandler BSOCKSCLIENT_EVENT_ERROR_CLOSED _ => socks_up c
  | SSendDone n _ => socks_up c && match socks_send_if c with SPBusy _ len => (0 <? n) && (n <=? len) | SPIdle => false end
  | SRecvDone data _ => socks_up c && match socks_recv_if c with SRBusy _ avail => (0 <? zlen data) && (zlen data <=? avail) | SRIdle => false end
  end.

(** The handler of an event.  The bytes taken are read from the client's buffer, those received are
    written into it; both accesses are inside the buffers. *)
Definition sevent_exec (s : st) (e : sevent) : option result :=
  let c := cl s in
  match e with
  | SHandler e a => client_socks_handler (match e with BSOCKSCLIENT_EVENT_UP => s | _ => note gh_socks_ended s end) e a
  | SSendDone n a =>
      match socks_send_if c with
      | SPBusy p _ => ASSERT (0 <=? p) && (p + n <=? zlen (buf c));
          client_socks_send_handler_done (note (gh_taken (sub (buf c) p n)) (on (set_send_if SPIdle) s)) n a
      | SPIdle => None
      end
  | SRecvDone data a =>
      match socks_recv_if c with
      | SRBusy p _ => ASSERT (0 <=? p) && (p + zlen data <=? zlen (socks_recv_buf c));
          client_socks_recv_handler_done (note (gh_got data) (on (fun c => set_recv_buf (splice (socks_recv_buf c) p data) (set_recv_if SRIdle c)) s)) (zlen data) a
      | SRIdle => None
      end
  end.

(** [SYNC_COMMIT]: the SOCKS events that happen while the pending jobs run; none comes for a client
    that was freed. *)
Fixpoint SYNC_COMMIT (s : st) (es : list sevent) : option result :=
  match es with
  | [] => Some (Alive s)
  | e :: es =>
      if sevent_enabled s e then
        r ← sevent_exec s e;
        match r with Alive s => SYNC_COMMIT s es | Gone s => Some (Gone s) end
      else SYNC_COMMIT s es
  end.

(** ** Callbacks of lwIP *)
Definition killed_err (dead : Z) : err_t := if dead >? 0 then ERR_ABRT else ERR_OK.

(** [TCP_WND]: the size of the buffer.  [p]: the bytes of the pbuf chain, [None] when the peer
    closed the connection. *)
Definition client_recv_func (TCP_WND : Z) (s : st) (p : option (list Z)) (nested : list sevent) (a : answers) : option (result * err_t) :=
  ASSERT negb (client_closed (cl s));
  let '(s, prev) := DEAD_ENTER s in
  match p with
  | None =>
      r ← client_free_client s a;
      '(r, dead) ← DEAD_LEAVE2 r prev;
      Some (r, killed_err dead)
  | Some d =>
      ASSERT zlen d >? 0;
      if zlen d >? TCP_WND - buf_used (cl s) then
        '(r, _) ← DEAD_LEAVE2 (Alive s) prev; Some (r, ERR_MEM)
      else
        ASSERT buf_used (cl s) + zlen d <=? zlen (buf (cl s));
        let s := note (gh_rx d) (on (fun c => set_buf (splice (buf c) (buf_used c) d) (buf_used c + zlen d) c) s) in
        r ← (if (buf_used (cl s) =? zlen d) && socks_up (cl s) then
               ASSERT negb (socks_closed (cl s));
               s ← client_send_to_socks s;
               SYNC_COMMIT s nested
             else Some (Alive s));
        '(r, dead) ← DEAD_LEAVE2 r prev;
        Some (r, killed_err dead)
  end.

Definition client_sent_func (s : st) (len : Z) (nested : list sevent) (a : answers) : option (result * err_t) :=
  let c := cl s in
  ASSERT negb (client_closed c);
  ASSERT socks_up c;
  ASSERT len >? 0;
  ASSERT len <=? socks_recv_tcp_pending c;
  let '(s, prev) := DEAD_ENTER s in
  let s := note (gh_acked len) (on (fun c => set_recv (socks_recv_buf_used c) (socks_recv_buf_sent c) (socks_recv_waiting c) (socks_recv_tcp_pending c - len) c) s) in
  r ← (if socks_recv_buf_used (cl s) >? 0 then
         ASSERT socks_recv_waiting (cl s);
         ASSERT socks_recv_buf_sent (cl s) <? socks_recv_buf_used (cl s);
         let s := on (fun c => set_recv (socks_recv_buf_used c) (socks_recv_buf_sent c) false (socks_recv_tcp_pending c) c) s in
         '(r, ret) ← client_socks_recv_send_out s a;
         if ret <? 0 then Some r else
         match r with
         | Gone _ => None
         | Alive s =>
             ASSERT socks_recv_tcp_pending (cl s) >? 0;
             if (socks_recv_buf_used (cl s) =? -1) && negb (socks_closed (cl s)) then
               s ← client_socks_recv_initiate s;
               SYNC_COMMIT s nested
             else Some (Alive s)
         end
       else if socks_closed (cl s) && (socks_recv_tcp_pending (cl s) =? 0) then client_free_client s a
       else Some (Alive s));
  '(r, dead) ← DEAD_LEAVE2 r prev;
  Some (r, killed_err dead).

(** ** Accepting *)
Inductive ip_addr_t := IPADDR_V4 (addr : Z) | IPADDR_V6 (addr : list Z).

Definition baddr_from_lwip (ip_addr : ip_addr_t) (port_hostorder : Z) : BAddr :=
  match ip_addr with
  | IPADDR_V6 a => BAddr_MakeIPv6 a (hton16 port_hostorder)
  | IPADDR_V4 a => BAddr_MakeIPv4 a (hton16 port_hostorder)
  end.

(** [tcp_err(pcb, client_err_func); tcp_recv(pcb, client_recv_func);], on a new pcb. *)
Definition new_pcb : tcp_pcb := mk_pcb PAlive true true false.
Definition no_traffic : ghost := mk_ghost [] [] 0 [] [] 0 false false.

(** [mem]: the answer of [malloc], an address and the contents of the memory.  [append]: the
    options ask for the source address in the user name; [username]: the answer of
    [concat_strings], which [BSocksClient_Init] is then given.  [init_ok]: its answer. *)
Definition listener_accept_func (g : globals) (local remote : ip_addr_t * Z) (mem : option (ptr * tcp_client)) (append : bool)
    (username : option (list Z)) (init_ok : bool) (nested : list sevent) : option ((globals + result) * err_t) :=
  match mem with
  | None => Some (inl g, ERR_MEM)
  | Some (i, c) =>
      if append && bool_decide (username = None) then Some (inl g, ERR_MEM)
      else if negb init_ok then Some (inl g, ERR_MEM)
      else
        let c := mk false DNull (baddr_from_lwip local.1 local.2) (baddr_from_lwip remote.1 remote.2) (pcb c) (client_closed c) (buf c) (buf_used c)
          (if append then username else None) (socks_up c) (socks_closed c) (socks_send_if c) (socks_recv_if c) (socks_recv_buf c) (socks_recv_buf_used c)
          (socks_recv_buf_sent c) (socks_recv_waiting c) (socks_recv_tcp_pending c) no_traffic in
        let l := tcp_clients g in
        l ← LinkedList1.LinkedList1_Append (LinkedList1.with_node l i (LinkedList1.mk_node None None)) i;
        ASSERT num_clients g >=? 0;
        let g := mk_globals l (num_clients g + 1) (dead_vars g) in
        let c := set_client_closed false (set_pcb new_pcb c) in
        let c := set_socks false false (set_buf (buf c) 0 c) in
        let '(s, prev) := DEAD_ENTER (mk_st i g c) in
        r ← SYNC_COMMIT s nested;
        '(r, dead) ← DEAD_LEAVE2 r prev;
        Some (inr r, killed_err dead)
  end.

(** ** The program: all clients *)

(** [graves]: the clients that were freed, as they were then. *)
Record sys := mk_sys { sg : globals; clients : gmap ptr tcp_client; graves : list tcp_client }.

Definition load (w : sys) (i : ptr) : option st := c ← clients w !! i; Some (mk_st i (sg w) c).
Definition store (w : sys) (r : result) : sys :=
  match r with
  | Alive s => mk_sys (glob s) (<[me s := cl s]> (clients w)) (graves w)
  | Gone s => mk_sys (glob s) (delete (me s) (clients w)) (cl s :: graves w)
  end.

Inductive event :=
| EAccept (local remote : ip_addr_t * Z) (mem : option (ptr * tcp_client)) (append : bool) (username : option (list Z)) (init_ok : bool) (nested : list sevent)
| ESocks (i : ptr) (e : sevent)
| ERecv (i : ptr) (p : option (list Z)) (nested : list sevent) (a : answers)
| ESent (i : ptr) (len : Z) (nested : list sevent) (a : answers)
| EErr (i : ptr) (a : answers).

Section System.
Context (TCP_WND : Z).

Definition callback_ok (w : sys) (i : ptr) (f : tcp_client -> bool) : bool :=
  match clients w !! i with Some c => bool_decide (status (pcb c) = PAlive) && f c | None => false end.

(** lwIP calls the callbacks that are set on an open pcb, with no more data than the window
    allows and acknowledgements of data that was written; [malloc] gives memory of the size of a
    client that is not in use. *)
Definition enabled (w : sys) (e : event) : bool :=
  match e with
  | EAccept _ _ mem _ _ _ _ =>
      match mem with
      | Some (i, c) => bool_decide (clients w !! i = None) && (zlen (buf c) =? TCP_WND) && (zlen (socks_recv_buf c) =? CLIENT_SOCKS_RECV_BUF_SIZE)
      | None => true
      end
  | ESocks i e => match load w i with Some s => sevent_enabled s e | None => false end
  | ERecv i p _ _ => callback_ok w i (fun c => cb_recv (pcb c) &&
      match p with Some d => (0 <? zlen d) && (zlen (rx (gh c)) - recved (gh c) + zlen d <=? TCP_WND) | None => true end)
  | ESent i len _ _ => callback_ok w i (fun c => cb_sent (pcb c) && (0 <? len) && (len <=? zlen (written (gh c)) - acked (gh c)))
  | EErr i _ => callback_ok w i (fun c => cb_err (pcb c))
  end.

(** The new state, and what a callback returned to lwIP. *)
Definition exec (w : sys) (e : event) : option (sys * option err_t) :=
  match e with
  | EAccept local remote mem append username init_ok nested =>
      '(r, err) ← listener_accept_func (sg w) local remote mem append username init_ok nested;
      Some (match r with inl g => mk_sys g (clients w) (graves w) | inr r => store w r end, Some err)
  | ESocks i e => s ← load w i; r ← sevent_exec s e; Some (store w r, None)
  | ERecv i p nested a =>
      s ← load w i;
      '(r, err) ← client_recv_func TCP_WND (match p with None => note gh_peer_closed s | Some _ => s end) p nested a;
      Some (store w r, Some err)
  | ESent i len nested a => s ← load w i; '(r, err) ← client_sent_func s len nested a; Some (store w r, Some err)
  | EErr i a => s ← load w i; r ← client_err_func (on (fun c => set_pcb (set_status PErrored (pcb c)) c) s) a; Some (store w r, None)
  end.

Inductive reach (w0 : sys) : sys -> Prop :=
| reach_init : reach w0 w0
| reach_step w e w' r : reach w0 w -> enabled w e = true -> exec w e = Some (w', r) -> reach w0 w'.

End System.

(** Start-up: [LinkedList1_Init(&tcp_clients); num_clients = 0;] *)
Definition start : sys := mk_sys (mk_globals (LinkedList1.LinkedList1_Init (LinkedList1.mk ∅ None None)) 0 []) ∅ [].

(** The loop of [main] that frees the clients. *)
Fixpoint free_clients (n : nat) (w : sys) : option sys :=
  match LinkedList1.LinkedList1_GetFirst (tcp_clients (sg w)) with
  | None => Some w
  | Some i =>
      match n with
      | O => None
      | S n => s ← load w i; r ← client_murder s; free_clients n (store w r)
      end
  end.

End TcpClient.
