(* ===== verification/TcpClientInv.v ===== *)
(** * TCP clients: invariant and correctness

    The invariant of a client, that every handler preserves it or frees the client in a state that
    satisfies [final], and the theorems about the whole program of [TcpClient]. *)

From stdpp Require Import gmap.
From S2P Require Import Prelude BAlign BAddr FlowView LinkedList1 TcpClient.
Import TcpClient.

Module TcpClientInv.

Section Window.
Context (W : Z).

(** ** Invariant *)

(** Buffers and interfaces: what SOCKS did not take is in the buffer; a send is outstanding on the
    start of the buffer exactly while SOCKS is up and the buffer is not empty. *)
Record cdata (c : tcp_client) : Prop := {
  d_buf : zlen (buf c) = W;
  d_used : 0 <= buf_used c <= W;
  d_rbuf : zlen (socks_recv_buf c) = CLIENT_SOCKS_RECV_BUF_SIZE;
  d_rx : exists rest, rx (gh c) = taken (gh c) ++ rest /\ (socks_closed c = false -> rest = sub (buf c) 0 (buf_used c));
  d_send : socks_closed c = false -> socks_up c = true ->
    if buf_used c >? 0 then exists len, socks_send_if c = SPBusy 0 len /\ 0 < len <= buf_used c else socks_send_if c = SPIdle;
  d_recv : socks_closed c = false -> socks_up c = true ->
    match socks_recv_if c with SRBusy d n => d = 0 /\ n = CLIENT_SOCKS_RECV_BUF_SIZE /\ socks_recv_buf_used c = -1 | SRIdle => True end;
  d_down : socks_up c = false -> got (gh c) = [] /\ written (gh c) = [] /\ acked (gh c) = 0;
}.

(** What was received from SOCKS and is not queued in lwIP: it waits in the buffer, for an
    acknowledgement that lwIP still owes. *)
Definition queueing (c : tcp_client) : Prop :=
  socks_recv_tcp_pending c = zlen (written (gh c)) - acked (gh c) /\ 0 <= socks_recv_tcp_pending c /\
  ((socks_recv_buf_used c = -1 /\ got (gh c) = written (gh c) /\ (socks_closed c = false -> socks_recv_if c = SRBusy 0 CLIENT_SOCKS_RECV_BUF_SIZE)) \/
   (0 < socks_recv_buf_used c <= CLIENT_SOCKS_RECV_BUF_SIZE /\ 0 <= socks_recv_buf_sent c < socks_recv_buf_used c /\ socks_recv_waiting c = true /\
    0 < socks_recv_tcp_pending c /\ socks_recv_if c = SRIdle /\
    got (gh c) = written (gh c) ++ sub (socks_recv_buf c) (socks_recv_buf_sent c) (socks_recv_buf_used c - socks_recv_buf_sent c))).

(** The pcb is open. *)
Record copen (c : tcp_client) : Prop := {
  o_closed : client_closed c = false;
  o_pcb : pcb c = mk_pcb PAlive true (negb (socks_closed c)) (socks_up c);
  o_aborted : aborted c = false;
  o_recved : recved (gh c) = zlen (taken (gh c));
  o_peer : peer_closed (gh c) = false;
  o_ended : socks_closed c = true -> socks_ended (gh c) = true /\ socks_up c = true /\ (0 < socks_recv_buf_used c \/ 0 < socks_recv_tcp_pending c);
  o_queue : socks_up c = true -> queueing c;
}.

(** The pcb is closed and SOCKS still has data to take. *)
Record cshut (c : tcp_client) : Prop := {
  s_closed : client_closed c = true;
  s_socks : socks_closed c = false;
  s_status : status (pcb c) <> PAlive;
  s_aborted : aborted c = true <-> status (pcb c) = PAborted;
  s_used : 0 < buf_used c;
  s_peer : status (pcb c) = PClosed -> peer_closed (gh c) = true;
}.

Definition cinv (c : tcp_client) : Prop := cdata c /\ (copen c \/ cshut c).

(** A client that was freed.  Everything from lwIP was passed on, unless SOCKS ended; when the pcb
    was closed although the peer had not closed it, everything from SOCKS was acknowledged. *)
Record final (c : tcp_client) : Prop := {
  f_closed : client_closed c = true /\ socks_closed c = true;
  f_status : status (pcb c) <> PAlive;
  f_aborted : aborted c = true <-> status (pcb c) = PAborted;
  f_up : exists rest, rx (gh c) = taken (gh c) ++ rest /\ (socks_ended (gh c) = false -> rest = []);
  f_down : status (pcb c) = PClosed -> peer_closed (gh c) = true \/ (written (gh c) = got (gh c) /\ acked (gh c) = zlen (got (gh c)));
}.

(** ** Globals: the list of clients, and the dead variable of the running callback ([m]: there is
    one) *)
Definition dmode (m : bool) (s : st) : Prop :=
  dead_vars (glob s) = (if m then [if aborted (cl s) then 1 else 0] else []) /\
  (aborted (cl s) = false -> dead_aborted (cl s) = if m then DVar 0 else DNull).

Definition lists (g : globals) (l : list ptr) : Prop := LinkedList1.rep (tcp_clients g) l /\ num_clients g = zlen l.

Definition ginv (m : bool) (l : list ptr) (i : ptr) (s : st) : Prop := dmode m s /\ me s = i /\ i ∈ l /\ lists (glob s) l.

Definition rok (m : bool) (l : list ptr) (i : ptr) (r : result) : Prop :=
  match r with
  | Alive s => cinv (cl s) /\ ginv m l i s
  | Gone s => final (cl s) /\ me s = i /\ dead_vars (glob s) = (if m then [if aborted (cl s) then 1 else -1] else []) /\ lists (glob s) (without i l)
  end.

Ltac cs := cbn [on note cl me glob set_aborted set_dead set_pcb set_client_closed set_buf set_socks set_send_if set_recv_if set_recv_buf set_recv set_gh
  aborted dead_aborted local_addr remote_addr pcb client_closed buf buf_used socks_username socks_up socks_closed socks_send_if socks_recv_if socks_recv_buf
  socks_recv_buf_used socks_recv_buf_sent socks_recv_waiting socks_recv_tcp_pending gh gh_rx gh_taken gh_recved gh_got gh_written gh_acked gh_peer_closed
  gh_socks_ended rx taken recved got written acked peer_closed socks_ended tcp_clients num_clients dead_vars status cb_err cb_recv cb_sent set_status
  negb andb orb mbind option_bind fst snd] in *.

Lemma zlen_without (l : list ptr) i : NoDup l -> i ∈ l -> zlen (without i l) = zlen l - 1.
Proof.
  intros Hn Hi. destruct (LinkedList1.cut l i Hn Hi) as (l1 & l2 & -> & _ & ->). rewrite !zlen_app, zlen_cons. lia.
Qed.

Lemma kill_ok m l i s v : ginv m l i s -> aborted (cl s) = false -> v <> 0 ->
  exists s', DEAD_KILL_WITH s v = Some s' /\ cl s' = cl s /\ me s' = i /\ i ∈ l /\ lists (glob s') l /\ dead_vars (glob s') = if m then [v] else [].
Proof.
  intros ((Hd & Hp) & Hm & Hi & Hl) Ha Hv. unfold DEAD_KILL_WITH. rewrite (Hp Ha), Ha in *. destruct m; [|by exists s].
  unfold set_var. rewrite Hd. rewrite bool_decide_true by (simpl; lia). by eexists.
Qed.

(** *** The last step: the client is freed *)
Lemma dealloc_ok m l i s : final (cl s) -> ginv m l i s -> exists r, client_dealloc s = Some r /\ rok m l i r.
Proof.
  intros F G. pose proof F as [[H1 H2] _ _ _ _]. pose proof G as (D & Hm & Hi & Hr & Hn). unfold client_dealloc. rewrite H1, H2.
  pose proof Hr as (Hnd & _). destruct (LinkedList1.cut l i Hnd Hi) as (l1 & l2 & El & _ & Ew).
  assert (0 < zlen l) by (rewrite El, zlen_app, zlen_cons; pose proof (zlen_nonneg l1); pose proof (zlen_nonneg l2); lia). bool_true.
  rewrite El in Hr. destruct (LinkedList1.remove_ok _ _ _ _ Hr) as (t & Et & Rt & _). rewrite Hm, Et. cs.
  set (s1 := mk_st _ _ _). assert (lists (glob s1) (without i l)) as HL by (split; [by rewrite Ew|unfold s1; cs; rewrite zlen_without by done; lia]).
  destruct (aborted (cl s)) eqn:Ea; cs.
  - eexists. split; [done|]. cbn [rok]. split; [exact F|]. split; [done|]. split; [|exact HL]. unfold s1. cs. destruct D as [D _]. by rewrite D, Ea.
  - assert (exists s', DEAD_KILL_WITH s1 (-1) = Some s' /\ cl s' = cl s /\ me s' = i /\ lists (glob s') (without i l) /\ dead_vars (glob s') = if m then [-1] else [])
      as (s' & -> & E1 & E2 & E3 & E4).
    { destruct D as [Dv Dp]. unfold DEAD_KILL_WITH, s1. cs. rewrite (Dp Ea). destruct m; cs; [|by eexists].
      unfold set_var. rewrite Dv. rewrite bool_decide_true by (simpl; lia). by eexists. }
    cs. eexists. split; [done|]. cbn [rok]. rewrite E1, Ea. done.
Qed.

(** *** One side after the other *)

(** The pcb was given up, the client does not know yet. *)
Record half (c : tcp_client) : Prop := {
  h_data : cdata c;
  h_closed : client_closed c = false;
  h_status : status (pcb c) <> PAlive;
  h_aborted : aborted c = true <-> status (pcb c) = PAborted;
  h_ended : socks_closed c = true -> socks_ended (gh c) = true;
  h_down : status (pcb c) = PClosed -> peer_closed (gh c) = true \/ (socks_closed c = true /\ written (gh c) = got (gh c) /\ acked (gh c) = zlen (got (gh c)));
}.

(** Fields [cdata] does not speak of. *)
Lemma cdata_ext c c' : cdata c -> buf c' = buf c -> buf_used c' = buf_used c -> socks_recv_buf c' = socks_recv_buf c -> gh c' = gh c ->
  socks_up c' = socks_up c -> socks_send_if c' = socks_send_if c -> socks_recv_if c' = socks_recv_if c -> socks_recv_buf_used c' = socks_recv_buf_used c ->
  socks_closed c' = socks_closed c \/ socks_closed c' = true -> cdata c'.
Proof.
  intros [H1 H2 H3 (rest & Hr & Hr') H4 H5 H6] E1 E2 E3 E4 E5 E6 E7 E8 E9. constructor; rewrite ?E1, ?E2, ?E3, ?E4, ?E5, ?E6, ?E7, ?E8; try done.
  - exists rest. split; [done|]. destruct E9 as [-> | ->]; done.
  - destruct E9 as [-> | ->]; done.
  - destruct E9 as [-> | ->]; done.
Qed.

Lemma free_socks_shut n m l i s a : cdata (cl s) -> ginv m l i s -> client_closed (cl s) = true -> socks_closed (cl s) = false ->
  status (pcb (cl s)) <> PAlive -> (aborted (cl s) = true <-> status (pcb (cl s)) = PAborted) ->
  (status (pcb (cl s)) = PClosed -> peer_closed (gh (cl s)) = true) -> socks_ended (gh (cl s)) = true \/ buf_used (cl s) = 0 ->
  exists r, free_socks_at (S n) s a = Some r /\ rok m l i r.
Proof.
  intros D G Hc Hs Hp Ha Hpc Hu. cbn [free_socks_at]. unfold free_socks_body. rewrite Hs, Hc. cs. rewrite andb_false_r. cs. rewrite Hc. cs. rewrite andb_false_r. apply dealloc_ok; [|exact G].
  destruct (d_rx _ D) as (rest & Hr & Hr'). constructor; cs; try done.
  - exists rest. split; [done|]. intros He. rewrite (Hr' Hs). destruct Hu as [Hu| ->]; [congruence|done].
  - intros H. left. by apply Hpc.
Qed.

Lemma handle_freed_ok n m l i s a : half (cl s) -> ginv m l i s -> exists r, handle_freed_client_body (free_socks_at (S n)) s a = Some r /\ rok m l i r.
Proof.
  intros H G. pose proof H as [D Hc Hp Ha He Hd]. unfold handle_freed_client_body.
  rewrite Hc. cs. destruct (socks_closed (cl s)) eqn:Es; cs.
  - rewrite andb_false_r. apply dealloc_ok; [|exact G]. destruct (d_rx _ D) as (rest & Hr & Hr'). constructor; cs; try done.
    + exists rest. split; [done|]. rewrite He by done. done.
    + intros Hst. destruct (Hd Hst) as [?|(_ & ? & ?)]; [by left|by right].
  - rewrite andb_true_r. case_if.
    + eexists. split; [done|]. split; [|exact G]. split; [by eapply cdata_ext; [exact D|..|left]|]. right. constructor; cs; try done; [lia|].
      intros Hst. destruct (Hd Hst) as [?|[? _]]; [done|congruence].
    + apply free_socks_shut; cs; try done; [by eapply cdata_ext; [exact D|..|left]| |].
      * intros Hst. destruct (Hd Hst) as [?|[? _]]; [done|congruence].
      * right. pose proof (d_used _ D). lia.
Qed.

(** The pcb is open and the client is about to give it up. *)
Record giving (c : tcp_client) : Prop := {
  g_data : cdata c;
  g_closed : client_closed c = false;
  g_status : status (pcb c) = PAlive;
  g_aborted : aborted c = false;
  g_ended : socks_closed c = true -> socks_ended (gh c) = true;
}.

Lemma on_eq f g s : f (cl s) = g (cl s) -> on f s = on g s.
Proof. intros H. unfold on. by rewrite H. Qed.

Lemma with_callbacks_ok f s : status (pcb (cl s)) = PAlive -> with_callbacks f s = Some (on (fun c => set_pcb (f (pcb c)) c) s).
Proof. intros H. unfold with_callbacks. by rewrite bool_decide_true. Qed.

Lemma remove_callbacks_ok s : status (pcb (cl s)) = PAlive -> remove_callbacks s = Some (on (set_pcb (mk_pcb PAlive false false false)) s).
Proof.
  intros H. unfold remove_callbacks, tcp_err, tcp_recv, tcp_sent, with_callbacks. rewrite H. cs. rewrite bool_decide_true by done. cs. rewrite H. cs.
  rewrite bool_decide_true by done. cs. rewrite H, bool_decide_true by done. unfold on. cs. by rewrite H.
Qed.

Lemma abort_pcb_ok m l i s : ginv m l i s -> status (pcb (cl s)) = PAlive -> aborted (cl s) = false ->
  exists s', client_abort_pcb s = Some s' /\ cl s' = set_aborted true (set_pcb (set_status PAborted (pcb (cl s))) (cl s)) /\ ginv m l i s'.
Proof.
  intros G Hp Ha. unfold client_abort_pcb, tcp_abort, with_callbacks. rewrite Ha, Hp. cs. rewrite bool_decide_true by done. cs.
  destruct G as ((Dv & Dp) & Hm & Hi & Hl). unfold DEAD_KILL_WITH. cs. rewrite (Dp Ha). destruct m.
  - unfold set_var. rewrite Dv. rewrite bool_decide_true by (simpl; lia). cs. eexists. split; [done|]. cs. split; [done|]. done.
  - eexists. split; [done|]. cs. split; [done|]. done.
Qed.

Lemma abort_client_ok m l i s a : giving (cl s) -> ginv m l i s -> exists r, client_abort_client s a = Some r /\ rok m l i r.
Proof.
  intros [D Hc Hp Ha He] G. unfold client_abort_client. rewrite Hc, remove_callbacks_ok by done. cs.
  destruct (abort_pcb_ok m l i (on (set_pcb (mk_pcb PAlive false false false)) s)) as (s' & -> & E & G'); [exact G|done..|]. cs.
  apply handle_freed_ok; [|done]. rewrite E. constructor; cs; try done. by eapply cdata_ext; [exact D|..|left].
Qed.

Lemma free_client_ok n m l i s a : giving (cl s) -> ginv m l i s ->
  peer_closed (gh (cl s)) = true \/ (socks_closed (cl s) = true /\ written (gh (cl s)) = got (gh (cl s)) /\ acked (gh (cl s)) = zlen (got (gh (cl s)))) ->
  exists r, free_client_body (handle_freed_client_body (free_socks_at (S n))) s a = Some r /\ rok m l i r.
Proof.
  intros [D Hc Hp Ha He] G Hd. unfold free_client_body.
  rewrite Hc, remove_callbacks_ok by done. cs. unfold tcp_close, with_callbacks. cs. rewrite bool_decide_true by done. cs.
  destruct (close_ok a); cs.
  - apply handle_freed_ok; [|exact G]. constructor; cs; try done; [by eapply cdata_ext; [exact D|..|left]|]. by rewrite Ha.
  - edestruct (abort_pcb_ok m l i) as (s' & -> & E & G'); [|cs; reflexivity|cs; exact Ha|]; [exact G|]. cs.
    apply handle_freed_ok; [|done]. rewrite E. constructor; cs; try done. by eapply cdata_ext; [exact D|..|left].
Qed.

Lemma free_socks_open n m l i s a : cdata (cl s) -> copen (cl s) -> ginv m l i s -> socks_closed (cl s) = false -> socks_ended (gh (cl s)) = true ->
  exists r, free_socks_at (S (S n)) s a = Some r /\ rok m l i r.
Proof.
  intros D O G Hs He. pose proof O as [Hc Hp Ha Hrv Hpc _ Hq].
  cbn [free_socks_at]. change (free_socks_body _ _ _) with (free_socks_body (free_client_body (handle_freed_client_body (free_socks_at (S n)))) s a). unfold free_socks_body.
  rewrite Hs, Hc. cs. rewrite andb_true_r.
  assert (exists s1, (if socks_up (cl s) then tcp_recv s false else Some s) = Some s1 /\
    (exists p, cl s1 = set_pcb p (cl s) /\ status p = PAlive /\ (socks_up (cl s) = true -> p = mk_pcb PAlive true false true)) /\ ginv m l i s1) as (s1 & -> & (p & E & Hst & Hpe) & G1).
  { destruct (socks_up (cl s)) eqn:Eu.
    - unfold tcp_recv, with_callbacks. rewrite Hp. cs. rewrite bool_decide_true by done. eexists. split; [done|]. split; [|exact G]. cs. rewrite Hp. cs.
      eexists. split; [done|]. done.
    - exists s. split; [done|]. split; [|done]. exists (pcb (cl s)). split; [by destruct (cl s)|]. split; [by rewrite Hp|done]. }
  cs. rewrite E. cs. rewrite Hc. cs. rewrite andb_true_r.
  assert (cdata (cl (on (fun c => set_socks (socks_up c) true c) s1))) as D1.
  { cs. rewrite E. eapply cdata_ext; [exact D|..]; cs; try done. by right. }
  destruct (socks_up (cl s)) eqn:Eu; cs; [case_if|].
  - eexists. split; [done|]. split; [|exact G1]. split; [done|]. left. cs. rewrite E. constructor; cs; try done; [by rewrite Hpe, Eu|..].
    + intros _. split; [done|]. split; [done|]. destruct (Hq eq_refl) as (_ & _ & [[Hu _]|(Hu & _ & _ & ? & _)]); [|lia].
      destruct E0 as [E0|E0]; reflect_bool; lia.
    + intros _. destruct (Hq eq_refl) as (Q1 & Q2 & Q3). split; [done|]. split; [done|]. destruct Q3 as [(? & ? & _)|Q3]; [by left|by right].
  - destruct (Hq eq_refl) as (Q1 & Q2 & [(Q3 & Q4 & _)|Q3]); [|lia].
    apply free_client_ok; [|exact G1|].
    + constructor; cs; rewrite ?E; cs; try done. by rewrite E in D1.
    + cs. rewrite E. cs. right. split; [done|]. split; [done|]. rewrite Q4. lia.
  - apply free_client_ok; [|exact G1|].
    + constructor; cs; rewrite ?E; cs; try done. by rewrite E in D1.
    + cs. rewrite E. cs. right. destruct (d_down _ D Eu) as (-> & -> & ->). done.
Qed.

(** ** Queueing data in lwIP *)

(** [k] more bytes of the buffer were queued. *)
Definition queued (k : Z) (c : tcp_client) : tcp_client :=
  set_recv (socks_recv_buf_used c) (socks_recv_buf_sent c + k) (socks_recv_waiting c) (socks_recv_tcp_pending c + k)
    (set_gh (gh_written (sub (socks_recv_buf c) (socks_recv_buf_sent c) k) (gh c)) c).

Lemma queued_0 s : on (queued 0) s = s.
Proof. destruct s as [i g c]. unfold on, queued. cs. rewrite sub_nil, !Z.add_0_r. destruct c as [? ? ? ? ? ? ? ? ? ? ? ? ? ? ? ? ? ? []]. unfold set_recv, set_gh, gh_written. cs. by rewrite app_nil_r. Qed.

Lemma queued_queued j k c : 0 <= j -> 0 <= k -> 0 <= socks_recv_buf_sent c -> queued k (queued j c) = queued (j + k) c.
Proof.
  intros Hj Hk Hs. unfold queued, set_recv, set_gh, gh_written. cs. rewrite <- !app_assoc, <- !Z.add_assoc. repeat f_equal.
  rewrite (sub_split _ _ (j + k) j) by lia. repeat f_equal. lia.
Qed.

Lemma write_loop_ok n : forall s ws, status (pcb (cl s)) = PAlive -> 0 <= socks_recv_buf_sent (cl s) < socks_recv_buf_used (cl s) ->
  socks_recv_buf_used (cl s) <= zlen (socks_recv_buf (cl s)) -> socks_recv_buf_used (cl s) - socks_recv_buf_sent (cl s) < Z.of_nat n ->
  exists k r, 0 <= k <= socks_recv_buf_used (cl s) - socks_recv_buf_sent (cl s) /\ write_loop n s ws = Some r /\ (r = inl (on (queued k) s) \/ r = inr (on (queued k) s)).
Proof.
  induction n as [|n IH]; intros s ws Hp Hs Hu Hn; [lia|]. cbn [write_loop].
  set (hd := match ws with (b, r) :: ws0 => (Z.of_N b, r, ws0) | [] => (0, ERR_OK, []) end). assert (0 <= hd.1.1) as Hb by (destruct ws as [|[? ?] ?]; simpl; lia).
  destruct hd as [[sndbuf answer] ws']. cs. rewrite bmin_int_min. set (w := Z.min _ _). case_if.
  { exists 0. eexists. split; [lia|]. split; [done|]. left. by rewrite queued_0. }
  bool_true. unfold tcp_write, with_callbacks. rewrite Hp. cs. rewrite (bool_decide_true (PAlive = PAlive)) by done. cs.
  assert (forall s', s' = on (fun c => set_pcb (pcb c) c) s -> s' = s) as Hsame.
  { intros s' ->. destruct s as [i g c]. unfold on. cs. by destruct c. }
  rewrite (Hsame _ eq_refl).
  destruct answer; cs; try (exists 0; eexists; (split; [lia|]); (split; [done|]); rewrite queued_0; tauto).
  rewrite (bool_decide_true (ERR_OK = ERR_OK)) by done. change (on _ (note _ s)) with (on (queued w) s). cs. case_if.
  - destruct (IH (on (queued w) s) ws') as (k & r & Hk & Er & Hr); cs; unfold queued; cs; try done; try lia.
    exists (w + k), r. unfold queued in Hk. cs. split; [lia|]. split; [exact Er|]. unfold on in *. cs.
    by rewrite queued_queued in Hr by lia.
  - exists w. eexists. split; [lia|]. split; [done|]. by left.
Qed.

(** An open pcb and SOCKS up, apart from what is in the download buffer. *)
Record cup (c : tcp_client) : Prop := {
  u_data : cdata c;
  u_closed : client_closed c = false;
  u_up : socks_up c = true;
  u_pcb : pcb c = mk_pcb PAlive true (negb (socks_closed c)) true;
  u_aborted : aborted c = false;
  u_recved : recved (gh c) = zlen (taken (gh c));
  u_peer : peer_closed (gh c) = false;
  u_ended : socks_closed c = true -> socks_ended (gh c) = true;
  u_pending : socks_recv_tcp_pending c = zlen (written (gh c)) - acked (gh c) /\ 0 <= socks_recv_tcp_pending c;
  u_idle : socks_recv_if c = SRIdle;
}.

(** Data of the buffer is to be queued. *)
Definition holding (c : tcp_client) : Prop :=
  0 <= socks_recv_buf_sent c < socks_recv_buf_used c /\ socks_recv_buf_used c <= CLIENT_SOCKS_RECV_BUF_SIZE /\
  got (gh c) = written (gh c) ++ sub (socks_recv_buf c) (socks_recv_buf_sent c) (socks_recv_buf_used c - socks_recv_buf_sent c).

(** Everything was queued, and lwIP has something to acknowledge. *)
Definition drained (c : tcp_client) : Prop := socks_recv_buf_used c = -1 /\ got (gh c) = written (gh c) /\ 0 < socks_recv_tcp_pending c.

Lemma cup_giving c : cup c -> giving c.
Proof. intros [D Hc Hu Hp Ha Hr Hpc He Hq Hi]. constructor; try done. by rewrite Hp. Qed.

(** The fields of the download buffer do not matter for [cup]. *)
Lemma cup_recv c used sent waiting : cup c -> cup (set_recv used sent waiting (socks_recv_tcp_pending c) c).
Proof.
  intros [D Hc Hu Hp Ha Hr Hpc He Hq Hi]. constructor; cs; try done.
  destruct D as [D1 D2 D3 D4 D5 D6 D7]. constructor; cs; try done; rewrite ?Hi; intros; done.
Qed.

Lemma cup_queued c k : cup c -> 0 <= k -> 0 <= socks_recv_buf_sent c -> socks_recv_buf_sent c + k <= zlen (socks_recv_buf c) -> cup (queued k c).
Proof.
  intros [D Hc Hu Hp Ha Hr Hpc He [Hq Hq'] Hi] Hk Hs Hb. constructor; unfold queued; cs; try done.
  - destruct D as [D1 D2 D3 D4 D5 D6 D7]. constructor; cs; try done; rewrite ?Hi; intros; try done. congruence.
  - rewrite zlen_app, zlen_sub by lia. lia.
Qed.

Lemma send_out_ok m l i s a : cup (cl s) -> holding (cl s) -> socks_recv_waiting (cl s) = false -> ginv m l i s ->
  exists r ret, client_socks_recv_send_out s a = Some (r, ret) /\
    ((ret = -1 /\ rok m l i r) \/
     (ret = 0 /\ exists s', r = Alive s' /\ cup (cl s') /\ ginv m l i s' /\ socks_closed (cl s') = socks_closed (cl s) /\
       (drained (cl s') \/ (holding (cl s') /\ socks_recv_waiting (cl s') = true /\ 0 < socks_recv_tcp_pending (cl s'))))).
Proof.
  intros U H Hw G. pose proof U as [D Hc Hu Hp Ha Hr Hpc He [Hq Hq'] Hi]. destruct H as (Hs & Hm & Hg). unfold client_socks_recv_send_out.
  rewrite Hc, Hu, Hw. cs. do 2 bool_true. pose proof (d_rbuf _ D) as Hrb.
  destruct (write_loop_ok (S (Z.to_nat (socks_recv_buf_used (cl s) - socks_recv_buf_sent (cl s)))) s (writes a)) as (k & r & Hk & -> & Er);
    [by rewrite Hp|lia|lia|lia|]. cs. set (s1 := on (queued k) s) in *.
  assert (cup (cl s1)) as U1 by (apply cup_queued; [done|lia..]).
  assert (ginv m l i s1) as G1 by exact G.
  destruct (abort_client_ok m l i s1 a (cup_giving _ U1) G1) as (r1 & Ea & R1).
  destruct Er as [-> | ->]; [|rewrite Ea; cs; do 2 eexists; (split; [done|]); by left].
  unfold tcp_output, with_callbacks. rewrite (u_pcb _ U1). cs. rewrite bool_decide_true by done. cs.
  assert (on (fun c => set_pcb (pcb c) c) s1 = s1) as -> by (unfold on; destruct s1 as [? ? []]; done).
  destruct (output_ok a); cs; [|rewrite Ea; cs; do 2 eexists; (split; [done|]); by left].
  case_if; [case_if; [rewrite Ea; cs; do 2 eexists; (split; [done|]); by left|]|];
    do 2 eexists; (split; [done|]); right; (split; [done|]); eexists; (split; [done|]); cs; (split; [by apply cup_recv|]); (split; [done|]); (split; [done|]).
  - right. destruct (u_pending _ U1) as [_ Q1]. unfold holding. cs. split; [|split; [done|lia]]. unfold s1, queued in *. cs. split; [lia|]. split; [done|].
    rewrite Hg, <- app_assoc. f_equal. rewrite (sub_split _ _ _ k) by lia. do 2 f_equal. lia.
  - left. unfold drained, s1, queued in *. cs. split; [done|]. assert (k = socks_recv_buf_used (cl s) - socks_recv_buf_sent (cl s)) as -> by lia.
    split; [done|]. lia.
Qed.

(** ** Handlers of the SOCKS side *)
Lemma initiate_ok m l i s : cup (cl s) -> socks_closed (cl s) = false -> socks_recv_buf_used (cl s) = -1 -> got (gh (cl s)) = written (gh (cl s)) -> ginv m l i s ->
  exists s', client_socks_recv_initiate s = Some s' /\ cinv (cl s') /\ ginv m l i s'.
Proof.
  intros [D Hc Hu Hp Ha Hr Hpc He [Hq Hq'] Hi] Hs Hn Hg G. unfold client_socks_recv_initiate. rewrite Hc, Hs, Hu, Hn, Hi. cs. eexists. split; [done|].
  split; [|exact G]. split.
  - destruct D as [D1 D2 D3 D4 D5 D6 D7]. constructor; cs; try done.
  - left. constructor; cs; try done; [by rewrite Hp, Hu|congruence|]. intros _. split; [done|]. split; [done|]. left. done.
Qed.

Lemma copen_cup c : cdata c -> copen c -> socks_up c = true -> socks_recv_if c = SRIdle -> cup c.
Proof.
  intros D [Hc Hp Ha Hr Hpc He Hq] Hu Hi. destruct (Hq Hu) as (Q1 & Q2 & _). constructor; try done; [by rewrite Hp, Hu|]. intros Hs. by apply He.
Qed.

(** Data in the buffer that waits for an acknowledgement. *)
Lemma waiting_ok m l i s : cup (cl s) -> holding (cl s) -> socks_recv_waiting (cl s) = true -> 0 < socks_recv_tcp_pending (cl s) -> ginv m l i s -> rok m l i (Alive s).
Proof.
  intros [D Hc Hu Hp Ha Hr Hpc He [Hq Hq'] Hi] (H1 & H2 & H3) Hw H4 G. split; [|done]. split; [done|]. left. constructor; try done; [by rewrite Hp, Hu|..].
  - intros Hs. split; [by apply He|]. split; [done|]. by right.
  - intros _. split; [done|]. split; [done|]. right. split_and!; try done; lia.
Qed.

Lemma enabled_split s e : match e with SHandler _ _ => False | _ => True end -> sevent_enabled s e = true ->
  socks_closed (cl s) = false /\ socks_up (cl s) = true /\
  match e with
  | SSendDone n _ => match socks_send_if (cl s) with SPBusy _ len => (0 <? n) && (n <=? len) | SPIdle => false end
  | SRecvDone data _ => match socks_recv_if (cl s) with SRBusy _ avail => (0 <? zlen data) && (zlen data <=? avail) | SRIdle => false end
  | _ => true
  end = true.
Proof.
  unfold sevent_enabled. destruct e; [done|..]; intros _ H; apply andb_true_iff in H as [H1 H]; apply andb_true_iff in H as [H2 H];
    by apply negb_true_iff in H1.
Qed.

Lemma recv_done_ok m l i s d a : cinv (cl s) -> ginv m l i s -> sevent_enabled s (SRecvDone d a) = true ->
  exists r, sevent_exec s (SRecvDone d a) = Some r /\ rok m l i r.
Proof.
  intros [D I] G He. apply enabled_split in He as (Hs & Hu & He); [|done]. destruct (socks_recv_if (cl s)) as [|p n] eqn:Ei; [done|]. reflect_bool.
  pose proof (d_recv _ D Hs Hu) as Hv. rewrite Ei in Hv. destruct Hv as (-> & -> & Hn). pose proof (d_rbuf _ D) as Hb.
  cbn [sevent_exec]. rewrite Ei. bool_true. unfold client_socks_recv_handler_done. cs. rewrite zlen_splice by lia. do 2 bool_true.
  rewrite Hs, Hu, Hn. cs. destruct I as [O|O].
  - pose proof O as [Hc Hp Ha Hr Hpc _ Hq]. rewrite Hc. destruct (Hq Hu) as (Q1 & Q2 & [(_ & Q3 & _)|(Q3 & _)]); [|lia].
    set (s2 := on (fun c => set_recv (zlen d) 0 false (socks_recv_tcp_pending c) c) _).
    assert (cup (cl s2)) as U2.
    { unfold s2. constructor; cs; try done; [|by rewrite Hp, Hu|congruence]. destruct D as [D1 D2 D3 D4 D5 D6 D7]. constructor; cs; try done; [by rewrite zlen_splice by lia|]. by rewrite Hu. }
    assert (holding (cl s2)) as H2.
    { unfold s2, holding. cs. split; [lia|]. split; [lia|]. rewrite Q3, Z.sub_0_r. f_equal. symmetry. apply sub_splice_eq. pose proof (zlen_nonneg (socks_recv_buf (cl s))). lia. }
    destruct (send_out_ok m l i s2 a U2 H2 eq_refl G) as (r & ret & -> & [[-> R]|(-> & s' & -> & U' & G' & Hs' & H')]); cs.
    { exists r. done. }
    cbn [Z.ltb Z.compare]. destruct H' as [(E1 & E2 & E3)|(H' & Hw & Hp')].
    + rewrite E1. cbn [Z.eqb Pos.eqb]. destruct (initiate_ok m l i s' U') as (s3 & -> & I3 & G3); [by rewrite Hs'|done..|]. cs. by exists (Alive s3).
    + destruct H' as (H'1 & H'2 & H'3). bool_false. exists (Alive s'). split; [done|]. by apply waiting_ok.
  - pose proof O as [Hc Hso Hst Ha Hus Hpe]. rewrite Hc. eexists. split; [done|]. split; [|exact G]. split; [|by right; constructor].
    destruct D as [D1 D2 D3 D4 D5 D6 D7]. constructor; cs; try done; [by rewrite zlen_splice by lia|]. by rewrite Hu.
Qed.

(** The upload buffer after SOCKS took its first [n] bytes. *)
Definition consumed (n : Z) (c : tcp_client) : tcp_client :=
  set_buf (splice (buf c) 0 (sub (buf c) n (buf_used c - n))) (buf_used c - n) (set_gh (gh_taken (sub (buf c) 0 n) (gh c)) (set_send_if SPIdle c)).

Lemma consumed_data c n : cdata c -> socks_closed c = false -> 0 < n <= buf_used c ->
  zlen (buf (consumed n c)) = W /\ rx (gh (consumed n c)) = taken (gh (consumed n c)) ++ sub (buf (consumed n c)) 0 (buf_used (consumed n c)) /\
  zlen (taken (gh (consumed n c))) = zlen (taken (gh c)) + n.
Proof.
  intros D Hs Hn. pose proof (d_buf _ D) as Hb. pose proof (d_used _ D) as Hu. unfold consumed. cs.
  assert (zlen (sub (buf c) n (buf_used c - n)) = buf_used c - n) as Hz by (apply zlen_sub; lia).
  split; [by rewrite zlen_splice by lia|]. rewrite zlen_app, (zlen_sub (buf c) 0 n) by lia. split; [|lia].
  destruct (d_rx _ D) as (rest & -> & Hr). rewrite (Hr Hs), <- app_assoc. f_equal.
  pose proof (sub_splice_eq (buf c) 0 (sub (buf c) n (buf_used c - n)) ltac:(lia)) as E. rewrite Hz in E. rewrite E. by apply sub_split; lia.
Qed.

Lemma send_done_ok m l i s n a : cinv (cl s) -> ginv m l i s -> sevent_enabled s (SSendDone n a) = true ->
  exists r, sevent_exec s (SSendDone n a) = Some r /\ rok m l i r.
Proof.
  intros [D I] G He. apply enabled_split in He as (Hs & Hu & He); [|done]. destruct (socks_send_if (cl s)) as [|p len] eqn:Ei; [done|]. reflect_bool.
  pose proof (d_buf _ D) as Hb. pose proof (d_used _ D) as Hus. pose proof (d_send _ D Hs Hu) as Hv. rewrite Ei in Hv.
  destruct (buf_used (cl s) >? 0) eqn:Eu; [|done]. destruct Hv as (len' & [= -> <-] & Hlen). reflect_bool.
  destruct (consumed_data (cl s) n D Hs ltac:(lia)) as (C1 & C2 & C3). cbn [sevent_exec]. rewrite Ei. bool_true.
  unfold client_socks_send_handler_done. cs. rewrite Hs, Hu. cs. do 3 bool_true.
  match goal with |- context [if negb (client_closed _) then tcp_recved ?x n else Some ?x] => set (s1 := x) end.
  assert (cl s1 = consumed n (cl s)) as E1 by done. assert (ginv m l i s1) as G1 by exact G. clearbody s1.
  assert (exists s2, (if negb (client_closed (cl s)) then tcp_recved s1 n else Some s1) = Some s2 /\ ginv m l i s2 /\
    exists z, cl s2 = set_gh (gh_recved z (gh (consumed n (cl s)))) (consumed n (cl s)) /\ (client_closed (cl s) = false -> z = n)) as (s2 & -> & G2 & z & E2 & Hz).
  { destruct I as [O|O].
    - rewrite (o_closed _ O). unfold tcp_recved. rewrite with_callbacks_ok by (rewrite E1; exact (f_equal status (o_pcb _ O))). cs.
      eexists. split; [done|]. split; [exact G1|]. exists n. split; [|done]. cs. rewrite E1. done.
    - rewrite (s_closed _ O). cs. exists s1. split; [done|]. split; [done|]. exists 0. split; [|done]. rewrite E1. unfold set_gh, gh_recved, consumed. cs. by rewrite Z.add_0_r. }
  cs. assert (buf_used (cl s2) = buf_used (cl s) - n) as Eb by (by rewrite E2). assert (client_closed (cl s2) = client_closed (cl s)) as Ec by (by rewrite E2).
  assert (socks_send_if (cl s2) = SPIdle) as Es by (by rewrite E2). rewrite Eb, Ec, Es.
  assert (forall v, cdata (set_send_if v (cl s2)) <-> (if buf_used (cl s) - n >? 0 then exists len, v = SPBusy 0 len /\ 0 < len <= buf_used (cl s) - n else v = SPIdle)) as HD.
  { intros v. rewrite E2. split; [intros X; by pose proof (d_send _ X Hs Hu)|]. intros X. destruct D as [D1 D2 D3 D4 D5 D6 D7].
    constructor; cs; try done; unfold consumed in *; cs; [lia|]. eexists. split; [exact C2|done]. }
  assert (copen (cl s) -> forall v, copen (set_send_if v (cl s2))) as HO.
  { intros [Hc Hp Ha Hr Hpc He Hq] v. rewrite E2. unfold consumed in *. constructor; cs; try done. rewrite Hz by done. lia. }
  case_if.
  - unfold StreamPassInterface_Sender_Send. bool_true. cs. eexists. split; [done|]. split; [|exact G2]. cs. split; [apply (proj2 (HD _)); eexists; split; [done|lia]|].
    destruct I as [O|[Hc Hso Hst Ha Hu' Hpe]]; [left; by apply HO|right]. rewrite E2. constructor; cs; try done. unfold consumed. cs. lia.
  - assert (cdata (cl s2)) as D2.
    { assert (cl s2 = set_send_if SPIdle (cl s2)) as -> by (rewrite <- Es at 1; by destruct (cl s2)). by apply (proj2 (HD _)). }
    destruct I as [O|[Hc Hso Hst Ha Hu' Hpe]].
    + rewrite (o_closed _ O). eexists. split; [done|]. split; [|exact G2]. split; [done|]. left.
      assert (cl s2 = set_send_if SPIdle (cl s2)) as -> by (rewrite <- Es at 1; by destruct (cl s2)). by apply HO.
    + rewrite Hc. apply (free_socks_shut 1); try done; rewrite ?Eb, ?Ec; try (rewrite E2; done); [done|]. right. lia.
Qed.

(** SOCKS came up: the fields of both directions are initialised. *)
Definition brought_up (p : tcp_pcb) (v : spass_view) (c : tcp_client) : tcp_client :=
  set_send_if v (set_socks true (socks_closed c) (set_pcb p (set_recv (-1) (socks_recv_buf_sent c) (socks_recv_waiting c) 0 (set_recv_if SRIdle (set_send_if SPIdle c))))).

Lemma up_ok m l i s a : cinv (cl s) -> ginv m l i s -> socks_closed (cl s) = false -> socks_up (cl s) = false ->
  exists r, client_socks_handler s BSOCKSCLIENT_EVENT_UP a = Some r /\ rok m l i r.
Proof.
  intros [D I] G Hs Hu. unfold client_socks_handler. cs. rewrite Hs, Hu. cs. set (s1 := on _ s).
  set (p := if client_closed (cl s) then pcb (cl s) else mk_pcb PAlive true true true).
  assert ((if negb (client_closed (cl s)) then tcp_sent s1 true else Some s1) = Some (on (set_pcb p) s1)) as ->.
  { unfold p. destruct I as [O|O].
    - rewrite (o_closed _ O). cs. unfold tcp_sent. rewrite with_callbacks_ok by (unfold s1; cs; by rewrite (o_pcb _ O)). f_equal. apply on_eq.
      unfold s1. cs. rewrite (o_pcb _ O), Hs. done.
    - rewrite (s_closed _ O). cs. done. }
  cs. set (v := if buf_used (cl s) >? 0 then SPBusy 0 (buf_used (cl s)) else SPIdle). set (s2 := mk_st (me s) (glob s) (brought_up p v (cl s))).
  match goal with |- context [if ?b then client_send_to_socks ?x else Some ?x] =>
    assert ((if b then client_send_to_socks x else Some x) = Some s2) as -> end.
  { unfold s2, v, s1. cs. destruct (buf_used (cl s) >? 0) eqn:E; [|done]. unfold client_send_to_socks. cs. rewrite Hs, E. cs.
    unfold StreamPassInterface_Sender_Send. by rewrite E. }
  cs. assert (cdata (cl s2)) as D2.
  { destruct (d_down _ D Hu) as (Hg & Hwr & Hak). destruct D as [D1 D2 D3 D4 D5 D6 D7]. unfold s2, brought_up. constructor; cs; try done.
    unfold v. intros _ _. destruct (buf_used (cl s) >? 0) eqn:E; [|done]. reflect_bool. eexists. split; [done|]. lia. }
  assert (ginv m l i s2) as G2 by exact G. assert (client_closed (cl s2) = client_closed (cl s)) as Ec by done. rewrite Ec. destruct I as [O|O].
  - rewrite (o_closed _ O). destruct (d_down _ D Hu) as (Hg & Hwr & Hak). destruct O as [Hc Hp Ha Hr Hpc He Hq].
    destruct (initiate_ok m l i s2) as (s3 & -> & I3 & G3); try done; [|unfold s2, brought_up; cs; by rewrite Hg, Hwr|by exists (Alive s3)].
    unfold p in *. unfold s2, brought_up in *. rewrite Hc in *. constructor; cs; try done; [by rewrite Hs|congruence|]. by rewrite Hwr, Hak.
  - rewrite (s_closed _ O). eexists. split; [done|]. split; [|exact G2]. split; [done|]. right. unfold s2, brought_up, p. rewrite (s_closed _ O). destruct O. by constructor.
Qed.

Lemma ended_ok m l i s e a : cinv (cl s) -> ginv m l i s -> socks_closed (cl s) = false -> e <> BSOCKSCLIENT_EVENT_UP ->
  (e = BSOCKSCLIENT_EVENT_ERROR_CLOSED -> socks_up (cl s) = true) ->
  exists r, client_socks_handler (note gh_socks_ended s) e a = Some r /\ rok m l i r.
Proof.
  intros [D I] G Hs He Hu.
  assert (exists r, client_free_socks (note gh_socks_ended s) a = Some r /\ rok m l i r) as H.
  { destruct I as [O|O].
    - apply (free_socks_open 0); cs; try done; [by destruct D; constructor|]. destruct O. constructor; cs; try done. intros H. congruence.
    - destruct O. apply (free_socks_shut 1); cs; try done; [by destruct D; constructor|by left]. }
  unfold client_socks_handler. cs. rewrite Hs. cs. destruct e; [done|done|]. by rewrite Hu.
Qed.

Lemma sevent_ok m l i s e : cinv (cl s) -> ginv m l i s -> sevent_enabled s e = true -> exists r, sevent_exec s e = Some r /\ rok m l i r.
Proof.
  intros I G He. destruct e as [e a|n a|d a]; [|by apply send_done_ok|by apply recv_done_ok].
  unfold sevent_enabled in He. apply andb_true_iff in He as [Hs He]. apply negb_true_iff in Hs. cbn [sevent_exec]. destruct e.
  - by apply ended_ok.
  - apply negb_true_iff in He. by apply up_ok.
  - by apply ended_ok.
Qed.

Lemma sync_ok m l i es : forall s, cinv (cl s) -> ginv m l i s -> exists r, SYNC_COMMIT s es = Some r /\ rok m l i r.
Proof.
  induction es as [|e es IH]; intros s I G; cbn [SYNC_COMMIT]; [by exists (Alive s)|]. destruct (sevent_enabled s e) eqn:E; [|by apply IH].
  destruct (sevent_ok m l i s e I G E) as (r & -> & R). cs. destruct r as [s'|s']; [|by exists (Gone s')]. destruct R as [I' G']. by apply IH.
Qed.

(** ** Callbacks of lwIP *)
Definition client_of (r : result) : tcp_client := match r with Alive s | Gone s => cl s end.

Lemma rok_aborted m l i r : rok m l i r -> aborted (client_of r) = true <-> status (pcb (client_of r)) = PAborted.
Proof.
  destruct r as [s|s]; cbn [rok client_of]; [|by intros [[] _]]. intros [[_ [[Hc Hp Ha _ _ _ _]|[]]] _]; [|done]. rewrite Ha, Hp. done.
Qed.

Lemma enter_ok l i s : ginv false l i s -> aborted (cl s) = false ->
  exists s', DEAD_ENTER s = (s', DNull) /\ cl s' = set_dead (DVar 0) (cl s) /\ ginv true l i s'.
Proof.
  intros ((Dv & Dp) & Hm & Hi & Hl) Ha. unfold DEAD_ENTER. rewrite Dv, (Dp Ha). eexists. split; [done|]. cs. split; [done|]. split; [|done].
  split; cs; [|done]. by rewrite Ha.
Qed.

Lemma cinv_dead v c : cinv c -> cinv (set_dead v c).
Proof. intros [D [[]|[]]]; (split; [by destruct D; constructor|]); [left|right]; by constructor. Qed.

Lemma leave_ok l i r : rok true l i r ->
  exists r' dead, DEAD_LEAVE2 r DNull = Some (r', dead) /\ rok false l i r' /\ pcb (client_of r') = pcb (client_of r) /\ gh (client_of r') = gh (client_of r) /\
    (killed_err dead = ERR_ABRT <-> status (pcb (client_of r')) = PAborted) /\ killed_err dead <> ERR_MEM.
Proof.
  intros R. pose proof (rok_aborted _ _ _ _ R) as Hab. unfold DEAD_LEAVE2. destruct r as [s|s]; cbn [rok client_of] in *.
  - destruct R as [I ((Dv & Dp) & Hm & Hi & Hl)]. rewrite Dv. cbn [list.last]. destruct (aborted (cl s)) eqn:Ea; cs; cbn [Z.eqb list.last mbind option_bind].
    + cs. rewrite ?Dv. do 2 eexists. split; [done|]. cbn [rok client_of killed_err]. cs. rewrite <- Hab. cbn. split; [|done]. split; [done|]. split; [|done]. split; [done|]. cs. congruence.
    + cs. rewrite ?Dv. do 2 eexists. split; [done|]. cbn [rok client_of killed_err]. cs. rewrite <- Hab. cbn. split; [|done]. split; [by apply cinv_dead|]. split; [|done]. by split.
  - destruct R as (F & Hm & Dv & Hl). rewrite Dv. destruct (aborted (cl s)) eqn:Ea; cs; cbn [Z.eqb list.last mbind option_bind];
      rewrite ?Dv; do 2 eexists; (split; [done|]); cbn [rok client_of killed_err]; cs; rewrite <- Hab; cbn; done.
Qed.

Lemma copen_giving c : cdata c -> copen c -> giving c.
Proof. intros D [Hc Hp Ha _ _ He _]. constructor; try done; [by rewrite Hp|]. intros H. by apply He. Qed.

(** What a callback may return, and that the client is left well-formed. *)
Definition called (l : list ptr) (i : ptr) (o : option (result * err_t)) : Prop :=
  exists r err, o = Some (r, err) /\ rok false l i r /\ (err = ERR_ABRT <-> status (pcb (client_of r)) = PAborted) /\ err <> ERR_MEM.

Lemma leave_called l i r : rok true l i r -> called l i ('(r, dead) ← DEAD_LEAVE2 r DNull; Some (r, killed_err dead)).
Proof. intros R. destruct (leave_ok l i r R) as (r' & dead & -> & R' & _ & _ & H1 & H2). cs. by exists r', (killed_err dead). Qed.

(** The upload buffer after data arrived. *)
Definition arrived (d : list Z) (c : tcp_client) : tcp_client :=
  set_gh (gh_rx d (gh c)) (set_buf (splice (buf c) (buf_used c) d) (buf_used c + zlen d) c).

Lemma arrived_data c d : cdata c -> socks_closed c = false -> buf_used c + zlen d <= W ->
  zlen (buf (arrived d c)) = W /\ rx (gh (arrived d c)) = taken (gh c) ++ sub (buf (arrived d c)) 0 (buf_used c + zlen d).
Proof.
  intros D Hs Hd. pose proof (d_buf _ D) as Hb. pose proof (d_used _ D) as Hu. pose proof (zlen_nonneg d). unfold arrived. cs. split; [by rewrite zlen_splice by lia|].
  destruct (d_rx _ D) as (rest & -> & Hr). rewrite (Hr Hs), <- app_assoc. f_equal. rewrite (sub_split (splice _ _ _) _ _ (buf_used c)) by lia.
  rewrite (sub_splice_ne _ (buf_used c) d 0) by lia. f_equal. rewrite Z.add_0_l. replace (buf_used c + zlen d - buf_used c) with (zlen d) by lia.
  symmetry. apply sub_splice_eq. lia.
Qed.

Lemma recv_func_ok l i s p nested a : cdata (cl s) -> copen (cl s) -> socks_closed (cl s) = false -> ginv false l i s ->
  (forall d, p = Some d -> 0 < zlen d /\ zlen (rx (gh (cl s))) - recved (gh (cl s)) + zlen d <= W) ->
  called l i (client_recv_func W (match p with None => note gh_peer_closed s | Some _ => s end) p nested a).
Proof.
  intros D O Hs G Hp. pose proof O as [Hc Hpcb Ha Hr Hpc He Hq]. unfold client_recv_func. destruct p as [d|].
  - destruct (Hp d eq_refl) as [Hd Hw]. rewrite Hc. cs. destruct (enter_ok l i s G Ha) as (s1 & -> & E1 & G1).
    assert (zlen (rx (gh (cl s))) = zlen (taken (gh (cl s))) + buf_used (cl s)) as Hx.
    { destruct (d_rx _ D) as (rest & -> & Hrest). rewrite (Hrest Hs), zlen_app, zlen_sub; [done|lia|by destruct (d_used _ D)|rewrite (d_buf _ D); by destruct (d_used _ D)]. }
    assert (buf_used (cl s) + zlen d <= W) as Hfit by lia. bool_true.
    rewrite E1. cs. rewrite (d_buf _ D). bool_false. bool_true.
    destruct (arrived_data (cl s) d D Hs Hfit) as (A1 & A2). pose proof (d_used _ D) as Hus.
    set (s2 := note (gh_rx d) _). assert (cl s2 = set_dead (DVar 0) (arrived d (cl s))) as E2 by (unfold s2; cs; rewrite E1; done).
    assert (ginv true l i s2) as G2 by (unfold s2, ginv, dmode in *; cs; by rewrite E1 in *). clearbody s2.
    set (k := if (_ =? _) && _ then _ else _).
    assert (exists r, k = Some r /\ rok true l i r) as (r & -> & R); [|cs; by apply leave_called].
    assert (forall v, (socks_up (cl s) = true -> exists len, v = SPBusy 0 len /\ 0 < len <= buf_used (cl s) + zlen d) -> cinv (set_send_if v (cl s2))) as HI.
    { intros v Hv. rewrite E2. unfold arrived in *. destruct D as [D1 D2 D3 D4 D5 D6 D7]. cs. split; [|left; by constructor].
      constructor; cs; try done; [lia|by eexists; split; [exact A2|]|]. intros _ Hup. bool_true. by apply Hv. }
    assert (cl s2 = set_send_if (socks_send_if (cl s)) (cl s2)) as Esame by (rewrite E2; by destruct (cl s)).
    unfold k. rewrite ?E2. unfold arrived. cs. case_if; reflect_bool.
    + rewrite Hs. unfold client_send_to_socks. rewrite E2. unfold arrived. cs. rewrite Hs. match goal with H : socks_up _ = true |- _ => rewrite H; rename H into Hup end. bool_true. cs.
      assert (buf_used (cl s) = 0) as Hz by lia. pose proof (d_send _ D Hs Hup) as Hsd. rewrite Hz in Hsd. cbn in Hsd. rewrite Hsd.
      unfold StreamPassInterface_Sender_Send. bool_true. cs. apply sync_ok; [|exact G2]. apply HI. intros _. eexists. split; [done|]. lia.
    + eexists. split; [done|]. split; [|done]. rewrite Esame. apply HI. intros Hup. destruct E as [E|E]; [|congruence]. reflect_bool.
      pose proof (d_send _ D Hs Hup) as Hsd. rewrite (proj2 (Z.gtb_lt _ _)) in Hsd by lia. destruct Hsd as (len & -> & Hlen). eexists. split; [done|]. lia.
  - cs. rewrite Hc. cs. destruct (enter_ok l i (note gh_peer_closed s) G Ha) as (s1 & -> & E1 & G1).
    change (client_free_client s1 a) with (free_client_body (handle_freed_client_body (free_socks_at 2)) s1 a). destruct (free_client_ok 1 true l i s1 a) as (r & -> & R); [|done|rewrite E1; by left|cs; by apply leave_called].
    rewrite E1. destruct (copen_giving _ D O). constructor; cs; try done. by destruct D; constructor.
Qed.

(** Everything was queued after SOCKS ended: what lwIP still has to acknowledge keeps the client. *)
Lemma draining_ok m l i s : cup (cl s) -> drained (cl s) -> socks_closed (cl s) = true -> ginv m l i s -> rok m l i (Alive s).
Proof.
  intros [D Hc Hu Hp Ha Hr Hpc He [Hq Hq'] Hi] (H1 & H2 & H3) Hs G. split; [|done]. split; [done|]. left. constructor; try done; [by rewrite Hp, Hu|..].
  - intros _. split; [by apply He|]. split; [done|]. by right.
  - intros _. split; [done|]. split; [done|]. left. split; [done|]. split; [done|]. congruence.
Qed.

Lemma sent_func_ok l i s len nested a : cdata (cl s) -> copen (cl s) -> socks_up (cl s) = true -> ginv false l i s ->
  0 < len <= zlen (written (gh (cl s))) - acked (gh (cl s)) -> called l i (client_sent_func s len nested a).
Proof.
  intros D O Hu G Hlen. pose proof O as [Hc Hpcb Ha Hr Hpc He Hq]. destruct (Hq Hu) as (Q1 & Q2 & Q3).
  unfold client_sent_func. rewrite Hc, Hu. cs. do 2 bool_true. destruct (enter_ok l i s G Ha) as (s1 & -> & E1 & G1).
  set (s2 := note (gh_acked len) _).
  assert (cl s2 = set_gh (gh_acked len (gh (cl s))) (set_recv (socks_recv_buf_used (cl s)) (socks_recv_buf_sent (cl s)) (socks_recv_waiting (cl s))
    (socks_recv_tcp_pending (cl s) - len) (set_dead (DVar 0) (cl s)))) as E2 by (unfold s2; cs; rewrite E1; done).
  assert (ginv true l i s2) as G2 by (unfold s2, ginv, dmode in *; cs; by rewrite E1 in * ).
  assert (cdata (cl s2)) as D2 by (rewrite E2; destruct D as [D1 D2 D3 D4 D5 D6 D7]; constructor; cs; try done; congruence).
  clearbody s2. set (k := if _ >? 0 then _ else _). assert (exists r, k = Some r /\ rok true l i r) as (r & -> & R); [|cs; by apply leave_called]. unfold k.
  destruct Q3 as [(Eu & Eg & Ei)|(Bu & Bs & Ew & Bp & Ei & Eg)].
  - rewrite E1. cs. rewrite Eu. cbn [Z.gtb Z.compare]. destruct (socks_closed (cl s) && (socks_recv_tcp_pending (cl s) - len =? 0)) eqn:Ez; reflect_bool.
    + apply (free_client_ok 1); [|done|rewrite E2; cs; right; split; [done|split; [done|]]].
      * destruct (copen_giving _ D O). rewrite E2. rewrite E2 in D2. by constructor.
      * rewrite Eg. lia.
    + eexists. split; [done|]. split; [|done]. split; [done|]. left. rewrite E2. constructor; cs; try done.
      * intros Hs. destruct (He Hs) as (? & ? & _). split; [done|]. split; [done|]. right. destruct Ez as [Ez|Ez]; [congruence|]. reflect_bool. lia.
      * intros _. split; cs; [lia|]. split; [lia|]. by left.
  - set (s3 := on _ s2). rewrite E1. cs. rewrite (proj2 (Z.gtb_lt _ _)) by lia. rewrite Ew, (proj2 (Z.ltb_lt _ _)) by lia.
    assert (cup (cl s3)) as U3.
    { unfold s3. rewrite E2 in D2. constructor; cs; rewrite ?E2; cs; try done; [by destruct D2; constructor|by rewrite Hpcb, Hu|by intros X; apply He|lia]. }
    assert (holding (cl s3)) as H3 by (unfold s3, holding; cs; rewrite E2; cs; split_and!; done || lia).
    assert (socks_closed (cl s3) = socks_closed (cl s)) as Hs3 by (unfold s3; cs; by rewrite E2).
    destruct (send_out_ok true l i s3 a U3 H3 eq_refl G2) as (r & ret & -> & [[-> R]|(-> & s' & -> & U' & G' & Hs' & H')]); cs; [by exists r|].
    cbn [Z.ltb Z.compare]. rewrite Hs', Hs3. destruct H' as [(X1 & X2 & X3)|(X & Xw & Xp)].
    + bool_true. rewrite X1. cbn [Z.eqb Pos.eqb andb]. destruct (socks_closed (cl s)) eqn:Es; cs.
      * eexists. split; [done|]. apply draining_ok; [done|done|congruence|done].
      * destruct (initiate_ok true l i s' U') as (s4 & -> & I4 & G4); [congruence|done..|]. cs. by apply sync_ok.
    + bool_true. pose proof X as (Y1 & Y2 & _). rewrite (proj2 (Z.eqb_neq _ _)) by lia. cs. eexists. split; [done|]. by apply waiting_ok.
Qed.

Lemma err_func_ok l i s a : cdata (cl s) -> copen (cl s) -> ginv false l i s ->
  exists r, client_err_func (on (fun c => set_pcb (set_status PErrored (pcb c)) c) s) a = Some r /\ rok false l i r.
Proof.
  intros D [Hc Hp Ha Hr Hpc He Hq] G. unfold client_err_func. cs. rewrite Hc. cs. apply (handle_freed_ok 1); [|exact G].
  constructor; cs; try done; [by destruct D; constructor|by rewrite Ha|intros H; by apply He].
Qed.

(** *** A new client *)
Lemma accept_ok g l local remote i c append username init_ok nested : 0 <= W -> lists g l -> dead_vars g = [] -> i ∉ l ->
  zlen (buf c) = W -> zlen (socks_recv_buf c) = CLIENT_SOCKS_RECV_BUF_SIZE ->
  exists o err, listener_accept_func g local remote (Some (i, c)) append username init_ok nested = Some (o, err) /\
    match o with
    | inl g' => g' = g /\ err = ERR_MEM
    | inr r => rok false (l ++ [i]) i r /\ (err = ERR_ABRT <-> status (pcb (client_of r)) = PAborted) /\ err <> ERR_MEM
    end.
Proof.
  intros HW [Hl Hn] Hd Hi Hb Hrb. unfold listener_accept_func. destruct (append && bool_decide (username = None)); [by do 2 eexists|]. destruct init_ok; [|by do 2 eexists]. cs.
  destruct (LinkedList1.append_ok (LinkedList1.with_node (tcp_clients g) i (LinkedList1.mk_node None None)) i) with (l := l) as (t & -> & Rt & _).
  { eexists. apply lookup_insert_eq. }
  { eapply LinkedList1.rep_ext; [exact Hl|done|done|]. intros x Hx. simpl. apply lookup_insert_ne. by intros ->. }
  { done. }
  cbn [mbind option_bind]. pose proof (zlen_nonneg l). bool_true. cs.
  match goal with |- context [DEAD_ENTER ?x] => set (s := x) end.
  assert (cdata (cl s)) as D by (constructor; cs; try done; first [lia|by exists []]).
  assert (copen (cl s)) as O by (constructor; cs; done).
  assert (ginv false (l ++ [i]) i s) as G.
  { split; [by split|]. split; [done|]. split; [apply elem_of_app; right; by left|]. split; [done|]. unfold s. cs. rewrite zlen_app, Hn. done. }
  destruct (enter_ok (l ++ [i]) i s G eq_refl) as (s1 & -> & E1 & G1).
  destruct (sync_ok true (l ++ [i]) i nested s1) as (r & -> & R); [rewrite E1; apply cinv_dead; split; [done|by left]|done|]. cs.
  destruct (leave_called (l ++ [i]) i r R) as (r' & err & E & R' & H1 & H2). destruct (DEAD_LEAVE2 r DNull) as [[r2 d2]|]; [|done]. cs. injection E as -> <-.
  do 2 eexists. split; [done|]. done.
Qed.

(** *** The end of the program *)
Lemma murder_ok l i s : cinv (cl s) -> ginv false l i s ->
  exists s', client_murder s = Some (Gone s') /\ me s' = i /\ lists (glob s') (without i l) /\ dead_vars (glob s') = [] /\
    client_closed (cl s') = true /\ socks_closed (cl s') = true /\ status (pcb (cl s')) <> PAlive.
Proof.
  intros [D I] G. unfold client_murder.
  assert (exists s1, (if negb (client_closed (cl s)) then s ← remove_callbacks s; s ← client_abort_pcb s; Some (on (set_client_closed true) s) else Some s) = Some s1 /\
    ginv false l i s1 /\ client_closed (cl s1) = true /\ status (pcb (cl s1)) <> PAlive) as (s1 & -> & G1 & Hc & Hp).
  { destruct I as [[Hc Hp Ha Hr Hpc He Hq]|[]].
    - rewrite Hc. cs. rewrite remove_callbacks_ok by (by rewrite Hp). cs.
      destruct (abort_pcb_ok false l i (on (set_pcb (mk_pcb PAlive false false false)) s) G) as (s' & -> & E & G'); [done..|]. cs.
      eexists. split; [done|]. split; [exact G'|]. cs. by rewrite E.
    - match goal with H : client_closed _ = true |- _ => rewrite H end. exists s. done. }
  cs. set (s2 := if negb (socks_closed (cl s1)) then _ else _).
  assert (ginv false l i s2 /\ client_closed (cl s2) = true /\ socks_closed (cl s2) = true /\ status (pcb (cl s2)) <> PAlive) as (G2 & Hc2 & Hs2 & Hp2).
  { unfold s2. by destruct (socks_closed (cl s1)) eqn:E. }
  clearbody s2. pose proof G2 as ((Dv & Dp) & Hm & Hi & Hr & Hn). unfold client_dealloc. rewrite Hc2, Hs2. pose proof Hr as (Hnd & _).
  destruct (LinkedList1.cut l i Hnd Hi) as (l1 & l2 & El & _ & Ew).
  assert (0 < zlen l) by (rewrite El, zlen_app, zlen_cons; pose proof (zlen_nonneg l1); pose proof (zlen_nonneg l2); lia). bool_true.
  pose proof Hr as Hr'. rewrite El in Hr'. destruct (LinkedList1.remove_ok _ _ _ _ Hr') as (t & Et & Rt & _). rewrite Hm, Et. cs.
  assert (num_clients (glob s2) - 1 = zlen (without i l)) as Hnum by (rewrite zlen_without by done; lia).
  destruct (aborted (cl s2)) eqn:Ea; cs.
  - eexists. split; [done|]. cs. split; [done|]. split; [split; [by rewrite Ew|done]|]. done.
  - unfold DEAD_KILL_WITH. cs. rewrite (Dp eq_refl). cs. eexists. split; [done|]. cs. split; [done|]. split; [split; [by rewrite Ew|done]|]. done.
Qed.

(** ** All clients *)
Definition winv (w : sys) : Prop :=
  exists l, lists (sg w) l /\ dead_vars (sg w) = [] /\ (forall i, i ∈ l <-> is_Some (clients w !! i)) /\
    (forall i c, clients w !! i = Some c -> cinv c /\ (aborted c = false -> dead_aborted c = DNull)) /\ Forall final (graves w).

(** The client [i], or what was left of it when it was freed. *)
Definition outcome (w : sys) (i : ptr) : option tcp_client := match clients w !! i with Some c => Some c | None => head (graves w) end.

Lemma store_ok w l i r : (forall j, j <> i -> j ∈ l <-> is_Some (clients w !! j)) ->
  (forall j c, j <> i -> clients w !! j = Some c -> cinv c /\ (aborted c = false -> dead_aborted c = DNull)) -> Forall final (graves w) ->
  NoDup l -> rok false l i r -> winv (store w r) /\ outcome (store w r) i = Some (client_of r).
Proof.
  intros Hl Hc Hg Hn R. destruct r as [s|s]; cbn [store rok client_of] in *.
  - destruct R as [I ((Dv & Dp) & Hm & Hi & HL)]. split; [|unfold outcome; cbn [clients]; by rewrite Hm, lookup_insert_eq].
    exists l. cbn [sg clients graves]. split; [done|]. split; [done|]. split; [|split; [|done]].
    + intros j. rewrite Hm. destruct (decide (j = i)) as [->|Hj]; [by rewrite lookup_insert_eq|]. rewrite lookup_insert_ne by done. by apply Hl.
    + intros j c. rewrite Hm. destruct (decide (j = i)) as [->|Hj]; [rewrite lookup_insert_eq; by intros [= <-]|]. rewrite lookup_insert_ne by done. by apply Hc.
  - destruct R as (F & Hm & Dv & HL). split; [|unfold outcome; cbn [clients graves]; by rewrite Hm, lookup_delete_eq].
    exists (without i l). cbn [sg clients graves]. split; [done|]. split; [done|]. split; [|split; [|by constructor]].
    + intros j. rewrite elem_of_without, Hm. destruct (decide (j = i)) as [->|Hj].
      * rewrite lookup_delete_eq. split; [by intros []|by intros []].
      * rewrite lookup_delete_ne by done. rewrite <- Hl by done. tauto.
    + intros j c. rewrite Hm. destruct (decide (j = i)) as [->|Hj]; [by rewrite lookup_delete_eq|]. rewrite lookup_delete_ne by done. by apply Hc.
Qed.

Lemma load_ok w i c : winv w -> clients w !! i = Some c ->
  exists l, NoDup l /\ load w i = Some (mk_st i (sg w) c) /\ cinv c /\ ginv false l i (mk_st i (sg w) c) /\
    forall r, rok false l i r -> winv (store w r) /\ outcome (store w r) i = Some (client_of r).
Proof.
  intros (l & HL & Dv & Hl & Hc & Hg) Hi. exists l. destruct (Hc i c Hi) as [I Dp]. pose proof HL as [(Hn & _) _]. split; [done|].
  split; [unfold load; by rewrite Hi|]. split; [done|]. split.
  - split; [by split|]. split; [done|]. split; [apply Hl; by eexists|done].
  - intros r R. apply (store_ok w l i r); [intros; apply Hl|intros; by eapply Hc|done|done|done].
Qed.

(** What lwIP is told: [ERR_ABRT] exactly when the pcb was aborted in the callback. *)
Definition told (o : option tcp_client) (err : err_t) : Prop :=
  match o with Some c => (err = ERR_ABRT <-> status (pcb c) = PAborted) | None => False end /\ err <> ERR_MEM.

Definition answer_ok (w w' : sys) (e : event) (r : option err_t) : Prop :=
  match e, r with
  | ERecv i _ _ _, Some err | ESent i _ _ _, Some err => told (outcome w' i) err
  | EAccept _ _ (Some (i, _)) _ _ _ _, Some err => told (outcome w' i) err \/ (err = ERR_MEM /\ w' = w)
  | EAccept _ _ None _ _ _ _, Some err => err = ERR_MEM /\ w' = w
  | ESocks _ _, None | EErr _ _, None => True
  | _, _ => False
  end.

Lemma callback_inv w i f : winv w -> callback_ok w i f = true -> exists c, clients w !! i = Some c /\ cdata c /\ copen c /\ f c = true.
Proof.
  intros (l & _ & _ & _ & Hc & _) H. unfold callback_ok in H. destruct (clients w !! i) as [c|] eqn:Ei; [|done]. apply andb_true_iff in H as [H Hf].
  apply bool_decide_eq_true in H. exists c. destruct (Hc i c Ei) as [[D [O|[]]] _]; done.
Qed.

Lemma called_step w l i c o : called l i o -> (forall r, rok false l i r -> winv (store w r) /\ outcome (store w r) i = Some (client_of r)) -> clients w !! i = Some c ->
  exists w' err, ('(r, err) ← o; Some (store w r, Some err)) = Some (w', Some err) /\ winv w' /\ told (outcome w' i) err.
Proof.
  intros (r & err & -> & R & H1 & H2) Hst _. destruct (Hst r R) as [Hw Ho]. cs. do 2 eexists. split; [done|]. split; [done|]. rewrite Ho. by split.
Qed.

Lemma step_ok w e : 0 <= W -> winv w -> enabled W w e = true -> exists w' r, exec W w e = Some (w', r) /\ winv w' /\ answer_ok w w' e r.
Proof.
  intros HW I He. destruct e as [local remote mem append username init_ok nested|i e|i p nested a|i len nested a|i a]; cbn [exec enabled] in *.
  - destruct mem as [[i c]|]; [|cs; do 2 eexists; split; [done|]; destruct w; done]. apply andb_true_iff in He as [He Hr]. apply andb_true_iff in He as [He Hb].
    apply bool_decide_eq_true in He. reflect_bool. destruct I as (l & HL & Dv & Hl & Hc & Hg).
    assert (i ∉ l) as Hi by (intros H; apply Hl in H; rewrite He in H; by destruct H).
    destruct (accept_ok (sg w) l local remote i c append username init_ok nested HW HL Dv Hi Hb Hr) as (o & err & -> & Ho). cs. destruct o as [g|r].
    + destruct Ho as [-> ->]. do 2 eexists. split; [done|]. destruct w as [g cs gs]. split; [by exists l|]. by right.
    + destruct Ho as (R & H1 & H2). pose proof HL as [(Hnd & _) _].
      destruct (store_ok w (l ++ [i]) i r) as [Hw Hout]; [| |done| |done|].
      * intros j Hj. rewrite elem_of_app, list_elem_of_singleton, Hl. tauto.
      * intros j c' _ Hj. by eapply Hc.
      * apply (LinkedList1.NoDup_insert l []); by rewrite app_nil_r.
      * do 2 eexists. split; [done|]. split; [done|]. left. rewrite Hout. done.
  - destruct (load w i) as [s|] eqn:El; [|done]. unfold load in El. destruct (clients w !! i) as [c|] eqn:Ei; [|done].
    destruct (load_ok w i c I Ei) as (l & Hn & E & Ic & G & Hst). injection El as <-. destruct (sevent_ok false l i (mk_st i (sg w) c) e Ic G He) as (r & Er & R).
    destruct (Hst r R) as [Hw Hout]. cbn [mbind option_bind]. rewrite Er. cs. do 2 eexists. split; [done|]. done.
  - destruct (callback_inv w i _ I He) as (c & Ei & D & O & Hf). apply andb_true_iff in Hf as [Hf Hp]. rewrite (o_pcb _ O) in Hf. apply negb_true_iff in Hf.
    destruct (load_ok w i c I Ei) as (l & Hn & -> & Ic & G & Hst). cs. destruct (called_step w l i c (client_recv_func W (match p with None => note gh_peer_closed (mk_st i (sg w) c) | Some _ => mk_st i (sg w) c end) p nested a)) as (w' & err & E & Hw & Ht); [|done|done|].
    + apply (recv_func_ok l i (mk_st i (sg w) c)); try done. intros d ->. by reflect_bool.
    + exists w', (Some err). done.
  - destruct (callback_inv w i _ I He) as (c & Ei & D & O & Hf). apply andb_true_iff in Hf as [Hf Hl]. apply andb_true_iff in Hf as [Hf Hp]. rewrite (o_pcb _ O) in Hf.
    destruct (load_ok w i c I Ei) as (l & Hn & -> & Ic & G & Hst). cs. reflect_bool.
    destruct (called_step w l i c (client_sent_func (mk_st i (sg w) c) len nested a)) as (w' & err & E & Hw & Ht); [by apply sent_func_ok|done|done|].
    by exists w', (Some err).
  - destruct (callback_inv w i _ I He) as (c & Ei & D & O & _). destruct (load_ok w i c I Ei) as (l & Hn & -> & Ic & G & Hst). cs.
    destruct (err_func_ok l i (mk_st i (sg w) c) a D O G) as (r & Er & R). rewrite Er. cs. destruct (Hst r R) as [Hw _]. do 2 eexists. split; [done|]. done.
Qed.

Lemma tcp_reach_inv w : 0 <= W -> reach W start w -> winv w.
Proof.
  intros HW. induction 1 as [|w e w' r _ IH He E].
  - exists []. split; [split; [|done]; split; [apply NoDup_nil_2|done]|]. split; [done|]. split; [|split; [|constructor]].
    + intros i. cbn. rewrite lookup_empty. split; [intros H; by apply not_elem_of_nil in H|by intros []].
    + intros i c. cbn. by rewrite lookup_empty.
  - destruct (step_ok w e HW IH He) as (w1 & r1 & E1 & I1 & _). congruence.
Qed.

(** Both sides of a client are given up. *)
Definition shut_down (c : tcp_client) : Prop := client_closed c = true /\ socks_closed c = true /\ status (pcb c) <> PAlive.

Lemma free_clients_ok n : forall w l, lists (sg w) l -> dead_vars (sg w) = [] -> (forall i, i ∈ l <-> is_Some (clients w !! i)) ->
  (forall i c, clients w !! i = Some c -> cinv c /\ (aborted c = false -> dead_aborted c = DNull)) -> (length l <= n)%nat ->
  exists w' gs, free_clients n w = Some w' /\ clients w' = ∅ /\ lists (sg w') [] /\ graves w' = gs ++ graves w /\ length gs = length l /\ Forall shut_down gs.
Proof.
  induction n as [|n IH]; intros w l HL Dv Hl Hc Hn.
  { destruct l; [|simpl in Hn; lia]. pose proof HL as [(_ & Hf & _) _]. cbn [free_clients]. unfold LinkedList1.LinkedList1_GetFirst. rewrite Hf. simpl.
    exists w, []. split_and!; try done; try apply HL. apply map_eq. intros i. rewrite lookup_empty. destruct (clients w !! i) eqn:E; [|done].
    assert (i ∈ ([] : list ptr)) as H by (apply Hl; by eexists). by apply not_elem_of_nil in H. }
  cbn [free_clients]. pose proof HL as [(Hnd & Hf & _) _]. unfold LinkedList1.LinkedList1_GetFirst. rewrite Hf. destruct l as [|i l]; simpl.
  { exists w, []. split_and!; try done; try apply HL. apply map_eq. intros i. rewrite lookup_empty. destruct (clients w !! i) eqn:E; [|done].
    assert (i ∈ ([] : list ptr)) as H by (apply Hl; by eexists). by apply not_elem_of_nil in H. }
  destruct (clients w !! i) as [c|] eqn:Ei; [|assert (is_Some (clients w !! i)) as [? ?] by (apply Hl; by left); congruence].
  unfold load. rewrite Ei. cbn [mbind option_bind]. destruct (Hc i c Ei) as [I Dp].
  destruct (murder_ok (i :: l) i (mk_st i (sg w) c) I) as (s' & -> & Hm & HL' & Dv' & S1 & S2 & S3).
  { split; [by split|]. split; [done|]. split; [by left|done]. }
  cbn [mbind option_bind store]. rewrite without_cons_eq, without_id in HL' by (by apply list.NoDup_cons in Hnd as [? _]). rewrite Hm.
  destruct (IH (mk_sys (glob s') (delete i (clients w)) (cl s' :: graves w)) l) as (w' & gs & -> & H1 & H2 & H3 & H4 & H5); cbn [sg clients graves]; try done.
  - intros j. destruct (decide (j = i)) as [->|Hj].
    + rewrite lookup_delete_eq. apply list.NoDup_cons in Hnd as [Hnd _]. split; [done|by intros []].
    + rewrite lookup_delete_ne by done. rewrite <- Hl, elem_of_cons. split; [by right|]. intros [?|?]; done.
  - intros j c' Hj. apply (Hc j). apply lookup_delete_Some in Hj as [_ Hj]. done.
  - simpl in Hn. lia.
  - exists w', (gs ++ [cl s']). split_and!; try done; try apply H2.
    + rewrite H3. cbn [graves]. by rewrite <- app_assoc.
    + rewrite length_app, H4. simpl. lia.
    + apply Forall_app. split; [done|]. by repeat constructor.
Qed.

(** C1: no TCP client ever uses memory or a connection that is gone: in every state the program
    reaches, every event of lwIP and of the SOCKS side that can happen is handled without a violated
    assertion, an access outside a buffer, a use of a freed client, of a pcb that was closed, aborted
    or freed by lwIP, or of a dead variable whose frame was left, whatever lwIP answers and whatever
    SOCKS events happen inside the callbacks; the list, the counter and the allocated clients
    agree. *)
Theorem tcp_clients_safe w : 0 <= W -> reach W start w ->
  (forall e, enabled W w e = true -> is_Some (exec W w e)) /\
  exists l, LinkedList1.rep (tcp_clients (sg w)) l /\ num_clients (sg w) = zlen l /\ forall i, i ∈ l <-> is_Some (clients w !! i).
Proof.
  intros HW H%tcp_reach_inv; [|done]. split.
  - intros e He. destruct (step_ok w e HW H He) as (w' & r & -> & _). by eexists.
  - destruct H as (l & [H1 H2] & _ & H3 & _). by exists l.
Qed.

(** C7: a callback returns [ERR_ABRT] to lwIP if and only if [tcp_abort] was called on its pcb in this
    callback, as lwIP requires, also when the client was freed meanwhile; the callbacks of a client
    never return [ERR_MEM], so data within the receive window is never refused; a connection is
    refused with [ERR_MEM] only without a change of the program's state. *)
Theorem tcp_abort_reported w e w' r : 0 <= W -> reach W start w -> enabled W w e = true -> exec W w e = Some (w', r) -> answer_ok w w' e r.
Proof.
  intros HW H%tcp_reach_inv He E; [|done]. destruct (step_ok w e HW H He) as (w1 & r1 & E1 & _ & A). congruence.
Qed.

(** C23: nothing a peer sent is lost, repeated or reordered on the way to SOCKS: the bytes SOCKS took
    are the first ones that arrived; while SOCKS is there the others are in the client's buffer, in
    order; they fit into it, and the window is reopened by exactly what SOCKS took. *)
Theorem tcp_upload_intact w i c : 0 <= W -> reach W start w -> clients w !! i = Some c ->
  (exists rest, rx (gh c) = taken (gh c) ++ rest) /\
  (socks_closed c = false -> rx (gh c) = taken (gh c) ++ sub (buf c) 0 (buf_used c)) /\
  (status (pcb c) = PAlive -> recved (gh c) = zlen (taken (gh c)) /\ (socks_closed c = false -> 0 <= zlen (rx (gh c)) - recved (gh c) <= W)).
Proof.
  intros HW H%tcp_reach_inv Hi; [|done]. destruct H as (l & _ & _ & _ & Hc & _). destruct (Hc i c Hi) as [[D I] _]. destruct (d_rx _ D) as (rest & Er & Hr).
  split; [by exists rest|]. split; [intros Hs; by rewrite <- (Hr Hs)|]. intros Hp. destruct I as [O|[]]; [|done]. split; [apply O|]. intros Hs.
  rewrite (o_recved _ O), Er, (Hr Hs), zlen_app, zlen_sub by (rewrite ?(d_buf _ D); pose proof (d_used _ D); lia). pose proof (d_used _ D). lia.
Qed.

(** C24: nothing SOCKS delivered is lost, repeated or reordered on the way to the peer while its
    connection is open: what was received was written to lwIP but for at most one buffer, and a byte
    is acknowledged only after it was written. *)
Theorem tcp_download_intact w i c : 0 <= W -> reach W start w -> clients w !! i = Some c -> status (pcb c) = PAlive ->
  exists rest, got (gh c) = written (gh c) ++ rest /\ zlen rest <= CLIENT_SOCKS_RECV_BUF_SIZE /\ acked (gh c) <= zlen (written (gh c)).
Proof.
  intros HW H%tcp_reach_inv Hi Hp; [|done]. destruct H as (l & _ & _ & _ & Hc & _). destruct (Hc i c Hi) as [[D I] _]. destruct I as [O|[]]; [|done].
  destruct (socks_up c) eqn:Hu.
  - destruct (o_queue _ O Hu) as (Q1 & Q2 & [(_ & Q3 & _)|(Q3 & Q4 & _ & _ & _ & Q5)]).
    + exists []. rewrite app_nil_r. split; [done|]. split; [done|lia].
    + eexists. split; [exact Q5|]. rewrite zlen_sub by (rewrite ?(d_rbuf _ D); lia). lia.
  - destruct (d_down _ D Hu) as (-> & -> & ->). by exists [].
Qed.

(** C25: no client is stuck: in every reachable state, a client with data for SOCKS has a send
    outstanding; one whose two sides are open is waiting for data from SOCKS or for an
    acknowledgement that lwIP owes; one whose SOCKS side ended is waiting for an acknowledgement; one
    whose pcb is gone has data for SOCKS, which is coming up or took part of the data.  Each such
    completion is an event that is enabled. *)
Theorem tcp_never_stuck w i c a : 0 <= W -> reach W start w -> clients w !! i = Some c ->
  if socks_up c then
    (socks_closed c = false -> 0 < buf_used c -> enabled W w (ESocks i (SSendDone 1 a)) = true) /\
    (client_closed c = false -> (socks_closed c = false /\ forall d, 0 < zlen d <= CLIENT_SOCKS_RECV_BUF_SIZE -> enabled W w (ESocks i (SRecvDone d a)) = true) \/
       enabled W w (ESent i 1 [] a) = true) /\
    (client_closed c = true -> socks_closed c = false /\ 0 < buf_used c)
  else socks_closed c = false /\ enabled W w (ESocks i (SHandler BSOCKSCLIENT_EVENT_UP a)) = true.
Proof.
  intros HW H%tcp_reach_inv Hi; [|done]. destruct H as (l & _ & _ & _ & Hc & _). destruct (Hc i c Hi) as [[D I] _]. destruct (socks_up c) eqn:Hu.
  - split; [|split].
    + intros Hs Hb. cbn [enabled]. unfold load. rewrite Hi. unfold sevent_enabled. cs. rewrite Hs, Hu. cs. pose proof (d_send _ D Hs Hu) as Hsd. rewrite (proj2 (Z.gtb_lt _ _)) in Hsd by lia.
      destruct Hsd as (len & -> & Hl). cbn. apply Z.leb_le. lia.
    + intros Hcl. destruct I as [O|[]]; [|congruence]. destruct (o_queue _ O Hu) as (Q1 & Q2 & Q3).
      assert (0 < socks_recv_tcp_pending c -> enabled W w (ESent i 1 [] a) = true) as Hsent.
      { intros Hpos. cbn [enabled]. unfold callback_ok. rewrite Hi, (o_pcb _ O), Hu. cbn. apply Z.leb_le. lia. }
      destruct (socks_closed c) eqn:Hs.
      * right. destruct (o_ended _ O Hs) as (_ & _ & [Hx|Hx]); [|by apply Hsent]. destruct Q3 as [(? & _)|(_ & _ & _ & ? & _)]; [lia|by apply Hsent].
      * destruct Q3 as [(_ & _ & Q3)|(_ & _ & _ & ? & _)]; [left|right; by apply Hsent]. split; [done|]. intros d Hd. cbn [enabled]. unfold load. rewrite Hi. unfold sevent_enabled. cs.
        rewrite Hs, Hu, (Q3 eq_refl). cs. apply andb_true_iff. split; [apply Z.ltb_lt|apply Z.leb_le]; lia.
    + intros Hcl. destruct I as [O|[]]; [|done]. destruct O. congruence.
  - assert (socks_closed c = false) as Hs.
    { destruct I as [O|[]]; [|done]. destruct (socks_closed c) eqn:E; [|done]. destruct (o_ended _ O E) as (_ & ? & _). congruence. }
    split; [done|]. cbn [enabled]. unfold load. rewrite Hi. unfold sevent_enabled. cs. by rewrite Hs, Hu.
Qed.

(** C4: a client is freed at the right time: when it is, both of its sides are closed; everything
    that arrived from the peer was taken by SOCKS, unless SOCKS itself ended; and if the connection
    was closed in order although the peer had not closed it, everything SOCKS delivered was written
    and acknowledged. *)
Theorem tcp_freed_complete w c : 0 <= W -> reach W start w -> c ∈ graves w ->
  client_closed c = true /\ socks_closed c = true /\ status (pcb c) <> PAlive /\
  (exists rest, rx (gh c) = taken (gh c) ++ rest /\ (socks_ended (gh c) = false -> rest = [])) /\
  (status (pcb c) = PClosed -> peer_closed (gh c) = true \/ (written (gh c) = got (gh c) /\ acked (gh c) = zlen (got (gh c)))).
Proof.
  intros HW H%tcp_reach_inv Hg; [|done]. destruct H as (l & _ & _ & _ & _ & Hf). rewrite list.Forall_forall in Hf. destruct (Hf c Hg) as [[] ? ? ? ?]. done.
Qed.

(** when the program ends, the loop that frees the clients terminates after one round per
    client, and leaves no client: every pcb is closed and every SOCKS side freed, the list is empty
    and the counter zero. *)
Theorem tcp_free_all w : 0 <= W -> reach W start w ->
  exists w' gs, free_clients (Z.to_nat (num_clients (sg w))) w = Some w' /\ clients w' = ∅ /\ num_clients (sg w') = 0 /\
    LinkedList1.LinkedList1_IsEmpty (tcp_clients (sg w')) = true /\ graves w' = gs ++ graves w /\
    zlen gs = num_clients (sg w) /\ Forall shut_down gs.
Proof.
  intros HW H%tcp_reach_inv; [|done]. destruct H as (l & HL & Dv & Hl & Hc & _). pose proof HL as [_ Hn].
  destruct (free_clients_ok (Z.to_nat (num_clients (sg w))) w l HL Dv Hl Hc) as (w' & gs & -> & H1 & [H2 H2'] & H3 & H4 & H5).
  { rewrite Hn. unfold zlen. lia. }
  exists w', gs. split_and!; try done.
  - unfold LinkedList1.LinkedList1_IsEmpty. destruct H2 as (_ & -> & _). done.
  - unfold zlen in *. lia.
Qed.

End Window.
(** ** A run: a window of four bytes *)
Fixpoint run_events (W : Z) (w : sys) (es : list event) : option sys :=
  match es with
  | [] => Some w
  | e :: es => if enabled W w e then '(w, _) ← exec W w e; run_events W w es else None
  end.
Lemma tcp_run_events_reach W es : forall w0 w w', reach W w0 w -> run_events W w es = Some w' -> reach W w0 w'.
Proof.
  induction es as [|e es IH]; intros w0 w w' Hr; cbn [run_events]; [by intros [= <-]|]. destruct (enabled W w e) eqn:He; [|done].
  destruct (exec W w e) as [[w1 r]|] eqn:E; [|done]. cbn. apply IH. by eapply reach_step.
Qed.

Definition demo_mem : tcp_client :=
  mk true (DVar 7) ADDR_NONE ADDR_NONE (mk_pcb PErrored false false false) true [90; 91; 92; 93] 77 None true true SPIdle SRIdle
    (replicate (Z.to_nat 8192) 0) 55 44 true 33 no_traffic.
Definition demo_ans : answers := mk_answers true [(1%N, ERR_OK); (0%N, ERR_OK)] true.
Definition demo_accept : event := EAccept (IPADDR_V4 16909060, 80) (IPADDR_V4 33554442, 4000) (Some (1%positive, demo_mem)) false None true [].
(** SOCKS comes up; three bytes arrive, and SOCKS takes two of them inside the callback; two bytes
    come from SOCKS, of which lwIP queues one. *)
Definition demo_events : list event :=
  [demo_accept; ESocks 1 (SHandler BSOCKSCLIENT_EVENT_UP demo_ans); ERecv 1 (Some [1; 2; 3]) [SSendDone 2 demo_ans] demo_ans;
   ESocks 1 (SRecvDone [9; 8] demo_ans)].
Definition demo_w : sys := Eval vm_compute in default start (run_events 4 start demo_events).
Lemma demo_reach : reach 4 start demo_w.
Proof. apply (tcp_run_events_reach 4 demo_events start start); [constructor|vm_compute; reflexivity]. Qed.

Definition demo_c : tcp_client := Eval vm_compute in default demo_mem (clients demo_w !! 1%positive).

(** The peer closes; SOCKS takes the last byte, and the client is freed. *)
Definition demo_end : list event := [ERecv 1 None [] demo_ans; ESocks 1 (SSendDone 1 demo_ans)].
Definition demo_w2 : sys := Eval vm_compute in default start (run_events 4 demo_w demo_end).
Lemma demo_reach2 : reach 4 start demo_w2.
Proof. apply (tcp_run_events_reach 4 demo_end start demo_w); [exact demo_reach|vm_compute; reflexivity]. Qed.

Lemma tcp_clients_safe_witness :
  num_clients (sg demo_w) = 1 /\ is_Some (exec 4 demo_w (ESent 1 1 [SHandler BSOCKSCLIENT_EVENT_ERROR demo_ans] (mk_answers false [(5%N, ERR_OTHER)] false))).
Proof.
  destruct (tcp_clients_safe 4 demo_w ltac:(lia) demo_reach) as [H _]. split; [reflexivity|]. apply H. vm_compute. reflexivity.
Defined.

(** [tcp_write] fails in the callback: the pcb is aborted, and lwIP is told so. *)
Lemma tcp_abort_reported_witness : exists w',
  exec 4 demo_w (ESent 1 1 [] (mk_answers true [(5%N, ERR_OTHER)] true)) = Some (w', Some ERR_ABRT) /\ told (outcome w' 1%positive) ERR_ABRT.
Proof.
  set (e := ESent 1 1 [] (mk_answers true [(5%N, ERR_OTHER)] true)). destruct (exec 4 demo_w e) as [[w' r]|] eqn:E; [|vm_compute in E; discriminate E].
  assert (r = Some ERR_ABRT) as Hr by (revert E; vm_compute; intros E; injection E; intros; subst; reflexivity).
  exists w'. subst r. split; [reflexivity|]. apply (tcp_abort_reported 4 demo_w e w' (Some ERR_ABRT)); [lia|exact demo_reach|vm_compute; reflexivity|exact E].
Defined.

Lemma tcp_upload_intact_witness : (rx (gh demo_c), taken (gh demo_c), recved (gh demo_c)) = ([1; 2; 3], [1; 2], 2) /\
  rx (gh demo_c) = taken (gh demo_c) ++ sub (buf demo_c) 0 (buf_used demo_c).
Proof.
  split; [reflexivity|]. destruct (tcp_upload_intact 4 demo_w 1%positive demo_c ltac:(lia) demo_reach ltac:(vm_compute; reflexivity)) as (_ & H & _).
  apply H. reflexivity.
Defined.

Lemma tcp_download_intact_witness : written (gh demo_c) = [9] /\ exists rest, got (gh demo_c) = written (gh demo_c) ++ rest.
Proof.
  split; [reflexivity|]. destruct (tcp_download_intact 4 demo_w 1%positive demo_c ltac:(lia) demo_reach ltac:(vm_compute; reflexivity) ltac:(reflexivity)) as (rest & H & _).
  exists rest. exact H.
Defined.

Lemma tcp_never_stuck_witness : enabled 4 demo_w (ESocks 1 (SSendDone 1 demo_ans)) = true.
Proof.
  destruct (tcp_never_stuck 4 demo_w 1%positive demo_c demo_ans ltac:(lia) demo_reach ltac:(vm_compute; reflexivity)) as (H & _).
  apply H; [reflexivity|]. vm_compute. reflexivity.
Defined.

Lemma tcp_freed_complete_witness : exists c, graves demo_w2 = [c] /\ exists rest, rx (gh c) = taken (gh c) ++ rest /\ (socks_ended (gh c) = false -> rest = []).
Proof.
  eexists. split; [reflexivity|]. eapply (tcp_freed_complete 4 demo_w2); [lia|exact demo_reach2|left].
Defined.

Lemma tcp_free_all_witness : exists w' gs, free_clients 1 demo_w = Some w' /\ clients w' = ∅ /\ zlen gs = 1 /\ Forall shut_down gs.
Proof.
  destruct (tcp_free_all 4 demo_w ltac:(lia) demo_reach) as (w' & gs & E & H1 & _ & _ & _ & H2 & H3). exists w', gs.
  split; [exact E|]. split; [exact H1|]. split; [exact H2|exact H3].
Defined.

End TcpClientInv.
